(* ===== verification/_CoqProject ===== *)
-Q . S2P
Prelude.v
GoText.v
GoNum.v
Callsign.v
Bands.v
Spot.v
SpotFormat.v
DedupSpec.v
Dedup.v
Secondary.v
Ring.v
Filter.v
FilterMatch.v
FilterSession.v
UserRecord.v
FilterShow.v
FilterCommands.v
CallDistance.v
KeywordScan.v
CommentParser.v
GoParse.v
PeerFrame.v
PeerReader.v
PeerSpot.v
PeerLink.v
PeerManager.v
PeerSession.v
GoTime.v
Lru.v
Cooldown.v
Quality.v
BandMap.v
Correction.v
Windows.v
Harmonics.v
Adaptive.v
ModeInfer.v
Cty.v
License.v
CallMeta.v
Skimmer.v
Ingest.v
Pipeline.v
Reputation.v
GoBytes.v
Archive.v
Help.v
Commands.v
TelnetInput.v
PathStore.v
TelnetClient.v
TelnetDelivery.v
TelnetSession.v
GridStore.v
GridWriter.v
Feed.v
PskFeed.v
FeedIngest.v
