(* ===== verification/Prelude.v ===== *)
(** * GoCluster: a verification library for the DX cluster server

    GoCluster takes reports of radio contacts ("spots") from several feeds, from its users
    and from other clusters, checks and corrects them, removes repetitions, keeps the recent
    ones in memory and the past ones on disk, and delivers to each telnet client the spots its
    filter lets through, as lines of fixed layout.  This library models the parts that carry
    those decisions, as executable functions translated from the Go source under [src/], and
    proves what they promise.

    ** The parts and where they are

    - Language and libraries.  [GoText] ([strings], [strconv] on ASCII strings), [GoNum]
      (integers with their wrap-around, saturating durations, float64 as rationals rounded to
      nearest even), [GoTime] (the zero instant, float64 arithmetic), [GoParse]
      ([ParseFloat], dates), [GoBytes] (big-endian buffers, bit patterns, and the class of
      ordered key-value stores with its laws), [Lru] (least recently used maps).
    - Spots.  [Callsign], [Bands], [Spot], [SpotFormat]: [spot/callsign.go],
      [spot/bands.go], [spot/mode_alloc.go], [spot/spot.go].  [KeywordScan] and
      [CommentParser]: [spot/comment_parser.go].
    - Ingest.  [Feed] ([rbn/client.go] and the table of [skew/skew.go]), [PskFeed]
      ([pskreporter/client.go]) and [FeedIngest], the loops of [main.go] behind both, with
      [path_report_metrics.go]; [Cty] ([cty/parser.go]), [License] ([uls/]), [CallMeta]
      ([call_meta_cache.go]), [Ingest] ([ingest_validation.go]), [Reputation] (the gate of
      [reputation/] in front of posted spots), [Skimmer] ([aggregate/skimmer.go]).
    - Deduplication.  [DedupSpec] states the contract of a windowed deduplicator as a flat map
      and as the classes [WindowDedup] and [WindowDedupLaws]; [Dedup]
      ([dedup/deduplicator.go]) and [Secondary] ([dedup/secondary.go]) are the sharded
      implementations and refine it.
    - Correction and annotation.  [CallDistance], [Correction] ([spot/correction.go]),
      [Cooldown], [Quality], [BandMap], [Windows] (correction index, frequency averager),
      [Harmonics], [Adaptive], [ModeInfer], and [Pipeline], the body of
      [processOutputSpots] of [main.go] that calls them.
    - Stores.  [Ring] ([buffer/ringbuffer.go], sequential and as an interleaving of atomic
      steps), [Archive] ([archive/archive.go]), [GridStore] ([gridstore/]) and [GridWriter]
      ([startGridWriter] of [main.go]), [PathStore] ([pathreliability/]).
    - Clients.  [Filter], [FilterMatch], [FilterSession], [UserRecord], [FilterShow],
      [FilterCommands] ([filter/], [telnet/filter_commands.go]); [Help] and [Commands]
      ([commands/processor.go]); and [telnet/server.go] as [TelnetInput] (the line editor),
      [TelnetClient] (settings and lines), [TelnetDelivery] (queues, table of clients,
      broadcasts) and [TelnetSession] (login and command loops).
    - Peers.  [PeerFrame], [PeerReader], [PeerSpot], [PeerLink], [PeerManager],
      [PeerSession]: [peer/].

    A spot that a user posts passes [Commands] and [Reputation]; every spot passes [Ingest],
    which asks [License] and, through [CallMeta], [Cty], then [Dedup] and [Pipeline].  The
    pipeline hands it to [Ring], [Archive], the peers, [GridWriter], the path model and
    [Secondary], behind which [TelnetDelivery] deals it to workers; each session's filter
    decides ([FilterMatch]) and [TelnetClient] renders it with [SpotFormat].  What a client
    types goes through [TelnetInput] to [TelnetSession], which routes it to [FilterCommands],
    [TelnetClient] or [Commands]; [UserRecord] stores the settings.  [Archive] and [GridStore]
    are proved against the key-value class of [GoBytes], of which a sorted list is an instance.

    ** How the code is read

    One definition per function, named as in the source where Rocq allows it, with the
    source's guards and early returns in order.  Pointers and tri-state bools are options, nil
    maps are [None]; package variables and clocks are passed explicitly.  Where Go ranges over
    a map and the order could matter, the order is an argument.  A goroutine is the step it
    takes per round, and runs are lists of such steps in any order; where a function releases
    its lock midway (the cleanup of [Dedup]) or works without one ([Ring]) the atomic steps are
    separate and interleave.  Commits that fail, deadlines and answers of services are
    arguments.  Hash functions, the YAML, JSON and plist codecs, H3 cells, the plain Levenshtein
    library, regular expressions and SQL queries are parameters.  Strings are ASCII: Unicode
    case mapping and white space are not modelled, and NaN and infinite floats are outside the
    model.  A nil receiver, which the methods only guard against, has no counterpart.

    Loops are [Fixpoint]s on the list they range over.  Where the recursion is not structural
    the fuel is a bound the loop does not use up: the binary
    digits for decimal ones ([digits_fuel]), one visit per node ([ac_bfs]), the bytes of a
    buffer or of the input ([tryReadLine], [read_events], [read_loop], [readLineBounded]), the size of a map
    ([evict_loop]), the hop count ([relay]).  The loops of a session take a time per round from
    a list; [session_ends] shows that they end with the connection when the list is long
    enough.

    ** What the theorems show

    - Deduplication: both deduplicators give the verdicts of the contract
      ([dedup_refines_spec], [secondary_refines_spec]); keys separate exactly the documented
      fields; every interleaving of cleanup keeps the counters consistent.
    - Spots and lines: line lengths and columns ([format_line_length], [client_line_length]),
      normalisation, bands, cheapest edit scripts ([cwCallDistance_optimal]), the parsed
      comment against a reference.
    - Ingest and pipeline: a feed's line is the spot its words say ([feed_line_parsed]) and
      overlong lines are skipped whole ([readLoop_lines]); messages of PSKReporter share
      pooled buffers without it showing ([buffers_invisible]), every spot has its message
      ([psk_spots_grounded]), and what is kept for the predictor alone is accounted for
      ([path_only_exact]); spots that pass have known calls ([ingest_passes_known_calls]); the
      longest prefix is found ([cty_lookup_longest_prefix]); sinks are guarded, calls are
      only changed with a reason, glyphs are well formed ([pipeline_sinks_guarded],
      [pipeline_calls_justified], [pipeline_confidence_glyph]); corrections, harmonics,
      windows, qualities and aggregated spots are those of unpruned histories
      ([correction_justified], [harmonics_refine_contract], [index_candidates_exact],
      [quality_refines_table], [aggregate_emits_grounded]).
    - Stores: readers of the ring are safe under every interleaving
      ([ring_concurrent_safe]); the archive keeps what it accepted, reads it back and expires
      exactly by mode ([archive_keeps_all], [archive_roundtrip], [retention_exact]); the grid
      store is a map of calls whose index and count agree with it ([grid_store_refines]) and
      merging reports in the writer changes nothing ([reports_stored]); path readings are one
      decayed history per path and maintenance is invisible ([path_store_refines],
      [maintenance_invisible]).
    - Clients: filters are functions of the commands ([filter_session_spec],
      [command_lines_decide]), survive saving ([saved_filter_delivers_the_same]) and are not
      touched by refused lines; typed bytes are the lines meant ([typed_lines_read],
      [typed_session_runs]); queues deliver in order, broadcasts reach exactly the connected
      sessions, and no session disturbs another ([queues_in_order],
      [broadcast_reaches_everyone], [session_spares_others], [goodbye]); posts are queued
      when allowed and at a bounded rate ([dx_command_spec], [dx_flood_bounded]); listings
      are exact ([show_mydx_exact]).
    - Peers: streams are read independently of how they are cut, lines are read back, frames
      die out and are relayed once, spots cross a link, and sessions are authorised
      ([read_events_stream], [peer_line_roundtrip], [relay_terminates], [relayed_once],
      [spot_crosses_link], [inbound_handshake_authorised]).
    - Defects.  Theorems and examples that contradict the code's comments or intent stand in
      the file of their component, among them [cleanup_race],
      [secondary_saturated_age_is_duplicate], [Reset_restores_snapshot],
      [reject_after_reject_all], [dxbm_60m_selects_6m], [restart_overwrites],
      [stale_beacon_in_ring], [keepalive_silent], [repeated_call_is_purged],
      [derived_grid_stored_as_reported], [nan_accepted] and [late_spot_clears_hour].

    ** What is not modelled

    Sockets, listeners, timers, goroutine start-up and shutdown, files and databases as such
    (operating system); the loading of [config/] (a YAML codec with defaults); the connections
    of [rbn/] and [pskreporter/] and the MQTT client (network clients); the solar
    weather gates (trigonometric functions on feeds); the H3 tables (a C library and generated
    data); the download of skew tables, other downloads, reports, statistics and the
    dashboard (display and I/O without decisions on spots); the offline tools under [cmd/]; the wiring and schedulers of
    [main.go] around the functions above. *)

From stdpp Require Export base tactics option list gmap strings.
From Stdlib Require Export ZArith Lia.
From Stdlib Require Export Ascii.
From Stdlib Require String.

(** ** Tactics *)

(** Split on the innermost [if]/[match] scrutinee of the goal, keeping the
    equation, until none is left. *)
Ltac split_matches :=
  repeat (case_match; simplify_eq/=).

(** Turn boolean equations in the context into propositions. *)
Ltac boolify :=
  repeat match goal with
  | H : (_ && _) = true |- _ => apply andb_true_iff in H as [? ?]
  | H : (_ || _) = false |- _ => apply orb_false_iff in H as [? ?]
  | H : negb _ = true |- _ => apply negb_true_iff in H
  | H : negb _ = false |- _ => apply negb_false_iff in H
  | H : bool_decide _ = true |- _ => apply bool_decide_eq_true in H
  | H : bool_decide _ = false |- _ => apply bool_decide_eq_false in H
  | H : (_ <? _)%Z = true |- _ => apply Z.ltb_lt in H
  | H : (_ <? _)%Z = false |- _ => apply Z.ltb_ge in H
  | H : (_ <=? _)%Z = true |- _ => apply Z.leb_le in H
  | H : (_ <=? _)%Z = false |- _ => apply Z.leb_gt in H
  | H : (_ =? _)%Z = true |- _ => apply Z.eqb_eq in H
  | H : (_ =? _)%Z = false |- _ => apply Z.eqb_neq in H
  end.

(** Close a goal that is decided by evaluation: an equation or an inequality on
    concrete numbers. *)
Ltac compute_goal :=
  vm_compute; first [reflexivity | (let H := fresh in intros H; discriminate H)].

Create Rewrite HintDb gotext.
Create Rewrite HintDb gospot.

(** ** Lists *)

(** [length] of a prefix never exceeds the bound. *)
Lemma take_le_length {A} (n : nat) (l : list A) : length (take n l) <= n.
Proof. rewrite length_take. lia. Qed.

Lemma existsb_exists_elem {A} (f : A -> bool) (l : list A) :
  existsb f l = true <-> exists x, x ∈ l /\ f x = true.
Proof.
  rewrite existsb_exists.
  split; intros (x & Hx & Hf); exists x; split; auto; by apply list_elem_of_In.
Qed.

Lemma forallb_forall_elem {A} (f : A -> bool) (l : list A) :
  forallb f l = true <-> forall x, x ∈ l -> f x = true.
Proof.
  rewrite forallb_forall.
  split; intros H x Hx; apply H; by apply list_elem_of_In.
Qed.
