(* ===== verification/GoText.v ===== *)
(** * GoText: the parts of Go's [strings] and [strconv] packages the cluster uses

    A Go string is a byte sequence; it is a [string] here.  [ToUpper],
    [ToLower] and [TrimSpace] follow the ASCII paths of the Go library, so the
    model is exact on ASCII text, which is what callsigns, modes, bands, grids
    and protocol frames consist of; a byte >= 0x80 is left alone.  The
    substring functions are byte-wise, as in Go. *)

From S2P Require Import Prelude.

Local Open Scope Z_scope.

(** ** Bytes *)

Definition byte_val (c : ascii) : Z := Z.of_N (N_of_ascii c).

Definition byte_of (z : Z) : ascii := ascii_of_N (Z.to_N z).

(** [lo <= c <= hi] on byte values. *)
Definition in_range (lo hi : ascii) (c : ascii) : bool :=
  (byte_val lo <=? byte_val c) && (byte_val c <=? byte_val hi).

Definition is_digit (c : ascii) : bool := in_range "0" "9" c.
Definition is_upper (c : ascii) : bool := in_range "A" "Z" c.
Definition is_lower (c : ascii) : bool := in_range "a" "z" c.

Definition upper_byte (c : ascii) : ascii :=
  if is_lower c then byte_of (byte_val c - 32) else c.
Definition lower_byte (c : ascii) : ascii :=
  if is_upper c then byte_of (byte_val c + 32) else c.

(** The ASCII white space of [unicode.IsSpace]: tab, LF, VT, FF, CR, blank. *)
Definition is_space (c : ascii) : bool :=
  (byte_val c =? 32) || ((9 <=? byte_val c) && (byte_val c <=? 13)).

(** ** Strings *)

Definition len (s : string) : Z := Z.of_nat (String.length s).

Fixpoint smap (f : ascii -> ascii) (s : string) : string :=
  match s with
  | EmptyString => EmptyString
  | String c s' => String (f c) (smap f s')
  end.

Fixpoint sforall (p : ascii -> bool) (s : string) : bool :=
  match s with
  | EmptyString => true
  | String c s' => p c && sforall p s'
  end.

Definition sexists (p : ascii -> bool) (s : string) : bool :=
  negb (sforall (fun c => negb (p c)) s).

Definition ToUpper (s : string) : string := smap upper_byte s.
Definition ToLower (s : string) : string := smap lower_byte s.

Fixpoint trim_left (p : ascii -> bool) (s : string) : string :=
  match s with
  | EmptyString => EmptyString
  | String c s' => if p c then trim_left p s' else s
  end.

Fixpoint trim_right (p : ascii -> bool) (s : string) : string :=
  match s with
  | EmptyString => EmptyString
  | String c s' =>
      match trim_right p s' with
      | EmptyString => if p c then EmptyString else String c EmptyString
      | t => String c t
      end
  end.

Definition TrimSpace (s : string) : string := trim_right is_space (trim_left is_space s).

(** [s[:n]] and [s[n:]] for [0 <= n]; past the end Go panics, every use below
    is guarded by a length test. *)
Fixpoint stake (n : nat) (s : string) : string :=
  match n, s with
  | S n', String c s' => String c (stake n' s')
  | _, _ => EmptyString
  end.

Fixpoint sdrop (n : nat) (s : string) : string :=
  match n, s with
  | S n', String _ s' => sdrop n' s'
  | _, _ => s
  end.

Fixpoint HasPrefix (s pre : string) {struct pre} : bool :=
  match pre, s with
  | EmptyString, _ => true
  | String a pre', String b s' => bool_decide (a = b) && HasPrefix s' pre'
  | String _ _, EmptyString => false
  end.

Definition HasSuffix (s suf : string) : bool :=
  (String.length suf <=? String.length s)%nat
  && bool_decide (sdrop (String.length s - String.length suf) s = suf).

Definition TrimPrefix (s pre : string) : string :=
  if HasPrefix s pre then sdrop (String.length pre) s else s.

Definition TrimSuffix (s suf : string) : string :=
  if HasSuffix s suf then stake (String.length s - String.length suf) s else s.

Fixpoint Contains (s sub : string) : bool :=
  HasPrefix s sub ||
  match s with
  | EmptyString => false
  | String _ s' => Contains s' sub
  end.

(** [strings.ReplaceAll] with a non-empty [old]: leftmost, non-overlapping.
    [skip] bytes of a match already replaced are dropped. *)
Fixpoint replace_from (old new : string) (skip : nat) (s : string) : string :=
  match s with
  | EmptyString => EmptyString
  | String c s' =>
      match skip with
      | S k => replace_from old new k s'
      | O => if HasPrefix s old
             then new +:+ replace_from old new (String.length old - 1) s'
             else String c (replace_from old new 0 s')
      end
  end.

Definition ReplaceAll (s old new : string) : string := replace_from old new 0 s.

(** [strings.LastIndexByte]; [None] stands for -1. *)
Fixpoint LastIndexByte (s : string) (b : ascii) : option nat :=
  match s with
  | EmptyString => None
  | String c s' =>
      match LastIndexByte s' b with
      | Some i => Some (S i)
      | None => if bool_decide (c = b) then Some O else None
      end
  end.

Fixpoint Join (parts : list string) (sep : string) : string :=
  match parts with
  | [] => ""
  | [p] => p
  | p :: rest => p +:+ sep +:+ Join rest sep
  end.

(** [strings.Split s sep] for a one-byte separator. *)
Fixpoint split_byte (sep : ascii) (s : string) : list string :=
  match s with
  | EmptyString => [""]
  | String c s' =>
      if bool_decide (c = sep) then "" :: split_byte sep s'
      else match split_byte sep s' with
           | [] => [String c ""]
           | w :: ws => String c w :: ws
           end
  end.

(** [strings.Fields]: the maximal runs of non-space bytes. *)
Fixpoint Fields (s : string) : list string :=
  match s with
  | "" => []
  | String c r =>
      if is_space c then Fields r
      else match r with
           | "" => [String c ""]
           | String c' _ =>
               if is_space c' then String c "" :: Fields r
               else match Fields r with
                    | w :: ws => String c w :: ws
                    | [] => [String c ""]
                    end
           end
  end.

Fixpoint Repeat (s : string) (n : nat) : string :=
  match n with
  | O => ""
  | S n' => s +:+ Repeat s n'
  end.

Definition EqualFold (a b : string) : bool := bool_decide (ToLower a = ToLower b).

(** ** Decimal integers *)

Definition max_int64 : Z := 2 ^ 63 - 1.
Definition min_int64 : Z := - 2 ^ 63.

Fixpoint parse_digits (s : string) (acc : Z) : option Z :=
  match s with
  | EmptyString => Some acc
  | String c s' =>
      if is_digit c then parse_digits s' (acc * 10 + (byte_val c - 48)) else None
  end.

(** [strconv.Atoi]: optional sign, at least one digit, in range of [int]. *)
Definition Atoi (s : string) : option Z :=
  let '(neg, body) :=
    match s with
    | String c s' =>
        if bool_decide (c = "-"%char) then (true, s')
        else if bool_decide (c = "+"%char) then (false, s')
        else (false, s)
    | EmptyString => (false, s)
    end in
  match body with
  | EmptyString => None
  | _ =>
      match parse_digits body 0 with
      | None => None
      | Some n =>
          let v := if neg : bool then - n else n in
          if (min_int64 <=? v) && (v <=? max_int64) then Some v else None
      end
  end.

(** Decimal digits of a non-negative number, most significant first; the fuel
    is the number's bit size plus one, which bounds its decimal size. *)
Fixpoint digits_fuel (fuel : nat) (n : Z) (acc : string) : string :=
  match fuel with
  | O => acc
  | S k =>
      let acc' := String (byte_of (48 + n mod 10)) acc in
      if n <? 10 then acc' else digits_fuel k (n / 10) acc'
  end.

Definition digits (n : Z) : string := digits_fuel (S (Z.to_nat (Z.log2 n))) n "".

(** [strconv.Itoa]. *)
Definition Itoa (n : Z) : string :=
  if n <? 0 then String "-" (digits (- n)) else digits n.

(** ** Facts *)

(** Decide a closed property of bytes by running through all 256. *)
Ltac all_bytes :=
  let c := fresh "c" in
  intros c; destruct c as [[] [] [] [] [] [] [] []]; vm_compute; try reflexivity; try done.

Lemma upper_byte_idemp : forall c, upper_byte (upper_byte c) = upper_byte c.
Proof. all_bytes. Qed.

Lemma lower_byte_idemp : forall c, lower_byte (lower_byte c) = lower_byte c.
Proof. all_bytes. Qed.

Lemma is_space_upper : forall c, is_space (upper_byte c) = is_space c.
Proof. all_bytes. Qed.

Lemma is_space_lower : forall c, is_space (lower_byte c) = is_space c.
Proof. all_bytes. Qed.

Lemma byte_val_range c : 0 <= byte_val c < 256.
Proof. revert c. all_bytes. Qed.

Lemma byte_of_val : forall c, byte_of (byte_val c) = c.
Proof. all_bytes. Qed.

Lemma byte_val_of z : 0 <= z < 256 -> byte_val (byte_of z) = z.
Proof.
  intros H. unfold byte_val, byte_of. rewrite N_ascii_embedding; lia.
Qed.

Lemma length_sapp (a b : string) :
  String.length (a +:+ b) = (String.length a + String.length b)%nat.
Proof. induction a as [|c a IH]; [done|]. unfold String.app. simpl. by f_equal. Qed.

Lemma len_sapp (a b : string) : len (a +:+ b) = len a + len b.
Proof. unfold len. rewrite length_sapp. lia. Qed.

Lemma sapp_assoc (a b c : string) : (a +:+ b) +:+ c = a +:+ (b +:+ c).
Proof. induction a as [|x a IH]; [done|]. unfold String.app in *. simpl. by f_equal. Qed.

Lemma sapp_nil_r (a : string) : a +:+ "" = a.
Proof. induction a as [|x a IH]; [done|]. unfold String.app in *. simpl. by f_equal. Qed.

Lemma sapp_cons c (a b : string) : String c a +:+ b = String c (a +:+ b).
Proof. done. Qed.

Lemma length_smap f s : String.length (smap f s) = String.length s.
Proof. induction s; simpl; auto. Qed.

Lemma length_stake n s : String.length (stake n s) = (n `min` String.length s)%nat.
Proof. revert s. induction n as [|n IH]; intros [|c s]; simpl; auto. Qed.

Lemma length_sdrop n s : String.length (sdrop n s) = (String.length s - n)%nat.
Proof. revert s. induction n as [|n IH]; intros [|c s]; simpl; auto. Qed.

Lemma stake_sdrop n s : stake n s +:+ sdrop n s = s.
Proof.
  revert s. induction n as [|n IH]; intros [|c s]; simpl; auto.
  rewrite sapp_cons. by rewrite IH.
Qed.

Lemma stake_app_length a b : stake (String.length a) (a +:+ b) = a.
Proof. induction a as [|c a IH]; [by destruct b|]. rewrite sapp_cons. simpl. by rewrite IH. Qed.

Lemma sdrop_app_length a b : sdrop (String.length a) (a +:+ b) = b.
Proof. induction a as [|c a IH]; [by destruct b|]. by rewrite sapp_cons. Qed.

Lemma stake_all n s : (String.length s <= n)%nat -> stake n s = s.
Proof.
  revert s. induction n as [|n IH]; intros [|c s] H; simpl in *; auto; [lia|].
  f_equal. apply IH. lia.
Qed.

Lemma length_Repeat s n : String.length (Repeat s n) = (n * String.length s)%nat.
Proof. induction n as [|n IH]; simpl; [done|]. rewrite length_sapp. lia. Qed.

Lemma length_trim_left p s : (String.length (trim_left p s) <= String.length s)%nat.
Proof. induction s as [|c s IH]; simpl; [lia|]. destruct (p c); simpl; lia. Qed.

Lemma length_trim_right p s : (String.length (trim_right p s) <= String.length s)%nat.
Proof.
  induction s as [|c s IH]; simpl; [lia|].
  destruct (trim_right p s) eqn:E; simpl in *; [|lia]. destruct (p c); simpl; lia.
Qed.

Lemma length_TrimSpace s : (String.length (TrimSpace s) <= String.length s)%nat.
Proof.
  unfold TrimSpace. pose proof (length_trim_right is_space (trim_left is_space s)).
  pose proof (length_trim_left is_space s). lia.
Qed.

Lemma smap_idemp f s : (forall c, f (f c) = f c) -> smap f (smap f s) = smap f s.
Proof. intros Hf. induction s as [|c s IH]; simpl; [done|]. by rewrite Hf, IH. Qed.

Lemma ToUpper_idemp s : ToUpper (ToUpper s) = ToUpper s.
Proof. apply smap_idemp, upper_byte_idemp. Qed.

Lemma ToUpper_sapp a b : ToUpper (a +:+ b) = ToUpper a +:+ ToUpper b.
Proof.
  unfold ToUpper. induction a as [|c a IH]; [done|].
  rewrite sapp_cons. cbn [smap]. rewrite sapp_cons. by f_equal.
Qed.

Lemma length_ToUpper s : String.length (ToUpper s) = String.length s.
Proof. apply length_smap. Qed.

(** A byte map that keeps [p] commutes with trimming by [p]. *)
Lemma trim_left_smap p f s :
  (forall c, p (f c) = p c) -> trim_left p (smap f s) = smap f (trim_left p s).
Proof. intros Hp. induction s as [|c s IH]; simpl; [done|]. rewrite Hp. by destruct (p c). Qed.

Lemma trim_right_smap p f s :
  (forall c, p (f c) = p c) -> trim_right p (smap f s) = smap f (trim_right p s).
Proof.
  intros Hp. induction s as [|c s IH]; simpl; [done|]. rewrite IH.
  destruct (trim_right p s); simpl; [|done]. rewrite Hp. by destruct (p c).
Qed.

Lemma TrimSpace_ToUpper s : TrimSpace (ToUpper s) = ToUpper (TrimSpace s).
Proof.
  unfold TrimSpace, ToUpper.
  rewrite trim_left_smap by apply is_space_upper.
  apply trim_right_smap, is_space_upper.
Qed.

Lemma TrimSpace_ToLower s : TrimSpace (ToLower s) = ToLower (TrimSpace s).
Proof.
  unfold TrimSpace, ToLower.
  rewrite trim_left_smap by apply is_space_lower.
  apply trim_right_smap, is_space_lower.
Qed.

Lemma trim_right_idemp p s : trim_right p (trim_right p s) = trim_right p s.
Proof.
  induction s as [|c s IH]; simpl; [done|].
  destruct (trim_right p s) as [|d t] eqn:E; simpl in *.
  - destruct (p c) eqn:Ec; simpl; [done|]. by rewrite Ec.
  - by rewrite IH.
Qed.

(** The first byte survives right-trimming unless everything goes. *)
Lemma trim_left_right_head p s :
  trim_left p s = s -> trim_left p (trim_right p s) = trim_right p s.
Proof.
  destruct s as [|c s]; simpl; [done|].
  destruct (p c) eqn:Ec.
  - intros H. exfalso. pose proof (length_trim_left p s) as Hl. rewrite H in Hl. simpl in Hl. lia.
  - intros _. destruct (trim_right p s); simpl; by rewrite Ec.
Qed.

Lemma trim_left_idemp p s : trim_left p (trim_left p s) = trim_left p s.
Proof.
  induction s as [|c s IH]; simpl; [done|]. destruct (p c) eqn:Ec; simpl; [done|]. by rewrite Ec.
Qed.

Lemma TrimSpace_idemp s : TrimSpace (TrimSpace s) = TrimSpace s.
Proof.
  unfold TrimSpace. rewrite trim_left_right_head by apply trim_left_idemp.
  apply trim_right_idemp.
Qed.

Lemma HasPrefix_spec s pre : HasPrefix s pre = true <-> exists t, s = pre +:+ t.
Proof.
  revert s. induction pre as [|a pre IH]; intros s; simpl.
  - split; [|done]. intros _. by exists s.
  - destruct s as [|b s].
    + split; [done|]. by intros [t ?].
    + rewrite andb_true_iff, bool_decide_eq_true, IH. split.
      * intros [-> [t ->]]. by exists t.
      * intros [t Ht]. rewrite sapp_cons in Ht. simplify_eq. eauto.
Qed.

Lemma HasSuffix_spec s suf : HasSuffix s suf = true <-> exists t, s = t +:+ suf.
Proof.
  unfold HasSuffix. rewrite andb_true_iff, Nat.leb_le, bool_decide_eq_true. split.
  - intros [Hl Hd]. exists (stake (String.length s - String.length suf) s).
    rewrite <- Hd at 2. by rewrite stake_sdrop.
  - intros [t ->]. rewrite length_sapp. split; [lia|].
    replace (String.length t + String.length suf - String.length suf)%nat
      with (String.length t) by lia.
    apply sdrop_app_length.
Qed.

Lemma TrimSuffix_app t suf : TrimSuffix (t +:+ suf) suf = t.
Proof.
  unfold TrimSuffix.
  assert (HasSuffix (t +:+ suf) suf = true) as -> by (apply HasSuffix_spec; eauto).
  rewrite length_sapp.
  replace (String.length t + String.length suf - String.length suf)%nat
    with (String.length t) by lia.
  apply stake_app_length.
Qed.

Lemma TrimPrefix_app pre t : TrimPrefix (pre +:+ t) pre = t.
Proof.
  unfold TrimPrefix.
  assert (HasPrefix (pre +:+ t) pre = true) as -> by (apply HasPrefix_spec; eauto).
  apply sdrop_app_length.
Qed.

(** ** Decimal round trip *)

Lemma parse_digits_app a b acc :
  parse_digits (a +:+ b) acc = parse_digits a acc ≫= parse_digits b.
Proof.
  revert acc. induction a as [|c a IH]; intros acc; [done|].
  rewrite sapp_cons. simpl. by destruct (is_digit c).
Qed.

Lemma is_digit_byte_of k : 0 <= k < 10 -> is_digit (byte_of (48 + k)) = true.
Proof.
  intros H. unfold is_digit, in_range. rewrite byte_val_of by lia.
  apply andb_true_iff. split; apply Z.leb_le; vm_compute byte_val; lia.
Qed.

(** With [2 ^ fuel] above [n], [digits_fuel] writes a numeral of [n]. *)
Lemma digits_fuel_spec fuel n acc :
  0 <= n < 2 ^ Z.of_nat fuel ->
  (0 < fuel)%nat ->
  exists d, digits_fuel fuel n acc = d +:+ acc /\ d <> "" /\ parse_digits d 0 = Some n.
Proof.
  revert n acc. induction fuel as [|k IH]; intros n acc Hn Hf; [lia|].
  cbn [digits_fuel].
  assert (0 <= n mod 10 < 10) as Hm by (apply Z.mod_pos_bound; lia).
  destruct (Z.ltb_spec n 10).
  - exists (String (byte_of (48 + n mod 10)) ""). split_and!; [done..|].
    cbn [parse_digits]. rewrite is_digit_byte_of, byte_val_of by lia.
    rewrite Z.mod_small by lia. f_equal. lia.
  - rewrite Nat2Z.inj_succ, Z.pow_succ_r in Hn by lia.
    assert (1 <= n / 10) by (apply Z.div_le_lower_bound; lia).
    assert (n / 10 < 2 ^ Z.of_nat k) by (apply Z.div_lt_upper_bound; lia).
    assert (0 < k)%nat by (destruct k; simpl in *; lia).
    destruct (IH (n / 10) (String (byte_of (48 + n mod 10)) acc)) as (d & Hd & Hne & Hp);
      [lia|done|].
    exists (d +:+ String (byte_of (48 + n mod 10)) "").
    rewrite Hd, sapp_assoc. split_and!; [done|by destruct d|].
    rewrite parse_digits_app, Hp. simpl. rewrite is_digit_byte_of, byte_val_of by lia.
    f_equal. pose proof (Z.div_mod n 10). lia.
Qed.

Lemma digits_spec n :
  0 <= n -> digits n <> "" /\ parse_digits (digits n) 0 = Some n.
Proof.
  intros Hn. unfold digits.
  destruct (digits_fuel_spec (S (Z.to_nat (Z.log2 n))) n "") as (d & -> & Hne & Hp);
    [|lia|by rewrite sapp_nil_r].
  rewrite Nat2Z.inj_succ, Z2Nat.id by apply Z.log2_nonneg.
  destruct (decide (n = 0)) as [->|]; [simpl; lia|].
  pose proof (Z.log2_spec n). lia.
Qed.

(** The first byte of a numeral is a digit, so it is not read as a sign. *)
Lemma parse_digits_head c s acc n :
  parse_digits (String c s) acc = Some n -> c <> "-"%char /\ c <> "+"%char.
Proof.
  simpl. destruct (is_digit c) eqn:E; [|done]. intros _. split; intros ->; by vm_compute in E.
Qed.

Lemma Atoi_Itoa n : min_int64 <= n <= max_int64 -> Atoi (Itoa n) = Some n.
Proof.
  intros Hn. unfold Itoa. destruct (Z.ltb_spec n 0).
  - destruct (digits_spec (- n)) as [Hne Hp]; [lia|].
    unfold Atoi. rewrite (bool_decide_eq_true_2 ("-"%char = "-"%char)) by done.
    cbv beta iota. destruct (digits (- n)); [done|].
    rewrite Hp. cbv zeta. rewrite Z.opp_involutive.
    rewrite !(proj2 (Z.leb_le _ _)) by lia. done.
  - destruct (digits_spec n) as [Hne Hp]; [lia|].
    unfold Atoi. destruct (digits n) as [|c d]; [done|].
    pose proof (parse_digits_head _ _ _ _ Hp) as [H1 H2].
    rewrite (bool_decide_eq_false_2 _ H1), (bool_decide_eq_false_2 _ H2), Hp.
    rewrite !(proj2 (Z.leb_le _ _)) by lia. done.
Qed.

(** ** Split and join *)

Lemma split_byte_ne sep s : split_byte sep s <> [].
Proof. destruct s as [|c s]; simpl; [done|]. by case_match; [|case_match]. Qed.

Lemma Join_split sep s : Join (split_byte sep s) (String sep "") = s.
Proof.
  induction s as [|c s IH]; simpl; [done|].
  pose proof (split_byte_ne sep s) as Hne.
  case_bool_decide as Hc.
  - subst. rewrite <- IH at 2. by destruct (split_byte sep s).
  - destruct (split_byte sep s) as [|w ws]; [done|]. rewrite <- IH.
    by destruct ws.
Qed.

Definition no_byte (sep : ascii) (s : string) : bool :=
  sforall (fun c => negb (bool_decide (c = sep))) s.

Lemma split_byte_app sep w s :
  no_byte sep w = true -> split_byte sep (w +:+ String sep s) = w :: split_byte sep s.
Proof.
  induction w as [|c w IH]; intros Hw.
  - simpl. by rewrite bool_decide_eq_true_2.
  - simpl in Hw. apply andb_true_iff in Hw as [Hc Hw].
    rewrite sapp_cons. simpl. rewrite IH by done. by destruct (bool_decide (c = sep)).
Qed.

Lemma split_byte_single sep w : no_byte sep w = true -> split_byte sep w = [w].
Proof.
  induction w as [|c w IH]; intros Hw; [done|].
  simpl in *. apply andb_true_iff in Hw as [Hc Hw]. rewrite IH by done.
  by destruct (bool_decide (c = sep)).
Qed.

(** Fields free of the separator come back unchanged. *)
Lemma split_Join sep l :
  l <> [] -> Forall (fun w => no_byte sep w = true) l ->
  split_byte sep (Join l (String sep "")) = l.
Proof.
  intros Hne Hl. induction Hl as [|w l Hw Hl IH]; [done|].
  destruct l as [|w' l].
  - by apply split_byte_single.
  - change (Join (w :: w' :: l) (String sep ""))
      with (w +:+ String sep (Join (w' :: l) (String sep ""))).
    rewrite split_byte_app by done. f_equal. by apply IH.
Qed.

(** ** More on substrings *)

(** Strings by their last byte. *)
Lemma string_snoc_ind (P : string -> Prop) :
  P "" -> (forall w c, P w -> P (w +:+ String c "")) -> forall w, P w.
Proof.
  intros H0 HS w. rewrite <- (sapp_nil_r w).
  assert (forall b a, P a -> P (a +:+ b)) as Hgen.
  { induction b as [|c b IH]; intros a Ha; [by rewrite sapp_nil_r|].
    replace (a +:+ String c b) with ((a +:+ String c "") +:+ b) by (by rewrite sapp_assoc).
    by apply IH, HS. }
  rewrite sapp_nil_r. by apply (Hgen w "").
Qed.

Definition slice (s : string) (a n : nat) : string := stake n (sdrop a s).

Lemma slice_app a b c : slice (a +:+ (b +:+ c)) (String.length a) (String.length b) = b.
Proof. unfold slice. by rewrite sdrop_app_length, stake_app_length. Qed.

Lemma smap_stake f n s : smap f (stake n s) = stake n (smap f s).
Proof.
  revert s. induction n as [|n IH]; intros [|c s]; try done.
  change (String (f c) (smap f (stake n s)) = String (f c) (stake n (smap f s))). by rewrite IH.
Qed.

Lemma smap_sdrop f n s : smap f (sdrop n s) = sdrop n (smap f s).
Proof. revert s. induction n as [|n IH]; intros [|c s]; try done. apply IH. Qed.

Lemma trim_left_split p s : exists a, s = a +:+ trim_left p s /\ sforall p a = true.
Proof.
  induction s as [|c s [a [Ha Hp]]]; [by exists ""|]. simpl. destruct (p c) eqn:E.
  - exists (String c a). rewrite sapp_cons, <- Ha. split; [done|]. simpl. by rewrite E.
  - by exists "".
Qed.

Lemma trim_right_split p s : exists b, s = trim_right p s +:+ b /\ sforall p b = true.
Proof.
  induction s as [|c s [b [Hb Hp]]]; [by exists ""|]. simpl.
  destruct (trim_right p s) as [|d t] eqn:E.
  - destruct (p c) eqn:Ec.
    + exists (String c s). split; [done|]. simpl. rewrite Ec. by rewrite Hb.
    + exists b. by rewrite sapp_cons, <- Hb.
  - exists b. by rewrite sapp_cons, <- Hb.
Qed.

Lemma sapp_inj_l a b c : a +:+ b = a +:+ c -> b = c.
Proof. induction a as [|x a IH]; [done|]. rewrite !sapp_cons. intros [= H]. by apply IH. Qed.

Lemma sexists_app p a b : sexists p (a +:+ b) = sexists p a || sexists p b.
Proof.
  unfold sexists. induction a as [|c a IH]; [done|]. rewrite sapp_cons. simpl.
  destruct (p c); simpl; [done|]. exact IH.
Qed.

Lemma sdrop_add n m s : sdrop n (sdrop m s) = sdrop (m + n) s.
Proof.
  revert s. induction m as [|m IH]; intros s; [done|].
  destruct s as [|c s]; [by destruct n|]. apply IH.
Qed.

Lemma sdrop_app_ge a b n : (String.length a <= n)%nat -> sdrop n (a +:+ b) = sdrop (n - String.length a) b.
Proof.
  intros H. replace n with (String.length a + (n - String.length a))%nat at 1 by lia.
  by rewrite <- sdrop_add, sdrop_app_length.
Qed.

(** Keeping a suffix of a slice. *)
Lemma slice_suffix comment st n k :
  (k <= n)%nat -> slice comment (st + k) (n - k) = sdrop k (slice comment st n).
Proof.
  intros Hk. unfold slice. rewrite <- sdrop_add. generalize (sdrop st comment) as s. clear comment st.
  revert n Hk. induction k as [|k IH]; intros n Hk s; [by rewrite Nat.sub_0_r|].
  destruct n as [|n]; [lia|]. destruct s as [|c s]; [by destruct (S n - S k)%nat|].
  apply IH. lia.
Qed.

Lemma sdrop_app_le a b n : (n <= String.length a)%nat -> sdrop n (a +:+ b) = sdrop n a +:+ b.
Proof.
  revert a. induction n as [|n IH]; intros a Hn; [done|].
  destruct a as [|c a]; simpl in Hn; [lia|]. apply (IH a). lia.
Qed.

Lemma nonempty_length (s : string) : s <> "" -> (0 < String.length s)%nat.
Proof. destruct s; simpl; [done|lia]. Qed.

Lemma sforall_app p a b : sforall p (a +:+ b) = sforall p a && sforall p b.
Proof. induction a as [|c a IH]; [done|]. rewrite sapp_cons. simpl. by rewrite IH, andb_assoc. Qed.

(** A proper tail of a text that ends with [p]-bytes has one. *)
Lemma tail_has p s b k :
  b <> "" -> sforall p b = true -> (k < String.length (s +:+ b))%nat ->
  sexists p (sdrop k (s +:+ b)) = true.
Proof.
  destruct b as [|b c _] using string_snoc_ind; [done|]. intros _.
  rewrite sforall_app, <- sapp_assoc. intros [_ Hc]%andb_true_iff Hk. simpl in Hc.
  rewrite length_sapp in Hk. simpl in Hk.
  rewrite sdrop_app_le by lia. rewrite sexists_app. unfold sexists at 2. simpl.
  destruct (p c); [by rewrite orb_true_r|done].
Qed.

Lemma trim_right_app_hard p a c b :
  p c = false -> trim_right p ((a +:+ String c "") +:+ b) = (a +:+ String c "") +:+ trim_right p b.
Proof.
  intros Hc. induction a as [|d a IH].
  - change (("" +:+ String c "") +:+ b) with (String c b). cbn [trim_right].
    change (("" +:+ String c "") +:+ trim_right p b) with (String c (trim_right p b)).
    destruct (trim_right p b) as [|e t]; [|done]. by rewrite Hc.
  - rewrite !sapp_cons. cbn [trim_right]. rewrite IH. by destruct a.
Qed.

Ltac sapp_norm := repeat first [rewrite sapp_assoc | rewrite sapp_cons]; try reflexivity.

Lemma no_byte_app sep a b : no_byte sep (a +:+ b) = no_byte sep a && no_byte sep b.
Proof.
  unfold no_byte. induction a as [|c a IH]; [done|]. rewrite sapp_cons. cbn [sforall].
  by rewrite IH, andb_assoc.
Qed.

Lemma split_no_byte sep s : Forall (fun w => no_byte sep w = true) (split_byte sep s).
Proof.
  induction s as [|c s IH]; cbn [split_byte]; [by repeat constructor|].
  case_bool_decide as Hc; [by constructor|].
  destruct (split_byte sep s) as [|w ws]; [constructor; [|done]|inversion IH; subst; constructor; [|done]];
    unfold no_byte in *; cbn [sforall]; rewrite bool_decide_eq_false_2 by done; done.
Qed.

Lemma no_byte_trim sep p s : no_byte sep s = true ->
  no_byte sep (trim_left p s) = true /\ no_byte sep (trim_right p s) = true.
Proof.
  unfold no_byte. induction s as [|c s IH]; [done|]. cbn [sforall trim_left trim_right].
  intros [Hc Hs]%andb_true_iff. destruct (IH Hs) as [H1 H2]. split.
  - destruct (p c); [done|]. cbn [sforall]. by rewrite Hc, Hs.
  - destruct (trim_right p s) as [|d t]; [destruct (p c)|]; cbn [sforall] in *; rewrite ?Hc; auto.
Qed.

Lemma no_byte_TrimSpace sep s : no_byte sep s = true -> no_byte sep (TrimSpace s) = true.
Proof. intros H. unfold TrimSpace. by apply no_byte_trim, no_byte_trim. Qed.

Lemma no_caret_upper s : no_byte "^" (ToUpper s) = no_byte "^" s.
Proof.
  unfold no_byte, ToUpper. induction s as [|c s IH]; [done|]. cbn [smap sforall]. rewrite IH. f_equal.
  f_equal. apply bool_decide_ext. revert c. clear.
  intros c. split; intros H; [|by subst].
  destruct (is_lower c) eqn:E; [|unfold upper_byte in H; by rewrite E in H].
  exfalso. revert E H. revert c. all_bytes.
Qed.

Lemma Join_snoc l w sep : l <> [] -> Join (l ++ [w]) sep = Join l sep +:+ sep +:+ w.
Proof.
  induction l as [|x l IH]; [done|]. intros _. destruct l as [|y l]; [done|].
  change (Join ((x :: y :: l) ++ [w]) sep) with (x +:+ (sep +:+ Join ((y :: l) ++ [w]) sep)).
  rewrite IH by done. change (Join (x :: y :: l) sep) with (x +:+ (sep +:+ Join (y :: l) sep)).
  by rewrite !sapp_assoc.
Qed.

Lemma HasSuffix_snoc s c d : HasSuffix (s +:+ String c "") (String d "") = bool_decide (c = d).
Proof.
  destruct (HasSuffix (s +:+ String c "") (String d "")) eqn:E.
  - apply HasSuffix_spec in E as [t Ht]. symmetry. apply bool_decide_eq_true_2.
    assert (String.length s = String.length t) as Hl.
    { apply (f_equal String.length) in Ht. rewrite !length_sapp in Ht. simpl in Ht. lia. }
    apply (f_equal (sdrop (String.length s))) in Ht. rewrite sdrop_app_length, Hl, sdrop_app_length in Ht.
    congruence.
  - symmetry. apply bool_decide_eq_false_2. intros ->.
    assert (HasSuffix (s +:+ String d "") (String d "") = true) by (apply HasSuffix_spec; eauto). congruence.
Qed.

(** A non-empty tail without the byte hides it from the end. *)
Lemma no_byte_suffix a s c : s <> "" -> no_byte c s = true -> HasSuffix (a +:+ s) (String c "") = false.
Proof.
  revert a. induction s as [|s d _] using string_snoc_ind; [done|]. intros a _ Hn.
  rewrite <- sapp_assoc, HasSuffix_snoc. rewrite no_byte_app in Hn.
  apply andb_true_iff in Hn as [_ Hn]. unfold no_byte in Hn. cbn [sforall] in Hn.
  apply andb_true_iff in Hn as [Hn _]. by apply negb_true_iff in Hn.
Qed.

#[export] Hint Rewrite length_sapp length_smap length_stake length_sdrop length_ToUpper
  length_Repeat : gotext.
#[export] Hint Resolve TrimSpace_idemp ToUpper_idemp : gocluster.
