(* ===== verification/GoNum.v ===== *)
(** * GoNum: machine integers, instants, byte buffers and float64 values

    Integers are [Z] with the wrap-around of their Go width written out;
    [time.Time] is an instant in nanoseconds, [time.Duration] an int64 count of
    nanoseconds; a float64 is the rational it denotes (NaN, infinities and the
    sign of zero are outside the model), with [fl64] for the rounding of an
    arithmetic result. *)

From S2P Require Import Prelude GoText.
From Stdlib Require Export QArith Qround.

Local Open Scope Z_scope.

(** ** Widths *)

Definition uint8 (z : Z) : Z := z mod 2 ^ 8.
Definition uint16 (z : Z) : Z := z mod 2 ^ 16.
Definition uint32 (z : Z) : Z := z mod 2 ^ 32.
Definition uint64 (z : Z) : Z := z mod 2 ^ 64.
Definition int64 (z : Z) : Z := (z + 2 ^ 63) mod 2 ^ 64 - 2 ^ 63.

Definition in_int64 (z : Z) : Prop := min_int64 <= z <= max_int64.

#[global] Instance in_int64_dec z : Decision (in_int64 z).
Proof. unfold in_int64. apply _. Defined.

(** ** Instants and durations *)

Definition millisecond : Z := 1000000.
Definition second : Z := 1000000000.
Definition minute : Z := 60 * second.
Definition hour : Z := 60 * minute.

(** [Time.Sub] saturates at the ends of [Duration]. *)
Definition time_sub (t u : Z) : Z := Z.max min_int64 (Z.min max_int64 (t - u)).

(** The idiom [if age < 0 { age = -age }]: negation wraps on the minimum. *)
Definition abs_duration (d : Z) : Z := if d <? 0 then int64 (- d) else d.

(** [Time.Truncate(time.Minute).Unix()]. *)
Definition unix_minute (t : Z) : Z := (t - t mod minute) / second.

(** ** Little-endian buffers *)

Fixpoint le_bytes (n : nat) (z : Z) : list Z :=
  match n with
  | O => []
  | S k => z mod 256 :: le_bytes k (z / 256)
  end.

Fixpoint le_value (bs : list Z) : Z :=
  match bs with
  | [] => 0
  | b :: rest => b + 256 * le_value rest
  end.

(** The bytes of a string, truncated or zero-padded to a fixed width. *)
Fixpoint fixed_bytes (width : nat) (s : string) : list Z :=
  match width with
  | O => []
  | S k => match s with
           | EmptyString => 0 :: fixed_bytes k EmptyString
           | String c s' => byte_val c :: fixed_bytes k s'
           end
  end.

(** ** float64 *)

(** Nearest integer to [n / d], ties to even. *)
Definition round_half_even (n d : Z) : Z :=
  let q := n / d in
  let r := n mod d in
  match (2 * r ?= d)%Z with
  | Lt => q
  | Gt => q + 1
  | Eq => if Z.even q then q else q + 1
  end.

(** The float64 nearest to a rational within the finite range. *)
Definition fl64 (x : Q) : Q :=
  let n := Qnum x in
  let d := Zpos (Qden x) in
  if n =? 0 then 0%Q
  else
    let a := Z.abs n in
    let e0 := Z.log2 a - Z.log2 d in
    let ge := if 0 <=? e0 then d * 2 ^ e0 <=? a else d <=? a * 2 ^ (- e0) in
    let e := if ge : bool then e0 else e0 - 1 in
    let s := Z.max (e - 52) (-1074) in
    let m := if 0 <=? s then round_half_even a (d * 2 ^ s)
             else round_half_even (a * 2 ^ (- s)) d in
    let v := if 0 <=? s then inject_Z (m * 2 ^ s)
             else Qred (m # Z.to_pos (2 ^ (- s))) in
    if n <? 0 then (- v)%Q else v.

Definition Qle_b (x y : Q) : bool := Qle_bool x y.
Definition Qlt_b (x y : Q) : bool := negb (Qle_bool y x).

(** [strconv.FormatFloat(x, 'f', 1, 64)]: the exact value rounded to one
    decimal, ties to even. *)
Definition FormatFloat1 (x : Q) : string :=
  let t := round_half_even (Z.abs (Qnum x) * 10) (Zpos (Qden x)) in
  let body := digits (t / 10) +:+ "." +:+ digits (t mod 10) in
  if (Qnum x <? 0)%Z then "-" +:+ body else body.

(** ** Facts *)

Lemma int64_id z : in_int64 z -> int64 z = z.
Proof.
  unfold in_int64, int64, min_int64, max_int64. intros H. rewrite Z.mod_small; lia.
Qed.

Lemma int64_range z : in_int64 (int64 z).
Proof.
  unfold in_int64, int64, min_int64, max_int64.
  pose proof (Z.mod_pos_bound (z + 2 ^ 63) (2 ^ 64)). lia.
Qed.

Lemma time_sub_range t u : in_int64 (time_sub t u).
Proof. unfold in_int64, time_sub, min_int64, max_int64. lia. Qed.

Lemma time_sub_exact t u : in_int64 (t - u) -> time_sub t u = t - u.
Proof. unfold in_int64, time_sub. lia. Qed.

(** Away from the saturation point the idiom is the absolute value. *)
Lemma abs_duration_exact d :
  in_int64 d -> d <> min_int64 -> abs_duration d = Z.abs d.
Proof.
  unfold abs_duration, in_int64, min_int64, max_int64. intros H Hm.
  destruct (Z.ltb_spec d 0); [|lia].
  rewrite int64_id; [lia|]. unfold in_int64, min_int64, max_int64. lia.
Qed.

Lemma length_le_bytes n z : length (le_bytes n z) = n.
Proof. revert z. induction n; intros; simpl; auto. Qed.

Lemma length_fixed_bytes n s : length (fixed_bytes n s) = n.
Proof. revert s. induction n; intros [|c s]; simpl; auto. Qed.

Lemma le_value_bytes n z : le_value (le_bytes n z) = z mod 2 ^ (8 * Z.of_nat n).
Proof.
  revert z. induction n as [|n IH]; intros z; cbn [le_bytes le_value].
  - by rewrite Z.mod_1_r.
  - rewrite IH. replace (8 * Z.of_nat (S n)) with (8 + 8 * Z.of_nat n) by lia.
    rewrite Z.pow_add_r by lia. change (2 ^ 8) with 256.
    rewrite Z.rem_mul_r by lia. done.
Qed.

(** Equal encodings of in-range values come from equal values. *)
Lemma le_bytes_inj n x y :
  0 <= x < 2 ^ (8 * Z.of_nat n) -> 0 <= y < 2 ^ (8 * Z.of_nat n) ->
  le_bytes n x = le_bytes n y -> x = y.
Proof.
  intros Hx Hy H. apply (f_equal le_value) in H.
  rewrite !le_value_bytes, !Z.mod_small in H by lia. done.
Qed.

(** A fixed field shows the string's first [n] bytes; without NULs, nothing is
    confused with the padding. *)
Lemma fixed_bytes_inj n s t :
  no_byte "000" s = true -> no_byte "000" t = true ->
  fixed_bytes n s = fixed_bytes n t -> stake n s = stake n t.
Proof.
  revert s t. induction n as [|n IH]; intros [|c s] [|d t] Hs Ht H; simpl in *; try done.
  - exfalso. apply andb_true_iff in Ht as [Hd _]. injection H as H _.
    assert (d = "000"%char) as -> by (rewrite <- (byte_of_val d); by rewrite <- H).
    by vm_compute in Hd.
  - exfalso. apply andb_true_iff in Hs as [Hc _]. injection H as H _.
    assert (c = "000"%char) as -> by (rewrite <- (byte_of_val c); by rewrite H).
    by vm_compute in Hc.
  - apply andb_true_iff in Hs as [_ Hs]. apply andb_true_iff in Ht as [_ Ht].
    injection H as Hcd H. f_equal; [|by apply IH].
    rewrite <- (byte_of_val c), <- (byte_of_val d). by rewrite Hcd.
Qed.

Lemma fixed_bytes_stake n s t : stake n s = stake n t -> fixed_bytes n s = fixed_bytes n t.
Proof.
  revert s t. induction n as [|n IH]; intros [|c s] [|d t] H; simpl in *; try done.
  injection H as -> H. f_equal. by apply IH.
Qed.

Lemma unix_minute_spec t : unix_minute t = 60 * (t / minute).
Proof.
  unfold unix_minute. rewrite (Z.div_mod t minute) at 1 by done.
  replace (minute * (t / minute) + t mod minute - t mod minute)
    with (60 * (t / minute) * second) by (unfold minute; lia).
  by rewrite Z.div_mul.
Qed.

#[export] Hint Resolve int64_range time_sub_range : gocluster.

#[global] Arguments fixed_bytes : simpl never.
#[global] Arguments le_bytes : simpl never.
#[global] Arguments stake : simpl never.
#[global] Arguments sdrop : simpl never.
