(* ===== verification/Callsign.v ===== *)
(** * Callsign: callsign and token normalization

    Models [spot/callsign.go] (normalization, validation and the bounded
    normalization cache), [spot/ssid.go], [spot/normalize_ascii.go] and
    [strutil/normalize.go].

    [NormalizeCallsign] of the source goes through a process-wide LRU cache.
    [normalize_call] is the computation behind the cache, and Section
    [CallCacheFacts] shows that the cached function agrees with it on every
    reachable cache, so the rest of the library uses [normalize_call]. *)

From S2P Require Import Prelude GoText GoNum.

Local Open Scope Z_scope.

(** ** Tokens *)

Definition NormalizeUpper (value : string) : string := ToUpper (TrimSpace value).
Definition NormalizeLower (value : string) : string := ToLower (TrimSpace value).

(** The hand-written loop: nothing is copied when no lower-case byte occurs. *)
Definition normalizeUpperASCIITrim (s : string) : string :=
  let s := TrimSpace s in
  if bool_decide (s = "") then ""
  else if sexists (fun c => 128 <=? byte_val c) s then ToUpper s
  else if negb (sexists is_lower s) then s
  else smap (fun c => if is_lower c then byte_of (byte_val c - 32) else c) s.

Definition pskVariantMap : gmap string string :=
  {[ "PSK" := "PSK"; "PSK31" := "PSK"; "PSK63" := "PSK"; "PSK125" := "PSK" ]}.

(** [(canonical, variant, isPSK)] of an upper-case, trimmed mode. *)
Definition canonicalPSKModeUpper (upper : string) : string * string * bool :=
  if bool_decide (upper = "") then ("", "", false)
  else match pskVariantMap !! upper with
       | None => (upper, upper, false)
       | Some canonical => (canonical, upper, true)
       end.

Definition CanonicalPSKMode (mode : string) : string * string * bool :=
  canonicalPSKModeUpper (normalizeUpperASCIITrim mode).

(** ** Callsigns *)

Definition portableSuffixes : list string := ["/QRP"; "/MM"; "/AM"; "/M"; "/P"].

(** The loop with [break]: the first suffix that matches is removed. *)
Fixpoint strip_first_suffix (suffixes : list string) (s : string) : string :=
  match suffixes with
  | [] => s
  | suf :: rest => if HasSuffix s suf then TrimSuffix s suf else strip_first_suffix rest s
  end.

Definition normalize_call (call : string) : string :=
  let n := ToUpper (TrimSpace call) in
  let n := ReplaceAll n "." "/" in
  let n := TrimSuffix n "/" in
  let n := TrimSpace n in
  strip_first_suffix portableSuffixes n.

Definition minCallsignLength : Z := 3.
Definition maxCallsignLength : Z := 15.

Definition call_head (c : ascii) : bool := is_upper c || is_digit c.
Definition call_tail (c : ascii) : bool := call_head c || bool_decide (c = "#"%char).
Definition call_sep (c : ascii) : bool :=
  bool_decide (c = "/"%char) || bool_decide (c = "-"%char).

(** The automaton of the pattern [[A-Z0-9]+(?:[/-][A-Z0-9#]+)*], anchored at
    both ends.  [first]: still in the head; [need]: at least one more byte of
    the current group is required. *)
Fixpoint callsign_match (first need : bool) (s : string) : bool :=
  match s with
  | EmptyString => negb need
  | String c s' =>
      if (if first then call_head c else call_tail c) then callsign_match first false s'
      else if call_sep c && negb need then callsign_match false true s'
      else false
  end.

Definition callsignPattern_MatchString (call : string) : bool := callsign_match true true call.

Definition validateNormalizedCallsign (call : string) : bool :=
  if bool_decide (call = "") then false
  else if (len call <? minCallsignLength) || (maxCallsignLength <? len call) then false
  else if negb (sexists is_digit call) then false
  else callsignPattern_MatchString call.

Definition IsValidNormalizedCallsign (call : string) : bool := validateNormalizedCallsign call.

Definition IsValidCallsign (call : string) : bool :=
  validateNormalizedCallsign (normalize_call call).

Definition IsBeaconCall (call : string) : bool := HasSuffix (normalize_call call) "/B".

(** ** SSIDs *)

Definition stripNumericSSID (call : string) : string :=
  match LastIndexByte call "-" with
  | None => call
  | Some idx =>
      if (idx =? 0)%nat || (idx =? String.length call - 1)%nat then call
      else if sforall is_digit (sdrop (idx + 1) call) then stake idx call
      else call
  end.

Definition CollapseSSID (call : string) : string :=
  let call := TrimSpace call in
  if bool_decide (call = "") then call
  else if HasSuffix call "-#"
       then stripNumericSSID (TrimSuffix call "-#") +:+ "-#"
       else stripNumericSSID call.

(** ** The normalization cache *)

Record cacheEntry := mkCacheEntry {
  ce_key : string;
  ce_value : string;
  ce_expires : Z
}.

(** [container/list] elements are heap objects with an identity: [cc_order] is
    the list of element identities, front first, [cc_elems] their [Value]s and
    [cc_entries] the index from keys to elements. *)
Record CallCache := mkCallCache {
  cc_order : list nat;
  cc_elems : gmap nat cacheEntry;
  cc_entries : gmap string nat;
  cc_next : nat;
  cc_capacity : Z;
  cc_ttl : Z
}.

Definition NewCallCache (capacity ttl : Z) : CallCache :=
  let capacity := if capacity <=? 0 then 1024 else capacity in
  let ttl := if ttl <=? 0 then 10 * minute else ttl in
  mkCallCache [] ∅ ∅ O capacity ttl.

Definition lru_remove (e : nat) (order : list nat) : list nat :=
  filter (fun x => x <> e) order.

Definition lru_move_to_front (e : nat) (order : list nat) : list nat :=
  e :: lru_remove e order.

(** [Get]: the value and the updated cache at time [now]. *)
Definition CallCache_Get (c : CallCache) (key : string) (now : Z) : option string * CallCache :=
  match cc_entries c !! key with
  | None => (None, c)
  | Some e =>
      match cc_elems c !! e with
      | None => (None, c)
      | Some entry =>
          if (0 <? cc_ttl c) && (ce_expires entry <? now)
          then (None, mkCallCache (lru_remove e (cc_order c)) (cc_elems c)
                        (delete key (cc_entries c)) (cc_next c) (cc_capacity c) (cc_ttl c))
          else (Some (ce_value entry),
                mkCallCache (lru_move_to_front e (cc_order c)) (cc_elems c)
                  (cc_entries c) (cc_next c) (cc_capacity c) (cc_ttl c))
      end
  end.

(** [Add]: update in place, or push to the front and evict the back element
    when the list outgrew the capacity. *)
Definition CallCache_Add (c : CallCache) (key val : string) (now : Z) : CallCache :=
  let entry := mkCacheEntry key val (now + cc_ttl c) in
  match cc_entries c !! key with
  | Some e =>
      mkCallCache (lru_move_to_front e (cc_order c)) (<[e := entry]> (cc_elems c))
        (cc_entries c) (cc_next c) (cc_capacity c) (cc_ttl c)
  | None =>
      let e := cc_next c in
      let order := e :: cc_order c in
      let elems := <[e := entry]> (cc_elems c) in
      let entries := <[key := e]> (cc_entries c) in
      if cc_capacity c <? Z.of_nat (length order) then
        match last order with
        | None => mkCallCache order elems entries (S e) (cc_capacity c) (cc_ttl c)
        | Some oldest =>
            let entries' := match elems !! oldest with
                            | Some old => delete (ce_key old) entries
                            | None => entries
                            end in
            mkCallCache (lru_remove oldest order) elems entries' (S e)
              (cc_capacity c) (cc_ttl c)
        end
      else mkCallCache order elems entries (S e) (cc_capacity c) (cc_ttl c)
  end.

(** [NormalizeCallsign] through the cache. *)
Definition NormalizeCallsign (c : CallCache) (call : string) (now : Z) : string * CallCache :=
  match CallCache_Get c call now with
  | (Some cached, c') => (cached, c')
  | (None, c') => let n := normalize_call call in (n, CallCache_Add c' call n now)
  end.

(** ** Token facts *)

Lemma upper_byte_not_lower c : is_lower c = false -> upper_byte c = c.
Proof. intros H. unfold upper_byte. by rewrite H. Qed.

Lemma ToUpper_no_lower s : sexists is_lower s = false -> ToUpper s = s.
Proof.
  unfold sexists, ToUpper. rewrite negb_false_iff.
  induction s as [|c s IH]; simpl; [done|]. intros H. boolify.
  by rewrite upper_byte_not_lower, IH.
Qed.

(** The copy-avoiding loop computes the same token as trimming and
    upper-casing. *)
Lemma normalizeUpperASCIITrim_eq s : normalizeUpperASCIITrim s = ToUpper (TrimSpace s).
Proof.
  unfold normalizeUpperASCIITrim. case_bool_decide as E; [by rewrite E|].
  destruct (sexists _ (TrimSpace s)); [done|].
  destruct (sexists is_lower (TrimSpace s)) eqn:El; simpl; [done|].
  by rewrite ToUpper_no_lower.
Qed.

Lemma normalizeUpperASCIITrim_idemp s :
  normalizeUpperASCIITrim (normalizeUpperASCIITrim s) = normalizeUpperASCIITrim s.
Proof.
  rewrite !normalizeUpperASCIITrim_eq, TrimSpace_ToUpper, TrimSpace_idemp. apply ToUpper_idemp.
Qed.

(** ** Callsign grammar *)

(** One [[/-][A-Z0-9#]+] group. *)
Definition callsign_segment (t : string) : Prop :=
  exists c body, t = String c body /\ call_sep c = true /\
                 body <> "" /\ sforall call_tail body = true.

(** The language the pattern denotes. *)
Definition callsign_lang (s : string) : Prop :=
  exists head tails,
    s = head +:+ Join tails "" /\
    head <> "" /\ sforall call_head head = true /\
    Forall callsign_segment tails.

Lemma Join_cons_nil t ts : Join (t :: ts) "" = t +:+ Join ts "".
Proof. destruct ts; [by rewrite sapp_nil_r|done]. Qed.

Lemma sep_not_tail c : call_sep c = true -> call_tail c = false.
Proof. revert c. all_bytes. Qed.

Lemma sep_not_group (first : bool) c :
  (if first then call_head c else call_tail c) = true -> call_sep c = false.
Proof.
  destruct (call_sep c) eqn:Hs; [|done].
  pose proof (sep_not_tail c Hs) as Ht. intros H. destruct first; [|congruence].
  unfold call_tail in Ht. by rewrite H in Ht.
Qed.

(** An empty group must be followed by a segment that starts with [c]. *)
Lemma empty_group c s tails :
  Forall callsign_segment tails -> String c s = "" +:+ Join tails "" ->
  exists body rest, call_sep c = true /\ s = body +:+ Join rest "" /\ body <> "" /\
    sforall call_tail body = true /\ Forall callsign_segment rest.
Proof.
  intros [|t ts (d & body & -> & ? & ? & ?) Hts]; [done|].
  rewrite Join_cons_nil. intros [= -> ->]. eauto 8.
Qed.

Lemma callsign_match_spec first need s :
  callsign_match first need s = true <->
  exists body tails, s = body +:+ Join tails "" /\ (need = true -> body <> "") /\
    sforall (if first then call_head else call_tail) body = true /\
    Forall callsign_segment tails.
Proof.
  revert first need. induction s as [|c s IH]; intros first need; cbn [callsign_match].
  { split.
    - intros Hn. exists "", []. boolify. split_and!; try done. by rewrite Hn.
    - intros (body & tails & Hs & Hn & _). destruct body; [|done].
      destruct need; [by specialize (Hn eq_refl)|done]. }
  destruct (if first then call_head c else call_tail c) eqn:Hg.
  { rewrite IH. split.
    - intros (body & tails & -> & _ & Hb & Ht). exists (String c body), tails.
      split_and!; try done. by destruct first; simpl; rewrite Hg, Hb.
    - intros (body & tails & Hs & Hn & Hb & Ht). destruct body as [|d body].
      + destruct (empty_group c s tails Ht Hs) as (? & ? & Hsep & _).
        by rewrite (sep_not_group _ _ Hg) in Hsep.
      + rewrite sapp_cons in Hs. simplify_eq. exists body, tails. split_and!; try done.
        destruct first; simpl in Hb; by apply andb_true_iff in Hb as [_ ?]. }
  destruct (call_sep c && negb need) eqn:Hs'.
  { boolify. rewrite IH. split.
    - intros (body & tails & -> & Hn & Hb & Ht).
      exists "", (String c body :: tails). split_and!; [| |done|].
      + by rewrite Join_cons_nil.
      + intros ->. done.
      + constructor; [|done]. exists c, body. auto.
    - intros (body & tails & Hs & Hn & Hb & Ht). destruct body as [|d body].
      + destruct (empty_group c s tails Ht Hs) as (b & r & _ & -> & ? & ? & ?).
        by exists b, r.
      + rewrite sapp_cons in Hs. simplify_eq.
        destruct first; simpl in Hb; apply andb_true_iff in Hb as [? _]; congruence. }
  split; [done|]. intros (body & tails & Hs & Hn & Hb & Ht). exfalso. destruct body as [|d body].
  - destruct (empty_group c s tails Ht Hs) as (? & ? & Hsep & _). rewrite Hsep in Hs'.
    destruct need; [by specialize (Hn eq_refl)|done].
  - rewrite sapp_cons in Hs. simplify_eq.
    destruct first; simpl in Hb; apply andb_true_iff in Hb as [? _]; congruence.
Qed.

(** ** Cache facts *)

Section CallCacheFacts.
(** The cached computation. *)
Context (f : string -> string).

Record cache_wf (c : CallCache) : Prop := {
  wf_cap_pos : 0 < cc_capacity c;
  wf_nodup : NoDup (cc_order c);
  wf_index : forall k e, cc_entries c !! k = Some e ->
    e ∈ cc_order c /\ exists v, cc_elems c !! e = Some v /\ ce_key v = k;
  wf_back : forall e, e ∈ cc_order c ->
    exists v, cc_elems c !! e = Some v /\ cc_entries c !! ce_key v = Some e /\
              ce_value v = f (ce_key v);
  wf_fresh : forall e, e ∈ cc_order c -> (e < cc_next c)%nat;
  wf_bound : Z.of_nat (length (cc_order c)) <= cc_capacity c
}.

Lemma elem_lru_remove e x order : x ∈ lru_remove e order <-> x ∈ order /\ x <> e.
Proof. unfold lru_remove. rewrite list_elem_of_filter. naive_solver. Qed.

Lemma lru_remove_notin e order : e ∉ order -> lru_remove e order = order.
Proof.
  intros He. unfold lru_remove. induction order as [|x order IH]; [done|].
  rewrite filter_cons. apply not_elem_of_cons in He as [? ?].
  rewrite decide_True by done. f_equal. by apply IH.
Qed.

Lemma length_lru_remove e order :
  NoDup order -> e ∈ order -> S (length (lru_remove e order)) = length order.
Proof.
  induction 1 as [|x order Hx Hnd IH]; intros He; [by apply not_elem_of_nil in He|].
  unfold lru_remove. rewrite filter_cons. case_decide as Hxe.
  - apply elem_of_cons in He as [->|He]; [done|]. simpl. f_equal. by apply IH.
  - assert (x = e) as -> by (by destruct (decide (x = e))).
    simpl. f_equal. f_equal. by apply lru_remove_notin.
Qed.

Lemma NoDup_lru_remove e order : NoDup order -> NoDup (lru_remove e order).
Proof. apply NoDup_filter. Qed.

Lemma NoDup_lru_front e order : NoDup order -> NoDup (lru_move_to_front e order).
Proof.
  intros H. apply NoDup_cons. split; [|by apply NoDup_lru_remove].
  rewrite elem_lru_remove. tauto.
Qed.

Lemma elem_lru_front e x order :
  e ∈ order -> x ∈ lru_move_to_front e order <-> x ∈ order.
Proof.
  intros He. unfold lru_move_to_front. rewrite elem_of_cons, elem_lru_remove.
  destruct (decide (x = e)); naive_solver.
Qed.

Lemma length_lru_front e order :
  NoDup order -> e ∈ order -> length (lru_move_to_front e order) = length order.
Proof. intros. simpl. by apply length_lru_remove. Qed.

Lemma NewCallCache_wf capacity ttl : cache_wf (NewCallCache capacity ttl).
Proof.
  split; simpl.
  - destruct (Z.leb_spec capacity 0); lia.
  - apply NoDup_nil_2.
  - intros k e H. by rewrite lookup_empty in H.
  - intros e H. by apply not_elem_of_nil in H.
  - intros e H. by apply not_elem_of_nil in H.
  - destruct (Z.leb_spec capacity 0); lia.
Qed.

(** A hit returns the cached computation; a miss reports nothing. *)
Lemma CallCache_Get_spec c key now :
  cache_wf c ->
  let '(r, c') := CallCache_Get c key now in
  cache_wf c' /\ cc_capacity c' = cc_capacity c /\ (forall v, r = Some v -> v = f key).
Proof.
  intros Hwf. unfold CallCache_Get.
  destruct (cc_entries c !! key) as [e|] eqn:Ee; [|by split_and!].
  destruct (wf_index c Hwf _ _ Ee) as (Heo & v & Hv & Hk). rewrite Hv.
  destruct (wf_back c Hwf _ Heo) as (v' & Hv' & _ & Hval). simplify_eq.
  destruct (_ && _); (split_and!; [|done|naive_solver]).
  - destruct Hwf. split; simpl; try done.
    + by apply NoDup_lru_remove.
    + intros k e' Hk'. apply lookup_delete_Some in Hk' as [Hne Hk'].
      destruct (wf_index0 _ _ Hk') as (Hin & w & Hw & Hwk). split; [|eauto].
      apply elem_lru_remove. split; [done|]. intros ->. congruence.
    + intros e' [Hin Hne]%elem_lru_remove.
      destruct (wf_back0 _ Hin) as (w & Hw & Hwe & Hwv). exists w. split_and!; [done| |done].
      rewrite lookup_delete_ne; [done|]. intros Heq. rewrite <- Heq in Hwe. congruence.
    + intros e' [Hin _]%elem_lru_remove. auto.
    + pose proof (length_lru_remove e _ wf_nodup0 Heo). lia.
  - destruct Hwf. split; simpl; try done.
    + by apply NoDup_lru_front.
    + intros k e' Hk'. destruct (wf_index0 _ _ Hk') as [Hin ?].
      split; [by apply elem_lru_front|done].
    + intros e' Hin%elem_lru_front; auto.
    + intros e' Hin%elem_lru_front; auto.
    + rewrite length_lru_remove; auto.
Qed.

(** Pushing a fresh element, before the capacity test. *)
Lemma push_index c key now :
  cache_wf c -> cc_entries c !! key = None ->
  let entry := mkCacheEntry key (f key) (now + cc_ttl c) in
  forall e, e ∈ cc_next c :: cc_order c ->
    exists v, <[cc_next c := entry]> (cc_elems c) !! e = Some v /\
              <[key := cc_next c]> (cc_entries c) !! ce_key v = Some e /\
              ce_value v = f (ce_key v).
Proof.
  intros Hwf Hnone entry e. rewrite elem_of_cons. intros [->|Hin].
  - exists entry. rewrite lookup_insert_eq. split_and!; [done| |done].
    simpl. by rewrite lookup_insert_eq.
  - destruct (wf_back c Hwf e Hin) as (v & Hv & He & Hval).
    pose proof (wf_fresh c Hwf e Hin). exists v.
    rewrite lookup_insert_ne by lia. split_and!; [done| |done].
    rewrite lookup_insert_ne; [done|]. intros ->. congruence.
Qed.

Lemma push_entries c key now k e :
  cache_wf c -> cc_entries c !! key = None ->
  let entry := mkCacheEntry key (f key) (now + cc_ttl c) in
  <[key := cc_next c]> (cc_entries c) !! k = Some e ->
  e ∈ cc_next c :: cc_order c /\
  exists v, <[cc_next c := entry]> (cc_elems c) !! e = Some v /\ ce_key v = k.
Proof.
  intros Hwf Hnone entry [[<- <-]|[Hne Hk]]%lookup_insert_Some.
  - split; [by apply list_elem_of_here|]. exists entry. by rewrite lookup_insert_eq.
  - destruct (wf_index c Hwf _ _ Hk) as (Hin & v & Hv & Hvk).
    pose proof (wf_fresh c Hwf e Hin). split; [by apply list_elem_of_further|].
    exists v. by rewrite lookup_insert_ne by lia.
Qed.

(** [Add] of the cached computation keeps the cache well formed. *)
Lemma CallCache_Add_wf c key now :
  cache_wf c -> cache_wf (CallCache_Add c key (f key) now).
Proof.
  intros Hwf. unfold CallCache_Add.
  destruct (cc_entries c !! key) as [e|] eqn:Ee; [|case_match eqn:Hcap].
  - (* update in place *)
    destruct (wf_index c Hwf _ _ Ee) as (Heo & v & Hv & Hk). destruct Hwf.
    split; simpl; try done.
    + by apply NoDup_lru_front.
    + intros k e' Hk'. destruct (wf_index0 _ _ Hk') as (Hin & w & Hw & Hwk).
      split; [by apply elem_lru_front|].
      destruct (decide (e = e')) as [<-|].
      * rewrite lookup_insert_eq. eexists. split; [done|]. simpl. congruence.
      * rewrite lookup_insert_ne by done. eauto.
    + intros e' Hin%elem_lru_front; [|done]. destruct (decide (e = e')) as [<-|].
      * rewrite lookup_insert_eq. eexists. by split_and!.
      * rewrite lookup_insert_ne by done. auto.
    + intros e' Hin%elem_lru_front; auto.
    + rewrite length_lru_remove; auto.
  - (* push and evict *)
    destruct (last (cc_next c :: cc_order c)) as [old|] eqn:Hl;
      [|by apply last_None in Hl].
    pose proof (push_index c key now Hwf Ee) as Hb.
    pose proof (fun k e => push_entries c key now k e Hwf Ee) as Hi. cbv zeta in Hb, Hi.
    assert (old ∈ cc_next c :: cc_order c) as Hold
      by (apply last_Some in Hl as [l' ->]; set_solver).
    destruct (Hb old Hold) as (ov & Hov & Hoe & _). rewrite Hov.
    assert (NoDup (cc_next c :: cc_order c)) as Hnd.
    { apply NoDup_cons. split; [|by destruct Hwf].
      intros Hin. pose proof (wf_fresh c Hwf _ Hin). lia. }
    boolify. destruct Hwf. split; cbn [cc_order cc_elems cc_entries cc_next cc_capacity]; try done.
    + by apply NoDup_lru_remove.
    + intros k e' Hk'. apply lookup_delete_Some in Hk' as [Hne Hk'].
      destruct (Hi _ _ Hk') as (Hin & w & Hw & Hwk). split; [|eauto].
      apply elem_lru_remove. split; [done|]. intros ->. congruence.
    + intros e' [Hin Hne]%elem_lru_remove. destruct (Hb _ Hin) as (w & Hw & Hwe & Hwv).
      exists w. split_and!; [done| |done]. rewrite lookup_delete_ne; [done|].
      intros Heq. rewrite <- Heq in Hwe. congruence.
    + intros e' [Hin _]%elem_lru_remove. apply elem_of_cons in Hin as [->|Hin]; [lia|].
      pose proof (wf_fresh0 _ Hin). lia.
    + pose proof (length_lru_remove old _ Hnd Hold) as Hlen. simpl in Hlen. lia.
  - (* push *)
    pose proof (push_index c key now Hwf Ee) as Hb.
    pose proof (fun k e => push_entries c key now k e Hwf Ee) as Hi. cbv zeta in Hb, Hi.
    boolify. destruct Hwf. split; cbn [cc_order cc_elems cc_entries cc_next cc_capacity]; try done.
    + apply NoDup_cons. split; [|done]. intros Hin. pose proof (wf_fresh0 _ Hin). lia.
    + intros e' Hin. apply elem_of_cons in Hin as [->|Hin]; [lia|].
      pose proof (wf_fresh0 _ Hin). lia.
Qed.

(** The index never outgrows the recency list, hence never the capacity. *)
Lemma cache_wf_size c : cache_wf c -> Z.of_nat (size (cc_entries c)) <= cc_capacity c.
Proof.
  intros Hwf. pose proof (wf_bound c Hwf).
  enough (size (cc_entries c) <= length (cc_order c))%nat by lia.
  rewrite <- length_map_to_list, <- (length_fmap snd).
  apply submseteq_length, NoDup_submseteq.
  - apply NoDup_fmap_2_strong; [|apply NoDup_map_to_list].
    intros [k1 e1] [k2 e2] H1%elem_of_map_to_list H2%elem_of_map_to_list ?; simplify_eq/=.
    destruct (wf_index c Hwf _ _ H1) as (_ & v & Hv & <-).
    destruct (wf_index c Hwf _ _ H2) as (_ & w & Hw & <-). congruence.
  - intros e ([k e'] & -> & Hk%elem_of_map_to_list)%list_elem_of_fmap.
    by destruct (wf_index c Hwf _ _ Hk).
Qed.
End CallCacheFacts.

(** A run of the cached normalizer over timed requests. *)
Fixpoint normalize_all (c : CallCache) (reqs : list (string * Z)) : list string * CallCache :=
  match reqs with
  | [] => ([], c)
  | (call, now) :: rest =>
      let '(r, c') := NormalizeCallsign c call now in
      let '(rs, c'') := normalize_all c' rest in
      (r :: rs, c'')
  end.

Lemma NormalizeCallsign_step c call now :
  cache_wf normalize_call c ->
  let '(r, c') := NormalizeCallsign c call now in
  r = normalize_call call /\ cache_wf normalize_call c'.
Proof.
  intros Hwf. unfold NormalizeCallsign.
  pose proof (CallCache_Get_spec normalize_call c call now Hwf) as Hg.
  destruct (CallCache_Get c call now) as [[v|] c']; destruct Hg as (Hwf' & _ & Hv).
  - auto.
  - split; [done|]. by apply CallCache_Add_wf.
Qed.

Lemma normalize_all_wf c reqs :
  cache_wf normalize_call c ->
  fst (normalize_all c reqs) = map (fun q => normalize_call (fst q)) reqs /\
  cache_wf normalize_call (snd (normalize_all c reqs)).
Proof.
  revert c. induction reqs as [|[call now] rest IH]; intros c Hwf; [done|].
  cbn [normalize_all].
  pose proof (NormalizeCallsign_step c call now Hwf) as Hs.
  destruct (NormalizeCallsign c call now) as [r c']. destruct Hs as [-> Hwf'].
  destruct (IH c' Hwf') as [E ?]. destruct (normalize_all c' rest) as [rs c''].
  simpl in *. by rewrite E.
Qed.

(** ** Properties *)

(** The normalization cache is transparent and bounded: whatever the
    sequence and the times of the requests (hits, expiries, evictions), every
    answer equals the uncached normalization, and the cache never holds more
    entries than its capacity. *)
Theorem normalize_cache_transparent capacity ttl reqs :
  fst (normalize_all (NewCallCache capacity ttl) reqs)
    = map (fun q => normalize_call (fst q)) reqs /\
  Z.of_nat (size (cc_entries (snd (normalize_all (NewCallCache capacity ttl) reqs))))
    <= cc_capacity (snd (normalize_all (NewCallCache capacity ttl) reqs)).
Proof.
  destruct (normalize_all_wf (NewCallCache capacity ttl) reqs) as [E Hwf].
  { apply NewCallCache_wf. }
  split; [done|]. by eapply cache_wf_size.
Qed.

(** The allocation-free upper-casing loop returns, for every input,
    exactly [strings.ToUpper(strings.TrimSpace(s))], and applying it again
    changes nothing. *)
Theorem normalizeUpperASCIITrim_correct s :
  normalizeUpperASCIITrim s = NormalizeUpper s /\
  normalizeUpperASCIITrim (normalizeUpperASCIITrim s) = normalizeUpperASCIITrim s.
Proof.
  split; [apply normalizeUpperASCIITrim_eq|apply normalizeUpperASCIITrim_idemp].
Qed.

(** Callsign validation accepts exactly the strings of 3 to 15
    bytes that contain a digit and consist of a non-empty group of [A-Z0-9]
    followed by any number of groups that start with [/] or [-] and continue
    with one or more of [A-Z0-9#]: the automaton decides the pattern's
    language. *)
Theorem validateNormalizedCallsign_spec call :
  validateNormalizedCallsign call = true <->
  3 <= len call <= 15 /\ sexists is_digit call = true /\ callsign_lang call.
Proof.
  unfold validateNormalizedCallsign, callsignPattern_MatchString, callsign_lang.
  case_bool_decide as He; [subst; split; [done|]; intros [H _]; unfold len in H; simpl in H; lia|].
  destruct ((len call <? minCallsignLength) || (maxCallsignLength <? len call)) eqn:Hl.
  { split; [done|]. intros [H _]. apply orb_true_iff in Hl.
    unfold minCallsignLength, maxCallsignLength in Hl.
    destruct Hl as [Hl|Hl]; boolify; lia. }
  unfold minCallsignLength, maxCallsignLength in Hl. boolify.
  destruct (sexists is_digit call) eqn:Hd; simpl; [|naive_solver].
  rewrite callsign_match_spec. split.
  - intros (h & tails & ? & Hn & ? & ?). split_and!; [lia..|done|]. exists h, tails. auto.
  - intros (_ & _ & h & tails & ? & ? & ? & ?). exists h, tails. auto.
Qed.
