(* ===== verification/Bands.v ===== *)
(** * Bands: the amateur band table and the mode helpers that use it

    Models [spot/bands.go], [FreqToBand] of [spot/spot.go] and the voice-mode
    selection of [spot/mode_alloc.go].  Frequencies are the rationals their
    float64 values denote; a decimal literal of the source is the float64
    nearest to it. *)

From S2P Require Import Prelude GoText GoNum Callsign.

Local Open Scope Z_scope.

Record BandInfo := mkBandInfo { band_name : string; band_min : Q; band_max : Q }.

Definition bandTable : list BandInfo := [
  mkBandInfo "2200m" (fl64 (1357 # 10)) (fl64 (1378 # 10));
  mkBandInfo "630m" (472 # 1) (479 # 1);
  mkBandInfo "160m" (1800 # 1) (2000 # 1);
  mkBandInfo "80m" (3500 # 1) (4000 # 1);
  mkBandInfo "60m" (5330 # 1) (5405 # 1);
  mkBandInfo "40m" (7000 # 1) (7300 # 1);
  mkBandInfo "30m" (10100 # 1) (10150 # 1);
  mkBandInfo "20m" (14000 # 1) (14350 # 1);
  mkBandInfo "17m" (18068 # 1) (18168 # 1);
  mkBandInfo "15m" (21000 # 1) (21450 # 1);
  mkBandInfo "12m" (24890 # 1) (24990 # 1);
  mkBandInfo "10m" (28000 # 1) (29700 # 1);
  mkBandInfo "6m" (50000 # 1) (54000 # 1);
  mkBandInfo "2m" (144000 # 1) (148000 # 1);
  mkBandInfo "1.25m" (222000 # 1) (225000 # 1);
  mkBandInfo "70cm" (420000 # 1) (450000 # 1);
  mkBandInfo "33cm" (902000 # 1) (928000 # 1);
  mkBandInfo "23cm" (1240000 # 1) (1300000 # 1);
  mkBandInfo "13cm" (2300000 # 1) (2310000 # 1)
]%Q.

Definition bandReplacements : list (string * string) := [
  ("meters", "m"); ("meter", "m"); ("metres", "m"); ("metre", "m");
  ("centimeters", "cm"); ("centimeter", "cm"); ("centimetres", "cm"); ("centimetre", "cm")
].

Definition last_byte (s : string) : option ascii := String.get (String.length s - 1) s.

Definition NormalizeBand (label : string) : string :=
  let cleaned := ToLower (TrimSpace label) in
  if bool_decide (cleaned = "") then ""
  else
    let cleaned := fold_left (fun acc pair => ReplaceAll acc (fst pair) (snd pair))
                     bandReplacements cleaned in
    let cleaned := ReplaceAll cleaned " " "" in
    match last_byte cleaned with
    | None => ""
    | Some c => if is_digit c then cleaned +:+ "m" else cleaned
    end.

Definition bandLookup : gmap string BandInfo :=
  fold_left (fun m entry =>
    let normalized := NormalizeBand (band_name entry) in
    if bool_decide (normalized = "") then m else <[normalized := entry]> m) bandTable ∅.

Definition IsValidBand (label : string) : bool :=
  let normalized := NormalizeBand label in
  if bool_decide (normalized = "") then false
  else match bandLookup !! normalized with Some _ => true | None => false end.

Definition SupportedBandNames : list string := map band_name bandTable.

Definition FrequencyBounds : Q * Q :=
  match bandTable, last bandTable with
  | first :: _, Some final => (band_min first, band_max final)
  | _, _ => (0%Q, 0%Q)
  end.

Definition band_contains (freq : Q) (b : BandInfo) : bool :=
  Qle_b (band_min b) freq && Qle_b freq (band_max b).

Definition FreqToBand (freq : Q) : string :=
  match find (band_contains freq) bandTable with
  | Some b => band_name b
  | None => "???"
  end.

(** ** Modes by frequency *)

Definition NormalizeVoiceMode (mode : string) (freqKHz : Q) : string :=
  let upper := normalizeUpperASCIITrim mode in
  if bool_decide (upper = "SSB")
  then if Qle_b 10000 freqKHz then "USB" else "LSB"
  else upper.

Record modeAllocation := mkModeAllocation {
  ma_band : string;
  ma_lower : Q;
  ma_cw_end : Q;
  ma_upper : Q;
  ma_voice : string
}.

(** The table is read from a YAML file at run time; it is an argument here. *)
Fixpoint GuessModeFromAlloc (modeAlloc : list modeAllocation) (freqKHz : Q) : string :=
  match modeAlloc with
  | [] => ""
  | b :: rest =>
      if Qle_b (ma_lower b) freqKHz && Qle_b freqKHz (ma_upper b) then
        if Qlt_b 0 (ma_cw_end b) && Qle_b freqKHz (ma_cw_end b) then "CW"
        else if negb (bool_decide (TrimSpace (ma_voice b) = ""))
             then ToUpper (TrimSpace (ma_voice b))
             else GuessModeFromAlloc rest freqKHz
      else GuessModeFromAlloc rest freqKHz
  end.

Definition FinalizeMode (modeAlloc : list modeAllocation) (mode : string) (freq : Q) : string :=
  let mode := NormalizeVoiceMode mode freq in
  if negb (bool_decide (mode = "")) then mode
  else
    let alloc := GuessModeFromAlloc modeAlloc freq in
    if negb (bool_decide (alloc = "")) then NormalizeVoiceMode alloc freq
    else if Qle_b 10000 freq then "USB" else "CW".

(** ** Facts *)

Lemma Qle_b_spec x y : Qle_b x y = true <-> (x <= y)%Q.
Proof. apply Qle_bool_iff. Qed.

(** Every row of the table is a non-empty interval that ends below the start of
    all the rows after it. *)
Fixpoint bands_ordered (t : list BandInfo) : bool :=
  match t with
  | [] => true
  | b :: rest =>
      Qle_b (band_min b) (band_max b) &&
      forallb (fun b' => Qlt_b (band_max b) (band_min b')) rest && bands_ordered rest
  end.

Lemma bandTable_ordered : bands_ordered bandTable = true.
Proof. by vm_compute. Qed.

Lemma band_contains_unique t freq b1 b2 :
  bands_ordered t = true -> b1 ∈ t -> b2 ∈ t ->
  band_contains freq b1 = true -> band_contains freq b2 = true -> b1 = b2.
Proof.
  induction t as [|b t IH]; [by intros _ ?%not_elem_of_nil|]. cbn [bands_ordered].
  intros Ho H1 H2 C1 C2. apply andb_true_iff in Ho as [[_ Hf]%andb_true_iff Ho].
  assert (forall b', b' ∈ t -> band_contains freq b = true ->
            band_contains freq b' = true -> False) as Hx.
  { intros b' Hb' Cb Cb'. apply forallb_forall_elem with (x := b') in Hf; [|done].
    unfold band_contains in Cb, Cb'. apply andb_true_iff in Cb as [_ Cb].
    apply andb_true_iff in Cb' as [Cb' _]. apply Qle_b_spec in Cb, Cb'.
    unfold Qlt_b in Hf. apply negb_true_iff, not_true_iff_false in Hf.
    apply Hf, Qle_bool_iff. by eapply Qle_trans. }
  apply elem_of_cons in H1 as [->|H1]; apply elem_of_cons in H2 as [->|H2]; try done.
  - exfalso. eauto.
  - exfalso. eauto.
  - by apply IH.
Qed.

Lemma band_names_valid :
  forallb (fun b => IsValidBand (band_name b) && bool_decide (NormalizeBand (band_name b) = band_name b))
    bandTable = true.
Proof. by vm_compute. Qed.

(** ** Properties *)

(** [FreqToBand] is the inverse image of the band table: it returns
    a band's name exactly when the frequency lies within that row's inclusive
    edges (the rows are disjoint, so the first match is the only one), and the
    name it returns is one that [IsValidBand] accepts and [NormalizeBand]
    leaves alone; a frequency outside every row maps to ["???"]. *)
Theorem FreqToBand_spec freq :
  (forall b, b ∈ bandTable -> band_contains freq b = true ->
     FreqToBand freq = band_name b /\
     IsValidBand (FreqToBand freq) = true /\ NormalizeBand (FreqToBand freq) = FreqToBand freq) /\
  ((forall b, b ∈ bandTable -> band_contains freq b = false) -> FreqToBand freq = "???").
Proof.
  unfold FreqToBand. split.
  - intros b Hb Hc. destruct (find (band_contains freq) bandTable) as [b'|] eqn:Hf.
    + apply find_some in Hf as [Hin Hc']. apply list_elem_of_In in Hin.
      rewrite (band_contains_unique _ _ _ _ bandTable_ordered Hin Hb Hc' Hc).
      pose proof (proj1 (forallb_forall_elem _ _) band_names_valid b Hb) as Hv.
      apply andb_true_iff in Hv as [Hv Hn]. by apply bool_decide_eq_true in Hn.
    + apply list_elem_of_In in Hb. pose proof (find_none _ _ Hf b Hb). congruence.
  - intros H. destruct (find _ _) as [b|] eqn:Hf; [|done].
    apply find_some in Hf as [Hin Hc]. apply list_elem_of_In in Hin. rewrite H in Hc; done.
Qed.

(** The hypothesis-carrying half of the statement at a concrete row. *)
Lemma FreqToBand_spec_witness :
  FreqToBand (140745 # 10) = "20m" /\ IsValidBand "20m" = true.
Proof.
  destruct (proj1 (FreqToBand_spec (140745 # 10)) (mkBandInfo "20m" 14000 14350)) as (H & ? & ?).
  - do 7 apply list_elem_of_further. apply list_elem_of_here.
  - by vm_compute.
  - by vm_compute.
Defined.

(** The spelled-out centimetre bands are not recognised: the
    ["meters"]/["metres"] replacements run first and leave ["70centim"], which
    the later ["centimeters"] entries of the table no longer match, so
    [IsValidBand] rejects every spelling of 70, 33, 23 and 13 centimetres while
    it accepts the same spellings of the metre bands. *)
Theorem centimeter_labels_rejected :
  Forall (fun n => Forall (fun unit =>
            IsValidBand (n +:+ " centi" +:+ unit) = false /\
            NormalizeBand (n +:+ " centi" +:+ unit) = n +:+ "centim")
          ["meters"; "meter"; "metres"; "metre"]) ["70"; "33"; "23"; "13"] /\
  Forall (fun unit => IsValidBand ("20 " +:+ unit) = true) ["meters"; "meter"; "metres"; "metre"].
Proof.
  split; repeat constructor; vm_compute; reflexivity.
Qed.
