(* ===== verification/Spot.v ===== *)
(** * Spot: the canonical spot, its normalization and its dedup key

    Models [spot/spot.go] (data, constructors, normalization, hash key,
    validity), [spot/source.go] and [spot/beacon.go].  Pointer receivers become
    state passing: a method that mutates the spot returns the new spot.
    [formatted] is the pair of [formatted] and [formatOnce]: [None] until the
    once has fired.  [NormalizeCallsign] is [normalize_call] here (the cache is
    transparent, see [Callsign]). *)

From S2P Require Import Prelude GoText GoNum Callsign Bands.

Local Open Scope Z_scope.

(** ** Data *)

Definition SourceManual : string := "MANUAL".
Definition SourceRBN : string := "RBN".
Definition SourceFT8 : string := "FT8".
Definition SourceFT4 : string := "FT4".
Definition SourcePSKReporter : string := "PSKREPORTER".
Definition SourceUpstream : string := "UPSTREAM".
Definition SourcePeer : string := "PEER".

Record CallMetadata := mkCallMetadata {
  Continent : string;
  Country : string;
  CQZone : Z;
  Grid : string;
  GridDerived : bool;
  ITUZone : Z;
  ADIF : Z
}.

Definition empty_metadata : CallMetadata := mkCallMetadata "" "" 0 "" false 0 0.

Record Spot := mkSpot {
  ID : Z;
  DXCall : string;
  DECall : string;
  Frequency : Q;
  Band : string;
  Mode : string;
  Report : Z;
  Time : Z;
  Comment : string;
  SourceType : string;
  SourceNode : string;
  SpotterIP : string;
  TTL : Z;
  IsHuman : bool;
  IsTestSpotter : bool;
  IsBeacon : bool;
  HasReport : bool;
  DXMetadata : CallMetadata;
  DEMetadata : CallMetadata;
  Confidence : string;
  formatted : option string;
  ModeNorm : string;
  BandNorm : string;
  DXCallNorm : string;
  DECallNorm : string;
  DXContinentNorm : string;
  DEContinentNorm : string;
  DXGridNorm : string;
  DEGridNorm : string;
  DXGrid2 : string;
  DEGrid2 : string;
  DXCellID : Z;
  DECellID : Z;
  DECallStripped : string;
  DECallNormStripped : string
}.

Definition set_ID (v : Z) (s : Spot) : Spot :=
    mkSpot v (DXCall s) (DECall s) (Frequency s) (Band s) (Mode s) (Report s) (Time s) (Comment
    s) (SourceType s) (SourceNode s) (SpotterIP s) (TTL s) (IsHuman s) (IsTestSpotter s)
    (IsBeacon s) (HasReport s) (DXMetadata s) (DEMetadata s) (Confidence s) (formatted s)
    (ModeNorm s) (BandNorm s) (DXCallNorm s) (DECallNorm s) (DXContinentNorm s) (DEContinentNorm
    s) (DXGridNorm s) (DEGridNorm s) (DXGrid2 s) (DEGrid2 s) (DXCellID s) (DECellID s)
    (DECallStripped s) (DECallNormStripped s).

Definition set_Comment (v : string) (s : Spot) : Spot :=
    mkSpot (ID s) (DXCall s) (DECall s) (Frequency s) (Band s) (Mode s) (Report s) (Time s) v
    (SourceType s) (SourceNode s) (SpotterIP s) (TTL s) (IsHuman s) (IsTestSpotter s) (IsBeacon
    s) (HasReport s) (DXMetadata s) (DEMetadata s) (Confidence s) (formatted s) (ModeNorm s)
    (BandNorm s) (DXCallNorm s) (DECallNorm s) (DXContinentNorm s) (DEContinentNorm s)
    (DXGridNorm s) (DEGridNorm s) (DXGrid2 s) (DEGrid2 s) (DXCellID s) (DECellID s)
    (DECallStripped s) (DECallNormStripped s).

Definition set_IsHuman (v : bool) (s : Spot) : Spot :=
    mkSpot (ID s) (DXCall s) (DECall s) (Frequency s) (Band s) (Mode s) (Report s) (Time s)
    (Comment s) (SourceType s) (SourceNode s) (SpotterIP s) (TTL s) v (IsTestSpotter s)
    (IsBeacon s) (HasReport s) (DXMetadata s) (DEMetadata s) (Confidence s) (formatted s)
    (ModeNorm s) (BandNorm s) (DXCallNorm s) (DECallNorm s) (DXContinentNorm s) (DEContinentNorm
    s) (DXGridNorm s) (DEGridNorm s) (DXGrid2 s) (DEGrid2 s) (DXCellID s) (DECellID s)
    (DECallStripped s) (DECallNormStripped s).

Definition set_IsBeacon (v : bool) (s : Spot) : Spot :=
    mkSpot (ID s) (DXCall s) (DECall s) (Frequency s) (Band s) (Mode s) (Report s) (Time s)
    (Comment s) (SourceType s) (SourceNode s) (SpotterIP s) (TTL s) (IsHuman s) (IsTestSpotter
    s) v (HasReport s) (DXMetadata s) (DEMetadata s) (Confidence s) (formatted s) (ModeNorm s)
    (BandNorm s) (DXCallNorm s) (DECallNorm s) (DXContinentNorm s) (DEContinentNorm s)
    (DXGridNorm s) (DEGridNorm s) (DXGrid2 s) (DEGrid2 s) (DXCellID s) (DECellID s)
    (DECallStripped s) (DECallNormStripped s).

Definition set_formatted (v : option string) (s : Spot) : Spot :=
    mkSpot (ID s) (DXCall s) (DECall s) (Frequency s) (Band s) (Mode s) (Report s) (Time s)
    (Comment s) (SourceType s) (SourceNode s) (SpotterIP s) (TTL s) (IsHuman s) (IsTestSpotter
    s) (IsBeacon s) (HasReport s) (DXMetadata s) (DEMetadata s) (Confidence s) v (ModeNorm s)
    (BandNorm s) (DXCallNorm s) (DECallNorm s) (DXContinentNorm s) (DEContinentNorm s)
    (DXGridNorm s) (DEGridNorm s) (DXGrid2 s) (DEGrid2 s) (DXCellID s) (DECellID s)
    (DECallStripped s) (DECallNormStripped s).

Definition set_ModeNorm (v : string) (s : Spot) : Spot :=
    mkSpot (ID s) (DXCall s) (DECall s) (Frequency s) (Band s) (Mode s) (Report s) (Time s)
    (Comment s) (SourceType s) (SourceNode s) (SpotterIP s) (TTL s) (IsHuman s) (IsTestSpotter
    s) (IsBeacon s) (HasReport s) (DXMetadata s) (DEMetadata s) (Confidence s) (formatted s) v
    (BandNorm s) (DXCallNorm s) (DECallNorm s) (DXContinentNorm s) (DEContinentNorm s)
    (DXGridNorm s) (DEGridNorm s) (DXGrid2 s) (DEGrid2 s) (DXCellID s) (DECellID s)
    (DECallStripped s) (DECallNormStripped s).

Definition set_BandNorm (v : string) (s : Spot) : Spot :=
    mkSpot (ID s) (DXCall s) (DECall s) (Frequency s) (Band s) (Mode s) (Report s) (Time s)
    (Comment s) (SourceType s) (SourceNode s) (SpotterIP s) (TTL s) (IsHuman s) (IsTestSpotter
    s) (IsBeacon s) (HasReport s) (DXMetadata s) (DEMetadata s) (Confidence s) (formatted s)
    (ModeNorm s) v (DXCallNorm s) (DECallNorm s) (DXContinentNorm s) (DEContinentNorm s)
    (DXGridNorm s) (DEGridNorm s) (DXGrid2 s) (DEGrid2 s) (DXCellID s) (DECellID s)
    (DECallStripped s) (DECallNormStripped s).

Definition set_DXCallNorm (v : string) (s : Spot) : Spot :=
    mkSpot (ID s) (DXCall s) (DECall s) (Frequency s) (Band s) (Mode s) (Report s) (Time s)
    (Comment s) (SourceType s) (SourceNode s) (SpotterIP s) (TTL s) (IsHuman s) (IsTestSpotter
    s) (IsBeacon s) (HasReport s) (DXMetadata s) (DEMetadata s) (Confidence s) (formatted s)
    (ModeNorm s) (BandNorm s) v (DECallNorm s) (DXContinentNorm s) (DEContinentNorm s)
    (DXGridNorm s) (DEGridNorm s) (DXGrid2 s) (DEGrid2 s) (DXCellID s) (DECellID s)
    (DECallStripped s) (DECallNormStripped s).

Definition set_DECallNorm (v : string) (s : Spot) : Spot :=
    mkSpot (ID s) (DXCall s) (DECall s) (Frequency s) (Band s) (Mode s) (Report s) (Time s)
    (Comment s) (SourceType s) (SourceNode s) (SpotterIP s) (TTL s) (IsHuman s) (IsTestSpotter
    s) (IsBeacon s) (HasReport s) (DXMetadata s) (DEMetadata s) (Confidence s) (formatted s)
    (ModeNorm s) (BandNorm s) (DXCallNorm s) v (DXContinentNorm s) (DEContinentNorm s)
    (DXGridNorm s) (DEGridNorm s) (DXGrid2 s) (DEGrid2 s) (DXCellID s) (DECellID s)
    (DECallStripped s) (DECallNormStripped s).

Definition set_DXContinentNorm (v : string) (s : Spot) : Spot :=
    mkSpot (ID s) (DXCall s) (DECall s) (Frequency s) (Band s) (Mode s) (Report s) (Time s)
    (Comment s) (SourceType s) (SourceNode s) (SpotterIP s) (TTL s) (IsHuman s) (IsTestSpotter
    s) (IsBeacon s) (HasReport s) (DXMetadata s) (DEMetadata s) (Confidence s) (formatted s)
    (ModeNorm s) (BandNorm s) (DXCallNorm s) (DECallNorm s) v (DEContinentNorm s) (DXGridNorm s)
    (DEGridNorm s) (DXGrid2 s) (DEGrid2 s) (DXCellID s) (DECellID s) (DECallStripped s)
    (DECallNormStripped s).

Definition set_DEContinentNorm (v : string) (s : Spot) : Spot :=
    mkSpot (ID s) (DXCall s) (DECall s) (Frequency s) (Band s) (Mode s) (Report s) (Time s)
    (Comment s) (SourceType s) (SourceNode s) (SpotterIP s) (TTL s) (IsHuman s) (IsTestSpotter
    s) (IsBeacon s) (HasReport s) (DXMetadata s) (DEMetadata s) (Confidence s) (formatted s)
    (ModeNorm s) (BandNorm s) (DXCallNorm s) (DECallNorm s) (DXContinentNorm s) v (DXGridNorm s)
    (DEGridNorm s) (DXGrid2 s) (DEGrid2 s) (DXCellID s) (DECellID s) (DECallStripped s)
    (DECallNormStripped s).

Definition set_DXGridNorm (v : string) (s : Spot) : Spot :=
    mkSpot (ID s) (DXCall s) (DECall s) (Frequency s) (Band s) (Mode s) (Report s) (Time s)
    (Comment s) (SourceType s) (SourceNode s) (SpotterIP s) (TTL s) (IsHuman s) (IsTestSpotter
    s) (IsBeacon s) (HasReport s) (DXMetadata s) (DEMetadata s) (Confidence s) (formatted s)
    (ModeNorm s) (BandNorm s) (DXCallNorm s) (DECallNorm s) (DXContinentNorm s) (DEContinentNorm
    s) v (DEGridNorm s) (DXGrid2 s) (DEGrid2 s) (DXCellID s) (DECellID s) (DECallStripped s)
    (DECallNormStripped s).

Definition set_DEGridNorm (v : string) (s : Spot) : Spot :=
    mkSpot (ID s) (DXCall s) (DECall s) (Frequency s) (Band s) (Mode s) (Report s) (Time s)
    (Comment s) (SourceType s) (SourceNode s) (SpotterIP s) (TTL s) (IsHuman s) (IsTestSpotter
    s) (IsBeacon s) (HasReport s) (DXMetadata s) (DEMetadata s) (Confidence s) (formatted s)
    (ModeNorm s) (BandNorm s) (DXCallNorm s) (DECallNorm s) (DXContinentNorm s) (DEContinentNorm
    s) (DXGridNorm s) v (DXGrid2 s) (DEGrid2 s) (DXCellID s) (DECellID s) (DECallStripped s)
    (DECallNormStripped s).

Definition set_DXGrid2 (v : string) (s : Spot) : Spot :=
    mkSpot (ID s) (DXCall s) (DECall s) (Frequency s) (Band s) (Mode s) (Report s) (Time s)
    (Comment s) (SourceType s) (SourceNode s) (SpotterIP s) (TTL s) (IsHuman s) (IsTestSpotter
    s) (IsBeacon s) (HasReport s) (DXMetadata s) (DEMetadata s) (Confidence s) (formatted s)
    (ModeNorm s) (BandNorm s) (DXCallNorm s) (DECallNorm s) (DXContinentNorm s) (DEContinentNorm
    s) (DXGridNorm s) (DEGridNorm s) v (DEGrid2 s) (DXCellID s) (DECellID s) (DECallStripped s)
    (DECallNormStripped s).

Definition set_DEGrid2 (v : string) (s : Spot) : Spot :=
    mkSpot (ID s) (DXCall s) (DECall s) (Frequency s) (Band s) (Mode s) (Report s) (Time s)
    (Comment s) (SourceType s) (SourceNode s) (SpotterIP s) (TTL s) (IsHuman s) (IsTestSpotter
    s) (IsBeacon s) (HasReport s) (DXMetadata s) (DEMetadata s) (Confidence s) (formatted s)
    (ModeNorm s) (BandNorm s) (DXCallNorm s) (DECallNorm s) (DXContinentNorm s) (DEContinentNorm
    s) (DXGridNorm s) (DEGridNorm s) (DXGrid2 s) v (DXCellID s) (DECellID s) (DECallStripped s)
    (DECallNormStripped s).

Definition set_DXCellID (v : Z) (s : Spot) : Spot :=
    mkSpot (ID s) (DXCall s) (DECall s) (Frequency s) (Band s) (Mode s) (Report s) (Time s)
    (Comment s) (SourceType s) (SourceNode s) (SpotterIP s) (TTL s) (IsHuman s) (IsTestSpotter
    s) (IsBeacon s) (HasReport s) (DXMetadata s) (DEMetadata s) (Confidence s) (formatted s)
    (ModeNorm s) (BandNorm s) (DXCallNorm s) (DECallNorm s) (DXContinentNorm s) (DEContinentNorm
    s) (DXGridNorm s) (DEGridNorm s) (DXGrid2 s) (DEGrid2 s) v (DECellID s) (DECallStripped s)
    (DECallNormStripped s).

Definition set_DECellID (v : Z) (s : Spot) : Spot :=
    mkSpot (ID s) (DXCall s) (DECall s) (Frequency s) (Band s) (Mode s) (Report s) (Time s)
    (Comment s) (SourceType s) (SourceNode s) (SpotterIP s) (TTL s) (IsHuman s) (IsTestSpotter
    s) (IsBeacon s) (HasReport s) (DXMetadata s) (DEMetadata s) (Confidence s) (formatted s)
    (ModeNorm s) (BandNorm s) (DXCallNorm s) (DECallNorm s) (DXContinentNorm s) (DEContinentNorm
    s) (DXGridNorm s) (DEGridNorm s) (DXGrid2 s) (DEGrid2 s) (DXCellID s) v (DECallStripped s)
    (DECallNormStripped s).

Definition set_DECallNormStripped (v : string) (s : Spot) : Spot :=
    mkSpot (ID s) (DXCall s) (DECall s) (Frequency s) (Band s) (Mode s) (Report s) (Time s)
    (Comment s) (SourceType s) (SourceNode s) (SpotterIP s) (TTL s) (IsHuman s) (IsTestSpotter
    s) (IsBeacon s) (HasReport s) (DXMetadata s) (DEMetadata s) (Confidence s) (formatted s)
    (ModeNorm s) (BandNorm s) (DXCallNorm s) (DECallNorm s) (DXContinentNorm s) (DEContinentNorm
    s) (DXGridNorm s) (DEGridNorm s) (DXGrid2 s) (DEGrid2 s) (DXCellID s) (DECellID s)
    (DECallStripped s) v.

(** ** Operations *)

(** [if cur == "" && guard { cur = v }]. *)
Definition fill (cur : string) (guard : bool) (v : string) : string :=
  if bool_decide (cur = "") && guard then v else cur.

Definition nonempty (s : string) : bool := negb (bool_decide (s = "")).

Definition canonical_mode (upper : string) : string :=
  let '(canonical, _, ok) := canonicalPSKModeUpper upper in
  if ok : bool then canonical else upper.

Definition EnsureNormalized (s : Spot) : Spot :=
  let s := set_ModeNorm (fill (ModeNorm s) (nonempty (Mode s))
             (canonical_mode (normalizeUpperASCIITrim (Mode s)))) s in
  let s := set_BandNorm (fill (BandNorm s) (nonempty (Band s)) (NormalizeBand (Band s))) s in
  let s := set_DXCallNorm (fill (DXCallNorm s) (nonempty (DXCall s)) (normalize_call (DXCall s))) s in
  let s := set_DECallNorm (fill (DECallNorm s) (nonempty (DECall s)) (normalize_call (DECall s))) s in
  let s := set_DECallNormStripped (fill (DECallNormStripped s) (nonempty (DECallStripped s))
             (normalize_call (DECallStripped s))) s in
  let s := set_DXContinentNorm (fill (DXContinentNorm s) (nonempty (Continent (DXMetadata s)))
             (normalizeUpperASCIITrim (Continent (DXMetadata s)))) s in
  let s := set_DEContinentNorm (fill (DEContinentNorm s) (nonempty (Continent (DEMetadata s)))
             (normalizeUpperASCIITrim (Continent (DEMetadata s)))) s in
  let s := set_DXGridNorm (fill (DXGridNorm s) (nonempty (Grid (DXMetadata s)))
             (normalizeUpperASCIITrim (Grid (DXMetadata s)))) s in
  let s := set_DEGridNorm (fill (DEGridNorm s) (nonempty (Grid (DEMetadata s)))
             (normalizeUpperASCIITrim (Grid (DEMetadata s)))) s in
  let s := set_DXGrid2 (fill (DXGrid2 s) (2 <=? len (DXGridNorm s)) (stake 2 (DXGridNorm s))) s in
  set_DEGrid2 (fill (DEGrid2 s) (2 <=? len (DEGridNorm s)) (stake 2 (DEGridNorm s))) s.

Definition CloneWithComment (s : Spot) (comment : string) : Spot :=
  set_formatted None (set_Comment comment s).

Definition InvalidateMetadataCache (s : Spot) : Spot :=
  set_DECellID 0 (set_DXCellID 0 (set_DEGrid2 "" (set_DXGrid2 "" (set_DEGridNorm ""
    (set_DXGridNorm "" (set_DEContinentNorm "" (set_DXContinentNorm "" s))))))).

Definition IsSkimmerSource (source : string) : bool :=
  bool_decide (source ∈ [SourceRBN; SourceFT8; SourceFT4; SourcePSKReporter]).

Definition ApplySourceHumanFlag (s : Spot) : Spot :=
  set_IsHuman (negb (IsSkimmerSource (SourceType s))) s.

Definition beaconCommentKeywords : list string := ["NCDXF"; "BEACON"].

Definition commentContainsBeaconKeyword (comment : string) : bool :=
  if bool_decide (comment = "") then false
  else existsb (Contains (ToUpper comment)) beaconCommentKeywords.

Definition RefreshBeaconFlag (s : Spot) : Spot :=
  if nonempty (DXCallNorm s)
  then set_IsBeacon (HasSuffix (DXCallNorm s) "/B" || commentContainsBeaconKeyword (Comment s)) s
  else set_IsBeacon (IsBeaconCall (DXCall s) || commentContainsBeaconKeyword (Comment s)) s.

(** [math.Floor(freqKHz*10+0.5) / 10] in float64 arithmetic. *)
Definition roundFrequencyTo100Hz (freqKHz : Q) : Q :=
  fl64 (inject_Z (Qfloor (fl64 (fl64 (freqKHz * 10) + (1 # 2)))) / 10).

(** The fields both constructors share; [now] is the clock reading. *)
Definition build_spot (dx de : string) (freq : Q) (mode : string) (now : Z) : Spot :=
  let freq := roundFrequencyTo100Hz freq in
  let mode := NormalizeVoiceMode mode freq in
  let modeNorm := canonical_mode mode in
  let band := FreqToBand freq in
  RefreshBeaconFlag (EnsureNormalized
    (mkSpot 0 dx de freq band mode 0 now "" SourceManual "" "" 5 true false false false
       empty_metadata empty_metadata "" None modeNorm band dx de "" "" "" "" "" "" 0 0 "" "")).

Definition NewSpot (dxCall deCall : string) (freq : Q) (mode : string) (now : Z) : Spot :=
  build_spot (normalize_call dxCall) (normalize_call deCall) freq mode now.

Definition NewSpotNormalized (dxCallNorm deCallNorm : string) (freq : Q) (mode : string)
    (now : Z) : Spot :=
  build_spot (TrimSpace dxCallNorm) (TrimSpace deCallNorm) freq mode now.

Definition IsValid (s : Spot) : bool :=
  if bool_decide (DXCall s = "") || bool_decide (DECall s = "") then false
  else
    let '(minFreq, maxFreq) := FrequencyBounds in
    if Qlt_b (Frequency s) minFreq || Qlt_b maxFreq (Frequency s) then false
    else if bool_decide (Mode s = "") then false
    else true.

(** *** The dedup key *)

Definition writeFixedNormalizedCall (call : string) : list Z := fixed_bytes 15 call.

(** The 42-byte buffer that [Hash32] hashes: minute (8 bytes), whole kHz (4),
    DE call (15), DX call (15), little-endian.  A negative frequency makes
    [uint32(s.Frequency)] implementation-specific in Go and is outside the
    model's domain. *)
Definition hash_buffer (s : Spot) : list Z :=
  let s := EnsureNormalized s in
  le_bytes 8 (uint64 (unix_minute (Time s))) ++
  le_bytes 4 (uint32 (Qfloor (Frequency s))) ++
  writeFixedNormalizedCall (DECallNorm s) ++
  writeFixedNormalizedCall (DXCallNorm s).

(** [xxh3.Hash] is a parameter: the low 32 bits of its result are the key. *)
Definition Hash32 (xxh3 : list Z -> Z) (s : Spot) : Z * Spot :=
  (uint32 (xxh3 (hash_buffer s)), EnsureNormalized s).

(** ** Facts *)

Lemma fill_idemp cur g v : fill (fill cur g v) g v = fill cur g v.
Proof.
  unfold fill. destruct g; [|by rewrite !andb_false_r].
  rewrite !andb_true_r. repeat case_bool_decide; done.
Qed.

(** The normalizer only writes the cache fields. *)
Lemma EnsureNormalized_idemp s : EnsureNormalized (EnsureNormalized s) = EnsureNormalized s.
Proof. destruct s. cbv -[fill normalize_call normalizeUpperASCIITrim canonical_mode
  NormalizeBand stake len nonempty Z.leb]. by rewrite !fill_idemp. Qed.

Lemma Time_EnsureNormalized s : Time (EnsureNormalized s) = Time s.
Proof. by destruct s. Qed.

Lemma Frequency_EnsureNormalized s : Frequency (EnsureNormalized s) = Frequency s.
Proof. by destruct s. Qed.

#[export] Hint Rewrite Time_EnsureNormalized Frequency_EnsureNormalized : gospot.
#[global] Opaque EnsureNormalized.

Lemma hash_buffer_normalized s : hash_buffer (EnsureNormalized s) = hash_buffer s.
Proof. unfold hash_buffer. by rewrite EnsureNormalized_idemp. Qed.

(** Equal concatenations of two equal-length heads split. *)
Lemma app_eq_split {A} (a b c d : list A) :
  length a = length c -> a ++ b = c ++ d -> a = c /\ b = d.
Proof. intros. by apply app_inj_1. Qed.

Lemma uint64_inj x y : in_int64 x -> in_int64 y -> uint64 x = uint64 y -> x = y.
Proof.
  unfold in_int64, uint64, min_int64, max_int64. intros Hx Hy H.
  assert ((x + 2 ^ 63) mod 2 ^ 64 = (y + 2 ^ 63) mod 2 ^ 64) as E
    by (rewrite <- (Zplus_mod_idemp_l x), <- (Zplus_mod_idemp_l y); congruence).
  rewrite !Z.mod_small in E by lia. lia.
Qed.

(** What the primary dedup key of a spot stands for. *)
Record dedup_fields := mkDedupFields {
  df_minute : Z;
  df_khz : Z;
  df_de : string;
  df_dx : string
}.

Definition dedup_fields_of (s : Spot) : dedup_fields :=
  let s := EnsureNormalized s in
  mkDedupFields (unix_minute (Time s)) (Qfloor (Frequency s))
    (stake 15 (DECallNorm s)) (stake 15 (DXCallNorm s)).

(** The ranges in which the key's integer fields are exact: Unix seconds in
    int64, kHz in uint32, no NUL byte in the calls. *)
Definition hashable (s : Spot) : Prop :=
  in_int64 (unix_minute (Time s)) /\ 0 <= Qfloor (Frequency s) < 2 ^ 32 /\
  no_byte "000" (DECallNorm (EnsureNormalized s)) = true /\
  no_byte "000" (DXCallNorm (EnsureNormalized s)) = true.

Lemma hash_buffer_split s1 s2 :
  hash_buffer s1 = hash_buffer s2 ->
  le_bytes 8 (uint64 (unix_minute (Time s1))) = le_bytes 8 (uint64 (unix_minute (Time s2))) /\
  le_bytes 4 (uint32 (Qfloor (Frequency s1))) = le_bytes 4 (uint32 (Qfloor (Frequency s2))) /\
  fixed_bytes 15 (DECallNorm (EnsureNormalized s1)) = fixed_bytes 15 (DECallNorm (EnsureNormalized s2)) /\
  fixed_bytes 15 (DXCallNorm (EnsureNormalized s1)) = fixed_bytes 15 (DXCallNorm (EnsureNormalized s2)).
Proof.
  intros H. unfold hash_buffer, writeFixedNormalizedCall in H.
  autorewrite with gospot in H.
  apply app_eq_split in H as [H1 H]; [|by rewrite !length_le_bytes].
  apply app_eq_split in H as [H2 H]; [|by rewrite !length_le_bytes].
  apply app_eq_split in H as [H3 H4]; [|by rewrite !length_fixed_bytes].
  done.
Qed.

(** ** Properties *)

(** The primary dedup key identifies exactly minute, whole kHz and
    the first 15 bytes of both normalized calls: for spots whose fields are in
    range, the hashed buffers agree if and only if these four do, and then the
    hashes agree whatever the hash function.  (Two different buffers may still
    collide in the 32-bit hash.) *)
Theorem hash_key_exact (s1 s2 : Spot) :
  hashable s1 -> hashable s2 ->
  (hash_buffer s1 = hash_buffer s2 <-> dedup_fields_of s1 = dedup_fields_of s2) /\
  (dedup_fields_of s1 = dedup_fields_of s2 ->
   forall xxh3, fst (Hash32 xxh3 s1) = fst (Hash32 xxh3 s2)).
Proof.
  intros (T1 & F1 & E1 & X1) (T2 & F2 & E2 & X2).
  assert (dedup_fields_of s1 = dedup_fields_of s2 -> hash_buffer s1 = hash_buffer s2) as Hb.
  { intros H. pose proof (f_equal df_minute H) as Hm. pose proof (f_equal df_khz H) as Hk.
    pose proof (f_equal df_de H) as Hde. pose proof (f_equal df_dx H) as Hdx.
    unfold dedup_fields_of in Hm, Hk, Hde, Hdx. cbn [df_minute df_khz df_de df_dx] in *.
    unfold hash_buffer, writeFixedNormalizedCall.
    rewrite Hm, Hk, (fixed_bytes_stake _ _ _ Hde), (fixed_bytes_stake _ _ _ Hdx). done. }
  split; [split; [|done]|].
  - intros H. apply hash_buffer_split in H as (H1 & H2 & H3 & H4).
    apply le_bytes_inj in H1; [|apply Z.mod_pos_bound; done..].
    apply le_bytes_inj in H2; [|apply Z.mod_pos_bound; done..].
    apply uint64_inj in H1; [|done..].
    unfold uint32 in H2. rewrite !Z.mod_small in H2 by done.
    apply fixed_bytes_inj in H3, H4; [|done..].
    unfold dedup_fields_of. autorewrite with gospot. by rewrite H1, H2, H3, H4.
  - intros H xxh3. unfold Hash32. cbn [fst]. by rewrite Hb.
Qed.

Definition sample_spot (dx de : string) (freq : Q) (t : Z) : Spot := NewSpot dx de freq "CW" t.

Lemma hash_key_exact_witness :
  hash_buffer (sample_spot "K1ABC" "W3LPL" (140250 # 10) (61 * second)) =
  hash_buffer (sample_spot "k1abc/p" "w3lpl" (140254 # 10) (119 * second)).
Proof.
  apply (hash_key_exact
    (sample_spot "K1ABC" "W3LPL" (140250 # 10) (61 * second))
    (sample_spot "k1abc/p" "w3lpl" (140254 # 10) (119 * second))).
  - unfold hashable, in_int64. split_and!; compute_goal.
  - unfold hashable, in_int64. split_and!; compute_goal.
  - vm_compute. reflexivity.
Defined.
