(* ===== verification/SpotFormat.v ===== *)
(** * SpotFormat: the fixed-width DX-cluster line

    Models the formatting half of [spot/spot.go]: the line layout, the string
    builder and [FormatDXCluster] with its helpers.  The builder's buffer is
    the string written so far ([Grow] only changes capacity and has no
    counterpart). *)

From S2P Require Import Prelude GoText GoNum Callsign Bands Spot.

Local Open Scope Z_scope.

(** ** Layout *)

Definition freqFieldWidthToEnd : Z := 25.
Definition dxCallFieldWidth : Z := 8.
Definition commentColumn : Z := 39.
Definition dxDisplayMaxLen : Z := 10.
Definition dxClusterDefaultLineLength : Z := 76.
Definition dxClusterMinLineLength : Z := 65.
Definition dxClusterTailLength : Z := 15.

Record dxClusterLayout := mkLayout {
  lineLength : Z;
  tailStartIdx : Z;
  glyphIdx : Z;
  gridIdx : Z;
  confIdx : Z;
  timeIdx : Z
}.

(** [None] is the error "below minimum". *)
Definition newDXClusterLayout (n : Z) : option dxClusterLayout :=
  let n := if n <=? 0 then dxClusterDefaultLineLength else n in
  if n <? dxClusterMinLineLength then None
  else
    let tail := n - dxClusterTailLength in
    Some (mkLayout n tail (tail + 1) (tail + 3) (tail + 8) (tail + 10)).

(** [SetDXClusterLineLength]: the active layout after the call, and whether it
    was accepted. *)
Definition SetDXClusterLineLength (cur : dxClusterLayout) (n : Z) : dxClusterLayout * bool :=
  match newDXClusterLayout n with
  | None => (cur, false)
  | Some l => (l, true)
  end.

(** The 1-based view of the active layout. *)
Definition CurrentDXClusterLayout (l : dxClusterLayout) : dxClusterLayout :=
  mkLayout (lineLength l) (tailStartIdx l + 1) (glyphIdx l + 1) (gridIdx l + 1)
    (confIdx l + 1) (timeIdx l + 1).

(** ** Builder *)

Definition AppendString (b s : string) : string := b +:+ s.
Definition AppendByte (b : string) (c : ascii) : string := b +:+ String c "".

Definition Truncate (b : string) (n : Z) : string :=
  let n := if n <? 0 then 0 else n in
  if len b <? n then b else stake (Z.to_nat n) b.

Definition spaceChunk : string := "                ".

(** The padding loop, 16 blanks at a time; [count] bounds the iterations. *)
Fixpoint writeSpaces_loop (fuel : nat) (b : string) (count : Z) : string :=
  match fuel with
  | O => b
  | S k =>
      if 0 <? count then
        if len spaceChunk <? count
        then writeSpaces_loop k (AppendString b spaceChunk) (count - len spaceChunk)
        else AppendString b (stake (Z.to_nat count) spaceChunk)
      else b
  end.

Definition writeSpaces (b : string) (count : Z) : string :=
  writeSpaces_loop (Z.to_nat count) b count.

(** ** Field helpers *)

Definition displayDXCall (call : string) : string :=
  let call := TrimSpace call in
  if bool_decide (call = "") then call
  else if dxDisplayMaxLen <? len call then stake (Z.to_nat dxDisplayMaxLen) call else call.

Definition formatGridLabel (grid : string) (derived : bool) : string :=
  let grid := TrimSpace grid in
  if bool_decide (grid = "") then ""
  else
    let grid := if derived then ToLower grid else ToUpper grid in
    if 4 <? len grid then stake 4 grid else grid.

Definition printable (c : ascii) : bool := (32 <=? byte_val c) && (byte_val c <=? 126).

Definition cont_byte (lo hi : Z) (c : ascii) : bool := (lo <=? byte_val c) && (byte_val c <=? hi).

(** Bytes that [for _, r := range s] consumes for the first rune: the width of
    a well-formed UTF-8 sequence, 1 for ASCII and for malformed input. *)
Definition rune_width (s : string) : nat :=
  match s with
  | EmptyString => 0%nat
  | String c1 r1 =>
      let b := byte_val c1 in
      let '(n, lo, hi) :=
        if (194 <=? b) && (b <=? 223) then (2%nat, 128, 191)
        else if b =? 224 then (3%nat, 160, 191)
        else if b =? 237 then (3%nat, 128, 159)
        else if (225 <=? b) && (b <=? 239) then (3%nat, 128, 191)
        else if b =? 240 then (4%nat, 144, 191)
        else if b =? 244 then (4%nat, 128, 143)
        else if (241 <=? b) && (b <=? 243) then (4%nat, 128, 191)
        else (1%nat, 0, 0) in
      match n, r1 with
      | 2%nat, String c2 _ => if cont_byte lo hi c2 then 2%nat else 1%nat
      | 3%nat, String c2 (String c3 _) =>
          if cont_byte lo hi c2 && cont_byte 128 191 c3 then 3%nat else 1%nat
      | 4%nat, String c2 (String c3 (String c4 _)) =>
          if cont_byte lo hi c2 && cont_byte 128 191 c3 && cont_byte 128 191 c4
          then 4%nat else 1%nat
      | _, _ => 1%nat
      end
  end.

(** The rewriting loop of [sanitizeDXClusterComment]: [skip] bytes of the
    current rune are left, [lastSpace] as in the source. *)
Fixpoint sanitize_runes (s : string) (skip : nat) (lastSpace : bool) : string :=
  match s with
  | EmptyString => ""
  | String c s' =>
      match skip with
      | S k => sanitize_runes s' k lastSpace
      | O =>
          let b := byte_val c in
          if ((9 <=? b) && (b <=? 13)) || (b =? 32) then
            if lastSpace then sanitize_runes s' 0 lastSpace
            else String " " (sanitize_runes s' 0 true)
          else if (b <? 32) || (b =? 127) then sanitize_runes s' 0 lastSpace
          else if b <=? 126 then String c (sanitize_runes s' 0 false)
          else String "?" (sanitize_runes s' (rune_width s - 1) false)
      end
  end.

Definition sanitizeDXClusterComment (comment : string) : string :=
  let comment := TrimSpace comment in
  if bool_decide (comment = "") then ""
  else if sforall printable comment then comment
  else TrimSpace (sanitize_runes comment 0 false).

Definition formatZoneGridComment (s : Spot) : string := sanitizeDXClusterComment (Comment s).

Definition firstPrintableASCIIOrQuestion (s : string) : string :=
  match s with
  | EmptyString => "?"
  | String c _ => if printable c then String c "" else "?"
  end.

Definition two_digits (n : Z) : string :=
  String (byte_of (48 + n / 10)) (String (byte_of (48 + n mod 10)) "").

(** [Time.UTC().Format("1504Z")]. *)
Definition format_1504Z (t : Z) : string :=
  two_digits ((t / hour) mod 24) +:+ two_digits ((t / minute) mod 60) +:+ "Z".

(** ** The line *)

(** "DX de CALL:", padding, frequency and two blanks. *)
Definition format_left (s : Spot) (freqStr : string) : string :=
  let deCall := if nonempty (DECallStripped s) then DECallStripped s else DECall s in
  let maxPrefixLen := freqFieldWidthToEnd - len freqStr in
  let maxDELen := maxPrefixLen - len "DX de " - len ":" in
  let maxDELen := if maxDELen <? 1 then 1 else maxDELen in
  let deCall := if maxDELen <? len deCall then stake (Z.to_nat maxDELen) deCall else deCall in
  let prefix := "DX de " +:+ deCall +:+ ":" in
  let spacesToFreq := freqFieldWidthToEnd - len prefix - len freqStr in
  let spacesToFreq := if spacesToFreq <? 0 then 0 else spacesToFreq in
  let b := AppendString "" prefix in
  let b := writeSpaces b spacesToFreq in
  let b := AppendString b freqStr in
  AppendString b "  ".

(** DX call, padded, then blanks up to the mode column. *)
Definition format_dx (s : Spot) (b : string) : string :=
  let dxCallRaw := if bool_decide (DXCallNorm s = "") then normalize_call (DXCall s)
                   else DXCallNorm s in
  let dxCall := displayDXCall dxCallRaw in
  let dxCall := if bool_decide (dxCall = "") then displayDXCall (DXCall s) else dxCall in
  let maxDXLen := commentColumn - len b in
  let maxDXLen := if maxDXLen <? 0 then 0 else maxDXLen in
  let dxCall := if maxDXLen <? len dxCall then stake (Z.to_nat maxDXLen) dxCall else dxCall in
  let b := AppendString b dxCall in
  let pad := dxCallFieldWidth - len dxCall in
  let b := if 0 <? pad then writeSpaces b pad else b in
  let spacesToComment := commentColumn - len b in
  let spacesToComment := if spacesToComment <? 0 then 0 else spacesToComment in
  writeSpaces b spacesToComment.

(** Mode, report and as much of the comment as fits before the tail. *)
Definition format_comment (s : Spot) (tailStart : Z) (b : string) : string :=
  let b := AppendString b (Mode s) in
  let b :=
    if HasReport s then
      let b := AppendByte b " " in
      let b :=
        if EqualFold (Mode s) "CW" || EqualFold (Mode s) "RTTY" then AppendString b (Itoa (Report s))
        else
          let b := if 0 <=? Report s then AppendByte b "+" else b in
          AppendString b (Itoa (Report s)) in
      AppendString b " dB"
    else b in
  let trimmed := TrimSpace (formatZoneGridComment s) in
  if nonempty trimmed then
    let remaining := (tailStart - 1) - len b in
    if 1 <? remaining then
      let b := AppendByte b " " in
      let remaining := remaining - 1 in
      if 0 <? remaining then
        let trimmed := if remaining <? len trimmed then stake (Z.to_nat remaining) trimmed
                       else trimmed in
        AppendString b trimmed
      else b
    else b
  else b.

Definition format_grid (s : Spot) : string :=
  let gridWidth := 4 in
  let gridLabel := formatGridLabel (Grid (DXMetadata s)) (GridDerived (DXMetadata s)) in
  if bool_decide (gridLabel = "") then Repeat " " (Z.to_nat gridWidth)
  else if len gridLabel <? gridWidth
       then gridLabel +:+ Repeat " " (Z.to_nat (gridWidth - len gridLabel))
  else if gridWidth <? len gridLabel then stake (Z.to_nat gridWidth) gridLabel
  else gridLabel.

Definition format_conf (s : Spot) : string :=
  let trimmed := TrimSpace (Confidence s) in
  if nonempty trimmed then firstPrintableASCIIOrQuestion trimmed else " ".

(** Cut or pad to the tail. *)
Definition fit_tail (tailStart : Z) (b : string) : string :=
  if tailStart <? len b then Truncate b tailStart
  else if len b <? tailStart then writeSpaces b (tailStart - len b)
  else b.

Definition format_line (layout : dxClusterLayout) (s : Spot) : string :=
  let timeStr := format_1504Z (Time s) in
  let freqStr := FormatFloat1 (Frequency s) in
  let b := format_left s freqStr in
  let b := format_dx s b in
  let b := format_comment s (tailStartIdx layout) b in
  let b := fit_tail (tailStartIdx layout) b in
  let b := AppendByte (AppendByte (AppendByte b " ") " ") " " in
  let b := AppendString b (format_grid s) in
  let b := AppendByte b " " in
  let b := AppendString b (format_conf s) in
  let b := AppendByte b " " in
  AppendString b timeStr.

(** [FormatDXCluster]: the once-guarded cache around the line. *)
Definition FormatDXCluster (layout : dxClusterLayout) (s : Spot) : string * Spot :=
  match formatted s with
  | Some line => (line, s)
  | None => let line := format_line layout s in (line, set_formatted (Some line) s)
  end.

(** ** Facts *)

Definition spaces (n : Z) : string := Repeat " " (Z.to_nat n).

Lemma len_nonneg s : 0 <= len s.
Proof. unfold len. lia. Qed.

Lemma len_spaces n : 0 <= n -> len (spaces n) = n.
Proof. intros. unfold len, spaces. rewrite length_Repeat. simpl. lia. Qed.

Lemma len_stake n s : 0 <= n -> len (stake (Z.to_nat n) s) = Z.min n (len s).
Proof. intros. unfold len. rewrite length_stake. lia. Qed.

Lemma Repeat_add s n m : Repeat s (n + m) = Repeat s n +:+ Repeat s m.
Proof. induction n as [|n IH]; simpl; [done|]. by rewrite IH, sapp_assoc. Qed.

Lemma spaces_add n m : 0 <= n -> 0 <= m -> spaces (n + m) = spaces n +:+ spaces m.
Proof. intros. unfold spaces. rewrite Z2Nat.inj_add by lia. apply Repeat_add. Qed.

Lemma stake_Repeat_space n m : (n <= m)%nat -> stake n (Repeat " " m) = Repeat " " n.
Proof.
  intros H. replace m with (n + (m - n))%nat by lia. rewrite Repeat_add.
  assert (n = String.length (Repeat " " n)) as Hl by (rewrite length_Repeat; simpl; lia).
  rewrite Hl at 1. apply stake_app_length.
Qed.

Lemma stake_app_ge a r n :
  (String.length a <= n)%nat -> stake n (a +:+ r) = a +:+ stake (n - String.length a) r.
Proof.
  revert n. induction a as [|c a IH]; intros n Hn.
  - simpl. by rewrite Nat.sub_0_r.
  - destruct n as [|n]; [simpl in Hn; lia|].
    rewrite !sapp_cons. unfold stake; fold stake. f_equal. apply IH. simpl in Hn. lia.
Qed.

(** The chunked loop writes exactly [count] blanks. *)
Lemma writeSpaces_loop_spec fuel b count :
  count <= Z.of_nat fuel -> writeSpaces_loop fuel b count = b +:+ spaces count.
Proof.
  change spaceChunk with (spaces 16).
  revert b count. induction fuel as [|k IH]; intros b count Hc; simpl.
  - unfold spaces. replace (Z.to_nat count) with 0%nat by lia. simpl. by rewrite sapp_nil_r.
  - change spaceChunk with (spaces 16). rewrite len_spaces by lia. unfold AppendString.
    destruct (Z.ltb_spec 0 count).
    + destruct (Z.ltb_spec 16 count).
      * rewrite IH by lia. rewrite sapp_assoc, <- spaces_add by lia. do 2 f_equal. lia.
      * f_equal. unfold spaces. apply stake_Repeat_space. lia.
    + unfold spaces. replace (Z.to_nat count) with 0%nat by lia. simpl. by rewrite sapp_nil_r.
Qed.

Lemma writeSpaces_spec b count : writeSpaces b count = b +:+ spaces count.
Proof. apply writeSpaces_loop_spec. lia. Qed.

Lemma len_two_digits n : len (two_digits n) = 2.
Proof. done. Qed.

Lemma len_format_1504Z t : len (format_1504Z t) = 5.
Proof. unfold format_1504Z. by rewrite !len_sapp, !len_two_digits. Qed.

Lemma len_format_grid s : len (format_grid s) = 4.
Proof.
  unfold format_grid. case_bool_decide; [done|].
  destruct (Z.ltb_spec (len (formatGridLabel (Grid (DXMetadata s)) (GridDerived (DXMetadata s)))) 4).
  - rewrite len_sapp.
    pose proof (len_nonneg (formatGridLabel (Grid (DXMetadata s)) (GridDerived (DXMetadata s)))).
    fold (spaces (4 - len (formatGridLabel (Grid (DXMetadata s)) (GridDerived (DXMetadata s))))).
    rewrite len_spaces by lia. lia.
  - destruct (Z.ltb_spec 4 (len (formatGridLabel (Grid (DXMetadata s)) (GridDerived (DXMetadata s))))).
    + rewrite len_stake; lia.
    + lia.
Qed.

Lemma len_format_conf s : len (format_conf s) = 1.
Proof.
  unfold format_conf. destruct (nonempty _); [|done].
  unfold firstPrintableASCIIOrQuestion. by repeat case_match.
Qed.

Lemma len_fit_tail tailStart b : 0 <= tailStart -> len (fit_tail tailStart b) = tailStart.
Proof.
  intros Ht. unfold fit_tail.
  destruct (Z.ltb_spec tailStart (len b)).
  - unfold Truncate. destruct (Z.ltb_spec tailStart 0); [lia|].
    destruct (Z.ltb_spec (len b) tailStart); [lia|]. rewrite len_stake; lia.
  - destruct (Z.ltb_spec (len b) tailStart); [|lia].
    rewrite writeSpaces_spec, len_sapp, len_spaces; lia.
Qed.

(** A prefix that fits before the tail survives the cut. *)
Lemma fit_tail_prefix tailStart a r :
  len a <= tailStart -> exists rest, fit_tail tailStart (a +:+ r) = a +:+ rest.
Proof.
  intros Ha. pose proof (len_nonneg a). unfold fit_tail.
  destruct (Z.ltb_spec tailStart (len (a +:+ r))).
  - unfold Truncate. destruct (Z.ltb_spec tailStart 0); [lia|].
    destruct (Z.ltb_spec (len (a +:+ r)) tailStart); [lia|].
    rewrite stake_app_ge by (unfold len in Ha; lia). eauto.
  - destruct (_ <? _); [|eauto]. rewrite writeSpaces_spec, sapp_assoc. eauto.
Qed.

(** The tail columns, as one string. *)
Definition format_tail (s : Spot) : string :=
  "   " +:+ format_grid s +:+ " " +:+ format_conf s +:+ " " +:+ format_1504Z (Time s).

Lemma len_format_tail s : len (format_tail s) = 15.
Proof.
  unfold format_tail.
  by rewrite !len_sapp, len_format_grid, len_format_conf, len_format_1504Z.
Qed.

Lemma format_line_split layout s :
  format_line layout s =
  fit_tail (tailStartIdx layout)
    (format_comment s (tailStartIdx layout) (format_dx s (format_left s (FormatFloat1 (Frequency s)))))
  +:+ format_tail s.
Proof.
  unfold format_line, AppendByte, AppendString, format_tail. by rewrite !sapp_assoc.
Qed.

Lemma newDXClusterLayout_tail n l :
  newDXClusterLayout n = Some l -> lineLength l = tailStartIdx l + 15 /\ 50 <= tailStartIdx l.
Proof.
  unfold newDXClusterLayout, dxClusterMinLineLength, dxClusterTailLength,
    dxClusterDefaultLineLength. intros H.
  destruct (Z.leb_spec n 0); [by simplify_eq/=|].
  destruct (Z.ltb_spec n 65); simplify_eq/=; lia.
Qed.

Lemma format_left_spec s freqStr :
  1 <= 18 - len freqStr ->
  exists de sp, format_left s freqStr = "DX de " +:+ de +:+ ":" +:+ spaces sp +:+ freqStr +:+ "  " /\
    len ("DX de " +:+ de +:+ ":" +:+ spaces sp +:+ freqStr) = 25.
Proof.
  intros Hf. pose proof (len_nonneg freqStr).
  unfold format_left, freqFieldWidthToEnd, AppendString.
  change (len "DX de ") with 6. change (len ":") with 1.
  destruct (Z.ltb_spec (25 - len freqStr - 6 - 1) 1); [lia|].
  set (de := if nonempty (DECallStripped s) then DECallStripped s else DECall s).
  set (m := 25 - len freqStr - 6 - 1).
  set (de' := if m <? len de then stake (Z.to_nat m) de else de).
  assert (len de' <= m) as Hde
    by (subst de'; destruct (Z.ltb_spec m (len de)); [rewrite len_stake; lia|done]).
  pose proof (len_nonneg de').
  exists de', (18 - len de' - len freqStr).
  assert (len ("DX de " +:+ de' +:+ ":") = 7 + len de') as Hp
    by (rewrite !len_sapp; change (len "DX de ") with 6; change (len ":") with 1; lia).
  rewrite Hp. destruct (Z.ltb_spec (25 - (7 + len de') - len freqStr) 0); [lia|].
  rewrite writeSpaces_spec. split.
  - replace (25 - (7 + len de') - len freqStr) with (18 - len de' - len freqStr) by lia.
    change ("" +:+ ?x) with x. rewrite !sapp_assoc. done.
  - rewrite !len_sapp, len_spaces by lia.
    change (len "DX de ") with 6. change (len ":") with 1. lia.
Qed.

Lemma len_displayDXCall call : len (displayDXCall call) <= 10.
Proof.
  unfold displayDXCall, dxDisplayMaxLen. case_bool_decide as E; [rewrite E; done|].
  destruct (Z.ltb_spec 10 (len (TrimSpace call))); [rewrite len_stake; lia|done].
Qed.

Lemma format_dx_spec s b :
  len b = 27 -> exists dx pad, format_dx s b = b +:+ dx +:+ spaces pad /\ len (dx +:+ spaces pad) = 12.
Proof.
  intros Hb. unfold format_dx, AppendString, commentColumn, dxCallFieldWidth.
  set (raw := if bool_decide (DXCallNorm s = "") then _ else _).
  set (dx := if bool_decide (displayDXCall raw = "") then _ else _).
  assert (len dx <= 10) as Hdx by (subst dx; case_bool_decide; apply len_displayDXCall).
  pose proof (len_nonneg dx). rewrite Hb.
  destruct (Z.ltb_spec (39 - 27) 0); [lia|]. destruct (Z.ltb_spec (39 - 27) (len dx)); [lia|].
  exists dx, (12 - len dx). rewrite !writeSpaces_spec.
  destruct (Z.ltb_spec 0 (8 - len dx)).
  - rewrite !len_sapp, len_spaces, Hb by lia.
    destruct (Z.ltb_spec (39 - (27 + len dx + (8 - len dx))) 0); [lia|].
    rewrite !sapp_assoc, <- spaces_add by lia. split; [do 3 f_equal; lia|].
    rewrite len_spaces; lia.
  - rewrite !len_sapp, Hb. destruct (Z.ltb_spec (39 - (27 + len dx)) 0); [lia|].
    rewrite sapp_assoc, len_spaces by lia. split; [do 3 f_equal; lia|lia].
Qed.

Lemma format_comment_prefix s tailStart b :
  exists rest, format_comment s tailStart b = (b +:+ Mode s) +:+ rest.
Proof.
  unfold format_comment, AppendString, AppendByte.
  repeat case_match;
    first [exists ""; rewrite sapp_nil_r; reflexivity
          | eexists; rewrite ?sapp_assoc; reflexivity].
Qed.

(** ** Properties *)

(** Every formatted line has exactly the configured length,
    whatever the spot's fields contain (over-long calls, modes, reports or
    comments, missing or derived grids, any confidence label), for every line
    length the layout accepts. *)
Theorem format_line_length n layout s :
  newDXClusterLayout n = Some layout ->
  len (format_line layout s) = lineLength layout.
Proof.
  intros Hl. apply newDXClusterLayout_tail in Hl as [-> Ht].
  rewrite format_line_split, len_sapp, len_format_tail, len_fit_tail by lia. done.
Qed.

Lemma format_line_length_witness :
  len (format_line (mkLayout 76 61 62 64 69 71)
         (set_Comment "a comment that is far too long to fit into the line at all, so it is cut"
            (sample_spot "K1ABC/QRP" "W3LPL-1-#" (140250 # 10) 0))) = 76.
Proof. apply (format_line_length 76). by vm_compute. Defined.

(** The columns of the line: with a frequency label of at most
    17 bytes and a mode that fits, the line is "DX de <spotter>:" padded so
    that the frequency ends at column 25, two blanks, the DX call padded to 12
    columns, the mode at column 40, filler up to the tail, and a 15-column tail
    of glyph placeholder, 4-column grid, 1-column confidence and "HHMMZ". *)
Theorem format_line_columns n layout s :
  newDXClusterLayout n = Some layout ->
  len (FormatFloat1 (Frequency s)) <= 17 ->
  39 + len (Mode s) <= tailStartIdx layout ->
  exists de sp dx pad filler,
    format_line layout s =
      (("DX de " +:+ de +:+ ":" +:+ spaces sp +:+ FormatFloat1 (Frequency s)) +:+ "  " +:+
       (dx +:+ spaces pad) +:+ Mode s +:+ filler) +:+ format_tail s /\
    len ("DX de " +:+ de +:+ ":" +:+ spaces sp +:+ FormatFloat1 (Frequency s)) = 25 /\
    len (dx +:+ spaces pad) = 12 /\
    39 + len (Mode s) + len filler = tailStartIdx layout /\
    len (format_tail s) = 15.
Proof.
  intros Hl Hf Hm. pose proof (newDXClusterLayout_tail _ _ Hl) as [_ Ht].
  rewrite format_line_split.
  destruct (format_left_spec s (FormatFloat1 (Frequency s))) as (de & sp & -> & H25); [lia|].
  match goal with |- context [format_dx s ?b] => destruct (format_dx_spec s b) as (dx & pad & -> & H12) end.
  { rewrite !len_sapp in *. change (len "  ") with 2. lia. }
  match goal with |- context [format_comment s ?t ?b] =>
    destruct (format_comment_prefix s t b) as (rest & ->) end.
  match goal with |- context [fit_tail ?t (?a +:+ rest)] =>
    assert (len a = 39 + len (Mode s)) as Ha;
    [|destruct (fit_tail_prefix t a rest) as (filler & Hfit); [lia|];
      pose proof (len_fit_tail t (a +:+ rest) ltac:(lia)) as Hlen] end.
  { rewrite !len_sapp in *. change (len "  ") with 2. lia. }
  exists de, sp, dx, pad, filler. rewrite Hfit in Hlen. rewrite len_sapp in Hlen.
  rewrite Hfit, !sapp_assoc in *. split_and!; [done|done|done|lia|apply len_format_tail].
Qed.

Lemma format_line_columns_witness :
  exists de sp dx pad filler,
    format_line (mkLayout 76 61 62 64 69 71) (sample_spot "K1ABC" "W3LPL" (140250 # 10) 0) =
      (("DX de " +:+ de +:+ ":" +:+ spaces sp +:+ "14025.0") +:+ "  " +:+
       (dx +:+ spaces pad) +:+ "CW" +:+ filler) +:+ "          0000Z".
Proof.
  destruct (format_line_columns 76 (mkLayout 76 61 62 64 69 71)
              (sample_spot "K1ABC" "W3LPL" (140250 # 10) 0))
    as (de & sp & dx & pad & filler & -> & _).
  - by vm_compute.
  - compute_goal.
  - compute_goal.
  - exists de, sp, dx, pad, filler. vm_compute. reflexivity.
Defined.
