(* ===== verification/DedupSpec.v ===== *)
(** * DedupSpec: what a windowed deduplicator promises

    The interface between the dedup components and their clients.  The abstract
    state is one flat map from keys to the entry last accepted; [spec_offer] is
    the whole contract of a decision.  [WindowDedup] is the class of the
    implementations: a state with an abstraction function and an [offer]
    operation that refines [spec_offer].  Theorems about streams of spots are
    proved once, against the interface. *)

From S2P Require Import Prelude GoText GoNum Callsign Bands Spot.

Local Open Scope Z_scope.

(** ** The contract *)

(** What is remembered of an accepted spot; [dedup/secondary.go] declares the
    same structure as [secondaryEntry]. *)
Record cachedEntry := mkCachedEntry { when : Z; snr : Z; hasReport : bool }.

#[global] Instance cachedEntry_eq_dec : EqDecision cachedEntry.
Proof. solve_decision. Defined.

Definition entry_of (s : Spot) : cachedEntry := mkCachedEntry (Time s) (Report s) (HasReport s).

(** A spot may follow the entry last accepted under its key: out of the window,
    the first with a report, or (if so configured) stronger. *)
Definition may_follow (w : Z) (stronger : bool) (prev : cachedEntry) (s : Spot) : bool :=
  negb (abs_duration (time_sub (Time s) (when prev)) <? w)
  || (HasReport s && negb (hasReport prev))
  || (stronger && (snr prev <? Report s)).

Definition spec_fwd (w : Z) (stronger : bool) (prev : option cachedEntry) (s : Spot) : bool :=
  match prev with
  | None => true
  | Some e => may_follow w stronger e s
  end.

(** A decision on the flat map: forwarded spots become the entry of their key,
    suppressed ones leave no trace. *)
Definition spec_offer (w : Z) (stronger : bool) (m : gmap Z cachedEntry) (h : Z) (s : Spot)
    : bool * gmap Z cachedEntry :=
  if spec_fwd w stronger (m !! h) s then (true, <[h := entry_of s]> m) else (false, m).

Fixpoint spec_run (w : Z) (stronger : bool) (m : gmap Z cachedEntry) (l : list (Z * Spot))
    : list bool :=
  match l with
  | [] => []
  | (h, s) :: rest =>
      let '(fwd, m') := spec_offer w stronger m h s in
      fwd :: spec_run w stronger m' rest
  end.

(** ** The interface *)

Definition valid_hash (h : Z) : Prop := 0 <= h < 2 ^ 32.

Class WindowDedup (D : Type) := {
  wd_window : D -> Z;
  wd_stronger : D -> bool;
  wd_wf : D -> Prop;
  wd_seen : D -> Z -> option cachedEntry;
  wd_offer : D -> Z -> Spot -> bool * D
}.

Class WindowDedupLaws (D : Type) `{WindowDedup D} := {
  wd_offer_wf d h s : wd_wf d -> valid_hash h -> wd_wf (snd (wd_offer d h s));
  wd_offer_cfg d h s : wd_wf d -> valid_hash h ->
    wd_window (snd (wd_offer d h s)) = wd_window d /\
    wd_stronger (snd (wd_offer d h s)) = wd_stronger d;
  wd_offer_fwd d h s : wd_wf d -> valid_hash h ->
    fst (wd_offer d h s) = spec_fwd (wd_window d) (wd_stronger d) (wd_seen d h) s;
  wd_offer_seen d h s h' : wd_wf d -> valid_hash h -> valid_hash h' ->
    wd_seen (snd (wd_offer d h s)) h' =
      (if fst (wd_offer d h s) then if decide (h' = h) then Some (entry_of s) else wd_seen d h'
       else wd_seen d h')
}.

Section Clients.
Context {D : Type} `{WindowDedupLaws D}.

Fixpoint wd_run (d : D) (l : list (Z * Spot)) : list bool * D :=
  match l with
  | [] => ([], d)
  | (h, s) :: rest =>
      let '(fwd, d') := wd_offer d h s in
      let '(vs, d'') := wd_run d' rest in
      (fwd :: vs, d'')
  end.

(** The abstraction relation: both states show the same entry per key. *)
Definition wd_abs (d : D) (m : gmap Z cachedEntry) : Prop :=
  wd_wf d /\ forall h, valid_hash h -> wd_seen d h = m !! h.

(** One decision is simulated by the contract. *)
Lemma wd_offer_sim d m h s :
  wd_abs d m -> valid_hash h ->
  fst (wd_offer d h s) = fst (spec_offer (wd_window d) (wd_stronger d) m h s) /\
  wd_abs (snd (wd_offer d h s)) (snd (spec_offer (wd_window d) (wd_stronger d) m h s)).
Proof.
  intros [Hwf Hseen] Hh.
  pose proof (wd_offer_fwd d h s Hwf Hh) as Hf. rewrite (Hseen h Hh) in Hf.
  unfold spec_offer. rewrite <- Hf. destruct (fst (wd_offer d h s)) eqn:E.
  - split; [done|]. split; [by apply wd_offer_wf|]. intros h' Hh'.
    rewrite wd_offer_seen, E by done. cbn [snd]. case_decide as Hd.
    + subst. by rewrite lookup_insert_eq.
    + rewrite lookup_insert_ne by done. by apply Hseen.
  - split; [done|]. split; [by apply wd_offer_wf|]. intros h' Hh'.
    rewrite wd_offer_seen, E by done. by apply Hseen.
Qed.

(** A whole stream gets the contract's verdicts. *)
Lemma wd_run_sim d m l :
  wd_abs d m -> Forall (fun p => valid_hash (fst p)) l ->
  fst (wd_run d l) = spec_run (wd_window d) (wd_stronger d) m l.
Proof.
  intros Habs Hl. revert d m Habs. induction Hl as [|[h s] l Hh Hl IH]; intros d m Habs; [done|].
  cbn [wd_run spec_run]. simpl in Hh.
  destruct (wd_offer_sim d m h s Habs Hh) as [Hf Ha].
  destruct (wd_offer_cfg d h s (proj1 Habs) Hh) as [Hw Hs].
  destruct (wd_offer d h s) as [fwd d']. destruct (spec_offer _ _ m h s) as [fwd' m'].
  simpl in *. subst. specialize (IH d' m' Ha). rewrite Hw, Hs in IH.
  destruct (wd_run d' l) as [vs d'']. simpl in *. by rewrite IH.
Qed.
End Clients.

(** ** What the contract gives a client *)

(** The spots of key [h] that were forwarded. *)
Fixpoint forwarded_of (h : Z) (l : list (Z * Spot)) (vs : list bool) : list Spot :=
  match l, vs with
  | (h', s) :: l', v :: vs' =>
      if v && bool_decide (h' = h) then s :: forwarded_of h l' vs' else forwarded_of h l' vs'
  | _, _ => []
  end.

(** Each element may follow the one before it. *)
Fixpoint spaced (w : Z) (stronger : bool) (prev : option cachedEntry) (l : list Spot) : Prop :=
  match l with
  | [] => True
  | s :: rest => spec_fwd w stronger prev s = true /\ spaced w stronger (Some (entry_of s)) rest
  end.

Lemma spec_run_spaced w stronger h l m :
  spaced w stronger (m !! h) (forwarded_of h l (spec_run w stronger m l)).
Proof.
  revert m. induction l as [|[h' s] l IH]; intros m; [done|].
  cbn [spec_run]. unfold spec_offer. destruct (spec_fwd w stronger (m !! h') s) eqn:E.
  - cbn [forwarded_of andb]. case_bool_decide as Hh.
    + subst. split; [done|]. specialize (IH (<[h := entry_of s]> m)).
      by rewrite lookup_insert_eq in IH.
    + specialize (IH (<[h' := entry_of s]> m)). by rewrite lookup_insert_ne in IH by done.
  - apply IH.
Qed.

(** Streams do not interfere across keys: what happens under [h] depends only
    on the spots of [h]. *)
Lemma spec_run_local w stronger h l m :
  forwarded_of h l (spec_run w stronger m l) =
  forwarded_of h (filter (fun p => fst p = h) l)
    (spec_run w stronger m (filter (fun p => fst p = h) l)).
Proof.
  assert (forall m1 m2 : gmap Z cachedEntry, m1 !! h = m2 !! h ->
    forwarded_of h l (spec_run w stronger m1 l) =
    forwarded_of h (filter (fun p => fst p = h) l)
      (spec_run w stronger m2 (filter (fun p => fst p = h) l))) as Hgen; [|by apply Hgen].
  clear m. induction l as [|[h' s] l IH]; intros m1 m2 Hm; [done|].
  rewrite filter_cons. case_decide as Hd; simpl in Hd.
  - subst. cbn [spec_run]. unfold spec_offer. rewrite Hm.
    destruct (spec_fwd w stronger (m2 !! h) s); cbn [forwarded_of andb].
    + rewrite bool_decide_eq_true_2 by done. f_equal. apply IH. by rewrite !lookup_insert_eq.
    + by apply IH.
  - cbn [spec_run]. unfold spec_offer.
    destruct (spec_fwd w stronger (m1 !! h') s); cbn [forwarded_of andb].
    + rewrite bool_decide_eq_false_2 by done. apply IH. by rewrite lookup_insert_ne.
    + by apply IH.
Qed.
