(* ===== verification/Dedup.v ===== *)
(** * Dedup: the sharded primary deduplicator

    Models [dedup/deduplicator.go].  The cache is 64 shards, each a map from
    32-bit hashes to the entry last accepted under that hash.  The two
    goroutines are steps of one transition system: the processing loop
    ([processSpot], atomic under the shard lock) and the cleanup loop, whose
    two lock acquisitions per shard are two separate steps ([cleanup_collect],
    [cleanup_delete]) so that processing can run in between, as it can in the
    source.  [cleanup] is the uninterrupted pass.

    Counters are unbounded (the source's are uint64 and count spots). *)

From S2P Require Import Prelude GoText GoNum Callsign Bands Spot DedupSpec.

Local Open Scope Z_scope.

(** ** Data *)

Record cacheShard := mkCacheShard {
  cache : gmap Z cachedEntry;
  processedCount : Z;
  duplicateCount : Z;
  peak : Z
}.

(** Channels: the output channel is its buffered contents with a capacity; the
    input channel is the argument of [process]. *)
Record Deduplicator := mkDeduplicator {
  window : Z;
  preferStronger : bool;
  shards : list cacheShard;
  outputChan : list Spot;
  outputCap : Z
}.

Definition shardCount : nat := 64.
Definition dedupCompactMinPeak : Z := 1024.

Definition empty_shard : cacheShard := mkCacheShard ∅ 0 0 0.

Definition NewDeduplicator (w : Z) (stronger : bool) (outputBuffer : Z) : Deduplicator :=
  let outputBuffer := if outputBuffer <=? 0 then 1000 else outputBuffer in
  mkDeduplicator w stronger (replicate shardCount empty_shard) [] outputBuffer.

(** ** One shard *)

(** [hash & (shardCount - 1)]. *)
Definition shardFor (hash : Z) : nat := Z.to_nat (Z.land hash (Z.of_nat shardCount - 1)).

(** [isDuplicateLocked]: within the window of the entry last accepted? *)
Definition isDuplicateLocked (m : gmap Z cachedEntry) (hash spotTime w : Z)
    : bool * cachedEntry :=
  match m !! hash with
  | None => (false, mkCachedEntry 0 0 false)
  | Some lastSeen =>
      let age := abs_duration (time_sub spotTime (when lastSeen)) in
      (age <? w, lastSeen)
  end.

Definition updateShardPeakLocked (sh : cacheShard) : cacheShard :=
  let sz := Z.of_nat (size (cache sh)) in
  if peak sh <? sz then mkCacheShard (cache sh) (processedCount sh) (duplicateCount sh) sz else sh.

(** [int(float64(peak) * 0.5)] is [peak / 2] for every peak below 2^53; the
    copy into a fresh map keeps the contents. *)
Definition maybeCompactShardLocked (sh : cacheShard) : cacheShard :=
  if peak sh <? dedupCompactMinPeak then sh
  else if peak sh / 2 <=? Z.of_nat (size (cache sh)) then sh
  else mkCacheShard (cache sh) (processedCount sh) (duplicateCount sh)
         (Z.of_nat (size (cache sh))).

(** The section of [processSpot] under the shard lock; the boolean says whether
    the spot is forwarded. *)
Definition process_locked (w : Z) (stronger : bool) (hash : Z) (s : Spot) (sh : cacheShard)
    : bool * cacheShard :=
  let sh := mkCacheShard (cache sh) (processedCount sh + 1) (duplicateCount sh) (peak sh) in
  let store := updateShardPeakLocked
    (mkCacheShard (<[hash := mkCachedEntry (Time s) (Report s) (HasReport s)]> (cache sh))
       (processedCount sh) (duplicateCount sh) (peak sh)) in
  let '(dup, lastSeen) := isDuplicateLocked (cache sh) hash (Time s) w in
  if dup : bool then
    let upgradeToReported := HasReport s && negb (hasReport lastSeen) in
    let isStronger := stronger && (snr lastSeen <? Report s) in
    if upgradeToReported || isStronger then (true, store)
    else (false, mkCacheShard (cache sh) (processedCount sh) (duplicateCount sh + 1) (peak sh))
  else (true, store).

Definition set_shard (d : Deduplicator) (i : nat) (sh : cacheShard) : Deduplicator :=
  mkDeduplicator (window d) (preferStronger d) (<[i := sh]> (shards d)) (outputChan d) (outputCap d).

(** The non-blocking send: a full channel drops the spot. *)
Definition send_output (d : Deduplicator) (s : Spot) : Deduplicator :=
  if Z.of_nat (length (outputChan d)) <? outputCap d
  then mkDeduplicator (window d) (preferStronger d) (shards d) (outputChan d ++ [s]) (outputCap d)
  else d.

(** ** The deduplicator *)

(** What [processSpot] did with the spot. *)
Inductive verdict := Forwarded | DroppedFull | Suppressed | NoShard.

Section Dedup.
(** [Spot.Hash32] of the source, see [Spot]. *)
Context (xxh3 : list Z -> Z).

(** [NoShard] stands for the recovered panic of an index out of range, which
    [shardFor_lt] rules out. *)
Definition processSpot (d : Deduplicator) (s : Spot) : verdict * Deduplicator :=
  let '(hash, s) := Hash32 xxh3 s in
  match shards d !! shardFor hash with
  | None => (NoShard, d)
  | Some sh =>
      let '(fwd, sh') := process_locked (window d) (preferStronger d) hash s sh in
      let d' := set_shard d (shardFor hash) sh' in
      if fwd : bool
      then if Z.of_nat (length (outputChan d')) <? outputCap d'
           then (Forwarded, send_output d' s)
           else (DroppedFull, d')
      else (Suppressed, d')
  end.

(** [process]: the loop over the received input; [None] is a nil spot. *)
Fixpoint process (d : Deduplicator) (input : list (option Spot)) : Deduplicator :=
  match input with
  | [] => d
  | None :: rest => process d rest
  | Some s :: rest => process (snd (processSpot d s)) rest
  end.
End Dedup.

(** *** Cleanup *)

Definition expired (now w : Z) (e : cachedEntry) : bool := w <? time_sub now (when e).

(** Phase 1: the expired keys of shard [i]. *)
Definition cleanup_collect (d : Deduplicator) (now : Z) (i : nat) : list Z :=
  match shards d !! i with
  | None => []
  | Some sh => (filter (fun p => expired now (window d) (snd p) = true)
                  (map_to_list (cache sh))).*1
  end.

Fixpoint delete_keys (ks : list Z) (m : gmap Z cachedEntry) : gmap Z cachedEntry :=
  match ks with
  | [] => m
  | k :: ks' => delete_keys ks' (delete k m)
  end.

(** Phase 2: delete the collected keys of shard [i] and maybe compact. *)
Definition cleanup_delete (d : Deduplicator) (i : nat) (toDelete : list Z) : Deduplicator :=
  match toDelete, shards d !! i with
  | [], _ => d
  | _, None => d
  | _, Some sh =>
      set_shard d i (maybeCompactShardLocked
        (mkCacheShard (delete_keys toDelete (cache sh)) (processedCount sh)
           (duplicateCount sh) (peak sh)))
  end.

Definition cleanup_shard (now : Z) (d : Deduplicator) (i : nat) : Deduplicator :=
  cleanup_delete d i (cleanup_collect d now i).

Definition cleanup (d : Deduplicator) (now : Z) : Deduplicator :=
  fold_left (cleanup_shard now) (seq 0 (length (shards d))) d.

Definition GetStats (d : Deduplicator) : Z * Z * Z :=
  fold_left (fun acc sh =>
    let '(p, q, c) := acc in
    (p + processedCount sh, q + duplicateCount sh, c + Z.of_nat (size (cache sh))))
    (shards d) (0, 0, 0).

(** ** The transition system *)

(** The deduplicator together with the cleanup goroutine's local variables:
    the shard and the keys between its two lock acquisitions. *)
Record dstate := mkDstate { ds_dedup : Deduplicator; ds_pending : option (nat * list Z) }.

Inductive dstep (xxh3 : list Z -> Z) : dstate -> dstate -> Prop :=
| dstep_spot d p s :
    dstep xxh3 (mkDstate d p) (mkDstate (snd (processSpot xxh3 d s)) p)
| dstep_collect d i now :
    dstep xxh3 (mkDstate d None) (mkDstate d (Some (i, cleanup_collect d now i)))
| dstep_delete d i ks :
    dstep xxh3 (mkDstate d (Some (i, ks))) (mkDstate (cleanup_delete d i ks) None)
| dstep_receive d p s rest :
    outputChan d = s :: rest ->
    dstep xxh3 (mkDstate d p)
      (mkDstate (mkDeduplicator (window d) (preferStronger d) (shards d) rest (outputCap d)) p).

(** ** Facts about one shard *)

Lemma shardFor_lt h : (shardFor h < shardCount)%nat.
Proof.
  unfold shardFor. change (Z.of_nat shardCount - 1) with (Z.ones 6).
  rewrite Z.land_ones by lia. pose proof (Z.mod_pos_bound h (2 ^ 6) ltac:(lia)).
  change shardCount with 64%nat. change (2 ^ 6) with 64 in *. lia.
Qed.

(** The locked section is the contract's decision on the shard's own map. *)
Lemma process_locked_spec w st h s sh :
  fst (process_locked w st h s sh) = spec_fwd w st (cache sh !! h) s /\
  cache (snd (process_locked w st h s sh)) =
    (if fst (process_locked w st h s sh) then <[h := entry_of s]> (cache sh) else cache sh).
Proof.
  unfold process_locked, isDuplicateLocked, spec_fwd, may_follow, updateShardPeakLocked.
  cbn [cache processedCount duplicateCount peak].
  destruct (cache sh !! h) as [e|].
  - destruct (abs_duration (time_sub (Time s) (when e)) <? w); cbn [negb orb].
    + destruct (HasReport s && negb (hasReport e) || st && (snr e <? Report s));
        split; cbn [fst snd]; try done; by repeat case_match.
    + split; cbn [fst snd]; try done; by repeat case_match.
  - split; cbn [fst snd]; try done; by repeat case_match.
Qed.

(** Counters: every spot is processed; it either stores or is a duplicate. *)
Record shard_ok (i : nat) (sh : cacheShard) : Prop := {
  sh_keys : forall k, k ∈ dom (cache sh) -> valid_hash k /\ shardFor k = i;
  sh_count : Z.of_nat (size (cache sh)) + duplicateCount sh <= processedCount sh;
  sh_dup : 0 <= duplicateCount sh;
  sh_peak : Z.of_nat (size (cache sh)) <= peak sh
}.

Lemma empty_shard_ok i : shard_ok i empty_shard.
Proof.
  by split; simpl.
Qed.

Lemma size_insert_le (m : gmap Z cachedEntry) h e : (size (<[h := e]> m) <= S (size m))%nat.
Proof.
  destruct (m !! h) eqn:E.
  - rewrite map_size_insert_Some by eauto. lia.
  - by rewrite map_size_insert_None.
Qed.

Lemma store_ok i h e p q sh :
  shard_ok i sh -> valid_hash h -> shardFor h = i -> p = processedCount sh + 1 ->
  q = duplicateCount sh ->
  shard_ok i (updateShardPeakLocked (mkCacheShard (<[h := e]> (cache sh)) p q (peak sh))).
Proof.
  intros [Hk Hc Hd Hp] Hh Hi -> ->. pose proof (size_insert_le (cache sh) h e).
  unfold updateShardPeakLocked. cbn [cache processedCount duplicateCount peak].
  destruct (Z.ltb_spec (peak sh) (Z.of_nat (size (<[h := e]> (cache sh)))));
    split; cbn [cache processedCount duplicateCount peak]; try lia;
    intros k; rewrite dom_insert_L, elem_of_union, elem_of_singleton;
    (intros [->|Hin]; [done|by apply Hk]).
Qed.

Lemma process_locked_ok i w st h s sh :
  shard_ok i sh -> valid_hash h -> shardFor h = i ->
  shard_ok i (snd (process_locked w st h s sh)).
Proof.
  intros Hok Hh Hi. unfold process_locked, isDuplicateLocked.
  cbn [cache processedCount duplicateCount peak].
  destruct (cache sh !! h) as [e|]; [|by apply store_ok].
  destruct (_ <? w); [|by apply store_ok].
  destruct (_ || _); [by apply store_ok|].
  destruct Hok. split; simpl; try lia. done.
Qed.

Lemma delete_keys_lookup ks m k :
  delete_keys ks m !! k = if decide (k ∈ ks) then None else m !! k.
Proof.
  revert m. induction ks as [|k' ks IH]; intros m; cbn [delete_keys].
  - by rewrite decide_False by apply not_elem_of_nil.
  - rewrite IH. destruct (decide (k ∈ ks)) as [Hin|Hin].
    + by rewrite decide_True by set_solver.
    + destruct (decide (k = k')) as [->|].
      * rewrite lookup_delete_eq. by rewrite decide_True by set_solver.
      * rewrite lookup_delete_ne by done. by rewrite decide_False by set_solver.
Qed.

Lemma delete_keys_subseteq ks m : delete_keys ks m ⊆ m.
Proof.
  apply map_subseteq_spec. intros k e. rewrite delete_keys_lookup. by case_decide.
Qed.

Lemma maybeCompact_cache sh : cache (maybeCompactShardLocked sh) = cache sh.
Proof. unfold maybeCompactShardLocked. by repeat case_match. Qed.

Lemma maybeCompact_ok i sh : shard_ok i sh -> shard_ok i (maybeCompactShardLocked sh).
Proof.
  intros [Hk Hc Hd Hp]. unfold maybeCompactShardLocked.
  destruct (_ <? _); [by split|]. destruct (_ <=? _); split; simpl; try lia; done.
Qed.

Lemma shrink_ok i sh (m : gmap Z cachedEntry) :
  shard_ok i sh -> m ⊆ cache sh ->
  shard_ok i (mkCacheShard m (processedCount sh) (duplicateCount sh) (peak sh)).
Proof.
  intros [Hk Hc Hd Hp] Hsub. pose proof (map_subseteq_size _ _ Hsub).
  split; cbn [cache processedCount duplicateCount peak]; try lia.
  intros k Hin. apply Hk. by eapply subseteq_dom.
Qed.

(** ** The whole deduplicator *)

Definition seen (d : Deduplicator) (h : Z) : option cachedEntry :=
  shards d !! shardFor h ≫= fun sh => cache sh !! h.

Record dedup_ok (d : Deduplicator) : Prop := {
  do_len : length (shards d) = shardCount;
  do_shards : forall i sh, shards d !! i = Some sh -> shard_ok i sh;
  do_out : Z.of_nat (length (outputChan d)) <= Z.max 0 (outputCap d)
}.

Lemma NewDeduplicator_ok w st n : dedup_ok (NewDeduplicator w st n).
Proof.
  split; simpl.
  - done.
  - intros i sh Hi. change (replicate shardCount empty_shard !! i = Some sh) in Hi.
    apply lookup_replicate in Hi as [-> _]. apply empty_shard_ok.
  - lia.
Qed.

Lemma shard_lookup d h :
  dedup_ok d -> exists sh, shards d !! shardFor h = Some sh /\ shard_ok (shardFor h) sh.
Proof.
  intros Hok. destruct (lookup_lt_is_Some_2 (shards d) (shardFor h)) as [sh Hsh].
  - rewrite (do_len d Hok). apply shardFor_lt.
  - exists sh. split; [done|]. by apply (do_shards d Hok).
Qed.

Lemma set_shard_ok d i sh : dedup_ok d -> shard_ok i sh -> dedup_ok (set_shard d i sh).
Proof.
  intros Hok Hsh. split; cbn [set_shard shards outputChan outputCap].
  - rewrite length_insert. apply Hok.
  - intros j sh' Hj. destruct (decide (i = j)) as [->|].
    + destruct (decide (j < length (shards d))%nat).
      * rewrite list_lookup_insert_eq in Hj by done. by simplify_eq.
      * rewrite list_insert_ge in Hj by lia. by apply (do_shards d Hok).
    + rewrite list_lookup_insert_ne in Hj by done. by apply (do_shards d Hok).
  - apply Hok.
Qed.

Lemma seen_set_shard d i sh h :
  (i < length (shards d))%nat ->
  seen (set_shard d i sh) h = if decide (shardFor h = i) then cache sh !! h else seen d h.
Proof.
  intros Hi. unfold seen. cbn [set_shard shards]. case_decide as Hd.
  - subst. by rewrite list_lookup_insert_eq.
  - by rewrite list_lookup_insert_ne.
Qed.

Lemma send_output_ok d s : dedup_ok d -> dedup_ok (send_output d s).
Proof.
  intros Hok. unfold send_output. destruct (Z.ltb_spec (Z.of_nat (length (outputChan d))) (outputCap d));
    [|done]. destruct Hok. split; cbn [shards outputChan outputCap]; try done.
  rewrite length_app. simpl. lia.
Qed.

Lemma seen_send_output d s h : seen (send_output d s) h = seen d h.
Proof. unfold send_output. by destruct (_ <? _). Qed.

(** ** The deduplicator as an instance of the interface *)

(** The cache half of [processSpot]: decision and new shard for a given key. *)
Definition dedup_offer (d : Deduplicator) (h : Z) (s : Spot) : bool * Deduplicator :=
  match shards d !! shardFor h with
  | None => (false, d)
  | Some sh =>
      let '(fwd, sh') := process_locked (window d) (preferStronger d) h s sh in
      (fwd, set_shard d (shardFor h) sh')
  end.

#[global] Instance Deduplicator_window : WindowDedup Deduplicator := {
  wd_window := window;
  wd_stronger := preferStronger;
  wd_wf := dedup_ok;
  wd_seen := seen;
  wd_offer := dedup_offer
}.

#[global] Instance Deduplicator_laws : WindowDedupLaws Deduplicator.
Proof.
  split; simpl; unfold dedup_offer; intros d h s.
  - intros Hok Hh. destruct (shard_lookup d h Hok) as (sh & -> & Hsh).
    pose proof (process_locked_ok _ (window d) (preferStronger d) h s sh Hsh Hh eq_refl) as Hok'.
    destruct (process_locked _ _ h s sh). by apply set_shard_ok.
  - intros Hok Hh. destruct (shard_lookup d h Hok) as (sh & -> & Hsh).
    by destruct (process_locked _ _ h s sh).
  - intros Hok Hh. destruct (shard_lookup d h Hok) as (sh & E & Hsh). unfold seen. rewrite E.
    pose proof (process_locked_spec (window d) (preferStronger d) h s sh) as [Hf _].
    by destruct (process_locked _ _ h s sh).
  - intros h' Hok Hh Hh'. destruct (shard_lookup d h Hok) as (sh & E & Hsh). rewrite E.
    pose proof (process_locked_spec (window d) (preferStronger d) h s sh) as [Hf Hc].
    destruct (process_locked _ _ h s sh) as [fwd sh']. simpl in *.
    rewrite seen_set_shard by (rewrite (do_len d Hok); apply shardFor_lt).
    rewrite Hc. case_decide as Hs.
    + assert (seen d h' = cache sh !! h') as -> by (unfold seen; by rewrite Hs, E).
      destruct fwd; [|done]. rewrite lookup_insert. repeat case_decide; naive_solver.
    + destruct fwd; [|done]. rewrite decide_False by (by intros ->). done.
Qed.

Lemma processSpot_offer xxh3 d s :
  dedup_ok d ->
  let '(h, s') := Hash32 xxh3 s in
  let '(fwd, d') := dedup_offer d h s' in
  processSpot xxh3 d s =
    if fwd : bool
    then if Z.of_nat (length (outputChan d)) <? outputCap d
         then (Forwarded, send_output d' s') else (DroppedFull, d')
    else (Suppressed, d').
Proof.
  intros Hok. unfold processSpot, dedup_offer. destruct (Hash32 xxh3 s) as [h s'].
  destruct (shard_lookup d h Hok) as (sh & -> & _).
  destruct (process_locked _ _ h s' sh) as [fwd sh']. by destruct fwd.
Qed.

Lemma Hash32_valid xxh3 s : valid_hash (fst (Hash32 xxh3 s)).
Proof. unfold Hash32, uint32. cbn [fst]. split; apply Z.mod_pos_bound; lia. Qed.

Lemma processSpot_ok xxh3 d s : dedup_ok d -> dedup_ok (snd (processSpot xxh3 d s)).
Proof.
  intros Hok. pose proof (processSpot_offer xxh3 d s Hok) as Hp.
  pose proof (Hash32_valid xxh3 s) as Hh. destruct (Hash32 xxh3 s) as [h s'].
  pose proof (wd_offer_wf d h s' Hok Hh) as Hwf. simpl in Hwf.
  destruct (dedup_offer d h s') as [fwd d']. rewrite Hp. simpl in *.
  destruct fwd; [destruct (_ <? _)|]; simpl; auto using send_output_ok.
Qed.

(** ** Cleanup facts *)

Lemma cleanup_collect_spec d now i k :
  k ∈ cleanup_collect d now i <->
  exists sh e, shards d !! i = Some sh /\ cache sh !! k = Some e /\ expired now (window d) e = true.
Proof.
  unfold cleanup_collect. destruct (shards d !! i) as [sh|].
  - rewrite list_elem_of_fmap. split.
    + intros ([k' e] & -> & Hin). apply list_elem_of_filter in Hin as [He Hin].
      apply elem_of_map_to_list in Hin. eauto.
    + intros (sh' & e & [= <-] & Hk & He). exists (k, e). split; [done|].
      apply list_elem_of_filter. split; [done|]. by apply elem_of_map_to_list.
  - split; [by intros ?%not_elem_of_nil|]. by intros (? & ? & ? & _).
Qed.

Lemma cleanup_delete_seen d i ks h :
  seen (cleanup_delete d i ks) h = if decide (shardFor h = i /\ h ∈ ks) then None else seen d h.
Proof.
  unfold cleanup_delete. destruct ks as [|k ks].
  { rewrite decide_False; [done|]. intros [_ H]. by apply not_elem_of_nil in H. }
  destruct (shards d !! i) as [sh|] eqn:E.
  - rewrite seen_set_shard by (by apply lookup_lt_is_Some; eauto).
    rewrite maybeCompact_cache. cbn [cache]. rewrite delete_keys_lookup.
    destruct (decide (shardFor h = i)) as [<-|]; [|by rewrite decide_False by tauto].
    unfold seen. rewrite E. simpl.
    destruct (decide (h ∈ k :: ks)); [by rewrite decide_True|by rewrite decide_False by tauto].
  - case_decide as Hd; [|done]. destruct Hd as [<- _]. unfold seen. by rewrite E.
Qed.

Lemma cleanup_delete_ok d i ks : dedup_ok d -> dedup_ok (cleanup_delete d i ks).
Proof.
  intros Hok. unfold cleanup_delete. destruct ks as [|k ks]; [done|].
  destruct (shards d !! i) as [sh|] eqn:E; [|done].
  apply set_shard_ok; [done|]. apply maybeCompact_ok, shrink_ok.
  - by apply (do_shards d Hok).
  - apply delete_keys_subseteq.
Qed.

Lemma cleanup_delete_window d i ks : window (cleanup_delete d i ks) = window d.
Proof. unfold cleanup_delete. by repeat case_match. Qed.

(** What one pass keeps of an entry. *)
Definition survive (now w : Z) (o : option cachedEntry) : option cachedEntry :=
  match o with
  | Some e => if expired now w e then None else Some e
  | None => None
  end.

Lemma cleanup_shard_seen d now i h :
  seen (cleanup_shard now d i) h =
  if decide (shardFor h = i) then survive now (window d) (seen d h) else seen d h.
Proof.
  unfold cleanup_shard. rewrite cleanup_delete_seen.
  destruct (decide (shardFor h = i)) as [<-|]; [|by rewrite decide_False by tauto].
  destruct (seen d h) as [e|] eqn:Es.
  - unfold seen in Es. destruct (shards d !! shardFor h) as [sh|] eqn:E; [|done]. simpl in Es.
    simpl. destruct (expired now (window d) e) eqn:He.
    + rewrite decide_True; [done|]. split; [done|]. apply cleanup_collect_spec. eauto.
    + rewrite decide_False; [done|]. intros [_ Hin]. apply cleanup_collect_spec in Hin.
      destruct Hin as (sh' & e' & ? & ? & ?). congruence.
  - by destruct (decide _).
Qed.

Lemma survive_idemp now w o : survive now w (survive now w o) = survive now w o.
Proof. destruct o as [e|]; simpl; [|done]. destruct (expired now w e) eqn:E; simpl; [done|by rewrite E]. Qed.

Lemma cleanup_fold_seen now idx d h :
  seen (fold_left (cleanup_shard now) idx d) h =
  if decide (shardFor h ∈ idx) then survive now (window d) (seen d h) else seen d h.
Proof.
  revert d. induction idx as [|i idx IH]; intros d; cbn [fold_left].
  - by rewrite decide_False by apply not_elem_of_nil.
  - rewrite IH, cleanup_shard_seen. unfold cleanup_shard at 1. rewrite cleanup_delete_window.
    destruct (decide (shardFor h = i)) as [Hi|Hi].
    + rewrite (decide_True (P := shardFor h ∈ i :: idx)) by set_solver.
      destruct (decide (shardFor h ∈ idx)); [apply survive_idemp|done].
    + destruct (decide (shardFor h ∈ idx)).
      * by rewrite decide_True by set_solver.
      * by rewrite decide_False by set_solver.
Qed.

(** A pass without interference removes exactly the expired entries. *)
Lemma cleanup_seen d now h :
  dedup_ok d -> seen (cleanup d now) h = survive now (window d) (seen d h).
Proof.
  intros Hok. unfold cleanup. rewrite cleanup_fold_seen, decide_True; [done|].
  apply elem_of_seq. rewrite (do_len d Hok). pose proof (shardFor_lt h). lia.
Qed.

Lemma cleanup_ok d now : dedup_ok d -> dedup_ok (cleanup d now).
Proof.
  unfold cleanup. generalize (seq 0 (length (shards d))). intros idx. revert d.
  induction idx as [|i idx IH]; intros d Hok; [done|]. apply IH. by apply cleanup_delete_ok.
Qed.

Lemma time_sub_mono t u v : t <= u -> time_sub t v <= time_sub u v.
Proof. unfold time_sub. lia. Qed.

(** An expired entry cannot suppress a spot that is not older than the pass. *)
Lemma expired_may_follow now w st e s :
  expired now w e = true -> now <= Time s -> may_follow w st e s = true.
Proof.
  unfold expired, may_follow. intros Hx Ht. boolify.
  pose proof (time_sub_mono _ _ (when e) Ht) as Hm.
  pose proof (time_sub_range (Time s) (when e)) as Hr.
  pose proof (time_sub_range now (when e)) as Hr'.
  destruct (Z.ltb_spec (abs_duration (time_sub (Time s) (when e))) w) as [Hlt|]; [|done].
  exfalso. revert Hlt. unfold abs_duration. destruct (Z.ltb_spec (time_sub (Time s) (when e)) 0) as [Hn|Hn]; [|lia].
  destruct (decide (time_sub (Time s) (when e) = min_int64)) as [Hmin|Hmin].
  - unfold in_int64 in *. rewrite Hmin in *. change (int64 (- min_int64)) with min_int64. lia.
  - rewrite int64_id; [lia|]. unfold in_int64, min_int64, max_int64 in *. lia.
Qed.

(** ** Runs *)

Definition accepted (v : verdict) : bool :=
  match v with Forwarded | DroppedFull => true | Suppressed | NoShard => false end.

Section Runs.
Context (xxh3 : list Z -> Z).

Fixpoint process_verdicts (d : Deduplicator) (input : list Spot) : list verdict :=
  match input with
  | [] => []
  | s :: rest => fst (processSpot xxh3 d s) :: process_verdicts (snd (processSpot xxh3 d s)) rest
  end.

Definition keyed (s : Spot) : Z * Spot := Hash32 xxh3 s.

Lemma processSpot_sim d m s :
  wd_abs d m ->
  accepted (fst (processSpot xxh3 d s)) =
    fst (spec_offer (window d) (preferStronger d) m (fst (keyed s)) (snd (keyed s))) /\
  fst (processSpot xxh3 d s) <> NoShard /\
  wd_abs (snd (processSpot xxh3 d s))
    (snd (spec_offer (window d) (preferStronger d) m (fst (keyed s)) (snd (keyed s)))) /\
  window (snd (processSpot xxh3 d s)) = window d /\
  preferStronger (snd (processSpot xxh3 d s)) = preferStronger d.
Proof.
  intros Habs. pose proof (proj1 Habs) as Hok.
  pose proof (processSpot_offer xxh3 d s Hok) as Hp. pose proof (Hash32_valid xxh3 s) as Hh.
  unfold keyed. destruct (Hash32 xxh3 s) as [h s']. simpl in Hh.
  destruct (wd_offer_sim d m h s' Habs Hh) as [Hf Ha].
  destruct (wd_offer_cfg d h s' Hok Hh) as [Hw Hs]. simpl in *.
  destruct (dedup_offer d h s') as [fwd d']. simpl in *. rewrite Hp.
  rewrite <- Hf. clear Hf Hp.
  destruct fwd; [destruct (_ <? _)|]; simpl; split_and!; try done.
  - destruct Ha as [Hok' Hseen]. split; [by apply send_output_ok|].
    intros h' Hh'. simpl in *. rewrite seen_send_output. by apply Hseen.
  - unfold send_output. by destruct (_ <? _).
  - unfold send_output. by destruct (_ <? _).
Qed.

Lemma process_verdicts_sim d m input :
  wd_abs d m ->
  map accepted (process_verdicts d input) =
    spec_run (window d) (preferStronger d) m (map keyed input) /\
  Forall (fun v => v <> NoShard) (process_verdicts d input).
Proof.
  revert d m. induction input as [|s input IH]; intros d m Habs; [done|].
  cbn [process_verdicts map spec_run].
  destruct (processSpot_sim d m s Habs) as (Hv & Hn & Ha & Hw & Hs).
  destruct (keyed s) as [h s'] eqn:Ek. simpl in Hv, Ha.
  destruct (spec_offer (window d) (preferStronger d) m h s') as [fwd m'] eqn:Eo.
  simpl in Hv, Ha. destruct (IH _ _ Ha) as [IH1 IH2]. rewrite Hw, Hs in IH1.
  split; [by rewrite Hv, IH1|by constructor].
Qed.

Lemma NewDeduplicator_abs w st n : wd_abs (NewDeduplicator w st n) ∅.
Proof.
  split; [apply NewDeduplicator_ok|]. intros h Hh. simpl. unfold seen.
  cbn [NewDeduplicator shards]. rewrite lookup_replicate_2 by apply shardFor_lt.
  simpl. by rewrite !lookup_empty.
Qed.
End Runs.

(** ** Properties *)

(** C1: The sharded, locked cache implements the windowed contract:
    for every window, SNR preference, hash function and sequence of spots, the
    accept/suppress verdicts of the deduplicator are those of the flat-map
    specification on the keyed sequence, and the shard index is always in
    range. *)
Theorem dedup_refines_spec xxh3 w st n input :
  map accepted (process_verdicts xxh3 (NewDeduplicator w st n) input) =
    spec_run w st ∅ (map (keyed xxh3) input) /\
  Forall (fun v => v <> NoShard) (process_verdicts xxh3 (NewDeduplicator w st n) input).
Proof. apply (process_verdicts_sim xxh3 (NewDeduplicator w st n) ∅ input), NewDeduplicator_abs. Qed.

(** Spacing per key: among the spots accepted under one key, each
    is outside the window of the one accepted before it, or is the first that
    carries a report, or (when stronger spots are preferred) has a higher SNR;
    and what happens under a key depends only on the spots of that key. *)
Theorem dedup_spacing xxh3 w st n input h :
  let fwd := forwarded_of h (map (keyed xxh3) input)
               (map accepted (process_verdicts xxh3 (NewDeduplicator w st n) input)) in
  spaced w st None fwd /\
  fwd = forwarded_of h (filter (fun p => fst p = h) (map (keyed xxh3) input))
          (spec_run w st ∅ (filter (fun p => fst p = h) (map (keyed xxh3) input))).
Proof.
  destruct (process_verdicts_sim xxh3 (NewDeduplicator w st n) ∅ input) as [-> _];
    [apply NewDeduplicator_abs|].
  cbn [NewDeduplicator window preferStronger]. split.
  - pose proof (spec_run_spaced w st h (map (keyed xxh3) input) ∅) as Hs.
    by rewrite lookup_empty in Hs.
  - apply spec_run_local.
Qed.

(** An uninterrupted cleanup pass is invisible to every spot that
    is not older than the pass: it gets the verdict it would have got without
    the pass, and entries still inside the window are kept. *)
Theorem cleanup_transparent xxh3 d now s :
  dedup_ok d -> now <= Time s ->
  accepted (fst (processSpot xxh3 (cleanup d now) s)) = accepted (fst (processSpot xxh3 d s)) /\
  (forall h e, seen d h = Some e -> expired now (window d) e = false ->
     seen (cleanup d now) h = Some e).
Proof.
  intros Hok Ht. split.
  - pose proof (cleanup_ok d now Hok) as Hok'.
    pose proof (processSpot_offer xxh3 d s Hok) as H1.
    pose proof (processSpot_offer xxh3 (cleanup d now) s Hok') as H2.
    pose proof (Hash32_valid xxh3 s) as Hh.
    assert (Time (snd (Hash32 xxh3 s)) = Time s) as Hts by apply Time_EnsureNormalized.
    destruct (Hash32 xxh3 s) as [h s']. simpl in Hh, Hts.
    pose proof (wd_offer_fwd d h s' Hok Hh) as F1.
    pose proof (wd_offer_fwd (cleanup d now) h s' Hok' Hh) as F2. simpl in F1, F2.
    assert (forall idx d, window (fold_left (cleanup_shard now) idx d) = window d /\
              preferStronger (fold_left (cleanup_shard now) idx d) = preferStronger d) as Hcfg.
    { intros idx. induction idx as [|i idx IH]; intros d0; [done|]. simpl.
      destruct (IH (cleanup_shard now d0 i)) as [-> ->].
      unfold cleanup_shard, cleanup_delete. by repeat case_match. }
    unfold cleanup in F2 at 2 3. destruct (Hcfg (seq 0 (length (shards d))) d) as [Ew Es].
    rewrite Ew, Es, cleanup_seen in F2 by done.
    assert (spec_fwd (window d) (preferStronger d) (survive now (window d) (seen d h)) s' =
            spec_fwd (window d) (preferStronger d) (seen d h) s') as E.
    { destruct (seen d h) as [e|]; [|done]. simpl.
      destruct (expired now (window d) e) eqn:He; [|done]. simpl.
      symmetry. apply (expired_may_follow now); [done|lia]. }
    rewrite E, <- F1 in F2.
    destruct (dedup_offer d h s') as [f1 d1]. destruct (dedup_offer (cleanup d now) h s') as [f2 d2].
    simpl in F2. subst f2. rewrite H1, H2. by destruct f1; repeat case_match.
  - intros h e Hs He. rewrite cleanup_seen, Hs by done. simpl. by rewrite He.
Qed.

Definition spot_at (sec : Z) : Spot := sample_spot "K1ABC" "W3LPL" (140250 # 10) (sec * second).

Lemma cleanup_transparent_witness :
  let d := snd (processSpot (fun _ => 7) (NewDeduplicator (30 * second) false 10) (spot_at 5)) in
  accepted (fst (processSpot (fun _ => 7) (cleanup d (50 * second)) (spot_at 51))) = true.
Proof.
  intros d. transitivity (accepted (fst (processSpot (fun _ => 7) d (spot_at 51)))).
  - apply (cleanup_transparent (fun _ => 7) d (50 * second) (spot_at 51)).
    + apply processSpot_ok, NewDeduplicator_ok.
    + compute_goal.
  - vm_compute. reflexivity.
Defined.

(** The two-phase cleanup is not atomic: if an entry expires, its key
    is collected, and a spot that refreshes the entry is processed before the
    deletion phase, then the fresh entry is deleted, and the next duplicate of
    that spot is accepted although it lies inside the window and would have
    been suppressed without the deletion. *)
Theorem cleanup_race xxh3 d now e s s' :
  dedup_ok d ->
  let h := fst (Hash32 xxh3 s) in
  fst (Hash32 xxh3 s') = h ->
  seen d h = Some e -> expired now (window d) e = true ->
  may_follow (window d) (preferStronger d) e (EnsureNormalized s) = true ->
  may_follow (window d) (preferStronger d) (entry_of (EnsureNormalized s)) (EnsureNormalized s') = false ->
  exists d2 d3,
    rtc (dstep xxh3) (mkDstate d None) (mkDstate d3 None) /\
    d2 = snd (processSpot xxh3 d s) /\
    d3 = cleanup_delete d2 (shardFor h) (cleanup_collect d now (shardFor h)) /\
    accepted (fst (processSpot xxh3 d2 s')) = false /\
    accepted (fst (processSpot xxh3 d3 s')) = true.
Proof.
  intros Hok h Hh' Hs Hx Hf Hdup.
  set (ks := cleanup_collect d now (shardFor h)).
  set (d2 := snd (processSpot xxh3 d s)). set (d3 := cleanup_delete d2 (shardFor h) ks).
  assert (valid_hash h) as Hh by apply Hash32_valid.
  assert (dedup_ok d2) as Hok2 by (by apply processSpot_ok).
  assert (dedup_ok d3) as Hok3 by (by apply cleanup_delete_ok).
  assert (h ∈ ks) as Hin.
  { unfold seen in Hs. destruct (shards d !! shardFor h) as [sh|] eqn:E; [|done].
    apply cleanup_collect_spec. eauto. }
  assert (seen d2 h = Some (entry_of (EnsureNormalized s)) /\
          window d2 = window d /\ preferStronger d2 = preferStronger d) as (Hs2 & Hw2 & Hp2).
  { subst d2. pose proof (processSpot_offer xxh3 d s Hok) as Hp.
    change (Hash32 xxh3 s) with (h, EnsureNormalized s) in Hp. cbv beta iota in Hp.
    pose proof (wd_offer_fwd d h (EnsureNormalized s) Hok Hh) as F.
    pose proof (wd_offer_seen d h (EnsureNormalized s) h Hok Hh Hh) as S.
    pose proof (wd_offer_cfg (D := Deduplicator) d h (EnsureNormalized s) Hok Hh) as [Cw Cs].
    simpl in F, S, Cw, Cs.
    rewrite Hs in F. simpl in F. rewrite Hf in F.
    destruct (dedup_offer d h (EnsureNormalized s)) as [fw d']. simpl in *. subst fw.
    rewrite decide_True in S by done. rewrite Hp. destruct (_ <? _); simpl; [|done].
    rewrite seen_send_output. unfold send_output. by destruct (_ <? _). }
  assert (forall dd, dedup_ok dd -> accepted (fst (processSpot xxh3 dd s')) =
            spec_fwd (window dd) (preferStronger dd) (seen dd h) (EnsureNormalized s')) as Hacc.
  { intros dd Hd. pose proof (processSpot_offer xxh3 dd s' Hd) as Hp.
    change (Hash32 xxh3 s') with (fst (Hash32 xxh3 s'), EnsureNormalized s') in Hp.
    rewrite Hh' in Hp. cbv beta iota in Hp.
    pose proof (wd_offer_fwd dd h (EnsureNormalized s') Hd Hh) as F. simpl in F.
    destruct (dedup_offer dd h (EnsureNormalized s')) as [fw d']. simpl in F. rewrite Hp, <- F.
    by destruct fw; repeat case_match. }
  exists d2, d3. split_and!; [|done|done| |].
  - eapply rtc_l; [apply (dstep_collect xxh3 d (shardFor h) now)|].
    eapply rtc_l; [apply (dstep_spot xxh3 d (Some (shardFor h, ks)) s)|].
    apply rtc_once. apply dstep_delete.
  - rewrite (Hacc d2 Hok2), Hs2, Hw2, Hp2. exact Hdup.
  - rewrite (Hacc d3 Hok3). unfold d3. rewrite cleanup_delete_seen, decide_True by done. done.
Qed.

Lemma cleanup_race_witness :
  let d := snd (processSpot (fun _ => 7) (NewDeduplicator (30 * second) false 10) (spot_at 0)) in
  exists d2 d3,
    rtc (dstep (fun _ => 7)) (mkDstate d None) (mkDstate d3 None) /\
    accepted (fst (processSpot (fun _ => 7) d2 (spot_at 51))) = false /\
    accepted (fst (processSpot (fun _ => 7) d3 (spot_at 51))) = true.
Proof.
  intros d.
  destruct (cleanup_race (fun _ => 7) d (40 * second) (mkCachedEntry 0 0 false)
              (spot_at 50) (spot_at 51)) as (d2 & d3 & Hr & _ & _ & H2 & H3).
  - apply processSpot_ok, NewDeduplicator_ok.
  - reflexivity.
  - vm_compute. reflexivity.
  - vm_compute. reflexivity.
  - vm_compute. reflexivity.
  - vm_compute. reflexivity.
  - exists d2, d3. auto.
Defined.

Lemma dstep_ok xxh3 a b : dstep xxh3 a b -> dedup_ok (ds_dedup a) -> dedup_ok (ds_dedup b).
Proof.
  intros [d p s|d i now|d i ks|d p s rest E]; simpl; intros Hok.
  - by apply processSpot_ok.
  - done.
  - by apply cleanup_delete_ok.
  - destruct Hok as [Hl Hs Ho]. split; simpl; try done. rewrite E in Ho. simpl in Ho. lia.
Qed.

Lemma GetStats_bounds (l : list cacheShard) p q c :
  (forall i sh, l !! i = Some sh -> exists j, shard_ok j sh) ->
  c + q <= p -> 0 <= q ->
  let '(p', q', c') := fold_left (fun acc sh =>
    let '(p, q, c) := acc in
    (p + processedCount sh, q + duplicateCount sh, c + Z.of_nat (size (cache sh)))) l (p, q, c) in
  c' + q' <= p' /\ 0 <= q'.
Proof.
  revert p q c. induction l as [|sh l IH]; intros p q c Hl Hc Hq; [done|]. simpl.
  destruct (Hl 0%nat sh eq_refl) as [j [_ Hn Hd _]].
  apply IH; [|lia..]. intros i sh' Hi. by apply (Hl (S i)).
Qed.

(** Safety of every interleaving: in every state the processing
    loop, the two cleanup phases and the consumer can reach, every cached key
    sits in the shard its hash selects, the output channel never exceeds its
    capacity, and the statistics are consistent: cached entries plus
    duplicates never exceed the processed count. *)
Theorem dedup_reachable_safe xxh3 w st n b :
  rtc (dstep xxh3) (mkDstate (NewDeduplicator w st n) None) b ->
  dedup_ok (ds_dedup b) /\
  let '(processed, duplicates, cacheSize) := GetStats (ds_dedup b) in
  0 <= duplicates /\ cacheSize + duplicates <= processed.
Proof.
  intros Hr.
  assert (dedup_ok (ds_dedup b)) as Hok.
  { remember (mkDstate (NewDeduplicator w st n) None) as a eqn:Ea.
    assert (dedup_ok (ds_dedup a)) as Ha by (subst; apply NewDeduplicator_ok). clear Ea.
    induction Hr as [|a a' b Hs _ IH]; [done|]. apply IH. by eapply dstep_ok. }
  split; [done|]. unfold GetStats.
  pose proof (GetStats_bounds (shards (ds_dedup b)) 0 0 0) as Hb.
  destruct (fold_left _ _ _) as [[p q] c]. destruct Hb; try lia.
  intros i sh Hi. exists i. by apply (do_shards _ Hok).
Qed.

Lemma dedup_reachable_safe_witness :
  dedup_ok (snd (processSpot (fun _ => 7) (NewDeduplicator (30 * second) true 10) (spot_at 0))).
Proof.
  apply (dedup_reachable_safe (fun _ => 7) (30 * second) true 10
    (mkDstate (snd (processSpot (fun _ => 7) (NewDeduplicator (30 * second) true 10) (spot_at 0))) None)).
  apply rtc_once. apply dstep_spot.
Defined.
