(* ===== verification/Secondary.v ===== *)
(** * Secondary: the broadcast-stage deduplicator

    Models [dedup/secondary.go].  The shard and entry structures have the same
    fields as the primary's, so the records of [DedupSpec] and [Dedup] are
    used; the locked section, the key and the single-lock cleanup are the
    secondary's own.  A nil spot is [None]; the receiver is never nil here. *)

From S2P Require Import Prelude GoText GoNum Callsign Bands Spot DedupSpec Dedup.

Local Open Scope Z_scope.

(** ** Data *)

Inductive SecondaryKeyMode := SecondaryKeyGrid2 | SecondaryKeyCQZone.

Record SecondaryDeduper := mkSecondary {
  sd_window : Z;
  sd_preferStronger : bool;
  sd_keyMode : SecondaryKeyMode;
  sd_shards : list cacheShard
}.

Definition secondaryShardCount : nat := 64.
Definition secondaryCompactMinPeak : Z := 1024.

Definition NewSecondaryDeduperWithKey (w : Z) (stronger : bool) (mode : SecondaryKeyMode)
    : SecondaryDeduper :=
  mkSecondary w stronger mode (replicate secondaryShardCount empty_shard).

Definition NewSecondaryDeduper (w : Z) (stronger : bool) : SecondaryDeduper :=
  NewSecondaryDeduperWithKey w stronger SecondaryKeyGrid2.

(** ** The key *)

Definition secondaryClassHuman : Z := 1.
Definition secondaryClassSkimmer : Z := 2.

Definition secondarySourceClass (s : Spot) : Z :=
  if IsSkimmerSource (SourceType s) then secondaryClassSkimmer else secondaryClassHuman.

(** [toUpperASCII] of a byte. *)
Definition toUpperASCII (c : ascii) : ascii :=
  if in_range "a" "z" c then byte_of (byte_val c - 32) else c.

(** The band packed into a little-endian uint32. *)
Definition bandKeyNumeric (s : Spot) : Z :=
  let band := if bool_decide (BandNorm s = "") then FreqToBand (Frequency s) else BandNorm s in
  let band := ToUpper (TrimSpace band) in
  le_value (fixed_bytes 4 band).

Definition fixedGrid2 (s : Spot) : Z * Z :=
  let grid := if bool_decide (DEGrid2 s = "") && (2 <=? len (DEGridNorm s))
              then stake 2 (DEGridNorm s) else DEGrid2 s in
  match grid with
  | String a (String b _) => (byte_val (toUpperASCII a), byte_val (toUpperASCII b))
  | String a EmptyString => (byte_val (toUpperASCII a), 0)
  | EmptyString => (0, 0)
  end.

Definition fixedCQZone (s : Spot) : Z :=
  let zone := CQZone (DEMetadata s) in
  if (zone <=? 0) || (40 <? zone) then 0 else uint16 zone.

Definition writeFixedCallNormalized (call : string) : list Z := fixed_bytes 12 call.

(** The location field of the key, bytes 6 and 7. *)
Definition location_bytes (mode : SecondaryKeyMode) (s : Spot) : list Z :=
  match mode with
  | SecondaryKeyCQZone => le_bytes 2 (fixedCQZone s)
  | SecondaryKeyGrid2 => let '(a, b) := fixedGrid2 s in [a; b]
  end.

(** The 32-byte buffer: band (4), DE DXCC (2), location (2), DX call (12),
    source class (1), eleven zero bytes. *)
Definition secondary_buffer (s : Spot) (deDXCC : Z) (mode : SecondaryKeyMode) : list Z :=
  let s := EnsureNormalized s in
  le_bytes 4 (bandKeyNumeric s) ++
  le_bytes 2 (uint16 deDXCC) ++
  location_bytes mode s ++
  writeFixedCallNormalized (DXCallNorm s) ++
  [secondarySourceClass s] ++
  replicate 11 0.

Section SecondaryHash.
Context (xxh3 : list Z -> Z).

(** The hash and the spot, which [EnsureNormalized] completed in place. *)
Definition secondaryHash (s : Spot) (deDXCC : Z) (mode : SecondaryKeyMode) : Z * Spot :=
  (uint32 (xxh3 (secondary_buffer s deDXCC mode)), EnsureNormalized s).
End SecondaryHash.

(** ** The cache *)

Definition secondary_shardFor (hash : Z) : nat :=
  Z.to_nat (Z.land hash (Z.of_nat secondaryShardCount - 1)).

Definition isSecondaryDuplicateLocked (m : gmap Z cachedEntry) (hash spotTime w : Z)
    : bool * cachedEntry :=
  match m !! hash with
  | None => (false, mkCachedEntry 0 0 false)
  | Some lastSeen =>
      let age := time_sub spotTime (when lastSeen) in
      let age := if age <? 0 then int64 (- age) else age in
      (age <? w, lastSeen)
  end.

Definition secondary_updatePeak (sh : cacheShard) : cacheShard :=
  let sz := Z.of_nat (size (cache sh)) in
  if peak sh <? sz then mkCacheShard (cache sh) (processedCount sh) (duplicateCount sh) sz else sh.

Definition secondary_maybeCompact (sh : cacheShard) : cacheShard :=
  if peak sh <? secondaryCompactMinPeak then sh
  else if peak sh / 2 <=? Z.of_nat (size (cache sh)) then sh
  else mkCacheShard (cache sh) (processedCount sh) (duplicateCount sh)
         (Z.of_nat (size (cache sh))).

(** The locked section of [ShouldForward]. *)
Definition forward_locked (w : Z) (stronger : bool) (hash : Z) (s : Spot) (sh : cacheShard)
    : bool * cacheShard :=
  let sh := mkCacheShard (cache sh) (processedCount sh + 1) (duplicateCount sh) (peak sh) in
  let store := secondary_updatePeak
    (mkCacheShard (<[hash := mkCachedEntry (Time s) (Report s) (HasReport s)]> (cache sh))
       (processedCount sh) (duplicateCount sh) (peak sh)) in
  let '(dup, lastSeen) := isSecondaryDuplicateLocked (cache sh) hash (Time s) w in
  if dup : bool then
    let upgradeToReported := HasReport s && negb (hasReport lastSeen) in
    let isStronger := stronger && (snr lastSeen <? Report s) in
    if upgradeToReported || isStronger then (true, store)
    else (false, mkCacheShard (cache sh) (processedCount sh) (duplicateCount sh + 1) (peak sh))
  else (true, store).

Definition set_sd_shards (d : SecondaryDeduper) (l : list cacheShard) : SecondaryDeduper :=
  mkSecondary (sd_window d) (sd_preferStronger d) (sd_keyMode d) l.

Definition ShouldForward (xxh3 : list Z -> Z) (d : SecondaryDeduper) (s : option Spot)
    : bool * SecondaryDeduper :=
  match s with
  | None => (true, d)
  | Some s =>
      if sd_window d <=? 0 then (true, d)
      else
        let deDXCC := ADIF (DEMetadata s) in
        if deDXCC <=? 0 then (true, d)
        else
          let '(hash, s) := secondaryHash xxh3 s deDXCC (sd_keyMode d) in
          let i := secondary_shardFor hash in
          match sd_shards d !! i with
          | None => (true, d)
          | Some sh =>
              let '(fwd, sh') := forward_locked (sd_window d) (sd_preferStronger d) hash s sh in
              (fwd, set_sd_shards d (<[i := sh']> (sd_shards d)))
          end
  end.

(** The pass over a shard under one lock: expired entries go, and the shard is
    maybe compacted when something went. *)
Definition secondary_cleanup_shard (now w : Z) (sh : cacheShard) : cacheShard :=
  let kept := filter (fun p => (w <? time_sub now (when (snd p))) = false) (cache sh) in
  if bool_decide (kept = cache sh) then sh
  else secondary_maybeCompact
         (mkCacheShard kept (processedCount sh) (duplicateCount sh) (peak sh)).

Definition secondary_cleanup (d : SecondaryDeduper) (now : Z) : SecondaryDeduper :=
  if sd_window d <=? 0 then d
  else set_sd_shards d (map (secondary_cleanup_shard now (sd_window d)) (sd_shards d)).

Definition secondary_GetStats (d : SecondaryDeduper) : Z * Z * Z :=
  fold_left (fun acc sh =>
    let '(p, q, c) := acc in
    (p + processedCount sh, q + duplicateCount sh, c + Z.of_nat (size (cache sh))))
    (sd_shards d) (0, 0, 0).

(** ** Facts: the locked section and the shards are the primary's *)

Lemma forward_locked_eq w st h s sh : forward_locked w st h s sh = process_locked w st h s sh.
Proof. done. Qed.

Definition as_primary (d : SecondaryDeduper) : Deduplicator :=
  mkDeduplicator (sd_window d) (sd_preferStronger d) (sd_shards d) [] 0.

Definition secondary_offer (d : SecondaryDeduper) (h : Z) (s : Spot) : bool * SecondaryDeduper :=
  match sd_shards d !! secondary_shardFor h with
  | None => (true, d)
  | Some sh =>
      let '(fwd, sh') := forward_locked (sd_window d) (sd_preferStronger d) h s sh in
      (fwd, set_sd_shards d (<[secondary_shardFor h := sh']> (sd_shards d)))
  end.

#[global] Instance Secondary_window : WindowDedup SecondaryDeduper := {
  wd_window := sd_window;
  wd_stronger := sd_preferStronger;
  wd_wf d := dedup_ok (as_primary d);
  wd_seen d := seen (as_primary d);
  wd_offer := secondary_offer
}.

Lemma secondary_offer_primary d h s :
  dedup_ok (as_primary d) ->
  fst (secondary_offer d h s) = fst (dedup_offer (as_primary d) h s) /\
  as_primary (snd (secondary_offer d h s)) = snd (dedup_offer (as_primary d) h s).
Proof.
  intros Hok. unfold secondary_offer, dedup_offer. cbn [shards as_primary].
  change (secondary_shardFor h) with (shardFor h).
  destruct (shard_lookup _ h Hok) as (sh & E & _). simpl in E. rewrite E.
  rewrite forward_locked_eq. simpl. by destruct (process_locked _ _ h s sh).
Qed.

#[global] Instance Secondary_laws : WindowDedupLaws SecondaryDeduper.
Proof.
  split; simpl; intros d h s.
  - intros Hok Hh. destruct (secondary_offer_primary d h s Hok) as [_ ->].
    exact (wd_offer_wf (D := Deduplicator) (as_primary d) h s Hok Hh).
  - intros Hok Hh. unfold secondary_offer. destruct (sd_shards d !! _); [|done].
    by destruct (forward_locked _ _ _ _ _).
  - intros Hok Hh. destruct (secondary_offer_primary d h s Hok) as [-> _].
    exact (wd_offer_fwd (D := Deduplicator) (as_primary d) h s Hok Hh).
  - intros h' Hok Hh Hh'. destruct (secondary_offer_primary d h s Hok) as [-> ->].
    exact (wd_offer_seen (D := Deduplicator) (as_primary d) h s h' Hok Hh Hh').
Qed.

Lemma NewSecondary_ok w st mode : dedup_ok (as_primary (NewSecondaryDeduperWithKey w st mode)).
Proof.
  destruct (NewDeduplicator_ok w st 1) as [Hl Hs _]. split; [exact Hl|exact Hs|]. simpl. lia.
Qed.

Lemma NewSecondary_abs w st mode : wd_abs (NewSecondaryDeduperWithKey w st mode) ∅.
Proof.
  split; [apply NewSecondary_ok|]. intros h Hh.
  pose proof (proj2 (NewDeduplicator_abs w st 1) h Hh) as Ha. exact Ha.
Qed.

Lemma secondaryHash_valid xxh3 s c m : valid_hash (fst (secondaryHash xxh3 s c m)).
Proof. unfold secondaryHash, uint32. cbn [fst]. split; apply Z.mod_pos_bound; lia. Qed.

(** ** Runs *)

(** The spots the cache is consulted for. *)
Definition considered (s : option Spot) : bool :=
  match s with Some s => 0 <? ADIF (DEMetadata s) | None => false end.

Section Runs.
Context (xxh3 : list Z -> Z) (mode : SecondaryKeyMode).

Fixpoint forward_run (d : SecondaryDeduper) (l : list (option Spot)) : list bool :=
  match l with
  | [] => []
  | s :: rest => fst (ShouldForward xxh3 d s) :: forward_run (snd (ShouldForward xxh3 d s)) rest
  end.

(** The contract with the secondary's exemptions: a spot without DE DXCC is
    forwarded and leaves no trace. *)
Fixpoint exempt_run (w : Z) (st : bool) (m : gmap Z cachedEntry) (l : list (option Spot))
    : list bool :=
  match l with
  | [] => []
  | s :: rest =>
      match s with
      | Some s' =>
          if considered s then
            let '(h, s'') := secondaryHash xxh3 s' (ADIF (DEMetadata s')) mode in
            let '(fwd, m') := spec_offer w st m h s'' in
            fwd :: exempt_run w st m' rest
          else true :: exempt_run w st m rest
      | None => true :: exempt_run w st m rest
      end
  end.

Lemma ShouldForward_sim d m s :
  wd_abs d m -> sd_keyMode d = mode -> 0 < sd_window d -> considered (Some s) = true ->
  let '(h, s') := secondaryHash xxh3 s (ADIF (DEMetadata s)) mode in
  ShouldForward xxh3 d (Some s) = secondary_offer d h s'.
Proof.
  intros Habs Hm Hw Hc. simpl in Hc. unfold ShouldForward, secondary_offer, secondaryHash.
  destruct (Z.leb_spec (sd_window d) 0); [lia|].
  destruct (Z.leb_spec (ADIF (DEMetadata s)) 0); [boolify; lia|]. by rewrite Hm.
Qed.

Lemma forward_run_sim d m l :
  wd_abs d m -> sd_keyMode d = mode -> 0 < sd_window d ->
  forward_run d l = exempt_run (sd_window d) (sd_preferStronger d) m l.
Proof.
  revert d m. induction l as [|[s|] l IH]; intros d m Habs Hm Hw; [done| |].
  - cbn [forward_run exempt_run]. destruct (considered (Some s)) eqn:Hc.
    + pose proof (ShouldForward_sim d m s Habs Hm Hw Hc) as E.
      pose proof (secondaryHash_valid xxh3 s (ADIF (DEMetadata s)) mode) as Hh.
      destruct (secondaryHash xxh3 s (ADIF (DEMetadata s)) mode) as [h s']. rewrite E.
      simpl in Hh. pose proof (wd_offer_sim d m h s' Habs Hh) as [Hf Ha]. simpl in Hf, Ha.
      assert (sd_keyMode (snd (secondary_offer d h s')) = mode) as Hm'.
      { unfold secondary_offer. by repeat case_match. }
      pose proof (wd_offer_cfg (D := SecondaryDeduper) d h s' (proj1 Habs) Hh) as [Ew Es].
      simpl in Ew, Es.
      destruct (secondary_offer d h s') as [fwd d'].
      destruct (spec_offer (sd_window d) (sd_preferStronger d) m h s') as [fwd' m'].
      simpl in *. subst fwd'. f_equal. rewrite <- Ew, <- Es. apply IH; [done|done|lia].
    + simpl in Hc. unfold ShouldForward.
      destruct (Z.leb_spec (sd_window d) 0); [lia|]. boolify.
      destruct (Z.leb_spec (ADIF (DEMetadata s)) 0); [|lia]. simpl. f_equal. by apply IH.
  - simpl. f_equal. by apply IH.
Qed.
End Runs.

(** ** Properties *)

(** C11: The secondary deduplicator implements the windowed contract on
    its own key, for every window > 0, hash function, key mode and spot
    sequence; spots without a DE DXCC code (and nil spots) are always forwarded
    and never influence a later decision. *)
Theorem secondary_refines_spec xxh3 w st mode l :
  0 < w ->
  forward_run xxh3 (NewSecondaryDeduperWithKey w st mode) l = exempt_run xxh3 mode w st ∅ l.
Proof.
  intros Hw. apply (forward_run_sim xxh3 mode (NewSecondaryDeduperWithKey w st mode) ∅).
  - apply NewSecondary_abs.
  - done.
  - done.
Qed.

Definition de_spot (adif zone : Z) (grid : string) (src : string) (sec : Z) : Spot :=
  let s := sample_spot "K1ABC" "W3LPL" (140250 # 10) (sec * second) in
  mkSpot (ID s) (DXCall s) (DECall s) (Frequency s) (Band s) (Mode s) (Report s) (Time s)
    (Comment s) src (SourceNode s) (SpotterIP s) (TTL s) (IsHuman s) (IsTestSpotter s)
    (IsBeacon s) (HasReport s) (DXMetadata s)
    (mkCallMetadata "NA" "K" zone grid false 8 adif) (Confidence s) (formatted s) (ModeNorm s)
    (BandNorm s) (DXCallNorm s) (DECallNorm s) "" "" "" "" "" "" 0 0 "" "".

Lemma secondary_refines_spec_witness :
  forward_run (fun b => le_value b) (NewSecondaryDeduperWithKey (120 * second) false SecondaryKeyGrid2)
    [Some (de_spot 291 5 "FM19" SourceRBN 0); Some (de_spot 291 5 "FM29" SourceRBN 30);
     None; Some (de_spot 0 5 "FM19" SourceRBN 31); Some (de_spot 291 5 "FM19" SourceRBN 200)]
  = [true; false; true; true; true].
Proof.
  rewrite (secondary_refines_spec (fun b => le_value b) (120 * second) false SecondaryKeyGrid2).
  - vm_compute. reflexivity.
  - compute_goal.
Defined.

(** What the secondary key stands for. *)
Definition secondary_fields (s : Spot) (deDXCC : Z) (mode : SecondaryKeyMode)
    : Z * Z * list Z * string * Z :=
  let s := EnsureNormalized s in
  (bandKeyNumeric s, uint16 deDXCC, location_bytes mode s, stake 12 (DXCallNorm s),
   secondarySourceClass s).

Lemma length_location_bytes mode s : length (location_bytes mode s) = 2%nat.
Proof. unfold location_bytes. destruct mode; [by destruct (fixedGrid2 s)|apply length_le_bytes]. Qed.

Lemma le_value_bound bs :
  Forall (fun b => 0 <= b < 256) bs -> 0 <= le_value bs < 2 ^ (8 * Z.of_nat (length bs)).
Proof.
  induction 1 as [|b bs Hb Hbs IH]; [simpl; lia|]. cbn [le_value length].
  replace (8 * Z.of_nat (S (length bs))) with (8 + 8 * Z.of_nat (length bs)) by lia.
  rewrite Z.pow_add_r by lia. change (2 ^ 8) with 256. nia.
Qed.

Lemma fixed_bytes_range n s : Forall (fun b => 0 <= b < 256) (fixed_bytes n s).
Proof.
  revert s. induction n as [|n IH]; intros s; [constructor|].
  unfold fixed_bytes; fold fixed_bytes. destruct s; constructor; try apply IH; [lia|apply byte_val_range].
Qed.

Lemma bandKeyNumeric_range s : 0 <= bandKeyNumeric s < 2 ^ 32.
Proof.
  unfold bandKeyNumeric. pose proof (le_value_bound _ (fixed_bytes_range 4
    (ToUpper (TrimSpace (if bool_decide (BandNorm s = "") then FreqToBand (Frequency s) else BandNorm s))))) as H.
  by rewrite length_fixed_bytes in H.
Qed.

(** The secondary key separates exactly band, DE DXCC, DE location
    (2-character grid or CQ zone, by mode), the first 12 bytes of the DX call
    and the source class: two buffers agree if and only if these do.  In
    particular a skimmer spot and a human spot never share a key. *)
Theorem secondary_key_exact s1 s2 c1 c2 mode :
  no_byte "000" (DXCallNorm (EnsureNormalized s1)) = true ->
  no_byte "000" (DXCallNorm (EnsureNormalized s2)) = true ->
  (secondary_buffer s1 c1 mode = secondary_buffer s2 c2 mode <->
   secondary_fields s1 c1 mode = secondary_fields s2 c2 mode) /\
  (secondarySourceClass (EnsureNormalized s1) <> secondarySourceClass (EnsureNormalized s2) ->
   secondary_buffer s1 c1 mode <> secondary_buffer s2 c2 mode).
Proof.
  intros N1 N2.
  assert (secondary_buffer s1 c1 mode = secondary_buffer s2 c2 mode ->
          secondary_fields s1 c1 mode = secondary_fields s2 c2 mode) as Hf.
  { unfold secondary_buffer, secondary_fields, writeFixedCallNormalized. intros H.
    apply app_eq_split in H as [H1 H]; [|by rewrite !length_le_bytes].
    apply app_eq_split in H as [H2 H]; [|by rewrite !length_le_bytes].
    apply app_eq_split in H as [H3 H]; [|by rewrite !length_location_bytes].
    apply app_eq_split in H as [H4 H]; [|by rewrite !length_fixed_bytes].
    apply app_eq_split in H as [[= H5] _]; [|done].
    apply le_bytes_inj in H1; [|apply bandKeyNumeric_range..].
    apply le_bytes_inj in H2; [|apply Z.mod_pos_bound; done..].
    apply fixed_bytes_inj in H4; [|done..]. by rewrite H1, H2, H3, H4, H5. }
  split; [split; [done|]|].
  - unfold secondary_buffer, secondary_fields, writeFixedCallNormalized.
    intros H. apply pair_eq in H as [H H5]. apply pair_eq in H as [H H4].
    apply pair_eq in H as [H H3]. apply pair_eq in H as [H1 H2].
    by rewrite H1, H2, H3, H5, (fixed_bytes_stake _ _ _ H4).
  - intros Hc Hb. apply Hc. apply Hf in Hb. unfold secondary_fields in Hb.
    by apply pair_eq in Hb as [_ ?].
Qed.

Lemma secondary_key_exact_witness :
  secondary_buffer (de_spot 291 5 "FM19" SourceRBN 0) 291 SecondaryKeyGrid2 <>
  secondary_buffer (de_spot 291 5 "FM19" SourceManual 0) 291 SecondaryKeyGrid2.
Proof.
  apply (secondary_key_exact (de_spot 291 5 "FM19" SourceRBN 0) (de_spot 291 5 "FM19" SourceManual 0)).
  - vm_compute. reflexivity.
  - vm_compute. reflexivity.
  - vm_compute. discriminate.
Defined.

(** A spot whose timestamp lies 2^63 ns or more before the cached
    one (a spot without a timestamp: the zero [time.Time] is the year 1) counts
    as a duplicate for every window: the subtraction saturates at the minimum,
    whose negation wraps back to itself and is below any positive window. *)
Theorem secondary_saturated_age_is_duplicate m h e t w :
  m !! h = Some e -> t - when e <= min_int64 -> 0 < w ->
  isSecondaryDuplicateLocked m h t w = (true, e) /\ isDuplicateLocked m h t w = (true, e).
Proof.
  intros He Ht Hw.
  assert (time_sub t (when e) = min_int64) as E
    by (unfold time_sub, max_int64, min_int64 in *; lia).
  unfold isSecondaryDuplicateLocked, isDuplicateLocked, abs_duration. rewrite He, E.
  change (min_int64 <? 0) with true. cbv iota. change (int64 (- min_int64)) with min_int64.
  assert ((min_int64 <? w) = true) as -> by (apply Z.ltb_lt; unfold min_int64; lia). done.
Qed.

(** Year 1 against 1 January 2025, with a two-minute window. *)
Lemma secondary_saturated_age_witness :
  isSecondaryDuplicateLocked {[ 5 := mkCachedEntry (1735689600 * second) 0 false ]} 5
    (-62135596800 * second) (120 * second)
  = (true, mkCachedEntry (1735689600 * second) 0 false).
Proof.
  apply (secondary_saturated_age_is_duplicate
    {[ 5 := mkCachedEntry (1735689600 * second) 0 false ]} 5
    (mkCachedEntry (1735689600 * second) 0 false)).
  - vm_compute. reflexivity.
  - compute_goal.
  - compute_goal.
Defined.
