(* ===== verification/Ring.v ===== *)
(** * Ring: the lock-free ring buffer of recent spots

    Models [buffer/ringbuffer.go].  A slot holds a pointer to a spot, and [Add]
    writes the spot's [ID] through that pointer, so pointers and the [ID]
    fields they lead to are explicit: [slots] holds pointers, [ids] the [ID]
    field of every published object.  The counter [total] is a natural number
    (the source's uint64 counts spots and does not wrap in practice).

    Part one is the sequential behaviour against the history of added spots.
    Part two is the concurrent behaviour: [Add] is three atomic steps (reserve
    the identifier, write [s.ID], publish the pointer), a reader loads [total]
    once and then one slot per step, and all of them interleave freely. *)

From S2P Require Import Prelude.

(** ** Data and operations *)

Record RingBuffer := mkRing {
  slots : list (option nat);
  capacity : nat;
  total : nat;
  ids : gmap nat nat
}.

Definition recentFilterMultiplier : nat := 20.
Definition recentFilterMax : nat := 5000.

Definition NewRingBuffer (cap : nat) : RingBuffer := mkRing (replicate cap None) cap 0 ∅.

(** *** The three atomic steps of [Add] *)

Definition add_reserve (rb : RingBuffer) : nat * RingBuffer :=
  let newID := S (total rb) in (newID, mkRing (slots rb) (capacity rb) newID (ids rb)).

Definition add_set_id (rb : RingBuffer) (s : nat) (newID : nat) : RingBuffer :=
  mkRing (slots rb) (capacity rb) (total rb) (<[s := newID]> (ids rb)).

Definition add_publish (rb : RingBuffer) (s : nat) (newID : nat) : RingBuffer :=
  let idx := (newID - 1) `mod` capacity rb in
  mkRing (<[idx := Some s]> (slots rb)) (capacity rb) (total rb) (ids rb).

Definition Add (rb : RingBuffer) (s : nat) : RingBuffer :=
  let '(newID, rb) := add_reserve rb in
  add_publish (add_set_id rb s newID) s newID.

(** One read of the loop body: the pointer of slot [idx % capacity] if its
    spot carries the identifier [idx + 1]. *)
Definition load_slot (rb : RingBuffer) (idx : nat) : option nat :=
  match slots rb !! (idx `mod` capacity rb) with
  | Some (Some sp) => if bool_decide (ids rb !! sp = Some (S idx)) then Some sp else None
  | _ => None
  end.

(** The reading loop, [left] slots to go: [idx] has been decremented, so the
    first slot read is [minIndex + left - 1]. *)
Fixpoint recent_loop (rb : RingBuffer) (minIndex left n : nat) (result : list nat) : list nat :=
  match left with
  | O => result
  | S k =>
      if (length result <? n)%nat then
        match load_slot rb (minIndex + k) with
        | Some sp => recent_loop rb minIndex k n (result ++ [sp])
        | None => recent_loop rb minIndex k n result
        end
      else result
  end.

Definition available (rb : RingBuffer) : nat := Nat.min (total rb) (capacity rb).

Definition GetRecent (rb : RingBuffer) (n : Z) : list nat :=
  if (n <=? 0)%Z then []
  else
    let n := Nat.min (Z.to_nat n) (available rb) in
    if (total rb =? 0)%nat then []
    else recent_loop rb (total rb - available rb) (available rb) n [].

Fixpoint filtered_loop (rb : RingBuffer) (matches : nat -> bool) (minIndex left n scan : nat)
    (result : list nat) : list nat :=
  match left, scan with
  | S k, S scan' =>
      if (length result <? n)%nat then
        match load_slot rb (minIndex + k) with
        | Some sp =>
            if matches sp then filtered_loop rb matches minIndex k n scan' (result ++ [sp])
            else filtered_loop rb matches minIndex k n scan' result
        | None => filtered_loop rb matches minIndex k n scan' result
        end
      else result
  | _, _ => result
  end.

Definition scan_limit (n : nat) : nat :=
  let lim := (n * recentFilterMultiplier)%nat in
  let lim := if (lim <? n)%nat then n else lim in
  if (recentFilterMax <? lim)%nat then recentFilterMax else lim.

Definition GetRecentFiltered (rb : RingBuffer) (n : Z) (matches : nat -> bool) : list nat :=
  if (n <=? 0)%Z then []
  else if (available rb =? 0)%nat then []
  else
    let n := Nat.min (Z.to_nat n) (available rb) in
    filtered_loop rb matches (total rb - available rb) (available rb) n (scan_limit n) [].

Definition GetPosition (rb : RingBuffer) : nat := total rb `mod` capacity rb.
Definition GetCount (rb : RingBuffer) : nat := total rb.

(** [GetSizeKB] on a 64-bit platform (8-byte pointers). *)
Definition GetSizeKB (rb : RingBuffer) : Z :=
  let backingBytes := (Z.of_nat (capacity rb) * 8)%Z in
  let stored := if (capacity rb <? total rb)%nat then capacity rb else total rb in
  ((backingBytes + Z.of_nat stored * 500) / 1024)%Z.

(** ** Sequential behaviour *)

(** [h] is the history of added pointers, oldest first. *)
Record ring_repr (rb : RingBuffer) (h : list nat) : Prop := {
  rr_cap : (0 < capacity rb)%nat;
  rr_len : length (slots rb) = capacity rb;
  rr_total : total rb = length h;
  rr_nodup : NoDup h;
  rr_ids : forall j p, h !! j = Some p -> ids rb !! p = Some (S j);
  rr_slots : forall j p, h !! j = Some p -> (length h <= j + capacity rb)%nat ->
    slots rb !! (j `mod` capacity rb) = Some (Some p)
}.

Lemma NewRingBuffer_repr cap : (0 < cap)%nat -> ring_repr (NewRingBuffer cap) [].
Proof.
  intros H. split; simpl; try done; [apply length_replicate|apply NoDup_nil_2].
Qed.

(** Two indices less than a capacity apart use different slots. *)
Lemma mod_ne_near c i j : (0 < c)%nat -> (i < j)%nat -> (j < i + c)%nat -> i `mod` c <> j `mod` c.
Proof.
  intros Hc Hij Hj E.
  pose proof (Nat.div_mod i c ltac:(lia)). pose proof (Nat.div_mod j c ltac:(lia)).
  assert (c * (j `div` c - i `div` c) = j - i)%nat by nia.
  destruct (j `div` c - i `div` c)%nat as [|k]; nia.
Qed.

Lemma Add_repr rb h p : ring_repr rb h -> p ∉ h -> ring_repr (Add rb p) (h ++ [p]).
Proof.
  intros [Hc Hl Ht Hn Hi Hs] Hp.
  unfold Add, add_reserve, add_publish, add_set_id. split; cbn [slots capacity total ids].
  - done.
  - by rewrite length_insert.
  - rewrite length_app, Ht. simpl. lia.
  - apply NoDup_app. split_and!; [done| |apply NoDup_singleton]. intros x Hx Hx'%list_elem_of_singleton. by subst.
  - intros j q Hj. apply lookup_app_Some in Hj as [Hj|[Hge Hj]].
    + rewrite lookup_insert_ne; [by apply Hi|]. intros ->. apply Hp. by eapply list_elem_of_lookup_2.
    + apply list_lookup_singleton_Some in Hj as [Hj <-]. rewrite lookup_insert_eq. f_equal. lia.
  - replace (S (total rb) - 1)%nat with (length h) by lia.
    assert (length h `mod` capacity rb < length (slots rb))%nat as Hlt
      by (rewrite Hl; apply Nat.mod_upper_bound; lia).
    intros j q Hj Hnear. rewrite length_app in Hnear. simpl in Hnear.
    apply lookup_app_Some in Hj as [Hj|[Hge Hj]].
    + pose proof (lookup_lt_Some _ _ _ Hj).
      rewrite list_lookup_insert_ne by (apply not_eq_sym, mod_ne_near; lia). apply Hs; [done|lia].
    + apply list_lookup_singleton_Some in Hj as [Hj <-].
      replace j with (length h) by lia. by rewrite list_lookup_insert_eq.
Qed.

Lemma load_slot_repr rb h j p :
  ring_repr rb h -> h !! j = Some p -> (length h <= j + capacity rb)%nat ->
  load_slot rb j = Some p.
Proof.
  intros [] Hj Hn. unfold load_slot. erewrite rr_slots0 by done.
  by rewrite bool_decide_eq_true_2 by (by apply rr_ids0).
Qed.

(** [rev] of a window grows at the front. *)
Lemma rev_window (h : list nat) m k p :
  h !! (m + k)%nat = Some p ->
  rev (take (S k) (drop m h)) = p :: rev (take k (drop m h)).
Proof.
  intros Hp. rewrite (take_S_r _ _ p) by (by rewrite lookup_drop).
  by rewrite rev_app_distr.
Qed.

Lemma recent_loop_repr rb h m left n res :
  ring_repr rb h -> (length h <= m + capacity rb)%nat -> (m + left <= length h)%nat ->
  recent_loop rb m left n res = res ++ take (n - length res) (rev (take left (drop m h))).
Proof.
  intros Hr Hm. revert res. induction left as [|k IH]; intros res Hk; cbn [recent_loop].
  - simpl. by rewrite take_nil, app_nil_r.
  - destruct (lookup_lt_is_Some_2 h (m + k)) as [p Hp]; [lia|].
    rewrite (rev_window _ _ _ _ Hp), (load_slot_repr rb h _ p) by (done || lia).
    destruct (Nat.ltb_spec (length res) n) as [Hlt|Hge].
    + rewrite IH by lia. rewrite length_app, <- app_assoc. simpl.
      replace (n - length res)%nat with (S (n - (length res + 1))) by lia. done.
    + replace (n - length res)%nat with 0%nat by lia. by rewrite app_nil_r.
Qed.

Lemma filtered_loop_repr rb h matches m left n scan res :
  ring_repr rb h -> (length h <= m + capacity rb)%nat -> (m + left <= length h)%nat ->
  filtered_loop rb matches m left n scan res =
  res ++ take (n - length res) (filter (fun p => matches p = true) (take scan (rev (take left (drop m h))))).
Proof.
  intros Hr Hm. revert res scan. induction left as [|k IH]; intros res scan Hk; cbn [filtered_loop].
  - simpl. by rewrite take_nil, filter_nil, take_nil, app_nil_r.
  - destruct scan as [|scan]; [by rewrite take_0, filter_nil, take_nil, app_nil_r|].
    destruct (lookup_lt_is_Some_2 h (m + k)) as [p Hp]; [lia|].
    rewrite (rev_window _ _ _ _ Hp), (load_slot_repr rb h _ p) by (done || lia).
    rewrite firstn_cons, filter_cons.
    destruct (Nat.ltb_spec (length res) n) as [Hlt|Hge].
    + destruct (matches p) eqn:Em.
      * rewrite decide_True by done. rewrite IH by lia. rewrite length_app, <- app_assoc. simpl.
        replace (n - length res)%nat with (S (n - (length res + 1))) by lia. done.
      * rewrite decide_False by done. by rewrite IH by lia.
    + replace (n - length res)%nat with 0%nat by lia. by rewrite take_0, app_nil_r.
Qed.

(** The retained part of the history, newest first. *)
Definition retained (rb : RingBuffer) (h : list nat) : list nat := take (capacity rb) (rev h).

Lemma retained_window rb h :
  ring_repr rb h ->
  rev (take (available rb) (drop (total rb - available rb) h)) = retained rb h.
Proof.
  intros Hr. unfold retained, available. rewrite (rr_total rb h Hr).
  rewrite take_ge by (rewrite length_drop; lia).
  rewrite firstn_rev. do 2 f_equal. lia.
Qed.

Fixpoint Add_all (rb : RingBuffer) (ps : list nat) : RingBuffer :=
  match ps with
  | [] => rb
  | p :: rest => Add_all (Add rb p) rest
  end.

Lemma Add_all_repr ps rb h :
  ring_repr rb h -> NoDup (h ++ ps) -> ring_repr (Add_all rb ps) (h ++ ps).
Proof.
  revert rb h. induction ps as [|p ps IH]; intros rb h Hr Hn; simpl; [by rewrite app_nil_r|].
  replace (h ++ p :: ps) with ((h ++ [p]) ++ ps) in * by (by rewrite <- app_assoc).
  apply IH; [|done]. apply Add_repr; [done|].
  intros Hp. apply NoDup_app in Hn as [Hn _]. apply NoDup_app in Hn as (_ & Hd & _).
  apply (Hd p Hp). apply list_elem_of_here.
Qed.

Lemma capacity_Add_all ps rb : capacity (Add_all rb ps) = capacity rb.
Proof. revert rb. induction ps as [|p ps IH]; intros rb; [done|]. simpl. by rewrite IH. Qed.

(** ** Concurrent behaviour *)

(** A writer between two of its atomic steps: [false] after the reservation,
    [true] after [s.ID] was written. *)
Record writer := mkWriter { wr_id : nat; wr_named : bool }.

(** A reader inside [GetRecent]: the loaded total, the number of slots still to
    read, and the result so far. *)
Record reader := mkReader { rd_min : nat; rd_left : nat; rd_want : nat; rd_result : list nat }.

(** [rs_used] are the pointers handed to [Add]: a spot object is published
    once. *)
Record rstate := mkRstate {
  rs_ring : RingBuffer;
  rs_writers : gmap nat writer;
  rs_used : gset nat;
  rs_reader : option reader
}.

Inductive rstep : rstate -> rstate -> Prop :=
| rstep_reserve rb ws used rd p :
    p ∉ used ->
    rstep (mkRstate rb ws used rd)
      (mkRstate (snd (add_reserve rb)) (<[p := mkWriter (fst (add_reserve rb)) false]> ws)
         ({[p]} ∪ used) rd)
| rstep_name rb ws used rd p id :
    ws !! p = Some (mkWriter id false) ->
    rstep (mkRstate rb ws used rd)
      (mkRstate (add_set_id rb p id) (<[p := mkWriter id true]> ws) used rd)
| rstep_publish rb ws used rd p id :
    ws !! p = Some (mkWriter id true) ->
    rstep (mkRstate rb ws used rd) (mkRstate (add_publish rb p id) (delete p ws) used rd)
| rstep_read_start rb ws used n :
    rstep (mkRstate rb ws used None)
      (mkRstate rb ws used
         (Some (mkReader (total rb - available rb) (available rb) (Nat.min n (available rb)) [])))
| rstep_read_slot rb ws used m k want res :
    (length res < want)%nat ->
    rstep (mkRstate rb ws used (Some (mkReader m (S k) want res)))
      (mkRstate rb ws used
         (Some (mkReader m k want
            (match load_slot rb (m + k) with Some sp => res ++ [sp] | None => res end))))
| rstep_read_done rb ws used m k want res :
    (k = 0 \/ want <= length res)%nat ->
    rstep (mkRstate rb ws used (Some (mkReader m k want res))) (mkRstate rb ws used None).

Definition rinit (cap : nat) : rstate := mkRstate (NewRingBuffer cap) ∅ ∅ None.

(** A result in progress: identifiers strictly decrease and lie above the
    position of the next read. *)
Fixpoint descending (rb : RingBuffer) (above : nat) (res : list nat) : Prop :=
  match res with
  | [] => True
  | p :: rest => exists i, ids rb !! p = Some i /\ (above < i)%nat /\
                  (forall q j, q ∈ rest -> ids rb !! q = Some j -> (j < i)%nat) /\
                  descending rb above rest
  end.

Record rinv (s : rstate) : Prop := {
  ri_cap : (0 < capacity (rs_ring s))%nat;
  ri_len : length (slots (rs_ring s)) = capacity (rs_ring s);
  ri_used : forall p i, ids (rs_ring s) !! p = Some i -> p ∈ rs_used s /\ (0 < i <= total (rs_ring s))%nat;
  ri_writers : forall p w, rs_writers s !! p = Some w ->
    p ∈ rs_used s /\ (0 < wr_id w <= total (rs_ring s))%nat /\
    ids (rs_ring s) !! p = (if wr_named w then Some (wr_id w) else None);
  ri_slots : forall k p, slots (rs_ring s) !! k = Some (Some p) ->
    exists i, ids (rs_ring s) !! p = Some i /\ k = ((i - 1) `mod` capacity (rs_ring s))%nat;
  ri_reader : forall r, rs_reader s = Some r ->
    (length (rd_result r) <= rd_want r)%nat /\
    descending (rs_ring s) (rd_min r + rd_left r) (rd_result r)
}.

Lemma load_slot_id rb i p : load_slot rb i = Some p -> ids rb !! p = Some (S i).
Proof. unfold load_slot. repeat case_match; intros; simplify_eq. by boolify. Qed.

Lemma descending_ext rb rb' a res :
  (forall p i, ids rb !! p = Some i -> ids rb' !! p = Some i) ->
  descending rb a res -> descending rb' a res.
Proof.
  intros Hids. induction res as [|p res IH]; [done|]. simpl.
  intros (i & Hi & Ha & Hall & Hd). exists i. split_and!; auto.
  intros q j Hq Hj. destruct (ids rb !! q) as [j'|] eqn:E.
  - rewrite (Hids _ _ E) in Hj. simplify_eq. eauto.
  - exfalso. clear -Hd Hq E. induction res as [|r res IH]; [by apply not_elem_of_nil in Hq|].
    destruct Hd as (k & Hk & _ & _ & Hd). apply elem_of_cons in Hq as [->|Hq]; [congruence|auto].
Qed.

Lemma descending_lower rb a b res : (b <= a)%nat -> descending rb a res -> descending rb b res.
Proof.
  intros Hab. induction res as [|p res IH]; [done|]. simpl.
  intros (i & Hi & Ha & Hall & Hd). exists i. split_and!; auto. lia.
Qed.

Lemma descending_snoc rb a res p :
  descending rb (S a) res -> ids rb !! p = Some (S a) -> descending rb a (res ++ [p]).
Proof.
  induction res as [|q res IH]; simpl; intros Hd Hp.
  - exists (S a). split_and!; [done|lia| |done]. intros ? ? ?%not_elem_of_nil. done.
  - destruct Hd as (i & Hi & Ha & Hall & Hd). exists i. split_and!; [done|lia| |auto].
    intros r j Hr Hj. apply elem_of_app in Hr as [Hr|Hr]; [eauto|].
    apply list_elem_of_singleton in Hr as ->.
    rewrite Hp in Hj. simplify_eq. lia.
Qed.

Lemma rinv_step s s' : rinv s -> rstep s s' -> rinv s'.
Proof.
  intros [Hc Hl Hu Hw Hs Hr] Hstep.
  destruct Hstep as [rb ws used rd p Hp|rb ws used rd p id Hwp|rb ws used rd p id Hwp
                    |rb ws used n|rb ws used m k want res Hlt|rb ws used m k want res Hdone];
    simpl in *.
  - (* reserve *)
    split; simpl; try done.
    + intros q i Hi. destruct (Hu q i Hi). split; [set_solver|lia].
    + intros q w [[<- <-]|[Hne Hq]]%lookup_insert_Some; simpl.
      * split_and!; [set_solver|lia|lia|]. destruct (ids rb !! p) eqn:E; [|done].
        by destruct (Hu _ _ E).
      * destruct (Hw q w Hq) as (? & ? & ?). split_and!; [set_solver|lia|lia|done].
    + intros r Er. destruct (Hr r Er) as [? Hd]. split; [done|]. by eapply descending_ext; [|exact Hd].
  - (* write s.ID *)
    destruct (Hw p _ Hwp) as (Hup & Hid & Hnone). simpl in *.
    assert (forall q i, ids rb !! q = Some i -> <[p := id]> (ids rb) !! q = Some i) as Hext.
    { intros q i Hq. rewrite lookup_insert_ne; [done|]. intros ->. congruence. }
    split; simpl; try done.
    + intros q i [[<- <-]|[Hne Hq]]%lookup_insert_Some; [done|by apply Hu].
    + intros q w [[<- <-]|[Hne Hq]]%lookup_insert_Some; simpl.
      * split_and!; try done; try lia. by rewrite lookup_insert_eq.
      * destruct (Hw q w Hq) as (? & ? & ?). split_and!; try done; try lia.
        by rewrite lookup_insert_ne.
    + intros j q Hq. destruct (Hs j q Hq) as (i & Hi & ->). eauto.
    + intros r Er. destruct (Hr r Er) as [? Hd]. split; [done|]. by eapply descending_ext; [|exact Hd].
  - (* publish *)
    destruct (Hw p _ Hwp) as (Hup & Hid & Hsome). simpl in *.
    split; simpl; try done.
    + by rewrite length_insert.
    + intros q w [Hne Hq]%lookup_delete_Some. by apply Hw.
    + intros j q Hq. apply list_lookup_insert_Some in Hq as [(<- & Hpq & _)|[Hne Hq]]; [|eauto].
      simplify_eq. eauto.
    + intros r Er. destruct (Hr r Er) as [? Hd]. split; [done|]. by eapply descending_ext; [|exact Hd].
  - (* the reader loads the total *)
    split; simpl; try done. intros r [= <-]. simpl. split; [lia|done].
  - (* the reader loads one slot *)
    destruct (Hr _ eq_refl) as [Hlen Hd]. simpl in *.
    split; simpl; try done. intros r [= <-]. simpl. destruct (load_slot rb (m + k)) as [sp|] eqn:E.
    + rewrite length_app. simpl. split; [lia|]. apply descending_snoc; [|by apply load_slot_id].
      by rewrite Nat.add_succ_r in Hd.
    + split; [lia|]. eapply descending_lower; [|exact Hd]. lia.
  - (* the reader returns *)
    split; simpl; done.
Qed.

Lemma rinit_inv cap : (0 < cap)%nat -> rinv (rinit cap).
Proof.
  intros Hc. split; simpl; try done.
  - apply length_replicate.
  - intros k p Hk. apply lookup_replicate in Hk as [? _]. done.
Qed.

Lemma reachable_inv cap s : (0 < cap)%nat -> rtc rstep (rinit cap) s -> rinv s.
Proof.
  intros Hc Hr. assert (rinv (rinit cap)) as Hi by (by apply rinit_inv). revert Hi.
  generalize (rinit cap) Hr. clear Hr. intros a Hr.
  induction Hr as [|a b c Hab _ IH]; [done|]. intros Ha. apply IH. by eapply rinv_step.
Qed.

(** ** Properties *)

(** The ring answers from its history: after any sequence of additions
    of distinct spots to a ring of positive capacity, [GetRecent n] is exactly
    the newest [n] of the retained spots, newest first, where retained means
    the last [capacity] ones; [GetRecentFiltered] is the newest matching ones
    among the first [scan_limit] retained; counters agree with the history. *)
Theorem ring_recent_spec cap ps n (matches : nat -> bool) :
  (0 < cap)%nat -> NoDup ps ->
  let rb := Add_all (NewRingBuffer cap) ps in
  GetRecent rb n = take (Z.to_nat n) (take cap (rev ps)) /\
  (let n' := Nat.min (Z.to_nat n) (available rb) in
   GetRecentFiltered rb n matches =
     take n' (filter (fun p => matches p = true) (take (scan_limit n') (take cap (rev ps))))) /\
  GetCount rb = length ps /\ GetPosition rb = (length ps `mod` cap)%nat.
Proof.
  intros Hc Hn rb.
  assert (ring_repr rb ps) as Hr by (apply (Add_all_repr ps _ []); [by apply NewRingBuffer_repr|done]).
  assert (capacity rb = cap) as Ecap by (subst rb; by rewrite capacity_Add_all).
  assert (retained rb ps = take cap (rev ps)) as Eret by (unfold retained; by rewrite Ecap).
  assert (length (take cap (rev ps)) = available rb) as Elen.
  { rewrite length_take, length_rev. unfold available. rewrite Ecap, (rr_total rb ps Hr). lia. }
  assert (total rb - available rb + available rb <= length ps)%nat as Hb
    by (unfold available; rewrite (rr_total rb ps Hr); lia).
  assert (length ps <= total rb - available rb + capacity rb)%nat as Hb'
    by (unfold available; rewrite (rr_total rb ps Hr); lia).
  split_and!.
  - unfold GetRecent. destruct (Z.leb_spec n 0); [by rewrite Z2Nat.nonpos by lia|].
    destruct (Nat.eqb_spec (total rb) 0) as [E|_].
    + rewrite (rr_total rb ps Hr) in E. apply nil_length_inv in E. subst ps.
      simpl. by rewrite !take_nil.
    + rewrite (recent_loop_repr rb ps) by done. rewrite (retained_window rb ps Hr), Eret. simpl.
      rewrite Nat.sub_0_r, <- Elen.
      destruct (Nat.le_ge_cases (Z.to_nat n) (length (take cap (rev ps)))).
      * by rewrite Nat.min_l.
      * rewrite Nat.min_r by done. rewrite (take_ge (take cap (rev ps)) (Z.to_nat n)) by lia.
        by apply take_ge.
  - unfold GetRecentFiltered. destruct (Z.leb_spec n 0); [by rewrite Z2Nat.nonpos by lia|].
    destruct (Nat.eqb_spec (available rb) 0) as [E|_]; [by rewrite E, Nat.min_0_r|].
    rewrite (filtered_loop_repr rb ps) by done. rewrite (retained_window rb ps Hr), Eret.
    simpl. by rewrite Nat.sub_0_r.
  - unfold GetCount. apply (rr_total rb ps Hr).
  - unfold GetPosition. by rewrite Ecap, (rr_total rb ps Hr).
Qed.

Lemma ring_recent_spec_witness :
  GetRecent (Add_all (NewRingBuffer 3) [10; 11; 12; 13; 14]%nat) 2 = [14; 13]%nat.
Proof.
  assert (NoDup [10; 11; 12; 13; 14]%nat) as Hn by (apply (bool_decide_unpack _); by vm_compute).
  rewrite (proj1 (ring_recent_spec 3 [10; 11; 12; 13; 14]%nat 2 (fun _ => true) ltac:(lia) Hn)).
  vm_compute. reflexivity.
Defined.

(** C12: Readers are safe under every interleaving of any number of
    concurrent writers: at every moment the result a reader has collected has
    at most the requested length, each of its spots is fully named, the
    identifiers strictly decrease and lie above the slot to be read next; and
    every published slot holds a spot whose identifier belongs to that slot. *)
Theorem ring_concurrent_safe cap s :
  (0 < cap)%nat -> rtc rstep (rinit cap) s ->
  (forall r, rs_reader s = Some r ->
     (length (rd_result r) <= rd_want r)%nat /\
     descending (rs_ring s) (rd_min r + rd_left r) (rd_result r)) /\
  (forall k p, slots (rs_ring s) !! k = Some (Some p) ->
     exists i, ids (rs_ring s) !! p = Some i /\ k = ((i - 1) `mod` capacity (rs_ring s))%nat).
Proof.
  intros Hc Hr. destruct (reachable_inv cap s Hc Hr). split; auto.
Qed.

(** Two writers reserve, the second publishes first, and a reader that started
    in between collects it. *)
Lemma ring_concurrent_safe_witness :
  exists rb ws used r,
    rtc rstep (rinit 2) (mkRstate rb ws used (Some r)) /\ rd_result r = [8]%nat /\
    descending rb (rd_min r + rd_left r) (rd_result r).
Proof.
  assert (exists rb ws used r,
    rtc rstep (rinit 2) (mkRstate rb ws used (Some r)) /\ rd_result r = [8]%nat) as (rb & ws & used & r & H & E).
  { eexists _, _, _, _. split.
    - eapply rtc_l; [apply (rstep_reserve _ _ _ _ 7%nat); set_solver|].
      eapply rtc_l; [apply (rstep_reserve _ _ _ _ 8%nat); set_solver|].
      eapply rtc_l; [apply (rstep_name _ _ _ _ 8%nat 2%nat); reflexivity|].
      eapply rtc_l; [apply (rstep_publish _ _ _ _ 8%nat 2%nat); reflexivity|].
      eapply rtc_l; [apply (rstep_read_start _ _ _ 2%nat)|].
      eapply rtc_l; [apply rstep_read_slot; simpl; lia|]. apply rtc_refl.
    - vm_compute. reflexivity. }
  exists rb, ws, used, r. split_and!; [done|done|].
  exact (proj2 (proj1 (ring_concurrent_safe 2 _ ltac:(lia) H) r eq_refl)).
Defined.
