(* ===== verification/Filter.v ===== *)
(** * Per-client spot filters: data and operations

    Models [src/filter/filter.go] up to the matching function.  A Go
    [map[K]bool] is a [gomap K]: [None] is the nil map, whose reads and [len]
    behave as those of an empty map.  The four fields the source keeps per
    criterion (allow map, block map, all-flag, block-all-flag) are one [domain];
    the eight location criteria are grouped in [NearbyLocationSnapshot], the
    struct the source itself uses to save and restore them.  The package
    variables [defaultModeSelection] and [defaultSourceSelection] are threaded
    explicitly as [Defaults]; [bool] pointers are options.  The receiver is a
    non-nil filter: the [f == nil] guards of the methods have no counterpart. *)

From S2P Require Import Prelude GoText GoNum Callsign Bands Spot.
Local Open Scope string_scope.
Local Open Scope Z_scope.

(** ** Go maps with boolean values *)

Definition gomap (K : Type) `{Countable K} : Type := option (gmap K bool).

Section GoMap.
Context {K : Type} `{Countable K}.

Definition make_if_nil (m : gomap K) : gmap K bool := default ∅ m.
Definition map_len (m : gomap K) : Z := Z.of_nat (size (make_if_nil m)).
Definition map_get (m : gomap K) (k : K) : bool := default false (make_if_nil m !! k).

(** One filter criterion: [X], [BlockX], [AllX] and [BlockAllX]. *)
Record domain := mkDomain {
  allow : gomap K;
  block : gomap K;
  allowAll : bool;
  blockAll : bool
}.

(** The body shared by the [Set...] methods once the token is normalised. *)
Definition set_token (d : domain) (k : K) (enabled : bool) : domain :=
  let a := make_if_nil (allow d) in
  let b := make_if_nil (block d) in
  if enabled then
    let a' := <[k := true]> a in
    mkDomain (Some a') (Some (delete k b)) (map_len (Some a') =? 0) false
  else
    let a' := delete k a in
    mkDomain (Some a') (Some (<[k := true]> b)) (map_len (Some a') =? 0) false.

(** The body shared by the [Reset...] methods. *)
Definition reset_domain : domain := mkDomain (Some ∅) (Some ∅) true false.

(** [X], [BlockX] replaced by fresh maps when nil. *)
Definition ensure_maps (d : domain) : domain :=
  mkDomain (Some (make_if_nil (allow d))) (Some (make_if_nil (block d))) (allowAll d) (blockAll d).

(** [if len(X) == 0 { AllX = true }]. *)
Definition open_when_empty (d : domain) : domain :=
  mkDomain (allow d) (block d) (if map_len (allow d) =? 0 then true else allowAll d) (blockAll d).

(** [copyStringBoolMap] and [copyIntBoolMap]: a fresh map, never nil.  Maps are
    values here, so the copy of a non-empty map is the map. *)
Definition copyBoolMap (src : gomap K) : gomap K :=
  if map_len src =? 0 then Some ∅ else Some (make_if_nil src).

Definition copy_domain (d : domain) : domain :=
  mkDomain (copyBoolMap (allow d)) (copyBoolMap (block d)) (allowAll d) (blockAll d).
End GoMap.
Arguments domain K {_ _}.

(** ** The filter *)

Record NearbyLocationSnapshot := mkLocation {
  DXContinents : domain string;
  DEContinents : domain string;
  DXZones : domain Z;
  DEZones : domain Z;
  DXGrid2Prefixes : domain string;
  DEGrid2Prefixes : domain string;
  DXDXCC : domain Z;
  DEDXCC : domain Z
}.

Definition set_DXContinents (x : domain string) (l : NearbyLocationSnapshot) : NearbyLocationSnapshot :=
  mkLocation
    x (DEContinents l) (DXZones l) (DEZones l) (DXGrid2Prefixes l) (DEGrid2Prefixes l)
    (DXDXCC l) (DEDXCC l).
Definition set_DEContinents (x : domain string) (l : NearbyLocationSnapshot) : NearbyLocationSnapshot :=
  mkLocation
    (DXContinents l) x (DXZones l) (DEZones l) (DXGrid2Prefixes l) (DEGrid2Prefixes l)
    (DXDXCC l) (DEDXCC l).
Definition set_DXZones (x : domain Z) (l : NearbyLocationSnapshot) : NearbyLocationSnapshot :=
  mkLocation
    (DXContinents l) (DEContinents l) x (DEZones l) (DXGrid2Prefixes l)
    (DEGrid2Prefixes l) (DXDXCC l) (DEDXCC l).
Definition set_DEZones (x : domain Z) (l : NearbyLocationSnapshot) : NearbyLocationSnapshot :=
  mkLocation
    (DXContinents l) (DEContinents l) (DXZones l) x (DXGrid2Prefixes l)
    (DEGrid2Prefixes l) (DXDXCC l) (DEDXCC l).
Definition set_DXGrid2Prefixes (x : domain string) (l : NearbyLocationSnapshot) : NearbyLocationSnapshot :=
  mkLocation
    (DXContinents l) (DEContinents l) (DXZones l) (DEZones l) x (DEGrid2Prefixes l)
    (DXDXCC l) (DEDXCC l).
Definition set_DEGrid2Prefixes (x : domain string) (l : NearbyLocationSnapshot) : NearbyLocationSnapshot :=
  mkLocation
    (DXContinents l) (DEContinents l) (DXZones l) (DEZones l) (DXGrid2Prefixes l) x
    (DXDXCC l) (DEDXCC l).
Definition set_DXDXCC (x : domain Z) (l : NearbyLocationSnapshot) : NearbyLocationSnapshot :=
  mkLocation
    (DXContinents l) (DEContinents l) (DXZones l) (DEZones l) (DXGrid2Prefixes l)
    (DEGrid2Prefixes l) x (DEDXCC l).
Definition set_DEDXCC (x : domain Z) (l : NearbyLocationSnapshot) : NearbyLocationSnapshot :=
  mkLocation
    (DXContinents l) (DEContinents l) (DXZones l) (DEZones l) (DXGrid2Prefixes l)
    (DEGrid2Prefixes l) (DXDXCC l) x.

Record Filter := mkFilter {
  Bands : domain string;
  Modes : domain string;
  Sources : domain string;
  ConfidenceGlyphs : domain string;
  PathClasses : domain string;
  Location : NearbyLocationSnapshot;
  DXCallsigns : list string;
  BlockDXCallsigns : list string;
  DECallsigns : list string;
  BlockDECallsigns : list string;
  IncludeBeacons : option bool;
  AllowWWV : option bool;
  AllowWCY : option bool;
  AllowAnnounce : option bool;
  AllowSelf : option bool;
  NearbyEnabled : bool;
  NearbySnapshot : option NearbyLocationSnapshot;
  NearbyUserFine : Z;
  NearbyUserCoarse : Z;
  LegacyMinConfidence : Z
}.

Definition set_Bands (x : domain string) (f : Filter) : Filter :=
  mkFilter
    x (Modes f) (Sources f) (ConfidenceGlyphs f) (PathClasses f) (Location f)
    (DXCallsigns f) (BlockDXCallsigns f) (DECallsigns f) (BlockDECallsigns f)
    (IncludeBeacons f) (AllowWWV f) (AllowWCY f) (AllowAnnounce f) (AllowSelf f)
    (NearbyEnabled f) (NearbySnapshot f) (NearbyUserFine f) (NearbyUserCoarse f)
    (LegacyMinConfidence f).
Definition set_Modes (x : domain string) (f : Filter) : Filter :=
  mkFilter
    (Bands f) x (Sources f) (ConfidenceGlyphs f) (PathClasses f) (Location f)
    (DXCallsigns f) (BlockDXCallsigns f) (DECallsigns f) (BlockDECallsigns f)
    (IncludeBeacons f) (AllowWWV f) (AllowWCY f) (AllowAnnounce f) (AllowSelf f)
    (NearbyEnabled f) (NearbySnapshot f) (NearbyUserFine f) (NearbyUserCoarse f)
    (LegacyMinConfidence f).
Definition set_Sources (x : domain string) (f : Filter) : Filter :=
  mkFilter
    (Bands f) (Modes f) x (ConfidenceGlyphs f) (PathClasses f) (Location f)
    (DXCallsigns f) (BlockDXCallsigns f) (DECallsigns f) (BlockDECallsigns f)
    (IncludeBeacons f) (AllowWWV f) (AllowWCY f) (AllowAnnounce f) (AllowSelf f)
    (NearbyEnabled f) (NearbySnapshot f) (NearbyUserFine f) (NearbyUserCoarse f)
    (LegacyMinConfidence f).
Definition set_ConfidenceGlyphs (x : domain string) (f : Filter) : Filter :=
  mkFilter
    (Bands f) (Modes f) (Sources f) x (PathClasses f) (Location f) (DXCallsigns f)
    (BlockDXCallsigns f) (DECallsigns f) (BlockDECallsigns f) (IncludeBeacons f)
    (AllowWWV f) (AllowWCY f) (AllowAnnounce f) (AllowSelf f) (NearbyEnabled f)
    (NearbySnapshot f) (NearbyUserFine f) (NearbyUserCoarse f) (LegacyMinConfidence f).
Definition set_PathClasses (x : domain string) (f : Filter) : Filter :=
  mkFilter
    (Bands f) (Modes f) (Sources f) (ConfidenceGlyphs f) x (Location f) (DXCallsigns f)
    (BlockDXCallsigns f) (DECallsigns f) (BlockDECallsigns f) (IncludeBeacons f)
    (AllowWWV f) (AllowWCY f) (AllowAnnounce f) (AllowSelf f) (NearbyEnabled f)
    (NearbySnapshot f) (NearbyUserFine f) (NearbyUserCoarse f) (LegacyMinConfidence f).
Definition set_Location (x : NearbyLocationSnapshot) (f : Filter) : Filter :=
  mkFilter
    (Bands f) (Modes f) (Sources f) (ConfidenceGlyphs f) (PathClasses f) x
    (DXCallsigns f) (BlockDXCallsigns f) (DECallsigns f) (BlockDECallsigns f)
    (IncludeBeacons f) (AllowWWV f) (AllowWCY f) (AllowAnnounce f) (AllowSelf f)
    (NearbyEnabled f) (NearbySnapshot f) (NearbyUserFine f) (NearbyUserCoarse f)
    (LegacyMinConfidence f).
Definition set_DXCallsigns (x : list string) (f : Filter) : Filter :=
  mkFilter
    (Bands f) (Modes f) (Sources f) (ConfidenceGlyphs f) (PathClasses f) (Location f) x
    (BlockDXCallsigns f) (DECallsigns f) (BlockDECallsigns f) (IncludeBeacons f)
    (AllowWWV f) (AllowWCY f) (AllowAnnounce f) (AllowSelf f) (NearbyEnabled f)
    (NearbySnapshot f) (NearbyUserFine f) (NearbyUserCoarse f) (LegacyMinConfidence f).
Definition set_BlockDXCallsigns (x : list string) (f : Filter) : Filter :=
  mkFilter
    (Bands f) (Modes f) (Sources f) (ConfidenceGlyphs f) (PathClasses f) (Location f)
    (DXCallsigns f) x (DECallsigns f) (BlockDECallsigns f) (IncludeBeacons f)
    (AllowWWV f) (AllowWCY f) (AllowAnnounce f) (AllowSelf f) (NearbyEnabled f)
    (NearbySnapshot f) (NearbyUserFine f) (NearbyUserCoarse f) (LegacyMinConfidence f).
Definition set_DECallsigns (x : list string) (f : Filter) : Filter :=
  mkFilter
    (Bands f) (Modes f) (Sources f) (ConfidenceGlyphs f) (PathClasses f) (Location f)
    (DXCallsigns f) (BlockDXCallsigns f) x (BlockDECallsigns f) (IncludeBeacons f)
    (AllowWWV f) (AllowWCY f) (AllowAnnounce f) (AllowSelf f) (NearbyEnabled f)
    (NearbySnapshot f) (NearbyUserFine f) (NearbyUserCoarse f) (LegacyMinConfidence f).
Definition set_BlockDECallsigns (x : list string) (f : Filter) : Filter :=
  mkFilter
    (Bands f) (Modes f) (Sources f) (ConfidenceGlyphs f) (PathClasses f) (Location f)
    (DXCallsigns f) (BlockDXCallsigns f) (DECallsigns f) x (IncludeBeacons f)
    (AllowWWV f) (AllowWCY f) (AllowAnnounce f) (AllowSelf f) (NearbyEnabled f)
    (NearbySnapshot f) (NearbyUserFine f) (NearbyUserCoarse f) (LegacyMinConfidence f).
Definition set_IncludeBeacons (x : option bool) (f : Filter) : Filter :=
  mkFilter
    (Bands f) (Modes f) (Sources f) (ConfidenceGlyphs f) (PathClasses f) (Location f)
    (DXCallsigns f) (BlockDXCallsigns f) (DECallsigns f) (BlockDECallsigns f) x
    (AllowWWV f) (AllowWCY f) (AllowAnnounce f) (AllowSelf f) (NearbyEnabled f)
    (NearbySnapshot f) (NearbyUserFine f) (NearbyUserCoarse f) (LegacyMinConfidence f).
Definition set_AllowWWV (x : option bool) (f : Filter) : Filter :=
  mkFilter
    (Bands f) (Modes f) (Sources f) (ConfidenceGlyphs f) (PathClasses f) (Location f)
    (DXCallsigns f) (BlockDXCallsigns f) (DECallsigns f) (BlockDECallsigns f)
    (IncludeBeacons f) x (AllowWCY f) (AllowAnnounce f) (AllowSelf f) (NearbyEnabled f)
    (NearbySnapshot f) (NearbyUserFine f) (NearbyUserCoarse f) (LegacyMinConfidence f).
Definition set_AllowWCY (x : option bool) (f : Filter) : Filter :=
  mkFilter
    (Bands f) (Modes f) (Sources f) (ConfidenceGlyphs f) (PathClasses f) (Location f)
    (DXCallsigns f) (BlockDXCallsigns f) (DECallsigns f) (BlockDECallsigns f)
    (IncludeBeacons f) (AllowWWV f) x (AllowAnnounce f) (AllowSelf f) (NearbyEnabled f)
    (NearbySnapshot f) (NearbyUserFine f) (NearbyUserCoarse f) (LegacyMinConfidence f).
Definition set_AllowAnnounce (x : option bool) (f : Filter) : Filter :=
  mkFilter
    (Bands f) (Modes f) (Sources f) (ConfidenceGlyphs f) (PathClasses f) (Location f)
    (DXCallsigns f) (BlockDXCallsigns f) (DECallsigns f) (BlockDECallsigns f)
    (IncludeBeacons f) (AllowWWV f) (AllowWCY f) x (AllowSelf f) (NearbyEnabled f)
    (NearbySnapshot f) (NearbyUserFine f) (NearbyUserCoarse f) (LegacyMinConfidence f).
Definition set_AllowSelf (x : option bool) (f : Filter) : Filter :=
  mkFilter
    (Bands f) (Modes f) (Sources f) (ConfidenceGlyphs f) (PathClasses f) (Location f)
    (DXCallsigns f) (BlockDXCallsigns f) (DECallsigns f) (BlockDECallsigns f)
    (IncludeBeacons f) (AllowWWV f) (AllowWCY f) (AllowAnnounce f) x (NearbyEnabled f)
    (NearbySnapshot f) (NearbyUserFine f) (NearbyUserCoarse f) (LegacyMinConfidence f).
Definition set_NearbyEnabled (x : bool) (f : Filter) : Filter :=
  mkFilter
    (Bands f) (Modes f) (Sources f) (ConfidenceGlyphs f) (PathClasses f) (Location f)
    (DXCallsigns f) (BlockDXCallsigns f) (DECallsigns f) (BlockDECallsigns f)
    (IncludeBeacons f) (AllowWWV f) (AllowWCY f) (AllowAnnounce f) (AllowSelf f) x
    (NearbySnapshot f) (NearbyUserFine f) (NearbyUserCoarse f) (LegacyMinConfidence f).
Definition set_NearbySnapshot (x : option NearbyLocationSnapshot) (f : Filter) : Filter :=
  mkFilter
    (Bands f) (Modes f) (Sources f) (ConfidenceGlyphs f) (PathClasses f) (Location f)
    (DXCallsigns f) (BlockDXCallsigns f) (DECallsigns f) (BlockDECallsigns f)
    (IncludeBeacons f) (AllowWWV f) (AllowWCY f) (AllowAnnounce f) (AllowSelf f)
    (NearbyEnabled f) x (NearbyUserFine f) (NearbyUserCoarse f) (LegacyMinConfidence f).
Definition set_NearbyUserFine (x : Z) (f : Filter) : Filter :=
  mkFilter
    (Bands f) (Modes f) (Sources f) (ConfidenceGlyphs f) (PathClasses f) (Location f)
    (DXCallsigns f) (BlockDXCallsigns f) (DECallsigns f) (BlockDECallsigns f)
    (IncludeBeacons f) (AllowWWV f) (AllowWCY f) (AllowAnnounce f) (AllowSelf f)
    (NearbyEnabled f) (NearbySnapshot f) x (NearbyUserCoarse f) (LegacyMinConfidence f).
Definition set_NearbyUserCoarse (x : Z) (f : Filter) : Filter :=
  mkFilter
    (Bands f) (Modes f) (Sources f) (ConfidenceGlyphs f) (PathClasses f) (Location f)
    (DXCallsigns f) (BlockDXCallsigns f) (DECallsigns f) (BlockDECallsigns f)
    (IncludeBeacons f) (AllowWWV f) (AllowWCY f) (AllowAnnounce f) (AllowSelf f)
    (NearbyEnabled f) (NearbySnapshot f) (NearbyUserFine f) x (LegacyMinConfidence f).
Definition set_LegacyMinConfidence (x : Z) (f : Filter) : Filter :=
  mkFilter
    (Bands f) (Modes f) (Sources f) (ConfidenceGlyphs f) (PathClasses f) (Location f)
    (DXCallsigns f) (BlockDXCallsigns f) (DECallsigns f) (BlockDECallsigns f)
    (IncludeBeacons f) (AllowWWV f) (AllowWCY f) (AllowAnnounce f) (AllowSelf f)
    (NearbyEnabled f) (NearbySnapshot f) (NearbyUserFine f) (NearbyUserCoarse f) x.

(** Location criteria are updated through the filter. *)
Definition update_location (g : NearbyLocationSnapshot -> NearbyLocationSnapshot) (f : Filter) :
    Filter := set_Location (g (Location f)) f.

(** ** Tokens *)

Definition SupportedModes : list string :=
  ["CW"; "FT4"; "FT8"; "JS8"; "LSB"; "USB"; "RTTY"; "MSK144"; "PSK"; "SSTV"].
Definition SupportedSources : list string := ["HUMAN"; "SKIMMER"].
Definition SupportedContinents : list string := ["AF"; "AN"; "AS"; "EU"; "NA"; "OC"; "SA"].
Definition minCQZone : Z := 1.
Definition maxCQZone : Z := 40.
Definition SupportedConfidenceSymbols : list string := ["?"; "S"; "C"; "P"; "V"; "B"].
Definition confidenceSymbolScores : gmap string Z :=
  list_to_map [("?", 0); ("S", 25); ("B", 10); ("P", 50); ("V", 100); ("C", 100)].
Definition PathClassInsufficient : string := "INSUFFICIENT".
Definition SupportedPathClasses : list string :=
  ["HIGH"; "MEDIUM"; "LOW"; "UNLIKELY"; PathClassInsufficient].

(** [supported...Set[key]]: membership in the list the set is built from. *)
Definition supported (l : list string) (key : string) : bool := bool_decide (key ∈ l).

Definition canonicalModeToken (mode : string) : string :=
  let mode := ToUpper (TrimSpace mode) in
  let '(canonical, _, ok) := CanonicalPSKMode mode in
  if ok : bool then canonical else mode.

Definition IsSupportedMode (mode : string) : bool :=
  supported SupportedModes (canonicalModeToken mode).

Definition IsSupportedSource (source : string) : bool :=
  supported SupportedSources (ToUpper (TrimSpace source)).

Definition normalizeSource (source : string) : string :=
  let source := ToUpper (TrimSpace source) in
  if supported SupportedSources source then source else "".

Definition IsSupportedContinent (cont : string) : bool :=
  supported SupportedContinents (ToUpper (TrimSpace cont)).

Definition IsSupportedZone (zone : Z) : bool := (minCQZone <=? zone) && (zone <=? maxCQZone).

Definition IsSupportedConfidenceSymbol (symbol : string) : bool :=
  let normalized := ToUpper (TrimSpace symbol) in
  if bool_decide (normalized = "") then false
  else supported SupportedConfidenceSymbols normalized.

Definition normalizeConfidenceSymbol (label : string) : string :=
  let value := TrimSpace label in
  if bool_decide (value = "") then "?"
  else
    let upper := ToUpper value in
    if supported SupportedConfidenceSymbols upper then upper
    else
      match Atoi (TrimSuffix upper "%") with
      | None => ""
      | Some num => if num <=? 25 then "?" else if num <=? 75 then "P" else "V"
      end.

Definition normalizePathClass (label : string) : string :=
  let normalized := ToUpper (TrimSpace label) in
  if bool_decide (normalized = "") then ""
  else if supported SupportedPathClasses normalized then normalized else "".

Definition IsSupportedPathClass (class : string) : bool :=
  let normalized := normalizePathClass class in
  if bool_decide (normalized = "") then false else supported SupportedPathClasses normalized.

Definition confidenceSymbolsForThreshold (threshold : Z) : list string :=
  let threshold := if threshold <? 0 then 0 else threshold in
  let threshold := if 100 <? threshold then 100 else threshold in
  List.filter (fun symbol => threshold <=? default 0 (confidenceSymbolScores !! symbol))
    SupportedConfidenceSymbols.

Definition normalizeGrid2Token (grid : string) : string :=
  let grid := ToUpper (TrimSpace grid) in
  if bool_decide (grid = "") then ""
  else
    let grid := if 2 <? len grid then stake 2 grid else grid in
    if negb (len grid =? 2) then "" else grid.

Definition prefix2 (grid2 : string) : string := if len grid2 <? 2 then "" else stake 2 grid2.

(** ** Default selections (package variables) *)

Record Defaults := mkDefaults {
  defaultModeSelection : list string;
  defaultSourceSelection : list string
}.

Definition builtinModes : list string := ["CW"; "LSB"; "USB"; "RTTY"].
Definition initialDefaults : Defaults := mkDefaults builtinModes [].

Definition SetDefaultModeSelection (modes : list string) (d : Defaults) : Defaults :=
  let set m := mkDefaults m (defaultSourceSelection d) in
  if bool_decide (modes = []) then set builtinModes
  else
    let normalized := List.filter nonempty (map canonicalModeToken modes) in
    if bool_decide (normalized = []) then set builtinModes else set normalized.

(** The loop over [sources]: [None] is the early return on "ALL"; [seen] holds
    exactly the entries of [normalized]. *)
Fixpoint default_source_loop (sources normalized : list string) : option (list string) :=
  match sources with
  | [] => Some normalized
  | source :: rest =>
      let candidate := ToUpper (TrimSpace source) in
      if bool_decide (candidate = "") then default_source_loop rest normalized
      else if bool_decide (candidate = "ALL") then None
      else if negb (supported SupportedSources candidate) then default_source_loop rest normalized
      else if bool_decide (candidate ∈ normalized) then default_source_loop rest normalized
      else default_source_loop rest (normalized ++ [candidate])
  end.

Definition SetDefaultSourceSelection (sources : list string) (d : Defaults) : Defaults :=
  let set s := mkDefaults (defaultModeSelection d) s in
  if bool_decide (sources = []) then set []
  else
    match default_source_loop sources [] with
    | None => set []
    | Some normalized =>
        if bool_decide (normalized = []) || bool_decide (length normalized = length SupportedSources)
        then set [] else set normalized
    end.

(** ** Setters *)

Definition SetBand (band : string) (enabled : bool) (f : Filter) : Filter :=
  let normalized := NormalizeBand band in
  if bool_decide (normalized = "") || negb (IsValidBand normalized) then f
  else set_Bands (set_token (Bands f) normalized enabled) f.

Definition SetMode (mode : string) (enabled : bool) (f : Filter) : Filter :=
  set_Modes (set_token (Modes f) (canonicalModeToken mode) enabled) f.

Definition SetSource (source : string) (enabled : bool) (f : Filter) : Filter :=
  let source := normalizeSource source in
  if bool_decide (source = "") then f
  else set_Sources (set_token (Sources f) source enabled) f.

Definition normalizeCallsignPattern (pattern : string) : string := ToUpper (TrimSpace pattern).

Definition addPatternUnique (l : list string) (pattern : string) : list string :=
  if existsb (fun existing => bool_decide (existing = pattern)) l then l else l ++ [pattern].

Definition removePattern (l : list string) (pattern : string) : list string :=
  List.filter (fun existing => negb (bool_decide (existing = pattern))) l.

Definition AddDXCallsignPattern (pattern : string) (f : Filter) : Filter :=
  let pattern := normalizeCallsignPattern pattern in
  if bool_decide (pattern = "") then f
  else set_BlockDXCallsigns (removePattern (BlockDXCallsigns f) pattern)
         (set_DXCallsigns (addPatternUnique (DXCallsigns f) pattern) f).

Definition AddDECallsignPattern (pattern : string) (f : Filter) : Filter :=
  let pattern := normalizeCallsignPattern pattern in
  if bool_decide (pattern = "") then f
  else set_BlockDECallsigns (removePattern (BlockDECallsigns f) pattern)
         (set_DECallsigns (addPatternUnique (DECallsigns f) pattern) f).

Definition AddBlockDXCallsignPattern (pattern : string) (f : Filter) : Filter :=
  let pattern := normalizeCallsignPattern pattern in
  if bool_decide (pattern = "") then f
  else set_DXCallsigns (removePattern (DXCallsigns f) pattern)
         (set_BlockDXCallsigns (addPatternUnique (BlockDXCallsigns f) pattern) f).

Definition AddBlockDECallsignPattern (pattern : string) (f : Filter) : Filter :=
  let pattern := normalizeCallsignPattern pattern in
  if bool_decide (pattern = "") then f
  else set_DECallsigns (removePattern (DECallsigns f) pattern)
         (set_BlockDECallsigns (addPatternUnique (BlockDECallsigns f) pattern) f).

Definition SetDXContinent (cont : string) (enabled : bool) (f : Filter) : Filter :=
  let cont := ToUpper (TrimSpace cont) in
  if negb (IsSupportedContinent cont) then f
  else update_location (fun l => set_DXContinents (set_token (DXContinents l) cont enabled) l) f.

Definition SetDEContinent (cont : string) (enabled : bool) (f : Filter) : Filter :=
  let cont := ToUpper (TrimSpace cont) in
  if negb (IsSupportedContinent cont) then f
  else update_location (fun l => set_DEContinents (set_token (DEContinents l) cont enabled) l) f.

Definition SetDXZone (zone : Z) (enabled : bool) (f : Filter) : Filter :=
  if negb (IsSupportedZone zone) then f
  else update_location (fun l => set_DXZones (set_token (DXZones l) zone enabled) l) f.

Definition SetDEZone (zone : Z) (enabled : bool) (f : Filter) : Filter :=
  if negb (IsSupportedZone zone) then f
  else update_location (fun l => set_DEZones (set_token (DEZones l) zone enabled) l) f.

Definition SetDXDXCC (code : Z) (enabled : bool) (f : Filter) : Filter :=
  if code <=? 0 then f
  else update_location (fun l => set_DXDXCC (set_token (DXDXCC l) code enabled) l) f.

Definition SetDEDXCC (code : Z) (enabled : bool) (f : Filter) : Filter :=
  if code <=? 0 then f
  else update_location (fun l => set_DEDXCC (set_token (DEDXCC l) code enabled) l) f.

Definition SetDXGrid2Prefix (grid : string) (enabled : bool) (f : Filter) : Filter :=
  let token := normalizeGrid2Token grid in
  if bool_decide (token = "") then f
  else update_location (fun l => set_DXGrid2Prefixes (set_token (DXGrid2Prefixes l) token enabled) l) f.

Definition SetDEGrid2Prefix (grid : string) (enabled : bool) (f : Filter) : Filter :=
  let token := normalizeGrid2Token grid in
  if bool_decide (token = "") then f
  else update_location (fun l => set_DEGrid2Prefixes (set_token (DEGrid2Prefixes l) token enabled) l) f.

Definition SetConfidenceSymbol (symbol : string) (enabled : bool) (f : Filter) : Filter :=
  let canonical := normalizeConfidenceSymbol symbol in
  if bool_decide (canonical = "") then f
  else set_ConfidenceGlyphs (set_token (ConfidenceGlyphs f) canonical enabled) f.

Definition SetPathClass (class : string) (enabled : bool) (f : Filter) : Filter :=
  let canonical := normalizePathClass class in
  if bool_decide (canonical = "") then f
  else set_PathClasses (set_token (PathClasses f) canonical enabled) f.

Definition SetBeaconEnabled (enabled : bool) (f : Filter) : Filter :=
  set_IncludeBeacons (Some enabled) f.
Definition SetWWVEnabled (enabled : bool) (f : Filter) : Filter := set_AllowWWV (Some enabled) f.
Definition SetWCYEnabled (enabled : bool) (f : Filter) : Filter := set_AllowWCY (Some enabled) f.
Definition SetAnnounceEnabled (enabled : bool) (f : Filter) : Filter :=
  set_AllowAnnounce (Some enabled) f.
Definition SetSelfEnabled (enabled : bool) (f : Filter) : Filter := set_AllowSelf (Some enabled) f.

(** ** Tri-state readers *)

Definition BeaconsEnabled (f : Filter) : bool := default true (IncludeBeacons f).
Definition WWVEnabled (f : Filter) : bool := default true (AllowWWV f).
Definition WCYEnabled (f : Filter) : bool := default true (AllowWCY f).
Definition AnnounceEnabled (f : Filter) : bool := default true (AllowAnnounce f).
Definition SelfEnabled (f : Filter) : bool := default true (AllowSelf f).

Definition AllowsBulletin (kind : string) (f : Filter) : bool :=
  let kind := ToUpper (TrimSpace kind) in
  if bool_decide (kind ∈ ["WWV"; "PC23"]) then WWVEnabled f
  else if bool_decide (kind ∈ ["WCY"; "PC73"]) then WCYEnabled f
  else if bool_decide (kind ∈ ["ANNOUNCE"; "PC93"]) then AnnounceEnabled f
  else true.

(** ** Resets *)

Definition ClearDXCallsignPatterns (f : Filter) : Filter := set_DXCallsigns [] f.
Definition ClearDECallsignPatterns (f : Filter) : Filter := set_DECallsigns [] f.
Definition ClearDXCallsignBlockPatterns (f : Filter) : Filter := set_BlockDXCallsigns [] f.
Definition ClearDECallsignBlockPatterns (f : Filter) : Filter := set_BlockDECallsigns [] f.
Definition ClearCallsignPatterns (f : Filter) : Filter :=
  ClearDECallsignBlockPatterns (ClearDXCallsignBlockPatterns
    (ClearDECallsignPatterns (ClearDXCallsignPatterns f))).

Definition ResetBands (f : Filter) : Filter := set_Bands reset_domain f.
Definition ResetModes (f : Filter) : Filter := set_Modes reset_domain f.
Definition ResetSources (f : Filter) : Filter := set_Sources reset_domain f.
Definition ResetConfidence (f : Filter) : Filter :=
  set_LegacyMinConfidence 0 (set_ConfidenceGlyphs reset_domain f).
Definition ResetPathClasses (f : Filter) : Filter := set_PathClasses reset_domain f.
Definition ResetDXContinents (f : Filter) : Filter := update_location (set_DXContinents reset_domain) f.
Definition ResetDEContinents (f : Filter) : Filter := update_location (set_DEContinents reset_domain) f.
Definition ResetDXZones (f : Filter) : Filter := update_location (set_DXZones reset_domain) f.
Definition ResetDEZones (f : Filter) : Filter := update_location (set_DEZones reset_domain) f.
Definition ResetDXGrid2 (f : Filter) : Filter := update_location (set_DXGrid2Prefixes reset_domain) f.
Definition ResetDEGrid2 (f : Filter) : Filter := update_location (set_DEGrid2Prefixes reset_domain) f.
Definition ResetDXDXCC (f : Filter) : Filter := update_location (set_DXDXCC reset_domain) f.
Definition ResetDEDXCC (f : Filter) : Filter := update_location (set_DEDXCC reset_domain) f.

(** ** NEARBY *)

Definition InvalidCell : Z := 0.

Definition copy_location (l : NearbyLocationSnapshot) : NearbyLocationSnapshot :=
  mkLocation (copy_domain (DXContinents l)) (copy_domain (DEContinents l))
    (copy_domain (DXZones l)) (copy_domain (DEZones l))
    (copy_domain (DXGrid2Prefixes l)) (copy_domain (DEGrid2Prefixes l))
    (copy_domain (DXDXCC l)) (copy_domain (DEDXCC l)).

Definition captureLocationSnapshot (f : Filter) : NearbyLocationSnapshot :=
  copy_location (Location f).

Definition restoreLocationSnapshot (snapshot : NearbyLocationSnapshot) (f : Filter) : Filter :=
  set_Location (copy_location snapshot) f.

Definition UpdateNearbyUserCells (userFine userCoarse : Z) (f : Filter) : Filter :=
  set_NearbyUserCoarse userCoarse (set_NearbyUserFine userFine f).

(** The error ([None] is nil) and the filter after the call. *)
Definition EnableNearby (userFine userCoarse : Z) (f : Filter) : option string * Filter :=
  if (userFine =? InvalidCell) || (userCoarse =? InvalidCell) then (Some "invalid user cell", f)
  else
    let f := match NearbySnapshot f with
             | None => set_NearbySnapshot (Some (captureLocationSnapshot f)) f
             | Some _ => f
             end in
    (None, UpdateNearbyUserCells userFine userCoarse (set_NearbyEnabled true f)).

Definition DisableNearby (f : Filter) : Filter :=
  let f := match NearbySnapshot f with
           | Some snapshot => restoreLocationSnapshot snapshot f
           | None => f
           end in
  UpdateNearbyUserCells InvalidCell InvalidCell (set_NearbySnapshot None (set_NearbyEnabled false f)).

Definition NearbyActive (f : Filter) : bool := NearbyEnabled f.

Definition Reset (f : Filter) : Filter :=
  let f := ResetBands f in
  let f := ResetModes f in
  let f := ResetSources f in
  let f := ClearCallsignPatterns f in
  let f := ResetConfidence f in
  let f := ResetPathClasses f in
  let f := ResetDXContinents f in
  let f := ResetDEContinents f in
  let f := ResetDXZones f in
  let f := ResetDEZones f in
  let f := ResetDXGrid2 f in
  let f := ResetDEGrid2 f in
  let f := ResetDXDXCC f in
  let f := ResetDEDXCC f in
  let f := SetBeaconEnabled true f in
  let f := SetWWVEnabled true f in
  let f := SetWCYEnabled true f in
  let f := SetAnnounceEnabled true f in
  let f := SetSelfEnabled true f in
  DisableNearby f.

(** ** Construction *)

Definition emptyLocation : NearbyLocationSnapshot :=
  mkLocation reset_domain reset_domain reset_domain reset_domain
    reset_domain reset_domain reset_domain reset_domain.

Definition NewFilter (d : Defaults) : Filter :=
  let f := mkFilter reset_domain (mkDomain (Some ∅) (Some ∅) false false) reset_domain
    reset_domain reset_domain emptyLocation [] [] [] []
    None (Some true) (Some true) (Some true) (Some true)
    false None InvalidCell InvalidCell 0 in
  let modes := foldl (fun m mode => <[mode := true]> m) ∅ (defaultModeSelection d) in
  let f := set_Modes (mkDomain (Some modes) (Some ∅) false false) f in
  let f := foldl (fun f source => SetSource source true f) f (defaultSourceSelection d) in
  SetBeaconEnabled true f.

Definition ResetToDefaults (d : Defaults) (f : Filter) : Filter := NewFilter d.

(** ** Repair of filters loaded from disk *)

Definition PathFilterActive (f : Filter) : bool :=
  if blockAll (PathClasses f) then true
  else if negb (allowAll (PathClasses f)) then true
  else (0 <? map_len (allow (PathClasses f))) || (0 <? map_len (block (PathClasses f))).

Definition set_allow {K} `{Countable K} (a : gomap K) (d : domain K) : domain K :=
  mkDomain a (block d) (allowAll d) (blockAll d).
Definition set_allowAll {K} `{Countable K} (v : bool) (d : domain K) : domain K :=
  mkDomain (allow d) (block d) v (blockAll d).

Definition migrateLegacyConfidence (f : Filter) : Filter :=
  let f := set_ConfidenceGlyphs
             (set_allow (Some (make_if_nil (allow (ConfidenceGlyphs f)))) (ConfidenceGlyphs f)) f in
  let f :=
    if 0 <? LegacyMinConfidence f then
      let c := foldl (fun m symbol => <[symbol := true]> m) (make_if_nil (allow (ConfidenceGlyphs f)))
                 (confidenceSymbolsForThreshold (LegacyMinConfidence f)) in
      let d := set_allow (Some c) (ConfidenceGlyphs f) in
      let d := if 0 <? map_len (Some c) then set_allowAll false d else d in
      set_LegacyMinConfidence 0 (set_ConfidenceGlyphs d f)
    else f in
  let f := set_ConfidenceGlyphs (open_when_empty (ConfidenceGlyphs f)) f in
  set_PathClasses (open_when_empty (PathClasses f)) f.

(** The body of the range loops of [migratePSKModes] for one key. *)
Definition migrate_psk_key (m : gmap string bool) (mode : string) : gmap string bool :=
  let '(canonical, _, ok) := CanonicalPSKMode mode in
  if (ok : bool) && nonempty canonical && negb (bool_decide (canonical = mode))
  then delete mode (<[canonical := true]> m) else m.

(** The loops visit the keys in an unspecified order [order]. *)
Definition migrate_psk_keys (order : list string) (m : gmap string bool) : gmap string bool :=
  foldl migrate_psk_key m order.

Definition map_keys (m : gmap string bool) : list string := (map_to_list m).*1.

Definition migratePSKModes (f : Filter) : Filter :=
  let a := make_if_nil (allow (Modes f)) in
  let b := make_if_nil (block (Modes f)) in
  let a := migrate_psk_keys (map_keys a) a in
  let b := migrate_psk_keys (map_keys b) b in
  set_Modes (mkDomain (Some a) (Some b) (map_len (Some a) =? 0) (blockAll (Modes f))) f.

(** Nil maps replaced and [All...] opened for an empty allow map. *)
Definition normalize_domain {K} `{Countable K} (d : domain K) : domain K :=
  open_when_empty (ensure_maps d).

Definition normalize_location (l : NearbyLocationSnapshot) : NearbyLocationSnapshot :=
  mkLocation (normalize_domain (DXContinents l)) (normalize_domain (DEContinents l))
    (normalize_domain (DXZones l)) (normalize_domain (DEZones l))
    (normalize_domain (DXGrid2Prefixes l)) (normalize_domain (DEGrid2Prefixes l))
    (normalize_domain (DXDXCC l)) (normalize_domain (DEDXCC l)).

Definition normalizeDefaults (f : Filter) : Filter :=
  let f := set_Bands (ensure_maps (Bands f)) f in
  let f := set_Modes (ensure_maps (Modes f)) f in
  let f := migratePSKModes f in
  let f := set_AllowWWV (Some (WWVEnabled f)) f in
  let f := set_AllowWCY (Some (WCYEnabled f)) f in
  let f := set_AllowAnnounce (Some (AnnounceEnabled f)) f in
  let f := set_AllowSelf (Some (SelfEnabled f)) f in
  let f := set_Bands (open_when_empty (Bands f)) f in
  let f := set_Modes (open_when_empty (Modes f)) f in
  let f := set_Sources (normalize_domain (Sources f)) f in
  let f := set_ConfidenceGlyphs (normalize_domain (ConfidenceGlyphs f)) f in
  let f := set_PathClasses (normalize_domain (PathClasses f)) f in
  let f := set_Location (normalize_location (Location f)) f in
  UpdateNearbyUserCells InvalidCell InvalidCell (set_NearbySnapshot None f).
