(* ===== verification/FilterMatch.v ===== *)
(** * Matching a spot against a filter

    Models the matching half of [src/filter/filter.go]: the deny-first token
    checks, the callsign wildcards, NEARBY, and [matchesWithPath], and shows
    what a verdict means.  The encoders of [pathreliability] (they consult H3
    tables) are parameters of the section. *)

From S2P Require Import Prelude GoText GoNum Callsign Bands Spot Filter.
Local Open Scope string_scope.
Local Open Scope Z_scope.

(** ** Token checks *)

(** [safeTrimSpace]: trimming cannot panic on a string value. *)
Definition safeTrimSpace (s : string) : string := TrimSpace s.

Definition passesStringFilter (token : string) (d : domain string) : bool :=
  if blockAll d then false
  else
    let token := safeTrimSpace token in
    if (0 <? map_len (block d)) && map_get (block d) token then false
    else if negb (allowAll d) && (map_len (allow d) =? 0) then false
    else if (0 <? map_len (allow d))
            && (bool_decide (token = "") || negb (map_get (allow d) token)) then false
    else true.

Definition passesIntFilter (token : Z) (d : domain Z) (validator : option (Z -> bool)) : bool :=
  if blockAll d then false
  else if (0 <? map_len (block d)) && map_get (block d) token then false
  else
    let unknown := match validator with Some v => negb (v token) | None => false end in
    if unknown then
      if (0 <? map_len (allow d)) || negb (allowAll d) then false else true
    else if negb (allowAll d) && (map_len (allow d) =? 0) then false
    else if (0 <? map_len (allow d)) && negb (map_get (allow d) token) then false
    else true.

Definition matchesCallsignPattern (callsign pattern : string) : bool :=
  let callsign := ToUpper callsign in
  let pattern := ToUpper pattern in
  if bool_decide (callsign = pattern) then true
  else if HasSuffix pattern "*" then HasPrefix callsign (TrimSuffix pattern "*")
  else if HasPrefix pattern "*" then HasSuffix callsign (TrimPrefix pattern "*")
  else false.

Definition isConfidenceExemptMode (mode : string) : bool :=
  bool_decide (ToUpper (TrimSpace mode) ∈ ["FT8"; "FT4"; "PSK"; "MSK144"]).

(** Block patterns first, then the allow patterns when there are any. *)
Definition passesPatterns (call : string) (blocked allowed : list string) : bool :=
  if (0 <? Z.of_nat (length blocked)) && existsb (matchesCallsignPattern call) blocked then false
  else if (0 <? Z.of_nat (length allowed)) && negb (existsb (matchesCallsignPattern call) allowed)
  then false
  else true.

Definition ConfidenceSymbolEnabled (symbol : string) (f : Filter) : bool :=
  if allowAll (ConfidenceGlyphs f) then true
  else
    let canonical := normalizeConfidenceSymbol symbol in
    if bool_decide (canonical = "") then false else map_get (allow (ConfidenceGlyphs f)) canonical.

(** ** The tokens of a spot *)

(** [v := cached; if v == "" { v = computed }]. *)
Definition or_else (cached computed : string) : string :=
  if bool_decide (cached = "") then computed else cached.

Definition spot_mode (s : Spot) : string := or_else (ModeNorm s) (ToUpper (TrimSpace (Mode s))).
Definition spot_band (s : Spot) : string :=
  or_else (NormalizeBand (BandNorm s)) (NormalizeBand (Band s)).
Definition spot_dx_cont (s : Spot) : string :=
  or_else (DXContinentNorm s) (ToUpper (TrimSpace (Continent (DXMetadata s)))).
Definition spot_de_cont (s : Spot) : string :=
  or_else (DEContinentNorm s) (ToUpper (TrimSpace (Continent (DEMetadata s)))).
Definition spot_dx_grid2 (s : Spot) : string :=
  or_else (DXGrid2 s) (normalizeGrid2Token (Grid (DXMetadata s))).
Definition spot_de_grid2 (s : Spot) : string :=
  or_else (DEGrid2 s) (normalizeGrid2Token (Grid (DEMetadata s))).
Definition spot_source (s : Spot) : string := if IsHuman s then "HUMAN" else "SKIMMER".
Definition spot_de_call (s : Spot) : string :=
  if bool_decide (DECallStripped s = "") then DECall s else DECallStripped s.

Section Matching.
Variable EncodeCell : string -> Z.
Variable EncodeCoarseCell : string -> Z.

Definition nearbySpotCells (s : Spot) (useCoarse : bool) : Z * Z :=
  let dxGrid := TrimSpace (Grid (DXMetadata s)) in
  let deGrid := TrimSpace (Grid (DEMetadata s)) in
  if bool_decide (dxGrid = "") || bool_decide (deGrid = "") then (InvalidCell, InvalidCell)
  else if useCoarse then (EncodeCoarseCell dxGrid, EncodeCoarseCell deGrid)
  else
    ((if DXCellID s =? InvalidCell then EncodeCell dxGrid else DXCellID s),
     (if DECellID s =? InvalidCell then EncodeCell deGrid else DECellID s)).

Definition unknown_band (b : string) : bool := bool_decide (b = "") || bool_decide (b = "???").

Definition matchesNearby (f : Filter) (s : Spot) (bandNorm : string) : bool :=
  let bandNorm := if unknown_band bandNorm then NormalizeBand (FreqToBand (Frequency s)) else bandNorm in
  if unknown_band bandNorm then false
  else
    let useCoarse := bool_decide (bandNorm ∈ ["160m"; "80m"; "60m"]) in
    let userCell := if useCoarse then NearbyUserCoarse f else NearbyUserFine f in
    if userCell =? InvalidCell then false
    else
      let '(dxCell, deCell) := nearbySpotCells s useCoarse in
      if (dxCell =? InvalidCell) || (deCell =? InvalidCell) then false
      else (userCell =? dxCell) || (userCell =? deCell).

(** The location checks of [matchesWithPath] when NEARBY is off. *)
Definition passesLocation (l : NearbyLocationSnapshot) (s : Spot) : bool :=
  if negb (passesStringFilter (spot_dx_cont s) (DXContinents l)) then false
  else if negb (passesStringFilter (spot_de_cont s) (DEContinents l)) then false
  else if negb (passesIntFilter (CQZone (DXMetadata s)) (DXZones l) (Some IsSupportedZone)) then false
  else if negb (passesIntFilter (CQZone (DEMetadata s)) (DEZones l) (Some IsSupportedZone)) then false
  else if negb (passesIntFilter (ADIF (DXMetadata s)) (DXDXCC l) None) then false
  else if negb (passesIntFilter (ADIF (DEMetadata s)) (DEDXCC l) None) then false
  else if negb (passesStringFilter (prefix2 (spot_dx_grid2 s)) (DXGrid2Prefixes l)) then false
  else if negb (passesStringFilter (prefix2 (spot_de_grid2 s)) (DEGrid2Prefixes l)) then false
  else true.

Definition effectivePathClass (pathClass : string) : string :=
  or_else (normalizePathClass pathClass) PathClassInsufficient.

Definition matchesWithPath (f : Filter) (s : Spot) (pathClass : string) : bool :=
  if IsBeacon s && negb (BeaconsEnabled f) then false
  else if negb (passesStringFilter (spot_band s) (Bands f)) then false
  else if negb (passesStringFilter (spot_mode s) (Modes f)) then false
  else if negb (passesStringFilter (spot_source s) (Sources f)) then false
  else if negb (if NearbyEnabled f then matchesNearby f s (spot_band s)
                else passesLocation (Location f) s) then false
  else if negb (passesPatterns (DXCall s) (BlockDXCallsigns f) (DXCallsigns f)) then false
  else if negb (passesPatterns (spot_de_call s) (BlockDECallsigns f) (DECallsigns f)) then false
  else if negb (isConfidenceExemptMode (spot_mode s))
          && negb (passesStringFilter (normalizeConfidenceSymbol (Confidence s)) (ConfidenceGlyphs f))
  then false
  else if negb (passesStringFilter (effectivePathClass pathClass) (PathClasses f)) then false
  else true.

Definition Matches (f : Filter) (s : Spot) : bool := matchesWithPath f s PathClassInsufficient.

End Matching.

(** ** What a criterion admits, as a function of the commands given

    The commands a criterion has seen since it was last open: PASS or REJECT of
    one token, PASS ALL, REJECT ALL.  Histories are kept newest first. *)

Inductive dcmd (K : Type) : Type :=
  | PassTok (k : K)
  | RejectTok (k : K)
  | PassAll
  | RejectAll.
Arguments PassTok {K} k.
Arguments RejectTok {K} k.
Arguments PassAll {K}.
Arguments RejectAll {K}.

Section DomainSpec.
Context {K : Type} `{Countable K}.

(** The last command on [k] since the last ALL. *)
Fixpoint verdict (h : list (dcmd K)) (k : K) : option bool :=
  match h with
  | [] => None
  | PassTok k' :: r => if bool_decide (k = k') then Some true else verdict r k
  | RejectTok k' :: r => if bool_decide (k = k') then Some false else verdict r k
  | PassAll :: _ | RejectAll :: _ => None
  end.

(** REJECT ALL holds until the next command. *)
Definition shut (h : list (dcmd K)) : bool :=
  match h with RejectAll :: _ => true | _ => false end.

Definition admits (h : list (dcmd K)) (k : K) : Prop :=
  shut h = false /\ verdict h k <> Some false /\
  ((exists k', verdict h k' = Some true) -> verdict h k = Some true).

(** What the commands do to a [domain]. *)
Definition domain_step (d : domain K) (c : dcmd K) : domain K :=
  match c with
  | PassTok k => set_token d k true
  | RejectTok k => set_token d k false
  | PassAll => reset_domain
  | RejectAll => mkDomain (Some ∅) (Some ∅) false true
  end.

Definition run_domain (h : list (dcmd K)) : domain K :=
  foldr (fun c d => domain_step d c) reset_domain h.

Lemma map_len_zero (m : gomap K) : (map_len m =? 0) = true <-> make_if_nil m = ∅.
Proof.
  unfold map_len. rewrite Z.eqb_eq, <- map_size_empty_iff. lia.
Qed.

Lemma map_len_pos (m : gomap K) : (0 <? map_len m) = negb (map_len m =? 0).
Proof. unfold map_len. destruct (Z.eqb_spec (Z.of_nat (size (make_if_nil m))) 0); simpl; lia. Qed.

Lemma map_get_true (m : gomap K) k : map_get m k = true <-> make_if_nil m !! k = Some true.
Proof. unfold map_get. destruct (make_if_nil m !! k) as [[]|]; simpl; naive_solver. Qed.

(** The abstraction relation between a history and the stored maps. *)
Record domain_rel (h : list (dcmd K)) (d : domain K) : Prop := {
  rel_allow : forall k, make_if_nil (allow d) !! k = (if bool_decide (verdict h k = Some true) then Some true else None);
  rel_block : forall k, make_if_nil (block d) !! k = (if bool_decide (verdict h k = Some false) then Some true else None);
  rel_blockAll : blockAll d = shut h;
  rel_allowAll : allowAll d = negb (shut h) && (map_len (allow d) =? 0)
}.

Lemma domain_rel_nil : domain_rel [] reset_domain.
Proof. split; intros; simpl; rewrite ?lookup_empty; reflexivity. Qed.

Lemma domain_step_rel h d c : domain_rel h d -> domain_rel (c :: h) (domain_step d c).
Proof.
  intros [Ha Hb _ _]. destruct c; split; intros; simpl; auto;
    rewrite ?lookup_empty; auto;
    destruct (decide (k0 = k)) as [->|Hne];
    rewrite ?lookup_insert_eq, ?lookup_delete_eq, ?lookup_insert_ne, ?lookup_delete_ne by done;
    rewrite ?bool_decide_eq_true_2 with (P := k = k) by done;
    rewrite ?bool_decide_eq_false_2 with (P := k0 = k) by done;
    rewrite ?Ha, ?Hb; reflexivity.
Qed.

Lemma run_domain_rel h : domain_rel h (run_domain h).
Proof. induction h; simpl; auto using domain_rel_nil, domain_step_rel. Qed.

Lemma rel_blocked h d k : domain_rel h d ->
  (0 <? map_len (block d)) && map_get (block d) k = bool_decide (verdict h k = Some false).
Proof.
  intros [_ Hb _ _]. rewrite map_len_pos. apply eq_true_iff_eq.
  rewrite andb_true_iff, negb_true_iff, bool_decide_eq_true, map_get_true, Hb.
  split; [intros [_ Hk]; by case_bool_decide|].
  intros Hv. rewrite bool_decide_eq_true_2 by done. split; [|done].
  apply not_true_iff_false. rewrite map_len_zero. intros Hem.
  specialize (Hb k). rewrite Hem, lookup_empty, bool_decide_eq_true_2 in Hb; done.
Qed.

Lemma rel_listed h d : domain_rel h d ->
  (0 <? map_len (allow d)) = true <-> exists k, verdict h k = Some true.
Proof.
  intros [Ha _ _ _]. rewrite map_len_pos, negb_true_iff, <- not_true_iff_false, map_len_zero.
  split.
  - intros Hne. apply map_choose in Hne as (k & v & Hk). rewrite Ha in Hk.
    exists k. by case_bool_decide.
  - intros [k Hk] Hem. specialize (Ha k). rewrite Hem, lookup_empty, bool_decide_eq_true_2 in Ha; done.
Qed.

Lemma rel_allowed h d k : domain_rel h d ->
  map_get (allow d) k = bool_decide (verdict h k = Some true).
Proof.
  intros [Ha _ _ _]. unfold map_get. rewrite Ha. by case_bool_decide.
Qed.

(** The common core of the two token checks. *)
Lemma rel_admits h d k (extra : bool) : domain_rel h d ->
  (extra = true -> verdict h k <> Some true) ->
  (if blockAll d then false
   else if (0 <? map_len (block d)) && map_get (block d) k then false
   else if negb (allowAll d) && (map_len (allow d) =? 0) then false
   else if (0 <? map_len (allow d)) && (extra || negb (map_get (allow d) k)) then false
   else true) = true <-> admits h k.
Proof.
  intros Hrel Hex. unfold admits.
  rewrite (rel_blocked h d k), (rel_allowed h d k) by done.
  rewrite (rel_blockAll _ _ Hrel), (rel_allowAll _ _ Hrel).
  pose proof (rel_listed h d Hrel) as Hl. rewrite map_len_pos in Hl |- *.
  destruct (shut h); simpl; [naive_solver|].
  destruct (map_len (allow d) =? 0) eqn:Hz; simpl in *.
  - case_bool_decide; simpl; [naive_solver|]. split; [|done]. intros _. repeat split; [done|].
    intros Hk. by apply Hl in Hk.
  - assert (Hsome : exists k', verdict h k' = Some true) by (by apply Hl).
    destruct (verdict h k) as [[]|] eqn:Hv; destruct extra; simpl; naive_solver.
Qed.

End DomainSpec.

(** A string criterion passes exactly the tokens its history admits. *)
Lemma passesStringFilter_admits h d tok :
  domain_rel h d -> verdict h "" <> Some true ->
  passesStringFilter tok d = true <-> admits h (TrimSpace tok).
Proof.
  intros Hrel Hne. unfold passesStringFilter, safeTrimSpace. cbv zeta.
  apply (rel_admits h d (TrimSpace tok) (bool_decide (TrimSpace tok = "")) Hrel).
  intros ->%bool_decide_eq_true. done.
Qed.

(** An integer criterion too, when only values the validator accepts were
    enabled. *)
Lemma passesIntFilter_admits h d tok validator :
  domain_rel h d ->
  (forall v k, validator = Some v -> verdict h k = Some true -> v k = true) ->
  passesIntFilter tok d validator = true <-> admits h tok.
Proof.
  intros Hrel Hv.
  set (unknown := match validator with Some v => negb (v tok) | None => false end).
  rewrite <- (rel_admits h d tok unknown Hrel).
  - unfold passesIntFilter. fold unknown. cbv zeta.
    pose proof (rel_allowAll _ _ Hrel) as Hall. rewrite !map_len_pos.
    destruct (blockAll d); [done|].
    destruct (map_len (block d) =? 0), (map_get (block d) tok);
    destruct (map_len (allow d) =? 0), (allowAll d), unknown, (map_get (allow d) tok); done.
  - unfold unknown. destruct validator as [v|]; [|done].
    intros Hu%negb_true_iff Hk. rewrite (Hv v tok eq_refl Hk) in Hu. done.
Qed.

(** ** Filters up to nil maps

    Two criteria are equivalent when no read can tell them apart: a nil map and
    an empty one have the same contents. *)

#[export] Instance domain_equiv {K} `{Countable K} : Equiv (domain K) := fun d1 d2 =>
  make_if_nil (allow d1) = make_if_nil (allow d2) /\
  make_if_nil (block d1) = make_if_nil (block d2) /\
  allowAll d1 = allowAll d2 /\ blockAll d1 = blockAll d2.

#[export] Instance domain_equivalence {K} `{Countable K} : Equivalence (≡@{domain K}).
Proof.
  split.
  - intros d. by split_and!.
  - intros d1 d2 (? & ? & ? & ?). by split_and!.
  - intros d1 d2 d3 (? & ? & ? & ?) (? & ? & ? & ?). split_and!; by etransitivity.
Qed.

#[export] Instance location_equiv : Equiv NearbyLocationSnapshot := fun l1 l2 =>
  DXContinents l1 ≡ DXContinents l2 /\ DEContinents l1 ≡ DEContinents l2 /\
  DXZones l1 ≡ DXZones l2 /\ DEZones l1 ≡ DEZones l2 /\
  DXGrid2Prefixes l1 ≡ DXGrid2Prefixes l2 /\ DEGrid2Prefixes l1 ≡ DEGrid2Prefixes l2 /\
  DXDXCC l1 ≡ DXDXCC l2 /\ DEDXCC l1 ≡ DEDXCC l2.

#[export] Instance location_equivalence : Equivalence (≡@{NearbyLocationSnapshot}).
Proof.
  split.
  - intros l. by split_and!.
  - intros l1 l2 (? & ? & ? & ? & ? & ? & ? & ?). by split_and!.
  - intros l1 l2 l3 (? & ? & ? & ? & ? & ? & ? & ?) (? & ? & ? & ? & ? & ? & ? & ?).
    split_and!; by etransitivity.
Qed.

#[export] Instance passesStringFilter_proper tok : Proper ((≡) ==> (=)) (passesStringFilter tok).
Proof.
  intros d1 d2 (Ha & Hb & Hall & Hblk).
  unfold passesStringFilter, map_len, map_get. by rewrite Ha, Hb, Hall, Hblk.
Qed.

#[export] Instance passesIntFilter_proper tok :
  Proper ((≡) ==> (=) ==> (=)) (passesIntFilter tok).
Proof.
  intros d1 d2 (Ha & Hb & Hall & Hblk) v ? <-.
  unfold passesIntFilter, map_len, map_get. by rewrite Ha, Hb, Hall, Hblk.
Qed.

#[export] Instance passesLocation_proper : Proper ((≡) ==> (=) ==> (=)) passesLocation.
Proof.
  intros l1 l2 (H1 & H2 & H3 & H4 & H5 & H6 & H7 & H8) s ? <-. unfold passesLocation.
  by rewrite H1, H2, H3, H4, H5, H6, H7, H8.
Qed.

Lemma copyBoolMap_contents {K} `{Countable K} (m : gomap K) :
  make_if_nil (copyBoolMap m) = make_if_nil m.
Proof.
  unfold copyBoolMap. destruct (map_len m =? 0) eqn:Hz; [|done].
  symmetry. by apply map_len_zero.
Qed.

Lemma copy_domain_equiv {K} `{Countable K} (d : domain K) : copy_domain d ≡ d.
Proof. split_and!; simpl; try apply copyBoolMap_contents; done. Qed.

Lemma copy_location_equiv l : copy_location l ≡ l.
Proof. split_and!; apply copy_domain_equiv. Qed.

(** ** The verdict as a conjunction *)

Section MatchLemmas.
Variable EncodeCell : string -> Z.
Variable EncodeCoarseCell : string -> Z.

Lemma matchesWithPath_conj f s pc :
  matchesWithPath EncodeCell EncodeCoarseCell f s pc =
    negb (IsBeacon s && negb (BeaconsEnabled f)) &&
    (passesStringFilter (spot_band s) (Bands f) &&
    (passesStringFilter (spot_mode s) (Modes f) &&
    (passesStringFilter (spot_source s) (Sources f) &&
    ((if NearbyEnabled f then matchesNearby EncodeCell EncodeCoarseCell f s (spot_band s)
      else passesLocation (Location f) s) &&
    (passesPatterns (DXCall s) (BlockDXCallsigns f) (DXCallsigns f) &&
    (passesPatterns (spot_de_call s) (BlockDECallsigns f) (DECallsigns f) &&
    ((isConfidenceExemptMode (spot_mode s) ||
        passesStringFilter (normalizeConfidenceSymbol (Confidence s)) (ConfidenceGlyphs f)) &&
     passesStringFilter (effectivePathClass pc) (PathClasses f)))))))).
Proof.
  unfold matchesWithPath.
  destruct (IsBeacon s && negb (BeaconsEnabled f)); [done|].
  destruct (passesStringFilter (spot_band s) (Bands f)); [|done].
  destruct (passesStringFilter (spot_mode s) (Modes f)); [|done].
  destruct (passesStringFilter (spot_source s) (Sources f)); [|done]. cbn [negb andb].
  destruct (if NearbyEnabled f then _ else _); [|done].
  do 2 (destruct (passesPatterns _ _ _); [|done]).
  destruct (isConfidenceExemptMode (spot_mode s)), (passesStringFilter _ (ConfidenceGlyphs f)),
    (passesStringFilter _ (PathClasses f)); done.
Qed.

Lemma passesLocation_conj l s :
  passesLocation l s =
    passesStringFilter (spot_dx_cont s) (DXContinents l) &&
    (passesStringFilter (spot_de_cont s) (DEContinents l) &&
    (passesIntFilter (CQZone (DXMetadata s)) (DXZones l) (Some IsSupportedZone) &&
    (passesIntFilter (CQZone (DEMetadata s)) (DEZones l) (Some IsSupportedZone) &&
    (passesIntFilter (ADIF (DXMetadata s)) (DXDXCC l) None &&
    (passesIntFilter (ADIF (DEMetadata s)) (DEDXCC l) None &&
    (passesStringFilter (prefix2 (spot_dx_grid2 s)) (DXGrid2Prefixes l) &&
     passesStringFilter (prefix2 (spot_de_grid2 s)) (DEGrid2Prefixes l))))))).
Proof.
  unfold passesLocation.
  repeat (match goal with |- context [negb ?x] => destruct x end; [cbn [negb andb]|done]).
  done.
Qed.

(** A criterion no command has touched passes everything. *)
Lemma passesStringFilter_open tok (d : domain string) :
  d ≡ reset_domain -> passesStringFilter tok d = true.
Proof. by intros ->. Qed.

Lemma passesIntFilter_open tok (d : domain Z) v :
  d ≡ reset_domain -> passesIntFilter tok d v = true.
Proof. intros ->. unfold passesIntFilter; simpl. destruct v as [v|]; [by destruct (v tok)|done]. Qed.

Lemma passesLocation_open l s : l ≡ emptyLocation -> passesLocation l s = true.
Proof.
  intros ->. rewrite passesLocation_conj; simpl.
  by rewrite !passesStringFilter_open, !passesIntFilter_open.
Qed.

(** When the filter reports that PATH filtering is inactive (the server
    then skips the classification lookup), the verdict does not depend on the
    path class that would have been computed. *)
Theorem path_inactive_irrelevant f s pc1 pc2 :
  PathFilterActive f = false ->
  matchesWithPath EncodeCell EncodeCoarseCell f s pc1 =
  matchesWithPath EncodeCell EncodeCoarseCell f s pc2.
Proof.
  intros Hact. assert (Hopen : PathClasses f ≡ reset_domain).
  { unfold PathFilterActive in Hact. rewrite !map_len_pos in Hact. split_matches.
    apply orb_false_iff in Hact as [Ha Hb]. apply negb_false_iff in Ha, Hb.
    apply map_len_zero in Ha, Hb. boolify. done. }
  rewrite !matchesWithPath_conj. by rewrite !(passesStringFilter_open _ (PathClasses f)).
Qed.

(** [Reset] (PASS NOFILTER) disables every criterion when NEARBY has no
    saved location state: every spot then matches, whatever its path class. *)
Theorem Reset_permissive f s pc :
  NearbySnapshot f = None ->
  matchesWithPath EncodeCell EncodeCoarseCell (Reset f) s pc = true.
Proof.
  intros Hsnap. unfold Reset, DisableNearby. simpl. rewrite Hsnap.
  rewrite matchesWithPath_conj; simpl.
  rewrite (passesLocation_open _ s) by reflexivity.
  rewrite !(passesStringFilter_open _ reset_domain) by reflexivity.
  by destruct (IsBeacon s), (isConfidenceExemptMode _).
Qed.

(** With NEARBY on, [Reset] does not reset the location criteria: the
    call to [DisableNearby] at its end brings back the saved ones, so a spot
    passes only when it passes the location filter of before. *)
Theorem Reset_restores_snapshot f snap s pc :
  NearbySnapshot f = Some snap ->
  matchesWithPath EncodeCell EncodeCoarseCell (Reset f) s pc = passesLocation snap s.
Proof.
  intros Hsnap. unfold Reset, DisableNearby. simpl. rewrite Hsnap.
  rewrite matchesWithPath_conj; simpl.
  rewrite !(passesStringFilter_open _ reset_domain) by reflexivity.
  rewrite copy_location_equiv. rewrite orb_true_r, !andb_true_r.
  by destruct (IsBeacon s).
Qed.

End MatchLemmas.

(** A filter that only wants European DX, with NEARBY switched on. *)
Definition nearby_sample : Filter :=
  snd (EnableNearby 5 3 (SetDXContinent "EU" true (NewFilter initialDefaults))).

Lemma path_inactive_irrelevant_witness :
  PathFilterActive nearby_sample = false /\
  matchesWithPath (fun _ => 7) (fun _ => 7) nearby_sample (sample_spot "W1AW" "K1ABC" 14025 0) "LOW" =
  matchesWithPath (fun _ => 7) (fun _ => 7) nearby_sample (sample_spot "W1AW" "K1ABC" 14025 0) "HIGH".
Proof. split; [reflexivity|]. apply path_inactive_irrelevant. reflexivity. Defined.

Lemma Reset_permissive_witness :
  matchesWithPath (fun _ => 7) (fun _ => 7)
    (Reset (SetDXContinent "EU" true (NewFilter initialDefaults)))
    (sample_spot "W1AW" "K1ABC" 14025 0) "LOW" = true.
Proof. apply Reset_permissive. reflexivity. Defined.

Lemma Reset_restores_snapshot_witness :
  matchesWithPath (fun _ => 7) (fun _ => 7) (Reset nearby_sample)
    (sample_spot "W1AW" "K1ABC" 14025 0) "LOW" = false.
Proof.
  transitivity (passesLocation (captureLocationSnapshot
                  (SetDXContinent "EU" true (NewFilter initialDefaults)))
                  (sample_spot "W1AW" "K1ABC" 14025 0)).
  - apply Reset_restores_snapshot. reflexivity.
  - vm_compute. reflexivity.
Defined.

(** ** Callsign wildcards *)

Definition no_star (p : string) : Prop := no_byte "*"%char p = true.

Lemma upper_star c : upper_byte c = "*"%char <-> c = "*"%char.
Proof. revert c. all_bytes. Qed.

Lemma ToUpper_no_star p : no_star p -> no_star (ToUpper p).
Proof.
  unfold no_star, no_byte, ToUpper. induction p as [|c p IH]; simpl; [done|].
  intros [Hc Hp]%andb_true_iff. rewrite IH by done. rewrite andb_true_r.
  apply negb_true_iff, bool_decide_eq_false in Hc. apply negb_true_iff, bool_decide_eq_false.
  by rewrite upper_star.
Qed.

Lemma no_star_suffix p : no_star p -> HasSuffix p "*" = false.
Proof.
  intros Hp. apply not_true_iff_false. intros [t ->]%HasSuffix_spec.
  unfold no_star, no_byte in Hp. induction t as [|c t IH]; simpl in Hp; [done|].
  apply andb_true_iff in Hp as [_ Hp]. auto.
Qed.

Lemma no_star_prefix p : no_star p -> HasPrefix p "*" = false.
Proof.
  intros Hp. apply not_true_iff_false. intros [t ->]%HasPrefix_spec. done.
Qed.

(** A pattern without [*] matches exactly the same call (up to case), a
    trailing [*] makes it a prefix test and a leading [*] a suffix test. *)
Theorem matchesCallsignPattern_spec call p :
  no_star p ->
  (matchesCallsignPattern call p = true <-> ToUpper call = ToUpper p) /\
  (matchesCallsignPattern call (p +:+ "*") = true <-> exists t, ToUpper call = ToUpper p +:+ t) /\
  (matchesCallsignPattern call ("*" +:+ p) = true <-> exists t, ToUpper call = t +:+ ToUpper p).
Proof.
  intros Hp%ToUpper_no_star.
  pose proof (no_star_suffix _ Hp) as Hs. pose proof (no_star_prefix _ Hp) as Hpre.
  unfold matchesCallsignPattern. rewrite !ToUpper_sapp. set (P := ToUpper p) in *.
  change (ToUpper "*") with "*". split_and!.
  - rewrite Hs, Hpre. case_bool_decide; naive_solver.
  - rewrite TrimSuffix_app, <- HasPrefix_spec.
    replace (HasSuffix (P +:+ "*") "*") with true by (symmetry; apply HasSuffix_spec; eauto).
    case_bool_decide as E; [|done]. rewrite E. split; [intros _|done].
    apply HasPrefix_spec. eauto.
  - rewrite <- HasSuffix_spec. destruct P as [|c P'] eqn:EP.
    + simpl. case_bool_decide; split; auto; intros _; apply HasSuffix_spec; exists (ToUpper call);
        by rewrite sapp_nil_r.
    + replace (HasSuffix ("*" +:+ String c P') "*") with false.
      * rewrite TrimPrefix_app. simpl HasPrefix.
        case_bool_decide as E; [|done]. rewrite E. split; [intros _|done].
        apply HasSuffix_spec. exists "*". done.
      * symmetry. apply not_true_iff_false. intros [t Ht]%HasSuffix_spec.
        destruct t as [|d t]; simplify_eq/=.
        apply not_true_iff_false in Hs. apply Hs, HasSuffix_spec. eauto.
Qed.

Lemma matchesCallsignPattern_spec_witness :
  matchesCallsignPattern "w1abc" ("W1" +:+ "*") = true.
Proof. apply (matchesCallsignPattern_spec "w1abc" "W1" eq_refl). exists "ABC". reflexivity. Defined.
