(* ===== verification/FilterSession.v ===== *)
(** * Filters over a whole session

    The operations a telnet session performs on its filter, as one inductive
    type, and what the filter lets through after any sequence of them, stated
    on the sequence of commands alone. *)

From S2P Require Import Prelude GoText GoNum Callsign Bands Spot Filter FilterMatch.
Local Open Scope string_scope.
Local Open Scope list_scope.
Local Open Scope Z_scope.

(** ** Operations *)

(** The criteria whose tokens are strings, those whose tokens are integers, and
    the on/off switches. *)
Inductive saxis := ABand | AMode | ASource | AConfidence | APath
  | ADXCont | ADECont | ADXGrid2 | ADEGrid2.
Inductive iaxis := ADXZone | ADEZone | ADXDXCC | ADEDXCC.
Inductive toggle := TBeacon | TWWV | TWCY | TAnnounce | TSelf.

#[export] Instance saxis_eq_dec : EqDecision saxis.
Proof. solve_decision. Defined.
#[export] Instance iaxis_eq_dec : EqDecision iaxis.
Proof. solve_decision. Defined.
#[export] Instance toggle_eq_dec : EqDecision toggle.
Proof. solve_decision. Defined.

Inductive filter_op :=
  | OpTok (a : saxis) (tok : string) (enabled : bool)
  | OpAll (a : saxis) (enabled : bool)
  | OpInt (a : iaxis) (n : Z) (enabled : bool)
  | OpAllInt (a : iaxis) (enabled : bool)
  | OpCall (dx : bool) (pattern : string) (enabled : bool)
  | OpAllCall (dx : bool) (enabled : bool)
  | OpToggle (t : toggle) (enabled : bool)
  | OpNearbyOn (userFine userCoarse : Z)
  | OpNearbyOff
  | OpUserCells (userFine userCoarse : Z)
  | OpNoFilter
  | OpResetDefaults.

Definition set_tok (a : saxis) : string -> bool -> Filter -> Filter :=
  match a with
  | ABand => SetBand
  | AMode => SetMode
  | ASource => SetSource
  | AConfidence => SetConfidenceSymbol
  | APath => SetPathClass
  | ADXCont => SetDXContinent
  | ADECont => SetDEContinent
  | ADXGrid2 => SetDXGrid2Prefix
  | ADEGrid2 => SetDEGrid2Prefix
  end.

Definition reset_axis (a : saxis) : Filter -> Filter :=
  match a with
  | ABand => ResetBands
  | AMode => ResetModes
  | ASource => ResetSources
  | AConfidence => ResetConfidence
  | APath => ResetPathClasses
  | ADXCont => ResetDXContinents
  | ADECont => ResetDEContinents
  | ADXGrid2 => ResetDXGrid2
  | ADEGrid2 => ResetDEGrid2
  end.

Definition get_axis (a : saxis) (f : Filter) : domain string :=
  match a with
  | ABand => Bands f
  | AMode => Modes f
  | ASource => Sources f
  | AConfidence => ConfidenceGlyphs f
  | APath => PathClasses f
  | ADXCont => DXContinents (Location f)
  | ADECont => DEContinents (Location f)
  | ADXGrid2 => DXGrid2Prefixes (Location f)
  | ADEGrid2 => DEGrid2Prefixes (Location f)
  end.

Definition put_axis (a : saxis) (d : domain string) : Filter -> Filter :=
  match a with
  | ABand => set_Bands d
  | AMode => set_Modes d
  | ASource => set_Sources d
  | AConfidence => set_ConfidenceGlyphs d
  | APath => set_PathClasses d
  | ADXCont => update_location (set_DXContinents d)
  | ADECont => update_location (set_DEContinents d)
  | ADXGrid2 => update_location (set_DXGrid2Prefixes d)
  | ADEGrid2 => update_location (set_DEGrid2Prefixes d)
  end.

Definition set_int (a : iaxis) : Z -> bool -> Filter -> Filter :=
  match a with
  | ADXZone => SetDXZone
  | ADEZone => SetDEZone
  | ADXDXCC => SetDXDXCC
  | ADEDXCC => SetDEDXCC
  end.

Definition reset_int (a : iaxis) : Filter -> Filter :=
  match a with
  | ADXZone => ResetDXZones
  | ADEZone => ResetDEZones
  | ADXDXCC => ResetDXDXCC
  | ADEDXCC => ResetDEDXCC
  end.

Definition get_int (a : iaxis) (f : Filter) : domain Z :=
  match a with
  | ADXZone => DXZones (Location f)
  | ADEZone => DEZones (Location f)
  | ADXDXCC => DXDXCC (Location f)
  | ADEDXCC => DEDXCC (Location f)
  end.

Definition put_int (a : iaxis) (d : domain Z) : Filter -> Filter :=
  match a with
  | ADXZone => update_location (set_DXZones d)
  | ADEZone => update_location (set_DEZones d)
  | ADXDXCC => update_location (set_DXDXCC d)
  | ADEDXCC => update_location (set_DEDXCC d)
  end.

(** [f.ResetX(); f.BlockAllX = true; f.AllX = false] of the REJECT ... ALL
    handlers. *)
Definition shut_domain {K} `{Countable K} (d : domain K) : domain K :=
  mkDomain (allow d) (block d) false true.

Definition set_all (a : saxis) (enabled : bool) (f : Filter) : Filter :=
  let f := reset_axis a f in
  if enabled then f else put_axis a (shut_domain (get_axis a f)) f.

Definition set_all_int (a : iaxis) (enabled : bool) (f : Filter) : Filter :=
  let f := reset_int a f in
  if enabled then f else put_int a (shut_domain (get_int a f)) f.

Definition set_call (dx enabled : bool) : string -> Filter -> Filter :=
  match dx, enabled with
  | true, true => AddDXCallsignPattern
  | true, false => AddBlockDXCallsignPattern
  | false, true => AddDECallsignPattern
  | false, false => AddBlockDECallsignPattern
  end.

Definition set_all_call (dx enabled : bool) (f : Filter) : Filter :=
  let f := if dx then ClearDXCallsignBlockPatterns (ClearDXCallsignPatterns f)
           else ClearDECallsignBlockPatterns (ClearDECallsignPatterns f) in
  if enabled then f else set_call dx false "*" f.

Definition set_toggle (t : toggle) : bool -> Filter -> Filter :=
  match t with
  | TBeacon => SetBeaconEnabled
  | TWWV => SetWWVEnabled
  | TWCY => SetWCYEnabled
  | TAnnounce => SetAnnounceEnabled
  | TSelf => SetSelfEnabled
  end.

Definition apply_op (d : Defaults) (f : Filter) (op : filter_op) : Filter :=
  match op with
  | OpTok a tok enabled => set_tok a tok enabled f
  | OpAll a enabled => set_all a enabled f
  | OpInt a n enabled => set_int a n enabled f
  | OpAllInt a enabled => set_all_int a enabled f
  | OpCall dx pattern enabled => set_call dx enabled pattern f
  | OpAllCall dx enabled => set_all_call dx enabled f
  | OpToggle t enabled => set_toggle t enabled f
  | OpNearbyOn u v => snd (EnableNearby u v f)
  | OpNearbyOff => DisableNearby f
  | OpUserCells u v => UpdateNearbyUserCells u v f
  | OpNoFilter => Reset f
  | OpResetDefaults => ResetToDefaults d f
  end.

Definition run_ops (d : Defaults) (ops : list filter_op) (f : Filter) : Filter :=
  foldl (apply_op d) f ops.

(** ** The history of a criterion *)

(** The token a setter stores, [None] when it ignores its argument. *)
Definition norm_tok (a : saxis) (tok : string) : option string :=
  let keep (k : string) := if bool_decide (k = "") then None else Some k in
  match a with
  | ABand => let k := NormalizeBand tok in
             if bool_decide (k = "") || negb (IsValidBand k) then None else Some k
  | AMode => Some (canonicalModeToken tok)
  | ASource => keep (normalizeSource tok)
  | AConfidence => keep (normalizeConfidenceSymbol tok)
  | APath => keep (normalizePathClass tok)
  | ADXCont | ADECont =>
      let k := ToUpper (TrimSpace tok) in if negb (IsSupportedContinent k) then None else Some k
  | ADXGrid2 | ADEGrid2 => keep (normalizeGrid2Token tok)
  end.

Definition norm_int (a : iaxis) (n : Z) : option Z :=
  match a with
  | ADXZone | ADEZone => if negb (IsSupportedZone n) then None else Some n
  | ADXDXCC | ADEDXCC => if n <=? 0 then None else Some n
  end.

Definition tok_cmd {K} (enabled : bool) (k : K) : dcmd K :=
  if enabled then PassTok k else RejectTok k.
Definition all_cmd {K} (enabled : bool) : dcmd K := if enabled then PassAll else RejectAll.

Definition opt_cmd {K} (enabled : bool) (k : option K) : list (dcmd K) :=
  match k with Some k => [tok_cmd enabled k] | None => [] end.

(** The commands a fresh filter stands for. *)
Definition init_hist (d : Defaults) (a : saxis) : list (dcmd string) :=
  match a with
  | AMode => foldl (fun h m => PassTok m :: h) [PassAll] (defaultModeSelection d)
  | ASource => foldl (fun h s => opt_cmd true (norm_tok ASource s) ++ h) [PassAll]
                 (defaultSourceSelection d)
  | _ => [PassAll]
  end.

Definition op_hist (d : Defaults) (a : saxis) (op : filter_op) (h : list (dcmd string)) :
    list (dcmd string) :=
  match op with
  | OpTok a' tok enabled => if bool_decide (a = a') then opt_cmd enabled (norm_tok a tok) ++ h else h
  | OpAll a' enabled => if bool_decide (a = a') then all_cmd enabled :: h else h
  | OpNoFilter => PassAll :: h
  | OpResetDefaults => init_hist d a
  | _ => h
  end.

Definition op_hist_int (a : iaxis) (op : filter_op) (h : list (dcmd Z)) : list (dcmd Z) :=
  match op with
  | OpInt a' n enabled => if bool_decide (a = a') then opt_cmd enabled (norm_int a n) ++ h else h
  | OpAllInt a' enabled => if bool_decide (a = a') then all_cmd enabled :: h else h
  | OpNoFilter | OpResetDefaults => PassAll :: h
  | _ => h
  end.

(** REJECT DXCALL ALL clears the lists and blocks the pattern [*]. *)
Definition op_hist_call (dx : bool) (op : filter_op) (h : list (dcmd string)) : list (dcmd string) :=
  match op with
  | OpCall dx' pattern enabled =>
      if bool_decide (dx = dx') then
        let k := normalizeCallsignPattern pattern in
        (if bool_decide (k = "") then [] else [tok_cmd enabled k]) ++ h
      else h
  | OpAllCall dx' enabled =>
      if bool_decide (dx = dx') then (if enabled then [PassAll] else [RejectTok "*"; PassAll]) ++ h else h
  | OpNoFilter | OpResetDefaults => PassAll :: h
  | _ => h
  end.

Definition op_toggle (t : toggle) (op : filter_op) (b : bool) : bool :=
  match op with
  | OpToggle t' enabled => if bool_decide (t = t') then enabled else b
  | OpNoFilter | OpResetDefaults => true
  | _ => b
  end.

(** Newest first, for a session that starts from a fresh filter. *)
Definition history (d : Defaults) (a : saxis) (ops : list filter_op) : list (dcmd string) :=
  foldl (fun h op => op_hist d a op h) (init_hist d a) ops.
Definition history_int (a : iaxis) (ops : list filter_op) : list (dcmd Z) :=
  foldl (fun h op => op_hist_int a op h) [PassAll] ops.
Definition history_call (dx : bool) (ops : list filter_op) : list (dcmd string) :=
  foldl (fun h op => op_hist_call dx op h) [PassAll] ops.
Definition toggle_on (t : toggle) (ops : list filter_op) : bool :=
  foldl (fun b op => op_toggle t op b) true ops.

(** ** The stored criteria follow the history *)

(** Case analysis on an operation: the criterion, the flag and the guards of the
    setter it calls. *)
Ltac unfold_setters :=
  unfold SetBand, SetMode, SetSource, SetConfidenceSymbol, SetPathClass, SetDXContinent,
    SetDEContinent, SetDXGrid2Prefix, SetDEGrid2Prefix, SetDXZone, SetDEZone, SetDXDXCC, SetDEDXCC,
    AddDXCallsignPattern, AddDECallsignPattern, AddBlockDXCallsignPattern,
    AddBlockDECallsignPattern, EnableNearby, DisableNearby; cbv zeta.

Ltac split_axes :=
  repeat match goal with
  | x : saxis |- _ => destruct x
  | x : iaxis |- _ => destruct x
  | x : toggle |- _ => destruct x
  | x : bool |- _ => destruct x
  end.

Ltac crush_op := split_axes; simpl in *; unfold_setters; repeat case_match; simplify_eq/=; done.

Lemma opt_cmd_rel {K} `{Countable K} (h : list (dcmd K)) (d : domain K) (enabled : bool) (k : option K) :
  domain_rel h d ->
  domain_rel (opt_cmd enabled k ++ h) (match k with Some k => set_token d k enabled | None => d end).
Proof.
  destruct k as [k|]; [|done]. intros Hd.
  destruct enabled; [apply (domain_step_rel h d (PassTok k) Hd)
                    |apply (domain_step_rel h d (RejectTok k) Hd)].
Qed.

Lemma all_cmd_rel {K} `{Countable K} (h : list (dcmd K)) (d : domain K) (enabled : bool) :
  domain_rel h d ->
  domain_rel (all_cmd enabled :: h) (if enabled then reset_domain else shut_domain reset_domain).
Proof.
  intros Hd. destruct enabled; [apply (domain_step_rel h d PassAll Hd)
                               |apply (domain_step_rel h d RejectAll Hd)].
Qed.

Lemma pass_all_rel {K} `{Countable K} (h : list (dcmd K)) : domain_rel (PassAll :: h) reset_domain.
Proof. split; intros; simpl; rewrite ?lookup_empty; reflexivity. Qed.

Lemma get_set_tok a a' tok enabled f :
  get_axis a (set_tok a' tok enabled f) =
    if bool_decide (a = a') then
      match norm_tok a tok with Some k => set_token (get_axis a f) k enabled | None => get_axis a f end
    else get_axis a f.
Proof.
  destruct a, a'; cbn [set_tok norm_tok get_axis bool_decide decide_rel];
    unfold_setters; repeat case_match; simplify_eq; reflexivity.
Qed.

Lemma get_axis_set_int a a' n enabled f : get_axis a (set_int a' n enabled f) = get_axis a f.
Proof. crush_op. Qed.

Lemma get_axis_set_all a a' enabled f :
  get_axis a (set_all a' enabled f) =
    if bool_decide (a = a') then (if enabled then reset_domain else shut_domain reset_domain)
    else get_axis a f.
Proof. by destruct a, a', enabled. Qed.

Lemma get_axis_set_all_int a a' enabled f : get_axis a (set_all_int a' enabled f) = get_axis a f.
Proof. by destruct a, a', enabled. Qed.

Lemma get_axis_set_call a dx enabled p f : get_axis a (set_call dx enabled p f) = get_axis a f.
Proof. crush_op. Qed.

Lemma get_axis_set_all_call a dx enabled f : get_axis a (set_all_call dx enabled f) = get_axis a f.
Proof.
  unfold set_all_call. destruct enabled; rewrite ?get_axis_set_call; by destruct dx, a.
Qed.

Lemma get_axis_set_toggle a t enabled f : get_axis a (set_toggle t enabled f) = get_axis a f.
Proof. by destruct a, t. Qed.

Lemma get_axis_enable a u v f : get_axis a (snd (EnableNearby u v f)) = get_axis a f.
Proof. crush_op. Qed.

(** ** Sessions without NEARBY *)

Definition location_axis (a : saxis) : bool :=
  match a with ADXCont | ADECont | ADXGrid2 | ADEGrid2 => true | _ => false end.

Definition nearby_free (op : filter_op) : bool :=
  match op with OpNearbyOn _ _ => false | _ => true end.

(** The package defaults always list at least one mode, and no empty one. *)
Definition defaults_ok (d : Defaults) : Prop :=
  defaultModeSelection d <> [] /\ "" ∉ defaultModeSelection d.

Lemma get_axis_disable a f :
  location_axis a = false \/ NearbySnapshot f = None -> get_axis a (DisableNearby f) = get_axis a f.
Proof.
  unfold DisableNearby. intros [Ha | Hs]; [destruct (NearbySnapshot f); by destruct a|].
  rewrite Hs. by destruct a.
Qed.

Lemma get_axis_reset a f :
  location_axis a = false \/ NearbySnapshot f = None -> get_axis a (Reset f) = reset_domain.
Proof.
  intros Ha. unfold Reset. rewrite get_axis_disable by done. by destruct a.
Qed.

(** ** A fresh filter *)

Lemma default_modes_rel (ms : list string) h (m : gmap string bool) :
  (forall k, m !! k = if bool_decide (verdict h k = Some true) then Some true else None) ->
  (forall k, verdict h k <> Some false) -> shut h = false ->
  let h' := foldl (fun h mode => PassTok mode :: h) h ms in
  let m' := foldl (fun m mode => <[mode := true]> m) m ms in
  (forall k, m' !! k = if bool_decide (verdict h' k = Some true) then Some true else None) /\
  (forall k, verdict h' k <> Some false) /\ shut h' = false.
Proof.
  revert h m. induction ms as [|x ms IH]; intros h m Hm Hv Hs; simpl; [done|].
  apply IH; simpl; [| |done]; intros k.
  - destruct (decide (k = x)) as [->|Hne].
    + by rewrite lookup_insert_eq, (bool_decide_eq_true_2 (x = x)).
    + by rewrite lookup_insert_ne, Hm, (bool_decide_eq_false_2 (k = x)).
  - case_bool_decide; [done|apply Hv].
Qed.

Lemma foldl_insert_nonempty (ms : list string) (m : gmap string bool) :
  (m <> ∅ \/ ms <> []) -> foldl (fun m mode => <[mode := true]> m) m ms <> ∅.
Proof.
  revert m. induction ms as [|x ms IH]; simpl; intros m Hne; [naive_solver|].
  apply IH. left. apply insert_non_empty.
Qed.

Lemma default_sources_rel (l : list string) h f a :
  domain_rel h (Sources f) ->
  domain_rel (foldl (fun h s => opt_cmd true (norm_tok ASource s) ++ h) h l)
    (Sources (foldl (fun f s => SetSource s true f) f l)) /\
  (a <> ASource -> get_axis a (foldl (fun f s => SetSource s true f) f l) = get_axis a f).
Proof.
  revert h f. induction l as [|s l IH]; simpl; intros h f Hrel; [done|].
  destruct (IH (opt_cmd true (norm_tok ASource s) ++ h) (SetSource s true f)) as [IH1 IH2].
  - pose proof (get_set_tok ASource ASource s true f) as E. simpl get_axis in E. simpl set_tok in E.
    rewrite E. rewrite bool_decide_eq_true_2 by done. by apply opt_cmd_rel.
  - split; [exact IH1|]. intros Ha. rewrite IH2 by done.
    pose proof (get_set_tok a ASource s true f) as E. simpl set_tok in E.
    by rewrite E, bool_decide_eq_false_2.
Qed.

Lemma NewFilter_rel d a : defaults_ok d -> domain_rel (init_hist d a) (get_axis a (NewFilter d)).
Proof.
  intros [Hne _]. unfold NewFilter. cbv zeta.
  set (f0 := set_Modes _ _).
  assert (Hget : forall f, get_axis a (SetBeaconEnabled true f) = get_axis a f) by (by destruct a).
  rewrite Hget.
  destruct (default_sources_rel (defaultSourceSelection d) [PassAll] f0 a) as [Hsrc Hother];
    [apply pass_all_rel|].
  destruct (decide (a = ASource)) as [->|Ha]; [exact Hsrc|].
  rewrite Hother by done. destruct (decide (a = AMode)) as [->|Hm].
  - destruct (default_modes_rel (defaultModeSelection d) [PassAll] ∅) as (H1 & H2 & H3);
      [intros k; rewrite lookup_empty; reflexivity|by intros k|reflexivity|].
    split; simpl.
    + exact H1.
    + intros k. rewrite lookup_empty, bool_decide_eq_false_2; [done|apply H2].
    + by rewrite H3.
    + rewrite H3. simpl. symmetry. apply not_true_iff_false. rewrite map_len_zero. simpl.
      apply foldl_insert_nonempty. by right.
  - destruct a; try done; apply pass_all_rel.
Qed.

Lemma NewFilter_nearby d :
  NearbySnapshot (NewFilter d) = None /\ NearbyEnabled (NewFilter d) = false /\
  Location (NewFilter d) = emptyLocation /\
  DXCallsigns (NewFilter d) = [] /\ BlockDXCallsigns (NewFilter d) = [] /\
  DECallsigns (NewFilter d) = [] /\ BlockDECallsigns (NewFilter d) = [].
Proof.
  assert (H : forall l f, let f' := foldl (fun f s => SetSource s true f) f l in
    NearbySnapshot f' = NearbySnapshot f /\ NearbyEnabled f' = NearbyEnabled f /\
    Location f' = Location f /\ DXCallsigns f' = DXCallsigns f /\
    BlockDXCallsigns f' = BlockDXCallsigns f /\ DECallsigns f' = DECallsigns f /\
    BlockDECallsigns f' = BlockDECallsigns f).
  { induction l as [|s l IH]; intros f; simpl; [done|].
    destruct (IH (SetSource s true f)) as (-> & -> & -> & -> & -> & -> & ->).
    unfold SetSource; cbv zeta. by case_bool_decide. }
  unfold NewFilter. simpl. by destruct (H (defaultSourceSelection d) (set_Modes (mkDomain
    (Some (foldl (fun m mode => <[mode:=true]> m) ∅ (defaultModeSelection d))) (Some ∅) false false)
    (mkFilter reset_domain (mkDomain (Some ∅) (Some ∅) false false) reset_domain
      reset_domain reset_domain emptyLocation [] [] [] []
      None (Some true) (Some true) (Some true) (Some true)
      false None InvalidCell InvalidCell 0))) as (-> & -> & -> & -> & -> & -> & ->).
Qed.

(** ** One operation, then all of them *)

Lemma nearby_step d f op :
  nearby_free op = true -> NearbySnapshot f = None /\ NearbyEnabled f = false ->
  NearbySnapshot (apply_op d f op) = None /\ NearbyEnabled (apply_op d f op) = false.
Proof.
  intros Hop [Hs He]. destruct op; try discriminate Hop; try crush_op.
  unfold apply_op, ResetToDefaults. destruct (NewFilter_nearby d) as (? & ? & _). done.
Qed.

Lemma apply_op_rel d a f op h :
  defaults_ok d -> location_axis a = false \/ NearbySnapshot f = None ->
  domain_rel h (get_axis a f) -> domain_rel (op_hist d a op h) (get_axis a (apply_op d f op)).
Proof.
  intros Hd Ha Hrel. destruct op; simpl.
  - rewrite get_set_tok. case_bool_decide; [by apply opt_cmd_rel|done].
  - rewrite get_axis_set_all. case_bool_decide; [by eapply all_cmd_rel|done].
  - by rewrite get_axis_set_int.
  - by rewrite get_axis_set_all_int.
  - by rewrite get_axis_set_call.
  - by rewrite get_axis_set_all_call.
  - by rewrite get_axis_set_toggle.
  - by rewrite get_axis_enable.
  - by rewrite get_axis_disable.
  - by destruct a.
  - rewrite get_axis_reset by done. apply pass_all_rel.
  - by apply NewFilter_rel.
Qed.

(** A session run from [NewFilter]; location criteria need NEARBY unused. *)
Lemma session_nearby d ops :
  forallb nearby_free ops = true ->
  NearbySnapshot (run_ops d ops (NewFilter d)) = None /\
  NearbyEnabled (run_ops d ops (NewFilter d)) = false.
Proof.
  unfold run_ops. induction ops as [|op ops IH] using rev_ind; intros Hops.
  - destruct (NewFilter_nearby d) as (? & ? & _). done.
  - rewrite foldl_app. simpl. rewrite forallb_app in Hops. simpl in Hops. boolify.
    apply nearby_step; auto.
Qed.

Lemma session_rel d a ops :
  defaults_ok d -> location_axis a = false \/ forallb nearby_free ops = true ->
  domain_rel (history d a ops) (get_axis a (run_ops d ops (NewFilter d))).
Proof.
  intros Hd. unfold history, run_ops. induction ops as [|op ops IH] using rev_ind; intros Ha.
  - by apply NewFilter_rel.
  - rewrite !foldl_app. simpl. rewrite forallb_app in Ha.
    apply apply_op_rel; [done| |].
    + destruct Ha as [Ha|Ha]; [by left|right]. boolify. by apply session_nearby.
    + apply IH. destruct Ha as [Ha|Ha]; [by left|right]. by boolify.
Qed.

(** ** Integer criteria *)

Lemma get_set_int a a' n enabled f :
  get_int a (set_int a' n enabled f) =
    if bool_decide (a = a') then
      match norm_int a n with Some k => set_token (get_int a f) k enabled | None => get_int a f end
    else get_int a f.
Proof.
  destruct a, a'; cbn [set_int norm_int get_int bool_decide decide_rel];
    unfold_setters; repeat case_match; simplify_eq; reflexivity.
Qed.

Lemma get_int_set_all_int a a' enabled f :
  get_int a (set_all_int a' enabled f) =
    if bool_decide (a = a') then (if enabled then reset_domain else shut_domain reset_domain)
    else get_int a f.
Proof. by destruct a, a', enabled. Qed.

Lemma get_int_frame a f op :
  match op with OpInt _ _ _ | OpAllInt _ _ | OpNearbyOff | OpNoFilter | OpResetDefaults => False | _ => True end ->
  forall d, get_int a (apply_op d f op) = get_int a f.
Proof. intros Hop d. destruct op; try destruct Hop; crush_op. Qed.

Lemma get_int_new d a : get_int a (NewFilter d) = reset_domain.
Proof. unfold get_int. destruct (NewFilter_nearby d) as (_ & _ & -> & _). by destruct a. Qed.

Lemma apply_op_int_rel d a f op h :
  NearbySnapshot f = None -> domain_rel h (get_int a f) ->
  domain_rel (op_hist_int a op h) (get_int a (apply_op d f op)).
Proof.
  intros Hs Hrel. destruct op; try (rewrite get_int_frame by done; exact Hrel); simpl.
  - rewrite get_set_int. case_bool_decide; [by apply opt_cmd_rel|done].
  - rewrite get_int_set_all_int. case_bool_decide; [by eapply all_cmd_rel|done].
  - unfold DisableNearby. rewrite Hs. by destruct a.
  - replace (get_int a (Reset f)) with (reset_domain (K := Z)); [apply pass_all_rel|].
    unfold Reset, DisableNearby. simpl. rewrite Hs. by destruct a.
  - unfold ResetToDefaults. rewrite get_int_new. apply pass_all_rel.
Qed.

Lemma session_int_rel d a ops :
  forallb nearby_free ops = true ->
  domain_rel (history_int a ops) (get_int a (run_ops d ops (NewFilter d))).
Proof.
  unfold history_int, run_ops. induction ops as [|op ops IH] using rev_ind; intros Hops.
  - cbn [foldl]. rewrite get_int_new. apply pass_all_rel.
  - rewrite !foldl_app. simpl. rewrite forallb_app in Hops. boolify.
    apply apply_op_int_rel; [|auto]. by apply session_nearby.
Qed.

(** ** Callsign patterns *)

Definition get_calls (dx : bool) (f : Filter) : list string * list string :=
  if dx then (DXCallsigns f, BlockDXCallsigns f) else (DECallsigns f, BlockDECallsigns f).

Definition call_rel (h : list (dcmd string)) (c : list string * list string) : Prop :=
  forall p, (p ∈ fst c <-> verdict h p = Some true) /\ (p ∈ snd c <-> verdict h p = Some false).

Lemma elem_addPatternUnique l p q : q ∈ addPatternUnique l p <-> q ∈ l \/ q = p.
Proof.
  unfold addPatternUnique. destruct (existsb _ l) eqn:E.
  - apply existsb_exists_elem in E as (x & Hx & ->%bool_decide_eq_true). naive_solver.
  - rewrite elem_of_app, list_elem_of_singleton. done.
Qed.

Lemma elem_removePattern l p q : q ∈ removePattern l p <-> q ∈ l /\ q <> p.
Proof.
  unfold removePattern. rewrite !list_elem_of_In, filter_In, negb_true_iff, bool_decide_eq_false. done.
Qed.

Lemma call_rel_set h l1 l2 p (enabled : bool) :
  call_rel h (l1, l2) ->
  call_rel (tok_cmd enabled p :: h)
    (if enabled then (addPatternUnique l1 p, removePattern l2 p)
     else (removePattern l1 p, addPatternUnique l2 p)).
Proof.
  intros Hrel q. destruct (Hrel q) as [H1 H2]. simpl in H1, H2.
  destruct enabled; simpl; rewrite elem_addPatternUnique, elem_removePattern, H1, H2;
    case_bool_decide; naive_solver.
Qed.

Lemma get_calls_set_call dx dx' enabled pattern f :
  get_calls dx (set_call dx' enabled pattern f) =
    let k := normalizeCallsignPattern pattern in
    if bool_decide (dx = dx') && negb (bool_decide (k = "")) then
      let '(l1, l2) := get_calls dx f in
      if enabled then (addPatternUnique l1 k, removePattern l2 k)
      else (removePattern l1 k, addPatternUnique l2 k)
    else get_calls dx f.
Proof. crush_op. Qed.

Lemma get_calls_frame dx f op :
  match op with OpCall _ _ _ | OpAllCall _ _ | OpNoFilter | OpResetDefaults => False | _ => True end ->
  forall d, get_calls dx (apply_op d f op) = get_calls dx f.
Proof. intros Hop d. destruct op; try destruct Hop; crush_op. Qed.

Lemma call_rel_clear h : call_rel (PassAll :: h) ([], []).
Proof. intros p. split; split; intros Hp; try done; by apply not_elem_of_nil in Hp. Qed.

Lemma get_calls_new d dx : get_calls dx (NewFilter d) = ([], []).
Proof.
  unfold get_calls. destruct (NewFilter_nearby d) as (_ & _ & _ & -> & -> & -> & ->). by destruct dx.
Qed.

Lemma apply_op_call_rel d dx f op h :
  call_rel h (get_calls dx f) -> call_rel (op_hist_call dx op h) (get_calls dx (apply_op d f op)).
Proof.
  intros Hrel. destruct op as [| | | |dx' p en|dx' en| | | | | |];
    try (rewrite get_calls_frame by done; exact Hrel); simpl.
  - rewrite get_calls_set_call. cbv zeta. destruct (bool_decide (dx = dx')); [|done].
    case_bool_decide as E; simpl; [done|]. destruct (get_calls dx f). by apply call_rel_set.
  - unfold set_all_call. case_bool_decide as E.
    + subst dx'. destruct en; [destruct dx; apply call_rel_clear|].
      rewrite get_calls_set_call. cbv zeta. rewrite bool_decide_eq_true_2 by done. simpl.
      destruct dx; simpl; apply (call_rel_set (PassAll :: h) [] [] "*" false), call_rel_clear.
    + destruct en; [by destruct dx, dx'|].
      rewrite get_calls_set_call. cbv zeta. rewrite bool_decide_eq_false_2 by done. simpl.
      by destruct dx, dx'.
  - unfold Reset, DisableNearby. simpl. destruct (NearbySnapshot f), dx; apply call_rel_clear.
  - unfold ResetToDefaults. rewrite get_calls_new. apply call_rel_clear.
Qed.

Lemma session_call_rel d dx ops :
  call_rel (history_call dx ops) (get_calls dx (run_ops d ops (NewFilter d))).
Proof.
  unfold history_call, run_ops. induction ops as [|op ops IH] using rev_ind.
  - cbn [foldl]. rewrite get_calls_new. apply call_rel_clear.
  - rewrite !foldl_app. simpl. by apply apply_op_call_rel.
Qed.

(** A call is admitted when no blocked pattern matches it and, if patterns are
    enabled, one of them does. *)
Definition admits_call (h : list (dcmd string)) (call : string) : Prop :=
  (forall p, verdict h p = Some false -> matchesCallsignPattern call p = false) /\
  ((exists p, verdict h p = Some true) ->
   exists p, verdict h p = Some true /\ matchesCallsignPattern call p = true).

Lemma list_nonempty_elem {A} (l : list A) : (0 <? Z.of_nat (length l)) = true <-> exists x, x ∈ l.
Proof.
  destruct l as [|x l]; simpl.
  - split; [done|]. intros [x Hx]. by apply not_elem_of_nil in Hx.
  - split; [intros _; exists x; left|done].
Qed.

Lemma passesPatterns_spec call blocked allowed :
  passesPatterns call blocked allowed = true <->
  (forall p, p ∈ blocked -> matchesCallsignPattern call p = false) /\
  ((exists p, p ∈ allowed) -> exists p, p ∈ allowed /\ matchesCallsignPattern call p = true).
Proof.
  unfold passesPatterns.
  destruct (existsb (matchesCallsignPattern call) blocked) eqn:Eb;
    [apply existsb_exists_elem in Eb as (p & Hp & Hm)|].
  - assert (Hlen : (0 <? Z.of_nat (length blocked)) = true) by (apply list_nonempty_elem; eauto).
    rewrite Hlen. simpl. split; [done|]. intros [Hb _]. rewrite Hb in Hm by done. done.
  - rewrite andb_false_r.
    assert (Hb : forall p, p ∈ blocked -> matchesCallsignPattern call p = false).
    { intros p Hp. apply not_true_iff_false. intros Hm.
      apply not_true_iff_false in Eb. apply Eb, existsb_exists_elem. eauto. }
    rewrite <- list_nonempty_elem, <- existsb_exists_elem.
    destruct (0 <? _), (existsb _ allowed); simpl; naive_solver.
Qed.

Lemma passesPatterns_admits h blocked allowed call :
  call_rel h (allowed, blocked) -> passesPatterns call blocked allowed = true <-> admits_call h call.
Proof.
  intros Hrel. rewrite passesPatterns_spec. unfold admits_call.
  assert (Ha : forall p, p ∈ allowed <-> verdict h p = Some true) by (intros p; apply Hrel).
  assert (Hb : forall p, p ∈ blocked <-> verdict h p = Some false) by (intros p; apply Hrel).
  setoid_rewrite Ha. setoid_rewrite Hb. done.
Qed.

(** ** Switches *)

Lemma session_beacons d ops : BeaconsEnabled (run_ops d ops (NewFilter d)) = toggle_on TBeacon ops.
Proof.
  unfold toggle_on, run_ops. induction ops as [|op ops IH] using rev_ind; [done|].
  rewrite !foldl_app. simpl. rewrite <- IH. set (f := foldl _ _ ops). clearbody f. clear IH.
  destruct op; try crush_op. simpl. unfold Reset, DisableNearby. simpl. by destruct (NearbySnapshot f).
Qed.

(** ** Enabled tokens *)

(** A mode token that is blank after trimming would be stored; the telnet
    handlers refuse it before calling [SetMode]. *)
Definition op_ok (op : filter_op) : bool :=
  match op with
  | OpTok AMode tok _ => nonempty (canonicalModeToken tok)
  | _ => true
  end.

Lemma verdict_pass {K} `{Countable K} (h : list (dcmd K)) k : verdict h k = Some true -> PassTok k ∈ h.
Proof.
  induction h as [|[k'|k'| |] h IH]; simpl; try done;
    case_bool_decide; intros Hv; simplify_eq; rewrite elem_of_cons; eauto.
Qed.

Lemma pass_in_opt {K} enabled (o : option K) k h :
  PassTok k ∈ opt_cmd enabled o ++ h -> o = Some k \/ PassTok k ∈ h.
Proof.
  destruct o as [k'|]; simpl; [|auto]. rewrite elem_of_cons.
  destruct enabled; simpl; naive_solver.
Qed.

Lemma norm_tok_nonempty a tok k :
  norm_tok a tok = Some k -> a <> AMode \/ nonempty (canonicalModeToken tok) = true -> k <> "".
Proof.
  intros Hn Hok ->. destruct a; simpl in Hn; repeat case_match; simplify_eq; boolify; try done.
  - destruct Hok as [|Hok]; [done|]. by rewrite Hn in Hok.
  - by rewrite Hn in H.
  - by rewrite Hn in H.
Qed.

Lemma init_hist_nonempty d a k : defaults_ok d -> PassTok k ∈ init_hist d a -> k <> "".
Proof.
  intros [_ Hd]. assert (Hall : PassTok k ∈ [PassAll (K := string)] -> k <> "").
  { intros Hk. by apply list_elem_of_singleton in Hk. }
  destruct a; simpl; auto.
  - revert Hd. generalize (defaultModeSelection d). revert Hall. generalize [PassAll (K := string)].
    intros h Hh l Hl. revert h Hh. induction l as [|m l IH]; simpl; intros h Hh; [done|].
    apply not_elem_of_cons in Hl as [Hm Hl]. apply IH; [done|].
    rewrite elem_of_cons. naive_solver.
  - generalize (defaultSourceSelection d). revert Hall. generalize [PassAll (K := string)].
    intros h Hh l. revert h Hh. induction l as [|m l IH]; intros h Hh; [done|].
    apply IH. intros [Hk|Hk]%pass_in_opt; [|auto].
    eapply (norm_tok_nonempty ASource); [exact Hk|by left].
Qed.

Lemma history_nonempty d a ops k :
  defaults_ok d -> forallb op_ok ops = true -> PassTok k ∈ history d a ops -> k <> "".
Proof.
  intros Hd. unfold history. induction ops as [|op ops IH] using rev_ind; intros Hok.
  - by apply init_hist_nonempty.
  - rewrite forallb_app in Hok. simpl in Hok. boolify. rewrite foldl_app. simpl.
    destruct op; simpl; auto; try case_bool_decide; auto.
    + intros [Hk|Hk]%pass_in_opt; [|auto]. subst a0. eapply norm_tok_nonempty; [exact Hk|].
      destruct a; auto; by left.
    + rewrite elem_of_cons. destruct enabled; simpl; naive_solver.
    + rewrite elem_of_cons. naive_solver.
    + by apply init_hist_nonempty.
Qed.

Lemma history_zones a ops k :
  a = ADXZone \/ a = ADEZone -> PassTok k ∈ history_int a ops -> IsSupportedZone k = true.
Proof.
  intros Ha. unfold history_int. induction ops as [|op ops IH] using rev_ind.
  - intros Hk. by apply list_elem_of_singleton in Hk.
  - rewrite foldl_app. simpl. destruct op; simpl; auto; try case_bool_decide; auto;
      try (rewrite elem_of_cons; destruct_or?; try destruct enabled; simpl; naive_solver).
    intros [Hk|Hk]%pass_in_opt; [|auto]. subst a0.
    destruct Ha as [-> | ->]; simpl in Hk; destruct (IsSupportedZone n) eqn:E; by simplify_eq/=.
Qed.

(** Every criterion admits the spot: band, mode, source, location, callsigns,
    confidence and path class, each by the history of its own commands. *)
Definition session_admits (d : Defaults) (ops : list filter_op) (s : Spot) (pc : string) : Prop :=
    (IsBeacon s = true -> toggle_on TBeacon ops = true) /\
    admits (history d ABand ops) (TrimSpace (spot_band s)) /\
    admits (history d AMode ops) (TrimSpace (spot_mode s)) /\
    admits (history d ASource ops) (spot_source s) /\
    (admits (history d ADXCont ops) (TrimSpace (spot_dx_cont s)) /\
     admits (history d ADECont ops) (TrimSpace (spot_de_cont s)) /\
     admits (history_int ADXZone ops) (CQZone (DXMetadata s)) /\
     admits (history_int ADEZone ops) (CQZone (DEMetadata s)) /\
     admits (history_int ADXDXCC ops) (ADIF (DXMetadata s)) /\
     admits (history_int ADEDXCC ops) (ADIF (DEMetadata s)) /\
     admits (history d ADXGrid2 ops) (TrimSpace (prefix2 (spot_dx_grid2 s))) /\
     admits (history d ADEGrid2 ops) (TrimSpace (prefix2 (spot_de_grid2 s)))) /\
    admits_call (history_call true ops) (DXCall s) /\
    admits_call (history_call false ops) (spot_de_call s) /\
    (isConfidenceExemptMode (spot_mode s) = true \/
     admits (history d AConfidence ops) (TrimSpace (normalizeConfidenceSymbol (Confidence s)))) /\
    admits (history d APath ops) (TrimSpace (effectivePathClass pc)).

Section Session.
Variable EncodeCell : string -> Z.
Variable EncodeCoarseCell : string -> Z.
Variable d : Defaults.
Hypothesis Hd : defaults_ok d.

Lemma session_axis a ops tok :
  location_axis a = false \/ forallb nearby_free ops = true -> forallb op_ok ops = true ->
  passesStringFilter tok (get_axis a (run_ops d ops (NewFilter d))) = true <->
  admits (history d a ops) (TrimSpace tok).
Proof.
  intros Ha Hok. apply passesStringFilter_admits; [by apply session_rel|].
  intros Hv%verdict_pass. by apply history_nonempty in Hv.
Qed.

Lemma session_int a ops tok v :
  forallb nearby_free ops = true -> (v = None \/ v = Some IsSupportedZone /\ (a = ADXZone \/ a = ADEZone)) ->
  passesIntFilter tok (get_int a (run_ops d ops (NewFilter d))) v = true <->
  admits (history_int a ops) tok.
Proof.
  intros Hn Hv. apply passesIntFilter_admits; [by apply session_int_rel|].
  intros v' k -> Hk%verdict_pass. destruct Hv as [|[[= ->] Ha]]; [done|]. by apply (history_zones a ops).
Qed.

Lemma session_matches ops s pc :
  forallb nearby_free ops = true -> forallb op_ok ops = true ->
  matchesWithPath EncodeCell EncodeCoarseCell (run_ops d ops (NewFilter d)) s pc = true <->
  session_admits d ops s pc.
Proof.
  intros Hn Hok. unfold session_admits. rewrite matchesWithPath_conj.
  destruct (session_nearby d ops Hn) as [_ ->]. rewrite passesLocation_conj.
  rewrite !andb_true_iff, orb_true_iff, session_beacons.
  set (f := run_ops d ops (NewFilter d)) in *.
  change (Bands f) with (get_axis ABand f). change (Modes f) with (get_axis AMode f).
  change (Sources f) with (get_axis ASource f). change (PathClasses f) with (get_axis APath f).
  change (ConfidenceGlyphs f) with (get_axis AConfidence f).
  change (DXContinents (Location f)) with (get_axis ADXCont f).
  change (DEContinents (Location f)) with (get_axis ADECont f).
  change (DXGrid2Prefixes (Location f)) with (get_axis ADXGrid2 f).
  change (DEGrid2Prefixes (Location f)) with (get_axis ADEGrid2 f).
  change (DXZones (Location f)) with (get_int ADXZone f).
  change (DEZones (Location f)) with (get_int ADEZone f).
  change (DXDXCC (Location f)) with (get_int ADXDXCC f).
  change (DEDXCC (Location f)) with (get_int ADEDXCC f).
  unfold f. rewrite !session_axis, !session_int by auto.
  rewrite (passesPatterns_admits _ _ _ _ (session_call_rel d true ops)).
  rewrite (passesPatterns_admits _ _ _ _ (session_call_rel d false ops)).
  replace (TrimSpace (spot_source s)) with (spot_source s) by (unfold spot_source; by destruct (IsHuman s)).
  destruct (IsBeacon s), (toggle_on TBeacon ops); simpl; naive_solver.
Qed.


End Session.

Lemma initialDefaults_ok : defaults_ok initialDefaults.
Proof. split; [done|]. vm_compute. by repeat (intros H; inversion_clear H as [|? ? ? H1]; revert H1). Qed.


(** Rejecting one more token after REJECT ... ALL reopens the criterion: every
    token but that one passes again. *)
Theorem reject_after_reject_all d f a tok k other :
  norm_tok a tok = Some k -> TrimSpace other <> k ->
  passesStringFilter other
    (get_axis a (run_ops d [OpAll a false; OpTok a tok false] f)) = true.
Proof.
  intros Hk Hne. unfold run_ops. cbn [foldl apply_op].
  rewrite get_set_tok, get_axis_set_all, !bool_decide_eq_true_2, Hk by done.
  unfold passesStringFilter, set_token, safeTrimSpace. cbn [allow block allowAll blockAll].
  replace (map_get _ (TrimSpace other)) with false.
  - rewrite andb_false_r. reflexivity.
  - unfold map_get. simpl. rewrite lookup_insert_ne by done. rewrite lookup_empty. done.
Qed.

Lemma reject_after_reject_all_witness :
  passesStringFilter "40m" (Bands (run_ops initialDefaults [OpAll ABand false]
    (NewFilter initialDefaults))) = false /\
  passesStringFilter "40m" (get_axis ABand (run_ops initialDefaults
    [OpAll ABand false; OpTok ABand "20M" false] (NewFilter initialDefaults))) = true.
Proof.
  split; [reflexivity|].
  apply (reject_after_reject_all initialDefaults (NewFilter initialDefaults) ABand "20M" "20m" "40m");
    [reflexivity|discriminate].
Defined.

(** ** NEARBY *)

(** Operations that leave the saved location state alone. *)
Definition keeps_snapshot (op : filter_op) : bool :=
  match op with OpNearbyOff | OpNoFilter | OpResetDefaults => false | _ => true end.

Lemma snapshot_step d f op snap :
  keeps_snapshot op = true -> NearbySnapshot f = Some snap ->
  NearbySnapshot (apply_op d f op) = Some snap.
Proof.
  intros Hop Hs. destruct op; try discriminate Hop; crush_op.
Qed.

Lemma snapshot_run d ops f snap :
  forallb keeps_snapshot ops = true -> NearbySnapshot f = Some snap ->
  NearbySnapshot (run_ops d ops f) = Some snap.
Proof.
  unfold run_ops. revert f. induction ops as [|op ops IH]; simpl; intros f Hops Hs; [done|].
  boolify. apply IH; [done|]. by apply snapshot_step.
Qed.

(** PASS NEARBY ON, then any commands short of a reset, then PASS NEARBY OFF
    leaves exactly the location filter of before: the same spots pass it. *)
Theorem nearby_roundtrip d f u v ops :
  NearbySnapshot f = None -> u <> InvalidCell -> v <> InvalidCell ->
  forallb keeps_snapshot ops = true ->
  let f' := run_ops d (OpNearbyOn u v :: ops ++ [OpNearbyOff]) f in
  Location f' ≡ Location f /\ (forall s, passesLocation (Location f') s = passesLocation (Location f) s) /\
  NearbyEnabled f' = false /\ NearbySnapshot f' = None.
Proof.
  intros Hs Hu Hv Hops. unfold run_ops. cbn [foldl]. rewrite foldl_app. cbn [foldl apply_op].
  assert (Hon : NearbySnapshot (snd (EnableNearby u v f)) = Some (captureLocationSnapshot f)).
  { unfold EnableNearby. apply Z.eqb_neq in Hu, Hv. by rewrite Hu, Hv, Hs. }
  pose proof (snapshot_run d ops _ _ Hops Hon) as Hoff. unfold run_ops in Hoff.
  unfold DisableNearby. rewrite Hoff. simpl.
  assert (Heq : copy_location (captureLocationSnapshot f) ≡ Location f).
  { unfold captureLocationSnapshot. by rewrite !copy_location_equiv. }
  split_and!; try done. intros s. by rewrite Heq.
Qed.

Lemma nearby_roundtrip_witness :
  NearbyEnabled (run_ops initialDefaults
    [OpNearbyOn 5 3; OpTok ADXCont "EU" true; OpTok AMode "CW" false; OpNearbyOff]
    (NewFilter initialDefaults)) = false.
Proof.
  refine (proj1 (proj2 (proj2 (nearby_roundtrip initialDefaults (NewFilter initialDefaults) 5 3
    [OpTok ADXCont "EU" true; OpTok AMode "CW" false] _ _ _ _)))); done.
Defined.
