(* ===== verification/UserRecord.v ===== *)
(** * Per-user records on disk

    Models [src/filter/user_record.go], [src/filter/dedupe_policy.go] and the
    save and load functions of [src/filter/filter.go].  The YAML codec is a
    parameter; the hypothesis on it is what yaml.v3 documents: decoding what was
    encoded gives the record back, fields tagged ["-"] excepted.  The file system
    is a finite map from paths to contents; [broken] names the paths on which
    the operating system refuses to read or write. *)

From S2P Require Import Prelude GoText GoNum Callsign Bands Spot Filter FilterMatch FilterSession.
Local Open Scope string_scope.
Local Open Scope list_scope.
Local Open Scope Z_scope.

(** ** Small normalisers *)

Definition NormalizeDedupePolicy (value : string) : string :=
  let trimmed := ToUpper (TrimSpace value) in
  if bool_decide (trimmed ∈ ["FAST"; "MED"; "SLOW"]) then trimmed else "MED".

Definition normalizeSolarSummaryMinutes (minutes : Z) : Z :=
  if bool_decide (minutes ∈ [15; 30; 60]) then minutes else 0.

(** ** Recent addresses *)

Definition maxRecentIPs : Z := 5.

Definition trimRecentIPs (recent : list string) (limit : Z) : list string :=
  if limit <=? 0 then []
  else if Z.of_nat (length recent) <=? limit then recent
  else take (Z.to_nat limit) recent.

(** The loop of [UpdateRecentIPs]; [updated] is the slice built so far. *)
Fixpoint update_recent_loop (ip : string) (recent updated : list string) : list string :=
  match recent with
  | [] => updated
  | existing :: rest =>
      if bool_decide (existing = ip) then update_recent_loop ip rest updated
      else
        let updated := updated ++ [existing] in
        if maxRecentIPs <=? Z.of_nat (length updated) then updated
        else update_recent_loop ip rest updated
  end.

Definition UpdateRecentIPs (recent : list string) (ip : string) : list string :=
  let ip := TrimSpace ip in
  if bool_decide (ip = "") then trimRecentIPs recent maxRecentIPs
  else trimRecentIPs (update_recent_loop ip recent [ip]) maxRecentIPs.

(** The first loop of [MergeRecentIPs]; [inr] is its early return. *)
Fixpoint merge_primary (primary merged : list string) : list string + list string :=
  match primary with
  | [] => inl merged
  | ip :: rest =>
      let ip := TrimSpace ip in
      if bool_decide (ip = "") then merge_primary rest merged
      else
        let merged := merged ++ [ip] in
        if maxRecentIPs <=? Z.of_nat (length merged) then inr merged else merge_primary rest merged
  end.

Fixpoint merge_fallback (fallback merged : list string) : list string :=
  match fallback with
  | [] => merged
  | ip :: rest =>
      let ip := TrimSpace ip in
      if bool_decide (ip = "") then merge_fallback rest merged
      else if bool_decide (ip ∈ merged) then merge_fallback rest merged
      else
        let merged := merged ++ [ip] in
        if maxRecentIPs <=? Z.of_nat (length merged) then merged else merge_fallback rest merged
  end.

Definition MergeRecentIPs (primary fallback : list string) : list string :=
  match merge_primary primary [] with
  | inr merged => merged
  | inl merged => merge_fallback fallback merged
  end.

(** ** Records *)

Record UserRecord := mkUserRecord {
  ur_Filter : Filter;
  RecentIPs : list string;
  Dialect : string;
  DedupePolicy : string;
  LastLoginUTC : Z;
  ur_Grid : string;
  NoiseClass : string;
  SolarSummaryMinutes : Z
}.

Definition set_RecentIPs (x : list string) (r : UserRecord) : UserRecord :=
  mkUserRecord (ur_Filter r) x (Dialect r) (DedupePolicy r) (LastLoginUTC r) (ur_Grid r)
    (NoiseClass r) (SolarSummaryMinutes r).
Definition set_LastLoginUTC (x : Z) (r : UserRecord) : UserRecord :=
  mkUserRecord (ur_Filter r) (RecentIPs r) (Dialect r) (DedupePolicy r) x (ur_Grid r)
    (NoiseClass r) (SolarSummaryMinutes r).
Definition set_ur_Filter (x : Filter) (r : UserRecord) : UserRecord :=
  mkUserRecord x (RecentIPs r) (Dialect r) (DedupePolicy r) (LastLoginUTC r) (ur_Grid r)
    (NoiseClass r) (SolarSummaryMinutes r).

(** Go's zero values. *)
Definition zero_domain {K} `{Countable K} : domain K := mkDomain None None false false.
Definition zeroLocation : NearbyLocationSnapshot :=
  mkLocation zero_domain zero_domain zero_domain zero_domain
    zero_domain zero_domain zero_domain zero_domain.
Definition zeroFilter : Filter :=
  mkFilter zero_domain zero_domain zero_domain zero_domain zero_domain zeroLocation [] [] [] []
    None None None None None false None 0 0 0.
(** The zero [time.Time], in nanoseconds from the Unix epoch. *)
Definition zeroTime : Z := -62135596800 * second.
Definition zeroUserRecord : UserRecord := mkUserRecord zeroFilter [] "" "" zeroTime "" "" 0.

(** What [LoadUserRecord] does to a decoded record. *)
Definition repair_record (r : UserRecord) : UserRecord :=
  mkUserRecord (normalizeDefaults (migrateLegacyConfidence (ur_Filter r)))
    (trimRecentIPs (RecentIPs r) maxRecentIPs)
    (if bool_decide (TrimSpace (Dialect r) = "") then "go" else Dialect r)
    (NormalizeDedupePolicy (DedupePolicy r))
    (LastLoginUTC r)
    (ToUpper (TrimSpace (ur_Grid r)))
    (ToUpper (TrimSpace (NoiseClass r)))
    (normalizeSolarSummaryMinutes (SolarSummaryMinutes r)).

(** What [SaveUserRecord] does before encoding (to the caller's record too). *)
Definition prepare_record (r : UserRecord) : UserRecord :=
  mkUserRecord (ur_Filter r) (trimRecentIPs (RecentIPs r) maxRecentIPs) (Dialect r)
    (NormalizeDedupePolicy (DedupePolicy r)) (LastLoginUTC r) (ur_Grid r) (NoiseClass r)
    (normalizeSolarSummaryMinutes (SolarSummaryMinutes r)).

Definition fresh_record (d : Defaults) : UserRecord :=
  mkUserRecord (NewFilter d) [] "go" "MED" zeroTime "" "" 0.

(** ** The file system *)

Inductive error := EEmptyCallsign | ENotExist | EIO | EYaml.
#[export] Instance error_eq_dec : EqDecision error.
Proof. solve_decision. Defined.

Definition UserDataDir : string := "data/users".

(** [filepath.Join] of a directory and a file name without path elements. *)
Definition userRecordPath (callsign : string) : string :=
  UserDataDir +:+ "/" +:+ ToUpper callsign +:+ ".yaml".

Section Store.
Context {bytes : Type}.
Variable Marshal : UserRecord -> option bytes.
Variable Unmarshal : bytes -> option UserRecord.
Variable d : Defaults.

Record Disk := mkDisk { files : gmap string bytes; broken : string -> bool }.

Definition ReadFile (k : Disk) (path : string) : error + bytes :=
  if broken k path then inl EIO
  else match files k !! path with None => inl ENotExist | Some bs => inr bs end.

Definition WriteFile (k : Disk) (path : string) (bs : bytes) : option error * Disk :=
  if broken k path then (Some EIO, k) else (None, mkDisk (<[path := bs]> (files k)) (broken k)).

Definition LoadUserRecord (k : Disk) (callsign : string) : error + UserRecord :=
  let callsign := TrimSpace callsign in
  if bool_decide (callsign = "") then inl EEmptyCallsign
  else match ReadFile k (userRecordPath callsign) with
       | inl e => inl e
       | inr bs => match Unmarshal bs with
                   | None => inl EYaml
                   | Some r => inr (repair_record r)
                   end
       end.

(** The error, the caller's record and the disk afterwards.  [os.MkdirAll] of
    the data directory fails when [broken] holds of the directory. *)
Definition SaveUserRecord (k : Disk) (callsign : string) (r : UserRecord) :
    option error * UserRecord * Disk :=
  let callsign := TrimSpace callsign in
  if bool_decide (callsign = "") then (Some EEmptyCallsign, r, k)
  else if broken k UserDataDir then (Some EIO, r, k)
  else
    let r := prepare_record r in
    match Marshal r with
    | None => (Some EYaml, r, k)
    | Some bs => let '(e, k') := WriteFile k (userRecordPath callsign) bs in (e, r, k')
    end.

Definition SaveUserFilter (k : Disk) (callsign : string) (f : Filter) : option error * Disk :=
  match LoadUserRecord k callsign with
  | inl e =>
      if bool_decide (e = ENotExist) then
        let '(e, _, k') := SaveUserRecord k callsign (set_ur_Filter f zeroUserRecord) in (e, k')
      else (Some e, k)
  | inr r => let '(e, _, k') := SaveUserRecord k callsign (set_ur_Filter f r) in (e, k')
  end.

Definition LoadUserFilter (k : Disk) (callsign : string) : error + Filter :=
  match LoadUserRecord k callsign with inl e => inl e | inr r => inr (ur_Filter r) end.

(** The record to update at login, and whether it is new. *)
Definition load_or_create (k : Disk) (callsign : string) : error + UserRecord * bool :=
  match LoadUserRecord k callsign with
  | inl e => if bool_decide (e = ENotExist) then inr (fresh_record d, true) else inl e
  | inr r => inr (r, false)
  end.

Definition TouchUserRecordIP (k : Disk) (callsign ip : string) :
    (error * bool + UserRecord * bool) * Disk :=
  match load_or_create k callsign with
  | inl e => (inl (e, false), k)
  | inr (r, created) =>
      let r := set_RecentIPs (UpdateRecentIPs (RecentIPs r) ip) r in
      let '(e, r, k') := SaveUserRecord k callsign r in
      match e with Some e => (inl (e, created), k') | None => (inr (r, created), k') end
  end.

(** On success: the record, whether it was created, the previous login time and
    the previous address. *)
Definition TouchUserRecordLogin (k : Disk) (callsign ip : string) (loginTime : Z) :
    (error * bool + UserRecord * bool * Z * string) * Disk :=
  let callsign := TrimSpace callsign in
  if bool_decide (callsign = "") then (inl (EEmptyCallsign, false), k)
  else
    match load_or_create k callsign with
    | inl e => (inl (e, false), k)
    | inr (r, created) =>
        let prevIP := match RecentIPs r with x :: _ => TrimSpace x | [] => "" end in
        let prevLogin := LastLoginUTC r in
        let r := set_LastLoginUTC loginTime (set_RecentIPs (UpdateRecentIPs (RecentIPs r) ip) r) in
        let '(e, r, k') := SaveUserRecord k callsign r in
        match e with
        | Some e => (inl (e, created), k')
        | None => (inr (r, created, prevLogin, prevIP), k')
        end
    end.
End Store.
Arguments Disk : clear implicits.

(** ** Recent addresses: what the loops compute *)

Definition other_ips (ip : string) (l : list string) : list string :=
  List.filter (fun x => negb (bool_decide (x = ip))) l.

Lemma update_recent_loop_spec ip recent updated :
  (length updated < 5)%nat ->
  update_recent_loop ip recent updated = take 5 (updated ++ other_ips ip recent).
Proof.
  revert updated. induction recent as [|x recent IH]; intros updated Hlen; simpl.
  - rewrite app_nil_r, take_ge by lia. done.
  - case_bool_decide; simpl; [by apply IH|].
    replace (updated ++ x :: other_ips ip recent) with ((updated ++ [x]) ++ other_ips ip recent)
      by (by rewrite <- app_assoc).
    assert (Hl : length (updated ++ [x]) = S (length updated)) by (rewrite length_app; simpl; lia).
    destruct (Z.leb_spec maxRecentIPs (Z.of_nat (length (updated ++ [x])))); unfold maxRecentIPs in *.
    + rewrite take_app_le, take_ge by lia. done.
    + apply IH. lia.
Qed.

Lemma trimRecentIPs_take l : trimRecentIPs l maxRecentIPs = take 5 l.
Proof.
  unfold trimRecentIPs, maxRecentIPs. simpl. destruct (Z.leb_spec (Z.of_nat (length l)) 5).
  - rewrite take_ge by lia. done.
  - done.
Qed.

(** [UpdateRecentIPs] puts the address first, drops its older occurrences, keeps
    the others in order and never more than five in all. *)
Theorem UpdateRecentIPs_spec recent ip :
  TrimSpace ip <> "" ->
  UpdateRecentIPs recent ip = take 5 (TrimSpace ip :: other_ips (TrimSpace ip) recent).
Proof.
  intros Hip. unfold UpdateRecentIPs. rewrite bool_decide_eq_false_2 by done.
  rewrite trimRecentIPs_take, update_recent_loop_spec by (simpl; lia).
  rewrite take_take. done.
Qed.

Lemma UpdateRecentIPs_spec_witness :
  UpdateRecentIPs ["10.0.0.1"; "10.0.0.2"; "10.0.0.3"] " 10.0.0.2 " = ["10.0.0.2"; "10.0.0.1"; "10.0.0.3"].
Proof. rewrite UpdateRecentIPs_spec; [reflexivity|discriminate]. Defined.

(** ** Repairing a loaded filter does not change what it delivers *)

Section Repair.
Context {K : Type} `{Countable K}.

(** A criterion whose all-flag agrees with its maps. *)
Definition coherent (d : domain K) : Prop :=
  allowAll d = false -> blockAll d = true \/ make_if_nil (allow d) <> ∅.

Lemma domain_rel_coherent h (d : domain K) : domain_rel h d -> coherent d.
Proof.
  intros [_ _ Hb Ha] Hall. rewrite Ha in Hall. rewrite Hb.
  destruct (shut h); [by left|right]. simpl in Hall.
  apply not_true_iff_false in Hall. by rewrite map_len_zero in Hall.
Qed.

(** The maps and the block-all flag kept, the all-flag only where it cannot
    matter. *)
Definition same_contents (d1 d2 : domain K) : Prop :=
  make_if_nil (allow d1) = make_if_nil (allow d2) /\
  make_if_nil (block d1) = make_if_nil (block d2) /\ blockAll d1 = blockAll d2 /\
  (blockAll d1 = false -> make_if_nil (allow d1) = ∅ -> allowAll d1 = allowAll d2).

Lemma repaired_same (d1 d2 : domain K) :
  make_if_nil (allow d1) = make_if_nil (allow d2) ->
  make_if_nil (block d1) = make_if_nil (block d2) -> blockAll d1 = blockAll d2 ->
  (make_if_nil (allow d1) = ∅ -> allowAll d1 = true) -> coherent d2 -> same_contents d1 d2.
Proof.
  intros Ha Hb Hblk Hopen Hc. split_and!; try done. intros Hb1 He. rewrite Hopen by done.
  destruct (allowAll d2) eqn:E; [done|]. destruct (Hc E); congruence.
Qed.

Lemma open_when_empty_open (d : domain K) :
  make_if_nil (allow d) = ∅ -> allowAll (open_when_empty d) = true.
Proof. intros He. unfold open_when_empty. simpl. by rewrite (proj2 (map_len_zero (allow d)) He). Qed.

Lemma open_when_empty_same d0 (d : domain K) :
  make_if_nil (allow d0) = make_if_nil (allow d) ->
  make_if_nil (block d0) = make_if_nil (block d) -> blockAll d0 = blockAll d ->
  coherent d -> same_contents (open_when_empty d0) d.
Proof. intros. apply repaired_same; auto. intros. by apply open_when_empty_open. Qed.
End Repair.

Lemma passesStringFilter_same tok d1 d2 :
  same_contents d1 d2 -> passesStringFilter tok d1 = passesStringFilter tok d2.
Proof.
  intros (Ha & Hb & Hblk & Hall). unfold passesStringFilter, map_get.
  assert (El : map_len (allow d1) = map_len (allow d2)) by (unfold map_len; by rewrite Ha).
  assert (Elb : map_len (block d1) = map_len (block d2)) by (unfold map_len; by rewrite Hb).
  rewrite <- El, <- Elb, <- Ha, <- Hb, <- Hblk. destruct (blockAll d1); [done|].
  destruct (map_len (allow d1) =? 0) eqn:Hz; [|by rewrite !andb_false_r].
  by rewrite (Hall eq_refl (proj1 (map_len_zero _) Hz)).
Qed.

Lemma passesIntFilter_same tok d1 d2 v :
  same_contents d1 d2 -> passesIntFilter tok d1 v = passesIntFilter tok d2 v.
Proof.
  intros (Ha & Hb & Hblk & Hall). unfold passesIntFilter, map_get.
  assert (El : map_len (allow d1) = map_len (allow d2)) by (unfold map_len; by rewrite Ha).
  assert (Elb : map_len (block d1) = map_len (block d2)) by (unfold map_len; by rewrite Hb).
  rewrite <- El, <- Elb, <- Ha, <- Hb, <- Hblk. destruct (blockAll d1); [done|].
  rewrite map_len_pos.
  rewrite (map_len_pos (allow d1)).
  destruct (map_len (allow d1) =? 0) eqn:Hz; [|by rewrite !andb_false_r].
  by rewrite (Hall eq_refl (proj1 (map_len_zero _) Hz)).
Qed.

(** Mode keys the PSK migration leaves alone. *)
Definition canonical_key (k : string) : Prop :=
  let '(canonical, _, ok) := CanonicalPSKMode k in (ok : bool) = true -> canonical = k.

Definition canonical_keys (m : gmap string bool) : Prop := forall k v, m !! k = Some v -> canonical_key k.

Lemma migrate_psk_key_id m k : canonical_key k -> migrate_psk_key m k = m.
Proof.
  unfold canonical_key, migrate_psk_key. destruct (CanonicalPSKMode k) as [[c ?] []]; [|done].
  intros ->; [|done]. rewrite bool_decide_eq_true_2 by done. by rewrite andb_false_r.
Qed.

Lemma migrate_psk_keys_id order m :
  Forall canonical_key order -> migrate_psk_keys order m = m.
Proof.
  unfold migrate_psk_keys. induction 1 as [|k order Hk _ IH]; simpl; [done|].
  by rewrite migrate_psk_key_id.
Qed.

Lemma map_keys_canonical m : canonical_keys m -> Forall canonical_key (map_keys m).
Proof.
  intros Hm. apply Forall_forall. intros k Hk. unfold map_keys in Hk.
  apply list_elem_of_fmap in Hk as ([k' v] & -> & Hk). apply elem_of_map_to_list in Hk. by eapply Hm.
Qed.

(** Filters as sessions leave them. *)
Record filter_wf (f : Filter) : Prop := {
  wf_axes : forall a, coherent (get_axis a f);
  wf_ints : forall a, coherent (get_int a f);
  wf_modes : canonical_keys (make_if_nil (allow (Modes f)));
  wf_blocked_modes : canonical_keys (make_if_nil (block (Modes f)));
  wf_legacy : LegacyMinConfidence f = 0
}.

(** The YAML image: the fields tagged ["-"] are not written, and a map comes back
    non-nil. *)
Definition persisted_location (l : NearbyLocationSnapshot) : NearbyLocationSnapshot :=
  mkLocation (ensure_maps (DXContinents l)) (ensure_maps (DEContinents l))
    (ensure_maps (DXZones l)) (ensure_maps (DEZones l))
    (ensure_maps (DXGrid2Prefixes l)) (ensure_maps (DEGrid2Prefixes l))
    (ensure_maps (DXDXCC l)) (ensure_maps (DEDXCC l)).

Definition persisted_filter (f : Filter) : Filter :=
  mkFilter (ensure_maps (Bands f)) (ensure_maps (Modes f)) (ensure_maps (Sources f))
    (ensure_maps (ConfidenceGlyphs f)) (ensure_maps (PathClasses f)) (persisted_location (Location f))
    (DXCallsigns f) (BlockDXCallsigns f) (DECallsigns f) (BlockDECallsigns f)
    (IncludeBeacons f) (AllowWWV f) (AllowWCY f) (AllowAnnounce f) (AllowSelf f)
    (NearbyEnabled f) None InvalidCell InvalidCell (LegacyMinConfidence f).

Definition persisted (r : UserRecord) : UserRecord := set_ur_Filter (persisted_filter (ur_Filter r)) r.

(** A filter as it comes back from disk. *)
Definition reload (f : Filter) : Filter :=
  normalizeDefaults (migrateLegacyConfidence (persisted_filter f)).

Definition reloaded_modes (m : domain string) : domain string :=
  let a := migrate_psk_keys (map_keys (make_if_nil (allow m))) (make_if_nil (allow m)) in
  let b := migrate_psk_keys (map_keys (make_if_nil (block m))) (make_if_nil (block m)) in
  open_when_empty (mkDomain (Some a) (Some b) (map_len (Some a) =? 0) (blockAll m)).

Lemma reload_eq f : LegacyMinConfidence f = 0 ->
  reload f =
    mkFilter (normalize_domain (Bands f)) (reloaded_modes (Modes f)) (normalize_domain (Sources f))
      (normalize_domain (open_when_empty (ensure_maps (ConfidenceGlyphs f))))
      (normalize_domain (open_when_empty (ensure_maps (PathClasses f))))
      (normalize_location (Location f))
      (DXCallsigns f) (BlockDXCallsigns f) (DECallsigns f) (BlockDECallsigns f)
      (IncludeBeacons f) (Some (WWVEnabled f)) (Some (WCYEnabled f)) (Some (AnnounceEnabled f))
      (Some (SelfEnabled f)) (NearbyEnabled f) None InvalidCell InvalidCell 0.
Proof. destruct f; simpl; intros ->; reflexivity. Qed.

#[local] Opaque normalizeDefaults migrateLegacyConfidence persisted_filter.

Lemma reload_axis f a : filter_wf f -> same_contents (get_axis a (reload f)) (get_axis a f).
Proof.
  intros Hwf. pose proof (wf_axes f Hwf a) as Hc. rewrite reload_eq by apply Hwf.
  destruct a; simpl; try (apply open_when_empty_same; done).
  unfold reloaded_modes. rewrite !migrate_psk_keys_id by (apply map_keys_canonical, Hwf).
  apply open_when_empty_same; done.
Qed.

Lemma reload_int f a : filter_wf f -> same_contents (get_int a (reload f)) (get_int a f).
Proof.
  intros Hwf. pose proof (wf_ints f Hwf a) as Hc. rewrite reload_eq by apply Hwf.
  destruct a; simpl; apply open_when_empty_same; done.
Qed.

Lemma reload_matches EncodeCell EncodeCoarseCell f s pc :
  filter_wf f -> NearbyEnabled f = false ->
  matchesWithPath EncodeCell EncodeCoarseCell (reload f) s pc =
  matchesWithPath EncodeCell EncodeCoarseCell f s pc.
Proof.
  intros Hwf Hn. rewrite !matchesWithPath_conj.
  pose proof (fun a => reload_axis f a Hwf) as Hax. pose proof (fun a => reload_int f a Hwf) as Hint.
  pose proof (reload_eq f (wf_legacy f Hwf)) as E.
  assert (Hrest : NearbyEnabled (reload f) = false /\ BeaconsEnabled (reload f) = BeaconsEnabled f /\
    get_calls true (reload f) = get_calls true f /\ get_calls false (reload f) = get_calls false f).
  { rewrite E. by rewrite <- Hn. }
  destruct Hrest as (-> & -> & Hdx & Hde). injection Hdx as -> ->. injection Hde as -> ->.
  rewrite Hn, !passesLocation_conj. clear E.
  rewrite (passesStringFilter_same _ _ _ (Hax ABand)), (passesStringFilter_same _ _ _ (Hax AMode)),
    (passesStringFilter_same _ _ _ (Hax ASource)), (passesStringFilter_same _ _ _ (Hax AConfidence)),
    (passesStringFilter_same _ _ _ (Hax APath)), (passesStringFilter_same _ _ _ (Hax ADXCont)),
    (passesStringFilter_same _ _ _ (Hax ADECont)), (passesStringFilter_same _ _ _ (Hax ADXGrid2)),
    (passesStringFilter_same _ _ _ (Hax ADEGrid2)), (passesIntFilter_same _ _ _ _ (Hint ADXZone)),
    (passesIntFilter_same _ _ _ _ (Hint ADEZone)), (passesIntFilter_same _ _ _ _ (Hint ADXDXCC)),
    (passesIntFilter_same _ _ _ _ (Hint ADEDXCC)).
  reflexivity.
Qed.

(** ** Sessions leave well-formed filters *)

Lemma pskVariantMap_canonical m c : pskVariantMap !! m = Some c -> c = "PSK".
Proof.
  unfold pskVariantMap. intros Hm.
  repeat (apply lookup_insert_Some in Hm as [[_ <-]|[_ Hm]]; [done|]).
  by apply lookup_singleton_Some in Hm as [_ <-].
Qed.

Lemma canonicalModeToken_canonical t : canonical_key (canonicalModeToken t).
Proof.
  unfold canonicalModeToken. cbv zeta. set (m := ToUpper (TrimSpace t)).
  destruct (CanonicalPSKMode m) as [[c v] ok] eqn:E. destruct ok.
  - unfold CanonicalPSKMode, canonicalPSKModeUpper in E. repeat case_match; simplify_eq.
    match goal with H : pskVariantMap !! _ = Some _ |- _ => apply pskVariantMap_canonical in H as -> end.
    by vm_compute.
  - unfold canonical_key. by rewrite E.
Qed.

Definition cmd_keys {K} (P : K -> Prop) (h : list (dcmd K)) : Prop :=
  Forall (fun c => match c with PassTok k | RejectTok k => P k | _ => True end) h.

Lemma verdict_keys {K} `{Countable K} (P : K -> Prop) (h : list (dcmd K)) k b :
  cmd_keys P h -> verdict h k = Some b -> P k.
Proof.
  induction 1 as [|[k'|k'| |] h Hk _ IH]; simpl; try done; case_bool_decide; naive_solver.
Qed.

(** Default modes as [SetDefaultModeSelection] stores them. *)
Definition defaults_canonical (d : Defaults) : Prop :=
  defaults_ok d /\ Forall canonical_key (defaultModeSelection d).

Lemma SetDefaultModeSelection_canonical modes d : defaults_canonical (SetDefaultModeSelection modes d).
Proof.
  assert (Hb : forall s, defaults_canonical (mkDefaults builtinModes s)).
  { intros s. split; [apply initialDefaults_ok|]. simpl. unfold builtinModes.
    repeat constructor; by vm_compute. }
  unfold SetDefaultModeSelection. case_bool_decide; [apply Hb|].
  case_bool_decide as Hne; [apply Hb|]. split; [split; [done|]|]; simpl.
  - rewrite list_elem_of_In, filter_In. by intros [_ ?].
  - apply Forall_forall. intros k. rewrite list_elem_of_In, filter_In, in_map_iff.
    intros [(t & <- & _) _]. apply canonicalModeToken_canonical.
Qed.

Lemma history_mode_keys d ops : defaults_canonical d -> cmd_keys canonical_key (history d AMode ops).
Proof.
  intros [_ Hd]. assert (Hinit : cmd_keys canonical_key (init_hist d AMode)).
  { simpl. assert (Hb : cmd_keys canonical_key [PassAll]) by (by repeat constructor).
    revert Hb. generalize [PassAll (K := string)].
    induction Hd as [|m l Hm _ IH]; simpl; intros h Hh; [done|]. apply IH. by constructor. }
  unfold history. induction ops as [|op ops IH] using rev_ind; [done|].
  rewrite foldl_app. simpl. destruct op; simpl; try done; try (case_bool_decide; [|done]).
  - constructor; [|done]. destruct enabled; apply canonicalModeToken_canonical.
  - constructor; [|done]. by destruct enabled.
  - by constructor.
Qed.

Lemma legacy_new d : LegacyMinConfidence (NewFilter d) = 0.
Proof.
  assert (Hnew : forall l g, LegacyMinConfidence (foldl (fun f s => SetSource s true f) g l) =
                             LegacyMinConfidence g).
  { induction l as [|x l IH]; intros g; simpl; [done|]. rewrite IH.
    unfold SetSource; cbv zeta. by case_bool_decide. }
  unfold NewFilter, SetBeaconEnabled, set_IncludeBeacons. cbv zeta. cbn [LegacyMinConfidence].
  rewrite Hnew. reflexivity.
Qed.

Lemma legacy_step d f op :
  LegacyMinConfidence f = 0 -> LegacyMinConfidence (apply_op d f op) = 0.
Proof.
  intros Hl. destruct op; cbn [apply_op]; [crush_op ..| |].
  - unfold Reset, DisableNearby. simpl. by destruct (NearbySnapshot f).
  - unfold ResetToDefaults. rewrite legacy_new. reflexivity.
Qed.

Lemma session_wf d ops :
  defaults_canonical d -> forallb nearby_free ops = true ->
  filter_wf (run_ops d ops (NewFilter d)).
Proof.
  intros Hd Hn. split.
  - intros a. eapply domain_rel_coherent, session_rel; [apply Hd|by right].
  - intros a. by eapply domain_rel_coherent, session_int_rel.
  - intros k v Hk. pose proof (session_rel d AMode ops (proj1 Hd) (or_intror Hn)) as Hrel.
    rewrite (rel_allow _ _ Hrel) in Hk. case_bool_decide as Hv; [|done].
    eapply verdict_keys; [by apply history_mode_keys|exact Hv].
  - intros k v Hk. pose proof (session_rel d AMode ops (proj1 Hd) (or_intror Hn)) as Hrel.
    rewrite (rel_block _ _ Hrel) in Hk. case_bool_decide as Hv; [|done].
    eapply verdict_keys; [by apply history_mode_keys|exact Hv].
  - unfold run_ops. induction ops as [|op ops IH] using rev_ind.
    + apply legacy_new.
    + rewrite foldl_app. simpl. apply legacy_step, IH. rewrite forallb_app in Hn. by boolify.
Qed.

Lemma NormalizeDedupePolicy_idemp v :
  NormalizeDedupePolicy (NormalizeDedupePolicy v) = NormalizeDedupePolicy v.
Proof.
  unfold NormalizeDedupePolicy. cbv zeta.
  destruct (bool_decide (ToUpper (TrimSpace v) ∈ ["FAST"; "MED"; "SLOW"])) eqn:E; [|done].
  by rewrite TrimSpace_ToUpper, ToUpper_idemp, TrimSpace_idemp, E.
Qed.

Lemma normalizeSolarSummaryMinutes_idemp m :
  normalizeSolarSummaryMinutes (normalizeSolarSummaryMinutes m) = normalizeSolarSummaryMinutes m.
Proof.
  unfold normalizeSolarSummaryMinutes.
  destruct (bool_decide (m ∈ [15; 30; 60])) eqn:E; [by rewrite E|done].
Qed.

(** ** Save, then load *)

Section Persistence.
Context {bytes : Type}.
Variable Marshal : UserRecord -> option bytes.
Variable Unmarshal : bytes -> option UserRecord.
Hypothesis yaml_roundtrip : forall r bs, Marshal r = Some bs -> Unmarshal bs = Some (persisted r).

Lemma save_then_load (k k' : Disk bytes) call call' r r1 :
  ToUpper (TrimSpace call) = ToUpper (TrimSpace call') ->
  SaveUserRecord Marshal k call r = (None, r1, k') ->
  LoadUserRecord Unmarshal k' call' = inr (repair_record (persisted (prepare_record r))).
Proof.
  unfold SaveUserRecord, LoadUserRecord, userRecordPath, WriteFile, ReadFile. cbv zeta. intros Hcall.
  assert (Hne : TrimSpace call' <> "" \/ TrimSpace call = "").
  { destruct (TrimSpace call'); [|by left]. right. by destruct (TrimSpace call). }
  repeat case_match; intros; simplify_eq; boolify; try done; try (by destruct Hne).
  all: try (by simpl in *; congruence).
  all: try (simpl in *; rewrite Hcall in *; congruence).
  all: simpl in *; rewrite ?Hcall, ?lookup_insert_eq in *; simplify_eq.
  all: match goal with H : Marshal _ = Some _ |- _ => apply yaml_roundtrip in H end; by simplify_eq.
Qed.


(** Saving a filter keeps the rest of an existing record: addresses, dialect,
    policy, grid, noise class, solar cadence and last login are read back as
    they were. *)
Theorem SaveUserFilter_keeps_metadata (k k' : Disk bytes) call f r :
  LoadUserRecord Unmarshal k call = inr r ->
  SaveUserFilter Marshal Unmarshal k call f = (None, k') ->
  LoadUserRecord Unmarshal k' call = inr (set_ur_Filter (reload f) r).
Proof.
  intros Hload Hsave. unfold SaveUserFilter in Hsave. rewrite Hload in Hsave.
  destruct (SaveUserRecord Marshal k call (set_ur_Filter f r)) as [[e r1] k1] eqn:E. simplify_eq.
  rewrite (save_then_load _ _ _ call _ _ eq_refl E). f_equal.
  unfold LoadUserRecord in Hload. cbv zeta in Hload. repeat case_match; simplify_eq.
  unfold repair_record, persisted, prepare_record, set_ur_Filter, reload. cbn [ur_Filter RecentIPs Dialect
    DedupePolicy LastLoginUTC ur_Grid NoiseClass SolarSummaryMinutes].
  rewrite !trimRecentIPs_take, !take_take.
  rewrite !TrimSpace_ToUpper, !ToUpper_idemp, !TrimSpace_idemp.
  f_equal.
  - destruct (bool_decide (TrimSpace (Dialect _) = "")) eqn:E1; [done|]. by rewrite E1.
  - by rewrite !NormalizeDedupePolicy_idemp.
  - by rewrite !normalizeSolarSummaryMinutes_idemp.
Qed.
End Persistence.

(** A codec with the documented behaviour, for the witnesses. *)
Definition sample_disk : Disk UserRecord := mkDisk ∅ (fun _ => false).
Definition sample_ops : list filter_op :=
  [OpAll AMode true; OpTok AMode "psk31" true; OpAll ABand false; OpTok ABand "20m" true;
   OpInt ADXZone 14 false; OpCall false "W3*" false].

Lemma initialDefaults_canonical : defaults_canonical initialDefaults.
Proof. apply (SetDefaultModeSelection_canonical [] initialDefaults). Qed.


Lemma SaveUserFilter_keeps_metadata_witness :
  let r := mkUserRecord zeroFilter ["10.0.0.1"] "cc" "slow" 5 "fn42" "" 30 in
  let k := mkDisk {["data/users/W1AW.yaml" := r]} (fun _ => false) in
  LoadUserRecord Some (snd (SaveUserFilter (fun r => Some (persisted r)) Some k "W1AW"
                              (NewFilter initialDefaults))) "W1AW" =
  inr (set_ur_Filter (reload (NewFilter initialDefaults)) (repair_record r)).
Proof.
  intros r k.
  refine (SaveUserFilter_keeps_metadata (fun r => Some (persisted r)) Some _ k _ "W1AW"
            (NewFilter initialDefaults) (repair_record r) _ _).
  - intros x bs E. injection E as <-. reflexivity.
  - reflexivity.
  - reflexivity.
Defined.

(** ** The PSK migration and map iteration order *)

(** A legacy spelling the migration renames. *)
Definition legacy_psk (k : string) : bool :=
  let '(canonical, _, ok) := CanonicalPSKMode k in
  (ok : bool) && nonempty canonical && negb (bool_decide (canonical = k)).

Lemma legacy_psk_step m k :
  migrate_psk_key m k = if legacy_psk k then delete k (<["PSK" := true]> m) else m.
Proof.
  unfold migrate_psk_key, legacy_psk, CanonicalPSKMode, canonicalPSKModeUpper.
  case_bool_decide; [done|]. destruct (pskVariantMap !! _) as [c|] eqn:E; [|done].
  by apply pskVariantMap_canonical in E as ->.
Qed.

Lemma migrate_psk_keys_lookup order m k :
  migrate_psk_keys order m !! k =
    if bool_decide (k ∈ order) && legacy_psk k then None
    else if bool_decide (k = "PSK") && existsb legacy_psk order then Some true
    else m !! k.
Proof.
  unfold migrate_psk_keys. induction order as [|x order IH] using rev_ind.
  - by rewrite bool_decide_eq_false_2, andb_false_r by apply not_elem_of_nil.
  - rewrite foldl_app. cbn [foldl]. rewrite legacy_psk_step, existsb_app. cbn [existsb].
    rewrite orb_false_r.
    assert (Hin : bool_decide (k ∈ order ++ [x]) = bool_decide (k ∈ order) || bool_decide (k = x)).
    { apply eq_true_iff_eq. rewrite orb_true_iff, !bool_decide_eq_true, elem_of_app,
        list_elem_of_singleton. done. }
    rewrite Hin. destruct (legacy_psk x) eqn:Hx.
    + destruct (decide (k = x)) as [->|Hne].
      * rewrite lookup_delete_eq, (bool_decide_eq_true_2 (x = x)), orb_true_r, Hx by done. done.
      * rewrite lookup_delete_ne, (bool_decide_eq_false_2 (k = x)), orb_false_r, orb_true_r by done.
        destruct (decide (k = "PSK")) as [->|Hk].
        -- rewrite lookup_insert_eq. by rewrite andb_false_r.
        -- rewrite lookup_insert_ne, IH, (bool_decide_eq_false_2 (k = "PSK")) by done. done.
    + rewrite IH, orb_false_r. destruct (decide (k = x)) as [->|Hne].
      * by rewrite Hx, !andb_false_r.
      * by rewrite (bool_decide_eq_false_2 (k = x)), orb_false_r.
Qed.

(** Go visits a map in an unspecified order, and the migration of PSK mode
    names changes the map it ranges over; the result is the same in every
    order, with no legacy name left in it. *)
Theorem migratePSK_order_irrelevant order (m : gmap string bool) :
  order ≡ₚ map_keys m ->
  migrate_psk_keys order m = migrate_psk_keys (map_keys m) m /\
  (forall k v, migrate_psk_keys order m !! k = Some v -> legacy_psk k = false).
Proof.
  intros Hperm. split.
  - apply map_eq. intros k. rewrite !migrate_psk_keys_lookup.
    assert (E1 : bool_decide (k ∈ order) = bool_decide (k ∈ map_keys m))
      by (apply bool_decide_ext; by rewrite Hperm).
    assert (E2 : existsb legacy_psk order = existsb legacy_psk (map_keys m)).
    { apply eq_true_iff_eq. rewrite !existsb_exists_elem. by setoid_rewrite Hperm. }
    by rewrite E1, E2.
  - intros k v Hk. rewrite migrate_psk_keys_lookup in Hk.
    destruct (legacy_psk k) eqn:El; [|done].
    destruct (bool_decide (k = "PSK")) eqn:Ep; [apply bool_decide_eq_true in Ep as ->; done|].
    simpl in Hk. rewrite andb_true_r in Hk. case_bool_decide as Hin; [done|].
    exfalso. apply Hin. rewrite Hperm. unfold map_keys.
    apply list_elem_of_fmap. exists (k, v). split; [done|]. by apply elem_of_map_to_list.
Qed.

Lemma migratePSK_order_irrelevant_witness :
  let m : gmap string bool := {["CW" := true; "PSK31" := true; "PSK63" := true]} in
  migrate_psk_keys (rev (map_keys m)) m = migrate_psk_keys (map_keys m) m.
Proof. intros m. apply (migratePSK_order_irrelevant (rev (map_keys m)) m). symmetry. apply Permutation_rev. Defined.
