(* ===== verification/FilterShow.v ===== *)
(** * SHOW FILTER

    Models the snapshot formatter of [src/telnet/filter_commands.go]: the
    allow/block labels of every criterion and the wrapped summary.  The ADIF
    codes of the CTY database are the argument [adifs] of the functions that
    consult it (its map order does not matter: the codes are sorted). *)

From stdpp Require Import sorting.
From S2P Require Import Prelude GoText GoNum Callsign Bands Spot Filter FilterMatch FilterSession.
Local Open Scope string_scope.
Local Open Scope list_scope.
Local Open Scope Z_scope.

Definition nl : string := String "010"%char "".

(** ** Sorting *)

(** [sort.Strings] orders by bytes. *)
Definition str_le (a b : string) : Prop := String.leb a b = true.
#[export] Instance str_le_dec : RelDecision str_le.
Proof. intros a b. unfold Decision, str_le. apply bool_eq_dec. Defined.

Definition sort_strings (l : list string) : list string := merge_sort str_le l.
Definition sort_ints (l : list Z) : list Z := merge_sort Z.le l.

(** ** Lists of values *)

Definition keys_of {K} `{Countable K} (m : gomap K) : list K := (map_to_list (make_if_nil m)).*1.

Definition keysString (m : gomap string) : list string := sort_strings (keys_of m).

Definition orderedStringValues (values : gomap string) (supported : list string) : list string :=
  if map_len values =? 0 then []
  else if bool_decide (supported = []) then keysString values
  else
    let out := List.filter (map_get values) supported in
    let extras := List.filter (fun entry => negb (bool_decide (entry ∈ out))) (keys_of values) in
    out ++ sort_strings extras.

Definition orderedIntValues (values : gomap Z) : list Z :=
  if map_len values =? 0 then [] else sort_ints (keys_of values).

Definition joinIntValues (values : list Z) : string := Join (map Itoa values) ", ".

Definition coversAllSupported (values : gomap string) (supported : list string) : bool :=
  if bool_decide (supported = []) then false else forallb (map_get values) supported.

Definition coversAllRange (values : gomap Z) (min max : Z) : bool :=
  if (min <=? 0) || (max <? min) then false
  else forallb (map_get values) (seqZ min (max - min + 1)).

Definition coversAllSupportedInts (values : gomap Z) (supported : list Z) : bool :=
  if bool_decide (supported = []) then false else forallb (map_get values) supported.

Definition supportedDXCCCodes (adifs : list Z) : list Z :=
  sort_ints (remove_dups (List.filter (fun a => 0 <? a) adifs)).

(** ** Labels of one criterion *)

Record allowBlockSnapshot := mkSnapshot {
  sn_allow : string;
  sn_block : string;
  effective : string;
  sn_allowAll : bool;
  sn_blockAll : bool;
  allowList : string;
  blockList : string;
  allowCount : Z;
  blockCount : Z
}.

Definition effectiveAllowBlockLabel (allowAll blockAll : bool) (allowList blockList : string) : string :=
  if blockAll then "all blocked"
  else if allowAll then
    if bool_decide (blockList = "") then "all pass" else "all except: " +:+ blockList
  else if bool_decide (allowList = "") then "none pass"
  else "only: " +:+ allowList.

Definition buildAllowBlockSnapshot (allowAll blockAll : bool) (allowList blockList : string)
    (allowCount blockCount : Z) : allowBlockSnapshot :=
  let allowLabel := if allowAll then "ALL" else if nonempty allowList then allowList else "NONE" in
  let blockLabel := if blockAll then "ALL" else if nonempty blockList then blockList else "NONE" in
  mkSnapshot allowLabel blockLabel (effectiveAllowBlockLabel allowAll blockAll allowList blockList)
    allowAll blockAll allowList blockList allowCount blockCount.

Definition snapshotAllowBlockStrings (d : domain string) (supported : list string) : allowBlockSnapshot :=
  let allowValues := orderedStringValues (allow d) supported in
  let blockValues := orderedStringValues (block d) supported in
  buildAllowBlockSnapshot (allowAll d || coversAllSupported (allow d) supported) (blockAll d)
    (Join allowValues ", ") (Join blockValues ", ")
    (Z.of_nat (length allowValues)) (Z.of_nat (length blockValues)).

Definition snapshotAllowBlockIntsRange (d : domain Z) (min max : Z) : allowBlockSnapshot :=
  let allowValues := orderedIntValues (allow d) in
  let blockValues := orderedIntValues (block d) in
  buildAllowBlockSnapshot (allowAll d || coversAllRange (allow d) min max) (blockAll d)
    (joinIntValues allowValues) (joinIntValues blockValues)
    (Z.of_nat (length allowValues)) (Z.of_nat (length blockValues)).

Definition snapshotAllowBlockIntsSupported (d : domain Z) (supported : list Z) : allowBlockSnapshot :=
  let allowValues := orderedIntValues (allow d) in
  let blockValues := orderedIntValues (block d) in
  buildAllowBlockSnapshot (allowAll d || coversAllSupportedInts (allow d) supported) (blockAll d)
    (joinIntValues allowValues) (joinIntValues blockValues)
    (Z.of_nat (length allowValues)) (Z.of_nat (length blockValues)).

Definition formatAllowBlockLine (name : string) (sn : allowBlockSnapshot) : string :=
  name +:+ ": allow=" +:+ sn_allow sn +:+ " block=" +:+ sn_block sn +:+
  " (effective: " +:+ effective sn +:+ ")" +:+ nl.

(** ** The one-line summary *)

Definition clampSummaryField (field : string) (maxLen : Z) : string :=
  if (maxLen <=? 0) || (len field <=? maxLen) then field
  else if maxLen <=? 3 then stake (Z.to_nat maxLen) field
  else stake (Z.to_nat (maxLen - 3)) field +:+ "...".

Definition summaryEffectiveLabel (sn : allowBlockSnapshot) (maxLen : Z) : string :=
  let label := effective sn in
  if len label <=? maxLen then label
  else if sn_blockAll sn then label
  else if sn_allowAll sn then
    let label := if nonempty (blockList sn)
                 then "all except: " +:+ Itoa (blockCount sn) +:+ " items" else label in
    clampSummaryField label maxLen
  else
    let label := if nonempty (allowList sn)
                 then "only: " +:+ Itoa (allowCount sn) +:+ " items" else label in
    clampSummaryField label maxLen.

Definition summaryAllowBlockField (name : string) (sn : allowBlockSnapshot) (maxFieldLen : Z) : string :=
  if maxFieldLen <=? len name + 1 then name
  else
    let maxLabelLen := maxFieldLen - len name - 1 in
    clampSummaryField (name +:+ "=" +:+ summaryEffectiveLabel sn maxLabelLen) maxFieldLen.

(** The loop over the fields: finished lines, the prefix of the current line and
    the current line. *)
Definition wrap_step (indent : string) (maxWidth : Z) (st : list string * string * string)
    (field : string) : list string * string * string :=
  let '(lines, linePrefix, line) := st in
  let field := TrimSpace field in
  if bool_decide (field = "") then st
  else
    let sep := if len linePrefix <? len line then " | " else "" in
    let candidate := line +:+ sep +:+ field in
    if (maxWidth <? len candidate) && (len linePrefix <? len line)
    then (lines ++ [line], indent, indent +:+ field)
    else (lines, linePrefix, candidate).

Definition wrapSummaryLines (prefix indent : string) (fields : list string) (maxWidth : Z) : list string :=
  if maxWidth <=? 0 then [prefix +:+ Join fields " | "]
  else
    let '(lines, _, line) := foldl (wrap_step indent maxWidth) ([], prefix, prefix) fields in
    if bool_decide (TrimSpace line = "") then lines else lines ++ [line].

(** ** Callsigns and switches *)

Definition patternListHasAll (patterns : list string) : bool :=
  existsb (fun p => bool_decide (TrimSpace p = "*")) patterns.

Definition callsignSnapshot (name : string) (allow block : list string) : string * string :=
  let allowLabel := if bool_decide (allow = []) then "ALL" else Join allow ", " in
  let blockLabel := if bool_decide (block = []) then "NONE" else Join block ", " in
  let blockLabel := if patternListHasAll block then "ALL" else blockLabel in
  let na := Itoa (Z.of_nat (length allow)) in
  let nb := Itoa (Z.of_nat (length block)) in
  let summary :=
    if bool_decide (allow = []) && bool_decide (block = []) then name +:+ "=all pass"
    else if bool_decide (allow = []) then name +:+ "=blocklist(" +:+ nb +:+ ")"
    else if bool_decide (block = []) then name +:+ "=allowlist(" +:+ na +:+ ")"
    else name +:+ "=allow(" +:+ na +:+ ") block(" +:+ nb +:+ ")" in
  let effective := if bool_decide (allow = []) then "all pass" else "allowlist" in
  let effective :=
    if patternListHasAll block then "none pass"
    else if negb (bool_decide (block = [])) && bool_decide (allow = []) then "all except blocklist"
    else if negb (bool_decide (block = [])) && negb (bool_decide (allow = []))
         then "allowlist minus blocklist"
    else effective in
  (summary, name +:+ ": allow=" +:+ allowLabel +:+ " block=" +:+ blockLabel +:+
            " (effective: " +:+ effective +:+ ")" +:+ nl).

Definition toggleSnapshot (name : string) (enabled : bool) (raw : option bool) : string * string :=
  let status := if enabled then "ON" else "OFF" in
  (name +:+ "=" +:+ status,
   match raw with
   | None => name +:+ ": " +:+ status +:+ " (default)" +:+ nl
   | Some _ => name +:+ ": " +:+ status +:+ nl
   end).

(** ** The whole listing *)

Definition summaryPrefix : string := "Current filters: ".
Definition summaryIndent : string := Repeat " " (String.length summaryPrefix).
Definition summaryMaxWidth : Z := 78.
Definition maxFieldLen : Z :=
  let n := summaryMaxWidth - len summaryIndent in if n <? 1 then summaryMaxWidth else n.

Definition string_criteria (f : Filter) : list (string * allowBlockSnapshot) :=
  [("BAND", snapshotAllowBlockStrings (Bands f) SupportedBandNames);
   ("MODE", snapshotAllowBlockStrings (Modes f) SupportedModes);
   ("SOURCE", snapshotAllowBlockStrings (Sources f) SupportedSources)].

Definition location_criteria (f : Filter) (adifs : list Z) : list (string * allowBlockSnapshot) :=
  let l := Location f in
  let codes := supportedDXCCCodes adifs in
  [("CONFIDENCE", snapshotAllowBlockStrings (ConfidenceGlyphs f) SupportedConfidenceSymbols);
   ("PATH", snapshotAllowBlockStrings (PathClasses f) SupportedPathClasses);
   ("DXCONT", snapshotAllowBlockStrings (DXContinents l) SupportedContinents);
   ("DECONT", snapshotAllowBlockStrings (DEContinents l) SupportedContinents);
   ("DXZONE", snapshotAllowBlockIntsRange (DXZones l) minCQZone maxCQZone);
   ("DEZONE", snapshotAllowBlockIntsRange (DEZones l) minCQZone maxCQZone);
   ("DXDXCC", snapshotAllowBlockIntsSupported (DXDXCC l) codes);
   ("DEDXCC", snapshotAllowBlockIntsSupported (DEDXCC l) codes);
   ("DXGRID2", snapshotAllowBlockStrings (DXGrid2Prefixes l) []);
   ("DEGRID2", snapshotAllowBlockStrings (DEGrid2Prefixes l) [])].

Definition call_snapshots (f : Filter) : list (string * string) :=
  [callsignSnapshot "DXCALL" (DXCallsigns f) (BlockDXCallsigns f);
   callsignSnapshot "DECALL" (DECallsigns f) (BlockDECallsigns f)].

Definition switch_snapshots (f : Filter) : list (string * string) :=
  [(if NearbyActive f then ("NEARBY=ON", "NEARBY: ON (location filters suspended)" +:+ nl)
    else ("NEARBY=OFF", "NEARBY: OFF" +:+ nl));
   toggleSnapshot "BEACON" (BeaconsEnabled f) (IncludeBeacons f);
   toggleSnapshot "WWV" (WWVEnabled f) (AllowWWV f);
   toggleSnapshot "WCY" (WCYEnabled f) (AllowWCY f);
   toggleSnapshot "ANNOUNCE" (AnnounceEnabled f) (AllowAnnounce f);
   toggleSnapshot "SELF" (SelfEnabled f) (AllowSelf f)].

Definition summary_fields (f : Filter) (adifs : list Z) : list string :=
  map (fun '(name, sn) => summaryAllowBlockField name sn maxFieldLen) (string_criteria f) ++
  map (fun '(summary, _) => clampSummaryField summary maxFieldLen) (call_snapshots f) ++
  map (fun '(name, sn) => summaryAllowBlockField name sn maxFieldLen) (location_criteria f adifs) ++
  map (fun '(summary, _) => clampSummaryField summary maxFieldLen) (switch_snapshots f).

Definition summary_lines (f : Filter) (adifs : list Z) : list string :=
  wrapSummaryLines summaryPrefix summaryIndent (summary_fields f adifs) summaryMaxWidth.

Definition formatFilterSnapshot (f : Filter) (adifs : list Z) : string :=
  Join (map (fun line => line +:+ nl) (summary_lines f adifs) ++
        map (fun '(name, sn) => formatAllowBlockLine name sn) (string_criteria f) ++
        map snd (call_snapshots f) ++
        map (fun '(name, sn) => formatAllowBlockLine name sn) (location_criteria f adifs) ++
        map snd (switch_snapshots f)) "".

(** ** The summary fits the screen *)

Lemma clampSummaryField_len field n : 0 < n -> len (clampSummaryField field n) <= n.
Proof.
  intros Hn. unfold clampSummaryField.
  destruct ((n <=? 0) || (len field <=? n)) eqn:E.
  - apply orb_true_iff in E as [E|E]; boolify; lia.
  - boolify. destruct (Z.leb_spec n 3).
    + unfold len in *. rewrite length_stake. lia.
    + rewrite len_sapp. unfold len in *. rewrite length_stake. simpl. lia.
Qed.

Lemma summaryAllowBlockField_len name sn n :
  0 < n -> len name + 1 < n -> len (summaryAllowBlockField name sn n) <= n.
Proof.
  intros Hn Hname. unfold summaryAllowBlockField.
  destruct (Z.leb_spec n (len name + 1)); [lia|]. by apply clampSummaryField_len.
Qed.

Lemma summary_fields_len f adifs : Forall (fun x => len x <= maxFieldLen) (summary_fields f adifs).
Proof.
  unfold summary_fields. cbv [string_criteria call_snapshots location_criteria switch_snapshots].
  repeat rewrite Forall_app. cbn [map]. split_and!; repeat apply List.Forall_cons;
    try apply List.Forall_nil;
    first [ apply summaryAllowBlockField_len; compute_goal
          | destruct (callsignSnapshot _ _ _); by apply clampSummaryField_len
          | destruct (toggleSnapshot _ _ _); by apply clampSummaryField_len
          | destruct (NearbyActive f); by apply clampSummaryField_len ].
Qed.

(** Between two fields of the loop: finished and current lines fit. *)
Definition wrap_inv (p w : Z) (st : list string * string * string) : Prop :=
  let '(lines, linePrefix, line) := st in
  Forall (fun x => len x <= w) lines /\ len line <= w /\ len linePrefix = p /\ p <= len line.

Lemma wrap_step_inv indent p w st field :
  len indent = p -> len field <= w - p -> wrap_inv p w st -> wrap_inv p w (wrap_step indent w st field).
Proof.
  destruct st as [[lines linePrefix] line]. intros Hp Hf (Hl & Hline & Hpre & Hge). unfold wrap_step.
  case_bool_decide; [done|].
  assert (Ht : len (TrimSpace field) <= len field).
  { unfold len. pose proof (length_TrimSpace field). lia. }
  rewrite !len_sapp.
  assert (Hnn : 0 <= len (TrimSpace field)) by (unfold len; lia).
  destruct (Z.ltb_spec (len linePrefix) (len line)) as [Hlt|Hge'].
  - rewrite andb_true_r. destruct (Z.ltb_spec w (len line + (len " | " + len (TrimSpace field)))).
    + split_and!; [apply Forall_app; auto| | |]; rewrite ?len_sapp; lia.
    + split_and!; [done| | |]; rewrite ?len_sapp; change (len " | ") with 3 in *; lia.
  - rewrite andb_false_r. split_and!; [done| | |]; rewrite ?len_sapp; change (len "") with 0 in *; lia.
Qed.

Lemma wrapSummaryLines_fit prefix indent fields w :
  0 < w -> len prefix = len indent -> len prefix <= w ->
  Forall (fun x => len x <= w - len indent) fields ->
  Forall (fun x => len x <= w) (wrapSummaryLines prefix indent fields w).
Proof.
  intros Hw Hp Hpw Hf. unfold wrapSummaryLines. destruct (Z.leb_spec w 0); [lia|].
  assert (Hinv : wrap_inv (len indent) w (foldl (wrap_step indent w) ([], prefix, prefix) fields)).
  { assert (H0 : wrap_inv (len indent) w ([], prefix, prefix)) by (split_and!; [constructor|lia..]).
    revert H0. generalize (@nil string, prefix, prefix).
    induction Hf as [|x l Hx _ IH]; intros st Hst; simpl; [done|].
    apply IH. by apply wrap_step_inv. }
  destruct (foldl _ _ _) as [[lines linePrefix] line]. destruct Hinv as (Hl & Hline & _ & _).
  case_bool_decide; [done|]. apply Forall_app; auto.
Qed.

(** Whatever the filter, every line of the SHOW FILTER summary is at most 78
    columns wide. *)
Theorem summary_lines_fit f adifs : Forall (fun line => len line <= 78) (summary_lines f adifs).
Proof.
  apply wrapSummaryLines_fit; [compute_goal|reflexivity|compute_goal|].
  apply (summary_fields_len f adifs).
Qed.

(** ** The effective label tells the truth *)

Lemma Join_empty (l : list string) sep : Join l sep = "" -> forall x, x ∈ l -> x = "".
Proof.
  induction l as [|a l IH]; intros HJ x Hx; [by apply not_elem_of_nil in Hx|].
  destruct l as [|b l]; [apply list_elem_of_singleton in Hx; by subst x|].
  change (a +:+ sep +:+ Join (b :: l) sep = "") in HJ.
  destruct a; [|done]. destruct sep; [|done]. apply elem_of_cons in Hx as [->|Hx]; [done|].
  by apply IH.
Qed.

Lemma elem_orderedStringValues values supported k :
  map_get values k = true -> k ∈ orderedStringValues values supported.
Proof.
  intros Hk. unfold orderedStringValues.
  assert (Hin : k ∈ keys_of values).
  { apply map_get_true in Hk. unfold keys_of. apply list_elem_of_fmap. exists (k, true).
    split; [done|]. by apply elem_of_map_to_list. }
  destruct (map_len values =? 0) eqn:Hz.
  { apply map_len_zero in Hz. apply map_get_true in Hk. by rewrite Hz, lookup_empty in Hk. }
  case_bool_decide; unfold keysString, sort_strings.
  - by rewrite merge_sort_Permutation.
  - rewrite elem_of_app, merge_sort_Permutation.
    destruct (decide (k ∈ List.filter (map_get values) supported)) as [Hs|Hs]; [by left|right].
    rewrite list_elem_of_In, filter_In, <- list_elem_of_In. split; [done|].
    by rewrite bool_decide_eq_false_2.
Qed.

(** For a criterion as a session leaves it, the effective label of SHOW FILTER
    is truthful: under "all pass" every supported value passes, and under "all
    blocked" or "none pass" nothing does. *)
Theorem effective_label_truthful h (d : domain string) supported tok :
  domain_rel h d -> verdict h "" <> Some true -> TrimSpace tok <> "" ->
  let label := effective (snapshotAllowBlockStrings d supported) in
  (label = "all pass" -> supported = [] \/ TrimSpace tok ∈ supported -> passesStringFilter tok d = true) /\
  (label = "all blocked" \/ label = "none pass" -> passesStringFilter tok d = false).
Proof.
  intros Hrel Hemp Htok label. set (t := TrimSpace tok) in *.
  assert (Hadm : passesStringFilter tok d = true <-> admits h t) by (by apply passesStringFilter_admits).
  assert (Hblk : verdict h t = Some false -> Join (orderedStringValues (block d) supported) ", " <> "").
  { intros Hv HJ. apply Htok. eapply Join_empty; [exact HJ|].
    apply elem_orderedStringValues, map_get_true. rewrite (rel_block _ _ Hrel).
    by rewrite bool_decide_eq_true_2. }
  unfold label, snapshotAllowBlockStrings, buildAllowBlockSnapshot, effectiveAllowBlockLabel; cbn [effective].
  pose proof (rel_blockAll _ _ Hrel) as Hb. pose proof (rel_allowAll _ _ Hrel) as Ha.
  destruct (blockAll d) eqn:Eb.
  { split; [done|]. intros _. unfold passesStringFilter. by rewrite Eb. }
  destruct (allowAll d || coversAllSupported (allow d) supported) eqn:Eall; simpl.
  - case_bool_decide as EJ; (split; [|by intros [?|?]]); [|done].
    intros _ Hsup. apply Hadm. split_and!; [done|by intros Hv; apply (Hblk Hv)|].
    intros Hex. apply (rel_listed _ _ Hrel) in Hex. rewrite map_len_pos in Hex.
    apply orb_true_iff in Eall as [Eall|Ecov].
    { rewrite Eall, <- Hb in Ha. simpl in Ha. rewrite <- Ha in Hex. done. }
    unfold coversAllSupported in Ecov. case_bool_decide as Es; [done|].
    destruct Hsup as [?|Hsup]; [done|]. rewrite forallb_forall_elem in Ecov.
    apply Ecov in Hsup. rewrite (rel_allowed _ _ _ Hrel) in Hsup. by apply bool_decide_eq_true in Hsup.
  - apply orb_false_iff in Eall as [Eall _].
    case_bool_decide as EJ; (split; [done|]); [|by intros [?|?]].
    intros _. apply not_true_iff_false. rewrite Hadm. intros (_ & _ & Hex).
    rewrite Eall, <- Hb in Ha. simpl in Ha. symmetry in Ha.
    assert (Hne : (0 <? map_len (allow d)) = true) by (by rewrite map_len_pos, Ha).
    apply (rel_listed _ _ Hrel) in Hne as [k Hk]. assert (Hk0 : k = "").
    { eapply Join_empty; [exact EJ|]. apply elem_orderedStringValues.
      rewrite (rel_allowed _ _ _ Hrel). by rewrite bool_decide_eq_true_2. }
    by subst k.
Qed.

Lemma effective_label_truthful_witness :
  passesStringFilter "40m" (Bands (run_ops initialDefaults [OpAll ABand false] (NewFilter initialDefaults))) = false.
Proof.
  refine (proj2 (effective_label_truthful (history initialDefaults ABand [OpAll ABand false]) _
    SupportedBandNames "40m" _ _ _) _).
  - apply (session_rel initialDefaults ABand); [apply initialDefaults_ok|by left].
  - discriminate.
  - discriminate.
  - left. reflexivity.
Defined.
