(* ===== verification/FilterCommands.v ===== *)
(** * The telnet filter commands

    Models [src/telnet/filter_commands.go]: the two dialects, the handlers of
    every filter type and the engine that ties them together.  A handler's
    effect on the filter is the list of operations ([filter_op]) it performs
    under the client's lock, so what [FilterSession] proves of sequences of
    operations holds of sequences of command lines.  Saving the filter after a
    successful command is a flag of the result ([client.saveFilter], best
    effort).  The H3 encoders are parameters; [adifs] are the ADIF codes of the
    CTY database. *)

From S2P Require Import Prelude GoText GoNum Callsign Bands Spot Filter FilterMatch FilterSession UserRecord FilterShow.
Local Open Scope string_scope.
Local Open Scope list_scope.
Local Open Scope Z_scope.

(** ** Messages *)

Definition passFilterUsageMsg : string :=
  "Usage: PASS <type> ..." +:+ nl +:+ "PASS BAND <band>[,<band>...] | PASS MODE <mode>[,<mode>...] | PASS SOURCE <HUMAN|SKIMMER|ALL> | PASS DXCALL <pattern>[,<pattern>...] | PASS DECALL <pattern>[,<pattern>...] | PASS CONFIDENCE <symbol>[,<symbol>...] (symbols: ?,S,C,P,V,B or ALL) | PASS PATH <class>[,<class>...] (classes: HIGH,MEDIUM,LOW,UNLIKELY,INSUFFICIENT or ALL) | PASS BEACON | PASS WWV | PASS WCY | PASS ANNOUNCE | PASS NEARBY ON|OFF | PASS DXGRID2 <grid>[,<grid>...] (two characters or ALL) | PASS DEGRID2 <grid>[,<grid>...] (two characters or ALL) | PASS DXCONT <cont>[,<cont>...] | PASS DECONT <cont>[,<cont>...] | PASS DXZONE <zone>[,<zone>...] | PASS DEZONE <zone>[,<zone>...] | PASS DXDXCC <code>[,<code>...] | PASS DEDXCC <code>[,<code>...] (PASS = allow list; removes from block list; ALL allows all). Supported modes include: CW, LSB, USB, JS8, SSTV, RTTY, FT4, FT8, MSK144, PSK." +:+ nl +:+ "Type HELP for usage." +:+ nl.

Definition rejectFilterUsageMsg : string :=
  "Usage: REJECT <type> ..." +:+ nl +:+ "REJECT BAND <band>[,<band>...] | REJECT MODE <mode>[,<mode>...] | REJECT SOURCE <HUMAN|SKIMMER|ALL> | REJECT DXCALL <pattern>[,<pattern>...] | REJECT DECALL <pattern>[,<pattern>...] | REJECT CONFIDENCE <symbol>[,<symbol>...] (symbols: ?,S,C,P,V,B or ALL) | REJECT PATH <class>[,<class>...] (classes: HIGH,MEDIUM,LOW,UNLIKELY,INSUFFICIENT or ALL) | REJECT BEACON | REJECT WWV | REJECT WCY | REJECT ANNOUNCE | REJECT DXGRID2 <grid>[,<grid>...] (two characters or ALL) | REJECT DEGRID2 <grid>[,<grid>...] (two characters or ALL) | REJECT DXCONT <cont>[,<cont>...] | REJECT DECONT <cont>[,<cont>...] | REJECT DXZONE <zone>[,<zone>...] | REJECT DEZONE <zone>[,<zone>...] | REJECT DXDXCC <code>[,<code>...] | REJECT DEDXCC <code>[,<code>...] (REJECT = block list; removes from allow list; ALL blocks all). Supported modes include: CW, LSB, USB, JS8, SSTV, RTTY, FT4, FT8, MSK144, PSK." +:+ nl +:+ "Type HELP for usage." +:+ nl.

Definition unknownPassTypeMsg : string :=
  "Unknown filter type. Use: BAND, MODE, SOURCE, DXCALL, DECALL, CONFIDENCE, PATH, BEACON, WWV, WCY, ANNOUNCE, DXGRID2, DEGRID2, DXCONT, DECONT, DXZONE, DEZONE, DXDXCC, or DEDXCC" +:+ nl +:+ "Type HELP for usage." +:+ nl.

Definition unknownRejectTypeMsg : string :=
  "Unknown filter type. Use: BAND, MODE, SOURCE, DXCALL, DECALL, CONFIDENCE, PATH, BEACON, WWV, WCY, ANNOUNCE, DXGRID2, DEGRID2, DXCONT, DECONT, DXZONE, DEZONE, DXDXCC, or DEDXCC" +:+ nl +:+ "Type HELP for usage." +:+ nl.

Definition invalidFilterCommandMsg : string :=
  "Invalid filter command. Type HELP for usage." +:+ nl.

Definition nearbyLocationFilterWarning : string :=
  "This filter is disabled when NEARBY ON. Disable NEARBY if you want to use regular location filters" +:+ nl.

Definition nearbyUsageMsg : string :=
  "Usage: PASS NEARBY ON|OFF" +:+ nl +:+ "Type HELP for usage." +:+ nl.

Definition nearbyMissingGridMsg : string :=
  "Grid not set. Use SET GRID <4-6 char maidenhead>." +:+ nl.

Definition nearbyUnavailableMsg : string :=
  "Unable to enable NEARBY: invalid grid or H3 tables unavailable." +:+ nl.

Definition unknownDXBMMsg : string :=
  "Unknown DXBM band. Supported: 160, 80, 40, 30, 20, 17, 15, 12, 10, 6, 2 (and 1 if enabled). Modes ignored; use SET/NO<MODE>." +:+ nl.

Definition typeHelp : string := nl +:+ "Type HELP for usage." +:+ nl.

(** ** Command lines *)

Inductive filterAction := actionAllow | actionBlock | actionSummary | actionResetDefaults.
#[export] Instance filterAction_eq_dec : EqDecision filterAction.
Proof. solve_decision. Defined.

Inductive DialectName := DialectGo | DialectCC.
#[export] Instance DialectName_eq_dec : EqDecision DialectName.
Proof. solve_decision. Defined.

Definition dialect_string (d : DialectName) : string :=
  match d with DialectGo => "go" | DialectCC => "cc" end.

Definition normalizeDialectName (name : string) : DialectName :=
  if bool_decide (ToLower (TrimSpace name) = "cc") then DialectCC else DialectGo.

Record parsedFilterCommand := mkCmd {
  cmd_action : filterAction;
  cmd_domain : string;
  cmd_args : list string;
  cmd_note : string
}.

(** The three returned values: not matched, matched with an error text, matched. *)
Inductive parse_result := NoMatch | ParseError (msg : string) | Parsed (cmd : parsedFilterCommand).

(** ** List arguments *)

Definition splitListValues (arg : string) : list string :=
  let arg := TrimSpace arg in
  if bool_decide (arg = "") then [] else Fields (ReplaceAll arg "," " ").

Definition parseBandList (arg : string) : list string := splitListValues arg.

Definition parseModeList (arg : string) : list string :=
  List.filter nonempty (map (fun v => ToUpper (TrimSpace v)) (splitListValues arg)).

Definition parseConfidenceList (arg : string) : list string :=
  List.filter nonempty (map (fun v => ToUpper (TrimSpace v)) (splitListValues arg)).

(** The loops that keep a [seen] map: [out] is what was collected so far. *)
Fixpoint unique_upper (values out : list string) : list string :=
  match values with
  | [] => out
  | value :: rest =>
      let v := ToUpper (TrimSpace value) in
      if bool_decide (v = "") || bool_decide (v ∈ out) then unique_upper rest out
      else unique_upper rest (out ++ [v])
  end.

Definition parsePathClassList (arg : string) : list string := unique_upper (splitListValues arg) [].
Definition parseContinentList (arg : string) : list string := unique_upper (splitListValues arg) [].

Fixpoint int_list_loop (valid : Z -> bool) (values : list string) (out : list Z) (invalid : list string) :
    list Z * list string :=
  match values with
  | [] => (out, invalid)
  | value :: rest =>
      let v := TrimSpace value in
      if bool_decide (v = "") then int_list_loop valid rest out invalid
      else match Atoi v with
           | None => int_list_loop valid rest out (invalid ++ [value])
           | Some n =>
               if negb (valid n) then int_list_loop valid rest out (invalid ++ [value])
               else if bool_decide (n ∈ out) then int_list_loop valid rest out invalid
               else int_list_loop valid rest (out ++ [n]) invalid
           end
  end.

Definition parseZoneList (arg : string) : list Z * list string :=
  int_list_loop IsSupportedZone (splitListValues arg) [] [].

Definition parseDXCCList (arg : string) : list Z * list string :=
  int_list_loop (fun code => 0 <? code) (splitListValues arg) [] [].

Fixpoint grid2_loop (values grids invalid : list string) : list string * list string :=
  match values with
  | [] => (grids, invalid)
  | value :: rest =>
      let raw := ToUpper (TrimSpace value) in
      if bool_decide (raw = "") then grid2_loop rest grids invalid
      else
        let raw := if 2 <? len raw then stake 2 raw else raw in
        if negb (len raw =? 2) then grid2_loop rest grids (invalid ++ [value])
        else if bool_decide (raw ∈ grids) then grid2_loop rest grids invalid
        else grid2_loop rest (grids ++ [raw]) invalid
  end.

Definition parseGrid2List (arg : string) : list string * list string :=
  grid2_loop (splitListValues arg) [] [].

Fixpoint normalize_bands_loop (values normalized invalid : list string) : list string * list string :=
  match values with
  | [] => (normalized, invalid)
  | candidate :: rest =>
      let norm := NormalizeBand candidate in
      if bool_decide (norm = "") || negb (IsValidBand norm)
      then normalize_bands_loop rest normalized (invalid ++ [candidate])
      else if bool_decide (norm ∈ normalized) then normalize_bands_loop rest normalized invalid
      else normalize_bands_loop rest (normalized ++ [norm]) invalid
  end.

Definition normalizeBands (values : list string) : list string * list string :=
  normalize_bands_loop values [] [].

(** The prefixes [normalizeDXBMBands] tries, in order. *)
Definition dxbm_prefixes : list (string * string) :=
  [("160", "160M"); ("80", "80M"); ("40", "40M"); ("30", "30M"); ("20", "20M"); ("17", "17M");
   ("15", "15M"); ("12", "12M"); ("10", "10M"); ("6", "6M"); ("2", "2M"); ("1", "1.25M")].

Definition addBand (name : string) (out : list string) : list string :=
  if bool_decide (name ∈ out) then out else out ++ [name].

Definition dxbm_band (raw : string) : option string :=
  match List.filter (fun '(p, _) => HasPrefix raw p) dxbm_prefixes with
  | (_, band) :: _ => Some band
  | [] => None
  end.

Fixpoint dxbm_loop (values bands invalid : list string) : list string * list string :=
  match values with
  | [] => (bands, invalid)
  | v :: rest =>
      let raw := ToUpper (TrimSpace v) in
      if bool_decide (raw = "") then dxbm_loop rest bands invalid
      else match dxbm_band raw with
           | Some band => dxbm_loop rest (addBand band bands) invalid
           | None => dxbm_loop rest bands (invalid ++ [v])
           end
  end.

Definition normalizeDXBMBands (values : list string) : list string * list string :=
  dxbm_loop values [] [].

Definition collectInvalidModes (modes : list string) : list string :=
  List.filter (fun m => negb (IsSupportedMode m)) modes.
Definition collectInvalidConfidenceSymbols (symbols : list string) : list string :=
  List.filter (fun s => negb (IsSupportedConfidenceSymbol s)) symbols.
Definition collectInvalidPathClasses (classes : list string) : list string :=
  List.filter (fun c => negb (IsSupportedPathClass c)) classes.
Definition collectInvalidContinents (continents : list string) : list string :=
  List.filter (fun c => negb (IsSupportedContinent c)) continents.

Definition joinZones (zones : list Z) : string := Join (map Itoa (sort_ints zones)) ", ".
Definition stringsUpper (values : list string) : list string := map (fun v => ToUpper (TrimSpace v)) values.

(** ** Handlers *)

(** The response, the operations performed on the filter, and whether the
    command counts as a change. *)
Definition hres : Type := string * list filter_op * bool.
Definition refuse (msg : string) : hres := (msg, [], false).
Definition done_with (msg : string) (ops : list filter_op) : hres := (msg, ops, true).

Record Client := mkClient {
  c_filter : Filter;
  c_dialect : DialectName;
  c_grid : string;
  c_gridCell : Z;
  c_gridCoarseCell : Z;
  c_pathEnabled : bool
}.

Definition joined (args : list string) : string := TrimSpace (Join args " ").
Definition is_all (value : string) : bool := EqualFold value "ALL".
Definition comma (l : list string) : string := Join l ", ".
Definition is_nil {A} (l : list A) : bool := match l with [] => true | _ => false end.

Definition unknown_band_msg (invalid : list string) : string :=
  "Unknown band: " +:+ comma invalid +:+ nl +:+ "Supported bands: " +:+ comma SupportedBandNames +:+ nl.

Definition newBandHandler (c : Client) (action : filterAction) (args : list string) : hres :=
  let value := joined args in
  match action with
  | actionAllow =>
      if bool_decide (value = "") then refuse passFilterUsageMsg
      else if is_all value then done_with ("All bands enabled" +:+ nl) [OpAll ABand true]
      else
        let rawBands := parseBandList value in
        if is_nil rawBands then refuse passFilterUsageMsg
        else
          let '(bands, invalid) := normalizeBands rawBands in
          if negb (is_nil invalid) then refuse (unknown_band_msg invalid)
          else if is_nil bands then refuse passFilterUsageMsg
          else
            let ops := map (fun b => OpTok ABand b true) bands in
            match bands with
            | [b] => done_with ("Filter set: Band " +:+ b +:+ nl) ops
            | _ => done_with ("Filter set: Bands " +:+ comma bands +:+ nl) ops
            end
  | actionBlock =>
      if bool_decide (value = "") then refuse rejectFilterUsageMsg
      else if is_all value then done_with ("All bands blocked" +:+ nl) [OpAll ABand false]
      else
        let rawBands := parseBandList value in
        if is_nil rawBands then refuse rejectFilterUsageMsg
        else
          let '(bands, invalid) := normalizeBands rawBands in
          if negb (is_nil invalid) then refuse (unknown_band_msg invalid)
          else if is_nil bands then refuse rejectFilterUsageMsg
          else done_with ("Band filters disabled: " +:+ comma bands +:+ nl)
                 (map (fun b => OpTok ABand b false) bands)
  | _ => refuse invalidFilterCommandMsg
  end.

Definition applyDXBMBands (c : Client) (action : filterAction) (args : list string) : hres :=
  let values := splitListValues (Join args " ") in
  if is_nil values
  then refuse ("Usage: SET/FILTER DXBM/PASS|REJECT <band>[,<band>...]" +:+ typeHelp)
  else
    let '(bands, invalid) := normalizeDXBMBands values in
    if negb (is_nil invalid)
    then refuse ("Unknown DXBM band: " +:+ comma invalid +:+ nl +:+
           "Supported: 160, 80, 40, 30, 20, 17, 15, 12, 10, 6, 2 (and 1 if enabled). Modes ignored; use SET/NO<MODE>." +:+ nl)
    else if is_nil bands then refuse ("No valid DXBM bands provided." +:+ nl)
    else match action with
         | actionAllow => done_with ("DXBM mapped: allow bands " +:+ comma bands +:+ nl)
                            (map (fun b => OpTok ABand b true) bands)
         | actionBlock => done_with ("DXBM mapped: block bands " +:+ comma bands +:+ nl)
                            (map (fun b => OpTok ABand b false) bands)
         | _ => refuse invalidFilterCommandMsg
         end.

Definition newDXBMHandler : Client -> filterAction -> list string -> hres := applyDXBMBands.

Definition unknown_mode_msg (invalid : list string) : string :=
  "Unknown mode: " +:+ comma invalid +:+ nl +:+ "Supported modes: " +:+ comma SupportedModes +:+ nl.

Definition newModeHandler (c : Client) (action : filterAction) (args : list string) : hres :=
  let modeArgs := joined args in
  match action with
  | actionAllow =>
      let usage := "Usage: PASS MODE <mode>[,<mode>...] (comma or space separated)" +:+ typeHelp in
      if is_all modeArgs then done_with ("All modes enabled" +:+ nl) [OpAll AMode true]
      else
        let modes := parseModeList modeArgs in
        if is_nil modes then refuse usage
        else
          let invalid := collectInvalidModes modes in
          if negb (is_nil invalid) then refuse (unknown_mode_msg invalid)
          else done_with ("Filter set: Modes " +:+ comma modes +:+ nl)
                 (map (fun m => OpTok AMode m true) modes)
  | actionBlock =>
      let usage := "Usage: REJECT MODE <mode>[,<mode>...] (comma or space separated, or ALL)" +:+ typeHelp in
      if bool_decide (modeArgs = "") then refuse usage
      else if is_all modeArgs then done_with ("All modes blocked" +:+ nl) [OpAll AMode false]
      else
        let modes := parseModeList modeArgs in
        if is_nil modes then refuse usage
        else
          let invalid := collectInvalidModes modes in
          if negb (is_nil invalid) then refuse (unknown_mode_msg invalid)
          else done_with ("Mode filters disabled: " +:+ comma modes +:+ nl)
                 (map (fun m => OpTok AMode m false) modes)
  | _ => refuse invalidFilterCommandMsg
  end.

Definition newSourceHandler (c : Client) (action : filterAction) (args : list string) : hres :=
  let value := ToUpper (joined args) in
  let unknown := refuse ("Unknown source: " +:+ value +:+ nl +:+ "Valid sources: " +:+
                         comma SupportedSources +:+ nl) in
  match action with
  | actionAllow =>
      if bool_decide (value = "") then refuse ("Usage: PASS SOURCE <HUMAN|SKIMMER|ALL>" +:+ typeHelp)
      else if is_all value then done_with ("Source filtering disabled" +:+ nl) [OpAll ASource true]
      else if negb (IsSupportedSource value) then unknown
      else done_with ("Filter set: Source " +:+ value +:+ nl) [OpTok ASource value true]
  | actionBlock =>
      if bool_decide (value = "") then refuse ("Usage: REJECT SOURCE <HUMAN|SKIMMER|ALL>" +:+ typeHelp)
      else if is_all value then done_with ("All sources blocked" +:+ nl) [OpAll ASource false]
      else if negb (IsSupportedSource value) then unknown
      else done_with ("Source filters disabled: " +:+ value +:+ nl) [OpTok ASource value false]
  | _ => refuse invalidFilterCommandMsg
  end.

Definition newNoFilterHandler (c : Client) (action : filterAction) (args : list string) : hres :=
  match action with
  | actionAllow => done_with ("All filters disabled" +:+ nl) [OpNoFilter]
  | _ => refuse invalidFilterCommandMsg
  end.

Definition newCallPatternHandler (name : string) (c : Client) (action : filterAction)
    (args : list string) : hres :=
  let dx := bool_decide (name = "DXCALL") in
  let side := if dx then "DX" else "DE" in
  let value := joined args in
  match action with
  | actionAllow =>
      if bool_decide (value = "") then refuse passFilterUsageMsg
      else if is_all value
      then done_with ("All " +:+ side +:+ " callsigns enabled" +:+ nl) [OpAllCall dx true]
      else
        let patterns := splitListValues value in
        if is_nil patterns then refuse passFilterUsageMsg
        else
          let ops := map (fun p => OpCall dx p true) patterns in
          match patterns with
          | [p] => done_with ("Filter set: " +:+ side +:+ " callsign " +:+ ToUpper p +:+ nl) ops
          | _ => done_with ("Filter set: " +:+ side +:+ " callsigns " +:+ comma (stringsUpper patterns) +:+ nl) ops
          end
  | actionBlock =>
      if bool_decide (value = "") then refuse rejectFilterUsageMsg
      else if is_all value
      then done_with ("All " +:+ side +:+ " callsigns blocked" +:+ nl) [OpAllCall dx false]
      else
        let patterns := splitListValues value in
        if is_nil patterns then refuse rejectFilterUsageMsg
        else
          let ops := map (fun p => OpCall dx p false) patterns in
          match patterns with
          | [p] => done_with (side +:+ " callsign blocklist: " +:+ ToUpper p +:+ nl) ops
          | _ => done_with (side +:+ " callsign blocklist: " +:+ comma (stringsUpper patterns) +:+ nl) ops
          end
  | _ => refuse invalidFilterCommandMsg
  end.

Definition newConfidenceHandler (c : Client) (action : filterAction) (args : list string) : hres :=
  let value := joined args in
  let unknown invalid := refuse ("Unknown confidence symbol: " +:+ comma invalid +:+ nl +:+
                                 "Supported symbols: " +:+ comma SupportedConfidenceSymbols +:+ nl) in
  match action with
  | actionAllow =>
      let usage := "Usage: PASS CONFIDENCE <symbol>[,<symbol>...] (symbols: ?,S,C,P,V,B or ALL)" +:+ typeHelp in
      if bool_decide (value = "") then refuse usage
      else if is_all value
      then done_with ("All confidence symbols enabled" +:+ nl) [OpAll AConfidence true]
      else
        let symbols := parseConfidenceList value in
        if is_nil symbols then refuse usage
        else
          let invalid := collectInvalidConfidenceSymbols symbols in
          if negb (is_nil invalid) then unknown invalid
          else done_with ("Confidence symbols enabled: " +:+ comma symbols +:+ nl)
                 (map (fun s => OpTok AConfidence s true) symbols)
  | actionBlock =>
      let usage := "Usage: REJECT CONFIDENCE <symbol>[,<symbol>...] (comma or space separated, or ALL)" +:+ typeHelp in
      if bool_decide (value = "") then refuse usage
      else if is_all value
      then done_with ("All confidence symbols blocked (non-exempt modes)" +:+ nl) [OpAll AConfidence false]
      else
        let symbols := parseConfidenceList value in
        if is_nil symbols then refuse usage
        else
          let invalid := collectInvalidConfidenceSymbols symbols in
          if negb (is_nil invalid) then unknown invalid
          else done_with ("Confidence symbols disabled: " +:+ comma symbols +:+ nl)
                 (map (fun s => OpTok AConfidence s false) symbols)
  | _ => refuse invalidFilterCommandMsg
  end.

Definition pathFilteringAvailable (c : Client) : bool := c_pathEnabled c.

Definition newPathHandler (c : Client) (action : filterAction) (args : list string) : hres :=
  if negb (pathFilteringAvailable c)
  then refuse ("PATH filtering unavailable (path predictor disabled). Command ignored." +:+ nl)
  else
    let value := joined args in
    let unknown invalid := refuse ("Unknown path class: " +:+ comma invalid +:+ nl +:+
                                   "Supported classes: " +:+ comma SupportedPathClasses +:+ nl) in
    match action with
    | actionAllow =>
        let usage := "Usage: PASS PATH <class>[,<class>...] (HIGH, MEDIUM, LOW, UNLIKELY, INSUFFICIENT, or ALL)" +:+ typeHelp in
        if bool_decide (value = "") then refuse usage
        else if is_all value then done_with ("All path classes enabled" +:+ nl) [OpAll APath true]
        else
          let classes := parsePathClassList value in
          if is_nil classes then refuse usage
          else
            let invalid := collectInvalidPathClasses classes in
            if negb (is_nil invalid) then unknown invalid
            else done_with ("Path classes enabled: " +:+ comma classes +:+ nl)
                   (map (fun x => OpTok APath x true) classes)
    | actionBlock =>
        let usage := "Usage: REJECT PATH <class>[,<class>...] (comma or space separated, or ALL)" +:+ typeHelp in
        if bool_decide (value = "") then refuse usage
        else if is_all value then done_with ("All path classes blocked" +:+ nl) [OpAll APath false]
        else
          let classes := parsePathClassList value in
          if is_nil classes then refuse usage
          else
            let invalid := collectInvalidPathClasses classes in
            if negb (is_nil invalid) then unknown invalid
            else done_with ("Path classes disabled: " +:+ comma classes +:+ nl)
                   (map (fun x => OpTok APath x false) classes)
    | _ => refuse invalidFilterCommandMsg
    end.

Definition newContinentHandler (name : string) (c : Client) (action : filterAction)
    (args : list string) : hres :=
  let a := if bool_decide (name = "DXCONT") then ADXCont else ADECont in
  let side := stake 2 name in
  let value := joined args in
  let unknown invalid := refuse ("Unknown continent: " +:+ comma invalid +:+ nl +:+
                                 "Supported continents: " +:+ comma SupportedContinents +:+ nl) in
  match action with
  | actionAllow =>
      let usage := "Usage: PASS " +:+ name +:+
        " <cont>[,<cont>...] (continents: AF, AN, AS, EU, NA, OC, SA, or ALL)" +:+ typeHelp in
      if bool_decide (value = "") then refuse usage
      else if is_all value
      then done_with ("All " +:+ ToLower side +:+ " continents enabled" +:+ nl) [OpAll a true]
      else
        let continents := parseContinentList value in
        if is_nil continents then refuse usage
        else
          let invalid := collectInvalidContinents continents in
          if negb (is_nil invalid) then unknown invalid
          else done_with ("Filter set: " +:+ side +:+ " continents " +:+ comma continents +:+ nl)
                 (map (fun x => OpTok a x true) continents)
  | actionBlock =>
      let usage := "Usage: REJECT " +:+ name +:+
        " <cont>[,<cont>...] (comma or space separated, or ALL)" +:+ typeHelp in
      if bool_decide (value = "") then refuse usage
      else if is_all value
      then done_with ("All " +:+ ToLower side +:+ " continents blocked" +:+ nl) [OpAll a false]
      else
        let continents := parseContinentList value in
        if is_nil continents then refuse usage
        else
          let invalid := collectInvalidContinents continents in
          if negb (is_nil invalid) then unknown invalid
          else done_with (side +:+ " continent filters disabled: " +:+ comma continents +:+ nl)
                 (map (fun x => OpTok a x false) continents)
  | _ => refuse invalidFilterCommandMsg
  end.

Definition newZoneHandler (name : string) (c : Client) (action : filterAction) (args : list string) : hres :=
  let a := if bool_decide (name = "DXZONE") then ADXZone else ADEZone in
  let side := stake 2 name in
  let value := joined args in
  let unknown invalid := refuse ("Unknown CQ zone: " +:+ comma invalid +:+ nl +:+ "Valid zones: " +:+
                                 Itoa minCQZone +:+ "-" +:+ Itoa maxCQZone +:+ nl) in
  match action with
  | actionAllow =>
      let usage := "Usage: PASS " +:+ name +:+ " <zone>[,<zone>...] (1-40, or ALL)" +:+ typeHelp in
      if bool_decide (value = "") then refuse usage
      else if is_all value
      then done_with ("All " +:+ ToLower side +:+ " zones enabled" +:+ nl) [OpAllInt a true]
      else
        let '(zones, invalid) := parseZoneList value in
        if negb (is_nil invalid) then unknown invalid
        else if is_nil zones then refuse usage
        else done_with ("Filter set: " +:+ side +:+ " zones " +:+ joinZones zones +:+ nl)
               (map (fun z => OpInt a z true) zones)
  | actionBlock =>
      let usage := "Usage: REJECT " +:+ name +:+
        " <zone>[,<zone>...] (comma or space separated, or ALL)" +:+ typeHelp in
      if bool_decide (value = "") then refuse usage
      else if is_all value
      then done_with ("All " +:+ ToLower side +:+ " zones blocked" +:+ nl) [OpAllInt a false]
      else
        let '(zones, invalid) := parseZoneList value in
        if negb (is_nil invalid) then unknown invalid
        else if is_nil zones then refuse usage
        else done_with (side +:+ " zone filters disabled: " +:+ joinZones zones +:+ nl)
               (map (fun z => OpInt a z false) zones)
  | _ => refuse invalidFilterCommandMsg
  end.

Definition newDXCCHandler (name : string) (c : Client) (action : filterAction) (args : list string) : hres :=
  let a := if bool_decide (name = "DXDXCC") then ADXDXCC else ADEDXCC in
  let side := stake 2 name in
  let value := joined args in
  match action with
  | actionAllow =>
      let usage := "Usage: PASS " +:+ name +:+
        " <code>[,<code>...] (comma or space separated, or ALL)" +:+ typeHelp in
      if bool_decide (value = "") then refuse usage
      else if is_all value
      then done_with ("All " +:+ ToLower side +:+ " DXCCs enabled" +:+ nl) [OpAllInt a true]
      else
        let '(codes, invalid) := parseDXCCList value in
        if is_nil codes then refuse usage
        else if negb (is_nil invalid) then refuse ("Invalid DXCC code: " +:+ comma invalid +:+ nl)
        else done_with ("Filter set: " +:+ side +:+ " " +:+ joinZones codes +:+ nl)
               (map (fun z => OpInt a z true) codes)
  | actionBlock =>
      let usage := "Usage: REJECT " +:+ name +:+
        " <code>[,<code>...] (comma or space separated, or ALL)" +:+ typeHelp in
      if bool_decide (value = "") then refuse usage
      else if is_all value
      then done_with ("All " +:+ ToLower side +:+ " DXCCs blocked" +:+ nl) [OpAllInt a false]
      else
        let '(codes, invalid) := parseDXCCList value in
        if is_nil codes then refuse usage
        else if negb (is_nil invalid) then refuse ("Invalid DXCC code: " +:+ comma invalid +:+ nl)
        else done_with (side +:+ " DXCC filters disabled: " +:+ joinZones codes +:+ nl)
               (map (fun z => OpInt a z false) codes)
  | _ => refuse invalidFilterCommandMsg
  end.

Definition newGrid2Handler (name : string) (c : Client) (action : filterAction) (args : list string) : hres :=
  let a := if bool_decide (name = "DXGRID2") then ADXGrid2 else ADEGrid2 in
  let side := stake 2 name in
  let value := joined args in
  match action with
  | actionAllow =>
      let usage := "Usage: PASS " +:+ name +:+ " <grid>[,<grid>...] (two characters, or ALL)" +:+ typeHelp in
      if bool_decide (value = "") then refuse usage
      else if is_all value
      then done_with ("All " +:+ ToLower side +:+ " 2-character grids enabled" +:+ nl) [OpAll a true]
      else
        let '(grids, invalid) := parseGrid2List value in
        if is_nil grids then refuse usage
        else if negb (is_nil invalid) then refuse ("Unknown 2-character grid: " +:+ comma invalid +:+ nl)
        else done_with ("Filter set: " +:+ side +:+ " 2-character grids " +:+ comma grids +:+ nl)
               (map (fun g => OpTok a g true) grids)
  | actionBlock =>
      let usage := "Usage: REJECT " +:+ name +:+
        " <grid>[,<grid>...] (comma or space separated, or ALL)" +:+ typeHelp in
      if bool_decide (value = "") then refuse usage
      else if is_all value
      then done_with ("All " +:+ ToLower side +:+ " 2-character grids blocked" +:+ nl) [OpAll a false]
      else
        let '(grids, invalid) := parseGrid2List value in
        if is_nil grids then refuse usage
        else if negb (is_nil invalid) then refuse ("Unknown 2-character grid: " +:+ comma invalid +:+ nl)
        else done_with (side +:+ " 2-character grid filters disabled: " +:+ comma grids +:+ nl)
               (map (fun g => OpTok a g false) grids)
  | _ => refuse invalidFilterCommandMsg
  end.

Definition titleCase (name : string) : string :=
  let lower := ToLower (TrimSpace name) in
  if bool_decide (lower = "") then "" else ToUpper (stake 1 lower) +:+ sdrop 1 lower.

Definition featureLabels (name : string) : string :=
  let n := ToUpper name in
  if bool_decide (n = "BEACON") then "Beacon spots"
  else if bool_decide (n = "WWV") then "WWV bulletins"
  else if bool_decide (n = "WCY") then "WCY bulletins"
  else if bool_decide (n = "ANNOUNCE") then "Announcements"
  else if bool_decide (n = "SELF") then "Self spots"
  else titleCase name.

Definition newFeatureToggleHandler (name : string) (t : toggle) (c : Client) (action : filterAction)
    (args : list string) : hres :=
  let label := featureLabels name in
  match action with
  | actionAllow => done_with (label +:+ " enabled" +:+ nl) [OpToggle t true]
  | actionBlock => done_with (label +:+ " disabled" +:+ nl) [OpToggle t false]
  | _ => refuse invalidFilterCommandMsg
  end.

Section Engine.
Variable EncodeCell : string -> Z.
Variable EncodeCoarseCell : string -> Z.
Variable d : Defaults.
Variable adifs : list Z.

Definition newNearbyHandler (c : Client) (action : filterAction) (args : list string) : hres :=
  match args with
  | [arg] =>
      let mode := ToUpper (TrimSpace arg) in
      if bool_decide (mode = "ON") then
        let grid := TrimSpace (c_grid c) in
        if bool_decide (grid = "") then refuse nearbyMissingGridMsg
        else
          let userFine := if c_gridCell c =? InvalidCell then EncodeCell grid else c_gridCell c in
          let userCoarse := if c_gridCoarseCell c =? InvalidCell then EncodeCoarseCell grid
                            else c_gridCoarseCell c in
          if (userFine =? InvalidCell) || (userCoarse =? InvalidCell) then refuse nearbyUnavailableMsg
          else done_with ("Nearby filter enabled." +:+ nl) [OpNearbyOn userFine userCoarse]
      else if bool_decide (mode = "OFF") then done_with ("Nearby filter disabled." +:+ nl) [OpNearbyOff]
      else refuse nearbyUsageMsg
  | _ => refuse nearbyUsageMsg
  end.

(** The registered handlers, by upper-case name or alias. *)
Definition handlers : list (string * (Client -> filterAction -> list string -> hres)) :=
  [("BAND", newBandHandler); ("DXBM", newDXBMHandler); ("MODE", newModeHandler);
   ("SOURCE", newSourceHandler); ("NOFILTER", newNoFilterHandler);
   ("DXCALL", newCallPatternHandler "DXCALL"); ("DECALL", newCallPatternHandler "DECALL");
   ("CONFIDENCE", newConfidenceHandler); ("PATH", newPathHandler); ("NEARBY", newNearbyHandler);
   ("DXCONT", newContinentHandler "DXCONT"); ("DECONT", newContinentHandler "DECONT");
   ("DXZONE", newZoneHandler "DXZONE"); ("DEZONE", newZoneHandler "DEZONE");
   ("DXDXCC", newDXCCHandler "DXDXCC"); ("DEDXCC", newDXCCHandler "DEDXCC");
   ("DXGRID2", newGrid2Handler "DXGRID2"); ("DEGRID2", newGrid2Handler "DEGRID2");
   ("BEACON", newFeatureToggleHandler "BEACON" TBeacon); ("WWV", newFeatureToggleHandler "WWV" TWWV);
   ("WCY", newFeatureToggleHandler "WCY" TWCY);
   ("ANNOUNCE", newFeatureToggleHandler "ANNOUNCE" TAnnounce);
   ("PC93", newFeatureToggleHandler "ANNOUNCE" TAnnounce);
   ("SELF", newFeatureToggleHandler "SELF" TSelf)].

Fixpoint assoc {A} (key : string) (l : list (string * A)) : option A :=
  match l with
  | [] => None
  | (k, v) :: rest => if bool_decide (key = k) then Some v else assoc key rest
  end.

Definition locationFilterDomains : list string :=
  ["DXGRID2"; "DEGRID2"; "DXCONT"; "DECONT"; "DXZONE"; "DEZONE"; "DXDXCC"; "DEDXCC"].

Definition allow_or_block (a : filterAction) : bool :=
  match a with actionAllow | actionBlock => true | _ => false end.

Definition execute (c : Client) (cmd : parsedFilterCommand) : hres :=
  match cmd_action cmd with
  | actionSummary => refuse (formatFilterSnapshot (c_filter c) adifs +:+ cmd_note cmd)
  | actionResetDefaults => done_with ("Filters reset to defaults" +:+ nl) [OpResetDefaults]
  | action =>
      let key := ToUpper (TrimSpace (cmd_domain cmd)) in
      match assoc key handlers with
      | None =>
          match action with
          | actionAllow =>
              if EqualFold (cmd_domain cmd) "DXBM" then refuse unknownDXBMMsg else refuse unknownPassTypeMsg
          | actionBlock =>
              if EqualFold (cmd_domain cmd) "DXBM" then refuse unknownDXBMMsg else refuse unknownRejectTypeMsg
          | _ => refuse invalidFilterCommandMsg
          end
      | Some h =>
          if allow_or_block action && bool_decide (key ∈ locationFilterDomains)
             && NearbyActive (c_filter c)
          then refuse nearbyLocationFilterWarning
          else h c action (cmd_args cmd)
      end
  end.

(** ** Dialects *)

Definition showFilterDeprecationNote (tokens : list string) (dialect : DialectName) : string :=
  if is_nil tokens then ""
  else
    let cmd := Join tokens " " in
    match dialect with
    | DialectCC => "Note: " +:+ cmd +:+ " is deprecated. Use SHOW/FILTER or SH/FILTER." +:+ nl
    | DialectGo => "Note: " +:+ cmd +:+ " is deprecated. Use SHOW FILTER." +:+ nl
    end.

Definition resetUsage : string := "Usage: RESET FILTER" +:+ typeHelp.
Definition command (a : filterAction) (domain : string) (args : list string) : parse_result :=
  Parsed (mkCmd a domain args "").

Definition parse_reset (upper : list string) : parse_result :=
  match upper with
  | [_; arg] => if bool_decide (arg = "FILTER") then command actionResetDefaults "" [] else ParseError resetUsage
  | _ => ParseError resetUsage
  end.

Definition parseClassicDialect (tokens upper : list string) : parse_result :=
  match upper with
  | [] => NoMatch
  | verb :: rest =>
      if bool_decide (verb = "RESET") then parse_reset upper
      else if bool_decide (verb = "PASS") then
        match rest with
        | [] => ParseError passFilterUsageMsg
        | domain :: _ => command actionAllow domain (drop 2 tokens)
        end
      else if bool_decide (verb = "REJECT") then
        match rest with
        | [] => ParseError rejectFilterUsageMsg
        | domain :: _ => command actionBlock domain (drop 2 tokens)
        end
      else if bool_decide (verb = "SHOW") then
        match rest with
        | [] => NoMatch
        | what :: more =>
            if negb (bool_decide (what = "FILTER")) then NoMatch
            else Parsed (mkCmd actionSummary "" []
                   (if is_nil more then "" else showFilterDeprecationNote upper DialectGo))
        end
      else NoMatch
  end.

Definition isCCMode (mode : string) : bool :=
  bool_decide (ToUpper (TrimSpace mode) ∈ ["CW"; "FT4"; "FT8"; "RTTY"]).

(** [SET/FILTER DXBM/PASS ...] and [SET/FILTER DXBM PASS ...]; [None] falls through. *)
Definition parse_dxbm (tokens upper : list string) : option parse_result :=
  match upper with
  | verb :: second :: rest =>
      if negb (bool_decide (verb = "SET/FILTER")) then None
      else if HasPrefix (ToUpper second) "DXBM/" then
        let mode := TrimPrefix (ToUpper second) "DXBM/" in
        if bool_decide (mode = "PASS") then Some (command actionAllow "DXBM" (drop 2 tokens))
        else if bool_decide (mode = "REJECT") then Some (command actionBlock "DXBM" (drop 2 tokens))
        else None
      else if EqualFold second "DXBM" then
        match rest with
        | third :: _ =>
            if EqualFold third "PASS" then Some (command actionAllow "DXBM" (drop 3 tokens))
            else if EqualFold third "REJECT" then Some (command actionBlock "DXBM" (drop 3 tokens))
            else None
        | [] => None
        end
      else None
  | _ => None
  end.

(** The fixed one-word commands of the CC dialect. *)
Definition cc_words : list (string * (filterAction * string * list string)) :=
  [("SET/ANN", (actionAllow, "ANNOUNCE", [])); ("SET/NOANN", (actionBlock, "ANNOUNCE", []));
   ("SET/BEACON", (actionAllow, "BEACON", [])); ("SET/NOBEACON", (actionBlock, "BEACON", []));
   ("SET/WWV", (actionAllow, "WWV", [])); ("SET/NOWWV", (actionBlock, "WWV", []));
   ("SET/WCY", (actionAllow, "WCY", [])); ("SET/NOWCY", (actionBlock, "WCY", []));
   ("SET/SELF", (actionAllow, "SELF", [])); ("SET/NOSELF", (actionBlock, "SELF", []));
   ("SET/SKIMMER", (actionAllow, "SOURCE", ["SKIMMER"]));
   ("SET/NOSKIMMER", (actionBlock, "SOURCE", ["SKIMMER"]));
   ("SET/NOFILTER", (actionAllow, "NOFILTER", []))].

Definition parse_cc_set_filter (tokens upper : list string) : parse_result :=
  match upper with
  | _ :: domain :: _ =>
      if HasSuffix domain "/OFF" then command actionBlock (TrimSuffix domain "/OFF") ["ALL"]
      else if HasSuffix domain "/ON" then command actionAllow (TrimSuffix domain "/ON") ["ALL"]
      else command actionAllow domain (drop 2 tokens)
  | _ => ParseError passFilterUsageMsg
  end.

Definition parse_cc_mode (upper : list string) : parse_result :=
  match upper with
  | [word] =>
      let no := TrimPrefix word "SET/NO" in
      let yes := TrimPrefix word "SET/" in
      if HasPrefix word "SET/NO" && isCCMode no then command actionBlock "MODE" [no]
      else if HasPrefix word "SET/" && negb (Contains word "/NO") && isCCMode yes
      then command actionAllow "MODE" [yes]
      else NoMatch
  | _ => NoMatch
  end.

Definition parseCCDialect (tokens upper : list string) : parse_result :=
  match upper with
  | [] => NoMatch
  | verb :: rest =>
      match parse_dxbm tokens upper with
      | Some r => r
      | None =>
          if bool_decide (verb = "RESET") then parse_reset upper
          else match assoc verb cc_words with
               | Some (action, domain, args) => command action domain args
               | None =>
                   if bool_decide (verb = "SET/FILTER") then parse_cc_set_filter tokens upper
                   else if bool_decide (verb = "UNSET/FILTER") then
                     match rest with
                     | [] => ParseError rejectFilterUsageMsg
                     | domain :: _ => command actionBlock domain (drop 2 tokens)
                     end
                   else if bool_decide (verb ∈ ["SHOW/FILTER"; "SH/FILTER"]) then
                     Parsed (mkCmd actionSummary "" []
                       (if is_nil rest then "" else showFilterDeprecationNote upper DialectCC))
                   else parse_cc_mode upper
               end
      end
  end.

Definition dialect_parse (dialect : DialectName) : list string -> list string -> parse_result :=
  match dialect with DialectGo => parseClassicDialect | DialectCC => parseCCDialect end.

Definition parse (tokens upper : list string) (dialect : DialectName) : parse_result :=
  match dialect_parse dialect tokens upper with
  | NoMatch => match dialect with
               | DialectGo => NoMatch
               | DialectCC => parseClassicDialect tokens upper
               end
  | r => r
  end.

Definition other_dialect (dialect : DialectName) : DialectName :=
  match dialect with DialectGo => DialectCC | DialectCC => DialectGo end.

Definition hintForOtherDialect (tokens upper : list string) (active : DialectName) : string :=
  let other := other_dialect active in
  match dialect_parse other tokens upper with
  | NoMatch => ""
  | _ => "Command matches the " +:+ dialect_string other +:+ " dialect. Switch with DIALECT " +:+
         ToUpper (dialect_string other) +:+ " or use the " +:+ ToUpper (dialect_string active) +:+
         " syntax." +:+ nl
  end.

Definition with_filter (f : Filter) (c : Client) : Client :=
  mkClient f (c_dialect c) (c_grid c) (c_gridCell c) (c_gridCoarseCell c) (c_pathEnabled c).

(** The response, whether the line was handled, whether the filter is saved, and
    the client afterwards. *)
Definition Handle (c : Client) (line : string) : string * bool * bool * Client :=
  let tokens := Fields (TrimSpace line) in
  if is_nil tokens then ("", false, false, c)
  else
    let upper := map ToUpper tokens in
    match parse tokens upper (c_dialect c) with
    | ParseError msg => (msg, true, false, c)
    | Parsed cmd =>
        let '(resp, ops, mutated) := execute c cmd in
        (resp, true, mutated, with_filter (run_ops d ops (c_filter c)) c)
    | NoMatch =>
        let hint := hintForOtherDialect tokens upper (c_dialect c) in
        if nonempty hint then (hint, true, false, c) else ("", false, false, c)
    end.
End Engine.

(** ** What a command line can do *)

(** An operation on one of the location criteria. *)
Definition location_op (op : filter_op) : bool :=
  match op with
  | OpTok a _ _ | OpAll a _ => location_axis a
  | OpInt _ _ _ | OpAllInt _ _ => true
  | _ => false
  end.

(** What every handler guarantees: a refusal performs nothing, and no blank mode
    is ever stored. *)
Definition hres_ok (r : hres) : Prop :=
  let '(_, ops, mutated) := r in
  (mutated = false -> ops = []) /\ forallb op_ok ops = true.

(** What the handlers outside the location domains guarantee. *)
Definition hres_elsewhere (r : hres) : Prop :=
  let '(_, ops, _) := r in forallb (fun op => negb (location_op op)) ops = true.

Lemma refuse_ok msg : hres_ok (refuse msg).
Proof. done. Qed.

Lemma refuse_elsewhere msg : hres_elsewhere (refuse msg).
Proof. done. Qed.

Lemma done_ok msg ops : forallb op_ok ops = true -> hres_ok (done_with msg ops).
Proof. done. Qed.

Lemma done_elsewhere msg ops :
  forallb (fun op => negb (location_op op)) ops = true -> hres_elsewhere (done_with msg ops).
Proof. done. Qed.

Lemma forallb_map_all {A} (p : filter_op -> bool) (g : A -> filter_op) l :
  (forall x, p (g x) = true) -> forallb p (map g l) = true.
Proof. intros Hg. induction l as [|x l IH]; simpl; [done|]. by rewrite Hg, IH. Qed.

Lemma valid_modes_ok modes enabled :
  is_nil (collectInvalidModes modes) = true ->
  forallb op_ok (map (fun m => OpTok AMode m enabled) modes) = true.
Proof.
  unfold collectInvalidModes. induction modes as [|m modes IH]; simpl; [done|].
  destruct (IsSupportedMode m) eqn:E; simpl; [|done]. intros Hn. rewrite IH by done.
  rewrite andb_true_r. unfold nonempty. apply negb_true_iff, bool_decide_eq_false. intros Hm.
  unfold IsSupportedMode in E. by rewrite Hm in E.
Qed.

Create HintDb handlers discriminated.
#[local] Hint Resolve refuse_ok refuse_elsewhere done_ok done_elsewhere valid_modes_ok : handlers.
#[local] Hint Extern 2 (forallb _ (map _ _) = true) => apply forallb_map_all; intros; reflexivity : handlers.
#[local] Hint Extern 1 (forallb _ _ = true) => reflexivity : handlers.

(** Walk through the guards of a handler. *)
Ltac handler := cbv zeta; repeat (case_match; boolify); auto with handlers.

Lemma band_ok c a args : hres_ok (newBandHandler c a args) /\ hres_elsewhere (newBandHandler c a args).
Proof. unfold newBandHandler. split; handler. Qed.

Lemma dxbm_ok c a args : hres_ok (newDXBMHandler c a args) /\ hres_elsewhere (newDXBMHandler c a args).
Proof. unfold newDXBMHandler, applyDXBMBands. split; handler. Qed.

Lemma mode_ok c a args : hres_ok (newModeHandler c a args) /\ hres_elsewhere (newModeHandler c a args).
Proof. unfold newModeHandler. split; handler. Qed.

Lemma source_ok c a args : hres_ok (newSourceHandler c a args) /\ hres_elsewhere (newSourceHandler c a args).
Proof. unfold newSourceHandler. split; handler. Qed.

Lemma nofilter_ok c a args : hres_ok (newNoFilterHandler c a args) /\ hres_elsewhere (newNoFilterHandler c a args).
Proof. unfold newNoFilterHandler. split; handler. Qed.

Lemma call_ok n c a args :
  hres_ok (newCallPatternHandler n c a args) /\ hres_elsewhere (newCallPatternHandler n c a args).
Proof. unfold newCallPatternHandler. split; handler. Qed.

Lemma confidence_ok c a args :
  hres_ok (newConfidenceHandler c a args) /\ hres_elsewhere (newConfidenceHandler c a args).
Proof. unfold newConfidenceHandler. split; handler. Qed.

Lemma path_ok c a args : hres_ok (newPathHandler c a args) /\ hres_elsewhere (newPathHandler c a args).
Proof. unfold newPathHandler. split; handler. Qed.

Lemma nearby_ok e1 e2 c a args :
  hres_ok (newNearbyHandler e1 e2 c a args) /\ hres_elsewhere (newNearbyHandler e1 e2 c a args).
Proof. unfold newNearbyHandler. split; handler. Qed.

Lemma toggle_ok n t c a args :
  hres_ok (newFeatureToggleHandler n t c a args) /\ hres_elsewhere (newFeatureToggleHandler n t c a args).
Proof. unfold newFeatureToggleHandler. split; handler. Qed.

Lemma continent_ok n c a args : hres_ok (newContinentHandler n c a args).
Proof. unfold newContinentHandler. destruct (bool_decide (n = "DXCONT")); handler. Qed.

Lemma zone_ok n c a args : hres_ok (newZoneHandler n c a args).
Proof. unfold newZoneHandler. handler. Qed.

Lemma dxcc_ok n c a args : hres_ok (newDXCCHandler n c a args).
Proof. unfold newDXCCHandler. handler. Qed.

Lemma grid2_ok n c a args : hres_ok (newGrid2Handler n c a args).
Proof. unfold newGrid2Handler. destruct (bool_decide (n = "DXGRID2")); handler. Qed.

Section EngineLemmas.
Variable EncodeCell : string -> Z.
Variable EncodeCoarseCell : string -> Z.
Variable d : Defaults.
Variable adifs : list Z.

Lemma assoc_elem {A} key (l : list (string * A)) v : assoc key l = Some v -> (key, v) ∈ l.
Proof.
  induction l as [|[k w] l IH]; simpl; [done|]. rewrite elem_of_cons.
  case_bool_decide; naive_solver.
Qed.

(** The registered handlers keep these promises. *)
Lemma handlers_ok c a args :
  Forall (fun '(key, h) => hres_ok (h c a args) /\
            (key ∈ locationFilterDomains \/ hres_elsewhere (h c a args)))
    (handlers EncodeCell EncodeCoarseCell).
Proof.
  unfold handlers. repeat apply List.Forall_cons; try apply List.Forall_nil.
  all: split;
    [ first [apply band_ok | apply dxbm_ok | apply mode_ok | apply source_ok | apply nofilter_ok
            | apply call_ok | apply confidence_ok | apply path_ok | apply nearby_ok | apply continent_ok
            | apply zone_ok | apply dxcc_ok | apply grid2_ok | apply toggle_ok]
    | first [ left; apply (bool_decide_unpack _); reflexivity
            | right; first [apply band_ok | apply dxbm_ok | apply mode_ok | apply source_ok
                           | apply nofilter_ok | apply call_ok | apply confidence_ok | apply path_ok
                           | apply nearby_ok | apply toggle_ok] ] ].
Qed.

Lemma execute_ok c cmd : hres_ok (execute EncodeCell EncodeCoarseCell adifs c cmd).
Proof.
  unfold execute. destruct (cmd_action cmd); try done; cbv zeta.
  all: destruct (assoc _ _) as [h|] eqn:E; [|by case_match].
  all: case_match; [done|]; apply assoc_elem in E.
  all: pose proof (handlers_ok c (cmd_action cmd) (cmd_args cmd)) as Hall.
  - pose proof (handlers_ok c actionAllow (cmd_args cmd)) as Hf. rewrite Forall_forall in Hf.
    by destruct (Hf _ E).
  - pose proof (handlers_ok c actionBlock (cmd_args cmd)) as Hf. rewrite Forall_forall in Hf.
    by destruct (Hf _ E).
Qed.

(** With NEARBY on, a command never touches a location criterion directly. *)
Lemma execute_nearby c cmd :
  NearbyEnabled (c_filter c) = true -> hres_elsewhere (execute EncodeCell EncodeCoarseCell adifs c cmd).
Proof.
  intros Hn. unfold execute. destruct (cmd_action cmd); try done; cbv zeta.
  all: destruct (assoc _ _) as [h|] eqn:E; [|by case_match].
  all: apply assoc_elem in E; unfold NearbyActive; rewrite Hn; simpl; case_bool_decide as Hk; simpl; [done|].
  - pose proof (handlers_ok c actionAllow (cmd_args cmd)) as Hf. rewrite Forall_forall in Hf.
    by destruct (Hf _ E) as [_ [?|?]].
  - pose proof (handlers_ok c actionBlock (cmd_args cmd)) as Hf. rewrite Forall_forall in Hf.
    by destruct (Hf _ E) as [_ [?|?]].
Qed.

(** The operations a line performs. *)
Definition line_ops (c : Client) (line : string) : list filter_op :=
  match parse (Fields (TrimSpace line)) (map ToUpper (Fields (TrimSpace line))) (c_dialect c) with
  | Parsed cmd => snd (fst (execute EncodeCell EncodeCoarseCell adifs c cmd))
  | _ => []
  end.

Lemma parse_nil dialect : parse [] [] dialect = NoMatch.
Proof. by destruct dialect. Qed.

Lemma Handle_client c line :
  snd (Handle EncodeCell EncodeCoarseCell d adifs c line) = with_filter (run_ops d (line_ops c line) (c_filter c)) c.
Proof.
  unfold Handle, line_ops. set (tokens := Fields (TrimSpace line)).
  assert (Hc : with_filter (c_filter c) c = c) by (by destruct c).
  destruct tokens as [|t ts] eqn:Et; simpl is_nil; cbv iota.
  - simpl map. rewrite parse_nil. simpl. by rewrite Hc.
  - destruct (parse _ _ _); simpl; rewrite ?Hc; try done.
    + by case_match.
    + by destruct (execute EncodeCell EncodeCoarseCell adifs c cmd) as [[resp ops] mutated].
Qed.

(** C33: A line the engine does not report as a change (unknown command, bad
    argument anywhere in a list, usage error, a location filter while NEARBY
    is on) leaves the client's filter exactly as it was. *)
Theorem refused_line_changes_nothing c line resp handled c' :
  Handle EncodeCell EncodeCoarseCell d adifs c line = (resp, handled, false, c') -> c' = c.
Proof.
  intros H. pose proof (Handle_client c line) as Hc. rewrite H in Hc. simpl in Hc. subst c'.
  assert (Hops : line_ops c line = []).
  { unfold Handle, line_ops in *. destruct (Fields (TrimSpace line)) as [|t ts].
    - simpl. by rewrite parse_nil.
    - simpl in H |- *. destruct (parse _ _ _) as [| |cmd]; try done.
      pose proof (execute_ok c cmd) as Hok.
      destruct (execute EncodeCell EncodeCoarseCell adifs c cmd) as [[r ops] mutated]. simplify_eq/=. by apply Hok. }
  rewrite Hops. by destruct c.
Qed.

(** A session: lines in sequence. *)
Fixpoint handle_lines (c : Client) (lines : list string) : Client :=
  match lines with
  | [] => c
  | line :: rest => handle_lines (snd (Handle EncodeCell EncodeCoarseCell d adifs c line)) rest
  end.

Fixpoint session_ops (c : Client) (lines : list string) : list filter_op :=
  match lines with
  | [] => []
  | line :: rest => line_ops c line ++ session_ops (snd (Handle EncodeCell EncodeCoarseCell d adifs c line)) rest
  end.

Lemma line_ops_ok c line : forallb op_ok (line_ops c line) = true.
Proof.
  unfold line_ops. destruct (parse _ _ _) as [| |cmd]; try done.
  pose proof (execute_ok c cmd) as Hok. destruct (execute EncodeCell EncodeCoarseCell adifs c cmd) as [[r ops] mutated]. apply Hok.
Qed.

Lemma session_ops_ok c lines : forallb op_ok (session_ops c lines) = true.
Proof.
  revert c. induction lines as [|line lines IH]; intros c; simpl; [done|].
  by rewrite forallb_app, line_ops_ok, IH.
Qed.

Lemma handle_lines_filter c lines :
  c_filter (handle_lines c lines) = run_ops d (session_ops c lines) (c_filter c).
Proof.
  revert c. induction lines as [|line lines IH]; intros c; simpl; [done|].
  rewrite IH, Handle_client. unfold run_ops. by rewrite foldl_app.
Qed.


(** While NEARBY is on, no line changes a location criterion, short of NEARBY
    OFF and the two resets. *)
Theorem nearby_locks_location c line :
  NearbyEnabled (c_filter c) = true ->
  Location (c_filter (snd (Handle EncodeCell EncodeCoarseCell d adifs c line))) = Location (c_filter c) \/
  (exists op, op ∈ line_ops c line /\ keeps_snapshot op = false).
Proof.
  intros Hn. rewrite Handle_client. cbn [with_filter c_filter].
  assert (Hel : forallb (fun op => negb (location_op op)) (line_ops c line) = true).
  { unfold line_ops. destruct (parse _ _ _) as [| |cmd]; try done.
    pose proof (execute_nearby c cmd Hn) as He. by destruct (execute EncodeCell EncodeCoarseCell adifs c cmd) as [[r ops] mutated]. }
  destruct (existsb (fun op => negb (keeps_snapshot op)) (line_ops c line)) eqn:Hk.
  - right. apply existsb_exists_elem in Hk as (op & Hop & Hk). exists op. by boolify.
  - left. revert Hel Hk. generalize (c_filter c). generalize (line_ops c line). clear.
    unfold run_ops. induction l as [|op l IH]; intros f Hel Hk; simpl in *; [done|]. boolify.
    rewrite IH by done. destruct op; try done; crush_op.
Qed.
End EngineLemmas.

(** PASS, REJECT, SHOW and RESET mean the same in the CC dialect as in the
    classic one. *)
Theorem classic_verbs_in_cc tokens upper verb :
  head upper = Some verb -> verb ∈ ["PASS"; "REJECT"; "SHOW"; "RESET"] ->
  parse tokens upper DialectCC = parse tokens upper DialectGo.
Proof.
  destruct upper as [|v rest]; [done|]. intros [= ->] Hv.
  assert (Hcc : forall w, w ∈ ["PASS"; "REJECT"; "SHOW"] -> parseCCDialect tokens (w :: rest) = NoMatch).
  { intros w Hw. unfold parseCCDialect, parse_dxbm.
    rewrite !elem_of_cons in Hw. destruct Hw as [->|[->|[->|Hw]]]; [..|by apply not_elem_of_nil in Hw];
      destruct rest; reflexivity. }
  destruct (decide (verb = "RESET")) as [->|Hne].
  - unfold parse, dialect_parse, parseCCDialect, parseClassicDialect, parse_dxbm. simpl.
    destruct rest as [|x [|y rest]]; simpl; reflexivity || (case_bool_decide; reflexivity).
  - unfold parse, dialect_parse. rewrite Hcc by (rewrite !elem_of_cons in *; naive_solver).
    by destruct (parseClassicDialect tokens (verb :: rest)).
Qed.

(** ** Witnesses *)

Definition sample_client : Client := mkClient (NewFilter initialDefaults) DialectGo "FN42" 5 3 true.
Definition sample_lines : list string :=
  ["PASS MODE ALL"; "reject mode ft8, ft4"; "PASS BAND 20m 40m"; "REJECT BAND 99m"; "PASS DXCALL W1*"].

Lemma refused_line_changes_nothing_witness :
  snd (Handle (fun _ => 7) (fun _ => 7) initialDefaults [] sample_client "PASS BAND 20m,99m") = sample_client.
Proof.
  apply (refused_line_changes_nothing (fun _ => 7) (fun _ => 7) initialDefaults [] sample_client
           "PASS BAND 20m,99m" (unknown_band_msg ["99m"]) true).
  vm_compute. reflexivity.
Defined.


Lemma nearby_locks_location_witness :
  let c := handle_lines (fun _ => 7) (fun _ => 7) initialDefaults [] sample_client ["PASS NEARBY ON"] in
  let c' := snd (Handle (fun _ => 7) (fun _ => 7) initialDefaults [] c "PASS DXCONT EU") in
  Location (c_filter c') = Location (c_filter c).
Proof.
  intros c c'. destruct (nearby_locks_location (fun _ => 7) (fun _ => 7) initialDefaults [] c "PASS DXCONT EU")
    as [H|(op & Hop & _)].
  - reflexivity.
  - exact H.
  - exfalso. vm_compute in Hop. by apply not_elem_of_nil in Hop.
Defined.

Lemma classic_verbs_in_cc_witness :
  parse ["pass"; "band"; "20m"] ["PASS"; "BAND"; "20M"] DialectCC =
  Parsed (mkCmd actionAllow "BAND" ["20m"] "").
Proof.
  transitivity (parse ["pass"; "band"; "20m"] ["PASS"; "BAND"; "20M"] DialectGo).
  - apply (classic_verbs_in_cc _ _ "PASS"); [reflexivity|]. left.
  - reflexivity.
Defined.

(** The DXBM mapping goes by prefix, and [6] is a prefix of [60]: asking for the 60 m
    band, which the command does not support, selects 6 m instead of being
    refused. *)
Theorem dxbm_60m_selects_6m :
  let c := mkClient (NewFilter initialDefaults) DialectCC "" 0 0 false in
  let '(resp, handled, saved, c') :=
    Handle (fun _ => 0) (fun _ => 0) initialDefaults [] c "SET/FILTER DXBM/PASS 60" in
  saved = true /\ passesStringFilter "6m" (Bands (c_filter c')) = true /\
  passesStringFilter "60m" (Bands (c_filter c')) = false.
Proof. vm_compute. done. Qed.
