(* ===== verification/CallDistance.v ===== *)
(** * Distances between callsigns

    Models the distance functions of [src/spot/correction.go]: the edit distance
    with Morse or Baudot substitution costs that call correction uses to decide
    whether one call is a miscopy of another.  The dynamic program is written
    with its two row buffers and their in-place updates, starting from whatever
    a pooled buffer holds.  The tables are built in the iteration order of a Go
    map, which is an argument here ([keys]).  Calls are ASCII, so runes are
    bytes.  The third-party plain Levenshtein distance is a parameter. *)

From S2P Require Import Prelude GoText GoNum Callsign.
Local Open Scope string_scope.
Local Open Scope list_scope.
Local Open Scope Z_scope.

Definition runes (s : string) : list ascii := String.list_ascii_of_string s.

Definition min3 (a b c : Z) : Z :=
  if a <? b then (if a <? c then a else c) else (if b <? c then b else c).

(** ** The dynamic program *)

Section EditRows.
Context {A : Type}.
Variables (ins del : Z) (sub : A -> A -> Z).

(** [buf[j]]; the indices below are always in range. *)
Definition at_ (buf : list Z) (j : nat) : Z := default 0 (buf !! j).

(** [for j := 0; j <= lb; j++ { prev[j] = j * ins }]: column [j] and up. *)
Fixpoint init_row (steps j : nat) (prev : list Z) : list Z :=
  match steps with
  | O => prev
  | S k => init_row k (S j) (<[j := Z.of_nat j * ins]> prev)
  end.

(** The inner loop from column [j], whose letter is the head of [rb]. *)
Fixpoint fill_row (prev : list Z) (x : A) (rb : list A) (j : nat) (cur : list Z) : list Z :=
  match rb with
  | [] => cur
  | y :: rest =>
      let insert := at_ cur (j - 1) + ins in
      let delete := at_ prev j + del in
      let replace := at_ prev (j - 1) + sub x y in
      fill_row prev x rest (S j) (<[j := min3 insert delete replace]> cur)
  end.

(** The outer loop from row [i]; the buffers swap after each row. *)
Fixpoint fill_rows (ra rb : list A) (i : nat) (prev cur : list Z) : list Z * list Z :=
  match ra with
  | [] => (prev, cur)
  | x :: rest =>
      let cur := <[0%nat := Z.of_nat i * del]> cur in
      let cur := fill_row prev x rb 1 cur in
      fill_rows rest rb (S i) cur prev
  end.

(** [prev[lb]] after the loops. *)
Definition edit_distance (ra rb : list A) (prev cur : list Z) : Z :=
  let prev := init_row (S (length rb)) 0 prev in
  let '(prev, _) := fill_rows ra rb 1 prev cur in
  at_ prev (length rb).
End EditRows.

(** ** Code books and weights *)

Record weights := mkWeights { w_ins : Z; w_del : Z; w_sub : Z; w_scale : Z }.

Definition defaultWeights : weights := mkWeights 1 1 2 2.

Definition positive_or (v dflt : Z) : Z := if 0 <? v then v else dflt.

(** The body shared by the two [Configure...Weights] functions. *)
Definition configureWeights (insert delete sub scale : Z) : weights :=
  mkWeights (positive_or insert 1) (positive_or delete 1) (positive_or sub 2) (positive_or scale 2).

Definition ConfigureMorseWeights : Z -> Z -> Z -> Z -> weights := configureWeights.
Definition ConfigureBaudotWeights : Z -> Z -> Z -> Z -> weights := configureWeights.

Definition codebook : Type := list (ascii * string).

Definition morseCodes : codebook := [
  ("A"%char, ".-"); ("B"%char, "-..."); ("C"%char, "-.-."); ("D"%char, "-.."); ("E"%char, ".");
  ("F"%char, "..-."); ("G"%char, "--."); ("H"%char, "...."); ("I"%char, "..");
  ("J"%char, ".---"); ("K"%char, "-.-"); ("L"%char, ".-.."); ("M"%char, "--");
  ("N"%char, "-."); ("O"%char, "---"); ("P"%char, ".--."); ("Q"%char, "--.-");
  ("R"%char, ".-."); ("S"%char, "..."); ("T"%char, "-"); ("U"%char, "..-"); ("V"%char, "...-");
  ("W"%char, ".--"); ("X"%char, "-..-"); ("Y"%char, "-.--"); ("Z"%char, "--..");
  ("0"%char, "-----"); ("1"%char, ".----"); ("2"%char, "..---"); ("3"%char, "...--");
  ("4"%char, "....-"); ("5"%char, "....."); ("6"%char, "-...."); ("7"%char, "--...");
  ("8"%char, "---.."); ("9"%char, "----."); ("/"%char, "-..-.")].

Definition baudotCodes : codebook := [
  ("A"%char, "L00011"); ("B"%char, "L11001"); ("C"%char, "L01110"); ("D"%char, "L01001");
  ("E"%char, "L00001"); ("F"%char, "L01101"); ("G"%char, "L11010"); ("H"%char, "L10100");
  ("I"%char, "L00110"); ("J"%char, "L01011"); ("K"%char, "L01111"); ("L"%char, "L10010");
  ("M"%char, "L11100"); ("N"%char, "L01100"); ("O"%char, "L11000"); ("P"%char, "L10110");
  ("Q"%char, "L10111"); ("R"%char, "L01010"); ("S"%char, "L00101"); ("T"%char, "L10000");
  ("U"%char, "L00111"); ("V"%char, "L11110"); ("W"%char, "L10011"); ("X"%char, "L11101");
  ("Y"%char, "L10101"); ("Z"%char, "L10001"); ("0"%char, "F10110"); ("1"%char, "F10111");
  ("2"%char, "F10011"); ("3"%char, "F00001"); ("4"%char, "F01010"); ("5"%char, "F10000");
  ("6"%char, "F10101"); ("7"%char, "F00111"); ("8"%char, "F00110"); ("9"%char, "F11000");
  ("/"%char, "F11101")].

(** The body shared by the two pattern costs, under weights [w]. *)
Definition patternCost (w : weights) (a b : string) : Z :=
  if bool_decide (a = b) then 0
  else
    let ra := runes a in
    let rb := runes b in
    match ra, rb with
    | [], _ => w_ins w
    | _, [] => w_ins w
    | _, _ =>
        let zeros := replicate (S (length rb)) 0 in
        let raw := edit_distance (w_ins w) (w_del w)
                     (fun x y => if bool_decide (x = y) then 0 else w_sub w) ra rb zeros zeros in
        let maxLen := Z.max (Z.of_nat (length ra)) (Z.of_nat (length rb)) in
        let normalized := fl64 (inject_Z raw / inject_Z (maxLen + 1)) in
        let scale := if w_scale w <=? 0 then 2 else w_scale w in
        let scaled := Qceiling (fl64 (normalized * inject_Z scale)) in
        if (scaled <? 1) && (0 <? raw) then 1 else scaled
    end.

Definition morsePatternCost : weights -> string -> string -> Z := patternCost.
Definition baudotPatternCost : weights -> string -> string -> Z := patternCost.

Definition lookup_code (book : codebook) (r : ascii) : string :=
  match List.find (fun '(k, _) => bool_decide (k = r)) book with Some (_, v) => v | None => "" end.

(** [buildRuneCostTable]: the position of each rune in [keys] and the dense
    table of costs, for the order [keys] in which the map was visited. *)
Definition rune_index (keys : list ascii) (r : ascii) : option nat := fst <$> list_find (fun k => k = r) keys.

Definition cost_table (book : codebook) (cost : string -> string -> Z) (keys : list ascii) : list (list Z) :=
  map (fun ra => map (fun rb => if bool_decide (ra = rb) then 0
                                else cost (lookup_code book ra) (lookup_code book rb)) keys) keys.

(** [morseCharDist] and [baudotCharDist]. *)
Definition charDist (keys : list ascii) (table : list (list Z)) (a b : ascii) : Z :=
  if bool_decide (a = b) then 0
  else match rune_index keys a, rune_index keys b with
       | Some i, Some j => default 0 (default [] (table !! i) !! j)
       | _, _ => 2
       end.

(** ** Distances between calls *)

(** [cwCallDistance] and [rttyCallDistance] on a table; [prev] and [cur] are the
    buffers borrowed from the pool, [lb + 1] long with arbitrary contents. *)
Definition tableCallDistance (keys : list ascii) (table : list (list Z)) (a b : string)
    (prev cur : list Z) : Z :=
  let ra := runes (ToUpper a) in
  let rb := runes (ToUpper b) in
  if bool_decide (ra = []) then Z.of_nat (length rb)
  else if bool_decide (rb = []) then Z.of_nat (length ra)
  else edit_distance 1 1 (charDist keys table) ra rb prev cur.

Definition cwCallDistance (w : weights) (keys : list ascii) : string -> string -> list Z -> list Z -> Z :=
  tableCallDistance keys (cost_table morseCodes (morsePatternCost w) keys).

Definition rttyCallDistance (w : weights) (keys : list ascii) : string -> string -> list Z -> list Z -> Z :=
  tableCallDistance keys (cost_table baudotCodes (baudotPatternCost w) keys).

Definition distanceModelMorse : string := "morse".
Definition distanceModelBaudot : string := "baudot".
Definition distanceModelPlain : string := "plain".

Definition normalizeCWDistanceModel (model : string) : string :=
  if bool_decide (ToLower (TrimSpace model) = distanceModelMorse) then distanceModelMorse
  else distanceModelPlain.

Definition normalizeRTTYDistanceModel (model : string) : string :=
  if bool_decide (ToLower (TrimSpace model) = distanceModelBaudot) then distanceModelBaudot
  else distanceModelPlain.

Section CallDistance.
Variable lev : string -> string -> Z.
Variables (morse baudot : weights) (mkeys bkeys : list ascii).

(** [borrowIntSlice]: some buffer of [n] integers. *)
Variable borrow : nat -> list Z.

Definition callDistanceCore (subject candidate mode cwModel rttyModel : string) : Z :=
  let n := S (length (runes (ToUpper candidate))) in
  if bool_decide (mode = "CW") && bool_decide (cwModel = distanceModelMorse)
  then cwCallDistance morse mkeys subject candidate (borrow n) (borrow n)
  else if bool_decide (mode = "RTTY") && bool_decide (rttyModel = distanceModelBaudot)
  then rttyCallDistance baudot bkeys subject candidate (borrow n) (borrow n)
  else lev subject candidate.

Definition callDistance (subject candidate mode cwModel rttyModel : string) : Z :=
  callDistanceCore subject candidate (NormalizeUpper mode)
    (normalizeCWDistanceModel cwModel) (normalizeRTTYDistanceModel rttyModel).
End CallDistance.

(** ** Edit scripts

    What an edit distance means, independently of the program: the cheapest
    sequence of insertions, deletions and substitutions from one word to the
    other. *)

Section Scripts.
Context {A : Type}.
Variables (ins del : Z) (sub : A -> A -> Z).

Inductive edit := Ins (y : A) | Del (x : A) | Sub (x y : A).

Definition edit_source (e : edit) : list A := match e with Ins _ => [] | Del x | Sub x _ => [x] end.
Definition edit_target (e : edit) : list A := match e with Del _ => [] | Ins y | Sub _ y => [y] end.
Definition edit_cost (e : edit) : Z := match e with Ins _ => ins | Del _ => del | Sub x y => sub x y end.

Definition source (l : list edit) : list A := flat_map edit_source l.
Definition target (l : list edit) : list A := flat_map edit_target l.
Definition cost (l : list edit) : Z := foldr (fun e c => edit_cost e + c) 0 l.

(** [c] is the cost of a cheapest script from [a] to [b]. *)
Definition cheapest (a b : list A) (c : Z) : Prop :=
  (exists l, source l = a /\ target l = b /\ cost l = c) /\
  (forall l, source l = a -> target l = b -> c <= cost l).

Lemma source_snoc l e : source (l ++ [e]) = source l ++ edit_source e.
Proof. unfold source. rewrite flat_map_app. simpl. by rewrite app_nil_r. Qed.

Lemma target_snoc l e : target (l ++ [e]) = target l ++ edit_target e.
Proof. unfold target. rewrite flat_map_app. simpl. by rewrite app_nil_r. Qed.

Lemma cost_snoc l e : cost (l ++ [e]) = cost l + edit_cost e.
Proof. induction l as [|x l IH]; simpl; [lia|]. unfold cost in *. rewrite IH. lia. Qed.

Lemma cheapest_unique a b c c' : cheapest a b c -> cheapest a b c' -> c = c'.
Proof.
  intros [(l & Ha & Hb & <-) Hmin] [(l' & Ha' & Hb' & <-) Hmin'].
  apply Z.le_antisymm; [by apply Hmin|by apply Hmin'].
Qed.

Lemma cheapest_nil_l b : cheapest [] b (Z.of_nat (length b) * ins).
Proof.
  split.
  - exists (map Ins b). induction b as [|y b (IH1 & IH2 & IH3)]; simpl; [done|].
    rewrite IH1, IH2. split_and!; [done..|]. unfold cost in *. rewrite IH3. lia.
  - intros l. revert b. induction l as [|e l IH]; intros b Hs Ht; simpl in *.
    + by subst b.
    + destruct e; simpl in Hs; [|done..]. subst b. simpl.
      specialize (IH _ Hs eq_refl). unfold cost in *. simpl. fold (target l). lia.
Qed.

Lemma cheapest_nil_r a : cheapest a [] (Z.of_nat (length a) * del).
Proof.
  split.
  - exists (map Del a). induction a as [|x a (IH1 & IH2 & IH3)]; simpl; [done|].
    rewrite IH1, IH2. split_and!; [done..|]. unfold cost in *. rewrite IH3. lia.
  - intros l. revert a. induction l as [|e l IH]; intros a Hs Ht; simpl in *.
    + by subst a.
    + destruct e; simpl in Ht; [done| |done]. subst a. simpl.
      specialize (IH _ eq_refl Ht). unfold cost in *. simpl. fold (source l). lia.
Qed.

Lemma min3_spec a b c :
  min3 a b c <= a /\ min3 a b c <= b /\ min3 a b c <= c /\
  (min3 a b c = a \/ min3 a b c = b \/ min3 a b c = c).
Proof.
  unfold min3. destruct (Z.ltb_spec a b), (Z.ltb_spec a c), (Z.ltb_spec b c); lia.
Qed.

(** The recurrence of the dynamic program. *)
Lemma cheapest_step a b x y c1 c2 c3 :
  cheapest (a ++ [x]) b c1 -> cheapest a (b ++ [y]) c2 -> cheapest a b c3 ->
  cheapest (a ++ [x]) (b ++ [y]) (min3 (c1 + ins) (c2 + del) (c3 + sub x y)).
Proof.
  intros [(l1 & Hs1 & Ht1 & Hc1) M1] [(l2 & Hs2 & Ht2 & Hc2) M2] [(l3 & Hs3 & Ht3 & Hc3) M3].
  destruct (min3_spec (c1 + ins) (c2 + del) (c3 + sub x y)) as (L1 & L2 & L3 & Hc).
  split.
  - destruct Hc as [-> | [-> | ->]];
      [exists (l1 ++ [Ins y])|exists (l2 ++ [Del x])|exists (l3 ++ [Sub x y])];
      rewrite source_snoc, target_snoc, cost_snoc; simpl; rewrite ?app_nil_r; split_and!; congruence.
  - intros l Hs Ht. destruct l as [|e l _] using rev_ind; [by destruct a|].
    rewrite source_snoc in Hs. rewrite target_snoc in Ht. rewrite cost_snoc.
    destruct e as [y'|x'|x' y']; simpl in *; rewrite ?app_nil_r in *.
    + apply app_inj_tail in Ht as [Ht ->]. specialize (M1 l Hs Ht). lia.
    + apply app_inj_tail in Hs as [Hs ->]. specialize (M2 l Hs Ht). lia.
    + apply app_inj_tail in Hs as [Hs ->]. apply app_inj_tail in Ht as [Ht ->].
      specialize (M3 l Hs Ht). lia.
Qed.

(** ** The rows hold cheapest costs of prefixes *)

Definition row_ok (a : list A) (rb : list A) (n : nat) (row : list Z) : Prop :=
  forall j, (j < n)%nat -> cheapest a (take j rb) (at_ row j).

Lemma at_insert_eq row j v : (j < length row)%nat -> at_ (<[j := v]> row) j = v.
Proof. intros Hj. unfold at_. by rewrite list_lookup_insert_eq. Qed.

Lemma at_insert_ne row i j v : i <> j -> at_ (<[i := v]> row) j = at_ row j.
Proof. intros Hj. unfold at_. by rewrite list_lookup_insert_ne. Qed.

Lemma length_init_row steps j row : length (init_row ins steps j row) = length row.
Proof. revert j row. induction steps as [|k IH]; intros j row; simpl; [done|]. by rewrite IH, length_insert. Qed.

Lemma at_init_row steps j row i :
  (j + steps <= length row)%nat -> (i < j + steps)%nat ->
  at_ (init_row ins steps j row) i = if decide (i < j)%nat then at_ row i else Z.of_nat i * ins.
Proof.
  revert j row. induction steps as [|k IH]; intros j row Hlen Hi; simpl.
  - destruct (decide (i < j)%nat); [done|lia].
  - rewrite IH by (rewrite ?length_insert; lia).
    destruct (decide (i = j)) as [->|Hne].
    + rewrite decide_True, decide_False, at_insert_eq by lia. done.
    + rewrite at_insert_ne by done. destruct (decide (i < S j)%nat), (decide (i < j)%nat); lia || done.
Qed.

Lemma length_fill_row prev x rb j cur : length (fill_row ins del sub prev x rb j cur) = length cur.
Proof.
  revert j cur. induction rb as [|y rb IH]; intros j cur; simpl; [done|]. by rewrite IH, length_insert.
Qed.

Lemma take_S_snoc (rb : list A) j y rest :
  drop j rb = y :: rest -> take (S j) rb = take j rb ++ [y].
Proof.
  intros Hd. apply take_S_r. rewrite <- (Nat.add_0_r j), <- lookup_drop, Hd. done.
Qed.

Lemma fill_row_ok prev x a full rb j cur :
  drop (j - 1) full = rb -> (1 <= j)%nat -> length cur = S (length full) ->
  row_ok a full (S (length full)) prev -> row_ok (a ++ [x]) full j cur ->
  row_ok (a ++ [x]) full (S (length full)) (fill_row ins del sub prev x rb j cur).
Proof.
  intros Hrb Hj Hlen Hprev. revert j cur Hrb Hj Hlen.
  induction rb as [|y rb IH]; intros j cur Hrb Hj Hlen Hcur; simpl.
  - assert (length full <= j - 1)%nat.
    { assert (length (drop (j - 1) full) = 0%nat) as E by (by rewrite Hrb). rewrite length_drop in E. lia. }
    intros i Hi. apply Hcur. lia.
  - assert (j - 1 < length full)%nat.
    { assert (length (drop (j - 1) full) = S (length rb)) as E by (by rewrite Hrb).
      rewrite length_drop in E. lia. }
    apply IH; [|lia|by rewrite length_insert|].
    + replace (S j - 1)%nat with (S (j - 1)) by lia.
      replace (S (j - 1)) with ((j - 1) + 1)%nat by lia.
      rewrite <- drop_drop, Hrb. done.
    + intros i Hi. destruct (decide (i = j)) as [->|Hne].
      * rewrite at_insert_eq by lia.
        replace (take j full) with (take (j - 1) full ++ [y]).
        -- apply cheapest_step; [apply Hcur; lia| |apply Hprev; lia].
           rewrite <- (take_S_snoc full (j - 1) y rb) by done.
           replace (S (j - 1)) with j by lia. apply Hprev. lia.
        -- rewrite <- (take_S_snoc full (j - 1) y rb) by done. f_equal. lia.
      * rewrite at_insert_ne by done. apply Hcur. lia.
Qed.

Lemma fill_rows_ok ra full i prev cur a :
  i = S (length a) -> length prev = S (length full) -> length cur = S (length full) ->
  row_ok a full (S (length full)) prev ->
  row_ok (a ++ ra) full (S (length full)) (fst (fill_rows ins del sub ra full i prev cur)).
Proof.
  revert i prev cur a. induction ra as [|x ra IH]; intros i prev cur a Hi Hp Hc Hrow; simpl.
  - by rewrite app_nil_r.
  - replace (a ++ x :: ra) with ((a ++ [x]) ++ ra) by (by rewrite <- app_assoc).
    apply IH; [rewrite length_app; simpl; lia|by rewrite length_fill_row, length_insert|done|].
    apply fill_row_ok; [by rewrite drop_0|lia|by rewrite length_insert|done|].
    intros j Hj. replace j with 0%nat by lia. rewrite at_insert_eq by lia.
    simpl. subst i. replace (S (length a)) with (length (a ++ [x])) by (rewrite length_app; simpl; lia).
    apply cheapest_nil_r.
Qed.

Lemma edit_distance_cheapest ra rb prev cur :
  length prev = S (length rb) -> length cur = S (length rb) ->
  cheapest ra rb (edit_distance ins del sub ra rb prev cur).
Proof.
  intros Hp Hc. unfold edit_distance. cbv zeta.
  assert (Hl : length (init_row ins (S (length rb)) 0 prev) = S (length rb)) by (by rewrite length_init_row).
  assert (Hr : row_ok [] rb (S (length rb)) (init_row ins (S (length rb)) 0 prev)).
  { intros j Hj. rewrite at_init_row by lia. rewrite decide_False by lia.
    replace j with (length (take j rb)) at 2 by (rewrite length_take; lia). apply cheapest_nil_l. }
  revert Hl Hr. generalize (init_row ins (S (length rb)) 0 prev). intros p0 Hl Hr.
  pose proof (fill_rows_ok ra rb 1 p0 cur [] eq_refl Hl Hc Hr) as H.
  destruct (fill_rows ins del sub ra rb 1 p0 cur) as [p c]. cbn [fst app] in H.
  specialize (H (length rb) ltac:(lia)). by rewrite take_ge in H by done.
Qed.
End Scripts.

(** ** Symmetry and separation of cheapest costs *)

Section Metric.
Context {A : Type}.
Variable (sub : A -> A -> Z).

Definition flip_edit (e : edit (A := A)) : edit :=
  match e with Ins y => Del y | Del x => Ins x | Sub x y => Sub y x end.

Lemma cheapest_flip (a b : list A) c :
  (forall x y, sub x y = sub y x) -> cheapest 1 1 sub a b c -> cheapest 1 1 sub b a c.
Proof.
  intros Hsym.
  assert (Hflip : forall l, source (map flip_edit l) = target l /\ target (map flip_edit l) = source l /\
                            cost 1 1 sub (map flip_edit l) = cost 1 1 sub l).
  { induction l as [|e l (IH1 & IH2 & IH3)]; simpl; [done|]. rewrite IH1, IH2. unfold cost in *.
    rewrite IH3. destruct e; simpl; rewrite 1?Hsym; done. }
  intros [(l & Ha & Hb & Hc) Hmin]. split.
  - exists (map flip_edit l). destruct (Hflip l) as (-> & -> & ->). done.
  - intros l' Hs Ht. destruct (Hflip l') as (H1 & H2 & <-). apply Hmin; congruence.
Qed.

Lemma cheapest_zero (a b : list A) c :
  (forall x, sub x x = 0) -> (forall x y, x <> y -> 1 <= sub x y) -> (forall x y : A, {x = y} + {x <> y}) ->
  cheapest 1 1 sub a b c -> 0 <= c /\ (c = 0 <-> a = b).
Proof.
  intros Hrefl Hpos Hdec [(l & Ha & Hb & Hc) Hmin].
  assert (Hcost : forall l, 0 <= cost 1 1 sub l /\ (cost 1 1 sub l = 0 -> source l = target l)).
  { clear -Hrefl Hpos Hdec. induction l as [|e l [IH1 IH2]]; simpl; [done|]. unfold cost in *.
    destruct e as [y|x|x y]; simpl.
    - split; lia.
    - split; lia.
    - destruct (Hdec x y) as [->|Hne].
      + rewrite Hrefl. split; [lia|]. intros H0. by rewrite IH2 by lia.
      + specialize (Hpos x y Hne). split; lia. }
  destruct (Hcost l) as [H0 Heq]. split; [lia|]. split; [intros ->; rewrite <- Ha, <- Hb; auto|].
  intros ->. apply Z.le_antisymm; [|lia].
  assert (Hid : forall w, source (map (fun x => Sub x x) w) = w /\ target (map (fun x => Sub x x) w) = w /\
                          cost 1 1 sub (map (fun x => Sub x x) w) = 0).
  { induction w as [|x w (I1 & I2 & I3)]; simpl; [done|]. rewrite I1, I2. unfold cost in *.
    rewrite I3, Hrefl. done. }
  destruct (Hid b) as (I1 & I2 & <-). by apply Hmin.
Qed.
End Metric.

(** ** The tables *)

(** The substitution cost, with no table and no order. *)
Definition charCost (book : codebook) (costf : string -> string -> Z) (a b : ascii) : Z :=
  if bool_decide (a = b) then 0
  else if bool_decide (a ∈ map fst book) && bool_decide (b ∈ map fst book)
       then costf (lookup_code book a) (lookup_code book b) else 2.

Lemma rune_index_spec keys r :
  match rune_index keys r with
  | Some i => keys !! i = Some r
  | None => r ∉ keys
  end.
Proof.
  unfold rune_index. destruct (list_find (fun k => k = r) keys) as [[i x]|] eqn:E; simpl.
  - apply list_find_Some in E as (Hi & -> & _). done.
  - apply list_find_None in E. rewrite Forall_forall in E. intros Hr. by apply (E r).
Qed.

Lemma charDist_spec book costf keys a b :
  keys ≡ₚ map fst book -> charDist keys (cost_table book costf keys) a b = charCost book costf a b.
Proof.
  intros Hperm. unfold charDist, charCost. case_bool_decide as Hab; [done|].
  pose proof (rune_index_spec keys a) as Ha. pose proof (rune_index_spec keys b) as Hb.
  destruct (rune_index keys a) as [i|].
  - rewrite (bool_decide_eq_true_2 (a ∈ map fst book))
      by (rewrite <- Hperm; eapply list_elem_of_lookup_2; exact Ha).
    destruct (rune_index keys b) as [j|]; simpl.
    + rewrite bool_decide_eq_true_2 by (rewrite <- Hperm; eapply list_elem_of_lookup_2; exact Hb).
      unfold cost_table. rewrite list_lookup_fmap, Ha. simpl. rewrite list_lookup_fmap, Hb. simpl.
      by rewrite bool_decide_eq_false_2.
    + by rewrite bool_decide_eq_false_2 by (by rewrite <- Hperm).
  - by rewrite (bool_decide_eq_false_2 (a ∈ map fst book)) by (by rewrite <- Hperm).
Qed.

Lemma cost_ext {A} ins del (sub sub' : A -> A -> Z) a b c :
  (forall x y, sub x y = sub' x y) -> cheapest ins del sub a b c -> cheapest ins del sub' a b c.
Proof.
  intros Hext. assert (Hc : forall l, cost ins del sub l = cost ins del sub' l).
  { induction l as [|e l IH]; simpl; [done|]. unfold cost in *. rewrite IH. destruct e; simpl; by rewrite ?Hext. }
  intros [(l & Ha & Hb & Hl) Hmin]. split; [exists l; by rewrite <- Hc|].
  intros l' Hs Ht. rewrite <- Hc. by apply Hmin.
Qed.

Lemma tableCallDistance_cheapest book costf keys a b prev cur :
  keys ≡ₚ map fst book ->
  length prev = S (String.length b) -> length cur = S (String.length b) ->
  cheapest 1 1 (charCost book costf) (runes (ToUpper a)) (runes (ToUpper b))
    (tableCallDistance keys (cost_table book costf keys) a b prev cur).
Proof.
  intros Hk Hp Hc.
  assert (Hlen : forall s, length (runes (ToUpper s)) = String.length s).
  { intros s. rewrite <- (length_ToUpper s). unfold runes. generalize (ToUpper s).
    induction s0 as [|x s0 IH]; simpl; [done|]. by rewrite IH. }
  apply (cost_ext 1 1 (charDist keys (cost_table book costf keys))); [intros; by apply charDist_spec|].
  unfold tableCallDistance. cbv zeta.
  case_bool_decide as Ea.
  { rewrite Ea. rewrite <- (Z.mul_1_r (Z.of_nat _)). apply cheapest_nil_l. }
  case_bool_decide as Eb.
  { rewrite Eb. rewrite <- (Z.mul_1_r (Z.of_nat _)). apply cheapest_nil_r. }
  apply edit_distance_cheapest; by rewrite Hlen.
Qed.

(** C32: The two-row dynamic program computes the true weighted edit distance:
    the cost of a cheapest script of insertions, deletions (cost 1) and
    substitutions (Morse cost), for any configured weights, any order in which
    the table was built and any leftovers in the pooled row buffers. *)
Theorem cwCallDistance_optimal w keys a b prev cur :
  keys ≡ₚ map fst morseCodes ->
  length prev = S (String.length b) -> length cur = S (String.length b) ->
  cheapest 1 1 (charCost morseCodes (morsePatternCost w)) (runes (ToUpper a)) (runes (ToUpper b))
    (cwCallDistance w keys a b prev cur).
Proof. apply tableCallDistance_cheapest. Qed.

Lemma cwCallDistance_optimal_witness :
  cheapest 1 1 (charCost morseCodes (morsePatternCost (ConfigureMorseWeights 0 0 0 0)))
    (runes "W1AW") (runes "W1AV")
    (cwCallDistance (ConfigureMorseWeights 0 0 0 0) (rev (map fst morseCodes)) "w1aw" "w1av" [9; 9; 9; 9; 9] [7; 7; 7; 7; 7]).
Proof.
  apply (cwCallDistance_optimal (ConfigureMorseWeights 0 0 0 0) (rev (map fst morseCodes)) "w1aw" "w1av");
    [symmetry; apply Permutation_rev|reflexivity|reflexivity].
Defined.

(** ** The default costs *)

Definition book_ok (book : codebook) : bool :=
  forallb (fun a => forallb (fun b =>
    (charCost book (patternCost defaultWeights) a b =? charCost book (patternCost defaultWeights) b a) &&
    (bool_decide (a = b) || (1 <=? charCost book (patternCost defaultWeights) a b)))
    (map fst book)) (map fst book).

Lemma morse_ok : book_ok morseCodes = true.
Proof. vm_compute. reflexivity. Qed.

Lemma baudot_ok : book_ok baudotCodes = true.
Proof. vm_compute. reflexivity. Qed.

Lemma book_costs book a b :
  book_ok book = true ->
  let c := charCost book (patternCost defaultWeights) in
  c a b = c b a /\ (a <> b -> 1 <= c a b).
Proof.
  intros Hok c.
  destruct (decide (a ∈ map fst book)) as [Ha|Ha]; [destruct (decide (b ∈ map fst book)) as [Hb|Hb]|].
  - unfold book_ok in Hok. rewrite forallb_forall_elem in Hok. specialize (Hok a Ha).
    rewrite forallb_forall_elem in Hok. specialize (Hok b Hb). boolify.
    split; [done|]. intros Hne.
    match goal with H : _ || _ = true |- _ => apply orb_true_iff in H as [H|H]; boolify; done end.
  - unfold c, charCost. rewrite (bool_decide_eq_false_2 (b ∈ _)) by done. rewrite andb_false_r. simpl.
    split; repeat case_bool_decide; done.
  - unfold c, charCost. rewrite (bool_decide_eq_false_2 (a ∈ _)) by done. rewrite andb_false_r. simpl.
    split; repeat case_bool_decide; done.
Qed.

Lemma default_distance_metric book keys a b pa ca pb cb :
  book_ok book = true -> keys ≡ₚ map fst book ->
  length pa = S (String.length b) -> length ca = S (String.length b) ->
  length pb = S (String.length a) -> length cb = S (String.length a) ->
  let dist := tableCallDistance keys (cost_table book (patternCost defaultWeights) keys) in
  dist a b pa ca = dist b a pb cb /\ 0 <= dist a b pa ca /\
  (dist a b pa ca = 0 <-> ToUpper a = ToUpper b).
Proof.
  intros Hok Hk Hpa Hca Hpb Hcb dist.
  pose proof (tableCallDistance_cheapest book (patternCost defaultWeights) keys a b pa ca Hk Hpa Hca) as Hab.
  pose proof (tableCallDistance_cheapest book (patternCost defaultWeights) keys b a pb cb Hk Hpb Hcb) as Hba.
  split.
  - eapply cheapest_unique; [exact Hab|].
    apply cheapest_flip; [|exact Hba]. intros x y. apply (book_costs book x y Hok).
  - apply cheapest_zero in Hab as [H0 Hz].
    + split; [exact H0|]. unfold dist. rewrite Hz. split; [|by intros ->].
      intros E. rewrite <- (String.string_of_list_ascii_of_string (ToUpper a)),
        <- (String.string_of_list_ascii_of_string (ToUpper b)). unfold runes in E. by rewrite E.
    + intros x. unfold charCost. by rewrite bool_decide_eq_true_2.
    + intros x y Hne. by apply (book_costs book x y Hok).
    + apply Ascii.ascii_dec.
Qed.

(** Under the default weights the CW and the RTTY distance are symmetric, never
    negative, and zero exactly for the same call up to case. *)
Theorem default_distances_separate keys a b pa ca pb cb :
  length pa = S (String.length b) -> length ca = S (String.length b) ->
  length pb = S (String.length a) -> length cb = S (String.length a) ->
  (keys ≡ₚ map fst morseCodes ->
   let dist := cwCallDistance defaultWeights keys in
   dist a b pa ca = dist b a pb cb /\ 0 <= dist a b pa ca /\ (dist a b pa ca = 0 <-> ToUpper a = ToUpper b)) /\
  (keys ≡ₚ map fst baudotCodes ->
   let dist := rttyCallDistance defaultWeights keys in
   dist a b pa ca = dist b a pb cb /\ 0 <= dist a b pa ca /\ (dist a b pa ca = 0 <-> ToUpper a = ToUpper b)).
Proof.
  intros H1 H2 H3 H4. split; intros Hk.
  - exact (default_distance_metric morseCodes keys a b pa ca pb cb morse_ok Hk H1 H2 H3 H4).
  - exact (default_distance_metric baudotCodes keys a b pa ca pb cb baudot_ok Hk H1 H2 H3 H4).
Qed.

Lemma default_distances_separate_witness :
  cwCallDistance defaultWeights (map fst morseCodes) "W1AW" "W1AV" [0; 0; 0; 0; 0] [0; 0; 0; 0; 0] =
  cwCallDistance defaultWeights (map fst morseCodes) "W1AV" "W1AW" [5; 5; 5; 5; 5] [6; 6; 6; 6; 6].
Proof.
  apply (proj1 (default_distances_separate (map fst morseCodes) "W1AW" "W1AV" [0; 0; 0; 0; 0] [0; 0; 0; 0; 0]
                  [5; 5; 5; 5; 5] [6; 6; 6; 6; 6] eq_refl eq_refl eq_refl eq_refl)).
  reflexivity.
Defined.
