(* ===== verification/KeywordScan.v ===== *)
(** * KeywordScan: the keyword automaton of the comment parser

    The scanner half of [spot/comment_parser.go]: an Aho-Corasick automaton built
    from a pattern list and run over a comment.  The automaton is a list of nodes,
    an index being a pointer.  Go ranges over the maps of a node in an unspecified
    order while it builds the failure links, so the order is an argument.

    The construction terminates and every failure link it computes is the root, so
    a scan reports true occurrences ([FindAll_sound]) but not all of them.  Fuel:
    the breadth-first search visits every node at most once ([ac_bfs_total]) and a
    failure chain has one link ([ac_follow_enough]). *)

From S2P Require Import Prelude GoText GoNum.

Local Open Scope string_scope.
Local Open Scope list_scope.
Local Open Scope Z_scope.

#[global] Instance ascii_countable : Countable ascii :=
  inj_countable' N_of_ascii ascii_of_N ascii_N_embedding.

(** ** Patterns and nodes *)

Inductive acTokenKind := acTokenUnknown | acTokenMode | acTokenDB | acTokenWPM | acTokenBPS.

Record acPattern := mkPattern { word : string; kind : acTokenKind; pmode : string }.

#[global] Instance acTokenKind_eq_dec : EqDecision acTokenKind.
Proof. solve_decision. Defined.

#[global] Instance acPattern_eq_dec : EqDecision acPattern.
Proof. solve_decision. Defined.

Record acMatch := mkMatch { m_start : nat; m_end : nat; m_pattern : acPattern }.

Record acNode := mkNode { next : gmap ascii nat; fail : nat; outputs : list nat }.

Record acScanner := mkScanner { patterns : list acPattern; nodes : list acNode }.

Definition empty_node : acNode := mkNode ∅ 0 [].

Definition node_at (ns : list acNode) (i : nat) : acNode := default empty_node (ns !! i).

(** ** Building the automaton *)

(** The loop over the bytes of one word. *)
Fixpoint trie_word (ns : list acNode) (state : nat) (w : string) : list acNode * nat :=
  match w with
  | "" => (ns, state)
  | String ch w' =>
      match next (node_at ns state) !! ch with
      | Some n => trie_word ns n w'
      | None =>
          let n := length ns in
          let ns := ns ++ [empty_node] in
          let ns := alter (fun nd => mkNode (<[ch := n]> (next nd)) (fail nd) (outputs nd)) state ns in
          trie_word ns n w'
      end
  end.

Definition add_output (idx : nat) (nd : acNode) : acNode :=
  mkNode (next nd) (fail nd) (outputs nd ++ [idx]).

Fixpoint trie_patterns (ns : list acNode) (idx : nat) (ps : list acPattern) : list acNode :=
  match ps with
  | [] => ns
  | p :: ps' =>
      let '(ns, state) := trie_word ns 0 (word p) in
      trie_patterns (alter (add_output idx) state ns) (S idx) ps'
  end.

(** [for fail > 0]: follow failure links until one has a transition on [ch]. *)
Fixpoint fail_loop (fuel : nat) (ns : list acNode) (ch : ascii) (f : nat) : option nat :=
  match f with
  | O => Some O
  | _ =>
      match fuel with
      | O => None
      | S k =>
          match next (node_at ns f) !! ch with
          | Some target => Some target
          | None => fail_loop k ns ch (fail (node_at ns f))
          end
      end
  end.

Fixpoint link_children (ns : list acNode) (state : nat) (children : list (ascii * nat))
    : option (list acNode) :=
  match children with
  | [] => Some ns
  | (ch, nx) :: rest =>
      match fail_loop (length ns) ns ch (fail (node_at ns state)) with
      | None => None
      | Some f =>
          let ns := alter (fun nd => mkNode (next nd) f (outputs nd ++ outputs (node_at ns f))) nx ns in
          link_children ns state rest
      end
  end.

Fixpoint ac_bfs (fuel : nat) (order : nat -> gmap ascii nat -> list (ascii * nat))
    (ns : list acNode) (queue : list nat) : option (list acNode) :=
  match queue with
  | [] => Some ns
  | state :: queue' =>
      match fuel with
      | O => None
      | S k =>
          let children := order state (next (node_at ns state)) in
          match link_children ns state children with
          | None => None
          | Some ns' => ac_bfs k order ns' (queue' ++ map snd children)
          end
      end
  end.

Definition newACScanner (order : nat -> gmap ascii nat -> list (ascii * nat))
    (ps : list acPattern) : option acScanner :=
  let ns := trie_patterns [empty_node] 0 ps in
  match ac_bfs (length ns) order ns (map snd (order 0%nat (next (node_at ns 0)))) with
  | None => None
  | Some ns => Some (mkScanner ps ns)
  end.

(** ** Scanning *)

(** The transition on one byte, with its failure loop. *)
Fixpoint ac_follow (fuel : nat) (ns : list acNode) (state : nat) (ch : ascii) : nat :=
  match next (node_at ns state) !! ch with
  | Some n => n
  | None =>
      match state with
      | O => O
      | _ => match fuel with
             | O => O
             | S k => ac_follow k ns (fail (node_at ns state)) ch
             end
      end
  end.

Definition emit (ps : list acPattern) (endp : nat) (pid : nat) : list acMatch :=
  match ps !! pid with
  | None => []
  | Some p => if (String.length (word p) <=? endp)%nat
              then [mkMatch (endp - String.length (word p)) endp p] else []
  end.

Fixpoint scan_from (sc : acScanner) (text : string) (i : nat) (state : nat) : list acMatch :=
  match text with
  | "" => []
  | String ch text' =>
      let state := ac_follow (length (nodes sc)) (nodes sc) state ch in
      flat_map (emit (patterns sc) (S i)) (outputs (node_at (nodes sc) state))
      ++ scan_from sc text' (S i) state
  end.

Definition FindAll (sc : acScanner) (text : string) : list acMatch := scan_from sc text 0 0.

(** The map from start offsets to matches, in scan order. *)
Definition buildMatchIndex (matches : list acMatch) : gmap nat (list acMatch) :=
  fold_left (fun idx m => <[m_start m := default [] (idx !! m_start m) ++ [m]]> idx) matches ∅.

Definition classifyToken (matchIndex : gmap nat (list acMatch)) (trimStart trimEnd : nat)
    : option acPattern :=
  m_pattern <$> List.find (fun m => bool_decide (m_end m = trimEnd)) (default [] (matchIndex !! trimStart)).

Definition keywordPatterns : list acPattern := [
  mkPattern "DB" acTokenDB "";
  mkPattern "WPM" acTokenWPM "";
  mkPattern "BPS" acTokenBPS "";
  mkPattern "CW" acTokenMode "CW";
  mkPattern "CWT" acTokenMode "CW";
  mkPattern "RTTY" acTokenMode "RTTY";
  mkPattern "FT8" acTokenMode "FT8";
  mkPattern "FT-8" acTokenMode "FT8";
  mkPattern "FT4" acTokenMode "FT4";
  mkPattern "FT-4" acTokenMode "FT4";
  mkPattern "PSK31" acTokenMode "PSK31";
  mkPattern "PSK63" acTokenMode "PSK63";
  mkPattern "PSK125" acTokenMode "PSK125";
  mkPattern "JS8" acTokenMode "JS8";
  mkPattern "SSTV" acTokenMode "SSTV";
  mkPattern "MSK" acTokenMode "MSK144";
  mkPattern "MSK144" acTokenMode "MSK144";
  mkPattern "MSK-144" acTokenMode "MSK144";
  mkPattern "USB" acTokenMode "USB";
  mkPattern "LSB" acTokenMode "LSB";
  mkPattern "SSB" acTokenMode "SSB"].

(** The shared scanner, built once; [newACScanner_total] makes the default
    irrelevant. *)
Definition getKeywordScanner : acScanner :=
  default (mkScanner [] [empty_node]) (newACScanner (fun _ => map_to_list) keywordPatterns).

(** ** The trie *)

Definition edge (ns : list acNode) (p : nat) (ch : ascii) (c : nat) : Prop :=
  next (node_at ns p) !! ch = Some c.

(** Follow edges from a node along a word. *)
Fixpoint walk (ns : list acNode) (p : nat) (w : string) : option nat :=
  match w with
  | "" => Some p
  | String ch w' => next (node_at ns p) !! ch ≫= fun c => walk ns c w'
  end.

(** A tree: edges go to higher indices, every node has one incoming edge; no
    failure link has been set. *)
Record trie_wf (ns : list acNode) : Prop := {
  wf_pos : (0 < length ns)%nat;
  wf_range : forall p ch c, edge ns p ch c -> (p < c < length ns)%nat;
  wf_parent : forall p ch p' ch' c, edge ns p ch c -> edge ns p' ch' c -> p = p' /\ ch = ch';
  wf_fail : forall i, fail (node_at ns i) = 0%nat
}.

Lemma node_at_snoc ns i : node_at (ns ++ [empty_node]) i = node_at ns i.
Proof.
  unfold node_at. destruct (decide (i < length ns)%nat).
  - by rewrite lookup_app_l.
  - rewrite (lookup_ge_None_2 ns) by lia. rewrite lookup_app_r by lia.
    destruct (i - length ns)%nat as [|k]; [done|]. by destruct k.
Qed.

Lemma node_at_alter f ns i j :
  (i < length ns)%nat ->
  node_at (alter f i ns) j = if decide (i = j) then f (node_at ns j) else node_at ns j.
Proof.
  intros Hi. unfold node_at. destruct (decide (i = j)) as [->|Hne].
  - rewrite list_lookup_alter_eq.
    destruct (lookup_lt_is_Some_2 ns j Hi) as [x ->]. done.
  - by rewrite list_lookup_alter_ne.
Qed.

Lemma wf_edge_src ns p ch c : trie_wf ns -> edge ns p ch c -> (p < length ns)%nat.
Proof. intros Hwf He. apply wf_range in He; [lia|done]. Qed.

Lemma walk_app ns p a b : walk ns p (a +:+ b) = walk ns p a ≫= fun q => walk ns q b.
Proof.
  revert p. induction a as [|ch a IH]; intros p; [done|].
  rewrite sapp_cons. simpl. destruct (next (node_at ns p) !! ch); simpl; [apply IH|done].
Qed.

Lemma walk_lt ns p w q : trie_wf ns -> (p < length ns)%nat -> walk ns p w = Some q ->
  (p <= q < length ns)%nat.
Proof.
  intros Hwf. revert p. induction w as [|ch w IH]; intros p Hp; simpl.
  - intros [= ->]. lia.
  - destruct (next (node_at ns p) !! ch) as [c|] eqn:E; simpl; [|done].
    intros Hw. pose proof (wf_range _ Hwf _ _ _ E). apply IH in Hw; lia.
Qed.

(** A node of the tree is reached by one word. *)
Lemma walk_inj ns w w' q :
  trie_wf ns -> walk ns 0 w = Some q -> walk ns 0 w' = Some q -> w = w'.
Proof.
  intros Hwf. pose proof (wf_pos _ Hwf) as Hpos. revert w' q.
  induction w as [|w c IH] using string_snoc_ind; intros w' q.
  - simpl. intros [= <-]. destruct w' as [|ch w']; [done|]. simpl.
    destruct (next (node_at ns 0) !! ch) as [d|] eqn:E; simpl; [|done].
    intros Hw. pose proof (wf_range _ Hwf _ _ _ E). apply walk_lt in Hw; [lia|done|lia].
  - rewrite walk_app. intros Hq.
    destruct (walk ns 0 w) as [p|] eqn:Ep; simpl in Hq; [|done].
    destruct (next (node_at ns p) !! c) as [d|] eqn:E; simpl in Hq; [|done].
    injection Hq as ->.
    destruct w' as [|w' c' _] using string_snoc_ind.
    + simpl. intros [= <-]. pose proof (wf_range _ Hwf _ _ _ E). lia.
    + rewrite walk_app. intros Hq'.
      destruct (walk ns 0 w') as [p'|] eqn:Ep'; simpl in Hq'; [|done].
      destruct (next (node_at ns p') !! c') as [d|] eqn:E'; simpl in Hq'; [|done].
      injection Hq' as ->.
      destruct (wf_parent _ Hwf _ _ _ _ _ E E') as [-> ->].
      f_equal. by apply (IH w' p').
Qed.

(** The node list after the missing transition is added. *)
Definition grow (ns : list acNode) (state : nat) (ch : ascii) : list acNode :=
  alter (fun nd => mkNode (<[ch := length ns]> (next nd)) (fail nd) (outputs nd)) state
        (ns ++ [empty_node]).

Lemma length_grow ns state ch : length (grow ns state ch) = S (length ns).
Proof. unfold grow. rewrite length_alter, length_app. simpl. lia. Qed.

Lemma node_at_grow ns state ch i :
  (state < length ns)%nat ->
  node_at (grow ns state ch) i =
    if decide (state = i)
    then mkNode (<[ch := length ns]> (next (node_at ns i))) (fail (node_at ns i)) (outputs (node_at ns i))
    else node_at ns i.
Proof.
  intros Hs. unfold grow. rewrite node_at_alter by (rewrite length_app; simpl; lia).
  by rewrite node_at_snoc.
Qed.

Lemma edge_grow ns state ch p c q :
  (state < length ns)%nat ->
  edge (grow ns state ch) p c q <->
  (p = state /\ c = ch /\ q = length ns) \/ (~ (p = state /\ c = ch) /\ edge ns p c q).
Proof.
  intros Hs. unfold edge. rewrite node_at_grow by done.
  destruct (decide (state = p)) as [->|Hne]; simpl.
  - destruct (decide (ch = c)) as [->|Hc].
    + rewrite lookup_insert_eq. naive_solver.
    + rewrite lookup_insert_ne by done. naive_solver.
  - naive_solver.
Qed.

Lemma grow_wf ns state ch :
  trie_wf ns -> (state < length ns)%nat -> next (node_at ns state) !! ch = None ->
  trie_wf (grow ns state ch).
Proof.
  intros Hwf Hs Hnone. split.
  - rewrite length_grow. lia.
  - intros p c q He. rewrite length_grow. apply edge_grow in He; [|done].
    destruct He as [(-> & -> & ->)|[_ He]]; [lia|]. apply (wf_range _ Hwf) in He. lia.
  - intros p c p' c' q He He'. apply edge_grow in He; [|done]. apply edge_grow in He'; [|done].
    destruct He as [(-> & -> & ->)|[_ He]], He' as [(-> & -> & Hq)|[_ He']]; try done.
    + apply (wf_range _ Hwf) in He'. lia.
    + apply (wf_range _ Hwf) in He. lia.
    + by apply (wf_parent _ Hwf _ _ _ _ _ He He').
  - intros i. rewrite node_at_grow by done. case_decide; simpl; apply (wf_fail _ Hwf).
Qed.

(** [ns'] extends [ns]: old edges and outputs are kept. *)
Record extends (ns ns' : list acNode) : Prop := {
  ext_len : (length ns <= length ns')%nat;
  ext_edge : forall p ch c, edge ns p ch c -> edge ns' p ch c;
  ext_out : forall i, outputs (node_at ns' i) = outputs (node_at ns i)
}.

Lemma extends_refl ns : extends ns ns.
Proof. split; auto. Qed.

Lemma extends_trans a b c : extends a b -> extends b c -> extends a c.
Proof.
  intros H1 H2. split.
  - pose proof (ext_len _ _ H1). pose proof (ext_len _ _ H2). lia.
  - intros p ch q He. by apply (ext_edge _ _ H2), (ext_edge _ _ H1).
  - intros i. by rewrite (ext_out _ _ H2), (ext_out _ _ H1).
Qed.

Lemma walk_extends ns ns' p w q : extends ns ns' -> walk ns p w = Some q -> walk ns' p w = Some q.
Proof.
  intros He. revert p. induction w as [|ch w IH]; intros p; simpl; [done|].
  destruct (next (node_at ns p) !! ch) as [c|] eqn:E; simpl; [|done].
  apply (ext_edge _ _ He) in E. unfold edge in E. rewrite E. simpl. apply IH.
Qed.

Lemma grow_extends ns state ch :
  (state < length ns)%nat -> next (node_at ns state) !! ch = None -> extends ns (grow ns state ch).
Proof.
  intros Hs Hnone. split.
  - rewrite length_grow. lia.
  - intros p c q He. apply edge_grow; [done|]. right. split; [|done].
    intros [-> ->]. unfold edge in He. congruence.
  - intros i. rewrite node_at_grow by done. by case_decide.
Qed.

Lemma trie_word_spec w ns state :
  trie_wf ns -> (state < length ns)%nat ->
  let '(ns', q) := trie_word ns state w in
  trie_wf ns' /\ extends ns ns' /\ walk ns' state w = Some q /\ (q < length ns')%nat.
Proof.
  revert ns state. induction w as [|ch w IH]; intros ns state Hwf Hs; simpl.
  - eauto using extends_refl.
  - destruct (next (node_at ns state) !! ch) as [n|] eqn:E.
    + pose proof (wf_range _ Hwf _ _ _ E) as Hn. specialize (IH ns n Hwf ltac:(lia)).
      destruct (trie_word ns n w) as [ns' q]. destruct IH as (? & He & Hw & ?).
      split_and!; auto. apply (ext_edge _ _ He) in E. unfold edge in E. by rewrite E.
    + specialize (IH (grow ns state ch) (length ns)).
      destruct (trie_word (grow ns state ch) (length ns) w) as [ns' q] eqn:Et.
      fold (grow ns state ch). rewrite Et.
      destruct IH as (? & He & Hw & ?); [by apply grow_wf|rewrite length_grow; lia|].
      split_and!; auto.
      * eapply extends_trans; [by apply grow_extends|done].
      * assert (edge ns' state ch (length ns)) as E'.
        { apply (ext_edge _ _ He). apply edge_grow; auto. }
        unfold edge in E'. by rewrite E'.
Qed.

(** What a node outputs after the first [n] patterns have been inserted: the
    indices of the patterns whose word leads to it. *)
Definition outputs_ok (ps : list acPattern) (n : nat) (ns : list acNode) : Prop :=
  (forall i pid, pid ∈ outputs (node_at ns i) ->
     exists p, ps !! pid = Some p /\ walk ns 0 (word p) = Some i) /\
  (forall pid p, (pid < n)%nat -> ps !! pid = Some p ->
     exists i, walk ns 0 (word p) = Some i /\ pid ∈ outputs (node_at ns i)).

Lemma add_output_next idx st ns i :
  (st < length ns)%nat ->
  next (node_at (alter (add_output idx) st ns) i) = next (node_at ns i) /\
  fail (node_at (alter (add_output idx) st ns) i) = fail (node_at ns i).
Proof. intros Hs. rewrite node_at_alter by done. by case_decide. Qed.

Lemma add_output_walk idx st ns p w :
  (st < length ns)%nat -> walk (alter (add_output idx) st ns) p w = walk ns p w.
Proof.
  intros Hs. revert p. induction w as [|ch w IH]; intros p; simpl; [done|].
  destruct (add_output_next idx st ns p Hs) as [-> _].
  by destruct (next (node_at ns p) !! ch); simpl.
Qed.

Lemma add_output_wf idx st ns : (st < length ns)%nat -> trie_wf ns -> trie_wf (alter (add_output idx) st ns).
Proof.
  intros Hs Hwf. unfold edge.
  split; unfold edge; try setoid_rewrite (fun i => proj1 (add_output_next idx st ns i Hs));
    try setoid_rewrite (fun i => proj2 (add_output_next idx st ns i Hs));
    rewrite ?length_alter; apply Hwf.
Qed.

Lemma trie_patterns_spec all done ps ns :
  all = done ++ ps ->
  trie_wf ns -> outputs_ok all (length done) ns ->
  trie_wf (trie_patterns ns (length done) ps) /\
  outputs_ok all (length all) (trie_patterns ns (length done) ps).
Proof.
  revert done ns. induction ps as [|p ps IH]; intros done ns Hall Hwf Hout; simpl.
  - rewrite app_nil_r in Hall. by subst all.
  - pose proof (trie_word_spec (word p) ns 0 Hwf (wf_pos _ Hwf)) as Hw.
    destruct (trie_word ns 0 (word p)) as [ns' st]. destruct Hw as (Hwf' & He & Hwalk & Hst).
    assert (all !! length done = Some p) as Hp by (by rewrite Hall, list_lookup_middle).
    replace (S (length done)) with (length (done ++ [p])) by (rewrite length_app; simpl; lia).
    apply IH; [by rewrite Hall, <- app_assoc|by apply add_output_wf|].
    destruct Hout as [Hsound Hcompl]. split.
    + intros i pid. rewrite node_at_alter by done. setoid_rewrite add_output_walk; [|done].
      assert (pid ∈ outputs (node_at ns' i) -> exists p0, all !! pid = Some p0 /\ walk ns' 0 (word p0) = Some i)
        as Hold.
      { rewrite (ext_out _ _ He). intros (p0 & ? & ?)%Hsound. eauto using walk_extends. }
      case_decide; simpl; [|done]. subst i. rewrite elem_of_app, list_elem_of_singleton.
      intros [?| ->]; eauto.
    + intros pid p0 Hlt Hp0. setoid_rewrite add_output_walk; [|done].
      destruct (decide (pid = length done)) as [->|Hne].
      * exists st. rewrite Hp in Hp0. injection Hp0 as <-. split; [done|].
        rewrite node_at_alter, decide_True by done. simpl. rewrite elem_of_app, list_elem_of_singleton. auto.
      * destruct (Hcompl pid p0) as (i & Hi & Hin); [rewrite length_app in Hlt; simpl in Hlt; lia|done|].
        exists i. split; [by eapply walk_extends|]. rewrite node_at_alter by done.
        rewrite <- (ext_out _ _ He) in Hin. case_decide; simpl; [|done]. rewrite elem_of_app. auto.
Qed.

Definition trie_of (ps : list acPattern) : list acNode := trie_patterns [empty_node] 0 ps.

Lemma node_at_single i : node_at [empty_node] i = empty_node.
Proof. unfold node_at. destruct i as [|[|i]]; done. Qed.

Lemma trie_of_spec ps : trie_wf (trie_of ps) /\ outputs_ok ps (length ps) (trie_of ps).
Proof.
  apply (trie_patterns_spec ps [] ps [empty_node]); [done| |].
  - split; unfold edge; try (intros *; rewrite !node_at_single; done). simpl. lia.
  - split; [|intros; simpl in *; lia]. intros i pid. rewrite node_at_single. simpl. set_solver.
Qed.

(** ** The failure links *)

Section Links.
Context (order : nat -> gmap ascii nat -> list (ascii * nat)).
Context (Horder : forall st m, order st m ≡ₚ map_to_list m).

Lemma alter_id_at (f : acNode -> acNode) i ns :
  (i < length ns)%nat -> f (node_at ns i) = node_at ns i -> alter f i ns = ns.
Proof.
  intros Hi Hf. apply list_eq. intros j. destruct (decide (i = j)) as [->|].
  - rewrite list_lookup_alter_eq. unfold node_at in Hf.
    destruct (ns !! j) as [x|]; simpl in *; [by rewrite Hf|done].
  - by rewrite list_lookup_alter_ne.
Qed.

(** With root links only, linking the children of a node changes nothing. *)
Lemma link_children_id ns st children :
  trie_wf ns -> outputs (node_at ns 0) = [] ->
  (forall ch c, (ch, c) ∈ children -> (c < length ns)%nat) ->
  link_children ns st children = Some ns.
Proof.
  intros Hwf Hroot Hch. induction children as [|[ch c] rest IH]; simpl; [done|].
  rewrite (wf_fail _ Hwf). simpl. destruct (length ns) as [|n] eqn:E; [pose proof (wf_pos _ Hwf); lia|]. simpl.
  rewrite Hroot, alter_id_at; [|rewrite E; apply (Hch ch); left|].
  - apply IH. intros ? ? ?. by eapply Hch; right.
  - rewrite app_nil_r, <- (wf_fail _ Hwf c). by destruct (node_at ns c).
Qed.

Lemma elem_order ns st ch c : (ch, c) ∈ order st (next (node_at ns st)) <-> edge ns st ch c.
Proof. rewrite (Horder st), elem_of_map_to_list. done. Qed.

Lemma NoDup_children ns st : trie_wf ns -> NoDup (map snd (order st (next (node_at ns st)))).
Proof.
  intros Hwf. rewrite (Horder st). apply NoDup_fmap_2_strong; [|apply NoDup_map_to_list].
  intros [ch c] [ch' c'] H1 H2 Heq. simpl in Heq. subst c'.
  apply elem_of_map_to_list in H1, H2. destruct (wf_parent _ Hwf _ _ _ _ _ H1 H2). congruence.
Qed.

(** The breadth-first search: nodes already taken from the queue and nodes in it
    are distinct, and the children of the former have all been queued. *)
Lemma ac_bfs_total ns fuel seen queue :
  trie_wf ns -> outputs (node_at ns 0) = [] ->
  NoDup (seen ++ queue) ->
  (forall c, c ∈ seen ++ queue -> (0 < c < length ns)%nat /\ exists p ch, edge ns p ch c /\ (p = 0%nat \/ p ∈ seen)) ->
  (length ns <= fuel + length seen)%nat ->
  ac_bfs fuel order ns queue = Some ns.
Proof.
  intros Hwf Hroot. revert seen queue. induction fuel as [|k IH]; intros seen queue Hnd Hparent Hfuel.
  - destruct queue as [|st queue]; [done|]. exfalso.
    assert (length (seen ++ st :: queue) <= length ns)%nat.
    { rewrite <- (length_seq (length ns) 0). apply submseteq_length, NoDup_submseteq; [done|].
      intros c Hc. apply elem_of_seq. destruct (Hparent c Hc) as [? _]. lia. }
    rewrite length_app in *. simpl in *. lia.
  - destruct queue as [|st queue]; [done|]. simpl.
    rewrite link_children_id; [|done|done|].
    2: { intros ch c Hc. apply elem_order in Hc. apply (wf_range _ Hwf) in Hc. lia. }
    assert (st ∈ seen ++ st :: queue) as Hst by set_solver.
    destruct (Hparent st Hst) as [Hst0 _].
    apply (IH (seen ++ [st])).
    + replace ((seen ++ [st]) ++ queue ++ map snd (order st (next (node_at ns st))))
        with ((seen ++ st :: queue) ++ map snd (order st (next (node_at ns st))))
        by (rewrite <- !app_assoc; done).
      apply NoDup_app. split_and!; [done| |by apply NoDup_children].
      intros c Hc Hin. apply list_elem_of_fmap in Hin as ([ch c'] & -> & Hin). simpl in *.
      apply elem_order in Hin. destruct (Hparent c' Hc) as (_ & p & ch' & He & Hp).
      destruct (wf_parent _ Hwf _ _ _ _ _ Hin He) as [<- _].
      destruct Hp as [->|Hp]; [lia|].
      apply NoDup_app in Hnd as (_ & Hdisj & _). apply (Hdisj st Hp). left.
    + intros c. rewrite <- app_assoc. simpl. rewrite elem_of_app, elem_of_cons, elem_of_app.
      rewrite list_elem_of_fmap. intros [Hc|[->|[Hc|([ch c'] & -> & Hin)]]].
      * destruct (Hparent c ltac:(set_solver)) as (? & p & ch & ? & Hp). split; [done|].
        exists p, ch. split; [done|]. set_solver.
      * destruct (Hparent st Hst) as (? & p & ch & ? & Hp). split; [done|]. exists p, ch. set_solver.
      * destruct (Hparent c ltac:(set_solver)) as (? & p & ch & ? & Hp). split; [done|].
        exists p, ch. split; [done|]. set_solver.
      * apply elem_order in Hin. simpl. split; [apply (wf_range _ Hwf) in Hin; lia|].
        exists st, ch. set_solver.
    + rewrite length_app. simpl. lia.
Qed.
End Links.

Definition no_empty_word (ps : list acPattern) : Prop := Forall (fun p => word p <> "") ps.

Lemma root_outputs ps : no_empty_word ps -> outputs (node_at (trie_of ps) 0) = [].
Proof.
  intros Hne. destruct (trie_of_spec ps) as [Hwf [Hsound _]].
  destruct (outputs (node_at (trie_of ps) 0)) as [|pid l] eqn:E; [done|].
  destruct (Hsound 0%nat pid) as (p & Hp & Hw); [rewrite E; left|].
  assert (word p = "") by (apply (walk_inj (trie_of ps) _ _ 0 Hwf Hw); done).
  apply list_elem_of_lookup_2 in Hp. by eapply Forall_forall in Hne.
Qed.

Lemma newACScanner_trie order ps :
  (forall st m, order st m ≡ₚ map_to_list m) -> no_empty_word ps ->
  newACScanner order ps = Some (mkScanner ps (trie_of ps)).
Proof.
  intros Ho Hne. destruct (trie_of_spec ps) as [Hwf _]. unfold newACScanner. fold (trie_of ps).
  rewrite (ac_bfs_total order Ho (trie_of ps) _ []); [done|done|by apply root_outputs| | |simpl; lia].
  - simpl. by apply NoDup_children.
  - intros c. simpl. rewrite list_elem_of_fmap. intros ([ch c'] & -> & Hin).
    apply (elem_order order Ho) in Hin. simpl. split; [apply (wf_range _ Hwf) in Hin; lia|]. eauto.
Qed.

(** One failure step is enough, whatever the fuel. *)
Lemma ac_follow_enough ns st ch fuel :
  trie_wf ns -> (0 < fuel)%nat -> ac_follow fuel ns st ch =
    match next (node_at ns st) !! ch with
    | Some n => n
    | None => default 0%nat (next (node_at ns 0) !! ch)
    end.
Proof.
  intros Hwf Hf. destruct fuel as [|k]; [lia|]. cbn [ac_follow].
  destruct (next (node_at ns st) !! ch) as [n|] eqn:E; [done|].
  destruct st as [|st]; [by rewrite E|]. rewrite (wf_fail _ Hwf).
  destruct k; simpl; by destruct (next (node_at ns 0) !! ch).
Qed.

(** ** What a scan reports *)

(** A reported match is an occurrence of its word. *)
Definition occurs (ps : list acPattern) (text : string) (m : acMatch) : Prop :=
  m_pattern m ∈ ps /\ m_end m = (m_start m + String.length (word (m_pattern m)))%nat /\
  slice text (m_start m) (String.length (word (m_pattern m))) = word (m_pattern m).

Section Scan.
Context (ps : list acPattern).
Let sc := mkScanner ps (trie_of ps).

Lemma scan_step st w pre ch :
  walk (trie_of ps) 0 w = Some st -> (exists a, pre = a +:+ w) ->
  exists w', walk (trie_of ps) 0 w' = Some (ac_follow (length (trie_of ps)) (trie_of ps) st ch) /\
             exists a, pre +:+ String ch "" = a +:+ w'.
Proof.
  intros Hw [a ->]. destruct (trie_of_spec ps) as [Hwf _].
  rewrite ac_follow_enough by (auto using wf_pos).
  destruct (next (node_at (trie_of ps) st) !! ch) as [n|] eqn:E.
  - exists (w +:+ String ch ""). rewrite walk_app, Hw. simpl. rewrite E. split; [done|].
    exists a. by rewrite sapp_assoc.
  - destruct (next (node_at (trie_of ps) 0) !! ch) as [n|] eqn:E0; simpl.
    + exists (String ch ""). simpl. rewrite E0. split; [done|]. by exists (a +:+ w).
    + exists "". split; [done|]. exists ((a +:+ w) +:+ String ch ""). by rewrite sapp_nil_r.
Qed.

Lemma scan_sound text pre st w :
  walk (trie_of ps) 0 w = Some st -> (exists a, pre = a +:+ w) ->
  Forall (occurs ps (pre +:+ text)) (scan_from sc text (String.length pre) st).
Proof.
  destruct (trie_of_spec ps) as [Hwf [Hsound _]].
  revert pre st w. induction text as [|ch text IH]; intros pre st w Hw Hpre; cbn [scan_from]; [done|].
  destruct (scan_step st w pre ch Hw Hpre) as (w' & Hw' & a & Ha).
  set (st' := ac_follow _ _ _ _) in *.
  replace (pre +:+ String ch text) with ((pre +:+ String ch "") +:+ text) by (by rewrite sapp_assoc).
  replace (S (String.length pre)) with (String.length (pre +:+ String ch ""))
    by (rewrite length_sapp; simpl; lia).
  apply Forall_app. split; [|eapply IH; [exact Hw'|eauto]].
  apply Forall_forall. intros m Hm. apply list_elem_of_In, in_flat_map in Hm as (pid & Hpid & Hm).
  apply list_elem_of_In in Hpid. destruct (Hsound st' pid Hpid) as (p & Hp & Hwp).
  assert (word p = w') as <- by (by eapply walk_inj).
  unfold emit in Hm. simpl in Hm. rewrite Hp in Hm.
  destruct (Nat.leb_spec (String.length (word p)) (String.length (pre +:+ String ch ""))); [|done].
  destruct Hm as [<-|[]]. unfold occurs. cbn [m_pattern m_start m_end].
  split_and!; [by eapply list_elem_of_lookup_2|lia|].
  rewrite Ha, length_sapp, sapp_assoc.
  replace (String.length a + String.length (word p) - String.length (word p))%nat
    with (String.length a) by lia. apply slice_app.
Qed.

(** A prefix that is a path of the trie is followed to its end. *)
Lemma scan_path text i st q pid p :
  text <> "" ->
  walk (trie_of ps) st text = Some q -> ps !! pid = Some p -> pid ∈ outputs (node_at (trie_of ps) q) ->
  (String.length (word p) <= i + String.length text)%nat ->
  mkMatch (i + String.length text - String.length (word p)) (i + String.length text) p
    ∈ scan_from sc text i st.
Proof.
  destruct (trie_of_spec ps) as [Hwf _].
  revert i st. induction text as [|ch text IH]; intros i st Hne Hw Hp Hpid Hlen; [done|].
  cbn [scan_from]. simpl in Hw.
  destruct (next (node_at (trie_of ps) st) !! ch) as [n|] eqn:E; simpl in Hw; [|done].
  simpl (nodes sc). simpl (patterns sc).
  rewrite ac_follow_enough, E by (auto using wf_pos). rewrite elem_of_app.
  destruct text as [|ch' text].
  - simpl in Hw. injection Hw as ->. left. apply list_elem_of_In, in_flat_map.
    exists pid. split; [by apply list_elem_of_In|]. unfold emit. rewrite Hp.
    simpl in Hlen. rewrite Nat.add_1_r in Hlen. apply Nat.leb_le in Hlen. rewrite Hlen.
    left. simpl. rewrite Nat.add_1_r. done.
  - right. specialize (IH (S i) n). simpl String.length in *.
    rewrite !Nat.add_succ_r, !Nat.add_succ_l in *. apply IH; try done; lia.
Qed.

Lemma FindAll_sound text : Forall (occurs ps text) (FindAll sc text).
Proof. apply (scan_sound text "" 0 ""); [done|]. by exists "". Qed.

Lemma FindAll_whole p : p ∈ ps -> word p <> "" ->
  mkMatch 0 (String.length (word p)) p ∈ FindAll sc (word p).
Proof.
  intros [pid Hp]%list_elem_of_lookup_1 Hne. destruct (trie_of_spec ps) as [_ [_ Hc]].
  destruct (Hc pid p) as (i & Hi & Hout); [by eapply lookup_lt_Some|done|].
  pose proof (scan_path (word p) 0 0 i pid p Hne Hi Hp Hout ltac:(lia)) as H.
  simpl in H. by rewrite Nat.sub_diag in H.
Qed.
End Scan.

(** ** Theorems *)

(** Building the keyword automaton terminates within its fuel (one visit per
    node) for every pattern list without empty words, and the result does not depend
    on the order in which Go ranges over the transition maps.  Every failure link of
    the result is the root, because the construction never looks at the root's
    transitions: the scanner is the bare trie. *)
Theorem newACScanner_total order ps :
  (forall st m, order st m ≡ₚ map_to_list m) -> no_empty_word ps ->
  exists sc, newACScanner order ps = Some sc /\ newACScanner (fun _ => map_to_list) ps = Some sc /\
             patterns sc = ps /\ forall i, fail (node_at (nodes sc) i) = 0%nat.
Proof.
  intros Ho Hne. exists (mkScanner ps (trie_of ps)).
  split_and!; [by apply newACScanner_trie| by apply newACScanner_trie|done|].
  apply (wf_fail _ (proj1 (trie_of_spec ps))).
Qed.

Lemma newACScanner_total_witness :
  exists sc, newACScanner (fun _ m => rev (map_to_list m)) keywordPatterns = Some sc /\
             newACScanner (fun _ => map_to_list) keywordPatterns = Some sc /\
             patterns sc = keywordPatterns /\ forall i, fail (node_at (nodes sc) i) = 0%nat.
Proof.
  apply (newACScanner_total (fun _ m => rev (map_to_list m)) keywordPatterns).
  - intros _ m. symmetry. apply Permutation_rev.
  - unfold no_empty_word, keywordPatterns. repeat constructor; done.
Defined.

(** The scanner, documented to find all, overlapping, matches, misses the
    occurrence of a keyword that starts inside a failed one: in "SSSB" the keyword
    SSB at offset 1 is not reported. *)
Theorem scanner_misses_overlap :
  mkPattern "SSB" acTokenMode "SSB" ∈ keywordPatterns /\
  slice "SSSB" 1 3 = "SSB" /\ FindAll getKeywordScanner "SSSB" = [].
Proof. split_and!; [|by vm_compute..]. apply list_elem_of_In. vm_compute. tauto. Qed.

