(* ===== verification/CommentParser.v ===== *)
(** * CommentParser: mode, report and time tokens of a spot comment

    The parsing half of [spot/comment_parser.go]: the tokenizer, the numeric helpers
    and [ParseSpotComment], which every feed and the peering code call on the free
    text of a spot.  The token loop is one record of its local variables and one
    function per iteration.  [classify_exact] shows that looking a token up through
    the scanner of [KeywordScan] is the same as comparing it with the keywords, and
    [printed_comment_parses] that the parser reads back what [SpotFormat] prints. *)

From S2P Require Import Prelude GoText GoNum Callsign Bands Spot SpotFormat KeywordScan.
From Stdlib Require Import QArith.

Local Open Scope string_scope.
Local Open Scope list_scope.
Local Open Scope Z_scope.

(** ** Tokens *)

Record commentToken := mkToken {
  raw : string;
  clean : string;
  upper : string;
  t_start : nat;
  t_end : nat;
  trimStart : nat;
  trimEnd : nat
}.

Definition is_blank (c : ascii) : bool :=
  bool_decide (c = " "%char) || bool_decide (byte_val c = 9).

Definition is_punct (c : ascii) : bool :=
  bool_decide (c ∈ [","%char; ";"%char; ":"%char; "!"%char; "."%char]).

Definition make_token (start : nat) (raw : string) : commentToken :=
  let left := trim_left is_punct raw in
  let trimStart := (start + (String.length raw - String.length left))%nat in
  let clean := trim_right is_punct left in
  mkToken raw clean (ToUpper clean) start (start + String.length raw) trimStart
          (trimStart + String.length clean).

(** The outer loop: [cur] is the word being read, with its start. *)
Fixpoint tokenize_from (s : string) (pos : nat) (cur : option (nat * string)) : list commentToken :=
  match s with
  | "" => match cur with None => [] | Some (st, w) => [make_token st w] end
  | String c s' =>
      if is_blank c then
        match cur with
        | None => tokenize_from s' (S pos) None
        | Some (st, w) => make_token st w :: tokenize_from s' (S pos) None
        end
      else
        match cur with
        | None => tokenize_from s' (S pos) (Some (pos, String c ""))
        | Some (st, w) => tokenize_from s' (S pos) (Some (st, w +:+ String c ""))
        end
  end.

Definition tokenizeComment (comment : string) : list commentToken := tokenize_from comment 0 None.

Definition classifyTokenWithFallback (sc : acScanner) (matchIndex : gmap nat (list acMatch))
    (tok : commentToken) : option acPattern :=
  match classifyToken matchIndex (trimStart tok) (trimEnd tok) with
  | Some pat => Some pat
  | None =>
      m_pattern <$> List.find (fun m => bool_decide (m_start m = 0%nat)
                                        && bool_decide (m_end m = String.length (upper tok)))
                              (FindAll sc (upper tok))
  end.

(** ** Numbers and times *)

Definition parseSignedInt (tok : string) : option Z :=
  if bool_decide (tok = "") then None
  else if Contains tok "." then None
  else match Atoi tok with
       | None => None
       | Some v => if (v <? -200) || (200 <? v) then None else Some v
       end.

Definition parseInlineSNR (tok : string) : option Z :=
  let lower := ToLower (TrimSpace tok) in
  if negb (HasSuffix lower "db") then None
  else
    let numStr := TrimSuffix lower "db" in
    if Contains numStr "." || bool_decide (numStr = "") then None
    else match Atoi numStr with
         | None => None
         | Some v => if (v <? -200) || (200 <? v) then None else Some v
         end.

Definition isAllDigits (s : string) : bool :=
  if bool_decide (s = "") then false else sforall is_digit s.

Definition isTimeToken (tok : string) : bool :=
  if negb (len tok =? 5) then false
  else if negb (bool_decide (sdrop 4 tok = "Z")) && negb (bool_decide (sdrop 4 tok = "z")) then false
  else isAllDigits (stake 4 tok).

Definition peelTimePrefix (tok : string) : string * string :=
  if len tok <? 5 then ("", tok)
  else
    let prefix := stake 5 tok in
    if isTimeToken prefix then (prefix, TrimSpace (sdrop 5 tok)) else ("", tok).

(** [snrPattern], [(?i)([-+]?\d{1,3})\s*dB], at one position: an optional sign,
    the longest run of at most three digits that leaves blanks and "dB". *)
Definition re_space (c : ascii) : bool :=
  bool_decide (byte_val c ∈ [9; 10; 12; 13; 32]).

Definition db_follows (s : string) : bool :=
  bool_decide (ToLower (stake 2 (trim_left re_space s)) = "db").

Fixpoint snr_digits (k : nat) (s : string) : option string :=
  match k with
  | O => None
  | S k' =>
      if (k <=? String.length s)%nat && sforall is_digit (stake k s) && db_follows (sdrop k s)
      then Some (stake k s) else snr_digits k' s
  end.

Definition snr_at (s : string) : option string :=
  match s with
  | String c s' =>
      if bool_decide (c = "-"%char) || bool_decide (c = "+"%char)
      then String c <$> snr_digits 3 s'
      else snr_digits 3 s
  | "" => None
  end.

(** [FindStringSubmatch]: the leftmost match. *)
Fixpoint snr_find (s : string) : option string :=
  match snr_at s with
  | Some m => Some m
  | None => match s with "" => None | String _ s' => snr_find s' end
  end.

(** ** ParseSpotComment *)

Record CommentParseResult := mkParsed {
  p_mode : string;
  p_report : Z;
  p_hasReport : bool;
  p_timeToken : string;
  p_comment : string
}.

Definition buildComment (tokens : list commentToken) (consumed : list bool) : string :=
  let parts :=
    flat_map (fun '(tok, c) =>
                if c : bool then []
                else let clean := TrimSpace (clean tok) in
                     if bool_decide (clean = "") then [] else [clean])
             (combine tokens consumed) in
  Join parts " ".

Definition modeWantsBareReport (mode : string) : bool :=
  bool_decide (ToUpper (TrimSpace mode) ∈ ["CW"; "RTTY"; "FT8"; "FT4"; "MSK144"]).

(** The variables of the token loop. *)
Record pstate := mkPS {
  ps_tokens : list commentToken;
  ps_consumed : list bool;
  ps_mode : string;
  ps_report : Z;
  ps_hasReport : bool;
  ps_time : string;
  ps_speedValue : string;
  ps_speedUnit : string;
  ps_pending : option nat;       (** pendingNumIdx, [None] for -1 *)
  ps_pendingValue : Z
}.

Definition consume (idx : nat) (st : pstate) : pstate :=
  mkPS (ps_tokens st) (<[idx := true]> (ps_consumed st)) (ps_mode st) (ps_report st) (ps_hasReport st)
       (ps_time st) (ps_speedValue st) (ps_speedUnit st) (ps_pending st) (ps_pendingValue st).

Definition set_pending (p : option nat) (v : Z) (st : pstate) : pstate :=
  mkPS (ps_tokens st) (ps_consumed st) (ps_mode st) (ps_report st) (ps_hasReport st)
       (ps_time st) (ps_speedValue st) (ps_speedUnit st) p v.

Definition set_report (v : Z) (st : pstate) : pstate :=
  mkPS (ps_tokens st) (ps_consumed st) (ps_mode st) v true
       (ps_time st) (ps_speedValue st) (ps_speedUnit st) (ps_pending st) (ps_pendingValue st).

Definition set_mode (m : string) (st : pstate) : pstate :=
  mkPS (ps_tokens st) (ps_consumed st) m (ps_report st) (ps_hasReport st)
       (ps_time st) (ps_speedValue st) (ps_speedUnit st) (ps_pending st) (ps_pendingValue st).

Definition set_time (t : string) (st : pstate) : pstate :=
  mkPS (ps_tokens st) (ps_consumed st) (ps_mode st) (ps_report st) (ps_hasReport st)
       t (ps_speedValue st) (ps_speedUnit st) (ps_pending st) (ps_pendingValue st).

Definition set_speed (v u : string) (st : pstate) : pstate :=
  mkPS (ps_tokens st) (ps_consumed st) (ps_mode st) (ps_report st) (ps_hasReport st)
       (ps_time st) v u (ps_pending st) (ps_pendingValue st).

Definition set_token_at (idx : nat) (tok : commentToken) (st : pstate) : pstate :=
  mkPS (<[idx := tok]> (ps_tokens st)) (ps_consumed st) (ps_mode st) (ps_report st) (ps_hasReport st)
       (ps_time st) (ps_speedValue st) (ps_speedUnit st) (ps_pending st) (ps_pendingValue st).

Definition dummy_token : commentToken := mkToken "" "" "" 0 0 0 0.

Definition token_at (st : pstate) (idx : nat) : commentToken := default dummy_token (ps_tokens st !! idx).

(** The time prefix of the current token. *)
Definition peel_step (idx : nat) (st : pstate) : pstate :=
  let tok := token_at st idx in
  if bool_decide (ps_time st = "") then
    let '(ts, remainder) := peelTimePrefix (clean tok) in
    if bool_decide (ts = "") then st
    else
      let shift := (String.length (clean tok) - String.length remainder)%nat in
      let trimStart := (trimStart tok + shift)%nat in
      set_token_at idx (mkToken (raw tok) remainder (ToUpper remainder) (t_start tok) (t_end tok)
                                trimStart (trimStart + String.length remainder))
                   (set_time ts st)
  else st.

(** The tail of the loop body: inline reports, then a pending number. *)
Definition number_step (idx : nat) (clean : string) (st : pstate) : pstate :=
  match (if ps_hasReport st then None else parseInlineSNR clean) with
  | Some v => consume idx (set_report v st)
  | None =>
      match ps_pending st with
      | Some _ => st
      | None => match parseSignedInt clean with
                | Some v => set_pending (Some idx) v st
                | None => st
                end
      end
  end.

(** One iteration; [class] is the classification of the (peeled) token. *)
Definition token_body (class : commentToken -> option acPattern) (freq : Q) (idx : nat) (st : pstate)
    : pstate :=
  let st := peel_step idx st in
  let tok := token_at st idx in
  let cl := clean tok in
  if bool_decide (cl = "") then consume idx st
  else if isTimeToken cl then
    let st := if bool_decide (ps_time st = "") then set_time cl st else st in
    set_pending None (ps_pendingValue st) (consume idx st)
  else
    match class tok with
    | Some pat =>
        match kind pat with
        | acTokenMode =>
            if bool_decide (ps_mode st = "")
            then consume idx (set_mode (NormalizeVoiceMode (pmode pat) freq) st)
            else number_step idx cl st
        | acTokenDB =>
            match (if ps_hasReport st then None else ps_pending st) with
            | Some p => set_pending None (ps_pendingValue st)
                          (consume p (consume idx (set_report (ps_pendingValue st) st)))
            | None => consume idx st
            end
        | acTokenWPM | acTokenBPS =>
            match (if bool_decide (ps_speedValue st = "") then ps_pending st else None) with
            | Some p =>
                let unit := if bool_decide (kind pat = acTokenWPM) then "WPM" else "BPS" in
                set_pending None (ps_pendingValue st)
                  (consume p (consume idx (set_speed (clean (token_at st p)) unit st)))
            | None => number_step idx cl st
            end
        | acTokenUnknown => number_step idx cl st
        end
    | None => number_step idx cl st
    end.

Definition token_loop (class : commentToken -> option acPattern) (freq : Q) (n : nat) (st : pstate)
    : pstate :=
  fold_left (fun st idx => token_body class freq idx st) (seq 0 n) st.

(** What follows the loop. *)
Definition finish_parse (freq : Q) (st : pstate) : CommentParseResult :=
  let explicitMode := NormalizeVoiceMode (ps_mode st) freq in
  let st :=
    match (if ps_hasReport st then None else ps_pending st) with
    | Some p =>
        if nonempty explicitMode && modeWantsBareReport explicitMode
        then if negb (ps_pendingValue st =? 73) && negb (ps_pendingValue st =? 88)
             then consume p (set_report (ps_pendingValue st) st) else st
        else st
    | None => st
    end in
  let cleaned := buildComment (ps_tokens st) (ps_consumed st) in
  let '(report, hasReport) :=
    if negb (ps_hasReport st) && nonempty cleaned then
      match snr_find cleaned with
      | Some m => match Atoi m with Some v => (v, true) | None => (ps_report st, ps_hasReport st) end
      | None => (ps_report st, ps_hasReport st)
      end
    else (ps_report st, ps_hasReport st) in
  let cleaned :=
    if nonempty (ps_speedValue st) && nonempty (ps_speedUnit st) then
      let speedLabel := ps_speedValue st +:+ " " +:+ ps_speedUnit st in
      if nonempty cleaned then speedLabel +:+ " " +:+ cleaned else speedLabel
    else cleaned in
  mkParsed explicitMode report hasReport (ps_time st) cleaned.

Definition init_pstate (tokens : list commentToken) : pstate :=
  mkPS tokens (map (fun _ => false) tokens) "" 0 false "" "" "" None 0.

Definition ParseSpotComment (comment : string) (freq : Q) : CommentParseResult :=
  let comment := TrimSpace comment in
  if bool_decide (comment = "") then mkParsed "" 0 false "" ""
  else
    let tokens := tokenizeComment comment in
    let matchIndex := buildMatchIndex (FindAll getKeywordScanner (ToUpper comment)) in
    finish_parse freq
      (token_loop (classifyTokenWithFallback getKeywordScanner matchIndex) freq (length tokens)
                  (init_pstate tokens)).

(** ** Classification *)

(** The keyword a token is, by comparing words. *)
Definition keyword_of (u : string) : option acPattern :=
  List.find (fun p => bool_decide (word p = u)) keywordPatterns.

Definition keywords_ok : bool :=
  forallb (fun p => nonempty (word p) && negb (sexists is_space (word p))
                    && bool_decide (keyword_of (word p) = Some p)) keywordPatterns.

Lemma keywords_ok_true : keywords_ok = true.
Proof. by vm_compute. Qed.

Lemma keyword_facts p : p ∈ keywordPatterns ->
  word p <> "" /\ sexists is_space (word p) = false /\ keyword_of (word p) = Some p.
Proof.
  intros Hp. pose proof keywords_ok_true as H. unfold keywords_ok in H.
  rewrite forallb_forall_elem in H. specialize (H p Hp). boolify.
  split_and!; [|done|done]. intros E. rewrite E in *. done.
Qed.

Lemma keyword_of_Some u p : keyword_of u = Some p -> p ∈ keywordPatterns /\ word p = u.
Proof. intros [H1 H2]%find_some. boolify. by rewrite list_elem_of_In. Qed.

Lemma keywordScanner_trie : getKeywordScanner = mkScanner keywordPatterns (trie_of keywordPatterns).
Proof.
  unfold getKeywordScanner. rewrite newACScanner_trie; [done|done|].
  apply Forall_forall. intros p Hp. by apply keyword_facts.
Qed.

Lemma match_index_lookup ms st :
  default [] (buildMatchIndex ms !! st) = List.filter (fun m => bool_decide (m_start m = st)) ms.
Proof.
  unfold buildMatchIndex.
  assert (forall idx : gmap nat (list acMatch), default [] (fold_left
      (fun (idx : gmap nat (list acMatch)) m => <[m_start m := default [] (idx !! m_start m) ++ [m]]> idx) ms idx !! st)
      = default [] (idx !! st) ++ List.filter (fun m => bool_decide (m_start m = st)) ms) as Hgen;
    [|by rewrite Hgen, lookup_empty].
  induction ms as [|m ms IH]; intros idx; simpl; [by rewrite app_nil_r|].
  rewrite IH. case_bool_decide as Hm.
  - subst st. rewrite lookup_insert_eq. simpl. by rewrite <- app_assoc.
  - by rewrite lookup_insert_ne.
Qed.

(** The text a token stands for: its upper-case form, and either the bytes its
    trimmed offsets select in the comment or bytes with white space among them. *)
Definition token_ok (comment : string) (tok : commentToken) : Prop :=
  upper tok = ToUpper (clean tok) /\
  trimEnd tok = (trimStart tok + String.length (clean tok))%nat /\
  (slice comment (trimStart tok) (String.length (clean tok)) = clean tok \/
   sexists is_space (slice comment (trimStart tok) (String.length (clean tok))) = true).

Lemma ToUpper_slice s a n : ToUpper (slice s a n) = slice (ToUpper s) a n.
Proof. unfold slice, ToUpper. by rewrite smap_stake, smap_sdrop. Qed.

Lemma sexists_space_upper s : sexists is_space (ToUpper s) = sexists is_space s.
Proof.
  unfold sexists, ToUpper. f_equal. induction s as [|c s IH]; simpl; [done|].
  by rewrite is_space_upper, IH.
Qed.

Lemma fallback_exact tok :
  m_pattern <$> List.find (fun m => bool_decide (m_start m = 0%nat)
                                    && bool_decide (m_end m = String.length (upper tok)))
                          (FindAll getKeywordScanner (upper tok)) = keyword_of (upper tok).
Proof.
  rewrite keywordScanner_trie. set (sc := mkScanner _ _).
  pose proof (FindAll_sound keywordPatterns (upper tok)) as Hs. rewrite Forall_forall in Hs.
  destruct (List.find _ _) as [m|] eqn:Ef; simpl.
  - apply find_some in Ef as [Hin Hm]. apply list_elem_of_In in Hin. boolify.
    destruct (Hs m Hin) as (Hp & Hend & Hsl). rewrite H in *. simpl in Hend.
    unfold slice in Hsl. rewrite stake_all in Hsl by (change (sdrop 0 (upper tok)) with (upper tok); lia).
    change (sdrop 0 (upper tok)) with (upper tok) in Hsl. rewrite Hsl.
    symmetry. by apply keyword_facts.
  - destruct (keyword_of (upper tok)) as [p|] eqn:Ek; [|done]. exfalso.
    apply keyword_of_Some in Ek as [Hp Hw].
    pose proof (FindAll_whole keywordPatterns p Hp (proj1 (keyword_facts p Hp))) as Hin.
    rewrite Hw in Hin. apply list_elem_of_In in Hin. eapply find_none in Ef; [|exact Hin].
    simpl in Ef. by rewrite bool_decide_eq_true_2 in Ef.
Qed.

Lemma classify_exact comment tok :
  token_ok comment tok ->
  classifyTokenWithFallback getKeywordScanner
    (buildMatchIndex (FindAll getKeywordScanner (ToUpper comment))) tok = keyword_of (upper tok).
Proof.
  intros (Hup & Hend & Hsl). unfold classifyTokenWithFallback.
  destruct (classifyToken _ _ _) as [pat|] eqn:Ec; [|apply fallback_exact].
  unfold classifyToken in Ec. rewrite match_index_lookup in Ec.
  destruct (List.find _ _) as [m|] eqn:Ef; [|done]. simpl in Ec. injection Ec as <-.
  apply find_some in Ef as [Hin Hm]. apply filter_In in Hin as [Hin Hst].
  apply list_elem_of_In in Hin. boolify. rewrite keywordScanner_trie in Hin.
  pose proof (FindAll_sound keywordPatterns (ToUpper comment)) as Hs. rewrite Forall_forall in Hs.
  destruct (Hs m Hin) as (Hp & Hme & Hocc).
  destruct (keyword_facts _ Hp) as (_ & Hnosp & Hk).
  assert (String.length (word (m_pattern m)) = String.length (clean tok)) as Hl by lia.
  rewrite Hl, Hst, <- ToUpper_slice in Hocc.
  destruct Hsl as [Hsl|Hsl].
  - rewrite Hsl, <- Hup in Hocc. rewrite Hocc. by rewrite Hk.
  - rewrite <- sexists_space_upper, Hocc in Hsl. congruence.
Qed.

(** ** The tokens of a comment *)

Lemma make_token_ok pre w rest :
  token_ok (pre +:+ (w +:+ rest)) (make_token (String.length pre) w) /\
  slice (pre +:+ (w +:+ rest)) (trimStart (make_token (String.length pre) w))
        (String.length (clean (make_token (String.length pre) w)))
    = clean (make_token (String.length pre) w).
Proof.
  unfold token_ok, make_token; simpl.
  destruct (trim_left_split is_punct w) as (a & Ha & _).
  destruct (trim_right_split is_punct (trim_left is_punct w)) as (b & Hb & _).
  set (l := trim_left is_punct w) in *. set (cl := trim_right is_punct l) in *.
  assert (slice (pre +:+ (w +:+ rest))
            (String.length pre + (String.length w - String.length l)) (String.length cl) = cl) as Hs.
  { replace (String.length pre + (String.length w - String.length l))%nat
      with (String.length (pre +:+ a)) by (rewrite Ha at 1; rewrite !length_sapp; lia).
    rewrite Ha, Hb.
    replace (pre +:+ ((a +:+ (cl +:+ b)) +:+ rest)) with ((pre +:+ a) +:+ (cl +:+ (b +:+ rest)))
      by (by rewrite !sapp_assoc).
    apply slice_app. }
  split_and!; auto.
Qed.

Lemma tokenize_from_ok s pre :
  (forall tok, tok ∈ tokenize_from s (String.length pre) None ->
     token_ok (pre +:+ s) tok /\ slice (pre +:+ s) (trimStart tok) (String.length (clean tok)) = clean tok) /\
  (forall p0 w, pre = p0 +:+ w -> forall tok, tok ∈ tokenize_from s (String.length pre) (Some (String.length p0, w)) ->
     token_ok (pre +:+ s) tok /\ slice (pre +:+ s) (trimStart tok) (String.length (clean tok)) = clean tok).
Proof.
  revert pre. induction s as [|c s IH]; intros pre; cbn [tokenize_from].
  - split; [set_solver|]. intros p0 w -> tok ->%list_elem_of_singleton.
    rewrite sapp_assoc. apply make_token_ok.
  - replace (pre +:+ String c s) with ((pre +:+ String c "") +:+ s) by (by rewrite sapp_assoc).
    replace (S (String.length pre)) with (String.length (pre +:+ String c ""))
      by (rewrite length_sapp; simpl; lia).
    destruct (IH (pre +:+ String c "")) as [IHn IHs].
    destruct (is_blank c); split.
    + exact IHn.
    + intros p0 w -> tok [->|Hin]%elem_of_cons; [|by apply IHn].
      rewrite !sapp_assoc. apply make_token_ok.
    + intros tok Hin. by apply (IHs pre (String c "")).
    + intros p0 w -> tok Hin. apply (IHs p0 (w +:+ String c "")); [by rewrite sapp_assoc|done].
Qed.

Lemma tokenizeComment_ok comment tok :
  tok ∈ tokenizeComment comment ->
  token_ok comment tok /\ slice comment (trimStart tok) (String.length (clean tok)) = clean tok.
Proof. apply (proj1 (tokenize_from_ok comment "")). Qed.

(** ** Parsing with keywords instead of the scanner *)

(** Dropping the time prefix keeps a token that agrees with the comment usable. *)
Lemma peeled_ok comment tok rem :
  token_ok comment tok -> slice comment (trimStart tok) (String.length (clean tok)) = clean tok ->
  5 <= len (clean tok) -> rem = TrimSpace (sdrop 5 (clean tok)) ->
  let start := (trimStart tok + (String.length (clean tok) - String.length rem))%nat in
  token_ok comment (mkToken (raw tok) rem (ToUpper rem) (t_start tok) (t_end tok) start
                            (start + String.length rem)).
Proof.
  intros _ Hsl Hlen Hrem start. unfold token_ok; simpl. split_and!; [done..|].
  destruct (trim_left_split is_space (sdrop 5 (clean tok))) as (a & Ha & _).
  destruct (trim_right_split is_space (trim_left is_space (sdrop 5 (clean tok)))) as (b & Hb & Hbs).
  fold (TrimSpace (sdrop 5 (clean tok))) in Hb. rewrite <- Hrem in Hb. rewrite Hb in Ha.
  assert (clean tok = stake 5 (clean tok) +:+ (a +:+ (rem +:+ b))) as Hc.
  { rewrite <- Ha. by rewrite stake_sdrop. }
  set (p5 := stake 5 (clean tok)) in *.
  assert (slice comment start (String.length rem) = sdrop (String.length (clean tok) - String.length rem) (clean tok))
    as ->.
  { rewrite <- Hsl at 2. rewrite <- slice_suffix by lia. unfold start. f_equal.
    rewrite Hc, !length_sapp. lia. }
  destruct (decide (b = "")) as [->|Hb0].
  - left. rewrite Hc, sapp_nil_r. rewrite <- sapp_assoc.
    rewrite length_sapp. replace (_ - _)%nat with (String.length (p5 +:+ a)) by lia.
    apply sdrop_app_length.
  - destruct (decide (rem = "")) as [->|Hr].
    + left. rewrite Nat.sub_0_r. rewrite <- (sapp_nil_r (clean tok)) at 2. apply sdrop_app_length.
    + right. apply nonempty_length in Hr. rewrite Hc.
      rewrite <- !sapp_assoc. apply tail_has; [done|done|].
      rewrite !length_sapp. pose proof (nonempty_length b Hb0). lia.
Qed.

Lemma token_at_set st idx tok :
  (idx < length (ps_tokens st))%nat -> token_at (set_token_at idx tok st) idx = tok.
Proof. intros H. unfold token_at. simpl. by rewrite list_lookup_insert_eq. Qed.

Lemma peel_step_tokens idx st j :
  j <> idx -> ps_tokens (peel_step idx st) !! j = ps_tokens st !! j.
Proof.
  intros Hj. unfold peel_step. case_bool_decide; [|done].
  destruct (peelTimePrefix _) as [ts rem]. case_bool_decide; [done|]. simpl.
  by rewrite list_lookup_insert_ne.
Qed.

Lemma peel_step_ok comment idx st tok :
  ps_tokens st !! idx = Some tok ->
  token_ok comment tok -> slice comment (trimStart tok) (String.length (clean tok)) = clean tok ->
  token_ok comment (token_at (peel_step idx st) idx).
Proof.
  intros Hi Hok Hsl.
  assert (token_at st idx = tok) as Ht by (unfold token_at; by rewrite Hi).
  unfold peel_step. rewrite Ht. case_bool_decide; [|by rewrite Ht].
  destruct (peelTimePrefix (clean tok)) as [ts rem] eqn:E. case_bool_decide as Hts; [by rewrite Ht|].
  rewrite token_at_set by (simpl; by eapply lookup_lt_Some).
  unfold peelTimePrefix in E. destruct (Z.ltb_spec (len (clean tok)) 5); [by injection E as <- <-|].
  destruct (isTimeToken _); injection E as <- <-; [|done].
  by apply peeled_ok.
Qed.

Lemma number_step_tokens idx cl st : ps_tokens (number_step idx cl st) = ps_tokens st.
Proof. unfold number_step. by repeat case_match. Qed.

Lemma token_body_tokens class freq idx st j :
  j <> idx -> ps_tokens (token_body class freq idx st) !! j = ps_tokens st !! j.
Proof.
  intros Hj. rewrite <- (peel_step_tokens idx st j Hj). unfold token_body.
  generalize (peel_step idx st) as st'. intros st'. cbv zeta.
  destruct (bool_decide (clean (token_at st' idx) = "")); [done|].
  destruct (isTimeToken _); [by destruct (bool_decide (ps_time st' = ""))|].
  repeat case_match; rewrite ?number_step_tokens; done.
Qed.

Lemma token_body_class class class' freq idx st :
  class (token_at (peel_step idx st) idx) = class' (token_at (peel_step idx st) idx) ->
  token_body class freq idx st = token_body class' freq idx st.
Proof. intros H. unfold token_body. by rewrite H. Qed.

Lemma token_loop_class comment class class' freq tokens :
  (forall tok, token_ok comment tok -> class tok = class' tok) ->
  (forall tok, tok ∈ tokens ->
     token_ok comment tok /\ slice comment (trimStart tok) (String.length (clean tok)) = clean tok) ->
  forall n k st, (k + n <= length tokens)%nat ->
  (forall j, (k <= j)%nat -> ps_tokens st !! j = tokens !! j) ->
  fold_left (fun st idx => token_body class freq idx st) (seq k n) st
  = fold_left (fun st idx => token_body class' freq idx st) (seq k n) st.
Proof.
  intros Hclass Htok. induction n as [|n IH]; intros k st Hlen Hst; [done|]. simpl.
  destruct (lookup_lt_is_Some_2 tokens k ltac:(lia)) as [tok Hk].
  destruct (Htok tok) as [Hok Hsl]; [by eapply list_elem_of_lookup_2|].
  rewrite (token_body_class class class').
  - apply IH; [lia|]. intros j Hj. rewrite token_body_tokens by lia. apply Hst. lia.
  - apply Hclass. eapply peel_step_ok; [|done|done]. rewrite Hst by lia. done.
Qed.

(** [ParseSpotComment] with the scanner and the match index replaced by a word
    comparison. *)
Definition parse_by_keywords (comment : string) (freq : Q) : CommentParseResult :=
  let comment := TrimSpace comment in
  if bool_decide (comment = "") then mkParsed "" 0 false "" ""
  else
    let tokens := tokenizeComment comment in
    finish_parse freq
      (token_loop (fun tok => keyword_of (upper tok)) freq (length tokens) (init_pstate tokens)).

Lemma ParseSpotComment_keywords comment freq :
  ParseSpotComment comment freq = parse_by_keywords comment freq.
Proof.
  unfold ParseSpotComment, parse_by_keywords. case_bool_decide; [done|]. f_equal.
  unfold token_loop. apply (token_loop_class (TrimSpace comment) _ _ _ (tokenizeComment (TrimSpace comment))).
  - apply classify_exact.
  - apply tokenizeComment_ok.
  - lia.
  - done.
Qed.

(** ** Theorems *)

(** For every comment and frequency the parser gives what it would give if each
    token were compared with the keyword list: neither the shared match index over
    the upper-cased comment nor the failure links of the automaton influence the
    result. *)
Theorem comment_parse_reference comment freq :
  ParseSpotComment comment freq = parse_by_keywords comment freq.
Proof. apply ParseSpotComment_keywords. Qed.

(** An explicit decimal report is misread: the fallback pattern finds "5dB". *)
Example decimal_report_misread :
  let p := ParseSpotComment "FT8 -12.5dB" 14074 in p_hasReport p = true /\ p_report p = 5.
Proof. by vm_compute. Qed.

(** *** Reports *)

Definition reports_in (b : Z) (st : pstate) : Prop :=
  - b <= ps_report st <= b /\ - b <= ps_pendingValue st <= b.

Lemma parseSignedInt_range tok v : parseSignedInt tok = Some v -> -200 <= v <= 200.
Proof.
  unfold parseSignedInt. repeat case_match; try done. intros [= ->]. boolify. lia.
Qed.

Lemma parseInlineSNR_range tok v : parseInlineSNR tok = Some v -> -200 <= v <= 200.
Proof.
  unfold parseInlineSNR. repeat case_match; try done. intros [= ->]. boolify. lia.
Qed.

Lemma number_step_range idx cl st : reports_in 200 st -> reports_in 200 (number_step idx cl st).
Proof.
  intros [H1 H2]. unfold number_step.
  destruct (if ps_hasReport st then None else parseInlineSNR cl) as [v|] eqn:E.
  - destruct (ps_hasReport st); [done|]. apply parseInlineSNR_range in E. by split.
  - destruct (ps_pending st); [by split|].
    destruct (parseSignedInt cl) as [v|] eqn:E'; [|by split].
    apply parseSignedInt_range in E'. by split.
Qed.

Lemma peel_step_range idx st : reports_in 200 st -> reports_in 200 (peel_step idx st).
Proof.
  intros H. unfold peel_step. case_bool_decide; [|done].
  destruct (peelTimePrefix _) as [ts rem]. by case_bool_decide.
Qed.

Lemma token_body_range class freq idx st :
  reports_in 200 st -> reports_in 200 (token_body class freq idx st).
Proof.
  intros H%(peel_step_range idx). unfold token_body.
  generalize dependent (peel_step idx st). intros st' H. cbv zeta.
  destruct (bool_decide (clean (token_at st' idx) = "")); [done|].
  destruct (isTimeToken _); [by destruct (bool_decide (ps_time st' = ""))|].
  destruct (class _) as [pat|]; [|by apply number_step_range].
  destruct (kind pat); try by apply number_step_range.
  - destruct (bool_decide (ps_mode st' = "")); [done|by apply number_step_range].
  - destruct (if ps_hasReport st' then None else ps_pending st'); [|done]. by destruct H.
  - destruct (if bool_decide _ then ps_pending st' else None); [done|by apply number_step_range].
  - destruct (if bool_decide _ then ps_pending st' else None); [done|by apply number_step_range].
Qed.

Lemma token_loop_inv (P : pstate -> Prop) class freq l st :
  (forall idx st, P st -> P (token_body class freq idx st)) -> P st ->
  P (fold_left (fun st idx => token_body class freq idx st) l st).
Proof. intros Hstep. revert st. induction l as [|i l IH]; intros st H; simpl; auto. Qed.

Lemma parse_digits_bound s acc n :
  0 <= acc -> parse_digits s acc = Some n -> 0 <= n < (acc + 1) * 10 ^ len s.
Proof.
  revert acc. induction s as [|c s IH]; intros acc Ha; simpl.
  - intros [= ->]. unfold len. simpl. lia.
  - destruct (is_digit c) eqn:Ed; [|done]. intros H.
    unfold is_digit, in_range in Ed. boolify. change (byte_val "0") with 48 in *. change (byte_val "9") with 57 in *.
    apply IH in H; [|lia]. unfold len in *. simpl String.length. rewrite Nat2Z.inj_succ, Z.pow_succ_r by lia.
    pose proof (Z.pow_pos_nonneg 10 (Z.of_nat (String.length s))). nia.
Qed.

Lemma snr_digits_spec k s m :
  snr_digits k s = Some m -> (String.length m <= k)%nat /\ sforall is_digit m = true.
Proof.
  induction k as [|k IH]; cbn [snr_digits]; [done|].
  destruct ((S k <=? String.length s)%nat && sforall is_digit (stake (S k) s) && db_follows (sdrop (S k) s)) eqn:E.
  - intros [= <-]. boolify. rewrite length_stake. split; [lia|done].
  - intros [? ?]%IH. split; [lia|done].
Qed.

Lemma snr_find_spec s m :
  snr_find s = Some m ->
  exists d, (String.length d <= 3)%nat /\ sforall is_digit d = true /\
            (m = d \/ m = String "-" d \/ m = String "+" d).
Proof.
  induction s as [|c s IH]; [done|]. cbn [snr_find].
  destruct (snr_at (String c s)) as [m'|] eqn:E; [|done]. intros [= ->]. unfold snr_at in E.
  destruct (bool_decide (c = "-"%char)) eqn:E1; [|destruct (bool_decide (c = "+"%char)) eqn:E2].
  1,2: cbn [orb] in E; destruct (snr_digits 3 s) as [d|] eqn:Ed; [|done]; boolify; subst c;
       apply snr_digits_spec in Ed as [? ?]; injection E as <-; exists d; tauto.
  cbn [orb] in E. apply snr_digits_spec in E as [? ?]. exists m. tauto.
Qed.

Lemma Atoi_short d m v :
  (String.length d <= 3)%nat -> sforall is_digit d = true ->
  (m = d \/ m = String "-" d \/ m = String "+" d) -> Atoi m = Some v -> -999 <= v <= 999.
Proof.
  intros Hl Hd Hm.
  assert (forall n, parse_digits d 0 = Some n -> 0 <= n <= 999) as Hb.
  { intros n Hn. apply parse_digits_bound in Hn; [|lia].
    assert (10 ^ len d <= 10 ^ 3) by (apply Z.pow_le_mono_r; unfold len; lia). lia. }
  destruct Hm as [->|[->| ->]].
  - unfold Atoi. destruct d as [|c d]; [done|].
    destruct (bool_decide (c = "-"%char)) eqn:E1; [boolify; subst c; by simpl in Hd|].
    destruct (bool_decide (c = "+"%char)) eqn:E2; [boolify; subst c; by simpl in Hd|].
    destruct (parse_digits (String c d) 0) as [n|]; [|done]. specialize (Hb n eq_refl).
    cbv zeta. destruct (_ && _); [|done]. intros [= <-]. lia.
  - unfold Atoi. rewrite bool_decide_eq_true_2 by done. destruct d; [done|].
    destruct (parse_digits _ 0) as [n|]; [|done]. specialize (Hb n eq_refl).
    cbv zeta. destruct (_ && _); [|done]. intros [= <-]. lia.
  - unfold Atoi. rewrite bool_decide_eq_false_2, bool_decide_eq_true_2 by done. destruct d; [done|].
    destruct (parse_digits _ 0) as [n|]; [|done]. specialize (Hb n eq_refl).
    cbv zeta. destruct (_ && _); [|done]. intros [= <-]. lia.
Qed.

Lemma finish_parse_report freq st :
  reports_in 200 st -> -999 <= p_report (finish_parse freq st) <= 999.
Proof.
  intros H. unfold finish_parse.
  set (st' := match _ with Some _ => _ | None => _ end).
  assert (reports_in 200 st') as [Hr _].
  { unfold st'. destruct (if ps_hasReport st then None else ps_pending st); [|done].
    destruct (_ && _); [|done]. destruct (_ && _); [|done]. by destruct H. }
  clearbody st'.
  destruct (negb (ps_hasReport st') && _); [|simpl; lia].
  destruct (snr_find _) as [m|] eqn:E; [|simpl; lia].
  destruct (Atoi m) as [v|] eqn:Ev; simpl; [|lia].
  destruct (snr_find_spec _ _ E) as (d & ? & ? & ?). by eapply Atoi_short.
Qed.

(** The report read from a comment always lies within -999 .. 999: the token
    rules accept -200 .. 200 and the fallback pattern at most three digits, so the
    report fits the columns it is printed in. *)
Theorem comment_report_bounds comment freq : -999 <= p_report (ParseSpotComment comment freq) <= 999.
Proof.
  unfold ParseSpotComment. case_bool_decide; [simpl; lia|]. apply finish_parse_report.
  unfold token_loop. apply token_loop_inv; [apply token_body_range|]. by split.
Qed.

(** *** Reading back what the cluster prints *)

(** Modes printed and parsed under the same name. *)
Definition printedModes : list string :=
  ["CW"; "RTTY"; "FT8"; "FT4"; "PSK31"; "PSK63"; "PSK125"; "JS8"; "SSTV"; "MSK144"; "USB"; "LSB"].

Definition print_report (mode : string) (r : Z) : string :=
  if EqualFold mode "CW" || EqualFold mode "RTTY" then Itoa r
  else (if 0 <=? r then "+" else "") +:+ Itoa r.

(** A word the tokenizer keeps whole and that carries no time. *)
Definition plain_word (w : string) : bool :=
  nonempty w && sforall (fun c => negb (is_blank c)) w && bool_decide (trim_left is_punct w = w)
  && bool_decide (trim_right is_punct w = w) && bool_decide (peelTimePrefix w = ("", w))
  && negb (isTimeToken w) && sforall (fun c => negb (is_space c)) w.

Definition mode_word_ok (m : string) : bool :=
  plain_word m && negb (bool_decide (m = "SSB")) && bool_decide (normalizeUpperASCIITrim m = m)
  && match keyword_of (ToUpper m) with
     | Some p => bool_decide (kind p = acTokenMode) && bool_decide (pmode p = m)
     | None => false
     end.

Definition report_word_ok (m : string) (r : Z) : bool :=
  let w := print_report m r in
  plain_word w && bool_decide (keyword_of (ToUpper w) = None) && bool_decide (parseInlineSNR w = None)
  && bool_decide (parseSignedInt w = Some r).

Lemma printed_words_ok :
  forallb (fun m => mode_word_ok m && forallb (fun k => report_word_ok m (Z.of_nat k - 200)) (seq 0 401))
          printedModes = true.
Proof. by vm_compute. Qed.

Lemma printed_words m r :
  m ∈ printedModes -> -200 <= r <= 200 -> mode_word_ok m = true /\ report_word_ok m r = true.
Proof.
  intros Hm Hr. pose proof printed_words_ok as H. rewrite forallb_forall_elem in H.
  specialize (H m Hm). apply andb_true_iff in H as [H1 H2]. split; [done|].
  rewrite forallb_forall_elem in H2. specialize (H2 (Z.to_nat (r + 200))).
  rewrite Z2Nat.id in H2 by lia. replace (r + 200 - 200) with r in H2 by lia.
  apply H2, elem_of_seq. lia.
Qed.

Lemma tokenize_word w s pos :
  w <> "" -> sforall (fun c => negb (is_blank c)) w = true ->
  tokenize_from (w +:+ String " " s) pos None
  = make_token pos w :: tokenize_from s (S (pos + String.length w)) None.
Proof.
  destruct w as [|c w]; [done|]. intros _ Hw. rewrite sapp_cons. simpl in Hw.
  apply andb_true_iff in Hw as [Hc Hw]. apply negb_true_iff in Hc. cbn [tokenize_from]. rewrite Hc.
  assert (forall k v, tokenize_from (w +:+ String " " s) k (Some (pos, v))
    = make_token pos (v +:+ w) :: tokenize_from s (S (k + String.length w)) None) as ->.
  { clear Hc c. induction w as [|c w IH]; intros k v.
    - rewrite sapp_nil_r. simpl. by rewrite Nat.add_0_r.
    - simpl in Hw. apply andb_true_iff in Hw as [Hc Hw]. apply negb_true_iff in Hc.
      rewrite sapp_cons. cbn [tokenize_from]. rewrite Hc, (IH Hw), sapp_assoc. simpl.
      by rewrite Nat.add_succ_r. }
  simpl. f_equal. f_equal. lia.
Qed.

Lemma plain_make_token pos w : plain_word w = true ->
  clean (make_token pos w) = w /\ upper (make_token pos w) = ToUpper w.
Proof.
  intros H. unfold plain_word in H. boolify. unfold make_token. simpl.
  by rewrite H4, H3.
Qed.

Lemma peel_plain idx st w :
  plain_word w = true -> clean (token_at st idx) = w -> peel_step idx st = st.
Proof.
  intros H Hc. unfold plain_word in H. boolify. unfold peel_step. rewrite Hc, H2.
  by case_bool_decide.
Qed.

(** Once mode and report are read, no later token changes them. *)
Definition settled (m : string) (r : Z) (st : pstate) : Prop :=
  ps_mode st = m /\ ps_report st = r /\ ps_hasReport st = true.

Lemma number_step_settled m r idx cl st : settled m r st -> settled m r (number_step idx cl st).
Proof.
  intros (H1 & H2 & H3). unfold number_step. rewrite H3.
  destruct (ps_pending st); [done|]. by destruct (parseSignedInt cl).
Qed.

Lemma token_body_settled class freq m r idx st :
  m <> "" -> settled m r st -> settled m r (token_body class freq idx st).
Proof.
  intros Hm H. assert (settled m r (peel_step idx st)) as H'.
  { unfold peel_step. case_bool_decide; [|done]. destruct (peelTimePrefix _). by case_bool_decide. }
  clear H. unfold token_body. generalize dependent (peel_step idx st). intros st' H. cbv zeta.
  destruct (bool_decide (clean (token_at st' idx) = "")); [done|].
  destruct (isTimeToken _); [by destruct (bool_decide (ps_time st' = ""))|].
  pose proof (number_step_settled m r idx (clean (token_at st' idx)) st' H) as Hn.
  destruct H as (H1 & H2 & H3). rewrite H1, H3. rewrite (bool_decide_eq_false_2 (m = "")) by done.
  destruct (class _) as [pat|]; [|done].
  destruct (kind pat); try done; by destruct (if bool_decide _ then ps_pending st' else None).
Qed.

(** The reference classification. *)
Definition by_word (tok : commentToken) : option acPattern := keyword_of (upper tok).

Lemma body_unfold freq idx st w :
  plain_word w = true -> clean (token_at st idx) = w -> upper (token_at st idx) = ToUpper w ->
  token_body by_word freq idx st =
    match keyword_of (ToUpper w) with
    | Some pat =>
        match kind pat with
        | acTokenMode =>
            if bool_decide (ps_mode st = "")
            then consume idx (set_mode (NormalizeVoiceMode (pmode pat) freq) st)
            else number_step idx w st
        | acTokenDB =>
            match (if ps_hasReport st then None else ps_pending st) with
            | Some p => set_pending None (ps_pendingValue st)
                          (consume p (consume idx (set_report (ps_pendingValue st) st)))
            | None => consume idx st
            end
        | acTokenWPM | acTokenBPS =>
            match (if bool_decide (ps_speedValue st = "") then ps_pending st else None) with
            | Some p =>
                let unit := if bool_decide (kind pat = acTokenWPM) then "WPM" else "BPS" in
                set_pending None (ps_pendingValue st)
                  (consume p (consume idx (set_speed (clean (token_at st p)) unit st)))
            | None => number_step idx w st
            end
        | acTokenUnknown => number_step idx w st
        end
    | None => number_step idx w st
    end.
Proof.
  intros Hp Hc Hu. unfold token_body. rewrite (peel_plain idx st w Hp Hc). cbv zeta.
  unfold by_word. rewrite Hc, Hu. unfold plain_word in Hp. boolify.
  rewrite (bool_decide_eq_false_2 (w = "")), H1; [done|]. intros ->. done.
Qed.

Lemma first_three freq m r t0 t1 t2 tl :
  m ∈ printedModes -> -200 <= r <= 200 ->
  clean t0 = m -> upper t0 = ToUpper m ->
  clean t1 = print_report m r -> upper t1 = ToUpper (print_report m r) ->
  clean t2 = "dB" -> upper t2 = "DB" ->
  settled m r (token_body by_word freq 2 (token_body by_word freq 1
    (token_body by_word freq 0 (init_pstate (t0 :: t1 :: t2 :: tl))))).
Proof.
  intros Hm Hr C0 U0 C1 U1 C2 U2. destruct (printed_words m r Hm Hr) as [Hmw Hrw].
  unfold mode_word_ok in Hmw. unfold report_word_ok in Hrw. boolify.
  rewrite (body_unfold freq 0 _ m) by done.
  destruct (keyword_of (ToUpper m)) as [p|]; [|done]. boolify.
  rewrite H4. rewrite bool_decide_eq_true_2 by done. rewrite H7.
  assert (NormalizeVoiceMode m freq = m) as ->.
  { unfold NormalizeVoiceMode. rewrite H5. by rewrite bool_decide_eq_false_2. }
  rewrite (body_unfold freq 1 _ (print_report m r)) by done. rewrite H2.
  unfold number_step at 1. cbn [ps_hasReport ps_pending consume set_mode init_pstate].
  rewrite H1, H0.
  rewrite (body_unfold freq 2 _ "dB"); [|by vm_compute|done|done].
  replace (keyword_of (ToUpper "dB")) with (Some (mkPattern "DB" acTokenDB "")) by (by vm_compute).
  by repeat split.
Qed.

Lemma trim_left_plain w s : plain_word w = true -> trim_left is_space (w +:+ s) = w +:+ s.
Proof.
  intros H. unfold plain_word in H. boolify. destruct w as [|c w]; [done|].
  simpl in H0. apply andb_true_iff in H0 as [Hc _]. apply negb_true_iff in Hc.
  rewrite sapp_cons. simpl. by rewrite Hc.
Qed.

(** What follows the report: nothing, or a blank and more text. *)
Definition tail_text (rest : string) : Prop := rest = "" \/ exists x, rest = String " " x.

Lemma trim_right_tail rest : tail_text rest -> tail_text (trim_right is_space rest).
Proof.
  intros [->|[x ->]]; [by left|]. cbn [trim_right].
  destruct (trim_right is_space x) as [|c t]; [left|right; eauto].
  assert (is_space " " = true) as -> by (by vm_compute). done.
Qed.

(** The comment text, as three tokens and a tail of tokens. *)
Lemma printed_tokens m r rest :
  m ∈ printedModes -> -200 <= r <= 200 -> tail_text rest ->
  exists t0 t1 t2 tl,
    tokenizeComment (m +:+ (String " " (print_report m r +:+ (String " " ("dB" +:+ rest)))))
      = t0 :: t1 :: t2 :: tl /\
    clean t0 = m /\ upper t0 = ToUpper m /\
    clean t1 = print_report m r /\ upper t1 = ToUpper (print_report m r) /\
    clean t2 = "dB" /\ upper t2 = "DB".
Proof.
  intros Hm Hr Hrest. destruct (printed_words m r Hm Hr) as [Hmw Hrw].
  unfold mode_word_ok in Hmw. unfold report_word_ok in Hrw. boolify.
  assert (forall w, plain_word w = true -> w <> "" /\ sforall (fun c => negb (is_blank c)) w = true) as Hpl.
  { intros w Hw. unfold plain_word in Hw. boolify. split; [|done]. intros ->. done. }
  unfold tokenizeComment.
  rewrite tokenize_word by (by apply Hpl). rewrite tokenize_word by (by apply Hpl).
  eexists _, _. destruct Hrest as [->|[x ->]].
  - eexists _, []. split; [reflexivity|].
    destruct (plain_make_token 0 m) as [-> ->]; [done|].
    match goal with |- context [make_token ?k (print_report m r)] =>
      destruct (plain_make_token k (print_report m r)) as [-> ->]; [done|] end.
    split_and!; done.
  - rewrite tokenize_word by done. eexists _, _. split; [reflexivity|].
    destruct (plain_make_token 0 m) as [-> ->]; [done|].
    match goal with |- context [make_token ?k (print_report m r)] =>
      destruct (plain_make_token k (print_report m r)) as [-> ->]; [done|] end.
    split_and!; done.
Qed.

Lemma printed_text_trim m r rest :
  m ∈ printedModes -> -200 <= r <= 200 -> tail_text rest ->
  exists rest', tail_text rest' /\
    TrimSpace (m +:+ (String " " (print_report m r +:+ (String " " ("dB" +:+ rest)))))
      = m +:+ (String " " (print_report m r +:+ (String " " ("dB" +:+ rest')))).
Proof.
  intros Hm Hr Hrest. destruct (printed_words m r Hm Hr) as [Hmw _].
  unfold mode_word_ok in Hmw. boolify.
  exists (trim_right is_space rest). split; [by apply trim_right_tail|].
  unfold TrimSpace. rewrite trim_left_plain by done.
  set (h := m +:+ (String " " (print_report m r +:+ " d"))).
  assert (forall x, m +:+ (String " " (print_report m r +:+ (String " " ("dB" +:+ x))))
                    = (h +:+ "B") +:+ x) as Hx.
  { intros x. unfold h. by sapp_norm. }
  rewrite !Hx. by apply trim_right_app_hard.
Qed.

Lemma format_comment_text s tailStart b :
  HasReport s = true ->
  exists rest, tail_text rest /\
    format_comment s tailStart b
      = b +:+ (Mode s +:+ (String " " (print_report (Mode s) (Report s) +:+ (String " " ("dB" +:+ rest))))).
Proof.
  intros Hr. unfold format_comment. rewrite Hr. unfold AppendString, AppendByte.
  set (head := Mode s +:+ String " " (print_report (Mode s) (Report s) +:+ " dB")).
  assert (forall x, (if EqualFold (Mode s) "CW" || EqualFold (Mode s) "RTTY"
                     then x +:+ Itoa (Report s)
                     else (if 0 <=? Report s then x +:+ "+" else x) +:+ Itoa (Report s))
                    = x +:+ print_report (Mode s) (Report s)) as Hp.
  { intros x. unfold print_report. destruct (_ || _); [done|].
    destruct (0 <=? Report s); by sapp_norm. }
  cbv zeta. rewrite Hp.
  assert ((((b +:+ Mode s) +:+ " ") +:+ print_report (Mode s) (Report s)) +:+ " dB" = b +:+ head) as ->
    by (unfold head; by sapp_norm).
  assert (forall x, tail_text x -> exists rest, tail_text rest /\ (b +:+ head) +:+ x =
    b +:+ (Mode s +:+ (String " " (print_report (Mode s) (Report s) +:+ (String " " ("dB" +:+ rest)))))) as Hk.
  { intros x Hx. exists x. split; [done|]. unfold head. by sapp_norm. }
  assert (tail_text "") as H0 by (by left).
  apply Hk in H0. rewrite sapp_nil_r in H0.
  destruct (nonempty _); [|done]. destruct (1 <? _); [|done].
  destruct (0 <? _).
  - rewrite (sapp_assoc _ " "). apply Hk. right. by eexists.
  - apply Hk. right. by exists "".
Qed.

Lemma fold_seq_three {A} (f : A -> nat -> A) n a :
  fold_left f (seq 0 (S (S (S n)))) a = fold_left f (seq 3 n) (f (f (f a 0%nat) 1%nat) 2%nat).
Proof. reflexivity. Qed.

Lemma printed_loop freq m r t0 t1 t2 tl :
  m ∈ printedModes -> -200 <= r <= 200 ->
  clean t0 = m -> upper t0 = ToUpper m ->
  clean t1 = print_report m r -> upper t1 = ToUpper (print_report m r) ->
  clean t2 = "dB" -> upper t2 = "DB" ->
  settled m r (token_loop by_word freq (length (t0 :: t1 :: t2 :: tl)) (init_pstate (t0 :: t1 :: t2 :: tl))).
Proof.
  intros Hm Hr C0 U0 C1 U1 C2 U2.
  change (length (t0 :: t1 :: t2 :: tl)) with (S (S (S (length tl)))).
  unfold token_loop. rewrite fold_seq_three.
  apply token_loop_inv; [|by apply first_three].
  intros idx st. apply token_body_settled. intros ->. apply (bool_decide_pack _) in Hm. by vm_compute in Hm.
Qed.

Lemma finish_settled freq m r st :
  settled m r st ->
  p_mode (finish_parse freq st) = NormalizeVoiceMode m freq /\
  p_report (finish_parse freq st) = r /\ p_hasReport (finish_parse freq st) = true.
Proof. intros (E1 & E2 & E3). unfold finish_parse. by rewrite !E3, E1, E2. Qed.

Lemma printed_mode_normal m freq : m ∈ printedModes -> NormalizeVoiceMode m freq = m.
Proof.
  intros Hm. destruct (printed_words m 0 Hm) as [Hmw _]; [lia|]. unfold mode_word_ok in Hmw. boolify.
  unfold NormalizeVoiceMode. match goal with H : normalizeUpperASCIITrim _ = _ |- _ => rewrite H end.
  by rewrite bool_decide_eq_false_2.
Qed.

(** What the cluster prints it reads back.  The comment field of a formatted
    spot with a report, whatever text follows it and wherever the line was cut,
    parses to the spot's mode and report, for the modes that are printed under
    their keyword and reports in the accepted range. *)
Theorem printed_comment_parses s tailStart b freq :
  Mode s ∈ printedModes -> HasReport s = true -> -200 <= Report s <= 200 ->
  exists t, format_comment s tailStart b = b +:+ t /\
    p_mode (ParseSpotComment t freq) = Mode s /\
    p_report (ParseSpotComment t freq) = Report s /\ p_hasReport (ParseSpotComment t freq) = true.
Proof.
  intros Hm Hh Hr. destruct (format_comment_text s tailStart b Hh) as (rest & Hrest & ->).
  eexists. split; [reflexivity|]. rewrite ParseSpotComment_keywords. unfold parse_by_keywords.
  destruct (printed_text_trim (Mode s) (Report s) rest Hm Hr Hrest) as (rest' & Hrest' & ->).
  destruct (printed_tokens (Mode s) (Report s) rest' Hm Hr Hrest') as (t0 & t1 & t2 & tl & Htok & ?).
  rewrite bool_decide_eq_false_2 by (intros E; rewrite E in Htok; discriminate Htok).
  rewrite Htok. rewrite <- (printed_mode_normal (Mode s) freq Hm) at 1.
  apply finish_settled, printed_loop; naive_solver.
Qed.

Definition ft8_spot : Spot :=
  let s := NewSpot "K1ABC" "W3LPL" 14074 "FT8" 0 in
  mkSpot (ID s) (DXCall s) (DECall s) (Frequency s) (Band s) (Mode s) (-12) (Time s) "CQ NA 599 dB"
    (SourceType s) (SourceNode s) (SpotterIP s) (TTL s) (IsHuman s) (IsTestSpotter s) (IsBeacon s)
    true (DXMetadata s) (DEMetadata s) (Confidence s) (formatted s) (ModeNorm s) (BandNorm s)
    (DXCallNorm s) (DECallNorm s) (DXContinentNorm s) (DEContinentNorm s) (DXGridNorm s) (DEGridNorm s)
    (DXGrid2 s) (DEGrid2 s) (DXCellID s) (DECellID s) (DECallStripped s) (DECallNormStripped s).

Lemma printed_comment_parses_witness :
  exists t, format_comment ft8_spot 58 "DX de W3LPL:  14074.0 K1ABC " = "DX de W3LPL:  14074.0 K1ABC " +:+ t /\
    p_mode (ParseSpotComment t 14074) = Mode ft8_spot /\
    p_report (ParseSpotComment t 14074) = Report ft8_spot /\ p_hasReport (ParseSpotComment t 14074) = true.
Proof.
  apply (printed_comment_parses ft8_spot 58 "DX de W3LPL:  14074.0 K1ABC " 14074).
  - apply list_elem_of_In. vm_compute. tauto.
  - reflexivity.
  - vm_compute. split; discriminate.
Defined.
