(* ===== verification/GoParse.v ===== *)
(** * GoParse: [strconv.ParseFloat] and the dates of [time] that the cluster parses

    [ParseFloat] follows the grammar of the Go library: decimal and hexadecimal
    mantissas, exponents, digit separators, infinities and NaN; a finite value is the
    exact one rounded to nearest even, and a value beyond the float64 range is an
    error.  The sign of a zero is not kept (values are rationals).  Dates are the
    proleptic Gregorian calendar in UTC, with the two layouts the peering protocol
    uses ("02-Jan-2006", "1504Z"); an instant is nanoseconds since 1970 as everywhere
    in this library. *)

From S2P Require Import Prelude GoText GoNum SpotFormat.
From stdpp Require Import list_numbers.
From Stdlib Require Import QArith Qabs.

Local Open Scope string_scope.
Local Open Scope list_scope.
Local Open Scope Z_scope.

(** ** ParseFloat *)

Inductive float_parse :=
  | FloatErr                (** [ErrSyntax] or [ErrRange] *)
  | FloatNonFinite          (** an infinity or NaN written out *)
  | FloatVal (x : Q).

Definition lower_is (c : ascii) (d : ascii) : bool := bool_decide (lower_byte c = d).

(** [special]: (signed) inf and infinity, and nan, in any case. *)
Definition float_special (s : string) : bool :=
  let body := match s with
              | String c s' => if bool_decide (c = "-"%char) || bool_decide (c = "+"%char) then s' else s
              | "" => s
              end in
  bool_decide (ToLower body ∈ ["inf"; "infinity"]) || bool_decide (ToLower s = "nan").

(** The digit value in a base, if it is one. *)
Definition float_digit (hex : bool) (c : ascii) : option Z :=
  if is_digit c then Some (byte_val c - 48)
  else if hex && in_range "a" "f" (lower_byte c) then Some (byte_val (lower_byte c) - 87)
  else None.

(** The mantissa loop: digits, one point, underscores.  [frac] counts the digits
    after the point. *)
Record mantissa := mkMantissa {
  mt_value : Z; mt_frac : Z; mt_digits : bool; mt_under : bool; mt_rest : string
}.

Fixpoint read_mantissa (hex : bool) (s : string) (v frac : Z) (dot digs under : bool) : mantissa :=
  match s with
  | "" => mkMantissa v frac digs under s
  | String c s' =>
      if bool_decide (c = "_"%char) then read_mantissa hex s' v frac dot digs true
      else if bool_decide (c = "."%char) then
        if dot then mkMantissa v frac digs under s else read_mantissa hex s' v frac true digs under
      else match float_digit hex c with
           | Some d => read_mantissa hex s' (v * (if hex then 16 else 10) + d)
                                     (if dot then frac + 1 else frac) dot true under
           | None => mkMantissa v frac digs under s
           end
  end.

(** Exponent digits; the library stops accumulating at 10000. *)
Fixpoint read_exp_digits (s : string) (e : Z) (under : bool) : Z * bool * string :=
  match s with
  | String c s' =>
      if bool_decide (c = "_"%char) then read_exp_digits s' e true
      else if is_digit c then read_exp_digits s' (if e <? 10000 then e * 10 + (byte_val c - 48) else e) under
      else (e, under, s)
  | "" => (e, under, s)
  end.

(** The part after the exponent letter. *)
Definition read_exp (s : string) (under : bool) : option (Z * bool * string) :=
  let '(neg, s') := match s with
                    | String c t => if bool_decide (c = "-"%char) then (true, t)
                                    else if bool_decide (c = "+"%char) then (false, t) else (false, s)
                    | "" => (false, s)
                    end in
  match s' with
  | String c _ =>
      if is_digit c then
        let '(e, under, rest) := read_exp_digits s' 0 under in
        Some ((if neg : bool then - e else e), under, rest)
      else None
  | "" => None
  end.

(** [underscoreOK]: separators stand between digits (a base prefix counts as one).
    [saw] is ["0"] after a digit, ["_"] after a separator. *)
Fixpoint underscore_scan (hex : bool) (saw : ascii) (s : string) : bool :=
  match s with
  | "" => negb (bool_decide (saw = "_"%char))
  | String c s' =>
      if is_digit c || (hex && in_range "a" "f" (lower_byte c)) then underscore_scan hex "0" s'
      else if bool_decide (c = "_"%char) then
        if bool_decide (saw = "0"%char) then underscore_scan hex "_" s' else false
      else if bool_decide (saw = "_"%char) then false
      else underscore_scan hex "!" s'
  end.

Definition underscoreOK (s : string) : bool :=
  let s := match s with
           | String c s' => if bool_decide (c = "-"%char) || bool_decide (c = "+"%char) then s' else s
           | "" => s
           end in
  match s with
  | String c0 (String c1 s'') =>
      if bool_decide (c0 = "0"%char) && (lower_is c1 "b" || lower_is c1 "o" || lower_is c1 "x")
      then underscore_scan (lower_is c1 "x") "0" s''
      else underscore_scan false "^" s
  | _ => underscore_scan false "^" s
  end.

Definition Qpow2 (e : Z) : Q := if 0 <=? e then inject_Z (2 ^ e) else 1 # Z.to_pos (2 ^ (- e)).
Definition Qpow10 (e : Z) : Q := if 0 <=? e then inject_Z (10 ^ e) else 1 # Z.to_pos (10 ^ (- e)).

(** The exact value read, or [None] when the text is not a number. *)
Definition read_float (s : string) : option Q :=
  let '(neg, body) := match s with
                      | String c t => if bool_decide (c = "-"%char) then (true, t)
                                      else if bool_decide (c = "+"%char) then (false, t) else (false, s)
                      | "" => (false, s)
                      end in
  let '(hex, digs) := match body with
                      | String c0 (String c1 t) =>
                          if bool_decide (c0 = "0"%char) && lower_is c1 "x" && negb (bool_decide (t = ""))
                          then (true, t) else (false, body)
                      | _ => (false, body)
                      end in
  let m := read_mantissa hex digs 0 0 false false false in
  if negb (mt_digits m) then None
  else
    let done e under rest :=
      if negb (bool_decide (rest = "")) then None
      else if under && negb (underscoreOK s) then None
      else
        let x := if hex then (inject_Z (mt_value m) * Qpow2 (e - 4 * mt_frac m))%Q
                 else (inject_Z (mt_value m) * Qpow10 (e - mt_frac m))%Q in
        Some (if neg : bool then (- x)%Q else x) in
    match mt_rest m with
    | String c rest =>
        if lower_is c (if hex : bool then "p" else "e")
        then match read_exp rest (mt_under m) with
             | Some (e, under, rest') => done e under rest'
             | None => None
             end
        else None
    | "" => if hex : bool then None else done 0 (mt_under m) ""
    end.

Definition ParseFloat (s : string) : float_parse :=
  if float_special s then FloatNonFinite
  else match read_float s with
       | None => FloatErr
       | Some x =>
           let v := fl64 (Qred x) in
           if Qle_b (inject_Z (2 ^ 1024)) (Qabs v) then FloatErr else FloatVal v
       end.

(** ** The calendar *)

Definition is_leap (y : Z) : bool := (y mod 4 =? 0) && (negb (y mod 100 =? 0) || (y mod 400 =? 0)).

Definition days_in_month (y m : Z) : Z :=
  if m =? 2 then (if is_leap y then 29 else 28)
  else if bool_decide (m ∈ [4; 6; 9; 11]) then 30 else 31.

(** Days before month [m] in year [y]. *)
Definition days_before (y m : Z) : Z :=
  let base := default 0 ([0; 31; 59; 90; 120; 151; 181; 212; 243; 273; 304; 334] !! Z.to_nat (m - 1)) in
  if (2 <? m) && is_leap y then base + 1 else base.

(** Days from 1 January of year 1 to 1 January of year [y]. *)
Definition days_to_year (y : Z) : Z :=
  let p := y - 1 in 365 * p + p / 4 - p / 100 + p / 400.

Definition unix_epoch_day : Z := 719162.   (** 1 January 1970 *)

(** Days since the epoch of a date. *)
Definition days_from_civil (y m d : Z) : Z :=
  days_to_year y + days_before y m + (d - 1) - unix_epoch_day.

(** [Time.date]: split into 400, 100, 4 and 1 year cycles, then find the month. *)
Definition year_of_days (n : Z) : Z * Z :=
  let y := 400 * (n / 146097) in
  let n := n mod 146097 in
  let c := Z.min 3 (n / 36524) in
  let y := y + 100 * c in
  let n := n - 36524 * c in
  let y := y + 4 * (n / 1461) in
  let n := n mod 1461 in
  let c := Z.min 3 (n / 365) in
  (y + c + 1, n - 365 * c).

Fixpoint month_of_yday (y yday : Z) (m : Z) (fuel : nat) : Z * Z :=
  match fuel with
  | O => (m, yday + 1)
  | S k => if yday <? days_in_month y m then (m, yday + 1)
           else month_of_yday y (yday - days_in_month y m) (m + 1) k
  end.

Definition civil_from_days (n : Z) : Z * Z * Z :=
  let '(y, yday) := year_of_days (n + unix_epoch_day) in
  let '(m, d) := month_of_yday y yday 1 11 in
  (y, m, d).

Definition day_ns : Z := 24 * hour.

Definition shortMonthNames : list string :=
  ["Jan"; "Feb"; "Mar"; "Apr"; "May"; "Jun"; "Jul"; "Aug"; "Sep"; "Oct"; "Nov"; "Dec"].

Definition month_name (m : Z) : string := default "" (shortMonthNames !! Z.to_nat (m - 1)).

(** A year in at least four digits. *)
Definition format_year (y : Z) : string :=
  let a := digits (Z.abs y) in
  (if y <? 0 then "-" else "") +:+ Repeat "0" (4 - String.length a) +:+ a.

(** [Time.UTC().Format("02-Jan-2006")]. *)
Definition format_date (t : Z) : string :=
  let '(y, m, d) := civil_from_days (t / day_ns) in
  two_digits d +:+ "-" +:+ month_name m +:+ "-" +:+ format_year y.

(** *** Parsing with layout "02-Jan-2006 1504Z" *)

(** [getnum]: two digits, or one when not [fixed]. *)
Definition getnum (fixed : bool) (s : string) : option (Z * string) :=
  match s with
  | String a s' =>
      if is_digit a then
        match s' with
        | String b s'' =>
            if is_digit b then Some ((byte_val a - 48) * 10 + (byte_val b - 48), s'')
            else if fixed then None else Some (byte_val a - 48, s')
        | "" => if fixed then None else Some (byte_val a - 48, s')
        end
      else None
  | "" => None
  end.

(** A literal byte of the layout; a blank stands for any number of blanks. *)
Definition skip_byte (c : ascii) (s : string) : option string :=
  match s with
  | String d s' => if bool_decide (c = d) then Some s' else None
  | "" => None
  end.

Definition is_sp (c : ascii) : bool := bool_decide (c = " "%char).

Definition skip_blanks (s : string) : option string :=
  match s with
  | String d _ => if bool_decide (d = " "%char) then Some (trim_left is_sp s) else None
  | "" => Some ""
  end.

(** [lookup] in the short month names, ignoring case. *)
Fixpoint lookup_month (names : list string) (m : Z) (s : string) : option (Z * string) :=
  match names with
  | [] => None
  | n :: names' =>
      if (3 <=? len s) && bool_decide (ToLower (stake 3 s) = ToLower n) then Some (m, sdrop 3 s)
      else lookup_month names' (m + 1) s
  end.

(** Four digits of a year. *)
Definition get_year (s : string) : option (Z * string) :=
  if len s <? 4 then None
  else if sforall is_digit (stake 4 s)
       then (fun y => (y, sdrop 4 s)) <$> parse_digits (stake 4 s) 0
       else None.

(** [time.ParseInLocation("02-Jan-2006 1504Z", s, time.UTC)]. *)
Definition parse_datetime (s : string) : option Z :=
  '(d, s) ← getnum true s;
  s ← skip_byte "-" s;
  '(m, s) ← lookup_month shortMonthNames 1 s;
  s ← skip_byte "-" s;
  '(y, s) ← get_year s;
  s ← skip_blanks s;
  '(h, s) ← getnum false s;
  if negb (h <? 24) then None
  else
    '(mi, s) ← getnum true s;
    if negb (mi <? 60) then None
    else
      s ← skip_byte "Z" s;
      if negb (bool_decide (s = "")) then None
      else if (d <? 1) || (days_in_month y m <? d) then None
      else Some (days_from_civil y m d * day_ns + h * hour + mi * minute).

(** ** The calendar round trip *)

(** The month of a day of the year, checked for a common and a leap year. *)
Definition yday_ok (y yday : Z) : bool :=
  let '(m, d) := month_of_yday y yday 1 11 in
  (days_before y m + (d - 1) =? yday) && (1 <=? m) && (m <=? 12) && (1 <=? d) && (d <=? days_in_month y m).

Definition year_length (y : Z) : Z := if is_leap y then 366 else 365.

Lemma ydays_checked :
  forallb (fun y => forallb (fun k => (year_length y <=? Z.of_nat k) || yday_ok y (Z.of_nat k)) (seq 0 366)) [1; 4] = true.
Proof. by vm_compute. Qed.

Lemma month_of_yday_leap y y' yday m fuel :
  is_leap y = is_leap y' -> month_of_yday y yday m fuel = month_of_yday y' yday m fuel.
Proof.
  intros H. revert yday m. induction fuel as [|k IH]; intros yday m; cbn [month_of_yday]; [done|].
  unfold days_in_month. rewrite H. by rewrite IH.
Qed.

Lemma yday_spec y yday : 0 <= yday < year_length y -> yday_ok y yday = true.
Proof.
  intros Hd.
  assert (forall y', y' ∈ [1; 4] -> is_leap y = is_leap y' -> yday_ok y yday = true) as Hgen.
  { intros y' Hy' Hl. pose proof ydays_checked as H. rewrite forallb_forall_elem in H. specialize (H y' Hy').
    rewrite forallb_forall_elem in H. specialize (H (Z.to_nat yday)).
    unfold year_length in *. rewrite Hl in Hd.
    rewrite elem_of_seq in H. specialize (H ltac:(destruct (is_leap y'); lia)).
    rewrite Z2Nat.id in H by lia. apply orb_true_iff in H as [H|H]; [boolify; lia|].
    unfold yday_ok in *. rewrite (month_of_yday_leap y y') by done.
    destruct (month_of_yday y' yday 1 11) as [m d]. unfold days_before, days_in_month in *.
    by rewrite Hl. }
  destruct (is_leap y) eqn:E; [apply (Hgen 4)|apply (Hgen 1)]; try done; set_solver.
Qed.

(** The year of a day within one 400-year cycle. *)
Lemma cycle_day n :
  0 <= n < 146097 ->
  let '(y, yday) := year_of_days n in days_to_year y + yday = n /\ 0 <= yday < year_length y.
Proof.
  intros Hn. unfold year_of_days. cbv zeta.
  rewrite (Z.div_small n), (Z.mod_small n) by lia.
  set (c := Z.min 3 (n / 36524)).
  assert (0 <= c <= 3 /\ 36524 * c <= n /\ (c < 3 -> n < 36524 * c + 36524)) as (Hc & Hc1 & Hc2)
    by (unfold c; Z.to_euclidean_division_equations; lia).
  clearbody c. set (n1 := n - 36524 * c) in *. assert (0 <= n1 <= 36524) as Hn1 by lia.
  set (q := n1 / 1461). set (n2 := n1 mod 1461).
  assert (n1 = 1461 * q + n2 /\ 0 <= n2 < 1461) as [Hq Hn2]
    by (split; [apply Z.div_mod; lia|apply Z.mod_pos_bound; lia]).
  clearbody q n2. set (r := Z.min 3 (n2 / 365)).
  assert (0 <= r <= 3 /\ 365 * r <= n2 /\ (r < 3 -> n2 < 365 * r + 365)) as (Hr & Hr1 & Hr2)
    by (unfold r; Z.to_euclidean_division_equations; lia).
  clearbody r. assert (0 <= q <= 24) as Hq0 by lia.
  unfold days_to_year, year_length, is_leap. cbv zeta.
  assert (400 * 0 + 100 * c + 4 * q + r + 1 - 1 = 100 * c + 4 * q + r) as -> by ring.
  set (y := 400 * 0 + 100 * c + 4 * q + r + 1).
  assert ((100 * c + 4 * q + r) / 4 = 25 * c + q) as -> by (Z.to_euclidean_division_equations; lia).
  assert ((100 * c + 4 * q + r) / 100 = c) as -> by (Z.to_euclidean_division_equations; lia).
  assert ((100 * c + 4 * q + r) / 400 = 0) as -> by (apply Z.div_small; lia).
  split; [lia|]. split; [lia|].
  destruct (decide (r = 3)) as [->|]; [|repeat case_match; lia].
  assert (y mod 4 = 0) as -> by (unfold y; Z.to_euclidean_division_equations; lia).
  destruct (Z.eqb_spec (y mod 100) 0) as [E|E]; simpl; [|lia].
  assert (q = 24) as -> by (unfold y in E; Z.to_euclidean_division_equations; lia).
  destruct (Z.eqb_spec (y mod 400) 0) as [E4|E4]; [lia|].
  assert (c <> 3) by (intros ->; unfold y in E4; vm_compute in E4; lia). lia.
Qed.

Lemma is_leap_cycle y q : is_leap (400 * q + y) = is_leap y.
Proof.
  unfold is_leap. replace (400 * q + y) with (y + 100 * q * 4) at 1 by ring.
  replace (400 * q + y) with (y + 4 * q * 100) at 1 by ring.
  replace (400 * q + y) with (y + q * 400) by ring. by rewrite !Z.mod_add.
Qed.

Lemma days_in_month_cycle y q m : days_in_month (400 * q + y) m = days_in_month y m.
Proof. unfold days_in_month. by rewrite is_leap_cycle. Qed.

Lemma days_before_cycle y q m : days_before (400 * q + y) m = days_before y m.
Proof. unfold days_before. by rewrite is_leap_cycle. Qed.

Lemma days_to_year_cycle y q : days_to_year (400 * q + y) = 146097 * q + days_to_year y.
Proof.
  unfold days_to_year. cbv zeta.
  replace (400 * q + y - 1) with (y - 1 + 100 * q * 4) at 2 by ring.
  replace (400 * q + y - 1) with (y - 1 + 4 * q * 100) at 2 by ring.
  replace (400 * q + y - 1) with (y - 1 + q * 400) at 2 by ring.
  rewrite !Z.div_add by lia. ring.
Qed.

Lemma month_of_yday_cycle y q yday m fuel :
  month_of_yday (400 * q + y) yday m fuel = month_of_yday y yday m fuel.
Proof.
  revert yday m. induction fuel as [|k IH]; intros yday m; cbn [month_of_yday]; [done|].
  rewrite days_in_month_cycle. by case_match.
Qed.

Lemma year_of_days_cycle n :
  year_of_days n = (400 * (n / 146097) + (year_of_days (n mod 146097)).1, (year_of_days (n mod 146097)).2).
Proof.
  unfold year_of_days. cbv zeta. rewrite Z.mod_mod by lia.
  rewrite (Z.div_small (n mod 146097) 146097) by (apply Z.mod_pos_bound; lia). simpl. f_equal. lia.
Qed.

Lemma civil_spec n y m d :
  civil_from_days n = (y, m, d) ->
  days_from_civil y m d = n /\ 1 <= m <= 12 /\ 1 <= d <= days_in_month y m.
Proof.
  unfold civil_from_days. rewrite year_of_days_cycle. set (k := n + unix_epoch_day).
  pose proof (Z.div_mod k 146097 ltac:(lia)) as Hk.
  pose proof (Z.mod_pos_bound k 146097 ltac:(lia)) as Hr.
  pose proof (cycle_day _ Hr) as Hc.
  destruct (year_of_days (k mod 146097)) as [y0 yd]. cbn [fst snd]. destruct Hc as [Hc Hyd].
  pose proof (yday_spec y0 yd Hyd) as Hm. unfold yday_ok in Hm.
  rewrite month_of_yday_cycle. destruct (month_of_yday y0 yd 1 11) as [m0 d0].
  intros [= <- <- <-]. boolify. unfold days_from_civil.
  rewrite days_to_year_cycle, days_before_cycle, days_in_month_cycle. lia.
Qed.

(** ** Formatting and parsing a minute *)

Lemma getnum_two fixed n s : 0 <= n < 100 -> getnum fixed (two_digits n +:+ s) = Some (n, s).
Proof.
  intros Hn. unfold two_digits. rewrite !sapp_cons. cbn [getnum].
  pose proof (Z.mod_pos_bound n 10 ltac:(lia)).
  assert (0 <= n / 10 < 10) by (split; [apply Z.div_pos|apply Z.div_lt_upper_bound]; lia).
  rewrite !is_digit_byte_of, !byte_val_of by lia. do 2 f_equal. pose proof (Z.div_mod n 10). lia.
Qed.

Definition year_ok (y : Z) : bool :=
  bool_decide (String.length (format_year y) = 4%nat) && sforall is_digit (format_year y)
  && bool_decide (parse_digits (format_year y) 0 = Some y).

Lemma years_checked : forallb (fun a => forallb (fun b => year_ok (100 * a + b)) (seqZ 0 100)) (seqZ 0 100) = true.
Proof. by vm_compute. Qed.

Lemma year_ok_range y : 0 <= y < 10000 -> year_ok y = true.
Proof.
  intros Hy. pose proof years_checked as H. rewrite forallb_forall_elem in H.
  specialize (H (y / 100)). rewrite elem_of_seqZ, forallb_forall_elem in H.
  assert (0 <= y / 100 < 100) by (split; [apply Z.div_pos|apply Z.div_lt_upper_bound]; lia).
  pose proof (Z.mod_pos_bound y 100 ltac:(lia)).
  rewrite (Z.div_mod y 100) by lia. apply H; [lia|]. apply elem_of_seqZ. lia.
Qed.

Lemma year_digits y : 0 <= y < 10000 -> sforall is_digit (format_year y) = true.
Proof. intros Hy. apply year_ok_range in Hy. unfold year_ok in Hy. by boolify. Qed.

Lemma get_year_format y s : 0 <= y < 10000 -> get_year (format_year y +:+ s) = Some (y, s).
Proof.
  intros Hy. pose proof (year_ok_range y Hy) as Hok.
  unfold year_ok in Hok. apply andb_true_iff in Hok as [Hok Hp]. apply andb_true_iff in Hok as [Hl Hd].
  apply bool_decide_eq_true in Hl, Hp. unfold get_year. rewrite len_sapp. unfold len. rewrite Hl.
  destruct (Z.ltb_spec (Z.of_nat 4 + Z.of_nat (String.length s)) 4); [lia|].
  rewrite <- Hl, stake_app_length, sdrop_app_length, Hd, Hp. done.
Qed.

Lemma lookup_month_name m s :
  1 <= m <= 12 -> lookup_month shortMonthNames 1 (month_name m +:+ s) = Some (m, s).
Proof.
  intros Hm. assert (forall a b c, 3 <=? len (String a (String b (String c s))) = true) as Hl.
  { intros a b c. apply Z.leb_le. unfold len. cbn [String.length]. lia. }
  assert (m = 1 \/ m = 2 \/ m = 3 \/ m = 4 \/ m = 5 \/ m = 6 \/ m = 7 \/ m = 8 \/ m = 9 \/ m = 10 \/
          m = 11 \/ m = 12) as Hc by lia.
  destruct Hc as [->|[->|[->|[->|[->|[->|[->|[->|[->|[->|[->| ->]]]]]]]]]]];
    match goal with |- context [month_name ?k] =>
      let n := eval vm_compute in (month_name k) in change (month_name k) with n end;
    rewrite !sapp_cons; cbn [lookup_month shortMonthNames]; rewrite !Hl; reflexivity.
Qed.

Lemma skip_blanks_two n s : 0 <= n < 100 ->
  skip_blanks (String " " (two_digits n +:+ s)) = Some (two_digits n +:+ s).
Proof.
  intros Hn. unfold skip_blanks. rewrite bool_decide_eq_true_2 by done. f_equal.
  unfold two_digits. rewrite !sapp_cons. cbn [trim_left].
  assert (is_sp " " = true) as -> by (by vm_compute).
  assert (0 <= n / 10 < 10) by (split; [apply Z.div_pos|apply Z.div_lt_upper_bound]; lia).
  pose proof (is_digit_byte_of (n / 10) ltac:(lia)) as Hd.
  unfold is_sp. rewrite bool_decide_eq_false_2; [done|]. intros Hc. rewrite Hc in Hd. by vm_compute in Hd.
Qed.

Lemma parse_datetime_parts y m d h mi :
  0 <= y < 10000 -> 1 <= m <= 12 -> 1 <= d <= days_in_month y m -> 0 <= h < 24 -> 0 <= mi < 60 ->
  parse_datetime (two_digits d +:+ String "-" (month_name m +:+ String "-" (format_year y +:+
                  String " " (two_digits h +:+ (two_digits mi +:+ "Z")))))
  = Some (days_from_civil y m d * day_ns + h * hour + mi * minute).
Proof.
  intros Hy Hm Hd Hh Hmi.
  assert (d < 100) by (unfold days_in_month in Hd; repeat case_match; lia).
  unfold parse_datetime. rewrite getnum_two by lia. cbn [mbind option_bind skip_byte].
  rewrite bool_decide_eq_true_2 by done. cbn [mbind option_bind].
  rewrite lookup_month_name by done. cbn [mbind option_bind skip_byte].
  rewrite bool_decide_eq_true_2 by done. cbn [mbind option_bind].
  rewrite get_year_format by done. cbn [mbind option_bind].
  rewrite skip_blanks_two by lia. cbn [mbind option_bind].
  rewrite getnum_two by lia. cbn [mbind option_bind].
  rewrite (proj2 (Z.ltb_lt h 24)) by lia. cbn [negb].
  rewrite getnum_two by lia. cbn [mbind option_bind].
  rewrite (proj2 (Z.ltb_lt mi 60)) by lia. cbn [negb skip_byte].
  rewrite bool_decide_eq_true_2 by done. cbn [mbind option_bind].
  rewrite bool_decide_eq_true_2 by done. cbn [negb].
  rewrite (proj2 (Z.ltb_ge d 1)), (proj2 (Z.ltb_ge (days_in_month y m) d)) by lia. done.
Qed.

(** [t] cut to the minute, when its year has four digits, survives the two layouts. *)
Lemma datetime_roundtrip t :
  (let '(y, _, _) := civil_from_days (t / day_ns) in 0 <= y < 10000) ->
  parse_datetime (format_date t +:+ String " " (format_1504Z t)) = Some (t - t mod minute).
Proof.
  unfold format_date, format_1504Z. destruct (civil_from_days (t / day_ns)) as [[y m] d] eqn:E. intros Hy.
  destruct (civil_spec _ _ _ _ E) as (Hd & Hm & Hdd).
  pose proof (Z.mod_pos_bound (t / hour) 24 ltac:(lia)).
  pose proof (Z.mod_pos_bound (t / minute) 60 ltac:(lia)).
  rewrite !sapp_assoc.
  etransitivity; [exact (parse_datetime_parts y m d _ _ Hy Hm Hdd H H0)|].
  f_equal. rewrite Hd. unfold day_ns, hour, minute, second in *.
  Z.to_euclidean_division_equations. lia.
Qed.

(** ** Reading a number with one decimal *)

Lemma digit_not_mark c : is_digit c = true -> c <> "_"%char /\ c <> "."%char /\ c <> "-"%char /\ c <> "+"%char.
Proof. intros H. repeat split; intros ->; by vm_compute in H. Qed.

Lemma read_mantissa_digits d s v v' frac digs under :
  parse_digits d v = Some v' ->
  read_mantissa false (d +:+ s) v frac false digs under
  = read_mantissa false s v' frac false (digs || negb (bool_decide (d = ""))) under.
Proof.
  revert v digs. induction d as [|c d IH]; intros v digs.
  - intros [= ->]. by rewrite orb_false_r.
  - rewrite sapp_cons. cbn [parse_digits read_mantissa]. destruct (is_digit c) eqn:Ec; [|done].
    destruct (digit_not_mark c Ec) as (H1 & H2 & _).
    rewrite (bool_decide_eq_false_2 _ H1), (bool_decide_eq_false_2 _ H2). unfold float_digit. rewrite Ec.
    intros H. rewrite (IH _ _ H). by rewrite orb_true_r.
Qed.

(** The tenths a value is printed with, and the value they stand for. *)
Definition tenths (x : Q) : Z := round_half_even (Z.abs (Qnum x) * 10) (Zpos (Qden x)).
Definition grid_value (x : Q) : Q := fl64 (Qred (inject_Z (tenths x) * Qpow10 (-1))).

(** [x] is the float64 next to a multiple of 0.1 (the 100 Hz grid of the spots). *)
Definition on_grid (x : Q) : Prop :=
  0 <= Qnum x /\ grid_value x = x /\ Qle_b (inject_Z (2 ^ 1024)) (Qabs x) = false.

#[global] Instance on_grid_dec x : Decision (on_grid x).
Proof.
  unfold on_grid. apply and_dec; [apply _|]. apply and_dec; [|apply _].
  destruct (grid_value x) as [n d], x as [n' d'].
  destruct (decide (n = n')) as [->|]; [|right; congruence].
  destruct (decide (d = d')) as [->|]; [left; done|right; congruence].
Defined.

Lemma tenths_nonneg x : 0 <= tenths x.
Proof.
  unfold tenths, round_half_even. cbv zeta.
  assert (0 <= Z.abs (Qnum x) * 10 / Zpos (Qden x)) by (apply Z.div_pos; lia).
  repeat case_match; lia.
Qed.

Lemma read_float_format x :
  0 <= Qnum x -> read_float (FormatFloat1 x) = Some (inject_Z (tenths x) * Qpow10 (-1))%Q.
Proof.
  intros Hx. unfold FormatFloat1. fold (tenths x). pose proof (tenths_nonneg x) as Ht.
  rewrite (proj2 (Z.ltb_ge (Qnum x) 0)) by lia.
  assert (0 <= tenths x / 10) as Hq by (apply Z.div_pos; lia).
  pose proof (Z.mod_pos_bound (tenths x) 10 ltac:(lia)) as Hr.
  destruct (digits_spec (tenths x / 10) Hq) as [Hne Hp].
  assert (digits (tenths x mod 10) = String (byte_of (48 + tenths x mod 10)) "") as Hd.
  { unfold digits. cbn [digits_fuel]. rewrite Z.mod_mod by lia.
    rewrite (proj2 (Z.ltb_lt (tenths x mod 10) 10)) by lia. done. }
  rewrite Hd. set (d := digits (tenths x / 10)) in *. set (dec := byte_of (48 + tenths x mod 10)).
  assert (is_digit dec = true) as Hdec by (apply is_digit_byte_of; lia).
  destruct d as [|c d'] eqn:Ed; [done|]. pose proof (parse_digits_head _ _ _ _ Hp) as [Hc1 Hc2].
  unfold read_float. rewrite sapp_cons.
  rewrite (bool_decide_eq_false_2 _ Hc1), (bool_decide_eq_false_2 _ Hc2).
  assert (forall t : string, match String c (d' +:+ String "." (String dec "")) with
    | String c0 (String c1 t0) =>
        if bool_decide (c0 = "0"%char) && lower_is c1 "x" && negb (bool_decide (t0 = ""))
        then (true, t0) else (false, String c (d' +:+ String "." (String dec "")))
    | _ => (false, String c (d' +:+ String "." (String dec "")))
    end = (false, String c (d' +:+ String "." (String dec "")))) as Hhex.
  { intros _. destruct d' as [|c1 d''].
    - change ("" +:+ String "." (String dec "")) with (String "." (String dec "")).
      cbv beta iota. assert (lower_is "." "x" = false) as -> by (by vm_compute). by rewrite andb_false_r.
    - rewrite sapp_cons. cbv beta iota. cbn [parse_digits] in Hp. destruct (is_digit c); [|done].
      destruct (is_digit c1) eqn:E1; [|done].
      assert (lower_is c1 "x" = false) as ->; [|by rewrite andb_false_r].
      revert E1. clear. revert c1. all_bytes. }
  change ("." +:+ String dec "") with (String "." (String dec "")).
  rewrite (Hhex ""). clear Hhex. cbv zeta. rewrite <- sapp_cons.
  rewrite (read_mantissa_digits _ _ _ _ _ _ _ Hp). cbn [read_mantissa].
  rewrite (bool_decide_eq_false_2 ("."%char = "_"%char)) by done.
  rewrite (bool_decide_eq_true_2 ("."%char = "."%char)) by done.
  destruct (digit_not_mark dec Hdec) as (H1 & H2 & _).
  rewrite (bool_decide_eq_false_2 _ H1), (bool_decide_eq_false_2 _ H2).
  unfold float_digit. rewrite Hdec. cbn [mt_digits mt_rest mt_under mt_value mt_frac negb].
  rewrite bool_decide_eq_true_2 by done. cbn [negb andb].
  unfold dec. rewrite byte_val_of by lia. pose proof (Z.div_mod (tenths x) 10).
  replace (tenths x / 10 * 10 + (48 + tenths x mod 10 - 48)) with (tenths x) by lia. done.
Qed.

Lemma float_special_digit c s : is_digit c = true -> float_special (String c s) = false.
Proof.
  intros Hc. unfold float_special. destruct (digit_not_mark c Hc) as (_ & _ & H1 & H2).
  rewrite (bool_decide_eq_false_2 _ H1), (bool_decide_eq_false_2 _ H2). cbn [orb].
  assert (lower_byte c = c) as Hl by (revert Hc; clear; revert c; all_bytes).
  unfold ToLower. cbn [smap]. rewrite Hl.
  assert (forall d t, is_digit d = false -> String c (smap lower_byte s) <> String d t) as Hne.
  { intros d t Hd [= -> _]. congruence. }
  rewrite !bool_decide_eq_false_2; [done|by apply Hne|].
  rewrite elem_of_cons, list_elem_of_singleton. intros [H|H]; by apply Hne in H.
Qed.

Lemma ParseFloat_on_grid x : on_grid x -> ParseFloat (FormatFloat1 x) = FloatVal x.
Proof.
  intros (Hx & Hg & Hlt). unfold ParseFloat. rewrite read_float_format by done.
  assert (float_special (FormatFloat1 x) = false) as ->.
  { unfold FormatFloat1. fold (tenths x). rewrite (proj2 (Z.ltb_ge (Qnum x) 0)) by lia.
    pose proof (tenths_nonneg x). destruct (digits_spec (tenths x / 10)) as [Hne Hp]; [apply Z.div_pos; lia|].
    destruct (digits (tenths x / 10)) as [|c d]; [done|]. rewrite sapp_cons. apply float_special_digit.
    cbn [parse_digits] in Hp. by destruct (is_digit c). }
  cbv zeta. fold (grid_value x). by rewrite Hg, Hlt.
Qed.
