(* ===== verification/PeerFrame.v ===== *)
(** * PeerFrame: the wire format of the peering protocol

    [peer/protocol.go]: stripping telnet negotiation from a byte stream, and the
    caret-separated PC frames with their hop marker.  Byte slices are strings.

    A frame that is forwarded is encoded with its hop count lowered and parsed again
    by the next node; [forward_hop] gives the hop the next node sees, so a frame
    dies after as many nodes as its hop count ([relay_terminates]). *)

From S2P Require Import Prelude GoText GoNum.

Local Open Scope string_scope.
Local Open Scope list_scope.
Local Open Scope Z_scope.

(** ** Telnet negotiation *)

Definition telnetIAC : ascii := byte_of 255.
Definition telnetDONT : ascii := byte_of 254.
Definition telnetDO : ascii := byte_of 253.
Definition telnetWONT : ascii := byte_of 252.
Definition telnetWILL : ascii := byte_of 251.
Definition telnetSB : ascii := byte_of 250.
Definition telnetSE : ascii := byte_of 240.

Definition three_bytes (a b c : ascii) : string := String a (String b (String c "")).

(** The loop of [Feed]; the flags are its local variables. *)
Fixpoint feed (inIAC inSB : bool) (input : string) : string * list string :=
  match input with
  | "" => ("", [])
  | String b rest =>
      if inIAC then
        if bool_decide (b = telnetSB) then feed false true rest
        else if bool_decide (b = telnetSE) then feed false false rest
        else if bool_decide (b = telnetDO) then
          match rest with
          | String x rest' =>
              let '(out, replies) := feed false inSB rest' in
              (out, three_bytes telnetIAC telnetWONT x :: replies)
          | "" => ("", [])
          end
        else if bool_decide (b = telnetWILL) then
          match rest with
          | String x rest' =>
              let '(out, replies) := feed false inSB rest' in
              (out, three_bytes telnetIAC telnetDONT x :: replies)
          | "" => ("", [])
          end
        else if bool_decide (b = telnetIAC) then
          let '(out, replies) := feed false inSB rest in (String telnetIAC out, replies)
        else feed false inSB rest
      else if bool_decide (b = telnetIAC) then feed true inSB rest
      else if inSB then feed false inSB rest
      else let '(out, replies) := feed false inSB rest in (String b out, replies)
  end.

Definition Feed (input : string) : string * list string := feed false false input.

(** ** Frames *)

Record Frame := mkFrame { f_Type : string; f_Fields : list string; f_Hop : Z; f_Raw : string }.

#[global] Instance Frame_eq_dec : EqDecision Frame.
Proof. solve_decision. Defined.

Definition hop_prefix (token : string) : bool := HasPrefix token "H" || HasPrefix token "h".

(** The hop loop, from the last part to the first ([parts] reversed). *)
Fixpoint find_hop (parts : list string) : Z :=
  match parts with
  | [] => 0
  | p :: rest =>
      let token := TrimSpace p in
      if hop_prefix token then default 0 (Atoi (TrimPrefix (TrimPrefix token "H") "h"))
      else find_hop rest
  end.

(** [ParseFrame]; [None] is the error for an empty line. *)
Definition ParseFrame (line : string) : option Frame :=
  let raw := TrimSpace line in
  if bool_decide (raw = "") then None
  else
    let raw := if HasSuffix raw "~" then TrimSuffix raw "~" else raw in
    let parts := split_byte "^" raw in
    Some (mkFrame (ToUpper (TrimSpace (default "" (head parts)))) (tail parts)
                  (find_hop (rev parts)) line).

Definition Encode (f : Frame) (hop : Z) : string :=
  let out := f_Type f +:+ "^" +:+ Join (f_Fields f) "^" in
  if 0 <? hop then
    let out := if negb (HasSuffix out "^") then out +:+ "^" else out in
    out +:+ "H" +:+ Itoa hop +:+ "^"
  else out.

Definition payloadFields (f : Frame) : list string :=
  match last (f_Fields f) with
  | Some l => if hop_prefix (TrimSpace l) then removelast (f_Fields f) else f_Fields f
  | None => f_Fields f
  end.

(** ** What a telnet stream means *)

(** The elements of a well-formed stream: data, the escaped 255, the two requests
    and a subnegotiation. *)
Inductive telnet_item :=
  | TData (b : ascii)
  | TEscaped
  | TDo (opt : ascii)
  | TWill (opt : ascii)
  | TSub (payload : string).

Definition item_bytes (i : telnet_item) : string :=
  match i with
  | TData b => String b ""
  | TEscaped => String telnetIAC (String telnetIAC "")
  | TDo x => three_bytes telnetIAC telnetDO x
  | TWill x => three_bytes telnetIAC telnetWILL x
  | TSub p => String telnetIAC (String telnetSB (p +:+ String telnetIAC (String telnetSE "")))
  end.

Definition item_data (i : telnet_item) : string :=
  match i with TData b => String b "" | TEscaped => String telnetIAC "" | _ => "" end.

Definition item_reply (i : telnet_item) : list string :=
  match i with
  | TDo x => [three_bytes telnetIAC telnetWONT x]
  | TWill x => [three_bytes telnetIAC telnetDONT x]
  | _ => []
  end.

Definition item_ok (i : telnet_item) : bool :=
  match i with
  | TData b => negb (bool_decide (b = telnetIAC))
  | TSub p => no_byte telnetIAC p
  | _ => true
  end.

Fixpoint stream_bytes (l : list telnet_item) : string :=
  match l with [] => "" | i :: l' => item_bytes i +:+ stream_bytes l' end.

Fixpoint stream_data (l : list telnet_item) : string :=
  match l with [] => "" | i :: l' => item_data i +:+ stream_data l' end.

Definition stream_replies (l : list telnet_item) : list string := flat_map item_reply l.

Lemma feed_sub p rest :
  no_byte telnetIAC p = true ->
  feed false true (p +:+ String telnetIAC (String telnetSE rest)) = feed false false rest.
Proof.
  induction p as [|c p IH]; intros Hp.
  - reflexivity.
  - unfold no_byte in Hp. cbn [sforall] in Hp. apply andb_true_iff in Hp as [Hc Hp].
    rewrite sapp_cons. cbn [feed].
    destruct (bool_decide (c = telnetIAC)); [done|]. by apply IH.
Qed.

Lemma feed_item i rest :
  item_ok i = true ->
  feed false false (item_bytes i +:+ rest)
  = let '(out, replies) := feed false false rest in (item_data i +:+ out, item_reply i ++ replies).
Proof.
  intros Hi. destruct i as [b| |x|x|p]; cbn [item_bytes item_data item_reply item_ok] in *.
  - rewrite sapp_cons. cbn [feed]. change ("" +:+ rest) with rest.
    destruct (bool_decide (b = telnetIAC)); [done|]. by destruct (feed false false rest).
  - change (String telnetIAC (String telnetIAC "") +:+ rest) with (String telnetIAC (String telnetIAC rest)).
    cbn [feed]. rewrite !(bool_decide_eq_true_2 (telnetIAC = telnetIAC)) by done.
    rewrite !bool_decide_eq_false_2 by (by vm_compute). by destruct (feed false false rest).
  - change (three_bytes telnetIAC telnetDO x +:+ rest) with (String telnetIAC (String telnetDO (String x rest))).
    cbn [feed]. rewrite (bool_decide_eq_true_2 (telnetIAC = telnetIAC)) by done.
    rewrite (bool_decide_eq_true_2 (telnetDO = telnetDO)) by done.
    rewrite !bool_decide_eq_false_2 by (by vm_compute). by destruct (feed false false rest).
  - change (three_bytes telnetIAC telnetWILL x +:+ rest) with (String telnetIAC (String telnetWILL (String x rest))).
    cbn [feed]. rewrite (bool_decide_eq_true_2 (telnetIAC = telnetIAC)) by done.
    rewrite (bool_decide_eq_true_2 (telnetWILL = telnetWILL)) by done.
    rewrite !bool_decide_eq_false_2 by (by vm_compute). by destruct (feed false false rest).
  - rewrite !sapp_cons, sapp_assoc. cbn [feed].
    rewrite (bool_decide_eq_true_2 (telnetIAC = telnetIAC)) by done.
    rewrite (bool_decide_eq_true_2 (telnetSB = telnetSB)) by done.
    change (String telnetIAC (String telnetSE "") +:+ rest) with (String telnetIAC (String telnetSE rest)).
    rewrite feed_sub by done. by destruct (feed false false rest).
Qed.

(** The telnet parser separates a well-formed stream: the output is the data
    with escapes undone and subnegotiations removed, and every DO and WILL is
    answered in order by the matching refusal. *)
Theorem Feed_decodes items :
  forallb item_ok items = true ->
  Feed (stream_bytes items) = (stream_data items, stream_replies items).
Proof.
  unfold Feed. induction items as [|i items IH]; intros H; [done|].
  cbn [forallb] in H. apply andb_true_iff in H as [Hi Hr].
  cbn [stream_bytes stream_data]. rewrite feed_item, IH by done. done.
Qed.

Lemma Feed_decodes_witness :
  Feed (stream_bytes [TData "P"; TDo "024"; TSub "abc"; TData "C"; TEscaped])
  = (stream_data [TData "P"; TDo "024"; TSub "abc"; TData "C"; TEscaped],
     stream_replies [TData "P"; TDo "024"; TSub "abc"; TData "C"; TEscaped]).
Proof. apply Feed_decodes. by vm_compute. Defined.

(** Two telnet inputs that are not stripped although the parser is documented to
    strip negotiation: the option byte of a WONT or DONT is passed on as text, and a
    request cut between two reads leaks its last two bytes and gets no answer, because
    [Feed] keeps no state between calls. *)
Theorem Feed_leaks (opt : ascii) :
  opt <> telnetIAC ->
  Feed (three_bytes telnetIAC telnetWONT opt) = (String opt "", []) /\
  Feed (three_bytes telnetIAC telnetDONT opt) = (String opt "", []) /\
  Feed (String telnetIAC "") = ("", []) /\
  Feed (String telnetDO (String opt "")) = (String telnetDO (String opt ""), []).
Proof.
  intros Ho. unfold Feed, three_bytes.
  split_and!; cbn [feed]; rewrite ?(bool_decide_eq_true_2 (telnetIAC = telnetIAC)) by done;
    rewrite ?(bool_decide_eq_false_2 (opt = telnetIAC)) by done;
    rewrite ?bool_decide_eq_false_2 by (by vm_compute); reflexivity.
Qed.

Lemma Feed_leaks_witness :
  Feed (three_bytes telnetIAC telnetWONT "001") = (String "001" "", []) /\
  Feed (three_bytes telnetIAC telnetDONT "001") = (String "001" "", []) /\
  Feed (String telnetIAC "") = ("", []) /\
  Feed (String telnetDO (String "001" "")) = (String telnetDO (String "001" ""), []).
Proof. apply (Feed_leaks "001"). intros H. vm_compute in H. discriminate H. Defined.

(** ** Frames: parse and encode *)

Definition wf_frame (f : Frame) : Prop :=
  no_byte "^" (f_Type f) = true /\ TrimSpace (f_Type f) = f_Type f /\ ToUpper (f_Type f) = f_Type f /\
  Forall (fun w => no_byte "^" w = true) (f_Fields f).

Lemma ParseFrame_wf line f : ParseFrame line = Some f -> wf_frame f.
Proof.
  unfold ParseFrame. case_bool_decide; [done|].
  set (raw := if HasSuffix _ _ then _ else _). intros [= <-].
  pose proof (split_no_byte "^" raw) as Hall. pose proof (split_byte_ne "^" raw) as Hne.
  destruct (split_byte "^" raw) as [|t ts]; [done|]. inversion Hall as [|?? Ht Hts]; subst.
  unfold wf_frame. cbn [f_Type f_Fields head tail default].
  split_and!; [|by rewrite TrimSpace_ToUpper, TrimSpace_idemp|apply ToUpper_idemp|done].
  rewrite no_caret_upper. by apply no_byte_TrimSpace.
Qed.

(** The fields of a frame on the wire, once a hop marker has been added. *)
Definition hop_marker (hop : Z) : string := "H" +:+ Itoa hop.

Definition open_fields (f : Frame) : list string :=
  match last (f_Fields f) with
  | Some l => if bool_decide (l = "") then removelast (f_Fields f) else f_Fields f
  | None => []
  end.

(** The text before the marker: type and fields, closed by a caret. *)
Lemma Encode_text f hop :
  wf_frame f -> 0 < hop ->
  Encode f hop = Join (f_Type f :: open_fields f ++ [hop_marker hop; ""]) "^".
Proof.
  intros (_ & _ & _ & Hall) Hh. unfold Encode. rewrite (proj2 (Z.ltb_lt 0 hop)) by done. cbv zeta.
  unfold open_fields, hop_marker.
  assert (forall l, Join (f_Type f :: l ++ ["H" +:+ Itoa hop; ""]) "^"
          = Join (f_Type f :: l) "^" +:+ "^" +:+ "H" +:+ Itoa hop +:+ "^") as Hj.
  { intros l. replace (f_Type f :: l ++ ["H" +:+ Itoa hop; ""])
      with (((f_Type f :: l) ++ ["H" +:+ Itoa hop]) ++ [""]) by (simpl; by rewrite <- app_assoc).
    rewrite Join_snoc by (by destruct l). rewrite Join_snoc by done.
    by rewrite !sapp_assoc, sapp_nil_r. }
  rewrite Hj. destruct (f_Fields f) as [|w ws _] using rev_ind.
  - cbn [last Join]. rewrite sapp_nil_r, HasSuffix_snoc, bool_decide_eq_true_2 by done.
    cbn [negb]. by rewrite !sapp_assoc.
  - rewrite last_snoc, removelast_last.
    apply Forall_app in Hall as [_ Hw]. rewrite Forall_singleton in Hw.
    assert (f_Type f +:+ "^" +:+ Join (ws ++ [w]) "^" = Join (f_Type f :: ws) "^" +:+ "^" +:+ w) as ->.
    { rewrite <- Join_snoc by done. by destruct ws. }
    case_bool_decide as Hwe.
    + subst w. rewrite sapp_nil_r, HasSuffix_snoc, bool_decide_eq_true_2 by done. cbn [negb].
      by rewrite !sapp_assoc.
    + assert (HasSuffix (Join (f_Type f :: ws) "^" +:+ "^" +:+ w) "^" = false) as ->.
      { rewrite <- sapp_assoc. by apply no_byte_suffix. }
      cbn [negb]. rewrite !sapp_assoc.
      assert (Join (f_Type f :: ws ++ [w]) "^" = Join (f_Type f :: ws) "^" +:+ ("^" +:+ w)) as ->.
      { change (f_Type f :: ws ++ [w]) with ((f_Type f :: ws) ++ [w]). by rewrite Join_snoc. }
      by rewrite !sapp_assoc.
Qed.

Lemma parse_digits_all s acc n : parse_digits s acc = Some n -> sforall is_digit s = true.
Proof.
  revert acc. induction s as [|c s IH]; intros acc; cbn [parse_digits sforall]; [done|].
  destruct (is_digit c); [|done]. intros H. by apply IH in H.
Qed.

Lemma digits_text s : sforall is_digit s = true ->
  no_byte "^" s = true /\ TrimSpace s = s /\ HasPrefix s "h" = false.
Proof.
  intros Hs. assert (forall c, is_digit c = true -> c <> "^"%char /\ is_space c = false /\ c <> "h"%char) as Hc.
  { intros c H. split_and!; [intros ->; by vm_compute in H| |intros ->; by vm_compute in H].
    revert H. revert c. all_bytes. }
  split_and!.
  - unfold no_byte. induction s as [|c s IH]; [done|]. cbn [sforall] in *.
    apply andb_true_iff in Hs as [Hd Hs]. rewrite (IH Hs), bool_decide_eq_false_2; [done|by apply Hc].
  - unfold TrimSpace. assert (trim_left is_space s = s) as ->.
    { destruct s as [|c s]; [done|]. cbn [sforall trim_left] in *. apply andb_true_iff in Hs as [Hd _].
      by rewrite (proj1 (proj2 (Hc c Hd))). }
    induction s as [|c s IH]; [done|]. cbn [sforall trim_right] in *.
    apply andb_true_iff in Hs as [Hd Hs]. rewrite (IH Hs).
    destruct s; [by rewrite (proj1 (proj2 (Hc c Hd)))|done].
  - destruct s as [|c s]; [done|]. cbn [sforall HasPrefix] in *. apply andb_true_iff in Hs as [Hd _].
    by rewrite (bool_decide_eq_false_2 _ (not_eq_sym (proj2 (proj2 (Hc c Hd))))).
Qed.

Lemma Itoa_digits hop : 0 < hop -> sforall is_digit (Itoa hop) = true.
Proof.
  intros H. unfold Itoa. rewrite (proj2 (Z.ltb_ge hop 0)) by lia.
  destruct (digits_spec hop) as [_ Hp]; [lia|]. by apply parse_digits_all in Hp.
Qed.

Lemma hop_marker_text hop : 0 < hop <= max_int64 ->
  no_byte "^" (hop_marker hop) = true /\ TrimSpace (hop_marker hop) = hop_marker hop /\
  hop_prefix (hop_marker hop) = true /\
  Atoi (TrimPrefix (TrimPrefix (hop_marker hop) "H") "h") = Some hop.
Proof.
  intros Hh. pose proof (Itoa_digits hop ltac:(lia)) as Hd.
  destruct (digits_text _ Hd) as (H1 & H2 & H3). unfold hop_marker. split_and!.
  - by rewrite no_byte_app, H1.
  - change ("H" +:+ Itoa hop) with (String "H" (Itoa hop)). unfold TrimSpace. cbn [trim_left trim_right].
    assert (is_space "H" = false) as -> by (by vm_compute). cbn [trim_right].
    unfold TrimSpace in H2. assert (trim_left is_space (Itoa hop) = Itoa hop) as Hl.
    { pose proof (length_trim_right is_space (trim_left is_space (Itoa hop))) as L1.
      pose proof (length_trim_left is_space (Itoa hop)) as L2. rewrite H2 in L1.
      destruct (trim_left_split is_space (Itoa hop)) as (a & Ha & _).
      apply (f_equal String.length) in Ha as Hla. rewrite length_sapp in Hla.
      destruct a; simpl in Hla; [done|lia]. }
    rewrite Hl in H2. rewrite H2. by destruct (Itoa hop).
  - done.
  - rewrite TrimPrefix_app. unfold TrimPrefix. rewrite H3. apply Atoi_Itoa.
    unfold min_int64 in *. lia.
Qed.

Lemma trimmed_head c s : TrimSpace (String c s) = String c s -> is_space c = false.
Proof.
  intros H. destruct (is_space c) eqn:E; [|done]. exfalso.
  apply (f_equal String.length) in H. unfold TrimSpace in H. cbn [trim_left] in H. rewrite E in H.
  pose proof (length_trim_right is_space (trim_left is_space s)).
  pose proof (length_trim_left is_space s). simpl in H. lia.
Qed.

(** A line of parts that ends with a hop marker and a caret is read back. *)
Lemma ParseFrame_Join ty fields hop :
  no_byte "^" ty = true -> TrimSpace ty = ty -> ToUpper ty = ty ->
  Forall (fun w => no_byte "^" w = true) fields -> 0 < hop <= max_int64 ->
  let line := Join (ty :: fields ++ [hop_marker hop; ""]) "^" in
  ParseFrame line = Some (mkFrame ty (fields ++ [hop_marker hop; ""]) hop line).
Proof.
  intros Hn Htr Hup Hall Hh line. destruct (hop_marker_text hop Hh) as (M1 & M2 & M3 & M4).
  set (parts := ty :: fields ++ [hop_marker hop; ""]) in line.
  assert (Forall (fun w => no_byte "^" w = true) parts) as Hparts.
  { unfold parts. constructor; [done|]. apply Forall_app. split; [done|by repeat constructor]. }
  assert (exists x, line = x +:+ "^") as [x Hx].
  { exists (Join (ty :: fields ++ [hop_marker hop]) "^"). unfold line, parts.
    replace (ty :: fields ++ [hop_marker hop; ""])
      with ((ty :: fields ++ [hop_marker hop]) ++ [""]) by (simpl; by rewrite <- app_assoc).
    rewrite Join_snoc by done. by rewrite sapp_nil_r. }
  assert (TrimSpace line = line) as Hts.
  { unfold TrimSpace. assert (trim_left is_space line = line) as ->.
    { unfold line, parts. destruct (fields ++ [hop_marker hop; ""]) as [|y ys] eqn:Eo; [by destruct fields|].
      change (Join (ty :: y :: ys) "^") with (ty +:+ String "^" (Join (y :: ys) "^")).
      destruct ty as [|c t]; [done|]. rewrite sapp_cons. cbn [trim_left].
      by rewrite (trimmed_head c t). }
    rewrite Hx. rewrite <- (sapp_nil_r (x +:+ "^")) at 1.
    rewrite trim_right_app_hard by (by vm_compute). apply sapp_nil_r. }
  unfold ParseFrame. rewrite Hts. rewrite bool_decide_eq_false_2 by (rewrite Hx; by destruct x).
  cbv zeta. replace (HasSuffix line "~") with false by (by rewrite Hx, HasSuffix_snoc).
  assert (split_byte "^" line = parts) as -> by (by apply split_Join).
  unfold parts. cbn [head tail from_option id]. rewrite Htr, Hup. do 2 f_equal.
  cbn [rev]. rewrite rev_app_distr. cbn [rev app find_hop].
  assert (hop_prefix (TrimSpace "") = false) as -> by (by vm_compute).
  by rewrite M2, M3, M4.
Qed.

Lemma ParseFrame_Encode f hop :
  wf_frame f -> 0 < hop <= max_int64 ->
  ParseFrame (Encode f hop) =
    Some (mkFrame (f_Type f) (open_fields f ++ [hop_marker hop; ""]) hop (Encode f hop)).
Proof.
  intros Hwf Hh. rewrite (Encode_text f hop Hwf) by lia. destruct Hwf as (Hn & Htr & Hup & Hall).
  apply ParseFrame_Join; try done. unfold open_fields.
  destruct (f_Fields f) as [|w ws _] using rev_ind; [constructor|].
  rewrite last_snoc, removelast_last. apply Forall_app in Hall as [Hws Hw].
  case_bool_decide; [done|]. by apply Forall_app.
Qed.

(** ** Relaying *)

(** What the next node reads when a frame is forwarded with its hop lowered; frames
    with hop 1 or less are not forwarded ([Manager.HandleFrame]). *)
Definition next_node (f : Frame) : option Frame :=
  if 1 <? f_Hop f then ParseFrame (Encode f (f_Hop f - 1)) else None.

Fixpoint relay (fuel : nat) (f : Frame) : list Frame :=
  match fuel with
  | O => []
  | S k => match next_node f with Some f' => f' :: relay k f' | None => [] end
  end.

(** C38: A frame read from the wire and forwarded from node to node, even around a
    loop of peers that never recognise it, is sent exactly one time less than its
    hop count, each node reading the hop one lower; with enough fuel the chain of
    nodes does not depend on the fuel. *)
Theorem relay_terminates line f fuel :
  ParseFrame line = Some f -> f_Hop f <= max_int64 -> (Z.to_nat (f_Hop f) <= fuel)%nat ->
  length (relay fuel f) = Z.to_nat (f_Hop f - 1) /\
  forall i g, relay fuel f !! i = Some g -> f_Hop g = f_Hop f - 1 - Z.of_nat i /\ f_Type g = f_Type f.
Proof.
  intros Hp%ParseFrame_wf. revert f Hp. induction fuel as [|k IH]; intros f Hwf Hmax Hfuel.
  - cbn [relay length]. split; [lia|]. intros i g Hi. by rewrite lookup_nil in Hi.
  - cbn [relay]. unfold next_node. destruct (Z.ltb_spec 1 (f_Hop f)).
    + rewrite (ParseFrame_Encode f (f_Hop f - 1) Hwf) by lia. set (g0 := mkFrame _ _ _ _).
      destruct (IH g0) as [IHl IHi].
      * apply (ParseFrame_wf (Encode f (f_Hop f - 1))). rewrite (ParseFrame_Encode f); [done|done|lia].
      * cbn [f_Hop g0]. lia.
      * cbn [f_Hop g0]. lia.
      * cbn [length]. rewrite IHl. cbn [f_Hop g0]. split; [lia|].
        intros [|i] g Hg; cbn [lookup list_lookup] in Hg.
        { injection Hg as <-. cbn [f_Hop f_Type g0]. split; [lia|done]. }
        apply IHi in Hg as [H1 H2]. cbn [f_Hop f_Type g0] in *. rewrite H1, H2. split; [lia|done].
    + cbn [length]. split; [lia|]. intros i g Hi. by rewrite lookup_nil in Hi.
Qed.

Lemma relay_terminates_witness :
  exists f, ParseFrame "PC92^W3LPL^123^A^^5W3LPL:5457^H4^" = Some f /\
    length (relay 10 f) = Z.to_nat (f_Hop f - 1).
Proof.
  eexists. split; [reflexivity|].
  apply (relay_terminates "PC92^W3LPL^123^A^^5W3LPL:5457^H4^" _ 10); [reflexivity| |]; vm_compute;
    [intros H; discriminate H|]. lia.
Defined.

(** A forwarded frame keeps the hop marker it arrived with and gains another. *)
Example forward_keeps_old_marker :
  (fun f => Encode f (f_Hop f - 1)) <$> ParseFrame "PC92^W3LPL^123^A^^5W3LPL:5457^H4^"
  = Some "PC92^W3LPL^123^A^^5W3LPL:5457^H4^H3^".
Proof. by vm_compute. Qed.
