(* ===== verification/PeerReader.v ===== *)
(** * PeerReader: lines and frames from a byte stream

    [peer/reader.go].  The connection is a list of reads, each the bytes one call of
    [readFn] delivers (at most 4096) and whether it also reported an error;
    [ReadLine] consumes as many as it needs and stops with [None] when it would
    block.  The resynchronisation branch of [tryReadLine] is kept, with fuel;
    [resync_dead] shows it is never taken, so its loop runs once. *)

From S2P Require Import Prelude GoText GoNum PeerFrame.

Local Open Scope string_scope.
Local Open Scope list_scope.
Local Open Scope Z_scope.

Record lineReader := mkReader {
  buf : string;
  dropping : bool;
  maxLine : Z;
  pc92Max : Z;
  has_parser : bool            (** false when the transport already strips telnet *)
}.

Definition with_buf (b : string) (r : lineReader) : lineReader :=
  mkReader b (dropping r) (maxLine r) (pc92Max r) (has_parser r).

Definition with_dropping (b : bool) (r : lineReader) : lineReader :=
  mkReader (buf r) b (maxLine r) (pc92Max r) (has_parser r).

Definition newLineReader (maxLine pc92Max : Z) (parser : bool) : lineReader :=
  mkReader "" false maxLine pc92Max parser.

Definition LF : ascii := byte_of 10.
Definition CR : ascii := byte_of 13.

Definition isTerminator (b : ascii) : bool :=
  bool_decide (b = LF) || bool_decide (b = CR) || bool_decide (b = "~"%char).

Definition trimLine (b : string) : string :=
  trim_right (fun c => bool_decide (c = LF) || bool_decide (c = CR)) b.

Definition trimLeadingTerminators (b : string) : string := trim_left isTerminator b.

(** Index and width of the first terminator. *)
Fixpoint bytesIndexTerminator (b : string) : option (nat * nat) :=
  match b with
  | "" => None
  | String c rest =>
      if bool_decide (c = "~"%char) then Some (0, 1)%nat
      else if bool_decide (c = LF) then Some (0, 1)%nat
      else if bool_decide (c = CR) then
        match rest with
        | String d _ => if bool_decide (d = LF) then Some (0, 2)%nat else Some (0, 1)%nat
        | "" => Some (0, 1)%nat
        end
      else (fun '(i, n) => (S i, n)) <$> bytesIndexTerminator rest
  end.

Definition isFrameStart (b : string) : bool :=
  match b with
  | String p (String c (String d1 (String d2 (String k _)))) =>
      bool_decide (p = "P"%char) && bool_decide (c = "C"%char) && is_digit d1 && is_digit d2
      && bool_decide (k = "^"%char)
  | _ => false
  end.

(** [bytesIndexFrameStart] from index 1 on: a start right after a terminator. *)
Fixpoint frame_start_after (b : string) (i : nat) : option nat :=
  match b with
  | "" => None
  | String c rest =>
      if isTerminator c && isFrameStart rest then Some (S i)
      else frame_start_after rest (S i)
  end.

Definition bytesIndexFrameStart (b : string) : option nat :=
  if isFrameStart b then Some 0%nat else frame_start_after b 0.

Definition frameTypeFromBuffer (b : string) : string := if isFrameStart b then stake 4 b else "".

Inductive try_result :=
  | NotReady
  | GotLine (line : string)
  | TooLong (preview : string) (length : Z).

Fixpoint tryReadLine (fuel : nat) (r : lineReader) : try_result * lineReader :=
  let r := with_buf (trimLeadingTerminators (buf r)) r in
  let b := buf r in
  if bool_decide (b = "") then (NotReady, r)
  else
    match bytesIndexTerminator b with
    | Some (idx, size) =>
        let rest := with_buf (sdrop (idx + size) b) r in
        if (0 <? pc92Max r) && (pc92Max r <? Z.of_nat idx) && bool_decide (frameTypeFromBuffer b = "PC92")
        then (TooLong (stake idx b) (Z.of_nat idx), rest)
        else (GotLine (trimLine (stake idx b)), rest)
    | None =>
        match bytesIndexFrameStart b with
        | Some (S start) =>
            match fuel with
            | O => (NotReady, r)
            | S k => tryReadLine k (with_buf (sdrop (S start) b) r)
            end
        | _ =>
            if (0 <? pc92Max r) && (pc92Max r <? len b) && bool_decide (frameTypeFromBuffer b = "PC92")
            then (TooLong b (len b), with_dropping true (with_buf "" r))
            else if (maxLine r <? len b) && (0 <? maxLine r)
            then (TooLong b (len b), with_buf "" r)
            else (NotReady, r)
        end
    end.

(** One successful read of the loop in [ReadLine]: telnet filtering, then either
    looking for the end of a dropped frame or appending. *)
Definition absorb (r : lineReader) (data : string) : lineReader * list string :=
  if bool_decide (data = "") then (r, [])
  else
    let '(data, replies) := if has_parser r then Feed data else (data, []) in
    if dropping r then
      match bytesIndexTerminator data with
      | Some (idx, size) => (with_dropping false (with_buf (sdrop (idx + size) data) r), replies)
      | None => (r, replies)
      end
    else (with_buf (buf r +:+ data) r, replies).

Inductive read_event := ELine (line : string) | ETooLong (preview : string) (length : Z) | EError.

(** The resynchronisation loop gets as much fuel as the buffer has bytes. *)
Definition try_line (r : lineReader) : try_result * lineReader := tryReadLine (String.length (buf r)) r.

Fixpoint ReadLine (r : lineReader) (reads : list (string * bool))
    : option read_event * lineReader * list (string * bool) * list string :=
  let '(t, r) := if dropping r then (NotReady, r) else try_line r in
  match t with
  | GotLine line => (Some (ELine line), r, reads, [])
  | TooLong p n => (Some (ETooLong p n), r, reads, [])
  | NotReady =>
      match reads with
      | [] => (None, r, [], [])
      | (data, err) :: reads' =>
          let '(r, replies) := absorb r data in
          if err : bool then (Some EError, r, reads', replies)
          else let '(e, r, rest, replies') := ReadLine r reads' in (e, r, rest, replies ++ replies')
      end
  end.

(** The callers' loop: events until the connection would block. *)
Fixpoint read_events (fuel : nat) (r : lineReader) (reads : list (string * bool))
    : list read_event * lineReader :=
  match fuel with
  | O => ([], r)
  | S k =>
      let '(e, r, reads, _) := ReadLine r reads in
      match e with
      | None => ([], r)
      | Some e => let '(l, r) := read_events k r reads in (e :: l, r)
      end
  end.

(** ** Terminators *)

Lemma terminator_none b : bytesIndexTerminator b = None <-> sforall (fun c => negb (isTerminator c)) b = true.
Proof.
  induction b as [|c b IH]; cbn [bytesIndexTerminator sforall]; [done|]. unfold isTerminator at 1.
  destruct (bool_decide (c = "~"%char)); [rewrite orb_true_r; by split|].
  destruct (bool_decide (c = LF)); [by split|]. destruct (bool_decide (c = CR)); [by repeat case_match|].
  simpl. rewrite <- IH. destruct (bytesIndexTerminator b) as [[]|]; by split.
Qed.

Lemma terminator_some b idx size :
  bytesIndexTerminator b = Some (idx, size) ->
  exists t rest, b = stake idx b +:+ String t rest /\ isTerminator t = true /\
    String.length (stake idx b) = idx /\
    sforall (fun c => negb (isTerminator c)) (stake idx b) = true /\
    (sdrop (idx + size) b = rest \/ exists rest', rest = String LF rest' /\ sdrop (idx + size) b = rest').
Proof.
  revert idx size. induction b as [|c b IH]; cbn [bytesIndexTerminator]; [done|]. intros idx size.
  destruct (bool_decide (c = "~"%char)) eqn:E1; [|destruct (bool_decide (c = LF)) eqn:E2;
    [|destruct (bool_decide (c = CR)) eqn:E3]].
  1,2: intros [= <- <-]; exists c, b; unfold isTerminator; rewrite ?E1, ?E2, ?orb_true_r;
       split_and!; try done; by left.
  - intros H. exists c, b. destruct b as [|d b'];
      [injection H as <- <-|destruct (bool_decide (d = LF)) eqn:Ed; injection H as <- <-];
      (split; [done|]; split; [unfold isTerminator; by rewrite E3, orb_true_r|]; split; [done|]; split; [done|]).
    + by left.
    + right. boolify. subst d. by exists b'.
    + by left.
  - destruct (bytesIndexTerminator b) as [[i n]|] eqn:Eb; [|done]. intros [= <- <-].
    destruct (IH i n eq_refl) as (t & rest & Hb & Ht & Hl & Hall & Hd).
    change (stake (S i) (String c b)) with (String c (stake i b)).
    change (sdrop (S i + n) (String c b)) with (sdrop (i + n) b).
    exists t, rest. split_and!; [by rewrite sapp_cons, <- Hb|done|simpl; by rewrite Hl| |done].
    cbn [sforall]. unfold isTerminator at 1. by rewrite E1, E2, E3, Hall.
Qed.

Lemma frame_start_after_none b i :
  sforall (fun c => negb (isTerminator c)) b = true -> frame_start_after b i = None.
Proof.
  revert i. induction b as [|c b IH]; intros i H; cbn [frame_start_after sforall] in *; [done|].
  apply andb_true_iff in H as [Hc H]. apply negb_true_iff in Hc. rewrite Hc. by apply IH.
Qed.

Lemma frame_start_zero b :
  bytesIndexTerminator b = None -> bytesIndexFrameStart b = Some 0%nat \/ bytesIndexFrameStart b = None.
Proof.
  intros H%terminator_none. unfold bytesIndexFrameStart.
  destruct (isFrameStart b); [by left|]. right. by apply frame_start_after_none.
Qed.

(** One pass of [tryReadLine]. *)
Definition try_once (r : lineReader) : try_result * lineReader :=
  let r := with_buf (trimLeadingTerminators (buf r)) r in
  let b := buf r in
  if bool_decide (b = "") then (NotReady, r)
  else
    match bytesIndexTerminator b with
    | Some (idx, size) =>
        let rest := with_buf (sdrop (idx + size) b) r in
        if (0 <? pc92Max r) && (pc92Max r <? Z.of_nat idx) && bool_decide (frameTypeFromBuffer b = "PC92")
        then (TooLong (stake idx b) (Z.of_nat idx), rest)
        else (GotLine (trimLine (stake idx b)), rest)
    | None =>
        if (0 <? pc92Max r) && (pc92Max r <? len b) && bool_decide (frameTypeFromBuffer b = "PC92")
        then (TooLong b (len b), with_dropping true (with_buf "" r))
        else if (maxLine r <? len b) && (0 <? maxLine r)
        then (TooLong b (len b), with_buf "" r)
        else (NotReady, r)
    end.

Lemma tryReadLine_once fuel r : tryReadLine fuel r = try_once r.
Proof.
  destruct fuel; cbn [tryReadLine]; unfold try_once; cbv zeta;
    destruct (bool_decide _); try done;
    destruct (bytesIndexTerminator _) as [[idx size]|] eqn:E; try done;
    destruct (frame_start_zero _ E) as [-> | ->]; done.
Qed.

(** ** The lines of a stream *)

(** The non-empty segments between terminators, and what follows the last one. *)
Fixpoint segments (cur s : string) : list string * string :=
  match s with
  | "" => ([], cur)
  | String c s' =>
      if isTerminator c then
        if bool_decide (cur = "") then segments "" s'
        else let '(l, r) := segments "" s' in (cur :: l, r)
      else segments (cur +:+ String c "") s'
  end.

Lemma segments_app cur a b :
  segments cur (a +:+ b)
  = let '(l1, r1) := segments cur a in let '(l2, r2) := segments r1 b in (l1 ++ l2, r2).
Proof.
  revert cur. induction a as [|c a IH]; intros cur.
  - change ("" +:+ b) with b. cbn [segments]. by destruct (segments cur b).
  - rewrite sapp_cons. cbn [segments]. destruct (isTerminator c); [|apply IH].
    destruct (bool_decide (cur = "")); [apply IH|]. rewrite IH.
    destruct (segments "" a) as [l1 r1]. by destruct (segments r1 b).
Qed.

Lemma segments_plain cur w :
  sforall (fun c => negb (isTerminator c)) w = true -> segments cur w = ([], cur +:+ w).
Proof.
  revert cur. induction w as [|c w IH]; intros cur H; [by rewrite sapp_nil_r|].
  cbn [segments sforall] in *. apply andb_true_iff in H as [Hc H]. apply negb_true_iff in Hc. rewrite Hc.
  rewrite IH by done. by rewrite sapp_assoc.
Qed.

Lemma segments_trim s : segments "" (trimLeadingTerminators s) = segments "" s.
Proof.
  unfold trimLeadingTerminators. induction s as [|c s IH]; [done|]. cbn [trim_left].
  destruct (isTerminator c) eqn:E; [|done]. rewrite IH. cbn [segments]. by rewrite E.
Qed.

Lemma trimLine_plain w : sforall (fun c => negb (isTerminator c)) w = true -> trimLine w = w.
Proof.
  unfold trimLine. induction w as [|c w IH]; intros H; [done|]. cbn [trim_right sforall] in *.
  apply andb_true_iff in H as [Hc H]. rewrite (IH H). destruct w; [|done].
  unfold isTerminator in Hc. apply negb_true_iff, orb_false_iff in Hc as [Hc _]. by rewrite Hc.
Qed.

Lemma trim_head_clear p s c s' : trim_left p s = String c s' -> p c = false.
Proof.
  induction s as [|d s IH]; cbn [trim_left]; [done|]. destruct (p d) eqn:E; [done|].
  intros [= <- _]. done.
Qed.

(** With both limits off, a pass takes the first segment of the buffer. *)
Lemma try_once_segments r :
  maxLine r <= 0 -> pc92Max r <= 0 ->
  match segments "" (buf r) with
  | (w :: ws, rem) => exists b', try_once r = (GotLine w, with_buf b' r) /\ segments "" b' = (ws, rem) /\
                        (String.length b' < String.length (buf r))%nat
  | ([], rem) => try_once r = (NotReady, with_buf rem r)
  end.
Proof.
  intros Hm Hp. rewrite <- (segments_trim (buf r)). unfold try_once. cbv zeta.
  cbn [buf with_buf pc92Max maxLine dropping has_parser].
  assert (String.length (trimLeadingTerminators (buf r)) <= String.length (buf r))%nat as Hlen
    by apply length_trim_left.
  destruct (trimLeadingTerminators (buf r)) as [|c b0] eqn:Eb; [done|].
  rewrite bool_decide_eq_false_2 by done. set (b := String c b0) in *.
  rewrite (proj2 (Z.ltb_ge 0 (pc92Max r))), (proj2 (Z.ltb_ge 0 (maxLine r))) by done.
  rewrite andb_false_r. cbn [andb].
  destruct (bytesIndexTerminator b) as [[idx size]|] eqn:Et.
  - destruct (terminator_some _ _ _ Et) as (t & rest & Hb & Ht & Hl & Hall & Hd).
    assert (idx <> 0%nat) as Hidx.
    { intros ->. apply trim_head_clear in Eb. change (stake 0 b) with "" in Hb.
      change ("" +:+ String t rest) with (String t rest) in Hb. unfold b in Hb. congruence. }
    assert (segments "" b = let '(l, rm) := segments "" (sdrop (idx + size) b) in (stake idx b :: l, rm)) as ->.
    { rewrite Hb at 1. rewrite segments_app, segments_plain by done.
      change ("" +:+ stake idx b) with (stake idx b). cbn [segments]. rewrite Ht.
      rewrite bool_decide_eq_false_2 by (intros E; rewrite E in Hl; simpl in Hl; lia).
      destruct Hd as [-> |(rest' & -> & ->)]; [by destruct (segments "" rest)|].
      cbn [segments]. assert (isTerminator LF = true) as -> by (by vm_compute).
      rewrite bool_decide_eq_true_2 by done. by destruct (segments "" rest'). }
    destruct (segments "" (sdrop (idx + size) b)) as [ws rem] eqn:Es.
    exists (sdrop (idx + size) b). rewrite trimLine_plain by done. split_and!; [done|done|].
    rewrite length_sdrop.
    assert (0 < String.length b)%nat by (unfold b; simpl; lia). lia.
  - apply terminator_none in Et. rewrite segments_plain by done. done.
Qed.

(** The unfinished segment has no terminator and is no longer than the text. *)
Lemma segments_rem_plain b cur :
  sforall (fun c => negb (isTerminator c)) cur = true ->
  sforall (fun c => negb (isTerminator c)) (segments cur b).2 = true.
Proof.
  revert cur. induction b as [|c b IH]; intros cur Hc; cbn [segments]; [done|].
  destruct (isTerminator c) eqn:Ec.
  - destruct (bool_decide (cur = "")); [by apply IH|]. specialize (IH "" eq_refl). by destruct (segments "" b).
  - apply IH. rewrite sforall_app, Hc. cbn [sforall]. by rewrite Ec.
Qed.

Lemma segments_rem_length b cur :
  (String.length (segments cur b).2 <= String.length cur + String.length b)%nat.
Proof.
  revert cur. induction b as [|c b IH]; intros cur; cbn [segments]; [simpl; lia|].
  destruct (isTerminator c).
  - specialize (IH ""). destruct (bool_decide _); [simpl in *; lia|].
    destruct (segments "" b). simpl in *. lia.
  - specialize (IH (cur +:+ String c "")). rewrite length_sapp in IH. simpl in *. lia.
Qed.

(** All the bytes of a sequence of reads. *)
Fixpoint stream (reads : list (string * bool)) : string :=
  match reads with [] => "" | (d, _) :: rest => d +:+ stream rest end.

Lemma ReadLine_segments reads r :
  maxLine r <= 0 -> pc92Max r <= 0 -> has_parser r = false -> dropping r = false ->
  Forall (fun d => d.2 = false) reads ->
  match segments "" (buf r +:+ stream reads) with
  | (w :: ws, rem) =>
      exists b' reads' replies, ReadLine r reads = (Some (ELine w), with_buf b' r, reads', replies) /\
        Forall (fun d => d.2 = false) reads' /\ segments "" (b' +:+ stream reads') = (ws, rem) /\
        (String.length (b' +:+ stream reads') < String.length (buf r +:+ stream reads))%nat
  | ([], rem) => exists replies, ReadLine r reads = (None, with_buf rem r, [], replies)
  end.
Proof.
  revert r. induction reads as [|[d e] reads IH]; intros r Hm Hp Hpa Hdr Hok; cbn [ReadLine];
    rewrite Hdr; unfold try_line; rewrite tryReadLine_once;
    pose proof (try_once_segments r Hm Hp) as Ht; cbn [stream].
  - rewrite sapp_nil_r. destruct (segments "" (buf r)) as [[|w ws] rem].
    + rewrite Ht. by eexists.
    + destruct Ht as (b' & -> & Hs & Hl). exists b', [], []. cbn [stream]. rewrite sapp_nil_r. auto.
  - inversion Hok as [|?? He Hok']; subst. cbn in He. subst e.
    rewrite segments_app. destruct (segments "" (buf r)) as [[|w ws] rem] eqn:Es.
    + rewrite Ht. cbn [app].
      set (r1 := with_buf (rem +:+ d) r).
      assert (absorb (with_buf rem r) d = (r1, [])) as ->.
      { unfold absorb. case_bool_decide as Hd; [subst d; unfold r1; by rewrite sapp_nil_r|].
        cbn [has_parser with_buf dropping buf]. by rewrite Hpa, Hdr. }
      specialize (IH r1 Hm Hp Hpa Hdr Hok'). cbn [buf r1 with_buf] in IH.
      assert (segments "" ((rem +:+ d) +:+ stream reads) = segments rem (d +:+ stream reads)) as Hseg.
      { rewrite sapp_assoc, segments_app.
        assert (segments "" rem = ([], rem)) as ->; [|by destruct (segments rem _)].
        apply segments_plain. pose proof (segments_rem_plain (buf r) "" eq_refl) as Hg.
        by rewrite Es in Hg. }
      rewrite Hseg in IH. destruct (segments rem (d +:+ stream reads)) as [[|w ws] rem'].
      * destruct IH as [replies ->]. by eexists.
      * destruct IH as (b' & reads' & replies & -> & H1 & H2 & H3). exists b', reads', replies.
        split_and!; [done|done|done|]. eapply Nat.lt_le_trans; [exact H3|].
        rewrite !length_sapp.
        assert (String.length rem <= String.length (buf r))%nat; [|lia].
        pose proof (segments_rem_length (buf r) "") as Hg. rewrite Es in Hg. exact Hg.
    + destruct Ht as (b' & -> & Hs & Hl).
      destruct (segments rem (d +:+ stream reads)) as [l2 r2] eqn:E2. cbn [app].
      exists b', ((d, false) :: reads), []. cbn [stream]. rewrite segments_app, Hs, E2.
      split_and!; [done|done|done|]. rewrite !length_sapp. lia.
Qed.



(** ** Memory *)

Lemma length_feed inIAC inSB s : (String.length (feed inIAC inSB s).1 <= String.length s)%nat.
Proof.
  remember (String.length s) as n eqn:Hn. assert (String.length s <= n)%nat as Hle by lia. clear Hn.
  revert inIAC inSB s Hle. induction n as [|n IH]; intros inIAC inSB s Hle.
  - destruct s; simpl in *; lia.
  - destruct s as [|b s]; [simpl; lia|]. simpl in Hle. cbn [feed].
    pose proof (IH false inSB s ltac:(lia)) as H1. pose proof (IH false true s ltac:(lia)) as H2.
    pose proof (IH false false s ltac:(lia)) as H3. pose proof (IH true inSB s ltac:(lia)) as H4.
    assert (forall x s', s = String x s' -> (String.length (feed false inSB s').1 <= n)%nat) as H5.
    { intros x s' ->. apply IH. simpl in Hle. lia. }
    destruct inIAC;
      repeat match goal with |- context [if ?b then _ else _] => destruct b end; try lia;
      try (destruct s as [|x s']; [simpl; lia|]; specialize (H5 x s' eq_refl));
      repeat match goal with |- context [let '(_, _) := ?x in _] => destruct x as [? ?] end; simpl in *; lia.
Qed.

(** The state between calls: at most [maxLine] bytes plus one read are buffered, none
    while a frame is being dropped. *)
Definition read_size : Z := 4096.

Definition reader_bounded (r : lineReader) : Prop :=
  len (buf r) <= maxLine r + read_size /\ (dropping r = true -> buf r = "").

Definition event_size (e : read_event) : Z :=
  match e with ELine l => len l | ETooLong p _ => len p | EError => 0 end.

Definition same_limits (r r' : lineReader) : Prop :=
  maxLine r' = maxLine r /\ pc92Max r' = pc92Max r /\ has_parser r' = has_parser r.

Lemma len_trim_left p s : len (trim_left p s) <= len s.
Proof. unfold len. pose proof (length_trim_left p s). lia. Qed.

Lemma len_trim_right p s : len (trim_right p s) <= len s.
Proof. unfold len. pose proof (length_trim_right p s). lia. Qed.

Lemma len_stake_le n s : len (stake n s) <= len s.
Proof. unfold len. rewrite length_stake. lia. Qed.

Lemma len_sdrop_le n s : len (sdrop n s) <= len s.
Proof. unfold len. rewrite length_sdrop. lia. Qed.

Lemma try_once_bounded r :
  0 < maxLine r -> dropping r = false -> reader_bounded r ->
  let '(t, r') := try_once r in
  same_limits r r' /\ reader_bounded r' /\
  match t with
  | NotReady => len (buf r') <= maxLine r /\ dropping r' = false
  | GotLine l => len l <= maxLine r + read_size
  | TooLong p _ => len p <= maxLine r + read_size
  end.
Proof.
  intros Hm Hd [Hb _]. unfold try_once. cbv zeta. cbn [buf with_buf maxLine pc92Max dropping has_parser].
  pose proof (len_trim_left isTerminator (buf r)) as Ht. fold (trimLeadingTerminators (buf r)) in Ht.
  set (b := trimLeadingTerminators (buf r)) in *. clearbody b.
  assert (0 <= len "") as H0 by (vm_compute; discriminate). assert (len "" = 0) as H00 by reflexivity.
  unfold read_size in *.
  case_bool_decide as He.
  { subst b. unfold reader_bounded, same_limits, read_size. cbn. rewrite Hd. split_and!; done || lia. }
  destruct (bytesIndexTerminator b) as [[idx size]|].
  - pose proof (len_sdrop_le (idx + size) b). pose proof (len_stake_le idx b).
    pose proof (len_trim_right (fun c => bool_decide (c = LF) || bool_decide (c = CR)) (stake idx b)).
    destruct (_ && _); unfold reader_bounded, same_limits, read_size; cbn; unfold trimLine; rewrite Hd;
      split_and!; try done; lia.
  - destruct (_ && _ && _); [unfold reader_bounded, same_limits, read_size; cbn; split_and!; done || lia|].
    destruct (_ && _) eqn:E; unfold reader_bounded, same_limits, read_size; cbn; rewrite Hd; split_and!; try done; try lia.
Qed.

Lemma absorb_bounded r d :
  0 < maxLine r -> len d <= read_size ->
  len (buf r) <= maxLine r -> (dropping r = true -> buf r = "") ->
  same_limits r (absorb r d).1 /\ reader_bounded (absorb r d).1.
Proof.
  intros Hm Hd Hb Hdr. unfold absorb.
  case_bool_decide; [unfold same_limits, reader_bounded, read_size; cbn; split_and!; auto; lia|].
  assert (exists d' rep, (if has_parser r then Feed d else (d, [])) = (d', rep) /\ len d' <= read_size)
    as (d' & rep & -> & Hd').
  { destruct (has_parser r); [|eauto]. pose proof (length_feed false false d) as Hf. fold (Feed d) in Hf.
    destruct (Feed d) as [d' rep]. exists d', rep. split; [done|]. unfold len in *. simpl in *. lia. }
  destruct (dropping r) eqn:E.
  - destruct (bytesIndexTerminator d') as [[idx size]|].
    + pose proof (len_sdrop_le (idx + size) d'). unfold reader_bounded, same_limits. cbn. split_and!; done || lia.
    + unfold reader_bounded, same_limits. cbn. unfold read_size. split_and!; auto; lia.
  - unfold reader_bounded, same_limits. cbn. rewrite len_sapp, E. split_and!; done || lia.
Qed.

Lemma ReadLine_bounded reads r :
  0 < maxLine r -> reader_bounded r -> Forall (fun d => len d.1 <= read_size) reads ->
  let '(e, r', reads', _) := ReadLine r reads in
  same_limits r r' /\ reader_bounded r' /\ Forall (fun d => len d.1 <= read_size) reads' /\
  forall ev, e = Some ev -> event_size ev <= maxLine r + read_size.
Proof.
  revert r. induction reads as [|[d err] reads IH]; intros r Hm Hb Hr; cbn [ReadLine].
  all: assert (exists t r1, (if dropping r then (NotReady, r) else try_line r) = (t, r1) /\
      same_limits r r1 /\ reader_bounded r1 /\
      match t with
      | NotReady => len (buf r1) <= maxLine r /\ (dropping r1 = true -> buf r1 = "")
      | GotLine l => len l <= maxLine r + read_size
      | TooLong p _ => len p <= maxLine r + read_size
      end) as (t & r1 & -> & Hs & Hb1 & Ht).
  1,3: destruct (dropping r) eqn:Ed;
    [assert (buf r = "") as Hbe by (by apply Hb); exists NotReady, r; split; [done|]; split; [done|];
     split; [done|]; rewrite Hbe; split; [change (len "") with 0; lia|done]|];
    pose proof (try_once_bounded r Hm Ed Hb) as H; unfold try_line; rewrite tryReadLine_once;
    destruct (try_once r) as [t r1]; exists t, r1; destruct H as (? & Hb1 & Ht); split_and!; try done;
    destruct t; try done; destruct Ht as [? Hd1]; rewrite Hd1; done.
  - destruct t; split_and!; try done; intros ev Hev; try (injection Hev as <-); done.
  - inversion Hr as [|?? Hd Hr']; subst. cbn in Hd.
    destruct t as [|l|p n].
    + destruct Hs as (Hs1 & Hs2 & Hs3). rewrite <- Hs1 in Hm, Ht. destruct Ht as [Ht1 Ht2].
      destruct (absorb_bounded r1 d Hm Hd Ht1 Ht2) as [Ha Hab].
      destruct (absorb r1 d) as [r2 rep]. cbn in Ha, Hab. destruct Ha as (Ha1 & Ha2 & Ha3).
      destruct err.
      * unfold same_limits. split_and!; try congruence; try done.
        intros ev [= <-]. cbn. unfold read_size. lia.
      * specialize (IH r2). rewrite Ha1 in IH. specialize (IH Hm Hab Hr').
        destruct (ReadLine r2 reads) as [[[e r3] reads'] rep']. destruct IH as ((? & ? & ?) & ? & ? & Hev).
        unfold same_limits. split_and!; try congruence; try done. by rewrite <- Hs1.
    + split_and!; try done. by intros ev [= <-].
    + split_and!; try done. by intros ev [= <-].
Qed.

(** The reader's memory is bounded whatever the peer sends.  With a positive
    [maxLine] and reads of at most 4096 bytes, every line it returns, every preview
    of a dropped line and the buffer it keeps are at most [maxLine + 4096] bytes
    long. *)
Theorem reader_memory_bounded reads fuel r :
  0 < maxLine r -> reader_bounded r -> Forall (fun d => len d.1 <= read_size) reads ->
  let '(events, r') := read_events fuel r reads in
  Forall (fun e => event_size e <= maxLine r + read_size) events /\ len (buf r') <= maxLine r + read_size.
Proof.
  revert r reads. induction fuel as [|k IH]; intros r reads Hm Hb Hr; cbn [read_events].
  - split; [constructor|apply Hb].
  - pose proof (ReadLine_bounded reads r Hm Hb Hr) as H.
    destruct (ReadLine r reads) as [[[e r1] reads1] rep]. destruct H as ((Hs1 & _ & _) & Hb1 & Hr1 & He).
    destruct e as [e|]; [|split; [constructor|rewrite <- Hs1; apply Hb1]].
    specialize (IH r1 reads1). rewrite Hs1 in IH. specialize (IH Hm Hb1 Hr1).
    destruct (read_events k r1 reads1) as [l r2]. destruct IH as [IH1 IH2].
    split; [|done]. constructor; [by apply He|done].
Qed.

Lemma reader_memory_bounded_witness :
  let '(events, r') := read_events 10 (newLineReader 10 0 true) [("0123456789ABCDEF", false); ("GH~", false)] in
  Forall (fun e => event_size e <= 10 + read_size) events /\ len (buf r') <= 10 + read_size.
Proof.
  apply (reader_memory_bounded [("0123456789ABCDEF", false); ("GH~", false)] 10 (newLineReader 10 0 true)).
  - reflexivity.
  - split; [vm_compute; discriminate|discriminate].
  - repeat constructor; vm_compute; discriminate.
Defined.

(** A terminated line longer than [maxLine] is delivered when it arrives in one read. *)
Example maxLine_not_enforced :
  (read_events 3 (newLineReader 4 0 false) [("0123456789~", false)]).1 = [ELine "0123456789"].
Proof. by vm_compute. Qed.
