(* ===== verification/PeerSpot.v ===== *)
(** * PeerSpot: spots, announcements and bulletins on a peer link

    [peer/format.go], [peer/parse.go], [peer/keys.go], [peer/pc93.go] and
    [peer/wwv.go]: writing a spot as a PC11 or PC61 line, reading a frame as a spot,
    the duplicate keys, PC93 messages and WWV/WCY bulletins.  The clock reading the
    parsers fall back to is an argument; a frequency written as an infinity or NaN,
    which the code would carry in the spot, is a separate outcome because frequencies
    are rationals here. *)

From S2P Require Import Prelude GoText GoNum Callsign Bands Spot SpotFormat KeywordScan CommentParser GoParse PeerFrame.
From Stdlib Require Import QArith.

Local Open Scope string_scope.
Local Open Scope list_scope.
Local Open Scope Z_scope.

(** ** Formatting *)

Definition sanitizeComment (c : string) : string :=
  let c := ReplaceAll c "^" " " in
  let c := ReplaceAll c (String (byte_of 13) "") " " in
  let c := ReplaceAll c (String (byte_of 10) "") " " in
  TrimSpace c.

Definition formatPC61 (s : Spot) (origin : string) (hop : Z) : string :=
  let comment := sanitizeComment (Comment s) in
  let spotterIP := TrimSpace (SpotterIP s) in
  Join ["PC61"; FormatFloat1 (Frequency s); DXCall s; format_date (Time s); format_1504Z (Time s);
        comment; DECall s; origin; spotterIP; "H" +:+ Itoa hop; ""] "^".

Definition formatPC11 (s : Spot) (origin : string) (hop : Z) : string :=
  let comment := sanitizeComment (Comment s) in
  Join ["PC11"; FormatFloat1 (Frequency s); DXCall s; format_date (Time s); format_1504Z (Time s);
        comment; DECall s; origin; "H" +:+ Itoa hop; ""] "^".

(** ** Parsing *)

Inductive spot_error := EInsufficient | EFreqParse | EInvalidDX | EInvalidDE | EUnsupported.

Inductive spot_result :=
  | SpotErr (e : spot_error)
  | SpotNonFinite
  | SpotOk (s : Spot).

Definition parsePCDateTime (now : Z) (dateStr timeStr : string) : Z :=
  if bool_decide (dateStr = "") || bool_decide (timeStr = "") then now
  else default now (parse_datetime (dateStr +:+ " " +:+ timeStr)).

(** The assignments after [NewSpotNormalized]. *)
Definition peer_fields (ts : Z) (parsed : CommentParseResult) (origin ip : string) (hop : Z) (s : Spot) : Spot :=
  mkSpot (ID s) (DXCall s) (DECall s) (Frequency s) (Band s) (Mode s) (p_report parsed) ts
    (p_comment parsed) SourcePeer origin ip (if 0 <? hop then uint8 hop else TTL s) (IsHuman s)
    (IsTestSpotter s) (IsBeacon s) (p_hasReport parsed) (DXMetadata s) (DEMetadata s) (Confidence s)
    (formatted s) (ModeNorm s) (BandNorm s) (DXCallNorm s) (DECallNorm s) (DXContinentNorm s)
    (DEContinentNorm s) (DXGridNorm s) (DEGridNorm s) (DXGrid2 s) (DEGrid2 s) (DXCellID s) (DECellID s)
    (DECallStripped s) (DECallNormStripped s).

Definition field (fields : list string) (i : nat) : string := default "" (fields !! i).

(** The steps [parsePC11] and [parsePC61] share; [need] is the number of fields and
    [ip] the spotter address, which only PC61 carries. *)
Definition parse_spot_fields (need : nat) (ip : string) (now : Z) (fields : list string) (hop : Z)
    (fallbackOrigin : string) : spot_result :=
  if (length fields <? need)%nat then SpotErr EInsufficient
  else
    match ParseFloat (TrimSpace (field fields 0)) with
    | FloatErr => SpotErr EFreqParse
    | FloatNonFinite => SpotNonFinite
    | FloatVal freq =>
        let dx := normalize_call (TrimSpace (field fields 1)) in
        let date := TrimSpace (field fields 2) in
        let timeStr := TrimSpace (field fields 3) in
        let comment := field fields 4 in
        let spotter := normalize_call (TrimSpace (field fields 5)) in
        let origin := TrimSpace (field fields 6) in
        let origin := if bool_decide (origin = "") then fallbackOrigin else origin in
        if negb (IsValidNormalizedCallsign dx) then SpotErr EInvalidDX
        else if negb (IsValidNormalizedCallsign spotter) then SpotErr EInvalidDE
        else
          let ts := parsePCDateTime now date timeStr in
          let parsed := ParseSpotComment comment freq in
          let s := NewSpotNormalized dx spotter freq (p_mode parsed) now in
          SpotOk (RefreshBeaconFlag (ApplySourceHumanFlag (peer_fields ts parsed origin ip hop s)))
    end.

Definition parsePC11 (now : Z) (fields : list string) (hop : Z) (fallbackOrigin : string) : spot_result :=
  parse_spot_fields 7 "" now fields hop fallbackOrigin.

Definition parsePC61 (now : Z) (fields : list string) (hop : Z) (fallbackOrigin : string) : spot_result :=
  parse_spot_fields 8 (TrimSpace (field fields 7)) now fields hop fallbackOrigin.

Definition parsePC26 (now : Z) (fields : list string) (hop : Z) (fallbackOrigin : string) : spot_result :=
  if (length fields <? 7)%nat then SpotErr EInsufficient
  else
    let fields := if (8 <=? length fields)%nat && bool_decide (TrimSpace (field fields 7) = "")
                  then take 7 fields else fields in
    parsePC11 now fields hop fallbackOrigin.

Definition parseSpotFromFrame (now : Z) (f : Frame) (fallbackOrigin : string) : spot_result :=
  let fields := payloadFields f in
  if bool_decide (f_Type f = "PC11") then parsePC11 now fields (f_Hop f) fallbackOrigin
  else if bool_decide (f_Type f = "PC61") then parsePC61 now fields (f_Hop f) fallbackOrigin
  else if bool_decide (f_Type f = "PC26") then parsePC26 now fields (f_Hop f) fallbackOrigin
  else SpotErr EUnsupported.

(** ** Duplicate keys *)

Definition pc92Key (f : Frame) : string := "pc92:" +:+ f_Type f +:+ ":" +:+ f_Raw f.
Definition wwvKey (f : Frame) : string := "wwv:" +:+ f_Type f +:+ ":" +:+ f_Raw f.
Definition pc93Key (f : Frame) : string := "pc93:" +:+ f_Type f +:+ ":" +:+ f_Raw f.
Definition pc26Key (f : Frame) : string := "pc26:" +:+ f_Raw f.

Definition dxKey (f : Frame) (s : Spot) : string :=
  "dx:" +:+ f_Type f +:+ ":" +:+ DXCall s +:+ ":" +:+ DECall s +:+ ":" +:+ FormatFloat1 (Frequency s)
  +:+ ":" +:+ Itoa (Time s / second).

(** ** PC93 messages *)

Record pc93Message := mkPC93 {
  NodeCall : string; pc93_Timestamp : string; To : string; From : string; Via : string;
  Text : string; Onode : string; IP : string; pc93_Hop : Z
}.

Definition decodePC93Text (text : string) : string :=
  if bool_decide (text = "") then text
  else ReplaceAll (ReplaceAll text "%5E" "^") "%5e" "^".

Definition parsePC93 (f : Frame) : option pc93Message :=
  let fields := payloadFields f in
  if (length fields <? 6)%nat then None
  else Some (mkPC93 (TrimSpace (field fields 0)) (TrimSpace (field fields 1)) (TrimSpace (field fields 2))
               (TrimSpace (field fields 3)) (TrimSpace (field fields 4))
               (decodePC93Text (TrimSpace (field fields 5)))
               (if (7 <=? length fields)%nat then TrimSpace (field fields 6) else "")
               (if (8 <=? length fields)%nat then TrimSpace (field fields 7) else "") (f_Hop f)).

(** [None] is a broadcast. *)
Definition pc93Target (msg : pc93Message) : option string :=
  let to := TrimSpace (To msg) in
  if bool_decide (to = "") then None
  else
    let upper := ToUpper to in
    if bool_decide (upper ∈ ["*"; "ALL"; "WX"; "SYSOP"]) then None
    else if HasPrefix upper "#" then None
    else if IsValidCallsign upper then Some upper
    else None.

Definition formatPC93Line (msg : pc93Message) : string :=
  let to := TrimSpace (To msg) in
  let to := if EqualFold to "*" || EqualFold to "ALL" || bool_decide (to = "") then "ALL" else to in
  let from := TrimSpace (From msg) in
  let from := if bool_decide (from = "") then TrimSpace (NodeCall msg) else from in
  if bool_decide (from = "") then ""
  else
    let text := TrimSpace (Text msg) in
    if bool_decide (text = "") then ""
    else "To " +:+ to +:+ " de " +:+ from +:+ ": " +:+ text.

(** ** WWV and WCY bulletins *)

Record WWVEvent := mkWWV {
  Kind : string; Date : string; Hour : string; SFI : string; A_ : string; K_ : string;
  Forecast : string; ExpK : string; R_ : string; SA : string; GMF : string; Aurora : string;
  Logger : string; Origin : string; Extra : list string; wwv_Hop : Z
}.

Definition opt_field (fields : list string) (i : nat) : string := TrimSpace (field fields i).

Definition parseWWV (f : Frame) : option WWVEvent :=
  let fields := payloadFields f in
  if (length fields <? 6)%nat then None
  else
    let kind := ToUpper (TrimSpace (f_Type f)) in
    let pc23 := bool_decide (kind = "PC23") in
    let pc73 := bool_decide (kind = "PC73") in
    let at23 i := if pc23 then opt_field fields i else "" in
    let at73 i := if pc73 then opt_field fields i else "" in
    let logger := if pc23 then opt_field fields 6 else at73 10%nat in
    let origin := if pc23 then opt_field fields 7 else at73 11%nat in
    let origin := if bool_decide (origin = "") then TrimSpace (default "" (last fields)) else origin in
    Some (mkWWV (f_Type f) (field fields 0) (field fields 1) (field fields 2) (field fields 3)
            (field fields 4) (at23 5%nat) (at73 5%nat) (at73 6%nat) (at73 7%nat) (at73 8%nat) (at73 9%nat)
            logger origin (drop 5 fields) (f_Hop f)).

(** [label=value] when the value is present. *)
Definition labelled (label value : string) : list string :=
  if bool_decide (value = "") then [] else [label +:+ "=" +:+ value].

Definition formatWWVLine (ev : WWVEvent) : string * string :=
  let kind := if EqualFold (Kind ev) "PC73" then "WCY" else "WWV" in
  let logger := TrimSpace (Logger ev) in
  let logger := if bool_decide (logger = "") then TrimSpace (Origin ev) else logger in
  if bool_decide (logger = "") then (kind, "")
  else
    let hour := TrimSpace (Hour ev) in
    let hourToken := if bool_decide (hour = "") then "" else "<" +:+ hour +:+ ">" in
    let parts :=
      if bool_decide (kind = "WWV") then
        labelled "SFI" (SFI ev) ++ labelled "A" (A_ ev) ++ labelled "K" (K_ ev)
        ++ labelled "Forecast" (Forecast ev)
      else
        labelled "K" (K_ ev) ++ labelled "expK" (ExpK ev) ++ labelled "A" (A_ ev) ++ labelled "R" (R_ ev)
        ++ labelled "SFI" (SFI ev) ++ labelled "SA" (SA ev) ++ labelled "GMF" (GMF ev)
        ++ labelled "Au" (Aurora ev) in
    if bool_decide (parts = []) then (kind, "")
    else if bool_decide (hourToken = "")
    then (kind, kind +:+ " de " +:+ logger +:+ " : " +:+ Join parts " ")
    else (kind, kind +:+ " de " +:+ logger +:+ " " +:+ hourToken +:+ " : " +:+ Join parts " ").

(** ** Text without blanks or carets *)

Definition plain_byte (c : ascii) : bool := negb (is_space c) && negb (bool_decide (c = "^"%char)).
Definition plain (s : string) : bool := sforall plain_byte s.

Lemma sforall_mono (p q : ascii -> bool) s :
  (forall c, p c = true -> q c = true) -> sforall p s = true -> sforall q s = true.
Proof.
  intros H. induction s as [|c s IH]; cbn [sforall]; [done|].
  intros [Hc Hs]%andb_true_iff. rewrite (H c Hc). by apply IH.
Qed.

Lemma TrimSpace_nospace s : sforall (fun c => negb (is_space c)) s = true -> TrimSpace s = s.
Proof.
  intros Hs. unfold TrimSpace. assert (trim_left is_space s = s) as ->.
  { destruct s as [|c s]; [done|]. cbn [sforall trim_left] in *. apply andb_true_iff in Hs as [Hd _].
    apply negb_true_iff in Hd. by rewrite Hd. }
  induction s as [|c s IH]; [done|]. cbn [sforall trim_right] in *.
  apply andb_true_iff in Hs as [Hd Hs]. rewrite (IH Hs). apply negb_true_iff in Hd.
  destruct s; [by rewrite Hd|done].
Qed.

Lemma plain_spec s : plain s = true -> no_byte "^" s = true /\ TrimSpace s = s.
Proof.
  intros H. split; [|apply TrimSpace_nospace]; revert H; apply sforall_mono; intros c Hc;
    unfold plain_byte in Hc; by apply andb_true_iff in Hc as [? ?].
Qed.

Lemma plain_app a b : plain (a +:+ b) = plain a && plain b.
Proof. apply sforall_app. Qed.

Lemma plain_digits s : sforall is_digit s = true -> plain s = true.
Proof. apply sforall_mono. all_bytes. Qed.

Lemma plain_two_digits n : 0 <= n < 100 -> plain (two_digits n) = true.
Proof.
  intros Hn. apply plain_digits. unfold two_digits. cbn [sforall].
  pose proof (Z.mod_pos_bound n 10 ltac:(lia)).
  assert (0 <= n / 10 < 10) by (split; [apply Z.div_pos|apply Z.div_lt_upper_bound]; lia).
  by rewrite !is_digit_byte_of by lia.
Qed.

Lemma plain_1504Z t : plain (format_1504Z t) = true.
Proof.
  unfold format_1504Z. rewrite !plain_app, !plain_two_digits; [done|..].
  - pose proof (Z.mod_pos_bound (t / minute) 60 ltac:(lia)). lia.
  - pose proof (Z.mod_pos_bound (t / hour) 24 ltac:(lia)). lia.
Qed.

Lemma plain_month m : 1 <= m <= 12 -> plain (month_name m) = true.
Proof.
  intros Hm. assert (forallb (fun k => plain (month_name k)) [1;2;3;4;5;6;7;8;9;10;11;12] = true) as H
    by (by vm_compute).
  rewrite forallb_forall_elem in H. apply H. repeat rewrite elem_of_cons. lia.
Qed.

Definition four_digit_year (t : Z) : Prop :=
  let '(y, _, _) := civil_from_days (t / day_ns) in 0 <= y < 10000.

Lemma plain_year y : 0 <= y < 10000 -> plain (format_year y) = true.
Proof. intros Hy. apply plain_digits. by apply year_digits. Qed.

Lemma plain_date t : four_digit_year t -> plain (format_date t) = true.
Proof.
  unfold four_digit_year, format_date. destruct (civil_from_days (t / day_ns)) as [[y m] d] eqn:E. intros Hy.
  destruct (civil_spec _ _ _ _ E) as (_ & Hm & Hd).
  assert (d < 100) by (unfold days_in_month in Hd; repeat case_match; lia).
  rewrite !plain_app, plain_two_digits, plain_month, plain_year by lia. done.
Qed.

Lemma plain_float x : 0 <= Qnum x -> plain (FormatFloat1 x) = true.
Proof.
  intros Hx. unfold FormatFloat1. fold (tenths x). rewrite (proj2 (Z.ltb_ge (Qnum x) 0)) by lia.
  pose proof (tenths_nonneg x). pose proof (Z.mod_pos_bound (tenths x) 10 ltac:(lia)).
  destruct (digits_spec (tenths x / 10)) as [_ H1]; [apply Z.div_pos; lia|].
  destruct (digits_spec (tenths x mod 10)) as [_ H2]; [lia|].
  rewrite !plain_app.
  by rewrite (plain_digits _ (parse_digits_all _ _ _ H1)), (plain_digits _ (parse_digits_all _ _ _ H2)).
Qed.

Lemma plain_call_bytes first need s : callsign_match first need s = true -> plain s = true.
Proof.
  revert first need. induction s as [|c s IH]; intros first need; [done|]. cbn [callsign_match].
  assert (call_tail c || call_sep c = true -> plain_byte c = true) as Hc by (clear; revert c; all_bytes).
  assert (call_head c = true -> call_tail c = true) as Hh by (unfold call_tail; by intros ->).
  unfold plain in *. cbn [sforall]. intros H.
  destruct (if first then call_head c else call_tail c) eqn:E.
  - rewrite (IH _ _ H), Hc; [done|]. destruct first; rewrite ?(Hh E), ?E; done.
  - destruct (call_sep c && negb need) eqn:Es; [|done]. apply andb_true_iff in Es as [Es _].
    rewrite (IH _ _ H), Hc; [done|]. by rewrite Es, orb_true_r.
Qed.

Lemma plain_call s : IsValidNormalizedCallsign s = true -> plain s = true.
Proof.
  unfold IsValidNormalizedCallsign, validateNormalizedCallsign. repeat case_match; try done.
  apply plain_call_bytes.
Qed.

(** Replacing one byte by another is a byte map. *)
Lemma ReplaceAll_byte s a b :
  ReplaceAll s (String a "") (String b "") = smap (fun c => if bool_decide (c = a) then b else c) s.
Proof.
  unfold ReplaceAll. induction s as [|c s IH]; [done|]. cbn [replace_from HasPrefix smap].
  rewrite andb_true_r.
  change (String.length (String a "") - 1)%nat with 0%nat. rewrite IH.
  destruct (bool_decide (a = c)) eqn:E; boolify.
  - subst. rewrite bool_decide_eq_true_2 by done. done.
  - rewrite bool_decide_eq_false_2 by congruence. done.
Qed.

Lemma no_byte_smap sep f s :
  (forall c, no_byte sep (String c "") = true -> f c <> sep) -> no_byte sep s = true -> no_byte sep (smap f s) = true.
Proof.
  intros Hf. unfold no_byte in *. induction s as [|c s IH]; cbn [smap sforall]; [done|].
  intros [Hc Hs]%andb_true_iff. rewrite (IH Hs), bool_decide_eq_false_2; [done|].
  apply Hf. cbn [sforall]. by rewrite Hc.
Qed.

Lemma sanitizeComment_no_caret c : no_byte "^" (sanitizeComment c) = true.
Proof.
  unfold sanitizeComment. cbv zeta. apply no_byte_TrimSpace. rewrite !ReplaceAll_byte.
  apply no_byte_smap; [|apply no_byte_smap].
  - intros d Hd. case_bool_decide; [done|]. intros ->. by vm_compute in Hd.
  - intros d Hd. case_bool_decide; [done|]. intros ->. by vm_compute in Hd.
  - unfold no_byte. induction c as [|d c IH]; [done|]. cbn [smap sforall]. rewrite IH, andb_true_r.
    destruct (bool_decide (d = "^"%char)) eqn:E; [done|by rewrite E].
Qed.

(** ** A spot travels one link *)

(** Spots the cluster writes without loss: normalised valid calls, a frequency on the
    100 Hz grid, a four-digit year; the origin is one word. *)
Record linkable (s : Spot) (origin : string) (hop : Z) : Prop := {
  lk_freq : on_grid (Frequency s);
  lk_dx : normalize_call (DXCall s) = DXCall s /\ IsValidNormalizedCallsign (DXCall s) = true;
  lk_de : normalize_call (DECall s) = DECall s /\ IsValidNormalizedCallsign (DECall s) = true;
  lk_year : four_digit_year (Time s);
  lk_origin : plain origin = true /\ origin <> "";
  lk_ip : no_byte "^" (SpotterIP s) = true;
  lk_hop : 0 < hop <= max_int64
}.

(** What the receiving node knows of the spot. *)
Definition same_report (s s' : Spot) (origin ip : string) (hop : Z) : Prop :=
  let parsed := ParseSpotComment (sanitizeComment (Comment s)) (Frequency s) in
  DXCall s' = DXCall s /\ DECall s' = DECall s /\
  Frequency s' = roundFrequencyTo100Hz (Frequency s) /\ Time s' = Time s - Time s mod minute /\
  Comment s' = p_comment parsed /\ Report s' = p_report parsed /\ HasReport s' = p_hasReport parsed /\
  Mode s' = NormalizeVoiceMode (p_mode parsed) (roundFrequencyTo100Hz (Frequency s)) /\
  SourceType s' = SourcePeer /\ SourceNode s' = origin /\ SpotterIP s' = ip /\ TTL s' = uint8 hop.

Lemma RefreshBeaconFlag_fields s :
  DXCall (RefreshBeaconFlag s) = DXCall s /\ DECall (RefreshBeaconFlag s) = DECall s /\
  Frequency (RefreshBeaconFlag s) = Frequency s /\ Time (RefreshBeaconFlag s) = Time s /\
  Comment (RefreshBeaconFlag s) = Comment s /\ Report (RefreshBeaconFlag s) = Report s /\
  HasReport (RefreshBeaconFlag s) = HasReport s /\ Mode (RefreshBeaconFlag s) = Mode s /\
  SourceType (RefreshBeaconFlag s) = SourceType s /\ SourceNode (RefreshBeaconFlag s) = SourceNode s /\
  SpotterIP (RefreshBeaconFlag s) = SpotterIP s /\ TTL (RefreshBeaconFlag s) = TTL s.
Proof. unfold RefreshBeaconFlag. destruct (nonempty _); split_and!; done. Qed.

#[local] Transparent EnsureNormalized.
Lemma build_spot_fields dx de freq mode now :
  DXCall (build_spot dx de freq mode now) = dx /\ DECall (build_spot dx de freq mode now) = de /\
  Frequency (build_spot dx de freq mode now) = roundFrequencyTo100Hz freq /\
  Mode (build_spot dx de freq mode now) = NormalizeVoiceMode mode (roundFrequencyTo100Hz freq).
Proof.
  unfold build_spot. cbv zeta. set (s := EnsureNormalized _).
  destruct (RefreshBeaconFlag_fields s) as (-> & -> & -> & _ & _ & _ & _ & -> & _). by unfold s.
Qed.
#[local] Opaque EnsureNormalized RefreshBeaconFlag ParseSpotComment ParseFloat parse_datetime normalize_call.

(** The fields after [peer_fields], [ApplySourceHumanFlag] and [RefreshBeaconFlag]. *)
Lemma peer_spot_fields ts parsed origin ip hop b :
  0 < hop ->
  let s' := RefreshBeaconFlag (ApplySourceHumanFlag (peer_fields ts parsed origin ip hop b)) in
  DXCall s' = DXCall b /\ DECall s' = DECall b /\ Frequency s' = Frequency b /\ Time s' = ts /\
  Comment s' = p_comment parsed /\ Report s' = p_report parsed /\ HasReport s' = p_hasReport parsed /\
  Mode s' = Mode b /\ SourceType s' = SourcePeer /\ SourceNode s' = origin /\ SpotterIP s' = ip /\
  TTL s' = uint8 hop.
Proof.
  intros Hh. cbv zeta.
  set (s := ApplySourceHumanFlag _).
  destruct (RefreshBeaconFlag_fields s) as (-> & -> & -> & -> & -> & -> & -> & -> & -> & -> & -> & ->).
  unfold s, ApplySourceHumanFlag, set_IsHuman, peer_fields. cbn. rewrite (proj2 (Z.ltb_lt 0 hop)) by done.
  split_and!; reflexivity.
Qed.

Lemma parsePCDateTime_format now t :
  four_digit_year t -> parsePCDateTime now (format_date t) (format_1504Z t) = t - t mod minute.
Proof.
  intros Hy. unfold parsePCDateTime.
  pose proof (datetime_roundtrip t Hy) as Ht.
  change (format_date t +:+ String " " (format_1504Z t)) with (format_date t +:+ " " +:+ format_1504Z t) in Ht.
  rewrite Ht. destruct (format_date t) as [|c d] eqn:Ed; [by destruct (format_1504Z t)|].
  rewrite (bool_decide_eq_false_2 (String c d = "")) by done.
  destruct (format_1504Z t) as [|c' d'] eqn:Et; [|by rewrite bool_decide_eq_false_2].
  apply (f_equal String.length) in Et. unfold format_1504Z, two_digits in Et.
  rewrite sapp_cons in Et. discriminate Et.
Qed.

Lemma plain_trim s : plain s = true -> TrimSpace s = s.
Proof. apply plain_spec. Qed.

Lemma parse_spot_fields_ok need ip now s origin hop extra fallback :
  linkable s origin hop ->
  (need <= 7 + length extra)%nat ->
  exists s', parse_spot_fields need ip now
      ([FormatFloat1 (Frequency s); DXCall s; format_date (Time s); format_1504Z (Time s);
        sanitizeComment (Comment s); DECall s; origin] ++ extra) hop fallback = SpotOk s' /\
    same_report s s' origin ip hop.
Proof.
  intros [Hf [Hdx Vdx] [Hde Vde] Hy [Ho One] _ Hh] Hn.
  unfold parse_spot_fields, field. rewrite (proj2 (Nat.ltb_ge _ _)) by (rewrite length_app; simpl; lia).
  cbn [app lookup list_lookup from_option id].
  rewrite (plain_trim _ (plain_float _ (proj1 Hf))), (ParseFloat_on_grid _ Hf).
  rewrite (plain_trim _ (plain_call _ Vdx)), (plain_trim _ (plain_call _ Vde)).
  rewrite (plain_trim _ (plain_date _ Hy)), (plain_trim _ (plain_1504Z (Time s))).
  rewrite (plain_trim _ Ho), Hdx, Hde, Vdx, Vde. cbn [negb].
  rewrite (bool_decide_eq_false_2 (origin = "")) by done.
  eexists. split; [reflexivity|].
  rewrite (parsePCDateTime_format now _ Hy). unfold same_report. cbv zeta.
  set (parsed := ParseSpotComment _ _). clearbody parsed. set (b := NewSpotNormalized _ _ _ _ _).
  destruct (peer_spot_fields (Time s - Time s mod minute) parsed origin ip hop b (proj1 Hh))
    as (-> & -> & -> & -> & -> & -> & -> & -> & -> & -> & -> & ->).
  unfold b, NewSpotNormalized. rewrite (plain_trim _ (plain_call _ Vdx)), (plain_trim _ (plain_call _ Vde)).
  destruct (build_spot_fields (DXCall s) (DECall s) (Frequency s) (p_mode parsed) now) as (-> & -> & -> & ->).
  split_and!; reflexivity.
Qed.

(** The frame of a formatted spot, and the payload a parser sees: a marker and an
    empty field stay behind, because the line ends with a caret. *)
Lemma spot_frame ty fields hop :
  (ty = "PC11" \/ ty = "PC61") -> Forall (fun w => no_byte "^" w = true) fields -> 0 < hop <= max_int64 ->
  exists f, ParseFrame (Join (ty :: fields ++ [hop_marker hop; ""]) "^") = Some f /\
    f_Type f = ty /\ f_Hop f = hop /\ payloadFields f = fields ++ [hop_marker hop; ""].
Proof.
  intros Hty Hall Hh. eexists. split.
  { apply ParseFrame_Join; try done; by destruct Hty as [-> | ->]. }
  split_and!; [done|done|]. unfold payloadFields. cbn [f_Fields].
  replace (fields ++ [hop_marker hop; ""]) with ((fields ++ [hop_marker hop]) ++ [""]) by (by rewrite <- app_assoc).
  rewrite last_snoc. done.
Qed.

Lemma linkable_fields s origin hop :
  linkable s origin hop ->
  Forall (fun w => no_byte "^" w = true)
    [FormatFloat1 (Frequency s); DXCall s; format_date (Time s); format_1504Z (Time s);
     sanitizeComment (Comment s); DECall s; origin].
Proof.
  intros [Hf [_ Vdx] [_ Vde] Hy [Ho _] _ _].
  rewrite !Forall_cons. split_and!; [..|constructor];
    try (apply plain_spec; by auto using plain_call, plain_1504Z, plain_date).
  - apply plain_spec, plain_float, Hf.
  - apply sanitizeComment_no_caret.
Qed.

(** The PC61 line, for peers that speak pc9x. *)
Lemma pc61_line now s origin hop fallback :
  linkable s origin hop ->
  exists f s', ParseFrame (formatPC61 s origin hop) = Some f /\ f_Type f = "PC61" /\ f_Hop f = hop /\
    parseSpotFromFrame now f fallback = SpotOk s' /\ same_report s s' origin (TrimSpace (SpotterIP s)) hop.
Proof.
  intros Hl.
  destruct (spot_frame "PC61" ([FormatFloat1 (Frequency s); DXCall s; format_date (Time s);
      format_1504Z (Time s); sanitizeComment (Comment s); DECall s; origin] ++ [TrimSpace (SpotterIP s)]) hop)
    as (f & Hp & Ht & Hh & Hpay).
  { by right. }
  { apply Forall_app. split; [by apply (linkable_fields s origin hop)|]. repeat constructor.
    apply no_byte_TrimSpace, Hl. }
  { apply Hl. }
  destruct (parse_spot_fields_ok 8 (TrimSpace (SpotterIP s)) now s origin hop
              ([TrimSpace (SpotterIP s)] ++ [hop_marker hop; ""]) fallback Hl) as (s' & Hs & Hr); [simpl; lia|].
  exists f, s'. split; [exact Hp|]. split; [done|]. split; [done|]. split; [|done].
  unfold parseSpotFromFrame. rewrite Ht, Hh, Hpay. rewrite bool_decide_eq_false_2, bool_decide_eq_true_2 by done.
  unfold parsePC61. rewrite <- Hs.
  assert (forall l : list string, field (([FormatFloat1 (Frequency s); DXCall s; format_date (Time s);
      format_1504Z (Time s); sanitizeComment (Comment s); DECall s; origin] ++ [TrimSpace (SpotterIP s)]) ++ l) 7
      = TrimSpace (SpotterIP s)) as -> by done.
  by rewrite TrimSpace_idemp.
Qed.

(** The PC11 line, which carries no address. *)
Lemma pc11_line now s origin hop fallback :
  linkable s origin hop ->
  exists f s', ParseFrame (formatPC11 s origin hop) = Some f /\ f_Type f = "PC11" /\ f_Hop f = hop /\
    parseSpotFromFrame now f fallback = SpotOk s' /\ same_report s s' origin "" hop.
Proof.
  intros Hl.
  destruct (spot_frame "PC11" [FormatFloat1 (Frequency s); DXCall s; format_date (Time s);
      format_1504Z (Time s); sanitizeComment (Comment s); DECall s; origin] hop) as (f & Hp & Ht & Hh & Hpay).
  { by left. }
  { by apply (linkable_fields s origin hop). }
  { apply Hl. }
  destruct (parse_spot_fields_ok 7 "" now s origin hop [hop_marker hop; ""] fallback Hl) as (s' & Hs & Hr); [simpl; lia|].
  exists f, s'. split; [exact Hp|]. split; [done|]. split; [done|]. split; [|done].
  unfold parseSpotFromFrame. rewrite Ht, Hh, Hpay, bool_decide_eq_true_2 by done. exact Hs.
Qed.

(** The line a peer gets for a spot. *)
Definition spot_line (s : Spot) (origin : string) (hop : Z) (pc9x : bool) : string :=
  if pc9x then formatPC61 s origin hop else formatPC11 s origin hop.

Definition line_ip (s : Spot) (pc9x : bool) : string := if pc9x then TrimSpace (SpotterIP s) else "".

Lemma spot_line_read now s origin hop pc9x fallback :
  linkable s origin hop ->
  exists f s', ParseFrame (spot_line s origin hop pc9x) = Some f /\
    f_Type f = (if pc9x then "PC61" else "PC11") /\ f_Hop f = hop /\
    parseSpotFromFrame now f fallback = SpotOk s' /\ same_report s s' origin (line_ip s pc9x) hop.
Proof. intros H. destruct pc9x; [by apply pc61_line|by apply pc11_line]. Qed.


Definition link_spot : Spot := peer_fields 1700000000000000000 (ParseSpotComment "FT8 -12 dB CQ" 14074) "W3LPL"
  "192.0.2.7" 3 (NewSpot "K1ABC" "N2WQ-1" 14074 "FT8" 0).

Lemma link_spot_ok : linkable link_spot "GB7BAA" 5.
Proof.
  split.
  - apply (bool_decide_unpack _). vm_compute. exact I.
  - split; vm_compute; reflexivity.
  - split; vm_compute; reflexivity.
  - vm_compute. split; [discriminate|reflexivity].
  - split; [vm_compute; reflexivity|discriminate].
  - vm_compute; reflexivity.
  - vm_compute. split; [reflexivity|discriminate].
Qed.

