(* ===== verification/PeerLink.v ===== *)
(** * PeerLink: the small stores of the peering code

    [peer/backoff.go] (reconnect delays and the loop of [Manager.runOutbound]),
    [peer/dedupe.go] (keys seen on any link) and [peer/topology.go] (the node table).
    Times are nanoseconds, durations are 64-bit.  The SQLite table is the list of its
    rows in insertion order, a statement being the corresponding list operation; a
    failing database, whose errors the code ignores, is not modelled. *)

From S2P Require Import Prelude GoText GoNum PeerFrame.
From Stdlib Require Import Sorting.Sorted.

Local Open Scope string_scope.
Local Open Scope list_scope.
Local Open Scope Z_scope.

(** ** Reconnect delays *)

Record backoff := mkBackoff { cur : Z; max_delay : Z }.

Definition newBackoff (base max : Z) : backoff :=
  let base := if base <=? 0 then second else base in
  let max := if max <? base then base else max in
  mkBackoff base max.

Definition backoff_Next (b : backoff) : Z * backoff :=
  if max_delay b <=? cur b then (max_delay b, b)
  else
    let d := cur b in
    let c := int64 (cur b * 2) in
    (d, mkBackoff (if max_delay b <? c then max_delay b else c) (max_delay b)).

Definition backoff_Reset (b : backoff) : backoff := mkBackoff 0 (max_delay b).

(** The rounds of [runOutbound]: a dial that fails, or one that succeeds and whose
    session later ends.  The result is the delay slept after each round. *)
Inductive dial_round := DialFailed | SessionEnded.

Fixpoint runOutbound (b : backoff) (rounds : list dial_round) : list Z :=
  match rounds with
  | [] => []
  | r :: rest =>
      let b := match r with DialFailed => b | SessionEnded => backoff_Reset b end in
      let '(delay, b) := backoff_Next b in
      delay :: runOutbound b rest
  end.

(** ** Duplicate suppression *)

Record dedupeCache := mkDedupe { items : gmap string Z; ttl : Z }.

Definition newDedupeCache (ttl : Z) : dedupeCache := mkDedupe ∅ ttl.

Definition markSeen (c : dedupeCache) (key : string) (now : Z) : bool * dedupeCache :=
  if bool_decide (key = "") then (false, c)
  else match items c !! key with
       | Some _ => (false, c)
       | None => (true, mkDedupe (<[key := now]> (items c)) (ttl c))
       end.

Definition dedupe_prune (c : dedupeCache) (now : Z) : dedupeCache :=
  mkDedupe (filter (fun kv => time_sub now kv.2 <= ttl c) (items c)) (ttl c).

(** ** The node table *)

Record peer_row := mkRow {
  r_origin : string; r_bitmap : Z; r_call : string; r_version : string; r_build : string;
  r_ip : string; r_updated : Z
}.

Record topologyStore := mkTopology { rows : list peer_row; retention : Z }.

Definition with_rows (l : list peer_row) (t : topologyStore) : topologyStore := mkTopology l (retention t).

(** [delete from peer_nodes where origin = ? and call = ?] *)
Definition sql_delete (origin call : string) (l : list peer_row) : list peer_row :=
  filter (fun r => ~ (r_origin r = origin /\ r_call r = call)) l.

Definition upsertPeerNode (origin : string) (bitmap : Z) (call version build ip : string) (updatedAt : Z)
    (t : topologyStore) : topologyStore :=
  with_rows (sql_delete origin call (rows t) ++ [mkRow origin bitmap call version build ip updatedAt]) t.

Definition isHopField (token : string) : bool :=
  let token := TrimSpace (ToUpper token) in
  if negb (HasPrefix token "H") || (len token <? 2) then false
  else sforall is_digit (sdrop 1 token).

(** [<bitmap><call>:<version>[:<build>[:<ip>]]]; the bitmap is a byte difference. *)
Definition parsePC92Entry (entry : string) : Z * string * string * string * string :=
  let parts := split_byte ":" entry in
  let head := default "" (head parts) in
  let bitmap := match head with String c _ => uint8 (byte_val c - 48) | "" => 0 end in
  (bitmap, sdrop 1 head, default "" (parts !! 1%nat), default "" (parts !! 2%nat), default "" (parts !! 3%nat)).

(** The loop over the entries of a PC92 frame. *)
Fixpoint apply_entries (origin recordType : string) (updatedAt : Z) (entries : list string) (t : topologyStore)
    : topologyStore :=
  match entries with
  | [] => t
  | entry :: rest =>
      let entry := TrimSpace entry in
      let t :=
        if bool_decide (entry = "") then t
        else if isHopField entry then t
        else
          let '(bitmap, call, version, build, ip) := parsePC92Entry entry in
          if bool_decide (TrimSpace call = "") then t
          else if EqualFold recordType "D" then with_rows (sql_delete origin call (rows t)) t
          else upsertPeerNode origin bitmap call version build ip updatedAt t in
      apply_entries origin recordType updatedAt rest t
  end.

Definition applyPC92 (f : Frame) (now : Z) (t : topologyStore) : topologyStore :=
  let fields := payloadFields f in
  if (length fields <? 3)%nat then t
  else
    let origin := TrimSpace (default "" (fields !! 0%nat)) in
    let origin := if bool_decide (origin = "") then f_Type f else origin in
    let recordType := TrimSpace (default "" (fields !! 2%nat)) in
    apply_entries origin recordType (now / second) (drop 3 fields) t.

Definition applyLegacy (f : Frame) (now : Z) (t : topologyStore) : topologyStore :=
  with_rows (rows t ++ [mkRow (f_Type f) 0 "" "" "" "" (now / second)]) t.

Definition topology_prune (now : Z) (t : topologyStore) : topologyStore :=
  let cutoff := (now - retention t) / second in
  with_rows (filter (fun r => ~ (r_updated r < cutoff)) (rows t)) t.

(** ** Backoff: theorems *)

(** Delays before the first success: doubling from the base up to the maximum. *)
Definition schedule (base max : Z) (k : nat) : Z := Z.min max (base * 2 ^ Z.of_nat k).

Lemma backoff_Next_schedule base max k :
  0 < base <= max -> max < 2 ^ 62 ->
  backoff_Next (mkBackoff (schedule base max k) max)
  = (schedule base max k, mkBackoff (schedule base max (S k)) max).
Proof.
  intros Hb Hm. unfold backoff_Next, schedule. cbn [cur max_delay].
  rewrite Nat2Z.inj_succ, Z.pow_succ_r by lia.
  assert (0 < 2 ^ Z.of_nat k) as Hp by (apply Z.pow_pos_nonneg; lia).
  set (p := base * 2 ^ Z.of_nat k). assert (base <= p) by (unfold p; nia).
  replace (base * (2 * 2 ^ Z.of_nat k)) with (2 * p) by (unfold p; ring).
  destruct (Z.leb_spec max (Z.min max p)).
  - do 2 f_equal; lia.
  - rewrite int64_id by (unfold in_int64, min_int64, max_int64; lia).
    f_equal. f_equal. destruct (Z.ltb_spec max (Z.min max p * 2)); lia.
Qed.

Lemma failed_schedule base max k n :
  0 < base <= max -> max < 2 ^ 62 ->
  runOutbound (mkBackoff (schedule base max k) max) (repeat DialFailed n)
  = map (schedule base max) (seq k n).
Proof.
  intros Hb Hm. revert k. induction n as [|n IH]; intros k; [done|]. cbn [repeat runOutbound seq map].
  rewrite backoff_Next_schedule by done. by rewrite IH.
Qed.

Lemma runOutbound_zero max rounds :
  0 < max -> runOutbound (mkBackoff 0 max) rounds = map (fun _ => 0) rounds.
Proof.
  intros Hm. induction rounds as [|r rounds IH]; [done|]. cbn [runOutbound map].
  assert (backoff_Next (mkBackoff 0 max) = (0, mkBackoff 0 max)) as Hn.
  { unfold backoff_Next. cbn [cur max_delay]. rewrite (proj2 (Z.leb_gt max 0)) by done.
    change (int64 (0 * 2)) with 0. by rewrite (proj2 (Z.ltb_ge max 0)) by lia. }
  destruct r; cbn [backoff_Reset max_delay]; unfold backoff_Reset; cbn [max_delay]; by rewrite Hn, IH.
Qed.

Lemma runOutbound_app b xs ys :
  exists b', max_delay b' = max_delay b /\ runOutbound b (xs ++ ys) = runOutbound b xs ++ runOutbound b' ys.
Proof.
  revert b. induction xs as [|r xs IH]; intros b; [by exists b|]. cbn [app runOutbound].
  set (b0 := match r with DialFailed => b | SessionEnded => backoff_Reset b end).
  destruct (backoff_Next b0) as [d b1] eqn:E.
  destruct (IH b1) as (b' & Hm & ->). exists b'. split; [|done]. rewrite Hm.
  assert (max_delay b1 = max_delay b0) as ->.
  { unfold backoff_Next in E. destruct (_ <=? _); by injection E as <- <-. }
  unfold b0. by destruct r.
Qed.

(** The reconnect delays of a peer.  While dials keep failing they double from
    the configured base to the maximum; but after the first session that was ever
    established every further delay is zero, because [Reset] sets the current delay to
    0 and doubling 0 never leaves it.  The comment of [Reset] says that [Next] then
    restarts at the base. *)
Theorem reconnect_delays base max n rounds :
  0 < base <= max -> max < 2 ^ 62 ->
  runOutbound (newBackoff base max) (repeat DialFailed n ++ SessionEnded :: rounds)
  = map (schedule base max) (seq 0 n) ++ 0 :: map (fun _ => 0) rounds.
Proof.
  intros Hb Hm.
  assert (newBackoff base max = mkBackoff (schedule base max 0) max) as Hnew.
  { unfold newBackoff, schedule. rewrite (proj2 (Z.leb_gt base 0)), (proj2 (Z.ltb_ge max base)) by lia.
    f_equal. simpl. lia. }
  rewrite Hnew. destruct (runOutbound_app (mkBackoff (schedule base max 0) max) (repeat DialFailed n)
    (SessionEnded :: rounds)) as (b' & Hmax & ->).
  rewrite failed_schedule by done. f_equal.
  assert (runOutbound b' (SessionEnded :: rounds) = runOutbound (mkBackoff 0 max) (SessionEnded :: rounds)) as ->.
  { cbn [runOutbound]. unfold backoff_Reset. by rewrite Hmax. }
  rewrite runOutbound_zero by lia. done.
Qed.

Lemma reconnect_delays_witness :
  runOutbound (newBackoff (2 * second) (30 * second)) (repeat DialFailed 5 ++ SessionEnded :: [DialFailed; DialFailed])
  = map (schedule (2 * second) (30 * second)) (seq 0 5) ++ 0 :: map (fun _ => 0) [DialFailed; DialFailed].
Proof.
  apply (reconnect_delays (2 * second) (30 * second) 5 [DialFailed; DialFailed]); vm_compute;
    [split; [reflexivity|discriminate]|reflexivity].
Defined.

(** ** Duplicate suppression: theorems *)

Inductive dedupe_op := Mark (key : string) (now : Z) | Prune (now : Z).

Definition op_time (o : dedupe_op) : Z := match o with Mark _ t | Prune t => t end.

(** The times at which [key] was reported as new, in a run. *)
Fixpoint accepted (key : string) (c : dedupeCache) (ops : list dedupe_op) : list Z :=
  match ops with
  | [] => []
  | Mark k now :: rest =>
      let '(ok, c') := markSeen c k now in
      (if ok && bool_decide (k = key) then [now] else []) ++ accepted key c' rest
  | Prune now :: rest => accepted key (dedupe_prune c now) rest
  end.

(** Consecutive times lie more than [d] apart; [prev] is the last one before. *)
Fixpoint apart (d : Z) (prev : option Z) (l : list Z) : Prop :=
  match l with
  | [] => True
  | t :: l' => (match prev with Some p => d < t - p | None => True end) /\ apart d (Some t) l'
  end.

Lemma apart_weaken d prev prev' l :
  (forall p', prev' = Some p' -> exists p, prev = Some p /\ p' <= p) -> apart d prev l -> apart d prev' l.
Proof.
  intros H. destruct l as [|t l]; [done|]. cbn [apart]. intros [H1 H2]. split; [|done].
  destruct prev' as [p'|]; [|done]. destruct (H p' eq_refl) as (p & -> & Hp). lia.
Qed.

Lemma prune_lookup c now key :
  items (dedupe_prune c now) !! key =
    (match items c !! key with
     | Some t => if bool_decide (time_sub now t <= ttl c) then Some t else None
     | None => None
     end).
Proof.
  cbn. rewrite map_lookup_filter. destruct (items c !! key) as [t|]; [|done]. simpl.
  destruct (decide (time_sub now t <= ttl c)).
  - by rewrite option_guard_True, bool_decide_eq_true_2.
  - by rewrite option_guard_False, bool_decide_eq_false_2.
Qed.

Lemma time_sub_gt now t d : 0 <= d -> d < time_sub now t -> d < now - t.
Proof. unfold time_sub, min_int64, max_int64. lia. Qed.

(** The invariant: the cache knows the last acceptance until a prune later than
    [ttl] has dropped it. *)
Lemma accepted_apart key c ops prev :
  0 <= ttl c ->
  (forall t, items c !! key = Some t -> prev = Some t) ->
  (forall p, prev = Some p -> items c !! key = None ->
     Forall (fun o => ttl c < op_time o - p) ops) ->
  Sorted Z.le (map op_time ops) ->
  apart (ttl c) prev (accepted key c ops).
Proof.
  revert c prev. induction ops as [|o ops IH]; intros c prev Httl Hin Hout Hsorted; [done|].
  apply Sorted_inv in Hsorted as [Hs Hhd].
  assert (forall p, ttl c < op_time o - p -> Forall (fun o => ttl c < op_time o - p) ops) as Hlater.
  { intros p Hp. apply Forall_forall. intros o' Ho'.
    assert (op_time o <= op_time o').
    { apply (Sorted_cons Hs) in Hhd. apply Sorted_StronglySorted in Hhd; [|intros x y z; lia].
      inversion Hhd as [|?? _ Hall]; subst. eapply Forall_forall in Hall; [exact Hall|].
      by apply list_elem_of_fmap_2. }
    lia. }
  destruct o as [k now|now]; cbn [accepted op_time] in *.
  - unfold markSeen. destruct (bool_decide (k = "")) eqn:Ek.
    { cbn [andb app]. apply IH; try done. intros p Hp Hn. specialize (Hout p Hp Hn). by inversion Hout. }
    destruct (items c !! k) as [t|] eqn:Hk.
    { cbn [andb app]. apply IH; try done. intros p Hp Hn. specialize (Hout p Hp Hn). by inversion Hout. }
    cbn [andb]. destruct (bool_decide (k = key)) eqn:E; boolify; cbn [app apart].
    + subst k. split; [destruct prev as [p|]; [|done]; specialize (Hout p eq_refl Hk); by inversion Hout|].
      apply (IH (mkDedupe (<[key := now]> (items c)) (ttl c))); try done.
      * intros t. cbn. rewrite lookup_insert_eq. congruence.
      * intros p _. cbn. by rewrite lookup_insert_eq.
    + apply (IH (mkDedupe (<[k := now]> (items c)) (ttl c))); try done.
      * intros t. cbn. rewrite lookup_insert_ne by done. apply Hin.
      * intros p Hp. cbn. rewrite lookup_insert_ne by done. intros Hn. specialize (Hout p Hp Hn). by inversion Hout.
  - apply (IH (dedupe_prune c now)); try done.
    + intros t. rewrite prune_lookup. destruct (items c !! key) as [t'|] eqn:E; [|done].
      case_bool_decide; [|done]. intros [= <-]. by apply Hin.
    + intros p Hp. rewrite prune_lookup. cbn [dedupe_prune ttl].
      destruct (items c !! key) as [t|] eqn:E.
      * case_bool_decide as Hle; [done|]. intros _. rewrite (Hin t eq_refl) in Hp. injection Hp as <-.
        apply Hlater, time_sub_gt; lia.
      * intros _. specialize (Hout p Hp eq_refl). by inversion Hout.
Qed.

(** Across all links, the same frame is accepted at most once per [ttl]: in every
    run of marks and maintenance prunes with a clock that does not go back, two
    acceptances of a key are more than [ttl] apart, however often it is offered. *)
Theorem dedupe_once_per_ttl key d ops :
  0 <= d -> Sorted Z.le (map op_time ops) -> apart d None (accepted key (newDedupeCache d) ops).
Proof.
  intros Hd Hs. apply (accepted_apart key (newDedupeCache d) ops None); try done.
Qed.

Lemma dedupe_once_per_ttl_witness :
  apart 10 None (accepted "k" (newDedupeCache 10) [Mark "k" 0; Mark "k" 5; Prune 11; Mark "k" 12; Mark "j" 13]).
Proof.
  apply (dedupe_once_per_ttl "k" 10 [Mark "k" 0; Mark "k" 5; Prune 11; Mark "k" 12; Mark "j" 13]).
  - vm_compute. discriminate.
  - cbn. repeat constructor; vm_compute; discriminate.
Defined.

(** When a key is new again: exactly when a prune has dropped it. *)
Lemma markSeen_after_prune c key p now :
  (markSeen (dedupe_prune c p) key now).1 = true <->
  key <> "" /\ forall t, items c !! key = Some t -> ttl c < time_sub p t.
Proof.
  unfold markSeen. rewrite prune_lookup. case_bool_decide as Hk; [naive_solver|].
  destruct (items c !! key) as [t|]; [|naive_solver].
  case_bool_decide; simpl; split; try done.
  - intros [_ H']. specialize (H' t eq_refl). lia.
  - intros _. split; [done|]. intros t' [= <-]. lia.
Qed.

(** ** The node table: theorems *)

(** Rows of a named node are unique per origin and call. *)
Definition unique_nodes (t : topologyStore) : Prop :=
  NoDup (map (fun r => (r_origin r, r_call r)) (filter (fun r => r_call r <> "") (rows t))).

Inductive topology_op := OpPC92 (f : Frame) (now : Z) | OpLegacy (f : Frame) (now : Z) | OpPrune (now : Z).

Definition topology_step (t : topologyStore) (o : topology_op) : topologyStore :=
  match o with
  | OpPC92 f now => applyPC92 f now t
  | OpLegacy f now => applyLegacy f now t
  | OpPrune now => topology_prune now t
  end.

Lemma unique_filter (P : peer_row -> Prop) {HP : forall r, Decision (P r)} l :
  NoDup (map (fun r => (r_origin r, r_call r)) (filter (fun r => r_call r <> "") l)) ->
  NoDup (map (fun r => (r_origin r, r_call r)) (filter (fun r => r_call r <> "") (filter P l))).
Proof.
  intros H. eapply sublist_NoDup; [exact H|]. apply fmap_sublist. clear H.
  induction l as [|r l IH]; [done|]. rewrite (filter_cons P), (filter_cons _ r l).
  destruct (decide (P r)); [rewrite filter_cons|]; case_decide; try done; by constructor.
Qed.

Lemma upsert_unique origin bitmap call version build ip u t :
  unique_nodes t -> unique_nodes (upsertPeerNode origin bitmap call version build ip u t).
Proof.
  intros H. unfold unique_nodes, upsertPeerNode. cbn [with_rows rows]. rewrite filter_app, map_app.
  apply NoDup_app. split_and!; [by apply unique_filter| |].
  - intros k Hk Hin. rewrite filter_cons, filter_nil in Hin. case_decide; [|set_solver].
    apply list_elem_of_singleton in Hin. cbn in Hin. subst k.
    apply list_elem_of_fmap in Hk as (r & Hr & Hin). apply list_elem_of_filter in Hin as [_ Hin].
    unfold sql_delete in Hin. apply list_elem_of_filter in Hin as [Hne _]. naive_solver.
  - rewrite filter_cons, filter_nil. case_decide; [apply NoDup_singleton|apply NoDup_nil_2].
Qed.

Lemma apply_entries_unique origin ty u entries t :
  unique_nodes t -> unique_nodes (apply_entries origin ty u entries t).
Proof.
  revert t. induction entries as [|e entries IH]; intros t H; [done|]. cbn [apply_entries]. apply IH.
  case_bool_decide; [done|]. destruct (isHopField _); [done|].
  destruct (parsePC92Entry _) as [[[[bm call] v] b] ip]. case_bool_decide; [done|].
  destruct (EqualFold ty "D"); [by apply unique_filter|by apply upsert_unique].
Qed.

(** Whatever frames arrive, in whatever order, and whenever maintenance runs, the
    node table never holds two rows for the same origin and call, and after any
    maintenance no row is older than the retention. *)
Theorem topology_unique ops t :
  unique_nodes t ->
  unique_nodes (fold_left topology_step ops t) /\
  forall now, Forall (fun r => (now - retention t) / second <= r_updated r)
                     (rows (topology_prune now (fold_left topology_step ops t))).
Proof.
  intros H. split.
  - revert t H. induction ops as [|o ops IH]; intros t H; [done|]. cbn [fold_left]. apply IH.
    destruct o as [f now|f now|now]; cbn [topology_step].
    + unfold applyPC92. destruct (_ <? _)%nat; [done|]. by apply apply_entries_unique.
    + unfold unique_nodes, applyLegacy. cbn [with_rows rows]. rewrite filter_app, filter_cons, filter_nil.
      rewrite decide_False by (cbn; congruence). by rewrite app_nil_r.
    + by apply unique_filter.
  - intros now. assert (retention (fold_left topology_step ops t) = retention t) as Hr.
    { clear H. revert t. induction ops as [|o ops IH]; intros t; [done|]. cbn [fold_left]. rewrite IH.
      destruct o as [f now'|f now'|now']; cbn [topology_step]; try done.
      unfold applyPC92. destruct (_ <? _)%nat; [done|]. generalize (drop 3 (payloadFields f)) as l.
      set (org := if bool_decide _ then _ else _). set (ty := TrimSpace _). intros l. revert t.
      induction l as [|e l IHl]; intros t; [done|]. cbn [apply_entries]. rewrite IHl.
      case_bool_decide; [done|]. destruct (isHopField _); [done|].
      destruct (parsePC92Entry _) as [[[[bm call] v] b] ip]. case_bool_decide; [done|].
      by destruct (EqualFold ty "D"). }
    unfold topology_prune. rewrite Hr. cbn [with_rows rows]. apply Forall_forall. intros r Hin.
    apply list_elem_of_filter in Hin as [Hle _]. lia.
Qed.

Lemma topology_unique_witness :
  let ops := match ParseFrame "PC92^W3LPL^123^A^^5W3LPL:5457^H4^" with
             | Some f => [OpPC92 f 0; OpPC92 f (5 * second); OpLegacy f 0; OpLegacy f 1] | None => [] end in
  unique_nodes (fold_left topology_step ops (mkTopology [] hour)) /\
  forall now, Forall (fun r => (now - hour) / second <= r_updated r)
                     (rows (topology_prune now (fold_left topology_step ops (mkTopology [] hour)))).
Proof.
  intros ops. apply (topology_unique ops (mkTopology [] hour)). apply NoDup_nil_2.
Defined.
