(* ===== verification/PeerManager.v ===== *)
(** * PeerManager: what the cluster does with a frame from a peer

    [Manager] of [peer/manager.go]: the dispatch of [HandleFrame], forwarding to the
    other peers, ingest of spots and delivery of announcements to the telnet server.
    A session is what the manager uses of it: the protocol it speaks, its remote call
    and its bounded write queue.  Queues drop when full, as the [select] with
    [default] does.  Callbacks to the telnet server are recorded in order; a callback
    that is not installed is [false] in the flags.  Cancelled contexts (shutdown) and
    log output are left out.

    A frequency that is an infinity or NaN cannot be represented, so [HandleFrame] has
    no result for such a frame. *)

From S2P Require Import Prelude GoText GoNum Callsign Bands Spot SpotFormat KeywordScan CommentParser GoParse PeerFrame PeerSpot PeerLink.
From Stdlib Require Import QArith.

Local Open Scope string_scope.
Local Open Scope list_scope.
Local Open Scope Z_scope.

(** ** State *)

Record session := mkSession {
  s_pc9x : bool;
  s_remoteCall : string;
  s_queue : list string;        (** writeCh *)
  s_cap : nat
}.

Inductive client_event :=
  | WWVLine (kind line : string)
  | Announce (line : string)
  | Direct (to line : string)
  | DropPC61 (e : spot_error).

Record Manager := mkManager {
  m_localCall : string;
  m_maxAgeSeconds : Z;
  m_hopCount : Z;
  m_pc92MaxBytes : Z;
  m_topology : bool;                      (** topology store and its channels exist *)
  m_pc92Ch : list (Frame * Z);
  m_legacyCh : list (Frame * Z);
  m_sessions : gmap string session;
  m_dedupe : dedupeCache;
  m_ingest : list Spot;
  m_ingestCap : nat;
  m_hasWWV : bool;
  m_hasAnnounce : bool;
  m_hasDirect : bool;
  m_events : list client_event
}.

Definition defaultHopCount : Z := 99.
Definition defaultPC92Queue : nat := 64.
Definition defaultLegacyQueue : nat := 64.

Definition with_sessions (ss : gmap string session) (m : Manager) : Manager :=
  mkManager (m_localCall m) (m_maxAgeSeconds m) (m_hopCount m) (m_pc92MaxBytes m) (m_topology m)
    (m_pc92Ch m) (m_legacyCh m) ss (m_dedupe m) (m_ingest m) (m_ingestCap m) (m_hasWWV m)
    (m_hasAnnounce m) (m_hasDirect m) (m_events m).

Definition with_dedupe (d : dedupeCache) (m : Manager) : Manager :=
  mkManager (m_localCall m) (m_maxAgeSeconds m) (m_hopCount m) (m_pc92MaxBytes m) (m_topology m)
    (m_pc92Ch m) (m_legacyCh m) (m_sessions m) d (m_ingest m) (m_ingestCap m) (m_hasWWV m)
    (m_hasAnnounce m) (m_hasDirect m) (m_events m).

Definition with_channels (p l : list (Frame * Z)) (m : Manager) : Manager :=
  mkManager (m_localCall m) (m_maxAgeSeconds m) (m_hopCount m) (m_pc92MaxBytes m) (m_topology m)
    p l (m_sessions m) (m_dedupe m) (m_ingest m) (m_ingestCap m) (m_hasWWV m)
    (m_hasAnnounce m) (m_hasDirect m) (m_events m).

Definition with_ingest (q : list Spot) (m : Manager) : Manager :=
  mkManager (m_localCall m) (m_maxAgeSeconds m) (m_hopCount m) (m_pc92MaxBytes m) (m_topology m)
    (m_pc92Ch m) (m_legacyCh m) (m_sessions m) (m_dedupe m) q (m_ingestCap m) (m_hasWWV m)
    (m_hasAnnounce m) (m_hasDirect m) (m_events m).

Definition add_event (e : client_event) (m : Manager) : Manager :=
  mkManager (m_localCall m) (m_maxAgeSeconds m) (m_hopCount m) (m_pc92MaxBytes m) (m_topology m)
    (m_pc92Ch m) (m_legacyCh m) (m_sessions m) (m_dedupe m) (m_ingest m) (m_ingestCap m) (m_hasWWV m)
    (m_hasAnnounce m) (m_hasDirect m) (m_events m ++ [e]).

(** ** Sending *)

(** A send on a bounded channel with a [default] case. *)
Definition try_send {A} (cap : nat) (x : A) (q : list A) : list A :=
  if (length q <? cap)%nat then q ++ [x] else q.

Definition sendLine (line : string) (s : session) : session :=
  mkSession (s_pc9x s) (s_remoteCall s) (try_send (s_cap s) line (s_queue s)) (s_cap s).

(** The loop over the sessions; they are independent, so their order is irrelevant. *)
Definition for_sessions (exclude : option string) (f : session -> session) (ss : gmap string session)
    : gmap string session :=
  map_imap (fun id s => Some (if bool_decide (exclude = Some id) then s else f s)) ss.

Definition too_old (m : Manager) (s : Spot) (now : Z) : bool :=
  (0 <? m_maxAgeSeconds m) && (int64 (m_maxAgeSeconds m * second) <? time_sub now (Time s)).

Definition broadcastSpot (now : Z) (s : Spot) (hop : Z) (origin : string) (exclude : option string)
    (m : Manager) : Manager :=
  if too_old m s now then m
  else
    let origin := if bool_decide (TrimSpace origin = "") then m_localCall m else origin in
    with_sessions (for_sessions exclude (fun se => sendLine (spot_line s origin hop (s_pc9x se)) se)
                     (m_sessions m)) m.

Definition forwardFrame (f : Frame) (hop : Z) (exclude : option string) (pc9xOnly : bool) (m : Manager) : Manager :=
  let line := Encode f hop in
  with_sessions (for_sessions exclude
    (fun se => if pc9xOnly && negb (s_pc9x se) then se else sendLine line se) (m_sessions m)) m.

Definition ingestSpot (now : Z) (s : Spot) (m : Manager) : Manager :=
  if too_old m s now then m
  else with_ingest (try_send (m_ingestCap m) s (m_ingest m)) m.

Definition broadcastWWV (ev : WWVEvent) (m : Manager) : Manager :=
  let '(kind, line) := formatWWVLine ev in
  if bool_decide (line = "") then m
  else if m_hasWWV m then add_event (WWVLine kind line) m else m.

Definition routePC93 (msg : pc93Message) (m : Manager) : Manager :=
  let line := formatPC93Line msg in
  if bool_decide (line = "") then m
  else match pc93Target msg with
       | Some target => if bool_decide (target = "") then (if m_hasAnnounce m then add_event (Announce line) m else m)
                        else if m_hasDirect m then add_event (Direct target line) m else m
       | None => if m_hasAnnounce m then add_event (Announce line) m else m
       end.

Definition PublishDX (now : Z) (s : Spot) (m : Manager) : Manager :=
  let hop := if m_hopCount m <=? 0 then defaultHopCount else m_hopCount m in
  broadcastSpot now s hop (m_localCall m) None m.

Definition registerSession (id : string) (s : session) (m : Manager) : Manager :=
  with_sessions (<[id := s]> (m_sessions m)) m.

Definition unregisterSession (id : string) (m : Manager) : Manager :=
  with_sessions (delete id (m_sessions m)) m.

(** ** HandleFrame *)

(** Mark a key and run [k] when it is new. *)
Definition when_new (key : string) (now : Z) (k : Manager -> Manager) (m : Manager) : Manager :=
  let '(ok, d) := markSeen (m_dedupe m) key now in
  let m := with_dedupe d m in
  if ok then k m else m.

Definition enqueue_pc92 (f : Frame) (now : Z) (m : Manager) : Manager :=
  if m_topology m then
    if (0 <? m_pc92MaxBytes m) && (m_pc92MaxBytes m <? len (f_Raw f)) then m
    else with_channels (try_send defaultPC92Queue (f, now) (m_pc92Ch m)) (m_legacyCh m) m
  else m.

Definition enqueue_legacy (f : Frame) (now : Z) (m : Manager) : Manager :=
  if m_topology m then with_channels (m_pc92Ch m) (try_send defaultLegacyQueue (f, now) (m_legacyCh m)) m
  else m.

Definition is_spot_frame (ty : string) : bool := bool_decide (ty ∈ ["PC26"; "PC11"; "PC61"]).

Definition handle_spot (f : Frame) (sid : string) (now : Z) (s : Spot) (m : Manager) : Manager :=
  let m := ingestSpot now s m in
  if 1 <? f_Hop f then
    when_new (dxKey f s) now
      (fun m => if bool_decide (f_Type f = "PC26") then forwardFrame f (f_Hop f - 1) (Some sid) true m
                else broadcastSpot now s (f_Hop f - 1) (SourceNode s) (Some sid) m) m
  else m.

(** [HandleFrame]; [sid] and [remote] are the session's identifier and remote call. *)
Definition HandleFrame (m : Manager) (f : Frame) (sid remote : string) (now : Z) : option Manager :=
  let ty := f_Type f in
  if bool_decide (ty = "PC92") then
    let m := enqueue_pc92 f now m in
    Some (if 1 <? f_Hop f
          then when_new (pc92Key f) now (forwardFrame f (f_Hop f - 1) (Some sid) true) m else m)
  else if bool_decide (ty ∈ ["PC19"; "PC16"; "PC17"; "PC21"]) then Some (enqueue_legacy f now m)
  else if is_spot_frame ty then
    match parseSpotFromFrame now f remote with
    | SpotErr e => Some (if bool_decide (ty = "PC61") then add_event (DropPC61 e) m else m)
    | SpotNonFinite => None
    | SpotOk s => Some (handle_spot f sid now s m)
    end
  else if bool_decide (ty ∈ ["PC23"; "PC73"]) then
    match parseWWV f with
    | Some ev => Some (when_new (wwvKey f) now (broadcastWWV ev) m)
    | None => Some m
    end
  else if bool_decide (ty = "PC93") then
    match parsePC93 f with
    | Some msg => Some (when_new (pc93Key f) now (routePC93 msg) m)
    | None => Some m
    end
  else Some m.

(** ** Inbound access *)

(** [net.IPNet]: network and mask bytes (4 or 16). *)
Record IPNet := mkIPNet { n_ip : list Z; n_mask : list Z }.

Definition v4InV6 : list Z := [0; 0; 0; 0; 0; 0; 0; 0; 0; 0; 255; 255].

(** [IP.To4], or the address itself. *)
Definition shorten (ip : list Z) : list Z :=
  if bool_decide (length ip = 16%nat) && bool_decide (take 12 ip = v4InV6) then drop 12 ip else ip.

Fixpoint masked_eq (n m i : list Z) : bool :=
  match n, m, i with
  | a :: n', b :: m', c :: i' => (Z.land a b =? Z.land c b) && masked_eq n' m' i'
  | _, _, _ => true
  end.

Definition IPNet_Contains (b : IPNet) (ip : list Z) : bool :=
  let ip := shorten ip in
  bool_decide (length ip = length (n_ip b)) && masked_eq (n_ip b) (n_mask b) ip.

(** The text [parseIPACL] hands to [net.ParseCIDR]: a bare host gets its full mask. *)
Definition acl_text (cidr : string) : string :=
  let cidr := TrimSpace cidr in
  if Contains cidr "/" then cidr
  else
    let with32 := cidr +:+ "/32" in
    if Contains with32 ":" then stake (String.length with32 - 3) with32 +:+ "/128" else with32.

(** [allowInbound]; [ip] is the parsed remote address, [None] when it does not parse. *)
Definition allowInbound (allowCalls : gset string) (allowIPs : list IPNet) (call : string) (ip : option (list Z))
    : bool :=
  let call := ToUpper (TrimSpace call) in
  if (0 <? size allowCalls)%nat && negb (bool_decide (call ∈ allowCalls)) then false
  else match allowIPs with
       | [] => true
       | _ => match ip with
              | None => false
              | Some ip => existsb (fun b => IPNet_Contains b ip) allowIPs
              end
       end.

(** ** Relaying: theorems *)

Lemma for_sessions_lookup exclude f ss id :
  for_sessions exclude f ss !! id =
    (fun s => if bool_decide (exclude = Some id) then s else f s) <$> ss !! id.
Proof. unfold for_sessions. rewrite map_lookup_imap. by destruct (ss !! id). Qed.

(** A line that may leave for another peer because of [f]: the frame itself, for
    peers that speak pc9x, or the spot read from it in the peer's own format; either
    way with the hop count lowered by one. *)
Definition relayed_line (f : Frame) (remote : string) (now : Z) (pc9x : bool) (line : string) : Prop :=
  (pc9x = true /\ line = Encode f (f_Hop f - 1)) \/
  exists s origin, parseSpotFromFrame now f remote = SpotOk s /\ line = spot_line s origin (f_Hop f - 1) pc9x.

(** How a session may change while [f] from [sid] is handled. *)
Definition relays (f : Frame) (sid remote : string) (now : Z) (ss ss' : gmap string session) : Prop :=
  forall id, match ss !! id, ss' !! id with
  | Some s, Some s' =>
      s' = s \/ (id <> sid /\ 1 < f_Hop f /\
                 exists line, s' = sendLine line s /\ relayed_line f remote now (s_pc9x s) line)
  | None, None => True
  | _, _ => False
  end.

Lemma relays_refl f sid remote now ss : relays f sid remote now ss ss.
Proof. intros id. destruct (ss !! id); auto. Qed.

Lemma relays_for f sid remote now g ss :
  (forall s, g s = s \/ (1 < f_Hop f /\ exists line, g s = sendLine line s /\ relayed_line f remote now (s_pc9x s) line)) ->
  relays f sid remote now ss (for_sessions (Some sid) g ss).
Proof.
  intros Hg id. rewrite for_sessions_lookup. destruct (ss !! id) as [s|]; simpl; [|done].
  destruct (bool_decide (Some sid = Some id)) eqn:E; [by left|]. boolify.
  destruct (Hg s) as [->|(H1 & H2)]; [by left|]. right. split; [congruence|auto].
Qed.

Lemma forwardFrame_relays f sid remote now m :
  1 < f_Hop f -> relays f sid remote now (m_sessions m)
                   (m_sessions (forwardFrame f (f_Hop f - 1) (Some sid) true m)).
Proof.
  intros Hh. apply relays_for. intros s. cbn [andb]. destruct (s_pc9x s) eqn:E; cbn [negb]; [|by left].
  right. split; [done|]. eexists. split; [done|]. by left.
Qed.

Lemma broadcastSpot_relays f sid remote now s org m :
  1 < f_Hop f -> parseSpotFromFrame now f remote = SpotOk s ->
  relays f sid remote now (m_sessions m) (m_sessions (broadcastSpot now s (f_Hop f - 1) org (Some sid) m)).
Proof.
  intros Hh Hp. unfold broadcastSpot. destruct (too_old m s now); [apply relays_refl|].
  apply relays_for. intros se. right. split; [done|]. eexists. split; [done|]. right. eauto.
Qed.

Lemma when_new_sessions key now k m (P : gmap string session -> Prop) :
  P (m_sessions m) -> (forall m', m_sessions m' = m_sessions m -> P (m_sessions (k m'))) ->
  P (m_sessions (when_new key now k m)).
Proof.
  intros H1 H2. unfold when_new. destruct (markSeen (m_dedupe m) key now) as [ok d].
  destruct ok; [by apply H2|done].
Qed.

Lemma ingestSpot_sessions now s m : m_sessions (ingestSpot now s m) = m_sessions m.
Proof. unfold ingestSpot. by destruct (too_old m s now). Qed.

Lemma enqueue_sessions f now m :
  m_sessions (enqueue_pc92 f now m) = m_sessions m /\ m_sessions (enqueue_legacy f now m) = m_sessions m.
Proof. unfold enqueue_pc92, enqueue_legacy. destruct (m_topology m); [|done]. by destruct (_ && _). Qed.

Lemma client_sessions ev msg m :
  m_sessions (broadcastWWV ev m) = m_sessions m /\ m_sessions (routePC93 msg m) = m_sessions m.
Proof.
  unfold broadcastWWV, routePC93. split.
  - destruct (formatWWVLine ev) as [k l]. repeat case_match; done.
  - repeat case_match; done.
Qed.

(** The relay rule.  A frame is never sent back to the session it came from; each
    other session gets at most one line for it, which carries the hop count lowered by
    one, and only when the hop count is above one; sessions that speak the old
    protocol never get the raw frame. *)
Theorem handle_frame_relays m f sid remote now m' :
  HandleFrame m f sid remote now = Some m' -> relays f sid remote now (m_sessions m) (m_sessions m').
Proof.
  unfold HandleFrame. cbv zeta.
  destruct (bool_decide (f_Type f = "PC92")).
  { intros [= <-]. destruct (Z.ltb_spec 1 (f_Hop f)).
    - apply when_new_sessions; [rewrite (proj1 (enqueue_sessions f now m)); apply relays_refl|].
      intros m1 Hm1. rewrite (proj1 (enqueue_sessions f now m)) in Hm1. rewrite <- Hm1.
      by apply forwardFrame_relays.
    - rewrite (proj1 (enqueue_sessions f now m)). apply relays_refl. }
  destruct (bool_decide (f_Type f ∈ ["PC19"; "PC16"; "PC17"; "PC21"])).
  { intros [= <-]. rewrite (proj2 (enqueue_sessions f now m)). apply relays_refl. }
  destruct (is_spot_frame (f_Type f)).
  { destruct (parseSpotFromFrame now f remote) as [e| |s] eqn:Ep; [|done|]; intros [= <-].
    - destruct (bool_decide _); apply relays_refl.
    - unfold handle_spot. destruct (Z.ltb_spec 1 (f_Hop f)).
      + apply when_new_sessions; [rewrite ingestSpot_sessions; apply relays_refl|].
        intros m1 Hm1. rewrite ingestSpot_sessions in Hm1. rewrite <- Hm1.
        destruct (bool_decide (f_Type f = "PC26")); [by apply forwardFrame_relays|by apply broadcastSpot_relays].
      + rewrite ingestSpot_sessions. apply relays_refl. }
  destruct (bool_decide (f_Type f ∈ ["PC23"; "PC73"])).
  { destruct (parseWWV f) as [ev|]; intros [= <-]; [|apply relays_refl].
    apply when_new_sessions; [apply relays_refl|]. intros m1 <-.
    rewrite (proj1 (client_sessions ev (mkPC93 "" "" "" "" "" "" "" "" 0) m1)). apply relays_refl. }
  destruct (bool_decide (f_Type f = "PC93")).
  { destruct (parsePC93 f) as [msg|]; intros [= <-]; [|apply relays_refl].
    apply when_new_sessions; [apply relays_refl|]. intros m1 <-.
    rewrite (proj2 (client_sessions (mkWWV "" "" "" "" "" "" "" "" "" "" "" "" "" "" [] 0) msg m1)).
    apply relays_refl. }
  intros [= <-]. apply relays_refl.
Qed.

(** A manager with two peers, one of each protocol. *)
Definition two_peers : Manager :=
  mkManager "N2WQ" 0 10 0 true [] [] (<["a" := mkSession true "W3LPL" [] 4]> (<["b" := mkSession false "GB7BAA" [] 4]> ∅))
    (newDedupeCache (10 * minute)) [] 8 true true true [].

Definition pc92_frame : Frame := default (mkFrame "" [] 0 "") (ParseFrame "PC92^W3LPL^123^A^^5W3LPL:5457^H4^").

Lemma handle_frame_relays_witness :
  exists m', HandleFrame two_peers pc92_frame "c" "X" 0 = Some m' /\
    relays pc92_frame "c" "X" 0 (m_sessions two_peers) (m_sessions m').
Proof.
  destruct (HandleFrame two_peers pc92_frame "c" "X" 0) as [m'|] eqn:E.
  - exists m'. split; [reflexivity|]. exact (handle_frame_relays two_peers pc92_frame "c" "X" 0 m' E).
  - exfalso. vm_compute in E. discriminate E.
Defined.

(** The key under which a frame that may be relayed is remembered. *)
Definition relay_key (f : Frame) (remote : string) (now : Z) : option string :=
  if negb (1 <? f_Hop f) then None
  else if bool_decide (f_Type f = "PC92") then Some (pc92Key f)
  else if is_spot_frame (f_Type f) then
    match parseSpotFromFrame now f remote with SpotOk s => Some (dxKey f s) | _ => None end
  else None.

Lemma key_nonempty f remote now k : relay_key f remote now = Some k -> k <> "".
Proof.
  unfold relay_key. repeat case_match; try done; intros [= <-]; unfold pc92Key, dxKey; done.
Qed.

Lemma when_new_marks key now k m :
  key <> "" -> (forall m', m_dedupe (k m') = m_dedupe m') ->
  is_Some (items (m_dedupe (when_new key now k m)) !! key).
Proof.
  intros Hk Hd. unfold when_new, markSeen. rewrite bool_decide_eq_false_2 by done.
  destruct (items (m_dedupe m) !! key) as [t|] eqn:E.
  - cbn. by rewrite E.
  - rewrite Hd. cbn. rewrite lookup_insert_eq. done.
Qed.

Lemma when_new_skips key now k m :
  is_Some (items (m_dedupe m) !! key) -> m_sessions (when_new key now k m) = m_sessions m.
Proof.
  intros [t Ht]. unfold when_new, markSeen. rewrite Ht. by case_bool_decide.
Qed.

Lemma forward_dedupe f h ex b m : m_dedupe (forwardFrame f h ex b m) = m_dedupe m.
Proof. done. Qed.

Lemma broadcast_dedupe now s h o ex m : m_dedupe (broadcastSpot now s h o ex m) = m_dedupe m.
Proof. unfold broadcastSpot. by destruct (too_old m s now). Qed.

Lemma enqueue_dedupe f now m : m_dedupe (enqueue_pc92 f now m) = m_dedupe m.
Proof. unfold enqueue_pc92. destruct (m_topology m); [|done]. by destruct (_ && _). Qed.

Lemma ingest_dedupe now s m : m_dedupe (ingestSpot now s m) = m_dedupe m.
Proof. unfold ingestSpot. by destruct (too_old m s now). Qed.

Lemma spot_not_legacy ty :
  is_spot_frame ty = true -> bool_decide (ty ∈ ["PC19"; "PC16"; "PC17"; "PC21"]) = false.
Proof.
  unfold is_spot_frame. rewrite bool_decide_eq_true, !elem_of_cons, elem_of_nil.
  intros [->|[->|[->|[]]]]; by vm_compute.
Qed.

(** Each relayed thing once.  After a frame has been handled, any frame with the
    same relay key - the same PC92 line, or a spot of the same type, calls, frequency
    and second, from whichever peer - leaves every write queue as it was, until
    maintenance prunes the key. *)
Theorem relayed_once m f1 sid1 r1 now1 f2 sid2 r2 now2 key m1 m2 :
  relay_key f1 r1 now1 = Some key -> relay_key f2 r2 now2 = Some key ->
  HandleFrame m f1 sid1 r1 now1 = Some m1 -> HandleFrame m1 f2 sid2 r2 now2 = Some m2 ->
  m_sessions m2 = m_sessions m1.
Proof.
  intros Hk1 Hk2 H1 H2. pose proof (key_nonempty _ _ _ _ Hk1) as Hne.
  assert (is_Some (items (m_dedupe m1) !! key)) as Hin.
  { unfold relay_key in Hk1. unfold HandleFrame in H1. cbv zeta in H1.
    destruct (1 <? f_Hop f1) eqn:Eh; [|done]. cbn [negb] in Hk1.
    destruct (bool_decide (f_Type f1 = "PC92")).
    { injection Hk1 as <-. injection H1 as <-. by apply when_new_marks. }
    destruct (is_spot_frame (f_Type f1)) eqn:Es; [|done].
    rewrite (spot_not_legacy _ Es) in H1.
    destruct (parseSpotFromFrame now1 f1 r1) as [e| |s]; try done. injection Hk1 as <-. injection H1 as <-.
    unfold handle_spot. rewrite Eh. apply when_new_marks; [done|]. intros m'.
    destruct (bool_decide _); [done|apply broadcast_dedupe]. }
  unfold relay_key in Hk2. unfold HandleFrame in H2. cbv zeta in H2.
  destruct (1 <? f_Hop f2) eqn:Eh; [|done]. cbn [negb] in Hk2.
  destruct (bool_decide (f_Type f2 = "PC92")).
  { injection Hk2 as <-. injection H2 as <-. rewrite when_new_skips by (by rewrite enqueue_dedupe).
    apply enqueue_sessions. }
  destruct (is_spot_frame (f_Type f2)) eqn:Es; [|done].
  rewrite (spot_not_legacy _ Es) in H2.
  destruct (parseSpotFromFrame now2 f2 r2) as [e| |s]; try done. injection Hk2 as <-. injection H2 as <-.
  unfold handle_spot. rewrite Eh, when_new_skips by (by rewrite ingest_dedupe). apply ingestSpot_sessions.
Qed.

Lemma relayed_once_witness :
  exists m1 m2, HandleFrame two_peers pc92_frame "c" "X" 0 = Some m1 /\
    HandleFrame m1 pc92_frame "a" "W3LPL" 5 = Some m2 /\ m_sessions m2 = m_sessions m1.
Proof.
  destruct (HandleFrame two_peers pc92_frame "c" "X" 0) as [m1|] eqn:E1; [|vm_compute in E1; discriminate E1].
  destruct (HandleFrame m1 pc92_frame "a" "W3LPL" 5) as [m2|] eqn:E2.
  2: { unfold HandleFrame in E2. vm_compute in E2. discriminate E2. }
  exists m1, m2. split; [reflexivity|]. split; [exact E2|].
  exact (relayed_once two_peers pc92_frame "c" "X" 0 pc92_frame "a" "W3LPL" 5 (pc92Key pc92_frame) m1 m2
           eq_refl eq_refl E1 E2).
Defined.

(** The same PC92 record reaching the node over two paths of different length is
    relayed twice: the key contains the hop count. *)
Example pc92_paths_not_merged :
  let f := pc92_frame in
  let g := default f (ParseFrame "PC92^W3LPL^123^A^^5W3LPL:5457^H3^") in
  bool_decide (pc92Key f = pc92Key g) = false.
Proof. by vm_compute. Qed.

(** ** Two nodes *)

Definition publish_hop (m : Manager) : Z := if m_hopCount m <=? 0 then defaultHopCount else m_hopCount m.

(** Node [b] takes the spot: its age limit admits it and the ingest queue has room. *)
Definition accepts (b : Manager) (s : Spot) (now : Z) : Prop :=
  (m_maxAgeSeconds b <= 0 \/ time_sub now (Time s - Time s mod minute) <= int64 (m_maxAgeSeconds b * second)) /\
  (length (m_ingest b) < m_ingestCap b)%nat.


