(* ===== verification/PeerSession.v ===== *)
(** * PeerSession: handshakes and keepalives of a peer session

    [peer/session.go]: the login and initialisation dialogue in both directions, the
    PC92 records a session advertises, pings and prompt classification.  A handshake
    is a function of the list of things the reader returns (a line, an over-long line,
    an error or an expired deadline); the clock enters as the second of the day each
    time a record is stamped.  Writes go to the bounded queue; a full queue is the
    error that ends the handshake.  When the inputs end the handshake is still running;
    an expired deadline is an error input. *)

From S2P Require Import Prelude GoText GoNum Callsign Bands Spot SpotFormat KeywordScan CommentParser GoParse PeerFrame PeerSpot PeerLink PeerManager.

Local Open Scope string_scope.
Local Open Scope list_scope.
Local Open Scope Z_scope.

Record settings := mkSettings {
  c_localCall : string;
  c_password : string;
  c_preferPC9x : bool;
  c_nodeVersion : string;
  c_nodeBuild : string;
  c_legacyVer : string;
  c_bitmap : Z;
  c_hopCount : Z
}.

(** ** Timestamps *)

Record tsGen := mkTs { lastSec : Z; ts_seq : Z }.

(** ["%02d"] of a number that is not negative. *)
Definition pad2 (n : Z) : string := if n <? 10 then "0" +:+ Itoa n else Itoa n.

Definition ts_Next (g : tsGen) (sec : Z) : string * tsGen :=
  if negb (sec =? lastSec g) then (Itoa sec, mkTs sec 0)
  else let q := ts_seq g + 1 in (Itoa sec +:+ "." +:+ pad2 q, mkTs (lastSec g) q).

(** ** Session state during a handshake *)

Record hs := mkHs {
  h_pc9x : bool;
  h_remote : string;
  h_queue : list string;
  h_cap : nat;
  h_ts : tsGen;
  h_sentCall : bool;
  h_sentPass : bool;
  h_initSent : bool;
  h_waitInit : bool;
  h_frames : list Frame          (** frames given to [HandleFrame] *)
}.

Definition set_pc9x (b : bool) (h : hs) : hs :=
  mkHs b (h_remote h) (h_queue h) (h_cap h) (h_ts h) (h_sentCall h) (h_sentPass h) (h_initSent h)
       (h_waitInit h) (h_frames h).
Definition set_remote (c : string) (h : hs) : hs :=
  mkHs (h_pc9x h) c (h_queue h) (h_cap h) (h_ts h) (h_sentCall h) (h_sentPass h) (h_initSent h)
       (h_waitInit h) (h_frames h).
Definition set_queue (q : list string) (h : hs) : hs :=
  mkHs (h_pc9x h) (h_remote h) q (h_cap h) (h_ts h) (h_sentCall h) (h_sentPass h) (h_initSent h)
       (h_waitInit h) (h_frames h).
Definition set_ts (g : tsGen) (h : hs) : hs :=
  mkHs (h_pc9x h) (h_remote h) (h_queue h) (h_cap h) g (h_sentCall h) (h_sentPass h) (h_initSent h)
       (h_waitInit h) (h_frames h).
Definition set_flags (call pass init wait : bool) (h : hs) : hs :=
  mkHs (h_pc9x h) (h_remote h) (h_queue h) (h_cap h) (h_ts h) call pass init wait (h_frames h).
Definition add_frame (f : Frame) (h : hs) : hs :=
  mkHs (h_pc9x h) (h_remote h) (h_queue h) (h_cap h) (h_ts h) (h_sentCall h) (h_sentPass h) (h_initSent h)
       (h_waitInit h) (h_frames h ++ [f]).

(** [sendLine]: [None] is the error for a full queue. *)
Definition send (line : string) (h : hs) : option hs :=
  if (length (h_queue h) <? h_cap h)%nat then Some (set_queue (h_queue h ++ [line]) h) else None.

(** ** Advertised records *)

Definition pc92Entry (c : settings) : string :=
  let entry := Itoa (c_bitmap c) +:+ c_localCall c +:+ ":" +:+ c_nodeVersion c in
  if bool_decide (TrimSpace (c_nodeBuild c) = "") then entry else entry +:+ ":" +:+ TrimSpace (c_nodeBuild c).

Definition stamp (sec : Z) (h : hs) : string * hs :=
  let '(ts, g) := ts_Next (h_ts h) sec in (ts, set_ts g h).

Definition buildPC92Add (c : settings) (sec : Z) (h : hs) : string * hs :=
  let '(ts, h) := stamp sec h in
  (Join ["PC92"; c_localCall c; ts; "A"; ""; pc92Entry c; "H" +:+ Itoa (c_hopCount c); ""] "^", h).

Definition buildPC92Keepalive (c : settings) (nodes users : Z) (sec : Z) (h : hs) : string * hs :=
  let '(ts, h) := stamp sec h in
  let nodes := if nodes <=? 0 then 1 else nodes in
  let users := if users <? 0 then 0 else users in
  (Join ["PC92"; c_localCall c; ts; "K"; pc92Entry c; Itoa nodes; Itoa users; "H" +:+ Itoa (c_hopCount c); ""] "^", h).

Definition buildPC92Config (c : settings) (sec : Z) (h : hs) : string * hs :=
  let '(ts, h) := stamp sec h in
  (Join ["PC92"; c_localCall c; ts; "C"; pc92Entry c; "H" +:+ Itoa (c_hopCount c); ""] "^", h).

(** The clock and the counts a step reads. *)
Record env := mkEnv { e_sec : Z; e_nodes : Z; e_users : Z; e_late : bool }.

Definition sendInit (c : settings) (e : env) (h : hs) : option hs :=
  if h_pc9x h then
    let '(add, h) := buildPC92Add c (e_sec e) h in
    match send add h with
    | None => None
    | Some h =>
        let '(ka, h) := buildPC92Keepalive c (e_nodes e) (e_users e) (e_sec e) h in
        match send ka h with
        | None => None
        | Some h => send "PC20^" h
        end
    end
  else
    let line := Join ["PC19"; "1"; c_localCall c; "0"; c_legacyVer c; "H" +:+ Itoa (c_hopCount c); ""] "^" in
    match send line h with
    | None => None
    | Some h => send "PC20^" h
    end.

Definition sendPC18 (c : settings) (h : hs) : option hs :=
  if bool_decide (TrimSpace (c_nodeBuild c) = "")
  then send ("PC18^DXSpider Version: " +:+ c_nodeVersion c +:+ " gocluster pc9x^" +:+ c_nodeVersion c +:+ "^") h
  else send ("PC18^DXSpider Version: " +:+ c_nodeVersion c +:+ " Build: " +:+ c_nodeBuild c
             +:+ " gocluster pc9x^" +:+ c_nodeVersion c +:+ "^") h.

(** ** Pings *)

(** [handlePing]: the acknowledgement to queue, if any. *)
Definition handlePing (c : settings) (f : Frame) : option string :=
  let fields := payloadFields f in
  if (length fields <? 3)%nat then None
  else
    let toNode := TrimSpace (field fields 0) in
    let fromNode := TrimSpace (field fields 1) in
    let flag := TrimSpace (field fields 2) in
    if negb (bool_decide (flag = "1")) then None
    else
      let call := TrimSpace (c_localCall c) in
      if nonempty call && negb (EqualFold toNode call) && negb (bool_decide (toNode = "*"))
         && nonempty toNode
      then None
      else Some (Join ["PC51"; fromNode; toNode; "0"; ""] "^").

(** ** Prompts *)

Inductive promptType := promptUnknown | promptLogin | promptPassword.

Definition classifyPrompt (line : string) : promptType :=
  let lower := ToLower line in
  if Contains lower "password" || Contains lower "passcode" then promptPassword
  else if Contains lower "login" || Contains lower "callsign" || Contains lower "call sign"
          || Contains lower "username" then promptLogin
  else promptUnknown.

(** ** The outbound handshake *)

Inductive read_result := RLine (line : string) | RTooLong | RError.

Inductive outcome := Running (h : hs) | Established (h : hs) | Failed (h : hs).

(** Send the call, then the password, unless they were sent. *)
Definition send_call (c : settings) (h : hs) : option hs :=
  if negb (h_sentCall h) && nonempty (c_localCall c) then
    match send (c_localCall c) h with
    | Some h => Some (set_flags true (h_sentPass h) (h_initSent h) (h_waitInit h) h)
    | None => None
    end
  else Some h.

Definition send_pass (c : settings) (h : hs) : option hs :=
  if nonempty (c_password c) && negb (h_sentPass h) then
    match send (c_password c) h with
    | Some h => Some (set_flags (h_sentCall h) true (h_initSent h) (h_waitInit h) h)
    | None => None
    end
  else Some h.

Definition credentials_done (c : settings) (h : hs) : bool :=
  h_sentCall h && (bool_decide (c_password c = "") || h_sentPass h).

Definition or_fail (h0 : hs) (o : option hs) (k : hs -> outcome) : outcome :=
  match o with Some h => k h | None => Failed h0 end.

(** The branch for a PC18 banner. *)
Definition on_pc18 (c : settings) (e : env) (line : string) (h : hs) : outcome :=
  let h := set_pc9x (c_preferPC9x c && Contains (ToLower line) "pc9x") h in
  or_fail h (send_call c h) (fun h =>
  or_fail h (send_pass c h) (fun h =>
  if negb (h_initSent h) && credentials_done c h then
    or_fail h (sendInit c e h) (fun h => Running (set_flags (h_sentCall h) (h_sentPass h) true true h))
  else Running (set_flags (h_sentCall h) (h_sentPass h) (h_initSent h) true h))).

(** The branch for a legacy initialisation frame before ours was sent. *)
Definition on_legacy (c : settings) (e : env) (h : hs) : outcome :=
  let h := set_pc9x (c_preferPC9x c) h in
  or_fail h (send_call c h) (fun h =>
  or_fail h (send_pass c h) (fun h =>
  if credentials_done c h then
    or_fail h (sendInit c e h) (fun h => Running (set_flags (h_sentCall h) (h_sentPass h) true true h))
  else Running h)).

Definition on_prompt (c : settings) (line : string) (h : hs) : outcome :=
  if h_waitInit h then
    match classifyPrompt line with
    | promptLogin => or_fail h (send_call c h) Running
    | promptPassword => or_fail h (send_pass c h) Running
    | promptUnknown => Running h
    end
  else Running h.

(** One turn of the loop. *)
Definition outbound_step (c : settings) (h : hs) (e : env) (r : read_result) : outcome :=
  or_fail h (if negb (h_sentCall h) && e_late e
             then match send_call c h with Some h => send_pass c h | None => None end
             else Some h) (fun h =>
  match r with
  | RError => Failed h
  | RTooLong => Running h
  | RLine line =>
      if bool_decide (line = "") then Running h
      else if Contains line "PC18^" then on_pc18 c e line h
      else if (HasPrefix line "PC19^" || HasPrefix line "PC16^" || HasPrefix line "PC17^" || HasPrefix line "PC21^")
              && negb (h_initSent h) then on_legacy c e h
      else if HasPrefix line "PC22" && h_initSent h then Established h
      else if h_initSent h && (HasPrefix line "PC11^" || HasPrefix line "PC61^") then
        let h := if HasPrefix line "PC61^" then set_pc9x true h else h in
        Established (match ParseFrame line with Some f => add_frame f h | None => h end)
      else on_prompt c line h
  end).

Fixpoint outbound_loop (c : settings) (h : hs) (inputs : list (env * read_result)) : outcome :=
  match inputs with
  | [] => Running h
  | (e, r) :: rest =>
      match outbound_step c h e r with
      | Running h => outbound_loop c h rest
      | o => o
      end
  end.

Definition start_hs (cap : nat) (remote : string) : hs :=
  mkHs false remote [] cap (mkTs 0 0) false false false true [].

Definition runOutboundHandshake (c : settings) (cap : nat) (remote : string) (inputs : list (env * read_result))
    : outcome :=
  let h := start_hs cap remote in
  or_fail h (send_call c h) (fun h => or_fail h (send_pass c h) (fun h => outbound_loop c h inputs)).

(** ** The inbound handshake *)

(** A write whose error is ignored. *)
Definition send_ignore (line : string) (h : hs) : hs := default h (send line h).

Inductive call_read := CallLine (call : string) (rest : list (env * read_result)) | CallWaiting | CallError.

(** The first non-blank line is the call. *)
Fixpoint read_call (inputs : list (env * read_result)) : call_read :=
  match inputs with
  | [] => CallWaiting
  | (_, RLine line) :: rest =>
      let line := TrimSpace line in
      if bool_decide (line = "") then read_call rest else CallLine line rest
  | _ :: _ => CallError
  end.

(** The loop after our PC18; every read error ends it. *)
Fixpoint inbound_init (c : settings) (h : hs) (inputs : list (env * read_result)) : outcome :=
  match inputs with
  | [] => Running h
  | (e, RLine line) :: rest =>
      match ParseFrame line with
      | None => inbound_init c h rest
      | Some f =>
          if bool_decide (f_Type f = "PC92") then inbound_init c (add_frame f (set_pc9x true h)) rest
          else if bool_decide (f_Type f ∈ ["PC19"; "PC16"; "PC17"; "PC21"])
          then inbound_init c (add_frame f (set_pc9x false h)) rest
          else if bool_decide (f_Type f = "PC20") then
            or_fail h (sendInit c e h) (fun h => or_fail h (send "PC22^" h) Established)
          else inbound_init c h rest
      end
  | _ :: _ => Failed h
  end.

(** [allow] is the answer of [allowInbound] for the remote address. *)
Definition runInboundHandshake (c : settings) (cap : nat) (allow : string -> bool)
    (inputs : list (env * read_result)) : outcome :=
  let h := send_ignore "login:" (set_pc9x true (start_hs cap "")) in
  match read_call inputs with
  | CallWaiting => Running h
  | CallError => Failed h
  | CallLine call inputs =>
      if negb (allow call) then Failed h
      else
        let h := set_remote call h in
        let after h inputs := or_fail h (sendPC18 c h) (fun h => inbound_init c h inputs) in
        if bool_decide (c_password c = "") then after h inputs
        else
          let h := send_ignore "password:" h in
          match inputs with
          | [] => Running h
          | (_, RLine line) :: rest =>
              if bool_decide (TrimSpace line = c_password c) then after h rest else Failed h
          | _ :: _ => Failed h
          end
  end.

(** ** Outbound: what is sent *)

Definition credentials (c : settings) : list string :=
  (if nonempty (c_localCall c) then [c_localCall c] else []) ++
  (if nonempty (c_password c) then [c_password c] else []).

(** Our initialisation: topology records and the closing PC20. *)
Definition init_lines (l : list string) : Prop :=
  exists pre, l = pre ++ ["PC20^"] /\ Forall (fun x => HasPrefix x "PC92^" || HasPrefix x "PC19^" = true) pre.

Definition out_inv (c : settings) (h : hs) : Prop :=
  h_sentCall h = nonempty (c_localCall c) /\ h_sentPass h = nonempty (c_password c) /\
  if h_initSent h
  then nonempty (c_localCall c) = true /\ exists l, init_lines l /\ h_queue h = credentials c ++ l
  else h_queue h = credentials c.

Definition out_ok (c : settings) (o : outcome) : Prop :=
  match o with
  | Running h => out_inv c h
  | Established h => out_inv c h /\ h_initSent h = true
  | Failed _ => True
  end.

Lemma send_queue line h h' : send line h = Some h' -> h' = set_queue (h_queue h ++ [line]) h.
Proof. unfold send. destruct (_ <? _)%nat; congruence. Qed.

Lemma credentials_sent c h :
  out_inv c h -> send_call c h = Some h /\ send_pass c h = Some h.
Proof.
  intros (H1 & H2 & _). unfold send_call, send_pass. rewrite H1, H2.
  by destruct (nonempty (c_localCall c)), (nonempty (c_password c)).
Qed.

Lemma sendInit_spec c e h h' :
  sendInit c e h = Some h' ->
  exists l, init_lines l /\ h_queue h' = h_queue h ++ l /\ h_sentCall h' = h_sentCall h /\
            h_sentPass h' = h_sentPass h /\ h_remote h' = h_remote h.
Proof.
  unfold sendInit. destruct (h_pc9x h).
  - unfold buildPC92Add, stamp. destruct (ts_Next (h_ts h) (e_sec e)) as [t1 g1].
    destruct (send _ _) as [h1|] eqn:E1; [|done]. apply send_queue in E1. subst h1.
    unfold buildPC92Keepalive, stamp. cbn [h_ts set_queue set_ts].
    destruct (ts_Next g1 (e_sec e)) as [t2 g2].
    destruct (send _ _) as [h2|] eqn:E2; [|done]. apply send_queue in E2. subst h2.
    intros E3. apply send_queue in E3. subst h'. cbn.
    eexists. split; [|split_and!; [by rewrite <- !app_assoc|done..]].
    eexists [_; _]. split; [reflexivity|].
    constructor; [reflexivity|]. constructor; [reflexivity|constructor].
  - destruct (send _ _) as [h1|] eqn:E1; [|done]. apply send_queue in E1. subst h1.
    intros E2. apply send_queue in E2. subst h'. cbn.
    eexists. split; [|split_and!; [by rewrite <- !app_assoc|done..]].
    eexists [_]. split; [reflexivity|].
    constructor; [reflexivity|constructor].
Qed.

Lemma init_branch c e h :
  out_inv c h -> h_initSent h = false -> h_sentCall h = true ->
  out_ok c (or_fail h (sendInit c e h) (fun h => Running (set_flags (h_sentCall h) (h_sentPass h) true true h))).
Proof.
  intros (H1 & H2 & H3) Hi Hc. destruct (sendInit c e h) as [h'|] eqn:E; [|done].
  destruct (sendInit_spec _ _ _ _ E) as (l & Hl & Hq & Hc' & Hp' & _). cbn.
  rewrite Hi in H3. unfold out_inv. cbn. rewrite Hc', Hp', H1, H2. split_and!; try done.
  - congruence.
  - exists l. by rewrite Hq, H3.
Qed.

Lemma out_inv_pc9x c b h : out_inv c h -> out_inv c (set_pc9x b h).
Proof. done. Qed.

Lemma outbound_step_ok c h e r : out_inv c h -> out_ok c (outbound_step c h e r).
Proof.
  intros H. unfold outbound_step. destruct (credentials_sent c h H) as [Hc Hp]. rewrite Hc, Hp.
  replace (if negb (h_sentCall h) && e_late e then Some h else Some h) with (Some h) by (by destruct (_ && _)).
  cbn [or_fail]. destruct r as [line| |]; [|done|done].
  case_bool_decide; [done|].
  destruct (Contains line "PC18^").
  { unfold on_pc18. set (h1 := set_pc9x _ h). assert (out_inv c h1) as H1 by done.
    destruct (credentials_sent c h1 H1) as [Hc1 Hp1].
    rewrite Hc1. cbn [or_fail]. rewrite Hp1. cbn [or_fail].
    destruct (negb (h_initSent h1) && credentials_done c h1) eqn:E.
    - unfold credentials_done in E. boolify. by apply init_branch.
    - cbn. destruct H as (? & ? & ?). unfold out_inv. cbn. auto. }
  destruct (_ && negb (h_initSent h)) eqn:E.
  { apply andb_true_iff in E as [_ E]. apply negb_true_iff in E.
    unfold on_legacy. set (h1 := set_pc9x _ h). assert (out_inv c h1) as H1 by done.
    destruct (credentials_sent c h1 H1) as [Hc1 Hp1].
    rewrite Hc1. cbn [or_fail]. rewrite Hp1. cbn [or_fail].
    destruct (credentials_done c h1) eqn:Ed; [|done].
    unfold credentials_done in Ed. boolify. by apply init_branch. }
  destruct (HasPrefix line "PC22" && h_initSent h) eqn:E2.
  { apply andb_true_iff in E2 as [_ E2]. by split. }
  destruct (h_initSent h && _) eqn:E3.
  { apply andb_true_iff in E3 as [E3 _]. unfold out_ok.
    split; destruct (HasPrefix line "PC61^"), (ParseFrame line); first [exact H | exact E3]. }
  unfold on_prompt. destruct (h_waitInit h); [|done].
  destruct (classifyPrompt line); rewrite ?Hc, ?Hp; done.
Qed.

Lemma outbound_loop_ok c inputs h : out_inv c h -> out_ok c (outbound_loop c h inputs).
Proof.
  revert h. induction inputs as [|[e r] inputs IH]; intros h H; [done|]. cbn [outbound_loop].
  pose proof (outbound_step_ok c h e r H) as Hs. destruct (outbound_step c h e r); try done. by apply IH.
Qed.

Lemma start_ok c cap remote inputs : out_ok c (runOutboundHandshake c cap remote inputs).
Proof.
  unfold runOutboundHandshake. cbn [or_fail].
  destruct (send_call c (start_hs cap remote)) as [h1|] eqn:E1; [|done]. cbn [or_fail].
  destruct (send_pass c h1) as [h2|] eqn:E2; [|done]. cbn [or_fail]. apply outbound_loop_ok.
  unfold send_call in E1. cbn [h_sentCall start_hs negb andb] in E1.
  assert (h_sentCall h1 = nonempty (c_localCall c) /\ h_sentPass h1 = false /\ h_initSent h1 = false /\
          h_queue h1 = if nonempty (c_localCall c) then [c_localCall c] else []) as (A1 & A2 & A3 & A4).
  { destruct (nonempty (c_localCall c)).
    - destruct (send (c_localCall c) (start_hs cap remote)) as [h|] eqn:E; [|done].
      apply send_queue in E. subst h. by injection E1 as <-.
    - by injection E1 as <-. }
  unfold send_pass in E2. rewrite A2 in E2. cbn [negb] in E2. rewrite andb_true_r in E2.
  unfold out_inv, credentials. destruct (nonempty (c_password c)).
  - destruct (send (c_password c) h1) as [h|] eqn:E; [|done]. apply send_queue in E. subst h.
    injection E2 as <-. cbn. rewrite A3, A4. auto.
  - injection E2 as <-. rewrite A3, A4, A1, A2. split_and!; try done. by rewrite app_nil_r.
Qed.

(** What an outbound handshake writes.  Whatever the remote node sends, in whatever
    order, the write queue is exactly our call and password (those that are
    configured), each once and in that order, followed after the remote's banner by
    one initialisation that ends with PC20; the session is established only after
    that initialisation was queued, so never without a configured call. *)
Theorem outbound_handshake_writes c cap remote inputs :
  match runOutboundHandshake c cap remote inputs with
  | Running h => if h_initSent h then exists l, init_lines l /\ h_queue h = credentials c ++ l
                 else h_queue h = credentials c
  | Established h => nonempty (c_localCall c) = true /\
                     exists l, init_lines l /\ h_queue h = credentials c ++ l
  | Failed _ => True
  end.
Proof.
  pose proof (start_ok c cap remote inputs) as H.
  destruct (runOutboundHandshake c cap remote inputs) as [h|h|h]; [| |done].
  - destruct H as (_ & _ & H). destruct (h_initSent h); [apply H|done].
  - destruct H as [(_ & _ & H) Hi]. by rewrite Hi in H.
Qed.

(** ** Inbound: who gets in *)

Lemma inbound_init_established c h inputs h' :
  inbound_init c h inputs = Established h' ->
  h_remote h' = h_remote h /\ last (h_queue h') = Some "PC22^" /\
  exists e line f, (e, RLine line) ∈ inputs /\ ParseFrame line = Some f /\ f_Type f = "PC20".
Proof.
  revert h. induction inputs as [|[e r] inputs IH]; intros h; cbn [inbound_init]; [done|].
  assert (forall h0, h_remote h0 = h_remote h -> inbound_init c h0 inputs = Established h' ->
    h_remote h' = h_remote h /\ last (h_queue h') = Some "PC22^" /\
    exists e0 line f, (e0, RLine line) ∈ (e, r) :: inputs /\ ParseFrame line = Some f /\ f_Type f = "PC20") as Hrec.
  { intros h0 Hr Hi. destruct (IH h0 Hi) as (H1 & H2 & e0 & line & f & H3 & H4). rewrite <- Hr.
    split_and!; try done. exists e0, line, f. split; [by right|done]. }
  destruct r as [line| |]; try done. destruct (ParseFrame line) as [f|] eqn:Ep; [|by apply Hrec].
  destruct (bool_decide (f_Type f = "PC92")); [by apply Hrec|].
  destruct (bool_decide (f_Type f ∈ _)); [by apply Hrec|].
  destruct (bool_decide (f_Type f = "PC20")) eqn:Et; [|by apply Hrec]. boolify.
  destruct (sendInit c e h) as [h1|] eqn:E1; [|done]. cbn [or_fail].
  destruct (send "PC22^" h1) as [h2|] eqn:E2; [|done]. intros [= <-].
  destruct (sendInit_spec _ _ _ _ E1) as (l & _ & _ & _ & _ & Hr).
  apply send_queue in E2. subst h2. cbn. split_and!; [done|by rewrite last_snoc|].
  exists e, line, f. split; [by left|done].
Qed.

(** What must have been received: a call the access lists allow and, when a password
    is set, the password as the very next line. *)
Definition authorised (c : settings) (allow : string -> bool) (inputs : list (env * read_result)) (call : string)
    (rest : list (env * read_result)) : Prop :=
  exists after_call, read_call inputs = CallLine call after_call /\ allow call = true /\
    ((c_password c = "" /\ rest = after_call) \/
     (c_password c <> "" /\ exists e line, after_call = (e, RLine line) :: rest /\ TrimSpace line = c_password c)).

(** C36: Nobody gets in without the credentials.  If an inbound handshake establishes a
    session, then the first non-blank line was a call the access lists allow, the
    configured password (if any) was the next line, the session is bound to that call,
    and a PC20 was read after it and answered with PC22. *)
Theorem inbound_handshake_authorised c cap allow inputs h :
  runInboundHandshake c cap allow inputs = Established h ->
  exists call rest, authorised c allow inputs call rest /\ h_remote h = call /\
    last (h_queue h) = Some "PC22^" /\
    exists e line f, (e, RLine line) ∈ rest /\ ParseFrame line = Some f /\ f_Type f = "PC20".
Proof.
  unfold runInboundHandshake. cbv zeta. set (h0 := send_ignore _ _). clearbody h0.
  destruct (read_call inputs) as [call rest| |] eqn:Er; [|done|done].
  destruct (allow call) eqn:Ea; [|done]. cbn [negb].
  assert (forall h1 rest', h_remote h1 = call ->
    or_fail h1 (sendPC18 c h1) (fun h => inbound_init c h rest') = Established h ->
    h_remote h = call /\ last (h_queue h) = Some "PC22^" /\
    exists e line f, (e, RLine line) ∈ rest' /\ ParseFrame line = Some f /\ f_Type f = "PC20") as Hafter.
  { intros h1 rest' Hr H. destruct (sendPC18 c h1) as [h2|] eqn:E; [|done]. cbn [or_fail] in H.
    apply inbound_init_established in H.
    assert (h_remote h2 = call) as Hr2.
    { unfold sendPC18 in E. destruct (bool_decide _); apply send_queue in E; by subst h2. }
    by rewrite Hr2 in H. }
  destruct (bool_decide (c_password c = "")) eqn:Ep; boolify.
  - intros H. exists call, rest. split; [exists rest; auto|]. by apply (Hafter (set_remote call h0)).
  - destruct rest as [|[e r] rest]; [done|]. destruct r as [line| |]; try done.
    destruct (bool_decide (TrimSpace line = c_password c)) eqn:Ew; [|done]. boolify.
    intros H. exists call, rest. split.
    + exists ((e, RLine line) :: rest). split_and!; try done. right. split; [done|]. eauto.
    + apply (Hafter (send_ignore "password:" (set_remote call h0))); [|done].
      unfold send_ignore, send. destruct (_ <? _)%nat; done.
Qed.

Definition demo_settings : settings := mkSettings "N2WQ-1" "secret" true "5457" "" "5457" 5 99.
Definition demo_env : env := mkEnv 1000 1 2 false.
Definition demo_inputs : list (env * read_result) :=
  map (fun l => (demo_env, RLine l)) [""; "W3LPL"; "secret"; "PC92^W3LPL^1^A^^5W3LPL:5457^H99^"; "PC20^"].

Lemma inbound_handshake_authorised_witness :
  exists h call rest, runInboundHandshake demo_settings 16 (fun c => bool_decide (c = "W3LPL")) demo_inputs = Established h /\
    authorised demo_settings (fun c => bool_decide (c = "W3LPL")) demo_inputs call rest /\ h_remote h = call.
Proof.
  destruct (runInboundHandshake demo_settings 16 (fun c => bool_decide (c = "W3LPL")) demo_inputs) as [h|h|h] eqn:E;
    [vm_compute in E; discriminate E| |vm_compute in E; discriminate E].
  destruct (inbound_handshake_authorised demo_settings 16 (fun c => bool_decide (c = "W3LPL")) demo_inputs h E)
    as (call & rest & H1 & H2 & _).
  exists h, call, rest. split; [reflexivity|]. split; [exact H1|exact H2].
Defined.
