(* ===== verification/GoTime.v ===== *)
(** * GoTime: the zero instant and float64 arithmetic

    What the windowed stores use of [time.Time] and of float64 arithmetic, on top of
    [GoNum].  An instant is its number of nanoseconds since the Unix epoch, so the
    zero [time.Time] (1 January of year 1) is a number of its own and not 0.  Each
    float64 operation rounds the exact result once. *)

From S2P Require Import Prelude GoText GoNum.
From Stdlib Require Import QArith Qabs.
Local Open Scope Z_scope.

(** ** Instants *)

Definition zero_time : Z := -62135596800 * second.

Definition IsZero (t : Z) : bool := t =? zero_time.
Definition Before (t u : Z) : bool := t <? u.
Definition After (t u : Z) : bool := u <? t.

(** [time.Unix(sec, 0)]. *)
Definition Unix (sec : Z) : Z := sec * second.

(** [t.Unix()]. *)
Definition unix_of (t : Z) : Z := t / second.

(** ** Numbers *)

(** The conversion [int(x)] of a float64 in the range of [int]. *)
Definition float_to_int (x : Q) : Z := Z.quot (Qnum x) (Zpos (Qden x)).

Definition fadd (x y : Q) : Q := fl64 (Qred (x + y)).
Definition fsub (x y : Q) : Q := fl64 (Qred (x - y)).
Definition fmul (x y : Q) : Q := fl64 (Qred (x * y)).
Definition fdiv (x y : Q) : Q := fl64 (Qred (x / y)).
Definition fabs (x : Q) : Q := Qabs x.
Definition float_of_int (n : Z) : Q := fl64 (inject_Z n).

(** [if v <= 0 { v = d }]. *)
Definition positive_else (v d : Z) : Z := if v <=? 0 then d else v.

Lemma positive_else_pos v d : 0 < d -> 0 < positive_else v d.
Proof. unfold positive_else. destruct (Z.leb_spec v 0); lia. Qed.

(** The text normalisation [strings.ToUpper(strings.TrimSpace(s))]. *)
Definition upper_trim (s : string) : string := ToUpper (TrimSpace s).
Definition lower_trim (s : string) : string := ToLower (TrimSpace s).

Lemma upper_trim_idemp s : upper_trim (upper_trim s) = upper_trim s.
Proof.
  unfold upper_trim. rewrite TrimSpace_ToUpper, TrimSpace_idemp. apply ToUpper_idemp.
Qed.

Lemma round_half_even_nonneg n d : 0 <= n -> 0 < d -> 0 <= round_half_even n d.
Proof.
  intros Hn Hd. unfold round_half_even.
  assert (0 <= n / d) by (apply Z.div_pos; lia).
  destruct (2 * (n mod d) ?= d); [destruct (Z.even _)|..]; lia.
Qed.

(** Rounding keeps a non-negative number non-negative. *)
Lemma fl64_nonneg x : (0 <= x)%Q -> (0 <= fl64 x)%Q.
Proof.
  intros Hx. assert (Hn : 0 <= Qnum x) by (unfold Qle in Hx; simpl in Hx; lia).
  unfold fl64. destruct (Z.eqb_spec (Qnum x) 0); [done|].
  destruct (Z.ltb_spec (Qnum x) 0); [lia|].
  cbv zeta. match goal with |- context [Z.max ?a (-1074)] => generalize (Z.max a (-1074)); intros s end.
  destruct (Z.leb_spec 0 s).
  - change 0%Q with (inject_Z 0). rewrite <- Zle_Qle.
    apply Z.mul_nonneg_nonneg; [|lia]. apply round_half_even_nonneg; [lia|].
    apply Z.mul_pos_pos; [lia|]. apply Z.pow_pos_nonneg; lia.
  - rewrite Qred_correct. unfold Qle. simpl.
    pose proof (round_half_even_nonneg (Z.abs (Qnum x) * 2 ^ (- s)) (Zpos (Qden x))) as Hr.
    assert (0 < 2 ^ (- s)) by (apply Z.pow_pos_nonneg; lia).
    rewrite Z.mul_1_r. apply Hr; nia.
Qed.

Lemma fadd_nonneg x y : (0 <= x)%Q -> (0 <= y)%Q -> (0 <= fadd x y)%Q.
Proof.
  intros Hx Hy. apply fl64_nonneg. rewrite Qred_correct.
  apply (Qplus_le_compat 0 x 0 y Hx Hy).
Qed.
