(* ===== verification/Lru.v ===== *)
(** * Lru: least recently used maps

    The pair of [container/list] and index map that [spot/mode_infer.go] and
    [call_meta_cache.go] use: list and map always hold the same keys, one element per
    key ([lru_ok], kept by every operation), so the list is modelled by its keys, front
    first, next to the map. *)

From S2P Require Import Prelude GoText GoNum.
Local Open Scope list_scope.
Local Open Scope Z_scope.

(** ** Least recently used maps *)

Section Lru.
Context {K V : Type} `{Countable K}.

Record lru_map := mkLru { l_keys : list K; l_map : gmap K V }.

Definition lru_empty : lru_map := mkLru [] ∅.
Definition lru_lookup (k : K) (m : lru_map) : option V := l_map m !! k.
Definition lru_touch (k : K) (m : lru_map) : lru_map := mkLru (k :: filter (fun x => x <> k) (l_keys m)) (l_map m).
Definition lru_delete (k : K) (m : lru_map) : lru_map := mkLru (filter (fun x => x <> k) (l_keys m)) (delete k (l_map m)).
(** Insert or update, and move to the front. *)
Definition lru_store (k : K) (v : V) (m : lru_map) : lru_map := lru_touch k (mkLru (l_keys m) (<[k := v]> (l_map m))).
(** The value changes in place. *)
Definition lru_update (k : K) (v : V) (m : lru_map) : lru_map := mkLru (l_keys m) (<[k := v]> (l_map m)).
Definition lru_drop_back (m : lru_map) : lru_map :=
  match last (l_keys m) with
  | None => m
  | Some k => lru_delete k m
  end.

Definition lru_len (m : lru_map) : Z := Z.of_nat (length (l_keys m)).
End Lru.
Arguments lru_map K V {_ _}.

(** ** Facts on the least recently used maps *)

Section LruFacts.
Context {K V : Type} `{Countable K}.
Implicit Types (m : lru_map K V).

(** List and map hold the same keys, each once. *)
Definition lru_ok (m : lru_map K V) : Prop := NoDup (l_keys m) /\ forall k, k ∈ l_keys m <-> is_Some (l_map m !! k).

Lemma lru_empty_ok : lru_ok lru_empty.
Proof. split; [constructor|]. intros k. cbn. rewrite lookup_empty. split; [by intros ?%elem_of_nil|by intros []]. Qed.

Lemma filter_ne_length (k : K) (l : list K) :
  NoDup l -> length (filter (fun x => x <> k) l) = (length l - (if decide (k ∈ l) then 1 else 0))%nat.
Proof.
  induction l as [|x l IH]; intros Hnd; [done|]. apply NoDup_cons in Hnd as [Hx Hnd]. rewrite filter_cons.
  destruct (decide (x = k)) as [->|Hne].
  - rewrite decide_False by (intros Hn; by apply Hn). rewrite IH by done. rewrite decide_False by done.
    rewrite decide_True by (by left). cbn. lia.
  - rewrite decide_True by done. cbn [length]. rewrite IH by done.
    destruct (decide (k ∈ l)) as [Hi|Hi].
    + rewrite decide_True by (by right). destruct l; [by apply elem_of_nil in Hi|cbn; lia].
    + rewrite decide_False; [lia|]. intros [?|?]%elem_of_cons; done.
Qed.

Lemma lru_touch_ok k m : lru_ok m -> is_Some (lru_lookup k m) -> lru_ok (lru_touch k m) /\ lru_len (lru_touch k m) = lru_len m.
Proof.
  intros [Hnd Hk] Hin. assert (k ∈ l_keys m) as Hel by (by apply Hk). split; [split; cbn|].
  - apply NoDup_cons. split; [|by apply NoDup_filter]. intros [Hn _]%list_elem_of_filter. done.
  - intros k'. rewrite <- Hk, elem_of_cons, list_elem_of_filter. destruct (decide (k' = k)) as [->|]; tauto.
  - unfold lru_len. cbn [lru_touch l_keys length]. rewrite filter_ne_length by done. rewrite decide_True by done.
    destruct (l_keys m); [by apply elem_of_nil in Hel|cbn; lia].
Qed.

Lemma lru_delete_ok k m : lru_ok m -> lru_ok (lru_delete k m) /\ lru_len (lru_delete k m) <= lru_len m.
Proof.
  intros [Hnd Hk]. split; [split; cbn|].
  - by apply NoDup_filter.
  - intros k'. rewrite list_elem_of_filter, Hk. destruct (decide (k' = k)) as [->|Hne].
    + rewrite lookup_delete_eq. split; [tauto|by intros []].
    + rewrite lookup_delete_ne by done. tauto.
  - unfold lru_len. cbn. rewrite filter_ne_length by done. lia.
Qed.

Lemma lru_store_ok k v m :
  lru_ok m -> lru_ok (lru_store k v m) /\
  lru_len (lru_store k v m) = lru_len m + (match lru_lookup k m with None => 1 | Some _ => 0 end).
Proof.
  intros [Hnd Hk]. split; [split; cbn|].
  - apply NoDup_cons. split; [|by apply NoDup_filter]. intros [Hn _]%list_elem_of_filter. done.
  - intros k'. rewrite elem_of_cons, list_elem_of_filter, Hk. destruct (decide (k' = k)) as [->|Hne].
    + rewrite lookup_insert_eq. split; [eauto|by left].
    + rewrite lookup_insert_ne by done. split; [intros [?|[_ ?]]; done|auto].
  - unfold lru_len, lru_lookup. cbn [lru_store lru_touch l_keys length]. rewrite filter_ne_length by done.
    destruct (l_map m !! k) as [v'|] eqn:E; case_decide as Hd.
    + destruct (l_keys m) as [|x l]; [by apply elem_of_nil in Hd|cbn; lia].
    + exfalso. apply Hd, Hk. eauto.
    + apply Hk in Hd. rewrite E in Hd. by destruct Hd.
    + lia.
Qed.

Lemma lru_drop_back_ok m : lru_ok m -> lru_ok (lru_drop_back m) /\ lru_len (lru_drop_back m) = Z.max 0 (lru_len m - 1).
Proof.
  intros Hok. unfold lru_drop_back. destruct (last (l_keys m)) as [k|] eqn:E.
  - split; [by apply lru_delete_ok|]. destruct Hok as [Hnd Hk]. unfold lru_len. cbn. rewrite filter_ne_length by done.
    apply last_Some in E as [l' E]. rewrite E. rewrite decide_True by set_solver. rewrite length_app. cbn. lia.
  - split; [done|]. apply last_None in E. unfold lru_len. rewrite E. done.
Qed.

Lemma lru_update_ok k v m : lru_ok m -> is_Some (lru_lookup k m) -> lru_ok (lru_update k v m) /\ lru_len (lru_update k v m) = lru_len m.
Proof.
  intros [Hnd Hk] Hin. split; [|done]. split; [done|]. intros k'. cbn. rewrite Hk. unfold lru_lookup in Hin.
  destruct (decide (k' = k)) as [->|Hne]; [rewrite lookup_insert_eq; naive_solver|by rewrite lookup_insert_ne].
Qed.

(** What is dropped was there before. *)
Lemma lru_drop_back_sub m k v : lru_lookup k (lru_drop_back m) = Some v -> lru_lookup k m = Some v.
Proof.
  unfold lru_drop_back, lru_lookup. destruct (last (l_keys m)); [|done]. cbn. by intros [_ ?]%lookup_delete_Some.
Qed.
End LruFacts.
