(* ===== verification/Cooldown.v ===== *)
(** * Cooldown: protecting a well-supported call from being corrected away

    Models [spot/cooldown.go].  The tracker keeps, per call and frequency bin, the
    recent reporters with the time each was last seen, and the end of the current
    protection.  Go ranges over the argument set and over the reporter map in an
    order of its own: the set is given as the list in which it is visited, and
    [order] lists the map.  Operations run under one mutex, so each is atomic; the
    cleanup goroutine is the operation it repeats.  [clock] is the reading of
    [time.Now] that replaces a zero [now]. *)

From S2P Require Import Prelude GoText GoNum GoTime.
From Stdlib Require Import QArith.
Local Open Scope string_scope.
Local Open Scope list_scope.
Local Open Scope Z_scope.

Record CallCooldownConfig := mkCooldownConfig {
  Enabled : bool;
  MinReporters : Z;
  Duration : Z;
  TTL : Z;
  BinHz : Z;
  MaxReporters : Z;
  BypassAdvantage : Z;
  BypassConfidence : Z
}.

(** [callCooldownKey]: the call and its bin. *)
Definition callCooldownKey : Type := string * Z.

Record callCooldownEntry := mkCooldownEntry {
  reporters : gmap string Z;
  cooldownUntil : Z;
  lastSeen : Z
}.

Record CallCooldown := mkCooldown { cfg : CallCooldownConfig; entries : gmap callCooldownKey callCooldownEntry }.

Definition with_entries (m : gmap callCooldownKey callCooldownEntry) (c : CallCooldown) : CallCooldown :=
  mkCooldown (cfg c) m.

Definition cooldown_defaults (c : CallCooldownConfig) : CallCooldownConfig :=
  let dur := positive_else (Duration c) (3 * minute) in
  mkCooldownConfig (Enabled c) (positive_else (MinReporters c) 3) dur
    (positive_else (TTL c) (dur * 2)) (positive_else (BinHz c) 1000) (positive_else (MaxReporters c) 16)
    (Z.max 0 (BypassAdvantage c)) (Z.max 0 (BypassConfidence c)).

(** [None] is the nil tracker of a disabled configuration. *)
Definition NewCallCooldown (c : CallCooldownConfig) : option CallCooldown :=
  if negb (Enabled c) then None else Some (mkCooldown (cooldown_defaults c) ∅).

Definition binFor (c : CallCooldown) (freqHz : Q) : Z :=
  if BinHz (cfg c) <=? 0 then 0 else Z.quot (float_to_int freqHz) (BinHz (cfg c)).

Definition pruneEntry (recency now : Z) (e : callCooldownEntry) : callCooldownEntry :=
  if recency <=? 0 then e
  else mkCooldownEntry (filter (fun p => ~ p.2 < now + - recency) (reporters e)) (cooldownUntil e) (lastSeen e).

Definition expired (c : CallCooldown) (e : callCooldownEntry) (now : Z) : bool :=
  (0 <? TTL (cfg c)) && Before (lastSeen e + TTL (cfg c)) now.

(** [if now.IsZero() { now = time.Now() }]. *)
Definition now_or (now clock : Z) : Z := if IsZero now then clock else now.

Definition defaultRecency (recency : Z) : Z := positive_else recency (45 * second).

Definition effectiveMin (c : CallCooldown) (minOverride : Z) : Z :=
  if 0 <? minOverride then minOverride else MinReporters (cfg c).

Section Order.
Variable order : gmap string Z -> list (string * Z).

(** The loop of [evictOldest]: the first of the oldest in the visiting order. *)
Fixpoint find_oldest (l : list (string * Z)) (rep : string) (t : Z) : string :=
  match l with
  | [] => rep
  | (r, ts) :: rest => if IsZero t || Before ts t then find_oldest rest r ts else find_oldest rest rep t
  end.

Definition evictOldest (c : CallCooldown) (m : gmap string Z) : gmap string Z :=
  if Z.of_nat (size m) <=? MaxReporters (cfg c) then m
  else
    let oldest := find_oldest (order m) "" zero_time in
    if bool_decide (oldest = "") then m else delete oldest m.

Definition add_reporter (c : CallCooldown) (now : Z) (m : gmap string Z) (reporter : string) : gmap string Z :=
  let rep := upper_trim reporter in
  if bool_decide (rep = "") then m
  else
    let m := <[rep := now]> m in
    if MaxReporters (cfg c) <? Z.of_nat (size m) then evictOldest c m else m.

(** [Record]. *)
Definition Record_ (c : CallCooldown) (call : string) (freqHz : Q) (reps : list string)
    (minOverride recency now clock : Z) : CallCooldown :=
  let call := upper_trim call in
  if bool_decide (call = "") then c
  else
    let now := now_or now clock in
    let recency := defaultRecency recency in
    let key := (call, binFor c freqHz) in
    let entry :=
      match entries c !! key with
      | Some e => if expired c e now then mkCooldownEntry ∅ zero_time zero_time else e
      | None => mkCooldownEntry ∅ zero_time zero_time
      end in
    let entry := pruneEntry recency now entry in
    let m := fold_left (add_reporter c now) reps (reporters entry) in
    let until := if effectiveMin c minOverride <=? Z.of_nat (size m)
                 then now + Duration (cfg c) else cooldownUntil entry in
    with_entries (<[key := mkCooldownEntry m until now]> (entries c)) c.
End Order.

(** The bypass of [ShouldBlock]: a decisively stronger alternate. *)
Definition bypass (c : CallCooldown) (subjectSupport subjectConfidence winnerSupport winnerConfidence : Z) : bool :=
  let adv := BypassAdvantage (cfg c) in
  let conf := BypassConfidence (cfg c) in
  let advOK := (0 <? adv) && (subjectSupport + adv <=? winnerSupport) in
  let confOK := (0 <? conf) && (subjectConfidence + conf <=? winnerConfidence) in
  if (0 <? adv) && (0 <? conf) then advOK && confOK else advOK || confOK.

Definition ShouldBlock (c : CallCooldown) (call : string) (freqHz : Q)
    (minOverride recency subjectSupport subjectConfidence winnerSupport winnerConfidence now clock : Z)
    : bool * Z * CallCooldown :=
  let call := upper_trim call in
  if bool_decide (call = "") then (false, 0, c)
  else
    let now := now_or now clock in
    let recency := defaultRecency recency in
    let key := (call, binFor c freqHz) in
    match entries c !! key with
    | None => (false, 0, c)
    | Some entry =>
        if expired c entry now then (false, 0, with_entries (delete key (entries c)) c)
        else
          let entry := pruneEntry recency now entry in
          let c' := with_entries (<[key := entry]> (entries c)) c in
          let reporterCount := Z.of_nat (size (reporters entry)) in
          if reporterCount <? effectiveMin c minOverride then (false, reporterCount, c')
          else if IsZero (cooldownUntil entry) || After now (cooldownUntil entry) then (false, reporterCount, c')
          else if bypass c subjectSupport subjectConfidence winnerSupport winnerConfidence
          then (false, reporterCount, c')
          else (true, reporterCount, c')
    end.

Definition Cooldown_cleanup (c : CallCooldown) (now clock : Z) : CallCooldown :=
  let now := now_or now clock in
  if bool_decide (size (entries c) = 0%nat) || (TTL (cfg c) <=? 0) then c
  else with_entries (filter (fun p => IsZero (lastSeen p.2) || negb (Before (lastSeen p.2 + TTL (cfg c)) now))
                            (entries c)) c.

(** ** Histories *)

Inductive op :=
  | OpRecord (call : string) (freqHz : Q) (reps : list string) (minOverride recency now clock : Z)
  | OpBlock (call : string) (freqHz : Q) (minOverride recency ss sc ws wc now clock : Z)
  | OpClean (now clock : Z).

Definition step (order : gmap string Z -> list (string * Z)) (c : CallCooldown) (o : op) : CallCooldown :=
  match o with
  | OpRecord call f reps mo rec now clock => Record_ order c call f reps mo rec now clock
  | OpBlock call f mo rec ss sc ws wc now clock => (ShouldBlock c call f mo rec ss sc ws wc now clock).2
  | OpClean now clock => Cooldown_cleanup c now clock
  end.

Definition run order (c : CallCooldown) (ops : list op) : CallCooldown := fold_left (step order) ops c.

(** [o] records the key at time [t] with the reporters [reps]. *)
Definition records (c : CallCooldown) (key : callCooldownKey) (reps : list string) (t : Z) (o : op) : Prop :=
  match o with
  | OpRecord call f reps' _ _ now clock =>
      key = (upper_trim call, binFor c f) /\ reps = map upper_trim reps' /\ t = now_or now clock
  | _ => False
  end.

Definition reported (c : CallCooldown) (hist : list op) (key : callCooldownKey) (r : string) (t : Z) : Prop :=
  exists o reps, o ∈ hist /\ records c key reps t o /\ r ∈ reps.

(** What the entry of a key may hold after a history. *)
Record entry_ok (c : CallCooldown) (hist : list op) (key : callCooldownKey) (e : callCooldownEntry) : Prop := {
  ok_reporters : forall r t, reporters e !! r = Some t -> reported c hist key r t;
  ok_until : cooldownUntil e = zero_time \/
    exists o reps t, o ∈ hist /\ records c key reps t o /\ cooldownUntil e = t + Duration (cfg c);
  ok_named : reporters e !! "" = None;
  ok_size : Z.of_nat (size (reporters e)) <= MaxReporters (cfg c)
}.

Definition store_ok (c0 : CallCooldown) (hist : list op) (c : CallCooldown) : Prop :=
  cfg c = cfg c0 /\ forall key e, entries c !! key = Some e -> entry_ok c0 hist key e.

Lemma entry_ok_mono c hist hist' key e : hist ⊆ hist' -> entry_ok c hist key e -> entry_ok c hist' key e.
Proof.
  intros Hs [H1 H2 H3 H4]. split; [|destruct H2 as [?|(o & reps & t & ? & ? & ?)]; [by left|right; eauto 8]|done..].
  intros r t Hr. destruct (H1 r t Hr) as (o & reps & ? & ? & ?). exists o, reps. auto.
Qed.

Lemma entry_ok_prune c hist key e rec now : entry_ok c hist key e -> entry_ok c hist key (pruneEntry rec now e).
Proof.
  intros [H1 H2 H3 H4]. unfold pruneEntry. destruct (rec <=? 0); [by split|]. split; cbn; [|done| |].
  - intros r t [Hr _]%map_lookup_filter_Some. eauto.
  - rewrite map_lookup_filter, H3. done.
  - etransitivity; [|exact H4]. apply inj_le, map_size_filter.
Qed.

Lemma store_ok_insert c0 hist key e c :
  store_ok c0 hist c -> entry_ok c0 hist key e -> store_ok c0 hist (with_entries (<[key := e]> (entries c)) c).
Proof.
  intros [Hc H] He. split; [done|]. intros k e'. cbn. rewrite lookup_insert_Some.
  intros [[<- <-]|[_ Hk]]; auto.
Qed.

Lemma store_ok_subset c0 hist c m :
  store_ok c0 hist c -> m ⊆ entries c -> store_ok c0 hist (with_entries m c).
Proof. intros [Hc H] Hm. split; [done|]. intros k e Hk. apply H. by eapply lookup_weaken. Qed.

(** ** Reporters *)

Section Facts.
Variable order : gmap string Z -> list (string * Z).
Hypothesis order_perm : forall m, order m ≡ₚ map_to_list m.

Lemma find_oldest_in l rep t : find_oldest l rep t = rep \/ find_oldest l rep t ∈ l.*1.
Proof.
  revert rep t. induction l as [|[r ts] l IH]; intros rep t; cbn [find_oldest]; [by left|].
  destruct (_ || _); [destruct (IH r ts) as [->|?]|destruct (IH rep t) as [->|?]];
    [right; by left|right; by right|by left|right; by right].
Qed.

(** With a named reporter in the map, eviction removes one of them. *)
Lemma oldest_named m : m !! "" = None -> m <> ∅ -> is_Some (m !! find_oldest (order m) "" zero_time).
Proof.
  intros Hn Hne. pose proof (order_perm m) as Hp. destruct (order m) as [|[r ts] l] eqn:E.
  { symmetry in Hp. apply Permutation_nil_r, map_to_list_empty_iff in Hp. done. }
  assert (forall r', r' ∈ ((r, ts) :: l).*1 -> is_Some (m !! r')) as Hin.
  { intros r' ([r1 t1] & -> & Hr)%list_elem_of_fmap. rewrite Hp in Hr. exists t1. by apply elem_of_map_to_list. }
  apply Hin. cbn [find_oldest]. change (IsZero zero_time) with true. cbn [orb].
  destruct (find_oldest_in l r ts) as [->|?]; [by left|by right].
Qed.

Lemma evict_size c m : m !! "" = None -> MaxReporters (cfg c) < Z.of_nat (size m) -> 0 <= MaxReporters (cfg c) ->
  exists r, is_Some (m !! r) /\ evictOldest order c m = delete r m /\ r = find_oldest (order m) "" zero_time.
Proof.
  intros Hn Hs Hm. exists (find_oldest (order m) "" zero_time).
  assert (is_Some (m !! find_oldest (order m) "" zero_time)) as Hr.
  { apply oldest_named; [done|]. intros ->. rewrite map_size_empty in Hs. lia. }
  split_and!; [done| |done]. unfold evictOldest. rewrite (proj2 (Z.leb_gt _ _)) by lia. cbv zeta.
  case_bool_decide as Hb; [|done]. rewrite Hb, Hn in Hr. by destruct Hr.
Qed.

Definition named_max (c : CallCooldown) (m : gmap string Z) : Prop :=
  m !! "" = None /\ Z.of_nat (size m) <= MaxReporters (cfg c).

Lemma add_reporter_ok c now m rep :
  0 <= MaxReporters (cfg c) -> named_max c m ->
  named_max c (add_reporter order c now m rep) /\
  add_reporter order c now m rep ⊆ <[upper_trim rep := now]> m.
Proof.
  intros H0 [Hn Hs]. unfold add_reporter. cbv zeta. case_bool_decide as Hr.
  { split; [done|]. rewrite Hr. by apply insert_subseteq. }
  assert (<[upper_trim rep:=now]> m !! "" = None) as Hn' by (by rewrite lookup_insert_ne).
  destruct (Z.ltb_spec (MaxReporters (cfg c)) (Z.of_nat (size (<[upper_trim rep:=now]> m)))) as [Hlt|?];
    [|done].
  destruct (evict_size c _ Hn' Hlt H0) as (r & Hin & -> & _).
  split; [split|apply delete_subseteq].
  - by rewrite lookup_delete_None; right.
  - rewrite map_size_delete. destruct Hin as [t ->].
    pose proof (map_size_insert (upper_trim rep) now m) as Hi. destruct (m !! upper_trim rep); cbn in *; lia.
Qed.

(** The reporters after the loop: old ones, or named in the set and stamped [now]. *)
Lemma add_reporters_ok c now reps m :
  0 <= MaxReporters (cfg c) -> named_max c m ->
  named_max c (fold_left (add_reporter order c now) reps m) /\
  forall r t, fold_left (add_reporter order c now) reps m !! r = Some t ->
    m !! r = Some t \/ (t = now /\ r ∈ map upper_trim reps).
Proof.
  intros H0. revert m. induction reps as [|rep reps IH]; intros m Hm; cbn [fold_left map]; [auto|].
  destruct (add_reporter_ok c now m rep H0 Hm) as [Hm' Hsub]. destruct (IH _ Hm') as [Ha Hb].
  split; [done|]. intros r t Hr. destruct (Hb r t Hr) as [H|[-> ?]]; [|right; split; [done|by right]].
  eapply lookup_weaken in H; [|exact Hsub]. apply lookup_insert_Some in H as [[<- <-]|[_ ?]]; [|by left].
  right. split; [done|]. by left.
Qed.

(** ** Every operation keeps the store explained by the history *)

Lemma now_or_now now clock : now <> zero_time -> now_or now clock = now.
Proof. intros. unfold now_or, IsZero. by rewrite (proj2 (Z.eqb_neq _ _)). Qed.

Lemma binFor_cfg c c' f : cfg c = cfg c' -> binFor c f = binFor c' f.
Proof. intros H. unfold binFor. by rewrite H. Qed.

Lemma step_ok c0 hist c o : 0 <= MaxReporters (cfg c0) -> store_ok c0 hist c -> store_ok c0 (hist ++ [o]) (step order c o).
Proof.
  intros H0 Hok. assert (store_ok c0 (hist ++ [o]) c) as [Hcfg Hk].
  { destruct Hok as [Hc H]. split; [done|]. intros k e He. eapply entry_ok_mono, H, He. set_solver. }
  assert (Hbin : forall f, binFor c f = binFor c0 f) by (intros; by apply binFor_cfg).
  destruct o as [call f reps mo rec now clock|call f mo rec ss sc ws wc now clock|now clock]; cbn [step].
  - unfold Record_. cbv zeta. case_bool_decide; [done|]. set (nw := now_or now clock).
    set (key := (upper_trim call, binFor c f)). set (e := pruneEntry _ _ _).
    assert (entry_ok c0 (hist ++ [OpRecord call f reps mo rec now clock]) key e) as [E1 E2 E3 E4].
    { apply entry_ok_prune.
      assert (forall h, entry_ok c0 h key (mkCooldownEntry ∅ zero_time zero_time)) as Hnew.
      { intros h. split; cbn; [done|by left|done|]. by rewrite map_size_empty. }
      destruct (entries c !! key) eqn:E; [|done]. destruct (expired _ _ _); [done|]. by apply Hk. }
    destruct (add_reporters_ok c nw reps (reporters e)) as [[N1 N2] Hrep]; [by rewrite Hcfg|split; [done|by rewrite Hcfg]|].
    assert (records c0 key (map upper_trim reps) nw (OpRecord call f reps mo rec now clock)) as Hrec
      by (split_and!; [unfold key; by rewrite Hbin|done|done]).
    apply store_ok_insert; [done|]. split; cbn [reporters cooldownUntil]; [| |done|by rewrite <- Hcfg].
    + intros r t Hr. destruct (Hrep r t Hr) as [?|[-> ?]]; [by apply E1|].
      eexists _, _. split; [|split; [exact Hrec|done]]. set_solver.
    + destruct (_ <=? _); [|done]. right. eexists _, _, _. split; [|split; [exact Hrec|by rewrite Hcfg]]. set_solver.
  - unfold ShouldBlock. cbv zeta. case_bool_decide; [done|].
    destruct (entries c !! _) as [e|] eqn:E; [|done]. destruct (expired _ _ _).
    { apply store_ok_subset; [done|apply delete_subseteq]. }
    assert (store_ok c0 (hist ++ [OpBlock call f mo rec ss sc ws wc now clock])
      (with_entries (<[(upper_trim call, binFor c f) := pruneEntry (defaultRecency rec) (now_or now clock) e]>
         (entries c)) c)) as Hp by (apply store_ok_insert; [done|]; by apply entry_ok_prune, Hk).
    repeat case_match; exact Hp.
  - unfold Cooldown_cleanup. cbv zeta. destruct (_ || _); [done|].
    apply store_ok_subset; [done|apply map_filter_subseteq].
Qed.

Lemma run_ok c0 hist c ops :
  0 <= MaxReporters (cfg c0) -> store_ok c0 hist c -> store_ok c0 (hist ++ ops) (run order c ops).
Proof.
  intros H0. revert hist c. induction ops as [|o ops IH]; intros hist c H; cbn; [by rewrite app_nil_r|].
  rewrite (cons_middle o), app_assoc. by apply IH, step_ok.
Qed.

(** ** Theorems *)

(** What a block means: the reporters counted at time [now]. *)
Lemma ShouldBlock_true c call f mo rec ss sc ws wc now clock n c' :
  ShouldBlock c call f mo rec ss sc ws wc now clock = (true, n, c') ->
  exists e, entries c !! (upper_trim call, binFor c f) = Some e /\
    n = Z.of_nat (size (reporters (pruneEntry (defaultRecency rec) (now_or now clock) e))) /\
    effectiveMin c mo <= n /\ cooldownUntil e <> zero_time /\ now_or now clock <= cooldownUntil e /\
    bypass c ss sc ws wc = false.
Proof.
  unfold ShouldBlock. cbv zeta. case_bool_decide; [done|].
  destruct (entries c !! _) as [e|] eqn:E; [|done]. destruct (expired _ _ _); [done|].
  set (p := pruneEntry _ _ e). destruct (Z.ltb_spec (Z.of_nat (size (reporters p))) (effectiveMin c mo)); [done|].
  destruct (IsZero (cooldownUntil p) || After (now_or now clock) (cooldownUntil p)) eqn:Eu; [done|].
  destruct (bypass c ss sc ws wc) eqn:Eb; [done|]. intros [= <- <-].
  assert (cooldownUntil p = cooldownUntil e) as Hp by (unfold p, pruneEntry; by destruct (_ <=? 0)).
  rewrite Hp in Eu. apply orb_false_iff in Eu as [Ez Ea]. unfold IsZero, After in *. boolify.
  exists e. split_and!; try done; lia.
Qed.

(** A call is protected only while it has recent support.  Whatever was recorded,
    asked and cleaned up before, in whatever order Go visits its maps, [ShouldBlock]
    answers yes only if as many different reporters as the threshold asks for were
    recorded for that call and bin within the recency window, some such report is not
    older than the configured duration, and the alternate is not decisively stronger.
    The recency bound holds whatever the duration: a longer protection has no effect. *)
Theorem cooldown_block_sound config c ops call f mo rec ss sc ws wc now clock n c' :
  NewCallCooldown config = Some c -> now <> zero_time ->
  ShouldBlock (run order c ops) call f mo rec ss sc ws wc now clock = (true, n, c') ->
  bypass c ss sc ws wc = false /\
  (exists o reps t, o ∈ ops /\ records c (upper_trim call, binFor c f) reps t o /\ now <= t + Duration (cfg c)) /\
  exists l, NoDup l /\ Z.of_nat (length l) = n /\ effectiveMin c mo <= n <= MaxReporters (cfg c) /\
    Forall (fun r => exists t, reported c ops (upper_trim call, binFor c f) r t /\ now - defaultRecency rec <= t) l.
Proof.
  intros Hnew Hnow Hb. apply ShouldBlock_true in Hb as (e & He & Hn & Hmin & Hz & Hu & Hby).
  rewrite now_or_now in * by done.
  assert (0 < MaxReporters (cfg c)) as H0.
  { unfold NewCallCooldown in Hnew. destruct (Enabled config); [|done]. injection Hnew as <-. by apply positive_else_pos. }
  assert (store_ok c [] c) as Hok.
  { unfold NewCallCooldown in Hnew. destruct (Enabled config); [|done]. injection Hnew as <-.
    split; [done|]. intros k x Hx. cbn in Hx. by rewrite lookup_empty in Hx. }
  destruct (run_ok c [] c ops ltac:(lia) Hok) as [Hcfg Hk]. cbn [app] in Hk.
  rewrite (binFor_cfg _ c f Hcfg) in He.
  pose proof (Hk _ _ He) as [_ [?|(o & reps & t & Ho & Hr & Ht)] _ _]; [done|].
  pose proof (entry_ok_prune c ops _ e (defaultRecency rec) now (Hk _ _ He)) as [P1 _ _ P4].
  split_and!; [|by exists o, reps, t; rewrite <- Ht|].
  { unfold bypass in *. by rewrite Hcfg in Hby. }
  unfold effectiveMin in Hmin. rewrite Hcfg in Hmin. set (p := pruneEntry _ _ _) in *.
  exists (map_to_list (reporters p)).*1. split_and!; [apply NoDup_fst_map_to_list| |done|lia|].
  { rewrite Hn, length_fmap. by rewrite length_map_to_list. }
  apply Forall_forall. intros r ([r' t'] & -> & Hin)%list_elem_of_fmap. apply elem_of_map_to_list in Hin.
  exists t'. split; [by apply P1|]. unfold p, pruneEntry in Hin.
  assert (0 < defaultRecency rec) by (by apply positive_else_pos).
  rewrite (proj2 (Z.leb_gt _ _)) in Hin by lia. cbn in Hin.
  apply map_lookup_filter_Some in Hin as [_ Hlt]. cbn in Hlt. lia.
Qed.

(** *** A recorded call is protected *)

Lemma find_oldest_min l rep t :
  t <> zero_time -> Forall (fun p => p.2 <> zero_time) l ->
  exists t', (find_oldest l rep t, t') ∈ (rep, t) :: l /\ Forall (fun p => t' <= p.2) ((rep, t) :: l).
Proof.
  revert rep t. induction l as [|[r ts] l IH]; intros rep t Ht Hl; cbn [find_oldest].
  { exists t. split; [by left|]. by repeat constructor. }
  apply Forall_cons in Hl as [Hts Hl]. cbn in Hts. unfold IsZero at 1, Before at 1.
  rewrite (proj2 (Z.eqb_neq _ _)) by done. cbn [orb]. destruct (Z.ltb_spec ts t).
  - destruct (IH r ts Hts Hl) as (t' & Hin & Hf). exists t'. split; [by right|].
    constructor; [|done]. apply Forall_cons in Hf as [Hf _]. cbn in *. lia.
  - destruct (IH rep t Ht Hl) as (t' & Hin & Hf). apply Forall_cons in Hf as [Hf1 Hf2]. cbn in *. exists t'. split.
    + apply elem_of_cons in Hin as [->|?]; [by left|right; by right].
    + constructor; [done|]. constructor; [cbn; lia|done].
Qed.

(** Stamps are after the epoch and not after [now]. *)
Definition stamped (now : Z) (m : gmap string Z) : Prop := forall r t, m !! r = Some t -> 0 <= t <= now.

Lemma oldest_least now m :
  stamped now m -> m <> ∅ ->
  exists t, m !! find_oldest (order m) "" zero_time = Some t /\ forall r u, m !! r = Some u -> t <= u.
Proof.
  intros Hs Hne. pose proof (order_perm m) as Hp. destruct (order m) as [|[r ts] l] eqn:E.
  { symmetry in Hp. by apply Permutation_nil_r, map_to_list_empty_iff in Hp. }
  assert (forall p, p ∈ (r, ts) :: l -> m !! p.1 = Some p.2) as Hin.
  { intros [r1 t1] Hr. rewrite Hp in Hr. by apply elem_of_map_to_list. }
  assert (forall p, p ∈ (r, ts) :: l -> p.2 <> zero_time) as Hnz.
  { intros p Hpi. specialize (Hs _ _ (Hin p Hpi)). intros Hz. rewrite Hz in Hs. by destruct Hs as [[] _]. }
  destruct (find_oldest_min l r ts) as (t' & Ht & Hf).
  { by apply (Hnz (r, ts)); left. }
  { apply Forall_forall. intros p Hpi. by apply Hnz; right. }
  cbn [find_oldest]. change (IsZero zero_time) with true. cbn [orb].
  exists t'. split; [by apply (Hin (_, t'))|]. intros r0 u Hr0. apply elem_of_map_to_list in Hr0.
  rewrite <- Hp in Hr0. by eapply (proj1 (Forall_forall _ _) Hf (r0, u)).
Qed.

Definition fresh (now : Z) (m : gmap string Z) : gmap string Z := filter (fun p => p.2 = now) m.

(** Either the entry is full of fresh reporters or none of [done] was evicted. *)
Definition kept (c : CallCooldown) (now : Z) (seen : list string) (m : gmap string Z) : Prop :=
  MaxReporters (cfg c) <= Z.of_nat (size (fresh now m)) \/ Forall (fun r => m !! r = Some now) seen.

Lemma fresh_full now m : stamped now m -> (forall r t, m !! r = Some t -> now <= t) -> fresh now m = m.
Proof.
  intros Hs Hl. apply map_filter_id. intros r t Hr. cbn. pose proof (Hs r t Hr). specialize (Hl r t Hr). lia.
Qed.

Lemma fresh_insert_size now m r : (size (fresh now m) <= size (fresh now (<[r := now]> m)))%nat.
Proof.
  apply map_subseteq_size. apply map_subseteq_spec. intros i x Hi. unfold fresh in *.
  apply map_lookup_filter_Some in Hi as [Hi Hx]. cbn in Hx. subst x. apply map_lookup_filter_Some.
  split; [|done]. destruct (decide (i = r)) as [->|]; [by rewrite lookup_insert_eq|by rewrite lookup_insert_ne].
Qed.

Lemma add_reporter_kept c now seen m rep :
  0 <= now -> 0 <= MaxReporters (cfg c) -> m !! "" = None -> stamped now m -> upper_trim rep <> "" ->
  kept c now seen m ->
  stamped now (add_reporter order c now m rep) /\ kept c now (upper_trim rep :: seen) (add_reporter order c now m rep).
Proof.
  intros Hnow H0 Hn Hs Hr Hk. unfold add_reporter. cbv zeta. rewrite bool_decide_eq_false_2 by done.
  set (m' := <[upper_trim rep := now]> m).
  assert (stamped now m') as Hs'.
  { intros r t. unfold m'. rewrite lookup_insert_Some. intros [[_ <-]|[_ ?]]; [lia|by eapply Hs]. }
  assert (kept c now (upper_trim rep :: seen) m') as Hk'.
  { destruct Hk as [Hk|Hk]; [left|right].
    - pose proof (fresh_insert_size now m (upper_trim rep)). fold m' in H. lia.
    - constructor; [by apply lookup_insert_eq|]. eapply Forall_impl; [exact Hk|]. cbn. intros r Hr'. unfold m'.
      destruct (decide (r = upper_trim rep)) as [->|]; [by rewrite lookup_insert_eq|by rewrite lookup_insert_ne]. }
  destruct (Z.ltb_spec (MaxReporters (cfg c)) (Z.of_nat (size m'))) as [Hlt|]; [|done].
  assert (m' !! "" = None) as Hn' by (unfold m'; by rewrite lookup_insert_ne).
  destruct (evict_size c m' Hn' Hlt H0) as (r & [tr Hin] & -> & Hold).
  destruct (oldest_least now m' Hs') as (t & Ht & Hleast); [intros Hem; by rewrite Hem, lookup_empty in Hin|].
  rewrite <- Hold, Hin in Ht. injection Ht as ->.
  split; [intros r' t' [_ ?]%lookup_delete_Some; by eapply Hs'|].
  destruct (decide (t = now)) as [->|Hne].
  - left. rewrite (fresh_full now (delete r m')); [|intros r' t' [_ ?]%lookup_delete_Some; by eapply Hs'|
      intros r' t' [_ ?]%lookup_delete_Some; by eapply Hleast].
    rewrite map_size_delete, Hin. lia.
  - assert (fresh now (delete r m') = fresh now m') as Hf.
    { unfold fresh. rewrite map_filter_delete. apply delete_id, map_lookup_filter_None. right.
      intros x Hx. rewrite Hin in Hx. by injection Hx as <-. }
    destruct Hk' as [Hk'|Hk']; [left; by rewrite Hf|right]. eapply Forall_impl; [exact Hk'|]. cbn. intros r' Hr'.
    rewrite lookup_delete_ne; [done|]. intros <-. rewrite Hin in Hr'. by injection Hr'.
Qed.

Lemma add_reporters_kept c now reps seen m :
  0 <= now -> 0 <= MaxReporters (cfg c) -> named_max c m -> stamped now m -> "" ∉ map upper_trim reps ->
  kept c now seen m ->
  kept c now (rev (map upper_trim reps) ++ seen) (fold_left (add_reporter order c now) reps m).
Proof.
  intros Hnow H0. revert seen m. induction reps as [|rep reps IH]; intros seen m Hm Hs Hr Hk; [done|].
  cbn [map] in Hr. apply not_elem_of_cons in Hr as [Hr1 Hr2]. cbn [fold_left map rev]. rewrite <- app_assoc. cbn [app].
  destruct (add_reporter_kept c now seen m rep) as [Ha Hb]; try done; [apply Hm|].
  apply IH; try done. by apply add_reporter_ok.
Qed.

(** Enough different reporters: the entry counts at least the smaller of their number
    and the capacity, all stamped [now]. *)
Lemma fresh_count c now reps m :
  0 <= now -> 0 <= MaxReporters (cfg c) -> named_max c m -> stamped now m ->
  "" ∉ map upper_trim reps -> NoDup (map upper_trim reps) ->
  Z.min (Z.of_nat (length reps)) (MaxReporters (cfg c))
  <= Z.of_nat (size (fresh now (fold_left (add_reporter order c now) reps m))).
Proof.
  intros Hnow H0 Hm Hs Hr Hnd.
  destruct (add_reporters_kept c now reps [] m) as [Hk|Hk]; try done; [by right|lia|].
  rewrite app_nil_r in Hk. set (m' := fold_left _ _ _) in *.
  assert (list_to_set (map upper_trim reps) ⊆@{gset string} dom (fresh now m')) as Hsub%subseteq_size.
  { intros r Hin%elem_of_list_to_set. apply elem_of_dom. exists now. unfold fresh. apply map_lookup_filter_Some.
    split; [|done]. rewrite Forall_forall in Hk. apply Hk.
    apply list_elem_of_In. rewrite <- in_rev. by apply list_elem_of_In. }
  rewrite size_list_to_set in Hsub by done. rewrite length_map, size_dom in Hsub. lia.
Qed.

Definition op_now (o : op) : Z :=
  match o with
  | OpRecord _ _ _ _ _ now clock | OpBlock _ _ _ _ _ _ _ _ now clock | OpClean now clock => now_or now clock
  end.

Lemma store_stamped c ops now key e :
  Forall (fun o => 0 <= op_now o <= now) ops -> entry_ok c ops key e -> stamped now (reporters e).
Proof.
  intros Hops [H _ _ _] r t Hr. destruct (H r t Hr) as (o & reps & Ho & Hrec & _).
  rewrite Forall_forall in Hops. specialize (Hops o Ho).
  destruct o; cbn in *; [|done..]. destruct Hrec as (_ & _ & ->). done.
Qed.

(** The entry right after a [Record_]. *)
Lemma Record_entry c ops config call f reps mo rec now clock :
  NewCallCooldown config = Some c -> Forall (fun o => 0 <= op_now o <= now) ops ->
  upper_trim call <> "" -> 0 <= now -> "" ∉ map upper_trim reps -> NoDup (map upper_trim reps) ->
  let c' := Record_ order (run order c ops) call f reps mo rec now clock in
  cfg c' = cfg c /\
  exists e, entries c' !! (upper_trim call, binFor c f) = Some e /\ lastSeen e = now /\
    Z.min (Z.of_nat (length reps)) (MaxReporters (cfg c)) <= Z.of_nat (size (fresh now (reporters e))) /\
    (effectiveMin c mo <= Z.of_nat (size (reporters e)) -> cooldownUntil e = now + Duration (cfg c)).
Proof.
  intros Hnew Hops Hcall Hnow Hreps Hnd. unfold NewCallCooldown in Hnew.
  destruct (Enabled config); [|done]. cbn [negb] in Hnew. injection Hnew as Hc.
  assert (0 < MaxReporters (cfg c)) as H0 by (subst c; by apply positive_else_pos).
  destruct (run_ok c [] c ops) as [Hcfg Hk]; [lia|split; [done|subst c; intros k e Hx; cbn in Hx; by rewrite lookup_empty in Hx]|].
  cbn [app] in Hk. set (c1 := run order c ops) in *. cbv zeta. unfold Record_. cbv zeta.
  rewrite bool_decide_eq_false_2, now_or_now by (done || (unfold zero_time, second; lia)).
  rewrite (binFor_cfg c1 c f Hcfg). split; [done|]. cbn [entries with_entries]. rewrite lookup_insert_eq.
  eexists. split; [done|]. cbn [lastSeen reporters cooldownUntil]. unfold effectiveMin. rewrite Hcfg.
  set (e0 := match entries c1 !! _ with Some _ => _ | None => _ end).
  assert (entry_ok c ops (upper_trim call, binFor c f) e0) as He0.
  { assert (forall h k, entry_ok c h k (mkCooldownEntry ∅ zero_time zero_time)) as Hnew.
    { intros h k. split; cbn; [done|by left|done|]. rewrite map_size_empty. lia. }
    unfold e0. destruct (entries c1 !! _) eqn:E; [|done]. destruct (expired _ _ _); [done|]. by apply Hk. }
  apply (entry_ok_prune _ _ _ _ (defaultRecency rec) now) in He0.
  split_and!; [done| |].
  - rewrite <- Hcfg. apply fresh_count; try done; [rewrite Hcfg; lia|split; [apply He0|rewrite Hcfg; apply He0]|].
    by eapply store_stamped.
  - intros Hle. by rewrite (proj2 (Z.leb_le _ _)).
Qed.

(** Support protects.  When a call has just been recorded with at least as many
    different reporters as the threshold asks for, then for as long as the recency
    window, the duration and the lifetime of the entry all last, every attempt to flip
    away from it with an alternate that is not decisively stronger is blocked, whatever
    happened before and whichever reporters had to be evicted. *)
Theorem cooldown_protects config c ops call f reps mo rec now clock now' clock' ss sc ws wc :
  NewCallCooldown config = Some c -> Forall (fun o => 0 <= op_now o <= now) ops ->
  upper_trim call <> "" -> 0 <= now <= now' ->
  "" ∉ map upper_trim reps -> NoDup (map upper_trim reps) ->
  effectiveMin c mo <= Z.of_nat (length reps) -> effectiveMin c mo <= MaxReporters (cfg c) ->
  now' - now <= Z.min (defaultRecency rec) (Z.min (Duration (cfg c)) (TTL (cfg c))) ->
  bypass c ss sc ws wc = false ->
  (ShouldBlock (Record_ order (run order c ops) call f reps mo rec now clock)
     call f mo rec ss sc ws wc now' clock').1.1 = true.
Proof.
  intros Hnew Hops Hcall Hnow Hreps Hnd Hmin Hmax Hwin Hby.
  destruct (Record_entry c ops config call f reps mo rec now clock) as [Hcfg (e & He & Hls & Hf & Hu)]; try done; [lia|].
  set (c' := Record_ _ _ _ _ _ _ _ _ _) in *. unfold ShouldBlock. cbv zeta.
  rewrite bool_decide_eq_false_2, now_or_now by (done || (unfold zero_time, second; lia)).
  rewrite (binFor_cfg c' c f Hcfg), He. unfold expired, Before. rewrite Hls, Hcfg.
  rewrite (proj2 (Z.ltb_ge (now + TTL (cfg c)) now')) by lia. rewrite andb_false_r.
  set (p := pruneEntry _ _ _).
  assert (Z.of_nat (size (fresh now (reporters e))) <= Z.of_nat (size (reporters p))) as Hsz.
  { apply inj_le, map_subseteq_size, map_subseteq_spec. intros r t [Hr Ht]%map_lookup_filter_Some. cbn in Ht.
    unfold p, pruneEntry. destruct (_ <=? 0); [done|]. cbn. apply map_lookup_filter_Some. split; [done|]. cbn. lia. }
  assert (size (reporters p) <= size (reporters e))%nat as Hsz2.
  { unfold p, pruneEntry. destruct (_ <=? 0); [done|]. apply map_size_filter. }
  assert (cooldownUntil p = now + Duration (cfg c)) as Hup.
  { transitivity (cooldownUntil e); [unfold p, pruneEntry; by destruct (_ <=? 0)|]. apply Hu. lia. }
  unfold effectiveMin. rewrite Hcfg. fold (effectiveMin c mo).
  rewrite (proj2 (Z.ltb_ge _ _)) by lia. rewrite Hup. unfold IsZero, After.
  rewrite (proj2 (Z.eqb_neq _ _)) by (unfold zero_time, second, defaultRecency in *; pose proof (positive_else_pos rec (45 * second)); unfold second in *; lia).
  rewrite (proj2 (Z.ltb_ge _ _)) by lia. cbn [orb].
  unfold bypass in *. rewrite Hcfg. by rewrite Hby.
Qed.
End Facts.

(** ** Witnesses *)

Definition demo_config : CallCooldownConfig := mkCooldownConfig true 3 (2 * minute) (5 * minute) 500 8 2 10.
Definition demo_cooldown : CallCooldown := mkCooldown (cooldown_defaults demo_config) ∅.
Definition demo_reps : list string := ["aa1zz"; "BB2YY"; " CC3XX"].

Lemma cooldown_block_sound_witness :
  bypass demo_cooldown 3 40 4 70 = false /\
  exists l, NoDup l /\ Z.of_nat (length l) = 3 /\
    Forall (fun r => exists t, reported demo_cooldown
      [OpRecord "k1abc" 7000000 demo_reps 3 0 (100 * second) 0] ("K1ABC", 14000) r t /\ 85 * second <= t) l.
Proof.
  destruct (cooldown_block_sound map_to_list (fun _ => Permutation_refl _) demo_config demo_cooldown
    [OpRecord "k1abc" 7000000 demo_reps 3 0 (100 * second) 0] "K1ABC" 7000000 3 0 3 40 4 70 (130 * second) 0 3
    (ShouldBlock (run map_to_list demo_cooldown [OpRecord "k1abc" 7000000 demo_reps 3 0 (100 * second) 0])
       "K1ABC" 7000000 3 0 3 40 4 70 (130 * second) 0).2) as (Hb & _ & l & Hnd & Hl & _ & Hf).
  - reflexivity.
  - vm_compute. discriminate.
  - vm_compute. reflexivity.
  - split; [exact Hb|]. exists l. split_and!; [exact Hnd|exact Hl|exact Hf].
Defined.

Lemma cooldown_protects_witness :
  (ShouldBlock (Record_ map_to_list (run map_to_list demo_cooldown [OpClean (50 * second) 0])
     "k1abc" 7000000 demo_reps 3 0 (100 * second) 0) "k1abc" 7000000 3 0 3 40 4 70 (130 * second) 0).1.1 = true.
Proof.
  apply (cooldown_protects map_to_list (fun _ => Permutation_refl _) demo_config demo_cooldown [OpClean (50 * second) 0]).
  - reflexivity.
  - repeat constructor; vm_compute; discriminate.
  - vm_compute. discriminate.
  - vm_compute. split; discriminate.
  - apply (bool_decide_unpack _). vm_compute. exact I.
  - apply (bool_decide_unpack _). vm_compute. exact I.
  - vm_compute. discriminate.
  - vm_compute. discriminate.
  - vm_compute. discriminate.
  - reflexivity.
Defined.
