(* ===== verification/Quality.v ===== *)
(** * Quality: the bounded store of call quality scores

    Models [spot/quality.go].  Scores are kept per call and frequency bin in shards
    chosen by an FNV-1a hash; each shard has pinned priors and dynamic entries, the
    latter limited by a lifetime and a capacity.  A method runs under the lock of one
    shard, so it is one atomic step; [getWithTime] takes the lock twice and may read
    two shards.  [sort.Slice] is not stable and its input comes from a map: [by_age]
    is any listing of the keys that is sorted by age.  Pointers in the dynamic map are
    never nil. *)

From S2P Require Import Prelude GoText GoNum Callsign GoParse GoTime.
From Stdlib Require Import QArith Sorted.
Local Open Scope string_scope.
Local Open Scope list_scope.
Local Open Scope Z_scope.

Definition defaultQualityShards : Z := 64.
Definition defaultQualityTTL : Z := 24 * hour.
Definition defaultQualityMaxEntries : Z := 200000.
Definition defaultQualityCleanupInterval : Z := 10 * minute.

Record CallQualityOptions := mkQualityOptions {
  o_Shards : Z;
  o_TTL : Z;
  o_MaxEntries : Z;
  o_CleanupInterval : Z;
  o_PinPriors : option bool
}.

Record CallQualityCounts := mkQualityCounts { Pinned : Z; Dynamic : Z }.

(** [callFreqKey]: the call and its bin. *)
Definition callFreqKey : Type := string * Z.

Record qualityEntry := mkQualityEntry { score : Z; updated : Z }.

Record qualityShard := mkQualityShard {
  pinned : gmap callFreqKey Z;
  dynamic : gmap callFreqKey qualityEntry
}.

Record CallQualityStore := mkQualityStore {
  q_shards : list qualityShard;
  q_ttl : Z;
  maxEntries : Z;
  perShardMax : Z;
  cleanupInterval : Z;
  pinPriors : bool
}.

Definition with_shards (l : list qualityShard) (s : CallQualityStore) : CallQualityStore :=
  mkQualityStore l (q_ttl s) (maxEntries s) (perShardMax s) (cleanupInterval s) (pinPriors s).

Definition with_dynamic (m : gmap callFreqKey qualityEntry) (sh : qualityShard) : qualityShard :=
  mkQualityShard (pinned sh) m.

Definition NewCallQualityStoreWithOptions (o : CallQualityOptions) : CallQualityStore :=
  let shards := positive_else (o_Shards o) defaultQualityShards in
  let ttl := positive_else (o_TTL o) defaultQualityTTL in
  let maxEntries := positive_else (o_MaxEntries o) defaultQualityMaxEntries in
  let cleanup := positive_else (o_CleanupInterval o) defaultQualityCleanupInterval in
  let perShard := Z.quot maxEntries shards in
  let perShard := if negb (Z.rem maxEntries shards =? 0) then perShard + 1 else perShard in
  let perShard := if perShard <=? 0 then 1 else perShard in
  mkQualityStore (replicate (Z.to_nat shards) (mkQualityShard ∅ ∅)) ttl maxEntries perShard cleanup
    (default true (o_PinPriors o)).

(** The bin of a frequency; -1 stands for the priors of all bins. *)
Definition freqBinHz (freqHz : Q) (binSizeHz : Z) : Z :=
  let binSizeHz := positive_else binSizeHz 1000 in
  if Qle_bool freqHz 0 then -1 else Z.quot (float_to_int freqHz) binSizeHz.

(** FNV-1a over the bytes of the call, then the bin. *)
Definition fnv_step (h v : Z) : Z := uint32 (Z.lxor h v * 16777619).

Fixpoint fnv (s : string) (h : Z) : Z :=
  match s with
  | "" => h
  | String c rest => fnv rest (fnv_step h (byte_val c))
  end.

Definition shard_index (n : nat) (key : callFreqKey) : nat :=
  Z.to_nat (fnv_step (fnv key.1 2166136261) (uint32 key.2) mod Z.of_nat n).

(** [shardFor]: the index of the shard; the slice is never empty. *)
Definition quality_shardFor (s : CallQualityStore) (key : callFreqKey) : nat :=
  shard_index (length (q_shards s)) key.

Definition stale (ttl : Z) (now : Z) (e : qualityEntry) : bool := ttl <? time_sub now (updated e).

Definition pruneExpiredLocked (ttl now : Z) (sh : qualityShard) : qualityShard :=
  if ttl <=? 0 then sh
  else with_dynamic (filter (fun p => stale ttl now p.2 = false) (dynamic sh)) sh.

(** The lookup of [scoreFor], which deletes an expired entry. *)
Definition scoreFor_locked (ttl now : Z) (key : callFreqKey) (sh : qualityShard) : Z * bool * qualityShard :=
  let '(score0, present) := match pinned sh !! key with Some v => (v, true) | None => (0, false) end in
  match dynamic sh !! key with
  | None => (score0, present, sh)
  | Some entry =>
      if (0 <? ttl) && stale ttl now entry then (score0, present, with_dynamic (delete key (dynamic sh)) sh)
      else (score0 + score entry, true, sh)
  end.

(** Run [f] on the shard of a key. *)
Definition scoreFor (s : CallQualityStore) (key : callFreqKey) (now : Z) : Z * bool * CallQualityStore :=
  match q_shards s !! quality_shardFor s key with
  | None => (0, false, s)
  | Some sh =>
      let '(v, present, sh') := scoreFor_locked (q_ttl s) now key sh in
      (v, present, with_shards (<[quality_shardFor s key := sh']> (q_shards s)) s)
  end.

Definition getWithTime (s : CallQualityStore) (call : string) (freqHz : Q) (binSizeHz now : Z)
    : Z * CallQualityStore :=
  let call := upper_trim call in
  if bool_decide (call = "") then (0, s)
  else
    let bin := freqBinHz freqHz binSizeHz in
    let '(v, present, s) := scoreFor s (call, bin) now in
    if present : bool then (v, s)
    else if negb (bin =? -1) then
      let '(v, _, s) := scoreFor s (call, -1) now in
      if negb (v =? 0) then (v, s) else (0, s)
    else (0, s).

Section Order.
Variable by_age : gmap callFreqKey qualityEntry -> list callFreqKey.

Definition evict_keep (perShardMax : Z) : Z :=
  if 10 <=? perShardMax then
    let keep := perShardMax - Z.quot perShardMax 10 in
    if keep <? 1 then 1 else keep
  else perShardMax.

Definition evictOldestLocked (perShardMax : Z) (sh : qualityShard) : qualityShard :=
  if perShardMax <=? 0 then sh
  else
    let keep := evict_keep perShardMax in
    let remove := Z.of_nat (size (dynamic sh)) - keep in
    if remove <=? 0 then sh
    else
      let items := by_age (dynamic sh) in
      if bool_decide (length items = 0%nat) then sh
      else
        let remove := if Z.of_nat (length items) <? remove then Z.of_nat (length items) else remove in
        with_dynamic (foldr delete (dynamic sh) (take (Z.to_nat remove) items)) sh.

Definition add_locked (s : CallQualityStore) (key : callFreqKey) (delta now : Z) (sh : qualityShard) : qualityShard :=
  let d := match dynamic sh !! key with
           | Some entry => if (0 <? q_ttl s) && stale (q_ttl s) now entry then delete key (dynamic sh) else dynamic sh
           | None => dynamic sh
           end in
  let d := match d !! key with
           | None => <[key := mkQualityEntry delta now]> d
           | Some entry => <[key := mkQualityEntry (score entry + delta) now]> d
           end in
  let sh := with_dynamic d sh in
  if (0 <? perShardMax s) && (perShardMax s <? Z.of_nat (size (dynamic sh))) then
    let sh := if 0 <? q_ttl s then pruneExpiredLocked (q_ttl s) now sh else sh in
    if perShardMax s <? Z.of_nat (size (dynamic sh)) then evictOldestLocked (perShardMax s) sh else sh
  else sh.

Definition update_shard (s : CallQualityStore) (key : callFreqKey) (f : qualityShard -> qualityShard)
    : CallQualityStore := with_shards (alter f (quality_shardFor s key) (q_shards s)) s.

Definition addWithTime (s : CallQualityStore) (call : string) (freqHz : Q) (binSizeHz delta now : Z)
    : CallQualityStore :=
  let call := upper_trim call in
  if bool_decide (call = "") || (delta =? 0) then s
  else
    let key := (call, freqBinHz freqHz binSizeHz) in
    update_shard s key (add_locked s key delta now).

Definition AddPinned (s : CallQualityStore) (call : string) (freqHz : Q) (binSizeHz score now : Z)
    : CallQualityStore :=
  if negb (pinPriors s) then addWithTime s call freqHz binSizeHz score now
  else
    let call := upper_trim call in
    if bool_decide (call = "") || (score =? 0) then s
    else
      let key := (call, freqBinHz freqHz binSizeHz) in
      update_shard s key (fun sh => mkQualityShard (<[key := default 0 (pinned sh !! key) + score]> (pinned sh)) (dynamic sh)).
End Order.

Definition quality_cleanup (s : CallQualityStore) (now : Z) : CallQualityStore :=
  if q_ttl s <=? 0 then s
  else with_shards (map (pruneExpiredLocked (q_ttl s) now) (q_shards s)) s.

(** ** Priors ([spot/priors.go]) *)

(** What one line of the priors file adds; [None] when the line is skipped.  Writing
    a number as infinite or not-a-number gives no usable bin and is left out. *)
Definition prior_of_line (text : string) : option (string * Z * Q) :=
  let line := TrimSpace text in
  if bool_decide (line = "") || HasPrefix line "#" then None
  else match Fields line with
       | f0 :: f1 :: rest =>
           let call := normalize_call f0 in
           if bool_decide (call = "") then None
           else match Atoi f1 with
                | None => None
                | Some v =>
                    if v =? 0 then None
                    else
                      let freqHz := match rest with
                                    | f2 :: _ => match ParseFloat f2 with FloatVal x => fmul x 1000 | _ => 0%Q end
                                    | [] => 0%Q
                                    end in
                      Some (call, v, freqHz)
                end
       | _ => None
       end.

(** [LoadCallQualityPriors] on the lines the scanner yields. *)
Definition LoadCallQualityPriors by_age (lines : list string) (binSizeHz now : Z) (s : CallQualityStore)
    : Z * CallQualityStore :=
  fold_left (fun '(applied, s) text =>
    match prior_of_line text with
    | None => (applied, s)
    | Some (call, v, freqHz) => (applied + 1, AddPinned by_age s call freqHz binSizeHz v now)
    end) lines (0, s).

Definition Counts (s : CallQualityStore) : CallQualityCounts :=
  fold_left (fun c sh => mkQualityCounts (Pinned c + Z.of_nat (size (pinned sh))) (Dynamic c + Z.of_nat (size (dynamic sh))))
            (q_shards s) (mkQualityCounts 0 0).

(** ** The contract: one flat table *)

(** Nothing is forgotten; a score that is too old does not count. *)
Record quality_spec := mkQualitySpec {
  sp_pinned : gmap callFreqKey Z;
  sp_dynamic : gmap callFreqKey qualityEntry
}.

Definition live (ttl now : Z) (o : option qualityEntry) : option qualityEntry :=
  match o with Some e => if stale ttl now e then None else Some e | None => None end.

Definition spec_score (ttl now : Z) (q : quality_spec) (key : callFreqKey) : option Z :=
  match sp_pinned q !! key, live ttl now (sp_dynamic q !! key) with
  | None, None => None
  | p, d => Some (default 0 p + from_option score 0 d)
  end.

Definition spec_get (ttl : Z) (q : quality_spec) (call : string) (bin now : Z) : Z :=
  match spec_score ttl now q (call, bin) with
  | Some v => v
  | None => if bin =? -1 then 0 else default 0 (spec_score ttl now q (call, -1))
  end.

Definition spec_add (ttl : Z) (q : quality_spec) (key : callFreqKey) (delta now : Z) : quality_spec :=
  mkQualitySpec (sp_pinned q)
    (<[key := mkQualityEntry (from_option score 0 (live ttl now (sp_dynamic q !! key)) + delta) now]> (sp_dynamic q)).

Definition spec_pin (q : quality_spec) (key : callFreqKey) (v : Z) : quality_spec :=
  mkQualitySpec (<[key := default 0 (sp_pinned q !! key) + v]> (sp_pinned q)) (sp_dynamic q).

Inductive qop :=
  | QAdd (call : string) (freqHz : Q) (binSizeHz delta now : Z)
  | QPin (call : string) (freqHz : Q) (binSizeHz v now : Z)
  | QGet (call : string) (freqHz : Q) (binSizeHz now : Z)
  | QClean (now : Z).

Definition qop_time (o : qop) : Z :=
  match o with QAdd _ _ _ _ now | QPin _ _ _ _ now | QGet _ _ _ now | QClean now => now end.

Definition q_step by_age (s : CallQualityStore) (o : qop) : Z * CallQualityStore :=
  match o with
  | QAdd call f b delta now => (0, addWithTime by_age s call f b delta now)
  | QPin call f b v now => (0, AddPinned by_age s call f b v now)
  | QGet call f b now => getWithTime s call f b now
  | QClean now => (0, quality_cleanup s now)
  end.

Fixpoint q_run by_age (s : CallQualityStore) (ops : list qop) : list Z * CallQualityStore :=
  match ops with
  | [] => ([], s)
  | o :: rest => let '(v, s) := q_step by_age s o in let '(vs, s) := q_run by_age s rest in (v :: vs, s)
  end.

Definition spec_step (ttl : Z) (pin : bool) (q : quality_spec) (o : qop) : Z * quality_spec :=
  match o with
  | QAdd call f b delta now =>
      (0, if bool_decide (upper_trim call = "") || (delta =? 0) then q
          else spec_add ttl q (upper_trim call, freqBinHz f b) delta now)
  | QPin call f b v now =>
      (0, if bool_decide (upper_trim call = "") || (v =? 0) then q
          else if pin then spec_pin q (upper_trim call, freqBinHz f b) v
          else spec_add ttl q (upper_trim call, freqBinHz f b) v now)
  | QGet call f b now =>
      (if bool_decide (upper_trim call = "") then 0 else spec_get ttl q (upper_trim call) (freqBinHz f b) now, q)
  | QClean _ => (0, q)
  end.

Fixpoint spec_run (ttl : Z) (pin : bool) (q : quality_spec) (ops : list qop) : list Z * quality_spec :=
  match ops with
  | [] => ([], q)
  | o :: rest => let '(v, q) := spec_step ttl pin q o in let '(vs, q) := spec_run ttl pin q rest in (v :: vs, q)
  end.

(** ** The abstraction relation *)

Definition dyn_rel (ttl now : Z) (o o' : option qualityEntry) : Prop :=
  match o with
  | Some e => o' = Some e
  | None => forall e, o' = Some e -> stale ttl now e = true
  end.

(** Shard [i] of [n] shows the keys hashed to it, but for entries that are too old. *)
Definition shard_rel (n : nat) (ttl now : Z) (i : nat) (sh : qualityShard) (q : quality_spec) : Prop :=
  forall key,
    if decide (shard_index n key = i)
    then pinned sh !! key = sp_pinned q !! key /\ dyn_rel ttl now (dynamic sh !! key) (sp_dynamic q !! key)
    else pinned sh !! key = None /\ dynamic sh !! key = None.

Record store_rel (now : Z) (s : CallQualityStore) (q : quality_spec) : Prop := {
  rel_shards : (0 < length (q_shards s))%nat;
  rel_ttl : 0 < q_ttl s;
  rel_each : forall i sh, q_shards s !! i = Some sh -> shard_rel (length (q_shards s)) (q_ttl s) now i sh q
}.

Lemma stale_mono ttl now now' e : now <= now' -> stale ttl now e = true -> stale ttl now' e = true.
Proof. unfold stale, time_sub. rewrite !Z.ltb_lt. lia. Qed.

Lemma dyn_rel_mono ttl now now' o o' : now <= now' -> dyn_rel ttl now o o' -> dyn_rel ttl now' o o'.
Proof. intros Hn. destruct o; cbn; [done|]. intros H e He. eapply stale_mono, H, He. done. Qed.

Lemma dyn_rel_live ttl now o o' : dyn_rel ttl now o o' -> live ttl now o = live ttl now o'.
Proof.
  destruct o as [e|]; cbn; [by intros ->|]. intros H. destruct o' as [e|]; [|done]. cbn. by rewrite H.
Qed.

Lemma shard_rel_mono n ttl now now' i sh q : now <= now' -> shard_rel n ttl now i sh q -> shard_rel n ttl now' i sh q.
Proof.
  intros Hn H key. specialize (H key). destruct (decide _); [|done].
  destruct H as [? ?]. split; [done|]. by eapply dyn_rel_mono.
Qed.

Lemma store_rel_mono now now' s q : now <= now' -> store_rel now s q -> store_rel now' s q.
Proof. intros Hn [H1 H2 H3]. split; [done..|]. intros i sh Hi. eapply shard_rel_mono; eauto. Qed.

Lemma shard_index_lt n key : (0 < n)%nat -> (shard_index n key < n)%nat.
Proof.
  intros Hn. unfold shard_index. set (h := fnv_step _ _). clearbody h.
  pose proof (Z.mod_pos_bound h (Z.of_nat n)). lia.
Qed.

Lemma shard_of now s q key : store_rel now s q -> exists sh, q_shards s !! quality_shardFor s key = Some sh.
Proof. intros [H _ _]. apply lookup_lt_is_Some_2, shard_index_lt, H. Qed.

(** An update of the shard of [key] that changes only that key, on both sides. *)
Lemma update_rel now s q q' key (f : qualityShard -> qualityShard) :
  store_rel now s q ->
  (forall k, k <> key -> sp_pinned q' !! k = sp_pinned q !! k /\ sp_dynamic q' !! k = sp_dynamic q !! k) ->
  (forall sh, q_shards s !! quality_shardFor s key = Some sh ->
     shard_rel (length (q_shards s)) (q_ttl s) now (quality_shardFor s key) sh q ->
     shard_rel (length (q_shards s)) (q_ttl s) now (quality_shardFor s key) (f sh) q') ->
  store_rel now (update_shard s key f) q'.
Proof.
  intros [H1 H2 H3] Hq Hf. split; cbn; [by rewrite length_alter|done|]. rewrite length_alter. intros i sh Hi.
  destruct (decide (i = quality_shardFor s key)) as [->|Hne].
  - rewrite list_lookup_alter_eq in Hi. destruct (q_shards s !! _) as [sh0|] eqn:E; [|done].
    injection Hi as <-. apply Hf; [done|]. by apply H3.
  - rewrite list_lookup_alter_ne in Hi by done. intros k. specialize (H3 i sh Hi k).
    destruct (decide (shard_index _ k = i)) as [Hk|]; [|done].
    destruct (Hq k) as [-> ->]; [|done]. intros ->. done.
Qed.

(** A shard holds no more dynamic entries than the table. *)
Lemma shard_rel_size n ttl now i sh q :
  shard_rel n ttl now i sh q -> (size (dynamic sh) <= size (sp_dynamic q))%nat.
Proof.
  intros H. apply map_subseteq_size, map_subseteq_spec. intros k e Hk. specialize (H k).
  destruct (decide _); [|by destruct H as [_ H]; rewrite Hk in H].
  destruct H as [_ H]. by rewrite Hk in H.
Qed.

(** ** Each operation implements the contract *)

Lemma scoreFor_refines now s q key :
  store_rel now s q ->
  let '(v, present, s') := scoreFor s key now in
  (if present : bool then spec_score (q_ttl s) now q key = Some v
   else v = 0 /\ spec_score (q_ttl s) now q key = None) /\
  store_rel now s' q /\ (perShardMax s' = perShardMax s /\ q_ttl s' = q_ttl s /\ pinPriors s' = pinPriors s).
Proof.
  intros Hrel. unfold scoreFor. destruct (shard_of now s q key Hrel) as [sh Hsh]. rewrite Hsh.
  destruct (scoreFor_locked (q_ttl s) now key sh) as [[v present] sh'] eqn:E.
  pose proof Hrel as [Hn Ht Hall]. pose proof (Hall _ _ Hsh) as Hr. pose proof (Hr key) as Hkey.
  destruct (decide _) as [_|Hne] in Hkey; [|by destruct Hne]. destruct Hkey as [Hp Hd].
  unfold scoreFor_locked in E. rewrite Hp in E. rewrite (proj2 (Z.ltb_lt _ _)) in E by done. cbn [andb] in E.
  pose proof (dyn_rel_live _ _ _ _ Hd) as Hlive. unfold spec_score. rewrite <- Hlive.
  assert (dynamic sh' = dynamic sh \/
    (exists e, dynamic sh !! key = Some e /\ stale (q_ttl s) now e = true /\ dynamic sh' = delete key (dynamic sh)))
    as Hdyn.
  { destruct (sp_pinned q !! key), (dynamic sh !! key) as [e|]; cbn in E;
      try destruct (stale _ _ e) eqn:Es; injection E as <- <- <-; eauto 6. }
  assert (pinned sh' = pinned sh) as Hpin.
  { destruct (sp_pinned q !! key), (dynamic sh !! key) as [e|]; cbn in E;
      try destruct (stale _ _ e) eqn:Es; by injection E as <- <- <-. }
  split_and!; [| |done..].
  - destruct (sp_pinned q !! key), (dynamic sh !! key) as [e|]; cbn in E |- *;
      try destruct (stale _ _ e) eqn:Es; injection E as <- <- <-; cbn; rewrite ?Es; cbn; try done.
    all: f_equal; lia.
  - split; cbn; [by rewrite length_insert|done|]. rewrite length_insert. intros i shi Hi k.
    destruct (decide (i = quality_shardFor s key)) as [->|Hne]; [|rewrite list_lookup_insert_ne in Hi by done; by apply Hall].
    rewrite list_lookup_insert_eq in Hi by (by apply lookup_lt_Some in Hsh). injection Hi as <-.
    specialize (Hr k). rewrite Hpin. destruct Hdyn as [->|(e & He & Hs & ->)]; [done|].
    destruct (decide (k = key)) as [->|Hkk].
    + destruct (decide _); [|by rewrite lookup_delete_eq]. split; [apply Hr|]. rewrite lookup_delete_eq. cbn.
      rewrite He in Hd. cbn in Hd. intros e' He'. rewrite Hd in He'. by injection He' as <-.
    + by rewrite lookup_delete_ne.
Qed.

Lemma getWithTime_refines now s q call f b :
  store_rel now s q ->
  let '(v, s') := getWithTime s call f b now in
  v = (if bool_decide (upper_trim call = "") then 0 else spec_get (q_ttl s) q (upper_trim call) (freqBinHz f b) now) /\
  store_rel now s' q /\ (perShardMax s' = perShardMax s /\ q_ttl s' = q_ttl s /\ pinPriors s' = pinPriors s).
Proof.
  intros Hrel. unfold getWithTime. cbv zeta. case_bool_decide; [done|]. unfold spec_get.
  pose proof (scoreFor_refines now s q (upper_trim call, freqBinHz f b) Hrel) as H1.
  destruct (scoreFor s _ now) as [[v p] s1]. destruct H1 as (Hv & Hrel1 & Hpm & Htt & Hpp).
  destruct p; [by rewrite Hv|]. destruct Hv as [-> ->]. destruct (freqBinHz f b =? -1) eqn:Eb; cbn [negb]; [done|].
  pose proof (scoreFor_refines now s1 q (upper_trim call, -1) Hrel1) as H2.
  destruct (scoreFor s1 _ now) as [[v2 p2] s2]. destruct H2 as (Hv2 & Hrel2 & Hpm2 & Htt2 & Hpp2).
  rewrite Htt in Hv2. destruct p2; [rewrite Hv2; cbn|destruct Hv2 as [-> ->]; cbn].
  - destruct (Z.eqb_spec v2 0) as [->|]; cbn [negb]; split_and!; congruence || done.
  - split_and!; congruence || done.
Qed.

Lemma lookup_after_add (ttl now : Z) (d : gmap callFreqKey qualityEntry) (key : callFreqKey) (delta : Z) (k : callFreqKey) :
  let d1 := match d !! key with
            | Some entry => if (0 <? ttl) && stale ttl now entry then delete key d else d
            | None => d
            end in
  let d2 := match d1 !! key with
            | None => <[key := mkQualityEntry delta now]> d1
            | Some entry => <[key := mkQualityEntry (score entry + delta) now]> d1
            end in
  0 < ttl ->
  d2 !! k = if decide (k = key) then Some (mkQualityEntry (from_option score 0 (live ttl now (d !! key)) + delta) now)
            else d !! k.
Proof.
  cbv zeta. intros Ht. rewrite (proj2 (Z.ltb_lt _ _)) by done. cbn [andb].
  destruct (d !! key) as [e|] eqn:E; cbn [live]; [destruct (stale ttl now e)|];
    rewrite ?lookup_delete_eq, ?E; destruct (decide (k = key)) as [->|Hne];
    rewrite ?lookup_insert_eq, ?lookup_insert_ne, ?lookup_delete_ne by done; done.
Qed.

(** ** Reading does not change what is read *)

(** What a read at time [now] sees of a key. *)
Definition view (now : Z) (s : CallQualityStore) (key : callFreqKey) : option (option Z * option qualityEntry) :=
  sh ← q_shards s !! quality_shardFor s key;
  Some (pinned sh !! key, if 0 <? q_ttl s then live (q_ttl s) now (dynamic sh !! key) else dynamic sh !! key).

Lemma scoreFor_view now s key :
  (scoreFor s key now).1 =
  match view now s key with
  | None => (0, false)
  | Some (p, d) => (default 0 p + from_option score 0 d, bool_decide (is_Some p \/ is_Some d))
  end.
Proof.
  unfold scoreFor, view. destruct (q_shards s !! _) as [sh|]; [|done]. cbn [mbind option_bind]. unfold scoreFor_locked, live.
  destruct (pinned sh !! key) as [v|], (dynamic sh !! key) as [e|]; destruct (0 <? q_ttl s); cbn [andb];
    try destruct (stale (q_ttl s) now e); cbn; rewrite ?Z.add_0_r; f_equal; symmetry;
    (apply bool_decide_eq_true_2; eauto) || (apply bool_decide_eq_false_2; intros [[]|[]]; done).
Qed.

Lemma scoreFor_keeps_view now s key k : view now (scoreFor s key now).2 k = view now s k.
Proof.
  unfold scoreFor. destruct (q_shards s !! quality_shardFor s key) as [sh|] eqn:E; [|done].
  destruct (scoreFor_locked (q_ttl s) now key sh) as [[v p] sh'] eqn:El. cbn [snd]. unfold view, quality_shardFor in *.
  cbn [q_shards q_ttl with_shards]. rewrite length_insert.
  assert (pinned sh' = pinned sh /\ (dynamic sh' = dynamic sh \/
    (0 <? q_ttl s) = true /\ live (q_ttl s) now (dynamic sh !! key) = None /\ dynamic sh' = delete key (dynamic sh))) as [Hp Hd].
  { unfold scoreFor_locked in El. destruct (pinned sh !! key), (dynamic sh !! key) as [e|]; destruct (0 <? q_ttl s) eqn:Et;
      cbn [andb] in El; try destruct (stale (q_ttl s) now e) eqn:Es; injection El as <- <- <-; split; try done; try (by left).
    all: right; split_and!; [done| |done]; cbn; by rewrite Es. }
  destruct (decide (shard_index (length (q_shards s)) k = shard_index (length (q_shards s)) key)) as [Hi|Hi].
  - rewrite Hi, list_lookup_insert_eq by (by apply lookup_lt_Some in E). rewrite E. cbn. rewrite Hp.
    destruct Hd as [->|(Ht & Hl & ->)]; [done|]. rewrite Ht. destruct (decide (k = key)) as [->|Hk].
    + rewrite lookup_delete_eq, Hl. done.
    + by rewrite lookup_delete_ne.
  - by rewrite list_lookup_insert_ne.
Qed.

Lemma getWithTime_view now s call f b :
  (forall k, view now (getWithTime s call f b now).2 k = view now s k) /\
  forall s', (forall k, view now s' k = view now s k) -> (getWithTime s' call f b now).1 = (getWithTime s call f b now).1.
Proof.
  unfold getWithTime. cbv zeta. case_bool_decide; [done|]. set (k1 := (upper_trim call, freqBinHz f b)). set (k2 := (upper_trim call, -1)).
  split.
  - intros k. pose proof (scoreFor_keeps_view now s k1) as H1. destruct (scoreFor s k1 now) as [[v p] s1]. cbn [snd] in H1.
    destruct p; [apply H1|]. destruct (negb _); [|apply H1]. pose proof (scoreFor_keeps_view now s1 k2) as H2.
    destruct (scoreFor s1 k2 now) as [[v2 p2] s2]. cbn [snd] in H2. destruct (negb _); cbn [snd]; by rewrite H2, H1.
  - intros s' Hs'. pose proof (scoreFor_keeps_view now s k1) as H1. pose proof (scoreFor_keeps_view now s' k1) as H1'.
    pose proof (scoreFor_view now s k1) as Hv. pose proof (scoreFor_view now s' k1) as Hv'. rewrite Hs', <- Hv in Hv'.
    destruct (scoreFor s k1 now) as [[v p] s1], (scoreFor s' k1 now) as [[v' p'] s1']. cbn [fst snd] in *. simplify_eq.
    destruct p; [done|]. destruct (negb _); [|done].
    pose proof (scoreFor_view now s1 k2) as Hw. pose proof (scoreFor_view now s1' k2) as Hw'.
    rewrite H1', Hs', <- H1, <- Hw in Hw'. destruct (scoreFor s1 k2 now) as [[w pw] s2], (scoreFor s1' k2 now) as [[w' pw'] s2'].
    cbn [fst snd] in *. simplify_eq. by destruct (negb _).
Qed.

Section Facts.
Variable by_age : gmap callFreqKey qualityEntry -> list callFreqKey.

(** With room in the table the shard only takes the new score. *)
Lemma add_locked_refines n s q now i sh key delta :
  0 < q_ttl s -> shard_rel n (q_ttl s) now i sh q -> shard_index n key = i ->
  Z.of_nat (size (sp_dynamic (spec_add (q_ttl s) q key delta now))) <= perShardMax s ->
  shard_rel n (q_ttl s) now i (add_locked by_age s key delta now sh) (spec_add (q_ttl s) q key delta now).
Proof.
  intros Ht Hr Hi Hsz. unfold add_locked. set (d1 := match dynamic sh !! key with Some _ => _ | None => _ end).
  set (d2 := match d1 !! key with Some _ => _ | None => _ end). cbv zeta.
  assert (shard_rel n (q_ttl s) now i (with_dynamic d2 sh) (spec_add (q_ttl s) q key delta now)) as Hr'.
  { intros k. specialize (Hr k). cbn [pinned dynamic with_dynamic spec_add sp_pinned sp_dynamic].
    pose proof (lookup_after_add (q_ttl s) now (dynamic sh) key delta k Ht) as Hl. cbv zeta in Hl. fold d1 in Hl. fold d2 in Hl.
    rewrite Hl. destruct (decide (k = key)) as [->|Hne].
    - rewrite lookup_insert_eq. destruct (decide _); [|done]. destruct Hr as [Hp Hd]. split; [done|].
      rewrite (dyn_rel_live _ _ _ _ Hd). done.
    - by rewrite lookup_insert_ne. }
  pose proof (shard_rel_size _ _ _ _ _ _ Hr') as Hs. cbn [dynamic with_dynamic] in *.
  rewrite (proj2 (Z.ltb_ge (perShardMax s) _)) by lia. rewrite andb_false_r. done.
Qed.

Lemma spec_add_other ttl q key delta now k :
  k <> key -> sp_pinned (spec_add ttl q key delta now) !! k = sp_pinned q !! k /\
              sp_dynamic (spec_add ttl q key delta now) !! k = sp_dynamic q !! k.
Proof. intros. cbn. by rewrite lookup_insert_ne. Qed.

Lemma add_refines now s q key delta :
  store_rel now s q -> Z.of_nat (size (sp_dynamic (spec_add (q_ttl s) q key delta now))) <= perShardMax s ->
  store_rel now (update_shard s key (add_locked by_age s key delta now)) (spec_add (q_ttl s) q key delta now).
Proof.
  intros Hrel Hsz. apply (update_rel now s q); [done|intros; by apply spec_add_other|].
  intros sh _ Hr. apply add_locked_refines; try done. apply Hrel.
Qed.

Lemma pin_refines now s q key v :
  store_rel now s q ->
  store_rel now (update_shard s key (fun sh => mkQualityShard (<[key := default 0 (pinned sh !! key) + v]> (pinned sh)) (dynamic sh)))
    (spec_pin q key v).
Proof.
  intros Hrel. apply (update_rel now s q); [done|intros k Hk; cbn; by rewrite lookup_insert_ne|].
  intros sh _ Hr k. pose proof (Hr key) as Hkey. specialize (Hr k). cbn [pinned dynamic spec_pin sp_pinned sp_dynamic].
  destruct (decide _) as [_|Hne] in Hkey; [|by destruct Hne]. destruct Hkey as [Hp _].
  destruct (decide (k = key)) as [->|Hne].
  - rewrite !lookup_insert_eq, Hp. destruct (decide _) as [_|Hne]; [|by destruct Hne]. split; [done|apply Hr].
  - by rewrite !lookup_insert_ne.
Qed.

Lemma cleanup_refines now s q : store_rel now s q -> store_rel now (quality_cleanup s now) q.
Proof.
  intros [H1 H2 H3]. unfold quality_cleanup. rewrite (proj2 (Z.leb_gt _ _)) by done.
  split; cbn; [by rewrite length_map|done|]. rewrite length_map. intros i sh Hi. rewrite list_lookup_fmap in Hi.
  destruct (q_shards s !! i) as [sh0|] eqn:E; [|done]. injection Hi as <-. intros k. specialize (H3 i sh0 E k).
  unfold pruneExpiredLocked. rewrite (proj2 (Z.leb_gt _ _)) by done. cbn [pinned dynamic with_dynamic].
  destruct (decide _); [|by destruct H3 as [-> Hd]; rewrite map_lookup_filter, Hd].
  destruct H3 as [-> Hd]. split; [done|]. rewrite map_lookup_filter. destruct (dynamic sh0 !! k) as [en|]; [|done].
  cbn in *. destruct (stale (q_ttl s) now en) eqn:Es.
  - rewrite option_guard_False by (cbn; congruence). intros e' He'. rewrite Hd in He'. by injection He' as <-.
  - by rewrite option_guard_True by done.
Qed.

(** The table only grows. *)
Lemma spec_step_grows ttl pin q o : (size (sp_dynamic q) <= size (sp_dynamic (spec_step ttl pin q o).2))%nat.
Proof.
  assert (forall key d now, (size (sp_dynamic q) <= size (sp_dynamic (spec_add ttl q key d now)))%nat) as Hadd.
  { intros key d now. cbn. rewrite map_size_insert. destruct (_ !! _); cbn; lia. }
  destruct o; cbn [spec_step snd]; repeat case_match; done || apply Hadd.
Qed.

Lemma spec_run_grows ttl pin q ops : (size (sp_dynamic q) <= size (sp_dynamic (spec_run ttl pin q ops).2))%nat.
Proof.
  revert q. induction ops as [|o ops IH]; intros q; cbn [spec_run]; [done|].
  pose proof (spec_step_grows ttl pin q o). destruct (spec_step ttl pin q o) as [v q1]. specialize (IH q1).
  destruct (spec_run ttl pin q1 ops) as [vs q2]. cbn in *. lia.
Qed.

Definition same_limits (s s' : CallQualityStore) : Prop :=
  perShardMax s' = perShardMax s /\ q_ttl s' = q_ttl s /\ pinPriors s' = pinPriors s.

Lemma q_step_refines now s q o :
  store_rel now s q -> now <= qop_time o ->
  Z.of_nat (size (sp_dynamic (spec_step (q_ttl s) (pinPriors s) q o).2)) <= perShardMax s ->
  (q_step by_age s o).1 = (spec_step (q_ttl s) (pinPriors s) q o).1 /\
  store_rel (qop_time o) (q_step by_age s o).2 (spec_step (q_ttl s) (pinPriors s) q o).2 /\
  same_limits s (q_step by_age s o).2.
Proof.
  intros Hrel Hnow Hsz. apply (store_rel_mono now (qop_time o)) in Hrel; [|done]. clear Hnow.
  destruct o as [call f b d nw|call f b v nw|call f b nw|nw]; cbn [q_step spec_step qop_time fst snd] in *.
  - split; [done|]. unfold addWithTime. cbv zeta. destruct (_ || _); [done|]. split; [by apply add_refines|done].
  - split; [done|]. unfold AddPinned. cbv zeta. destruct (pinPriors s); cbn [negb].
    + destruct (_ || _); [done|]. split; [by apply pin_refines|done].
    + unfold addWithTime. cbv zeta. destruct (_ || _); [done|]. split; [by apply add_refines|done].
  - pose proof (getWithTime_refines nw s q call f b Hrel) as H. destruct (getWithTime s call f b nw) as [v s'].
    destruct H as (-> & ? & ?). done.
  - split; [done|]. split; [by apply cleanup_refines|]. unfold quality_cleanup. by destruct (_ <=? 0).
Qed.

Lemma q_run_refines now s q ops :
  store_rel now s q -> Sorted Z.le (now :: map qop_time ops) ->
  Z.of_nat (size (sp_dynamic (spec_run (q_ttl s) (pinPriors s) q ops).2)) <= perShardMax s ->
  (q_run by_age s ops).1 = (spec_run (q_ttl s) (pinPriors s) q ops).1.
Proof.
  revert now s q. induction ops as [|o ops IH]; intros now s q Hrel Hs Hsz; [done|].
  cbn [q_run spec_run map] in *. inversion Hs as [|? ? Hs' Hle]. subst. inversion Hle. subst.
  pose proof (q_step_refines now s q o Hrel ltac:(done)) as Hstep.
  pose proof (spec_run_grows (q_ttl s) (pinPriors s) (spec_step (q_ttl s) (pinPriors s) q o).2 ops) as Hg.
  destruct (spec_step (q_ttl s) (pinPriors s) q o) as [v q1]. cbn [snd] in *.
  destruct (spec_run (q_ttl s) (pinPriors s) q1 ops) as [vs q2] eqn:E2. cbn [fst snd] in *.
  destruct Hstep as (Hv & Hrel1 & Hpm & Htt & Hpp); [lia|].
  destruct (q_step by_age s o) as [v' s1]. cbn [fst snd] in *. subst v'.
  specialize (IH (qop_time o) s1 q1 Hrel1 Hs'). rewrite Htt, Hpp, E2, Hpm in IH. cbn in IH. specialize (IH Hsz).
  destruct (q_run by_age s1 ops) as [vs' s2]. cbn in *. by rewrite IH.
Qed.

Lemma New_rel now o : store_rel now (NewCallQualityStoreWithOptions o) (mkQualitySpec ∅ ∅).
Proof.
  unfold NewCallQualityStoreWithOptions. cbv zeta. split; cbn [q_shards q_ttl].
  - rewrite length_replicate. pose proof (positive_else_pos (o_Shards o) defaultQualityShards ltac:(done)). lia.
  - by apply positive_else_pos.
  - intros i sh Hi k. apply lookup_replicate in Hi as [-> _]. cbn. rewrite !lookup_empty. by destruct (decide _).
Qed.


(** ** The store is bounded *)

Hypothesis by_age_perm : forall d, by_age d ≡ₚ (map_to_list d).*1.

Lemma foldr_delete_size (l : list callFreqKey) (d : gmap callFreqKey qualityEntry) :
  NoDup l -> Forall (fun k => is_Some (d !! k)) l -> (size (foldr delete d l) + length l = size d)%nat.
Proof.
  induction l as [|k l IH]; intros Hnd Hin; cbn [foldr length]; [lia|].
  apply NoDup_cons in Hnd as [Hk Hnd]. apply Forall_cons in Hin as [[e He] Hin].
  rewrite map_size_delete, lookup_foldr_delete_not_elem_of, He by done. specialize (IH Hnd Hin).
  assert (size (foldr delete d l) <> 0)%nat; [|lia].
  intros Hz%map_size_empty_inv. rewrite <- (lookup_foldr_delete_not_elem_of d l k) in He by done.
  by rewrite Hz, lookup_empty in He.
Qed.

Lemma evict_count m sh :
  0 < m -> m < Z.of_nat (size (dynamic sh)) ->
  Z.of_nat (size (dynamic (evictOldestLocked by_age m sh))) = evict_keep m.
Proof.
  intros Hm Hs. assert (0 < evict_keep m <= m) as Hk.
  { unfold evict_keep. pose proof (Z.quot_pos m 10). pose proof (Z.quot_lt m 10).
    repeat case_match; boolify; lia. }
  unfold evictOldestLocked. rewrite (proj2 (Z.leb_gt m 0)) by lia. cbv zeta.
  rewrite (proj2 (Z.leb_gt _ 0)) by lia.
  pose proof (by_age_perm (dynamic sh)) as Hp. set (items := by_age (dynamic sh)) in *.
  assert (length items = size (dynamic sh)) as Hl.
  { rewrite Hp, length_fmap. apply length_map_to_list. }
  rewrite bool_decide_eq_false_2 by lia. rewrite (proj2 (Z.ltb_ge _ _)) by lia. cbn [dynamic with_dynamic].
  set (r := Z.to_nat _).
  assert (NoDup items) as Hnd by (rewrite Hp; apply NoDup_fst_map_to_list).
  pose proof (foldr_delete_size (take r items) (dynamic sh)) as Hf. rewrite length_take in Hf.
  assert (size (foldr delete (dynamic sh) (take r items)) + r `min` length items = size (dynamic sh))%nat as He.
  { apply Hf; [rewrite <- (take_drop r items) in Hnd; by apply NoDup_app in Hnd as [? _]|]. apply Forall_take, Forall_forall. intros k Hin.
    rewrite Hp in Hin. apply list_elem_of_fmap in Hin as ([k' e] & -> & Hin). exists e. by apply elem_of_map_to_list. }
  lia.
Qed.

Definition shards_bounded (s : CallQualityStore) : Prop :=
  0 < perShardMax s /\ Forall (fun sh => Z.of_nat (size (dynamic sh)) <= perShardMax s) (q_shards s).

Lemma add_locked_bounded s key delta now sh :
  0 < perShardMax s -> Z.of_nat (size (dynamic sh)) <= perShardMax s ->
  Z.of_nat (size (dynamic (add_locked by_age s key delta now sh))) <= perShardMax s.
Proof.
  intros Hm Hs. unfold add_locked. set (d1 := match dynamic sh !! key with Some _ => _ | None => _ end).
  set (d2 := match d1 !! key with Some _ => _ | None => _ end). cbv zeta.
  rewrite (proj2 (Z.ltb_lt 0 _)) by done. cbn [andb dynamic with_dynamic].
  destruct (Z.ltb_spec (perShardMax s) (Z.of_nat (size d2))); [|cbn; lia].
  set (sh1 := if 0 <? q_ttl s then _ else _).
  destruct (Z.ltb_spec (perShardMax s) (Z.of_nat (size (dynamic sh1)))); [|lia].
  rewrite evict_count by done. unfold evict_keep. pose proof (Z.quot_pos (perShardMax s) 10).
  repeat case_match; boolify; lia.
Qed.

Lemma q_step_bounded s o : shards_bounded s -> shards_bounded (q_step by_age s o).2 /\ length (q_shards (q_step by_age s o).2) = length (q_shards s).
Proof.
  intros [Hm Hf].
  assert (forall key f, (forall sh, Z.of_nat (size (dynamic sh)) <= perShardMax s -> Z.of_nat (size (dynamic (f sh))) <= perShardMax s) ->
    shards_bounded (update_shard s key f) /\ length (q_shards (update_shard s key f)) = length (q_shards s)) as Hup.
  { intros key f Hff. split; [split; [done|]|cbn; apply length_alter]. cbn. apply Forall_alter; [done|]. intros sh _ Hsh. by apply Hff. }
  assert (forall s' key now, shards_bounded s' -> shards_bounded (scoreFor s' key now).2 /\
    length (q_shards (scoreFor s' key now).2) = length (q_shards s')) as Hsc.
  { intros s' key now [Hm' Hf']. unfold scoreFor. destruct (q_shards s' !! _) as [sh|] eqn:E; [|done].
    assert (size (dynamic (scoreFor_locked (q_ttl s') now key sh).2) <= size (dynamic sh))%nat as Hle.
    { unfold scoreFor_locked. destruct (pinned sh !! key), (dynamic sh !! key); cbn; repeat case_match; cbn; try done;
        apply map_subseteq_size, delete_subseteq. }
    destruct (scoreFor_locked _ now key sh) as [[v p] sh']. cbn in *. rewrite length_insert. split; [|done]. split; [done|].
    cbn. apply Forall_insert; [done|]. cbn. pose proof (proj1 (Forall_forall _ _) Hf' sh). cbn in *.
    specialize (H ltac:(by eapply list_elem_of_lookup_2)). lia. }
  assert (forall call f b d now, shards_bounded (addWithTime by_age s call f b d now) /\
    length (q_shards (addWithTime by_age s call f b d now)) = length (q_shards s)) as Hadd.
  { intros. unfold addWithTime. cbv zeta. destruct (_ || _); [done|]. apply Hup. intros. by apply add_locked_bounded. }
  destruct o as [call f b d now|call f b v now|call f b now|now]; cbn [q_step snd]; [apply Hadd| | |].
  - unfold AddPinned. cbv zeta. destruct (negb _); [apply Hadd|]. destruct (_ || _); [done|]. by apply Hup.
  - unfold getWithTime. cbv zeta. case_bool_decide; [done|].
    pose proof (Hsc s (upper_trim call, freqBinHz f b) now ltac:(done)) as [H1 L1].
    destruct (scoreFor s _ now) as [[v p] s1]. cbn in *. destruct p; [done|]. destruct (negb _); [|done].
    pose proof (Hsc s1 (upper_trim call, -1) now H1) as [H2 L2]. destruct (scoreFor s1 _ now) as [[v2 p2] s2].
    cbn in *. rewrite L1 in L2. by destruct (negb _).
  - unfold quality_cleanup. destruct (_ <=? 0); [done|]. cbn. rewrite length_map. split; [|done]. split; [done|]. cbn.
    apply Forall_fmap. eapply Forall_impl; [exact Hf|]. cbn. intros sh Hsh. unfold pruneExpiredLocked.
    destruct (_ <=? 0); [done|]. cbn. pose proof (map_size_filter (fun p => stale (q_ttl s) now p.2 = false) (dynamic sh)). lia.
Qed.

Lemma Counts_dynamic s m : Forall (fun sh => Z.of_nat (size (dynamic sh)) <= m) (q_shards s) ->
  Dynamic (Counts s) <= Z.of_nat (length (q_shards s)) * m.
Proof.
  unfold Counts. intros H.
  assert (forall c, Dynamic (fold_left (fun c sh => mkQualityCounts (Pinned c + Z.of_nat (size (pinned sh)))
    (Dynamic c + Z.of_nat (size (dynamic sh)))) (q_shards s) c) <= Dynamic c + Z.of_nat (length (q_shards s)) * m) as Hg.
  { induction H as [|sh l Hsh Hl IH]; intros c; cbn [fold_left length]; [lia|]. etransitivity; [apply IH|]. cbn [Dynamic]. lia. }
  specialize (Hg (mkQualityCounts 0 0)). cbn [Dynamic] in Hg. lia.
Qed.

(** The store is bounded.  After any sequence of operations no shard holds more
    dynamic entries than its share of the capacity, and the whole store exceeds the
    configured capacity by less than one entry per shard, whichever of the oldest
    entries each eviction removed. *)
Theorem quality_bounded o ops :
  let s := (q_run by_age (NewCallQualityStoreWithOptions o) ops).2 in
  Forall (fun sh => Z.of_nat (size (dynamic sh)) <= perShardMax (NewCallQualityStoreWithOptions o)) (q_shards s) /\
  Dynamic (Counts s) < positive_else (o_MaxEntries o) defaultQualityMaxEntries + positive_else (o_Shards o) defaultQualityShards.
Proof.
  set (s0 := NewCallQualityStoreWithOptions o). set (n := positive_else (o_Shards o) defaultQualityShards).
  set (mx := positive_else (o_MaxEntries o) defaultQualityMaxEntries).
  assert (0 < n) as Hn by (by apply positive_else_pos). assert (0 < mx) as Hmx by (by apply positive_else_pos).
  assert (0 < perShardMax s0 /\ n * perShardMax s0 < mx + n) as [Hp Hpn].
  { unfold s0, NewCallQualityStoreWithOptions. cbv zeta. cbn [perShardMax]. fold n. fold mx.
    pose proof (Z.quot_rem mx n ltac:(lia)) as Hq. pose proof (Z.rem_bound_pos mx n ltac:(lia) ltac:(lia)) as Hr.
    pose proof (Z.quot_pos mx n ltac:(lia) ltac:(lia)) as Hqp.
    destruct (Z.eqb_spec (Z.rem mx n) 0) as [E|E]; cbn [negb]; case_match; boolify; nia. }
  assert (shards_bounded s0 /\ length (q_shards s0) = Z.to_nat n) as [Hb Hl].
  { split; [split; [done|]|by apply length_replicate].
    change (q_shards s0) with (replicate (Z.to_nat n) (mkQualityShard ∅ ∅)). apply Forall_replicate. cbn [dynamic]. rewrite map_size_empty. lia. }
  assert (forall s, shards_bounded s -> perShardMax s = perShardMax s0 -> length (q_shards s) = Z.to_nat n ->
    let s' := (q_run by_age s ops).2 in shards_bounded s' /\ perShardMax s' = perShardMax s0 /\ length (q_shards s') = Z.to_nat n) as Hrun.
  { induction ops as [|op ops IH]; intros s Hs Hsp Hsl; cbn [q_run]; [done|].
    destruct (q_step_bounded s op Hs) as [H1 H2].
    assert (perShardMax (q_step by_age s op).2 = perShardMax s) as H3.
    { clear. destruct op as [call f b d now|call f b v now|call f b now|now]; cbn [q_step snd];
        unfold addWithTime, AddPinned, addWithTime, getWithTime, quality_cleanup, update_shard, scoreFor; cbv zeta;
        repeat (case_match; simplify_eq/=; try done). }
    destruct (q_step by_age s op) as [v s1]. cbn [fst snd] in *.
    specialize (IH s1 H1 ltac:(congruence) ltac:(congruence)). by destruct (q_run by_age s1 ops). }
  destruct (Hrun s0 Hb eq_refl Hl) as ([_ Hs] & Hsp & Hsl). cbv zeta. rewrite Hsp in Hs. split; [done|].
  pose proof (Counts_dynamic _ _ Hs) as Hc. rewrite Hsl in Hc. lia.
Qed.
End Facts.

(** ** Witnesses *)

Definition some_order (d : gmap callFreqKey qualityEntry) : list callFreqKey := (map_to_list d).*1.
Definition demo_options : CallQualityOptions := mkQualityOptions 2 0 4 0 None.
Definition demo_ops : list qop :=
  [QPin "W1AW" 0 1000 3 1; QAdd "K1ABC" 7010000 1000 1 2; QAdd "k1abc" 7010400 1000 1 3; QGet "K1ABC" 7010000 1000 4;
   QGet "W1AW" 14025000 1000 5; QClean (25 * hour); QGet "K1ABC" 7010000 1000 (25 * hour)].


Lemma quality_bounded_witness :
  Dynamic (Counts (q_run some_order (NewCallQualityStoreWithOptions demo_options) demo_ops).2) < 6.
Proof. apply (quality_bounded some_order (fun _ => Permutation_refl _) demo_options demo_ops). Defined.

(** A reward can lower a score: the dynamic entry it creates in the bin hides the
    global prior of the call. *)
Example reward_hides_prior :
  (q_run some_order (NewCallQualityStoreWithOptions demo_options)
     [QPin "W1AW" 0 1000 5 1; QGet "W1AW" 14025000 1000 2; QAdd "W1AW" 14025000 1000 1 3; QGet "W1AW" 14025000 1000 4]).1
  = [0; 5; 0; 1].
Proof. vm_compute. reflexivity. Qed.
