(* ===== verification/BandMap.v ===== *)
(** * BandMap: recent spots by mode and frequency

    Models [bandmap/grid.go], the index call correction asks for the spots around a
    frequency.  Each mode has 64 shards of maps from 100 Hz bins to the spots kept
    there, at most 50 per bin.  Every method holds the lock of one shard at a time;
    the model runs a method as one step.  A nil bin map reads as an empty one.  The
    loop of [Get] leaves at the largest uint32, which no bin reaches
    ([bin_below_max]). *)

From S2P Require Import Prelude GoText GoNum.
From stdpp Require Import list_numbers.
Local Open Scope string_scope.
Local Open Scope list_scope.
Local Open Scope Z_scope.

Definition ShardCount : Z := 64.
Definition MaxBinCapacity : Z := 50.
Definition MaxUint32 : Z := 2 ^ 32 - 1.

Record SpotEntry := mkSpotEntry {
  e_Call : string;
  e_Spotter : string;
  e_Mode : string;
  e_FreqHz : Z;
  e_Time : Z;
  e_SNR : Z
}.

(** The structs only hold their map or array next to a lock. *)
Notation Shard := (gmap Z (list SpotEntry)).
Notation ShardedGrid := (list Shard).
Notation BandMap := (gmap string ShardedGrid).

Definition New : BandMap := ∅.

Definition newGrid : ShardedGrid := replicate (Z.to_nat ShardCount) ∅.

Definition getOrCreateGrid (bm : BandMap) (mode : string) : ShardedGrid * BandMap :=
  match bm !! mode with
  | Some g => (g, bm)
  | None => (newGrid, <[mode := newGrid]> bm)
  end.

Definition shard_of_bin (b : Z) : nat := Z.to_nat (b mod ShardCount).

(** The append with its capacity: the oldest spot of a full bin goes. *)
Definition bin_append (l : list SpotEntry) (e : SpotEntry) : list SpotEntry :=
  let l := l ++ [e] in
  if MaxBinCapacity <? Z.of_nat (length l) then tail l else l.

Definition BandMap_Add (bm : BandMap) (mode : string) (e : SpotEntry) : BandMap :=
  let modeKey := ToUpper mode in
  let '(grid, bm) := getOrCreateGrid bm modeKey in
  let binID := e_FreqHz e / 100 in
  let add sh := <[binID := bin_append (default [] (sh !! binID)) e]> sh in
  <[modeKey := alter add (shard_of_bin binID) grid]> bm.

Definition freq_range (centerFreqHz windowHz : Z) : Z * Z :=
  (if centerFreqHz <=? windowHz then 0 else centerFreqHz - windowHz,
   if MaxUint32 - windowHz <? centerFreqHz then MaxUint32 else centerFreqHz + windowHz).

Definition bins_between (minFreq maxFreq : Z) : list Z :=
  seqZ (minFreq / 100) (maxFreq / 100 - minFreq / 100 + 1).

Definition age_cutoff (now maxAgeSeconds : Z) : Z := if 0 <? maxAgeSeconds then now - maxAgeSeconds else 0.

Definition recent_entries (cutoff : Z) (l : list SpotEntry) : list SpotEntry := filter (fun e => cutoff <= e_Time e) l.

(** [now] is the reading of the clock in seconds. *)
Definition BandMap_Get (bm : BandMap) (mode : string) (centerFreqHz windowHz maxAgeSeconds now : Z) : list SpotEntry :=
  match bm !! ToUpper mode with
  | None => []
  | Some grid =>
      let '(minFreq, maxFreq) := freq_range centerFreqHz windowHz in
      let cutoff := age_cutoff now maxAgeSeconds in
      flat_map (fun b =>
        match grid !! shard_of_bin b with
        | Some sh => match sh !! b with Some l => recent_entries cutoff l | None => [] end
        | None => []
        end) (bins_between minFreq maxFreq)
  end.

Definition prune_shard (cutoff : Z) (sh : Shard) : Shard :=
  omap (fun l => match recent_entries cutoff l with [] => None | l' => Some l' end) sh.

Definition BandMap_Prune (bm : BandMap) (maxAgeSeconds now : Z) : BandMap :=
  if maxAgeSeconds <=? 0 then bm
  else fmap (map (prune_shard (now - maxAgeSeconds))) bm.

(** ** What is kept of a history *)

Inductive bm_op :=
  | BAdd (mode : string) (e : SpotEntry)
  | BPrune (maxAgeSeconds now : Z).

Definition bm_step (bm : BandMap) (o : bm_op) : BandMap :=
  match o with
  | BAdd mode e => BandMap_Add bm mode e
  | BPrune age now => BandMap_Prune bm age now
  end.

Definition bm_run (ops : list bm_op) : BandMap := fold_left bm_step ops New.

Definition last_n (n : nat) (l : list SpotEntry) : list SpotEntry := drop (length l - n) l.

(** The spots of one mode and bin, as a list of its own: its last fifty spots. *)
Definition bin_step (modeKey : string) (b : Z) (l : list SpotEntry) (o : bm_op) : list SpotEntry :=
  match o with
  | BAdd mode e => if bool_decide (ToUpper mode = modeKey /\ e_FreqHz e / 100 = b) then last_n 50 (l ++ [e]) else l
  | BPrune age now => if age <=? 0 then l else recent_entries (now - age) l
  end.

Definition bin_run (modeKey : string) (b : Z) (ops : list bm_op) : list SpotEntry := fold_left (bin_step modeKey b) ops [].

(** The list stored for a mode and bin. *)
Definition bin_at (bm : BandMap) (modeKey : string) (b : Z) : list SpotEntry :=
  default [] (bm !! modeKey ≫= fun g => g !! shard_of_bin b ≫= fun sh => sh !! b).

Definition grids_ok (bm : BandMap) : Prop :=
  forall m g, bm !! m = Some g -> length g = Z.to_nat ShardCount.

Lemma shard_of_bin_lt b : (shard_of_bin b < Z.to_nat ShardCount)%nat.
Proof. unfold shard_of_bin, ShardCount. pose proof (Z.mod_pos_bound b 64). lia. Qed.

Lemma newGrid_lookup i : (i < Z.to_nat ShardCount)%nat -> newGrid !! i = Some ∅.
Proof. intros. by apply lookup_replicate_2. Qed.

Lemma Add_at bm mode e m b :
  grids_ok bm ->
  bin_at (BandMap_Add bm mode e) m b
  = if bool_decide (ToUpper mode = m /\ e_FreqHz e / 100 = b) then bin_append (bin_at bm m b) e else bin_at bm m b.
Proof.
  intros Hok. unfold BandMap_Add. cbv zeta.
  destruct (getOrCreateGrid bm (ToUpper mode)) as [g bm1] eqn:E. set (f := fun sh : Shard => _). unfold bin_at.
  assert (length g = Z.to_nat ShardCount /\ (forall m', m' <> ToUpper mode -> bm1 !! m' = bm !! m') /\
    forall b', default [] (g !! shard_of_bin b' ≫= fun sh => sh !! b') = bin_at bm (ToUpper mode) b') as (Hl & Hne & Hg).
  { unfold getOrCreateGrid in E. unfold bin_at. destruct (bm !! ToUpper mode) as [g0|] eqn:Eg; injection E as <- <-.
    - split_and!; [by eapply Hok|done|done].
    - split_and!; [by apply length_replicate|intros; by rewrite lookup_insert_ne|].
      intros b'. rewrite newGrid_lookup by apply shard_of_bin_lt. cbn. by rewrite lookup_empty. }
  destruct (decide (m = ToUpper mode)) as [->|Hm].
  - rewrite lookup_insert_eq. cbn [mbind option_bind].
    destruct (decide (shard_of_bin (e_FreqHz e / 100) = shard_of_bin b)) as [Hs|Hs].
    + rewrite Hs, list_lookup_alter_eq. destruct (lookup_lt_is_Some_2 g (shard_of_bin b)) as [sh Hsh]; [rewrite Hl; apply shard_of_bin_lt|].
      rewrite Hsh. cbn [fmap option_fmap option_map mbind option_bind]. unfold f.
      pose proof (Hg b) as Hb. rewrite Hsh in Hb. cbn in Hb. unfold bin_at in Hb. rewrite <- Hb.
      destruct (decide (e_FreqHz e / 100 = b)) as [<-|Hn].
      * rewrite lookup_insert_eq, bool_decide_eq_true_2 by done. done.
      * rewrite lookup_insert_ne, bool_decide_eq_false_2 by (done || tauto). done.
    + rewrite list_lookup_alter_ne, bool_decide_eq_false_2 by (done || (intros [_ <-]; done)). apply Hg.
  - rewrite lookup_insert_ne, Hne, bool_decide_eq_false_2 by (done || (intros [<- _]; done)). done.
Qed.

Lemma Add_grids bm mode e : grids_ok bm -> grids_ok (BandMap_Add bm mode e).
Proof.
  intros Hok m g. unfold BandMap_Add. cbv zeta. destruct (getOrCreateGrid bm (ToUpper mode)) as [g0 bm1] eqn:E.
  unfold getOrCreateGrid in E. rewrite lookup_insert_Some. intros [[<- <-]|[Hne Hm]].
  - rewrite length_alter. destruct (bm !! ToUpper mode) eqn:Eg; injection E as <- <-; [by eapply Hok|apply length_replicate].
  - destruct (bm !! ToUpper mode) eqn:Eg; injection E as <- <-; [by eapply Hok|].
    rewrite lookup_insert_ne in Hm by done. by eapply Hok.
Qed.

Lemma Prune_at bm age now m b :
  bin_at (BandMap_Prune bm age now) m b
  = if age <=? 0 then bin_at bm m b else recent_entries (now - age) (bin_at bm m b).
Proof.
  unfold BandMap_Prune. destruct (age <=? 0); [done|]. unfold bin_at. rewrite lookup_fmap.
  destruct (bm !! m) as [g|]; [|done]. cbn. change (map ?f g) with (f <$> g). rewrite list_lookup_fmap.
  destruct (g !! shard_of_bin b) as [sh|]; [|done]. cbn. unfold prune_shard. rewrite lookup_omap.
  destruct (sh !! b) as [l|]; [|done]. cbn [mbind option_bind default from_option].
  change (filter _ (id l)) with (recent_entries (now - age) l). by destruct (recent_entries (now - age) l).
Qed.

Lemma Prune_grids bm age now : grids_ok bm -> grids_ok (BandMap_Prune bm age now).
Proof.
  intros Hok m g. unfold BandMap_Prune. destruct (age <=? 0); [apply Hok|]. rewrite lookup_fmap.
  destruct (bm !! m) as [g0|] eqn:E; [|done]. cbn. intros [= <-]. rewrite length_map. by eapply Hok.
Qed.

(** Only the append can exceed the limit, and by one. *)
Lemma bin_append_last e l : (length l <= 50)%nat -> bin_append l e = last_n 50 (l ++ [e]).
Proof.
  intros Hl. unfold bin_append, last_n, MaxBinCapacity. cbv zeta. rewrite length_app. cbn [length].
  destruct (Z.ltb_spec 50 (Z.of_nat (length l + 1))).
  - replace (length l + 1 - 50)%nat with 1%nat by lia. by destruct (l ++ [e]).
  - by replace (length l + 1 - 50)%nat with 0%nat by lia.
Qed.

Lemma last_n_length n l : (length (last_n n l) <= n)%nat.
Proof. unfold last_n. rewrite length_drop. lia. Qed.

Lemma bin_step_length m b l o : (length l <= 50)%nat -> (length (bin_step m b l o) <= 50)%nat.
Proof.
  intros Hl. destruct o as [mode e|age now]; cbn [bin_step].
  - case_bool_decide; [apply last_n_length|done].
  - destruct (age <=? 0); [done|]. unfold recent_entries. etransitivity; [apply length_filter|done].
Qed.

Lemma run_at ops m b : bin_at (bm_run ops) m b = bin_run m b ops.
Proof.
  unfold bm_run, bin_run.
  assert (forall bm l, grids_ok bm -> (length l <= 50)%nat -> bin_at bm m b = l ->
    bin_at (fold_left bm_step ops bm) m b = fold_left (bin_step m b) ops l) as H.
  { induction ops as [|o ops IH]; intros bm l Hok H50 Hl; [done|]. cbn [fold_left]. apply IH.
    - destruct o; cbn; [by apply Add_grids|by apply Prune_grids].
    - by apply bin_step_length.
    - destruct o; cbn; [rewrite Add_at by done; subst l|rewrite Prune_at; by rewrite Hl].
      by rewrite <- bin_append_last. }
  apply H; [|cbn; lia|done]. intros m' g Hg. unfold New in Hg. by rewrite lookup_empty in Hg.
Qed.

Lemma Get_bins bm mode center w age now :
  BandMap_Get bm mode center w age now
  = flat_map (fun b => recent_entries (age_cutoff now age) (bin_at bm (ToUpper mode) b))
      (bins_between (freq_range center w).1 (freq_range center w).2).
Proof.
  unfold BandMap_Get, bin_at. destruct (bm !! ToUpper mode) as [g|]; cbn [mbind option_bind].
  - destruct (freq_range center w) as [lo hi]. cbn [fst snd]. apply flat_map_ext. intros b.
    destruct (g !! shard_of_bin b) as [sh|]; [|done]. cbn. by destruct (sh !! b).
  - induction (bins_between _ _) as [|b l IH]; [done|]. cbn [flat_map]. exact IH.
Qed.

Lemma bin_below_max center w b :
  0 <= center <= MaxUint32 -> 0 <= w <= MaxUint32 ->
  b ∈ bins_between (freq_range center w).1 (freq_range center w).2 -> 0 <= b < MaxUint32.
Proof.
  intros Hc Hw. unfold bins_between. rewrite elem_of_seqZ. unfold freq_range, MaxUint32 in *. cbn [fst snd].
  intros Hb. assert (0 <= (if center <=? w then 0 else center - w)) by (destruct (Z.leb_spec center w); lia).
  assert ((if 2 ^ 32 - 1 - w <? center then 2 ^ 32 - 1 else center + w) <= 2 ^ 32 - 1) by (destruct (Z.ltb_spec (2 ^ 32 - 1 - w) center); lia).
  pose proof (Z.div_pos (if center <=? w then 0 else center - w) 100).
  pose proof (Z.div_le_mono (if 2 ^ 32 - 1 - w <? center then 2 ^ 32 - 1 else center + w) (2 ^ 32 - 1) 100).
  change ((2 ^ 32 - 1) / 100) with 42949672 in *. lia.
Qed.

(** ** Theorems *)

(** The index gives exactly the spots kept around a frequency.  After any sequence
    of insertions and prunings, [Get] returns, bin by bin and oldest first, the spots
    of the asked mode (in any case) that are recent enough, where each bin keeps its
    last fifty insertions and loses what a pruning finds too old: neither the shards
    nor the other modes and bins influence it. *)
Theorem bandmap_get_exact ops mode center w age now :
  BandMap_Get (bm_run ops) mode center w age now
  = flat_map (fun b => recent_entries (age_cutoff now age) (bin_run (ToUpper mode) b ops))
      (bins_between (freq_range center w).1 (freq_range center w).2).
Proof. rewrite Get_bins. apply flat_map_ext. intros b. by rewrite run_at. Qed.

(** The window in frequency: a spot of the window is in a scanned bin, and a scanned
    bin is less than 100 Hz outside it. *)
Lemma bins_between_spec lo hi f : 0 <= lo -> lo <= f <= hi -> f / 100 ∈ bins_between lo hi.
Proof.
  intros H0 Hf. unfold bins_between. rewrite elem_of_seqZ. pose proof (Z.div_le_mono lo f 100).
  pose proof (Z.div_le_mono f hi 100). lia.
Qed.

Lemma bins_between_near lo hi f : f / 100 ∈ bins_between lo hi -> lo - 99 <= f <= hi + 99.
Proof.
  unfold bins_between. rewrite elem_of_seqZ. intros H.
  pose proof (Z_div_mod_eq_full f 100). pose proof (Z_div_mod_eq_full lo 100). pose proof (Z_div_mod_eq_full hi 100).
  pose proof (Z.mod_pos_bound f 100). pose proof (Z.mod_pos_bound lo 100). pose proof (Z.mod_pos_bound hi 100). lia.
Qed.

Lemma bin_run_origin m b ops e : e ∈ bin_run m b ops -> exists mode, BAdd mode e ∈ ops /\ ToUpper mode = m /\ e_FreqHz e / 100 = b.
Proof.
  unfold bin_run. assert (forall l, e ∈ fold_left (bin_step m b) ops l ->
    e ∈ l \/ exists mode, BAdd mode e ∈ ops /\ ToUpper mode = m /\ e_FreqHz e / 100 = b) as H.
  { induction ops as [|o ops IH]; intros l Hin; [by left|]. cbn [fold_left] in Hin.
    apply IH in Hin as [Hin|(mode & ? & ? & ?)]; [|right; exists mode; split_and!; [by right|done..]].
    destruct o as [mode e'|age now]; cbn [bin_step] in Hin.
    - case_bool_decide as Hd; [|by left]. unfold last_n in Hin. pose proof (sublist_drop (l ++ [e']) (length (l ++ [e']) - 50)) as Hs. eapply elem_of_submseteq in Hin as Hin'; [|by apply sublist_submseteq].
      apply elem_of_app in Hin' as [?|Hin']; [by left|]. apply list_elem_of_singleton in Hin' as ->.
      right. exists mode. split; [by left|done].
    - destruct (age <=? 0); [by left|]. unfold recent_entries in Hin. apply list_elem_of_filter in Hin as [_ ?]. by left. }
  intros Hin. apply H in Hin as [Hin|?]; [by apply elem_of_nil in Hin|done].
Qed.

(** What the window means.  A spot returned for a mode and a window was inserted
    under that mode, is recent, and lies less than 100 Hz outside the window; and a
    recent spot inside the window whose bin still keeps it is returned. *)
Theorem bandmap_window ops mode center w age now :
  0 <= center -> 0 <= w ->
  let answer := BandMap_Get (bm_run ops) mode center w age now in
  (forall e, e ∈ answer ->
     (exists mode', BAdd mode' e ∈ ops /\ ToUpper mode' = ToUpper mode) /\ age_cutoff now age <= e_Time e /\
     center - w - 99 <= e_FreqHz e <= center + w + 99) /\
  (forall e, e ∈ bin_run (ToUpper mode) (e_FreqHz e / 100) ops -> age_cutoff now age <= e_Time e ->
     0 <= e_FreqHz e <= MaxUint32 -> center - w <= e_FreqHz e <= center + w -> e ∈ answer).
Proof.
  intros Hc Hw answer. unfold answer. rewrite Get_bins. split; intros e.
  - rewrite list_elem_of_In, in_flat_map. intros (b & Hb%list_elem_of_In & He%list_elem_of_In).
    rewrite run_at in He. apply list_elem_of_filter in He as [Ht He].
    apply bin_run_origin in He as (mode' & Hin & Hm & Hf). split_and!; [by exists mode'|done|..].
    all: subst b; apply bins_between_near in Hb; unfold freq_range, MaxUint32 in Hb; cbn [fst snd] in Hb.
    all: destruct (Z.leb_spec center w), (Z.ltb_spec (2 ^ 32 - 1 - w) center); lia.
  - intros He Ht Hu Hin. apply list_elem_of_In, in_flat_map. exists (e_FreqHz e / 100).
    split; apply list_elem_of_In; [|rewrite run_at; by apply list_elem_of_filter].
    unfold freq_range, MaxUint32 in *. cbn [fst snd].
    destruct (Z.leb_spec center w), (Z.ltb_spec (2 ^ 32 - 1 - w) center); apply bins_between_spec; lia.
Qed.

Definition demo_entry : SpotEntry := mkSpotEntry "K1ABC" "N2WQ" "CW" 14025100 1000 20.

Lemma bandmap_window_witness :
  demo_entry ∈ BandMap_Get (bm_run [BAdd "cw" demo_entry]) "CW" 14025000 500 45 1010.
Proof.
  apply (bandmap_window [BAdd "cw" demo_entry] "CW" 14025000 500 45 1010).
  - vm_compute. discriminate.
  - vm_compute. discriminate.
  - by left.
  - vm_compute. discriminate.
  - vm_compute. split; discriminate.
  - vm_compute. split; discriminate.
Defined.
