(* ===== verification/Correction.v ===== *)
(** * Correction: consensus call correction

    Models the decision of [spot/correction.go] ([SuggestCallCorrection]) with the
    settings, thresholds and reporter weights it uses ([reliabilityFor] of
    [spot/reliability.go]).  It counts, around the subject's frequency, which
    reporters vouch for which call, and suggests the majority's call, or a known good
    one, when the evidence passes every threshold.  The cooldown tracker and the
    quality store are the states of [Cooldown] and [Quality]; the candidate spots come
    from [BandMap].

    Go visits its maps in an order of its own, so the listings are arguments
    ([order_calls], [order_set] and those of the two stores) and the theorems hold for
    every listing.  [clock] is the reading of [time.Now] inside one decision.  Logging
    is left out; its [Reason] is part of the result. *)

From S2P Require Import Prelude GoText GoNum Callsign GoTime Cooldown Quality BandMap CallDistance Bands Spot.
From Stdlib Require Import QArith.
Local Open Scope string_scope.
Local Open Scope list_scope.
Local Open Scope Z_scope.

Record CorrectionSettings := mkSettings {
  Strategy : string;
  FreqGuardMinSeparationKHz : Q;
  FreqGuardRunnerUpRatio : Q;
  FrequencyToleranceHz : Q;
  QualityBinHz : Z;
  QualityGoodThreshold : Z;
  QualityNewCallIncrement : Z;
  QualityBustedDecrement : Z;
  MinConsensusReports : Z;
  MinAdvantage : Z;
  MinConfidencePercent : Z;
  RecencyWindow : Z;
  MaxEditDistance : Z;
  MinSNRCW : Z;
  MinSNRRTTY : Z;
  MinSNRVoice : Z;
  DistanceModelCW : string;
  DistanceModelRTTY : string;
  Distance3ExtraReports : Z;
  Distance3ExtraAdvantage : Z;
  Distance3ExtraConfidence : Z;
  SpotterReliability : option (gmap string Q);
  MinSpotterReliability : Q;
  CooldownMinReporters : Z
}.

Definition correctionEligibleModes : list string := ["CW"; "RTTY"; "USB"; "LSB"].

Definition IsCallCorrectionCandidate (mode : string) : bool :=
  bool_decide (NormalizeUpper mode ∈ correctionEligibleModes).

Definition normalize_strategy (s : string) : string :=
  if bool_decide (lower_trim s ∈ ["center"; "classic"; "majority"]) then lower_trim s else "majority".

Definition positive_elseQ (x d : Q) : Q := if Qle_bool x 0 then d else x.

(** The float64 nearest to 0.1. *)
Definition tenth : Q := fl64 (1 # 10).

Definition normalizeCorrectionSettings (c : CorrectionSettings) : CorrectionSettings :=
  mkSettings (normalize_strategy (Strategy c))
    (positive_elseQ (FreqGuardMinSeparationKHz c) tenth)
    (positive_elseQ (FreqGuardRunnerUpRatio c) (1 # 2))
    (positive_elseQ (FrequencyToleranceHz c) 500)
    (positive_else (QualityBinHz c) 1000)
    (positive_else (QualityGoodThreshold c) 2)
    (if QualityNewCallIncrement c =? 0 then 1 else QualityNewCallIncrement c)
    (if QualityBustedDecrement c =? 0 then 1 else QualityBustedDecrement c)
    (positive_else (MinConsensusReports c) 4)
    (positive_else (MinAdvantage c) 1)
    (positive_else (MinConfidencePercent c) 70)
    (positive_else (RecencyWindow c) (45 * second))
    (positive_else (MaxEditDistance c) 2)
    (Z.max 0 (MinSNRCW c)) (Z.max 0 (MinSNRRTTY c)) (MinSNRVoice c)
    (normalizeCWDistanceModel (DistanceModelCW c))
    (normalizeRTTYDistanceModel (DistanceModelRTTY c))
    (Z.max 0 (Distance3ExtraReports c)) (Z.max 0 (Distance3ExtraAdvantage c)) (Z.max 0 (Distance3ExtraConfidence c))
    (SpotterReliability c)
    (if Qlt_b (MinSpotterReliability c) 0 then 0%Q else MinSpotterReliability c)
    (CooldownMinReporters c).

Definition minSNRThresholdForMode (mode : string) (c : CorrectionSettings) : Z :=
  let m := NormalizeUpper mode in
  if bool_decide (m = "CW") then MinSNRCW c
  else if bool_decide (m = "RTTY") then MinSNRRTTY c
  else if bool_decide (m = "USB") || bool_decide (m = "LSB") then MinSNRVoice c
  else 0.

Definition passes_snr (mode : string) (snr : Z) (c : CorrectionSettings) : bool :=
  let required := minSNRThresholdForMode mode c in
  if required <=? 0 then true else required <=? snr.

Definition passesSNRThreshold (s : Spot) (c : CorrectionSettings) : bool := passes_snr (Mode s) (Report s) c.
Definition passesSNREntry (e : SpotEntry) (c : CorrectionSettings) : bool := passes_snr (e_Mode e) (e_SNR e) c.

Definition reliabilityFor (r : option (gmap string Q)) (reporter : string) : Q :=
  match r with
  | None => 1
  | Some m =>
      let reporter := normalize_call reporter in
      if bool_decide (reporter = "") then 1%Q else default 1%Q (m !! reporter)
  end.

(** ** Evidence *)

Record callAggregate := mkAgg { a_reporters : gset string; a_lastSeen : Z; a_lastFreq : Q }.

Definition new_agg : callAggregate := mkAgg ∅ zero_time 0.

Definition ensureCallEntry (call : string) (stats : gmap string callAggregate) : gmap string callAggregate :=
  match stats !! call with Some _ => stats | None => <[call := new_agg]> stats end.

Definition addReporter (c : CorrectionSettings) (call reporter : string) (seenAt : Z) (freqKHz : Q)
    (stats : gmap string callAggregate) : gmap string callAggregate :=
  if Qlt_b (reliabilityFor (SpotterReliability c) reporter) (MinSpotterReliability c) then stats
  else
    let agg := default new_agg (stats !! call) in
    <[call := mkAgg ({[reporter]} ∪ a_reporters agg)
                    (if After seenAt (a_lastSeen agg) then seenAt else a_lastSeen agg) freqKHz]> stats.

(** [allReporters], [callStats] and [clusterSpots]. *)
Record evidence := mkEvidence {
  allReporters : gset string;
  callStats : gmap string callAggregate;
  clusterSpots : list SpotEntry
}.

Definition subject_entry (s : Spot) : SpotEntry :=
  mkSpotEntry (DXCall s) (DECall s) (Mode s) (uint32 (float_to_int (fadd (fmul (Frequency s) 1000) (1 # 2))))
              (unix_of (Time s)) (Report s).

(** The subject's own vote. *)
Definition subject_evidence (c : CorrectionSettings) (s : Spot) : evidence :=
  let subjectCall := TrimSpace (DXCall s) in
  let subjectReporter := TrimSpace (DECall s) in
  let stats := ensureCallEntry subjectCall ∅ in
  let '(all, stats) :=
    if negb (bool_decide (subjectReporter = "")) && passesSNRThreshold s c
    then ({[subjectReporter]}, addReporter c subjectCall subjectReporter (Time s) (Frequency s) stats)
    else (∅, stats) in
  let agg := default new_agg (stats !! subjectCall) in
  let stats := if IsZero (a_lastSeen agg)
               then <[subjectCall := mkAgg (a_reporters agg) (Time s) (Frequency s)]> stats else stats in
  mkEvidence all stats [subject_entry s].

Definition toleranceKHz (c : CorrectionSettings) : Q :=
  fdiv (if Qle_bool (FrequencyToleranceHz c) 0 then 500 else FrequencyToleranceHz c) 1000.

Definition entryFreqKHz (e : SpotEntry) : Q := fdiv (float_of_int (e_FreqHz e)) 1000.

(** The guards of the loop before the reporter is looked at. *)
Definition entry_eligible (c : CorrectionSettings) (s : Spot) (now : Z) (e : SpotEntry) : bool :=
  negb (bool_decide (TrimSpace (e_Call e) = "")) && negb (bool_decide (TrimSpace (e_Spotter e) = ""))
  && passesSNREntry e c
  && Qle_bool (fabs (fsub (entryFreqKHz e) (Frequency s))) (toleranceKHz c)
  && (time_sub now (Unix (e_Time e)) <=? RecencyWindow c).

Definition scan_entry (c : CorrectionSettings) (s : Spot) (now : Z) (ev : evidence) (e : SpotEntry) : evidence :=
  if negb (entry_eligible c s now e) then ev
  else
    let otherCall := TrimSpace (e_Call e) in
    let reporter := TrimSpace (e_Spotter e) in
    let counted cluster :=
      mkEvidence ({[reporter]} ∪ allReporters ev)
        (addReporter c otherCall reporter (Unix (e_Time e)) (entryFreqKHz e) (callStats ev)) cluster in
    if bool_decide (reporter = TrimSpace (DECall s)) then
      if bool_decide (otherCall = TrimSpace (DXCall s)) then counted (clusterSpots ev) else ev
    else if negb (EqualFold (e_Mode e) (Mode s)) then ev
    else counted (clusterSpots ev ++ [e]).

Definition gather (c : CorrectionSettings) (s : Spot) (others : list SpotEntry) (now : Z) : evidence :=
  fold_left (scan_entry c s now) others (subject_evidence c s).

Definition support (ev : evidence) (call : string) : Z :=
  match callStats ev !! call with Some agg => Z.of_nat (size (a_reporters agg)) | None => 0 end.

Definition total (ev : evidence) : Z := Z.of_nat (size (allReporters ev)).

(** [count * 100 / totalReporters]. *)
Definition percent (count n : Z) : Z := if 0 <? n then Z.quot (count * 100) n else 0.

(** ** The majority *)

Record leader := mkLeader {
  bestCall : string;
  bestCount : Z;
  bestConfidence : Z;
  bestTime : Z;
  bestFreq : Q;
  runnerUp : Z;
  runnerUpFreq : Q
}.

Definition no_leader : leader := mkLeader "" 0 0 zero_time 0 0 0.

Definition lead_step (ev : evidence) (b : leader) (call : string) : leader :=
  match callStats ev !! call with
  | None => b
  | Some agg =>
      let count := Z.of_nat (size (a_reporters agg)) in
      if (bestCount b <? count) || ((count =? bestCount b) && After (a_lastSeen agg) (bestTime b))
      then mkLeader call count (percent count (total ev)) (a_lastSeen agg) (a_lastFreq agg) (bestCount b) (bestFreq b)
      else b
  end.

Definition find_leader (ev : evidence) (callKeys : list string) : leader := fold_left (lead_step ev) callKeys no_leader.

(** ** The decision *)

Inductive reason :=
  | NoCall | NoReporters | NoWinner | OverEditDistance | MinReports | Advantage | LowConfidence | FreqGuard | InCooldown
  | AppliedAnchor | AppliedMajority.

#[global] Instance reason_eq_dec : EqDecision reason.
Proof. solve_decision. Defined.

Record suggestion := mkSuggestion {
  correctedCall : string;
  supporters : Z;
  correctedConfidence : Z;
  subjectConfidence : Z;
  totalReporters : Z;
  ok : bool;
  why : reason
}.

Definition rejected (w : reason) (conf n : Z) : suggestion := mkSuggestion "" 0 0 conf n false w.

(** The stores a decision reads and updates: the global quality store and the optional
    cooldown tracker. *)
Record stores := mkStores { st_quality : CallQualityStore; st_cooldown : option CallCooldown }.

Section Suggest.
(** The distance, see [CallDistance]. *)
Variable lev : string -> string -> Z.
Variables (morse baudot : weights) (mkeys bkeys : list ascii) (borrow : nat -> list Z).
(** Listings of maps and sets. *)
Variable order_calls : gmap string callAggregate -> list string.
Variable order_set : gset string -> list string.
Variable order_reporters : gmap string Z -> list (string * Z).
Variable by_age : gmap callFreqKey qualityEntry -> list callFreqKey.

Definition distance : string -> string -> string -> string -> string -> Z :=
  callDistance lev morse baudot mkeys bkeys borrow.

Definition IsGood (q : CallQualityStore) (call : string) (freqHz : Q) (c : CorrectionSettings) (clock : Z)
    : bool * CallQualityStore :=
  let '(v, q) := getWithTime q call freqHz (QualityBinHz c) clock in
  (QualityGoodThreshold c <=? v, q).

(** The loop that looks for a good call, stopping at the first. *)
Fixpoint any_good (q : CallQualityStore) (calls : list string) (freqHz : Q) (c : CorrectionSettings) (clock : Z)
    : bool * CallQualityStore :=
  match calls with
  | [] => (false, q)
  | call :: rest =>
      let '(good, q) := IsGood q call freqHz c clock in
      if good : bool then (true, q) else any_good q rest freqHz c clock
  end.

(** The loop of [findAnchorForCall]: the closest good call so far and its distance
    ([None] is [math.MaxInt]). *)
Fixpoint anchor_loop (q : CallQualityStore) (busted : string) (freqHz : Q) (mode : string) (candidates : list string)
    (c : CorrectionSettings) (clock : Z) (best : string) (bestDist : option Z) : string * CallQualityStore :=
  match candidates with
  | [] => (best, q)
  | cand :: rest =>
      let cand := TrimSpace cand in
      if bool_decide (cand = "") || bool_decide (cand = busted)
      then anchor_loop q busted freqHz mode rest c clock best bestDist
      else
        let '(good, q) := IsGood q cand freqHz c clock in
        if negb good then anchor_loop q busted freqHz mode rest c clock best bestDist
        else
          let dist := distance busted cand mode (DistanceModelCW c) (DistanceModelRTTY c) in
          if (0 <=? MaxEditDistance c) && (MaxEditDistance c <? dist)
          then anchor_loop q busted freqHz mode rest c clock best bestDist
          else if match bestDist with Some d => dist <? d | None => true end
          then anchor_loop q busted freqHz mode rest c clock cand (Some dist)
          else anchor_loop q busted freqHz mode rest c clock best bestDist
  end.

Definition findAnchorForCall (q : CallQualityStore) (bustedCall : string) (freqHz : Q) (mode : string)
    (candidates : list string) (c : CorrectionSettings) (clock : Z) : option string * CallQualityStore :=
  let busted := TrimSpace bustedCall in
  if bool_decide (busted = "") then (None, q)
  else
    let '(best, q) := anchor_loop q busted freqHz (TrimSpace mode) candidates c clock "" None in
    (if bool_decide (best = "") then None else Some best, q).

Definition updateCallQualityForCluster (q : CallQualityStore) (winnerCall : string) (freqHz : Q)
    (c : CorrectionSettings) (cluster : list SpotEntry) (clock : Z) : CallQualityStore :=
  if bool_decide (winnerCall = "") || bool_decide (length cluster = 0%nat) then q
  else
    let q := addWithTime by_age q winnerCall freqHz (QualityBinHz c) (QualityNewCallIncrement c) clock in
    let distinct : gset string := list_to_set (filter (fun x => x <> "") (map (fun e => TrimSpace (e_Call e)) cluster)) in
    fold_left (fun q call =>
      if bool_decide (call = NormalizeUpper winnerCall) then q
      else addWithTime by_age q call freqHz (QualityBinHz c) (- QualityBustedDecrement c) clock)
      (order_set distinct) q.

(** [subjectCall] first, then the other calls. *)
Definition all_calls (subjectCall : string) (callKeys : list string) : list string :=
  subjectCall :: filter (fun x => x <> subjectCall) callKeys.

(** The thresholds for a winner at the given distance. *)
Definition min_reports (c : CorrectionSettings) (dist : Z) : Z :=
  if 3 <=? dist then MinConsensusReports c + Distance3ExtraReports c else MinConsensusReports c.
Definition min_advantage (c : CorrectionSettings) (dist : Z) : Z :=
  if 3 <=? dist then MinAdvantage c + Distance3ExtraAdvantage c else MinAdvantage c.
Definition min_confidence (c : CorrectionSettings) (dist : Z) : Z :=
  if 3 <=? dist then MinConfidencePercent c + Distance3ExtraConfidence c else MinConfidencePercent c.

(** Two comparable signals that are some way apart. *)
Definition freq_guard (c : CorrectionSettings) (b : leader) : bool :=
  (0 <? runnerUp b) && Qle_bool (FreqGuardMinSeparationKHz c) (fabs (fsub (bestFreq b) (runnerUpFreq b)))
  && Qle_bool (fmul (FreqGuardRunnerUpRatio c) (float_of_int (bestCount b))) (float_of_int (runnerUp b)).

(** The majority path, from the choice of the winner on. *)
Definition decide_majority (c : CorrectionSettings) (s : Spot) (ev : evidence) (callKeys : list string)
    (freqHz : Q) (now clock : Z) (st : stores) : suggestion * stores :=
  let subjectCall := TrimSpace (DXCall s) in
  let subjectCount := support ev subjectCall in
  let conf := percent subjectCount (total ev) in
  let n := total ev in
  let b := find_leader ev callKeys in
  if bool_decide (bestCall b = "") || bool_decide (bestCall b = subjectCall) then (rejected NoWinner conf n, st)
  else
    let dist := distance subjectCall (bestCall b) (Mode s) (DistanceModelCW c) (DistanceModelRTTY c) in
    if (0 <=? MaxEditDistance c) && (MaxEditDistance c <? dist) then (rejected OverEditDistance conf n, st)
    else if bestCount b <? min_reports c dist then (rejected MinReports conf n, st)
    else if bestCount b <? subjectCount + min_advantage c dist then (rejected Advantage conf n, st)
    else if bestConfidence b <? min_confidence c dist then (rejected LowConfidence conf n, st)
    else if freq_guard c b then (rejected FreqGuard conf n, st)
    else
      let '(block, cd) :=
        match st_cooldown st with
        | None => (false, None)
        | Some cd =>
            let '(block, _, cd) := ShouldBlock cd subjectCall freqHz (CooldownMinReporters c) (RecencyWindow c)
                                     subjectCount conf (bestCount b) (bestConfidence b) now clock in
            (block, Some cd)
        end in
      if block : bool then (rejected InCooldown conf n, mkStores (st_quality st) cd)
      else
        (mkSuggestion (bestCall b) (bestCount b) (bestConfidence b) conf n true AppliedMajority,
         mkStores (updateCallQualityForCluster (st_quality st) (bestCall b) freqHz c (clusterSpots ev) clock) cd).

Definition SuggestCallCorrection (settings : CorrectionSettings) (s : Spot) (others : list SpotEntry)
    (now clock : Z) (st : stores) : suggestion * stores :=
  let c := normalizeCorrectionSettings settings in
  let subjectCall := TrimSpace (DXCall s) in
  if bool_decide (subjectCall = "") then (rejected NoCall 0 0, st)
  else
    let ev := gather c s others now in
    if total ev =? 0 then (rejected NoReporters 0 0, st)
    else
      let freqHz := fmul (Frequency s) 1000 in
      let subject_reporters := match callStats ev !! subjectCall with Some agg => a_reporters agg | None => ∅ end in
      let cd := (fun cd => Record_ order_reporters cd subjectCall freqHz (order_set subject_reporters)
                             (CooldownMinReporters c) (RecencyWindow c) now clock) <$> st_cooldown st in
      let callKeys := order_calls (callStats ev) in
      let conf := percent (support ev subjectCall) (total ev) in
      let allCalls := all_calls subjectCall callKeys in
      let '(hasGoodAnchor, q) := any_good (st_quality st) allCalls freqHz c clock in
      let '(anchor, q) := if hasGoodAnchor : bool then findAnchorForCall q subjectCall freqHz (Mode s) allCalls c clock
                          else (None, q) in
      match anchor with
      | Some a =>
          (mkSuggestion a (support ev a) (percent (support ev a) (total ev)) conf (total ev) true AppliedAnchor,
           mkStores (updateCallQualityForCluster q a freqHz c (clusterSpots ev) clock) cd)
      | None => decide_majority c s ev callKeys freqHz now clock (mkStores q cd)
      end.
End Suggest.

(** ** What is counted, said independently *)

(** The vote of an entry counts: eligible, and either from another reporter in the
    subject's mode or the subject's reporter repeating the subject's call. *)
Definition vote_counts (c : CorrectionSettings) (s : Spot) (now : Z) (e : SpotEntry) : bool :=
  entry_eligible c s now e &&
  (if bool_decide (TrimSpace (e_Spotter e) = TrimSpace (DECall s))
   then bool_decide (TrimSpace (e_Call e) = TrimSpace (DXCall s)) else EqualFold (e_Mode e) (Mode s)).

Definition reliable (c : CorrectionSettings) (reporter : string) : bool :=
  negb (Qlt_b (reliabilityFor (SpotterReliability c) reporter) (MinSpotterReliability c)).

Definition own_vote (c : CorrectionSettings) (s : Spot) : bool :=
  negb (bool_decide (TrimSpace (DECall s) = "")) && passesSNRThreshold s c.

(** The votes as pairs of a call and a reporter. *)
Definition votes (c : CorrectionSettings) (s : Spot) (others : list SpotEntry) (now : Z) : list (string * string) :=
  (if own_vote c s then [(TrimSpace (DXCall s), TrimSpace (DECall s))] else []) ++
  map (fun e => (TrimSpace (e_Call e), TrimSpace (e_Spotter e))) (filter (fun e => vote_counts c s now e = true) others).

(** The different reliable reporters of a call. *)
Definition backers (c : CorrectionSettings) (l : list (string * string)) (call : string) : gset string :=
  list_to_set (filter (fun p => p.1 = call /\ reliable c p.2 = true) l).*2.

Lemma backers_snoc c l call p :
  backers c (l ++ [p]) call = if bool_decide (p.1 = call /\ reliable c p.2 = true) then {[p.2]} ∪ backers c l call else backers c l call.
Proof.
  unfold backers. rewrite filter_app, fmap_app, list_to_set_app_L, filter_cons, filter_nil.
  case_bool_decide; case_decide; try done; cbn; set_solver.
Qed.

Definition reporters_of (ev : evidence) (call : string) : gset string :=
  match callStats ev !! call with Some agg => a_reporters agg | None => ∅ end.

(** The evidence records exactly the votes [l]. *)
Definition records_votes (c : CorrectionSettings) (l : list (string * string)) (ev : evidence) : Prop :=
  allReporters ev = list_to_set l.*2 /\ forall call, reporters_of ev call = backers c l call.

Lemma addReporter_backers c ev l call reporter t f cl :
  records_votes c l ev ->
  records_votes c (l ++ [(call, reporter)])
    (mkEvidence ({[reporter]} ∪ allReporters ev) (addReporter c call reporter t f (callStats ev)) cl).
Proof.
  intros [Ha Hr]. split; cbn [allReporters].
  { rewrite Ha, fmap_app, list_to_set_app_L. cbn. set_solver. }
  intros call'. rewrite backers_snoc. unfold reporters_of. cbn [callStats fst snd]. unfold addReporter, reliable.
  destruct (Qlt_b _ _); cbn [negb].
  { rewrite bool_decide_eq_false_2 by (intros [_ ?]; done). apply Hr. }
  specialize (Hr call'). unfold reporters_of in Hr. destruct (decide (call = call')) as [->|Hne].
  - rewrite lookup_insert_eq, bool_decide_eq_true_2 by done. cbn. rewrite <- Hr.
    by destruct (callStats ev !! call').
  - rewrite lookup_insert_ne, bool_decide_eq_false_2 by (done || (intros [? _]; done)). done.
Qed.

Lemma subject_votes c s :
  records_votes c (if own_vote c s then [(TrimSpace (DXCall s), TrimSpace (DECall s))] else []) (subject_evidence c s).
Proof.
  unfold subject_evidence, own_vote. cbv zeta. set (call := TrimSpace (DXCall s)). set (rep := TrimSpace (DECall s)).
  set (st0 := ensureCallEntry call ∅). destruct (negb _ && _).
  - pose proof (addReporter_backers c (mkEvidence ∅ st0 []) [] call rep (Time s) (Frequency s) [subject_entry s]) as H.
    destruct H as [Ha Hr].
    { split; [done|]. intros call'. unfold reporters_of, st0, ensureCallEntry. cbn [callStats]. rewrite lookup_empty.
      destruct (decide (call = call')) as [->|]; [by rewrite lookup_insert_eq|by rewrite lookup_insert_ne]. }
    cbn [app allReporters callStats] in *. set (st1 := addReporter _ _ _ _ _ _) in *. split; cbn [allReporters]; [set_solver|].
    intros call'. rewrite <- Hr. unfold reporters_of. cbn [callStats]. destruct (IsZero _); [|done].
    destruct (decide (call = call')) as [->|]; [|by rewrite lookup_insert_ne].
    rewrite lookup_insert_eq. cbn. by destruct (st1 !! call').
  - split; [done|]. intros call'. unfold reporters_of. cbn [callStats]. unfold st0, ensureCallEntry. rewrite lookup_empty.
    rewrite lookup_insert_eq. cbn [default from_option id]. change (IsZero (a_lastSeen new_agg)) with true.
    destruct (decide (call = call')) as [->|]; [by rewrite lookup_insert_eq|by rewrite !lookup_insert_ne].
Qed.

Lemma scan_entry_vote c s now ev e :
  if vote_counts c s now e then
    exists cl, scan_entry c s now ev e
      = mkEvidence ({[TrimSpace (e_Spotter e)]} ∪ allReporters ev)
          (addReporter c (TrimSpace (e_Call e)) (TrimSpace (e_Spotter e)) (Unix (e_Time e)) (entryFreqKHz e) (callStats ev)) cl
  else scan_entry c s now ev e = ev.
Proof.
  unfold vote_counts, scan_entry. destruct (entry_eligible c s now e); cbn [negb andb]; [|done].
  case_bool_decide; [case_bool_decide|destruct (EqualFold _ _)]; eauto.
Qed.

Lemma gather_votes c s others now : records_votes c (votes c s others now) (gather c s others now).
Proof.
  unfold gather, votes. set (l0 := if own_vote c s then _ else _).
  assert (forall l ev, records_votes c l ev ->
    records_votes c (l ++ map (fun e => (TrimSpace (e_Call e), TrimSpace (e_Spotter e)))
                           (filter (fun e => vote_counts c s now e = true) others)) (fold_left (scan_entry c s now) others ev)) as H.
  { induction others as [|e others IH]; intros l ev Hev; cbn [fold_left map]; [by rewrite app_nil_r|].
    rewrite filter_cons. pose proof (scan_entry_vote c s now ev e) as Hs. destruct (vote_counts c s now e) eqn:Ev.
    - destruct Hs as [cl ->]. rewrite decide_True by done. cbn [map]. rewrite (cons_middle _ l), app_assoc.
      apply IH. by apply addReporter_backers.
    - rewrite Hs, decide_False by done. by apply IH. }
  apply H, subject_votes.
Qed.

(** ** The leader *)

Definition leads (ev : evidence) (keys : list string) (b : leader) : Prop :=
  (b = no_leader \/ (bestCall b ∈ keys /\ bestCount b = support ev (bestCall b) /\
                     bestConfidence b = percent (bestCount b) (total ev))) /\
  0 <= bestCount b /\ forall k, k ∈ keys -> support ev k <= bestCount b.

Lemma find_leader_spec ev keys : leads ev keys (find_leader ev keys).
Proof.
  unfold find_leader. induction keys as [|k keys IH] using rev_ind.
  { split_and!; [by left|done|]. intros k Hk. by apply elem_of_nil in Hk. }
  rewrite fold_left_app. cbn [fold_left]. set (b := fold_left _ _ _) in *. destruct IH as (Hb & H0 & Hmax).
  unfold lead_step. unfold leads. destruct (callStats ev !! k) as [agg|] eqn:E.
  2:{ split_and!; [|done|].
      - destruct Hb as [?|(? & ? & ?)]; [by left|right; split_and!; [set_solver|done..]].
      - intros k' [?|?%list_elem_of_singleton]%elem_of_app; [auto|subst k']. unfold support. rewrite E. done. }
  assert (support ev k = Z.of_nat (size (a_reporters agg))) as Hs by (unfold support; by rewrite E).
  destruct (_ || _) eqn:Eb.
  - assert (bestCount b <= support ev k) as Hle.
    { rewrite Hs. apply orb_true_iff in Eb as [Eb|[Eb _]%andb_true_iff]; boolify; lia. }
    split_and!; cbn [bestCall bestCount bestConfidence]; [right|lia|].
    + split_and!; [set_solver|by rewrite Hs|done].
    + intros k' [Hk'|?%list_elem_of_singleton]%elem_of_app; [specialize (Hmax k' Hk'); lia|subst k'; lia].
  - apply orb_false_iff in Eb as [Eb _]. boolify. split_and!; [|done|].
    + destruct Hb as [?|(? & ? & ?)]; [by left|right; split_and!; [set_solver|done..]].
    + intros k' [Hk'|?%list_elem_of_singleton]%elem_of_app; [auto|subst k'; lia].
Qed.

(** ** The anchor *)

Lemma IsGood_view clock q call f c :
  (forall k, view clock (IsGood q call f c clock).2 k = view clock q k) /\
  forall q', (forall k, view clock q' k = view clock q k) -> (IsGood q' call f c clock).1 = (IsGood q call f c clock).1.
Proof.
  unfold IsGood. destruct (getWithTime_view clock q call f (QualityBinHz c)) as [H1 H2]. split.
  - intros k. specialize (H1 k). by destruct (getWithTime q call f _ clock).
  - intros q' Hq'. specialize (H2 q' Hq'). destruct (getWithTime q' _ _ _ _), (getWithTime q _ _ _ _). cbn in *. by rewrite H2.
Qed.

Lemma any_good_view clock q calls f c k : view clock (any_good q calls f c clock).2 k = view clock q k.
Proof.
  revert q. induction calls as [|call calls IH]; intros q; [done|]. cbn [any_good].
  destruct (IsGood_view clock q call f c) as [H _]. specialize (H k). destruct (IsGood q call f c clock) as [[] q1]; cbn in *; [done|].
  by rewrite IH.
Qed.

Lemma NormalizeUpper_trim s : NormalizeUpper (TrimSpace s) = NormalizeUpper s.
Proof. unfold NormalizeUpper. by rewrite TrimSpace_idemp. Qed.

Section SuggestFacts.
Variable lev : string -> string -> Z.
Variables (morse baudot : weights) (mkeys bkeys : list ascii) (borrow : nat -> list Z).
Variable order_calls : gmap string callAggregate -> list string.
Variable order_set : gset string -> list string.
Variable order_reporters : gmap string Z -> list (string * Z).
Variable by_age : gmap callFreqKey qualityEntry -> list callFreqKey.

Notation dist := (distance lev morse baudot mkeys bkeys borrow).
Notation suggest := (SuggestCallCorrection lev morse baudot mkeys bkeys borrow order_calls order_set order_reporters by_age).

(** A good call other than the subject and close to it. *)
Definition good_anchor (q : CallQualityStore) (busted : string) (f : Q) (mode : string) (c : CorrectionSettings) (clock : Z)
    (a : string) : Prop :=
  a <> "" /\ a <> busted /\ (IsGood q a f c clock).1 = true /\
  dist busted a mode (DistanceModelCW c) (DistanceModelRTTY c) <= MaxEditDistance c.

Lemma anchor_loop_spec q0 q busted f mode cands c clock best bd :
  0 <= MaxEditDistance c -> (forall k, view clock q k = view clock q0 k) ->
  let a := (anchor_loop lev morse baudot mkeys bkeys borrow q busted f mode cands c clock best bd).1 in
  a = best \/ good_anchor q0 busted f mode c clock a.
Proof.
  intros Hmax. revert q best bd. induction cands as [|cand cands IH]; intros q best bd Hq; [by left|].
  cbn [anchor_loop]. cbv zeta. case_bool_decide as He; cbn [orb]; [by apply IH|].
  case_bool_decide as Hb; [by apply IH|].
  destruct (IsGood_view clock q (TrimSpace cand) f c) as [Hv _].
  pose proof (proj2 (IsGood_view clock q0 (TrimSpace cand) f c) q Hq) as Hg.
  destruct (IsGood q (TrimSpace cand) f c clock) as [good q1]. cbn [fst snd] in *.
  assert (forall k, view clock q1 k = view clock q0 k) as Hq1 by (intros k; by rewrite Hv).
  destruct good; cbn [negb]; [|by apply IH]. rewrite (proj2 (Z.leb_le _ _)) by done. cbn [andb].
  destruct (Z.ltb_spec (MaxEditDistance c) (dist busted (TrimSpace cand) mode (DistanceModelCW c) (DistanceModelRTTY c)));
    [by apply IH|].
  destruct (match bd with Some d => _ | None => _ end); [|by apply IH].
  destruct (IH q1 (TrimSpace cand) (Some (dist busted (TrimSpace cand) mode (DistanceModelCW c) (DistanceModelRTTY c))) Hq1)
    as [Ha|Ha]; cbv zeta in Ha; right; [rewrite Ha|done]. by split_and!.
Qed.

Lemma findAnchor_spec q0 q busted f mode cands c clock a q' :
  0 <= MaxEditDistance c -> (forall k, view clock q k = view clock q0 k) ->
  findAnchorForCall lev morse baudot mkeys bkeys borrow q busted f mode cands c clock = (Some a, q') ->
  good_anchor q0 (TrimSpace busted) f (TrimSpace mode) c clock a.
Proof.
  intros Hmax Hq. unfold findAnchorForCall. cbv zeta. case_bool_decide; [done|].
  pose proof (anchor_loop_spec q0 q (TrimSpace busted) f (TrimSpace mode) cands c clock "" None Hmax Hq) as H'.
  destruct (anchor_loop _ _ _ _ _ _ q _ _ _ cands c clock "" None) as [best q1]. cbn in H'.
  case_bool_decide; [done|]. intros [= <- <-]. by destruct H'.
Qed.

(** ** The theorem *)

(** What a suggestion rests on: the votes [l] of the settings [c]. *)
Record justified (c : CorrectionSettings) (s : Spot) (l : list (string * string)) (r : suggestion) : Prop := {
  j_other : correctedCall r <> "" /\ correctedCall r <> TrimSpace (DXCall s);
  j_supporters : supporters r = Z.of_nat (size (backers c l (correctedCall r)));
  j_total : totalReporters r = Z.of_nat (size (list_to_set (C := gset string) l.*2)) /\ 0 < totalReporters r;
  j_confidence : correctedConfidence r = percent (supporters r) (totalReporters r);
  j_close : dist (TrimSpace (DXCall s)) (correctedCall r) (Mode s) (DistanceModelCW c) (DistanceModelRTTY c) <= MaxEditDistance c
}.

(** The majority is clear. *)
Record clear_majority (c : CorrectionSettings) (s : Spot) (l : list (string * string)) (r : suggestion) : Prop := {
  m_most : forall call, Z.of_nat (size (backers c l call)) <= supporters r;
  m_reports : min_reports c (dist (TrimSpace (DXCall s)) (correctedCall r) (Mode s) (DistanceModelCW c) (DistanceModelRTTY c)) <= supporters r;
  m_advantage : Z.of_nat (size (backers c l (TrimSpace (DXCall s))))
    + min_advantage c (dist (TrimSpace (DXCall s)) (correctedCall r) (Mode s) (DistanceModelCW c) (DistanceModelRTTY c)) <= supporters r;
  m_confidence : min_confidence c (dist (TrimSpace (DXCall s)) (correctedCall r) (Mode s) (DistanceModelCW c) (DistanceModelRTTY c)) <= correctedConfidence r
}.

Lemma support_backers c s others now call :
  support (gather c s others now) call = Z.of_nat (size (backers c (votes c s others now) call)).
Proof.
  destruct (gather_votes c s others now) as [_ H]. rewrite <- H. unfold support, reporters_of.
  by destruct (callStats _ !! call).
Qed.

Lemma total_votes c s others now : total (gather c s others now) = Z.of_nat (size (list_to_set (C := gset string) (votes c s others now).*2)).
Proof. destruct (gather_votes c s others now) as [H _]. unfold total. by rewrite H. Qed.

(** A call without an entry has no support. *)
Lemma support_keys ev keys m :
  keys ≡ₚ (map_to_list (callStats ev)).*1 -> (forall k, k ∈ keys -> support ev k <= m) -> 0 <= m -> forall k, support ev k <= m.
Proof.
  intros Hp Hk H0 k. destruct (callStats ev !! k) as [agg|] eqn:E; [|unfold support; by rewrite E].
  apply Hk. rewrite Hp. apply list_elem_of_fmap. exists (k, agg). split; [done|]. by apply elem_of_map_to_list.
Qed.

Lemma decide_majority_spec c s others now freqHz clock st keys r st' :
  keys ≡ₚ (map_to_list (callStats (gather c s others now))).*1 ->
  0 < total (gather c s others now) -> 0 <= MaxEditDistance c ->
  decide_majority lev morse baudot mkeys bkeys borrow order_set by_age c s (gather c s others now) keys freqHz now clock st = (r, st') ->
  if ok r then justified c s (votes c s others now) r /\ clear_majority c s (votes c s others now) r /\ why r = AppliedMajority
  else st_quality st' = st_quality st.
Proof.
  intros Hp Htot Hmax. unfold decide_majority. cbv zeta.
  set (ev := gather c s others now) in *. set (subj := TrimSpace (DXCall s)).
  destruct (find_leader_spec ev keys) as (Hb & H0 & Hmost). set (b := find_leader ev keys) in *.
  case_bool_decide as Hb1; cbn [orb]; [by intros [= <- <-]|]. case_bool_decide as Hb2; [by intros [= <- <-]|].
  destruct Hb as [Hb|(Hin & Hcnt & Hconf)]; [by rewrite Hb in Hb1|].
  set (d := distance _ _ _ _ _ _ _ _ _ _ _). rewrite (proj2 (Z.leb_le 0 _)) by done. cbn [andb].
  destruct (Z.ltb_spec (MaxEditDistance c) d); [by intros [= <- <-]|].
  destruct (Z.ltb_spec (bestCount b) (min_reports c d)); [by intros [= <- <-]|].
  destruct (Z.ltb_spec (bestCount b) (support ev subj + min_advantage c d)); [by intros [= <- <-]|].
  destruct (Z.ltb_spec (bestConfidence b) (min_confidence c d)); [by intros [= <- <-]|].
  destruct (freq_guard c b); [by intros [= <- <-]|].
  set (gate := match st_cooldown st with Some _ => _ | None => _ end). destruct gate as [block cd].
  destruct block; [by intros [= <- <-]|]. intros [= <- <-]. cbn [ok].
  pose proof (support_keys ev keys (bestCount b) Hp Hmost H0) as Hall.
  split_and!; [| |done].
  - split; cbn [correctedCall supporters totalReporters correctedConfidence]; [done| | | |done].
    + by rewrite Hcnt, (support_backers c s others now).
    + split; [apply total_votes|done].
    + done.
  - split; cbn [correctedCall supporters correctedConfidence]; [|done| |done].
    + intros call. rewrite <- (support_backers c s others now). apply Hall.
    + fold subj. rewrite <- (support_backers c s others now). fold ev. done.
Qed.

Lemma anchor_loop_view q busted f mode cands c clock best bd k :
  view clock (anchor_loop lev morse baudot mkeys bkeys borrow q busted f mode cands c clock best bd).2 k = view clock q k.
Proof.
  revert q best bd. induction cands as [|cand cands IH]; intros q best bd; [done|].
  cbn [anchor_loop]. cbv zeta. destruct (_ || _); [apply IH|].
  destruct (IsGood_view clock q (TrimSpace cand) f c) as [Hv _]. specialize (Hv k).
  destruct (IsGood q (TrimSpace cand) f c clock) as [good q1]. cbn [snd] in Hv.
  repeat case_match; by rewrite IH.
Qed.

Lemma findAnchor_view q busted f mode cands c clock k :
  view clock (findAnchorForCall lev morse baudot mkeys bkeys borrow q busted f mode cands c clock).2 k = view clock q k.
Proof.
  unfold findAnchorForCall. cbv zeta. case_bool_decide; [done|].
  pose proof (anchor_loop_view q (TrimSpace busted) f (TrimSpace mode) cands c clock "" None k) as H'.
  by destruct (anchor_loop _ _ _ _ _ _ q _ _ _ cands c clock "" None).
Qed.

Lemma normalized_max_edit settings : 0 < MaxEditDistance (normalizeCorrectionSettings settings).
Proof. by apply positive_else_pos. Qed.

(** C27: A suggested correction is justified by the votes.  Whatever the spots, the
    settings, the state of the two stores and the order in which Go visits its maps,
    a suggested call differs from the subject's, is within the allowed distance of it,
    and the reported support and confidence are those of the counted votes; and either
    it is a known good call, or it has the most supporters of all calls, enough of
    them, enough more than the subject and a large enough share, with the stricter
    limits when it is three or more edits away. *)
Theorem correction_justified settings s others now clock st r st' :
  (forall m, order_calls m ≡ₚ (map_to_list m).*1) ->
  suggest settings s others now clock st = (r, st') -> ok r = true ->
  let c := normalizeCorrectionSettings settings in
  let l := votes c s others now in
  justified c s l r /\
  (why r = AppliedMajority /\ clear_majority c s l r \/
   why r = AppliedAnchor /\ (IsGood (st_quality st) (correctedCall r) (fmul (Frequency s) 1000) c clock).1 = true).
Proof.
  intros Hp. unfold SuggestCallCorrection. cbv zeta. set (c := normalizeCorrectionSettings settings).
  pose proof (normalized_max_edit settings) as Hmax. fold c in Hmax.
  case_bool_decide as Hcall; [by intros [= <- <-]|]. set (ev := gather c s others now).
  destruct (Z.eqb_spec (total ev) 0) as [|Hz]; [by intros [= <- <-]|].
  assert (0 < total ev) as Htot by (unfold total in *; lia).
  set (f := fmul (Frequency s) 1000). set (calls := all_calls _ _).
  pose proof (any_good_view clock (st_quality st) calls f c) as Hv.
  destruct (any_good (st_quality st) calls f c clock) as [has q1]. cbn [snd] in Hv.
  set (search := if has : bool then _ else _). destruct search as [anchor q2] eqn:Es. subst search.
  destruct anchor as [a|]; intros Hr Hok.
  - destruct has; [|done]. apply (findAnchor_spec (st_quality st)) in Es as (Ha1 & Ha2 & Ha3 & Ha4); [|lia|done].
    rewrite TrimSpace_idemp in Ha2, Ha4. injection Hr as <- <-. cbn [correctedCall why] in *. split.
    + split; cbn [correctedCall supporters totalReporters correctedConfidence]; [done|apply support_backers| |done|].
      * split; [apply total_votes|done].
      * unfold distance, callDistance in *. by rewrite NormalizeUpper_trim in Ha4.
    + right. done.
  - apply (decide_majority_spec c s others now) in Hr; [|apply Hp|done|lia]. rewrite Hok in Hr.
    destruct Hr as (? & ? & ?). split; [done|]. left. done.
Qed.

(** A rejected correction rewards and penalises nobody: every quality score reads
    as before the decision. *)
Theorem rejection_keeps_scores settings s others now clock st r st' :
  (forall m, order_calls m ≡ₚ (map_to_list m).*1) ->
  suggest settings s others now clock st = (r, st') -> ok r = false ->
  forall key, view clock (st_quality st') key = view clock (st_quality st) key.
Proof.
  intros Hp. unfold SuggestCallCorrection. cbv zeta. set (c := normalizeCorrectionSettings settings).
  pose proof (normalized_max_edit settings) as Hmax. fold c in Hmax.
  case_bool_decide as Hcall; [by intros [= <- <-]|]. set (ev := gather c s others now).
  destruct (Z.eqb_spec (total ev) 0) as [|Hz]; [by intros [= <- <-]|].
  assert (0 < total ev) as Htot by (unfold total in *; lia).
  set (f := fmul (Frequency s) 1000). set (calls := all_calls _ _). intros Hr Hok key.
  pose proof (any_good_view clock (st_quality st) calls f c key) as Hv.
  destruct (any_good (st_quality st) calls f c clock) as [has q1]. cbn [snd] in Hv.
  pose proof (findAnchor_view q1 (TrimSpace (DXCall s)) f (Mode s) calls c clock key) as Hv2.
  set (search := if has : bool then _ else _) in Hr.
  assert (view clock search.2 key = view clock (st_quality st) key) as Hv3.
  { unfold search. destruct has; [by rewrite Hv2|done]. }
  destruct search as [anchor q2]. cbn [snd] in Hv3. destruct anchor as [a|]; [by injection Hr as <- <-|].
  apply (decide_majority_spec c s others now) in Hr; [|apply Hp|done|lia]. rewrite Hok in Hr.
  by rewrite Hr.
Qed.

End SuggestFacts.

(** ** Witnesses and the frequency guard *)

Definition demo_settings : CorrectionSettings :=
  mkSettings "majority" 0 0 0 0 0 0 0 4 1 40 0 3 0 0 0 "plain" "plain" 0 0 0 None 0 0.

Definition demo_now : Z := 1700000000 * second.

Definition demo_subject : Spot :=
  NewSpot "K1ABC" "W0AAA" 14025 "CW" demo_now.

Definition demo_vote (call spotter : string) (freqHz : Z) : SpotEntry := mkSpotEntry call spotter "CW" freqHz 1700000000 20.

(** Four reporters of one call on the subject's frequency, three of another 300 Hz up. *)
Definition demo_others : list SpotEntry :=
  map (fun r => demo_vote "K1ABD" r 14025000) ["W1A"; "W2A"; "W3A"; "W4A"] ++
  map (fun r => demo_vote "K1AAC" r 14025300) ["W5A"; "W6A"; "W7A"].

Definition demo_stores : stores := mkStores (NewCallQualityStoreWithOptions demo_options) None.

(** Listings of the calls that visit one call first or last. *)
Definition first_of (call : string) (m : gmap string callAggregate) : list string :=
  filter (fun k => k = call) (map_to_list m).*1 ++ filter (fun k => k <> call) (map_to_list m).*1.
Definition last_of (call : string) (m : gmap string callAggregate) : list string :=
  filter (fun k => k <> call) (map_to_list m).*1 ++ filter (fun k => k = call) (map_to_list m).*1.

Lemma first_of_perm call m : first_of call m ≡ₚ (map_to_list m).*1.
Proof.
  unfold first_of. induction (map_to_list m).*1 as [|k l IH]; [done|]. rewrite !filter_cons. case_decide.
  - rewrite decide_False by (intros Hn; by apply Hn). cbn. by rewrite IH.
  - rewrite decide_True by done. rewrite <- Permutation_middle. by rewrite IH.
Qed.

Lemma last_of_perm call m : last_of call m ≡ₚ (map_to_list m).*1.
Proof. unfold last_of. rewrite Permutation_app_comm. apply first_of_perm. Qed.

Definition demo_suggest (order_calls : gmap string callAggregate -> list string) : suggestion :=
  (SuggestCallCorrection (fun _ _ => 1) defaultWeights defaultWeights [] [] (fun _ => []) order_calls elements map_to_list some_order
     demo_settings demo_subject demo_others demo_now demo_now demo_stores).1.

Lemma correction_justified_witness :
  correctedCall (demo_suggest (first_of "K1ABD")) = "K1ABD" /\
  supporters (demo_suggest (first_of "K1ABD"))
  = Z.of_nat (size (backers (normalizeCorrectionSettings demo_settings)
      (votes (normalizeCorrectionSettings demo_settings) demo_subject demo_others demo_now) "K1ABD")).
Proof.
  split; [vm_compute; reflexivity|].
  destruct (correction_justified (fun _ _ => 1) defaultWeights defaultWeights [] [] (fun _ => []) (first_of "K1ABD") elements
    map_to_list some_order demo_settings demo_subject demo_others demo_now demo_now demo_stores
    (demo_suggest (first_of "K1ABD"))
    (SuggestCallCorrection (fun _ _ => 1) defaultWeights defaultWeights [] [] (fun _ => []) (first_of "K1ABD") elements map_to_list
       some_order demo_settings demo_subject demo_others demo_now demo_now demo_stores).2) as [H _].
  - apply first_of_perm.
  - apply surjective_pairing.
  - vm_compute. reflexivity.
  - exact (j_supporters _ _ _ _ _ _ _ _ _ _ H).
Defined.

Lemma rejection_keeps_scores_witness :
  view demo_now (st_quality (SuggestCallCorrection (fun _ _ => 1) defaultWeights defaultWeights [] [] (fun _ => [])
    (last_of "K1ABD") elements map_to_list some_order demo_settings demo_subject demo_others demo_now demo_now demo_stores).2)
    ("K1ABC", 14025) = Some (None, None).
Proof.
  transitivity (view demo_now (st_quality demo_stores) ("K1ABC", 14025)); [|vm_compute; reflexivity].
  apply (rejection_keeps_scores (fun _ _ => 1) defaultWeights defaultWeights [] [] (fun _ => []) (last_of "K1ABD") elements
    map_to_list some_order demo_settings demo_subject demo_others demo_now demo_now demo_stores (demo_suggest (last_of "K1ABD"))).
  - apply last_of_perm.
  - apply surjective_pairing.
  - vm_compute. reflexivity.
Defined.

(** The frequency guard depends on the order of a Go map.  The runner-up is only
    remembered when it is visited before the winner: with the same spots, a listing
    that visits the winner first applies the correction, and one that visits it last
    rejects it because of the comparable signal 300 Hz away. *)
Theorem freq_guard_depends_on_order :
  (forall m, first_of "K1ABD" m ≡ₚ (map_to_list m).*1) /\ (forall m, last_of "K1ABD" m ≡ₚ (map_to_list m).*1) /\
  ok (demo_suggest (first_of "K1ABD")) = true /\ correctedCall (demo_suggest (first_of "K1ABD")) = "K1ABD" /\
  ok (demo_suggest (last_of "K1ABD")) = false /\ why (demo_suggest (last_of "K1ABD")) = FreqGuard.
Proof.
  split; [apply first_of_perm|]. split; [apply last_of_perm|]. vm_compute. repeat split.
Qed.
