(* ===== verification/Windows.v ===== *)
(** * Windows: stores of recent items per key

    Models the three stores of [package spot] that keep, per key, the items of a
    sliding window next to the time the key was last touched: the correction index
    ([CorrectionIndex] of [spot/correction.go]), the frequency averager
    ([spot/frequency_averager.go]) and the harmonic detector ([spot/harmonics.go]).
    Each prunes a key when it is used and forgets whole keys in a cleanup that looks
    only at the last touch.  Section [Store] treats that pattern once: what a store
    shows of the window is what the history holds.  Methods hold the store's mutex, so
    each is one step; the cleanup goroutines are the steps they repeat.  [None] in the
    maps is a missing key. *)

From S2P Require Import Prelude GoText GoNum Callsign GoTime Bands Spot.
From Stdlib Require Import QArith Sorted.
From stdpp Require Import list_numbers.
Local Open Scope string_scope.
Local Open Scope list_scope.
Local Open Scope Z_scope.

Section Store.
Context {K A : Type} `{Countable K}.
Variable stamp : A -> Z.

(** [entries] or [buckets], and [lastSeen]. *)
Record wstore := mkStore { w_entries : gmap K (list A); w_lastSeen : gmap K Z }.

Definition items (st : wstore) (k : K) : list A := default [] (w_entries st !! k).

(** The items not before the cutoff. *)
Definition recent (cutoff : Z) (l : list A) : list A := filter (fun a => cutoff <= stamp a) l.

(** The cleanup loop over [lastSeen]. *)
Definition idle (cutoff : Z) (st : wstore) (k : K) : bool :=
  match w_lastSeen st !! k with Some last => Before last cutoff | None => false end.

Definition w_cleanup (cutoff : Z) (st : wstore) : wstore :=
  mkStore (filter (fun p => idle cutoff st p.1 = false) (w_entries st))
          (filter (fun p => ~ p.2 < cutoff) (w_lastSeen st)).

Definition w_put (k : K) (l : list A) (now : Z) (st : wstore) : wstore :=
  mkStore (<[k := l]> (w_entries st)) (<[k := now]> (w_lastSeen st)).

Definition w_delete (k : K) (st : wstore) : wstore :=
  mkStore (delete k (w_entries st)) (delete k (w_lastSeen st)).

(** ** What a store shows of a history *)

(** At time [t], with window [w]: the items of each key that are still in the window,
    now or at any later time, are those of the history; and no kept item is newer than
    the last touch of its key. *)
Record shows (w t : Z) (st : wstore) (hist : K -> list A) : Prop := {
  sh_recent : forall k c, t - w <= c -> recent c (items st k) = recent c (hist k);
  sh_touched : forall k a, a ∈ items st k -> exists u, w_lastSeen st !! k = Some u /\ stamp a <= u;
  sh_past : forall k u, w_lastSeen st !! k = Some u -> u <= t
}.

Lemma recent_app c l l' : recent c (l ++ l') = recent c l ++ recent c l'.
Proof. apply filter_app. Qed.

Lemma recent_recent c c' l : c <= c' -> recent c' (recent c l) = recent c' l.
Proof.
  intros Hc. unfold recent. induction l as [|a l IH]; [done|]. rewrite !filter_cons. case_decide.
  - rewrite filter_cons. case_decide; [by f_equal|done].
  - rewrite decide_False by lia. done.
Qed.

Lemma recent_nil_le c c' l : c <= c' -> recent c l = [] -> recent c' l = [].
Proof. intros Hc Hl. by rewrite <- (recent_recent c c' l Hc), Hl. Qed.

Lemma recent_old c l : (forall a, a ∈ l -> stamp a < c) -> recent c l = [].
Proof.
  intros Hl. destruct (recent c l) as [|a l'] eqn:E; [done|].
  assert (a ∈ recent c l) as Ha by (rewrite E; by left). apply list_elem_of_filter in Ha as [? Ha]. specialize (Hl a Ha). lia.
Qed.

Lemma shows_mono w t t' st hist : t <= t' -> shows w t st hist -> shows w t' st hist.
Proof.
  intros Ht [H1 H2 H3]. split; [|done|]; [intros k c Hc; apply H1; lia|]. intros k u Hu. specialize (H3 k u Hu). lia.
Qed.

Lemma shows_empty w t : shows w t (mkStore ∅ ∅) (fun _ => []).
Proof.
  split; unfold items; cbn; intros k; rewrite lookup_empty; [done| |done]. intros a Ha. by apply elem_of_nil in Ha.
Qed.

(** The cleanup is invisible: a key last touched before the window has nothing in it. *)
Lemma shows_cleanup w t st hist c0 : c0 <= t - w -> shows w t st hist -> shows w t (w_cleanup c0 st) hist.
Proof.
  intros H0 [H1 H2 H3]. assert (forall k, items (w_cleanup c0 st) k = items st k \/
    (items (w_cleanup c0 st) k = [] /\ forall a, a ∈ items st k -> stamp a < t - w)) as Hi.
  { intros k. unfold items. cbn [w_cleanup w_entries]. rewrite map_lookup_filter.
    destruct (w_entries st !! k) as [l|] eqn:E; [|by left]. cbn [mbind option_bind]. case_guard as Hg; [by left|right].
    split; [done|]. cbn. intros a Ha. destruct (H2 k a) as (u & Hu & Hle); [unfold items; by rewrite E|].
    unfold idle, Before in Hg. cbn in Hg. rewrite Hu in Hg. destruct (Z.ltb_spec u c0); [lia|done]. }
  split.
  - intros k c Hc. destruct (Hi k) as [->|[-> Hold]]; [by apply H1|]. rewrite <- H1 by done. symmetry.
    apply recent_old. intros a Ha. specialize (Hold a Ha). lia.
  - intros k a Ha. destruct (Hi k) as [Heq|[Hnil _]]; [|by rewrite Hnil in Ha; apply elem_of_nil in Ha].
    assert (a ∈ items st k) as Ha' by (by rewrite <- Heq).
    destruct (H2 k a Ha') as (u & Hu & Hle). exists u. split; [|done]. cbn. apply map_lookup_filter_Some. split; [done|]. cbn.
    intros Hlt. unfold items in Ha. cbn in Ha. rewrite map_lookup_filter in Ha.
    destruct (w_entries st !! k) as [l|]; cbn in Ha; [|by apply elem_of_nil in Ha].
    case_guard as Hg; cbn in Ha; [|by apply elem_of_nil in Ha]. unfold idle, Before in Hg. cbn in Hg. rewrite Hu in Hg. boolify. lia.
  - intros k u Hu. cbn in Hu. apply map_lookup_filter_Some in Hu as [Hu _]. by eapply H3.
Qed.

(** Writing a key: a list that agrees with the (extended) history of the key. *)
Lemma shows_put w t st hist hist' k l :
  shows w t st hist -> (forall k', k' <> k -> hist' k' = hist k') ->
  (forall c, t - w <= c -> recent c l = recent c (hist' k)) -> (forall a, a ∈ l -> stamp a <= t) ->
  shows w t (w_put k l t st) hist'.
Proof.
  intros [H1 H2 H3] Ho Hl Hs. split; unfold items; cbn [w_put w_entries w_lastSeen]; intros k'; destruct (decide (k' = k)) as [->|Hne];
    rewrite ?lookup_insert_eq, ?lookup_insert_ne by done; cbn [default from_option id].
  - apply Hl.
  - intros c Hc. rewrite Ho by done. by apply H1.
  - intros a Ha. eauto.
  - apply H2.
  - by intros u [= <-].
  - apply H3.
Qed.

Lemma shows_delete w t st hist k :
  shows w t st hist -> recent (t - w) (hist k) = [] -> shows w t (w_delete k st) hist.
Proof.
  intros [H1 H2 H3] Hk. split; unfold items; cbn [w_delete w_entries w_lastSeen]; intros k'; destruct (decide (k' = k)) as [->|Hne];
    rewrite ?lookup_delete_eq, ?lookup_delete_ne by done; cbn [default from_option id].
  - intros c Hc. symmetry. by eapply recent_nil_le.
  - apply H1.
  - intros a Ha. by apply elem_of_nil in Ha.
  - apply H2.
  - done.
  - apply H3.
Qed.

Lemma shows_ext w t st h h' : (forall k, h' k = h k) -> shows w t st h -> shows w t st h'.
Proof. intros Hh [H1 H2 H3]. split; [|done|done]. intros k c Hc. rewrite Hh. by apply H1. Qed.

(** No kept item is from the future. *)
Lemma shows_stamp w t st hist k a : shows w t st hist -> a ∈ items st k -> stamp a <= t.
Proof. intros [_ H2 H3] Ha. destruct (H2 k a Ha) as (u & Hu & Hle). specialize (H3 k u Hu). lia. Qed.
End Store.
Arguments wstore K A {_ _}.
Arguments mkStore {K A _ _} _ _.

(** The times of a history that continues at [t]. *)
Lemma Sorted_snoc2 l x t : Sorted Z.le (l ++ [x; t]) -> Sorted Z.le (l ++ [x]) /\ x <= t.
Proof.
  induction l as [|y l IH]; cbn; intros Hs.
  - inversion Hs as [|? ? ? Hr]. inversion Hr. split; [by repeat constructor|done].
  - inversion Hs as [|? ? Hs' Hr]. subst. destruct (IH Hs') as [? ?]. split; [|done]. constructor; [done|].
    destruct l; cbn in *; inversion Hr; by constructor.
Qed.

(** ** The correction index *)

Module Index.

Definition CorrectionIndex : Type := wstore Z Spot.
Definition NewCorrectionIndex : CorrectionIndex := mkStore ∅ ∅.

(** Half-up rounding to 0.1 kHz. *)
Definition bucketKey (freq : Q) : Z := Qround.Qfloor (fadd (fmul freq 10) (1 # 2)).

Definition prune (spots : list Spot) (now window : Z) : list Spot := recent Time (now - window) spots.

Definition pruneAndAppend (spots : list Spot) (s : Spot) (now window : Z) : list Spot := prune spots now window ++ [s].

Definition CorrectionIndex_Add (ci : CorrectionIndex) (s : Spot) (now window : Z) : CorrectionIndex :=
  let window := positive_else window (45 * second) in
  let key := bucketKey (Frequency s) in
  let ci := w_cleanup (now - window) ci in
  match pruneAndAppend (items ci key) s now window with
  | [] => w_delete key ci
  | spots => w_put key spots now ci
  end.

(** One bucket of the loop in [Candidates]. *)
Definition visit (now window : Z) (acc : list Spot * CorrectionIndex) (k : Z) : list Spot * CorrectionIndex :=
  let '(results, ci) := acc in
  match w_entries ci !! k with
  | None => (results, ci)
  | Some spots =>
      match prune spots now window with
      | [] => (results, w_delete k ci)
      | spots => (results ++ spots, w_put k spots now ci)
      end
  end.

Definition bucket_range (freq searchKHz : Q) : list Z :=
  let r := Qround.Qceiling (fmul searchKHz 10) in
  seqZ (bucketKey freq - r) (2 * r + 1).

Definition Candidates (ci : CorrectionIndex) (subject : Spot) (now window : Z) (searchKHz : Q)
    : list Spot * CorrectionIndex :=
  let window := positive_else window (45 * second) in
  let searchKHz := if Qle_bool searchKHz 0 then 1 # 2 else searchKHz in
  fold_left (visit now window) (bucket_range (Frequency subject) searchKHz) ([], ci).

Definition CorrectionIndex_cleanup (ci : CorrectionIndex) (now window : Z) : CorrectionIndex := w_cleanup (now - window) ci.

Inductive op :=
  | OAdd (s : Spot) (now : Z)
  | OFind (subject : Spot) (searchKHz : Q) (now : Z)
  | OClean (now : Z).

Definition op_time (o : op) : Z := match o with OAdd _ now | OFind _ _ now | OClean now => now end.

Definition step (w : Z) (ci : CorrectionIndex) (o : op) : CorrectionIndex :=
  match o with
  | OAdd s now => CorrectionIndex_Add ci s now w
  | OFind s k now => (Candidates ci s now w k).2
  | OClean now => CorrectionIndex_cleanup ci now w
  end.

Definition run (w : Z) (ops : list op) : CorrectionIndex := fold_left (step w) ops NewCorrectionIndex.

Definition added (ops : list op) : list Spot := omap (fun o => match o with OAdd s _ => Some s | _ => None end) ops.

(** The spots of a bucket, out of all that were added. *)
Definition bucket_hist (l : list Spot) (k : Z) : list Spot := filter (fun s => bucketKey (Frequency s) = k) l.

(** A spot is not reported before it was heard. *)
Definition heard (o : op) : Prop := match o with OAdd s now => Time s <= now | _ => True end.

Lemma Add_shows w ci s now l :
  0 < w -> Time s <= now -> shows Time w now ci (bucket_hist l) -> shows Time w now (CorrectionIndex_Add ci s now w) (bucket_hist (l ++ [s])).
Proof.
  intros Hw Hs Hsh. unfold CorrectionIndex_Add. cbv zeta. unfold positive_else. rewrite (proj2 (Z.leb_gt w 0)) by done.
  apply (shows_cleanup _ _ _ _ _ (now - w)) in Hsh; [|lia]. set (ci' := w_cleanup _ ci) in *. set (k := bucketKey (Frequency s)).
  unfold pruneAndAppend, prune. set (old := recent Time (now - w) (items ci' k)).
  assert (shows Time w now (w_put k (old ++ [s]) now ci') (bucket_hist (l ++ [s]))) as Hp.
  { eapply shows_put; [exact Hsh| | |].
    - intros k' Hk'. unfold bucket_hist. rewrite filter_app, filter_cons, filter_nil, decide_False by done. by rewrite app_nil_r.
    - intros c Hc. unfold bucket_hist. rewrite filter_app, filter_cons, filter_nil, decide_True by done.
      rewrite !recent_app. f_equal. unfold old. rewrite recent_recent by lia. by apply (sh_recent _ _ _ _ _ Hsh).
    - intros a [Ha| ->%list_elem_of_singleton]%elem_of_app; [|done]. unfold old in Ha. apply list_elem_of_filter in Ha as [_ Ha].
      by eapply shows_stamp. }
  destruct (old ++ [s]) eqn:E; [by apply app_nil in E as [_ ?]|done].
Qed.

Lemma visit_shows w now ci hist k results :
  shows Time w now ci hist ->
  shows Time w now (visit now w (results, ci) k).2 hist /\
  (visit now w (results, ci) k).1 = results ++ recent Time (now - w) (hist k).
Proof.
  intros Hsh. unfold visit. rewrite <- (sh_recent _ _ _ _ _ Hsh k (now - w)) by lia. unfold items.
  destruct (w_entries ci !! k) as [l|] eqn:E; cbn [default from_option id]; [|by rewrite app_nil_r].
  unfold prune. destruct (recent Time (now - w) l) as [|a l'] eqn:El; cbn [fst snd].
  - rewrite app_nil_r. split; [|done]. apply shows_delete; [done|]. rewrite <- (sh_recent _ _ _ _ _ Hsh k (now - w)) by lia.
    unfold items. by rewrite E.
  - split; [|done]. apply (shows_put Time w now ci hist hist); [done|done| |].
    + intros c Hc. rewrite <- El, recent_recent by lia. rewrite <- (sh_recent _ _ _ _ _ Hsh k c) by lia.
      unfold items. by rewrite E.
    + intros x Hx. rewrite <- El in Hx. apply list_elem_of_filter in Hx as [_ Hx]. eapply (shows_stamp Time _ _ _ _ k); [exact Hsh|].
      unfold items. by rewrite E.
Qed.

Lemma Candidates_shows w ci hist subject now k :
  0 < w -> shows Time w now ci hist ->
  shows Time w now (Candidates ci subject now w k).2 hist /\
  (Candidates ci subject now w k).1 = flat_map (fun b => recent Time (now - w) (hist b))
    (bucket_range (Frequency subject) (if Qle_bool k 0 then 1 # 2 else k)).
Proof.
  intros Hw Hsh. unfold Candidates. cbv zeta. unfold positive_else. rewrite (proj2 (Z.leb_gt w 0)) by done.
  set (r := bucket_range _ _). clearbody r.
  assert (forall results ci, shows Time w now ci hist ->
    shows Time w now (fold_left (visit now w) r (results, ci)).2 hist /\
    (fold_left (visit now w) r (results, ci)).1 = results ++ flat_map (fun b => recent Time (now - w) (hist b)) r) as Hg.
  { induction r as [|b r IH]; intros results ci' Hsh'; cbn [fold_left flat_map]; [by rewrite app_nil_r|].
    destruct (visit_shows w now ci' hist b results Hsh') as [H1 H2]. destruct (visit now w (results, ci') b) as [res' ci''].
    cbn [fst snd] in *. subst res'. destruct (IH (results ++ recent Time (now - w) (hist b)) ci'' H1) as [H3 H4].
    split; [done|]. rewrite <- app_assoc in H4. exact H4. }
  apply (Hg [] ci Hsh).
Qed.

Lemma added_snoc ops o : added (ops ++ [o]) = added ops ++ match o with OAdd s _ => [s] | _ => [] end.
Proof. unfold added. rewrite omap_app. by destruct o. Qed.

Lemma run_shows w ops t :
  0 < w -> Sorted Z.le (map op_time ops ++ [t]) -> Forall heard ops -> shows Time w t (run w ops) (bucket_hist (added ops)).
Proof.
  intros Hw. revert t. induction ops as [|o ops IH] using rev_ind; intros t Hs Hh.
  { apply (shows_mono Time w t t); [lia|]. eapply shows_mono; [|apply shows_empty]. done. }
  rewrite map_app in Hs. cbn in Hs. rewrite <- app_assoc in Hs. cbn in Hs.
  apply Sorted_snoc2 in Hs as [Hs1 Hle].
  apply Forall_app in Hh as [Hh Ho]. rewrite Forall_singleton in Ho. specialize (IH (op_time o) Hs1 Hh).
  apply (shows_mono Time w (op_time o) t); [done|].
  rewrite added_snoc. unfold run in *. rewrite fold_left_app. cbn [fold_left].
  destruct o as [s now|s k now|now]; cbn [step op_time heard] in *.
  - by apply Add_shows.
  - rewrite app_nil_r. by apply Candidates_shows.
  - rewrite app_nil_r. apply shows_cleanup; [lia|done].
Qed.

(** The correction index loses nothing of its window.  With one window, a clock
    that does not go back and spots that are not from the future, a search returns,
    bucket by bucket and in the order of insertion, exactly the spots ever added whose
    bucket is in the searched range and whose time is in the window, whatever searches
    and cleanups came in between. *)
Theorem index_candidates_exact w ops subject now searchKHz :
  0 < w -> Sorted Z.le (map op_time ops ++ [now]) -> Forall heard ops ->
  (Candidates (run w ops) subject now w searchKHz).1
  = flat_map (fun b => recent Time (now - w) (bucket_hist (added ops) b))
      (bucket_range (Frequency subject) (if Qle_bool searchKHz 0 then 1 # 2 else searchKHz)).
Proof. intros Hw Hs Hh. apply Candidates_shows; [done|]. by apply run_shows. Qed.
End Index.

(** ** The frequency averager *)

Module Averager.

(** A sample: its frequency in kHz and its time. *)
Definition freqSample : Type := Q * Z.

Record FrequencyAverager := mkAverager { fa_store : wstore string freqSample; opCount : Z }.

Definition NewFrequencyAverager : FrequencyAverager := mkAverager (mkStore ∅ ∅) 0.

(** Every 128th call sweeps. *)
Definition FrequencyAverager_cleanup (fa : FrequencyAverager) (now window : Z) : FrequencyAverager :=
  let n := opCount fa + 1 in
  if negb (Z.rem n 128 =? 0) then mkAverager (fa_store fa) n
  else mkAverager (w_cleanup (now - window) (fa_store fa)) n.

(** The loop of [Average]: [pruned], [sum] and [corroborators]. *)
Definition sample_step (freq tolerance : Q) (cutoff : Z) (acc : list freqSample * Q * Z) (sample : freqSample)
    : list freqSample * Q * Z :=
  let '(pruned, sum, corroborators) := acc in
  if Before sample.2 cutoff then acc
  else if Qle_bool (fabs (fsub sample.1 freq)) tolerance
  then (pruned ++ [sample], fadd sum sample.1, corroborators + 1)
  else (pruned ++ [sample], sum, corroborators).

Definition Average (fa : FrequencyAverager) (call : string) (freq : Q) (now window : Z) (tolerance : Q)
    : Q * Z * Z * FrequencyAverager :=
  if bool_decide (call = "") then (freq, 1, 1, fa)
  else
    let fa := FrequencyAverager_cleanup fa now window in
    let '(pruned, sum, corroborators) :=
      fold_left (sample_step freq tolerance (now - window)) (items (fa_store fa) call) ([], freq, 1) in
    let pruned := pruned ++ [(freq, now)] in
    let store := match pruned with
                 | [] => w_delete call (fa_store fa)
                 | _ => w_put call pruned now (fa_store fa)
                 end in
    (fdiv sum (float_of_int corroborators), corroborators, Z.of_nat (length pruned), mkAverager store (opCount fa)).

Inductive op :=
  | OAverage (call : string) (freq tolerance : Q) (now : Z)
  | OClean (now : Z).

Definition op_time (o : op) : Z := match o with OAverage _ _ _ now | OClean now => now end.

Definition step (w : Z) (fa : FrequencyAverager) (o : op) : FrequencyAverager :=
  match o with
  | OAverage call freq tol now => (Average fa call freq now w tol).2
  | OClean now => FrequencyAverager_cleanup fa now w
  end.

Definition run (w : Z) (ops : list op) : FrequencyAverager := fold_left (step w) ops NewFrequencyAverager.

(** All reports of a call, oldest first. *)
Definition reports (ops : list op) (call : string) : list freqSample :=
  omap (fun o => match o with
                 | OAverage c f _ now => if bool_decide (c = call /\ c <> "") then Some (f, now) else None
                 | OClean _ => None
                 end) ops.

(** The reference: the reports of the window, and among them those near [freq]. *)
Definition near (freq tolerance : Q) (l : list freqSample) : list freqSample :=
  filter (fun p => Qle_bool (fabs (fsub p.1 freq)) tolerance = true) l.

Definition average_spec (freq tolerance : Q) (win : list freqSample) : Q * Z * Z :=
  let agreeing := near freq tolerance win in
  (fdiv (fold_left fadd agreeing.*1 freq) (float_of_int (1 + Z.of_nat (length agreeing))),
   1 + Z.of_nat (length agreeing), 1 + Z.of_nat (length win)).

Lemma sample_loop freq tol cutoff l pruned sum n :
  fold_left (sample_step freq tol cutoff) l (pruned, sum, n)
  = (pruned ++ recent snd cutoff l, fold_left fadd (near freq tol (recent snd cutoff l)).*1 sum,
     n + Z.of_nat (length (near freq tol (recent snd cutoff l)))).
Proof.
  revert pruned sum n. induction l as [|[f t] l IH]; intros pruned sum n; cbn [fold_left].
  { cbn. rewrite app_nil_r. f_equal. lia. }
  unfold recent in *. unfold sample_step at 2, Before. cbn [fst snd]. rewrite filter_cons. cbn [snd].
  destruct (Z.ltb_spec t cutoff); [rewrite decide_False by lia; apply IH|]. rewrite decide_True by lia.
  unfold near. rewrite filter_cons. cbn [fst]. destruct (Qle_bool _ tol) eqn:E.
  - rewrite decide_True by done. rewrite IH. cbn [fmap list_fmap fold_left fst length]. unfold near.
    rewrite <- app_assoc. f_equal. rewrite Nat2Z.inj_succ, <- Z.add_1_l, Z.add_assoc. reflexivity.
  - rewrite decide_False by done. rewrite IH. unfold near. by rewrite <- app_assoc.
Qed.

Lemma averager_cleanup_shows w fa now hist :
  shows snd w now (fa_store fa) hist -> shows snd w now (fa_store (FrequencyAverager_cleanup fa now w)) hist.
Proof. intros Hs. unfold FrequencyAverager_cleanup. cbv zeta. destruct (negb _); cbn; [done|apply shows_cleanup; [lia|done]]. Qed.

Lemma Average_shows w fa call freq now tol hist :
  call <> "" -> shows snd w now (fa_store fa) hist ->
  (Average fa call freq now w tol).1 = average_spec freq tol (recent snd (now - w) (hist call)) /\
  (forall hist', (forall k, k <> call -> hist' k = hist k) -> hist' call = hist call ++ [(freq, now)] -> 0 <= w ->
     shows snd w now (fa_store (Average fa call freq now w tol).2) hist').
Proof.
  intros Hc Hs. apply (averager_cleanup_shows w fa now) in Hs. unfold Average. rewrite bool_decide_eq_false_2 by done.
  cbv zeta. set (fa' := FrequencyAverager_cleanup fa now w) in *. rewrite sample_loop. cbn [app].
  assert (recent snd (now - w) (items (fa_store fa') call) = recent snd (now - w) (hist call)) as Hr
    by (apply (sh_recent _ _ _ _ _ Hs); lia).
  split.
  - rewrite Hr. unfold average_spec. cbn [fst]. rewrite length_app. cbn [length]. do 2 f_equal. lia.
  - intros hist' Ho Hh Hw. cbn [snd fa_store]. set (l := recent _ _ _ ++ [_]).
    assert (shows snd w now (w_put call l now (fa_store fa')) hist') as Hp.
    { eapply shows_put; [exact Hs|done| |].
      - intros c Hcut. unfold l. rewrite Hh, !recent_app. f_equal. rewrite recent_recent by lia. by apply (sh_recent _ _ _ _ _ Hs).
      - intros a Ha. unfold l in Ha. apply elem_of_app in Ha as [Ha|Ha]; [|apply list_elem_of_singleton in Ha as ->; done].
        apply list_elem_of_filter in Ha as [_ Ha]. by eapply shows_stamp. }
    destruct l eqn:E; [|done]. unfold l in E. by apply app_nil in E as [_ ?].
Qed.

Lemma reports_snoc ops o call :
  reports (ops ++ [o]) call = reports ops call ++
    match o with OAverage c f _ now => if bool_decide (c = call /\ c <> "") then [(f, now)] else [] | OClean _ => [] end.
Proof. unfold reports. rewrite omap_app. f_equal. destruct o; cbn; [|done]. by case_bool_decide. Qed.

Lemma samples_shown w ops t :
  0 <= w -> Sorted Z.le (map op_time ops ++ [t]) -> shows snd w t (fa_store (run w ops)) (reports ops).
Proof.
  intros Hw. revert t. induction ops as [|o ops IH] using rev_ind; intros t Hs; [apply shows_empty|].
  rewrite map_app, <- app_assoc in Hs. cbn in Hs. apply Sorted_snoc2 in Hs as [Hs1 Hle]. specialize (IH (op_time o) Hs1).
  apply (shows_mono snd w (op_time o) t); [done|]. unfold run in *. rewrite fold_left_app. cbn [fold_left].
  destruct o as [call freq tol now|now]; cbn [step op_time] in *.
  - destruct (decide (call = "")) as [->|Hc].
    + unfold Average. rewrite bool_decide_eq_true_2 by done. cbn [snd]. eapply shows_ext; [|exact IH].
      intros k. rewrite reports_snoc, bool_decide_eq_false_2 by (intros [_ Hn]; by apply Hn). by rewrite app_nil_r.
    + apply (proj2 (Average_shows w _ call freq now tol _ Hc IH)); [| |done].
      * intros k Hk. rewrite reports_snoc, bool_decide_eq_false_2 by (intros [? _]; by apply Hk). by rewrite app_nil_r.
      * by rewrite reports_snoc, bool_decide_eq_true_2.
  - eapply shows_ext; [|by apply averager_cleanup_shows]. intros k. rewrite reports_snoc. by rewrite app_nil_r.
Qed.

(** The averager averages the window.  With one window and a clock that does not go
    back, the answer for a report is computed from exactly the earlier reports of that
    call in the window: their number, those within the tolerance, and the float64 mean
    of these and the report, whatever sweeps happened in between. *)
Theorem average_exact w ops call freq now tol :
  0 <= w -> Sorted Z.le (map op_time ops ++ [now]) -> call <> "" ->
  (Average (run w ops) call freq now w tol).1 = average_spec freq tol (recent snd (now - w) (reports ops call)).
Proof. intros Hw Hs Hc. apply Average_shows; [done|]. by apply samples_shown. Qed.
End Averager.

(** ** Witnesses *)

Definition demo_spot (freq : Q) (t : Z) : Spot := NewSpot "K1ABC" "W0AAA" freq "CW" t.

Lemma index_candidates_exact_witness :
  map Time (Index.Candidates (Index.run (45 * second)
    [Index.OAdd (demo_spot 14025 (100 * second)) (100 * second); Index.OClean (120 * second);
     Index.OAdd (demo_spot (140253 # 10) (130 * second)) (131 * second)])
    (demo_spot 14025 (140 * second)) (150 * second) (45 * second) 0).1 = [130 * second].
Proof.
  rewrite (Index.index_candidates_exact (45 * second) [Index.OAdd (demo_spot 14025 (100 * second)) (100 * second); Index.OClean (120 * second);
     Index.OAdd (demo_spot (140253 # 10) (130 * second)) (131 * second)] (demo_spot 14025 (140 * second)) (150 * second) 0).
  - vm_compute. reflexivity.
  - vm_compute. reflexivity.
  - repeat constructor; vm_compute; discriminate.
  - repeat constructor; vm_compute; discriminate.
Defined.

Lemma average_exact_witness :
  (Averager.Average (Averager.run (45 * second) [Averager.OAverage "K1ABC" 14025 1 (100 * second)]) "K1ABC" 14026
     (110 * second) (45 * second) 1).1 = ((28051 # 2)%Q, 2, 2).
Proof.
  rewrite (Averager.average_exact (45 * second) [Averager.OAverage "K1ABC" 14025 1 (100 * second)] "K1ABC" 14026 (110 * second) 1).
  - vm_compute. reflexivity.
  - vm_compute. discriminate.
  - repeat constructor; vm_compute; discriminate.
  - vm_compute. discriminate.
Defined.
