(* ===== verification/Harmonics.v ===== *)
(** * Harmonics: dropping harmonics of a recent fundamental

    Models [spot/harmonics.go] on the store of [Windows].  A spot is dropped when a
    recent, stronger spot of the same call explains it as a multiple of its frequency;
    spots that are not dropped are remembered as fundamentals.  The methods hold the
    detector's mutex.  [ShouldDrop] also fills the normalised fields of the spot, which
    it returns. *)

From S2P Require Import Prelude GoText GoNum Callsign GoTime Bands Spot Windows Correction.
From Stdlib Require Import QArith Sorted.
From stdpp Require Import list_numbers.
Local Open Scope string_scope.
Local Open Scope list_scope.
Local Open Scope Z_scope.

Record HarmonicSettings := mkHarmonicSettings {
  h_Enabled : bool;
  h_RecencyWindow : Z;
  MaxHarmonicMultiple : Z;
  h_FrequencyToleranceHz : Q;
  MinReportDelta : Z;
  MinReportDeltaStep : Q
}.

Record harmonicEntry := mkHarmonicEntry { h_frequency : Q; h_report : Z; h_at : Z }.

Record HarmonicDetector := mkDetector { h_settings : HarmonicSettings; h_store : wstore string harmonicEntry }.

Definition NewHarmonicDetector (settings : HarmonicSettings) : HarmonicDetector := mkDetector settings (mkStore ∅ ∅).

(** The difference in report a multiple asks for. *)
Definition required_delta (hs : HarmonicSettings) (mult : Z) : Q :=
  let minDelta := float_of_int (MinReportDelta hs) in
  if Qlt_b 0 (MinReportDeltaStep hs) && (2 <? mult)
  then fadd minDelta (fmul (MinReportDeltaStep hs) (float_of_int (mult - 2))) else minDelta.

(** The multiple explains the frequency and the difference in report suffices. *)
Definition multiple_matches (hs : HarmonicSettings) (e : harmonicEntry) (s : Spot) (mult : Z) : bool :=
  Qle_bool (fabs (fsub (fmul (h_frequency e) (float_of_int mult)) (Frequency s))) (fdiv (h_FrequencyToleranceHz hs) 1000)
  && negb (Qlt_b 0 (required_delta hs mult) && Qlt_b (float_of_int (h_report e - Report s)) (required_delta hs mult)).

(** The inner loop: does some multiple match? *)
Fixpoint try_multiples (hs : HarmonicSettings) (e : harmonicEntry) (s : Spot) (mults : list Z) : bool :=
  match mults with
  | [] => false
  | m :: rest => if multiple_matches hs e s m then true else try_multiples hs e s rest
  end.

Definition multiples (hs : HarmonicSettings) : list Z := seqZ 2 (MaxHarmonicMultiple hs - 1).

(** One candidate of the outer loop, accumulating the fundamental, the corroborators
    and the difference in report. *)
Definition candidate_step (hs : HarmonicSettings) (s : Spot) (acc : Q * Z * Z) (e : harmonicEntry) : Q * Z * Z :=
  let '(fundamental, corroborators, deltaDB) := acc in
  if Qle_bool (h_frequency e) 0 || Qle_bool (Frequency s) (h_frequency e) then acc
  else
    let reportDelta := h_report e - Report s in
    if (0 <? MinReportDelta hs) && (reportDelta <? MinReportDelta hs) then acc
    else if try_multiples hs e s (multiples hs) then
      if IsZero (h_at e) || (time_sub (Time s) (h_at e) <=? h_RecencyWindow hs) then
        if Qeq_bool fundamental 0 then (h_frequency e, 1, reportDelta)
        else if Qle_bool (fabs (fsub (h_frequency e) fundamental)) (fdiv (h_FrequencyToleranceHz hs) 1000)
        then (fundamental, corroborators + 1, deltaDB)
        else acc
      else acc
    else acc.

Definition detectHarmonic (hs : HarmonicSettings) (candidates : list harmonicEntry) (s : Spot) : Q * Z * Z :=
  let '(fundamental, corroborators, deltaDB) := fold_left (candidate_step hs s) candidates (0%Q, 0, 0) in
  (fundamental, corroborators, if deltaDB <? 0 then - deltaDB else deltaDB).

Definition harmonic_prune (hs : HarmonicSettings) (st : wstore string harmonicEntry) (call : string) (now : Z)
    : wstore string harmonicEntry :=
  let slice := items st call in
  match slice with
  | [] => st
  | _ =>
      match filter (fun e => now - h_RecencyWindow hs < h_at e) slice with
      | [] => w_delete call st
      | dst => w_put call dst now st
      end
  end.

Definition harmonic_cleanup (hs : HarmonicSettings) (st : wstore string harmonicEntry) (now : Z)
    : wstore string harmonicEntry := w_cleanup (now - h_RecencyWindow hs) st.

Definition no_drop : bool * Q * Z * Z := (false, 0%Q, 0, 0).

Definition ShouldDrop (hd : HarmonicDetector) (s : Spot) (now : Z) : bool * Q * Z * Z * Spot * HarmonicDetector :=
  let hs := h_settings hd in
  if negb (h_Enabled hs) || negb (IsCallCorrectionCandidate (Mode s)) then (no_drop, s, hd)
  else
    let s := EnsureNormalized s in
    let call := DXCallNorm s in
    if bool_decide (call = "") then (no_drop, s, hd)
    else
      let st := harmonic_prune hs (harmonic_cleanup hs (h_store hd) now) call now in
      let '(fundamental, corroborators, delta) := detectHarmonic hs (items st call) s in
      if Qlt_b 0 fundamental then ((true, fundamental, corroborators, delta), s, mkDetector hs st)
      else
        let l := items st call ++ [mkHarmonicEntry (Frequency s) (Report s) (Time s)] in
        let st := match l with [] => w_delete call st | _ => w_put call l now st end in
        (no_drop, s, mkDetector hs st).

(** ** The contract *)

(** An entry explains the spot as one of its harmonics. *)
Definition explains (hs : HarmonicSettings) (s : Spot) (e : harmonicEntry) : bool :=
  negb (Qle_bool (h_frequency e) 0) && negb (Qle_bool (Frequency s) (h_frequency e))
  && negb ((0 <? MinReportDelta hs) && (h_report e - Report s <? MinReportDelta hs))
  && existsb (multiple_matches hs e s) (multiples hs)
  && (IsZero (h_at e) || (time_sub (Time s) (h_at e) <=? h_RecencyWindow hs)).

(** The remembered fundamentals of each call, without any pruning. *)
Definition kept_spots : Type := string -> list harmonicEntry.

Definition spec_drop (hs : HarmonicSettings) (hist : kept_spots) (s : Spot) (now : Z) : bool * kept_spots :=
  let s := EnsureNormalized s in
  let call := DXCallNorm s in
  if negb (h_Enabled hs) || negb (IsCallCorrectionCandidate (Mode s)) || bool_decide (call = "") then (false, hist)
  else if existsb (explains hs s) (recent h_at (now - h_RecencyWindow hs + 1) (hist call)) then (true, hist)
  else (false, fun k => if decide (k = call) then hist k ++ [mkHarmonicEntry (Frequency s) (Report s) (Time s)] else hist k).

Fixpoint drops (hd : HarmonicDetector) (l : list (Spot * Z)) : list bool :=
  match l with
  | [] => []
  | (s, now) :: rest => let '(v, _, hd) := ShouldDrop hd s now in v.1.1.1 :: drops hd rest
  end.

Fixpoint spec_drops (hs : HarmonicSettings) (hist : kept_spots) (l : list (Spot * Z)) : list bool :=
  match l with
  | [] => []
  | (s, now) :: rest => let '(v, hist) := spec_drop hs hist s now in v :: spec_drops hs hist rest
  end.

(** ** Facts *)

Lemma try_multiples_existsb hs e s l : try_multiples hs e s l = existsb (multiple_matches hs e s) l.
Proof. induction l as [|m l IH]; cbn; [done|]. rewrite IH. by destruct (multiple_matches hs e s m). Qed.

Lemma candidate_step_explains hs s acc e :
  if explains hs s e then
    candidate_step hs s acc e = (if Qeq_bool acc.1.1 0 then (h_frequency e, 1, h_report e - Report s)
                                 else if Qle_bool (fabs (fsub (h_frequency e) acc.1.1)) (fdiv (h_FrequencyToleranceHz hs) 1000)
                                 then (acc.1.1, acc.1.2 + 1, acc.2) else acc)
  else candidate_step hs s acc e = acc.
Proof.
  destruct acc as [[fu co] de]. unfold explains, candidate_step. rewrite try_multiples_existsb.
  destruct (Qle_bool (h_frequency e) 0), (Qle_bool (Frequency s) (h_frequency e)); cbn [orb negb andb]; try done.
  destruct (_ && (_ <? MinReportDelta hs)); cbn [negb andb]; [done|].
  destruct (existsb _ _); cbn [andb]; [|done]. by destruct (_ || _).
Qed.

(** A fundamental is found exactly when some candidate explains the spot, and then it
    is the first that does. *)
Lemma detect_fold hs s l acc :
  let r := fold_left (candidate_step hs s) l acc in
  (Qlt_b 0 acc.1.1 = true -> Qlt_b 0 r.1.1 = true) /\
  (acc.1.1 = 0%Q -> Qlt_b 0 r.1.1 = existsb (explains hs s) l).
Proof.
  revert acc. induction l as [|e l IH]; intros acc; cbn [fold_left existsb].
  { split; [done|]. by intros ->. }
  pose proof (candidate_step_explains hs s acc e) as Hs. destruct (explains hs s e) eqn:Ee; cbn [orb].
  - assert (Qlt_b 0 (h_frequency e) = true) as Hpos.
    { unfold explains in Ee. rewrite !andb_true_iff in Ee. apply Ee. }
    assert (acc.1.1 = 0%Q \/ Qlt_b 0 acc.1.1 = true -> Qlt_b 0 (candidate_step hs s acc e).1.1 = true) as Hk.
    { rewrite Hs. intros [->|Hp]; [done|]. destruct (Qeq_bool acc.1.1 0) eqn:E0; [done|]. by destruct (Qle_bool _ _). }
    destruct (IH (candidate_step hs s acc e)) as [IH1 _]. split; [intros H; apply IH1, Hk; by right|].
    intros H. apply IH1, Hk. by left.
  - rewrite Hs. apply IH.
Qed.

Lemma detect_drop hs l s : Qlt_b 0 (detectHarmonic hs l s).1.1 = existsb (explains hs s) l.
Proof.
  unfold detectHarmonic. destruct (detect_fold hs s l (0%Q, 0, 0)) as [_ H].
  specialize (H eq_refl). cbv zeta in H. destruct (fold_left _ _ _) as [[fu co] de]. exact H.
Qed.

Lemma prune_shows w hs st call now hist :
  w = h_RecencyWindow hs - 1 ->
  shows h_at w now st hist ->
  shows h_at w now (harmonic_prune hs st call now) hist /\
  items (harmonic_prune hs st call now) call = recent h_at (now - w) (hist call).
Proof.
  intros -> Hs. unfold harmonic_prune. cbv zeta.
  pose proof (sh_recent _ _ _ _ _ Hs call (now - (h_RecencyWindow hs - 1)) ltac:(lia)) as Hr. rewrite <- Hr.
  set (l := items st call) in *.
  assert (filter (fun e => now - h_RecencyWindow hs < h_at e) l = recent h_at (now - (h_RecencyWindow hs - 1)) l) as Hf.
  { unfold recent. apply list_filter_iff. intros e. cbn. lia. }
  destruct l as [|e0 l0] eqn:El; [done|]. rewrite <- El in *. rewrite Hf. clear Hf.
  destruct (recent h_at _ l) as [|e1 l1] eqn:Er.
  - split; [by apply shows_delete|]. unfold items. cbn. by rewrite lookup_delete_eq.
  - rewrite <- Er. split; [|unfold items; cbn; by rewrite lookup_insert_eq].
    apply (shows_put h_at _ now st hist hist); [done|done| |].
    + intros c Hc. rewrite recent_recent by lia. by apply (sh_recent _ _ _ _ _ Hs).
    + intros a Ha. apply list_elem_of_filter in Ha as [_ Ha]. eapply (shows_stamp h_at _ _ _ _ call); [exact Hs|done].
Qed.

(** One decision against the contract. *)
Lemma ShouldDrop_refines hd s now hist :
  shows h_at (h_RecencyWindow (h_settings hd) - 1) now (h_store hd) hist -> Time s <= now ->
  Time (EnsureNormalized s) = Time s -> Mode (EnsureNormalized s) = Mode s ->
  let '(v, _, hd') := ShouldDrop hd s now in
  v.1.1.1 = (spec_drop (h_settings hd) hist s now).1 /\ h_settings hd' = h_settings hd /\
  shows h_at (h_RecencyWindow (h_settings hd) - 1) now (h_store hd') (spec_drop (h_settings hd) hist s now).2.
Proof.
  intros Hs Ht HT HM. unfold ShouldDrop, spec_drop. cbv zeta. set (hs := h_settings hd) in *. rewrite HM.
  destruct (negb (h_Enabled hs) || negb _); cbn [orb]; [done|]. set (s' := EnsureNormalized s) in *.
  case_bool_decide as Hc; [done|].
  apply (shows_cleanup _ _ _ _ _ (now - h_RecencyWindow hs)) in Hs; [|lia]. fold (harmonic_cleanup hs (h_store hd) now) in Hs.
  destruct (prune_shows _ hs _ (DXCallNorm s') now hist eq_refl Hs) as [Hp Hi].
  set (st := harmonic_prune _ _ _ _) in *. rewrite Hi.
  replace (now - (h_RecencyWindow hs - 1)) with (now - h_RecencyWindow hs + 1) in * by lia.
  pose proof (detect_drop hs (recent h_at (now - h_RecencyWindow hs + 1) (hist (DXCallNorm s'))) s') as Hd.
  destruct (detectHarmonic hs _ s') as [[fu co] de]. cbn [fst] in Hd. rewrite Hd.
  destruct (existsb _ _); [done|]. cbn [fst snd h_settings h_store]. split_and!; [done|done|].
  set (l := _ ++ [_]).
  assert (shows h_at (h_RecencyWindow hs - 1) now (w_put (DXCallNorm s') l now st)
    (fun k => if decide (k = DXCallNorm s') then hist k ++ [mkHarmonicEntry (Frequency s') (Report s') (Time s')] else hist k)) as Hput.
  { eapply shows_put; [exact Hp| | |].
    - intros k Hk. by rewrite decide_False.
    - intros c Hcut. rewrite decide_True by done. unfold l. rewrite !recent_app. f_equal. apply recent_recent. lia.
    - intros a Ha. unfold l in Ha. apply elem_of_app in Ha as [Ha|Ha].
      + rewrite <- Hi in Ha. by eapply shows_stamp.
      + apply list_elem_of_singleton in Ha as ->. cbn. by rewrite HT. }
  destruct l eqn:E; [|done]. unfold l in E. by apply app_nil in E as [_ ?].
Qed.

Lemma EnsureNormalized_keeps s : Time (EnsureNormalized s) = Time s /\ Mode (EnsureNormalized s) = Mode s.
Proof. split; reflexivity. Qed.

Lemma drops_refine hs l hd t hist :
  h_settings hd = hs -> shows h_at (h_RecencyWindow hs - 1) t (h_store hd) hist ->
  Sorted Z.le (t :: map snd l) -> Forall (fun p => Time p.1 <= p.2) l ->
  drops hd l = spec_drops hs hist l.
Proof.
  intros Hhs. revert hd t hist Hhs. induction l as [|[s now] l IH]; intros hd t hist Hhs Hsh Hs Ht; [done|].
  cbn [drops spec_drops map snd] in *. inversion Hs as [|? ? Hs' Hle]. subst. inversion Hle. subst.
  apply Forall_cons in Ht as [Ht1 Ht2]. cbn [fst snd] in Ht1.
  apply (shows_mono h_at _ t now) in Hsh; [|done]. destruct (EnsureNormalized_keeps s) as [HT HM].
  pose proof (ShouldDrop_refines hd s now hist Hsh Ht1 HT HM) as H. destruct (ShouldDrop hd s now) as [[v s'] hd'].
  destruct H as (Hv & Hst & Hsh'). destruct (spec_drop (h_settings hd) hist s now) as [v' hist']. cbn [fst snd] in *.
  rewrite Hv. f_equal. apply (IH hd' now hist' Hst Hsh' Hs' Ht2).
Qed.

(** C39: The detector is its contract.  On every stream of spots with a clock that does
    not go back and no spot from the future, the verdicts are those of a detector that
    never forgets: a spot is dropped exactly when some earlier spot of the same call
    that was itself not dropped, and lies in the recency window, explains it as a
    multiple of its frequency with the required difference in report. *)
Theorem harmonics_refine_contract hs l t :
  Sorted Z.le (t :: map snd l) -> Forall (fun p => Time p.1 <= p.2) l ->
  drops (NewHarmonicDetector hs) l = spec_drops hs (fun _ => []) l.
Proof. intros Hs Ht. apply (drops_refine hs l _ t); [done|apply shows_empty|done|done]. Qed.

Definition demo_harmonics : HarmonicSettings := mkHarmonicSettings true (60 * second) 4 20 0 0.
Definition demo_pair : list (Spot * Z) :=
  [(NewSpot "K1ABC" "W0AAA" 7010 "CW" (100 * second), 100 * second);
   (NewSpot "K1ABC" "W1AAA" 14020 "CW" (110 * second), 110 * second)].

Lemma harmonics_refine_contract_witness :
  drops (NewHarmonicDetector demo_harmonics) demo_pair = [false; true].
Proof.
  transitivity (spec_drops demo_harmonics (fun _ => []) demo_pair); [|vm_compute; reflexivity].
  apply (harmonics_refine_contract demo_harmonics demo_pair 0).
  - repeat constructor; vm_compute; discriminate.
  - repeat constructor; vm_compute; discriminate.
Defined.
