(* ===== verification/Adaptive.v ===== *)
(** * Adaptive: the report threshold follows band activity

    Models [spot/adaptive_min_reports.go]: per group of bands, the number of active
    reporters puts the group in one of three states, with hysteresis, and the state
    selects the number of reports call correction asks for.  Methods hold one mutex.
    The groups are independent, so the loop over their map is a map of a function; the
    busiest state does not depend on the order either.  [clock] is [time.Now]. *)

From S2P Require Import Prelude GoText GoNum GoTime.
From Stdlib Require Import QArith Sorted.
Local Open Scope string_scope.
Local Open Scope list_scope.
Local Open Scope Z_scope.

(** [config.AdaptiveMinReportsGroup], and with its defaults [AdaptiveGroupThresholds]. *)
Record AdaptiveGroupThresholds := mkThresholds {
  Name : string;
  g_Bands : list string;
  QuietBelow : Z;
  BusyAbove : Z;
  QuietMinReports : Z;
  NormalMinReports : Z;
  BusyMinReports : Z
}.

Record groupState := mkGroup {
  g_config : AdaptiveGroupThresholds;
  g_state : string;
  pending : string;
  pendingStreak : Z;
  minReports : Z;
  lastTransition : Z
}.

Record AdaptiveMinReports := mkAdaptive {
  HysteresisWindows : Z;
  fallback : Z;
  a_window : Z;
  evalPeriod : Z;
  lastEval : Z;
  reporterSeen : gmap string (gmap string Z);
  groups : gmap string groupState;
  bandToGroup : gmap string string
}.

Definition with_seen (m : gmap string (gmap string Z)) (a : AdaptiveMinReports) : AdaptiveMinReports :=
  mkAdaptive (HysteresisWindows a) (fallback a) (a_window a) (evalPeriod a) (lastEval a) m (groups a) (bandToGroup a).

Definition normalize_group (g : AdaptiveGroupThresholds) : AdaptiveGroupThresholds :=
  let normal := positive_else (NormalMinReports g) 3 in
  let below := positive_else (QuietBelow g) 10 in
  mkThresholds (if bool_decide (TrimSpace (Name g) = "") then Join (g_Bands g) "," else Name g) (g_Bands g) below
    (positive_else (BusyAbove g) (below * 2)) (positive_else (QuietMinReports g) 2) normal
    (positive_else (BusyMinReports g) normal).

Definition normalizeAdaptiveGroups (gs : list AdaptiveGroupThresholds) : list AdaptiveGroupThresholds :=
  map normalize_group (filter (fun g => g_Bands g <> []) gs).

Definition new_group (clock : Z) (g : AdaptiveGroupThresholds) : groupState :=
  mkGroup g "normal" "" 0 (NormalMinReports g) clock.

Definition add_bands (m : gmap string string) (g : AdaptiveGroupThresholds) : gmap string string :=
  fold_left (fun m b => let band := lower_trim b in if bool_decide (band = "") then m else <[band := Name g]> m)
            (g_Bands g) m.

(** [None] is the nil controller of a disabled configuration. *)
Definition NewAdaptiveMinReports (enabled : bool) (gs : list AdaptiveGroupThresholds)
    (windowMinutes evalSeconds hysteresis minConsensus clock : Z) : option AdaptiveMinReports :=
  let gs := normalizeAdaptiveGroups gs in
  if negb enabled || bool_decide (length gs = 0%nat) then None
  else
    Some (mkAdaptive hysteresis minConsensus
      (positive_else (int64 (windowMinutes * minute)) (10 * minute)) (positive_else (int64 (evalSeconds * second)) minute)
      zero_time ∅ (fold_left (fun m g => <[Name g := new_group clock g]> m) gs ∅) (fold_left add_bands gs ∅)).

Definition Observe (a : AdaptiveMinReports) (band reporter : string) (now : Z) : AdaptiveMinReports :=
  let b := lower_trim band in
  let r := upper_trim reporter in
  if bool_decide (b = "") || bool_decide (r = "") then a
  else with_seen (<[b := <[r := now]> (default ∅ (reporterSeen a !! b))]> (reporterSeen a)) a.

(** Reporters outside the window go, and bands without reporters. *)
Definition drop_stale (w now : Z) (m : gmap string (gmap string Z)) : gmap string (gmap string Z) :=
  omap (fun reps : gmap string Z =>
    let reps := filter (fun p => ~ w < time_sub now p.2) reps in
    if bool_decide (size reps = 0%nat) then None else Some reps) m.

Definition averageReporters (seen : gmap string (gmap string Z)) (bands : list string) : Q :=
  match bands with
  | [] => 0%Q
  | _ =>
      let total := fold_left (fun t b =>
        let band := lower_trim b in
        if bool_decide (band = "") then t
        else fadd t (float_of_int (Z.of_nat (size (default ∅ (seen !! band)))))) bands 0%Q in
      fdiv total (float_of_int (Z.of_nat (length bands)))
  end.

Definition stateForCount (count : Q) (quietBelow busyAbove : Z) : string :=
  if Qlt_b count (float_of_int quietBelow) then "quiet"
  else if Qlt_b (float_of_int busyAbove) count then "busy" else "normal".

Definition reports_for (g : AdaptiveGroupThresholds) (state : string) : Z :=
  if bool_decide (state = "quiet") then QuietMinReports g
  else if bool_decide (state = "busy") then BusyMinReports g else NormalMinReports g.

(** One group of the loop in [evaluate], given its candidate state. *)
Definition eval_group (hysteresis now : Z) (candidate : string) (gs : groupState) : groupState :=
  let '(state, pend, streak, trans) :=
    if negb (bool_decide (candidate = g_state gs)) then
      let '(pend, streak) := if bool_decide (pending gs = candidate) then (pending gs, pendingStreak gs + 1)
                             else (candidate, 1) in
      if hysteresis <=? streak then (candidate, "", 0, now) else (g_state gs, pend, streak, lastTransition gs)
    else (g_state gs, "", 0, lastTransition gs) in
  mkGroup (g_config gs) state pend streak (reports_for (g_config gs) state) trans.

Definition evaluate (a : AdaptiveMinReports) (now : Z) : AdaptiveMinReports :=
  let seen := drop_stale (a_window a) now (reporterSeen a) in
  let eval gs :=
    let count := averageReporters seen (g_Bands (g_config gs)) in
    eval_group (HysteresisWindows a) now (stateForCount count (QuietBelow (g_config gs)) (BusyAbove (g_config gs))) gs in
  mkAdaptive (HysteresisWindows a) (fallback a) (a_window a) (evalPeriod a) (lastEval a) seen (eval <$> groups a) (bandToGroup a).

Definition set_lastEval (now : Z) (a : AdaptiveMinReports) : AdaptiveMinReports :=
  mkAdaptive (HysteresisWindows a) (fallback a) (a_window a) (evalPeriod a) now (reporterSeen a) (groups a) (bandToGroup a).

Definition ensureEvaluatedLocked (a : AdaptiveMinReports) (now clock : Z) : AdaptiveMinReports :=
  let now := if IsZero now then clock else now in
  if IsZero (lastEval a) || (evalPeriod a <=? time_sub now (lastEval a))
  then set_lastEval now (evaluate a now) else a.

(** The group of a band. *)
Definition group_of (a : AdaptiveMinReports) (band : string) : option groupState :=
  bandToGroup a !! lower_trim band ≫= fun name => groups a !! name.

Definition MinReportsForBand (a : AdaptiveMinReports) (band : string) (now clock : Z) : Z * AdaptiveMinReports :=
  let a := ensureEvaluatedLocked a now clock in
  (match group_of a band with
   | None => fallback a
   | Some gs => if minReports gs <=? 0 then fallback a else minReports gs
   end, a).

Definition StateForBand (a : AdaptiveMinReports) (band : string) (now clock : Z) : string * AdaptiveMinReports :=
  let a := ensureEvaluatedLocked a now clock in
  (match group_of a band with
   | None => "normal"
   | Some gs => if bool_decide (TrimSpace (g_state gs) = "") then "normal" else g_state gs
   end, a).

(** Some group is in the state. *)
Definition any_state (a : AdaptiveMinReports) (state : string) : bool :=
  existsb (fun p => bool_decide (g_state p.2 = state)) (map_to_list (groups a)).

Definition HighestState (a : AdaptiveMinReports) (clock : Z) : string * AdaptiveMinReports :=
  let a := ensureEvaluatedLocked a clock clock in
  (if any_state a "busy" then "busy" else if any_state a "normal" then "normal" else "quiet", a).

(** ** Operations as a history *)

Inductive op :=
  | OObserve (band reporter : string) (now : Z)
  | OMin (band : string) (now : Z)
  | OState (band : string) (now : Z)
  | OHighest (now : Z).

Definition op_time (o : op) : Z := match o with OObserve _ _ now | OMin _ now | OState _ now | OHighest now => now end.

(** The clock shows the time the operation is given. *)
Definition step (a : AdaptiveMinReports) (o : op) : AdaptiveMinReports :=
  match o with
  | OObserve band r now => Observe a band r now
  | OMin band now => (MinReportsForBand a band now now).2
  | OState band now => (StateForBand a band now now).2
  | OHighest now => (HighestState a now).2
  end.

Definition run (a : AdaptiveMinReports) (ops : list op) : AdaptiveMinReports := fold_left step ops a.

Definition states : list string := ["quiet"; "normal"; "busy"].

Lemma stateForCount_states c q b : stateForCount c q b ∈ states.
Proof. unfold stateForCount, states. repeat case_match; set_solver. Qed.

(** ** Hysteresis of one group *)

(** The streak an evaluation needs: at least one. *)
Definition needed (h : Z) : Z := Z.max 1 h.

Record group_ok (h : Z) (gs : groupState) : Prop := {
  g_known : g_state gs ∈ states;
  g_reports : minReports gs = reports_for (g_config gs) (g_state gs);
  g_streak : 0 <= pendingStreak gs < needed h;
  g_pending : pending gs = "" <-> pendingStreak gs = 0
}.

Lemma eval_group_ok h now c gs : c ∈ states -> group_ok h gs -> group_ok h (eval_group h now c gs).
Proof.
  intros Hc [H1 H2 H3 H4]. assert (c <> "") as Hne by (intros ->; unfold states in Hc; set_solver).
  unfold eval_group, needed in *. case_bool_decide; cbn [negb].
  { split; unfold needed; cbn [g_state minReports g_config pendingStreak pending]; [done|done|lia|done]. }
  case_bool_decide as Hp; cbv iota beta; destruct (Z.leb_spec h (pendingStreak gs + 1)); try destruct (Z.leb_spec h 1);
    split; unfold needed; cbn [g_state minReports g_config pendingStreak pending]; try done; try lia.
  all: rewrite ?Hp; split; intros; try done; try lia.
Qed.

(** The next state: unchanged, or the candidate, which then had its streak. *)
Lemma eval_group_streak h now c gs :
  let gs' := eval_group h now c gs in
  (g_state gs' = g_state gs /\ pendingStreak gs' <= Z.max 0 (pendingStreak gs) + 1) \/
  (g_state gs' = c /\ needed h <= Z.max 0 (pendingStreak gs) + 1).
Proof.
  unfold eval_group, needed. case_bool_decide; cbn [negb]; [left; cbn [g_state pendingStreak]; split; [done|lia]|].
  case_bool_decide; cbv iota beta; destruct (Z.leb_spec h (pendingStreak gs + 1)); try destruct (Z.leb_spec h 1); cbn [g_state pendingStreak];
    first [left; split; [done|lia] | right; split; [done|lia]].
Qed.

(** As many evaluations in a row as the hysteresis asks for settle the state. *)
Lemma eval_settles h nows c gs :
  0 <= pendingStreak gs -> Z.of_nat (length nows) = needed h ->
  g_state (fold_left (fun gs now => eval_group h now c gs) nows gs) = c.
Proof.
  intros H0 Hlen.
  assert (forall nows gs, 0 <= pendingStreak gs -> (g_state gs = c \/
      (0 < length nows)%nat /\ (pending gs = c /\ needed h <= pendingStreak gs + Z.of_nat (length nows) \/
                                 needed h <= Z.of_nat (length nows))) ->
    g_state (fold_left (fun gs now => eval_group h now c gs) nows gs) = c) as Hg.
  { clear. unfold needed. induction nows as [|now nows IH]; intros gs H0 Hgs; cbn [fold_left length] in *.
    { destruct Hgs as [?|[? _]]; [done|lia]. }
    apply IH; unfold eval_group; case_bool_decide as Hs; cbn [negb]; try (cbn [pendingStreak g_state]; by (lia || left));
      case_bool_decide as Hp; cbv iota beta; [destruct (Z.leb_spec h (pendingStreak gs + 1))|destruct (Z.leb_spec h 1)|
        destruct (Z.leb_spec h (pendingStreak gs + 1))|destruct (Z.leb_spec h 1)];
      cbn [pendingStreak g_state pending]; try lia; try (by left).
    - destruct Hgs as [?|[_ [[_ ?]|?]]]; [done|right..]; split; [lia|left; split; [done|lia]|lia|left; split; [done|lia]].
    - destruct Hgs as [?|[_ [[? _]|?]]]; [done|done|right]. split; [lia|left; split; [done|lia]]. }
  apply Hg; [done|]. right. unfold needed in *. split; [lia|right; lia].
Qed.

(** ** The controller *)

Definition same_config (a a' : AdaptiveMinReports) : Prop :=
  HysteresisWindows a' = HysteresisWindows a /\ evalPeriod a' = evalPeriod a.

(** What an operation at time [now] does to the groups. *)
Definition evolves (now : Z) (a a' : AdaptiveMinReports) : Prop :=
  same_config a a' /\
  ((groups a' = groups a /\ lastEval a' = lastEval a) \/
   (lastEval a' = now /\ (IsZero (lastEval a) = true \/ evalPeriod a <= time_sub now (lastEval a)) /\
    exists cand : groupState -> string, (forall gs, cand gs ∈ states) /\
      groups a' = (fun gs => eval_group (HysteresisWindows a) now (cand gs) gs) <$> groups a)).

Lemma ensure_evolves a now clock : IsZero now = false -> evolves now a (ensureEvaluatedLocked a now clock).
Proof.
  intros Hz. unfold ensureEvaluatedLocked. cbv zeta. rewrite Hz.
  destruct (IsZero (lastEval a) || _) eqn:E; [|split; [done|by left]].
  split; [done|right]. split; [done|]. split.
  - apply orb_true_iff in E as [?|?]; [by left|right; boolify; lia].
  - eexists. split; [|reflexivity]. intros gs. apply stateForCount_states.
Qed.

Lemma step_evolves a o : IsZero (op_time o) = false -> evolves (op_time o) a (step a o).
Proof.
  intros Hz. destruct o as [band r now|band now|band now|now]; cbn [step op_time] in *.
  - unfold Observe. cbv zeta. destruct (_ || _); split; try done; by left.
  - by apply ensure_evolves.
  - by apply ensure_evolves.
  - by apply ensure_evolves.
Qed.

Definition all_ok (a : AdaptiveMinReports) : Prop := map_Forall (fun _ gs => group_ok (HysteresisWindows a) gs) (groups a).

Lemma evolves_ok now a a' : evolves now a a' -> all_ok a -> all_ok a'.
Proof.
  intros [[Hh _] [[Hg _]|(_ & _ & cand & Hc & Hg)]] Hok; unfold all_ok; rewrite Hh, Hg; [done|].
  intros name gs'. rewrite lookup_fmap. destruct (groups a !! name) as [gs|] eqn:E; [|done]. intros [= <-].
  apply eval_group_ok; [apply Hc|]. by apply (Hok name).
Qed.

Lemma New_ok enabled gs wm es h mc clock a :
  NewAdaptiveMinReports enabled gs wm es h mc clock = Some a -> all_ok a.
Proof.
  unfold NewAdaptiveMinReports. cbv zeta. destruct (negb enabled || _); [done|]. intros [= <-]. unfold all_ok. cbn [groups HysteresisWindows].
  set (l := normalizeAdaptiveGroups gs). clearbody l.
  assert (forall m : gmap string groupState, map_Forall (fun _ g => group_ok h g) m ->
    map_Forall (fun _ g => group_ok h g) (fold_left (fun m g => <[Name g := new_group clock g]> m) l m)) as H.
  { induction l as [|g l IH]; intros m Hm; [done|]. cbn [fold_left]. apply IH. apply map_Forall_insert_2; [|done].
    split; cbn; [unfold states; set_solver|done|unfold needed; lia|done]. }
  apply H, map_Forall_empty.
Qed.

(** The threshold matches the state.  In every reachable state of the controller,
    every group is quiet, normal or busy, its report threshold is the one configured
    for that state, and a pending change has not yet had the number of evaluations
    hysteresis asks for. *)
Theorem adaptive_invariant enabled gs wm es h mc clock a ops :
  NewAdaptiveMinReports enabled gs wm es h mc clock = Some a -> Forall (fun o => IsZero (op_time o) = false) ops ->
  map_Forall (fun _ g => group_ok (HysteresisWindows (run a ops)) g) (groups (run a ops)).
Proof.
  intros Hnew%New_ok. change (Forall (fun o => IsZero (op_time o) = false) ops -> all_ok (run a ops)).
  revert a Hnew. induction ops as [|o ops IH]; intros a Ha Hz; [done|]. apply Forall_cons in Hz as [Hz Hzs]. cbn.
  apply IH; [|done]. eapply evolves_ok; [by apply step_evolves|done].
Qed.

(** A group that has not changed since [t0]: its streak took that many periods. *)
Definition quiet_since (t0 : Z) (name s0 : string) (a : AdaptiveMinReports) : Prop :=
  t0 + needed (HysteresisWindows a) * evalPeriod a <= lastEval a \/
  exists gs, groups a !! name = Some gs /\ g_state gs = s0 /\ 0 <= pendingStreak gs /\
    t0 + pendingStreak gs * evalPeriod a <= lastEval a.

Lemma evolves_since t0 name s0 now a a' :
  0 <= lastEval a -> 0 < evalPeriod a -> lastEval a <= now ->
  evolves now a a' -> quiet_since t0 name s0 a -> quiet_since t0 name s0 a' /\ lastEval a <= lastEval a' <= now.
Proof.
  intros Hle Hp Hnow [[Hh He] Hev]. unfold quiet_since. rewrite Hh, He.
  destruct Hev as [[-> ->]|(-> & Hgap & cand & _ & Hg)]; [intros; split; [done|lia]|].
  assert (lastEval a + evalPeriod a <= now) as Hgap'.
  { destruct Hgap as [Hz|Hgap]; [unfold IsZero, zero_time, second in Hz; boolify; lia|unfold time_sub, min_int64, max_int64 in Hgap; lia]. }
  intros [Hq|(gs & Hgs & Hst & H0 & Ht)]; (split; [|lia]); [left; lia|].
  pose proof (eval_group_streak (HysteresisWindows a) now (cand gs) gs) as Hs. cbv zeta in Hs.
  destruct Hs as [[Hs1 Hs2]|[_ Hs2]].
  - right. eexists. rewrite Hg, lookup_fmap, Hgs. split; [reflexivity|]. split; [by rewrite Hs1|]. split.
    + unfold eval_group. repeat (case_match; simplify_eq/=); lia.
    + nia.
  - left. nia.
Qed.

(** Thresholds change slowly.  From an evaluation at which a group has no pending
    change, whatever is observed and asked later, its state can only differ after an
    evaluation at least as many periods later as hysteresis asks for. *)
Theorem adaptive_changes_slowly a name gs ops gs' :
  0 <= lastEval a -> 0 < evalPeriod a -> groups a !! name = Some gs -> pendingStreak gs = 0 ->
  Sorted Z.le (lastEval a :: map op_time ops) ->
  groups (run a ops) !! name = Some gs' -> g_state gs' <> g_state gs ->
  lastEval a + needed (HysteresisWindows a) * evalPeriod a <= lastEval (run a ops).
Proof.
  intros Hle Hp Hgs Hpend Hs Hgs' Hne.
  assert (forall a1, 0 <= lastEval a1 -> HysteresisWindows a1 = HysteresisWindows a -> evalPeriod a1 = evalPeriod a ->
    Sorted Z.le (lastEval a1 :: map op_time ops) -> quiet_since (lastEval a) name (g_state gs) a1 ->
    quiet_since (lastEval a) name (g_state gs) (run a1 ops) /\
    HysteresisWindows (run a1 ops) = HysteresisWindows a /\ evalPeriod (run a1 ops) = evalPeriod a) as Hg.
  { clear Hgs' Hs. induction ops as [|o ops IH]; intros a1 H0 Hh He Hs Hq; [done|]. cbn [run fold_left map] in *.
    inversion Hs as [|? ? Hs' Hle']. subst. inversion Hle' as [|? ? Hle'']. subst.
    assert (IsZero (op_time o) = false) as Hz by (unfold IsZero, zero_time, second; apply Z.eqb_neq; lia).
    pose proof (step_evolves a1 o Hz) as Hev. pose proof Hev as [[Hh' He'] _].
    destruct (evolves_since _ _ _ _ _ _ H0 ltac:(lia) Hle'' Hev Hq) as [Hq' Hb].
    apply IH; [lia|congruence|congruence| |done].
    inversion Hs' as [|? ? Hs'' Hle3]. subst. constructor; [done|]. inversion Hle3; constructor; lia. }
  destruct (Hg a Hle eq_refl eq_refl Hs) as (Hq & Hh & He).
  { right. exists gs. rewrite Hpend. split_and!; [done|done|lia|lia]. }
  unfold quiet_since in Hq. rewrite Hh, He in Hq. destruct Hq as [?|(g2 & Hg2 & Hst & _)]; [done|].
  rewrite Hgs' in Hg2. by injection Hg2 as <-.
Qed.

(** ** Witnesses *)

Definition demo_groups : list AdaptiveGroupThresholds := [mkThresholds "hf" ["40m"; "20M "] 1 2 2 3 4].
Definition demo_new : AdaptiveMinReports :=
  default (mkAdaptive 0 0 0 0 0 ∅ ∅ ∅) (NewAdaptiveMinReports true demo_groups 10 60 2 4 0).
Definition demo_active : AdaptiveMinReports :=
  run demo_new [OObserve "40m" "W1AA" (99 * second); OObserve "20m" "W1AA" (99 * second); OMin "40m" (100 * second)].

Lemma adaptive_invariant_witness :
  map_Forall (fun _ g => group_ok 2 g) (groups (run demo_new [OObserve "40m" "W1AA" (99 * second); OMin "40m" (100 * second)])).
Proof.
  apply (adaptive_invariant true demo_groups 10 60 2 4 0 demo_new
    [OObserve "40m" "W1AA" (99 * second); OMin "40m" (100 * second)]).
  - vm_compute. reflexivity.
  - repeat constructor.
Defined.

Lemma adaptive_changes_slowly_witness :
  lastEval demo_active + needed 2 * evalPeriod demo_active
  <= lastEval (run demo_active [OMin "40m" (800 * second); OMin "40m" (900 * second)]).
Proof.
  eapply (adaptive_changes_slowly demo_active "hf" _ [OMin "40m" (800 * second); OMin "40m" (900 * second)]).
  - vm_compute. discriminate.
  - vm_compute. reflexivity.
  - vm_compute. reflexivity.
  - vm_compute. reflexivity.
  - repeat constructor; vm_compute; discriminate.
  - vm_compute. reflexivity.
  - vm_compute. discriminate.
Defined.
