(* ===== verification/ModeInfer.v ===== *)
(** * ModeInfer: the mode of a spot that names none

    Models [spot/mode_infer.go].  A mode that is not explicit is taken from what the
    same call was last heard with on the same kHz, else from what skimmers report
    around that kHz, else from the band plan.  Both memories are bounded least recently
    used maps ([Lru]).  The assigner is used by one goroutine.  [order] lists the modes of a frequency in
    the order Go visits them, [order_spotters] the spotters of a mode. *)

From S2P Require Import Prelude GoText GoNum Callsign GoTime Bands Spot Lru.
From Stdlib Require Import QArith.
Local Open Scope string_scope.
Local Open Scope list_scope.
Local Open Scope Z_scope.

(** ** The cache of modes per call and kHz *)

Record dxFreqKey := mkDxKey { k_call : string; k_freq : Z }.

#[global] Instance dxFreqKey_eq_dec : EqDecision dxFreqKey.
Proof. solve_decision. Defined.

#[global] Instance dxFreqKey_countable : Countable dxFreqKey.
Proof. refine (inj_countable' (fun k => (k_call k, k_freq k)) (fun p => mkDxKey p.1 p.2) _). by intros []. Defined.

Record dxFreqEntry := mkDxEntry { x_mode : string; x_lastSeen : Z }.

Record dxFreqCache := mkDxCache { dx_max : Z; dx_ttl : Z; dx_lru : lru_map dxFreqKey dxFreqEntry }.

Definition newDXFreqCache (max ttl : Z) : dxFreqCache := mkDxCache (if max <? 1 then 1 else max) ttl lru_empty.

Definition with_dx (m : lru_map dxFreqKey dxFreqEntry) (c : dxFreqCache) : dxFreqCache := mkDxCache (dx_max c) (dx_ttl c) m.

Definition dx_Get (c : dxFreqCache) (key : dxFreqKey) (now : Z) : option string * dxFreqCache :=
  match lru_lookup key (dx_lru c) with
  | None => (None, c)
  | Some entry =>
      if (0 <? dx_ttl c) && (dx_ttl c <? time_sub now (x_lastSeen entry)) then (None, with_dx (lru_delete key (dx_lru c)) c)
      else (Some (x_mode entry), with_dx (lru_touch key (dx_lru c)) c)
  end.

Definition dx_Set (c : dxFreqCache) (key : dxFreqKey) (mode : string) (now : Z) : dxFreqCache :=
  if bool_decide (k_call key = "") || (k_freq key <=? 0) || bool_decide (TrimSpace mode = "") then c
  else
    let fresh := match lru_lookup key (dx_lru c) with None => true | Some _ => false end in
    let m := lru_store key (mkDxEntry mode now) (dx_lru c) in
    with_dx (if fresh && (dx_max c <? lru_len m) then lru_drop_back m else m) c.

(** ** What skimmers report per kHz *)

Record digitalModeEvidence := mkEvidence { spotters : gmap string Z; seedUntil : Z; lastExplicit : Z }.

Record digitalFreqEntry := mkFreqEntry { d_lastSeen : Z; modes : gmap string digitalModeEvidence }.

Record digitalFreqMap := mkDigital {
  d_max : Z;
  d_window : Z;
  minCorroborators : Z;
  seedTTL : Z;
  d_lru : lru_map Z digitalFreqEntry
}.

Definition maxDigitalSpottersPerMode : Z := 2048.

Definition newDigitalFreqMap (max window minc seedTTL : Z) : digitalFreqMap :=
  mkDigital (if max <? 1 then 1 else max) window (if minc <? 1 then 1 else minc) seedTTL lru_empty.

Definition with_digital (l : lru_map Z digitalFreqEntry) (m : digitalFreqMap) : digitalFreqMap :=
  mkDigital (d_max m) (d_window m) (minCorroborators m) (seedTTL m) l.

(** [getOrCreate]: the entry is at the front and carries [now]. *)
Definition getOrCreate (m : digitalFreqMap) (freq now : Z) : digitalFreqEntry :=
  match lru_lookup freq (d_lru m) with
  | Some e => mkFreqEntry now (modes e)
  | None => mkFreqEntry now ∅
  end.

Definition new_evidence : digitalModeEvidence := mkEvidence ∅ zero_time zero_time.

(** [ensureMode] with the key it files the mode under. *)
Definition ensureMode (e : digitalFreqEntry) (mode : string) : digitalModeEvidence :=
  default new_evidence (modes e !! upper_trim mode).

(** [evictIfNeeded]: one insertion exceeds the capacity by at most one; the loop is
    bounded by the length of the list. *)
Fixpoint evict_loop (fuel : nat) (max : Z) (l : lru_map Z digitalFreqEntry) : lru_map Z digitalFreqEntry :=
  match fuel with
  | O => l
  | S k => if max <? lru_len l then evict_loop k max (lru_drop_back l) else l
  end.

Definition evictIfNeeded (max : Z) (l : lru_map Z digitalFreqEntry) : lru_map Z digitalFreqEntry :=
  evict_loop (length (l_keys l)) max l.

Definition put_evidence (m : digitalFreqMap) (freq now : Z) (mode : string) (ev : digitalModeEvidence) : digitalFreqMap :=
  let e := getOrCreate m freq now in
  let e := mkFreqEntry now (<[upper_trim mode := ev]> (modes e)) in
  with_digital (evictIfNeeded (d_max m) (lru_store freq e (d_lru m))) m.

Definition Seed (m : digitalFreqMap) (freq : Z) (mode : string) (now : Z) : digitalFreqMap :=
  if (freq <=? 0) || bool_decide (TrimSpace mode = "") then m
  else
    let ev := ensureMode (getOrCreate m freq now) mode in
    put_evidence m freq now mode (mkEvidence (spotters ev) (now + seedTTL m) (lastExplicit ev)).

Definition pruneSpotters (m : digitalFreqMap) (now : Z) (ev : digitalModeEvidence) : digitalModeEvidence :=
  mkEvidence (filter (fun p => ~ p.2 < now + - d_window m) (spotters ev)) (seedUntil ev) (lastExplicit ev).

Section Order.
Variable order : gmap string digitalModeEvidence -> list (string * digitalModeEvidence).
Variable order_spotters : gmap string Z -> list (string * Z).

Fixpoint oldest_spotter (l : list (string * Z)) (call : string) (seen : Z) : string :=
  match l with
  | [] => call
  | (c, s) :: rest => if bool_decide (call = "") || Before s seen then oldest_spotter rest c s else oldest_spotter rest call seen
  end.

Definition evictOldestSpotter (ev : digitalModeEvidence) : digitalModeEvidence :=
  let call := oldest_spotter (order_spotters (spotters ev)) "" zero_time in
  if bool_decide (call = "") then ev
  else mkEvidence (delete call (spotters ev)) (seedUntil ev) (lastExplicit ev).

Definition Digital_Observe (m : digitalFreqMap) (freq : Z) (mode spotter : string) (now : Z) : digitalFreqMap :=
  if (freq <=? 0) || bool_decide (TrimSpace mode = "") then m
  else
    let spotter := TrimSpace (ToUpper spotter) in
    if bool_decide (spotter = "") then m
    else
      let ev := pruneSpotters m now (ensureMode (getOrCreate m freq now) mode) in
      let ev := if maxDigitalSpottersPerMode <=? Z.of_nat (size (spotters ev)) then evictOldestSpotter ev else ev in
      let until := if negb (IsZero (seedUntil ev)) && (0 <? seedTTL m) then now + seedTTL m else seedUntil ev in
      put_evidence m freq now mode (mkEvidence (<[spotter := now]> (spotters ev)) until now).

(** The evidence of a mode as [Infer] leaves it. *)
Definition refresh (m : digitalFreqMap) (now : Z) (ev : digitalModeEvidence) : digitalModeEvidence :=
  let ev := pruneSpotters m now ev in
  if negb (IsZero (seedUntil ev)) && After now (seedUntil ev)
  then mkEvidence (spotters ev) zero_time (lastExplicit ev) else ev.

(** The loop of [Infer] over refreshed evidence: the best mode with its count and
    time, and the seed candidate. *)
Definition infer_step (m : digitalFreqMap) (now : Z) (acc : string * Z * Z * string) (p : string * digitalModeEvidence)
    : string * Z * Z * string :=
  let '(bestMode, bestCount, bestSeen, seedCandidate) := acc in
  let '(mode, ev) := p in
  let count := Z.of_nat (size (spotters ev)) in
  if minCorroborators m <=? count then
    if (bestCount <? count) || ((count =? bestCount) && After (lastExplicit ev) bestSeen)
    then (mode, count, lastExplicit ev, seedCandidate) else acc
  else if After (seedUntil ev) now then
    if bool_decide (seedCandidate = "") then (bestMode, bestCount, bestSeen, mode)
    else if negb (bool_decide (seedCandidate = mode)) then (bestMode, bestCount, bestSeen, "")
    else acc
  else acc.

Definition infer_loop (m : digitalFreqMap) (now : Z) (ms : gmap string digitalModeEvidence) : string * Z * Z * string :=
  fold_left (infer_step m now) (order ms) ("", 0, zero_time, "").

(** [pruneEntryIfEmpty] on the refreshed modes. *)
Definition pruneEntryIfEmpty (freq : Z) (e : digitalFreqEntry) (l : lru_map Z digitalFreqEntry) : lru_map Z digitalFreqEntry :=
  let ms := filter (fun p => ~ (size (spotters p.2) = 0%nat /\ seedUntil p.2 = zero_time)) (modes e) in
  if bool_decide (size ms = 0%nat) then lru_delete freq l else lru_update freq (mkFreqEntry (d_lastSeen e) ms) l.

Definition Infer (m : digitalFreqMap) (freq now : Z) : string * digitalFreqMap :=
  if freq <=? 0 then ("", m)
  else match lru_lookup freq (d_lru m) with
       | None => ("", m)
       | Some e =>
           let ms := refresh m now <$> modes e in
           let '(bestMode, _, _, seedCandidate) := infer_loop m now ms in
           let touched := with_digital (lru_store freq (mkFreqEntry now ms) (d_lru m)) m in
           if negb (bool_decide (bestMode = "")) then (bestMode, touched)
           else if negb (bool_decide (seedCandidate = "")) then (seedCandidate, touched)
           else ("", with_digital (pruneEntryIfEmpty freq (mkFreqEntry (d_lastSeen e) ms) (d_lru m)) m)
       end.

(** ** The assigner *)

Record ModeAssigner := mkAssigner { dxCache : dxFreqCache; digital : digitalFreqMap }.

Definition isSeedMode (mode : string) : bool := bool_decide (upper_trim mode ∈ ["FT4"; "FT8"; "JS8"]).

Definition seed_step (now : Z) (m : digitalFreqMap) (seed : Z * string) : digitalFreqMap :=
  let '(freq, mode) := seed in
  if freq <=? 0 then m
  else
    let mode := upper_trim mode in
    if negb (isSeedMode mode) then m else Seed m freq mode now.

(** [ModeInferenceSettings]; the seeds are pairs of a kHz and a mode. *)
Record ModeInferenceSettings := mkInferSettings {
  DXFreqCacheTTL : Z;
  DXFreqCacheSize : Z;
  DigitalWindow : Z;
  DigitalMinCorroborate : Z;
  DigitalSeedTTL : Z;
  DigitalCacheSize : Z;
  DigitalSeeds : list (Z * string)
}.

Definition newModeAssigner (s : ModeInferenceSettings) (now : Z) : ModeAssigner :=
  mkAssigner (newDXFreqCache (positive_else (DXFreqCacheSize s) 50000) (positive_else (DXFreqCacheTTL s) (5 * minute)))
    (fold_left (seed_step now) (DigitalSeeds s)
       (newDigitalFreqMap (positive_else (DigitalCacheSize s) 5000) (positive_else (DigitalWindow s) (5 * minute))
          (positive_else (DigitalMinCorroborate s) 10) (positive_else (DigitalSeedTTL s) (6 * hour)))).

Definition freqKeyFromSpot (s : Spot) : Z := if Qle_bool (Frequency s) 0 then 0 else float_to_int (Frequency s).

Definition dxKeyFromSpot (s : Spot) : dxFreqKey :=
  mkDxKey (if bool_decide (DXCallNorm s = "") then normalize_call (DXCall s) else DXCallNorm s) (freqKeyFromSpot s).

Definition shouldObserveDigital (s : Spot) (mode : string) : bool := isSeedMode mode && IsSkimmerSource (SourceType s).

(** [Assign]: the mode given to the spot (the empty one leaves it as it is). *)
Definition Assign (modeAlloc : list modeAllocation) (a : ModeAssigner) (s : Spot) (explicitMode : bool) (now : Z)
    : string * ModeAssigner :=
  if explicitMode then
    let mode := upper_trim (NormalizeVoiceMode (Mode s) (Frequency s)) in
    let dig := if shouldObserveDigital s mode then
                 let spotter := if bool_decide (DECallNorm s = "") then normalize_call (DECall s) else DECallNorm s in
                 Digital_Observe (digital a) (freqKeyFromSpot s) mode spotter now
               else digital a in
    (mode, mkAssigner (dx_Set (dxCache a) (dxKeyFromSpot s) mode now) dig)
  else
    let key := dxKeyFromSpot s in
    let '(cached, dx) := dx_Get (dxCache a) key now in
    match cached with
    | Some mode => (mode, mkAssigner (dx_Set dx key mode now) (digital a))
    | None =>
        let '(inferred, dig) := Infer (digital a) (freqKeyFromSpot s) now in
        if negb (bool_decide (inferred = "")) then (inferred, mkAssigner (dx_Set dx key inferred now) dig)
        else
          let mode := upper_trim (FinalizeMode modeAlloc "" (Frequency s)) in
          (mode, mkAssigner (if bool_decide (mode = "") then dx else dx_Set dx key mode now) dig)
    end.
End Order.

(** ** Every memory is explained by the calls *)

Record call := mkCall { c_spot : Spot; c_explicit : bool; c_now : Z }.

Definition spotter_key (s : Spot) : string :=
  TrimSpace (ToUpper (if bool_decide (DECallNorm s = "") then normalize_call (DECall s) else DECallNorm s)).

Definition spot_mode_key (s : Spot) : string := upper_trim (NormalizeVoiceMode (Mode s) (Frequency s)).

(** An explicit report of a digital mode by a skimmer. *)
Definition observed (hist : list call) (freq : Z) (mode sp : string) (t : Z) : Prop :=
  exists c, c ∈ hist /\ c_explicit c = true /\ shouldObserveDigital (c_spot c) mode = true /\
    spot_mode_key (c_spot c) = mode /\ freqKeyFromSpot (c_spot c) = freq /\ spotter_key (c_spot c) = sp /\ c_now c = t.

Definition seeded (seeds : list (Z * string)) (freq : Z) (mode : string) : Prop :=
  exists p, p ∈ seeds /\ p.1 = freq /\ upper_trim p.2 = mode.

Record ev_ok (seeds : list (Z * string)) (hist : list call) (freq : Z) (mode : string) (ev : digitalModeEvidence) : Prop := {
  ev_seen : forall sp t, spotters ev !! sp = Some t -> observed hist freq mode sp t;
  ev_seed : seedUntil ev <> zero_time -> seeded seeds freq mode;
  ev_named : spotters ev !! "" = None;
  ev_size : Z.of_nat (size (spotters ev)) <= maxDigitalSpottersPerMode
}.

Definition modes_ok seeds hist (freq : Z) (ms : gmap string digitalModeEvidence) : Prop :=
  forall mode ev, ms !! mode = Some ev -> ev_ok seeds hist freq mode ev.

Record digital_ok (seeds : list (Z * string)) (hist : list call) (m : digitalFreqMap) : Prop := {
  do_max : 1 <= d_max m;
  do_lru : lru_ok (d_lru m);
  do_len : lru_len (d_lru m) <= d_max m;
  do_modes : forall freq e, lru_lookup freq (d_lru m) = Some e -> modes_ok seeds hist freq (modes e)
}.

Lemma ev_ok_mono seeds hist hist' freq mode ev : hist ⊆ hist' -> ev_ok seeds hist freq mode ev -> ev_ok seeds hist' freq mode ev.
Proof.
  intros Hs [H1 H2 H3 H4]. split; [|done..]. intros sp t Hsp. destruct (H1 sp t Hsp) as (c & Hc & ?). exists c. auto.
Qed.

Lemma digital_ok_mono seeds hist hist' m : hist ⊆ hist' -> digital_ok seeds hist m -> digital_ok seeds hist' m.
Proof.
  intros Hs [H1 H2 H3 H4]. split; [done..|]. intros freq e He mode ev Hev. eapply ev_ok_mono; [done|]. by eapply H4.
Qed.

Lemma evict_loop_ok fuel max l :
  0 <= max -> lru_ok l -> lru_len l <= max + Z.of_nat fuel ->
  lru_ok (evict_loop fuel max l) /\ lru_len (evict_loop fuel max l) <= max /\
  forall k v, lru_lookup k (evict_loop fuel max l) = Some v -> lru_lookup k l = Some v.
Proof.
  intros Hm. revert l. induction fuel as [|k IH]; intros l Hl Hlen; cbn [evict_loop]; [split_and!; [done|lia|done]|].
  destruct (Z.ltb_spec max (lru_len l)); [|split_and!; [done|lia|done]].
  destruct (lru_drop_back_ok l Hl) as [Hd Hdl]. destruct (IH (lru_drop_back l)) as (I1 & I2 & I3); [done|lia|].
  split_and!; [done|done|]. intros k' v Hk'. by apply lru_drop_back_sub, I3.
Qed.

Lemma put_evidence_ok seeds hist m freq now mode ev :
  digital_ok seeds hist m -> ev_ok seeds hist freq (upper_trim mode) ev -> digital_ok seeds hist (put_evidence m freq now mode ev).
Proof.
  intros [H1 H2 H3 H4] Hev. unfold put_evidence. cbv zeta. set (e := mkFreqEntry now _).
  destruct (lru_store_ok freq e (d_lru m) H2) as [S1 S2]. set (l := lru_store freq e (d_lru m)) in *.
  destruct (evict_loop_ok (length (l_keys l)) (d_max m) l) as (E1 & E2 & E3); [lia|done|unfold lru_len; lia|].
  split; cbn [d_max d_lru with_digital]; [done|done|done|]. intros f e' He'. apply E3 in He'. unfold l, lru_lookup in He'. cbn in He'.
  apply lookup_insert_Some in He' as [[<- <-]|[_ He']]; [|by eapply H4].
  intros md ev' Hm. cbn in Hm. apply lookup_insert_Some in Hm as [[<- <-]|[_ Hm]]; [done|].
  unfold getOrCreate in Hm. destruct (lru_lookup freq (d_lru m)) as [e0|] eqn:E; cbn in Hm; [|by rewrite lookup_empty in Hm].
  by eapply H4.
Qed.

Lemma ensureMode_ok seeds hist m freq now mode :
  digital_ok seeds hist m -> ev_ok seeds hist freq (upper_trim mode) (ensureMode (getOrCreate m freq now) mode).
Proof.
  intros Hm. unfold ensureMode, getOrCreate.
  assert (ev_ok seeds hist freq (upper_trim mode) new_evidence) as Hnew by (by split).
  destruct (lru_lookup freq (d_lru m)) as [e|] eqn:E; cbn [modes]; [|by rewrite lookup_empty].
  destruct (modes e !! upper_trim mode) as [ev|] eqn:Ee; [|done]. by eapply (do_modes _ _ _ Hm freq e).
Qed.

Lemma ev_ok_prune seeds hist freq mode m now ev : ev_ok seeds hist freq mode ev -> ev_ok seeds hist freq mode (pruneSpotters m now ev).
Proof.
  intros [H1 H2 H3 H4]. split; cbn; [|done| |].
  - intros sp t [Hsp _]%map_lookup_filter_Some. by apply H1.
  - by rewrite map_lookup_filter, H3.
  - etransitivity; [|exact H4]. apply inj_le, map_size_filter.
Qed.

Lemma Seed_ok seeds hist m freq mode now :
  digital_ok seeds hist m -> seeded seeds freq (upper_trim mode) -> digital_ok seeds hist (Seed m freq mode now).
Proof.
  intros Hm Hs. unfold Seed. destruct (_ || _); [done|]. apply put_evidence_ok; [done|].
  destruct (ensureMode_ok seeds hist m freq now mode Hm) as [H1 H2 H3 H4]. by split.
Qed.

Section AssignFacts.
Variable order : gmap string digitalModeEvidence -> list (string * digitalModeEvidence).
Variable order_spotters : gmap string Z -> list (string * Z).
Hypothesis order_spotters_perm : forall m, order_spotters m ≡ₚ map_to_list m.

Lemma oldest_in l c0 seen : c0 <> "" -> Forall (fun p => p.1 <> "") l -> oldest_spotter l c0 seen ∈ c0 :: l.*1.
Proof.
  revert c0 seen. induction l as [|[c s] l IH]; intros c0 seen Hc Hl; cbn [oldest_spotter]; [by left|].
  apply Forall_cons in Hl as [Hc' Hl]. cbn in Hc'. rewrite bool_decide_eq_false_2 by done. cbn [orb].
  destruct (Before s seen); [right; by apply IH|]. specialize (IH c0 seen Hc Hl). set_solver.
Qed.

(** A full mode loses one spotter. *)
Lemma evict_spotter ev :
  spotters ev !! "" = None -> (0 < size (spotters ev))%nat ->
  exists sp, is_Some (spotters ev !! sp) /\ evictOldestSpotter order_spotters ev = mkEvidence (delete sp (spotters ev)) (seedUntil ev) (lastExplicit ev).
Proof.
  intros Hn Hs. unfold evictOldestSpotter. cbv zeta. pose proof (order_spotters_perm (spotters ev)) as Hp.
  assert (Forall (fun p => p.1 <> "") (order_spotters (spotters ev))) as Hne.
  { apply Forall_forall. intros [c t] Hin. rewrite Hp in Hin. apply elem_of_map_to_list in Hin. cbn. intros ->. by rewrite Hn in Hin. }
  destruct (order_spotters (spotters ev)) as [|[c t] l] eqn:E.
  { symmetry in Hp. apply Permutation_nil_r, map_to_list_empty_iff in Hp. rewrite Hp, map_size_empty in Hs. lia. }
  apply Forall_cons in Hne as [Hc Hl]. cbn in Hc. cbn [oldest_spotter]. rewrite (bool_decide_eq_true_2 ("" = "")) by done. cbn [orb].
  pose proof (oldest_in l c t Hc Hl) as Hin. set (sp := oldest_spotter l c t) in *.
  assert (is_Some (spotters ev !! sp)) as Hsp.
  { change (c :: l.*1) with (((c, t) :: l).*1) in Hin. apply list_elem_of_fmap in Hin as ([c' t'] & Heq & Hin). cbn in Heq.
    rewrite Hp in Hin. apply elem_of_map_to_list in Hin. rewrite Heq. eauto. }
  exists sp. split; [done|]. rewrite bool_decide_eq_false_2; [done|]. intros Hz. rewrite Hz, Hn in Hsp. by destruct Hsp.
Qed.

Lemma Observe_ok seeds hist c m :
  digital_ok seeds hist m -> c ∈ hist -> c_explicit c = true -> shouldObserveDigital (c_spot c) (spot_mode_key (c_spot c)) = true ->
  digital_ok seeds hist (Digital_Observe order_spotters m (freqKeyFromSpot (c_spot c)) (spot_mode_key (c_spot c))
    (if bool_decide (DECallNorm (c_spot c) = "") then normalize_call (DECall (c_spot c)) else DECallNorm (c_spot c)) (c_now c)).
Proof.
  intros Hm Hc Hx Ho. unfold Digital_Observe. destruct (_ || _); [done|]. cbv zeta. fold (spotter_key (c_spot c)).
  case_bool_decide as Hsp; [done|]. set (mode := spot_mode_key (c_spot c)) in *. set (freq := freqKeyFromSpot (c_spot c)).
  assert (upper_trim mode = mode) as Hmode by apply upper_trim_idemp.
  apply put_evidence_ok; [done|]. rewrite Hmode.
  pose proof (ensureMode_ok seeds hist m freq (c_now c) mode Hm) as He. rewrite Hmode in He.
  apply (ev_ok_prune _ _ _ _ m (c_now c)) in He. set (ev := pruneSpotters m (c_now c) _) in *. pose proof He as [H1 H2 H3 H4].
  set (ev' := if maxDigitalSpottersPerMode <=? _ then _ else _).
  assert (ev_ok seeds hist freq mode ev' /\ Z.of_nat (size (spotters ev')) < maxDigitalSpottersPerMode) as [[E1 E2 E3 E4] Hlt].
  { unfold ev'. unfold maxDigitalSpottersPerMode in H4 |- *. destruct (Z.leb_spec 2048 (Z.of_nat (size (spotters ev)))); [|split; [exact He|lia]].
    destruct (evict_spotter ev H3) as (sp & [t Hin] & ->); [lia|].
    assert (Z.of_nat (size (delete sp (spotters ev))) < 2048) as Hsz by (rewrite map_size_delete, Hin; lia).
    split; [|done]. split; cbn [spotters seedUntil]; [|done|by apply lookup_delete_None; right|unfold maxDigitalSpottersPerMode; lia].
    intros sp' t' [_ ?]%lookup_delete_Some. by apply H1. }
  split; cbn [spotters seedUntil].
  - intros sp t. rewrite lookup_insert_Some. intros [[<- <-]|[_ ?]]; [|by apply E1].
    exists c. split_and!; done.
  - destruct (IsZero (seedUntil ev')) eqn:Ez; cbn [negb andb]; [unfold IsZero in Ez; boolify; done|].
    unfold IsZero in Ez. boolify. intros _. by apply E2.
  - by rewrite lookup_insert_ne.
  - rewrite map_size_insert. destruct (spotters ev' !! spotter_key (c_spot c)) as [z|]; [unfold id; lia|]. lia.
Qed.

Lemma refresh_ok seeds hist freq mode m now ev : ev_ok seeds hist freq mode ev -> ev_ok seeds hist freq mode (refresh m now ev).
Proof.
  intros H%(ev_ok_prune _ _ _ _ m now). unfold refresh. cbv zeta. destruct (_ && _); [|done]. destruct H. by split.
Qed.

Lemma refresh_modes_ok seeds hist freq m now ms : modes_ok seeds hist freq ms -> modes_ok seeds hist freq (refresh m now <$> ms).
Proof.
  intros H mode ev. rewrite lookup_fmap. destruct (ms !! mode) as [e|] eqn:E; [|done]. intros [= <-]. by apply refresh_ok, H.
Qed.

Lemma Infer_ok seeds hist m freq now : digital_ok seeds hist m -> digital_ok seeds hist (Infer order m freq now).2.
Proof.
  intros Hm. unfold Infer. destruct (freq <=? 0); [done|]. destruct (lru_lookup freq (d_lru m)) as [e|] eqn:E; [|done].
  pose proof Hm as [H1 H2 H3 H4]. pose proof (refresh_modes_ok seeds hist freq m now (modes e) (H4 _ _ E)) as Hms.
  set (ms := refresh m now <$> modes e) in *. cbv zeta. destruct (infer_loop order m now ms) as [[[bm bc] bs] sc].
  assert (digital_ok seeds hist (with_digital (lru_store freq (mkFreqEntry now ms) (d_lru m)) m)) as Ht.
  { destruct (lru_store_ok freq (mkFreqEntry now ms) (d_lru m) H2) as [S1 S2]. rewrite E in S2.
    split; cbn [d_max d_lru with_digital]; [done|done|lia|]. intros f e' He'. unfold lru_lookup in He'. cbn in He'.
    apply lookup_insert_Some in He' as [[<- <-]|[_ He']]; [done|by eapply H4]. }
  destruct (negb (bool_decide (bm = ""))); [done|]. destruct (negb (bool_decide (sc = ""))); [done|]. cbn [snd].
  unfold pruneEntryIfEmpty. cbv zeta. cbn [modes d_lastSeen]. set (ms' := filter _ ms).
  assert (modes_ok seeds hist freq ms') as Hms' by (intros md ev [Hmd _]%map_lookup_filter_Some; by apply Hms).
  case_bool_decide.
  - destruct (lru_delete_ok freq (d_lru m) H2) as [D1 D2]. split; cbn [d_max d_lru with_digital]; [done|done|lia|].
    intros f e' He'. unfold lru_lookup in He'. cbn in He'. apply lookup_delete_Some in He' as [_ He']. by eapply H4.
  - destruct (lru_update_ok freq (mkFreqEntry (d_lastSeen e) ms') (d_lru m) H2) as [U1 U2]; [by rewrite E|].
    split; cbn [d_max d_lru with_digital]; [done|done|lia|]. intros f e' He'. unfold lru_lookup in He'. cbn in He'.
    apply lookup_insert_Some in He' as [[<- <-]|[_ He']]; [done|by eapply H4].
Qed.

(** ** The assigner *)

Record dx_ok (c : dxFreqCache) : Prop := { dx_pos : 1 <= dx_max c; dx_lru_ok : lru_ok (dx_lru c); dx_len : lru_len (dx_lru c) <= dx_max c }.

Lemma dx_Get_ok c key now : dx_ok c -> dx_ok (dx_Get c key now).2.
Proof.
  intros [H1 H2 H3]. unfold dx_Get. destruct (lru_lookup key (dx_lru c)) as [entry|] eqn:E; [|done].
  destruct (_ && _); cbn [snd].
  - destruct (lru_delete_ok key (dx_lru c) H2) as [D1 D2]. split; cbn [dx_max dx_lru with_dx]; [done|done|lia].
  - destruct (lru_touch_ok key (dx_lru c) H2) as [D1 D2]; [by rewrite E|]. split; cbn [dx_max dx_lru with_dx]; [done|done|lia].
Qed.

Lemma dx_Set_ok c key mode now : dx_ok c -> dx_ok (dx_Set c key mode now).
Proof.
  intros [H1 H2 H3]. unfold dx_Set. destruct (_ || _); [done|]. cbv zeta.
  destruct (lru_store_ok key (mkDxEntry mode now) (dx_lru c) H2) as [S1 S2]. set (m := lru_store _ _ _) in *.
  destruct (lru_drop_back_ok m S1) as [D1 D2]. clearbody m.
  destruct (lru_lookup key (dx_lru c)); cbn [andb]; [|destruct (Z.ltb_spec (dx_max c) (lru_len m))];
    split; cbn [dx_max dx_lru with_dx]; done || lia.
Qed.

Lemma Assign_ok modeAlloc seeds hist a c :
  dx_ok (dxCache a) -> digital_ok seeds hist (digital a) ->
  let a' := (Assign order order_spotters modeAlloc a (c_spot c) (c_explicit c) (c_now c)).2 in
  dx_ok (dxCache a') /\ digital_ok seeds (hist ++ [c]) (digital a').
Proof.
  intros Hd Hm%(digital_ok_mono seeds hist (hist ++ [c])); [|set_solver]. unfold Assign. cbv zeta.
  destruct (c_explicit c) eqn:Ex; cbn [snd].
  - split; cbn [dxCache digital]; [by apply dx_Set_ok|]. fold (spot_mode_key (c_spot c)).
    destruct (shouldObserveDigital _ _) eqn:Eo; [|done]. apply Observe_ok; try done. set_solver.
  - pose proof (dx_Get_ok (dxCache a) (dxKeyFromSpot (c_spot c)) (c_now c) Hd) as Hg.
    destruct (dx_Get _ _ _) as [cached dx]. cbn [snd] in Hg. destruct cached as [mode|]; cbn [snd dxCache digital].
    { split; [by apply dx_Set_ok|done]. }
    pose proof (Infer_ok seeds _ (digital a) (freqKeyFromSpot (c_spot c)) (c_now c) Hm) as Hi.
    destruct (Infer _ _ _ _) as [inferred dig]. cbn [snd] in Hi. destruct (negb _); cbn [snd dxCache digital].
    + split; [by apply dx_Set_ok|done].
    + split; [|done]. case_bool_decide; [done|by apply dx_Set_ok].
Qed.

Definition assign_run modeAlloc (st : ModeInferenceSettings) (start : Z) (calls : list call) : ModeAssigner :=
  fold_left (fun a c => (Assign order order_spotters modeAlloc a (c_spot c) (c_explicit c) (c_now c)).2) calls (newModeAssigner st start).

Lemma new_ok st start : dx_ok (dxCache (newModeAssigner st start)) /\ digital_ok (DigitalSeeds st) [] (digital (newModeAssigner st start)).
Proof.
  unfold newModeAssigner. cbn [dxCache digital]. split.
  - split; cbn [newDXFreqCache dx_max dx_lru]; [destruct (Z.ltb_spec (positive_else (DXFreqCacheSize st) 50000) 1); lia|apply lru_empty_ok|].
    unfold lru_len. cbn. destruct (Z.ltb_spec (positive_else (DXFreqCacheSize st) 50000) 1); lia.
  - set (m0 := newDigitalFreqMap _ _ _ _).
    assert (digital_ok (DigitalSeeds st) [] m0) as H0.
    { split; unfold m0, newDigitalFreqMap; cbn [d_max d_lru]; [|apply lru_empty_ok| |].
      - destruct (Z.ltb_spec (positive_else (DigitalCacheSize st) 5000) 1); lia.
      - unfold lru_len. cbn. destruct (Z.ltb_spec (positive_else (DigitalCacheSize st) 5000) 1); lia.
      - intros freq e He. unfold lru_lookup in He. cbn in He. by rewrite lookup_empty in He. }
    clearbody m0. assert (forall l m, l ⊆ DigitalSeeds st -> digital_ok (DigitalSeeds st) [] m ->
      digital_ok (DigitalSeeds st) [] (fold_left (seed_step start) l m)) as Hg; [|by apply Hg].
    induction l as [|[f md] l IH]; intros m Hl Hm; [done|]. cbn [fold_left]. apply IH; [set_solver|].
    unfold seed_step. destruct (f <=? 0); [done|]. cbv zeta. destruct (negb _); [done|]. apply Seed_ok; [done|].
    rewrite upper_trim_idemp. exists (f, md). split_and!; [set_solver|done|done].
Qed.

Lemma assign_run_ok modeAlloc st start calls :
  dx_ok (dxCache (assign_run modeAlloc st start calls)) /\ digital_ok (DigitalSeeds st) calls (digital (assign_run modeAlloc st start calls)).
Proof.
  unfold assign_run. induction calls as [|c calls IH] using rev_ind; [apply new_ok|].
  rewrite fold_left_app. cbn [fold_left]. destruct IH as [I1 I2]. by apply Assign_ok.
Qed.

(** The parameters of the digital map never change. *)
Definition params (m : digitalFreqMap) : Z * Z * Z := (d_max m, d_window m, minCorroborators m).

Lemma Assign_params modeAlloc a s x now : params (digital (Assign order order_spotters modeAlloc a s x now).2) = params (digital a) /\
  dx_max (dxCache (Assign order order_spotters modeAlloc a s x now).2) = dx_max (dxCache a).
Proof.
  unfold Assign, Digital_Observe, Infer, dx_Get, dx_Set, put_evidence, with_dx. cbv zeta.
  split; repeat (case_match; simplify_eq/=; try done).
Qed.

Lemma run_params modeAlloc st start calls :
  params (digital (assign_run modeAlloc st start calls))
  = (positive_else (DigitalCacheSize st) 5000, positive_else (DigitalWindow st) (5 * minute), positive_else (DigitalMinCorroborate st) 10) /\
  dx_max (dxCache (assign_run modeAlloc st start calls)) = positive_else (DXFreqCacheSize st) 50000.
Proof.
  unfold assign_run. induction calls as [|c calls [I1 I2]] using rev_ind.
  - cbn [fold_left]. unfold newModeAssigner. cbn [dxCache digital]. split.
    + assert (forall l m, params (fold_left (seed_step start) l m) = params m) as Hg.
      { induction l as [|[f md] l IH]; intros m; [done|]. cbn [fold_left]. rewrite IH. unfold seed_step, Seed. cbv zeta.
        repeat (case_match; try done). }
      rewrite Hg. unfold params, newDigitalFreqMap. cbn [d_max d_window minCorroborators].
      pose proof (positive_else_pos (DigitalCacheSize st) 5000). pose proof (positive_else_pos (DigitalMinCorroborate st) 10).
      rewrite !(proj2 (Z.ltb_ge _ 1)) by lia. done.
    + cbn [newDXFreqCache dx_max]. pose proof (positive_else_pos (DXFreqCacheSize st) 50000). by rewrite (proj2 (Z.ltb_ge _ 1)) by lia.
  - rewrite fold_left_app. cbn [fold_left]. destruct (Assign_params modeAlloc (fold_left (fun a c => (Assign order order_spotters
      modeAlloc a (c_spot c) (c_explicit c) (c_now c)).2) calls (newModeAssigner st start)) (c_spot c) (c_explicit c) (c_now c)) as [-> ->].
    done.
Qed.

(** The memories are bounded.  Whatever spots are assigned, the cache of calls and
    the map of frequencies hold no more keys than configured, their lists and index
    maps agree, and no mode keeps more than 2048 spotters. *)
Theorem mode_memories_bounded modeAlloc st start calls :
  let a := assign_run modeAlloc st start calls in
  lru_ok (dx_lru (dxCache a)) /\ lru_len (dx_lru (dxCache a)) <= positive_else (DXFreqCacheSize st) 50000 /\
  lru_ok (d_lru (digital a)) /\ lru_len (d_lru (digital a)) <= positive_else (DigitalCacheSize st) 5000 /\
  forall freq e mode ev, lru_lookup freq (d_lru (digital a)) = Some e -> modes e !! mode = Some ev ->
    Z.of_nat (size (spotters ev)) <= maxDigitalSpottersPerMode.
Proof.
  intros a. destruct (assign_run_ok modeAlloc st start calls) as [[D1 D2 D3] [M1 M2 M3 M4]].
  destruct (run_params modeAlloc st start calls) as [Hp Hd]. fold a in D2, D3, M2, M3, M4, Hp, Hd. unfold params in Hp. simplify_eq.
  split_and!; [done|lia|done|lia|]. intros freq e mode ev He Hev. by eapply ev_size, (M4 _ _ He).
Qed.

Hypothesis order_perm : forall m, order m ≡ₚ map_to_list m.

Lemma infer_fold m now l acc :
  let '(bm, bc, bs, sc) := fold_left (infer_step m now) l acc in
  (bm = acc.1.1.1 \/ exists ev, (bm, ev) ∈ l /\ minCorroborators m <= Z.of_nat (size (spotters ev))) /\
  (sc = "" \/ sc = acc.2 \/ exists ev, (sc, ev) ∈ l /\ After (seedUntil ev) now = true).
Proof.
  revert acc. induction l as [|[mode ev] l IH]; intros acc; [destruct acc as [[[bm bc] bs] sc]; cbn; auto|]. cbn [fold_left].
  specialize (IH (infer_step m now acc (mode, ev))). destruct (fold_left _ l _) as [[[bm bc] bs] sc]. destruct IH as [I1 I2].
  destruct acc as [[[bm0 bc0] bs0] sc0]. unfold infer_step in I1, I2. split.
  - destruct I1 as [->|(ev' & ? & ?)]; [|right; exists ev'; split; [by right|done]].
    repeat case_match; cbn; boolify; auto; right; exists ev; split; (by left) || done.
  - destruct I2 as [?|[->|(ev' & ? & ?)]]; [by left| |right; right; exists ev'; split; [by right|done]].
    repeat case_match; cbn; auto; right; right; exists ev; split; (by left) || done.
Qed.

(** An inferred mode is grounded in reports.  Whatever was assigned before, a mode
    inferred for a kHz was reported there explicitly, by skimmers, in the window, by at
    least as many different spotters as configured, or it is a configured seed of that
    kHz.  In particular modes that were themselves inferred never count as evidence. *)
Theorem inferred_mode_grounded modeAlloc st start calls freq now m dig :
  0 <= now -> Infer order (digital (assign_run modeAlloc st start calls)) freq now = (m, dig) -> m <> "" ->
  (exists sps, NoDup sps /\ positive_else (DigitalMinCorroborate st) 10 <= Z.of_nat (length sps) /\
     Forall (fun sp => exists t, observed calls freq m sp t /\ now - positive_else (DigitalWindow st) (5 * minute) <= t) sps) \/
  seeded (DigitalSeeds st) freq m.
Proof.
  intros Hnow Hinf Hne. destruct (assign_run_ok modeAlloc st start calls) as [_ [_ _ _ M4]].
  destruct (run_params modeAlloc st start calls) as [Hp _]. set (d := digital _) in *. unfold params in Hp. injection Hp as _ Hw Hc.
  unfold Infer in Hinf. destruct (freq <=? 0); [by simplify_eq|]. destruct (lru_lookup freq (d_lru d)) as [e|] eqn:E; [|by simplify_eq].
  cbv zeta in Hinf. set (ms := refresh d now <$> modes e) in *.
  pose proof (refresh_modes_ok _ _ freq d now (modes e) (M4 _ _ E)) as Hms. fold ms in Hms.
  pose proof (infer_fold d now (order ms) ("", 0, zero_time, "")) as Hf. unfold infer_loop in Hinf.
  destruct (fold_left _ _ _) as [[[bm bc] bs] sc]. cbn [fst snd] in Hf. destruct Hf as [Hb Hs].
  assert (forall mode ev, (mode, ev) ∈ order ms -> ms !! mode = Some ev) as Hin.
  { intros mode ev Hmem. rewrite order_perm in Hmem. by apply elem_of_map_to_list. }
  case_bool_decide as Hbm; cbn [negb] in Hinf.
  - case_bool_decide as Hsc; cbn [negb] in Hinf; [by simplify_eq|]. injection Hinf as <- <-. right.
    destruct Hs as [?|[?|(ev & Hev & Ha)]]; [done|done|]. apply (ev_seed _ _ _ _ _ (Hms _ _ (Hin _ _ Hev))).
    intros Hz. unfold After, zero_time, second in *. rewrite Hz in Ha. boolify. lia.
  - injection Hinf as <- <-. left. destruct Hb as [?|(ev & Hev & Hcnt)]; [done|].
    exists (map_to_list (spotters ev)).*1. split; [apply NoDup_fst_map_to_list|]. rewrite length_fmap, length_map_to_list.
    split; [by rewrite <- Hc|]. apply Forall_forall. intros sp ([sp' t] & -> & Hsp)%list_elem_of_fmap. apply elem_of_map_to_list in Hsp. cbn.
    exists t. split; [by apply (ev_seen _ _ _ _ _ (Hms _ _ (Hin _ _ Hev)))|].
    specialize (Hin _ _ Hev). unfold ms in Hin. rewrite lookup_fmap in Hin. destruct (modes e !! bm) as [ev0|]; [|done].
    injection Hin as <-. unfold refresh in Hsp. cbv zeta in Hsp.
    assert (spotters (pruneSpotters d now ev0) !! sp' = Some t) as Hsp' by (destruct (_ && _); exact Hsp).
    cbn in Hsp'. apply map_lookup_filter_Some in Hsp' as [_ Hlt]. cbn in Hlt. rewrite Hw in Hlt. lia.
Qed.
End AssignFacts.

(** ** Witnesses *)

Definition skimmer_spot (de : string) : Spot :=
  mkSpot 0 "K1ABC" de 14074 "20m" "FT8" 0 0 "" "RBN" "" "" 0 false false false false empty_metadata empty_metadata ""
    None "" "" "" "" "" "" "" "" "" "" 0 0 "" "".

Definition demo_infer : ModeInferenceSettings := mkInferSettings 0 0 0 2 0 0 [(14074, "FT8")].
Definition demo_calls : list call :=
  [mkCall (skimmer_spot "W1AA") true (10 * second); mkCall (skimmer_spot "W2AA") true (20 * second)].

Lemma mode_memories_bounded_witness :
  lru_len (d_lru (digital (assign_run map_to_list map_to_list [] demo_infer 0 demo_calls))) <= 5000.
Proof. apply (mode_memories_bounded map_to_list map_to_list (fun _ => Permutation_refl _) [] demo_infer 0 demo_calls). Defined.

Lemma inferred_mode_grounded_witness :
  (exists sps, NoDup sps /\ 2 <= Z.of_nat (length sps) /\
     Forall (fun sp => exists t, observed demo_calls 14074 "FT8" sp t /\ 30 * second - 5 * minute <= t) sps) \/
  seeded [(14074, "FT8")] 14074 "FT8".
Proof.
  apply (inferred_mode_grounded map_to_list map_to_list (fun _ => Permutation_refl _) (fun _ => Permutation_refl _) [] demo_infer 0 demo_calls
    14074 (30 * second) "FT8" (Infer map_to_list (digital (assign_run map_to_list map_to_list [] demo_infer 0 demo_calls)) 14074 (30 * second)).2).
  - vm_compute. discriminate.
  - vm_compute. reflexivity.
  - discriminate.
Defined.

(** Two seeded modes on one kHz cancel out, but the third one visited wins. *)
Example three_seeds_not_ambiguous :
  let ev := mkEvidence ∅ (100 * second) zero_time in
  let m := newDigitalFreqMap 1 minute 2 hour in
  (fold_left (infer_step m 0) [("FT4", ev); ("FT8", ev)] ("", 0, zero_time, "")).2 = "" /\
  (fold_left (infer_step m 0) [("FT4", ev); ("FT8", ev); ("JS8", ev)] ("", 0, zero_time, "")).2 = "JS8" /\
  (fold_left (infer_step m 0) [("JS8", ev); ("FT4", ev); ("FT8", ev)] ("", 0, zero_time, "")).2 = "FT8".
Proof. vm_compute. repeat split. Qed.
