(* ===== verification/Cty.v ===== *)
(** * Cty: the country prefix database

    [cty/parser.go]: the keys of the plist, normalised and sorted, in a trie of nodes
    held in a slice; lookups of a call by exact key or longest prefix, and of calls with
    slashes by their shortest resolving segment.  The plist decoder is a library: what
    it decodes is an argument, as the list of pairs in the order the loop visits them.

    The lookup is a search for the longest key that starts the call
    ([cty_lookup_longest_prefix]); the lookup of a portable call does not depend on the
    order of its segments ([cty_portable_order]). *)

From stdpp Require Import sorting.
From S2P Require Import Prelude GoText GoNum GoTime KeywordScan.
From Stdlib Require Import QArith.
From Stdlib Require Import OrdersEx.

Local Open Scope string_scope.
Local Open Scope list_scope.
Local Open Scope Z_scope.

(** ** Data *)

Record PrefixInfo := mkPrefixInfo {
  p_Country : string;
  p_Prefix : string;
  p_ADIF : Z;
  p_CQZone : Z;
  p_ITUZone : Z;
  p_Continent : string;
  p_Latitude : Q;
  p_Longitude : Q;
  p_GMTOffset : Q;
  p_ExactCallsign : bool
}.

Record ctyTrieNode := mkTrieNode { t_next : gmap ascii nat; terminalKey : string }.

(** Notations, not definitions, so that list lemmas apply. *)
Notation ctyTrie := (list ctyTrieNode).

Record CTYDatabase := mkCTY {
  Data : gmap string PrefixInfo;
  Keys : list string;
  trie : ctyTrie;
  totalLookups : Z;
  validated : Z
}.

Definition new_node : ctyTrieNode := mkTrieNode ∅ "".

Definition trie_node (tr : ctyTrie) (i : nat) : ctyTrieNode := default new_node (tr !! i).

(** ** Building the trie *)

(** The loop over the bytes of a key. *)
Fixpoint insert_bytes (tr : ctyTrie) (state : nat) (key : string) : ctyTrie * nat :=
  match key with
  | "" => (tr, state)
  | String ch key' =>
      match t_next (trie_node tr state) !! ch with
      | Some child => insert_bytes tr child key'
      | None =>
          let child := length tr in
          let tr := alter (fun nd => mkTrieNode (<[ch := child]> (t_next nd)) (terminalKey nd)) state (tr ++ [new_node]) in
          insert_bytes tr child key'
      end
  end.

Definition set_terminal (key : string) (nd : ctyTrieNode) : ctyTrieNode := mkTrieNode (t_next nd) key.

Definition insert_key (tr : ctyTrie) (key : string) : ctyTrie :=
  if bool_decide (key = "") then tr
  else let '(tr, state) := insert_bytes tr 0 key in alter (set_terminal key) state tr.

Definition buildCTYTrie (keys : list string) : ctyTrie := fold_left insert_key keys [new_node].

(** ** Lookups *)

(** The walk along the bytes of a call, from [state], with the best key so far. *)
Fixpoint longest_walk (tr : ctyTrie) (state : nat) (cs : string) (best : string) : string :=
  match cs with
  | "" => best
  | String ch cs' =>
      match t_next (trie_node tr state) !! ch with
      | None => best
      | Some child =>
          let term := terminalKey (trie_node tr child) in
          longest_walk tr child cs' (if bool_decide (term = "") then best else term)
      end
  end.

Definition longestPrefixKey (tr : ctyTrie) (cs : string) : option string :=
  if bool_decide (length tr = 0%nat) || bool_decide (cs = "") then None
  else
    let best := longest_walk tr 0 cs "" in
    if bool_decide (best = "") then None else Some best.

(** A missing key reads as the zero value of the struct. *)
Definition zero_info : PrefixInfo := mkPrefixInfo "" "" 0 0 0 "" 0 0 0 false.

Definition lookupCallsignNoCache (db : CTYDatabase) (cs : string) : option PrefixInfo :=
  match Data db !! cs with
  | Some info => Some info
  | None =>
      match longestPrefixKey (trie db) cs with
      | Some key => Some (default zero_info (Data db !! key))
      | None => None
      end
  end.

(** One segment of the loop: the shortest that resolves, the smaller of two equally
    long ones. *)
Definition segment_step (db : CTYDatabase) (best : option (string * PrefixInfo)) (seg : string)
    : option (string * PrefixInfo) :=
  let seg := TrimSpace seg in
  if bool_decide (seg = "") then best
  else
    match lookupCallsignNoCache db seg with
    | None => best
    | Some info =>
        match best with
        | None => Some (seg, info)
        | Some (bestSeg, _) =>
            if (len seg <? len bestSeg) || ((len seg =? len bestSeg) && String.ltb seg bestSeg)
            then Some (seg, info) else best
        end
    end.

Definition lookupCallsignPortableNoCache (db : CTYDatabase) (cs : string) : option PrefixInfo :=
  if bool_decide (cs = "") then None
  else
    let lookup := if HasSuffix cs "/B" then TrimSuffix cs "/B" else cs in
    if negb (Contains lookup "/") then lookupCallsignNoCache db lookup
    else
      match fold_left (segment_step db) (split_byte "/" lookup) None with
      | Some (_, info) => Some info
      | None => lookupCallsignNoCache db lookup
      end.

Definition count_lookup (ok : bool) (db : CTYDatabase) : CTYDatabase :=
  mkCTY (Data db) (Keys db) (trie db) (totalLookups db + 1) (if ok then validated db + 1 else validated db).

Definition is_some {A} (o : option A) : bool := match o with Some _ => true | None => false end.

Definition LookupCallsign (db : CTYDatabase) (cs : string) : option PrefixInfo * CTYDatabase :=
  let r := lookupCallsignNoCache db cs in (r, count_lookup (is_some r) db).

Definition LookupCallsignPortable (db : CTYDatabase) (cs : string) : option PrefixInfo * CTYDatabase :=
  let cs := TrimSpace cs in
  if bool_decide (cs = "") then (None, db)
  else let r := lookupCallsignPortableNoCache db cs in (r, count_lookup (is_some r) db).

Definition KeysWithPrefix (db : CTYDatabase) (pref : string) : list string :=
  let norm := upper_trim pref in List.filter (fun key => HasPrefix key norm) (Keys db).

(** ** Loading *)

Definition decodeCTYData (raw : list (string * PrefixInfo)) : gmap string PrefixInfo :=
  fold_left (fun data kv => <[upper_trim kv.1 := kv.2]> data) raw ∅.

(** Longer keys first, then by their bytes. *)
Definition key_before (a b : string) : Prop :=
  if len a =? len b then String.leb a b = true else len b < len a.

#[global] Instance key_before_dec : RelDecision key_before.
Proof. intros a b. unfold key_before. destruct (len a =? len b); solve_decision. Defined.

Definition LoadCTYDatabaseFromReader (raw : list (string * PrefixInfo)) : CTYDatabase :=
  let data := decodeCTYData raw in
  let keys := merge_sort key_before (map_to_list data).*1 in
  mkCTY data keys (buildCTYTrie keys) 0 0.

(** ** The trie *)

(** The nodes as nodes of the keyword automaton, whose trie lemmas apply. *)
Definition as_ac (nd : ctyTrieNode) : acNode := mkNode (t_next nd) 0 [].

Lemma node_at_as_ac tr i : node_at (as_ac <$> tr) i = as_ac (trie_node tr i).
Proof. unfold node_at, trie_node. rewrite list_lookup_fmap. by destruct (tr !! i). Qed.

Lemma insert_bytes_ac key tr state :
  trie_word (as_ac <$> tr) state key = (as_ac <$> (insert_bytes tr state key).1, (insert_bytes tr state key).2).
Proof.
  revert tr state. induction key as [|ch key IH]; intros tr state; [done|]. cbn [trie_word insert_bytes].
  rewrite node_at_as_ac. cbn [as_ac next]. destruct (t_next (trie_node tr state) !! ch) as [child|]; [apply IH|].
  rewrite length_fmap, <- IH. f_equal. change [empty_node] with (as_ac <$> [new_node]). rewrite <- fmap_app.
  symmetry. apply list_eq. intros i. rewrite !list_lookup_fmap. destruct (decide (i = state)) as [->|].
  - rewrite !list_lookup_alter_eq, list_lookup_fmap. by destruct ((tr ++ [new_node]) !! state).
  - by rewrite !list_lookup_alter_ne, list_lookup_fmap.
Qed.

(** The nodes a key passes keep their terminal, the new ones have none. *)
Lemma insert_bytes_terminal key tr state i :
  terminalKey (trie_node (insert_bytes tr state key).1 i) = terminalKey (trie_node tr i).
Proof.
  revert tr state. induction key as [|ch key IH]; intros tr state; [done|]. cbn [insert_bytes].
  destruct (t_next (trie_node tr state) !! ch) as [child|]; [apply IH|]. rewrite IH. unfold trie_node.
  assert (forall k, terminalKey (default new_node ((tr ++ [new_node]) !! k)) = terminalKey (default new_node (tr !! k))) as Hs.
  { intros k. destruct (decide (k < length tr)%nat); [by rewrite lookup_app_l|].
    rewrite (lookup_ge_None_2 tr k), lookup_app_r by lia. by destruct (k - length tr)%nat as [|[]]. }
  rewrite <- Hs. destruct (decide (i = state)) as [->|Hne].
  - rewrite list_lookup_alter_eq. by destruct ((tr ++ [new_node]) !! state).
  - by rewrite list_lookup_alter_ne.
Qed.

Definition twalk (tr : ctyTrie) (w : string) : option nat := walk (as_ac <$> tr) 0 w.

(** The trie holds exactly the keys of [K]: a terminal stands where its own word leads,
    and every key leads to its terminal. *)
Record trie_holds (K : string -> Prop) (tr : ctyTrie) : Prop := {
  th_wf : trie_wf (as_ac <$> tr);
  th_sound : forall i, terminalKey (trie_node tr i) <> "" ->
    K (terminalKey (trie_node tr i)) /\ twalk tr (terminalKey (trie_node tr i)) = Some i;
  th_keys : forall k, K k -> exists i, twalk tr k = Some i /\ terminalKey (trie_node tr i) = k
}.

Lemma empty_trie_holds : trie_holds (fun _ => False) [new_node].
Proof.
  split; [|by intros [|[]]|done].
  split; [cbn; lia|..]; intros; unfold edge in *; rewrite ?node_at_as_ac in *.
  - destruct p as [|[]]; cbn in *; by rewrite lookup_empty in *.
  - destruct p as [|[]]; cbn in *; by rewrite lookup_empty in *.
  - by destruct i.
Qed.

Lemma as_ac_set_terminal key q (tr : ctyTrie) : as_ac <$> alter (set_terminal key) q tr = as_ac <$> tr.
Proof.
  apply list_eq. intros i. rewrite !list_lookup_fmap. destruct (decide (i = q)) as [->|].
  - rewrite list_lookup_alter_eq. by destruct (tr !! q).
  - by rewrite list_lookup_alter_ne.
Qed.

Lemma insert_key_holds K tr key :
  trie_holds K tr -> key <> "" -> trie_holds (fun w => w = key \/ K w) (insert_key tr key).
Proof.
  intros [Hwf Hs Hk] Hne. unfold insert_key. rewrite bool_decide_eq_false_2 by done.
  pose proof (trie_word_spec key (as_ac <$> tr) 0 Hwf (wf_pos _ Hwf)) as Hw. rewrite insert_bytes_ac in Hw.
  pose proof (insert_bytes_terminal key tr 0) as Hterm. destruct (insert_bytes tr 0 key) as [tr' q]. cbn [fst snd] in *.
  destruct Hw as (Hwf' & Hext & Hw & Hq). rewrite length_fmap in Hq.
  assert (forall i, terminalKey (trie_node (alter (set_terminal key) q tr') i)
    = if decide (i = q) then key else terminalKey (trie_node tr i)) as Ht.
  { intros i. rewrite <- Hterm. unfold trie_node. case_decide as Hi.
    - subst. rewrite list_lookup_alter_eq. destruct (lookup_lt_is_Some_2 tr' q Hq) as [nd ->]. done.
    - by rewrite list_lookup_alter_ne. }
  split; unfold twalk in *; rewrite as_ac_set_terminal; [done| |].
  - intros i. rewrite Ht. case_decide as Hi; [subst; auto|]. intros Hi0. destruct (Hs i Hi0) as [? Hwi].
    split; [auto|]. by apply (walk_extends _ _ _ _ _ Hext).
  - intros k [->|Hkk]; [exists q; split; [done|]; rewrite Ht; by rewrite decide_True|].
    destruct (Hk k Hkk) as (i & Hi & Hik). exists i. apply (walk_extends _ _ _ _ _ Hext) in Hi. split; [done|].
    rewrite Ht. case_decide; [|done]. subst i. by apply (walk_inj _ _ _ _ Hwf' Hw Hi).
Qed.

Lemma trie_holds_ext K K' tr : (forall w, K w <-> K' w) -> trie_holds K tr -> trie_holds K' tr.
Proof. intros H [H1 H2 H3]. split; [done|intros; rewrite <- H; auto|intros k; rewrite <- H; auto]. Qed.

Lemma buildCTYTrie_holds keys : trie_holds (fun w => w <> "" /\ w ∈ keys) (buildCTYTrie keys).
Proof.
  unfold buildCTYTrie. assert (forall K tr, trie_holds K tr ->
    trie_holds (fun w => K w \/ (w <> "" /\ w ∈ keys)) (fold_left insert_key keys tr)) as H.
  { induction keys as [|k keys IH]; intros K tr Htr; cbn [fold_left].
    - eapply trie_holds_ext; [|done]. intros w. rewrite elem_of_nil. tauto.
    - destruct (decide (k = "")) as [->|Hk].
      + change (insert_key tr "") with tr. eapply trie_holds_ext; [|by apply IH].
        intros w. rewrite elem_of_cons. naive_solver.
      + eapply trie_holds_ext; [|by apply IH, insert_key_holds]. intros w. rewrite elem_of_cons. naive_solver. }
  eapply trie_holds_ext; [|apply H, empty_trie_holds]. tauto.
Qed.

(** A word that leads to a node is a key exactly when the node says so. *)
Lemma th_terminal K tr w i : trie_holds K tr -> twalk tr w = Some i -> terminalKey (trie_node tr i) <> "" ->
  terminalKey (trie_node tr i) = w /\ K w.
Proof.
  intros Ht Hw Hi. destruct (th_sound _ _ Ht i Hi) as [HK Hi'].
  assert (terminalKey (trie_node tr i) = w) as E by (by apply (walk_inj _ _ _ _ (th_wf _ _ Ht) Hi' Hw)).
  split; [done|]. by rewrite <- E.
Qed.

(** ** Longest prefixes *)

(** The walk ends with the longest key among the words it spells. *)
Lemma longest_walk_spec K tr cs w st best :
  trie_holds K tr -> twalk tr w = Some st ->
  (exists j, (1 <= j <= String.length cs)%nat /\ longest_walk tr st cs best = w +:+ stake j cs /\ K (w +:+ stake j cs) /\
     forall j', (j < j' <= String.length cs)%nat -> ~ K (w +:+ stake j' cs)) \/
  (longest_walk tr st cs best = best /\ forall j', (1 <= j' <= String.length cs)%nat -> ~ K (w +:+ stake j' cs)).
Proof.
  intros Ht. revert w st best. induction cs as [|ch cs IH]; intros w st best Hw.
  { right. split; [done|]. cbn. lia. }
  assert (forall j, w +:+ stake (S j) (String ch cs) = (w +:+ String ch "") +:+ stake j cs) as Ew
    by (intros; by rewrite sapp_assoc).
  cbn [longest_walk String.length].
  destruct (t_next (trie_node tr st) !! ch) as [child|] eqn:E.
  - assert (twalk tr (w +:+ String ch "") = Some child) as Hw'.
    { unfold twalk in *. rewrite walk_app, Hw. cbn. by rewrite node_at_as_ac; cbn; rewrite E. }
    set (term := terminalKey (trie_node tr child)).
    destruct (IH _ child (if bool_decide (term = "") then best else term) Hw') as [(j & Hj & Hr & HK & Hmax)|[Hr Hno]].
    + left. exists (S j). rewrite !Ew. split_and!; [lia..|done|done|]. intros [|j'] Hj'; [lia|]. rewrite Ew. apply Hmax. lia.
    + rewrite Hr. case_bool_decide as Hterm.
      * right. split; [done|]. intros [|j'] Hj' HK; [lia|]. rewrite Ew in HK. destruct j' as [|j'].
        -- cbn [stake] in HK. rewrite sapp_nil_r in HK. destruct (th_keys _ _ Ht _ HK) as (i & Hi & Hik).
           rewrite Hw' in Hi. injection Hi as <-. unfold term in Hterm. rewrite Hik in Hterm. by destruct w.
        -- apply (Hno (S j')); [lia|done].
      * destruct (th_terminal _ _ _ _ Ht Hw' Hterm) as [Et HK]. left. exists 1%nat. rewrite Ew. cbn [stake].
        rewrite sapp_nil_r. split_and!; [lia..|done|done|]. intros [|[|j']] Hj'; [lia..|]. rewrite Ew. apply Hno. lia.
  - right. split; [done|]. intros j' Hj HK. destruct j' as [|j]; [lia|]. rewrite Ew in HK.
    destruct (th_keys _ _ Ht _ HK) as (i & Hi & _). unfold twalk in *. rewrite !walk_app, Hw in Hi. cbn in Hi.
    rewrite node_at_as_ac in Hi. cbn in Hi. by rewrite E in Hi.
Qed.

(** The reference: the longest key among the non-empty beginnings of the call, tried
    from the whole call down. *)
Definition beginnings (cs : string) : list string := map (fun n => stake n cs) (rev (seq 1 (String.length cs))).

Definition cty_spec (data : gmap string PrefixInfo) (cs : string) : option PrefixInfo :=
  match data !! cs with
  | Some info => Some info
  | None => List.find (fun k => is_some (data !! k)) (beginnings cs) ≫= fun k => data !! k
  end.

Lemma find_beginning (f : string -> bool) cs n :
  (exists j, (1 <= j <= n)%nat /\ f (stake j cs) = true /\ (forall j', (j < j' <= n)%nat -> f (stake j' cs) = false) /\
     List.find f (map (fun n => stake n cs) (rev (seq 1 n))) = Some (stake j cs)) \/
  ((forall j', (1 <= j' <= n)%nat -> f (stake j' cs) = false) /\
     List.find f (map (fun n => stake n cs) (rev (seq 1 n))) = None).
Proof.
  induction n as [|n IH]; [right; split; [lia|done]|]. rewrite seq_S, rev_unit. cbn [map List.find].
  destruct (f (stake (1 + n) cs)) eqn:E.
  - left. exists (S n). split_and!; [lia..|done|lia|done].
  - destruct IH as [(j & Hj & Hf & Hmax & Hfind)|[Hno Hfind]].
    + left. exists j. split_and!; [lia..|done| |done]. intros j' Hj'. destruct (decide (j' = S n)) as [->|]; [done|apply Hmax; lia].
    + right. split; [|done]. intros j' Hj'. destruct (decide (j' = S n)) as [->|]; [done|apply Hno; lia].
Qed.

Lemma stake_ne j s : (1 <= j)%nat -> s <> "" -> stake j s <> "".
Proof. destruct j, s; try done. lia. Qed.

Lemma is_some_elem data k : is_some (data !! k) = true <-> k ∈ (map_to_list data : list (string * PrefixInfo)).*1.
Proof.
  rewrite list_elem_of_fmap. split.
  - destruct (data !! k) as [i|] eqn:E; [|done]. intros _. exists (k, i). split; [done|]. by apply elem_of_map_to_list.
  - intros ([k' i] & -> & Hin%elem_of_map_to_list). cbn. by rewrite Hin.
Qed.

(** C30: The database resolves a call as the search for the longest key that starts it does,
    whatever the keys and the order in which the file lists them. *)
Theorem cty_lookup_longest_prefix raw cs :
  lookupCallsignNoCache (LoadCTYDatabaseFromReader raw) cs = cty_spec (decodeCTYData raw) cs.
Proof.
  unfold lookupCallsignNoCache, cty_spec, LoadCTYDatabaseFromReader. cbn [Data trie]. set (data := decodeCTYData raw).
  destruct (data !! cs) eqn:Ecs; [done|]. set (keys := merge_sort key_before _).
  assert (trie_holds (fun w => w <> "" /\ is_some (data !! w) = true) (buildCTYTrie keys)) as Ht.
  { eapply trie_holds_ext; [|apply buildCTYTrie_holds]. intros w. unfold keys. rewrite merge_sort_Permutation, <- is_some_elem. done. }
  unfold longestPrefixKey. destruct (decide (cs = "")) as [->|Hne]; [rewrite orb_true_r; done|].
  rewrite (bool_decide_eq_false_2 (cs = "")) by done.
  pose proof (wf_pos _ (th_wf _ _ Ht)) as Hpos. rewrite length_fmap in Hpos.
  rewrite bool_decide_eq_false_2 by lia. cbn [orb].
  pose proof (find_beginning (fun k => is_some (data !! k)) cs (String.length cs)) as Hf. cbv beta in Hf. unfold beginnings.
  destruct (longest_walk_spec _ _ cs "" 0 "" Ht eq_refl) as [(j & Hj & -> & [_ HK] & Hmax)|[-> Hno]].
  - change ("" +:+ stake j cs) with (stake j cs) in *. rewrite bool_decide_eq_false_2 by (apply stake_ne; [lia|done]).
    destruct Hf as [(j' & Hj' & Hf & Hmax' & ->)|[Hno _]]; [|rewrite Hno in HK by done; done].
    assert (j = j') as ->.
    { destruct (Nat.lt_total j j') as [?|[?|?]]; [|done|]; exfalso.
      - apply (Hmax j'); [lia|]. split; [by apply stake_ne; [lia|]|done].
      - rewrite (Hmax' j) in HK by lia. done. }
    cbn. by destruct (data !! stake j' cs).
  - rewrite bool_decide_eq_true_2 by done. destruct Hf as [(j' & Hj' & Hf & _ & _)|[_ ->]]; [|done].
    exfalso. apply (Hno j' Hj'). split; [apply stake_ne; [lia|done]|done].
Qed.

(** ** Portable calls *)

(** The order of the segment loop: shorter first, then by bytes. *)
Definition shorter (a b : string) : bool := (len a <? len b) || ((len a =? len b) && String.ltb a b).

Lemma ltb_lt a b : String.ltb a b = true <-> String_as_OT.lt a b.
Proof.
  unfold String.ltb, String_as_OT.lt. change (String_as_OT.compare a b) with (String.compare a b).
  by destruct (String.compare a b).
Qed.

Lemma shorter_irrefl a : shorter a a = false.
Proof.
  unfold shorter. rewrite Z.ltb_irrefl, Z.eqb_refl. cbn. apply not_true_iff_false. rewrite ltb_lt.
  apply (StrictOrder_Irreflexive (R := String_as_OT.lt)).
Qed.

Lemma shorter_trans a b c : shorter a b = true -> shorter b c = true -> shorter a c = true.
Proof.
  unfold shorter. rewrite !orb_true_iff, !andb_true_iff, !Z.ltb_lt, !Z.eqb_eq, !ltb_lt.
  intros [?|[? H1]] [?|[? H2]]; [left; lia..|]. right. split; [lia|].
  by apply (StrictOrder_Transitive (R := String_as_OT.lt) a b c).
Qed.

Lemma shorter_total a b : shorter a b = false -> shorter b a = false -> a = b.
Proof.
  unfold shorter. rewrite !orb_false_iff, !andb_false_iff, !Z.ltb_ge, !Z.eqb_neq, <- !not_true_iff_false, !ltb_lt.
  intros [? [?|H1]] [? [?|H2]]; try lia. unfold String_as_OT.lt in *.
  change (String_as_OT.compare a b) with (String.compare a b) in *.
  change (String_as_OT.compare b a) with (String.compare b a) in *.
  apply String.compare_eq_iff. rewrite String.compare_antisym in H2. by destruct (String.compare a b).
Qed.

(** A segment that counts, with what it resolves to. *)
Definition resolves (db : CTYDatabase) (seg : string) : option (string * PrefixInfo) :=
  let seg := TrimSpace seg in
  if bool_decide (seg = "") then None else (fun i => (seg, i)) <$> lookupCallsignNoCache db seg.

Definition better (best : option (string * PrefixInfo)) (x : option (string * PrefixInfo)) : option (string * PrefixInfo) :=
  match x, best with
  | None, _ => best
  | Some _, None => x
  | Some (s, _), Some (b, _) => if shorter s b then x else best
  end.

Lemma segment_step_better db best seg : segment_step db best seg = better best (resolves db seg).
Proof.
  unfold segment_step, resolves, better. cbv zeta. case_bool_decide; [done|].
  destruct (lookupCallsignNoCache db (TrimSpace seg)); cbn; [|done]. by destruct best as [[]|].
Qed.

(** Two segments of the same text resolve to the same entry. *)
Lemma better_comm db best a b :
  (best = None \/ exists c, best = resolves db c) ->
  better (better best (resolves db a)) (resolves db b) = better (better best (resolves db b)) (resolves db a).
Proof.
  intros Hb. assert (forall x y s i j, resolves db x = Some (s, i) -> resolves db y = Some (s, j) -> i = j) as Hfun.
  { unfold resolves. cbv zeta. intros x y s i j. repeat case_bool_decide; [done..|].
    intros (i' & Hi & E1)%fmap_Some (j' & Hj & E2)%fmap_Some. injection E1 as -> ->. injection E2 as Es ->.
    rewrite <- Es, Hi in Hj. by injection Hj. }
  assert (forall x y, shorter x y = true -> shorter y x = false) as Hasym.
  { intros x y H. apply not_true_iff_false. intros H'. pose proof (shorter_trans _ _ _ H H') as Hxx.
    by rewrite shorter_irrefl in Hxx. }
  destruct (resolves db a) as [[s i]|] eqn:Ea, (resolves db b) as [[t j]|] eqn:Eb; try (by destruct best as [[]|]).
  destruct best as [[u k]|]; cbn.
  - destruct (shorter s u) eqn:E1, (shorter t u) eqn:E2; cbn; rewrite ?E1, ?E2; try done.
    + destruct (shorter t s) eqn:E3, (shorter s t) eqn:E4; try done; [by rewrite Hasym in E4|].
      assert (s = t) as -> by (by apply shorter_total). by rewrite (Hfun a b t i j).
    + destruct (shorter t s) eqn:E3; [|done]. by rewrite (shorter_trans t s u) in E2.
    + destruct (shorter s t) eqn:E3; [|done]. by rewrite (shorter_trans s t u) in E1.
  - destruct (shorter t s) eqn:E3, (shorter s t) eqn:E4; try done; [by rewrite Hasym in E4|].
    assert (s = t) as -> by (by apply shorter_total). by rewrite (Hfun a b t i j).
Qed.

Lemma better_resolved db best a :
  (best = None \/ exists c, best = resolves db c) -> better best (resolves db a) = None \/ exists c, better best (resolves db a) = resolves db c.
Proof.
  intros Hb. destruct (resolves db a) as [[s i]|] eqn:E; cbn.
  - destruct best as [[t j]|]; [destruct (shorter s t); [right; by exists a|done]|right; by exists a].
  - done.
Qed.

Lemma segments_permute db l l' :
  l ≡ₚ l' -> forall best, (best = None \/ exists c, best = resolves db c) ->
  fold_left (segment_step db) l best = fold_left (segment_step db) l' best.
Proof.
  induction 1 as [|x l l' _ IH|x y l|l l' l'' _ IH _ IH']; intros best Hb; cbn [fold_left].
  - done.
  - apply IH. rewrite segment_step_better. by apply better_resolved.
  - rewrite !segment_step_better. by rewrite better_comm.
  - rewrite IH by done. by apply IH'.
Qed.

Lemma Contains_cons c s sub : Contains s sub = true -> Contains (String c s) sub = true.
Proof. intros H. cbn [Contains]. rewrite H. apply orb_true_r. Qed.

Lemma Contains_Join a b l : Contains (Join (a :: b :: l) "/") "/" = true.
Proof.
  cbn [Join]. induction a as [|c a IH]; [done|]. rewrite sapp_cons. by apply Contains_cons.
Qed.

(** Some segment of the call resolves in the database. *)
Definition resolvable (db : CTYDatabase) (segs : list string) : Prop := exists seg, seg ∈ segs /\ resolves db seg <> None.

Lemma segments_found db segs best :
  resolvable db segs \/ best <> None -> fold_left (segment_step db) segs best <> None.
Proof.
  revert best. induction segs as [|s segs IH]; intros best; cbn [fold_left].
  - intros [(x & Hx & _)|?]; [by apply elem_of_nil in Hx|done].
  - intros H. apply IH. rewrite segment_step_better. destruct H as [(x & [->|Hx]%elem_of_cons & Hr)|Hb].
    + right. destruct (resolves db s) as [[]|]; [|done]. cbn. destruct best as [[]|]; [by destruct (shorter _ _)|done].
    + left. by exists x.
    + right. destruct (resolves db s) as [[]|]; cbn; [|done]. destruct best as [[]|]; [by destruct (shorter _ _)|done].
Qed.

(** The country of a portable call does not depend on the order of its segments: a
    call and its prefixes written the other way round (VE3/N2WQ and N2WQ/VE3) resolve
    to the same entry, when one of the segments resolves and neither spelling ends in
    the beacon suffix. *)
Theorem cty_portable_order db segs segs' :
  segs ≡ₚ segs' -> Forall (fun seg => no_byte "/" seg = true) segs -> resolvable db segs ->
  HasSuffix (Join segs "/") "/B" = false -> HasSuffix (Join segs' "/") "/B" = false ->
  lookupCallsignPortableNoCache db (Join segs "/") = lookupCallsignPortableNoCache db (Join segs' "/").
Proof.
  intros Hp Hno Hr HB HB'. destruct segs as [|a [|b segs]].
  - apply Permutation_nil in Hp as ->. done.
  - apply Permutation_length_1_inv in Hp as ->. done.
  - pose proof (Permutation_length Hp) as Hl. destruct segs' as [|a' [|b' segs']]; [done..|].
    assert (forall x y l, Forall (fun seg => no_byte "/" seg = true) (x :: y :: l) ->
      resolvable db (x :: y :: l) -> HasSuffix (Join (x :: y :: l) "/") "/B" = false ->
      lookupCallsignPortableNoCache db (Join (x :: y :: l) "/") = snd <$> fold_left (segment_step db) (x :: y :: l) None) as H.
    { intros x y l Hn Hrs HB0. unfold lookupCallsignPortableNoCache. rewrite HB0, Contains_Join. cbn [negb].
      rewrite split_Join by done. rewrite bool_decide_eq_false_2; [|intros E; pose proof (Contains_Join x y l) as Hc; by rewrite E in Hc].
      pose proof (segments_found db (x :: y :: l) None (or_introl Hrs)) as Hf.
      by destruct (fold_left _ _ None) as [[]|]. }
    rewrite !H; try done; [|by rewrite <- Hp|].
    + f_equal. apply segments_permute; [done|by left].
    + destruct Hr as (x & Hx & Hxr). exists x. by rewrite <- Hp.
Qed.

Definition demo_info (country : string) (adif : Z) : PrefixInfo := mkPrefixInfo country "" adif 5 8 "NA" 0 0 0 false.

Definition demo_cty : CTYDatabase :=
  LoadCTYDatabaseFromReader [("n", demo_info "United States" 291); ("VE", demo_info "Canada" 1); ("VE3", demo_info "Ontario" 1)].

Lemma cty_portable_order_witness :
  lookupCallsignPortableNoCache demo_cty "N2WQ/VE3" = lookupCallsignPortableNoCache demo_cty "VE3/N2WQ".
Proof.
  apply (cty_portable_order demo_cty ["N2WQ"; "VE3"] ["VE3"; "N2WQ"]).
  - apply perm_swap.
  - repeat constructor.
  - exists "VE3". split; [right; left|]. vm_compute. discriminate.
  - reflexivity.
  - reflexivity.
Defined.

Example ve3_is_ontario : lookupCallsignPortableNoCache demo_cty "N2WQ/VE3" = Some (demo_info "Ontario" 1).
Proof. vm_compute. reflexivity. Qed.
