(* ===== verification/License.v ===== *)
(** * License: the FCC license check

    [uls/license_check.go], [uls/cache.go], [uls/allowlist.go] and [cty_filters.go]:
    which call a license is looked up under, the allow list of patterns, the second
    chance cache in front of the database and the lookup with its retries.

    The regular expression library and the SQLite database are not under the
    repository: [compile] and the answers of a query are arguments.  A lookup refuses a
    call only on the database's word ([license_refusal_grounded]); the cache always
    finds a slot and never outgrows its slots ([license_cache_stores]); the shortcuts
    of the allow list do not change what its patterns match ([allowlist_exact]). *)

From S2P Require Import Prelude GoText GoNum GoTime Callsign.

Local Open Scope string_scope.
Local Open Scope list_scope.
Local Open Scope Z_scope.

(** [strings.IndexByte]; [None] stands for -1. *)
Fixpoint IndexByte (s : string) (b : ascii) : option nat :=
  match s with
  | "" => None
  | String c s' => if bool_decide (c = b) then Some 0%nat else S <$> IndexByte s' b
  end.

(** ** The licensed call *)

(** The longest segment with a digit, the first of the longest. *)
Definition license_segment (best : string) (seg : string) : string :=
  let seg := TrimSpace seg in
  if bool_decide (seg = "") || negb (sexists is_digit seg) then best
  else if len best <? len seg then seg else best.

Definition NormalizeForLicense (call : string) : string :=
  let n := normalize_call call in
  if bool_decide (n = "") then ""
  else
    let n := TrimSuffix n "-#" in
    let n :=
      if Contains n "/" then
        let segments := split_byte "/" n in
        let candidate := fold_left license_segment segments "" in
        if negb (bool_decide (candidate = "")) then candidate else default n (head segments)
      else n in
    let n := match IndexByte n "-" with
             | Some (S idx) => stake (S idx) n
             | _ => n
             end in
    TrimSpace n.

(** ** The allow list *)

Record allowlistEntry := mkAllow {
  pattern : string;
  re : option (string -> bool);
  literal : string;
  prefix : string;
  suffix : string;
  minLen : Z;
  maxLen : Z
}.

Notation Allowlist := (gmap string (list allowlistEntry)).

Section Allowlist.
(** [regexp.Compile] with [MatchString]. *)
Variable compile : string -> option (string -> bool).

Definition pattern_bytes : list ascii :=
  ["."; "*"; "+"; "?"; "|"; "("; ")"; "["; "]"; "{"; "}"; "\"; "^"; "$"]%char.

Definition isLiteralPattern (p : string) : bool :=
  negb (bool_decide (p = "")) && sforall (fun c => negb (bool_decide (c ∈ pattern_bytes))) p.

Definition anchoredLiteral (p : string) : option (string * string) :=
  let both := TrimSuffix (TrimPrefix p "^") "$" in
  if HasPrefix p "^" && HasSuffix p "$" && isLiteralPattern both then Some (both, "")
  else
    let front := TrimPrefix p "^" in
    if HasPrefix p "^" && isLiteralPattern front then Some (front, "")
    else
      let back := TrimSuffix p "$" in
      if HasSuffix p "$" && isLiteralPattern back then Some ("", back) else None.

(** [None] is the error. *)
Definition compileAllowlistEntry (p : string) : option allowlistEntry :=
  let p := TrimSpace p in
  if bool_decide (p = "") then None
  else if isLiteralPattern p then
    let lit := ToUpper p in Some (mkAllow p None lit "" "" (len lit) (len lit))
  else
    let '(pre, suf) := default ("", "") (anchoredLiteral p) in
    let pre := ToUpper pre in
    let suf := ToUpper suf in
    match compile p with
    | None => None
    | Some f => Some (mkAllow p (Some f) "" pre suf (len pre + len suf) 0)
    end.

Definition entry_match (e : allowlistEntry) (call : string) : bool :=
  if (0 <? minLen e) && (len call <? minLen e) then false
  else if (0 <? maxLen e) && (maxLen e <? len call) then false
  else if negb (bool_decide (literal e = "")) then bool_decide (call = literal e)
  else if negb (bool_decide (prefix e = "")) && negb (HasPrefix call (prefix e)) then false
  else if negb (bool_decide (suffix e = "")) && negb (HasSuffix call (suffix e)) then false
  else match re e with Some f => f call | None => false end.

Definition allow_match (a : Allowlist) (jurisdiction call : string) : bool :=
  if bool_decide (jurisdiction = "") || bool_decide (call = "") then false
  else match a !! jurisdiction with
       | None => false
       | Some es => existsb (fun e => entry_match e call) es
       end.

Definition jurisdictionKeys (adif : Z) : list string :=
  if adif <=? 0 then [] else if adif =? 291 then ["US"; "ADIF291"] else ["ADIF" +:+ Itoa adif].

Definition AllowlistMatch (al : option Allowlist) (adif : Z) (call : string) : bool :=
  match al with
  | None => false
  | Some a => existsb (fun key => allow_match a key call) (jurisdictionKeys adif)
  end.

Definition AllowlistMatchAny (al : option Allowlist) (call : string) : bool :=
  match al with
  | None => false
  | Some a => if bool_decide (call = "") then false
              else existsb (fun key => allow_match a key call) (map_to_list a).*1
  end.

Definition defaultAllowlistJurisdiction : string := "US".

Definition isJurisdictionToken (token : string) : bool :=
  negb (bool_decide (token = "")) &&
  sforall (fun ch => is_upper ch || is_lower ch || is_digit ch || bool_decide (ch = "_"%char)) token.

Definition digitsOnly (s : string) : bool := negb (bool_decide (s = "")) && sforall is_digit s.

Definition normalizeJurisdictionKey (key : string) : string :=
  let key := upper_trim key in
  if bool_decide (key = "") then defaultAllowlistJurisdiction
  else if digitsOnly key then "ADIF" +:+ key else key.

Definition splitAllowlistLine (line : string) : string * string :=
  match IndexByte line ":" with
  | None | Some O => (defaultAllowlistJurisdiction, line)
  | Some colon =>
      let pre := TrimSpace (stake colon line) in
      if bool_decide (pre = "") || negb (isJurisdictionToken pre) then (defaultAllowlistJurisdiction, line)
      else
        let p := TrimSpace (sdrop (colon + 1) line) in
        if bool_decide (p = "") then (ToUpper pre, "") else (normalizeJurisdictionKey pre, p)
  end.

(** The loop over the lines; an entry that does not compile is an error. *)
Fixpoint load_lines (lines : list string) (acc : Allowlist) : option Allowlist :=
  match lines with
  | [] => Some acc
  | line :: rest =>
      let raw := TrimSpace line in
      if bool_decide (raw = "") || HasPrefix raw "#" then load_lines rest acc
      else
        let '(jKey, p) := splitAllowlistLine raw in
        if bool_decide (p = "") then load_lines rest acc
        else match compileAllowlistEntry p with
             | None => None
             | Some e => load_lines rest (<[jKey := default [] (acc !! jKey) ++ [e]]> acc)
             end
  end.

(** The outer option is the error, the inner one an empty list. *)
Definition LoadAllowlist (lines : list string) : option (option Allowlist) :=
  match load_lines lines ∅ with
  | None => None
  | Some a => Some (if bool_decide (a = ∅) then None else Some a)
  end.
End Allowlist.

(** ** Calls no country issues *)

(** The loop over the bytes, with the letters counted so far. *)
Fixpoint leading_letters (call : string) (threshold count : Z) : bool :=
  match call with
  | "" => threshold <=? count
  | String ch call' =>
      if is_digit ch then threshold <=? count
      else if is_upper ch then if threshold <=? count + 1 then true else leading_letters call' threshold (count + 1)
      else threshold <=? count
  end.

Definition hasLeadingLettersBeforeDigit (call : string) (threshold : Z) : bool :=
  if threshold <=? 0 then false
  else let call := upper_trim call in
       if bool_decide (call = "") then false else leading_letters call threshold 0.

Definition shouldRejectCTYCall (al : option Allowlist) (call : string) : bool :=
  let base := TrimSpace (NormalizeForLicense call) in
  if bool_decide (base = "") then false
  else if AllowlistMatchAny al base then false
  else hasLeadingLettersBeforeDigit base 3.

(** ** The second chance cache *)

Definition defaultLicenseCacheTTL : Z := 6 * hour.
Definition defaultLicenseCacheMaxEntries : Z := 200000.

Record licenseEntry := mkLicenseEntry { e_value : bool; e_at : Z; e_used : bool; e_slot : nat }.

Record ttlCache := mkTtlCache {
  c_ttl : Z;
  c_max : Z;
  c_entries : gmap string licenseEntry;
  c_slots : list string;
  c_hand : nat
}.

Definition newLicenseCache (ttl maxEntries : Z) : ttlCache :=
  let m := positive_else maxEntries defaultLicenseCacheMaxEntries in
  mkTtlCache (positive_else ttl defaultLicenseCacheTTL) m ∅ (replicate (Z.to_nat m) "") 0.

Definition c_expired (c : ttlCache) (e : licenseEntry) (now : Z) : bool :=
  (0 <? c_ttl c) && (c_ttl c <? time_sub now (e_at e)).

Definition deleteEntryLocked (key : string) (e : licenseEntry) (c : ttlCache) : ttlCache :=
  mkTtlCache (c_ttl c) (c_max c) (delete key (c_entries c))
    (if bool_decide (c_slots c !! e_slot e = Some key) then <[e_slot e := ""]> (c_slots c) else c_slots c) (c_hand c).

Definition with_entry (key : string) (e : licenseEntry) (c : ttlCache) : ttlCache :=
  mkTtlCache (c_ttl c) (c_max c) (<[key := e]> (c_entries c)) (c_slots c) (c_hand c).

Definition with_hand (h : nat) (c : ttlCache) : ttlCache :=
  mkTtlCache (c_ttl c) (c_max c) (c_entries c) (c_slots c) h.

Definition mark (used : bool) (e : licenseEntry) : licenseEntry := mkLicenseEntry (e_value e) (e_at e) used (e_slot e).

Definition cache_get (c : ttlCache) (key : string) (now : Z) : option bool * ttlCache :=
  if bool_decide (key = "") then (None, c)
  else
    match c_entries c !! key with
    | None => (None, c)
    | Some e => if c_expired c e now then (None, deleteEntryLocked key e c)
                else (Some (e_value e), with_entry key (mark true e) c)
    end.

Definition next_hand (c : ttlCache) (i : nat) : nat := ((i + 1) mod length (c_slots c))%nat.

(** The hand walks on until it finds a slot to use. *)
Fixpoint clock_loop (limit : nat) (c : ttlCache) (now : Z) : option nat * ttlCache :=
  match limit with
  | O => (None, c)
  | S limit =>
      let idx := c_hand c in
      let c := with_hand (next_hand c idx) c in
      let key := default "" (c_slots c !! idx) in
      if bool_decide (key = "") then (Some idx, c)
      else
        match c_entries c !! key with
        | None => (Some idx, mkTtlCache (c_ttl c) (c_max c) (c_entries c) (<[idx := ""]> (c_slots c)) (c_hand c))
        | Some e =>
            if c_expired c e now then (Some idx, deleteEntryLocked key e c)
            else if e_used e then clock_loop limit (with_entry key (mark false e) c) now
            else (Some idx, deleteEntryLocked key e c)
        end
  end.

Definition free_slot (c : ttlCache) : option nat :=
  List.find (fun idx => bool_decide (c_slots c !! idx = Some ""))
    (map (fun i => (c_hand c + i) mod length (c_slots c))%nat (seq 0 (length (c_slots c)))).

Definition findSlotLocked (c : ttlCache) (now : Z) : option nat * ttlCache :=
  match (if Z.of_nat (size (c_entries c)) <? c_max c then free_slot c else None) with
  | Some idx => (Some idx, with_hand (next_hand c idx) c)
  | None => clock_loop (length (c_slots c) * 2) c now
  end.

Definition cache_set (c : ttlCache) (key : string) (value : bool) (now : Z) : ttlCache :=
  if bool_decide (key = "") then c
  else
    match c_entries c !! key with
    | Some e => with_entry key (mkLicenseEntry value now true (e_slot e)) c
    | None =>
        if (c_max c <=? 0) || bool_decide (length (c_slots c) = 0%nat) then c
        else
          match findSlotLocked c now with
          | (None, c) => c
          | (Some slot, c) =>
              mkTtlCache (c_ttl c) (c_max c) (<[key := mkLicenseEntry value now true slot]> (c_entries c))
                         (<[slot := key]> (c_slots c)) (c_hand c)
          end
    end.

(** ** The lookup *)

(** What one query answers: a row, none, or one of the errors the code tells apart. *)
Inductive query_result := QRow | QNoRow | QLocked | QFatal | QError.

Record licenseState := mkLicense {
  licenseEnabled : bool;
  refreshActive : bool;
  licenseDead : bool;
  loggedDBError : bool;
  licenseCacheTTL : Z;
  licenseCache : ttlCache
}.

Definition with_cache (c : ttlCache) (st : licenseState) : licenseState :=
  mkLicense (licenseEnabled st) (refreshActive st) (licenseDead st) (loggedDBError st) (licenseCacheTTL st) c.

Definition init_license : licenseState :=
  mkLicense true false false false defaultLicenseCacheTTL
    (newLicenseCache defaultLicenseCacheTTL defaultLicenseCacheMaxEntries).

Definition SetLicenseChecksEnabled (enabled : bool) (st : licenseState) : licenseState :=
  mkLicense enabled (refreshActive st) (licenseDead st) (loggedDBError st) (licenseCacheTTL st) (licenseCache st).

Definition SetRefreshInProgress (active : bool) (st : licenseState) : licenseState :=
  mkLicense (licenseEnabled st) active (licenseDead st) (loggedDBError st) (licenseCacheTTL st) (licenseCache st).

Definition SetLicenseCacheTTL (ttl : Z) (st : licenseState) : licenseState :=
  let ttl := positive_else ttl defaultLicenseCacheTTL in
  mkLicense (licenseEnabled st) (refreshActive st) (licenseDead st) (loggedDBError st) ttl
    (newLicenseCache ttl defaultLicenseCacheMaxEntries).

(** The connection is closed, the cache emptied and both flags are cleared. *)
Definition ResetLicenseDB (st : licenseState) : licenseState :=
  mkLicense (licenseEnabled st) (refreshActive st) false false (licenseCacheTTL st)
    (newLicenseCache (positive_else (licenseCacheTTL st) defaultLicenseCacheTTL) defaultLicenseCacheMaxEntries).

Definition set_dead (st : licenseState) : licenseState :=
  mkLicense (licenseEnabled st) (refreshActive st) true (loggedDBError st) (licenseCacheTTL st) (licenseCache st).

Definition set_logged (st : licenseState) : licenseState :=
  mkLicense (licenseEnabled st) (refreshActive st) (licenseDead st) true (licenseCacheTTL st) (licenseCache st).

Definition retries : nat := 5.

(** The retry loop from [attempt] on; [answer] is what each attempt gives. *)
Fixpoint query_loop (n attempt : nat) (answer : nat -> query_result) (st : licenseState) : bool * licenseState :=
  match n with
  | O => (true, st)
  | S n =>
      match answer attempt with
      | QRow => (true, st)
      | QNoRow => (false, st)
      | QLocked => if (attempt <? retries - 1)%nat then query_loop n (S attempt) answer st else (true, set_logged st)
      | QFatal => (true, ResetLicenseDB (set_dead (set_logged st)))
      | QError => (true, set_logged st)
      end
  end.

Definition licenseCacheKey (jurisdiction call : string) : string :=
  if bool_decide (jurisdiction = "") then call else jurisdiction +:+ ":" +:+ call.

(** [db] is [None] when no database is open, else what the attempts give. *)
Definition IsLicensedUS (st : licenseState) (call : string) (db : option (nat -> query_result)) (now : Z)
    : bool * licenseState :=
  if negb (licenseEnabled st) then (true, st)
  else if refreshActive st then (true, st)
  else if licenseDead st then (true, st)
  else
    let canonical := NormalizeForLicense call in
    if bool_decide (canonical = "") then (true, st)
    else
      let key := licenseCacheKey "US" canonical in
      match cache_get (licenseCache st) key now with
      | (Some cached, c) => (cached, with_cache c st)
      | (None, c) =>
          let st := with_cache c st in
          let '(allow, st) := match db with
                              | None => (true, st)
                              | Some answer => query_loop retries 0 answer st
                              end in
          (allow, with_cache (cache_set (licenseCache st) key allow now) st)
      end.

(** ** The cache keeps its promises *)

(** Slots and entries name each other. *)
Record cache_ok (c : ttlCache) : Prop := {
  ok_len : Z.of_nat (length (c_slots c)) = c_max c;
  ok_pos : (0 < length (c_slots c))%nat;
  ok_hand : (c_hand c < length (c_slots c))%nat;
  ok_entry : forall k e, c_entries c !! k = Some e -> k <> "" /\ c_slots c !! e_slot e = Some k;
  ok_slot : forall i k, c_slots c !! i = Some k -> k <> "" -> exists e, c_entries c !! k = Some e /\ e_slot e = i;
  ok_ttl : 0 < c_ttl c
}.

Lemma new_cache_ok ttl m : cache_ok (newLicenseCache ttl m).
Proof.
  unfold newLicenseCache. pose proof (positive_else_pos m defaultLicenseCacheMaxEntries ltac:(compute_goal)) as Hp.
  pose proof (positive_else_pos ttl defaultLicenseCacheTTL ltac:(compute_goal)) as Ht.
  set (n := positive_else m defaultLicenseCacheMaxEntries) in *. clearbody n.
  split; cbn; rewrite ?length_replicate; try lia.
  - intros k e. by rewrite lookup_empty.
  - intros i k [-> _]%lookup_replicate. done.
Qed.

Lemma with_hand_ok h c : cache_ok c -> (h < length (c_slots c))%nat -> cache_ok (with_hand h c).
Proof. intros [? ? ? ? ? ?] Hh. split; done. Qed.

Lemma next_hand_lt c i : cache_ok c -> (next_hand c i < length (c_slots c))%nat.
Proof. intros Hok. apply Nat.mod_upper_bound. pose proof (ok_pos _ Hok). lia. Qed.

Lemma with_entry_ok k e e' c :
  cache_ok c -> c_entries c !! k = Some e -> e_slot e' = e_slot e -> cache_ok (with_entry k e' c).
Proof.
  intros [H1 H2 H3 H4 H5 H6] He Hs. split; cbn; try done.
  - intros k' x. rewrite lookup_insert_Some. intros [[<- <-]|[_ Hx]]; [rewrite Hs; by apply H4|by apply H4].
  - intros i k' Hi Hne. destruct (H5 i k' Hi Hne) as (x & Hx & Hxi). destruct (decide (k' = k)) as [->|Hk].
    + exists e'. rewrite lookup_insert_eq. split; [done|]. congruence.
    + exists x. by rewrite lookup_insert_ne.
Qed.

Lemma delete_entry_ok k e c :
  cache_ok c -> c_entries c !! k = Some e ->
  cache_ok (deleteEntryLocked k e c) /\ c_slots (deleteEntryLocked k e c) !! e_slot e = Some "".
Proof.
  intros [H1 H2 H3 H4 H5 H6] He. destruct (H4 k e He) as [Hk Hs]. unfold deleteEntryLocked. rewrite bool_decide_eq_true_2 by done.
  split; [split; cbn; rewrite ?length_insert; try done|].
  - intros k' x [Hne Hx]%lookup_delete_Some. destruct (H4 k' x Hx) as [Hk' Hs']. split; [done|].
    rewrite list_lookup_insert_ne; [done|]. intros E. rewrite E in Hs. congruence.
  - intros i k' Hi Hne. destruct (decide (i = e_slot e)) as [->|Hie].
    + rewrite list_lookup_insert_eq in Hi by (by eapply lookup_lt_Some). injection Hi as <-. done.
    + rewrite list_lookup_insert_ne in Hi by done. destruct (H5 i k' Hi Hne) as (x & Hx & Hxi). exists x.
      split; [|done]. rewrite lookup_delete_ne; [done|]. intros <-. congruence.
  - cbn. apply list_lookup_insert_eq. by eapply lookup_lt_Some.
Qed.

(** No more entries than slots. *)
Lemma cache_bounded c : cache_ok c -> (size (c_entries c) <= length (c_slots c))%nat.
Proof.
  intros Hok. rewrite <- size_dom, <- (length_map id (c_slots c)), map_id. unfold size, set_size. cbn.
  apply submseteq_length, NoDup_submseteq; [apply NoDup_elements|]. intros k Hk%elem_of_elements%elem_of_dom.
  destruct Hk as [e He]. apply (ok_entry _ Hok) in He as [_ Hs]. by eapply list_elem_of_lookup_2.
Qed.

(** The entries of [c'] are entries of [c], up to their use marks. *)
Definition cache_sub (c' c : ttlCache) : Prop :=
  forall k e, c_entries c' !! k = Some e ->
    exists e0, c_entries c !! k = Some e0 /\ e_value e = e_value e0 /\ e_at e = e_at e0.

Definition same_params (c' c : ttlCache) : Prop := c_ttl c' = c_ttl c /\ c_max c' = c_max c.

Lemma cache_sub_trans a b c : cache_sub a b -> cache_sub b c -> cache_sub a c.
Proof. intros H1 H2 k e He. destruct (H1 k e He) as (e0 & He0 & ? & ?). destruct (H2 k e0 He0) as (e1 & ? & ? & ?). exists e1. split_and!; congruence. Qed.

Lemma cache_sub_delete k e c : cache_sub (deleteEntryLocked k e c) c.
Proof. intros k' x. cbn. intros [_ Hx]%lookup_delete_Some. by exists x. Qed.

Lemma cache_sub_mark k e c b : c_entries c !! k = Some e -> cache_sub (with_entry k (mark b e) c) c.
Proof. intros He k' x. cbn. rewrite lookup_insert_Some. intros [[<- <-]|[_ ?]]; [by exists e|by exists x]. Qed.

Definition used_count (c : ttlCache) : nat := size (filter (fun p => e_used p.2 = true) (c_entries c)).

Lemma used_count_mark k e c :
  c_entries c !! k = Some e -> e_used e = true -> used_count c = S (used_count (with_entry k (mark false e) c)).
Proof.
  intros He Hu. unfold used_count. cbn [with_entry c_entries].
  rewrite map_filter_insert_False by done. rewrite map_filter_delete.
  assert (filter (fun p => e_used p.2 = true) (c_entries c) !! k = Some e) as Hf by (by apply map_lookup_filter_Some).
  rewrite <- (insert_delete_id _ k e Hf) at 1. by rewrite map_size_insert_None by apply lookup_delete_eq.
Qed.

(** What finding a slot leaves. *)
Record slot_found (idx : nat) (c' c : ttlCache) : Prop := {
  sf_ok : cache_ok c';
  sf_free : c_slots c' !! idx = Some "";
  sf_sub : cache_sub c' c;
  sf_params : same_params c' c
}.

Lemma clock_loop_found limit c now :
  cache_ok c -> (used_count c < limit)%nat -> exists idx c', clock_loop limit c now = (Some idx, c') /\ slot_found idx c' c.
Proof.
  revert c. induction limit as [|limit IH]; intros c Hok Hu; [lia|]. cbn [clock_loop].
  set (idx := c_hand c). set (c1 := with_hand (next_hand c idx) c).
  assert (cache_ok c1) as Hok1 by (apply with_hand_ok; [done|by apply next_hand_lt]).
  assert (cache_sub c1 c) as Hs1 by (intros k e He; by exists e).
  assert (same_params c1 c) as Hp1 by done.
  destruct (lookup_lt_is_Some_2 (c_slots c) idx (ok_hand _ Hok)) as [key Hkey].
  change (c_slots c1) with (c_slots c). rewrite Hkey. cbn [default from_option id].
  case_bool_decide as Hk; [subst; eexists _, _; split; [done|]; by split|].
  destruct (ok_slot _ Hok1 idx key Hkey Hk) as (e & He & Hei). rewrite He.
  destruct (delete_entry_ok _ _ _ Hok1 He) as [Hd1 Hd2]. rewrite Hei in Hd2.
  assert (slot_found idx (deleteEntryLocked key e c1) c) as Hdel.
  { split; [done..|eapply cache_sub_trans; [apply cache_sub_delete|done]|done]. }
  destruct (c_expired c1 e now); [by eexists _, _|]. destruct (e_used e) eqn:Eu; [|by eexists _, _].
  destruct (IH (with_entry key (mark false e) c1)) as (i & c' & Hc' & Hf).
  - by eapply with_entry_ok.
  - change (used_count c) with (used_count c1) in Hu. rewrite (used_count_mark key e) in Hu by done. lia.
  - exists i, c'. split; [done|]. destruct Hf as [? ? Hs [? ?]]. split; try done.
    eapply cache_sub_trans; [done|]. eapply cache_sub_trans; [by apply cache_sub_mark|done].
Qed.

Lemma findSlot_found c now : cache_ok c -> exists idx c', findSlotLocked c now = (Some idx, c') /\ slot_found idx c' c.
Proof.
  intros Hok. unfold findSlotLocked.
  assert (exists idx c', clock_loop (length (c_slots c) * 2) c now = (Some idx, c') /\ slot_found idx c' c) as Hclock.
  { apply clock_loop_found; [done|]. pose proof (cache_bounded c Hok). pose proof (ok_pos _ Hok).
    unfold used_count. pose proof (map_size_filter (fun p => e_used p.2 = true) (c_entries c)). lia. }
  destruct (_ <? _); [|done]. destruct (free_slot c) as [idx|] eqn:E; [|done].
  apply find_some in E as [_ E]. boolify. eexists _, _. split; [done|].
  split; [apply with_hand_ok; [done|by apply next_hand_lt]|done|intros k e He; by exists e|done].
Qed.

Lemma cache_get_spec c k now :
  cache_ok c ->
  let '(r, c') := cache_get c k now in
  cache_ok c' /\ same_params c' c /\ cache_sub c' c /\
  (forall v, r = Some v -> exists e, c_entries c !! k = Some e /\ e_value e = v /\ c_expired c e now = false).
Proof.
  intros Hok. assert (cache_sub c c) as Hrefl by (intros ? e ?; by exists e). unfold cache_get. case_bool_decide; [done|].
  destruct (c_entries c !! k) as [e|] eqn:He; [|done]. destruct (c_expired c e now) eqn:Ex.
  - split_and!; [by apply delete_entry_ok|done..|apply cache_sub_delete|done].
  - split_and!; [by eapply with_entry_ok|done..|by apply cache_sub_mark|]. intros v [= <-]. by exists e.
Qed.

(** What a set leaves: the key with its value, other keys as they were or gone. *)
Record stored (k : string) (v : bool) (now : Z) (c' c : ttlCache) : Prop := {
  st_ok : cache_ok c';
  st_params : same_params c' c;
  st_key : exists e, c_entries c' !! k = Some e /\ e_value e = v /\ e_at e = now;
  st_others : forall k' e, k' <> k -> c_entries c' !! k' = Some e ->
    exists e0, c_entries c !! k' = Some e0 /\ e_value e = e_value e0 /\ e_at e = e_at e0
}.

Lemma cache_set_stored c k v now : cache_ok c -> k <> "" -> stored k v now (cache_set c k v now) c.
Proof.
  intros Hok Hk. unfold cache_set. rewrite bool_decide_eq_false_2 by done.
  destruct (c_entries c !! k) as [e|] eqn:He.
  - split; [by eapply with_entry_ok|done|eexists; cbn; by rewrite lookup_insert_eq|].
    intros k' x Hne. cbn. rewrite lookup_insert_ne by done. intros Hx. by exists x.
  - pose proof (ok_pos _ Hok) as Hpos. pose proof (ok_len _ Hok) as Hlen.
    rewrite (proj2 (Z.leb_gt _ _)) by lia. rewrite bool_decide_eq_false_2 by lia. cbn [orb].
    destruct (findSlot_found c now Hok) as (idx & c1 & -> & [Hok1 Hfree Hsub Hp]).
    assert (c_entries c1 !! k = None) as Hnone.
    { destruct (c_entries c1 !! k) as [x|] eqn:Hx; [|done]. destruct (Hsub k x Hx) as (? & ? & _). congruence. }
    pose proof Hok1 as [H1 H2 H3 H4 H5 H6]. split; [split; cbn; rewrite ?length_insert; try done|done|eexists; cbn; by rewrite lookup_insert_eq|].
    + intros k' x. rewrite lookup_insert_Some. intros [[<- <-]|[Hne Hx]].
      * split; [done|]. apply list_lookup_insert_eq. by eapply lookup_lt_Some.
      * destruct (H4 k' x Hx) as [? Hs]. split; [done|]. rewrite list_lookup_insert_ne; [done|]. intros E. rewrite <- E in Hs. congruence.
    + intros i k' Hi Hne. destruct (decide (i = idx)) as [->|Hii].
      * rewrite list_lookup_insert_eq in Hi by (by eapply lookup_lt_Some). injection Hi as <-.
        eexists. by rewrite lookup_insert_eq.
      * rewrite list_lookup_insert_ne in Hi by done. destruct (H5 i k' Hi Hne) as (x & Hx & Hxi). exists x.
        rewrite lookup_insert_ne; [done|]. intros ->. congruence.
    + intros k' x Hne. cbn. rewrite lookup_insert_ne by done. apply Hsub.
Qed.

Inductive cache_op := CGet (key : string) (now : Z) | CSet (key : string) (v : bool) (now : Z).

Definition cache_step (c : ttlCache) (o : cache_op) : ttlCache :=
  match o with
  | CGet k now => (cache_get c k now).2
  | CSet k v now => cache_set c k v now
  end.

Lemma cache_run_ok ops c : cache_ok c -> cache_ok (fold_left cache_step ops c) /\ same_params (fold_left cache_step ops c) c.
Proof.
  revert c. induction ops as [|o ops IH]; intros c Hok; [done|]. cbn [fold_left].
  assert (cache_ok (cache_step c o) /\ same_params (cache_step c o) c) as [Hok' [Hp1 Hp2]].
  { destruct o as [k now|k v now]; cbn [cache_step].
    - pose proof (cache_get_spec c k now Hok) as H. destruct (cache_get c k now). cbn. tauto.
    - destruct (decide (k = "")) as [->|Hk]; [done|]. destruct (cache_set_stored c k v now Hok Hk). done. }
  destruct (IH _ Hok') as [? [? ?]]. split; [done|]. split; congruence.
Qed.

(** The second chance cache, after any lookups and insertions: it never holds more
    entries than its limit, the hand always finds a slot for a new key (within two
    rounds), so a value just stored is found for as long as its time to live. *)
Theorem license_cache_stores ttl maxEntries ops key v now now' :
  key <> "" ->
  let c := fold_left cache_step ops (newLicenseCache ttl maxEntries) in
  time_sub now' now <= c_ttl c ->
  Z.of_nat (size (c_entries c)) <= c_max c /\ (cache_get (cache_set c key v now) key now').1 = Some v.
Proof.
  intros Hk c Ht. destruct (cache_run_ok ops _ (new_cache_ok ttl maxEntries)) as [Hok _]. fold c in Hok. split.
  - rewrite <- (ok_len _ Hok). pose proof (cache_bounded c Hok). lia.
  - destruct (cache_set_stored c key v now Hok Hk) as [Hok' [Ep _] (e & He & Hv & Hat) _].
    unfold cache_get. rewrite bool_decide_eq_false_2 by done. rewrite He.
    unfold c_expired. rewrite Ep, Hat, (proj2 (Z.ltb_ge (c_ttl c) _)) by done. rewrite andb_false_r. cbn. by rewrite Hv.
Qed.

Lemma license_cache_stores_witness :
  Z.of_nat (size (c_entries (fold_left cache_step [CSet "US:W1AW" true 0; CSet "US:N2WQ" true 1; CGet "US:W1AW" 2] (newLicenseCache 0 2)))) <= 2 /\
  (cache_get (cache_set (fold_left cache_step [CSet "US:W1AW" true 0; CSet "US:N2WQ" true 1; CGet "US:W1AW" 2] (newLicenseCache 0 2)) "US:K1ABC" false 3) "US:K1ABC" 4).1
  = Some false.
Proof.
  apply (license_cache_stores 0 2 [CSet "US:W1AW" true 0; CSet "US:N2WQ" true 1; CGet "US:W1AW" 2] "US:K1ABC" false 3 4); vm_compute; discriminate.
Defined.

(** ** Refusals *)

(** The attempts end with the answer that the call is not in the table. *)
Definition says_absent (db : option (nat -> query_result)) : Prop :=
  exists answer n, db = Some answer /\ (n < retries)%nat /\ answer n = QNoRow /\ forall m, (m < n)%nat -> answer m = QLocked.

Inductive license_op :=
  | LLookup (call : string) (db : option (nat -> query_result)) (now : Z)
  | LEnable (enabled : bool)
  | LRefresh (active : bool)
  | LTtl (ttl : Z)
  | LReset.

Definition license_step (st : licenseState) (o : license_op) : licenseState :=
  match o with
  | LLookup call db now => (IsLicensedUS st call db now).2
  | LEnable b => SetLicenseChecksEnabled b st
  | LRefresh b => SetRefreshInProgress b st
  | LTtl ttl => SetLicenseCacheTTL ttl st
  | LReset => ResetLicenseDB st
  end.

Definition license_run (ops : list license_op) : licenseState := fold_left license_step ops init_license.

(** A lookup of [call] at [t] whose query found no row. *)
Definition absent_at (call : string) (t : Z) (o : license_op) : Prop :=
  exists call' db, o = LLookup call' db t /\ NormalizeForLicense call' = NormalizeForLicense call /\ says_absent db.

Definition grounded (ops : list license_op) (c : ttlCache) : Prop :=
  forall k e, c_entries c !! k = Some e -> e_value e = false ->
    exists call o, k = licenseCacheKey "US" (NormalizeForLicense call) /\ o ∈ ops /\ absent_at call (e_at e) o.

Definition license_ok (ops : list license_op) (st : licenseState) : Prop :=
  cache_ok (licenseCache st) /\ grounded ops (licenseCache st).

Lemma query_loop_spec n attempt answer st :
  (attempt + n = retries)%nat -> (forall m, (m < attempt)%nat -> answer m = QLocked) ->
  let '(allow, st') := query_loop n attempt answer st in
  (allow = false -> says_absent (Some answer)) /\
  (licenseCache st' = licenseCache st \/ exists ttl, licenseCache st' = newLicenseCache ttl defaultLicenseCacheMaxEntries).
Proof.
  revert attempt. induction n as [|n IH]; intros attempt Hn Hm; cbn [query_loop]; [by split; [|left]|].
  destruct (answer attempt) eqn:E.
  - by split; [|left].
  - split; [|by left]. intros _. exists answer, attempt. split_and!; [done|lia|done|done].
  - destruct (Nat.ltb_spec attempt (retries - 1)).
    + apply IH; [lia|]. intros m Hlt. destruct (decide (m = attempt)) as [->|]; [done|]. apply Hm. lia.
    + by split; [|left].
  - split; [done|]. right. by eexists.
  - by split; [|left].
Qed.

Lemma grounded_new ops ttl m : grounded ops (newLicenseCache ttl m).
Proof. intros k e. unfold newLicenseCache. cbn. by rewrite lookup_empty. Qed.

Lemma grounded_mono ops ops' c : (forall o, o ∈ ops -> o ∈ ops') -> grounded ops c -> grounded ops' c.
Proof. intros Hs Hg k e He Hv. destruct (Hg k e He Hv) as (call & o & ? & ? & ?). exists call, o. auto. Qed.

Lemma grounded_sub ops c c' : cache_sub c' c -> grounded ops c -> grounded ops c'.
Proof.
  intros Hs Hg k e He Hv. destruct (Hs k e He) as (e0 & He0 & Hv0 & Ha). rewrite Ha. apply (Hg k e0 He0). congruence.
Qed.

Lemma license_key_inj a b : licenseCacheKey "US" a = licenseCacheKey "US" b -> a = b.
Proof. unfold licenseCacheKey. cbn. intros [= H]. exact H. Qed.

Lemma grounded_stored ops k v now c' c :
  stored k v now c' c -> grounded ops c ->
  (v = false -> exists call o, k = licenseCacheKey "US" (NormalizeForLicense call) /\ o ∈ ops /\ absent_at call now o) ->
  grounded ops c'.
Proof.
  intros [_ _ (e0 & He0 & Hv0 & Ha0) Ho] Hg Hnew k' e He Hv. destruct (decide (k' = k)) as [->|Hne].
  - rewrite He0 in He. injection He as <-. rewrite Ha0. apply Hnew. congruence.
  - destruct (Ho k' e Hne He) as (x & Hx & Hvx & Hax). rewrite Hax. apply (Hg k' x Hx). congruence.
Qed.

(** One lookup: what it leaves and why it refuses. *)
Lemma lookup_spec ops st call db now :
  license_ok ops st ->
  let '(allow, st') := IsLicensedUS st call db now in
  license_ok (ops ++ [LLookup call db now]) st' /\
  (allow = false -> licenseEnabled st = true /\ refreshActive st = false /\
     exists o t, o ∈ ops ++ [LLookup call db now] /\ absent_at call t o /\ (t = now \/ time_sub now t <= c_ttl (licenseCache st))).
Proof.
  intros [Hok Hg]. set (ops' := ops ++ [LLookup call db now]).
  assert (forall o, o ∈ ops -> o ∈ ops') as Hops by (intros; apply elem_of_app; by left).
  assert (LLookup call db now ∈ ops') as Hthis by (apply elem_of_app; right; by left).
  assert (license_ok ops' st) as Hsame by (split; [done|by eapply grounded_mono]).
  unfold IsLicensedUS. destruct (licenseEnabled st); [|done]. destruct (refreshActive st); [done|].
  destruct (licenseDead st); [done|]. cbn [negb]. case_bool_decide as Hc; [done|].
  set (key := licenseCacheKey "US" (NormalizeForLicense call)).
  pose proof (cache_get_spec (licenseCache st) key now Hok) as Hget.
  destruct (cache_get (licenseCache st) key now) as [r c]. destruct Hget as (Hokc & _ & Hsub & Hr).
  assert (grounded ops' c) as Hgc by (eapply grounded_sub; [done|by apply Hsame]).
  destruct r as [cached|].
  - split; [by split|]. intros ->. split_and!; [done..|]. destruct (Hr false eq_refl) as (e & He & Hv & Hx).
    destruct (Hg key e He Hv) as (call' & o & Hkey & Ho & Ha). apply license_key_inj in Hkey.
    exists o, (e_at e). split_and!; [by apply Hops| |].
    + destruct Ha as (call'' & db' & ? & ? & ?). exists call'', db'. split_and!; [done|congruence|done].
    + right. unfold c_expired in Hx. destruct (Z.ltb_spec (c_ttl (licenseCache st)) (time_sub now (e_at e))); [|done].
      apply andb_false_iff in Hx as [Hx|Hx]; boolify; [|lia]. pose proof (ok_ttl _ Hok). lia.
  - assert (let '(allow, st1) := match db with None => (true, with_cache c st) | Some answer => query_loop retries 0 answer (with_cache c st) end in
      (allow = false -> says_absent db) /\ cache_ok (licenseCache st1) /\ grounded ops' (licenseCache st1)) as Hq.
    { destruct db as [answer|]; [|done]. pose proof (query_loop_spec retries 0 answer (with_cache c st) eq_refl ltac:(lia)) as Hq.
      destruct (query_loop _ _ _ _) as [allow st1]. destruct Hq as [? [->|[ttl ->]]]; (split; [done|]); [done|].
      split; [apply new_cache_ok|apply grounded_new]. }
    destruct (match db with None => _ | Some _ => _ end) as [allow st1]. destruct Hq as (Hno & Hok1 & Hg1).
    assert (key <> "") as Hk by done.
    pose proof (cache_set_stored (licenseCache st1) key allow now Hok1 Hk) as Hst. split; [split|].
    + apply Hst.
    + cbn. eapply grounded_stored; [done..|]. intros Hf. exists call, (LLookup call db now). split_and!; [done..|].
      exists call, db. split_and!; [done..|by apply Hno].
    + intros Hf. split_and!; [done..|]. exists (LLookup call db now), now. split_and!; [done| |by left].
      exists call, db. split_and!; [done..|by apply Hno].
Qed.

Lemma license_run_ok ops : license_ok ops (license_run ops).
Proof.
  unfold license_run. rewrite <- (app_nil_l ops) at 1. assert (license_ok [] init_license) as H by (split; [apply new_cache_ok|apply grounded_new]).
  revert H. generalize init_license, (@nil license_op). induction ops as [|o ops IH]; intros st hist [Hok Hg]; [by rewrite app_nil_r|].
  cbn [fold_left]. replace (hist ++ o :: ops) with ((hist ++ [o]) ++ ops) by (by rewrite <- app_assoc). apply IH.
  assert (forall x, x ∈ hist -> x ∈ hist ++ [o]) as Hmono by (intros; apply elem_of_app; by left).
  assert (license_ok (hist ++ [o]) st) as Hsame by (split; [done|by eapply grounded_mono]).
  destruct o as [call db now|b|b|ttl|]; cbn [license_step]; [|done|done|by split; [apply new_cache_ok|apply grounded_new]..].
  pose proof (lookup_spec hist st call db now (conj Hok Hg)) as H. destruct (IsLicensedUS st call db now). tauto.
Qed.

(** The license check fails open.  After any lookups, toggles and resets, a call is
    refused only when checks are enabled and no refresh runs, and because a lookup of
    the same licensed call - this one, or one no older than the time to live of the
    cache - found no row in the table after nothing but locked answers: no other
    error, missing database or evicted entry ever refuses a call. *)
Theorem license_refusal_grounded ops call db now :
  (IsLicensedUS (license_run ops) call db now).1 = false ->
  licenseEnabled (license_run ops) = true /\ refreshActive (license_run ops) = false /\
  exists o t, o ∈ ops ++ [LLookup call db now] /\ absent_at call t o /\
    (t = now \/ time_sub now t <= c_ttl (licenseCache (license_run ops))).
Proof.
  intros Hf. pose proof (lookup_spec ops _ call db now (license_run_ok ops)) as H.
  destruct (IsLicensedUS (license_run ops) call db now) as [allow st']. cbn in Hf. subst allow. by apply H.
Qed.

Definition locked_then_absent (n : nat) : query_result := match n with O => QLocked | _ => QNoRow end.

Definition small_ops : list license_op := [LTtl (60 * second)].

Lemma license_refusal_grounded_witness :
  exists o t, o ∈ small_ops ++ [LLookup "W9XYZ" (Some locked_then_absent) 7] /\ absent_at "W9XYZ" t o.
Proof.
  destruct (license_refusal_grounded small_ops "W9XYZ" (Some locked_then_absent) 7) as (_ & _ & o & t & Ho & Ha & _).
  - reflexivity.
  - by exists o, t.
Defined.

(** ** The shortcuts of the allow list *)

Section AllowlistFacts.
Variable compile : string -> option (string -> bool).
(** What the regular expression library documents for anchored literals. *)
Hypothesis re_both : forall lit f call, isLiteralPattern lit = true -> compile ("^" +:+ lit +:+ "$") = Some f -> f call = bool_decide (call = lit).
Hypothesis re_front : forall lit f call, isLiteralPattern lit = true -> compile ("^" +:+ lit) = Some f -> f call = HasPrefix call lit.
Hypothesis re_back : forall lit f call, isLiteralPattern lit = true -> compile (lit +:+ "$") = Some f -> f call = HasSuffix call lit.

Lemma HasPrefix_len s pre : HasPrefix s pre = true -> len pre <= len s.
Proof. rewrite HasPrefix_spec. intros [t ->]. rewrite len_sapp. unfold len. lia. Qed.

Lemma HasSuffix_len s suf : HasSuffix s suf = true -> len suf <= len s.
Proof. rewrite HasSuffix_spec. intros [t ->]. rewrite len_sapp. unfold len. lia. Qed.

Lemma ToUpper_app_inv a b : ToUpper (a +:+ b) = a +:+ b -> ToUpper a = a /\ ToUpper b = b.
Proof.
  rewrite ToUpper_sapp. revert a. induction a as [|c a IH]; [done|]. intros [= Hc Ha]. destruct (IH Ha) as [E1 E2].
  split; [|exact E2]. cbn. f_equal; [exact Hc|exact E1].
Qed.

Lemma anchored_shape p pre suf :
  anchoredLiteral p = Some (pre, suf) ->
  (p = "^" +:+ pre +:+ "$" /\ suf = "" /\ isLiteralPattern pre = true) \/
  (p = "^" +:+ pre /\ suf = "" /\ isLiteralPattern pre = true) \/
  (p = suf +:+ "$" /\ pre = "" /\ isLiteralPattern suf = true).
Proof.
  unfold anchoredLiteral. destruct (HasPrefix p "^") eqn:Hp; cbn [andb].
  - apply HasPrefix_spec in Hp as [t ->]. rewrite TrimPrefix_app.
    destruct (HasSuffix ("^" +:+ t) "$") eqn:Hs; cbn [andb].
    + destruct t as [|t c _] using string_snoc_ind; [done|]. rewrite <- sapp_assoc, HasSuffix_snoc in Hs. boolify. subst c.
      rewrite TrimSuffix_app. destruct (isLiteralPattern t) eqn:El; [intros [= <- <-]; auto|].
      destruct (isLiteralPattern (t +:+ "$")) eqn:Ef; [intros [= <- <-]; auto|].
      rewrite <- sapp_assoc, TrimSuffix_app. destruct (isLiteralPattern ("^" +:+ t)) eqn:Eb; [done|done].
    + destruct (isLiteralPattern t) eqn:El; [intros [= <- <-]; auto|done].
  - destruct (HasSuffix p "$") eqn:Hs; cbn [andb]; [|done]. apply HasSuffix_spec in Hs as [t ->]. rewrite TrimSuffix_app.
    destruct (isLiteralPattern t) eqn:El; [intros [= <- <-]; auto|done].
Qed.

(** What a pattern is meant to match. *)
Definition pattern_matches (p call : string) : bool :=
  if isLiteralPattern p then bool_decide (call = p) else match compile p with Some f => f call | None => false end.

Lemma entry_match_exact p e call :
  ToUpper p = p -> TrimSpace p = p -> compileAllowlistEntry compile p = Some e -> entry_match e call = pattern_matches p call.
Proof.
  intros Hu Ht. unfold compileAllowlistEntry, pattern_matches. rewrite Ht. case_bool_decide as Hp; [done|].
  destruct (isLiteralPattern p) eqn:Elit.
  - intros [= <-]. unfold entry_match. cbn [minLen maxLen literal]. rewrite Hu, (bool_decide_eq_false_2 (p = "")) by done. cbn [negb].
    destruct (bool_decide_reflect (call = p)) as [->|]; [|by repeat case_match].
    rewrite Z.ltb_irrefl, !andb_false_r. done.
  - destruct (anchoredLiteral p) as [[pre suf]|] eqn:Ea; cbn [default from_option id].
    + destruct (compile p) as [f|] eqn:Ec; [|done]. intros [= <-]. unfold entry_match. cbn [minLen maxLen literal prefix suffix re].
      rewrite (bool_decide_eq_true_2 ("" = "")) by done. cbn [negb andb Z.ltb Z.compare].
      apply anchored_shape in Ea as [(-> & -> & El)|[(-> & -> & El)|(-> & -> & El)]].
      * apply ToUpper_app_inv in Hu as [_ Hu]. apply ToUpper_app_inv in Hu as [Hu _]. rewrite Hu.
        rewrite (re_both pre f call El Ec). destruct (bool_decide_reflect (call = pre)) as [->|]; [|by repeat case_match].
        change (len (ToUpper "")) with 0. rewrite Z.add_0_r.
        rewrite Z.ltb_irrefl, andb_false_r. cbn [ToUpper smap].
        assert (HasPrefix pre pre = true) as -> by (apply HasPrefix_spec; exists ""; by rewrite sapp_nil_r).
        cbn [negb]. rewrite !andb_false_r. done.
      * apply ToUpper_app_inv in Hu as [_ Hu]. rewrite Hu, (re_front pre f call El Ec).
        change (len (ToUpper "")) with 0. rewrite Z.add_0_r. cbn [ToUpper smap].
        destruct (HasPrefix call pre) eqn:Eh; [|by repeat case_match]. apply HasPrefix_len in Eh as Hl.
        rewrite (proj2 (Z.ltb_ge (len call) _)) by lia. rewrite andb_false_r. cbn [negb]. rewrite andb_false_r. done.
      * apply ToUpper_app_inv in Hu as [Hu _]. rewrite Hu, (re_back suf f call El Ec). change (len (ToUpper "")) with 0. rewrite Z.add_0_l.
        destruct (HasSuffix call suf) eqn:Eh; [|by repeat case_match]. apply HasSuffix_len in Eh as Hl.
        rewrite (proj2 (Z.ltb_ge (len call) _)) by lia. cbn [negb andb]. rewrite !andb_false_r. done.
    + destruct (compile p) as [f|]; [|done]. intros [= <-]. unfold entry_match. cbn. done.
Qed.

(** A line of the file allows a call of a jurisdiction. *)
Definition line_allows (jurisdiction call line : string) : bool :=
  let raw := TrimSpace line in
  if bool_decide (raw = "") || HasPrefix raw "#" then false
  else
    let '(j, p) := splitAllowlistLine raw in
    negb (bool_decide (p = "")) && bool_decide (j = jurisdiction) && pattern_matches p call.

Lemma split_pattern raw j p :
  ToUpper raw = raw -> TrimSpace raw = raw -> splitAllowlistLine raw = (j, p) -> ToUpper p = p /\ TrimSpace p = p.
Proof.
  intros Hu Ht. unfold splitAllowlistLine. destruct (IndexByte raw ":") as [[|n]|]; [intros [= _ <-]; done| |intros [= _ <-]; done].
  destruct (_ || _); [intros [= _ <-]; done|]. set (q := TrimSpace (sdrop (S n + 1) raw)).
  assert (ToUpper q = q /\ TrimSpace q = q) as Hq.
  { unfold q. rewrite TrimSpace_idemp. split; [|done]. rewrite <- TrimSpace_ToUpper. unfold ToUpper. rewrite smap_sdrop.
    change (smap upper_byte raw) with (ToUpper raw). by rewrite Hu. }
  clearbody q. case_bool_decide; intros [= _ <-]; done.
Qed.

Lemma load_lines_exact lines acc a jurisdiction call :
  jurisdiction <> "" -> call <> "" -> Forall (fun line => ToUpper line = line) lines ->
  load_lines compile lines acc = Some a ->
  allow_match a jurisdiction call = allow_match acc jurisdiction call || existsb (line_allows jurisdiction call) lines.
Proof.
  intros Hj Hc Hup. revert acc. induction Hup as [|line lines Hl Hup IH]; intros acc; cbn [load_lines existsb].
  - intros [= <-]. by rewrite orb_false_r.
  - unfold line_allows at 1. assert (ToUpper (TrimSpace line) = TrimSpace line) as Hu by (by rewrite <- TrimSpace_ToUpper, Hl).
    pose proof (TrimSpace_idemp line) as Hi. set (raw := TrimSpace line) in *. destruct (_ || _); [apply IH|].
    destruct (splitAllowlistLine raw) as [j p] eqn:Es. destruct (split_pattern raw j p Hu Hi Es) as [Hpu Hpt].
    case_bool_decide as Hp; cbn [negb andb]; [apply IH|]. destruct (compileAllowlistEntry compile p) as [e|] eqn:Ee; [|done].
    intros Hload. rewrite (IH _ Hload), orb_assoc. f_equal. unfold allow_match.
    rewrite (bool_decide_eq_false_2 (jurisdiction = "")), (bool_decide_eq_false_2 (call = "")) by done. cbn [orb].
    case_bool_decide as Hjj.
    + subst j. rewrite lookup_insert_eq, existsb_app. cbn [existsb]. rewrite orb_false_r, (entry_match_exact p e call) by done.
      by destruct (acc !! jurisdiction).
    + rewrite lookup_insert_ne by done. by rewrite orb_false_r.
Qed.

(** The allow list means what its file says.  When the file is in upper case, a call
    is allowed in a jurisdiction exactly when one of the lines of that jurisdiction
    (US for lines that name none) has a pattern that matches it - the lengths,
    prefixes and suffixes tried before the regular expression never change that - and
    in the lists of a country exactly when it is in one of the country's
    jurisdictions. *)
Theorem allowlist_exact lines a adif call :
  call <> "" -> Forall (fun line => ToUpper line = line) lines -> LoadAllowlist compile lines = Some (Some a) ->
  AllowlistMatch (Some a) adif call = existsb (fun j => existsb (line_allows j call) lines) (jurisdictionKeys adif).
Proof.
  intros Hc Hup. unfold LoadAllowlist. destruct (load_lines compile lines ∅) as [a'|] eqn:El; [|done].
  case_bool_decide; [done|]. intros [= ->]. unfold AllowlistMatch.
  assert (Forall (fun j => j <> "") (jurisdictionKeys adif)) as Hne.
  { unfold jurisdictionKeys. repeat case_match; repeat constructor; done. }
  induction Hne as [|j js Hj Hjs IH]; [done|]. cbn [existsb]. rewrite IH. f_equal.
  rewrite (load_lines_exact lines ∅ a j call) by done. assert (allow_match ∅ j call = false) as ->; [|done].
  unfold allow_match. rewrite lookup_empty. by destruct (_ || _).
Qed.
End AllowlistFacts.

(** A library that knows anchored literals only. *)
Definition demo_compile (p : string) : option (string -> bool) :=
  match anchoredLiteral p with
  | None => None
  | Some (pre, "") => Some (if HasSuffix p "$" then fun call => bool_decide (call = pre) else fun call => HasPrefix call pre)
  | Some (_, suf) => Some (fun call => HasSuffix call suf)
  end.

Lemma literal_not_last lit : isLiteralPattern lit = true -> HasSuffix ("^" +:+ lit) "$" = false.
Proof.
  intros El. destruct lit as [|l c _] using string_snoc_ind; [done|]. rewrite <- sapp_assoc, HasSuffix_snoc.
  unfold isLiteralPattern in El. rewrite sforall_app in El. boolify. cbn in *. boolify. apply bool_decide_eq_false_2. intros ->.
  match goal with H : "$"%char ∉ pattern_bytes |- _ => apply H; unfold pattern_bytes; set_solver end.
Qed.

Lemma literal_not_first lit s : isLiteralPattern lit = true -> HasPrefix (lit +:+ s) "^" = false.
Proof.
  destruct lit as [|c l]; [done|]. unfold isLiteralPattern. cbn [sforall]. intros El. boolify.
  rewrite sapp_cons. cbn [HasPrefix]. rewrite andb_true_r. apply bool_decide_eq_false_2. intros <-.
  match goal with H : "^"%char ∉ pattern_bytes |- _ => apply H; unfold pattern_bytes; set_solver end.
Qed.

Lemma demo_re_both lit f call :
  isLiteralPattern lit = true -> demo_compile ("^" +:+ lit +:+ "$") = Some f -> f call = bool_decide (call = lit).
Proof.
  intros El. unfold demo_compile, anchoredLiteral. rewrite TrimPrefix_app, TrimSuffix_app, El.
  assert (HasPrefix ("^" +:+ lit +:+ "$") "^" = true) as -> by (apply HasPrefix_spec; by eexists).
  assert (HasSuffix ("^" +:+ lit +:+ "$") "$" = true) as -> by (apply HasSuffix_spec; exists ("^" +:+ lit); by rewrite sapp_assoc).
  cbn. by intros [= <-].
Qed.

Lemma demo_re_front lit f call :
  isLiteralPattern lit = true -> demo_compile ("^" +:+ lit) = Some f -> f call = HasPrefix call lit.
Proof.
  intros El. unfold demo_compile, anchoredLiteral. rewrite TrimPrefix_app, literal_not_last, El by done.
  assert (HasPrefix ("^" +:+ lit) "^" = true) as -> by (apply HasPrefix_spec; by eexists).
  cbn. by intros [= <-].
Qed.

Lemma demo_re_back lit f call :
  isLiteralPattern lit = true -> demo_compile (lit +:+ "$") = Some f -> f call = HasSuffix call lit.
Proof.
  intros El. unfold demo_compile, anchoredLiteral. rewrite literal_not_first, TrimSuffix_app, El by done.
  assert (HasSuffix (lit +:+ "$") "$" = true) as -> by (apply HasSuffix_spec; by eexists).
  destruct lit as [|c lit]; [done|]. cbn. by intros [= <-].
Qed.

Definition demo_lines : list string := ["# COMMENT"; "US:^N2WQ$"; "212:^LZ"; "W1AW"].

Definition demo_list : Allowlist := default ∅ (default None (LoadAllowlist demo_compile demo_lines)).

Lemma allowlist_exact_witness : AllowlistMatch (Some demo_list) 212 "LZ5VV" = true /\ AllowlistMatch (Some demo_list) 291 "LZ5VV" = false.
Proof.
  split.
  - rewrite (allowlist_exact demo_compile demo_re_both demo_re_front demo_re_back demo_lines demo_list 212 "LZ5VV"); [reflexivity|done|repeat constructor|reflexivity].
  - rewrite (allowlist_exact demo_compile demo_re_both demo_re_front demo_re_back demo_lines demo_list 291 "LZ5VV"); [reflexivity|done|repeat constructor|reflexivity].
Defined.

(** A fatal error of the database is said to disable the checks; the reset that follows
    clears the flag again, so the next lookup queries the database once more. *)
Theorem fatal_error_leaves_checks_on st call answer now :
  licenseEnabled st = true -> refreshActive st = false -> licenseDead st = false -> NormalizeForLicense call <> "" ->
  (cache_get (licenseCache st) (licenseCacheKey "US" (NormalizeForLicense call)) now).1 = None -> answer 0%nat = QFatal ->
  let '(allow, st') := IsLicensedUS st call (Some answer) now in allow = true /\ licenseDead st' = false /\ loggedDBError st' = false.
Proof.
  intros He Hr Hd Hc Hg Ha. unfold IsLicensedUS. rewrite He, Hr, Hd, bool_decide_eq_false_2 by done. cbn [negb].
  destruct (cache_get _ _ now) as [r c]. cbn in Hg. subst r. cbn [query_loop retries]. by rewrite Ha.
Qed.
