(* ===== verification/CallMeta.v ===== *)
(** * CallMeta: the cache of call metadata

    [call_meta_cache.go]: sixteen shards of least recently used entries that remember
    grid, country and known status of a call.  Locks make every operation one step;
    the clock of the operations that read it is an argument, and so are the allow list
    and the country database of a lookup.

    The cache is bounded and answers for a country as the database does, or as the
    newest persisted record of the call ([callmeta_lookup_sound]). *)

From S2P Require Import Prelude GoText GoNum GoTime Callsign Lru Cty License Quality.
From Stdlib Require Import QArith.

Local Open Scope string_scope.
Local Open Scope list_scope.
Local Open Scope Z_scope.

Definition callMetaCacheShardCount : Z := 16.

Record callMetaEntry := mkMeta {
  grid : string;
  gridValid : bool;
  gridDerived : bool;
  gridUpdatedAt : Z;
  isKnown : bool;
  knownChecked : bool;
  cty : option PrefixInfo;
  ctyValid : bool;
  ctyChecked : bool
}.

Definition new_meta : callMetaEntry := mkMeta "" false false zero_time false false None false false.

Record callMetaCacheShard := mkMetaShard { s_max : Z; s_lru : lru_map string callMetaEntry }.

Record callMetaCache := mkMetaCache {
  m_shards : list callMetaCacheShard;
  gridTTL : Z;
  m_capacity : Z;
  ctyLookups : Z;
  ctyHits : Z
}.

Definition newCallMetaCache (capacity ttl : Z) : callMetaCache :=
  let capacity := if capacity <=? 0 then 100000 else capacity in
  let capacity := if capacity <? callMetaCacheShardCount then callMetaCacheShardCount else capacity in
  let perShard := Z.quot capacity callMetaCacheShardCount in
  let perShard := if perShard <=? 0 then 1 else perShard in
  mkMetaCache (replicate (Z.to_nat callMetaCacheShardCount) (mkMetaShard perShard lru_empty)) ttl capacity 0 0.

Definition meta_clear (c : callMetaCache) : callMetaCache :=
  mkMetaCache (map (fun sh => mkMetaShard (s_max sh) lru_empty) (m_shards c)) (gridTTL c) (m_capacity c) (ctyLookups c) (ctyHits c).

Definition EntryCount (c : callMetaCache) : Z :=
  fold_left (fun total sh => total + lru_len (s_lru sh)) (m_shards c) 0.

Definition meta_shardFor (c : callMetaCache) (key : string) : nat :=
  Z.to_nat (fnv key 2166136261 mod Z.of_nat (length (m_shards c))).

(** A new entry goes to the front; the back goes when the shard is over its limit. *)
Definition addEntry (call : string) (e : callMetaEntry) (sh : callMetaCacheShard) : callMetaCacheShard :=
  let m := lru_store call e (s_lru sh) in
  mkMetaShard (s_max sh) (if (0 <? s_max sh) && (s_max sh <? lru_len m) then lru_drop_back m else m).

(** [getOrCreate] followed by the caller's change [f] of the entry it returns. *)
Definition on_entry (call : string) (f : callMetaEntry -> callMetaEntry) (sh : callMetaCacheShard) : callMetaCacheShard :=
  match lru_lookup call (s_lru sh) with
  | Some e => mkMetaShard (s_max sh) (lru_store call (f e) (s_lru sh))
  | None => addEntry call (f new_meta) sh
  end.

Definition on_shard (call : string) (f : callMetaCacheShard -> callMetaCacheShard) (c : callMetaCache) : callMetaCache :=
  mkMetaCache (alter f (meta_shardFor c call) (m_shards c)) (gridTTL c) (m_capacity c) (ctyLookups c) (ctyHits c).

Definition shard_of (call : string) (c : callMetaCache) : callMetaCacheShard :=
  default (mkMetaShard 0 lru_empty) (m_shards c !! meta_shardFor c call).

Definition meta_find (call : string) (c : callMetaCache) : option callMetaEntry := lru_lookup call (s_lru (shard_of call c)).

Definition touch_shard (call : string) (sh : callMetaCacheShard) : callMetaCacheShard :=
  mkMetaShard (s_max sh) (lru_touch call (s_lru sh)).

Definition count_cty (hit : bool) (c : callMetaCache) : callMetaCache :=
  mkMetaCache (m_shards c) (gridTTL c) (m_capacity c) (ctyLookups c + 1) (if hit then ctyHits c + 1 else ctyHits c).

Definition set_cty (r : option PrefixInfo) (e : callMetaEntry) : callMetaEntry :=
  mkMeta (grid e) (gridValid e) (gridDerived e) (gridUpdatedAt e) (isKnown e) (knownChecked e) r
         (match r with Some _ => true | None => false end) true.

(** [(info, cached)]: [ok] is whether there is an info. *)
Definition LookupCTY (al : option Allowlist) (c : callMetaCache) (call : string) (db : CTYDatabase)
    : option PrefixInfo * bool * callMetaCache * CTYDatabase :=
  if bool_decide (call = "") then
    if shouldRejectCTYCall al call then (None, false, c, db)
    else let '(r, db) := LookupCallsignPortable db call in (r, false, c, db)
  else
    match meta_find call c with
    | Some e =>
        let c := on_shard call (touch_shard call) c in
        if ctyChecked e then ((if ctyValid e then cty e else None), true, count_cty true c, db)
        else
          if shouldRejectCTYCall al call then (None, false, count_cty false (on_shard call (on_entry call (set_cty None)) c), db)
          else let '(r, db) := LookupCallsignPortable db call in
               (r, false, count_cty false (on_shard call (on_entry call (set_cty r)) c), db)
    | None =>
        if shouldRejectCTYCall al call then (None, false, count_cty false (on_shard call (on_entry call (set_cty None)) c), db)
        else let '(r, db) := LookupCallsignPortable db call in
             (r, false, count_cty false (on_shard call (on_entry call (set_cty r)) c), db)
    end.

(** ** Grids *)

(** [stripTrailingHyphenSuffix] and [normalizeCallForMetadata] of [main.go]. *)
Definition stripTrailingHyphenSuffix (call : string) : string :=
  let start := match LastIndexByte call "/" with Some slash => S slash | None => 0%nat end in
  match IndexByte (sdrop start call) "-" with
  | None => call
  | Some idx => if (start + idx <=? 0)%nat then call else stake (start + idx) call
  end.

Definition normalizeCallForMetadata (call : string) : string :=
  let call := upper_trim call in
  if bool_decide (call = "") then call else stripTrailingHyphenSuffix call.

Definition set_grid (g : string) (valid derived : bool) (at_ : Z) (e : callMetaEntry) : callMetaEntry :=
  mkMeta g valid derived at_ (isKnown e) (knownChecked e) (cty e) (ctyValid e) (ctyChecked e).

Definition grid_expired (c : callMetaCache) (e : callMetaEntry) (now : Z) : bool :=
  (0 <? gridTTL c) && negb (IsZero (gridUpdatedAt e)) && (gridTTL c <? time_sub now (gridUpdatedAt e)).

(** [(grid, derived)] when there is one. *)
Definition LookupGrid (c : callMetaCache) (call : string) (now : Z) : option (string * bool) * callMetaCache :=
  let call := normalizeCallForMetadata call in
  if bool_decide (call = "") then (None, c)
  else
    match meta_find call c with
    | None => (None, c)
    | Some e =>
        let c' := on_shard call (touch_shard call) c in
        if gridValid e then
          if grid_expired c e now then (None, on_shard call (on_entry call (set_grid "" false false (gridUpdatedAt e))) c)
          else (Some (grid e, gridDerived e), c')
        else (None, c')
    end.

Definition UpdateGrid (c : callMetaCache) (call g : string) (derived : bool) (now : Z) : bool * callMetaCache :=
  let call := normalizeCallForMetadata call in
  if bool_decide (call = "") || bool_decide (g = "") then (false, c)
  else
    match meta_find call c with
    | Some e =>
        let c' := on_shard call (touch_shard call) c in
        if gridValid e && bool_decide (grid e = g) && Bool.eqb (gridDerived e) derived && negb (grid_expired c e now) then (false, c')
        else if derived && gridValid e && negb (gridDerived e) then (false, c')
        else (true, on_shard call (on_entry call (set_grid g true derived now)) c)
    | None => (true, on_shard call (addEntry call (set_grid g true derived now new_meta)) c)
    end.

(** The persisted record of [gridstore], as far as the cache reads it. *)
Record gridRecord := mkGridRecord {
  r_Call : string;
  r_IsKnown : bool;
  r_Grid : option string;
  r_GridDerived : bool;
  r_UpdatedAt : Z;
  r_CTYValid : bool;
  r_Info : PrefixInfo
}.

(** The country fields of a record; the others stay at their zero values. *)
Definition record_info (i : PrefixInfo) : PrefixInfo :=
  mkPrefixInfo (p_Country i) "" (p_ADIF i) (p_CQZone i) (p_ITUZone i) (p_Continent i) 0 0 0 false.

Definition apply_grid (rec : gridRecord) (e : callMetaEntry) : callMetaEntry :=
  match r_Grid rec with
  | None => e
  | Some g =>
      let g := upper_trim g in
      if bool_decide (g = "") then e
      else if gridValid e && negb (gridDerived e) && r_GridDerived rec then e
      else if negb (gridValid e) || After (r_UpdatedAt rec) (gridUpdatedAt e) || (gridDerived e && negb (r_GridDerived rec))
           then set_grid g true (r_GridDerived rec) (r_UpdatedAt rec) e
           else e
  end.

Definition set_known (known : bool) (e : callMetaEntry) : callMetaEntry :=
  mkMeta (grid e) (gridValid e) (gridDerived e) (gridUpdatedAt e) known true (cty e) (ctyValid e) (ctyChecked e).

Definition apply_record (rec : gridRecord) (e : callMetaEntry) : callMetaEntry :=
  let e := set_known (r_IsKnown rec) (apply_grid rec e) in
  if r_CTYValid rec then set_cty (Some (record_info (r_Info rec))) e else e.

Definition ApplyRecord (c : callMetaCache) (rec : gridRecord) : callMetaCache :=
  let call := normalizeCallForMetadata (r_Call rec) in
  if bool_decide (call = "") then c else on_shard call (on_entry call (apply_record rec)) c.

Definition SetKnown (c : callMetaCache) (call : string) (known : bool) : callMetaCache :=
  if bool_decide (call = "") then c else on_shard call (on_entry call (set_known known)) c.

(** ** Shards keep their limit and what holds of every entry *)

Section Entries.
Variable P : string -> callMetaEntry -> Prop.

Record shard_ok (n : Z) (sh : callMetaCacheShard) : Prop := {
  sh_max : s_max sh = n;
  sh_pos : 1 <= n;
  sh_lru : lru_ok (s_lru sh);
  sh_len : lru_len (s_lru sh) <= n;
  sh_all : forall k e, lru_lookup k (s_lru sh) = Some e -> P k e
}.

Definition meta_ok (n : Z) (c : callMetaCache) : Prop :=
  length (m_shards c) = 16%nat /\ 16 * n <= m_capacity c /\ Forall (shard_ok n) (m_shards c).

Lemma empty_meta_shard_ok n : 1 <= n -> shard_ok n (mkMetaShard n lru_empty).
Proof. intros Hn. split; cbn; [done|done|apply lru_empty_ok|unfold lru_len; cbn; lia|]. intros k e. unfold lru_lookup. cbn. by rewrite lookup_empty. Qed.

Lemma lru_store_lookup (k k' : string) (v : callMetaEntry) (m : lru_map string callMetaEntry) :
  lru_lookup k' (lru_store k v m) = if decide (k = k') then Some v else lru_lookup k' m.
Proof.
  unfold lru_lookup, lru_store. cbn. case_decide as Hk; [subst; by rewrite lookup_insert_eq|by rewrite lookup_insert_ne].
Qed.

Lemma store_all k v (m : lru_map string callMetaEntry) :
  P k v -> (forall k' e, lru_lookup k' m = Some e -> P k' e) -> forall k' e, lru_lookup k' (lru_store k v m) = Some e -> P k' e.
Proof. intros Hv Hm k' e. rewrite lru_store_lookup. case_decide; [subst; by intros [= <-]|apply Hm]. Qed.

Lemma addEntry_ok n call e sh : lru_lookup call (s_lru sh) = None -> P call e -> shard_ok n sh -> shard_ok n (addEntry call e sh).
Proof.
  intros Hn He [Hm Hp Hl Hlen Hall]. destruct (lru_store_ok call e (s_lru sh) Hl) as [Hl' Hlen']. rewrite Hn in Hlen'.
  pose proof (store_all call e (s_lru sh) He Hall) as Hall'. unfold addEntry. cbv zeta. set (m := lru_store call e (s_lru sh)) in *.
  rewrite Hm. rewrite (proj2 (Z.ltb_lt 0 n)) by lia. cbn [andb].
  destruct (Z.ltb_spec n (lru_len m)); (split; cbn [s_max s_lru]; [done|done|..]).
  - by apply lru_drop_back_ok.
  - destruct (lru_drop_back_ok m Hl') as [_ ->]. lia.
  - intros k x Hx. apply lru_drop_back_sub in Hx. by apply Hall'.
  - done.
  - lia.
  - done.
Qed.

Lemma on_entry_ok n call f sh :
  (forall e, lru_lookup call (s_lru sh) = Some e -> P call e -> P call (f e)) ->
  (lru_lookup call (s_lru sh) = None -> P call (f new_meta)) -> shard_ok n sh -> shard_ok n (on_entry call f sh).
Proof.
  intros Hf Hn Hsh. unfold on_entry. destruct (lru_lookup call (s_lru sh)) as [e|] eqn:E; [|by apply addEntry_ok; auto].
  destruct Hsh as [Hm Hp Hl Hlen Hall]. destruct (lru_store_ok call (f e) (s_lru sh) Hl) as [Hl' Hlen']. rewrite E in Hlen'.
  split; cbn [s_max s_lru]; [done|done|done|lia|]. apply store_all; [|done]. by apply Hf, Hall.
Qed.

Lemma touch_ok n call e sh : lru_lookup call (s_lru sh) = Some e -> shard_ok n sh -> shard_ok n (touch_shard call sh).
Proof.
  intros He [Hm Hp Hl Hlen Hall]. destruct (lru_touch_ok call (s_lru sh) Hl) as [Hl' Hlen']; [by eexists|].
  split; cbn [touch_shard s_max s_lru]; [done|done|done|lia|]. apply Hall.
Qed.

Lemma meta_shardFor_lt c call : length (m_shards c) = 16%nat -> (meta_shardFor c call < length (m_shards c))%nat.
Proof.
  intros Hl. unfold meta_shardFor. rewrite Hl. set (h := fnv call _). clearbody h.
  pose proof (Z.mod_pos_bound h 16 ltac:(lia)). change (Z.of_nat 16) with 16. lia.
Qed.

Lemma on_shard_ok n call f c :
  (shard_ok n (shard_of call c) -> shard_ok n (f (shard_of call c))) -> meta_ok n c -> meta_ok n (on_shard call f c).
Proof.
  intros Hf (Hl & Hc & Hall). pose proof (meta_shardFor_lt c call Hl) as Hlt. destruct (lookup_lt_is_Some_2 _ _ Hlt) as [sh Hsh].
  unfold shard_of in Hf. rewrite Hsh in Hf. cbn in Hf. split_and!; cbn; [by rewrite length_alter|done|].
  apply Forall_lookup. intros i x Hx. destruct (decide (i = meta_shardFor c call)) as [->|Hne].
  - rewrite list_lookup_alter_eq, Hsh in Hx. injection Hx as <-. apply Hf. by apply (Forall_lookup_1 _ _ _ _ Hall Hsh).
  - rewrite list_lookup_alter_ne in Hx by done. by apply (Forall_lookup_1 _ _ _ _ Hall Hx).
Qed.

Lemma meta_find_ok n call c e : meta_ok n c -> meta_find call c = Some e -> P call e.
Proof.
  intros (Hl & Hc & Hall). unfold meta_find, shard_of. destruct (lookup_lt_is_Some_2 _ _ (meta_shardFor_lt c call Hl)) as [sh Hsh].
  rewrite Hsh. apply (Forall_lookup_1 _ _ _ _ Hall Hsh).
Qed.

Lemma EntryCount_le n c : meta_ok n c -> EntryCount c <= m_capacity c.
Proof.
  intros (Hl & Hc & Hall). unfold EntryCount.
  assert (forall l acc, Forall (shard_ok n) l ->
    fold_left (fun total sh => total + lru_len (s_lru sh)) l acc <= acc + Z.of_nat (length l) * n) as H.
  { induction l as [|sh l IH]; intros acc Hf; cbn [fold_left length]; [lia|]. apply Forall_cons in Hf as [[_ _ _ Hlen _] Hf].
    etransitivity; [by apply IH|]. lia. }
  etransitivity; [by apply H|]. rewrite Hl. lia.
Qed.

Lemma meta_new_ok cap ttl : exists n, meta_ok n (newCallMetaCache cap ttl).
Proof.
  unfold newCallMetaCache, callMetaCacheShardCount. set (a := if cap <=? 0 then 100000 else cap).
  set (b := if a <? 16 then 16 else a).
  assert (16 <= b) as Hb by (unfold b; destruct (Z.ltb_spec a 16); lia). clearbody b. clear a.
  pose proof (Z.quot_le_lower_bound b 16 1 ltac:(lia) ltac:(lia)) as H1. pose proof (Z.mul_quot_le b 16 ltac:(lia) ltac:(lia)) as H2.
  set (n := Z.quot b 16) in *. clearbody n. rewrite (proj2 (Z.leb_gt n 0)) by lia.
  exists n. split_and!; cbn [m_shards m_capacity]; [done|lia|]. apply Forall_replicate. by apply empty_meta_shard_ok.
Qed.

Lemma count_cty_ok n hit c : meta_ok n c -> meta_ok n (count_cty hit c).
Proof. done. Qed.
End Entries.

Lemma meta_ok_mono (P Q : string -> callMetaEntry -> Prop) n c :
  (forall k e, P k e -> Q k e) -> meta_ok P n c -> meta_ok Q n c.
Proof.
  intros H (? & ? & Hall). split_and!; [done..|]. eapply Forall_impl; [done|]. intros sh [? ? ? ? Ha]. split; [done..|].
  intros k e He. by apply H, Ha.
Qed.

Lemma clear_ok (P Q : string -> callMetaEntry -> Prop) n c : meta_ok P n c -> meta_ok Q n (meta_clear c).
Proof.
  intros (Hl & Hc & Hall). split_and!; cbn; [by rewrite length_map|done|]. apply Forall_map. eapply Forall_impl; [done|].
  intros sh [Hm Hp _ _ _]. cbn. rewrite Hm. by apply empty_meta_shard_ok.
Qed.

(** ** Answers *)

Definition cty_answer (al : option Allowlist) (db : CTYDatabase) (call : string) : option PrefixInfo :=
  if shouldRejectCTYCall al call then None else (LookupCallsignPortable db call).1.

(** A persisted record of the call gave this answer. *)
Definition from_record (recs : list gridRecord) (call : string) (r : option PrefixInfo) : Prop :=
  exists rec, rec ∈ recs /\ r_CTYValid rec = true /\ normalizeCallForMetadata (r_Call rec) = call /\
    r = Some (record_info (r_Info rec)).

Definition explained_answer al db recs call r : Prop := r = cty_answer al db call \/ from_record recs call r.

Definition explained al db recs (call : string) (e : callMetaEntry) : Prop :=
  ctyChecked e = true -> explained_answer al db recs call (if ctyValid e then cty e else None).

Inductive meta_op :=
  | MLookup (call : string)
  | MGrid (call : string) (now : Z)
  | MUpdate (call g : string) (derived : bool) (now : Z)
  | MRecord (rec : gridRecord)
  | MKnown (call : string) (known : bool)
  | MClear.

Definition meta_step (al : option Allowlist) (st : callMetaCache * CTYDatabase) (o : meta_op) : callMetaCache * CTYDatabase :=
  let '(c, db) := st in
  match o with
  | MLookup call => let '(_, _, c, db) := LookupCTY al c call db in (c, db)
  | MGrid call now => ((LookupGrid c call now).2, db)
  | MUpdate call g derived now => ((UpdateGrid c call g derived now).2, db)
  | MRecord rec => (ApplyRecord c rec, db)
  | MKnown call known => (SetKnown c call known, db)
  | MClear => (meta_clear c, db)
  end.

(** The records applied since the cache was last cleared. *)
Definition records_step (recs : list gridRecord) (o : meta_op) : list gridRecord :=
  match o with MRecord rec => recs ++ [rec] | MClear => [] | _ => recs end.

Definition records_since (ops : list meta_op) : list gridRecord := fold_left records_step ops [].

(** The same keys: lookups only count. *)
Definition same_keys (db' db : CTYDatabase) : Prop := Data db' = Data db /\ trie db' = trie db.

Lemma lookup_same_keys db' db cs : same_keys db' db -> lookupCallsignNoCache db' cs = lookupCallsignNoCache db cs.
Proof. intros [E1 E2]. unfold lookupCallsignNoCache. by rewrite E1, E2. Qed.

Lemma segment_same_keys db' db l b : same_keys db' db -> fold_left (segment_step db') l b = fold_left (segment_step db) l b.
Proof.
  intros Hs. revert b. induction l as [|x l IH]; intros b; [done|]. cbn [fold_left].
  replace (segment_step db' b x) with (segment_step db b x); [apply IH|]. unfold segment_step. by rewrite (lookup_same_keys db' db).
Qed.

Lemma portable_same_keys db' db call :
  same_keys db' db ->
  (LookupCallsignPortable db' call).1 = (LookupCallsignPortable db call).1 /\ same_keys (LookupCallsignPortable db' call).2 db.
Proof.
  intros Hs. unfold LookupCallsignPortable. case_bool_decide; [done|]. cbn. split; [|by destruct Hs].
  unfold lookupCallsignPortableNoCache. by rewrite !(lookup_same_keys db' db), (segment_same_keys db' db).
Qed.

Section Steps.
Context (al : option Allowlist) (db0 : CTYDatabase).

Lemma explained_cty recs call e r : explained_answer al db0 recs call r -> explained al db0 recs call (set_cty r e).
Proof. intros Hr _. unfold set_cty. cbn. by destruct r. Qed.

(** What a lookup answers and leaves. *)
Lemma LookupCTY_spec n recs c call db :
  same_keys db db0 -> meta_ok (explained al db0 recs) n c ->
  let '(r, _, c', db') := LookupCTY al c call db in
  explained_answer al db0 recs call r /\ meta_ok (explained al db0 recs) n c' /\ same_keys db' db0.
Proof.
  intros Hdb Hok. unfold LookupCTY. destruct (portable_same_keys db db0 call Hdb) as [E1 E2].
  destruct (LookupCallsignPortable db call) as [r db'] eqn:El. cbn in E1, E2.
  assert (forall c1, meta_ok (explained al db0 recs) n c1 ->
    let '(r, _, c', db') := if shouldRejectCTYCall al call then (None, false, count_cty false (on_shard call (on_entry call (set_cty None)) c1), db)
      else (r, false, count_cty false (on_shard call (on_entry call (set_cty r)) c1), db') in
    explained_answer al db0 recs call r /\ meta_ok (explained al db0 recs) n c' /\ same_keys db' db0) as Hfill.
  { intros c1 Hc1. assert (explained_answer al db0 recs call (if shouldRejectCTYCall al call then None else r)) as Ha.
    { left. unfold cty_answer. by rewrite E1. }
    destruct (shouldRejectCTYCall al call); (split_and!; [done| |done]);
      apply count_cty_ok, on_shard_ok; [|done| |done]; apply on_entry_ok; intros; by apply explained_cty. }
  case_bool_decide as Hc.
  - subst call. assert (explained_answer al db0 recs "" (if shouldRejectCTYCall al "" then None else r)) as Ha.
    { left. unfold cty_answer. by rewrite E1. } by destruct (shouldRejectCTYCall al "").
  - destruct (meta_find call c) as [e|] eqn:Ef; [|by apply Hfill].
    assert (meta_ok (explained al db0 recs) n (on_shard call (touch_shard call) c)) as Ht.
    { apply on_shard_ok; [|done]. by eapply touch_ok. }
    destruct (ctyChecked e) eqn:Ec; [|by apply Hfill]. split_and!; [|by apply count_cty_ok|done].
    apply (meta_find_ok _ n call c e Hok Ef Ec).
Qed.

Lemma grid_explained recs call e g v d t : explained al db0 recs call e -> explained al db0 recs call (set_grid g v d t e).
Proof. done. Qed.

Lemma new_explained recs call : explained al db0 recs call new_meta.
Proof. done. Qed.

Lemma known_explained recs call e b : explained al db0 recs call e -> explained al db0 recs call (set_known b e).
Proof. done. Qed.

Lemma record_explained recs rec e :
  rec ∈ recs -> explained al db0 recs (normalizeCallForMetadata (r_Call rec)) e ->
  explained al db0 recs (normalizeCallForMetadata (r_Call rec)) (apply_record rec e).
Proof.
  intros Hin He. unfold apply_record. destruct (r_CTYValid rec) eqn:Ev.
  - apply explained_cty. right. by exists rec.
  - apply known_explained. unfold apply_grid. repeat case_match; try apply grid_explained; done.
Qed.

Lemma meta_step_ok n recs c db o :
  same_keys db db0 -> meta_ok (explained al db0 recs) n c ->
  let '(c', db') := meta_step al (c, db) o in
  meta_ok (explained al db0 (records_step recs o)) n c' /\ same_keys db' db0.
Proof.
  intros Hdb Hok. destruct o as [call|call now|call g derived now|rec|call known|]; cbn [meta_step records_step].
  - pose proof (LookupCTY_spec n recs c call db Hdb Hok) as H. destruct (LookupCTY al c call db) as [[[? ?] ?] ?]. tauto.
  - split; [|done]. unfold LookupGrid. cbv zeta. case_bool_decide; [done|]. destruct (meta_find _ c) as [e|] eqn:Ef; [|done].
    destruct (gridValid e); [destruct (grid_expired c e now)|]; cbn; (apply on_shard_ok; [intros Hsh|done]).
    + apply on_entry_ok; [intros; by apply grid_explained|intros; apply grid_explained, new_explained|done].
    + by eapply touch_ok.
    + by eapply touch_ok.
  - split; [|done]. unfold UpdateGrid. cbv zeta. destruct (_ || _); [done|]. destruct (meta_find _ c) as [e|] eqn:Ef.
    + repeat case_match; cbn; (apply on_shard_ok; [intros Hsh|done]); try (by eapply touch_ok).
      apply on_entry_ok; [intros; by apply grid_explained|intros; apply grid_explained, new_explained|done].
    + apply on_shard_ok; [intros Hsh|done]. apply addEntry_ok; [exact Ef|apply grid_explained, new_explained|done].
  - split; [|done]. assert (meta_ok (explained al db0 (recs ++ [rec])) n c) as Hok'.
    { eapply meta_ok_mono; [|done]. intros k e He Hc. destruct (He Hc) as [?|(r & ? & ? & ? & ?)]; [by left|right].
      exists r. split_and!; [apply elem_of_app; by left|done..]. }
    unfold ApplyRecord. cbv zeta. case_bool_decide; [done|]. apply on_shard_ok; [intros Hsh|done].
    assert (rec ∈ recs ++ [rec]) by (apply elem_of_app; right; by left).
    apply on_entry_ok; [intros; by apply record_explained|intros; by apply record_explained|done].
  - split; [|done]. unfold SetKnown. case_bool_decide; [done|]. apply on_shard_ok; [intros Hsh|done].
    apply on_entry_ok; [intros; by apply known_explained|intros; apply known_explained, new_explained|done].
  - split; [by eapply clear_ok|done].
Qed.

Lemma meta_run_ok n ops recs c db :
  same_keys db db0 -> meta_ok (explained al db0 recs) n c ->
  let '(c', db') := fold_left (meta_step al) ops (c, db) in
  meta_ok (explained al db0 (fold_left records_step ops recs)) n c' /\ same_keys db' db0.
Proof.
  revert recs c db. induction ops as [|o ops IH]; intros recs c db Hdb Hok; [done|]. cbn [fold_left].
  pose proof (meta_step_ok n recs c db o Hdb Hok) as H. destruct (meta_step al (c, db) o) as [c' db']. destruct H. by apply IH.
Qed.
End Steps.

(** The cache of call metadata after any lookups, grid updates, applied records, marks
    and clearings: it never holds more calls than its capacity, and a country lookup
    answers what the database answers for the call (nothing for calls no country
    issues), or what a record of that call, applied since the cache was last cleared,
    says. *)
Theorem callmeta_lookup_sound al db capacity ttl ops call :
  let '(c, db') := fold_left (meta_step al) ops (newCallMetaCache capacity ttl, db) in
  EntryCount c <= m_capacity c /\
  explained_answer al db (records_since ops) call (LookupCTY al c call db').1.1.1.
Proof.
  destruct (meta_new_ok (explained al db []) capacity ttl) as [n Hn].
  pose proof (meta_run_ok al db n ops [] _ db (conj eq_refl eq_refl) Hn) as H.
  destruct (fold_left (meta_step al) ops _) as [c db']. destruct H as [Hok Hdb]. split; [by eapply EntryCount_le|].
  pose proof (LookupCTY_spec al db n _ c call db' Hdb Hok) as H. destruct (LookupCTY al c call db') as [[[? ?] ?] ?]. apply H.
Qed.
