(* ===== verification/Skimmer.v ===== *)
(** * Skimmer: consolidation of skimmer spots before broadcast

    [aggregate/skimmer.go]: spots of skimmers wait in a bucket per call and frequency
    until enough distinct skimmers agree, then one consolidated spot goes out.  The
    aggregator goroutine owns the state, so its two events, a spot read from the input
    channel ([ingest]) and a tick ([processQueue]), are one step each; the channels are
    bounded lists.  Go visits the queue, the votes and the scores in unspecified order:
    [order_queue] lists the queue and [order_votes] the votes.

    What goes out is grounded in distinct skimmers and the state is bounded
    ([aggregate_emits_grounded]); but a bucket that has emitted is never given up, so a
    full table stays full ([aggregate_full_forever]). *)

From S2P Require Import Prelude GoText GoNum GoTime Callsign Bands Spot.
From Stdlib Require Import QArith.

Local Open Scope string_scope.
Local Open Scope list_scope.
Local Open Scope Z_scope.

Record SkimmerAggregateConfig := mkAggConfig {
  a_Enabled : bool;
  DwellSeconds : Z;
  LimboSeconds : Z;
  RespotSeconds : Z;
  CacheSeconds : Z;
  MinQuality : Z;
  MaxQuality : Z;
  SearchKHz : Z;
  MaxDeviants : Z;
  InrushDelaySeconds : Z;
  MaxEntries : Z;
  MaxRecordsPerKey : Z;
  InputBuffer : Z;
  OutputBuffer : Z;
  a_CollapseSSID : bool
}.

Record aggregateRecord := mkRecord {
  r_spot : Spot;
  r_origin : string;
  r_freqKHz : Q;
  r_report : Z;
  r_hasRpt : bool;
  r_when : Z;
  r_respot : bool
}.

Record aggregateBucket := mkBucket {
  createdAt : Z;
  lastEmitAt : Z;
  lastQuality : Z;
  records : list aggregateRecord
}.

Record skimmerScore := mkScore { sc_score : Z; sc_good : Z; sc_bad : Z; sc_lastIn : Z }.

Record aggregateStats := mkAggStats {
  n_enqueued : Z;
  n_inputDrops : Z;
  n_outputDrops : Z;
  n_emitted : Z;
  n_limboDrops : Z;
  n_respotDrops : Z;
  n_recordsDrops : Z;
  n_inrushDrops : Z
}.

Record SkimmerAggregator := mkAgg {
  cfg : SkimmerAggregateConfig;
  startedAt : Z;
  buckets : gmap string aggregateBucket;
  queue : gset string;
  skimmers : gmap string skimmerScore;
  input : list Spot;
  output : list Spot;
  stats : aggregateStats
}.

Definition newSkimmerAggregator (c : SkimmerAggregateConfig) (now : Z) : SkimmerAggregator :=
  mkAgg c now ∅ ∅ ∅ [] [] (mkAggStats 0 0 0 0 0 0 0 0).

Definition with_buckets (b : gmap string aggregateBucket) (a : SkimmerAggregator) : SkimmerAggregator :=
  mkAgg (cfg a) (startedAt a) b (queue a) (skimmers a) (input a) (output a) (stats a).
Definition with_queue (q : gset string) (a : SkimmerAggregator) : SkimmerAggregator :=
  mkAgg (cfg a) (startedAt a) (buckets a) q (skimmers a) (input a) (output a) (stats a).
Definition with_skimmers (m : gmap string skimmerScore) (a : SkimmerAggregator) : SkimmerAggregator :=
  mkAgg (cfg a) (startedAt a) (buckets a) (queue a) m (input a) (output a) (stats a).
Definition with_stats (s : aggregateStats) (a : SkimmerAggregator) : SkimmerAggregator :=
  mkAgg (cfg a) (startedAt a) (buckets a) (queue a) (skimmers a) (input a) (output a) s.

Definition count_inputDrop (s : aggregateStats) := mkAggStats (n_enqueued s) (n_inputDrops s + 1) (n_outputDrops s) (n_emitted s) (n_limboDrops s) (n_respotDrops s) (n_recordsDrops s) (n_inrushDrops s).
Definition count_enqueued (s : aggregateStats) := mkAggStats (n_enqueued s + 1) (n_inputDrops s) (n_outputDrops s) (n_emitted s) (n_limboDrops s) (n_respotDrops s) (n_recordsDrops s) (n_inrushDrops s).
Definition count_outputDrop (s : aggregateStats) := mkAggStats (n_enqueued s) (n_inputDrops s) (n_outputDrops s + 1) (n_emitted s) (n_limboDrops s) (n_respotDrops s) (n_recordsDrops s) (n_inrushDrops s).
Definition count_emitted (s : aggregateStats) := mkAggStats (n_enqueued s) (n_inputDrops s) (n_outputDrops s) (n_emitted s + 1) (n_limboDrops s) (n_respotDrops s) (n_recordsDrops s) (n_inrushDrops s).
Definition count_limbo (s : aggregateStats) := mkAggStats (n_enqueued s) (n_inputDrops s) (n_outputDrops s) (n_emitted s) (n_limboDrops s + 1) (n_respotDrops s) (n_recordsDrops s) (n_inrushDrops s).
Definition count_respot (s : aggregateStats) := mkAggStats (n_enqueued s) (n_inputDrops s) (n_outputDrops s) (n_emitted s) (n_limboDrops s) (n_respotDrops s + 1) (n_recordsDrops s) (n_inrushDrops s).
Definition count_records (s : aggregateStats) := mkAggStats (n_enqueued s) (n_inputDrops s) (n_outputDrops s) (n_emitted s) (n_limboDrops s) (n_respotDrops s) (n_recordsDrops s + 1) (n_inrushDrops s).
Definition count_inrush (s : aggregateStats) := mkAggStats (n_enqueued s) (n_inputDrops s) (n_outputDrops s) (n_emitted s) (n_limboDrops s) (n_respotDrops s) (n_recordsDrops s) (n_inrushDrops s + 1).

(** ** Entering *)

Definition Enqueue (a : SkimmerAggregator) (s : Spot) : bool * SkimmerAggregator :=
  if Z.of_nat (length (input a)) <? InputBuffer (cfg a)
  then (true, with_stats (count_enqueued (stats a))
                (mkAgg (cfg a) (startedAt a) (buckets a) (queue a) (skimmers a) (input a ++ [s]) (output a) (stats a)))
  else (false, with_stats (count_inputDrop (stats a)) a).

Definition ShouldAggregate (a : SkimmerAggregator) (s : Spot) : bool :=
  a_Enabled (cfg a) && negb (IsHuman s) && bool_decide (SourceType s ∈ [SourceRBN; SourceFT8; SourceFT4; SourcePSKReporter]).

Definition tickInterval (a : SkimmerAggregator) : Z :=
  let dwell := DwellSeconds (cfg a) * second in
  if dwell <=? 0 then second
  else if 2 * second <? dwell then second
  else if Z.quot dwell 2 <? 200 * millisecond then 200 * millisecond
  else Z.quot dwell 2.

(** [math.Round]: halves go away from zero. *)
Definition math_round (x : Q) : Z :=
  if Qle_bool 0 x then Qround.Qfloor (x + (1 # 2)) else - Qround.Qfloor (- x + (1 # 2)).

Definition nqrg_of (freqKHz : Q) : Z := math_round (fmul freqKHz 10).

Definition aggregateKey (call : string) (nqrg : Z) : string :=
  let call := TrimSpace call in
  if bool_decide (call = "") then "" else call +:+ "|" +:+ Itoa nqrg.

(** The keys [findBucket] tries after the exact one, nearest first, up before down. *)
Definition nearby_keys (call : string) (nqrg searchUnits : Z) : list string :=
  flat_map (fun delta => [aggregateKey call (nqrg + delta); aggregateKey call (nqrg - delta)]) (seqZ 1 searchUnits).

Definition findBucket (a : SkimmerAggregator) (call : string) (nqrg : Z) : string * option aggregateBucket :=
  let key := aggregateKey call nqrg in
  match List.find (fun k => match buckets a !! k with Some _ => true | None => false end)
          (key :: nearby_keys call nqrg (SearchKHz (cfg a) * 10)) with
  | Some k => (k, buckets a !! k)
  | None => (key, None)
  end.

Definition originForRecord (c : SkimmerAggregateConfig) (s : Spot) : string :=
  let origin := if bool_decide (DECallNorm s = "") then DECall s else DECallNorm s in
  if a_CollapseSSID c then CollapseSSID origin else origin.

Definition dx_of (s : Spot) : string :=
  let dx := TrimSpace (DXCallNorm s) in if bool_decide (dx = "") then TrimSpace (DXCall s) else dx.

Definition new_record (a : SkimmerAggregator) (s : Spot) (b : aggregateBucket) (now : Z) : aggregateRecord :=
  mkRecord s (originForRecord (cfg a) s) (roundFrequencyTo100Hz (Frequency s)) (Report s) (HasReport s)
           (if IsZero (Time s) then now else Time s) (After (lastEmitAt b) zero_time).

(** The record joins its bucket, if there is room. *)
Definition add_record (a : SkimmerAggregator) (key : string) (b : aggregateBucket) (s : Spot) (now : Z) : SkimmerAggregator :=
  if MaxRecordsPerKey (cfg a) <=? Z.of_nat (length (records b))
  then with_stats (count_records (stats a)) (with_buckets (<[key := b]> (buckets a)) a)
  else
    let b := mkBucket (createdAt b) (lastEmitAt b) (lastQuality b) (records b ++ [new_record a s b now]) in
    with_queue ({[key]} ∪ queue a) (with_buckets (<[key := b]> (buckets a)) a).

Definition ingest (a : SkimmerAggregator) (s : Spot) (now : Z) : SkimmerAggregator :=
  if (0 <? InrushDelaySeconds (cfg a)) && (time_sub now (startedAt a) <? InrushDelaySeconds (cfg a) * second)
  then with_stats (count_inrush (stats a)) a
  else
    let dxCall := dx_of s in
    if bool_decide (dxCall = "") then a
    else
      let '(key, bucket) := findBucket a dxCall (nqrg_of (roundFrequencyTo100Hz (Frequency s))) in
      match bucket with
      | Some b =>
          match records b with
          | [] =>
              if time_sub now (lastEmitAt b) <? RespotSeconds (cfg a) * second
              then with_stats (count_respot (stats a)) a
              else add_record a key (mkBucket now (lastEmitAt b) (lastQuality b) []) s now
          | _ => add_record a key b s now
          end
      | None =>
          if MaxEntries (cfg a) <=? Z.of_nat (size (buckets a)) then with_stats (count_records (stats a)) a
          else add_record a key (mkBucket now zero_time 0 []) s now
      end.

(** ** Consensus *)

(** The first record of every origin. *)
Fixpoint collapse_loop (seen : gset string) (l : list aggregateRecord) : list aggregateRecord :=
  match l with
  | [] => []
  | r :: l => if bool_decide (r_origin r ∈ seen) then collapse_loop seen l
              else r :: collapse_loop ({[r_origin r]} ∪ seen) l
  end.

Definition collapseByOrigin (l : list aggregateRecord) : Z * list aggregateRecord :=
  let out := collapse_loop ∅ l in (Z.of_nat (length out), out).

Definition better_record (best r : aggregateRecord) : aggregateRecord :=
  if r_hasRpt r && negb (r_hasRpt best) then r
  else if r_hasRpt r && r_hasRpt best then
    if r_report best <? r_report r then r
    else if (r_report r =? r_report best) && After (r_when r) (r_when best) then r else best
  else if negb (r_hasRpt r) && negb (r_hasRpt best) && After (r_when r) (r_when best) then r else best.

Definition pickBestRecord (r : aggregateRecord) (l : list aggregateRecord) : aggregateRecord := fold_left better_record l r.

Definition anyRespot (l : list aggregateRecord) : bool := existsb r_respot l.

Definition skimmerKey (r : aggregateRecord) : string :=
  let band := BandNorm (r_spot r) in
  let band := if bool_decide (band = "") then Band (r_spot r) else band in
  let band := if bool_decide (band = "") then FreqToBand (r_freqKHz r) else band in
  r_origin r +:+ "|" +:+ band.

Definition new_score : skimmerScore := mkScore 1 1 0 zero_time.

Definition score_of (m : gmap string skimmerScore) (r : aggregateRecord) : skimmerScore := default new_score (m !! skimmerKey r).

Definition min_weight : Q := fl64 (1 # 10).

Definition weight (sc : skimmerScore) : Q :=
  let w := float_of_int (sc_score sc) in if Qlt_b w min_weight then min_weight else w.

(** [votes[freq] += w]; two floats are the same key when they are equal. *)
Fixpoint add_vote (freq w : Q) (votes : list (Q * Q)) : list (Q * Q) :=
  match votes with
  | [] => [(freq, fadd 0 w)]
  | (f, v) :: rest => if Qeq_bool f freq then (f, fadd v w) :: rest else (f, v) :: add_vote freq w rest
  end.

Definition vote_step (st : list (Q * Q) * gmap string skimmerScore) (r : aggregateRecord) : list (Q * Q) * gmap string skimmerScore :=
  let '(votes, m) := st in
  let sc := score_of m r in
  (add_vote (r_freqKHz r) (weight sc) votes, <[skimmerKey r := sc]> m).

Definition elect_step (best : Q * Q) (fv : Q * Q) : Q * Q :=
  let '(consensus, maxVote) := best in
  let '(freq, vote) := fv in
  if Qlt_b maxVote vote || (Qeq_bool vote maxVote && Qlt_b freq consensus) then (freq, vote) else best.

(** The score of a skimmer after the vote. *)
Definition adjust (max_ : Z) (consensus : Q) (now : Z) (m : gmap string skimmerScore) (r : aggregateRecord) : gmap string skimmerScore :=
  let sc := score_of m r in
  let '(good, bad) :=
    if negb (Qeq_bool (roundFrequencyTo100Hz (fsub (r_freqKHz r) consensus)) 0)
    then (Z.max (sc_good sc - 1) 0, Z.min (sc_bad sc + 1) max_)
    else (Z.min (sc_good sc + 1) max_, Z.max (sc_bad sc - 1) 0) in
  <[skimmerKey r := mkScore (good - bad) good bad now]> m.

Section Order.
Variable order_queue : gset string -> list string.
Variable order_votes : list (Q * Q) -> list (Q * Q).

Definition consensusFrequency (a : SkimmerAggregator) (l : list aggregateRecord) (now : Z) : Q * Z * SkimmerAggregator :=
  let '(votes, m) := fold_left vote_step l ([], skimmers a) in
  let '(consensus, _) := fold_left elect_step (order_votes votes) (0%Q, -1 # 1) in
  let m := fold_left (adjust (MaxDeviants (cfg a)) consensus now) l m in
  (consensus, Z.of_nat (size (list_to_set (map r_origin l) : gset string)), with_skimmers m a).

Definition cloneForAggregate (best : aggregateRecord) (consensusFreq : Q) (qualityTag : string) : Spot :=
  let src := r_spot best in
  let comment := TrimSpace (Comment src) in
  let comment := if bool_decide (comment = "") then qualityTag else comment +:+ " " +:+ qualityTag in
  RefreshBeaconFlag (EnsureNormalized
    (mkSpot (ID src) (DXCall src) (DECall src) (roundFrequencyTo100Hz consensusFreq) (Band src) (Mode src) (r_report best)
       (Time src) comment (SourceType src) (SourceNode src) (SpotterIP src) (TTL src) (IsHuman src) false (IsBeacon src)
       (r_hasRpt best) (DXMetadata src) (DEMetadata src) (Confidence src) None (ModeNorm src) (BandNorm src)
       (DXCallNorm src) (DECallNorm src) (DXContinentNorm src) (DEContinentNorm src) (DXGridNorm src) (DEGridNorm src)
       (DXGrid2 src) (DEGrid2 src) (DXCellID src) (DECellID src) (DECallStripped src) (DECallNormStripped src))).

Definition agg_emit (s : Spot) (a : SkimmerAggregator) : SkimmerAggregator :=
  if Z.of_nat (length (output a)) <? OutputBuffer (cfg a)
  then with_stats (count_emitted (stats a))
         (mkAgg (cfg a) (startedAt a) (buckets a) (queue a) (skimmers a) (input a) (output a ++ [s]) (stats a))
  else with_stats (count_outputDrop (stats a)) a.

Definition quality_tag (quality originsSeen : Z) (respot : bool) : string :=
  "Q:" +:+ Itoa quality +:+ (if 1 <? originsSeen then "*" else "") +:+ (if respot then "+" else "").

(** The bucket emits: the consolidated spot goes out and the bucket moves to the key
    of the consensus. *)
Definition emit_bucket (a : SkimmerAggregator) (key : string) (b : aggregateBucket) (quality : Z)
    (r0 : aggregateRecord) (rest : list aggregateRecord) (now : Z) : SkimmerAggregator :=
  let quality := if MaxQuality (cfg a) <? quality then MaxQuality (cfg a) else quality in
  let '(consensus, origins, a) := consensusFrequency a (r0 :: rest) now in
  let best := pickBestRecord r0 rest in
  let a := agg_emit (cloneForAggregate best consensus (quality_tag quality origins (anyRespot (r0 :: rest)))) a in
  let b := mkBucket (createdAt b) now (Z.max (lastQuality b) quality) [] in
  let a := with_queue (queue a ∖ {[key]}) a in
  let ckey := aggregateKey (dx_of (r_spot best)) (nqrg_of consensus) in
  if negb (bool_decide (ckey = "")) && negb (bool_decide (ckey = key))
  then with_buckets (<[ckey := b]> (delete key (buckets a))) a
  else with_buckets (<[key := b]> (buckets a)) a.

Definition forget (key : string) (a : SkimmerAggregator) : SkimmerAggregator :=
  with_queue (queue a ∖ {[key]}) (with_buckets (delete key (buckets a)) a).

(** One key of the queue. *)
Definition process_key (now : Z) (a : SkimmerAggregator) (key : string) : SkimmerAggregator :=
  match buckets a !! key with
  | None => with_queue (queue a ∖ {[key]}) a
  | Some b =>
      match records b with
      | [] =>
          if IsZero (lastEmitAt b) || (CacheSeconds (cfg a) * second <? time_sub now (lastEmitAt b)) then forget key a else a
      | _ =>
          let '(quality, unique) := collapseByOrigin (records b) in
          let dwell := time_sub now (createdAt b) in
          if (quality <? MaxQuality (cfg a)) && (dwell <? DwellSeconds (cfg a) * second) && (dwell <? LimboSeconds (cfg a) * second) then a
          else if (LimboSeconds (cfg a) * second <=? dwell) && (quality <? MinQuality (cfg a))
          then with_stats (count_limbo (stats a)) (forget key a)
          else if quality <? MinQuality (cfg a) then a
          else match unique with
               | [] => a
               | r0 :: rest => emit_bucket a key b quality r0 rest now
               end
      end
  end.

Definition purge_scores (now : Z) (a : SkimmerAggregator) : SkimmerAggregator :=
  with_skimmers (filter (fun p => negb (IsZero (sc_lastIn p.2)) && (CacheSeconds (cfg a) * second <? time_sub now (sc_lastIn p.2)) = false)
                        (skimmers a)) a.

Definition processQueue (a : SkimmerAggregator) (now : Z) : SkimmerAggregator :=
  purge_scores now (fold_left (process_key now) (order_queue (queue a)) a).

(** ** The run of the aggregator *)

Inductive agg_event :=
  | EvOffer (s : Spot)       (* the output processor calls [Enqueue] *)
  | EvRead (now : Z)         (* the goroutine reads the input channel *)
  | EvTick (now : Z)         (* the ticker, and the flush of a shutdown *)
  | EvTake.                  (* the broadcaster takes a spot *)

Definition agg_step (a : SkimmerAggregator) (e : agg_event) : SkimmerAggregator :=
  match e with
  | EvOffer s => snd (Enqueue a s)
  | EvRead now =>
      match input a with
      | [] => a
      | s :: rest => ingest (mkAgg (cfg a) (startedAt a) (buckets a) (queue a) (skimmers a) rest (output a) (stats a)) s now
      end
  | EvTick now => processQueue a now
  | EvTake => mkAgg (cfg a) (startedAt a) (buckets a) (queue a) (skimmers a) (input a) (tail (output a)) (stats a)
  end.

Definition agg_run (a : SkimmerAggregator) (evs : list agg_event) : SkimmerAggregator := fold_left agg_step evs a.

(** The spots that were offered. *)
Definition offered (evs : list agg_event) : list Spot :=
  omap (fun e => match e with EvOffer s => Some s | _ => None end) evs.

(** What a consolidated spot is worth: records of offered spots, one per origin and at
    least [MinQuality] of them, of one DX call, and the frequency one of them reported. *)
Definition record_of (c : SkimmerAggregateConfig) (h : list Spot) (r : aggregateRecord) : Prop :=
  r_spot r ∈ h /\ r_origin r = originForRecord c (r_spot r) /\ r_freqKHz r = roundFrequencyTo100Hz (Frequency (r_spot r)).

Definition consolidated (c : SkimmerAggregateConfig) (h : list Spot) (s : Spot) : Prop :=
  exists r0 rest freq tag,
    s = cloneForAggregate (pickBestRecord r0 rest) freq tag /\
    NoDup (map r_origin (r0 :: rest)) /\ MinQuality c <= Z.of_nat (length (r0 :: rest)) /\
    freq ∈ map r_freqKHz (r0 :: rest) /\
    (forall r, r ∈ r0 :: rest -> record_of c h r /\ dx_of (r_spot r) = dx_of (r_spot r0)).
End Order.

(** ** The keys of the buckets *)

Lemma parse_digits_are_digits s acc n : parse_digits s acc = Some n -> sforall is_digit s = true.
Proof.
  revert acc. induction s as [|c s IH]; intros acc; [done|]. simpl.
  destruct (is_digit c); [|done]. simpl. apply IH.
Qed.

Lemma sforall_impl p q s : (forall c, p c = true -> q c = true) -> sforall p s = true -> sforall q s = true.
Proof. intros H. induction s; [done|]. simpl. rewrite !andb_true_iff. naive_solver. Qed.

Lemma no_bar_Itoa n : no_byte "|" (Itoa n) = true.
Proof.
  assert (Hd : forall k, 0 <= k -> no_byte "|" (digits k) = true).
  { intros k Hk. destruct (digits_spec k Hk) as [_ Hp]. apply parse_digits_are_digits in Hp.
    revert Hp. apply sforall_impl. intros c. case_bool_decide; by subst. }
  unfold Itoa. destruct (Z.ltb_spec n 0); [|by apply Hd]. cbn [no_byte sforall]. apply Hd. lia.
Qed.

Lemma bar_inj a b t u : no_byte "|" t = true -> no_byte "|" u = true -> a +:+ String "|" t = b +:+ String "|" u -> a = b.
Proof.
  intros Ht Hu. revert b. induction a as [|c a IH]; intros [|d b]; [done|..]; intros Heq; rewrite ?sapp_cons in Heq.
  - change ("" +:+ String "|" t) with (String "|" t) in Heq. injection Heq as Hc Heq. rewrite Heq, no_byte_app in Ht. by apply andb_prop in Ht as [_ Ht].
  - change ("" +:+ String "|" u) with (String "|" u) in Heq. injection Heq as Hc Heq. rewrite <- Heq, no_byte_app in Hu. by apply andb_prop in Hu as [_ Hu].
  - injection Heq as -> Heq. f_equal. by apply IH.
Qed.

Lemma dx_of_trimmed s : TrimSpace (dx_of s) = dx_of s.
Proof. unfold dx_of. case_bool_decide; apply TrimSpace_idemp. Qed.

(** A key says which call it is of. *)
Lemma aggregateKey_call s t n m : dx_of s <> "" -> aggregateKey (dx_of s) n = aggregateKey (dx_of t) m -> dx_of s = dx_of t.
Proof.
  intros Hs. unfold aggregateKey. rewrite !dx_of_trimmed. rewrite bool_decide_eq_false_2 by done.
  case_bool_decide.
  - intros Heq. exfalso. by destruct (dx_of s).
  - apply bar_inj; apply no_bar_Itoa.
Qed.

Lemma findBucket_spec a call n k o :
  findBucket a call n = (k, o) -> buckets a !! k = o /\ exists m, k = aggregateKey call m.
Proof.
  unfold findBucket. destruct (List.find _ _) as [k'|] eqn:Hf; intros [= <- <-].
  - split; [done|]. apply find_some in Hf as [[<-|Hin] _]; [by eexists|].
    unfold nearby_keys in Hin. apply in_flat_map in Hin as (delta & _ & [<-|[<-|[]]]); by eexists.
  - split; [|by eexists]. pose proof (find_none _ _ Hf _ (or_introl eq_refl)) as Hn. simpl in Hn.
    by destruct (buckets a !! _).
Qed.

(** ** The vote *)

Lemma collapse_loop_sub seen l r : r ∈ collapse_loop seen l -> r ∈ l /\ r_origin r ∉ seen.
Proof.
  revert seen. induction l as [|x l IH]; intros seen; simpl; [by rewrite elem_of_nil|].
  case_bool_decide as Hx.
  - intros [H1 H2]%IH. set_solver.
  - rewrite elem_of_cons. intros [->|[H1 H2]%IH]; set_solver.
Qed.

Lemma collapse_loop_distinct seen l : NoDup (map r_origin (collapse_loop seen l)).
Proof.
  revert seen. induction l as [|x l IH]; intros seen; simpl; [constructor|].
  case_bool_decide as Hx; [apply IH|]. simpl. constructor; [|apply IH].
  rewrite list_elem_of_fmap. intros (y & Hy & [_ Hn]%collapse_loop_sub). set_solver.
Qed.

Lemma weight_nonneg sc : (0 <= weight sc)%Q.
Proof.
  unfold weight. destruct (Qlt_b _ _) eqn:Hw; [by compute|].
  unfold Qlt_b in Hw. apply negb_false_iff, Qle_bool_iff in Hw. eapply Qle_trans; [|done]. by compute.
Qed.

(** The votes are for frequencies that were reported, with weights that are not negative. *)
Definition votes_ok (l : list aggregateRecord) (votes : list (Q * Q)) : Prop :=
  forall f v, (f, v) ∈ votes -> f ∈ map r_freqKHz l /\ (0 <= v)%Q.

Lemma add_vote_ok l votes r w :
  r ∈ l -> (0 <= w)%Q -> votes_ok l votes -> votes_ok l (add_vote (r_freqKHz r) w votes).
Proof.
  intros Hr Hw. induction votes as [|[f v] votes IH]; intros Hv f' v'; simpl.
  - rewrite list_elem_of_singleton. intros [= -> ->]. split; [by apply list_elem_of_fmap_2|].
    apply fadd_nonneg; [by compute|done].
  - destruct (Qeq_bool f (r_freqKHz r)).
    + rewrite elem_of_cons. intros [[= -> ->]|H]; [|apply Hv; by constructor].
      destruct (Hv f v) as [H1 H2]; [by constructor|]. split; [done|]. by apply fadd_nonneg.
    + rewrite elem_of_cons. intros [[= -> ->]|H]; [apply Hv; by constructor|].
      apply IH; [|done]. intros f2 v2 H2. apply Hv. by constructor.
Qed.

Lemma add_vote_ne f w votes : add_vote f w votes <> [].
Proof. destruct votes as [|[g v] votes]; simpl; [done|]. by destruct (Qeq_bool g f). Qed.

Lemma vote_loop_ok l rs votes m :
  rs ⊆ l -> votes_ok l votes -> votes_ok l (fold_left vote_step rs (votes, m)).1 /\
  (rs <> [] \/ votes <> [] -> (fold_left vote_step rs (votes, m)).1 <> []).
Proof.
  revert votes m. induction rs as [|r rs IH]; intros votes m Hsub Hv; simpl.
  - split; [done|]. naive_solver.
  - destruct (IH (add_vote (r_freqKHz r) (weight (score_of m r)) votes) (<[skimmerKey r:=score_of m r]> m)) as [H1 H2].
    + set_solver.
    + apply add_vote_ok; [set_solver|apply weight_nonneg|done].
    + split; [done|]. intros _. apply H2. right. apply add_vote_ne.
Qed.

Lemma elect_loop_in fv votes : fold_left elect_step votes fv = fv \/ fold_left elect_step votes fv ∈ votes.
Proof.
  revert fv. induction votes as [|[f v] votes IH]; intros fv; simpl; [by left|].
  destruct (IH (elect_step fv (f, v))) as [->|H]; [|right; by constructor].
  unfold elect_step. destruct fv as [g w]. case_match; [right; constructor|by left].
Qed.

(** The first frequency beats the initial value, so the winner is one of the voted. *)
Lemma elected l votes :
  votes <> [] -> votes_ok l votes -> (fold_left elect_step votes (0%Q, -1 # 1)).1 ∈ map r_freqKHz l.
Proof.
  destruct votes as [|[f v] votes]; [done|]. intros _ Hv. simpl.
  assert (Hb : Qlt_b (-1 # 1) v = true).
  { destruct (Hv f v) as [_ H0]; [by constructor|]. unfold Qlt_b. apply negb_true_iff.
    destruct (Qle_bool v (-1 # 1)) eqn:Hle; [|done]. apply Qle_bool_iff in Hle. exfalso.
    pose proof (Qle_trans _ _ _ H0 Hle) as Hc. by compute in Hc. }
  rewrite Hb. simpl. destruct (elect_loop_in (f, v) votes) as [->|Hw].
  - apply (Hv f v). by constructor.
  - destruct (fold_left _ votes _) as [g u]. apply (Hv g u). by constructor.
Qed.

(** ** The invariant *)

Definition record_at (c : SkimmerAggregateConfig) (h : list Spot) (k : string) (r : aggregateRecord) : Prop :=
  record_of c h r /\ dx_of (r_spot r) <> "" /\ exists n, k = aggregateKey (dx_of (r_spot r)) n.

Definition bucket_ok (c : SkimmerAggregateConfig) (h : list Spot) (k : string) (b : aggregateBucket) : Prop :=
  Z.of_nat (length (records b)) <= Z.max 0 (MaxRecordsPerKey c) /\ forall r, r ∈ records b -> record_at c h k r.

Definition table_ok (c : SkimmerAggregateConfig) (h : list Spot) (m : gmap string aggregateBucket) : Prop :=
  Z.of_nat (size m) <= Z.max 0 (MaxEntries c) /\ map_Forall (bucket_ok c h) m.

Definition agg_ok (c : SkimmerAggregateConfig) (h : list Spot) (a : SkimmerAggregator) : Prop :=
  cfg a = c /\ (forall s, s ∈ input a -> s ∈ h) /\ table_ok c h (buckets a) /\
  (forall s, s ∈ output a -> consolidated c h s).

Lemma record_of_mono c h h' r : (forall s, s ∈ h -> s ∈ h') -> record_of c h r -> record_of c h' r.
Proof. unfold record_of. naive_solver. Qed.

Lemma consolidated_mono c h h' s : (forall x, x ∈ h -> x ∈ h') -> consolidated c h s -> consolidated c h' s.
Proof.
  intros Hsub (r0 & rest & freq & tag & H1 & H2 & H3 & H4 & H5). exists r0, rest, freq, tag.
  do 4 (split; [done|]). intros r Hr. destruct (H5 r Hr) as [Ho Hd]. split; [|done]. by eapply record_of_mono.
Qed.

Lemma agg_ok_mono c h h' a : (forall s, s ∈ h -> s ∈ h') -> agg_ok c h a -> agg_ok c h' a.
Proof.
  intros Hsub (H1 & H2 & [H3 H4] & H5). split; [done|]. split; [naive_solver|]. split; [split; [done|]|].
  - eapply map_Forall_impl; [done|]. intros k b [Hl Hr]. split; [done|]. intros r Hin.
    destruct (Hr r Hin) as (Ho & Hd). split; [by eapply record_of_mono|done].
  - intros s Hs. eapply consolidated_mono; [done|]. by apply H5.
Qed.

(** Replacing a bucket, or filling a free slot. *)
Lemma table_ok_insert c h m k b :
  table_ok c h m -> bucket_ok c h k b -> is_Some (m !! k) \/ Z.of_nat (size m) < Z.max 0 (MaxEntries c) ->
  table_ok c h (<[k := b]> m).
Proof.
  intros [Hs Hm] Hb Hroom. split; [|by apply map_Forall_insert_2].
  destruct (m !! k) eqn:Hk.
  - rewrite map_size_insert_Some by (by eexists). done.
  - rewrite map_size_insert_None by done. destruct Hroom as [[? ?]|?]; [done|]. lia.
Qed.

Lemma table_ok_delete c h m k : table_ok c h m -> table_ok c h (delete k m).
Proof.
  intros [Hs Hm]. split; [|by apply map_Forall_delete].
  rewrite map_size_delete. destruct (m !! k); unfold id; lia.
Qed.

Lemma table_ok_move c h m k k' b :
  table_ok c h m -> is_Some (m !! k) -> bucket_ok c h k' b -> table_ok c h (<[k' := b]> (delete k m)).
Proof.
  intros Hm [x Hk] Hb. apply table_ok_insert; [by apply table_ok_delete|done|]. right.
  destruct Hm as [Hs _]. rewrite map_size_delete, Hk.
  enough (size m <> 0%nat) by lia. rewrite map_size_ne_0_lookup. by exists k, x.
Qed.

Lemma add_record_ok c h a k b s now :
  agg_ok c h a -> s ∈ h -> dx_of s <> "" -> (exists n, k = aggregateKey (dx_of s) n) -> bucket_ok c h k b ->
  is_Some (buckets a !! k) \/ Z.of_nat (size (buckets a)) < Z.max 0 (MaxEntries c) ->
  agg_ok c h (add_record a k b s now).
Proof.
  intros (Hc & Hi & Ht & Ho) Hs Hd Hk [Hl Hr] Hroom. unfold add_record.
  destruct (Z.leb_spec (MaxRecordsPerKey (cfg a)) (Z.of_nat (length (records b)))).
  - split; [done|]. split; [done|]. split; [|done]. by apply table_ok_insert.
  - split; [done|]. split; [done|]. split; [|done]. apply table_ok_insert; [done| |done]. split.
    + simpl. rewrite length_app. simpl. rewrite Hc in *. lia.
    + intros r. simpl. rewrite elem_of_app, list_elem_of_singleton. intros [Hin| ->]; [by apply Hr|].
      split; [|done]. by rewrite <- Hc.
Qed.

Lemma ingest_ok c h a s now : agg_ok c h a -> s ∈ h -> agg_ok c h (ingest a s now).
Proof.
  intros Ha Hs. unfold ingest. destruct (_ && _); [done|]. case_bool_decide as Hd; [done|].
  destruct (findBucket a (dx_of s) _) as [k o] eqn:Hf. apply findBucket_spec in Hf as [Hk Hn].
  pose proof Ha as (_ & _ & [_ Hm] & _).
  destruct o as [b|].
  - pose proof (map_Forall_lookup_1 _ _ _ _ Hm Hk) as Hb. destruct (records b) eqn:Hrec.
    + destruct (_ <? _); [done|]. apply add_record_ok; try done; [|left; by eexists].
      split; [simpl; lia|]. intros r. simpl. by rewrite elem_of_nil.
    + apply add_record_ok; try done. left. by eexists.
  - destruct (Z.leb_spec (MaxEntries (cfg a)) (Z.of_nat (size (buckets a)))); [done|].
    apply add_record_ok; try done; [|right; destruct Ha as [<- _]; lia].
    split; [simpl; lia|]. intros r. simpl. by rewrite elem_of_nil.
Qed.

Section Grounded.
Context (order_queue : gset string -> list string) (order_votes : list (Q * Q) -> list (Q * Q)).
Context (order_votes_perm : forall l, order_votes l ≡ₚ l).

Lemma consensus_reported a l now :
  l <> [] -> exists freq n m, consensusFrequency order_votes a l now = (freq, n, with_skimmers m a) /\ freq ∈ map r_freqKHz l.
Proof.
  intros Hl. unfold consensusFrequency.
  destruct (vote_loop_ok l l [] (skimmers a)) as [Hv Hne]; [done|by intros ? ? ?%elem_of_nil|].
  destruct (fold_left vote_step l ([], skimmers a)) as [votes m]. simpl in *.
  pose proof (elected l (order_votes votes)) as He.
  destruct (fold_left elect_step (order_votes votes) (0%Q, -1 # 1)) as [freq v]. simpl in *.
  do 3 eexists. split; [done|]. apply He.
  - intros Heq. pose proof (order_votes_perm votes) as Hp. rewrite Heq in Hp. apply Permutation_nil in Hp. naive_solver.
  - intros f w Hin. apply Hv. by rewrite <- (order_votes_perm votes).
Qed.

Lemma with_table_ok c h a q m :
  agg_ok c h a -> table_ok c h m -> agg_ok c h (with_buckets m (with_queue q a)).
Proof. intros (H1 & H2 & _ & H4) Hm. by split. Qed.

Lemma agg_emit_ok c h a s : agg_ok c h a -> consolidated c h s -> agg_ok c h (agg_emit s a).
Proof.
  intros (H1 & H2 & H3 & H4) Hs. unfold agg_emit. destruct (_ <? _).
  - split; [done|]. split; [done|]. split; [done|]. simpl. intros x. rewrite elem_of_app, list_elem_of_singleton. naive_solver.
  - by split.
Qed.

Lemma with_skimmers_ok c h a m : agg_ok c h a -> agg_ok c h (with_skimmers m a).
Proof. intros (H1 & H2 & H3 & H4). by split. Qed.

Lemma agg_emit_buckets s a : buckets (agg_emit s a) = buckets a /\ queue (agg_emit s a) = queue a.
Proof. unfold agg_emit. by destruct (_ <? _). Qed.

Lemma emit_bucket_ok c h a k b quality r0 rest now :
  agg_ok c h a -> buckets a !! k = Some b ->
  NoDup (map r_origin (r0 :: rest)) -> MinQuality c <= Z.of_nat (length (r0 :: rest)) ->
  (forall r, r ∈ r0 :: rest -> record_at c h k r) ->
  agg_ok c h (emit_bucket order_votes a k b quality r0 rest now).
Proof.
  intros Ha Hk Hnd Hmin Hr. unfold emit_bucket. cbv zeta.
  destruct (consensus_reported a (r0 :: rest) now) as (freq & n & m & -> & Hf); [done|].
  set (s := cloneForAggregate _ _ _).
  assert (Hs : consolidated c h s).
  { exists r0, rest, freq. eexists. split; [done|]. do 3 (split; [done|]). intros r Hin.
    destruct (Hr r Hin) as (Ho & Hd & [i Hi]). split; [done|].
    destruct (Hr r0) as (_ & _ & [j Hj]); [by constructor|].
    apply (aggregateKey_call _ _ i j Hd). congruence. }
  pose proof (agg_emit_ok _ _ _ _ (with_skimmers_ok _ _ _ m Ha) Hs) as He.
  destruct (agg_emit_buckets s (with_skimmers m a)) as [Hb _].
  assert (Hempty : forall k' t q, bucket_ok c h k' (mkBucket t now q [])).
  { intros. split; [simpl; lia|]. intros r. simpl. by rewrite elem_of_nil. }
  destruct (_ && _); (apply with_table_ok; [done|]); cbn [buckets with_queue]; rewrite Hb; cbn [buckets with_skimmers].
  - apply table_ok_move; [apply Ha|by eexists|apply Hempty].
  - apply table_ok_insert; [apply Ha|apply Hempty|left; by eexists].
Qed.

Lemma forget_ok c h a k : agg_ok c h a -> agg_ok c h (forget k a).
Proof.
  intros (H1 & H2 & H3 & H4). split; [done|]. split; [done|]. split; [|done]. by apply table_ok_delete.
Qed.

Lemma process_key_ok c h now a k : agg_ok c h a -> agg_ok c h (process_key order_votes now a k).
Proof.
  intros Ha. pose proof Ha as (Hc & _ & [_ Hm] & _). unfold process_key.
  destruct (buckets a !! k) as [b|] eqn:Hk; [|by apply with_table_ok; [|apply Ha]].
  destruct (map_Forall_lookup_1 _ _ _ _ Hm Hk) as [_ Hr].
  destruct (records b) as [|x l] eqn:Hrec.
  { destruct (_ || _); [by apply forget_ok|done]. }
  unfold collapseByOrigin. set (u := collapse_loop _ _).
  destruct (_ && _ && _); [done|]. destruct (_ && _); [by apply (forget_ok c h a k Ha)|].
  destruct (Z.ltb_spec (Z.of_nat (length u)) (MinQuality (cfg a))); [done|].
  destruct u as [|r0 rest] eqn:Hu; [done|]. subst u. apply emit_bucket_ok; [done|done|..].
  - rewrite <- Hu. apply collapse_loop_distinct.
  - by rewrite <- Hc.
  - intros r Hin. apply Hr. rewrite <- Hu in Hin. by apply collapse_loop_sub in Hin as [? _].
Qed.

Lemma process_keys_ok c h now l a : agg_ok c h a -> agg_ok c h (fold_left (process_key order_votes now) l a).
Proof. revert a. induction l as [|k l IH]; intros a Ha; [done|]. apply IH. by apply process_key_ok. Qed.

Lemma agg_step_ok c h a e :
  agg_ok c h a -> agg_ok c (h ++ offered [e]) (agg_step order_queue order_votes a e).
Proof.
  intros Ha. apply (agg_ok_mono c h (h ++ offered [e])) in Ha; [|set_solver].
  destruct e as [s|now|now|]; simpl.
  - unfold Enqueue. destruct (_ <? _); [|done]. destruct Ha as (H1 & H2 & H3 & H4).
    split; [done|]. split; [|by split]. simpl. intros x. rewrite elem_of_app, list_elem_of_singleton.
    intros [?| ->]; [by apply H2|]. set_solver.
  - destruct (input a) as [|s rest] eqn:Hi; [done|]. destruct Ha as (H1 & H2 & H3 & H4). rewrite Hi in H2.
    apply ingest_ok; [|apply H2; by constructor]. split; [done|]. split; [|done].
    intros x Hx. apply H2. by constructor.
  - by apply with_skimmers_ok, process_keys_ok.
  - destruct Ha as (H1 & H2 & H3 & H4). split; [done|]. split; [done|]. split; [done|]. simpl.
    intros s Hs. apply H4. destruct (output a); [done|]. by constructor.
Qed.

Lemma agg_run_ok c h a evs :
  agg_ok c h a -> agg_ok c (h ++ offered evs) (agg_run order_queue order_votes a evs).
Proof.
  revert h a. induction evs as [|e evs IH]; intros h a Ha; [by rewrite app_nil_r|].
  replace (h ++ offered (e :: evs)) with ((h ++ offered [e]) ++ offered evs).
  - by apply IH, agg_step_ok.
  - rewrite <- app_assoc. f_equal. by destruct e.
Qed.

Lemma agg_new_ok c now : agg_ok c [] (newSkimmerAggregator c now).
Proof.
  split; [done|]. split; [by intros ? ?%elem_of_nil|]. split; [|by intros ? ?%elem_of_nil].
  split; [|apply map_Forall_empty]. simpl. rewrite map_size_empty. lia.
Qed.
End Grounded.

(** C29: Whatever the order of offers, reads, ticks and broadcasts, and in whatever order
    Go visits its maps: the aggregator holds at most [MaxEntries] buckets with at most
    [MaxRecordsPerKey] records each, and every spot it puts out is the clone of the best
    of at least [MinQuality] records of spots that were offered, from pairwise distinct
    skimmers, all of one DX call, at a frequency one of those skimmers reported. *)
Theorem aggregate_emits_grounded order_queue order_votes
    (order_votes_perm : forall l, order_votes l ≡ₚ l) c now evs :
  let a := agg_run order_queue order_votes (newSkimmerAggregator c now) evs in
  Z.of_nat (size (buckets a)) <= Z.max 0 (MaxEntries c) /\
  (forall k b, buckets a !! k = Some b -> Z.of_nat (length (records b)) <= Z.max 0 (MaxRecordsPerKey c)) /\
  (forall s, s ∈ output a -> consolidated c (offered evs) s).
Proof.
  cbv zeta. destruct (agg_run_ok order_queue order_votes order_votes_perm c [] _ evs (agg_new_ok c now)) as (_ & _ & [H1 H2] & H3).
  split; [done|]. split; [|done]. intros k b Hk. by apply (map_Forall_lookup_1 _ _ _ _ H2 Hk).
Qed.

(** ** Emitted keys are kept *)

(** No bucket near the spot's call and frequency. *)
Definition unseen (a : SkimmerAggregator) (s : Spot) : Prop :=
  snd (findBucket a (dx_of s) (nqrg_of (roundFrequencyTo100Hz (Frequency s)))) = None.

Definition stuck (a0 a : SkimmerAggregator) : Prop :=
  cfg a = cfg a0 /\ buckets a = buckets a0 /\ queue a = ∅ /\ (forall s, s ∈ input a -> unseen a0 s) /\ output a `suffix_of` output a0.

Lemma stuck_ingest a0 a s now :
  MaxEntries (cfg a0) <= Z.of_nat (size (buckets a0)) -> stuck a0 a -> unseen a0 s -> stuck a0 (ingest a s now).
Proof.
  intros Hfull Ha Hs. pose proof Ha as (Hc & Hb & Hq & Hi & Ho). unfold ingest.
  destruct (_ && _); [done|]. case_bool_decide; [done|].
  unfold unseen, findBucket in *. rewrite Hb, Hc. destruct (List.find _ _) as [k|] eqn:Hf; simpl in Hs.
  - apply find_some in Hf as [_ Hf]. by rewrite Hs in Hf.
  - rewrite (proj2 (Z.leb_le _ _) Hfull). done.
Qed.

Lemma stuck_step oq ov a0 a e :
  oq ∅ = [] -> MaxEntries (cfg a0) <= Z.of_nat (size (buckets a0)) ->
  stuck a0 a -> (forall s, s ∈ offered [e] -> unseen a0 s) -> stuck a0 (agg_step oq ov a e).
Proof.
  intros Hoq Hfull Ha Hnew. pose proof Ha as (Hc & Hb & Hq & Hi & Ho). destruct e as [s|now|now|]; simpl.
  - unfold Enqueue. destruct (_ <? _); [|done]. split; [done|]. split; [done|]. split; [done|]. split; [|done].
    simpl. intros x. rewrite elem_of_app. intros [?|?]; [by apply Hi|]. by apply Hnew.
  - destruct (input a) as [|s rest] eqn:Hin; [done|]. apply stuck_ingest; [done| |apply Hi; by constructor].
    split; [done|]. split; [done|]. split; [done|]. split; [|done]. intros x Hx. apply Hi. by constructor.
  - unfold processQueue. rewrite Hq, Hoq. by split.
  - split; [done|]. split; [done|]. split; [done|]. split; [done|]. simpl.
    destruct (output a) as [|x l]; [done|]. simpl. etransitivity; [|done]. by exists [x].
Qed.

Lemma stuck_run oq ov a0 a evs :
  oq ∅ = [] -> MaxEntries (cfg a0) <= Z.of_nat (size (buckets a0)) ->
  stuck a0 a -> (forall s, s ∈ offered evs -> unseen a0 s) -> stuck a0 (agg_run oq ov a evs).
Proof.
  intros Hoq Hfull. revert a. induction evs as [|e evs IH]; intros a Ha Hnew; [done|].
  simpl. apply IH.
  - apply stuck_step; [done|done|done|]. intros s Hs. apply Hnew. destruct e; set_solver.
  - intros s Hs. apply Hnew. destruct e; set_solver.
Qed.

(** A bucket that has emitted leaves the queue but not the table, and only queued keys
    are ever looked at again: once [MaxEntries] calls have been emitted, no spot of a
    call and frequency outside the table is accepted any more, however much time passes
    ([CacheSeconds] included), and nothing more goes out. *)
Theorem aggregate_full_forever oq ov a evs :
  oq ∅ = [] -> queue a = ∅ -> input a = [] -> MaxEntries (cfg a) <= Z.of_nat (size (buckets a)) ->
  (forall s, s ∈ offered evs -> unseen a s) ->
  buckets (agg_run oq ov a evs) = buckets a /\ output (agg_run oq ov a evs) `suffix_of` output a.
Proof.
  intros Hoq Hq Hi Hfull Hnew.
  destruct (stuck_run oq ov a a evs) as (_ & ? & _ & _ & ?); [done|done| |done|done].
  do 3 (split; [done|]). split; [|reflexivity]. rewrite Hi. by intros ? ?%elem_of_nil.
Qed.

(** *** A run: two skimmers agree on a call, then the table is full. *)

Definition sample_cfg : SkimmerAggregateConfig := mkAggConfig true 5 20 30 600 2 9 1 5 0 1 8 4 4 true.

Definition heard (de dx : string) (f : Q) : agg_event := EvOffer (sample_spot dx de f (1000 * second)).

Definition sample_run : list agg_event :=
  [heard "W3LPL-1" "K1ABC" 14025; heard "N6TV-1" "K1ABC" (140251 # 10); heard "W3LPL-2" "K1ABC" 14025;
   EvRead (1000 * second); EvRead (1001 * second); EvRead (1002 * second); EvTick (1004 * second); EvTick (1006 * second)].

Definition sample_end : SkimmerAggregator :=
  agg_run elements (fun l => l) (newSkimmerAggregator sample_cfg 0) sample_run.

Lemma aggregate_emits_grounded_witness :
  map (fun s => (DXCall s, Qred (Frequency s), Comment s)) (output sample_end) = [("K1ABC", 14025%Q, "Q:2*")] /\
  forall s, s ∈ output sample_end -> consolidated sample_cfg (offered sample_run) s.
Proof.
  split; [vm_compute; reflexivity|].
  unfold sample_end. exact (proj2 (proj2 (aggregate_emits_grounded elements (fun l => l) (fun l => reflexivity l) sample_cfg 0 sample_run))).
Defined.

Definition late_spots : list agg_event :=
  [heard "W3LPL" "JA1XYZ" 21025; EvRead (1000000 * second); heard "N6TV" "JA1XYZ" 21025; EvRead (1000000 * second);
   EvTick (2000000 * second)].

Lemma aggregate_full_forever_witness :
  size (buckets sample_end) = 1%nat /\
  buckets (agg_run elements (fun l => l) sample_end late_spots) = buckets sample_end /\
  output (agg_run elements (fun l => l) sample_end late_spots) `suffix_of` output sample_end.
Proof.
  split; [vm_compute; reflexivity|].
  refine (aggregate_full_forever elements (fun l => l) sample_end late_spots _ _ _ _ _).
  - vm_compute. reflexivity.
  - vm_compute. reflexivity.
  - vm_compute. reflexivity.
  - vm_compute. discriminate.
  - apply list.Forall_forall. repeat constructor; vm_compute; reflexivity.
Defined.
