(* ===== verification/Ingest.v ===== *)
(** * Ingest: validation of spots before deduplication

    [ingest_validation.go] with [metadataFromPrefix] of [main.go]: every spot of every
    feed passes one validator that looks both calls up in the CTY database (through the
    cache of call metadata), refreshes the metadata of the spot and asks the license
    database about US spotters.  The validator goroutine owns its state, so one spot is
    one step; what it tells the rest of the program through its callbacks is the list of
    [ingest_event]s.

    Only spots whose calls a country issues or that are on the allow list get through
    ([ingest_passes_known_calls]), and a US spotter without a license never does
    ([ingest_stops_unlicensed]). *)

From S2P Require Import Prelude GoText GoNum GoTime Callsign Bands Spot Lru Cty License Quality CallMeta.
From Stdlib Require Import QArith.

Local Open Scope string_scope.
Local Open Scope list_scope.
Local Open Scope Z_scope.

(** ** Setters of the metadata *)

Definition set_DXMetadata (v : CallMetadata) (s : Spot) : Spot :=
  mkSpot (ID s) (DXCall s) (DECall s) (Frequency s) (Band s) (Mode s) (Report s) (Time s) (Comment s) (SourceType s)
    (SourceNode s) (SpotterIP s) (TTL s) (IsHuman s) (IsTestSpotter s) (IsBeacon s) (HasReport s) v (DEMetadata s)
    (Confidence s) (formatted s) (ModeNorm s) (BandNorm s) (DXCallNorm s) (DECallNorm s) (DXContinentNorm s)
    (DEContinentNorm s) (DXGridNorm s) (DEGridNorm s) (DXGrid2 s) (DEGrid2 s) (DXCellID s) (DECellID s)
    (DECallStripped s) (DECallNormStripped s).

Definition set_DEMetadata (v : CallMetadata) (s : Spot) : Spot :=
  mkSpot (ID s) (DXCall s) (DECall s) (Frequency s) (Band s) (Mode s) (Report s) (Time s) (Comment s) (SourceType s)
    (SourceNode s) (SpotterIP s) (TTL s) (IsHuman s) (IsTestSpotter s) (IsBeacon s) (HasReport s) (DXMetadata s) v
    (Confidence s) (formatted s) (ModeNorm s) (BandNorm s) (DXCallNorm s) (DECallNorm s) (DXContinentNorm s)
    (DEContinentNorm s) (DXGridNorm s) (DEGridNorm s) (DXGrid2 s) (DEGrid2 s) (DXCellID s) (DECellID s)
    (DECallStripped s) (DECallNormStripped s).

(** ** Throttled counters *)

Record rateCounter := mkRate { rc_interval : Z; rc_last : Z; rc_total : Z }.

Definition newRateCounter (interval : Z) : rateCounter := mkRate interval 0 0.

(** [(total, shouldLog)]; the validator is the only caller, so the exchange succeeds at once. *)
Definition Inc (c : rateCounter) (now : Z) : Z * bool * rateCounter :=
  let total := uint64 (rc_total c + 1) in
  if rc_interval c <=? 0 then (total, true, mkRate (rc_interval c) (rc_last c) total)
  else if int64 (now - rc_last c) <? rc_interval c then (total, false, mkRate (rc_interval c) (rc_last c) total)
  else (total, true, mkRate (rc_interval c) now total).

Definition defaultIngestCTYLogInterval : Z := 30 * second.
Definition defaultIngestDropLogInterval : Z := 30 * second.

(** ** Metadata *)

Definition metadataFromPrefix (info : option PrefixInfo) : CallMetadata :=
  match info with
  | None => empty_metadata
  | Some i => mkCallMetadata (p_Continent i) (p_Country i) (p_CQZone i) "" false (p_ITUZone i) (p_ADIF i)
  end.

(** The refreshed metadata keeps the grid that was attached. *)
Definition keep_grid (old new : CallMetadata) : CallMetadata :=
  let g := TrimSpace (Grid old) in
  if bool_decide (g = "") then new
  else mkCallMetadata (Continent new) (Country new) (CQZone new) g (GridDerived old) (ITUZone new) (ADIF new).

Definition refresh_metadata (dx de : option PrefixInfo) (s : Spot) : Spot :=
  let s' := set_DEMetadata (keep_grid (DEMetadata s) (metadataFromPrefix de))
              (set_DXMetadata (keep_grid (DXMetadata s) (metadataFromPrefix dx)) s) in
  EnsureNormalized (InvalidateMetadataCache s').

Definition dx_call (s : Spot) : string := if bool_decide (DXCallNorm s = "") then DXCall s else DXCallNorm s.
Definition de_call (s : Spot) : string := if bool_decide (DECallNorm s = "") then DECall s else DECallNorm s.

Definition license_form (call : string) : string := TrimSpace (NormalizeForLicense call).

(** A call as the metadata lookups spell it. *)
Definition lookup_form (call : string) : string :=
  let l := normalizeCallForMetadata call in if bool_decide (l = "") then call else l.

(** ** The validator *)

Inductive ingest_event :=
  | ECty (call : string) (info : PrefixInfo)                              (* ctyUpdater *)
  | EGrid (call grid : string)                                            (* gridUpdate *)
  | EUnlicensed (source role call mode : string) (freq : Q)               (* unlicensedReporter *)
  | EDropLine (line : string).                                            (* dropReporter *)

Record ingestValidator := mkValidator {
  v_cty : option CTYDatabase;          (* what [ctyLookup] gives *)
  v_meta : option callMetaCache;
  v_requireCTY : bool;
  ctyDropDXCounter : rateCounter;
  ctyDropDECounter : rateCounter;
  invalidDropDX : rateCounter;
  invalidDropDE : rateCounter;
  dedupDropCounter : rateCounter;
  ingestTotal : Z;
  v_license : licenseState;            (* the state of package uls *)
  v_events : list ingest_event;
  dedupInput : list Spot;
  dedupCap : Z
}.

Definition newIngestValidator (cty : option CTYDatabase) (meta : option callMetaCache) (requireCTY : bool)
    (license : licenseState) (cap : Z) : ingestValidator :=
  mkValidator cty meta requireCTY (newRateCounter defaultIngestCTYLogInterval) (newRateCounter defaultIngestCTYLogInterval)
    (newRateCounter defaultIngestDropLogInterval) (newRateCounter defaultIngestDropLogInterval)
    (newRateCounter defaultIngestDropLogInterval) 0 license [] [] cap.

Definition with_lookups (db : CTYDatabase) (m : option callMetaCache) (v : ingestValidator) : ingestValidator :=
  mkValidator (Some db) m (v_requireCTY v) (ctyDropDXCounter v) (ctyDropDECounter v) (invalidDropDX v) (invalidDropDE v)
    (dedupDropCounter v) (ingestTotal v) (v_license v) (v_events v) (dedupInput v) (dedupCap v).
Definition with_license (l : licenseState) (v : ingestValidator) : ingestValidator :=
  mkValidator (v_cty v) (v_meta v) (v_requireCTY v) (ctyDropDXCounter v) (ctyDropDECounter v) (invalidDropDX v) (invalidDropDE v)
    (dedupDropCounter v) (ingestTotal v) l (v_events v) (dedupInput v) (dedupCap v).
Definition add_event (e : ingest_event) (v : ingestValidator) : ingestValidator :=
  mkValidator (v_cty v) (v_meta v) (v_requireCTY v) (ctyDropDXCounter v) (ctyDropDECounter v) (invalidDropDX v) (invalidDropDE v)
    (dedupDropCounter v) (ingestTotal v) (v_license v) (v_events v ++ [e]) (dedupInput v) (dedupCap v).
Definition with_counters (a b c d : rateCounter) (v : ingestValidator) : ingestValidator :=
  mkValidator (v_cty v) (v_meta v) (v_requireCTY v) a b c d
    (dedupDropCounter v) (ingestTotal v) (v_license v) (v_events v) (dedupInput v) (dedupCap v).

Section Validate.
Variable al : option Allowlist.

(** The metadata cache, or the database itself when there is no cache. *)
Definition lookup_info (m : option callMetaCache) (db : CTYDatabase) (call : string)
    : option PrefixInfo * bool * option callMetaCache * CTYDatabase :=
  match m with
  | Some c => let '(info, cached, c, db) := LookupCTY al c call db in (info, cached, Some c, db)
  | None => let '(info, db) := LookupCallsignPortable db call in (info, true, None, db)
  end.

Definition lookupCTY (v : ingestValidator) (db : CTYDatabase) (call : string) : option PrefixInfo * ingestValidator * CTYDatabase :=
  if bool_decide (call = "") then (None, v, db)
  else if shouldRejectCTYCall al call then (None, v, db)
  else
    let '(info, cached, m, db) := lookup_info (v_meta v) db call in
    let v := with_lookups db m v in
    (info, match info with Some i => if cached then v else add_event (ECty call i) v | None => v end, db).

Definition ingestSourceLabel (s : Spot) : string :=
  let label := TrimSpace (SourceNode s) in
  if negb (bool_decide (label = "")) then label
  else if negb (bool_decide (SourceType s = "")) then SourceType s else "unknown".

Definition report_line (shouldLog : bool) (line : string) (v : ingestValidator) : ingestValidator :=
  if shouldLog then add_event (EDropLine line) v else v.

Definition logCTYDrop (role call : string) (s : Spot) (now : Z) (v : ingestValidator) : ingestValidator :=
  let de := bool_decide (role = "DE") in
  let '(count, ok, c) := Inc (if de then ctyDropDECounter v else ctyDropDXCounter v) now in
  report_line ok ("CTY drop: unknown " +:+ role +:+ " " +:+ call +:+ " at " +:+ FormatFloat1 (Frequency s)
                  +:+ " kHz (source=" +:+ ingestSourceLabel s +:+ " total=" +:+ Itoa count +:+ ")")
    (if de then with_counters (ctyDropDXCounter v) c (invalidDropDX v) (invalidDropDE v) v
     else with_counters c (ctyDropDECounter v) (invalidDropDX v) (invalidDropDE v) v).

Definition logInvalidDrop (role call : string) (s : Spot) (now : Z) (v : ingestValidator) : ingestValidator :=
  let de := bool_decide (role = "DE") in
  let '(count, ok, c) := Inc (if de then invalidDropDE v else invalidDropDX v) now in
  report_line ok ("CTY drop: invalid " +:+ role +:+ " " +:+ call +:+ " (>=3 leading letters) at " +:+ FormatFloat1 (Frequency s)
                  +:+ " kHz (source=" +:+ ingestSourceLabel s +:+ " total=" +:+ Itoa count +:+ ")")
    (if de then with_counters (ctyDropDXCounter v) (ctyDropDECounter v) (invalidDropDX v) c v
     else with_counters (ctyDropDXCounter v) (ctyDropDECounter v) c (invalidDropDE v) v).

(** A spot passes, is dropped, or waits for a database. *)
Inductive verdict := Passed | Dropped | Paused.

(** The license of a US spotter. *)
Definition check_license (s : Spot) (deCall : string) (fcc : option (nat -> query_result)) (now : Z)
    (v : ingestValidator) (db : CTYDatabase) : verdict * ingestValidator :=
  let callKey := license_form deCall in
  if bool_decide (callKey = "") then (Passed, v)
  else
    let '(info, v, db) := lookupCTY v db callKey in
    match info with
    | Some i =>
        if p_ADIF i =? 291 then
          if AllowlistMatch al (p_ADIF i) callKey then (Passed, v)
          else
            let '(licensed, l) := IsLicensedUS (v_license v) callKey fcc now in
            let v := with_license l v in
            if licensed then (Passed, v)
            else (Dropped, add_event (EUnlicensed (ingestSourceLabel s) "DE" callKey (ModeNorm s) (Frequency s)) v)
        else (Passed, v)
    | None => (Passed, v)
    end.

(** After both lookups. *)
Definition finish (s : Spot) (deCall : string) (dxInfo deInfo : option PrefixInfo) (fcc : option (nat -> query_result)) (now : Z)
    (v : ingestValidator) (db : CTYDatabase) : verdict * Spot * ingestValidator :=
  let deGrid := TrimSpace (Grid (DEMetadata s)) in
  let s := refresh_metadata dxInfo deInfo s in
  let v := if bool_decide (deGrid = "") then v else add_event (EGrid (lookup_form deCall) deGrid) v in
  if IsTestSpotter s then (Passed, s, v)
  else let '(r, v) := check_license s deCall fcc now v db in (r, s, v).

(** One role: the call is known, excused by the allow list, or the spot is dropped. *)
Definition known_or_allowed (v : ingestValidator) (db : CTYDatabase) (call : string)
    : bool * option PrefixInfo * ingestValidator * CTYDatabase :=
  let '(info, v, db) := lookupCTY v db (lookup_form call) in
  match info with
  | Some _ => (true, info, v, db)
  | None => (AllowlistMatchAny al (license_form call), None, v, db)
  end.

Definition validateSpot (v : ingestValidator) (s : Spot) (fcc : option (nat -> query_result)) (now : Z)
    : verdict * Spot * ingestValidator :=
  let s := EnsureNormalized s in
  match v_cty v with
  | None => (if v_requireCTY v then Paused else Passed, s, v)
  | Some db =>
      let dxCall := dx_call s in
      let deCall := de_call s in
      if shouldRejectCTYCall al dxCall then (Dropped, s, logInvalidDrop "DX" dxCall s now v)
      else if shouldRejectCTYCall al deCall then (Dropped, s, logInvalidDrop "DE" deCall s now v)
      else
        let '(ok, dxInfo, v, db) := known_or_allowed v db dxCall in
        if negb ok then (Dropped, s, logCTYDrop "DX" dxCall s now v)
        else
          let '(ok, deInfo, v, db) := known_or_allowed v db deCall in
          if negb ok then (Dropped, s, logCTYDrop "DE" deCall s now v)
          else finish s deCall dxInfo deInfo fcc now v db
  end.

(** One turn of the loop: [None] while the validator waits for a database. *)
Definition ingest_one (v : ingestValidator) (s : Spot) (fcc : option (nat -> query_result)) (now : Z) : option ingestValidator :=
  let count v := mkValidator (v_cty v) (v_meta v) (v_requireCTY v) (ctyDropDXCounter v) (ctyDropDECounter v) (invalidDropDX v)
    (invalidDropDE v) (dedupDropCounter v) (uint64 (ingestTotal v + 1)) (v_license v) (v_events v) (dedupInput v) (dedupCap v) in
  match validateSpot (count v) s fcc now with
  | (Paused, _, _) => None
  | (Dropped, _, v) => Some v
  | (Passed, s, v) =>
      Some (let full := dedupCap v <=? Z.of_nat (length (dedupInput v)) in
            let '(_, _, c) := Inc (dedupDropCounter v) now in
            mkValidator (v_cty v) (v_meta v) (v_requireCTY v) (ctyDropDXCounter v) (ctyDropDECounter v) (invalidDropDX v)
              (invalidDropDE v) (if full then c else dedupDropCounter v) (ingestTotal v) (v_license v) (v_events v)
              (if full then dedupInput v else dedupInput v ++ [s]) (dedupCap v))
  end.
End Validate.

(** ** What the lookups answer *)

Section Lookups.
Context (al : option Allowlist) (db0 : CTYDatabase).

(** The database has the keys of [db0] and the cache answers for it and for [recs]. *)
Definition meta_inv (recs : list gridRecord) (m : option callMetaCache) (db : CTYDatabase) : Prop :=
  same_keys db db0 /\ match m with Some c => exists n, meta_ok (explained al db0 recs) n c | None => True end.

Lemma lookup_info_spec recs m db call :
  meta_inv recs m db -> shouldRejectCTYCall al call = false ->
  let '(info, _, m', db') := lookup_info al m db call in
  explained_answer al db0 recs call info /\ meta_inv recs m' db'.
Proof.
  intros [Hk Hm] Hr. unfold lookup_info. destruct m as [c|].
  - destruct Hm as [n Hn]. pose proof (LookupCTY_spec al db0 n recs c call db Hk Hn) as H.
    destruct (LookupCTY al c call db) as [[[r cached] c'] db']. destruct H as (H1 & H2 & H3). split; [done|]. split; [done|]. by exists n.
  - destruct (portable_same_keys db db0 call Hk) as [E1 E2]. destruct (LookupCallsignPortable db call) as [r db']. simpl in *.
    split; [|done]. left. unfold cty_answer. by rewrite Hr.
Qed.

(** The part of the validator the lookups change. *)
Definition v_ok (recs : list gridRecord) (v : ingestValidator) : Prop :=
  exists db, v_cty v = Some db /\ meta_inv recs (v_meta v) db.

(** What stays as it was. *)
Definition same_gate (v' v : ingestValidator) : Prop :=
  v_license v' = v_license v /\ dedupInput v' = dedupInput v /\ dedupCap v' = dedupCap v.

Lemma lookupCTY_spec recs v db call :
  v_cty v = Some db -> meta_inv recs (v_meta v) db ->
  let '(info, v', db') := lookupCTY al v db call in
  v_cty v' = Some db' /\ meta_inv recs (v_meta v') db' /\ same_gate v' v /\
  match info with
  | Some i => call <> "" /\ explained_answer al db0 recs call (Some i)
  | None => call = "" \/ shouldRejectCTYCall al call = true \/ explained_answer al db0 recs call None
  end.
Proof.
  intros Hv Hm. unfold lookupCTY. case_bool_decide; [by repeat split; auto; apply Hm|].
  destruct (shouldRejectCTYCall al call) eqn:Hr; [by repeat split; auto; apply Hm|].
  pose proof (lookup_info_spec recs (v_meta v) db call Hm Hr) as H1.
  destruct (lookup_info al (v_meta v) db call) as [[[info cached] m] db']. destruct H1 as [H1 H2].
  destruct info as [i|]; [destruct cached|]; (split; [done|]); (split; [done|]); (split; [done|]); auto.
Qed.

(** What the gate accepts as the call of a role, with the metadata it gives. *)
Definition admitted (recs : list gridRecord) (call : string) (m : CallMetadata) : Prop :=
  shouldRejectCTYCall al call = false /\
  ((exists i, explained_answer al db0 recs (lookup_form call) (Some i) /\
      Continent m = p_Continent i /\ Country m = p_Country i /\ CQZone m = p_CQZone i /\ ITUZone m = p_ITUZone i /\ ADIF m = p_ADIF i) \/
   (AllowlistMatchAny al (license_form call) = true /\ Country m = "" /\ ADIF m = 0)).

Lemma known_or_allowed_spec recs v db call :
  v_cty v = Some db -> meta_inv recs (v_meta v) db -> shouldRejectCTYCall al call = false ->
  let '(ok, info, v', db') := known_or_allowed al v db call in
  v_cty v' = Some db' /\ meta_inv recs (v_meta v') db' /\ same_gate v' v /\
  (ok = true -> forall old, admitted recs call (keep_grid old (metadataFromPrefix info))).
Proof.
  intros Hv Hm Hr. unfold known_or_allowed. pose proof (lookupCTY_spec recs v db (lookup_form call) Hv Hm) as H.
  destruct (lookupCTY al v db (lookup_form call)) as [[info v'] db']. destruct H as (H1 & H2 & H3 & H4).
  destruct info as [i|]; (split; [done|]); (split; [done|]); (split; [done|]); intros Hok old; (split; [done|]).
  - left. exists i. split; [apply H4|]. unfold keep_grid. by case_bool_decide.
  - right. split; [done|]. unfold keep_grid. by case_bool_decide.
Qed.

Lemma refresh_calls dx de s :
  dx_call (refresh_metadata dx de s) = dx_call (EnsureNormalized s) /\ de_call (refresh_metadata dx de s) = de_call (EnsureNormalized s).
Proof. done. Qed.

(** The license check leaves the lookups in order and changes nothing else. *)
Lemma check_license_spec recs s deCall fcc now v db :
  v_cty v = Some db -> meta_inv recs (v_meta v) db ->
  let '(r, v') := check_license al s deCall fcc now v db in
  v_ok recs v' /\ dedupInput v' = dedupInput v /\ dedupCap v' = dedupCap v /\ r <> Paused.
Proof.
  intros Hv Hm. unfold check_license. case_bool_decide; [by repeat split; eauto; exists db|].
  pose proof (lookupCTY_spec recs v db (license_form deCall) Hv Hm) as H1.
  destruct (lookupCTY al v db _) as [[info v'] db']. destruct H1 as (H1 & H2 & (_ & H3 & H4) & _).
  assert (Hok : v_ok recs v') by (by exists db').
  destruct info as [i|]; [|done]. destruct (_ =? _); [|done]. destruct (AllowlistMatch _ _ _); [done|].
  destruct (IsLicensedUS _ _ _ _) as [licensed l]. destruct licensed; (split; [by exists db'|]); done.
Qed.

Lemma finish_spec recs s dxInfo deInfo fcc now v db :
  v_cty v = Some db -> meta_inv recs (v_meta v) db ->
  let '(r, s', v') := finish al s (de_call s) dxInfo deInfo fcc now v db in
  v_ok recs v' /\ dedupInput v' = dedupInput v /\ dedupCap v' = dedupCap v /\ r <> Paused /\ s' = refresh_metadata dxInfo deInfo s.
Proof.
  intros Hv Hm. unfold finish. set (v1 := if bool_decide _ then _ else _).
  assert (H1 : v_cty v1 = Some db /\ meta_inv recs (v_meta v1) db /\ dedupInput v1 = dedupInput v /\ dedupCap v1 = dedupCap v).
  { unfold v1. by case_bool_decide. }
  destruct H1 as (H1 & H2 & H3 & H4). clearbody v1.
  destruct (IsTestSpotter _); [by repeat split; auto; exists db|].
  pose proof (check_license_spec recs (refresh_metadata dxInfo deInfo s) (de_call s) fcc now v1 db H1 H2) as H.
  destruct (check_license al _ _ fcc now v1 db) as [r v']. destruct H as (? & ? & ? & ?). repeat split; [done|congruence..|done].
Qed.

Lemma log_drop_ok recs v v' : v_cty v' = v_cty v -> v_meta v' = v_meta v -> v_ok recs v -> v_ok recs v'.
Proof. intros H1 H2 (db & ? & ?). exists db. by rewrite H1, H2. Qed.

Lemma logInvalidDrop_spec recs role call s now v :
  v_ok recs v -> let v' := logInvalidDrop role call s now v in
  v_ok recs v' /\ dedupInput v' = dedupInput v /\ dedupCap v' = dedupCap v.
Proof.
  intros Hv. unfold logInvalidDrop. destruct (Inc _ _) as [[count ok] c]. unfold report_line.
  destruct ok, (bool_decide _); (split; [by eapply log_drop_ok|done]).
Qed.

Lemma logCTYDrop_spec recs role call s now v :
  v_ok recs v -> let v' := logCTYDrop role call s now v in
  v_ok recs v' /\ dedupInput v' = dedupInput v /\ dedupCap v' = dedupCap v.
Proof.
  intros Hv. unfold logCTYDrop. destruct (Inc _ _) as [[count ok] c]. unfold report_line.
  destruct ok, (bool_decide _); (split; [by eapply log_drop_ok|done]).
Qed.

(** Both roles of a spot that passed. *)
Definition spot_admitted (recs : list gridRecord) (s : Spot) : Prop :=
  admitted recs (dx_call s) (DXMetadata s) /\ admitted recs (de_call s) (DEMetadata s).

Lemma validateSpot_spec recs v s fcc now :
  v_ok recs v ->
  let '(r, s', v') := validateSpot al v s fcc now in
  v_ok recs v' /\ dedupInput v' = dedupInput v /\ dedupCap v' = dedupCap v /\ r <> Paused /\
  (r = Passed -> spot_admitted recs s').
Proof.
  intros Hok. pose proof Hok as (db & Hv & Hm). unfold validateSpot. rewrite Hv. cbv zeta.
  pose proof (EnsureNormalized_idemp s) as Hid. revert Hid. generalize (EnsureNormalized s) as n. intros n Hid.
  destruct (shouldRejectCTYCall al (dx_call n)) eqn:Hrx.
  { destruct (logInvalidDrop_spec recs "DX" (dx_call n) n now v Hok) as (? & ? & ?). done. }
  destruct (shouldRejectCTYCall al (de_call n)) eqn:Hre.
  { destruct (logInvalidDrop_spec recs "DE" (de_call n) n now v Hok) as (? & ? & ?). done. }
  pose proof (known_or_allowed_spec recs v db (dx_call n) Hv Hm Hrx) as H1.
  destruct (known_or_allowed al v db (dx_call n)) as [[[ok1 dxInfo] v1] db1]. destruct H1 as (H1 & H2 & (_ & H3 & H4) & H5).
  assert (Hok1 : v_ok recs v1) by (by exists db1).
  destruct ok1; cbn [negb]; [|destruct (logCTYDrop_spec recs "DX" (dx_call n) n now v1 Hok1) as (? & ? & ?); repeat split; congruence || done].
  pose proof (known_or_allowed_spec recs v1 db1 (de_call n) H1 H2 Hre) as H6.
  destruct (known_or_allowed al v1 db1 (de_call n)) as [[[ok2 deInfo] v2] db2]. destruct H6 as (H6 & H7 & (_ & H8 & H9) & H10).
  assert (Hok2 : v_ok recs v2) by (by exists db2).
  destruct ok2; cbn [negb]; [|destruct (logCTYDrop_spec recs "DE" (de_call n) n now v2 Hok2) as (? & ? & ?); repeat split; congruence || done].
  pose proof (finish_spec recs n dxInfo deInfo fcc now v2 db2 H6 H7) as H.
  destruct (finish al n (de_call n) dxInfo deInfo fcc now v2 db2) as [[r s'] v']. destruct H as (? & ? & ? & ? & ->).
  split; [done|]. split; [congruence|]. split; [congruence|]. split; [done|]. intros _. split.
  - destruct (refresh_calls dxInfo deInfo n) as [-> _]. rewrite Hid. by apply H5.
  - destruct (refresh_calls dxInfo deInfo n) as [_ ->]. rewrite Hid. by apply H10.
Qed.
End Lookups.

(** ** Runs *)

(** The validator and the other users of the metadata cache take turns. *)
Inductive ingest_op :=
  | ISpot (s : Spot) (fcc : option (nat -> query_result)) (now : Z)
  | IMeta (o : meta_op).

Definition ingest_step (al : option Allowlist) (v : ingestValidator) (o : ingest_op) : ingestValidator :=
  match o with
  | ISpot s fcc now => default v (ingest_one al v s fcc now)
  | IMeta o =>
      match v_cty v, v_meta v with
      | Some db, Some c => let '(c, db) := meta_step al (c, db) o in with_lookups db (Some c) v
      | _, _ => v
      end
  end.

Definition ingest_run (al : option Allowlist) (v : ingestValidator) (ops : list ingest_op) : ingestValidator :=
  fold_left (ingest_step al) ops v.

(** The persisted records that were put into the cache. *)
Definition applied (ops : list ingest_op) : list gridRecord :=
  omap (fun o => match o with IMeta (MRecord r) => Some r | _ => None end) ops.

Section Runs.
Context (al : option Allowlist) (db0 : CTYDatabase).

Lemma explained_answer_mono recs recs' call r :
  (forall x, x ∈ recs -> x ∈ recs') -> explained_answer al db0 recs call r -> explained_answer al db0 recs' call r.
Proof. intros Hs [?|(x & ? & ? & ? & ?)]; [by left|right]. exists x. auto. Qed.

Lemma v_ok_mono recs recs' v : (forall x, x ∈ recs -> x ∈ recs') -> v_ok al db0 recs v -> v_ok al db0 recs' v.
Proof.
  intros Hs (db & ? & ? & Hm). exists db. split; [done|]. split; [done|]. destruct (v_meta v); [|done].
  destruct Hm as [n Hn]. exists n. eapply meta_ok_mono; [|done]. intros k e He Hc. eapply explained_answer_mono; [done|]. by apply He.
Qed.

Lemma spot_admitted_mono recs recs' s :
  (forall x, x ∈ recs -> x ∈ recs') -> spot_admitted al db0 recs s -> spot_admitted al db0 recs' s.
Proof.
  assert (Ha : forall call m, (forall x, x ∈ recs -> x ∈ recs') -> admitted al db0 recs call m -> admitted al db0 recs' call m).
  { intros call m Hs [H1 [(i & Hi & H2)|H2]]; (split; [done|]); [left|by right]. exists i. split; [|done].
    by eapply explained_answer_mono. }
  intros Hs [? ?]. split; by apply Ha.
Qed.

Definition run_ok (recs : list gridRecord) (v : ingestValidator) : Prop :=
  v_ok al db0 recs v /\ Z.of_nat (length (dedupInput v)) <= Z.max 0 (dedupCap v) /\
  forall s, s ∈ dedupInput v -> spot_admitted al db0 recs s.

Lemma ingest_step_ok recs v o : run_ok recs v -> run_ok (recs ++ applied [o]) (ingest_step al v o).
Proof.
  intros (Hv & Hl & Hs).
  assert (Hin : forall x, x ∈ recs -> x ∈ recs ++ applied [o]) by set_solver.
  destruct o as [s fcc now|o]; cbn [ingest_step].
  - change (applied [ISpot s fcc now]) with (@nil gridRecord). rewrite app_nil_r. unfold ingest_one. set (v1 := mkValidator _ _ _ _ _ _ _ _ _ _ _ _ _).
    pose proof (validateSpot_spec al db0 recs v1 s fcc now Hv) as H.
    destruct (validateSpot al v1 s fcc now) as [[r s'] v']. destruct H as (H1 & H2 & H3 & H4 & H5).
    destruct r; [|by split; [done|]; simpl; rewrite H2, H3|done]. destruct (Inc _ _) as [[? ?] c]. simpl.
    destruct (Z.leb_spec (dedupCap v') (Z.of_nat (length (dedupInput v')))).
    + split; [done|]. simpl. by rewrite H2, H3.
    + split; [done|]. simpl. rewrite length_app. simpl. split; [lia|]. intros x. rewrite elem_of_app, list_elem_of_singleton.
      intros [Hx| ->]; [|by apply H5]. rewrite H2 in Hx. by apply Hs.
  - destruct Hv as (db & Hdb & Hk & Hm). rewrite Hdb.
    destruct (v_meta v) as [c|] eqn:Hc.
    + destruct Hm as [n Hn]. pose proof (meta_step_ok al db0 n recs c db o Hk Hn) as H.
      destruct (meta_step al (c, db) o) as [c' db']. destruct H as [H1 H2]. split; [|split; [exact Hl|]].
      * exists db'. split; [done|]. split; [done|]. exists n. eapply meta_ok_mono; [|done]. intros k e He Hce.
        eapply explained_answer_mono; [|by apply He]. destruct o; simpl; set_solver.
      * intros s Hx. eapply spot_admitted_mono; [done|]. by apply Hs.
    + split; [|split; [done|]].
      * eapply v_ok_mono; [done|]. exists db. rewrite Hc. done.
      * intros s Hx. eapply spot_admitted_mono; [done|]. by apply Hs.
Qed.

Lemma ingest_run_ok recs v ops : run_ok recs v -> run_ok (recs ++ applied ops) (ingest_run al v ops).
Proof.
  revert recs v. induction ops as [|o ops IH]; intros recs v Hv; [by rewrite app_nil_r|].
  replace (recs ++ applied (o :: ops)) with ((recs ++ applied [o]) ++ applied ops).
  - by apply IH, ingest_step_ok.
  - rewrite <- app_assoc. f_equal. by destruct o as [|[]].
Qed.
End Runs.


(** ** Unlicensed spotters *)

Lemma query_loop_absent answer st k n attempt :
  (attempt + n = retries)%nat -> (attempt <= k)%nat -> (k < retries)%nat -> answer k = QNoRow ->
  (forall m, (m < k)%nat -> answer m = QLocked) -> query_loop n attempt answer st = (false, st).
Proof.
  revert attempt. induction n as [|n IH]; intros attempt Hn Hk Hr Ha Hl; [lia|]. cbn [query_loop].
  destruct (decide (attempt = k)) as [->|Hne]; [by rewrite Ha|]. rewrite Hl by lia.
  rewrite (proj2 (Nat.ltb_lt attempt (retries - 1))) by lia. apply IH; [lia|lia|done|done|done].
Qed.

(** The license database is asked and consulted. *)
Definition checks_on (l : licenseState) : Prop := licenseEnabled l = true /\ refreshActive l = false /\ licenseDead l = false.

Lemma absent_refused l call fcc now :
  checks_on l -> NormalizeForLicense call <> "" -> says_absent fcc ->
  (cache_get (licenseCache l) (licenseCacheKey "US" (NormalizeForLicense call)) now).1 <> Some true ->
  (IsLicensedUS l call fcc now).1 = false.
Proof.
  intros (H1 & H2 & H3) Hc (answer & k & -> & Hk & Ha & Hl) Hcache. unfold IsLicensedUS. rewrite H1, H2, H3. cbn [negb].
  rewrite bool_decide_eq_false_2 by done. destruct (cache_get _ _ now) as [[b|] c]; cbn [fst] in *; [by destruct b|].
  by rewrite (query_loop_absent answer _ k) by (done || lia).
Qed.

Lemma check_license_refuses al db0 s deCall fcc now v db i :
  v_cty v = Some db -> meta_inv al db0 [] (v_meta v) db ->
  cty_answer al db0 (license_form deCall) = Some i -> p_ADIF i = 291 -> license_form deCall <> "" ->
  AllowlistMatch al 291 (license_form deCall) = false ->
  (IsLicensedUS (v_license v) (license_form deCall) fcc now).1 = false ->
  (check_license al s deCall fcc now v db).1 = Dropped.
Proof.
  intros Hv Hm Hi H291 Hne Hal Hno. unfold check_license. rewrite bool_decide_eq_false_2 by done.
  pose proof (lookupCTY_spec al db0 [] v db (license_form deCall) Hv Hm) as H.
  destruct (lookupCTY al v db _) as [[info v'] db']. destruct H as (_ & _ & (Hl & _) & H).
  assert (Hrej : shouldRejectCTYCall al (license_form deCall) = false).
  { revert Hi. unfold cty_answer. by destruct (shouldRejectCTYCall _ _). }
  assert (info = Some i) as ->.
  { destruct info as [j|].
    - destruct H as [_ [H|(r & ?%elem_of_nil & _)]]; [congruence|done].
    - destruct H as [?|[?|[?|(r & ?%elem_of_nil & _)]]]; congruence || done. }
  rewrite (proj2 (Z.eqb_eq _ _) H291), H291, Hal, Hl. by destruct (IsLicensedUS _ _ fcc now) as [[] ?].
Qed.

(** With license checks on, a spot of a US spotter - by the CTY entry of its base call -
    that is not on the allow list and that the license table does not hold is dropped,
    whatever the DX call is and however the retries of a locked database fall, unless
    the license cache still holds an earlier yes.  Test spotters are exempt. *)
Theorem ingest_stops_unlicensed al db v s fcc now i :
  let key := license_form (de_call (EnsureNormalized s)) in
  v_ok al db [] v -> IsTestSpotter s = false ->
  cty_answer al db key = Some i -> p_ADIF i = 291 -> AllowlistMatch al 291 key = false ->
  key <> "" -> NormalizeForLicense key <> "" -> checks_on (v_license v) -> says_absent fcc ->
  (cache_get (licenseCache (v_license v)) (licenseCacheKey "US" (NormalizeForLicense key)) now).1 <> Some true ->
  (validateSpot al v s fcc now).1.1 = Dropped.
Proof.
  cbv zeta. intros (db1 & Hv & Hm) Htest Hi H291 Hal Hne Hnorm Hon Habs Hcache.
  pose proof (absent_refused _ _ _ _ Hon Hnorm Habs Hcache) as Hno.
  unfold validateSpot. rewrite Hv. cbv zeta. assert (Htest' : IsTestSpotter (EnsureNormalized s) = false) by done.
  clear Hon Hnorm Habs Hcache Htest. revert Hi Hal Hne Hno Htest'. generalize (EnsureNormalized s) as n. intros n Hi Hal Hne Hno Htest.
  destruct (shouldRejectCTYCall al (dx_call n)) eqn:Hrx; [done|].
  destruct (shouldRejectCTYCall al (de_call n)) eqn:Hre; [done|].
  pose proof (known_or_allowed_spec al db [] v db1 (dx_call n) Hv Hm Hrx) as H1.
  destruct (known_or_allowed al v db1 (dx_call n)) as [[[ok1 dxInfo] v1] d1]. destruct H1 as (H1 & H2 & (H3 & _) & _).
  destruct ok1; [cbn [negb]|done].
  pose proof (known_or_allowed_spec al db [] v1 d1 (de_call n) H1 H2 Hre) as H4.
  destruct (known_or_allowed al v1 d1 (de_call n)) as [[[ok2 deInfo] v2] d2]. destruct H4 as (H4 & H5 & (H6 & _) & _).
  destruct ok2; [cbn [negb]|done]. unfold finish. cbv zeta.
  change (IsTestSpotter (refresh_metadata dxInfo deInfo n)) with (IsTestSpotter n). rewrite Htest.
  set (v3 := if bool_decide _ then _ else _).
  assert (H7 : v_cty v3 = Some d2 /\ meta_inv al db [] (v_meta v3) d2 /\ v_license v3 = v_license v).
  { unfold v3. case_bool_decide; (split; [done|]); (split; [done|]); simpl; congruence. }
  destruct H7 as (H7 & H8 & H9).
  pose proof (check_license_refuses al db (refresh_metadata dxInfo deInfo n) (de_call n) fcc now v3 d2 i H7 H8 Hi H291 Hne Hal) as Hc.
  rewrite H9 in Hc. specialize (Hc Hno). by destruct (check_license al _ _ fcc now v3 d2) as [r v4].
Qed.

(** *** A validator with a small database. *)

Definition sample_db : CTYDatabase :=
  LoadCTYDatabaseFromReader [("K", demo_info "United States" 291); ("W", demo_info "United States" 291); ("LZ", demo_info "Bulgaria" 212)].

Definition sample_validator : ingestValidator :=
  newIngestValidator (Some sample_db) (Some (newCallMetaCache 16 hour)) true
    (mkLicense true false false false hour (newLicenseCache hour 4)) 4.

Definition sample_no_row : option (nat -> query_result) := Some locked_then_absent.

Definition sample_license_key : string := license_form (de_call (EnsureNormalized (sample_spot "LZ2AB" "K1ABC/P" 14025 0))).

Lemma sample_us : exists i, cty_answer None sample_db sample_license_key = Some i /\ p_ADIF i = 291.
Proof. vm_compute. by eexists. Defined.

Lemma ingest_stops_unlicensed_witness :
  (validateSpot None sample_validator (sample_spot "LZ2AB" "K1ABC/P" 14025 0) sample_no_row (100 * second)).1.1 = Dropped /\
  (validateSpot None sample_validator (sample_spot "LZ2AB" "K1ABC/P" 14025 0) (Some (fun _ => QRow)) (100 * second)).1.1 = Passed.
Proof.
  split; [|vm_compute; reflexivity].
  destruct sample_us as (i & Hi & H291).
  apply (ingest_stops_unlicensed None sample_db sample_validator (sample_spot "LZ2AB" "K1ABC/P" 14025 0) sample_no_row (100 * second) i).
  - exists sample_db. split; [reflexivity|]. split; [split; reflexivity|].
    destruct (meta_new_ok (explained None sample_db []) 16 hour) as [n Hn]. exists n. exact Hn.
  - reflexivity.
  - exact Hi.
  - exact H291.
  - reflexivity.
  - vm_compute. discriminate.
  - vm_compute. discriminate.
  - repeat split.
  - exists locked_then_absent, 1%nat. split; [reflexivity|]. split; [unfold retries; lia|]. split; [reflexivity|].
    intros m Hm. assert (m = 0)%nat as -> by lia. reflexivity.
  - vm_compute. discriminate.
Defined.
