(* ===== verification/Pipeline.v ===== *)
(** * Pipeline: what happens to a deduplicated spot

    The body of [processOutputSpots] of [main.go] with the helpers it calls: mode
    assignment, call correction, harmonic suppression, frequency averaging, confidence,
    the license gate, secondary deduplication and the fan-out to the ring buffer, the
    archive, the clients, the skimmer aggregator and the peers.  One goroutine runs the
    body for one spot after the other, so a spot is one step of the state [pipeline], which
    holds the components the other files model.

    The body returns early in many places; here it is a chain of stages, each of which
    hands the state and the spot to the next or ends the run.  What leaves the body is a
    list of [sink]s in the order of the calls, each with the spot as it is at the call.
    (The ring buffer and the correction index keep the pointer, so later changes of the
    same spot show through: [refresh_last] does that for the index, whose readers depend
    on the frequency.)  The readings of the clock within one spot are taken as one.

    Grid lookups ([gridLookup], [gridLookupSync]) and the H3 cell encoders are arguments. *)

From S2P Require Import Prelude GoText GoNum GoTime Callsign Bands CallDistance Dedup Secondary Lru Cooldown Quality BandMap Correction Windows Harmonics Adaptive ModeInfer Cty License CallMeta Skimmer Spot Ingest.
From Stdlib Require Import QArith.

Local Open Scope string_scope.
Local Open Scope list_scope.
Local Open Scope Z_scope.

(** ** Setters *)

Definition set_DXCall (v : string) (s : Spot) : Spot :=
    mkSpot (ID s) v (DECall s) (Frequency s) (Band s) (Mode s) (Report s) (Time s) (Comment s) (SourceType s)
    (SourceNode s) (SpotterIP s) (TTL s) (IsHuman s) (IsTestSpotter s) (IsBeacon s) (HasReport s) (DXMetadata s)
    (DEMetadata s) (Confidence s) (formatted s) (ModeNorm s) (BandNorm s) (DXCallNorm s) (DECallNorm s)
    (DXContinentNorm s) (DEContinentNorm s) (DXGridNorm s) (DEGridNorm s) (DXGrid2 s) (DEGrid2 s) (DXCellID s)
    (DECellID s) (DECallStripped s) (DECallNormStripped s).

Definition set_Mode (v : string) (s : Spot) : Spot :=
    mkSpot (ID s) (DXCall s) (DECall s) (Frequency s) (Band s) v (Report s) (Time s) (Comment s) (SourceType s)
    (SourceNode s) (SpotterIP s) (TTL s) (IsHuman s) (IsTestSpotter s) (IsBeacon s) (HasReport s) (DXMetadata s)
    (DEMetadata s) (Confidence s) (formatted s) (ModeNorm s) (BandNorm s) (DXCallNorm s) (DECallNorm s)
    (DXContinentNorm s) (DEContinentNorm s) (DXGridNorm s) (DEGridNorm s) (DXGrid2 s) (DEGrid2 s) (DXCellID s)
    (DECellID s) (DECallStripped s) (DECallNormStripped s).

Definition set_Frequency (v : Q) (s : Spot) : Spot :=
    mkSpot (ID s) (DXCall s) (DECall s) v (Band s) (Mode s) (Report s) (Time s) (Comment s) (SourceType s)
    (SourceNode s) (SpotterIP s) (TTL s) (IsHuman s) (IsTestSpotter s) (IsBeacon s) (HasReport s) (DXMetadata s)
    (DEMetadata s) (Confidence s) (formatted s) (ModeNorm s) (BandNorm s) (DXCallNorm s) (DECallNorm s)
    (DXContinentNorm s) (DEContinentNorm s) (DXGridNorm s) (DEGridNorm s) (DXGrid2 s) (DEGrid2 s) (DXCellID s)
    (DECellID s) (DECallStripped s) (DECallNormStripped s).

Definition set_Confidence (v : string) (s : Spot) : Spot :=
    mkSpot (ID s) (DXCall s) (DECall s) (Frequency s) (Band s) (Mode s) (Report s) (Time s) (Comment s)
    (SourceType s) (SourceNode s) (SpotterIP s) (TTL s) (IsHuman s) (IsTestSpotter s) (IsBeacon s) (HasReport s)
    (DXMetadata s) (DEMetadata s) v (formatted s) (ModeNorm s) (BandNorm s) (DXCallNorm s) (DECallNorm s)
    (DXContinentNorm s) (DEContinentNorm s) (DXGridNorm s) (DEGridNorm s) (DXGrid2 s) (DEGrid2 s) (DXCellID s)
    (DECellID s) (DECallStripped s) (DECallNormStripped s).

Definition set_DECallStripped (v : string) (s : Spot) : Spot :=
    mkSpot (ID s) (DXCall s) (DECall s) (Frequency s) (Band s) (Mode s) (Report s) (Time s) (Comment s)
    (SourceType s) (SourceNode s) (SpotterIP s) (TTL s) (IsHuman s) (IsTestSpotter s) (IsBeacon s) (HasReport s)
    (DXMetadata s) (DEMetadata s) (Confidence s) (formatted s) (ModeNorm s) (BandNorm s) (DXCallNorm s)
    (DECallNorm s) (DXContinentNorm s) (DEContinentNorm s) (DXGridNorm s) (DEGridNorm s) (DXGrid2 s) (DEGrid2 s)
    (DXCellID s) (DECellID s) v (DECallNormStripped s).

(** ** Configuration *)

Record SpotPolicy := mkPolicy {
  MaxAgeSeconds : Z;
  FrequencyAveragingSeconds : Z;
  FrequencyAveragingToleranceHz : Q;
  FrequencyAveragingMinReports : Z
}.

Record BandStateParams := mkBandParams { bp_QualityBinHz : Z; bp_FrequencyToleranceHz : Q }.

Record BandStateOverride := mkOverride {
  o_Bands : list string;
  o_Quiet : BandStateParams;
  o_Normal : BandStateParams;
  o_Busy : BandStateParams
}.

(** The part of the configuration the correction reads, and the recency overrides and
    frequency guard settings it does not. *)
Record CallCorrectionConfig := mkCallCfg {
  cc_Enabled : bool;
  cc_BandStateOverrides : list BandStateOverride;
  cc_MinConsensusReports : Z;
  cc_MinAdvantage : Z;
  cc_MinConfidencePercent : Z;
  cc_RecencySeconds : Z;
  cc_RecencySecondsCW : Z;
  cc_RecencySecondsRTTY : Z;
  cc_MaxEditDistance : Z;
  cc_FrequencyToleranceHz : Q;
  cc_VoiceFrequencyToleranceHz : Q;
  cc_QualityBinHz : Z;
  cc_QualityGoodThreshold : Z;
  cc_QualityNewCallIncrement : Z;
  cc_QualityBustedDecrement : Z;
  cc_Strategy : string;
  cc_MinSNRCW : Z;
  cc_MinSNRRTTY : Z;
  cc_MinSNRVoice : Z;
  cc_DistanceModelCW : string;
  cc_DistanceModelRTTY : string;
  cc_InvalidAction : string;
  cc_Distance3ExtraReports : Z;
  cc_Distance3ExtraAdvantage : Z;
  cc_Distance3ExtraConfidence : Z;
  cc_MinSpotterReliability : Q;
  cc_CooldownMinReporters : Z;
  cc_FreqGuardMinSeparationKHz : Q;
  cc_FreqGuardRunnerUpRatio : Q;
  cc_VoiceCandidateWindowKHz : Q
}.

(** [pathreliability.Config], as far as spots feed it. *)
Record pathConfig := mkPathConfig {
  pc_Enabled : bool;
  off_FT4 : Q;
  off_CW : Q;
  off_RTTY : Q;
  off_PSK : Q;
  off_WSPR : Q
}.

(** The arguments of [processOutputSpots] that do not change; a flag says whether an
    optional sink is there. *)
Record pipelineConfig := mkPipeCfg {
  correctionCfg : CallCorrectionConfig;
  harmonicEnabled : bool;
  spotPolicy : SpotPolicy;
  peerRxOnly : bool;
  broadcastKeepSSID : bool;
  has_telnet : bool;
  has_buf : bool;
  has_archive : bool;
  has_peers : bool;
  has_gridUpdate : bool;
  gridLookupSync : option (string -> option (string * bool));
  gridLookup : option (string -> option (string * bool));
  pathPredictor : option pathConfig;
  allowedBands : gset string;
  spotterReliability : option (gmap string Q)
}.

(** ** State *)

Record KnownCallsigns := mkKnown { kc_entries : gset string; kc_lookups : Z; kc_hits : Z }.

Definition known_line (line : string) : option string :=
  let call := upper_trim line in
  if bool_decide (call = "") || HasPrefix call "#" then None else Some call.

(** The lines of the file. *)
Definition LoadKnownCallsigns (lines : list string) : KnownCallsigns := mkKnown (list_to_set (omap known_line lines)) 0 0.

Definition kc_Contains (k : KnownCallsigns) (call : string) : bool * KnownCallsigns :=
  let call := upper_trim call in
  if bool_decide (call = "") then (false, k)
  else let hit := bool_decide (call ∈ kc_entries k) in
       (hit, mkKnown (kc_entries k) (kc_lookups k + 1) (if hit then kc_hits k + 1 else kc_hits k)).

Record pipeline := mkPipeline {
  pl_modes : option ModeAssigner;
  pl_index : option Index.CorrectionIndex;
  pl_stores : stores;
  pl_adaptive : option AdaptiveMinReports;
  pl_meta : option callMetaCache;
  pl_cty : option CTYDatabase;
  pl_license : licenseState;
  pl_harmonics : option HarmonicDetector;
  pl_averager : option Averager.FrequencyAverager;
  pl_known : option KnownCallsigns;
  pl_fast : option SecondaryDeduper;
  pl_med : option SecondaryDeduper;
  pl_slow : option SecondaryDeduper;
  pl_agg : option SkimmerAggregator;
  pl_spotCount : Z
}.

Definition upd_modes (x : option ModeAssigner) (p : pipeline) : pipeline :=
  mkPipeline x (pl_index p) (pl_stores p) (pl_adaptive p) (pl_meta p) (pl_cty p) (pl_license p) (pl_harmonics p) (pl_averager p) (pl_known p) (pl_fast p) (pl_med p) (pl_slow p) (pl_agg p) (pl_spotCount p).

Definition upd_correction (i : option Index.CorrectionIndex) (st : stores) (a : option AdaptiveMinReports) (p : pipeline) : pipeline :=
  mkPipeline (pl_modes p) i st a (pl_meta p) (pl_cty p) (pl_license p) (pl_harmonics p) (pl_averager p) (pl_known p) (pl_fast p) (pl_med p) (pl_slow p) (pl_agg p) (pl_spotCount p).

Definition upd_lookups (m : option callMetaCache) (db : option CTYDatabase) (p : pipeline) : pipeline :=
  mkPipeline (pl_modes p) (pl_index p) (pl_stores p) (pl_adaptive p) m db (pl_license p) (pl_harmonics p) (pl_averager p) (pl_known p) (pl_fast p) (pl_med p) (pl_slow p) (pl_agg p) (pl_spotCount p).

Definition upd_license (l : licenseState) (p : pipeline) : pipeline :=
  mkPipeline (pl_modes p) (pl_index p) (pl_stores p) (pl_adaptive p) (pl_meta p) (pl_cty p) l (pl_harmonics p) (pl_averager p) (pl_known p) (pl_fast p) (pl_med p) (pl_slow p) (pl_agg p) (pl_spotCount p).

Definition upd_harmonics (h : option HarmonicDetector) (p : pipeline) : pipeline :=
  mkPipeline (pl_modes p) (pl_index p) (pl_stores p) (pl_adaptive p) (pl_meta p) (pl_cty p) (pl_license p) h (pl_averager p) (pl_known p) (pl_fast p) (pl_med p) (pl_slow p) (pl_agg p) (pl_spotCount p).

Definition upd_averager (a : option Averager.FrequencyAverager) (i : option Index.CorrectionIndex) (p : pipeline) : pipeline :=
  mkPipeline (pl_modes p) i (pl_stores p) (pl_adaptive p) (pl_meta p) (pl_cty p) (pl_license p) (pl_harmonics p) a (pl_known p) (pl_fast p) (pl_med p) (pl_slow p) (pl_agg p) (pl_spotCount p).

Definition upd_known (k : option KnownCallsigns) (p : pipeline) : pipeline :=
  mkPipeline (pl_modes p) (pl_index p) (pl_stores p) (pl_adaptive p) (pl_meta p) (pl_cty p) (pl_license p) (pl_harmonics p) (pl_averager p) k (pl_fast p) (pl_med p) (pl_slow p) (pl_agg p) (pl_spotCount p).

Definition upd_secondary (f m s : option SecondaryDeduper) (p : pipeline) : pipeline :=
  mkPipeline (pl_modes p) (pl_index p) (pl_stores p) (pl_adaptive p) (pl_meta p) (pl_cty p) (pl_license p) (pl_harmonics p) (pl_averager p) (pl_known p) f m s (pl_agg p) (pl_spotCount p).

Definition upd_agg (a : option SkimmerAggregator) (p : pipeline) : pipeline :=
  mkPipeline (pl_modes p) (pl_index p) (pl_stores p) (pl_adaptive p) (pl_meta p) (pl_cty p) (pl_license p) (pl_harmonics p) (pl_averager p) (pl_known p) (pl_fast p) (pl_med p) (pl_slow p) a (pl_spotCount p).

Definition count_spot  (p : pipeline) : pipeline :=
  mkPipeline (pl_modes p) (pl_index p) (pl_stores p) (pl_adaptive p) (pl_meta p) (pl_cty p) (pl_license p) (pl_harmonics p) (pl_averager p) (pl_known p) (pl_fast p) (pl_med p) (pl_slow p) (pl_agg p) (int64 (pl_spotCount p + 1)).

(** What the body does to the rest of the program. *)
Inductive sink :=
  | ToRing (s : Spot)                                                     (* buf.Add *)
  | ToArchive (s : Spot)                                                  (* archiveWriter.Enqueue *)
  | ToClients (s : Spot) (fast med slow : bool)                           (* telnet.BroadcastSpot *)
  | ToSelf (s : Spot)                                                     (* telnet.DeliverSelfSpot *)
  | ToAggregator (s : Spot)                                               (* skimmerAgg.Enqueue *)
  | ToPeers (s : Spot)                                                    (* peerManager.PublishDX *)
  | ToGrid (call grid : string)                                           (* gridUpdate *)
  | ToPath (de dx deCoarse dxCoarse : Z) (band : string) (ft8 : Q) (at_ : Z) (beacon : bool)
                                                                          (* pathPredictor.Update *)
  | ToStats (mode source : string)                                        (* tracker *)
  | ToUnlicensed (source role call mode : string) (freq : Q).             (* unlicensedReporter *)

(** ** Small helpers *)

Definition older_than (s : Spot) (maxAge now : Z) : bool := maxAge * second <? time_sub now (Time s).

Definition isStale (s : Spot) (p : SpotPolicy) (now : Z) : bool :=
  if MaxAgeSeconds p <=? 0 then false else if IsZero (Time s) then false else older_than s (MaxAgeSeconds p) now.

Definition shouldBufferSpot (s : Spot) : bool := negb (IsTestSpotter s).
Definition shouldArchiveSpot (s : Spot) : bool := negb (IsTestSpotter s).

Definition shouldPublishToPeers (s : Spot) (rxOnly : bool) : bool :=
  if IsTestSpotter s then false
  else if bool_decide (SourceType s ∈ [SourceUpstream; SourcePeer]) then false
  else if rxOnly then bool_decide (SourceType s = SourceManual) else true.

(** A copy without the cell ids and the formatted line, its mode as the comment. *)
Definition cloneSpotForPeerPublish (src : Spot) : Spot :=
  if negb (bool_decide (SourceType src = SourceManual)) then src
  else if negb (bool_decide (TrimSpace (Comment src) = "")) then src
  else let mode := TrimSpace (Mode src) in
       if bool_decide (mode = "") then src
       else set_Comment mode (set_DXCellID 0 (set_DECellID 0 (set_formatted None src))).

Definition callCorrectionWindow (c : CallCorrectionConfig) : Z :=
  if cc_RecencySeconds c <=? 0 then 45 * second else cc_RecencySeconds c * second.

(** The first override that names the band. *)
Fixpoint find_override (overrides : list BandStateOverride) (b stateKey : string) : option BandStateParams :=
  match overrides with
  | [] => None
  | o :: rest =>
      if existsb (fun candidate => bool_decide (lower_trim candidate = b)) (o_Bands o)
      then Some (if bool_decide (stateKey = "quiet") then o_Quiet o
                 else if bool_decide (stateKey = "busy") then o_Busy o else o_Normal o)
      else find_override rest b stateKey
  end.

Definition resolveBandStateParams (overrides : list BandStateOverride) (band state : string) : option BandStateParams :=
  let b := lower_trim band in
  if bool_decide (b = "") then None else find_override overrides b (lower_trim state).

Definition frequencyAverageWindow (p : SpotPolicy) : Z := positive_else (FrequencyAveragingSeconds p) 45 * second.

Definition frequencyAverageTolerance (p : SpotPolicy) : Q :=
  fdiv (if Qle_bool (FrequencyAveragingToleranceHz p) 0 then 300 else FrequencyAveragingToleranceHz p) 1000.

Definition modeSupportsConfidenceGlyph (mode : string) : bool := bool_decide (upper_trim mode ∈ ["CW"; "RTTY"; "USB"; "LSB"]).

Definition formatConfidence (percent totalReporters : Z) : string :=
  if totalReporters <=? 1 then "?"
  else let value := Z.min 100 (Z.max 0 percent) in
       if 51 <=? value then "V" else if 25 <=? value then "P" else "?".

Definition shouldAverageFrequency (s : Spot) : bool := bool_decide (upper_trim (Mode s) ∈ ["CW"; "RTTY"]).

Definition rbnStatsLabel (sourceNode : string) : string :=
  if bool_decide (upper_trim sourceNode = "RBN-DIGITAL") then "RBN-DIGITAL" else "RBN".

Definition sourceStatsLabel (s : Spot) : string :=
  let t := SourceType s in
  if bool_decide (t = SourceManual) then "HUMAN"
  else if bool_decide (t = SourceRBN) then rbnStatsLabel (SourceNode s)
  else if bool_decide (t = SourceFT8) || bool_decide (t = SourceFT4) then "RBN-FT"
  else if bool_decide (t = SourcePSKReporter) then "PSKREPORTER"
  else if bool_decide (t = SourcePeer) then "PEER"
  else if bool_decide (t = SourceUpstream) then "UPSTREAM"
  else
    let node := upper_trim (SourceNode s) in
    if bool_decide (node ∈ ["RBN-DIGITAL"; "RBN"; "PSKREPORTER"; "UPSTREAM"]) then node
    else if bool_decide (node = "P92") then "PEER" else "OTHER".

Definition spotsToEntries (l : list Spot) : list SpotEntry :=
  map (fun s => mkSpotEntry (DXCall s) (DECall s) (Mode s) (uint32 (float_to_int (fadd (fmul (Frequency s) 1000) (1 # 2))))
                            (unix_of (Time s)) (Report s)) l.

Definition allowedBand (allowed : gset string) (band : string) : bool :=
  if bool_decide (allowed = ∅) then true
  else let n := NormalizeBand band in if bool_decide (n = "") then false else bool_decide (n ∈ allowed).

Definition lookupGridUnified (cfg : pipelineConfig) (call : string) : option (string * bool) :=
  match match gridLookupSync cfg with Some f => f call | None => None end with
  | Some r => Some r
  | None => match gridLookup cfg with Some f => f call | None => None end
  end.

(** [pathreliability.FT8Equivalent]. *)
Definition FT8Equivalent (mode : string) (snr : Z) (c : pathConfig) : option Q :=
  let m := upper_trim mode in
  let x := float_of_int snr in
  if bool_decide (m = "FT8") then Some x
  else if bool_decide (m = "FT4") then Some (fadd x (off_FT4 c))
  else if bool_decide (m = "CW") then Some (fadd x (off_CW c))
  else if bool_decide (m = "RTTY") then Some (fadd x (off_RTTY c))
  else if bool_decide (m = "PSK") then Some (fadd x (off_PSK c))
  else if bool_decide (m = "WSPR") then Some (fadd x (off_WSPR c)) else None.

(** [pathreliability.BucketForIngest]: whether the mode has a bucket. *)
Definition BucketForIngest (mode : string) : bool := bool_decide (upper_trim mode ∈ ["FT8"; "FT4"; "CW"; "RTTY"; "PSK"; "WSPR"]).

Definition spot_band (s : Spot) : string :=
  let band := if bool_decide (TrimSpace (BandNorm s) = "") then Band s else BandNorm s in
  let band := TrimSpace (NormalizeBand band) in
  if bool_decide (band = "") || bool_decide (band = "???") then TrimSpace (NormalizeBand (FreqToBand (Frequency s))) else band.

(** ** The stages *)

Section Process.
Context (al : option Allowlist) (xxh3 : list Z -> Z) (modeAlloc : list modeAllocation).
Context (encodeCell encodeCoarseCell : string -> Z).
Context (lev : string -> string -> Z) (morse baudot : weights) (mkeys bkeys : list ascii) (borrow : nat -> list Z).
Context (order_calls : gmap string callAggregate -> list string) (order_set : gset string -> list string).
Context (order_reporters : gmap string Z -> list (string * Z)) (by_age : gmap callFreqKey qualityEntry -> list callFreqKey).
Context (order_modes : gmap string digitalModeEvidence -> list (string * digitalModeEvidence)).
Context (order_spotters : gmap string Z -> list (string * Z)).

Notation suggest := (SuggestCallCorrection lev morse baudot mkeys bkeys borrow order_calls order_set order_reporters by_age).

Definition effectivePrefixInfo (p : pipeline) (call : string) : option PrefixInfo * pipeline :=
  match pl_cty p with
  | None => (None, p)
  | Some db =>
      if bool_decide (call = "") then (None, p)
      else if shouldRejectCTYCall al call then (None, p)
      else let '(info, _, m, db) := lookup_info al (pl_meta p) db call in (info, upd_lookups m (Some db) p)
  end.

(** Flags, mode and beacon mark. *)
Definition prepare (p : pipeline) (s : Spot) (now : Z) : pipeline * Spot :=
  let s := ApplySourceHumanFlag (EnsureNormalized s) in
  let explicitMode := negb (bool_decide (TrimSpace (Mode s) = "")) in
  let '(p, s) :=
    match pl_modes p with
    | None => (p, s)
    | Some a =>
        let '(mode, a) := Assign order_modes order_spotters modeAlloc a s explicitMode now in
        (upd_modes (Some a) p,
         if explicitMode || negb (bool_decide (mode = "")) then set_Mode mode s else s)
    end in
  let s := RefreshBeaconFlag (EnsureNormalized s) in
  (count_spot p, if IsBeacon s then set_Confidence "V" s else s).

(** The settings of one decision.  The frequency guard is not among them. *)
Definition correction_settings (cfg : pipelineConfig) (window minReports cooldownMin qualityBin : Z) (tolerance : Q)
    : CorrectionSettings :=
  let c := correctionCfg cfg in
  mkSettings (cc_Strategy c) 0 0 tolerance qualityBin (cc_QualityGoodThreshold c) (cc_QualityNewCallIncrement c)
    (cc_QualityBustedDecrement c) minReports (cc_MinAdvantage c) (cc_MinConfidencePercent c) window (cc_MaxEditDistance c)
    (cc_MinSNRCW c) (cc_MinSNRRTTY c) (cc_MinSNRVoice c) (cc_DistanceModelCW c) (cc_DistanceModelRTTY c)
    (cc_Distance3ExtraReports c) (cc_Distance3ExtraAdvantage c) (cc_Distance3ExtraConfidence c)
    (spotterReliability cfg) (cc_MinSpotterReliability c) cooldownMin.

(** What the adaptive thresholds say, and the tracker after the questions. *)
Definition adapt (cfg : pipelineConfig) (adaptive : option AdaptiveMinReports) (s : Spot) (now : Z)
    : Z * Z * string * option AdaptiveMinReports :=
  let c := correctionCfg cfg in
  match adaptive with
  | None => (cc_MinConsensusReports c, cc_CooldownMinReporters c, "normal", None)
  | Some a =>
      let narrow := bool_decide (upper_trim (Mode s) ∈ ["CW"; "RTTY"]) in
      let a := if narrow then Observe a (Band s) (de_call s) now else a in
      let '(dyn, a) := if narrow then MinReportsForBand a (Band s) now now else (0, a) in
      let '(state, a) := StateForBand a (Band s) now now in
      (if 0 <? dyn then dyn else cc_MinConsensusReports c, if 0 <? dyn then dyn else cc_CooldownMinReporters c, state, Some a)
  end.

Definition is_voice (s : Spot) : bool := bool_decide (upper_trim (Mode s) ∈ ["USB"; "LSB"]).

(** The bin and the tolerance: sidebands have their own, bands may override the others. *)
Definition tuning (c : CallCorrectionConfig) (s : Spot) (state : string) : Z * Q :=
  if is_voice s then (cc_QualityBinHz c, cc_VoiceFrequencyToleranceHz c)
  else match resolveBandStateParams (cc_BandStateOverrides c) (Band s) state with
       | None => (cc_QualityBinHz c, cc_FrequencyToleranceHz c)
       | Some b => (if 0 <? bp_QualityBinHz b then bp_QualityBinHz b else cc_QualityBinHz c,
                    if Qlt_b 0 (bp_FrequencyToleranceHz b) then bp_FrequencyToleranceHz b else cc_FrequencyToleranceHz c)
       end.

(** The suggested call is taken, marked as a bust, or ends the spot: [(suppress, spot)]. *)
Definition apply_suggestion (cfg : pipelineConfig) (p : pipeline) (s : Spot) (corrected : string) : bool * Spot * pipeline :=
  let correctedNorm := normalize_call corrected in
  let refuse p := if EqualFold (cc_InvalidAction (correctionCfg cfg)) "suppress" then (true, s, p) else (false, set_Confidence "B" s, p) in
  let take p := (false, set_Confidence "C" (set_DXCallNorm correctedNorm (set_DXCall correctedNorm s)), p) in
  if shouldRejectCTYCall al correctedNorm then refuse p
  else match pl_cty p with
       | None => take p
       | Some _ => let '(info, p) := effectivePrefixInfo p correctedNorm in
                   match info with Some _ => take p | None => refuse p end
       end.

(** The suggestion for a spot, from the spots around it, with the states it leaves. *)
Definition decision (cfg : pipelineConfig) (p : pipeline) (idx : Index.CorrectionIndex) (s : Spot) (now : Z)
    : suggestion * stores * Index.CorrectionIndex * option AdaptiveMinReports :=
  let c := correctionCfg cfg in
  let window := callCorrectionWindow c in
  let '(minReports, cooldownMin, state, adaptive) := adapt cfg (pl_adaptive p) s now in
  let '(qualityBin, tolerance) := tuning c s state in
  let settings := correction_settings cfg window minReports cooldownMin qualityBin tolerance in
  let radius := if is_voice s then cc_VoiceCandidateWindowKHz c else (1 # 2)%Q in
  let '(others, idx) := Index.Candidates idx s now window radius in
  let '(sg, st) := suggest settings s (spotsToEntries others) now now (pl_stores p) in
  (sg, st, idx, adaptive).

(** Whether the correction decides about the spot. *)
Definition decides (cfg : pipelineConfig) (p : pipeline) (s : Spot) : option Index.CorrectionIndex :=
  if IsCallCorrectionCandidate (Mode s) && cc_Enabled (correctionCfg cfg) then pl_index p else None.

(** [(suppress, spot)]; the index receives the spot as it leaves. *)
Definition maybeApplyCallCorrectionWithLogger (cfg : pipelineConfig) (p : pipeline) (s : Spot) (now : Z) : bool * Spot * pipeline :=
  if negb (IsCallCorrectionCandidate (Mode s)) then (false, s, p)
  else
    match decides cfg p s with
    | None => (false, if bool_decide (TrimSpace (Confidence s) = "") then set_Confidence "?" s else s, p)
    | Some idx =>
        let '(sg, st, idx, adaptive) := decision cfg p idx s now in
        let s := set_Confidence (formatConfidence (subjectConfidence sg) (totalReporters sg)) s in
        let p := upd_correction (Some idx) st adaptive p in
        let '(suppress, s, p) := if ok sg then apply_suggestion cfg p s (correctedCall sg) else (false, s, p) in
        let idx := Index.CorrectionIndex_Add idx s now (callCorrectionWindow (correctionCfg cfg)) in
        (suppress, s, upd_correction (Some idx) (pl_stores p) (pl_adaptive p) p)
    end.

(** The index holds the pointer of the spot it received last in its bucket. *)
Definition refresh_last (k : Z) (s : Spot) (ci : Index.CorrectionIndex) : Index.CorrectionIndex :=
  match rev (items ci k) with
  | [] => ci
  | _ :: before => mkStore (<[k := rev before ++ [s]]> (w_entries ci)) (w_lastSeen ci)
  end.

Definition average_threshold : Q := fl64 (5 # 100).

(** The averaged frequency; [indexed]: the spot is in the correction index. *)
Definition average_frequency (cfg : pipelineConfig) (indexed : bool) (p : pipeline) (s : Spot) (now : Z) : Spot * pipeline :=
  match pl_averager p with
  | None => (s, p)
  | Some fa =>
      if negb (shouldAverageFrequency s) then (s, p)
      else
        let pol := spotPolicy cfg in
        let '(avg, corroborators, _, fa) :=
          Averager.Average fa (dx_call s) (Frequency s) now (frequencyAverageWindow pol) (frequencyAverageTolerance pol) in
        let rounded := roundFrequencyTo100Hz avg in
        let s' := if (FrequencyAveragingMinReports pol <=? corroborators)
                     && Qle_bool average_threshold (fabs (fsub rounded (Frequency s)))
                  then set_Frequency rounded s else s in
        let index := if indexed then refresh_last (Index.bucketKey (Frequency s)) s' <$> pl_index p else pl_index p in
        (s', upd_averager (Some fa) index p)
  end.

Definition applyKnownCallFloor (p : pipeline) (s : Spot) : Spot * pipeline :=
  if IsBeacon s then (s, p)
  else if negb (modeSupportsConfidenceGlyph (if bool_decide (ModeNorm s = "") then Mode s else ModeNorm s)) then (s, p)
  else if negb (bool_decide (TrimSpace (Confidence s) = "?")) then (s, p)
  else match pl_known p with
       | None => (s, p)
       | Some k =>
           if bool_decide (dx_call s = "") then (s, p)
           else let '(hit, k) := kc_Contains k (dx_call s) in
                (if hit then set_Confidence "S" s else s, upd_known (Some k) p)
       end.

(** The glyph of a spot that is no beacon. *)
Definition confidence_floor (modeUpper : string) (p : pipeline) (s : Spot) : Spot * pipeline :=
  let s := if modeSupportsConfidenceGlyph modeUpper && bool_decide (TrimSpace (Confidence s) = "")
           then set_Confidence "?" s else s in
  applyKnownCallFloor p s.

(** [true] when the spot is to be dropped. *)
Definition applyLicenseGate (p : pipeline) (s : Spot) (fcc : option (nat -> query_result)) (now : Z)
    : bool * Spot * pipeline * list sink :=
  if IsBeacon s then (false, s, p, [])
  else match pl_cty p with
  | None => (false, s, p, [])
  | Some _ =>
      let dxCall := dx_call s in
      let deCall := de_call s in
      let needsMetadata := (ADIF (DXMetadata s) =? 0) || (ADIF (DEMetadata s) =? 0) || bool_decide (Confidence s = "C") in
      let '(s, p) :=
        if needsMetadata then
          let '(dxInfo, p) := effectivePrefixInfo p (normalizeCallForMetadata dxCall) in
          let '(deInfo, p) := effectivePrefixInfo p (normalizeCallForMetadata deCall) in
          (refresh_metadata dxInfo deInfo s, p)
        else (s, p) in
      let callKey := license_form dxCall in
      if bool_decide (callKey = "") then (false, s, p, [])
      else
        let '(info, p) := effectivePrefixInfo p callKey in
        match info with
        | Some i =>
            if p_ADIF i =? 291 then
              if AllowlistMatch al (p_ADIF i) callKey then (false, s, p, [])
              else
                let '(licensed, l) := IsLicensedUS (pl_license p) callKey fcc now in
                let p := upd_license l p in
                if licensed then (false, s, p, [])
                else (true, s, p, [ToUnlicensed (SourceNode s) "DX" callKey (ModeNorm s) (Frequency s)])
            else (false, s, p, [])
        | None => (false, s, p, [])
        end
  end.

(** The DE side without country data is looked up once more before the secondary stage. *)
Definition refresh_de (active : bool) (p : pipeline) (s : Spot) : Spot * pipeline :=
  if active && ((ADIF (DEMetadata s) <=? 0) || (CQZone (DEMetadata s) <=? 0))
  then match pl_cty p with
       | None => (s, p)
       | Some _ =>
           let '(info, p) := effectivePrefixInfo p (normalizeCallForMetadata (de_call s)) in
           match info with
           | None => (s, p)
           | Some _ => (EnsureNormalized (InvalidateMetadataCache
                          (set_DEMetadata (keep_grid (DEMetadata s) (metadataFromPrefix info)) s)), p)
           end
       end
  else (s, p).

Definition with_grid (g : string) (derived : bool) (m : CallMetadata) : CallMetadata :=
  mkCallMetadata (Continent m) (Country m) (CQZone m) g derived (ITUZone m) (ADIF m).

Definition backfill_grids (cfg : pipelineConfig) (s : Spot) : Spot :=
  let dx := if bool_decide (TrimSpace (Grid (DXMetadata s)) = "") then lookupGridUnified cfg (dx_call s) else None in
  let s1 := match dx with Some (g, d) => set_DXMetadata (with_grid g d (DXMetadata s)) s | None => s end in
  let de := if bool_decide (TrimSpace (Grid (DEMetadata s1)) = "") then lookupGridUnified cfg (de_call s1) else None in
  let s2 := match de with Some (g, d) => set_DEMetadata (with_grid g d (DEMetadata s1)) s1 | None => s1 end in
  if is_some dx || is_some de then EnsureNormalized (InvalidateMetadataCache s2) else s2.

(** The cells of the spot and the update of the path predictor. *)
Definition path_stage (cfg : pipelineConfig) (s : Spot) (now : Z) : Spot * list sink :=
  match pathPredictor cfg with
  | None => (s, [])
  | Some pc =>
      if negb (pc_Enabled pc) then (s, [])
      else
        let s := if DXCellID s =? 0 then set_DXCellID (uint16 (encodeCell (TrimSpace (Grid (DXMetadata s))))) s else s in
        let s := if DECellID s =? 0 then set_DECellID (uint16 (encodeCell (TrimSpace (Grid (DEMetadata s))))) s else s in
        (s,
         if negb (HasReport s) then []
         else
           let mode := if bool_decide (TrimSpace (ModeNorm s) = "") then Mode s else ModeNorm s in
           match FT8Equivalent mode (Report s) pc with
           | None => []
           | Some ft8 =>
               let band := spot_band s in
               if negb (bool_decide (band = "")) && negb (bool_decide (band = "???")) && allowedBand (allowedBands cfg) band
                  && BucketForIngest mode
               then [ToPath (DECellID s) (DXCellID s) (encodeCoarseCell (Grid (DEMetadata s))) (encodeCoarseCell (Grid (DXMetadata s)))
                       band ft8 (if IsZero (Time s) then now else Time s) (IsBeacon s)]
               else []
           end)
  end.

Definition ask (d : option SecondaryDeduper) (s : Spot) : bool * option SecondaryDeduper :=
  match d with
  | None => (true, None)
  | Some d => let '(b, d) := ShouldForward xxh3 d (Some s) in (b, Some d)
  end.

(** [(fast, med, slow)]: a policy that is off follows the fastest one that is on. *)
Definition secondary_stage (p : pipeline) (s : Spot) : bool * bool * bool * pipeline :=
  let '(allowFast, fast) := ask (pl_fast p) s in
  let '(allowMed, med) := ask (pl_med p) s in
  let '(allowSlow, slow) := ask (pl_slow p) s in
  let fallback :=
    match pl_fast p, pl_med p, pl_slow p with
    | None, Some _, _ => allowMed
    | None, None, Some _ => allowSlow
    | _, _, _ => allowFast
    end in
  (if is_some (pl_fast p) then allowFast else fallback,
   if is_some (pl_med p) then allowMed else fallback,
   if is_some (pl_slow p) then allowSlow else fallback,
   upd_secondary fast med slow p).

Definition grid_updates (cfg : pipelineConfig) (s : Spot) : list sink :=
  let one m call := let g := TrimSpace (Grid m) in
    if negb (bool_decide (g = "")) && negb (GridDerived m) then [ToGrid call g] else [] in
  if has_gridUpdate cfg then one (DXMetadata s) (dx_call s) ++ one (DEMetadata s) (de_call s) else [].

(** The clients, directly or through the aggregator. *)
Definition to_clients (cfg : pipelineConfig) (p : pipeline) (s : Spot) (fast med slow : bool) : pipeline * list sink :=
  if negb (has_telnet cfg) then (p, [])
  else match pl_agg p with
       | Some a => if ShouldAggregate a s then (upd_agg (Some (Enqueue a s).2) p, [ToAggregator s])
                   else (p, [ToClients s fast med slow])
       | None => (p, [ToClients s fast med slow])
       end.

Definition fan_out (cfg : pipelineConfig) (p : pipeline) (s : Spot) (fast med slow : bool) : pipeline * list sink :=
  if negb fast && negb med && negb slow then (p, if has_telnet cfg then [ToSelf s] else [])
  else
    let '(p, clients) := to_clients cfg p s fast med slow in
    (p, grid_updates cfg s
        ++ (if has_archive cfg && med && shouldArchiveSpot s then [ToArchive s] else [])
        ++ clients
        ++ (if has_peers cfg && med && shouldPublishToPeers s (peerRxOnly cfg) then [ToPeers (cloneSpotForPeerPublish s)] else [])).

(** From the license gate on: [(spot as it ends, state, sinks)]. *)
Definition deliver (cfg : pipelineConfig) (modeUpper : string) (p : pipeline) (s : Spot) (now : Z) : pipeline * list sink :=
  let modeKey := if bool_decide (modeUpper = "") then SourceType s else modeUpper in
  let stats := [ToStats modeKey (sourceStatsLabel s)] in
  let s := if broadcastKeepSSID cfg then s
           else let stripped := CollapseSSID (de_call s) in set_DECallNormStripped stripped (set_DECallStripped stripped s) in
  let ring := if has_buf cfg && shouldBufferSpot s then [ToRing s] else [] in
  let active := is_some (pl_fast p) || is_some (pl_med p) || is_some (pl_slow p) in
  let '(s, p) := refresh_de active p s in
  if isStale s (spotPolicy cfg) now then (p, stats ++ ring)
  else
    let s := if is_some (gridLookup cfg) || is_some (gridLookupSync cfg) then backfill_grids cfg s else s in
    let '(s, path) := path_stage cfg s now in
    let '(fast, med, slow, p) := secondary_stage p s in
    let '(p, out) := fan_out cfg p s fast med slow in
    (p, stats ++ ring ++ path ++ out).

(** Harmonics, frequency and confidence, after the correction. *)
Definition refine (cfg : pipelineConfig) (modeUpper : string) (indexed : bool) (p : pipeline) (s : Spot) (now : Z)
    : option Spot * pipeline :=
  if IsBeacon s then (Some s, p)
  else
    let '(dropped, s, p) :=
      match pl_harmonics p with
      | Some hd => if harmonicEnabled cfg then
                     let '(drop, _, _, _, s, hd) := ShouldDrop hd s now in (drop, s, upd_harmonics (Some hd) p)
                   else (false, s, p)
      | None => (false, s, p)
      end in
    if dropped : bool then (None, p)
    else
      let '(s, p) := average_frequency cfg indexed p s now in
      let '(s, p) := confidence_floor modeUpper p s in
      (Some s, p).

(** The correction runs for clients only, and not for beacons. *)
Definition correct (cfg : pipelineConfig) (p : pipeline) (s : Spot) (now : Z) : option Spot * bool * pipeline :=
  if has_telnet cfg && negb (IsBeacon s) then
    let '(suppress, s', p') := maybeApplyCallCorrectionWithLogger cfg p s now in
    (if suppress : bool then None else Some (RefreshBeaconFlag s'), is_some (decides cfg p s), p')
  else (Some s, false, p).

(** One spot of the deduplicator's output channel. *)
Definition processOutputSpot (cfg : pipelineConfig) (p : pipeline) (s : Spot) (fcc : option (nat -> query_result)) (now : Z)
    : pipeline * list sink :=
  let '(p, s) := prepare p s now in
  let modeUpper := ModeNorm s in
  if negb (IsBeacon s) && (0 <? MaxAgeSeconds (spotPolicy cfg)) && older_than s (MaxAgeSeconds (spotPolicy cfg)) now then (p, [])
  else
    let '(corrected, indexed, p) := correct cfg p s now in
    match corrected with
    | None => (p, [])
    | Some s =>
        let '(refined, p) := refine cfg modeUpper indexed p s now in
        match refined with
        | None => (p, [])
        | Some s =>
            let '(drop, s, p, report) := applyLicenseGate p (EnsureNormalized s) fcc now in
            if drop : bool then (p, report)
            else let '(p, out) := deliver cfg modeUpper p (EnsureNormalized s) now in (p, report ++ out)
        end
    end.
End Process.

(** ** What the stages keep *)

(** Who reported what, when and from where. *)
Definition kept (s : Spot) : string * Z * string * string * bool * Z * bool * string :=
  (DECall s, Time s, SourceType s, SourceNode s, IsTestSpotter s, Report s, HasReport s, Band s).

(** What is fixed once the license gate is reached. *)
Definition final (s : Spot) : string * string * bool * string * string :=
  (DXCall s, DXCallNorm s, IsBeacon s, Confidence s, Mode s).

(** The normalised DX call is not missing. *)
Definition settled (s : Spot) : Prop := fill (DXCallNorm s) (nonempty (DXCall s)) (normalize_call (DXCall s)) = DXCallNorm s.

(** [x] is [s] up to metadata, cells, stripped calls, frequency and comment. *)
Definition same_spot (x s : Spot) : Prop := kept x = kept s /\ final x = final s.

#[global] Instance same_spot_equiv : Equivalence same_spot.
Proof. split; unfold same_spot; [intros ?; done|intros ? ? []; done|intros ? ? ? [] []; split; congruence]. Qed.

Lemma settled_same x s : same_spot x s -> settled s -> settled x.
Proof. intros [_ [= E1 E2 _ _ _]]. unfold settled. by rewrite E1, E2. Qed.

Lemma DXCallNorm_EnsureNormalized s :
  DXCallNorm (EnsureNormalized s) = fill (DXCallNorm s) (nonempty (DXCall s)) (normalize_call (DXCall s)).
Proof. reflexivity. Qed.

Lemma EnsureNormalized_settled s : settled (EnsureNormalized s).
Proof.
  unfold settled. rewrite DXCallNorm_EnsureNormalized. change (DXCall (EnsureNormalized s)) with (DXCall s). apply fill_idemp.
Qed.

Lemma EnsureNormalized_same s : settled s -> same_spot (EnsureNormalized s) s.
Proof. intros Hs. split; [done|]. unfold final. rewrite DXCallNorm_EnsureNormalized, Hs. reflexivity. Qed.

Lemma dx_call_same x s : same_spot x s -> dx_call x = dx_call s.
Proof. intros [_ [= E1 E2 _ _ _]]. unfold dx_call. by rewrite E1, E2. Qed.

Lemma isStale_same x s p now : same_spot x s -> isStale x p now = isStale s p now.
Proof. intros [H _]. unfold kept in H. injection H as _ Ht _ _ _ _ _ _. unfold isStale, older_than. by rewrite Ht. Qed.

(** Setters of fields outside [same_spot]. *)
Lemma same_metadata m n s : same_spot (set_DEMetadata m (set_DXMetadata n s)) s.
Proof. done. Qed.

Lemma refresh_metadata_same dx de s : settled s -> same_spot (refresh_metadata dx de s) s.
Proof. intros Hs. unfold refresh_metadata. rewrite EnsureNormalized_same; [done|exact Hs]. Qed.

Lemma backfill_same cfg s : settled s -> same_spot (backfill_grids cfg s) s.
Proof.
  intros Hs. unfold backfill_grids. cbv zeta.
  set (dx := if bool_decide _ then _ else _). set (s1 := match dx with Some _ => _ | None => _ end).
  assert (H1 : same_spot s1 s) by (unfold s1; destruct dx as [[g d]|]; done).
  set (de := if bool_decide _ then lookupGridUnified cfg (de_call s1) else None).
  set (s2 := match de with Some _ => _ | None => _ end).
  assert (H2 : same_spot s2 s) by (unfold s2; destruct de as [[g d]|]; done).
  destruct (_ || _); [|done]. rewrite EnsureNormalized_same; [done|]. by apply (settled_same s2 s).
Qed.

Lemma clone_same s : same_spot (cloneSpotForPeerPublish s) s.
Proof. unfold cloneSpotForPeerPublish. repeat case_match; done. Qed.

Section Guards.
Context (al : option Allowlist) (xxh3 : list Z -> Z) (encodeCell encodeCoarseCell : string -> Z).

Lemma refresh_de_same active p s : settled s -> same_spot (refresh_de al active p s).1 s.
Proof.
  intros Hs. unfold refresh_de. destruct (_ && _); [|done]. destruct (pl_cty p); [|done].
  destruct (effectivePrefixInfo _ _ _) as [[i|] p']; [|done]. simpl. rewrite EnsureNormalized_same; [done|exact Hs].
Qed.

Lemma path_stage_same cfg s now : same_spot (path_stage encodeCell encodeCoarseCell cfg s now).1 s.
Proof.
  unfold path_stage. destruct (pathPredictor cfg) as [pc|]; [|done]. destruct (pc_Enabled pc); [|done]. simpl.
  destruct (DXCellID s =? 0); simpl; destruct (DECellID _ =? 0); done.
Qed.

Lemma path_stage_sinks cfg s now k : k ∈ (path_stage encodeCell encodeCoarseCell cfg s now).2 -> exists a b c d e f g h, k = ToPath a b c d e f g h.
Proof.
  unfold path_stage. destruct (pathPredictor cfg) as [pc|]; [|by intros ?%elem_of_nil].
  destruct (pc_Enabled pc); [|by intros ?%elem_of_nil]. cbn [negb snd].
  set (x := if DXCellID s =? 0 then _ else _). set (y := if DECellID x =? 0 then _ else _). clearbody y.
  destruct (HasReport y); [|by intros ?%elem_of_nil]. cbn [negb]. destruct (FT8Equivalent _ _ _); [|by intros ?%elem_of_nil].
  destruct (_ && _ && _ && _); [|by intros ?%elem_of_nil]. intros ->%list_elem_of_singleton. by do 8 eexists.
Qed.

(** What the sinks of [s] may be: [fresh] says that the guard at the end let it through. *)
Definition sink_ok (cfg : pipelineConfig) (fresh : bool) (s : Spot) (k : sink) : Prop :=
  match k with
  | ToRing x => same_spot x s /\ IsTestSpotter s = false
  | ToArchive x => same_spot x s /\ IsTestSpotter s = false /\ fresh = true
  | ToClients x _ _ _ | ToSelf x | ToAggregator x => same_spot x s /\ has_telnet cfg = true /\ fresh = true
  | ToPeers x => same_spot x s /\ IsTestSpotter s = false /\ fresh = true /\
                 SourceType s <> SourceUpstream /\ SourceType s <> SourcePeer /\ (peerRxOnly cfg = true -> SourceType s = SourceManual)
  | ToGrid call g => fresh = true /\ g <> ""
  | ToPath _ _ _ _ _ _ _ _ => fresh = true
  | ToStats _ _ => True
  | ToUnlicensed _ _ _ _ _ => False
  end.

Lemma sink_ok_same cfg fresh s t k : same_spot t s -> sink_ok cfg fresh t k -> sink_ok cfg fresh s k.
Proof.
  intros Hst. assert (H1 : IsTestSpotter t = IsTestSpotter s /\ SourceType t = SourceType s) by (destruct Hst as [[=] _]; done).
  destruct H1 as [H1 H2]. destruct k; simpl; rewrite ?H1, ?H2; intros; try done; intuition; by etransitivity.
Qed.

Lemma publish_guard s rx :
  shouldPublishToPeers s rx = true ->
  IsTestSpotter s = false /\ SourceType s <> SourceUpstream /\ SourceType s <> SourcePeer /\ (rx = true -> SourceType s = SourceManual).
Proof.
  unfold shouldPublishToPeers. destruct (IsTestSpotter s); [done|]. case_bool_decide as Hin; [done|].
  intros H. split; [done|]. split; [set_solver|]. split; [set_solver|]. intros ->. by apply bool_decide_eq_true in H.
Qed.

Lemma fan_out_ok cfg p s fast med slow k : k ∈ (fan_out cfg p s fast med slow).2 -> sink_ok cfg true s k.
Proof.
  unfold fan_out. destruct (negb fast && negb med && negb slow).
  { simpl. destruct (has_telnet cfg) eqn:Ht; [|by intros ?%elem_of_nil]. intros ->%list_elem_of_singleton. by split. }
  assert (Hc : forall x, x ∈ (to_clients cfg p s fast med slow).2 -> sink_ok cfg true s x).
  { intros x. unfold to_clients. destruct (has_telnet cfg) eqn:Ht; [|by intros ?%elem_of_nil]. cbn [negb].
    destruct (pl_agg p); [destruct (ShouldAggregate _ _)|]; intros ->%list_elem_of_singleton; by split. }
  destruct (to_clients cfg p s fast med slow) as [p' clients]. cbn [snd] in *. rewrite !elem_of_app. intros [H|[H|[H|H]]].
  - unfold grid_updates in H. destruct (has_gridUpdate cfg); [|by apply elem_of_nil in H].
    rewrite elem_of_app in H. destruct H as [H|H]; revert H; case_bool_decide; simpl; try (by intros ?%elem_of_nil);
      destruct (negb (GridDerived _)); try (by intros ?%elem_of_nil); intros ->%list_elem_of_singleton; by split.
  - destruct (has_archive cfg && med && shouldArchiveSpot s) eqn:Ha; [|by apply elem_of_nil in H].
    apply list_elem_of_singleton in H as ->. rewrite !andb_true_iff in Ha. destruct Ha as [_ Ha].
    unfold shouldArchiveSpot in Ha. split; [done|]. by destruct (IsTestSpotter s).
  - by apply Hc.
  - destruct (has_peers cfg && med && shouldPublishToPeers s (peerRxOnly cfg)) eqn:Ha; [|by apply elem_of_nil in H].
    apply list_elem_of_singleton in H as ->. rewrite !andb_true_iff in Ha. destruct Ha as [_ Ha].
    apply publish_guard in Ha as (? & ? & ? & ?). split; [apply clone_same|]. done.
Qed.

Lemma deliver_ok cfg modeUpper p s now k :
  settled s -> k ∈ (deliver al xxh3 encodeCell encodeCoarseCell cfg modeUpper p s now).2 ->
  sink_ok cfg (negb (isStale s (spotPolicy cfg) now)) s k.
Proof.
  intros Hs. unfold deliver. cbv zeta.
  set (s1 := if broadcastKeepSSID cfg then s else _).
  assert (H1 : same_spot s1 s) by (unfold s1; by destruct (broadcastKeepSSID cfg)). clearbody s1.
  set (active := _ || _). pose proof (refresh_de_same active p s1 (settled_same _ _ H1 Hs)) as H2.
  destruct (refresh_de al active p s1) as [s2 p2]. simpl in H2.
  assert (H2' : same_spot s2 s) by (by etransitivity).
  pose proof (isStale_same s2 s (spotPolicy cfg) now H2') as Hst.
  assert (Hring : forall x, x ∈ (if has_buf cfg && shouldBufferSpot s1 then [ToRing s1] else []) ->
                  sink_ok cfg (negb (isStale s (spotPolicy cfg) now)) s x).
  { intros x. destruct (has_buf cfg && shouldBufferSpot s1) eqn:Hb; [|by intros ?%elem_of_nil].
    intros ->%list_elem_of_singleton. apply andb_prop in Hb as [_ Hb]. unfold shouldBufferSpot in Hb.
    apply (sink_ok_same cfg _ s s1 _ H1). split; [done|]. by destruct (IsTestSpotter s1). }
  assert (Hstats : forall m l x, x ∈ [ToStats m l] -> sink_ok cfg (negb (isStale s (spotPolicy cfg) now)) s x).
  { by intros m l x ->%list_elem_of_singleton. }
  rewrite Hst. destruct (isStale s (spotPolicy cfg) now).
  { simpl. rewrite elem_of_cons. intros [->|H]; [done|]. by apply Hring. }
  set (s3 := if is_some _ || _ then _ else s2).
  assert (H3 : same_spot s3 s).
  { unfold s3. destruct (is_some (gridLookup cfg) || is_some (gridLookupSync cfg)); [|exact H2'].
    rewrite backfill_same; [exact H2'|]. by apply (settled_same _ s). }
  pose proof (path_stage_same cfg s3 now) as H4. pose proof (path_stage_sinks cfg s3 now) as Hp.
  destruct (path_stage encodeCell encodeCoarseCell cfg s3 now) as [s4 path]. simpl in H4, Hp.
  assert (H5 : same_spot s4 s) by (by etransitivity).
  destruct (secondary_stage xxh3 p2 s4) as [[[fast med] slow] p3].
  pose proof (fan_out_ok cfg p3 s4 fast med slow) as Hf. destruct (fan_out cfg p3 s4 fast med slow) as [p4 out]. simpl in Hf.
  cbn [snd]. rewrite !elem_of_app. intros [H|[H|[H|H]]]; [by eapply Hstats|by apply Hring| |].
  - apply Hp in H as (? & ? & ? & ? & ? & ? & ? & ? & ->). done.
  - apply (sink_ok_same cfg _ s s4 k H5). by apply Hf.
Qed.
End Guards.

(** ** The gate, the refinements and the correction *)

Section Flow.
Context (al : option Allowlist) (xxh3 : list Z -> Z) (modeAlloc : list modeAllocation).
Context (encodeCell encodeCoarseCell : string -> Z).
Context (lev : string -> string -> Z) (morse baudot : weights) (mkeys bkeys : list ascii) (borrow : nat -> list Z).
Context (order_calls : gmap string callAggregate -> list string) (order_set : gset string -> list string).
Context (order_reporters : gmap string Z -> list (string * Z)) (by_age : gmap callFreqKey qualityEntry -> list callFreqKey).
Context (order_modes : gmap string digitalModeEvidence -> list (string * digitalModeEvidence)).
Context (order_spotters : gmap string Z -> list (string * Z)).

Notation decision_of := (decision lev morse baudot mkeys bkeys borrow order_calls order_set order_reporters by_age).
Notation correct_of := (correct al lev morse baudot mkeys bkeys borrow order_calls order_set order_reporters by_age).
Notation prepare_of := (prepare modeAlloc order_modes order_spotters).
Notation process := (processOutputSpot al xxh3 modeAlloc encodeCell encodeCoarseCell lev morse baudot mkeys bkeys borrow
  order_calls order_set order_reporters by_age order_modes order_spotters).

Lemma gate_same p s fcc now :
  settled s ->
  let '(drop, s', _, report) := applyLicenseGate al p s fcc now in
  same_spot s' s /\ (if drop : bool then exists src call mode f, report = [ToUnlicensed src "DX" call mode f] else report = []).
Proof.
  intros Hs. unfold applyLicenseGate. destruct (IsBeacon s); [done|]. destruct (pl_cty p); [|done]. cbv zeta.
  set (needs := _ || _ || _).
  assert (Hm : forall (P : Spot * pipeline -> Prop), (forall dx de q, P (refresh_metadata dx de s, q)) -> P (s, p) ->
    P (if needs then let '(dxInfo, p) := effectivePrefixInfo al p (normalizeCallForMetadata (dx_call s)) in
                     let '(deInfo, p) := effectivePrefixInfo al p (normalizeCallForMetadata (de_call s)) in
                     (refresh_metadata dxInfo deInfo s, p) else (s, p))).
  { intros P H1 H2. destruct needs; [|done]. destruct (effectivePrefixInfo al p _) as [dx q].
    destruct (effectivePrefixInfo al q _) as [de q']. apply H1. }
  set (sp := if needs then _ else _) in *.
  assert (Hsp : same_spot sp.1 s).
  { apply (Hm (fun x => same_spot x.1 s)); [|done]. intros dx de q. by apply refresh_metadata_same. }
  clearbody sp. destruct sp as [s1 p1]. simpl in Hsp. clear Hm.
  case_bool_decide; [by split|]. destruct (effectivePrefixInfo al p1 _) as [[i|] p2]; [|by split].
  destruct (p_ADIF i =? 291); [|by split]. destruct (AllowlistMatch _ _ _); [by split|].
  destruct (IsLicensedUS _ _ _ _) as [[] l]; [by split|]. split; [done|]. by do 4 eexists.
Qed.

Lemma average_keeps cfg indexed p s now :
  let s' := (average_frequency cfg indexed p s now).1 in same_spot s' s.
Proof.
  unfold average_frequency. destruct (pl_averager p); [|done]. destruct (shouldAverageFrequency s); [|done]. cbn [negb].
  destruct (Averager.Average _ _ _ _ _ _) as [[[avg corr] n] fa]. simpl. by destruct (_ && _).
Qed.

(** Only the confidence may change, and to few values. *)
Lemma floor_keeps modeUpper p s :
  let s' := (confidence_floor modeUpper p s).1 in
  kept s' = kept s /\ DXCall s' = DXCall s /\ DXCallNorm s' = DXCallNorm s /\ IsBeacon s' = IsBeacon s /\ Mode s' = Mode s /\
  (Confidence s' = Confidence s \/
   (TrimSpace (Confidence s) = "" \/ TrimSpace (Confidence s) = "?") /\ (Confidence s' = "?" \/ Confidence s' = "S")).
Proof.
  unfold confidence_floor. cbv zeta. set (s1 := if _ && _ then _ else s).
  assert (H1 : s1 = s \/ s1 = set_Confidence "?" s /\ TrimSpace (Confidence s) = "").
  { unfold s1. destruct (modeSupportsConfidenceGlyph modeUpper); [|by left]. cbn [andb].
    destruct (bool_decide_reflect (TrimSpace (Confidence s) = "")); [right; by split|by left]. }
  clearbody s1.
  assert (H2 : (applyKnownCallFloor p s1).1 = s1 \/ (applyKnownCallFloor p s1).1 = set_Confidence "S" s1 /\ TrimSpace (Confidence s1) = "?").
  { unfold applyKnownCallFloor. destruct (IsBeacon s1); [by left|]. destruct (negb (modeSupportsConfidenceGlyph _)); [by left|].
    destruct (bool_decide_reflect (TrimSpace (Confidence s1) = "?")); [|by left]. cbn [negb]. destruct (pl_known p); [|by left]. case_bool_decide; [by left|].
    destruct (kc_Contains _ _) as [[] kc]; [right; by split|by left]. }
  destruct H2 as [->|[-> H2]], H1 as [->|[-> H1]]; simpl in *; repeat (split; [done|]); auto.
Qed.

Lemma refine_keeps cfg modeUpper indexed p s now s' p' :
  settled s -> refine cfg modeUpper indexed p s now = (Some s', p') ->
  kept s' = kept s /\ DXCall s' = DXCall s /\ DXCallNorm s' = DXCallNorm s /\ IsBeacon s' = IsBeacon s /\ Mode s' = Mode s /\
  (Confidence s' = Confidence s \/
   (TrimSpace (Confidence s) = "" \/ TrimSpace (Confidence s) = "?") /\ (Confidence s' = "?" \/ Confidence s' = "S")).
Proof.
  intros Hs. unfold refine. destruct (IsBeacon s) eqn:Hb; [intros [= <- <-]; auto 10|].
  set (h := match pl_harmonics p with Some _ => _ | None => _ end).
  assert (Hh : same_spot h.1.2 s).
  { unfold h. destruct (pl_harmonics p) as [hd|]; [|done]. destruct (harmonicEnabled cfg); [|done].
    assert (H : same_spot (ShouldDrop hd s now).1.2 s).
    { unfold ShouldDrop. destruct (_ || _); [done|]. cbv zeta. pose proof (EnsureNormalized_same s Hs) as He.
      case_bool_decide; [done|]. destruct (detectHarmonic _ _ _) as [[f c] d]. by destruct (Qlt_b 0 f). }
    destruct (ShouldDrop hd s now) as [[[[[d f] c] b] s1] hd']. done. }
  clearbody h. destruct h as [[dropped s1] p1]. simpl in Hh. destruct dropped; [done|].
  pose proof (average_keeps cfg indexed p1 s1 now) as Ha. destruct (average_frequency cfg indexed p1 s1 now) as [s2 p2]. simpl in Ha.
  pose proof (floor_keeps modeUpper p2 s2) as Hf. destruct (confidence_floor modeUpper p2 s2) as [s3 p3]. simpl in Hf.
  intros [= <- <-]. assert (Hsame : same_spot s2 s) by (by etransitivity). destruct Hsame as [Hk [= E1 E2 E3 E4 E5]].
  rewrite E1, E2, E3, E4, E5, Hk in Hf. by rewrite Hb in Hf.
Qed.

(** The mode and the beacon mark are set; the calls and the lookups are not touched. *)
Lemma prepare_keeps p s now :
  let '(p', s') := prepare_of p s now in
  kept s' = kept s /\ DXCall s' = DXCall s /\ settled s' /\ (IsBeacon s' = true -> Confidence s' = "V") /\
  pl_cty p' = pl_cty p /\ pl_meta p' = pl_meta p /\ pl_license p' = pl_license p /\ pl_index p' = pl_index p.
Proof.
  unfold prepare. cbv zeta. change (kept s) with (kept (ApplySourceHumanFlag (EnsureNormalized s))).
  change (DXCall s) with (DXCall (ApplySourceHumanFlag (EnsureNormalized s))).
  generalize (ApplySourceHumanFlag (EnsureNormalized s)). clear s. intros s.
  set (ps := match pl_modes p with Some _ => _ | None => _ end).
  assert (H : kept ps.2 = kept s /\ DXCall ps.2 = DXCall s /\ pl_cty ps.1 = pl_cty p /\ pl_meta ps.1 = pl_meta p /\
              pl_license ps.1 = pl_license p /\ pl_index ps.1 = pl_index p).
  { unfold ps. destruct (pl_modes p); [|done]. destruct (Assign _ _ _ _ _ _ _) as [mode a]. cbn [fst snd]. by destruct (_ || _). }
  clearbody ps. destruct ps as [p1 s1]. simpl in H. destruct H as (H1 & H2 & H3 & H4 & H5 & H6).
  pose proof (EnsureNormalized_settled s1) as Hs. rewrite <- H1, <- H2.
  assert (Hr : kept (RefreshBeaconFlag (EnsureNormalized s1)) = kept s1 /\ DXCall (RefreshBeaconFlag (EnsureNormalized s1)) = DXCall s1 /\
               settled (RefreshBeaconFlag (EnsureNormalized s1))).
  { revert Hs. generalize (EnsureNormalized_settled s1). change (kept s1) with (kept (EnsureNormalized s1)).
    change (DXCall s1) with (DXCall (EnsureNormalized s1)). generalize (EnsureNormalized s1). intros t _ Ht.
    unfold RefreshBeaconFlag. by destruct (nonempty _). }
  destruct Hr as (R1 & R2 & R3). revert R1 R2 R3. generalize (RefreshBeaconFlag (EnsureNormalized s1)). intros t R1 R2 R3.
  destruct (IsBeacon t) eqn:Hb; simpl; repeat (split; [done|]); auto. split; [by rewrite Hb|]. auto.
Qed.

(** A suggestion the gate of the correction accepted. *)
Definition justified (cfg : pipelineConfig) (p : pipeline) (s : Spot) (now : Z) (call : string) : Prop :=
  exists idx sg st idx' ad,
    decides cfg p s = Some idx /\ decision_of cfg p idx s now = (sg, st, idx', ad) /\ ok sg = true /\
    call = normalize_call (correctedCall sg) /\ shouldRejectCTYCall al call = false /\
    (pl_cty p <> None -> exists i, (effectivePrefixInfo al p call).1 = Some i).

Definition early_glyphs : list string := ["V"; "P"; "?"; "C"; "B"].

Lemma formatConfidence_glyph a b : formatConfidence a b ∈ early_glyphs.
Proof. unfold formatConfidence, early_glyphs. repeat case_match; set_solver. Qed.

Lemma effective_fields p q call :
  pl_cty p = pl_cty q -> pl_meta p = pl_meta q -> (effectivePrefixInfo al p call).1 = (effectivePrefixInfo al q call).1.
Proof.
  intros H1 H2. unfold effectivePrefixInfo. rewrite H1, H2. destruct (pl_cty q) as [db|]; [|done].
  case_bool_decide; [done|]. destruct (shouldRejectCTYCall al call); [done|]. by destruct (lookup_info _ _ _ _) as [[[? ?] ?] ?].
Qed.

Lemma apply_suggestion_spec cfg p s corrected :
  let '(suppress, s', p') := apply_suggestion al cfg p s corrected in
  let call := normalize_call corrected in
  suppress = true \/
  s' = set_Confidence "B" s \/
  (s' = set_Confidence "C" (set_DXCallNorm call (set_DXCall call s)) /\ shouldRejectCTYCall al call = false /\
   (pl_cty p <> None -> exists i, (effectivePrefixInfo al p call).1 = Some i)).
Proof.
  unfold apply_suggestion. cbv zeta. destruct (EqualFold _ "suppress").
  - destruct (shouldRejectCTYCall al _) eqn:Hr; [by left|]. destruct (pl_cty p) eqn:Hc.
    + destruct (effectivePrefixInfo al p _) as [[i|] p1]; [|by left]. right; right. split; [done|]. split; [done|]. intros _. by exists i.
    + right; right. done.
  - destruct (shouldRejectCTYCall al _) eqn:Hr; [by right; left|]. destruct (pl_cty p) eqn:Hc.
    + destruct (effectivePrefixInfo al p _) as [[i|] p1]; [|by right; left]. right; right. split; [done|]. split; [done|]. intros _. by exists i.
    + right; right. done.
Qed.

Lemma beacon_flag_keeps s :
  kept (RefreshBeaconFlag s) = kept s /\ DXCall (RefreshBeaconFlag s) = DXCall s /\ Mode (RefreshBeaconFlag s) = Mode s /\
  DXCallNorm (RefreshBeaconFlag s) = DXCallNorm s /\ Confidence (RefreshBeaconFlag s) = Confidence s.
Proof. unfold RefreshBeaconFlag. by destruct (nonempty _). Qed.

Lemma correct_keeps cfg p s now s' indexed p' :
  settled s -> correct_of cfg p s now = (Some s', indexed, p') ->
  kept s' = kept s /\ Mode s' = Mode s /\ settled s' /\
  (DXCall s' = DXCall s \/ Confidence s' = "C" /\ justified cfg p s now (DXCall s')) /\
  (has_telnet cfg = true -> IsBeacon s = false -> decides cfg p s <> None -> Confidence s' ∈ early_glyphs).
Proof.
  intros Hs. unfold correct. destruct (has_telnet cfg && negb (IsBeacon s)) eqn:Hrun.
  2: { intros [= <- <- <-]. repeat (split; [done|]). split; [by left|]. intros Ht Hb. by rewrite Ht, Hb in Hrun. }
  set (m := maybeApplyCallCorrectionWithLogger _ _ _ _ _ _ _ _ _ _ _ _ _ _ _).
  assert (Hm : m.1.1 = true \/ kept m.1.2 = kept s /\ Mode m.1.2 = Mode s /\ settled m.1.2 /\
    (DXCall m.1.2 = DXCall s \/ Confidence m.1.2 = "C" /\ justified cfg p s now (DXCall m.1.2)) /\
    (decides cfg p s <> None -> Confidence m.1.2 ∈ early_glyphs)).
  { unfold m, maybeApplyCallCorrectionWithLogger. destruct (IsCallCorrectionCandidate (Mode s)) eqn:Hc; cbn [negb].
    2: { right. repeat (split; [done|]). split; [by left|]. unfold decides. by rewrite Hc. }
    destruct (decides cfg p s) as [idx|] eqn:Hd.
    2: { right. case_bool_decide; repeat (split; [done|]); (split; [by left|done]). }
    destruct (decision_of cfg p idx s now) as [[[sg st] idx'] ad] eqn:Hdec. cbv zeta.
    set (s1 := set_Confidence _ s). destruct (ok sg) eqn:Hok.
    2: { right. repeat (split; [done|]). split; [by left|]. intros _. apply formatConfidence_glyph. }
    pose proof (apply_suggestion_spec cfg (upd_correction (Some idx') st ad p) s1 (correctedCall sg)) as Ha.
    destruct (apply_suggestion al cfg _ s1 _) as [[suppress s2] p2]. cbn [fst snd].
    destruct Ha as [->|[->|(-> & Hr & He)]]; [by left|right|right].
    - repeat (split; [done|]). split; [by left|]. intros _. unfold early_glyphs. set_solver.
    - split; [done|]. split; [done|]. split.
      { unfold settled. simpl. unfold fill, nonempty. by destruct (bool_decide _). }
      split; [right|intros _; unfold early_glyphs; set_solver]. split; [done|].
      exists idx, sg, st, idx', ad. repeat (split; [done|]). intros Hcty. destruct (He Hcty) as [i Hi]. exists i.
      rewrite <- Hi. by apply effective_fields. }
  clearbody m. destruct m as [[suppress s1] p1]. cbn [fst snd] in Hm.
  destruct suppress; intros [= <- <- <-]. destruct Hm as [?|(H1 & H2 & H3 & H4 & H5)]; [done|].
  destruct (beacon_flag_keeps s1) as (B1 & B2 & B3 & B4 & B5). unfold settled. rewrite B1, B2, B3, B4, B5. auto 10.
Qed.

(** The path of a spot that reaches a sink, as [t]. *)
Definition passage (cfg : pipelineConfig) (p : pipeline) (s : Spot) (fcc : option (nat -> query_result)) (now : Z) (t : Spot) : Prop :=
  exists p1 s1 s2 indexed p2 s3 p3,
    prepare_of p s now = (p1, s1) /\ correct_of cfg p1 s1 now = (Some s2, indexed, p2) /\
    refine cfg (ModeNorm s1) indexed p2 s2 now = (Some s3, p3) /\
    (applyLicenseGate al p3 (EnsureNormalized s3) fcc now).1.1.1 = false /\ same_spot t (EnsureNormalized s3).

Lemma process_sinks cfg p s fcc now k :
  k ∈ (process cfg p s fcc now).2 ->
  (exists src call mode f, k = ToUnlicensed src "DX" call mode f /\ (process cfg p s fcc now).2 = [k]) \/
  exists t, passage cfg p s fcc now t /\ sink_ok cfg (negb (isStale t (spotPolicy cfg) now)) t k.
Proof.
  unfold processOutputSpot. destruct (prepare_of p s now) as [p1 s1] eqn:E1. cbv zeta.
  destruct (negb (IsBeacon s1) && _ && _); [by intros ?%elem_of_nil|].
  destruct (correct_of cfg p1 s1 now) as [[[s2|] indexed] p2] eqn:E2; [|by intros ?%elem_of_nil].
  destruct (refine cfg (ModeNorm s1) indexed p2 s2 now) as [[s3|] p3] eqn:E3; [|by intros ?%elem_of_nil].
  pose proof (gate_same p3 (EnsureNormalized s3) fcc now (EnsureNormalized_settled s3)) as Hg.
  destruct (applyLicenseGate al p3 (EnsureNormalized s3) fcc now) as [[[drop s4] p4] report] eqn:E4.
  destruct Hg as [Hsame Hrep]. destruct drop.
  - destruct Hrep as (src & call & mode & f & ->). cbn [snd]. intros ->%list_elem_of_singleton. left. by do 4 eexists.
  - subst report. pose proof (EnsureNormalized_settled s4) as Hs4.
    assert (H4 : same_spot (EnsureNormalized s4) (EnsureNormalized s3)).
    { rewrite EnsureNormalized_same; [done|]. eapply settled_same; [done|]. apply EnsureNormalized_settled. }
    pose proof (deliver_ok al xxh3 encodeCell encodeCoarseCell cfg (ModeNorm s1) p4 (EnsureNormalized s4) now k Hs4) as Hd.
    revert Hs4 H4 Hd. generalize (EnsureNormalized s4). intros t Ht H4 Hd.
    destruct (deliver _ _ _ _ _ _ _ t now) as [p5 out]. cbn [snd app] in *. intros Hin. right. exists t. split; [|by apply Hd].
    exists p1, s1, s2, indexed, p2, s3, p3. rewrite E4. done.
Qed.

(** What is known of [t]. *)
Lemma passage_keeps cfg p s fcc now t :
  passage cfg p s fcc now t ->
  exists p1 s1, prepare_of p s now = (p1, s1) /\ kept t = kept s /\ Mode t = Mode s1 /\
    (DXCall t = DXCall s \/ Confidence t = "C" /\ justified cfg p1 s1 now (DXCall t)) /\
    (has_telnet cfg = true -> decides cfg p1 s1 <> None -> Confidence t ∈ "S" :: early_glyphs).
Proof.
  intros (p1 & s1 & s2 & indexed & p2 & s3 & p3 & E1 & E2 & E3 & _ & Hsame). exists p1, s1. split; [done|].
  pose proof (prepare_keeps p s now) as H1. rewrite E1 in H1. destruct H1 as (K1 & D1 & S1 & B1 & _).
  pose proof (correct_keeps cfg p1 s1 now s2 indexed p2 S1 E2) as (K2 & M2 & S2 & D2 & C2).
  pose proof (refine_keeps cfg (ModeNorm s1) indexed p2 s2 now s3 p3 S2 E3) as (K3 & D3 & N3 & B3 & M3 & C3).
  assert (S3 : settled s3). { unfold settled. rewrite D3, N3. exact S2. }
  pose proof (EnsureNormalized_same s3 S3) as H3. assert (Ht : same_spot t s3) by (by etransitivity).
  destruct Ht as [K4 [= E4 E5 E6 E7 E8]]. rewrite K4, E4, E7, E8, D3. split; [congruence|]. split; [congruence|]. split.
  - destruct D2 as [D2|[D2 J2]]; [left; congruence|right]. split; [|done].
    destruct C3 as [->|[[Hc|Hc] _]]; [done|rewrite D2 in Hc; done..].
  - intros Ht Hd. destruct C3 as [->|[_ [-> | ->]]]; [|unfold early_glyphs; set_solver..].
    destruct (IsBeacon s1) eqn:Hb; [|set_solver].
    unfold correct in E2. rewrite Hb, andb_false_r in E2. injection E2 as <- <- <-. rewrite B1 by done. unfold early_glyphs. set_solver.
Qed.
End Flow.

(** ** Lookups along the way *)

Lemma refine_lookups cfg m b p s now :
  pl_cty (refine cfg m b p s now).2 = pl_cty p /\ pl_meta (refine cfg m b p s now).2 = pl_meta p /\
  pl_license (refine cfg m b p s now).2 = pl_license p.
Proof.
  unfold refine. destruct (IsBeacon s); [done|]. set (h := match pl_harmonics p with Some _ => _ | None => _ end).
  assert (Hh : pl_cty h.2 = pl_cty p /\ pl_meta h.2 = pl_meta p /\ pl_license h.2 = pl_license p).
  { unfold h. destruct (pl_harmonics p); [|done]. destruct (harmonicEnabled cfg); [|done].
    destruct (ShouldDrop _ _ _) as [[[[[d f] c] e] s1] hd']. done. }
  clearbody h. destruct h as [[dropped s1] p1]. cbn [snd] in Hh. destruct dropped; [done|].
  assert (Ha : let p2 := (average_frequency cfg b p1 s1 now).2 in pl_cty p2 = pl_cty p1 /\ pl_meta p2 = pl_meta p1 /\ pl_license p2 = pl_license p1).
  { unfold average_frequency. destruct (pl_averager p1); [|done]. destruct (negb _); [done|].
    by destruct (Averager.Average _ _ _ _ _ _) as [[[avg corr] n] fa]. }
  destruct (average_frequency cfg b p1 s1 now) as [s2 p2]. cbn [snd] in Ha.
  assert (Hf : let p3 := (confidence_floor m p2 s2).2 in pl_cty p3 = pl_cty p2 /\ pl_meta p3 = pl_meta p2 /\ pl_license p3 = pl_license p2).
  { unfold confidence_floor, applyKnownCallFloor. cbv zeta. set (s3 := if _ && _ then _ else s2). clearbody s3.
    destruct (IsBeacon s3); [done|]. destruct (negb (modeSupportsConfidenceGlyph _)); [done|]. destruct (negb _); [done|].
    destruct (pl_known p2); [|done]. case_bool_decide; [done|]. by destruct (kc_Contains _ _). }
  destruct (confidence_floor m p2 s2) as [s3 p3]. cbn [snd] in *. intuition congruence.
Qed.
Section License.
Context (al : option Allowlist) (db0 : CTYDatabase).

Definition pl_ok (recs : list gridRecord) (p : pipeline) : Prop :=
  exists db, pl_cty p = Some db /\ meta_inv al db0 recs (pl_meta p) db.

Lemma effective_spec recs p call :
  pl_ok recs p ->
  let '(info, p') := effectivePrefixInfo al p call in
  pl_ok recs p' /\ pl_license p' = pl_license p /\
  (call <> "" -> shouldRejectCTYCall al call = false -> explained_answer al db0 recs call info).
Proof.
  intros (db & Hdb & Hm). unfold effectivePrefixInfo. rewrite Hdb. case_bool_decide; [by split; [exists db|]|].
  destruct (shouldRejectCTYCall al call) eqn:Hr; [by split; [exists db|]|].
  pose proof (lookup_info_spec al db0 recs (pl_meta p) db call Hm Hr) as H'.
  destruct (lookup_info al (pl_meta p) db call) as [[[info cached] m] db']. destruct H' as [Ha Hi].
  split; [by exists db'|]. done.
Qed.

Lemma pl_ok_fields recs p q : pl_cty q = pl_cty p -> pl_meta q = pl_meta p -> pl_ok recs p -> pl_ok recs q.
Proof. intros H1 H2 (db & ? & ?). exists db. by rewrite H1, H2. Qed.

Lemma gate_licensed p s fcc now i :
  pl_ok [] p -> IsBeacon s = false -> (applyLicenseGate al p s fcc now).1.1.1 = false ->
  let key := license_form (dx_call s) in
  key <> "" -> cty_answer al db0 key = Some i -> p_ADIF i = 291 -> AllowlistMatch al 291 key = false ->
  (IsLicensedUS (pl_license p) key fcc now).1 = true.
Proof.
  intros Hp Hb. unfold applyLicenseGate. rewrite Hb. destruct (pl_cty p) as [db|] eqn:Hdb; [|by destruct Hp as (? & ? & _); congruence].
  cbv zeta. set (sp := if _ || _ || _ then _ else _).
  assert (Hsp : pl_ok [] sp.2 /\ pl_license sp.2 = pl_license p).
  { unfold sp. destruct (_ || _ || _); [|done].
    pose proof (effective_spec [] p (normalizeCallForMetadata (dx_call s)) Hp) as H1.
    destruct (effectivePrefixInfo al p _) as [dx p1]. destruct H1 as (H1 & H2 & _).
    pose proof (effective_spec [] p1 (normalizeCallForMetadata (de_call s)) H1) as H3.
    destruct (effectivePrefixInfo al p1 _) as [de p2]. destruct H3 as (H3 & H4 & _). simpl. split; [done|congruence]. }
  clearbody sp. destruct sp as [s1 p1]. simpl in Hsp. destruct Hsp as [Hp1 Hl1].
  intros Hgate Hne Hi H291 Hal. rewrite bool_decide_eq_false_2 in Hgate by done.
  pose proof (effective_spec [] p1 (license_form (dx_call s)) Hp1) as H1.
  destruct (effectivePrefixInfo al p1 _) as [info p2]. destruct H1 as (_ & Hl2 & Hans).
  assert (Hrej : shouldRejectCTYCall al (license_form (dx_call s)) = false).
  { revert Hi. unfold cty_answer. by destruct (shouldRejectCTYCall _ _). }
  destruct (Hans Hne Hrej) as [->|(r & ?%elem_of_nil & _)]; [|done].
  rewrite Hi, (proj2 (Z.eqb_eq _ _) H291), H291, Hal, Hl2, Hl1 in Hgate.
  by destruct (IsLicensedUS _ _ fcc now) as [[] l].
Qed.

Context (lev : string -> string -> Z) (morse baudot : weights) (mkeys bkeys : list ascii) (borrow : nat -> list Z).
Context (order_calls : gmap string callAggregate -> list string) (order_set : gset string -> list string).
Context (order_reporters : gmap string Z -> list (string * Z)) (by_age : gmap callFreqKey qualityEntry -> list callFreqKey).

Lemma apply_suggestion_lookups cfg recs p s call :
  pl_ok recs p -> let '(_, _, p') := apply_suggestion al cfg p s call in pl_ok recs p' /\ pl_license p' = pl_license p.
Proof.
  intros Hp. unfold apply_suggestion. cbv zeta.
  pose proof (effective_spec recs p (normalize_call call) Hp) as H1. destruct (effectivePrefixInfo al p _) as [info p1].
  destruct H1 as (H1 & H2 & _). destruct (shouldRejectCTYCall _ _); [by destruct (EqualFold _ _)|].
  destruct (pl_cty p); [|done]. destruct info; [done|]. by destruct (EqualFold _ _).
Qed.

Lemma correct_lookups cfg recs p s now :
  pl_ok recs p ->
  let '(_, _, p') := correct al lev morse baudot mkeys bkeys borrow order_calls order_set order_reporters by_age cfg p s now in
  pl_ok recs p' /\ pl_license p' = pl_license p.
Proof.
  intros Hp. unfold correct. destruct (_ && _); [|done].
  assert (Hm : let '(_, _, p') := maybeApplyCallCorrectionWithLogger al lev morse baudot mkeys bkeys borrow order_calls order_set
    order_reporters by_age cfg p s now in pl_ok recs p' /\ pl_license p' = pl_license p).
  { unfold maybeApplyCallCorrectionWithLogger. destruct (negb _); [done|]. destruct (decides cfg p s) as [idx|]; [|done].
    destruct (decision _ _ _ _ _ _ _ _ _ _ _ _ _ _ _) as [[[sg st] idx'] ad]. cbv zeta.
    set (p1 := upd_correction _ _ _ p). assert (H1 : pl_ok recs p1) by (by apply (pl_ok_fields recs p p1)).
    set (s1 := set_Confidence _ s). destruct (ok sg).
    - pose proof (apply_suggestion_lookups cfg recs p1 s1 (correctedCall sg) H1) as H2.
      destruct (apply_suggestion al cfg p1 s1 _) as [[b s2] p2]. destruct H2 as [H2 H3]. split; [|done].
      by apply (pl_ok_fields recs p2 (upd_correction _ _ _ p2)).
    - split; [|done]. by apply (pl_ok_fields recs p1 (upd_correction _ _ _ p1)). }
  destruct (maybeApplyCallCorrectionWithLogger _ _ _ _ _ _ _ _ _ _ _ _ _ _ _) as [[suppress s'] p']. done.
Qed.

End License.

(** ** What the pipeline guarantees *)

(** The spot a sink hands on. *)
Definition delivered (k : sink) : option Spot :=
  match k with
  | ToRing x | ToArchive x | ToClients x _ _ _ | ToSelf x | ToAggregator x | ToPeers x => Some x
  | _ => None
  end.

Lemma delivered_same cfg fresh t k x : sink_ok cfg fresh t k -> delivered k = Some x -> same_spot x t.
Proof. destruct k; simpl; intros Hk [= <-]; apply Hk. Qed.

(** The sink of a spot [s]: reporter, time, source and report are those of [s]. *)
Definition guarded (cfg : pipelineConfig) (s : Spot) (now : Z) (out : list sink) (k : sink) : Prop :=
  (forall x, delivered k = Some x -> kept x = kept s) /\
  match k with
  | ToRing _ => IsTestSpotter s = false
  | ToArchive _ => IsTestSpotter s = false /\ isStale s (spotPolicy cfg) now = false
  | ToClients _ _ _ _ | ToSelf _ | ToAggregator _ => has_telnet cfg = true /\ isStale s (spotPolicy cfg) now = false
  | ToPeers _ => IsTestSpotter s = false /\ isStale s (spotPolicy cfg) now = false /\
                 SourceType s <> SourceUpstream /\ SourceType s <> SourcePeer /\ (peerRxOnly cfg = true -> SourceType s = SourceManual)
  | ToGrid _ g => g <> "" /\ isStale s (spotPolicy cfg) now = false
  | ToPath _ _ _ _ _ _ _ _ => isStale s (spotPolicy cfg) now = false
  | ToStats _ _ => True
  | ToUnlicensed _ role _ _ _ => role = "DX" /\ out = [k]
  end.

Section Theorems.
Context (al : option Allowlist) (xxh3 : list Z -> Z) (modeAlloc : list modeAllocation).
Context (encodeCell encodeCoarseCell : string -> Z).
Context (lev : string -> string -> Z) (morse baudot : weights) (mkeys bkeys : list ascii) (borrow : nat -> list Z).
Context (order_calls : gmap string callAggregate -> list string) (order_set : gset string -> list string).
Context (order_reporters : gmap string Z -> list (string * Z)) (by_age : gmap callFreqKey qualityEntry -> list callFreqKey).
Context (order_modes : gmap string digitalModeEvidence -> list (string * digitalModeEvidence)).
Context (order_spotters : gmap string Z -> list (string * Z)).

Notation process := (processOutputSpot al xxh3 modeAlloc encodeCell encodeCoarseCell lev morse baudot mkeys bkeys borrow
  order_calls order_set order_reporters by_age order_modes order_spotters).
Notation passage_of := (passage al modeAlloc lev morse baudot mkeys bkeys borrow
  order_calls order_set order_reporters by_age order_modes order_spotters).
Notation justified_by := (justified al lev morse baudot mkeys bkeys borrow order_calls order_set order_reporters by_age).

(** C4: Whatever the configuration and the states of the components, the pipeline keeps who
    reported what, when and from where; a test spotter's spots never reach the ring
    buffer, the archive or a peer; peers get no spot that came from a peer or from
    upstream, and only manual ones on a receive-only link; past its maximal age a spot
    reaches no client, archive, peer, grid store or path model; and a spot dropped for
    its license leaves nothing but the report. *)
Theorem pipeline_sinks_guarded cfg p s fcc now :
  Forall (guarded cfg s now (process cfg p s fcc now).2) (process cfg p s fcc now).2.
Proof.
  apply list.Forall_forall. intros k Hk. apply process_sinks in Hk as [(src & call & mode & f & -> & Hout)|(t & Hp & Hok)].
  { split; [done|]. simpl. by rewrite Hout. }
  apply passage_keeps in Hp as (p1 & s1 & _ & Hkept & _). pose proof Hkept as Hk'. unfold kept in Hk'.
  injection Hk' as _ Ht Hst _ Htest _ _ _.
  assert (Hstale : isStale t (spotPolicy cfg) now = isStale s (spotPolicy cfg) now) by (unfold isStale, older_than; by rewrite Ht).
  split.
  - intros x Hx. destruct (delivered_same _ _ _ _ _ Hok Hx) as [-> _]. done.
  - destruct k; simpl in *; rewrite ?Hstale, ?Htest, ?Hst, ?negb_true_iff in Hok; intuition.
Qed.

(** C9: The DX call of a spot that is handed on is the reported one, or the normalised call
    that the majority or a known good call suggested for it; such a call has a plausible
    shape, the CTY database knows it (when there is one), and the spot is marked C. *)
Theorem pipeline_calls_justified cfg p s fcc now :
  Forall (fun k => forall x, delivered k = Some x ->
      DXCall x = DXCall s \/
      Confidence x = "C" /\ exists p1 s1, prepare modeAlloc order_modes order_spotters p s now = (p1, s1) /\ justified_by cfg p1 s1 now (DXCall x))
    (process cfg p s fcc now).2.
Proof.
  apply list.Forall_forall. intros k Hk x Hx. apply process_sinks in Hk as [(src & call & mode & f & -> & _)|(t & Hp & Hok)]; [done|].
  destruct (delivered_same _ _ _ _ _ Hok Hx) as [_ [= E1 _ _ E4 _]].
  apply passage_keeps in Hp as (p1 & s1 & Hprep & _ & _ & [Hd|[Hc Hj]] & _); [left; congruence|right].
  split; [congruence|]. exists p1, s1. by rewrite E1.
Qed.

(** C40: With correction on, every spot in a mode that carries a glyph is handed on with one
    of the six glyphs. *)
Theorem pipeline_confidence_glyph cfg p s fcc now :
  has_telnet cfg = true -> cc_Enabled (correctionCfg cfg) = true -> pl_index p <> None ->
  Forall (fun k => forall x, delivered k = Some x -> IsCallCorrectionCandidate (Mode x) = true ->
      Confidence x ∈ ["S"; "V"; "P"; "?"; "C"; "B"]) (process cfg p s fcc now).2.
Proof.
  intros Ht He Hi. apply list.Forall_forall. intros k Hk x Hx Hmode.
  apply process_sinks in Hk as [(src & call & mode & f & -> & _)|(t & Hp & Hok)]; [done|].
  destruct (delivered_same _ _ _ _ _ Hok Hx) as [_ [= _ _ _ E4 E5]].
  apply passage_keeps in Hp as (p1 & s1 & Hprep & _ & Hm & _ & Hg). rewrite E4. apply Hg; [done|].
  pose proof (prepare_keeps modeAlloc order_modes order_spotters p s now) as Hkeep. rewrite Hprep in Hkeep.
  destruct Hkeep as (_ & _ & _ & _ & _ & _ & _ & Hidx). unfold decides. rewrite <- Hm, <- E5, Hmode, He, Hidx. done.
Qed.

(** A spot that is handed on and is no beacon does not carry an unlicensed US call: when
    the CTY database says that the licensed form of its DX call - after any correction -
    is of the US and the allow list does not name it, the license check has answered
    yes for exactly that call. *)
Theorem pipeline_stops_unlicensed db cfg p s fcc now :
  pl_ok al db [] p ->
  Forall (fun k => forall x i, delivered k = Some x -> IsBeacon x = false ->
      let key := license_form (dx_call x) in
      key <> "" -> cty_answer al db key = Some i -> p_ADIF i = 291 -> AllowlistMatch al 291 key = false ->
      (IsLicensedUS (pl_license p) key fcc now).1 = true) (process cfg p s fcc now).2.
Proof.
  intros Hok0. apply list.Forall_forall. intros k Hk x i Hx Hb.
  apply process_sinks in Hk as [(src & call & mode & f & -> & _)|(t & Hp & Hok)]; [done|].
  destruct Hp as (p1 & s1 & s2 & indexed & p2 & s3 & p3 & E1 & E2 & E3 & Hgate & Hsame).
  assert (Hxt : same_spot x (EnsureNormalized s3)) by (etransitivity; [by eapply delivered_same|done]).
  cbv zeta. rewrite (dx_call_same _ _ Hxt). destruct Hxt as [_ [= _ _ E6 _ _]]. rewrite E6 in Hb.
  pose proof (prepare_keeps modeAlloc order_modes order_spotters p s now) as H1. rewrite E1 in H1.
  destruct H1 as (_ & _ & _ & _ & C1 & M1 & L1 & _).
  pose proof (correct_lookups al db lev morse baudot mkeys bkeys borrow order_calls order_set order_reporters by_age cfg [] p1 s1 now
    (pl_ok_fields al db [] p p1 C1 M1 Hok0)) as H2. rewrite E2 in H2. destruct H2 as [H2 L2].
  pose proof (refine_lookups cfg (ModeNorm s1) indexed p2 s2 now) as H3. rewrite E3 in H3. destruct H3 as (C3 & M3 & L3). cbn [snd] in *.
  intros Hne Hi H291 Hal. rewrite <- L1, <- L2, <- L3.
  by apply (gate_licensed al db p3 (EnsureNormalized s3) fcc now i (pl_ok_fields al db [] p2 p3 C3 M3 H2) Hb Hgate).
Qed.

(** The settings of the recency per mode and of the frequency guard. *)
Definition set_unread (cw rtty : Z) (sep ratio : Q) (c : CallCorrectionConfig) : CallCorrectionConfig :=
  mkCallCfg (cc_Enabled c) (cc_BandStateOverrides c) (cc_MinConsensusReports c) (cc_MinAdvantage c) (cc_MinConfidencePercent c)
    (cc_RecencySeconds c) cw rtty (cc_MaxEditDistance c) (cc_FrequencyToleranceHz c) (cc_VoiceFrequencyToleranceHz c)
    (cc_QualityBinHz c) (cc_QualityGoodThreshold c) (cc_QualityNewCallIncrement c) (cc_QualityBustedDecrement c) (cc_Strategy c)
    (cc_MinSNRCW c) (cc_MinSNRRTTY c) (cc_MinSNRVoice c) (cc_DistanceModelCW c) (cc_DistanceModelRTTY c) (cc_InvalidAction c)
    (cc_Distance3ExtraReports c) (cc_Distance3ExtraAdvantage c) (cc_Distance3ExtraConfidence c) (cc_MinSpotterReliability c)
    (cc_CooldownMinReporters c) sep ratio (cc_VoiceCandidateWindowKHz c).

Definition with_correction (c : CallCorrectionConfig) (cfg : pipelineConfig) : pipelineConfig :=
  mkPipeCfg c (harmonicEnabled cfg) (spotPolicy cfg) (peerRxOnly cfg) (broadcastKeepSSID cfg) (has_telnet cfg) (has_buf cfg)
    (has_archive cfg) (has_peers cfg) (has_gridUpdate cfg) (gridLookupSync cfg) (gridLookup cfg) (pathPredictor cfg)
    (allowedBands cfg) (spotterReliability cfg).

(** No value of [recency_seconds_cw], [recency_seconds_rtty], [freq_guard_min_separation_khz]
    or [freq_guard_runnerup_ratio] changes what happens to any spot: the recency is that
    of all modes and the guard always runs with its defaults. *)
Theorem unread_settings cw rtty sep ratio cfg p s fcc now :
  process (with_correction (set_unread cw rtty sep ratio (correctionCfg cfg)) cfg) p s fcc now = process cfg p s fcc now.
Proof.
  set (cfg' := with_correction _ cfg).
  assert (Hc : forall q x, correct al lev morse baudot mkeys bkeys borrow order_calls order_set order_reporters by_age cfg' q x now =
                           correct al lev morse baudot mkeys bkeys borrow order_calls order_set order_reporters by_age cfg q x now).
  { intros q x. unfold correct, maybeApplyCallCorrectionWithLogger, decides, decision, adapt, tuning, correction_settings,
      callCorrectionWindow, apply_suggestion, cfg', with_correction, set_unread. reflexivity. }
  assert (Hr : forall m b q x, refine cfg' m b q x now = refine cfg m b q x now).
  { intros. unfold refine, average_frequency, cfg', with_correction. reflexivity. }
  assert (Hd : forall m q x, deliver al xxh3 encodeCell encodeCoarseCell cfg' m q x now = deliver al xxh3 encodeCell encodeCoarseCell cfg m q x now).
  { intros. unfold deliver, fan_out, to_clients, grid_updates, path_stage, backfill_grids, lookupGridUnified, cfg', with_correction. reflexivity. }
  unfold processOutputSpot. destruct (prepare _ _ _ p s now) as [p1 s1]. cbv zeta. change (spotPolicy cfg') with (spotPolicy cfg).
  rewrite Hc. destruct (negb (IsBeacon s1) && _ && _); [done|]. destruct (correct _ _ _ _ _ _ _ _ _ _ _ cfg p1 s1 now) as [[[s2|] b] p2]; [|done].
  rewrite Hr. destruct (refine cfg _ b p2 s2 now) as [[s3|] p3]; [|done].
  destruct (applyLicenseGate _ _ _ _ _) as [[[drop s4] p4] report]. by rewrite Hd.
Qed.

(** A beacon past the maximal age is counted and put into the ring buffer, and only then
    stopped by the guard that keeps stale spots from every sink. *)
Theorem stale_beacon_in_ring cfg p s fcc now :
  has_buf cfg = true -> IsTestSpotter s = false -> isStale s (spotPolicy cfg) now = true ->
  IsBeacon (prepare modeAlloc order_modes order_spotters p s now).2 = true ->
  exists mode source x, (process cfg p s fcc now).2 = [ToStats mode source; ToRing x] /\ kept x = kept s.
Proof.
  intros Hbuf Htest Hst Hb. unfold processOutputSpot.
  pose proof (prepare_keeps modeAlloc order_modes order_spotters p s now) as H1.
  destruct (prepare modeAlloc order_modes order_spotters p s now) as [p1 s1]. cbn [snd] in Hb. destruct H1 as (K1 & _ & S1 & _).
  cbv zeta. rewrite Hb. cbn [negb andb]. unfold correct. rewrite Hb, andb_false_r. unfold refine. rewrite Hb.
  assert (Hn : kept (EnsureNormalized s1) = kept s1 /\ IsBeacon (EnsureNormalized s1) = true) by done. destruct Hn as [K2 Hb2].
  unfold applyLicenseGate. rewrite Hb2. clear Hb S1.
  assert (K3 : kept (EnsureNormalized (EnsureNormalized s1)) = kept s) by (rewrite <- K1; reflexivity).
  revert K3. generalize (EnsureNormalized (EnsureNormalized s1)). intros t K3. pose proof (EnsureNormalized_settled t) as St.
  unfold deliver. cbv zeta. set (s2 := if broadcastKeepSSID cfg then t else _).
  assert (K4 : kept s2 = kept s) by (unfold s2; by destruct (broadcastKeepSSID cfg)). clearbody s2.
  set (active := _ || _).
  assert (K5 : kept (refresh_de al active p1 s2).1 = kept s).
  { unfold refresh_de. destruct (_ && _); [|done]. destruct (pl_cty p1); [|done]. by destruct (effectivePrefixInfo al p1 _) as [[i|] q]. }
  destruct (refresh_de al active p1 s2) as [s3 p3]. cbn [fst] in K5.
  assert (Hst3 : isStale s3 (spotPolicy cfg) now = true).
  { rewrite <- Hst. unfold kept in K5. injection K5 as _ Ht _ _ _ _ _ _. unfold isStale, older_than. by rewrite Ht. }
  rewrite Hst3, Hbuf. cbn [andb]. assert (Hring : shouldBufferSpot s2 = true).
  { unfold shouldBufferSpot. unfold kept in K4. injection K4 as _ _ _ _ Htest2 _ _ _. by rewrite Htest2, Htest. }
  rewrite Hring. cbn [snd app]. by exists (if bool_decide (ModeNorm s1 = "") then SourceType t else ModeNorm s1), (sourceStatsLabel t), s2.
Qed.
End Theorems.

(** *** A run: four reporters against one, a stale beacon and an unlicensed call. *)

Definition sample_correction : CallCorrectionConfig :=
  mkCallCfg true [] 2 1 50 60 0 0 2 500 1500 100 10 1 1 "majority" 0 0 0 "plain" "plain" "broadcast" 0 0 0 0 3 0 0 1.

Definition sample_cfg_pipe : pipelineConfig :=
  mkPipeCfg sample_correction false (mkPolicy 600 45 300 2) false false true true true true true None None None ∅ None.

Definition sample_pipe : pipeline :=
  mkPipeline None
    (Some (fold_left (fun ci de => Index.CorrectionIndex_Add ci (sample_spot "K1ABD" de 14025 demo_now) demo_now (60 * second))
             ["W1A"; "W2A"; "W3A"; "W4A"] Index.NewCorrectionIndex))
    demo_stores None (Some (newCallMetaCache 16 hour)) (Some sample_db)
    (mkLicense true false false false hour (newLicenseCache hour 4)) None None None None None None None 0.

Definition sample_process (s : Spot) (fcc : option (nat -> query_result)) : list sink :=
  (processOutputSpot None (fun _ => 0) [] (fun _ => 0) (fun _ => 0) (fun _ _ => 1) defaultWeights defaultWeights [] [] (fun _ => [])
     (fun m => elements (dom m)) elements map_to_list some_order map_to_list map_to_list sample_cfg_pipe sample_pipe s fcc demo_now).2.

Definition sink_view (k : sink) : string :=
  match k with
  | ToRing x => "ring " +:+ DXCall x +:+ " " +:+ Confidence x
  | ToArchive x => "archive " +:+ DXCall x
  | ToClients x _ _ _ => "clients " +:+ DXCall x
  | ToSelf x => "self " +:+ DXCall x
  | ToAggregator x => "aggregator " +:+ DXCall x
  | ToPeers x => "peers " +:+ DXCall x
  | ToGrid call g => "grid " +:+ call +:+ " " +:+ g
  | ToPath _ _ _ _ band _ _ _ => "path " +:+ band
  | ToStats m l => "stats " +:+ m +:+ " " +:+ l
  | ToUnlicensed _ role call _ _ => "unlicensed " +:+ role +:+ " " +:+ call
  end.

Lemma pipeline_confidence_glyph_witness :
  map sink_view (sample_process demo_subject (Some (fun _ => QRow))) =
    ["stats CW HUMAN"; "ring K1ABD C"; "archive K1ABD"; "clients K1ABD"; "peers K1ABD"] /\
  Forall (fun k => forall x, delivered k = Some x -> IsCallCorrectionCandidate (Mode x) = true ->
    Confidence x ∈ ["S"; "V"; "P"; "?"; "C"; "B"]) (sample_process demo_subject (Some (fun _ => QRow))).
Proof.
  split; [vm_compute; reflexivity|].
  refine (pipeline_confidence_glyph None (fun _ => 0) [] (fun _ => 0) (fun _ => 0) (fun _ _ => 1) defaultWeights defaultWeights [] []
    (fun _ => []) (fun m => elements (dom m)) elements map_to_list some_order map_to_list map_to_list sample_cfg_pipe sample_pipe
    demo_subject (Some (fun _ => QRow)) demo_now eq_refl eq_refl _). discriminate.
Defined.

Lemma pipeline_stops_unlicensed_witness :
  map sink_view (sample_process demo_subject (Some (fun _ => QNoRow))) = ["unlicensed DX K1ABD"] /\
  Forall (fun k => forall x i, delivered k = Some x -> IsBeacon x = false ->
    license_form (dx_call x) <> "" -> cty_answer None sample_db (license_form (dx_call x)) = Some i -> p_ADIF i = 291 ->
    AllowlistMatch None 291 (license_form (dx_call x)) = false ->
    (IsLicensedUS (pl_license sample_pipe) (license_form (dx_call x)) (Some (fun _ => QRow)) demo_now).1 = true)
    (sample_process demo_subject (Some (fun _ => QRow))).
Proof.
  split; [vm_compute; reflexivity|].
  refine (pipeline_stops_unlicensed None (fun _ => 0) [] (fun _ => 0) (fun _ => 0) (fun _ _ => 1) defaultWeights defaultWeights [] []
    (fun _ => []) (fun m => elements (dom m)) elements map_to_list some_order map_to_list map_to_list sample_db sample_cfg_pipe sample_pipe
    demo_subject (Some (fun _ => QRow)) demo_now _).
  exists sample_db. split; [reflexivity|]. split; [split; reflexivity|].
  destruct (meta_new_ok (explained None sample_db []) 16 hour) as [n Hn]. exists n. exact Hn.
Defined.

Definition old_beacon : Spot := NewSpot "W1AW/B" "W0AAA" 28200 "CW" (demo_now - hour).

Lemma stale_beacon_in_ring_witness :
  exists mode source x, sample_process old_beacon None = [ToStats mode source; ToRing x] /\ kept x = kept old_beacon.
Proof.
  refine (stale_beacon_in_ring None (fun _ => 0) [] (fun _ => 0) (fun _ => 0) (fun _ _ => 1) defaultWeights defaultWeights [] []
    (fun _ => []) (fun m => elements (dom m)) elements map_to_list some_order map_to_list map_to_list sample_cfg_pipe sample_pipe
    old_beacon None demo_now eq_refl eq_refl _ _); vm_compute; reflexivity.
Defined.
