(* ===== verification/Reputation.v ===== *)
(** * Reputation: the gate in front of manually posted spots

    [reputation/gate.go], [prefix.go], [store.go], [cache.go] and [util.go]: a spot that a
    telnet user posts is accepted when the network prefix of the user has tokens left,
    the call is out of its probation, and the caps per window - in total and per band,
    growing with time - are not used up.  A login looks up where the address and the call
    are from and restarts the ramp.

    Shards and their locks make every operation on one call or prefix atomic, so the
    shards of a table are one map here; only the limits on their sizes look at the shard
    of a key.  Parsing addresses
    ([net/netip]) and the lookups of an address in the ipinfo and Cymru sources are
    arguments; the records on disk are a map.

    The token bucket never lets more through than its rate ([prefix_rate_bounded]), and
    the caps hold in every reachable state ([gate_caps_hold]).  The mismatch test compares
    names with codes ([mismatch_of_honest_country]), a login gives back what was used up
    ([login_restores_cap]), and two sources are never compared ([sources_never_disagree]). *)

From S2P Require Import Prelude GoText GoNum GoTime Callsign Bands Lru Cty Quality.
From Stdlib Require Import QArith Sorted.

Local Open Scope string_scope.
Local Open Scope list_scope.
Local Open Scope Z_scope.

(** ** Names and codes *)

Definition countryAliasCode : list (string * string) :=
  [("UNITEDSTATES", "US"); ("UNITEDSTATESOFAMERICA", "US"); ("USA", "US"); ("UNITEDKINGDOM", "GB"); ("GREATBRITAIN", "GB");
   ("ENGLAND", "GB"); ("SCOTLAND", "GB"); ("WALES", "GB"); ("NORTHERNIRELAND", "GB"); ("RUSSIA", "RU");
   ("RUSSIANFEDERATION", "RU"); ("SOUTHKOREA", "KR"); ("REPUBLICOFKOREA", "KR"); ("KOREA", "KR"); ("NORTHKOREA", "KP");
   ("DEMOCRATICPEOPLESREPUBLICOFKOREA", "KP"); ("VIETNAM", "VN"); ("IRAN", "IR"); ("SYRIA", "SY"); ("TANZANIA", "TZ");
   ("BOLIVIA", "BO"); ("VENEZUELA", "VE")].

Fixpoint assoc (k : string) (l : list (string * string)) : option string :=
  match l with
  | [] => None
  | (k', v) :: l => if bool_decide (k = k') then Some v else assoc k l
  end.

(** Two letters, or nothing. *)
Definition two_letters (s : string) : string := let c := upper_trim s in if len c =? 2 then c else "".

Definition countryKeyFromCode (code : string) : string := two_letters code.
Definition continentKey (continent : string) : string := two_letters continent.

Definition is_alnum (c : ascii) : bool := is_digit c || is_upper c || is_lower c.

Fixpoint keep_alnum (s : string) : string :=
  match s with
  | "" => ""
  | String c s => if is_alnum c then String (upper_byte c) (keep_alnum s) else keep_alnum s
  end.

Definition normalizeCountryName (name : string) : string := keep_alnum (TrimSpace name).

Definition countryKeyFromName (name : string) : string :=
  let name := normalizeCountryName name in
  if bool_decide (name = "") then "" else default name (assoc name countryAliasCode).

(** ** Token buckets per prefix *)

Record prefixState := mkPrefixState { tokens : Z; lastRefill : Z; ps_lastSeen : Z }.

Record prefixLimiter := mkLimiter {
  pl_capacity : Z;
  pl_refillPerSec : Z;
  pl_ttl : Z;
  pl_maxEntries : Z;
  pl_items : gmap string prefixState
}.

Definition newPrefixLimiter (capacity refillPerSec ttl maxEntries : Z) : option prefixLimiter :=
  if (capacity <=? 0) || (refillPerSec <=? 0) then None
  else Some (mkLimiter capacity refillPerSec ttl (positive_else maxEntries 200000) ∅).

Definition with_items (m : gmap string prefixState) (p : prefixLimiter) : prefixLimiter :=
  mkLimiter (pl_capacity p) (pl_refillPerSec p) (pl_ttl p) (pl_maxEntries p) m.

Definition refill (p : prefixLimiter) (st : prefixState) (now : Z) : prefixState :=
  if Before now (lastRefill st) then mkPrefixState (tokens st) now (ps_lastSeen st)
  else
    let elapsed := time_sub now (lastRefill st) in
    if elapsed <? second then st
    else
      let add := Z.quot elapsed second * pl_refillPerSec p in
      if add <=? 0 then st
      else mkPrefixState (Z.min (tokens st + add) (pl_capacity p))
             (lastRefill st + Z.quot add (pl_refillPerSec p) * second) (ps_lastSeen st).

Definition fresh_prefix (p : prefixLimiter) (now : Z) : prefixState := mkPrefixState (pl_capacity p) now now.

(** The state [allow] works on. *)
Definition prefix_state (p : prefixLimiter) (prefix : string) (now : Z) : prefixState :=
  match pl_items p !! prefix with
  | None => fresh_prefix p now
  | Some st => if (0 <? pl_ttl p) && (pl_ttl p <? time_sub now (ps_lastSeen st)) then fresh_prefix p now else st
  end.

Definition allow (p : prefixLimiter) (prefix : string) (now : Z) : bool * prefixLimiter :=
  let prefix := TrimSpace prefix in
  if bool_decide (prefix = "") then (true, p)
  else
    let st := refill p (prefix_state p prefix now) now in
    if tokens st <=? 0 then (false, with_items (<[prefix := mkPrefixState (tokens st) (lastRefill st) now]> (pl_items p)) p)
    else (true, with_items (<[prefix := mkPrefixState (tokens st - 1) (lastRefill st) now]> (pl_items p)) p).

Definition fnv32a (s : string) : Z := fnv s 2166136261.

Definition shard_of_key (shards : Z) (k : string) : Z := fnv32a k mod shards.

(** Shard [i] loses keys, in the order of the listing, until it has at most [max]. *)
Definition shrink_shard {A} (order : gmap string A -> list string) (shards max : Z) (m : gmap string A) (i : Z) : gmap string A :=
  let keys := filter (fun k => shard_of_key shards k = i) (order m) in
  if (0 <? max) && (max <? Z.of_nat (length keys))
  then fold_left (fun m k => delete k m) (take (Z.to_nat (Z.of_nat (length keys) - max)) keys) m
  else m.

Definition shrink_all {A} (order : gmap string A -> list string) (shards max : Z) (m : gmap string A) : gmap string A :=
  fold_left (shrink_shard order shards max) (seqZ 0 shards) m.

Definition sweep (order : gmap string prefixState -> list string) (p : prefixLimiter) (now : Z) : prefixLimiter :=
  if pl_ttl p <=? 0 then p
  else with_items (shrink_all order 16 (pl_maxEntries p)
         (filter (fun kv => (pl_ttl p <? time_sub now (ps_lastSeen kv.2)) = false) (pl_items p))) p.

(** ** Histories on disk *)

Record repRecord := mkRepRecord { RecentASNs : list string; RecentCountries : list string; RecentContinents : list string; rr_UpdatedAt : Z }.

(** The files by call; [None] for a file that cannot be read. *)
Record repStore := mkRepStore { maxASNHistory : Z; maxGeoHistory : Z; rs_files : gmap string (option repRecord) }.

Definition trimHistory (values : list string) (limit : Z) : list string :=
  if (limit <=? 0) || (Z.of_nat (length values) <=? limit) then values else take (Z.to_nat limit) values.

Inductive load_result := Loaded (r : repRecord) | NotExist | LoadError.

Definition rep_Load (s : repStore) (callsign : string) : load_result :=
  let callsign := upper_trim callsign in
  if bool_decide (callsign = "") then LoadError
  else match rs_files s !! callsign with
       | None => NotExist
       | Some None => LoadError
       | Some (Some r) => Loaded (mkRepRecord (trimHistory (RecentASNs r) (maxASNHistory s)) (trimHistory (RecentCountries r) (maxGeoHistory s))
                                              (trimHistory (RecentContinents r) (maxGeoHistory s)) (rr_UpdatedAt r))
       end.

(** The loop of [prependUnique] with [out] so far. *)
Fixpoint prepend_loop (value : string) (existing out : list string) (limit : Z) : list string :=
  match existing with
  | [] => out
  | v :: rest =>
      if bool_decide (v = value) then prepend_loop value rest out limit
      else let out := out ++ [v] in
           if limit <=? Z.of_nat (length out) then out else prepend_loop value rest out limit
  end.

Definition prependUnique (value : string) (existing : list string) (limit : Z) : list string :=
  if limit <=? 0 then [] else prepend_loop value existing [value] limit.

Definition remember (value : string) (l : list string) (limit : Z) : list string :=
  let value := TrimSpace value in if bool_decide (value = "") then l else prependUnique value l limit.

(** The record after a login, [None] on errors; writing succeeds or not. *)
Definition Touch (s : repStore) (callsign asn country continent : string) (now : Z) (writable : bool) : option repRecord * repStore :=
  let callsign := upper_trim callsign in
  let update r := mkRepRecord (remember asn (RecentASNs r) (maxASNHistory s)) (remember country (RecentCountries r) (maxGeoHistory s))
                              (remember continent (RecentContinents r) (maxGeoHistory s)) now in
  let save r := if writable then (Some r, mkRepStore (maxASNHistory s) (maxGeoHistory s) (<[callsign := Some r]> (rs_files s))) else (None, s) in
  if bool_decide (callsign = "") then (None, s)
  else match rep_Load s callsign with
       | Loaded r => save (update r)
       | NotExist => save (update (mkRepRecord [] [] [] zero_time))
       | LoadError => (None, s)
       end.

(** ** Configuration *)

Record gateConfig := mkGateConfig {
  enabled : bool;
  initialWait : Z;
  rampWindow : Z;
  perBandStart : Z;
  perBandCap : Z;
  totalCapStart : Z;
  totalCapPostRamp : Z;
  totalCapRampDelay : Z;
  countryMismatchExtraWait : Z;
  disagreementPenalty : Z;
  unknownPenalty : Z;
  disagreementResetOnNew : bool;
  resetOnNewASN : bool;
  countryFlipScope : string;
  stateTTL : Z;
  stateMaxEntries : Z;
  ipinfoSnapshotMaxAge : Z
}.

(** The limits of [normalizeGateConfig]. *)
Definition normalizeGateConfig (g : gateConfig) : gateConfig :=
  let cap := positive_else (perBandCap g) 5 in
  let start := Z.min (positive_else (perBandStart g) 1) cap in
  let totalStart := positive_else (totalCapStart g) 5 in
  let post := Z.max (positive_else (totalCapPostRamp g) totalStart) totalStart in
  mkGateConfig (enabled g) (if initialWait g <? 0 then minute else initialWait g) (positive_else (rampWindow g) minute) start cap
    totalStart post (totalCapRampDelay g) (positive_else (countryMismatchExtraWait g) minute)
    (positive_else (disagreementPenalty g) minute) (positive_else (unknownPenalty g) minute) (disagreementResetOnNew g)
    (resetOnNewASN g) (if bool_decide (countryFlipScope g = "") then "country" else countryFlipScope g)
    (positive_else (stateTTL g) (2 * hour)) (positive_else (stateMaxEntries g) 100000) (positive_else (ipinfoSnapshotMaxAge g) (26 * hour)).

(** ** Calls *)

Record LookupResult := mkLookup {
  l_ASN : string;
  l_CountryCode : string;
  l_CountryName : string;
  l_ContinentCode : string;
  l_Source : string;
  l_FetchedAt : Z
}.

Definition no_result : LookupResult := mkLookup "" "" "" "" "" zero_time.

(** The flags in the order of their bits. *)
Inductive penalty := CountryMismatch | ASNReset | GeoFlip | Disagreement | Unknown.

#[global] Instance penalty_eq_dec : EqDecision penalty.
Proof. solve_decision. Defined.

Record callState := mkCallState {
  windowStart : Z;
  nextAllowedAt : Z;
  nextRampAt : Z;
  totalCapUpgradeAt : Z;
  perBandLimit : Z;
  totalCap : Z;
  perBandCounts : gmap string Z;
  totalCount : Z;
  cs_lastSeen : Z;
  penaltyFlags : list penalty;
  ctyCountryKey : string;
  ctyContinentKey : string;
  current : LookupResult;
  currentCountryKey : string;
  currentPrefix : string;
  history : option repRecord
}.

Definition empty_call : callState :=
  mkCallState zero_time zero_time zero_time zero_time 0 0 ∅ 0 zero_time [] "" "" no_result "" "" None.

Definition with_ramp (ws na nr up pbl tc : Z) (counts : gmap string Z) (total : Z) (s : callState) : callState :=
  mkCallState ws na nr up pbl tc counts total (cs_lastSeen s) (penaltyFlags s) (ctyCountryKey s) (ctyContinentKey s)
    (current s) (currentCountryKey s) (currentPrefix s) (history s).

Definition resetState (c : gateConfig) (s : callState) (now wait extra : Z) : callState :=
  let start := now + wait in
  let capped := perBandCap c <=? perBandStart c in
  with_ramp start start (start + (rampWindow c + extra))
    (if capped && (totalCapStart c <? totalCapPostRamp c) then start + totalCapRampDelay c else zero_time)
    (if capped then perBandCap c else perBandStart c) (totalCapStart c) ∅ 0 s.

(** The steps of the ramp that are due. *)
Fixpoint ramp (steps : nat) (cap window limit next : Z) : Z * Z :=
  match steps with
  | O => (limit, next)
  | S n => if limit <? cap then ramp n cap window (limit + 1) (next + window) else (limit, next)
  end.

(** A new window starts empty. *)
Definition advance_window (c : gateConfig) (now : Z) (s : callState) : callState :=
  let ws := if IsZero (windowStart s) then now else windowStart s in
  let elapsed := time_sub now ws in
  if After now ws && (0 <? rampWindow c) && (rampWindow c <=? elapsed)
  then with_ramp (ws + Z.quot elapsed (rampWindow c) * rampWindow c) (nextAllowedAt s) (nextRampAt s) (totalCapUpgradeAt s)
         (perBandLimit s) (totalCap s) ∅ 0 s
  else with_ramp ws (nextAllowedAt s) (nextRampAt s) (totalCapUpgradeAt s) (perBandLimit s) (totalCap s) (perBandCounts s) (totalCount s) s.

(** The limit per band grows. *)
Definition advance_ramp (c : gateConfig) (now : Z) (s : callState) : callState :=
  if (perBandLimit s <? perBandCap c) && negb (IsZero (nextRampAt s)) && negb (Before now (nextRampAt s)) then
    let steps := Z.quot (time_sub now (nextRampAt s)) (rampWindow c) + 1 in
    let '(limit, next) := ramp (Z.to_nat steps) (perBandCap c) (rampWindow c) (perBandLimit s) (nextRampAt s) in
    with_ramp (windowStart s) (nextAllowedAt s) next
      (if (perBandCap c <=? limit) && IsZero (totalCapUpgradeAt s) then now + totalCapRampDelay c else totalCapUpgradeAt s)
      limit (totalCap s) (perBandCounts s) (totalCount s) s
  else s.

(** Then the cap in total. *)
Definition advance_cap (c : gateConfig) (now : Z) (s : callState) : callState :=
  if IsZero (totalCapUpgradeAt s) then s
  else if After now (totalCapUpgradeAt s) || (now =? totalCapUpgradeAt s)
  then with_ramp (windowStart s) (nextAllowedAt s) (nextRampAt s) zero_time (perBandLimit s) (totalCapPostRamp c)
         (perBandCounts s) (totalCount s) s
  else s.

Definition advanceState (c : gateConfig) (s : callState) (now : Z) : callState :=
  advance_cap c now (advance_ramp c now (advance_window c now s)).

Definition touch_call (now : Z) (s : callState) : callState :=
  mkCallState (windowStart s) (nextAllowedAt s) (nextRampAt s) (totalCapUpgradeAt s) (perBandLimit s) (totalCap s) (perBandCounts s)
    (totalCount s) now (penaltyFlags s) (ctyCountryKey s) (ctyContinentKey s) (current s) (currentCountryKey s) (currentPrefix s) (history s).

Definition flag_call (f : list penalty) (s : callState) : callState :=
  mkCallState (windowStart s) (nextAllowedAt s) (nextRampAt s) (totalCapUpgradeAt s) (perBandLimit s) (totalCap s) (perBandCounts s)
    (totalCount s) (cs_lastSeen s) f (ctyCountryKey s) (ctyContinentKey s) (current s) (currentCountryKey s) (currentPrefix s) (history s).

(** ** The gate *)

Inductive DropReason := DropProbation | DropBandCap | DropTotalCap | DropPrefixCap.

(** [None]: the spot is allowed. *)
Record Decision_ := mkDecision { d_drop : option DropReason; d_flags : list penalty; d_from : LookupResult; d_prefix : string }.

Definition allow_all : Decision_ := mkDecision None [] no_result "".

(** Addresses: the prefix key of a version 4 or 6 address, nothing for others. *)
Inductive ipaddr := V4 (text prefix : string) | V6 (text prefix : string).

Definition addr_prefix (a : option ipaddr) : string := match a with Some (V4 _ p) | Some (V6 _ p) => p | None => "" end.
Definition addr_text (a : ipaddr) : string := match a with V4 t _ | V6 t _ => t end.

Record Gate := mkGate {
  g_cfg : gateConfig;
  g_calls : gmap string callState;
  g_v4 : option prefixLimiter;
  g_v6 : option prefixLimiter;
  g_store : option repStore;
  g_cty : option CTYDatabase;
  g_cache : gmap string (LookupResult * Z)       (* with the time it expires *)
}.

Definition with_calls (m : gmap string callState) (g : Gate) : Gate :=
  mkGate (g_cfg g) m (g_v4 g) (g_v6 g) (g_store g) (g_cty g) (g_cache g).
Definition with_limiters (v4 v6 : option prefixLimiter) (g : Gate) : Gate :=
  mkGate (g_cfg g) (g_calls g) v4 v6 (g_store g) (g_cty g) (g_cache g).

Definition ask_limiter (l : option prefixLimiter) (prefix : string) (now : Z) : bool * option prefixLimiter :=
  match l with
  | None => (true, None)
  | Some l => let '(b, l) := allow l prefix now in (b, Some l)
  end.

(** The bucket of the address family. *)
Definition check_prefix (g : Gate) (addr : option ipaddr) (now : Z) : bool * Gate :=
  match addr with
  | Some (V4 _ p) => let '(b, l) := ask_limiter (g_v4 g) p now in (b, with_limiters l (g_v6 g) g)
  | Some (V6 _ p) => let '(b, l) := ask_limiter (g_v6 g) p now in (b, with_limiters (g_v4 g) l g)
  | None => (true, g)
  end.

Definition band_key (band : string) : string := let b := NormalizeBand band in if bool_decide (b = "") then "???" else b.

Definition count_band (band : string) (s : callState) : Z := default 0 (perBandCounts s !! band).

(** One spot of a call whose state is up to date. *)
Definition spend (now : Z) (band : string) (s : callState) : option DropReason * callState :=
  if Before now (nextAllowedAt s) then (Some DropProbation, s)
  else if (0 <? totalCap s) && (totalCap s <=? totalCount s) then (Some DropTotalCap, s)
  else if (0 <? perBandLimit s) && (perBandLimit s <=? count_band band s) then (Some DropBandCap, s)
  else (None, with_ramp (windowStart s) (nextAllowedAt s) (nextRampAt s) (totalCapUpgradeAt s) (perBandLimit s) (totalCap s)
                (if 0 <? perBandLimit s then <[band := count_band band s + 1]> (perBandCounts s) else perBandCounts s)
                (totalCount s + 1) s).

(** [now] is not the zero time: the caller sets it. *)
Definition Check_ (g : Gate) (call band : string) (addr : option ipaddr) (now : Z) : Decision_ * Gate :=
  if negb (enabled (g_cfg g)) then (allow_all, g)
  else
    let call := upper_trim call in
    if bool_decide (call = "") then (allow_all, g)
    else
      let prefix := addr_prefix addr in
      let '(pass, g) := check_prefix g addr now in
      if negb pass then
        let s := default empty_call (g_calls g !! call) in
        (mkDecision (Some DropPrefixCap) (penaltyFlags s) (current s) prefix, g)
      else
        let s := match g_calls g !! call with
                 | Some s => s
                 | None => flag_call [Unknown] (resetState (g_cfg g) empty_call now (initialWait (g_cfg g)) 0)
                 end in
        let s := advanceState (g_cfg g) (touch_call now s) now in
        let '(drop, s) := spend now (band_key band) s in
        (mkDecision drop (penaltyFlags s) (current s) prefix, with_calls (<[call := s]> (g_calls g)) g).

(** ** Logins *)

Section Lookups.
(** What the sources say of an address: the ipinfo tables, the Cymru service, the ipinfo
    service. *)
Variables (ipinfo_tables ipinfo_api : ipaddr -> LookupResult) (cymru : ipaddr -> option LookupResult).
Variables (lookupCacheTTL lookupCacheMaxEntries : Z).
Variable order_cache : gmap string (LookupResult * Z) -> list string.

Definition sourced (r : LookupResult) : bool := negb (bool_decide (l_Source r = "")).

Definition result_country (r : LookupResult) : string :=
  let k := countryKeyFromCode (l_CountryCode r) in if bool_decide (k = "") then countryKeyFromName (l_CountryName r) else k.

Definition expired (now : Z) (e : LookupResult * Z) : bool := negb (IsZero e.2) && After now e.2.

(** A shard over its limit first loses what has expired. *)
Definition cache_store (key : string) (r : LookupResult) (now : Z) (m : gmap string (LookupResult * Z)) : gmap string (LookupResult * Z) :=
  let m := <[key := (r, if 0 <? lookupCacheTTL then now + lookupCacheTTL else zero_time)]> m in
  let i := shard_of_key 32 key in
  if (0 <? lookupCacheMaxEntries) &&
     (lookupCacheMaxEntries <? Z.of_nat (length (filter (fun k => shard_of_key 32 k = i) (order_cache m))))
  then shrink_shard order_cache 32 lookupCacheMaxEntries
         (filter (fun kv => (bool_decide (shard_of_key 32 kv.1 = i) && expired now kv.2) = false) m) i
  else m.

Definition cache_read (key : string) (now : Z) (m : gmap string (LookupResult * Z)) : option LookupResult * gmap string (LookupResult * Z) :=
  match m !! key with
  | None => (None, m)
  | Some e => if expired now e then (None, delete key m) else (Some e.1, m)
  end.

(** [(ipinfo, cymru, country, continent, known)]. *)
Definition lookupIP (c : gateConfig) (addr : option ipaddr) (now : Z) (m : gmap string (LookupResult * Z))
    : LookupResult * LookupResult * string * string * bool * gmap string (LookupResult * Z) :=
  match addr with
  | None => (no_result, no_result, "", "", false, m)
  | Some a =>
      let '(cached, m) := cache_read (addr_text a) now m in
      match match cached with
            | Some r => if (ipinfoSnapshotMaxAge c =? 0) || (time_sub now (l_FetchedAt r) <=? ipinfoSnapshotMaxAge c) then Some r else None
            | None => None
            end with
      | Some r => (r, no_result, result_country r, continentKey (l_ContinentCode r), true, m)
      | None =>
          let ip := ipinfo_tables a in
          let '(ip, cy, m) :=
            if sourced ip then (ip, no_result, cache_store (addr_text a) ip now m)
            else
              let '(cy, m) := match cymru a with Some cy => (cy, cache_store (addr_text a) cy now m) | None => (no_result, m) end in
              if sourced cy then (ip, cy, m)
              else let ip := ipinfo_api a in (ip, cy, if sourced ip then cache_store (addr_text a) ip now m else m) in
          let primary := if sourced ip then ip else cy in
          if sourced primary then (ip, cy, result_country primary, continentKey (l_ContinentCode primary), true, m)
          else (ip, cy, "", "", false, m)
      end
  end.

Definition disagreement (ip cy : LookupResult) : bool :=
  if negb (sourced ip) || negb (sourced cy) then false
  else if negb (bool_decide (l_ASN ip = "")) && negb (bool_decide (l_ASN cy = "")) && negb (bool_decide (l_ASN ip = l_ASN cy)) then true
  else let a := result_country ip in
       let b := countryKeyFromCode (l_CountryCode cy) in
       negb (bool_decide (a = "")) && negb (bool_decide (b = "")) && negb (bool_decide (a = b)).

Definition countryMismatch (ctyKey ipKey : string) : bool :=
  negb (bool_decide (ctyKey = "")) && negb (bool_decide (ipKey = "")) && negb (bool_decide (ctyKey = ipKey)).

Definition gate_lookupCTY (g : Gate) (call : string) : string * string * Gate :=
  match g_cty g with
  | None => ("", "", g)
  | Some db =>
      let '(info, db) := LookupCallsignPortable db call in
      let g := mkGate (g_cfg g) (g_calls g) (g_v4 g) (g_v6 g) (g_store g) (Some db) (g_cache g) in
      match info with
      | None => ("", "", g)
      | Some i => (countryKeyFromName (p_Country i), continentKey (p_Continent i), g)
      end
  end.

(** A network or a place that the history does not end with. *)
Definition evaluateHistory (c : gateConfig) (record : option repRecord) (ip : LookupResult) (country continent : string) : bool * bool :=
  match record with
  | None => (false, false)
  | Some r =>
      (resetOnNewASN c && negb (bool_decide (l_ASN ip = "")) && negb (bool_decide (l_ASN ip ∈ RecentASNs r)),
       if bool_decide (ToLower (countryFlipScope c) = "continent")
       then negb (bool_decide (continent = "")) && match RecentContinents r with x :: _ => negb (bool_decide (x = continent)) | [] => false end
       else negb (bool_decide (country = "")) && match RecentCountries r with x :: _ => negb (bool_decide (x = country)) | [] => false end)
  end.

(** The flags and the longest of their delays. *)
Definition penalties (c : gateConfig) (known mismatch disagree asnNew geoFlip : bool) : list penalty :=
  (if known then [] else [Unknown]) ++ (if mismatch then [CountryMismatch] else []) ++ (if disagree then [Disagreement] else [])
  ++ (if asnNew then [ASNReset] else []) ++ (if geoFlip then [GeoFlip] else []).

Definition extra_delay (c : gateConfig) (known mismatch disagree : bool) : Z :=
  let d := if known then 0 else Z.max 0 (unknownPenalty c) in
  let d := if mismatch then Z.max d (countryMismatchExtraWait c) else d in
  if disagree then Z.max d (disagreementPenalty c) else d.

(** Some call, [writable]: the record can be saved. *)
Definition RecordLogin (g : Gate) (call : string) (addr : option ipaddr) (now : Z) (writable : bool) : Gate :=
  if negb (enabled (g_cfg g)) then g
  else
    let call := normalize_call call in
    if bool_decide (call = "") then g
    else
      let c := g_cfg g in
      let '(ctyKey, ctyCont, g) := gate_lookupCTY g call in
      let '(ip, cy, ipKey, ipCont, known, cache) := lookupIP c addr now (g_cache g) in
      let primary := if sourced ip then ip else cy in
      let mismatch := countryMismatch ctyKey ipKey in
      let disagree := disagreement ip cy in
      let loaded := match g_store g with None => NotExist | Some s => rep_Load s call end in
      let record := match loaded with Loaded r => Some r | _ => None end in
      let '(asnNew, geoFlip) := evaluateHistory c record primary ipKey ipCont in
      let newUser := (match record with Some _ => false | None => true end) || asnNew || geoFlip || (disagreementResetOnNew c && disagree) in
      let '(updated, store) :=
        match g_store g with
        | None => (None, None)
        | Some s => let '(r, s) := Touch s call (l_ASN primary) ipKey ipCont now writable in (r, Some s)
        end in
      let s := default empty_call (g_calls g !! call) in
      let s := resetState c s now (if newUser then initialWait c else 0) (extra_delay c known mismatch disagree) in
      let s := mkCallState (windowStart s) (nextAllowedAt s) (nextRampAt s) (totalCapUpgradeAt s) (perBandLimit s) (totalCap s)
                 (perBandCounts s) (totalCount s) now (penalties c known mismatch disagree asnNew geoFlip) ctyKey ctyCont primary ipKey
                 (addr_prefix addr) (match updated with Some r => Some r | None => history s end) in
      mkGate c (<[call := s]> (g_calls g)) (g_v4 g) (g_v6 g) store (g_cty g) cache.
End Lookups.

(** ** The sweeper *)

Definition sweepCalls (order : gmap string callState -> list string) (g : Gate) (now : Z) : Gate :=
  let c := g_cfg g in
  if stateTTL c <=? 0 then g
  else with_calls (shrink_all order 32 (stateMaxEntries c)
         (filter (fun kv => (stateTTL c <? time_sub now (cs_lastSeen kv.2)) = false) (g_calls g))) g.

(** ** The token bucket *)

(** Requests of prefixes and their instants, with the verdicts. *)
Fixpoint allow_run (p : prefixLimiter) (reqs : list (string * Z)) : list (string * bool) :=
  match reqs with
  | [] => []
  | (prefix, now) :: reqs => let '(b, p) := allow p prefix now in (prefix, b) :: allow_run p reqs
  end.

Definition granted (P : string) (l : list (string * bool)) : Z :=
  Z.of_nat (length (filter (fun r => TrimSpace r.1 = P /\ r.2 = true) l)).

Lemma granted_yes P prefix l : TrimSpace prefix = P -> granted P ((prefix, true) :: l) = 1 + granted P l.
Proof. intros HP. unfold granted. rewrite filter_cons_True by done. cbn [length]. lia. Qed.

Lemma granted_no P prefix b l : TrimSpace prefix <> P \/ b = false -> granted P ((prefix, b) :: l) = granted P l.
Proof. intros HP. unfold granted. rewrite filter_cons_False; [done|]. simpl. intuition congruence. Qed.

Section Bucket.
Context (cap rate ttl t0 t1 : Z).
Context (cap_pos : 0 < cap) (rate_pos : 0 < rate) (ttl_long : ttl <= 0 \/ cap <= rate * (ttl / second)) (short : t1 - t0 <= max_int64).

(** [a] tokens were handed out so far and the last request of the prefix was before [t]. *)
Definition bucket_inv (a t : Z) (o : option prefixState) : Prop :=
  match o with
  | None => a = 0
  | Some st => 0 <= tokens st <= cap /\ t0 <= lastRefill st /\ lastRefill st <= ps_lastSeen st /\ ps_lastSeen st <= t /\
               a + tokens st <= cap + rate * ((lastRefill st - t0) / second)
  end.

Lemma second_pos : 0 < second. Proof. done. Qed.

Lemma refill_inv p a now st :
  pl_capacity p = cap -> pl_refillPerSec p = rate -> t0 <= now <= t1 -> ps_lastSeen st <= now ->
  bucket_inv a now (Some st) -> let st' := refill p st now in
  0 <= tokens st' <= cap /\ t0 <= lastRefill st' <= now /\ a + tokens st' <= cap + rate * ((lastRefill st' - t0) / second).
Proof.
  intros Hc Hr Ht Hseen (H1 & H2 & H3 & H4 & H5). unfold refill, Before. rewrite Hc, Hr.
  destruct (Z.ltb_spec now (lastRefill st)); [lia|].
  rewrite time_sub_exact by (unfold in_int64, min_int64 in *; lia).
  destruct (Z.ltb_spec (now - lastRefill st) second) as [|Hs]; [lia|].
  pose proof second_pos as Hsec. rewrite !Z.quot_div_nonneg by lia.
  set (k := (now - lastRefill st) / second) in *.
  assert (Hk : 1 <= k) by (apply Z.div_le_lower_bound; lia).
  assert (Hk2 : k * second <= now - lastRefill st) by (rewrite Z.mul_comm; apply Z.mul_div_le; lia).
  clearbody k. destruct (Z.leb_spec (k * rate) 0); [nia|]. simpl. rewrite Z.quot_mul by lia.
  replace (lastRefill st + k * second - t0) with (lastRefill st - t0 + k * second) by lia. rewrite Z.div_add by lia. nia.
Qed.

Lemma prefix_state_inv p P a now :
  pl_capacity p = cap -> pl_ttl p = ttl -> t0 <= now <= t1 ->
  bucket_inv a now (pl_items p !! P) -> bucket_inv a now (Some (prefix_state p P now)).
Proof.
  intros Hc Ht Hn Hinv. pose proof second_pos as Hsec. unfold prefix_state. destruct (pl_items p !! P) as [st|].
  - destruct ((0 <? pl_ttl p) && _) eqn:Hexp; [|done]. rewrite Ht in Hexp. apply andb_prop in Hexp as [Hpos Hold].
    apply Z.ltb_lt in Hpos, Hold. destruct Hinv as (H1 & H2 & H3 & H4 & H5).
    rewrite time_sub_exact in Hold by (unfold in_int64, min_int64; lia).
    split; [simpl; lia|]. simpl. do 3 (split; [lia|]).
    assert (Hd : (lastRefill st - t0) / second + ttl / second <= (now - t0) / second).
    { apply Z.div_le_lower_bound; [lia|].
      pose proof (Z.mul_div_le (lastRefill st - t0) second Hsec). pose proof (Z.mul_div_le ttl second Hsec). lia. }
    destruct ttl_long as [?|Hlong]; [lia|]. nia.
  - simpl in Hinv. subst a. simpl. rewrite Hc. assert (0 <= (now - t0) / second) by (apply Z.div_pos; lia). nia.
Qed.

Lemma allow_run_bound p P a t reqs :
  pl_capacity p = cap -> pl_refillPerSec p = rate -> pl_ttl p = ttl -> P <> "" ->
  StronglySorted Z.le (map snd reqs) -> Forall (fun r => t <= r.2 /\ t0 <= r.2 <= t1) reqs -> t0 <= t <= t1 ->
  bucket_inv a t (pl_items p !! P) ->
  a + granted P (allow_run p reqs) <= cap + rate * ((t1 - t0) / second).
Proof.
  pose proof second_pos as Hsec. revert p a t. induction reqs as [|[prefix now] reqs IH]; intros p a t Hc Hr Htl HP Hsort Hin Ht Hinv.
  - unfold granted. simpl. rewrite Z.add_0_r. destruct (pl_items p !! P) as [st|]; simpl in Hinv.
    + destruct Hinv as (? & ? & ? & ? & ?).
      assert ((lastRefill st - t0) / second <= (t1 - t0) / second) by (apply Z.div_le_mono; lia). nia.
    + subst a. assert (0 <= (t1 - t0) / second) by (apply Z.div_pos; lia). nia.
  - apply StronglySorted_inv in Hsort as [Hsort Hle]. apply Forall_cons in Hin as [[Hn1 Hn2] Hin]. simpl in Hn1, Hn2.
    assert (Hin' : Forall (fun r => now <= r.2 /\ t0 <= r.2 <= t1) reqs).
    { apply list.Forall_forall. intros r Hr'. split.
      - apply (proj1 (list.Forall_forall _ _) Hle). apply list_elem_of_fmap. by exists r.
      - by apply (proj1 (list.Forall_forall _ _) Hin r Hr'). }
    assert (Hinv' : bucket_inv a now (pl_items p !! P)).
    { destruct (pl_items p !! P); [|done]. simpl in *. intuition lia. }
    simpl. unfold allow. case_bool_decide as Hempty.
    { rewrite granted_no by (first [right; done | left; congruence]). apply (IH p a now); done. }
    destruct (decide (TrimSpace prefix = P)) as [HeqP|Hne].
    + rewrite HeqP in *. pose proof (prefix_state_inv p P a now Hc Htl Hn2 Hinv') as Hst.
      pose proof (refill_inv p a now (prefix_state p P now) Hc Hr Hn2 (ltac:(simpl in Hst; lia)) Hst) as (R1 & R2 & R3).
      set (st := refill p (prefix_state p P now) now) in *. clearbody st.
      destruct (Z.leb_spec (tokens st) 0).
      * rewrite granted_no by (first [right; done | left; congruence]).
        apply (IH _ a now); [done..|lia|]. simpl. rewrite lookup_insert_eq. simpl. lia.
      * rewrite granted_yes, Z.add_assoc by done. apply (IH _ (a + 1) now); [done..|lia|]. simpl. rewrite lookup_insert_eq. simpl. lia.
    + assert (Hskip : forall b st, a + granted P ((prefix, b) :: allow_run (with_items (<[TrimSpace prefix:=st]> (pl_items p)) p) reqs)
                          <= cap + rate * ((t1 - t0) / second)).
      { intros b st. rewrite granted_no by (first [right; done | left; congruence]).
        apply (IH _ a now); [done..|lia|]. simpl. by rewrite lookup_insert_ne. }
      destruct (_ <=? 0); apply Hskip.
Qed.
End Bucket.

(** A network prefix cannot post faster than its bucket refills: over any stretch of
    time, among any requests of other prefixes, it is granted at most the capacity plus
    the refill of the whole seconds that have passed - also across the expiry of idle
    buckets, when the refill during the time to live covers the capacity. *)
Theorem prefix_rate_bounded capacity rate ttl maxEntries p P reqs t0 t1 :
  newPrefixLimiter capacity rate ttl maxEntries = Some p -> ttl <= 0 \/ capacity <= rate * (ttl / second) -> P <> "" ->
  StronglySorted Z.le (map snd reqs) -> Forall (fun r => t0 <= r.2 <= t1) reqs -> t0 <= t1 -> t1 - t0 <= max_int64 ->
  granted P (allow_run p reqs) <= capacity + rate * ((t1 - t0) / second).
Proof.
  unfold newPrefixLimiter. destruct (Z.leb_spec capacity 0); [done|]. destruct (Z.leb_spec rate 0); [done|]. intros [= <-] Hlong HP Hs Hf Ht Hshort.
  rewrite <- (Z.add_0_l (granted _ _)).
  apply (allow_run_bound capacity rate ttl t0 t1 ltac:(lia) ltac:(lia) Hlong Hshort _ P 0 t0 reqs); [done..| |lia|done].
  eapply Forall_impl; [done|]. simpl. lia.
Qed.

Lemma prefix_rate_bounded_witness :
  exists p, newPrefixLimiter 2 1 (10 * second) 0 = Some p /\
    allow_run p [("192.0.2.0/24", 0); ("192.0.2.0/24", 0); ("192.0.2.0/24", 0); ("198.51.100.0/24", 0); ("192.0.2.0/24", second)]
    = [("192.0.2.0/24", true); ("192.0.2.0/24", true); ("192.0.2.0/24", false); ("198.51.100.0/24", true); ("192.0.2.0/24", true)] /\
    granted "192.0.2.0/24" (allow_run p [("192.0.2.0/24", 0); ("192.0.2.0/24", 0); ("192.0.2.0/24", 0); ("198.51.100.0/24", 0); ("192.0.2.0/24", second)])
    <= 2 + 1 * ((second - 0) / second).
Proof.
  eexists. split; [reflexivity|]. split; [vm_compute; reflexivity|].
  apply (prefix_rate_bounded 2 1 (10 * second) 0 _ "192.0.2.0/24" _ 0 second).
  - reflexivity.
  - right. vm_compute. discriminate.
  - discriminate.
  - repeat constructor; vm_compute; discriminate.
  - repeat constructor; vm_compute; discriminate.
  - vm_compute. discriminate.
  - vm_compute. discriminate.
Defined.

(** ** The caps of a call *)

Definition config_ok (c : gateConfig) : Prop :=
  1 <= perBandStart c <= perBandCap c /\ 1 <= totalCapStart c <= totalCapPostRamp c /\ 0 < rampWindow c /\ 0 <= initialWait c.

Lemma normalize_config_ok c : config_ok (normalizeGateConfig c).
Proof.
  unfold config_ok, normalizeGateConfig, positive_else. cbn. pose proof (eq_refl : minute = 60000000000) as Hm.
  repeat match goal with |- context [?a <=? ?b] => destruct (Z.leb_spec a b) | |- context [?a <? ?b] => destruct (Z.ltb_spec a b) end; lia.
Qed.

Section Caps.
Context (c : gateConfig) (Hcfg : config_ok c).

(** The limits are within the configured caps and the counts within the limits. *)
Record call_ok (s : callState) : Prop := mkCallOk {
  ok_limit : 1 <= perBandLimit s <= perBandCap c;
  ok_cap : totalCapStart c <= totalCap s <= totalCapPostRamp c;
  ok_bands : map_Forall (fun _ n => 0 <= n <= perBandLimit s) (perBandCounts s);
  ok_total : 0 <= totalCount s <= totalCap s
}.

Lemma reset_ok s now wait extra : call_ok (resetState c s now wait extra).
Proof.
  pose proof Hcfg as (? & ? & ? & ?). unfold resetState.
  destruct (Z.leb_spec (perBandCap c) (perBandStart c)); split; simpl; try lia; apply map_Forall_empty.
Qed.

Lemma ramp_between steps cap window limit next : limit <= cap -> limit <= (ramp steps cap window limit next).1 <= cap.
Proof.
  revert limit next. induction steps as [|n IH]; intros limit next Hl; simpl; [lia|].
  destruct (Z.ltb_spec limit cap) as [Hlt|]; simpl; [|lia]. specialize (IH (limit + 1) (next + window) ltac:(lia)). lia.
Qed.

Lemma advance_window_ok now s : call_ok s -> call_ok (advance_window c now s).
Proof.
  intros [H1 H2 H3 H4]. pose proof Hcfg as (? & ? & ? & ?). unfold advance_window. destruct (_ && _).
  - split; simpl; [lia|lia|apply map_Forall_empty|lia].
  - split; simpl; try done; lia.
Qed.

Lemma advance_ramp_ok now s : call_ok s -> call_ok (advance_ramp c now s).
Proof.
  intros [H1 H2 H3 H4]. unfold advance_ramp. destruct (_ && _) eqn:Hdue; [|by split].
  pose proof (ramp_between (Z.to_nat (Z.quot (time_sub now (nextRampAt s)) (rampWindow c) + 1)) (perBandCap c) (rampWindow c)
                (perBandLimit s) (nextRampAt s) ltac:(lia)) as Hr.
  destruct (ramp _ _ _ _ _) as [limit next]. simpl in Hr. split; simpl; [lia|lia| |lia].
  eapply map_Forall_impl; [exact H3|]. simpl. lia.
Qed.

Lemma advance_cap_ok now s : call_ok s -> call_ok (advance_cap c now s).
Proof.
  intros [H1 H2 H3 H4]. pose proof Hcfg as (? & ? & ? & ?). unfold advance_cap.
  destruct (IsZero _); [by split|]. destruct (_ || _); split; simpl; try done; lia.
Qed.

Lemma advance_ok now s : call_ok s -> call_ok (advanceState c s now).
Proof. intros H. by apply advance_cap_ok, advance_ramp_ok, advance_window_ok. Qed.

Lemma touch_call_ok now s : call_ok s -> call_ok (touch_call now s).
Proof. by intros []. Qed.

Lemma flag_ok f s : call_ok s -> call_ok (flag_call f s).
Proof. by intros []. Qed.

Lemma count_band_nonneg band s : call_ok s -> 0 <= count_band band s.
Proof.
  intros [_ _ H _]. unfold count_band. destruct (perBandCounts s !! band) as [n|] eqn:Hn; simpl; [|lia].
  specialize (H band n Hn). simpl in H. lia.
Qed.

(** A spot is dropped, or counted below both limits. *)
Lemma spend_ok now band s : call_ok s -> call_ok (spend now band s).2.
Proof.
  intros Hok. pose proof (count_band_nonneg band s Hok) as Hb. destruct Hok as [H1 H2 H3 H4]. pose proof Hcfg as (? & ? & ? & ?).
  unfold spend. destruct (Before _ _); [by split|].
  destruct (Z.ltb_spec 0 (totalCap s)); simpl; [|lia]. destruct (Z.leb_spec (totalCap s) (totalCount s)); [by split|].
  destruct (Z.ltb_spec 0 (perBandLimit s)); simpl; [|lia]. destruct (Z.leb_spec (perBandLimit s) (count_band band s)); [by split|].
  simpl. destruct (Z.ltb_spec 0 (perBandLimit s)); [|lia].
  split; simpl; [lia|lia| |lia]. apply map_Forall_insert_2; [lia|done].
Qed.

(** The state [Check_] works on, and leaves. *)
Definition checked_state (g : Gate) (call : string) (now : Z) : callState :=
  advanceState (g_cfg g) (touch_call now (default (flag_call [Unknown] (resetState (g_cfg g) empty_call now (initialWait (g_cfg g)) 0)) (g_calls g !! call))) now.

Lemma checked_ok g call now : g_cfg g = c -> map_Forall (fun _ => call_ok) (g_calls g) -> call_ok (checked_state g call now).
Proof.
  intros Hc Hok. unfold checked_state. rewrite Hc. apply advance_ok, touch_call_ok.
  destruct (g_calls g !! call) as [s|] eqn:Hs; simpl; [by apply (Hok call)|]. apply flag_ok, reset_ok.
Qed.

Lemma check_prefix_frame g addr now : g_cfg (check_prefix g addr now).2 = g_cfg g /\ g_calls (check_prefix g addr now).2 = g_calls g.
Proof. unfold check_prefix. destruct addr as [[t p|t p]|]; [destruct (ask_limiter _ _ _)..|]; done. Qed.

(** The three ends of [Check_]. *)
Lemma Check_cases g call band addr now :
  enabled (g_cfg g) = true -> upper_trim call <> "" ->
  let r := Check_ g call band addr now in
  g_cfg r.2 = g_cfg g /\
  ((d_drop r.1 = Some DropPrefixCap /\ g_calls r.2 = g_calls g) \/
   (d_drop r.1 = (spend now (band_key band) (checked_state g (upper_trim call) now)).1 /\
    g_calls r.2 = <[upper_trim call := (spend now (band_key band) (checked_state g (upper_trim call) now)).2]> (g_calls g))).
Proof.
  intros Hen Hne. unfold Check_. rewrite Hen. simpl. rewrite bool_decide_false by done.
  pose proof (check_prefix_frame g addr now) as [Hf1 Hf2]. destruct (check_prefix g addr now) as [pass g']. simpl in Hf1, Hf2.
  rewrite Hf1, Hf2. destruct pass; simpl; [|split; [done|by left]].
  unfold checked_state. destruct (g_calls g !! upper_trim call); simpl; destruct (spend _ _ _); simpl; (split; [done|by right]).
Qed.

Lemma Check_calls_ok g call band addr now :
  g_cfg g = c -> map_Forall (fun _ => call_ok) (g_calls g) ->
  g_cfg (Check_ g call band addr now).2 = c /\ map_Forall (fun _ => call_ok) (g_calls (Check_ g call band addr now).2).
Proof.
  intros Hc Hok. destruct (enabled (g_cfg g)) eqn:Hen; [|unfold Check_; by rewrite Hen].
  destruct (decide (upper_trim call = "")) as [He|Hne]; [unfold Check_; rewrite Hen, He; done|].
  destruct (Check_cases g call band addr now Hen Hne) as [H1 [[_ H2]|[_ H2]]]; rewrite H1, H2; split; try done.
  apply map_Forall_insert_2; [|done]. by apply spend_ok, checked_ok.
Qed.
End Caps.

(** ** Every reachable gate *)

Lemma deletes_subseteq {A} (ks : list string) (m : gmap string A) : fold_left (fun m k => delete k m) ks m ⊆ m.
Proof.
  revert m. induction ks as [|k ks IH]; intros m; simpl; [done|]. etrans; [apply IH|]. apply delete_subseteq.
Qed.

Lemma shrink_all_subseteq {A} (order : gmap string A -> list string) shards max (m : gmap string A) : shrink_all order shards max m ⊆ m.
Proof.
  unfold shrink_all. generalize (seqZ 0 shards). intros sh. revert m. induction sh as [|i sh IH]; intros m; simpl; [done|].
  etrans; [apply IH|]. unfold shrink_shard. destruct (_ && _); [apply deletes_subseteq|done].
Qed.

Section Reachable.
Context (ipinfo_tables ipinfo_api : ipaddr -> LookupResult) (cymru : ipaddr -> option LookupResult) (ttl max : Z).
Context (order_cache : gmap string (LookupResult * Z) -> list string) (order_calls : gmap string callState -> list string).
Context (order_prefixes : gmap string prefixState -> list string).

(** The operations of the gate. *)
Inductive gate_step : Gate -> Gate -> Prop :=
| step_check g call band addr now : gate_step g (Check_ g call band addr now).2
| step_login g call addr now writable : gate_step g (RecordLogin ipinfo_tables ipinfo_api cymru ttl max order_cache g call addr now writable)
| step_sweep g now : gate_step g (sweepCalls order_calls g now)
| step_prefixes g now :
    gate_step g (with_limiters (fmap (fun p => sweep order_prefixes p now) (g_v4 g)) (fmap (fun p => sweep order_prefixes p now) (g_v6 g)) g).

(** What a login leaves of the state of the call. *)
Lemma RecordLogin_calls g call addr now writable :
  g_cfg (RecordLogin ipinfo_tables ipinfo_api cymru ttl max order_cache g call addr now writable) = g_cfg g /\
  (g_calls (RecordLogin ipinfo_tables ipinfo_api cymru ttl max order_cache g call addr now writable) = g_calls g \/
   exists s s0 wait extra,
     g_calls (RecordLogin ipinfo_tables ipinfo_api cymru ttl max order_cache g call addr now writable) = <[normalize_call call := s]> (g_calls g) /\
     let r := resetState (g_cfg g) s0 now wait extra in
     perBandLimit s = perBandLimit r /\ totalCap s = totalCap r /\ perBandCounts s = ∅ /\ totalCount s = 0).
Proof.
  unfold RecordLogin. destruct (negb _); [auto|]. case_bool_decide; [auto|].
  unfold gate_lookupCTY. set (l := match g_cty g with None => _ | Some db => _ end).
  assert (Hl : g_cfg l.2 = g_cfg g /\ g_calls l.2 = g_calls g).
  { unfold l. destruct (g_cty g) as [db|]; [|done]. destruct (LookupCallsignPortable db _) as [[i|] db']; done. }
  destruct l as [[ctyKey ctyCont] g']. simpl in Hl. destruct Hl as [Hl1 Hl2].
  destruct (lookupIP _ _ _ _ _ _ _ _ _ _) as [[[[[ip cy] ipKey] ipCont] known] cache].
  destruct (evaluateHistory _ _ _ _ _) as [asnNew geoFlip].
  destruct (match g_store g' with None => _ | Some s => _ end) as [updated store]. cbn [g_cfg g_calls]. split; [done|]. right.
  rewrite Hl2. eexists _, empty_call, 0, 0. split; [reflexivity|]. done.
Qed.

Lemma gate_step_ok c g g' : config_ok c -> gate_step g g' -> g_cfg g = c -> map_Forall (fun _ => call_ok c) (g_calls g) ->
  g_cfg g' = c /\ map_Forall (fun _ => call_ok c) (g_calls g').
Proof.
  intros Hcfg Hstep Hc Hok. destruct Hstep as [g call band addr now|g call addr now writable|g now|g now].
  - by apply Check_calls_ok.
  - destruct (RecordLogin_calls g call addr now writable) as [H1 [H2|(s & s0 & wait & extra & H2 & H3)]]; rewrite H1, H2; split; try done.
    apply map_Forall_insert_2; [|done]. rewrite Hc in H3. destruct (reset_ok c Hcfg s0 now wait extra) as [R1 R2 _ R4].
    destruct H3 as (E1 & E2 & E3 & E4). split; rewrite ?E1, ?E2, ?E3, ?E4; [lia|lia|apply map_Forall_empty|simpl in R4; lia].
  - split; [unfold sweepCalls; by destruct (_ <=? _)|]. unfold sweepCalls. destruct (_ <=? _); [done|]. simpl.
    intros k s Hk. apply (Hok k s). eapply lookup_weaken; [exact Hk|]. etrans; [apply shrink_all_subseteq|apply map_filter_subseteq].
  - done.
Qed.
End Reachable.

(** Whatever operations the gate performs, in whatever order and at whatever times, in every
    state it reaches the limits of every call are at most the configured caps, and what the
    call has used in its window, in total and on every band, is at most its limits. *)
Theorem gate_caps_hold ipinfo_tables ipinfo_api cymru ttl max order_cache order_calls order_prefixes c v4 v6 store cty g call s band :
  rtc (gate_step ipinfo_tables ipinfo_api cymru ttl max order_cache order_calls order_prefixes)
    (mkGate (normalizeGateConfig c) ∅ v4 v6 store cty ∅) g ->
  g_calls g !! call = Some s ->
  0 <= count_band band s <= perBandLimit s /\ perBandLimit s <= perBandCap (normalizeGateConfig c) /\
  0 <= totalCount s <= totalCap s /\ totalCap s <= totalCapPostRamp (normalizeGateConfig c).
Proof.
  intros Hreach Hs. pose proof (normalize_config_ok c) as Hcfg. set (c' := normalizeGateConfig c) in *. clearbody c'.
  assert (Hall : g_cfg g = c' /\ map_Forall (fun _ => call_ok c') (g_calls g)).
  { remember (mkGate c' ∅ v4 v6 store cty ∅) as g0 eqn:Hg0.
    assert (Hinit : g_cfg g0 = c' /\ map_Forall (fun _ => call_ok c') (g_calls g0)) by (subst g0; split; [done|apply map_Forall_empty]).
    clear Hg0 Hs. induction Hreach as [|g0 g1 g2 Hstep Hrest IH]; [done|]. apply IH. destruct Hinit. by eapply gate_step_ok. }
  destruct Hall as [_ Hall]. pose proof (Hall call s Hs) as Hok. simpl in Hok. pose proof (count_band_nonneg c' band s Hok).
  destruct Hok as [H1 H2 H3 H4]. repeat split; try lia. unfold count_band.
  destruct (perBandCounts s !! band) as [n|] eqn:Hn; simpl; [|lia]. specialize (H3 band n Hn). simpl in H3. lia.
Qed.

(** ** How often a call gets through *)

Record posting := mkPosting { po_call : string; po_band : string; po_addr : option ipaddr; po_time : Z }.

(** The spots of many calls, in the order of their arrival, with their verdicts. *)
Fixpoint check_run (g : Gate) (reqs : list posting) : list (string * bool) :=
  match reqs with
  | [] => []
  | r :: reqs =>
      let '(d, g) := Check_ g (po_call r) (po_band r) (po_addr r) (po_time r) in
      (upper_trim (po_call r), match d_drop d with None => true | Some _ => false end) :: check_run g reqs
  end.

Definition posted (call : string) (l : list (string * bool)) : Z :=
  Z.of_nat (length (filter (fun r => r.1 = call /\ r.2 = true) l)).

Lemma posted_yes call l : posted call ((call, true) :: l) = 1 + posted call l.
Proof. unfold posted. rewrite filter_cons_True by done. cbn [length]. lia. Qed.

Lemma posted_no call k b l : k <> call \/ b = false -> posted call ((k, b) :: l) = posted call l.
Proof. intros H. unfold posted. rewrite filter_cons_False; [done|]. simpl. intuition congruence. Qed.

Section Posting.
Context (c : gateConfig) (Hcfg : config_ok c) (call : string) (t0 t1 : Z) (post := totalCapPostRamp c) (W := rampWindow c).
Context (Hen : enabled c = true) (Hzero : zero_time < t0) (Hshort : t1 - t0 <= max_int64).

(** [a] spots got through up to the time [t]. *)
Definition posting_inv (a t : Z) (o : option callState) : Prop :=
  match o with
  | None => a = 0
  | Some s =>
      t0 <= windowStart s /\ (t < windowStart s -> a = 0 /\ nextAllowedAt s = windowStart s) /\
      a <= post * ((windowStart s - t0) / W) + totalCount s
  end.

Lemma posting_inv_later a t t' o : t <= t' -> posting_inv a t o -> posting_inv a t' o.
Proof. intros Ht. destruct o as [s|]; [|done]. simpl. intros (H1 & H2 & H3). split; [done|]. split; [intros; apply H2; lia|done]. Qed.

Lemma window_inv a now s :
  call_ok c s -> t0 <= now <= t1 -> posting_inv a now (Some s) -> posting_inv a now (Some (advance_window c now s)).
Proof.
  intros Hok Hn (H1 & H2 & H3). destruct Hok as [_ Hcap _ Htot]. pose proof Hcfg as (_ & Hpost & HW & _).
  unfold advance_window. assert (Hz : IsZero (windowStart s) = false) by (unfold IsZero; apply Z.eqb_neq; lia). rewrite Hz.
  destruct (_ && _) eqn:Hnew; [|by split].
  apply andb_prop in Hnew as [Hnew Hold]. apply andb_prop in Hnew as [Haft _]. unfold After in Haft. apply Z.ltb_lt in Haft. apply Z.leb_le in Hold.
  rewrite time_sub_exact in * by (unfold in_int64, min_int64; lia). rewrite Z.quot_div_nonneg by lia. fold W in Hold, HW |- *.
  set (k := (now - windowStart s) / W).
  assert (Hk : 1 <= k) by (apply Z.div_le_lower_bound; lia).
  assert (Hk2 : W * k <= now - windowStart s) by (apply Z.mul_div_le; lia). clearbody k.
  split; [simpl; nia|]. split; [simpl; nia|]. simpl.
  replace (windowStart s + k * W - t0) with (windowStart s - t0 + k * W) by lia. rewrite Z.div_add by lia. fold post in Hcap, Hpost. nia.
Qed.

(** The other two steps leave the window alone. *)
Lemma ramp_cap_frame now s :
  let s' := advance_cap c now (advance_ramp c now s) in
  windowStart s' = windowStart s /\ nextAllowedAt s' = nextAllowedAt s /\ totalCount s' = totalCount s.
Proof.
  unfold advance_cap, advance_ramp. destruct (_ && _); [destruct (ramp _ _ _ _ _)|]; destruct (IsZero _); try destruct (_ || _); done.
Qed.

Lemma checked_inv g a now :
  g_cfg g = c -> map_Forall (fun _ => call_ok c) (g_calls g) -> t0 <= now <= t1 ->
  posting_inv a now (g_calls g !! call) -> posting_inv a now (Some (checked_state g call now)).
Proof.
  intros Hc Hok Hn Hinv. unfold checked_state, advanceState. rewrite Hc.
  set (s0 := default _ (g_calls g !! call)).
  assert (H0 : call_ok c s0 /\ posting_inv a now (Some s0)).
  { unfold s0. destruct (g_calls g !! call) as [s|] eqn:Hs; simpl default.
    - split; [by apply (Hok call)|done].
    - simpl in Hinv. subst a. split; [by apply flag_ok, reset_ok|]. pose proof Hcfg as (_ & Hp & HW & Hw).
      simpl. split; [lia|]. split; [done|]. rewrite Z.add_0_r.
      assert (0 <= (now + initialWait c - t0) / W) by (apply Z.div_pos; [lia|done]). unfold post. nia. }
  clearbody s0. destruct H0 as [Hok0 Hi0].
  assert (Hw : posting_inv a now (Some (advance_window c now (touch_call now s0)))) by (apply window_inv; [by apply touch_call_ok|done..]).
  destruct (ramp_cap_frame now (advance_window c now (touch_call now s0))) as (E1 & E2 & E3).
  unfold posting_inv in *. by rewrite E1, E2, E3.
Qed.

(** What [spend] lets through is counted. *)
Lemma spend_inv a now band s :
  call_ok c s -> posting_inv a now (Some s) ->
  match (spend now band s).1 with
  | None => posting_inv (a + 1) now (Some (spend now band s).2)
  | Some _ => posting_inv a now (Some (spend now band s).2)
  end.
Proof.
  intros Hok (H1 & H2 & H3). unfold spend. destruct (Before now (nextAllowedAt s)) eqn:Hb; [by split|].
  destruct (_ && _); [by split|]. destruct (_ && _); [by split|]. unfold Before in Hb. apply Z.ltb_ge in Hb. simpl.
  split; [done|]. split; [intros Hlt; destruct (H2 Hlt); lia|lia].
Qed.

(** One spot of any call. *)
Lemma check_step g a k band addr now :
  g_cfg g = c -> map_Forall (fun _ => call_ok c) (g_calls g) -> call <> "" -> t0 <= now <= t1 -> posting_inv a now (g_calls g !! call) ->
  let r := Check_ g k band addr now in
  g_cfg r.2 = c /\ map_Forall (fun _ => call_ok c) (g_calls r.2) /\
  posting_inv (a + if decide (upper_trim k = call /\ d_drop r.1 = None) then 1 else 0) now (g_calls r.2 !! call).
Proof.
  intros Hc Hok Hne Hn Hinv r. destruct (Check_calls_ok c Hcfg g k band addr now Hc Hok) as [Hc' Hok']. do 2 (split; [done|]).
  destruct (decide (upper_trim k = call)) as [Hcall|Hother].
  - pose proof (Check_cases g k band addr now ltac:(by rewrite Hc) ltac:(by rewrite Hcall)) as [_ Hcases]. fold r in Hcases. rewrite Hcall in Hcases.
    destruct Hcases as [[Hd Hg]|[Hd Hg]].
    + rewrite decide_False by (rewrite Hd; intuition congruence). by rewrite Z.add_0_r, Hg.
    + pose proof (spend_inv a now (band_key band) _ (checked_ok c Hcfg g call now Hc Hok) (checked_inv g a now Hc Hok Hn Hinv)) as Hsp.
      rewrite Hg, lookup_insert_eq, Hd. destruct (spend _ _ _).1; [rewrite decide_False by (intuition congruence); by rewrite Z.add_0_r|by rewrite decide_True].
  - rewrite decide_False by tauto. rewrite Z.add_0_r.
    destruct (decide (upper_trim k = "")) as [He|Hk]; [unfold r, Check_; rewrite Hc, Hen, He; done|].
    destruct (Check_cases g k band addr now ltac:(by rewrite Hc) Hk) as [_ [[_ Hg]|[_ Hg]]]; fold r in Hg; rewrite Hg; [done|]. by rewrite lookup_insert_ne.
Qed.

Lemma posting_inv_bound g a t :
  map_Forall (fun _ => call_ok c) (g_calls g) -> t0 <= t <= t1 -> posting_inv a t (g_calls g !! call) -> a <= post * ((t1 - t0) / W + 1).
Proof.
  intros Hok Ht Hinv. pose proof Hcfg as (_ & Hp & HW & _). fold post W in Hp, HW. assert (0 <= (t1 - t0) / W) by (apply Z.div_pos; lia).
  destruct (g_calls g !! call) as [s|] eqn:Hs; simpl in Hinv; [|nia]. destruct Hinv as (H1 & H2 & H3).
  destruct (Z.lt_ge_cases t (windowStart s)) as [Hlt|Hge]; [destruct (H2 Hlt); nia|].
  assert ((windowStart s - t0) / W <= (t1 - t0) / W) by (apply Z.div_le_mono; lia).
  pose proof (Hok call s Hs) as [_ Hcap _ Htot]. fold post in Hcap. nia.
Qed.

Lemma check_run_bound g a t reqs :
  g_cfg g = c -> map_Forall (fun _ => call_ok c) (g_calls g) -> call <> "" ->
  StronglySorted Z.le (map po_time reqs) -> Forall (fun r => t <= po_time r /\ t0 <= po_time r <= t1) reqs -> t0 <= t <= t1 ->
  posting_inv a t (g_calls g !! call) ->
  a + posted call (check_run g reqs) <= post * ((t1 - t0) / W + 1).
Proof.
  revert g a t. induction reqs as [|r reqs IH]; intros g a t Hc Hok Hne Hsort Hin Ht Hinv.
  - change (posted call (check_run g [])) with 0. rewrite Z.add_0_r. by eapply posting_inv_bound.
  - apply StronglySorted_inv in Hsort as [Hsort Hle]. apply Forall_cons in Hin as [[Hn1 Hn2] Hin].
    assert (Hin' : Forall (fun x => po_time r <= po_time x /\ t0 <= po_time x <= t1) reqs).
    { apply list.Forall_forall. intros x Hx. split.
      - apply (proj1 (list.Forall_forall _ _) Hle). apply list_elem_of_fmap. by exists x.
      - by apply (proj1 (list.Forall_forall _ _) Hin x Hx). }
    apply (posting_inv_later a t (po_time r)) in Hinv; [|done]. simpl.
    pose proof (check_step g a (po_call r) (po_band r) (po_addr r) (po_time r) Hc Hok Hne Hn2 Hinv) as (S1 & S2 & S3).
    destruct (Check_ g (po_call r) (po_band r) (po_addr r) (po_time r)) as [d g']. simpl in S1, S2, S3.
    case_decide as Hacc.
    + destruct Hacc as [-> ->]. rewrite posted_yes, Z.add_assoc. by apply (IH g' (a + 1) (po_time r)).
    + rewrite Z.add_0_r in S3. rewrite posted_no by (destruct (decide (upper_trim (po_call r) = call)); [right|by left]; destruct (d_drop d); tauto).
      by apply (IH g' a (po_time r)).
Qed.
End Posting.

(** From the start of the gate, among the spots of any other calls, a call gets at
    most the final cap of spots through in each window that has begun since its first
    spot, unless it logs in again. *)
Theorem gate_rate_bounded c g call reqs t0 t1 :
  enabled c = true -> g_cfg g = normalizeGateConfig c -> g_calls g = ∅ -> call <> "" ->
  StronglySorted Z.le (map po_time reqs) -> Forall (fun r => t0 <= po_time r <= t1) reqs ->
  zero_time < t0 <= t1 -> t1 - t0 <= max_int64 ->
  posted call (check_run g reqs) <=
    totalCapPostRamp (normalizeGateConfig c) * ((t1 - t0) / rampWindow (normalizeGateConfig c) + 1).
Proof.
  intros Hen Hc Hempty Hne Hs Hf Ht Hshort. rewrite <- (Z.add_0_l (posted _ _)).
  apply (check_run_bound (normalizeGateConfig c) (normalize_config_ok c) call t0 t1 Hen (proj1 Ht) Hshort g 0 t0 reqs); try done.
  - rewrite Hempty. apply map_Forall_empty.
  - eapply Forall_impl; [done|]. simpl. lia.
  - lia.
  - by rewrite Hempty, lookup_empty.
Qed.

(** ** The penalties *)

(** The second source is asked only when the first has nothing. *)
Lemma lookupIP_one_source tables api cymru ttl max order c addr now m :
  let '(ip, cy, _, _, _, _) := lookupIP tables api cymru ttl max order c addr now m in
  sourced ip = false \/ sourced cy = false.
Proof.
  unfold lookupIP. destruct addr as [a|]; [|by left].
  destruct (cache_read _ _ _) as [cached m'].
  destruct (match cached with Some r => _ | None => None end) as [r|]; [by right|].
  destruct (sourced (tables a)) eqn:Ht.
  - do 3 (rewrite ?Ht; cbv beta iota zeta). by right.
  - destruct (match cymru a with Some cy => _ | None => _ end) as [cy m'']. destruct (sourced cy) eqn:Hc; cbv beta iota zeta.
    + do 3 (rewrite ?Ht, ?Hc; cbv beta iota zeta). by left.
    + destruct (sourced (api a)) eqn:Ha; do 3 (rewrite ?Ha, ?Hc; cbv beta iota zeta); by right.
Qed.

(** The penalty for sources that disagree about an address is never given: no lookup,
    cached or not, returns two results to compare. *)
Theorem sources_never_disagree tables api cymru ttl max order c addr now m :
  let '(ip, cy, _, _, _, _) := lookupIP tables api cymru ttl max order c addr now m in disagreement ip cy = false.
Proof.
  pose proof (lookupIP_one_source tables api cymru ttl max order c addr now m) as H.
  destruct (lookupIP _ _ _ _ _ _ _ _ _ _) as [[[[[ip cy] k1] k2] known] m']. unfold disagreement.
  destruct H as [-> | ->]; [done|]. by rewrite orb_true_r.
Qed.

(** A user at home looks abroad: the country of the call is compared under its name
    in the country file, that of the address under its code, so apart from the few names
    of the alias table the two always differ and the login is penalised. *)
Theorem mismatch_of_honest_country name r :
  assoc (normalizeCountryName name) countryAliasCode = None -> 2 < len (normalizeCountryName name) ->
  len (upper_trim (l_CountryCode r)) = 2 ->
  countryMismatch (countryKeyFromName name) (result_country r) = true.
Proof.
  intros Ha Hn Hc. unfold countryMismatch, countryKeyFromName, result_country, countryKeyFromCode, two_letters.
  set (n := normalizeCountryName name) in *. set (k := upper_trim (l_CountryCode r)) in *. clearbody n k.
  assert (n <> "") by (intros ->; done). assert (k <> "") by (intros ->; done). assert (n <> k) by (intros ->; lia).
  rewrite Ha, Hc, Z.eqb_refl. simpl. rewrite !(bool_decide_eq_false_2 (n = "")), !(bool_decide_eq_false_2 (k = "")) by done.
  by rewrite (bool_decide_eq_false_2 (n = k)).
Qed.

Lemma mismatch_of_honest_country_witness :
  countryKeyFromName "Slovenia" = "SLOVENIA" /\ countryKeyFromName "United States" = "US" /\
  countryMismatch (countryKeyFromName "Slovenia") (result_country (mkLookup "AS5603" "SI" "Slovenia" "EU" "ipinfo" 0)) = true.
Proof.
  split; [reflexivity|]. split; [reflexivity|].
  apply (mismatch_of_honest_country "Slovenia" (mkLookup "AS5603" "SI" "Slovenia" "EU" "ipinfo" 0)); vm_compute; reflexivity.
Defined.

(** A window that starts now has used nothing. *)
Lemma fresh_passes c now band s :
  config_ok c -> call_ok c s -> windowStart s = now -> nextAllowedAt s = now -> perBandCounts s = ∅ -> totalCount s = 0 ->
  (spend now band (advanceState c s now)).1 = None.
Proof.
  intros Hcfg Hok Hw Hn Hb Ht. pose proof (advance_ok c Hcfg now s Hok) as [H1 H2 H3 H4]. destruct Hcfg as (? & ? & ? & ?).
  assert (Hs : advanceState c s now = advance_cap c now (advance_ramp c now (advance_window c now s))) by done.
  assert (Hwin : advance_window c now s = s).
  { unfold advance_window. rewrite Hw. replace (if IsZero now then now else now) with now by (by destruct (IsZero now)).
    unfold After. rewrite Z.ltb_irrefl. simpl. destruct s. simpl in *. by subst. }
  assert (Hkeep : perBandCounts (advanceState c s now) = ∅ /\ nextAllowedAt (advanceState c s now) = now /\ totalCount (advanceState c s now) = 0).
  { rewrite Hs, Hwin. unfold advance_cap, advance_ramp.
    destruct (_ && _); [destruct (ramp _ _ _ _ _)|]; destruct (IsZero _); try destruct (_ || _); done. }
  destruct Hkeep as (K1 & K2 & K3). unfold spend, Before, count_band. rewrite K1, K2, K3, Z.ltb_irrefl, lookup_empty. simpl.
  destruct (Z.leb_spec (totalCap (advanceState c s now)) 0); [lia|]. rewrite andb_false_r.
  destruct (Z.leb_spec (perBandLimit (advanceState c s now)) 0); [lia|]. by rewrite andb_false_r.
Qed.

(** Reconnecting gives the caps back: however much a call has used, after a login from
    the network and the place its history knows its next spot passes at once. *)
Theorem login_restores_cap tables api cymru ttl max order c g st r ip cy ipKey ipCont known cache call band addr now writable :
  enabled c = true -> g_cfg g = normalizeGateConfig c -> g_store g = Some st -> rep_Load st (normalize_call call) = Loaded r ->
  lookupIP tables api cymru ttl max order (g_cfg g) addr now (g_cache g) = (ip, cy, ipKey, ipCont, known, cache) ->
  evaluateHistory (g_cfg g) (Some r) (if sourced ip then ip else cy) ipKey ipCont = (false, false) ->
  normalize_call call <> "" -> upper_trim call = normalize_call call ->
  d_drop (Check_ (RecordLogin tables api cymru ttl max order g call addr now writable) call band None now).1 = None.
Proof.
  intros Hen Hc Hst Hload Hlook Hev Hne Hsame. pose proof (normalize_config_ok c) as Hcfg.
  assert (Hdis : disagreement ip cy = false).
  { pose proof (lookupIP_one_source tables api cymru ttl max order (g_cfg g) addr now (g_cache g)) as H. rewrite Hlook in H.
    unfold disagreement. destruct H as [-> | ->]; [done|]. by rewrite orb_true_r. }
  assert (Hen' : enabled (g_cfg g) = true) by by rewrite Hc.
  set (g' := RecordLogin tables api cymru ttl max order g call addr now writable).
  assert (Hg' : g_cfg g' = g_cfg g /\ exists s, g_calls g' !! normalize_call call = Some s /\ call_ok (g_cfg g) s /\
            windowStart s = now /\ nextAllowedAt s = now /\ perBandCounts s = ∅ /\ totalCount s = 0).
  { unfold g', RecordLogin. rewrite Hen'. simpl negb. cbv iota. rewrite bool_decide_false by done. unfold gate_lookupCTY.
    set (l := match g_cty g with None => _ | Some db => _ end).
    assert (Hl : g_cfg l.2 = g_cfg g /\ g_calls l.2 = g_calls g /\ g_store l.2 = g_store g /\ g_cache l.2 = g_cache g).
    { unfold l. destruct (g_cty g) as [db|]; [|done]. destruct (LookupCallsignPortable db _) as [[i|] db']; done. }
    destruct l as [[ctyKey ctyCont] g1]. simpl in Hl. destruct Hl as (L1 & L2 & L3 & L4).
    rewrite L2, L3, L4, Hlook, Hst, Hload, Hev, Hdis, andb_false_r. cbn [orb].
    destruct (Touch _ _ _ _ _ _ _) as [updated store]. cbn [g_cfg g_calls]. split; [done|]. eexists. rewrite lookup_insert_eq. split; [reflexivity|].
    pose proof (reset_ok (g_cfg g) ltac:(by rewrite Hc) (default empty_call (g_calls g !! normalize_call call)) now 0
      (extra_delay (g_cfg g) known (countryMismatch ctyKey ipKey) false)) as [R1 R2 R3 R4].
    split; [by split|]. simpl. rewrite Z.add_0_r. done. }
  clearbody g'. destruct Hg' as [G1 (s & Hs & Hok & Hw & Hn & Hb & Ht)]. unfold Check_. rewrite G1, Hen'. cbn [negb]. cbv iota.
  rewrite Hsame, bool_decide_false by done. simpl. rewrite Hs, G1.
  pose proof (fresh_passes (g_cfg g) now (band_key band) (touch_call now s) ltac:(by rewrite Hc) ltac:(by apply touch_call_ok) Hw Hn Hb Ht) as Hpass.
  by destruct (spend _ _ _).
Qed.

(** ** Witnesses *)

(** One spot per band and two in all at first, a minute a window, no probation. *)
Definition demo_gate_config : gateConfig :=
  mkGateConfig true 0 0 1 2 2 3 0 0 0 0 false true "" 0 0 0.

Definition demo_store : repStore := mkRepStore 5 5 {[ "S53ZO" := Some (mkRepRecord ["AS5603"] ["SI"] ["EU"] 0) ]}.

Definition demo_gate : Gate := mkGate (normalizeGateConfig demo_gate_config) ∅ None None (Some demo_store) None ∅.

Definition home : ipaddr := V4 "192.0.2.1" "192.0.2.0/24".
Definition from_home (a : ipaddr) : LookupResult := mkLookup "AS5603" "SI" "Slovenia" "EU" "ipinfo" (1000 * second).

Definition demo_postings : list posting :=
  [mkPosting "S53ZO" "20m" None 0; mkPosting "s53zo" "20m" None 1; mkPosting "S53ZO" "40m" None 2; mkPosting "S53ZO" "80m" None 3;
   mkPosting "N1MM" "80m" None 4; mkPosting "S53ZO" "20m" None minute].

Lemma gate_caps_hold_witness :
  exists g s, g_calls g !! "S53ZO" = Some s /\ totalCount s = 1 /\
    0 <= count_band "20m" s <= perBandLimit s /\ perBandLimit s <= perBandCap (normalizeGateConfig demo_gate_config) /\
    0 <= totalCount s <= totalCap s /\ totalCap s <= totalCapPostRamp (normalizeGateConfig demo_gate_config).
Proof.
  set (g := (Check_ demo_gate "S53ZO" "20m" None 0).2).
  exists g. eexists. split; [vm_compute; reflexivity|]. split; [reflexivity|].
  apply (gate_caps_hold from_home from_home (fun _ => None) 0 0 (fun _ => []) (fun _ => []) (fun _ => [])
           demo_gate_config None None (Some demo_store) None g "S53ZO").
  - apply rtc_once. apply step_check.
  - vm_compute. reflexivity.
Defined.

Lemma gate_rate_bounded_witness :
  check_run demo_gate demo_postings =
    [("S53ZO", true); ("S53ZO", false); ("S53ZO", true); ("S53ZO", false); ("N1MM", true); ("S53ZO", true)] /\
  posted "S53ZO" (check_run demo_gate demo_postings) <=
    totalCapPostRamp (normalizeGateConfig demo_gate_config) * ((minute - 0) / rampWindow (normalizeGateConfig demo_gate_config) + 1).
Proof.
  split; [vm_compute; reflexivity|].
  apply (gate_rate_bounded demo_gate_config demo_gate "S53ZO" demo_postings 0 minute).
  - reflexivity.
  - reflexivity.
  - reflexivity.
  - discriminate.
  - repeat constructor; vm_compute; discriminate.
  - repeat constructor; vm_compute; discriminate.
  - split; vm_compute; [reflexivity|discriminate].
  - vm_compute. discriminate.
Defined.

Lemma login_restores_cap_witness :
  let g := (Check_ (Check_ demo_gate "S53ZO" "20m" None 0).2 "S53ZO" "40m" None 1).2 in
  d_drop (Check_ g "S53ZO" "80m" None 2).1 = Some DropTotalCap /\
  d_drop (Check_ (RecordLogin from_home from_home (fun _ => None) 0 0 (fun _ => []) g "S53ZO" (Some home) 3 true) "S53ZO" "80m" None 3).1 = None.
Proof.
  split; [vm_compute; reflexivity|].
  eapply (login_restores_cap from_home from_home (fun _ => None) 0 0 (fun _ => []) demo_gate_config _ demo_store).
  - reflexivity.
  - reflexivity.
  - reflexivity.
  - vm_compute. reflexivity.
  - vm_compute. reflexivity.
  - vm_compute. reflexivity.
  - vm_compute. discriminate.
  - vm_compute. reflexivity.
Defined.
