(* ===== verification/GoBytes.v ===== *)
(** * GoBytes: big-endian buffers, float64 bit patterns and ordered key-value stores

    What [encoding/binary] and [math.Float64bits] do, and what the storage components rely
    on of the Pebble key-value store, a library: its entries come out in the order of their
    keys, byte by byte, and writes and deletions act on one key.  The store is a class, so
    that the archive is proved against its laws; a sorted list is an instance. *)

From S2P Require Import Prelude GoText GoNum.
From Stdlib Require Import QArith Znumtheory Zpow_facts Sorted.

Local Open Scope string_scope.
Local Open Scope list_scope.
Local Open Scope Z_scope.

(** ** Big-endian buffers *)

(** [binary.BigEndian.PutUint16/32/64]: [n] bytes of [z]. *)
Fixpoint be_string (n : nat) (z : Z) : string :=
  match n with
  | O => ""
  | S k => String (byte_of ((z / 256 ^ Z.of_nat k) mod 256)) (be_string k z)
  end.

Fixpoint be_acc (acc : Z) (s : string) : Z :=
  match s with
  | "" => acc
  | String c s => be_acc (acc * 256 + byte_val c) s
  end.

(** [binary.BigEndian.Uint16/32/64] of a buffer of that length. *)
Definition be_value (s : string) : Z := be_acc 0 s.

Definition int32 (z : Z) : Z := (z + 2 ^ 31) mod 2 ^ 32 - 2 ^ 31.

(** ** Bit patterns of float64 values *)

(** Of a rational that is a float64: the significand and the exponent of its last bit. *)
Definition Float64bits (x : Q) : Z :=
  let a := Z.abs (Qnum x) in
  let d := Zpos (Qden x) in
  if a =? 0 then 0
  else
    let s := Z.max (Z.log2 a - Z.log2 d - 52) (-1074) in
    let m := if 0 <=? s then a / (d * 2 ^ s) else a * 2 ^ (- s) / d in
    (if Qnum x <? 0 then 2 ^ 63 else 0) + ((s + 1074) * 2 ^ 52 + m).

(** Infinities and NaN are no rationals: they read as 0, which is in no band either. *)
Definition Float64frombits (b : Z) : Q :=
  let r := b mod 2 ^ 63 in
  let ex := r / 2 ^ 52 in
  let m := if ex =? 0 then r mod 2 ^ 52 else 2 ^ 52 + r mod 2 ^ 52 in
  let s := Z.max ex 1 - 1075 in
  let v := if 0 <=? s then inject_Z (m * 2 ^ s) else Qred (m # Z.to_pos (2 ^ (- s))) in
  if ex =? 2047 then 0%Q else if 2 ^ 63 <=? b then (- v)%Q else v.

(** A finite pattern; negative zero is the one value that has two. *)
Definition finite_bits (b : Z) : Prop := 0 <= b < 2 ^ 64 /\ (b mod 2 ^ 63) / 2 ^ 52 <> 2047 /\ b <> 2 ^ 63.

Definition is_float64 (x : Q) : Prop := exists b, finite_bits b /\ Float64frombits b = x.

(** ** The order of keys *)

Fixpoint bytes_ltb (s t : string) : bool :=
  match s, t with
  | _, "" => false
  | "", String _ _ => true
  | String a s, String b t => (byte_val a <? byte_val b) || ((byte_val a =? byte_val b) && bytes_ltb s t)
  end.

Definition bytes_lt (s t : string) : Prop := bytes_ltb s t = true.

(** ** The store *)

Class Pebble (DB : Type) := {
  db_empty : DB;
  db_set : string -> string -> DB -> DB;
  db_delete : string -> DB -> DB;
  db_entries : DB -> list (string * string)     (* in the order of an iterator *)
}.

Class PebbleLaws (DB : Type) `{Pebble DB} := {
  entries_empty : db_entries db_empty = [];
  entries_sorted d : StronglySorted bytes_lt (map fst (db_entries d));
  entries_set d k v k' v' : (k, v) ∈ db_entries (db_set k' v' d) <-> (k = k' /\ v = v') \/ (k <> k' /\ (k, v) ∈ db_entries d);
  entries_delete d k v k' : (k, v) ∈ db_entries (db_delete k' d) <-> k <> k' /\ (k, v) ∈ db_entries d
}.

(** An iterator with bounds. *)
Definition db_range `{Pebble DB} (lower upper : string) (d : DB) : list (string * string) :=
  filter (fun e => (negb (bytes_ltb e.1 lower) && bytes_ltb e.1 upper) = true) (db_entries d).

(** A batch of writes, committed as one. *)
Inductive batch_op := BSet (k v : string) | BDelete (k : string).

Definition apply_op `{Pebble DB} (d : DB) (o : batch_op) : DB :=
  match o with BSet k v => db_set k v d | BDelete k => db_delete k d end.

Definition commit `{Pebble DB} (ops : list batch_op) (d : DB) : DB := fold_left apply_op ops d.

(** The next key after all that start with a prefix. *)
Fixpoint prefixUpperBound (prefix : string) : option string :=
  match prefix with
  | "" => None
  | String c rest =>
      match prefixUpperBound rest with
      | Some r => Some (String c r)
      | None => if byte_val c =? 255 then None else Some (String (byte_of (byte_val c + 1)) "")
      end
  end.

(** ** Facts about buffers *)

Lemma length_be_string n z : String.length (be_string n z) = n.
Proof. induction n as [|n IH]; simpl; congruence. Qed.

Lemma be_acc_app acc s t : be_acc acc (s +:+ t) = be_acc (be_acc acc s) t.
Proof. revert acc. induction s as [|c s IH]; intros acc; [done|]. rewrite sapp_cons. simpl. apply IH. Qed.

Lemma be_acc_string n z acc : be_acc acc (be_string n z) = acc * 256 ^ Z.of_nat n + z mod 256 ^ Z.of_nat n.
Proof.
  revert acc. induction n as [|n IH]; intros acc; simpl be_acc; [simpl; rewrite Z.mod_1_r; lia|].
  assert (Hpos : 0 < 256 ^ Z.of_nat n) by (apply Z.pow_pos_nonneg; lia).
  rewrite IH, byte_val_of by (apply Z.mod_pos_bound; lia). rewrite Nat2Z.inj_succ, Z.pow_succ_r by lia.
  rewrite (Z.mul_comm 256), (Z.rem_mul_r z (256 ^ Z.of_nat n) 256) by lia. lia.
Qed.

Lemma be_value_string n z : be_value (be_string n z) = z mod 256 ^ Z.of_nat n.
Proof. unfold be_value. rewrite be_acc_string. lia. Qed.

Lemma be_acc_bound s acc : 0 <= acc -> acc * 256 ^ len s <= be_acc acc s < (acc + 1) * 256 ^ len s.
Proof.
  revert acc. induction s as [|c s IH]; intros acc Ha; [unfold len; simpl; lia|].
  pose proof (byte_val_range c) as Hc. specialize (IH (acc * 256 + byte_val c) ltac:(lia)).
  unfold len in *. simpl String.length. rewrite Nat2Z.inj_succ, Z.pow_succ_r by lia. simpl be_acc.
  assert (0 < 256 ^ Z.of_nat (String.length s)) by (apply Z.pow_pos_nonneg; lia). nia.
Qed.

Lemma be_value_range s : 0 <= be_value s < 256 ^ len s.
Proof. pose proof (be_acc_bound s 0 ltac:(lia)). unfold be_value. lia. Qed.

Lemma int32_uint32 z : - 2 ^ 31 <= z < 2 ^ 31 -> int32 (z mod 2 ^ 32) = z.
Proof. intros H. unfold int32. rewrite Zplus_mod_idemp_l. rewrite Z.mod_small; lia. Qed.

Lemma int64_uint64 z : in_int64 z -> int64 (z mod 2 ^ 64) = z.
Proof. unfold in_int64, min_int64, max_int64, int64. intros H. rewrite Zplus_mod_idemp_l, Z.mod_small; lia. Qed.

Lemma int64_small z : 0 <= z < 2 ^ 63 -> int64 z = z.
Proof. intros H. apply int64_id. unfold in_int64, min_int64, max_int64. lia. Qed.

(** ** Facts about bit patterns *)

Lemma log2_shift a k : 0 < a -> 0 <= k -> Z.log2 (a * 2 ^ k) = Z.log2 a + k.
Proof. intros. rewrite Z.log2_mul_pow2 by lia. lia. Qed.

(** A reduced fraction over a power of two. *)
Lemma reduced_pow2 m k : 0 < m -> 0 <= k ->
  let q := Qred (m # Z.to_pos (2 ^ k)) in
  exists i, 0 <= i /\ m = Qnum q * 2 ^ i /\ 2 ^ k = Zpos (Qden q) * 2 ^ i.
Proof.
  intros Hm Hk q. subst q. unfold Qred. pose proof (Z.ggcd_gcd m (Zpos (Z.to_pos (2 ^ k)))) as Hg.
  pose proof (Z.ggcd_correct_divisors m (Zpos (Z.to_pos (2 ^ k)))) as Hd.
  rewrite Z2Pos.id in * by (apply Z.pow_pos_nonneg; lia).
  destruct (Z.ggcd m (2 ^ k)) as [g [a b]]. simpl in *. destruct Hd as [Ha Hb].
  assert (Hpow : 0 < 2 ^ k) by (apply Z.pow_pos_nonneg; lia). assert (Hgn : 0 <= g) by (rewrite Hg; apply Z.gcd_nonneg).
  destruct (Zdivide_power_2 g 2 k Hk Hgn prime_2) as [i Hi]; [exists b; lia|].
  assert (Hi0 : 0 <= i) by (destruct (Z.lt_ge_cases i 0); [rewrite Z.pow_neg_r in Hi by lia; nia|lia]).
  exists i. subst g. rewrite Hi in *. split; [done|]. rewrite Z2Pos.id by nia. split; lia.
Qed.

(** Significand and exponent come back. *)
Lemma bits_of_parts m s :
  0 < m -> m < 2 ^ 53 -> -1074 <= s -> (2 ^ 52 <= m \/ s = -1074) ->
  let v := if 0 <=? s then inject_Z (m * 2 ^ s) else Qred (m # Z.to_pos (2 ^ (- s))) in
  0 < Qnum v /\ Float64bits v = (s + 1074) * 2 ^ 52 + m /\ Float64bits (- v) = 2 ^ 63 + ((s + 1074) * 2 ^ 52 + m).
Proof.
  intros Hm Hm53 Hs Hnorm v.
  assert (Hlog : Z.max (Z.log2 m + s - 52) (-1074) = s).
  { assert (Z.log2 m <= 52) by (enough (Z.log2 m < 53) by lia; by apply Z.log2_lt_pow2).
    destruct Hnorm as [Hbig|]; [|lia]. assert (52 <= Z.log2 m) by (apply Z.log2_le_pow2; lia). lia. }
  assert (Hv : 0 < Qnum v /\ Z.log2 (Qnum v) - Z.log2 (Zpos (Qden v)) = Z.log2 m + s /\
               (if 0 <=? s then Qnum v / (Zpos (Qden v) * 2 ^ s) else Qnum v * 2 ^ (- s) / Zpos (Qden v)) = m).
  { subst v. destruct (Z.leb_spec 0 s) as [Hpos|Hneg].
    - simpl. assert (0 < 2 ^ s) by (apply Z.pow_pos_nonneg; lia). split; [nia|]. rewrite log2_shift by lia.
      split; [lia|]. rewrite Z.mul_1_l. apply Z.div_mul. lia.
    - destruct (reduced_pow2 m (- s) Hm ltac:(lia)) as (i & Hi & Hn & Hd).
      set (q := Qred _) in *. clearbody q. assert (0 < 2 ^ i) by (apply Z.pow_pos_nonneg; lia). assert (Hq : 0 < Qnum q) by nia.
      split; [done|]. split.
      + assert (Z.log2 m = Z.log2 (Qnum q) + i) by (rewrite Hn; by apply log2_shift).
        assert (- s = Z.log2 (Zpos (Qden q)) + i) by (rewrite <- (log2_shift _ i) by lia; rewrite <- Hd, Z.log2_pow2; lia). lia.
      + rewrite Hd. replace (Qnum q * (Zpos (Qden q) * 2 ^ i)) with (m * Zpos (Qden q)) by (rewrite Hn; ring).
        apply Z.div_mul. lia. }
  clearbody v. destruct Hv as (Hv & Hl & Hq). split; [done|].
  unfold Float64bits, Qopp. simpl Qnum. simpl Qden. rewrite Z.abs_opp, Z.abs_eq, Hl, Hlog, Hq by lia.
  destruct (Z.eqb_spec (Qnum v) 0); [lia|]. destruct (Z.ltb_spec (Qnum v) 0); [lia|]. destruct (Z.ltb_spec (- Qnum v) 0); [|lia]. lia.
Qed.

Lemma Float64bits_frombits b : finite_bits b -> Float64bits (Float64frombits b) = b.
Proof.
  intros (Hb & Hfin & Hnz). unfold Float64frombits. set (r := b mod 2 ^ 63) in *. set (ex := r / 2 ^ 52) in *.
  destruct (Z.eqb_spec ex 2047); [done|].
  assert (Hr : 0 <= r < 2 ^ 63) by (apply Z.mod_pos_bound; lia).
  assert (Hex : 0 <= ex < 2048) by (split; [apply Z.div_pos; lia|apply Z.div_lt_upper_bound; lia]).
  assert (Hf : 0 <= r mod 2 ^ 52 < 2 ^ 52) by (apply Z.mod_pos_bound; lia).
  assert (Hrr : r = 2 ^ 52 * ex + r mod 2 ^ 52) by (apply Z.div_mod; lia).
  assert (Hbr : b = (if 2 ^ 63 <=? b then 2 ^ 63 else 0) + r).
  { unfold r. destruct (Z.leb_spec (2 ^ 63) b); [|rewrite Z.mod_small; lia].
    rewrite <- (Z_mod_plus_full b (-1) (2 ^ 63)), Z.mod_small; lia. }
  set (m := if ex =? 0 then _ else _). set (s := Z.max ex 1 - 1075).
  assert (Hbits : (s + 1074) * 2 ^ 52 + m = r) by (unfold s, m; destruct (Z.eqb_spec ex 0); lia).
  destruct (decide (m = 0)) as [Hm0|Hm0].
  - assert (ex = 0 /\ r = 0) as [He Hr0] by (unfold s, m in *; destruct (Z.eqb_spec ex 0); lia).
    rewrite Hm0. assert (Hs : s = -1074) by (unfold s; rewrite He; lia). rewrite Hs. simpl.
    destruct (Z.leb_spec (2 ^ 63) b); [lia|]. rewrite Hbr, Hr0. done.
  - destruct (bits_of_parts m s) as (Hp & B1 & B2).
    + unfold m in *. destruct (ex =? 0); lia.
    + unfold m. destruct (ex =? 0); lia.
    + unfold s. lia.
    + unfold m, s. destruct (Z.eqb_spec ex 0); [right; lia|left; lia].
    + rewrite Hbits in B1, B2. destruct (2 ^ 63 <=? b); [rewrite B2|rewrite B1]; lia.
Qed.

Lemma Float64bits_range x : is_float64 x -> 0 <= Float64bits x < 2 ^ 64.
Proof. intros (b & Hb & <-). rewrite Float64bits_frombits by done. apply Hb. Qed.

Lemma Float64frombits_bits x : is_float64 x -> Float64frombits (Float64bits x) = x.
Proof. intros (b & Hb & <-). by rewrite Float64bits_frombits. Qed.

(** ** Facts about the order *)

Lemma bytes_ltb_irrefl s : bytes_ltb s s = false.
Proof. induction s as [|c s IH]; [done|]. simpl. by rewrite Z.ltb_irrefl, Z.eqb_refl, IH. Qed.

Lemma byte_val_inj a b : byte_val a = byte_val b -> a = b.
Proof. intros H. by rewrite <- (byte_of_val a), H, byte_of_val. Qed.

Lemma bytes_ltb_cons a b s t : bytes_ltb (String a s) (String b t) = true <-> byte_val a < byte_val b \/ (a = b /\ bytes_ltb s t = true).
Proof.
  simpl. rewrite orb_true_iff, andb_true_iff, Z.ltb_lt, Z.eqb_eq. split; intros [|[H1 H2]]; auto; right; split; auto; [by apply byte_val_inj|congruence].
Qed.

Lemma bytes_lt_trans s t u : bytes_lt s t -> bytes_lt t u -> bytes_lt s u.
Proof.
  unfold bytes_lt. revert t u. induction s as [|a s IH]; intros [|b t] [|c u]; try done.
  rewrite !bytes_ltb_cons. intros [H1|[-> H1]] [H2|[-> H2]]; [left; lia|by left|by left|right; split; [done|by eapply IH]].
Qed.

Lemma bytes_lt_total s t : bytes_lt s t \/ s = t \/ bytes_lt t s.
Proof.
  unfold bytes_lt. revert t. induction s as [|a s IH]; intros [|b t]; [auto|left; done|right; right; done|].
  rewrite !bytes_ltb_cons. destruct (Z.lt_total (byte_val a) (byte_val b)) as [H|[H|H]]; [auto| |auto].
  apply byte_val_inj in H as ->. destruct (IH t) as [H|[-> | H]]; auto.
Qed.

Lemma bytes_lt_ne s t : bytes_lt s t -> s <> t.
Proof. intros H ->. unfold bytes_lt in H. by rewrite bytes_ltb_irrefl in H. Qed.

Lemma bytes_lt_app_r p s t : bytes_ltb (p +:+ s) (p +:+ t) = bytes_ltb s t.
Proof. induction p as [|c p IH]; [done|]. rewrite !sapp_cons. simpl. by rewrite Z.ltb_irrefl, Z.eqb_refl, IH. Qed.

(** Fixed-width numbers are ordered as numbers. *)
Lemma bytes_lt_be n x y s t :
  0 <= x < 256 ^ Z.of_nat n -> 0 <= y < 256 ^ Z.of_nat n ->
  bytes_lt (be_string n x +:+ s) (be_string n y +:+ t) <-> x < y \/ (x = y /\ bytes_lt s t).
Proof.
  unfold bytes_lt. intros Hx Hy.
  enough (Hmod : bytes_ltb (be_string n x +:+ s) (be_string n y +:+ t) = true <->
            x mod 256 ^ Z.of_nat n < y mod 256 ^ Z.of_nat n \/ (x mod 256 ^ Z.of_nat n = y mod 256 ^ Z.of_nat n /\ bytes_ltb s t = true))
    by (rewrite !Z.mod_small in Hmod by done; exact Hmod).
  clear Hx Hy. induction n as [|n IH].
  - rewrite !Z.mod_1_r. simpl. change ("" +:+ s) with s. change ("" +:+ t) with t. intuition lia.
  - simpl be_string. rewrite !sapp_cons, bytes_ltb_cons, IH. rewrite !byte_val_of by (apply Z.mod_pos_bound; lia).
    set (p := 256 ^ Z.of_nat n) in *. assert (Hp : 0 < p) by (apply Z.pow_pos_nonneg; lia).
    assert (Hsplit : forall z, z mod 256 ^ Z.of_nat (S n) = z mod p + p * ((z / p) mod 256)).
    { intros z. rewrite Nat2Z.inj_succ, Z.pow_succ_r by lia. fold p. rewrite Z.mul_comm. apply Z.rem_mul_r; lia. }
    rewrite !Hsplit. pose proof (Z.mod_pos_bound x p Hp). pose proof (Z.mod_pos_bound y p Hp).
    pose proof (Z.mod_pos_bound (x / p) 256 ltac:(lia)). pose proof (Z.mod_pos_bound (y / p) 256 ltac:(lia)).
    set (xh := (x / p) mod 256) in *. set (yh := (y / p) mod 256) in *. set (xl := x mod p) in *. set (yl := y mod p) in *.
    clearbody xh yh xl yl p.
    assert (Hbyte : byte_of xh = byte_of yh <-> xh = yh).
    { split; [|congruence]. intros E. apply (f_equal byte_val) in E. rewrite !byte_val_of in E by lia. done. }
    rewrite Hbyte. split.
    + intros [Hlt|[-> [Hlt|[-> Hst]]]]; [left; nia|left; lia|right; auto].
    + intros [Hlt|[Heq Hst]]; [|right; assert (xh = yh) by nia; subst; split; [done|]; right; split; [lia|done]].
      destruct (Z.lt_trichotomy xh yh) as [|[-> |]]; [by left|right; split; [done|]; left; lia|nia].
Qed.

(** ** A sorted list is a store *)

Fixpoint sl_set (k v : string) (l : list (string * string)) : list (string * string) :=
  match l with
  | [] => [(k, v)]
  | (k', v') :: l => if bytes_ltb k k' then (k, v) :: (k', v') :: l else if bool_decide (k = k') then (k, v) :: l else (k', v') :: sl_set k v l
  end.

Record sorted_db := mkSortedDB { sdb_list : list (string * string); sdb_sorted : StronglySorted bytes_lt (map fst sdb_list) }.

Lemma sl_set_head k v l b : Forall (bytes_lt b) (map fst l) -> bytes_lt b k -> Forall (bytes_lt b) (map fst (sl_set k v l)).
Proof.
  induction l as [|[k' v'] l IH]; simpl; intros Hl Hk; [by repeat constructor|]. inversion Hl; subst.
  destruct (bytes_ltb k k'); [by repeat constructor|]. case_bool_decide; simpl; constructor; subst; auto.
Qed.

Lemma sl_set_sorted k v l : StronglySorted bytes_lt (map fst l) -> StronglySorted bytes_lt (map fst (sl_set k v l)).
Proof.
  induction l as [|[k' v'] l IH]; simpl; intros Hs; [repeat constructor|]. apply StronglySorted_inv in Hs as [Hs Hle].
  destruct (bytes_ltb k k') eqn:Hk; simpl.
  - constructor; [by constructor|]. constructor; [done|]. eapply Forall_impl; [done|]. simpl. intros x Hx. by eapply bytes_lt_trans.
  - case_bool_decide as Heq; simpl; constructor; subst; auto. apply sl_set_head; [done|].
    destruct (bytes_lt_total k k') as [H|[H|H]]; [by unfold bytes_lt in H; rewrite Hk in H|done|done].
Qed.

Lemma sl_set_elem k v k' v' l :
  StronglySorted bytes_lt (map fst l) -> (k, v) ∈ sl_set k' v' l <-> (k = k' /\ v = v') \/ (k <> k' /\ (k, v) ∈ l).
Proof.
  induction l as [|[k0 v0] l IH]; simpl; intros Hs.
  - rewrite list_elem_of_singleton. split; [intros [= -> ->]; auto|intros [[-> ->]|[_ H]]; [done|by apply not_elem_of_nil in H]].
  - apply StronglySorted_inv in Hs as [Hs Hle].
    assert (Hlater : forall w, (k', w) ∈ l -> bytes_lt k0 k').
    { intros w Hw. apply (proj1 (list.Forall_forall _ _) Hle). apply list_elem_of_fmap. by exists (k', w). }
    destruct (bytes_ltb k' k0) eqn:Hk.
    + rewrite !elem_of_cons. split.
      * intros [[= -> ->]|[[= -> ->]|H]]; [auto|right|right]; (split; [|auto]); intros ->.
        -- by rewrite bytes_ltb_irrefl in Hk.
        -- apply Hlater in H. pose proof (bytes_lt_trans _ _ _ Hk H) as Hc. by apply bytes_lt_ne in Hc.
      * intros [[-> ->]|[_ [H|H]]]; auto.
    + case_bool_decide as Heq.
      * subst k0. rewrite !elem_of_cons. split.
        -- intros [[= -> ->]|H]; [auto|]. right. split; [|auto]. intros ->. apply Hlater, bytes_lt_ne in H. done.
        -- intros [[-> ->]|[Hne [[= -> ->]|H]]]; [auto|done|auto].
      * rewrite !elem_of_cons, IH by done. split.
        -- intros [[= -> ->]|[[-> ->]|[Hne H]]]; [right|left|right]; auto.
        -- intros [[-> ->]|[Hne [H|H]]]; auto.
Qed.

Definition sl_delete (k : string) (l : list (string * string)) : list (string * string) := filter (fun e => e.1 <> k) l.

Lemma sorted_filter (P : string * string -> Prop) `{forall x, Decision (P x)} l :
  StronglySorted bytes_lt (map fst l) -> StronglySorted bytes_lt (map fst (filter P l)).
Proof.
  induction l as [|e l IH]; simpl; intros Hs; [constructor|]. apply StronglySorted_inv in Hs as [Hs Hle].
  rewrite filter_cons. case_decide; [|auto]. simpl. constructor; [auto|].
  apply list.Forall_forall. intros k Hk. apply list_elem_of_fmap in Hk as (x & -> & Hx). apply list_elem_of_filter in Hx as [_ Hx].
  apply (proj1 (list.Forall_forall _ _) Hle). apply list_elem_of_fmap. by exists x.
Qed.

#[global] Instance sorted_pebble : Pebble sorted_db := {
  db_empty := mkSortedDB [] (SSorted_nil _);
  db_set k v d := mkSortedDB (sl_set k v (sdb_list d)) (sl_set_sorted k v _ (sdb_sorted d));
  db_delete k d := mkSortedDB (sl_delete k (sdb_list d)) (sorted_filter (fun e => e.1 <> k) _ (sdb_sorted d));
  db_entries d := sdb_list d
}.

#[global] Instance sorted_pebble_laws : PebbleLaws sorted_db.
Proof.
  split.
  - done.
  - intros d. apply sdb_sorted.
  - intros d k v k' v'. apply sl_set_elem, sdb_sorted.
  - intros d k v k'. simpl. unfold sl_delete. rewrite list_elem_of_filter. done.
Qed.

(** ** What the laws give *)

Lemma list_filter_id {A} (P : A -> Prop) `{forall x, Decision (P x)} (l : list A) : (forall x, x ∈ l -> P x) -> filter P l = l.
Proof.
  induction l as [|x l IH]; intros Hl; [done|]. rewrite filter_cons_True by (apply Hl, elem_of_cons; by left).
  f_equal. apply IH. intros y Hy. apply Hl, elem_of_cons. by right.
Qed.

(** Sorted lists with the same entries are the same. *)
Lemma sorted_ext (l l' : list (string * string)) :
  StronglySorted bytes_lt (map fst l) -> StronglySorted bytes_lt (map fst l') -> (forall k v, (k, v) ∈ l <-> (k, v) ∈ l') -> l = l'.
Proof.
  revert l'. induction l as [|[k v] l IH]; intros [|[k' v'] l'] S1 S2 Hext.
  - done.
  - exfalso. by apply (not_elem_of_nil (k', v')), Hext, elem_of_cons; left.
  - exfalso. by apply (not_elem_of_nil (k, v)), Hext, elem_of_cons; left.
  - simpl in S1, S2. apply StronglySorted_inv in S1 as [S1 L1]. apply StronglySorted_inv in S2 as [S2 L2].
    assert (Hl : forall j w, (j, w) ∈ l -> bytes_lt k j).
    { intros j w Hj. apply (proj1 (list.Forall_forall _ _) L1). apply list_elem_of_fmap. by exists (j, w). }
    assert (Hl' : forall j w, (j, w) ∈ l' -> bytes_lt k' j).
    { intros j w Hj. apply (proj1 (list.Forall_forall _ _) L2). apply list_elem_of_fmap. by exists (j, w). }
    assert (Hhead : (k, v) = (k', v')).
    { pose proof (proj1 (Hext k v) ltac:(apply elem_of_cons; by left)) as H1. pose proof (proj2 (Hext k' v') ltac:(apply elem_of_cons; by left)) as H2.
      apply elem_of_cons in H1 as [|H1]; [done|]. apply elem_of_cons in H2 as [|H2]; [done|]. apply Hl' in H1. apply Hl in H2.
      pose proof (bytes_lt_trans _ _ _ H1 H2) as Hc. by apply bytes_lt_ne in Hc. }
    injection Hhead as -> ->. f_equal. apply IH; [done..|]. intros j w.
    pose proof (Hext j w) as He. rewrite !elem_of_cons in He. split; intros Hj.
    + destruct (proj1 He (or_intror Hj)) as [[= -> ->]|]; [|done]. apply Hl, bytes_lt_ne in Hj. done.
    + destruct (proj2 He (or_intror Hj)) as [[= -> ->]|]; [|done]. apply Hl', bytes_lt_ne in Hj. done.
Qed.

Section Laws.
Context `{PebbleLaws DB}.

Lemma entries_nodup (d : DB) : NoDup (map fst (db_entries d)).
Proof.
  pose proof (entries_sorted d) as Hs. induction Hs as [|k l Hs IH Hle]; constructor; [|done].
  intros Hin. apply (proj1 (list.Forall_forall _ _) Hle) in Hin. by apply bytes_lt_ne in Hin.
Qed.

Lemma entries_unique (d : DB) k v v' : (k, v) ∈ db_entries d -> (k, v') ∈ db_entries d -> v = v'.
Proof.
  intros H1 H2. pose proof (entries_nodup d) as Hnd. revert H1 H2. generalize dependent (db_entries d). intros l Hnd.
  induction l as [|[k0 v0] l IH]; intros H1 H2; [by apply not_elem_of_nil in H1|]. simpl in Hnd. apply NoDup_cons in Hnd as [Hni Hnd].
  assert (Hno : forall w, (k0, w) ∈ l -> False) by (intros w Hw; apply Hni, list_elem_of_fmap; by exists (k0, w)).
  apply elem_of_cons in H1 as [E1|H1]; apply elem_of_cons in H2 as [E2|H2]; simplify_eq; auto; exfalso; eauto.
Qed.

Lemma range_sorted lower upper (d : DB) : StronglySorted bytes_lt (map fst (db_range lower upper d)).
Proof. apply sorted_filter, entries_sorted. Qed.

(** Deletions of a batch. *)
Lemma commit_deletes ks (d : DB) k v : (k, v) ∈ db_entries (commit (map BDelete ks) d) <-> (k, v) ∈ db_entries d /\ k ∉ ks.
Proof.
  unfold commit. revert d. induction ks as [|k0 ks IH]; intros d; simpl; [split; [intros; split; [done|apply not_elem_of_nil]|tauto]|].
  rewrite IH, entries_delete, not_elem_of_cons. tauto.
Qed.

Lemma commit_app (a b : list batch_op) (d : DB) : commit (a ++ b) d = commit b (commit a d).
Proof. apply fold_left_app. Qed.
End Laws.
