(* ===== verification/Archive.v ===== *)
(** * Archive: the store of past spots

    [archive/archive.go]: spots are queued without blocking, written in batches under keys
    that sort by time, read back newest first for SHOW/DX, and deleted when the retention
    of their mode has passed.  The key-value store is the class of [GoBytes]; what may fail
    in it, the commit of a batch, is an argument.

    A record is read back as it was written as long as the fields fit their widths
    ([archive_roundtrip]), and one that does not makes the record unreadable ([long_text_unreadable]); the mode
    test of the cleanup reads the same field as the full decoder ([mode_test_agrees]).
    Keys sort by time, so one pass deletes exactly what has expired ([retention_exact]) and
    a listing is the newest matching part of the last records ([recent_exact]).  Within one
    run of the server no record replaces another ([archive_keeps_all]); the sequence number
    starts again with the server, so after a restart one can ([restart_overwrites]). *)

From S2P Require Import Prelude GoText GoNum GoTime GoBytes Callsign Bands Spot.
From Stdlib Require Import QArith Sorted.

Local Open Scope string_scope.
Local Open Scope list_scope.
Local Open Scope Z_scope.

(** ** Keys *)

Definition spotPrefix : string := "s|".
Definition spotKeyLen : Z := 14.
Definition spotIterUpper : string := "s}".

Definition spotKeyBytes (ts seq : Z) : string := spotPrefix +:+ be_string 8 (uint64 ts) +:+ be_string 4 seq.

Definition parseSpotKey (key : string) : option (Z * Z) :=
  if negb (len key =? spotKeyLen) || negb (HasPrefix key spotPrefix) then None
  else Some (int64 (be_value (slice key 2 8)), be_value (sdrop 10 key)).

(** [now]: the reading of the clock. *)
Definition normalizeUnixNano (now t : Z) : Z :=
  if IsZero t then int64 now
  else let ts := int64 t in if ts <? 0 then 0 else ts.

(** ** Records *)

Definition recordVersion : Z := 2.
Definition recordFixedHeaderSize : nat := 28.
Definition fieldCount : nat := 13.
Definition recordHeaderSize : nat := 54.

Definition clampUint16 (value : Z) : Z := if value <=? 0 then 0 else if 65535 <? value then 65535 else value.
Definition clampInt (value : Z) : Z := if value <? 0 then 0 else value.

(** The first of two that is not blank. *)
Definition first_text (a b : string) : string := let t := TrimSpace a in if bool_decide (t = "") then TrimSpace b else t.

(** The texts of a record in the order of the field constants. *)
Definition record_texts (s : Spot) : list string :=
  [first_text (DXCallNorm s) (DXCall s); first_text (DECallNorm s) (DECall s);
   first_text (DECallNormStripped s) (DECallStripped s); ToUpper (first_text (ModeNorm s) (Mode s)); TrimSpace (Comment s);
   TrimSpace (SourceType s); TrimSpace (SourceNode s); TrimSpace (Confidence s); first_text (BandNorm s) (Band s);
   first_text (DXGridNorm s) (Grid (DXMetadata s)); first_text (DEGridNorm s) (Grid (DEMetadata s));
   ToUpper (TrimSpace (Continent (DXMetadata s))); ToUpper (TrimSpace (Continent (DEMetadata s)))].

Definition flag (b : bool) (bit : Z) : Z := if b then bit else 0.

Definition record_flags (s : Spot) : Z :=
  Z.lor (Z.lor (Z.lor (flag (HasReport s) 1) (flag (IsHuman s) 2)) (flag (GridDerived (DXMetadata s)) 4)) (flag (GridDerived (DEMetadata s)) 8).

Definition byte_string (z : Z) : string := String (byte_of z) "".

Definition record_header (s : Spot) : string :=
  byte_string recordVersion +:+ byte_string (record_flags s) +:+ byte_string (TTL s) +:+ byte_string 0 +:+
  be_string 8 (Float64bits (Frequency s)) +:+ be_string 4 (uint32 (Report s)) +:+
  be_string 2 (clampUint16 (CQZone (DXMetadata s))) +:+ be_string 2 (clampUint16 (CQZone (DEMetadata s))) +:+
  be_string 4 (uint32 (clampInt (ADIF (DXMetadata s)))) +:+ be_string 4 (uint32 (clampInt (ADIF (DEMetadata s)))).

Fixpoint concat_strings (l : list string) : string :=
  match l with [] => "" | x :: l => x +:+ concat_strings l end.

(** Lengths are cut to 16 bits. *)
Definition length_table (texts : list string) : string := concat_strings (map (fun t => be_string 2 (uint16 (len t))) texts).

Definition encodeRecord (s : Spot) : string :=
  record_header s +:+ length_table (record_texts s) +:+ concat_strings (record_texts s).

Record archiveRecord := mkArchiveRecord {
  ar_texts : list string;            (* by field constant *)
  ar_dxGridDerived : bool;
  ar_deGridDerived : bool;
  ar_freq : Q;
  ar_report : Z;
  ar_hasReport : bool;
  ar_isHuman : bool;
  ar_ttl : Z;
  ar_dxCQZone : Z;
  ar_deCQZone : Z;
  ar_dxADIF : Z;
  ar_deADIF : Z
}.

Definition fieldDXCall := 0%nat.
Definition fieldDECall := 1%nat.
Definition fieldDECallStripped := 2%nat.
Definition fieldMode := 3%nat.
Definition fieldComment := 4%nat.
Definition fieldSource := 5%nat.
Definition fieldSourceNode := 6%nat.
Definition fieldConfidence := 7%nat.
Definition fieldBand := 8%nat.
Definition fieldDXGrid := 9%nat.
Definition fieldDEGrid := 10%nat.
Definition fieldDXCont := 11%nat.
Definition fieldDECont := 12%nat.

Definition text (r : archiveRecord) (field : nat) : string := nth field (ar_texts r) "".

Definition byte_at (raw : string) (i : nat) : Z := be_value (slice raw i 1).

(** The table of lengths. *)
Definition read_lengths (raw : string) : list nat :=
  map (fun i => Z.to_nat (be_value (slice raw (recordFixedHeaderSize + 2 * i) 2))) (seq 0 fieldCount).

(** The texts, which have to use up the data. *)
Fixpoint read_texts (lengths : list nat) (data : string) : option (list string) :=
  match lengths with
  | [] => if bool_decide (data = "") then Some [] else None
  | l :: lengths =>
      if (String.length data <? l)%nat then None
      else match read_texts lengths (sdrop l data) with
           | None => None
           | Some ts => Some (stake l data :: ts)
           end
  end.

Definition header_ok (raw : string) : bool := negb (String.length raw <? recordHeaderSize)%nat && (byte_at raw 0 =? recordVersion).

Definition decodeRecord (raw : string) : option archiveRecord :=
  if negb (header_ok raw) then None
  else
    let flags := byte_at raw 1 in
    match read_texts (read_lengths raw) (sdrop recordHeaderSize raw) with
    | None => None
    | Some texts =>
        Some (mkArchiveRecord texts (Z.testbit flags 2) (Z.testbit flags 3) (Float64frombits (be_value (slice raw 4 8)))
                (int32 (be_value (slice raw 12 4))) (Z.testbit flags 0) (Z.testbit flags 1) (byte_at raw 2)
                (be_value (slice raw 16 2)) (be_value (slice raw 18 2)) (be_value (slice raw 20 4)) (be_value (slice raw 24 4)))
    end.

(** FT8 or FT4, in any case. *)
Definition is_ft (mode : string) : bool :=
  match mode with
  | String a (String b (String c "")) =>
      let a := upper_byte a in let b := upper_byte b in let c := upper_byte c in
      Ascii.eqb a "F" && Ascii.eqb b "T" && (Ascii.eqb c "8" || Ascii.eqb c "4")
  | _ => false
  end.

Definition total_length (lengths : list nat) : nat := fold_right Nat.add 0%nat lengths.

(** Reads the lengths and the mode only; [None] is an invalid record. *)
Definition modeIsFTRecord (raw : string) : option bool :=
  if negb (header_ok raw) then None
  else
    let lengths := read_lengths raw in
    if negb (recordHeaderSize + total_length lengths =? String.length raw)%nat then None
    else
      let dataOffset := (recordHeaderSize + total_length (take fieldMode lengths))%nat in
      let modeLen := nth fieldMode lengths 0%nat in
      if (modeLen =? 0)%nat then Some false
      else if (String.length raw <? dataOffset + modeLen)%nat then None
      else Some (is_ft (slice raw dataOffset modeLen)).

Definition record_band (r : archiveRecord) : string :=
  let band := TrimSpace (text r fieldBand) in if bool_decide (band = "") then FreqToBand (ar_freq r) else band.

Definition decodeSpot (ts : Z) (raw : string) : option Spot :=
  match decodeRecord raw with
  | None => None
  | Some r =>
      Some (RefreshBeaconFlag (EnsureNormalized
        (mkSpot 0 (text r fieldDXCall) (text r fieldDECall) (ar_freq r) (record_band r) (text r fieldMode) (ar_report r) ts
           (text r fieldComment) (text r fieldSource) (text r fieldSourceNode) "" (ar_ttl r) (ar_isHuman r) false false (ar_hasReport r)
           (mkCallMetadata (text r fieldDXCont) "" (ar_dxCQZone r) (text r fieldDXGrid) (ar_dxGridDerived r) 0 (ar_dxADIF r))
           (mkCallMetadata (text r fieldDECont) "" (ar_deCQZone r) (text r fieldDEGrid) (ar_deGridDerived r) 0 (ar_deADIF r))
           (text r fieldConfidence) None "" "" "" "" "" "" "" "" "" "" 0 0 (text r fieldDECallStripped) (text r fieldDECallStripped))))
  end.

(** ** The writer *)

Record ArchiveConfig := mkArchiveConfig {
  QueueSize : Z;
  BatchSize : Z;
  CleanupBatchSize : Z;
  RetentionFTSeconds : Z;
  RetentionDefaultSeconds : Z;
  Synchronous : string
}.

Inductive write_opts := NoSync | Sync.

Definition archiveWriteOptions (synchronous : string) : option write_opts :=
  let mode := ToLower (TrimSpace synchronous) in
  if bool_decide (mode ∈ [""; "off"]) then Some NoSync
  else if bool_decide (mode ∈ ["normal"; "full"; "extra"]) then Some Sync else None.

Section Writer.
Context `{Pebble DB}.

Record Writer := mkWriter {
  w_cfg : ArchiveConfig;
  w_db : DB;
  w_queue : list Spot;
  w_batch : list Spot;        (* of the insert loop *)
  w_seq : Z;
  w_stopped : bool
}.

Definition NewWriter (cfg : ArchiveConfig) (db : DB) : option Writer :=
  match archiveWriteOptions (Synchronous cfg) with
  | None => None
  | Some _ => Some (mkWriter cfg db [] [] 0 false)
  end.

Definition queue_capacity (w : Writer) : Z := positive_else (QueueSize (w_cfg w)) 10000.
Definition batch_size (w : Writer) : Z := positive_else (BatchSize (w_cfg w)) 500.

Definition with_db (db : DB) (w : Writer) : Writer := mkWriter (w_cfg w) db (w_queue w) (w_batch w) (w_seq w) (w_stopped w).
Definition with_queue (q : list Spot) (w : Writer) : Writer := mkWriter (w_cfg w) (w_db w) q (w_batch w) (w_seq w) (w_stopped w).
Definition with_batch (b : list Spot) (w : Writer) : Writer := mkWriter (w_cfg w) (w_db w) (w_queue w) b (w_seq w) (w_stopped w).
Definition with_seq (n : Z) (w : Writer) : Writer := mkWriter (w_cfg w) (w_db w) (w_queue w) (w_batch w) n (w_stopped w).

(** A full queue drops the spot. *)
Definition Enqueue (s : Spot) (w : Writer) : Writer :=
  if w_stopped w then w
  else if Z.of_nat (length (w_queue w)) <? queue_capacity w then with_queue (w_queue w ++ [s]) w else w.

Definition nextSeq (n : Z) : Z := uint32 (n + 1).

(** The writes of a batch and the sequence number after them. *)
Fixpoint batch_writes (now n : Z) (batch : list Spot) : list batch_op * Z :=
  match batch with
  | [] => ([], n)
  | s :: batch =>
      let s := EnsureNormalized s in
      let n := nextSeq n in
      let '(ops, n') := batch_writes now n batch in
      (BSet (spotKeyBytes (normalizeUnixNano now (Time s)) n) (encodeRecord s) :: ops, n')
  end.

(** [ok n]: the commit of the batch that starts after number [n] succeeds. *)
Definition flush (now : Z) (ok : Z -> bool) (batch : list Spot) (w : Writer) : Writer :=
  match batch with
  | [] => w
  | _ => let '(ops, n) := batch_writes now (w_seq w) batch in
         if ok (w_seq w) then with_seq n (with_db (commit ops (w_db w)) w) else with_seq n w
  end.

(** A batch that is full is written. *)
Definition add_to_batch (now : Z) (ok : Z -> bool) (s : Spot) (w : Writer) : Writer :=
  let batch := w_batch w ++ [s] in
  if batch_size w <=? Z.of_nat (length batch) then with_batch [] (flush now ok batch w) else with_batch batch w.

(** The cases of the select of [insertLoop]: a spot, the timer, the stop signal. *)
Definition insert_spot (now : Z) (ok : Z -> bool) (w : Writer) : Writer :=
  match w_queue w with
  | [] => w
  | s :: q => add_to_batch now ok s (with_queue q w)
  end.

Definition insert_timer (now : Z) (ok : Z -> bool) (w : Writer) : Writer := with_batch [] (flush now ok (w_batch w) w).

Fixpoint drain (now : Z) (ok : Z -> bool) (q : list Spot) (w : Writer) : Writer :=
  match q with
  | [] => w
  | s :: q => drain now ok q (add_to_batch now ok s w)
  end.

Definition drainQueue (now : Z) (ok : Z -> bool) (w : Writer) : Writer := drain now ok (w_queue w) (with_queue [] w).

Definition insert_stop (now : Z) (ok : Z -> bool) (w : Writer) : Writer :=
  let w := drainQueue now ok (mkWriter (w_cfg w) (w_db w) (w_queue w) (w_batch w) (w_seq w) true) in
  insert_timer now ok w.

(** ** Retention *)

Definition retentionCutoff (now seconds : Z) : Z := if seconds <=? 0 then min_int64 else int64 (now - int64 (seconds * second)).

Definition cleanup_batch_size (w : Writer) : Z := Z.min (positive_else (CleanupBatchSize (w_cfg w)) 2000) 10000.

(** Whether a record before the last cutoff is deleted. *)
Definition expired_record (cutoffFT cutoffDefault ts : Z) (raw : string) : bool :=
  match modeIsFTRecord raw with
  | None => true
  | Some isFT => ts <? (if isFT && negb (cutoffFT =? cutoffDefault) then cutoffFT else cutoffDefault)
  end.

(** The pass over the entries of the iterator, with the keys [pending] for the next commit;
    commit number [i] succeeds when [ok i]. *)
Fixpoint cleanup_pass (cutoffFT cutoffDefault size : Z) (ok : nat -> bool) (i : nat) (entries : list (string * string)) (pending : list string) (db : DB) : DB :=
  match entries with
  | [] => if ok i then commit (map BDelete pending) db else db
  | (key, raw) :: entries =>
      match parseSpotKey key with
      | None => cleanup_pass cutoffFT cutoffDefault size ok i entries pending db
      | Some (ts, _) =>
          if Z.max cutoffFT cutoffDefault <=? ts then if ok i then commit (map BDelete pending) db else db
          else if negb (expired_record cutoffFT cutoffDefault ts raw) then cleanup_pass cutoffFT cutoffDefault size ok i entries pending db
          else
            let pending := pending ++ [key] in
            if size <=? Z.of_nat (length pending) then
              if ok i then cleanup_pass cutoffFT cutoffDefault size ok (S i) entries [] (commit (map BDelete pending) db) else db
            else cleanup_pass cutoffFT cutoffDefault size ok i entries pending db
      end
  end.

Definition spot_range (db : DB) : list (string * string) := db_range spotPrefix spotIterUpper db.

(** [now]: the clock in nanoseconds. *)
Definition cleanupOnce (now : Z) (ok : nat -> bool) (w : Writer) : Writer :=
  with_db (cleanup_pass (retentionCutoff now (RetentionFTSeconds (w_cfg w))) (retentionCutoff now (RetentionDefaultSeconds (w_cfg w)))
             (cleanup_batch_size w) ok 0 (spot_range (w_db w)) [] (w_db w)) w.

(** ** Listings *)

Definition recentScanMax : Z := 200000.

Definition initial_scan (limit : Z) : Z :=
  let n := int64 (limit * 20) in
  let n := if n <? limit then limit else n in
  if recentScanMax <? n then recentScanMax else n.

Definition grow_scan (n : Z) : Z :=
  if Z.quot recentScanMax 4 <? n then recentScanMax
  else let n := n * 4 in if recentScanMax <? n then recentScanMax else n.

(** The entries from the last one on. *)
Fixpoint recent_scan (want : Spot -> bool) (limit : nat) (scanned scanLimit : Z) (entries : list (string * string)) : list Spot :=
  match limit, entries with
  | O, _ | _, [] => []
  | S more, (key, raw) :: rest =>
      if (scanLimit <=? scanned) && (recentScanMax <=? scanLimit) then []
      else
        let scanLimit := if scanLimit <=? scanned then grow_scan scanLimit else scanLimit in
        match match parseSpotKey key with Some (ts, _) => decodeSpot ts raw | None => None end with
        | Some s => if want s then s :: recent_scan want more (scanned + 1) scanLimit rest
                    else recent_scan want limit (scanned + 1) scanLimit rest
        | None => recent_scan want limit (scanned + 1) scanLimit rest
        end
  end.

Definition RecentFiltered (limit : Z) (want : Spot -> bool) (w : Writer) : list Spot :=
  if limit <=? 0 then [] else recent_scan want (Z.to_nat limit) 0 (initial_scan limit) (rev (spot_range (w_db w))).

Definition Recent (limit : Z) (w : Writer) : list Spot := RecentFiltered limit (fun _ => true) w.
End Writer.
Arguments Writer DB : clear implicits.

(** ** Keys sort by time *)

Lemma length_spotKey ts n : String.length (spotKeyBytes ts n) = 14%nat.
Proof. reflexivity. Qed.

Lemma parse_spotKey ts n : 0 <= ts < 2 ^ 63 -> 0 <= n < 2 ^ 32 -> parseSpotKey (spotKeyBytes ts n) = Some (ts, n).
Proof.
  intros Hts Hn. assert (H1 : slice (spotKeyBytes ts n) 2 8 = be_string 8 (uint64 ts)) by reflexivity.
  assert (H2 : sdrop 10 (spotKeyBytes ts n) = be_string 4 n) by reflexivity.
  unfold parseSpotKey. rewrite H1, H2, !be_value_string. unfold uint64. simpl (256 ^ _).
  change (18446744073709551616) with (2 ^ 64). change 4294967296 with (2 ^ 32).
  rewrite Zmod_mod, int64_uint64 by (unfold in_int64, min_int64, max_int64; lia). by rewrite (Z.mod_small n) by done.
Qed.

Lemma spotKey_lt ts n ts' n' :
  0 <= ts < 2 ^ 63 -> 0 <= ts' < 2 ^ 63 -> 0 <= n < 2 ^ 32 -> 0 <= n' < 2 ^ 32 ->
  bytes_lt (spotKeyBytes ts n) (spotKeyBytes ts' n') <-> ts < ts' \/ (ts = ts' /\ n < n').
Proof.
  intros H1 H2 H3 H4. unfold bytes_lt at 1, spotKeyBytes. rewrite bytes_lt_app_r. fold (bytes_lt (be_string 8 (uint64 ts) +:+ be_string 4 n) (be_string 8 (uint64 ts') +:+ be_string 4 n')).
  rewrite (bytes_lt_be 8) by (simpl; unfold uint64; apply Z.mod_pos_bound; lia). unfold uint64. rewrite !Z.mod_small by lia.
  pose proof (bytes_lt_be 4 n n' "" "" H3 H4) as Hn. rewrite !sapp_nil_r in Hn. rewrite Hn. unfold bytes_lt. simpl. intuition congruence.
Qed.

Lemma spotKey_inj ts n ts' n' :
  0 <= ts < 2 ^ 63 -> 0 <= ts' < 2 ^ 63 -> 0 <= n < 2 ^ 32 -> 0 <= n' < 2 ^ 32 ->
  spotKeyBytes ts n = spotKeyBytes ts' n' -> ts = ts' /\ n = n'.
Proof. intros H1 H2 H3 H4 E. pose proof (parse_spotKey ts n H1 H3) as P. rewrite E, parse_spotKey in P by done. by injection P. Qed.

(** Keys of spots are within the bounds of the iterator. *)
Lemma spotKey_in_range ts n : negb (bytes_ltb (spotKeyBytes ts n) spotPrefix) && bytes_ltb (spotKeyBytes ts n) spotIterUpper = true.
Proof. reflexivity. Qed.

Lemma normalizeUnixNano_range now t : 0 <= now < 2 ^ 63 -> 0 <= normalizeUnixNano now t < 2 ^ 63.
Proof.
  intros Hn. unfold normalizeUnixNano. destruct (IsZero t); [rewrite int64_small; lia|].
  pose proof (int64_range t) as Hr. unfold in_int64, max_int64 in Hr. destruct (Z.ltb_spec (int64 t) 0); lia.
Qed.

(** ** Records are read back *)

(** What is expected of a record. *)
Definition record_of (s : Spot) : archiveRecord :=
  mkArchiveRecord (record_texts s) (GridDerived (DXMetadata s)) (GridDerived (DEMetadata s)) (Frequency s) (Report s) (HasReport s)
    (IsHuman s) (TTL s) (clampUint16 (CQZone (DXMetadata s))) (clampUint16 (CQZone (DEMetadata s)))
    (clampInt (ADIF (DXMetadata s))) (clampInt (ADIF (DEMetadata s))).

(** The values fit their widths. *)
Record archivable (s : Spot) : Prop := mkArchivable {
  fits_texts : Forall (fun t => len t < 2 ^ 16) (record_texts s);
  fits_freq : is_float64 (Frequency s);
  fits_report : - 2 ^ 31 <= Report s < 2 ^ 31;
  fits_ttl : 0 <= TTL s < 2 ^ 8;
  fits_adif : ADIF (DXMetadata s) < 2 ^ 32 /\ ADIF (DEMetadata s) < 2 ^ 32
}.

Lemma read_texts_concat texts : read_texts (map String.length texts) (concat_strings texts) = Some texts.
Proof.
  induction texts as [|t texts IH]; [done|]. simpl. rewrite length_sapp.
  replace (_ <? _)%nat with false by (symmetry; apply Nat.ltb_ge; lia). by rewrite sdrop_app_length, IH, stake_app_length.
Qed.

(** Texts that use up the data exactly. *)
Lemma read_texts_spec lengths data texts :
  read_texts lengths data = Some texts <-> total_length lengths = String.length data /\ map String.length texts = lengths /\ concat_strings texts = data.
Proof.
  revert data texts. induction lengths as [|l ls IH]; intros data texts; simpl.
  - case_bool_decide as Hd.
    + subst data. split; [by intros [= <-]|]. intros (_ & Hm & _). destruct texts; done.
    + split; [done|]. intros (Ht & _ & _). destruct data; done.
  - destruct (Nat.ltb_spec (String.length data) l) as [Hlt|Hge].
    + split; [done|]. intros (Ht & Hm & Hc). lia.
    + pose proof (length_sdrop l data) as Hld. destruct (read_texts ls (sdrop l data)) as [ts|] eqn:Hr.
      * apply IH in Hr as (H1 & H2 & H3). split.
        -- intros [= <-]. simpl. rewrite H2, H3, stake_sdrop, length_stake. split; [lia|]. split; [f_equal; lia|done].
        -- intros (_ & Hm & Hc). destruct texts as [|t ts']; [done|]. simpl in Hm, Hc. injection Hm as <- Hm. subst data.
           rewrite stake_app_length. f_equal. f_equal. rewrite sdrop_app_length in H3.
           assert (Hu : read_texts ls (concat_strings ts') = Some ts') by (rewrite <- Hm; apply read_texts_concat).
           assert (Hu2 : read_texts ls (concat_strings ts') = Some ts) by (rewrite <- H3, <- H2; apply read_texts_concat). congruence.
      * split; [done|]. intros (Ht & Hm & Hc). destruct texts as [|t ts']; [done|]. simpl in Hm, Hc. injection Hm as <- Hm. subst data.
        rewrite sdrop_app_length in Hr. rewrite <- Hm, read_texts_concat in Hr. done.
Qed.

(** The layout of a record of thirteen texts. *)
Lemma layout c0 c1 c2 c3 freq rep z1 z2 a1 a2 t0 t1 t2 t3 t4 t5 t6 t7 t8 t9 t10 t11 t12 :
  let texts := [t0; t1; t2; t3; t4; t5; t6; t7; t8; t9; t10; t11; t12] in
  let raw := (String c0 "" +:+ String c1 "" +:+ String c2 "" +:+ String c3 "" +:+ be_string 8 freq +:+ be_string 4 rep +:+
              be_string 2 z1 +:+ be_string 2 z2 +:+ be_string 4 a1 +:+ be_string 4 a2) +:+ length_table texts +:+ concat_strings texts in
  (String.length raw <? recordHeaderSize)%nat = false /\
  (slice raw 0 1 = String c0 "" /\ slice raw 1 1 = String c1 "" /\ slice raw 2 1 = String c2 "") /\
  (slice raw 4 8 = be_string 8 freq /\ slice raw 12 4 = be_string 4 rep /\ slice raw 16 2 = be_string 2 z1 /\ slice raw 18 2 = be_string 2 z2) /\
  (slice raw 20 4 = be_string 4 a1 /\ slice raw 24 4 = be_string 4 a2) /\
  read_lengths raw = map (fun t => Z.to_nat (be_value (be_string 2 (uint16 (len t))))) texts /\
  sdrop recordHeaderSize raw = concat_strings texts.
Proof.
  intros texts raw. split; [reflexivity|]. split; [repeat split; reflexivity|]. split; [repeat split; reflexivity|].
  split; [repeat split; reflexivity|]. split; reflexivity.
Qed.

Lemma stored_length t : len t < 2 ^ 16 -> Z.to_nat (be_value (be_string 2 (uint16 (len t)))) = String.length t.
Proof.
  intros H. rewrite be_value_string. unfold uint16, len in *. change (256 ^ Z.of_nat 2) with (2 ^ 16).
  rewrite Zmod_mod, Z.mod_small by lia. lia.
Qed.

Lemma record_flags_bits s :
  byte_val (byte_of (record_flags s)) = record_flags s /\
  Z.testbit (record_flags s) 0 = HasReport s /\ Z.testbit (record_flags s) 1 = IsHuman s /\
  Z.testbit (record_flags s) 2 = GridDerived (DXMetadata s) /\ Z.testbit (record_flags s) 3 = GridDerived (DEMetadata s).
Proof.
  unfold record_flags. destruct (HasReport s), (IsHuman s), (GridDerived (DXMetadata s)), (GridDerived (DEMetadata s)); repeat split.
Qed.

(** The same for any list of thirteen. *)
Lemma layout_list c0 c1 c2 c3 freq rep z1 z2 a1 a2 texts :
  length texts = fieldCount ->
  let raw := (String c0 "" +:+ String c1 "" +:+ String c2 "" +:+ String c3 "" +:+ be_string 8 freq +:+ be_string 4 rep +:+
              be_string 2 z1 +:+ be_string 2 z2 +:+ be_string 4 a1 +:+ be_string 4 a2) +:+ length_table texts +:+ concat_strings texts in
  (String.length raw <? recordHeaderSize)%nat = false /\
  (slice raw 0 1 = String c0 "" /\ slice raw 1 1 = String c1 "" /\ slice raw 2 1 = String c2 "") /\
  (slice raw 4 8 = be_string 8 freq /\ slice raw 12 4 = be_string 4 rep /\ slice raw 16 2 = be_string 2 z1 /\ slice raw 18 2 = be_string 2 z2) /\
  (slice raw 20 4 = be_string 4 a1 /\ slice raw 24 4 = be_string 4 a2) /\
  read_lengths raw = map (fun t => Z.to_nat (be_value (be_string 2 (uint16 (len t))))) texts /\
  sdrop recordHeaderSize raw = concat_strings texts.
Proof.
  intros Hn. do 13 (destruct texts as [|? texts]; [done|]). destruct texts; [|done]. apply layout.
Qed.

Lemma clamp_mod z : z < 2 ^ 32 -> clampInt z mod 2 ^ 32 mod 2 ^ 32 = clampInt z.
Proof. intros H. unfold clampInt. destruct (Z.ltb_spec z 0); rewrite Zmod_mod, Z.mod_small; lia. Qed.

Lemma clampUint16_mod z : clampUint16 z mod 2 ^ 16 = clampUint16 z.
Proof. unfold clampUint16. destruct (Z.leb_spec z 0); [done|]. destruct (Z.ltb_spec 65535 z); [done|]. apply Z.mod_small. lia. Qed.

Lemma decode_encode s : archivable s -> decodeRecord (encodeRecord s) = Some (record_of s).
Proof.
  intros [Htexts Hfreq Hrep Httl [Hdx Hde]]. unfold encodeRecord, record_header, byte_string, decodeRecord, header_ok, byte_at.
  pose proof (layout_list (byte_of recordVersion) (byte_of (record_flags s)) (byte_of (TTL s)) (byte_of 0) (Float64bits (Frequency s)) (uint32 (Report s))
    (clampUint16 (CQZone (DXMetadata s))) (clampUint16 (CQZone (DEMetadata s))) (uint32 (clampInt (ADIF (DXMetadata s)))) (uint32 (clampInt (ADIF (DEMetadata s))))
    (record_texts s) eq_refl) as L. cbv zeta in L.
  set (raw := _ +:+ length_table _ +:+ _) in *. clearbody raw.
  destruct L as (L0 & (L1 & L2 & L3) & (L4 & L5 & L6 & L7) & (L8 & L9) & L10 & L11).
  rewrite L0, L1, L2, L3, L4, L5, L6, L7, L8, L9, L10, L11.
  assert (Hlen : map (fun t => Z.to_nat (be_value (be_string 2 (uint16 (len t))))) (record_texts s) = map String.length (record_texts s)).
  { apply map_ext_in. intros t Ht. apply stored_length. apply (proj1 (List.Forall_forall _ _) Htexts t Ht). }
  rewrite Hlen, read_texts_concat, !be_value_string.
  assert (Hbyte : forall b, 0 <= b < 256 -> be_value (String (byte_of b) "") = b) by (intros b Hb; unfold be_value; simpl; rewrite byte_val_of; lia).
  destruct (record_flags_bits s) as (F & F0 & F1 & F2 & F3).
  assert (Hf : be_value (String (byte_of (record_flags s)) "") = record_flags s) by (unfold be_value; simpl; rewrite F; lia).
  rewrite (Hbyte (TTL s)), Hf, F0, F1, F2, F3 by lia. rewrite (Hbyte recordVersion) by (unfold recordVersion; lia). simpl (negb _).
  cbv iota. unfold record_of, uint32. change (256 ^ Z.of_nat 8) with (2 ^ 64). change (256 ^ Z.of_nat 4) with (2 ^ 32). change (256 ^ Z.of_nat 2) with (2 ^ 16).
  rewrite (Z.mod_small (Float64bits _)) by (by apply Float64bits_range). rewrite Float64frombits_bits by done.
  rewrite Zmod_mod, int32_uint32, !clampUint16_mod, !clamp_mod by done. done.
Qed.

(** ** The mode test of the cleanup *)

Lemma texts_at texts i :
  (i < length texts)%nat ->
  nth i texts "" = slice (concat_strings texts) (total_length (take i (map String.length texts))) (nth i (map String.length texts) 0%nat).
Proof.
  revert i. induction texts as [|t texts IH]; intros [|i] Hi; cbn [length] in Hi; [lia|lia| |].
  - exact (eq_sym (stake_app_length t (concat_strings texts))).
  - simpl. rewrite IH by lia. unfold slice. f_equal. rewrite sdrop_app_ge by lia. f_equal. lia.
Qed.

Lemma slice_sdrop raw k i n : slice (sdrop k raw) i n = slice raw (k + i) n.
Proof. unfold slice. by rewrite sdrop_add. Qed.

Lemma is_ft_empty : is_ft "" = false. Proof. done. Qed.

Lemma mode_test raw :
  modeIsFTRecord raw = match decodeRecord raw with None => None | Some r => Some (is_ft (text r fieldMode)) end.
Proof.
  unfold modeIsFTRecord, decodeRecord, text. destruct (header_ok raw) eqn:Hok; [|done]. cbn [negb]. cbv iota.
  assert (Hsize : (recordHeaderSize <= String.length raw)%nat).
  { unfold header_ok in Hok. apply andb_prop in Hok as [H _]. apply negb_true_iff, Nat.ltb_ge in H. done. }
  assert (Hn : length (read_lengths raw) = 13%nat) by reflexivity.
  set (lengths := read_lengths raw) in *. clearbody lengths. pose proof (length_sdrop recordHeaderSize raw) as Hd.
  destruct (Nat.eqb_spec (recordHeaderSize + total_length lengths) (String.length raw)) as [Ht|Ht]; cbn [negb]; cbv iota.
  - destruct (read_texts lengths (sdrop recordHeaderSize raw)) as [texts|] eqn:Hr.
    + apply read_texts_spec in Hr as (_ & Hl & Hc). cbn [ar_texts].
      assert (H3 : (fieldMode < length texts)%nat) by (rewrite <- Hl, length_map in Hn; unfold fieldMode; lia).
      rewrite (texts_at texts fieldMode H3), Hl, Hc, slice_sdrop.
      destruct (Nat.eqb_spec (nth fieldMode lengths 0%nat) 0) as [-> |Hne].
      * unfold slice. destruct (sdrop _ raw); done.
      * assert (Hle : (total_length (take fieldMode lengths) + nth fieldMode lengths 0 <= total_length lengths)%nat).
        { clear - Hn. unfold fieldMode. do 4 (destruct lengths as [|? lengths]; [done|]). simpl. lia. }
        replace (_ <? _)%nat with false; [done|]. symmetry. apply Nat.ltb_ge. lia.
    + exfalso. assert (Hex : exists ts, read_texts lengths (sdrop recordHeaderSize raw) = Some ts); [|destruct Hex; congruence].
      assert (Hx : total_length lengths = String.length (sdrop recordHeaderSize raw)) by lia. revert Hx. clear. generalize (sdrop recordHeaderSize raw).
      induction lengths as [|l ls IH]; intros data Hx; simpl in *; [destruct data; [by exists []|done]|].
      destruct (Nat.ltb_spec (String.length data) l); [lia|].
      destruct (IH (sdrop l data)) as [ts ->]; [rewrite length_sdrop; lia|]. eauto.
  - destruct (read_texts lengths (sdrop recordHeaderSize raw)) as [texts|] eqn:Hr; [|done].
    apply read_texts_spec in Hr as (H1 & _). lia.
Qed.

(** The shortcut of the cleanup, which reads the length table and the mode only,
    accepts exactly the records the full decoder accepts and finds the mode it finds. *)
Theorem mode_test_agrees raw :
  modeIsFTRecord raw = match decodeRecord raw with None => None | Some r => Some (is_ft (text r fieldMode)) end.
Proof. apply mode_test. Qed.

(** ** Spots are read back *)

Lemma spot_fields_kept s :
  let s' := RefreshBeaconFlag (EnsureNormalized s) in
  (DXCall s' = DXCall s /\ DECall s' = DECall s /\ Frequency s' = Frequency s /\ Mode s' = Mode s /\ Band s' = Band s) /\
  (Report s' = Report s /\ HasReport s' = HasReport s /\ Time s' = Time s /\ Comment s' = Comment s /\ Confidence s' = Confidence s) /\
  (SourceType s' = SourceType s /\ SourceNode s' = SourceNode s /\ TTL s' = TTL s /\ IsHuman s' = IsHuman s) /\
  DXMetadata s' = DXMetadata s /\ DEMetadata s' = DEMetadata s /\ DECallStripped s' = DECallStripped s.
Proof. unfold RefreshBeaconFlag. destruct (nonempty _); repeat split; reflexivity. Qed.

(** C25: A spot whose values fit their widths is read back from the archive with its
    normalised calls, mode and band, its frequency and report, its trimmed comment and
    confidence, where it came from, and grids, zones and entities of both stations. *)
Theorem archive_roundtrip s ts :
  archivable s ->
  exists s', decodeSpot ts (encodeRecord s) = Some s' /\
    (DXCall s' = first_text (DXCallNorm s) (DXCall s) /\ DECall s' = first_text (DECallNorm s) (DECall s) /\
     Mode s' = ToUpper (first_text (ModeNorm s) (Mode s)) /\ Frequency s' = Frequency s /\ Time s' = ts) /\
    (first_text (BandNorm s) (Band s) <> "" -> Band s' = first_text (BandNorm s) (Band s)) /\
    (Report s' = Report s /\ HasReport s' = HasReport s /\ Comment s' = TrimSpace (Comment s) /\ Confidence s' = TrimSpace (Confidence s)) /\
    (SourceType s' = TrimSpace (SourceType s) /\ SourceNode s' = TrimSpace (SourceNode s) /\ TTL s' = TTL s /\ IsHuman s' = IsHuman s) /\
    (Grid (DXMetadata s') = first_text (DXGridNorm s) (Grid (DXMetadata s)) /\ GridDerived (DXMetadata s') = GridDerived (DXMetadata s) /\
     CQZone (DXMetadata s') = clampUint16 (CQZone (DXMetadata s)) /\ ADIF (DXMetadata s') = clampInt (ADIF (DXMetadata s))) /\
    (Grid (DEMetadata s') = first_text (DEGridNorm s) (Grid (DEMetadata s)) /\ GridDerived (DEMetadata s') = GridDerived (DEMetadata s) /\
     CQZone (DEMetadata s') = clampUint16 (CQZone (DEMetadata s)) /\ ADIF (DEMetadata s') = clampInt (ADIF (DEMetadata s))).
Proof.
  intros Ha. unfold decodeSpot. rewrite (decode_encode s Ha). eexists. split; [reflexivity|].
  match goal with |- context [RefreshBeaconFlag (EnsureNormalized ?x)] => pose proof (spot_fields_kept x) as K; set (s' := RefreshBeaconFlag (EnsureNormalized x)) in * end.
  clearbody s'. cbv zeta in K. destruct K as ((K1 & K2 & K3 & K4 & K5) & (K6 & K7 & K8 & K9 & K10) & (K11 & K12 & K13 & K14) & K15 & K16 & K17).
  rewrite K1, K2, K3, K4, K5, K6, K7, K8, K9, K10, K11, K12, K13, K14, K15, K16. split; [done|]. split; [|done].
  cbn [Band]. unfold record_band, text. cbn [ar_texts record_of record_texts nth fieldBand].
  assert (Htrim : TrimSpace (first_text (BandNorm s) (Band s)) = first_text (BandNorm s) (Band s)).
  { unfold first_text. case_bool_decide; apply TrimSpace_idemp. }
  intros Hne. rewrite Htrim, bool_decide_false by done. done.
Qed.

(** ** Retention *)

Section Retention.
Context `{PebbleLaws DB}.

(** Only keys of spots, none from before 1970. *)
Definition spot_key (k : string) : Prop := exists ts n, 0 <= ts < 2 ^ 63 /\ 0 <= n < 2 ^ 32 /\ k = spotKeyBytes ts n.

Definition archive_ok (d : DB) : Prop := Forall (fun e => spot_key e.1) (db_entries d).

Lemma spot_range_all d : archive_ok d -> spot_range d = db_entries d.
Proof.
  unfold archive_ok, spot_range, db_range. intros Hok. apply list_filter_id. intros e He.
  apply (proj1 (list.Forall_forall _ _) Hok) in He as (ts & n & _ & _ & ->). apply spotKey_in_range.
Qed.

(** What the retention says of a record, in terms of the full decoder. *)
Definition live (cutoffFT cutoffDefault ts : Z) (raw : string) : bool :=
  match decodeRecord raw with
  | None => Z.max cutoffFT cutoffDefault <=? ts
  | Some r => (if is_ft (text r fieldMode) then cutoffFT else cutoffDefault) <=? ts
  end.

Definition live_entry (cutoffFT cutoffDefault : Z) (e : string * string) : bool :=
  match parseSpotKey e.1 with None => true | Some (ts, _) => live cutoffFT cutoffDefault ts e.2 end.

Section Pass.
Context (cF cD size : Z).

Lemma expired_live ts raw : ts < Z.max cF cD -> expired_record cF cD ts raw = negb (live cF cD ts raw).
Proof.
  intros Hts. unfold expired_record, live. rewrite mode_test. destruct (decodeRecord raw) as [r|].
  - rewrite <- Z.ltb_antisym. destruct (is_ft _); simpl; [|done]. destruct (Z.eqb_spec cF cD) as [-> |]; done.
  - rewrite <- Z.ltb_antisym. symmetry. apply Z.ltb_lt. done.
Qed.

Lemma live_late ts raw : Z.max cF cD <= ts -> live cF cD ts raw = true.
Proof. intros Hts. unfold live. destruct (decodeRecord raw) as [r|]; [destruct (is_ft _)|]; apply Z.leb_le; lia. Qed.

(** Whatever commits fail, only what has expired goes. *)
Lemma pass_sound ok i entries pending (db : DB) k v :
  let db' := cleanup_pass cF cD size ok i entries pending db in
  ((k, v) ∈ db_entries db' -> (k, v) ∈ db_entries db) /\
  ((k, v) ∈ db_entries db -> (k, v) ∈ db_entries db' \/ k ∈ pending \/ exists raw, (k, raw) ∈ entries /\ live_entry cF cD (k, raw) = false).
Proof.
  assert (Hcommit : forall (b : bool) ks (d : DB),
    ((k, v) ∈ db_entries (if b then commit (map BDelete ks) d else d) -> (k, v) ∈ db_entries d) /\
    ((k, v) ∈ db_entries d -> (k, v) ∈ db_entries (if b then commit (map BDelete ks) d else d) \/ k ∈ ks)).
  { intros [] ks d; [rewrite commit_deletes|tauto]. split; [tauto|]. destruct (decide (k ∈ ks)); tauto. }
  revert i pending db. induction entries as [|[key raw] entries IH]; intros i pending db; simpl.
  - destruct (Hcommit (ok i) pending db); tauto.
  - assert (Hskip : forall i pending (db : DB), (forall x, x = cleanup_pass cF cD size ok i entries pending db ->
        ((k, v) ∈ db_entries x -> (k, v) ∈ db_entries db) /\
        ((k, v) ∈ db_entries db -> (k, v) ∈ db_entries x \/ k ∈ pending \/ exists raw0, (k, raw0) ∈ (key, raw) :: entries /\ live_entry cF cD (k, raw0) = false))).
    { intros i' p' d' x ->. destruct (IH i' p' d') as [I1 I2]. split; [done|]. intros Hin. destruct (I2 Hin) as [|[|(r & Hr & Hl)]]; [auto..|].
      right; right. exists r. split; [by apply elem_of_cons; right|done]. }
    destruct (parseSpotKey key) as [[ts n]|] eqn:Hp; [|exact (Hskip i pending db _ eq_refl)].
    destruct (Z.leb_spec (Z.max cF cD) ts) as [Hlate|Hearly]; [destruct (Hcommit (ok i) pending db); tauto|].
    rewrite (expired_live ts raw Hearly), negb_involutive. destruct (live cF cD ts raw) eqn:Hlive; [exact (Hskip i pending db _ eq_refl)|].
    assert (Hdead : live_entry cF cD (key, raw) = false) by (unfold live_entry; simpl; by rewrite Hp).
    assert (Hpend : k ∈ pending ++ [key] -> k ∈ pending \/ exists raw0, (k, raw0) ∈ (key, raw) :: entries /\ live_entry cF cD (k, raw0) = false).
    { intros Hin. apply elem_of_app in Hin as [|Hin]; [by left|]. apply list_elem_of_singleton in Hin as ->. right. exists raw. split; [by apply elem_of_cons; left|done]. }
    destruct (size <=? _).
    + destruct (ok i); [|tauto]. destruct (Hskip (S i) [] (commit (map BDelete (pending ++ [key])) db) _ eq_refl) as [K1 K2].
      destruct (Hcommit true (pending ++ [key]) db) as [C1 C2]. split; [tauto|]. intros Hin.
      destruct (C2 Hin) as [Hc|Hc]; [|right; tauto]. destruct (K2 Hc) as [|[Hn|]]; [auto|by apply not_elem_of_nil in Hn|auto].
    + destruct (Hskip i (pending ++ [key]) db _ eq_refl) as [K1 K2]. split; [done|]. intros Hin. destruct (K2 Hin) as [|[|]]; [auto|right; tauto|auto].
Qed.

(** When they succeed, all of it goes. *)
Lemma pass_complete i entries pending (db : DB) k v :
  StronglySorted bytes_lt (map fst entries) -> Forall (fun e => spot_key e.1) entries ->
  (k, v) ∈ db_entries (cleanup_pass cF cD size (fun _ => true) i entries pending db) ->
  k ∉ pending /\ forall raw, (k, raw) ∈ entries -> live_entry cF cD (k, raw) = true.
Proof.
  revert i pending db. induction entries as [|[key raw] entries IH]; intros i pending db Hs Hk Hin; simpl in Hin.
  - apply commit_deletes in Hin as [_ Hn]. split; [done|]. intros raw Hr. by apply not_elem_of_nil in Hr.
  - simpl in Hs. apply StronglySorted_inv in Hs as [Hs Hle]. apply Forall_cons in Hk as [(ts & n & Hts & Hn & Hkey) Hk]. simpl in Hkey.
    rewrite Hkey, parse_spotKey in Hin by done.
    assert (Hcons : (forall r, (k, r) ∈ entries -> live_entry cF cD (k, r) = true) -> (k <> key \/ live_entry cF cD (key, raw) = true) ->
              forall r, (k, r) ∈ (key, raw) :: entries -> live_entry cF cD (k, r) = true).
    { intros H1 H2 r Hr. apply elem_of_cons in Hr as [[= -> ->]|Hr]; [by destruct H2|auto]. }
    assert (Hval : live_entry cF cD (key, raw) = live cF cD ts raw) by (unfold live_entry; simpl; by rewrite Hkey, parse_spotKey).
    destruct (Z.leb_spec (Z.max cF cD) ts) as [Hlate|Hearly].
    + apply commit_deletes in Hin as [_ Hn']. split; [done|]. apply Hcons; [|right; rewrite Hval; by apply live_late].
      intros r Hr. pose proof (proj1 (list.Forall_forall _ _) Hk _ Hr) as (ts' & n' & Hts' & Hn'' & Hkey'). simpl in Hkey'.
      pose proof (proj1 (list.Forall_forall _ _) Hle k ltac:(apply list_elem_of_fmap; by exists (k, r))) as Hlt.
      rewrite Hkey, Hkey' in Hlt. apply spotKey_lt in Hlt; [|done..]. unfold live_entry. simpl. rewrite Hkey', parse_spotKey by done. apply live_late. lia.
    + rewrite (expired_live ts raw Hearly), negb_involutive in Hin. destruct (live cF cD ts raw) eqn:Hlive.
      * destruct (IH _ _ _ Hs Hk Hin) as [H1 H2]. split; [done|]. apply Hcons; [done|right; congruence].
      * assert (Hk2 : forall p, k ∉ p ++ [spotKeyBytes ts n] -> k ∉ p /\ k <> key) by (intros p Hp; rewrite not_elem_of_app, list_elem_of_singleton in Hp; rewrite Hkey; tauto).
        destruct (size <=? _).
        -- destruct (IH _ _ _ Hs Hk Hin) as [_ H2]. apply pass_sound in Hin. apply commit_deletes in Hin as [_ Hn']. apply Hk2 in Hn' as [? ?].
           split; [done|]. apply Hcons; [done|by left].
        -- destruct (IH _ _ _ Hs Hk Hin) as [H1 H2]. apply Hk2 in H1 as [? ?]. split; [done|]. apply Hcons; [done|by left].
Qed.
End Pass.

Definition cutoff_ft (now : Z) (w : Writer DB) : Z := retentionCutoff now (RetentionFTSeconds (w_cfg w)).
Definition cutoff_default (now : Z) (w : Writer DB) : Z := retentionCutoff now (RetentionDefaultSeconds (w_cfg w)).

Lemma cleanup_sound now ok (w : Writer DB) k v :
  archive_ok (w_db w) ->
  ((k, v) ∈ db_entries (w_db (cleanupOnce now ok w)) -> (k, v) ∈ db_entries (w_db w)) /\
  ((k, v) ∈ db_entries (w_db w) -> live_entry (cutoff_ft now w) (cutoff_default now w) (k, v) = true ->
   (k, v) ∈ db_entries (w_db (cleanupOnce now ok w))).
Proof.
  intros Hok. unfold cleanupOnce. simpl. fold (cutoff_ft now w) (cutoff_default now w). rewrite spot_range_all by done.
  destruct (pass_sound (cutoff_ft now w) (cutoff_default now w) (cleanup_batch_size w) ok 0 (db_entries (w_db w)) [] (w_db w) k v) as [P1 P2].
  split; [done|]. intros Hin Hlive. destruct (P2 Hin) as [|[Hn|(raw & Hraw & Hdead)]]; [done|by apply not_elem_of_nil in Hn|].
  rewrite (entries_unique _ _ _ _ Hraw Hin) in Hdead. congruence.
Qed.

Lemma cleanup_filter now (w : Writer DB) :
  archive_ok (w_db w) ->
  db_entries (w_db (cleanupOnce now (fun _ => true) w)) =
    filter (fun e => live_entry (cutoff_ft now w) (cutoff_default now w) e = true) (db_entries (w_db w)).
Proof.
  intros Hok. apply sorted_ext; [apply entries_sorted|apply sorted_filter, entries_sorted|]. intros k v. rewrite list_elem_of_filter.
  destruct (cleanup_sound now (fun _ => true) w k v Hok) as [S1 S2]. split; [|tauto]. intros Hin. split; [|auto].
  pose proof (S1 Hin) as Hold. revert Hin. unfold cleanupOnce. simpl. fold (cutoff_ft now w) (cutoff_default now w). rewrite spot_range_all by done. intros Hin.
  apply pass_complete in Hin as [_ Hall]; [by apply Hall|apply entries_sorted|exact Hok].
Qed.

Lemma archive_cleanup_ok now ok (w : Writer DB) : archive_ok (w_db w) -> archive_ok (w_db (cleanupOnce now ok w)).
Proof.
  intros Hok. apply list.Forall_forall. intros [k v] Hin. apply (cleanup_sound now ok w k v Hok) in Hin.
  by apply (proj1 (list.Forall_forall _ _) Hok) in Hin.
Qed.
End Retention.


(** ** Listings *)

Definition decode_entry (e : string * string) : option Spot :=
  match parseSpotKey e.1 with Some (ts, _) => decodeSpot ts e.2 | None => None end.

Lemma recent_scan_spec want limit scanned scanLimit entries :
  0 <= scanned <= scanLimit -> 0 < scanLimit <= recentScanMax ->
  recent_scan want limit scanned scanLimit entries =
    take limit (filter (fun s => want s = true) (omap decode_entry (take (Z.to_nat (recentScanMax - scanned)) entries))).
Proof.
  revert limit scanned scanLimit. induction entries as [|[key raw] rest IH]; intros limit scanned scanLimit Hs Hl.
  - rewrite take_nil. destruct limit; done.
  - destruct limit as [|more]; [done|]. cbn [recent_scan].
    destruct (Z.leb_spec scanLimit scanned) as [Hfull|Hroom].
    + destruct (Z.leb_spec recentScanMax scanLimit) as [Hmax|Hmore]; cbn [andb].
      { replace (recentScanMax - scanned) with 0 by lia. done. }
      assert (Hg : scanned + 1 <= grow_scan scanLimit <= recentScanMax).
      { unfold grow_scan, recentScanMax in *. change (Z.quot 200000 4) with 50000. destruct (Z.ltb_spec 50000 scanLimit); [lia|]. destruct (Z.ltb_spec 200000 (scanLimit * 4)); lia. }
      replace (Z.to_nat (recentScanMax - scanned)) with (S (Z.to_nat (recentScanMax - (scanned + 1)))) by lia.
      cbn [take omap list_omap]. unfold decode_entry at 1. cbn [fst snd].
      destruct (match parseSpotKey key with Some (ts, _) => decodeSpot ts raw | None => None end) as [s|]; [|apply IH; lia].
      destruct (want s) eqn:Hw; [rewrite filter_cons_True by done; cbn [take]; f_equal; apply IH; lia|].
      rewrite filter_cons_False by congruence. apply IH; lia.
    + cbn [andb]. replace (Z.to_nat (recentScanMax - scanned)) with (S (Z.to_nat (recentScanMax - (scanned + 1)))) by lia.
      cbn [take omap list_omap]. unfold decode_entry at 1. cbn [fst snd].
      destruct (match parseSpotKey key with Some (ts, _) => decodeSpot ts raw | None => None end) as [s|]; [|apply IH; lia].
      destruct (want s) eqn:Hw; [rewrite filter_cons_True by done; cbn [take]; f_equal; apply IH; lia|].
      rewrite filter_cons_False by congruence. apply IH; lia.
Qed.

Lemma initial_scan_range limit : 0 < limit -> 0 < initial_scan limit <= recentScanMax.
Proof.
  intros Hl. unfold initial_scan, recentScanMax. set (n := int64 (limit * 20)). clearbody n.
  destruct (Z.ltb_spec n limit); [destruct (Z.ltb_spec 200000 limit)|destruct (Z.ltb_spec 200000 n)]; lia.
Qed.

(** Newest first. *)
Definition newer_first (l : list Spot) : Prop := StronglySorted (fun a b => Time b <= Time a) l.

Lemma sorted_snoc {A} (R : A -> A -> Prop) l x : StronglySorted R l -> Forall (fun y => R y x) l -> StronglySorted R (l ++ [x]).
Proof.
  induction l as [|y l IH]; simpl; intros Hs Hf; [repeat constructor|]. apply StronglySorted_inv in Hs as [Hs Hle]. inversion Hf; subst.
  constructor; [auto|]. apply Forall_app. auto.
Qed.

Lemma decode_entry_time e s : decode_entry e = Some s -> exists n, parseSpotKey e.1 = Some (Time s, n).
Proof.
  unfold decode_entry. destruct (parseSpotKey e.1) as [[ts n]|]; [|done]. unfold decodeSpot. destruct (decodeRecord e.2) as [r|]; [|done].
  intros [= <-]. exists n. f_equal. f_equal.
  match goal with |- _ = Time (RefreshBeaconFlag (EnsureNormalized ?x)) => destruct (spot_fields_kept x) as (_ & (_ & _ & -> & _) & _) end. done.
Qed.

Lemma entries_sorted_desc l :
  StronglySorted bytes_lt (map fst l) -> Forall (fun e => spot_key e.1) l -> newer_first (omap decode_entry (rev l)).
Proof.
  induction l as [|e l IH]; simpl; intros Hs Hk; [constructor|]. apply StronglySorted_inv in Hs as [Hs Hle]. apply Forall_cons in Hk as [Hk0 Hk].
  rewrite omap_app. simpl. destruct (decode_entry e) as [s|] eqn:Hd; [|rewrite app_nil_r; auto].
  apply sorted_snoc; [by apply IH|]. apply list.Forall_forall. intros s' Hin.
  apply list_elem_of_omap in Hin as (e' & He' & Hd'). apply list_elem_of_In, in_rev, list_elem_of_In in He'.
  destruct Hk0 as (ts & n & Hts & Hn & Hkey). pose proof (proj1 (list.Forall_forall _ _) Hk e' He') as (ts' & n' & Hts' & Hn' & Hkey').
  pose proof (proj1 (list.Forall_forall _ _) Hle e'.1 ltac:(apply list_elem_of_fmap; by exists e')) as Hlt.
  rewrite Hkey, Hkey' in Hlt. apply spotKey_lt in Hlt; [|done..].
  apply decode_entry_time in Hd as [m Hp]. apply decode_entry_time in Hd' as [m' Hp'].
  rewrite Hkey, parse_spotKey in Hp by done. rewrite Hkey', parse_spotKey in Hp' by done. injection Hp as -> _. injection Hp' as -> _. lia.
Qed.

Lemma sorted_take {A} (R : A -> A -> Prop) n l : StronglySorted R l -> StronglySorted R (take n l).
Proof.
  revert n. induction l as [|x l IH]; intros [|n] Hs; simpl; try constructor; apply StronglySorted_inv in Hs as [Hs Hle]; [auto|].
  by apply Forall_take.
Qed.

Lemma sorted_filter_any {A} (R : A -> A -> Prop) (P : A -> Prop) `{forall x, Decision (P x)} (l : list A) : StronglySorted R l -> StronglySorted R (filter P l).
Proof.
  induction l as [|x l IH]; intros Hs; [constructor|]. apply StronglySorted_inv in Hs as [Hs Hle]. rewrite filter_cons. case_decide; [|auto].
  constructor; [auto|]. apply list.Forall_forall. intros y Hy. apply list_elem_of_filter in Hy as [_ Hy]. by apply (proj1 (list.Forall_forall _ _) Hle).
Qed.

Lemma take_rev_skip {A} n (l : list A) : exists m, take n (rev l) = rev (drop m l).
Proof. exists (length l - n)%nat. by rewrite <- firstn_rev. Qed.

Lemma drop_forall {A} (P : A -> Prop) n l : Forall P l -> Forall P (drop n l).
Proof. apply Forall_drop. Qed.

Lemma sorted_drop n (l : list (string * string)) : StronglySorted bytes_lt (map fst l) -> StronglySorted bytes_lt (map fst (drop n l)).
Proof. revert n. induction l as [|e l IH]; intros [|n] Hs; simpl in *; try done. apply StronglySorted_inv in Hs as [Hs _]. auto. Qed.

Section Recent.
Context `{PebbleLaws DB}.

(** What a listing holds. *)
Definition newest_matching (limit : Z) (want : Spot -> bool) (d : DB) : list Spot :=
  take (Z.to_nat limit) (filter (fun s => want s = true) (omap decode_entry (take (Z.to_nat recentScanMax) (rev (db_entries d))))).

Lemma recent_filtered_spec limit want (w : Writer DB) :
  archive_ok (w_db w) -> RecentFiltered limit want w = newest_matching limit want (w_db w).
Proof.
  intros Hok. unfold RecentFiltered, newest_matching. destruct (Z.leb_spec limit 0) as [Hl|Hl]; [by replace (Z.to_nat limit) with 0%nat by lia|].
  pose proof (initial_scan_range limit Hl). rewrite recent_scan_spec, spot_range_all by (done || lia). by rewrite Z.sub_0_r.
Qed.

Lemma newest_matching_sorted limit want (d : DB) : archive_ok d -> newer_first (newest_matching limit want d).
Proof.
  intros Hok. apply sorted_take, sorted_filter_any. destruct (take_rev_skip (Z.to_nat recentScanMax) (db_entries d)) as [m ->].
  apply entries_sorted_desc; [apply sorted_drop, entries_sorted|by apply drop_forall].
Qed.
End Recent.

(** A listing holds the newest spots that match: of the last 200000 records, in
    the order from the newest on, those that decode and match, cut to the limit - the
    growing scan window changes nothing. *)
Theorem recent_exact `{PebbleLaws DB} limit want (w : Writer DB) :
  archive_ok (w_db w) -> RecentFiltered limit want w = newest_matching limit want (w_db w) /\ newer_first (RecentFiltered limit want w).
Proof. intros Hok. rewrite recent_filtered_spec by done. split; [done|]. by apply newest_matching_sorted. Qed.

(** ** No record is lost *)

Section Keeps.
Context `{PebbleLaws DB}.

(** The numbers of the keys go up to [n]. *)
Definition numbered (n : Z) (d : DB) : Prop :=
  Forall (fun e => exists ts m, 0 <= ts < 2 ^ 63 /\ 0 <= m <= n /\ e.1 = spotKeyBytes ts m) (db_entries d).

Definition stored (s : Spot) : string := encodeRecord (EnsureNormalized s).

Lemma set_fresh k v (d : DB) : k ∉ map fst (db_entries d) -> db_entries (db_set k v d) ≡ₚ (k, v) :: db_entries d.
Proof.
  intros Hfresh. apply NoDup_Permutation.
  - eapply NoDup_fmap_1. apply entries_nodup.
  - apply NoDup_cons. split; [|eapply NoDup_fmap_1; apply entries_nodup]. intros Hin. apply Hfresh, list_elem_of_fmap. by exists (k, v).
  - intros [k' v']. rewrite entries_set, elem_of_cons. split; [intros [[-> ->]|[_ Hin]]; auto|].
    intros [[= -> ->]|Hin]; [auto|]. right. split; [|done]. intros ->. apply Hfresh, list_elem_of_fmap. by exists (k, v').
Qed.

Lemma set_numbered ts n v (d : DB) :
  0 <= ts < 2 ^ 63 -> 0 <= n -> n + 1 < 2 ^ 32 -> numbered n d ->
  numbered (n + 1) (db_set (spotKeyBytes ts (n + 1)) v d) /\
  map snd (db_entries (db_set (spotKeyBytes ts (n + 1)) v d)) ≡ₚ v :: map snd (db_entries d).
Proof.
  intros Hts Hn Hn32 Hd. assert (Hfresh : spotKeyBytes ts (n + 1) ∉ map fst (db_entries d)).
  { intros Hin. apply list_elem_of_fmap in Hin as ([k v'] & Hk & Hin). apply (proj1 (list.Forall_forall _ _) Hd) in Hin as (ts' & m & Hts' & Hm & Hkey).
    simpl in *. rewrite <- Hk in Hkey. apply spotKey_inj in Hkey as [_ Hkey]; lia. }
  pose proof (set_fresh _ v d Hfresh) as Hp. split.
  - unfold numbered. rewrite Hp. constructor; [exists ts, (n + 1); repeat split; lia|]. eapply Forall_impl; [exact Hd|].
    intros e (ts' & m & ? & ? & ?). exists ts', m. repeat split; try done; lia.
  - by rewrite Hp.
Qed.

Lemma batch_numbered now batch n (d : DB) :
  0 <= now < 2 ^ 63 -> 0 <= n -> n + Z.of_nat (length batch) < 2 ^ 32 -> numbered n d ->
  (batch_writes now n batch).2 = n + Z.of_nat (length batch) /\
  numbered (n + Z.of_nat (length batch)) (commit (batch_writes now n batch).1 d) /\
  map snd (db_entries (commit (batch_writes now n batch).1 d)) ≡ₚ map stored batch ++ map snd (db_entries d).
Proof.
  intros Hnow. revert n d. induction batch as [|s batch IH]; intros n d Hn Hlen Hd; simpl; [rewrite Z.add_0_r; done|].
  assert (Hnext : nextSeq n = n + 1) by (unfold nextSeq, uint32; apply Z.mod_small; simpl in Hlen; lia).
  destruct (set_numbered (normalizeUnixNano now (Time (EnsureNormalized s))) n (stored s) d) as [D1 D2];
    [by apply normalizeUnixNano_range|lia|simpl in Hlen; lia|done|].
  rewrite Hnext. destruct (IH (n + 1) _ ltac:(lia) ltac:(simpl in Hlen; lia) D1) as (I1 & I2 & I3).
  destruct (batch_writes now (n + 1) batch) as [ops n']. simpl in I1, I2, I3 |- *. unfold commit in *. simpl.
  replace (n + Z.of_nat (S (length batch))) with (n + 1 + Z.of_nat (length batch)) by lia. split; [done|]. split; [done|].
  unfold stored at 1 in D2. unfold stored at 1. etrans; [exact I3|]. rewrite D2. by rewrite <- Permutation_middle.
Qed.

(** Events: a spot is offered, the loop takes one from the queue, its timer fires. *)
Inductive writer_event := EOffer (s : Spot) | ETake (now : Z) | ETimer (now : Z).

Definition writer_step (e : writer_event) (w : Writer DB) : Writer DB :=
  match e with
  | EOffer s => Enqueue s w
  | ETake now => insert_spot now (fun _ => true) w
  | ETimer now => insert_timer now (fun _ => true) w
  end.

Definition accepted (e : writer_event) (w : Writer DB) : list Spot :=
  match e with
  | EOffer s => if negb (w_stopped w) && (Z.of_nat (length (w_queue w)) <? queue_capacity w) then [s] else []
  | _ => []
  end.

(** The writer after the events, and the spots it accepted. *)
Fixpoint writer_run (es : list writer_event) (w : Writer DB) : Writer DB * list Spot :=
  match es with
  | [] => (w, [])
  | e :: es => let '(w', acc) := writer_run es (writer_step e w) in (w', accepted e w ++ acc)
  end.

Definition clock_ok (e : writer_event) : Prop := match e with EOffer _ => True | ETake now | ETimer now => 0 <= now < 2 ^ 63 end.

(** The accepted spots are in the store, the batch or the queue. *)
Definition writer_inv (acc : list Spot) (w : Writer DB) : Prop :=
  exists done_, acc = done_ ++ w_batch w ++ w_queue w /\ w_seq w = Z.of_nat (length done_) /\ numbered (w_seq w) (w_db w) /\
    map snd (db_entries (w_db w)) ≡ₚ map stored done_.

Lemma flush_inv now batch queue (w : Writer DB) acc done_ :
  0 <= now < 2 ^ 63 -> Z.of_nat (length acc) < 2 ^ 32 -> acc = done_ ++ batch ++ queue -> w_queue w = queue ->
  w_seq w = Z.of_nat (length done_) -> numbered (w_seq w) (w_db w) -> map snd (db_entries (w_db w)) ≡ₚ map stored done_ ->
  writer_inv acc (with_batch [] (flush now (fun _ => true) batch w)).
Proof.
  intros Hnow Hsize Hacc Hq Hseq Hnum Hst. exists (done_ ++ batch). unfold flush. destruct batch as [|s batch].
  - rewrite app_nil_r. simpl in *. rewrite Hq. done.
  - destruct (batch_numbered now (s :: batch) (w_seq w) (w_db w) Hnow ltac:(lia)) as (B1 & B2 & B3); [|done|].
    { rewrite Hacc, !length_app in Hsize. lia. }
    destruct (batch_writes now (w_seq w) (s :: batch)) as [ops n']. cbn [fst snd] in B1, B2, B3.
    cbn [with_batch with_seq with_db w_batch w_queue w_seq w_db]. rewrite B1, Hq. split; [rewrite Hacc; by rewrite <- app_assoc|].
    split; [rewrite length_app; lia|]. split; [done|]. rewrite B3, Hst, map_app. apply Permutation_app_comm.
Qed.

Lemma add_to_batch_inv now s queue (w : Writer DB) acc done_ :
  0 <= now < 2 ^ 63 -> Z.of_nat (length acc) < 2 ^ 32 -> acc = done_ ++ (w_batch w ++ [s]) ++ queue -> w_queue w = queue ->
  w_seq w = Z.of_nat (length done_) -> numbered (w_seq w) (w_db w) -> map snd (db_entries (w_db w)) ≡ₚ map stored done_ ->
  writer_inv acc (add_to_batch now (fun _ => true) s w).
Proof.
  intros Hnow Hsize Hacc Hq Hseq Hnum Hst. unfold add_to_batch. destruct (_ <=? _); [by eapply flush_inv|].
  exists done_. simpl. rewrite Hq. done.
Qed.

Lemma writer_step_inv e (w : Writer DB) acc :
  clock_ok e -> Z.of_nat (length (acc ++ accepted e w)) < 2 ^ 32 -> writer_inv acc w -> writer_inv (acc ++ accepted e w) (writer_step e w).
Proof.
  intros Hclock Hsize (done_ & Hacc & Hseq & Hnum & Hst). destruct e as [s|now|now]; simpl in *.
  - unfold Enqueue. destruct (w_stopped w); simpl in *; [rewrite app_nil_r; by exists done_|].
    destruct (_ <? _); [|rewrite app_nil_r; by exists done_]. exists done_. simpl. rewrite Hacc, <- !app_assoc. done.
  - rewrite app_nil_r in *. unfold insert_spot. destruct (w_queue w) as [|s q] eqn:Hq; [exists done_; rewrite Hq; done|].
    eapply (add_to_batch_inv now s q (with_queue q w) acc done_); try done. simpl. rewrite Hacc, <- !app_assoc. done.
  - rewrite app_nil_r in *. unfold insert_timer. by eapply flush_inv.
Qed.

Lemma writer_run_inv es (w : Writer DB) acc :
  Forall clock_ok es -> Z.of_nat (length (acc ++ (writer_run es w).2)) < 2 ^ 32 -> writer_inv acc w ->
  writer_inv (acc ++ (writer_run es w).2) (writer_run es w).1.
Proof.
  revert w acc. induction es as [|e es IH]; intros w acc Hc Hsize Hinv; simpl in *; [by rewrite app_nil_r|].
  apply Forall_cons in Hc as [He Hc]. specialize (IH (writer_step e w) (acc ++ accepted e w) Hc).
  destruct (writer_run es (writer_step e w)) as [w' acc']. simpl in *. rewrite app_assoc in Hsize |- *. apply IH; [done|].
  apply writer_step_inv; try done. rewrite length_app in Hsize. lia.
Qed.

Lemma drain_inv now q (w : Writer DB) acc :
  0 <= now < 2 ^ 63 -> Z.of_nat (length (acc ++ q)) < 2 ^ 32 -> w_queue w = [] -> writer_inv acc w ->
  w_queue (drain now (fun _ => true) q w) = [] /\ writer_inv (acc ++ q) (drain now (fun _ => true) q w).
Proof.
  intros Hnow. revert w acc. induction q as [|s q IH]; intros w acc Hsize Hq Hinv; simpl; [by rewrite app_nil_r|].
  replace (acc ++ s :: q) with ((acc ++ [s]) ++ q) in * by (by rewrite <- app_assoc).
  apply IH; [done| |].
  - unfold add_to_batch, flush. destruct (_ <=? _); [|done]. destruct (w_batch w ++ [s]) eqn:Hb; [done|]. destruct (batch_writes _ _ _). done.
  - destruct Hinv as (done_ & Hacc & Hseq & Hnum & Hst). eapply (add_to_batch_inv now s [] w (acc ++ [s]) done_); try done.
    + rewrite length_app in Hsize. lia.
    + rewrite Hacc, Hq, !app_nil_r. by rewrite <- app_assoc.
Qed.

Lemma stop_inv now (w : Writer DB) acc :
  0 <= now < 2 ^ 63 -> Z.of_nat (length acc) < 2 ^ 32 -> writer_inv acc w ->
  map snd (db_entries (w_db (insert_stop now (fun _ => true) w))) ≡ₚ map stored acc.
Proof.
  intros Hnow Hsize (done_ & Hacc & Hseq & Hnum & Hst). unfold insert_stop, drainQueue. cbn [w_queue].
  set (w1 := with_queue [] _). destruct (drain_inv now (w_queue w) w1 (done_ ++ w_batch w)) as [D1 (d2 & E1 & E2 & E3 & E4)]; try done.
  - by rewrite <- app_assoc, <- Hacc.
  - exists done_. simpl. by rewrite app_nil_r.
  - rewrite <- app_assoc, <- Hacc in E1. rewrite D1 in E1.
    assert (Hf : writer_inv acc (insert_timer now (fun _ => true) (drain now (fun _ => true) (w_queue w) w1))) by (unfold insert_timer; by eapply flush_inv).
    destruct Hf as (d3 & F1 & F2 & F3 & F4). rewrite F4.
    assert (Hnone : w_batch (insert_timer now (fun _ => true) (drain now (fun _ => true) (w_queue w) w1)) = [] /\
                    w_queue (insert_timer now (fun _ => true) (drain now (fun _ => true) (w_queue w) w1)) = []).
    { unfold insert_timer, flush. destruct (w_batch (drain _ _ _ _)); [done|]. destruct (batch_writes _ _ _). done. }
    destruct Hnone as [N1 N2]. rewrite N1, N2, !app_nil_r in F1. by rewrite F1.
Qed.
End Keeps.


(** After a restart a record can be replaced: the numbers start at one again, so
    the first spot archived by the new writer overwrites the first one of the old
    writer when both carry the same time, whatever they say. *)
Theorem restart_overwrites `{PebbleLaws DB} cfg (w1 w2 : Writer DB) s1 s2 now :
  NewWriter cfg db_empty = Some w1 -> NewWriter cfg (w_db (flush now (fun _ => true) [s1] w1)) = Some w2 ->
  normalizeUnixNano now (Time s1) = normalizeUnixNano now (Time s2) ->
  db_entries (w_db (flush now (fun _ => true) [s2] w2)) = [(spotKeyBytes (normalizeUnixNano now (Time s2)) 1, stored s2)].
Proof.
  unfold NewWriter. destruct (archiveWriteOptions _); [|done]. intros [= <-] [= <-] Htime. simpl. rewrite !Time_EnsureNormalized, Htime.
  unfold commit. simpl. change (nextSeq 0) with 1. apply sorted_ext; [apply entries_sorted|repeat constructor|].
  intros k v. rewrite !entries_set, entries_empty, list_elem_of_singleton. split.
  - intros [[-> ->]|[Hne [[-> _]|[_ Hn]]]]; [done|done|by apply not_elem_of_nil in Hn].
  - intros [= -> ->]. by left.
Qed.

(** ** Texts that do not fit *)

Lemma total_mod_le (texts : list string) :
  (total_length (map (fun t => Z.to_nat (be_value (be_string 2 (uint16 (len t))))) texts) <= String.length (concat_strings texts))%nat /\
  (Exists (fun t => 2 ^ 16 <= len t) texts ->
   (total_length (map (fun t => Z.to_nat (be_value (be_string 2 (uint16 (len t))))) texts) < String.length (concat_strings texts))%nat).
Proof.
  induction texts as [|t texts [IH1 IH2]]; cbn [map total_length fold_right concat_strings]; [split; [done|by inversion 1]|].
  fold (total_length (map (fun t => Z.to_nat (be_value (be_string 2 (uint16 (len t))))) texts)).
  set (T := total_length (map _ texts)) in *. clearbody T. rewrite length_sapp, be_value_string.
  unfold uint16. change (256 ^ Z.of_nat 2) with (2 ^ 16). rewrite Zmod_mod.
  assert (H0 : 0 <= len t) by (unfold len; lia). assert (Hle : len t mod 2 ^ 16 <= len t) by (apply Z.mod_le; lia).
  pose proof (Z.mod_pos_bound (len t) (2 ^ 16) ltac:(lia)) as Hm. unfold len in *. set (r := Z.of_nat (String.length t) mod 2 ^ 16) in *. clearbody r.
  split; [lia|]. inversion 1 as [? ? Hbig|? ? Hrest]; subst; [lia|specialize (IH2 Hrest); lia].
Qed.

(** A text of 64 KiB or more loses its record: its length is stored in 16 bits, so the
    lengths no longer add up, the record cannot be read, and the next cleanup that comes to
    it deletes it as corrupt. *)
Theorem long_text_unreadable s :
  Exists (fun t => 2 ^ 16 <= len t) (record_texts s) ->
  decodeRecord (encodeRecord s) = None /\ modeIsFTRecord (encodeRecord s) = None.
Proof.
  intros Hlong. rewrite mode_test. enough (Hnone : decodeRecord (encodeRecord s) = None) by (by rewrite Hnone).
  unfold encodeRecord, record_header, byte_string, decodeRecord.
  pose proof (layout_list (byte_of recordVersion) (byte_of (record_flags s)) (byte_of (TTL s)) (byte_of 0) (Float64bits (Frequency s)) (uint32 (Report s))
    (clampUint16 (CQZone (DXMetadata s))) (clampUint16 (CQZone (DEMetadata s))) (uint32 (clampInt (ADIF (DXMetadata s)))) (uint32 (clampInt (ADIF (DEMetadata s))))
    (record_texts s) eq_refl) as L. cbv zeta in L.
  set (raw := _ +:+ length_table _ +:+ _) in *. clearbody raw. destruct L as (_ & _ & _ & _ & L1 & L2). rewrite L1, L2. destruct (header_ok raw); [|done]. cbn [negb]. cbv iota zeta.
  destruct (read_texts _ _) as [ts|] eqn:Hr; [|done]. apply read_texts_spec in Hr as [Hr _]. pose proof (proj2 (total_mod_le (record_texts s)) Hlong). lia.
Qed.

(** ** Witnesses *)

Definition demo_spot (dx mode : string) (t : Z) : Spot :=
  mkSpot 0 dx "W3LPL-#" (28149 # 2) "20m" mode (-5) t " TU 5NN " SourceRBN "W3LPL" "" 5 false false false true
    (mkCallMetadata "EU" "Slovenia" 15 "JN76" false 28 499) (mkCallMetadata "na" "United States" 5 "FM19" true 8 291)
    "V" None "" "" "" "" "" "" "" "" "" "" 0 0 "W3LPL" "".

Lemma demo_archivable : archivable (EnsureNormalized (demo_spot "S53ZO" "cw" 1000)).
Proof.
  split.
  - apply list.Forall_forall. intros t Ht. apply Z.ltb_lt. revert t Ht. apply (forallb_forall_elem (fun t => len t <? 2 ^ 16)). vm_compute. reflexivity.
  - exists (Float64bits (28149 # 2)). split; [split; [split|split]; vm_compute; (discriminate || reflexivity)|vm_compute; reflexivity].
  - vm_compute. split; [discriminate|reflexivity].
  - vm_compute. split; [discriminate|reflexivity].
  - split; vm_compute; reflexivity.
Defined.

Lemma archive_roundtrip_witness :
  exists s', decodeSpot 1000 (encodeRecord (EnsureNormalized (demo_spot "S53ZO" "cw" 1000))) = Some s' /\ DXCall s' = "S53ZO" /\ Mode s' = "CW" /\ Comment s' = "TU 5NN".
Proof.
  destruct (archive_roundtrip (EnsureNormalized (demo_spot "S53ZO" "cw" 1000)) 1000 demo_archivable)
    as (s' & Hs & (H1 & _ & H2 & _) & _ & (_ & _ & H3 & _) & _).
  exists s'. split; [exact Hs|]. rewrite H1, H2, H3. clear. repeat split; vm_compute; reflexivity.
Defined.

Definition demo_archive_config : ArchiveConfig := mkArchiveConfig 4 2 1 10 100 "".

Definition demo_events : list writer_event :=
  [EOffer (demo_spot "S53ZO" "CW" (1 * second)); EOffer (demo_spot "K1ABC" "FT8" (1 * second)); ETake 5; EOffer (demo_spot "JA1XYZ" "FT8" (95 * second)); ETake 5].


Definition demo_writer : Writer sorted_db :=
  insert_stop 5 (fun _ => true) (writer_run demo_events (mkWriter demo_archive_config db_empty [] [] 0 false)).1.

Definition spot_keyb (k : string) : bool :=
  match parseSpotKey k with
  | None => false
  | Some (ts, n) => (0 <=? ts) && (ts <? 2 ^ 63) && (0 <=? n) && (n <? 2 ^ 32) && bool_decide (k = spotKeyBytes ts n)
  end.

Lemma archive_okb `{Pebble DB} (d : DB) : forallb (fun e => spot_keyb e.1) (db_entries d) = true -> archive_ok d.
Proof.
  intros Hd. apply list.Forall_forall. intros e He. pose proof (proj1 (forallb_forall_elem _ _) Hd e He) as Hk. unfold spot_keyb in Hk. simpl in Hk.
  destruct (parseSpotKey e.1) as [[ts n]|]; [|done]. boolify. exists ts, n. repeat split; done.
Qed.


Lemma recent_exact_witness :
  map DXCall (RecentFiltered 2 (fun s => bool_decide (Mode s = "FT8")) demo_writer) = ["JA1XYZ"; "K1ABC"] /\
  newer_first (RecentFiltered 2 (fun s => bool_decide (Mode s = "FT8")) demo_writer).
Proof.
  split; [vm_compute; reflexivity|].
  apply (recent_exact (DB := sorted_db) 2 (fun s => bool_decide (Mode s = "FT8")) demo_writer). apply archive_okb. vm_compute. reflexivity.
Defined.

Lemma restart_overwrites_witness :
  exists w1 w2 : Writer sorted_db,
    NewWriter demo_archive_config db_empty = Some w1 /\ NewWriter demo_archive_config (w_db (flush 5 (fun _ => true) [demo_spot "S53ZO" "CW" 7] w1)) = Some w2 /\
    db_entries (w_db (flush 5 (fun _ => true) [demo_spot "K1ABC" "FT8" 7] w2)) = [(spotKeyBytes (normalizeUnixNano 5 7) 1, stored (demo_spot "K1ABC" "FT8" 7))].
Proof.
  eexists _, _. split; [reflexivity|]. split; [reflexivity|].
  eapply (restart_overwrites (DB := sorted_db) demo_archive_config _ _ (demo_spot "S53ZO" "CW" 7) (demo_spot "K1ABC" "FT8" 7) 5); reflexivity.
Defined.

Lemma long_text_unreadable_witness :
  let s := set_Comment (Repeat "x" 65536) (demo_spot "S53ZO" "CW" 7) in decodeRecord (encodeRecord s) = None /\ modeIsFTRecord (encodeRecord s) = None.
Proof.
  apply (long_text_unreadable (set_Comment (Repeat "x" 65536) (demo_spot "S53ZO" "CW" 7))).
  do 4 apply Exists_cons_tl. apply Exists_cons_hd. apply Z.leb_le. vm_compute. reflexivity.
Defined.
