(* ===== verification/Help.v ===== *)
(** * Help: the HELP texts and the wrapping of lines

    The part of [commands/processor.go] that answers HELP: the catalogue of a dialect,
    the names a topic goes by, and the functions that wrap words and lists to the width of
    a terminal.

    Wrapping keeps every word, in order ([wrapped_words_kept]), and no line is longer than
    the width unless a single word is ([wrapped_lines_fit]).  Every command that HELP lists
    has a page, its pages fit the width ([help_pages_complete]); SET SOLAR has a page that the
    list does not name ([solar_not_listed]). *)

From S2P Require Import Prelude GoText GoNum Bands Filter FilterShow.

Local Open Scope string_scope.
Local Open Scope list_scope.
Local Open Scope Z_scope.

Definition helpMaxWidth : Z := 78.

(** ** Wrapping *)

Definition blank (s : string) : bool := bool_decide (TrimSpace s = "").

(** A line at the end, unless it is blank. *)
Definition last_line (line : string) : list string := if blank line then [] else [line].

Fixpoint wrap_labelled (prefix indent : string) (width : Z) (line : string) (items : list string) : list string :=
  match items with
  | [] => last_line line
  | item :: items =>
      let fresh := bool_decide (line = prefix) in
      let candidate := if fresh then line +:+ item else line +:+ ", " +:+ item in
      if (width <? len candidate) && negb fresh
      then line :: wrap_labelled prefix indent width (indent +:+ item) items
      else wrap_labelled prefix indent width candidate items
  end.

Definition wrapLabelList (label : string) (items : list string) (width : Z) : list string :=
  match items with
  | [] => []
  | _ => let prefix := label +:+ " " in
         wrap_labelled prefix (Repeat " " (String.length prefix)) width prefix items
  end.

(** The loop over the words with the line so far. *)
Fixpoint wrap_words (width : Z) (indentFirst indentNext line : string) (words : list string) : list string :=
  match words with
  | [] => last_line line
  | word :: words =>
      if bool_decide (line = indentFirst) || blank line then
        if width <? len line + len word then line :: wrap_words width indentFirst indentNext (indentNext +:+ word) words
        else wrap_words width indentFirst indentNext (line +:+ word) words
      else
        let candidate := line +:+ " " +:+ word in
        if width <? len candidate then line :: wrap_words width indentFirst indentNext (indentNext +:+ word) words
        else wrap_words width indentFirst indentNext candidate words
  end.

Definition wrapTextLines (text : string) (width : Z) (indentFirst indentNext : string) : list string :=
  let text := TrimSpace text in
  if bool_decide (text = "") then []
  else if width <=? 0 then [indentFirst +:+ text]
  else match Fields text with
       | [] => []
       | words => wrap_words width indentFirst indentNext indentFirst words
       end.

Fixpoint wrap_items (indent : string) (width : Z) (line : string) (items : list string) : list string :=
  match items with
  | [] => last_line line
  | item :: items =>
      let fresh := bool_decide (line = indent) in
      let candidate := if fresh then indent +:+ item else line +:+ ", " +:+ item in
      if (width <? len candidate) && negb fresh
      then line :: wrap_items indent width (indent +:+ item) items
      else wrap_items indent width candidate items
  end.

Definition wrapListLines (title indent : string) (items : list string) (width : Z) : list string :=
  let lines := if bool_decide (title = "") then [] else [title] in
  match items with
  | [] => lines
  | _ => let indent := if bool_decide (indent = "") then "  " else indent in lines ++ wrap_items indent width indent items
  end.

(** ** Pages *)

Definition filterListTypes : list string :=
  ["BAND"; "MODE"; "SOURCE"; "DXCALL"; "DECALL"; "DXGRID2"; "DEGRID2"; "DXCONT"; "DECONT"; "DXZONE"; "DEZONE"; "DXDXCC"; "DEDXCC"; "CONFIDENCE"; "PATH"].

Definition appendUsageLines (lines usage : list string) : list string :=
  match usage with
  | [] => lines
  | u :: us => lines ++ ("Usage: " +:+ u) :: map (fun e => "       " +:+ e) us
  end.

Definition appendAliases (lines aliases : list string) (width : Z) : list string :=
  match aliases with [] => lines | _ => lines ++ wrapLabelList "Aliases:" aliases width end.

Definition appendNotes (lines notes : list string) (width : Z) : list string :=
  match notes with [] => lines | _ => lines ++ "Notes:" :: flat_map (fun note => wrapTextLines note width "  " "  ") notes end.

Definition appendListSection (lines : list string) (title : string) (items : list string) (width : Z) : list string :=
  match items with [] => lines | _ => lines ++ title :: wrapListLines "" "  " items width end.

Definition helpEntryLines (summary : string) (usage aliases notes : list string) : list string :=
  appendNotes (appendAliases (appendUsageLines [summary] usage) aliases helpMaxWidth) notes helpMaxWidth.

Record helpEntry := mkHelpEntry { he_summary : string; he_lines : list string }.

Record helpCatalog := mkHelpCatalog { hc_entries : gmap string helpEntry; hc_aliases : gmap string string; hc_order : list string }.

(** One call of [add]. *)
Record help_add := mkHelpAdd { ha_key : string; ha_summary : string; ha_lines : list string; ha_aliases : list string }.

Definition add_help (c : helpCatalog) (a : help_add) : helpCatalog :=
  mkHelpCatalog (<[ha_key a := mkHelpEntry (ha_summary a) (ha_lines a)]> (hc_entries c))
    (fold_left (fun m al => <[al := ha_key a]> m) (ha_aliases a) (hc_aliases c)) (hc_order c).

Definition cc_toggle (cmd summary alias : string) : help_add :=
  let title := cmd +:+ " - " +:+ summary in
  mkHelpAdd cmd title (helpEntryLines title [cmd] [] ["Alias of " +:+ alias +:+ "."]) [].

(** The entries of both dialects. *)
Definition help_common : list help_add :=
  [mkHelpAdd "HELP" "HELP - Show command list or command-specific help."
      (helpEntryLines "HELP - Show command list or command-specific help."
       ["HELP [command]"] []
       ["Without arguments, lists commands for the active dialect."; "With a command, shows detailed usage."]) [];
   mkHelpAdd "DX" "DX - Post a spot (human entry)."
      (helpEntryLines "DX - Post a spot (human entry)."
       ["DX <freq_khz> <callsign> [comment]"] []
       ["Frequency is in kHz (e.g., 7001.0)."; "Comment is free text; mode/report may be parsed from it."; "Rejects invalid callsigns and CTY-unknown DX when CTY is enabled."]) [];
   mkHelpAdd "SHOW MYDX" "SHOW MYDX - Show filtered spot history."
      (helpEntryLines "SHOW MYDX - Show filtered spot history."
       ["SHOW MYDX [count]"] []
       ["History is pulled from stored spots (not live buffer)."; "Count range is 1-250 (default 50)."; "Respects your filters; self-spots always pass."]) [];
   mkHelpAdd "SHOW DXCC" "SHOW DXCC - Look up DXCC/ADIF and zones."
      (helpEntryLines "SHOW DXCC - Look up DXCC/ADIF and zones."
       ["SHOW DXCC <prefix|callsign>"] []
       ["Uses the CTY database to resolve ADIF, country, and zones."; "Returns other prefixes for the same country when available."]) [];
   mkHelpAdd "SHOW DEDUPE" "SHOW DEDUPE - Show dedupe policy."
      (helpEntryLines "SHOW DEDUPE - Show your broadcast dedupe policy."
       ["SHOW DEDUPE"] []
       ["FAST = short window; MED = medium window; SLOW = long window."; "FAST/MED use 2-character grid squares; SLOW uses CQ zones."; "Shows if a policy is disabled server-side."]) [];
   mkHelpAdd "SET DEDUPE" "SET DEDUPE - Select dedupe policy."
      (helpEntryLines "SET DEDUPE - Select broadcast dedupe policy."
       ["SET DEDUPE <FAST|MED|SLOW>"] []
       ["FAST = short window; MED = medium window; SLOW = long window."; "FAST/MED use 2-character grid squares; SLOW uses CQ zones."; "If a policy is disabled, the nearest available is chosen."]) [];
   mkHelpAdd "SET DIAG" "SET DIAG - Toggle diagnostic comments."
      (helpEntryLines "SET DIAG - Toggle diagnostic comments."
       ["SET DIAG <ON|OFF>"] []
       ["ON replaces the comment field with a diagnostic tag."]) [];
   mkHelpAdd "SET GRID" "SET GRID - Set your grid (4-6 chars)."
      (helpEntryLines "SET GRID - Set your grid for path reliability glyphs."
       ["SET GRID <4-6 char maidenhead>"] []
       ["Example: SET GRID FN31."]) [];
   mkHelpAdd "SET NOISE" "SET NOISE - Set noise class."
      (helpEntryLines "SET NOISE - Set your noise class for glyphs."
       ["SET NOISE <QUIET|RURAL|SUBURBAN|URBAN>"] []
       ["Default is QUIET when unset."]) [];
   mkHelpAdd "PASS NEARBY" "PASS NEARBY - Toggle nearby filtering."
      (helpEntryLines "PASS NEARBY - Toggle nearby filtering."
       ["PASS NEARBY ON|OFF"] []
       ["Requires SET GRID. Uses H3 L1 on 160/80/60m and L2 on all other bands."; "Location filters are suspended while NEARBY is ON."; "Setting location filters while NEARBY is ON is rejected with a warning."; "NEARBY state persists across sessions and shows a login warning when active."]) [];
   mkHelpAdd "SET SOLAR" "SET SOLAR - Solar summary cadence."
      (helpEntryLines "SET SOLAR - Opt into solar summaries."
       ["SET SOLAR <15|30|60|OFF>"] []
       ["Summaries are wall-clock aligned and start at the next tick."; "OFF disables summaries."]) [];
   mkHelpAdd "RESET FILTER" "RESET FILTER - Reset filters to defaults."
      (helpEntryLines "RESET FILTER - Reset filters to configured defaults."
       ["RESET FILTER"] []
       []) [];
   mkHelpAdd "DIALECT" "DIALECT - Show or switch dialect."
      (helpEntryLines "DIALECT - Show or switch filter command dialect."
       ["DIALECT"; "DIALECT LIST"; "DIALECT <go|cc>"] []
       ["Dialect selection is persisted per callsign."]) [];
   mkHelpAdd "BYE" "BYE - Disconnect."
      (helpEntryLines "BYE - Disconnect from the cluster."
       ["BYE"] ["QUIT"; "EXIT"]
       []) ["QUIT"; "EXIT"]].

(** The entries of the CC dialect. *)
Definition help_cc : list help_add :=
  [mkHelpAdd "SHOW" "SHOW - See SHOW subcommands."
      (helpEntryLines "SHOW - See SHOW subcommands."
       ["SHOW MYDX [count]"; "SHOW DXCC <prefix|callsign>"] []
       ["Use HELP SHOW/DX for the history alias."]) [];
   mkHelpAdd "SHOW/DX" "SHOW/DX - Alias of SHOW MYDX."
      (helpEntryLines "SHOW/DX - Alias of SHOW MYDX (stored history)."
       ["SHOW/DX [count]"] ["SH/DX"]
       ["Count range is 1-250 (default 50)."]) ["SH/DX"];
   mkHelpAdd "SH/DX" "SH/DX - Alias of SHOW/DX."
      (helpEntryLines "SH/DX - Alias of SHOW/DX."
       ["SH/DX [count]"] ["SHOW/DX"]
       []) [];
   mkHelpAdd "SHOW/FILTER" "SHOW/FILTER - Display filter state."
      (helpEntryLines "SHOW/FILTER - Display current filter state."
       ["SHOW/FILTER"] ["SH/FILTER"]
       ["Alias of SHOW FILTER in the CC dialect."]) ["SH/FILTER"];
   mkHelpAdd "SH/FILTER" "SH/FILTER - Alias of SHOW/FILTER."
      (helpEntryLines "SH/FILTER - Alias of SHOW/FILTER."
       ["SH/FILTER"] ["SHOW/FILTER"]
       []) [];
   mkHelpAdd "SET/FILTER" "SET/FILTER - Allow list-based filters."
      (appendNotes (appendNotes (appendListSection (helpEntryLines "SET/FILTER - Allow list-based filters (CC dialect)."
       ["SET/FILTER <type> <list>"] []
       ["Same semantics as PASS."; "Use /ON or /OFF to allow or block all for a type."; "Example: SET/FILTER BAND/ON"])
       "Types:" ("DXBM" :: filterListTypes) helpMaxWidth)
       ["DXBM maps CC band codes to BAND filters."] helpMaxWidth)
       ["DXBM bands: 160, 80, 40, 30, 20, 17, 15, 12, 10, 6, 2 (1 if enabled)."] helpMaxWidth) [];
   mkHelpAdd "UNSET/FILTER" "UNSET/FILTER - Block list-based filters."
      (appendListSection (helpEntryLines "UNSET/FILTER - Block list-based filters (CC dialect)."
       ["UNSET/FILTER <type> <list>"] []
       ["Same semantics as REJECT."])
       "Types:" ("DXBM" :: filterListTypes) helpMaxWidth) [];
   mkHelpAdd "SET/NOFILTER" "SET/NOFILTER - Allow everything."
      (helpEntryLines "SET/NOFILTER - Allow everything (CC dialect)."
       ["SET/NOFILTER"] []
       ["Resets filters to a fully permissive state."]) [];
   cc_toggle "SET/ANN" "Enable announcements." "PASS ANNOUNCE";
   cc_toggle "SET/NOANN" "Disable announcements." "REJECT ANNOUNCE";
   cc_toggle "SET/BEACON" "Enable beacon spots." "PASS BEACON";
   cc_toggle "SET/NOBEACON" "Disable beacon spots." "REJECT BEACON";
   cc_toggle "SET/WWV" "Enable WWV bulletins." "PASS WWV";
   cc_toggle "SET/NOWWV" "Disable WWV bulletins." "REJECT WWV";
   cc_toggle "SET/WCY" "Enable WCY bulletins." "PASS WCY";
   cc_toggle "SET/NOWCY" "Disable WCY bulletins." "REJECT WCY";
   cc_toggle "SET/SELF" "Enable self spots." "PASS SELF";
   cc_toggle "SET/NOSELF" "Disable self spots." "REJECT SELF";
   cc_toggle "SET/SKIMMER" "Allow skimmer spots." "PASS SOURCE SKIMMER";
   cc_toggle "SET/NOSKIMMER" "Block skimmer spots." "REJECT SOURCE SKIMMER";
   mkHelpAdd "SET/<MODE>" "SET/<MODE> - Allow a mode."
      (appendListSection (helpEntryLines "SET/<MODE> - Allow a mode (CC dialect)."
       ["SET/<MODE>"] []
       ["Alias of PASS MODE <MODE>."])
       "Modes:" ["CW"; "FT4"; "FT8"; "RTTY"] helpMaxWidth) [];
   mkHelpAdd "SET/NO<MODE>" "SET/NO<MODE> - Block a mode."
      (appendListSection (helpEntryLines "SET/NO<MODE> - Block a mode (CC dialect)."
       ["SET/NO<MODE>"] []
       ["Alias of REJECT MODE <MODE>."])
       "Modes:" ["CW"; "FT4"; "FT8"; "RTTY"] helpMaxWidth) []].

(** The entries of the default dialect. *)
Definition help_go : list help_add :=
  [mkHelpAdd "SHOW" "SHOW - See SHOW subcommands."
      (helpEntryLines "SHOW - See SHOW subcommands."
       ["SHOW DX [count]"; "SHOW MYDX [count]"; "SHOW DXCC <prefix|callsign>"] []
       ["Use HELP SHOW DX for the history alias."]) [];
   mkHelpAdd "SHOW FILTER" "SHOW FILTER - Display filter state."
      (helpEntryLines "SHOW FILTER - Display current filter state."
       ["SHOW FILTER"] []
       ["Shows effective allow/block state plus per-type lists."]) [];
   mkHelpAdd "PASS" "PASS - Allow filter matches."
      (appendListSection (appendListSection (helpEntryLines "PASS - Allow filter matches."
       ["PASS <type> <list>"] []
       ["Adds to allowlist and removes from blocklist."; "List is comma or space separated; use ALL to allow all."])
       "Types:" filterListTypes helpMaxWidth)
       "Feature toggles:" ["PASS BEACON"; "PASS WWV"; "PASS WCY"; "PASS ANNOUNCE"; "PASS SELF"] helpMaxWidth) [];
   mkHelpAdd "REJECT" "REJECT - Block filter matches."
      (appendListSection (appendListSection (helpEntryLines "REJECT - Block filter matches."
       ["REJECT <type> <list>"] []
       ["Adds to blocklist and removes from allowlist."; "List is comma or space separated; use ALL to block all."])
       "Types:" filterListTypes helpMaxWidth)
       "Feature toggles:" ["REJECT BEACON"; "REJECT WWV"; "REJECT WCY"; "REJECT ANNOUNCE"; "REJECT SELF"] helpMaxWidth) [];
   mkHelpAdd "SHOW DX" "SHOW DX - Alias of SHOW MYDX."
      (helpEntryLines "SHOW DX - Alias of SHOW MYDX (stored history)."
       ["SHOW DX [count]"] ["SH DX"]
       ["Count range is 1-250 (default 50)."]) ["SH DX"];
   mkHelpAdd "SH DX" "SH DX - Alias of SHOW DX."
      (helpEntryLines "SH DX - Alias of SHOW DX."
       ["SH DX [count]"] ["SHOW DX"]
       []) []].

Definition order_cc : list string :=
  ["HELP"; "DX"; "SHOW/DX"; "SH/DX"; "SHOW MYDX"; "SHOW DXCC"; "SHOW DEDUPE"; "SET DEDUPE"; "SET DIAG"; "SET GRID"; "SET NOISE"; "PASS NEARBY"; "SHOW/FILTER"; "SH/FILTER"; "RESET FILTER"; "SET/FILTER"; "UNSET/FILTER"; "SET/NOFILTER"; "SET/ANN"; "SET/NOANN"; "SET/BEACON"; "SET/NOBEACON"; "SET/WWV"; "SET/NOWWV"; "SET/WCY"; "SET/NOWCY"; "SET/SELF"; "SET/NOSELF"; "SET/SKIMMER"; "SET/NOSKIMMER"; "SET/<MODE>"; "SET/NO<MODE>"; "DIALECT"; "BYE"].

Definition order_go : list string :=
  ["HELP"; "DX"; "SHOW DX"; "SH DX"; "SHOW MYDX"; "SHOW DXCC"; "SHOW DEDUPE"; "SET DEDUPE"; "SET DIAG"; "SET GRID"; "SET NOISE"; "PASS NEARBY"; "SHOW FILTER"; "PASS"; "REJECT"; "RESET FILTER"; "DIALECT"; "BYE"].

Definition buildHelpCatalog (dialect : string) : helpCatalog :=
  let '(extra, order) := if bool_decide (dialect = "cc") then (help_cc, order_cc) else (help_go, order_go) in
  let c := fold_left add_help (help_common ++ extra) (mkHelpCatalog ∅ ∅ []) in
  mkHelpCatalog (hc_entries c) (hc_aliases c) order.

Definition lookup_help (c : helpCatalog) (topic : string) : option helpEntry :=
  hc_entries c !! default topic (hc_aliases c !! topic).

(** ** Topics *)

Definition isCCHelpMode (mode : string) : bool := bool_decide (ToUpper (TrimSpace mode) ∈ ["CW"; "FT4"; "FT8"; "RTTY"]).

(** The first entry whose test holds. *)
Fixpoint first_case (cases : list (bool * string)) (otherwise : string) : string :=
  match cases with
  | [] => otherwise
  | (b, t) :: cases => if b : bool then t else first_case cases otherwise
  end.

Definition cc_topic (upper : string) : string :=
  first_case
    [(HasPrefix upper "SHOW FILTER", "SHOW/FILTER");
     (HasPrefix upper "SHOW/DX" || bool_decide (upper = "SH/DX"), "SHOW/DX");
     (HasPrefix upper "SHOW/FILTER" || bool_decide (upper = "SH/FILTER"), "SHOW/FILTER");
     (HasPrefix upper "SET/FILTER DXBM", "SET/FILTER");
     (HasPrefix upper "SET/FILTER " || bool_decide (upper = "SET/FILTER"), "SET/FILTER");
     (HasPrefix upper "UNSET/FILTER", "UNSET/FILTER");
     (HasPrefix upper "SET/NOFILTER", "SET/NOFILTER");
     (HasPrefix upper "SET/NO" && isCCHelpMode (TrimPrefix upper "SET/NO"), "SET/NO<MODE>");
     (HasPrefix upper "SET/" && negb (Contains upper "/NO") && isCCHelpMode (TrimPrefix upper "SET/"), "SET/<MODE>")] upper.

Definition go_topic (upper : string) : string :=
  first_case
    [(HasPrefix upper "PASS ", "PASS"); (bool_decide (upper = "PASS"), "PASS"); (HasPrefix upper "REJECT ", "REJECT");
     (bool_decide (upper = "REJECT"), "REJECT"); (HasPrefix upper "SHOW FILTER", "SHOW FILTER"); (HasPrefix upper "SHOW DX", "SHOW DX");
     (bool_decide (upper = "SH DX"), "SHOW DX")] upper.

Definition normalizeHelpTopic (dialect topic : string) : string :=
  let upper := ToUpper (TrimSpace topic) in
  if bool_decide (upper = "") then ""
  else
    let upper := Join (Fields upper) " " in
    first_case
      [(HasPrefix upper "PASS NEARBY", "PASS NEARBY"); (HasPrefix upper "SHOW DXCC", "SHOW DXCC"); (HasPrefix upper "SHOW MYDX", "SHOW MYDX");
       (HasPrefix upper "SHOW DEDUPE", "SHOW DEDUPE"); (HasPrefix upper "SET DEDUPE", "SET DEDUPE"); (HasPrefix upper "SET DIAG", "SET DIAG");
       (HasPrefix upper "SET GRID", "SET GRID"); (HasPrefix upper "SET NOISE", "SET NOISE"); (HasPrefix upper "RESET FILTER", "RESET FILTER");
       (HasPrefix upper "DIALECT", "DIALECT"); (bool_decide (upper ∈ ["BYE"; "QUIT"; "EXIT"]), "BYE"); (bool_decide (upper = "H"), "HELP");
       (bool_decide (upper = "HELP"), "HELP"); (bool_decide (upper = "DX"), "DX"); (bool_decide (upper = "SHOW"), "SHOW");
       (bool_decide (upper = "NEARBY"), "PASS NEARBY")]
      (if bool_decide (dialect = "cc") then cc_topic upper else go_topic upper).

Definition normalizeDialectString (dialect : string) : string :=
  if bool_decide (ToLower (TrimSpace dialect) = "cc") then "cc" else "go".

Definition filterHelpLines (dialect : string) : list string :=
  [""; "Filter core rules:"; "PASS <type> <list> adds to allowlist and removes from blocklist.";
   "REJECT <type> <list> adds to blocklist and removes from allowlist."; "If an item appears in both lists, block wins."; "";
   "ALL keyword (type-scoped):"; "PASS <type> ALL - allow everything for that type"; "REJECT <type> ALL - block everything for that type";
   "RESET FILTER resets all filters to configured defaults for new users."; ""; "Feature toggles (not list-based):";
   "PASS BEACON | REJECT BEACON"; "PASS WWV | REJECT WWV"; "PASS WCY | REJECT WCY"; "PASS ANNOUNCE | REJECT ANNOUNCE";
   "PASS SELF | REJECT SELF"; "PASS NEARBY ON|OFF"] ++
  (if EqualFold (TrimSpace dialect) "cc" then
     [""; "CC shortcuts:"; "SET/ANN | SET/NOANN"; "SET/BEACON | SET/NOBEACON"; "SET/WWV | SET/NOWWV"; "SET/WCY | SET/NOWCY";
      "SET/SKIMMER | SET/NOSKIMMER"; "SET/<MODE> | SET/NO<MODE> (CW, FT4, FT8, RTTY)"; "SET/NOFILTER"; "SET/FILTER <type> <list>";
      "UNSET/FILTER <type> <list>"; "SET/FILTER <type>/ON  -> PASS <type> ALL"; "SET/FILTER <type>/OFF -> REJECT <type> ALL";
      "SHOW/FILTER | SH/FILTER"]
   else []).

(** The list of the commands, without a topic. *)
Definition help_overview (dialect : string) : list string :=
  let c := buildHelpCatalog dialect in
  "Available commands:" :: map (fun key => match hc_entries c !! key with Some e => he_summary e | None => "" end) (hc_order c) ++
  ["Type HELP <command> for details."] ++ filterHelpLines dialect ++ [""; "List types:"] ++ wrapListLines "" "  " filterListTypes helpMaxWidth ++
  [""; "Supported modes:"] ++ wrapListLines "" "  " SupportedModes helpMaxWidth ++ [""; "Supported bands:"] ++
  wrapListLines "" "  " SupportedBandNames helpMaxWidth.

Definition handleHelp (dialect topic : string) : string :=
  let dialect := normalizeDialectString dialect in
  let normalized := normalizeHelpTopic dialect topic in
  if bool_decide (normalized = "") then Join (help_overview dialect) nl +:+ nl
  else match lookup_help (buildHelpCatalog dialect) normalized with
       | Some e => Join (he_lines e) nl +:+ nl
       | None => "Unknown help topic: " +:+ normalized +:+ nl +:+ "Type HELP for available commands." +:+ nl
       end.

(** ** Words *)

Definition solid (w : string) : Prop := w <> "" /\ sforall (fun c => negb (is_space c)) w = true.

Definition spaces (s : string) : Prop := sforall is_space s = true.

Lemma Fields_head c s : is_space c = false -> Fields (String c s) <> [].
Proof. intros Hc. simpl. rewrite Hc. destruct s as [|d s]; [done|]. destruct (is_space d); [done|]. destruct (Fields (String d s)); done. Qed.

Lemma Fields_cons c r :
  Fields (String c r) = if is_space c then Fields r else
    match r with
    | "" => [String c ""]
    | String d _ => if is_space d then String c "" :: Fields r else match Fields r with w :: ws => String c w :: ws | [] => [String c ""] end
    end.
Proof. reflexivity. Qed.

Lemma Fields_app_space a c b : is_space c = true -> Fields (a +:+ String c b) = Fields a ++ Fields b.
Proof.
  intros Hc. induction a as [|x a IH]; [change ("" +:+ String c b) with (String c b); by rewrite Fields_cons, Hc|].
  rewrite sapp_cons, (Fields_cons x (a +:+ String c b)), (Fields_cons x a), IH. destruct (is_space x) eqn:Hx; [done|].
  destruct a as [|y a]; [cbv [String.append]; rewrite Hc; done|].
  rewrite sapp_cons. destruct (is_space y) eqn:Hy; [done|]. pose proof (Fields_head y a Hy) as Hne. destruct (Fields (String y a)); done.
Qed.

Lemma Fields_spaces s : spaces s -> Fields s = [].
Proof. unfold spaces. induction s as [|c s IH]; [done|]. simpl. intros H. apply andb_prop in H as [Hc Hs]. rewrite Hc. auto. Qed.

Lemma Fields_spaces_l i s : spaces i -> Fields (i +:+ s) = Fields s.
Proof.
  unfold spaces. induction i as [|c i IH]; [done|]. cbn [sforall]. intros H. apply andb_prop in H as [Hc Hs]. rewrite sapp_cons.
  rewrite Fields_cons, Hc. auto.
Qed.

Lemma Fields_spaces_r s i : spaces i -> Fields (s +:+ i) = Fields s.
Proof.
  intros Hi. destruct i as [|c i]; [by rewrite sapp_nil_r|]. unfold spaces in Hi. cbn [sforall] in Hi. apply andb_prop in Hi as [Hc Hs].
  by rewrite Fields_app_space, (Fields_spaces i), app_nil_r.
Qed.

Lemma Fields_solid w : solid w -> Fields w = [w].
Proof.
  intros [Hne Hw]. induction w as [|c w IH]; [done|]. cbn [sforall] in Hw. apply andb_prop in Hw as [Hc Hw]. apply negb_true_iff in Hc.
  rewrite Fields_cons, Hc. destruct w as [|d w]; [done|]. rewrite IH by done.
  cbn [sforall] in Hw. apply andb_prop in Hw as [Hd _]. apply negb_true_iff in Hd. by rewrite Hd.
Qed.

Lemma Fields_all_solid s : Forall solid (Fields s).
Proof.
  induction s as [|c s IH]; [constructor|]. rewrite Fields_cons. destruct (is_space c) eqn:Hc; [done|].
  assert (H1 : solid (String c "")) by (split; [done|cbn; by rewrite Hc]).
  assert (H2 : Forall solid [String c ""]) by (constructor; [exact H1|constructor]).
  destruct s as [|d s]; [exact H2|]. destruct (is_space d); [by constructor|].
  destruct (Fields (String d s)) as [|w ws]; [exact H2|]. inversion IH as [|? ? [Hw1 Hw2] Hws]; subst. constructor; [|done].
  split; [done|]. cbn [sforall]. by rewrite Hc, Hw2.
Qed.

Lemma Fields_TrimSpace s : Fields (TrimSpace s) = Fields s.
Proof.
  unfold TrimSpace. destruct (trim_left_split is_space s) as (a & Ha & Hsa). destruct (trim_right_split is_space (trim_left is_space s)) as (b & Hb & Hsb).
  rewrite Ha at 2. rewrite (Fields_spaces_l a) by done. rewrite Hb at 2. by rewrite Fields_spaces_r.
Qed.

Lemma blank_spaces s : blank s = true -> spaces s.
Proof.
  unfold blank, TrimSpace. intros H. apply bool_decide_eq_true in H. destruct (trim_left_split is_space s) as (a & Ha & Hsa).
  destruct (trim_right_split is_space (trim_left is_space s)) as (b & Hb & Hsb). rewrite H in Hb. rewrite Hb in Ha. change ("" +:+ b) with b in Ha.
  unfold spaces. by rewrite Ha, sforall_app, Hsa, Hsb.
Qed.

Lemma last_line_words line : flat_map Fields (last_line line) = Fields line.
Proof.
  unfold last_line. destruct (blank line) eqn:Hb; [by rewrite Fields_spaces by (by apply blank_spaces)|]. simpl. apply app_nil_r.
Qed.

Lemma wrap_words_kept width i1 i2 line words :
  spaces i1 -> spaces i2 -> Forall solid words -> flat_map Fields (wrap_words width i1 i2 line words) = Fields line ++ words.
Proof.
  intros H1 H2. revert line. induction words as [|w ws IH]; intros line Hs; [rewrite app_nil_r; apply last_line_words|].
  inversion Hs as [|? ? Hw Hws]; subst. cbn [wrap_words].
  assert (Hnew : Fields (i2 +:+ w) = [w]) by (rewrite Fields_spaces_l by done; by apply Fields_solid).
  destruct (bool_decide (line = i1) || blank line) eqn:Hfresh.
  - assert (Hline : spaces line) by (apply orb_prop in Hfresh as [H|H]; [apply bool_decide_eq_true in H as ->; done|by apply blank_spaces]).
    destruct (width <? _); cbn [flat_map]; rewrite IH by done; [by rewrite Hnew, (Fields_spaces line)|].
    rewrite Fields_spaces_l, (Fields_spaces line), Fields_solid by done. done.
  - destruct (width <? _); cbn [flat_map]; rewrite IH by done; [by rewrite Hnew|].
    change (" " +:+ w) with (String " " w). rewrite Fields_app_space by done. by rewrite (Fields_solid w), <- app_assoc.
Qed.

(** Wrapping a text loses no word and adds none: the words of the lines are the words
    of the text, in order, whatever the width and the length of the words. *)
Theorem wrapped_words_kept text width i1 i2 :
  spaces i1 -> spaces i2 -> flat_map Fields (wrapTextLines text width i1 i2) = Fields text.
Proof.
  intros H1 H2. unfold wrapTextLines. rewrite <- (Fields_TrimSpace text). set (t := TrimSpace text). case_bool_decide as Ht; [by rewrite Ht|].
  destruct (width <=? 0); [cbn [flat_map]; by rewrite app_nil_r, Fields_spaces_l|].
  pose proof (Fields_all_solid t) as Hs. destruct (Fields t) as [|w ws] eqn:Hf; [done|]. rewrite wrap_words_kept by done. by rewrite Fields_spaces.
Qed.

Lemma wrapped_words_kept_witness :
  wrapTextLines "one  two three" 10 "  " "    " = ["  one two"; "    three"] /\
  flat_map Fields (wrapTextLines "one  two three" 10 "  " "    ") = Fields "one  two three".
Proof. split; [vm_compute; reflexivity|]. apply (wrapped_words_kept "one  two three" 10 "  " "    "); reflexivity. Defined.

Lemma last_line_fits width line : len line <= width -> Forall (fun l => len l <= width) (last_line line).
Proof. unfold last_line. destruct (blank line); repeat constructor. done. Qed.

Lemma wrap_words_fit width i1 i2 line words :
  len line <= width -> Forall (fun w => len i2 + len w <= width) words -> Forall (fun l => len l <= width) (wrap_words width i1 i2 line words).
Proof.
  revert line. induction words as [|w ws IH]; intros line Hl Hw; [by apply last_line_fits|]. inversion Hw; subst. cbn [wrap_words].
  assert (Hnew : len (i2 +:+ w) <= width) by (rewrite len_sapp; lia).
  destruct (_ || _); [destruct (Z.ltb_spec width (len line + len w))|destruct (Z.ltb_spec width (len (line +:+ " " +:+ w)))];
    try (constructor; [done|]); apply IH; try done. rewrite len_sapp. lia.
Qed.

Lemma wrap_items_fit indent width line items :
  len line <= width -> Forall (fun w => len indent + len w <= width) items -> Forall (fun l => len l <= width) (wrap_items indent width line items).
Proof.
  revert line. induction items as [|w ws IH]; intros line Hl Hw; [by apply last_line_fits|]. inversion Hw; subst. cbn [wrap_items].
  assert (Hnew : len (indent +:+ w) <= width) by (rewrite len_sapp; lia).
  case_bool_decide; simpl negb; [rewrite andb_false_r; by apply IH|]. rewrite andb_true_r.
  destruct (Z.ltb_spec width (len (line +:+ ", " +:+ w))); [constructor; [done|]|]; by apply IH.
Qed.

(** No line of a wrapped text or list is longer than the width, when every word with
    the indent of its line fits. *)
Theorem wrapped_lines_fit text items width i1 i2 :
  0 < width -> len i1 <= width -> Forall (fun w => len i2 + len w <= width) (Fields text) ->
  len i2 <= width -> i2 <> "" -> Forall (fun w => len i2 + len w <= width) items ->
  Forall (fun l => len l <= width) (wrapTextLines text width i1 i2) /\ Forall (fun l => len l <= width) (wrapListLines "" i2 items width).
Proof.
  intros Hw H1 Hf H2 Hne Hi. split.
  - unfold wrapTextLines. rewrite <- (Fields_TrimSpace text) in Hf. case_bool_decide; [constructor|]. destruct (Z.leb_spec width 0); [lia|].
    destruct (Fields (TrimSpace text)) as [|w ws]; [constructor|]. by apply wrap_words_fit.
  - unfold wrapListLines. cbn [app]. destruct items as [|x xs]; [constructor|]. rewrite (bool_decide_eq_false_2 (i2 = "")) by done. by apply wrap_items_fit.
Qed.

Lemma wrapped_lines_fit_witness :
  Forall (fun l => len l <= 10) (wrapTextLines "one  two three" 10 "  " "    ") /\ Forall (fun l => len l <= 10) (wrapListLines "" "    " ["20m"; "40m"; "80m"] 10).
Proof.
  apply (wrapped_lines_fit "one  two three" ["20m"; "40m"; "80m"] 10 "  " "    "); try (vm_compute; congruence); repeat constructor; vm_compute; discriminate.
Defined.

(** ** The pages *)

Definition page_ok (e : helpEntry) : bool :=
  negb (bool_decide (he_lines e = [])) && forallb (fun l => len l <=? helpMaxWidth) (he_lines e).

Definition catalog_ok (dialect : string) : bool :=
  forallb (fun key => match lookup_help (buildHelpCatalog dialect) (normalizeHelpTopic dialect key) with Some e => page_ok e | None => false end)
    (hc_order (buildHelpCatalog dialect)) &&
  forallb (fun kv => page_ok kv.2) (map_to_list (hc_entries (buildHelpCatalog dialect))) &&
  forallb (fun l => len l <=? helpMaxWidth) (help_overview dialect).

(** In both dialects HELP with the name of any command it lists prints a page, and
    no line of the pages and of the list is longer than the 78 columns. *)
Theorem help_pages_complete dialect :
  catalog_ok (normalizeDialectString dialect) = true.
Proof. unfold normalizeDialectString. case_bool_decide; vm_compute; reflexivity. Qed.

(** SET SOLAR has a page in both dialects, but the list of the commands does not name it. *)
Theorem solar_not_listed dialect :
  is_Some (lookup_help (buildHelpCatalog (normalizeDialectString dialect)) (normalizeHelpTopic (normalizeDialectString dialect) "set solar")) /\
  forallb (fun l => negb (HasPrefix l "SET SOLAR")) (help_overview (normalizeDialectString dialect)) = true.
Proof. unfold normalizeDialectString. case_bool_decide; (split; [eexists; vm_compute; reflexivity|vm_compute; reflexivity]). Qed.
