(* ===== verification/Commands.v ===== *)
(** * Commands: the general commands of a telnet session

    [commands/processor.go]: DX posts a spot, SHOW DX and SHOW MYDX list the archive through
    the filter of the session, SHOW DXCC looks up a call, HELP is [Help], BYE ends the
    session.  The processor uses the comment parser, the CTY database, the reputation gate,
    the archive and the ring of posted spots of the other files.

    A post reaches the queue exactly when it passes every check, and then as the user gave
    it ([dx_command_spec]); a user cannot post more than the reputation gate grants
    ([dx_flood_bounded]).  A listing shows the newest matching spots, oldest first
    ([show_mydx_exact]); the prefixes of SHOW DXCC are exactly the other prefixes of the
    entity ([dxcc_siblings_exact]); and only a request to leave is answered with the word
    that ends the session ([bye_only_on_request]).

    Parsing an address is an argument; a frequency that is written as an infinity or NaN is
    outside the rationals, and such a post is [None]. *)

From S2P Require Import Prelude GoText GoNum GoTime GoBytes Callsign Bands Spot SpotFormat Filter FilterShow CommentParser GoParse Lru Cty Reputation Archive Help.
From stdpp Require Import sorting.
From Stdlib Require Import QArith Sorted.

Local Open Scope string_scope.
Local Open Scope list_scope.
Local Open Scope Z_scope.

(** ** The processor *)

Definition showDXDefaultCount : Z := 50.
Definition showDXMaxCount : Z := 250.
Definition noLoggedUserMsg : string := "No logged user found. Command ignored." +:+ nl.
Definition testCallCTYUnavailableMsg : string := "Test calls require CTY-valid prefix; CTY database unavailable." +:+ nl.
Definition testCallCTYInvalidMsg : string := "Test calls require CTY-valid prefix; unknown test callsign." +:+ nl.

(** No lookup function, one without a database, or a database with its address. *)
Inductive cty_source := NoLookup | NotLoaded | DBAt (ptr : Z) (db : CTYDatabase).

(** The listings of the archive; [None] is a failed query. *)
Record archiveReader := mkReader { ar_Recent : Z -> option (list Spot); ar_RecentFiltered : Z -> (Spot -> bool) -> option (list Spot) }.

(** A drop of the gate that is reported. *)
Record DropEvent := mkDropEvent { de_call : string; de_band : string; de_ip : string; de_decision : Decision_; de_when : Z }.

Record prefixIndex := mkPrefixIndex { pi_db : option Z; adifToPrefixes : gmap Z (list string) }.

Record Processor := mkProcessor {
  pr_archive : option archiveReader;
  pr_input : option (list Spot);        (* the channel of posted spots *)
  pr_capacity : Z;
  pr_cty : cty_source;
  pr_prefixIdx : prefixIndex;
  pr_gate : option Gate;
  pr_report : option (list DropEvent)   (* what the report function has received *)
}.

Definition with_cty (c : cty_source) (p : Processor) : Processor :=
  mkProcessor (pr_archive p) (pr_input p) (pr_capacity p) c (pr_prefixIdx p) (pr_gate p) (pr_report p).
Definition with_input (q : list Spot) (p : Processor) : Processor :=
  mkProcessor (pr_archive p) (Some q) (pr_capacity p) (pr_cty p) (pr_prefixIdx p) (pr_gate p) (pr_report p).
Definition with_gate (g : Gate) (p : Processor) : Processor :=
  mkProcessor (pr_archive p) (pr_input p) (pr_capacity p) (pr_cty p) (pr_prefixIdx p) (Some g) (pr_report p).
Definition with_report (r : option (list DropEvent)) (p : Processor) : Processor :=
  mkProcessor (pr_archive p) (pr_input p) (pr_capacity p) (pr_cty p) (pr_prefixIdx p) (pr_gate p) r.
Definition with_prefixIdx (i : prefixIndex) (p : Processor) : Processor :=
  mkProcessor (pr_archive p) (pr_input p) (pr_capacity p) (pr_cty p) i (pr_gate p) (pr_report p).

(** A lookup with a loaded database: whether the call is known. *)
Definition known_to_cty (call : string) (p : Processor) : option bool * Processor :=
  match pr_cty p with
  | DBAt ptr db => let '(r, db) := LookupCallsignPortable db call in (Some (is_some r), with_cty (DBAt ptr db) p)
  | _ => (None, p)
  end.

(** ** DX *)

Definition testSpotterBaseCall (call : string) : option string :=
  let call := TrimSpace call in
  if bool_decide (call = "") || Contains call "/" then None
  else if HasSuffix call "TEST" then Some call
  else match LastIndexByte call "-" with
       | None => None
       | Some idx =>
           if (idx <=? 0)%nat || (String.length call - 1 <=? idx)%nat then None
           else if negb (sforall is_digit (sdrop (S idx) call)) then None
           else let base := stake idx call in if HasSuffix base "TEST" then Some base else None
       end.

(** The assignments after [NewSpotNormalized]. *)
Definition posted_fields (parsed : CommentParseResult) (spotter ip : string) (test : bool) (s : Spot) : Spot :=
  mkSpot (ID s) (DXCall s) (DECall s) (Frequency s) (Band s) (Mode s) (p_report parsed) (Time s)
    (p_comment parsed) (SourceType s) spotter ip (TTL s) (IsHuman s) test (IsBeacon s) (p_hasReport parsed) (DXMetadata s) (DEMetadata s)
    (Confidence s) (formatted s) (ModeNorm s) (BandNorm s) (DXCallNorm s) (DECallNorm s) (DXContinentNorm s)
    (DEContinentNorm s) (DXGridNorm s) (DEGridNorm s) (DXGrid2 s) (DEGrid2 s) (DXCellID s) (DECellID s)
    (DECallStripped s) (DECallNormStripped s).

Section Commands.
Variable parse_addr : string -> option ipaddr.

(** The spotter of a test call has to be known. *)
Definition test_call_check (spotterNorm : string) (p : Processor) : option string * bool * Processor :=
  match testSpotterBaseCall spotterNorm with
  | None => (None, false, p)
  | Some base =>
      match known_to_cty base p with
      | (None, p) => (Some testCallCTYUnavailableMsg, true, p)
      | (Some false, p) => (Some testCallCTYInvalidMsg, true, p)
      | (Some true, p) => (None, true, p)
      end
  end.

(** [true]: the gate lets the spot through, or there is none. *)
Definition gate_check (spotterNorm spotterIP : string) (freq : Q) (now : Z) (p : Processor) : bool * Processor :=
  match pr_gate p with
  | None => (true, p)
  | Some g =>
      let band := FreqToBand freq in
      let '(d, g) := Check_ g spotterNorm band (parse_addr (TrimSpace spotterIP)) now in
      match d_drop d with
      | None => (true, with_gate g p)
      | Some _ => (false, with_report (fmap (fun l => l ++ [mkDropEvent spotterNorm band spotterIP d now]) (pr_report p)) (with_gate g p))
      end
  end.

Definition posted_spot (dx spotterNorm spotterIP comment : string) (freq : Q) (test : bool) (now : Z) : Spot :=
  let parsed := ParseSpotComment comment freq in
  posted_fields parsed spotterNorm (TrimSpace spotterIP) test (NewSpotNormalized dx spotterNorm freq (p_mode parsed) now).

(** The channel send, which does not block. *)
Definition enqueue_post (s : Spot) (p : Processor) : string * Processor :=
  match pr_input p with
  | None => ("Spot input is not configured on this cluster." +:+ nl, p)
  | Some q =>
      if Z.of_nat (length q) <? pr_capacity p then ("Spot queued." +:+ nl, with_input (q ++ [s]) p)
      else ("Spot queue full; try again." +:+ nl, p)
  end.

(** From the frequency on. *)
Definition dx_with_freq (freq : Q) (fields : list string) (spotterNorm spotterIP : string) (now : Z) (p : Processor) : string * Processor :=
  let dx := normalize_call (TrimSpace (nth 2 fields "")) in
  if negb (IsValidNormalizedCallsign dx) then ("Invalid DX callsign." +:+ nl, p)
  else
    let '(known, p) := known_to_cty dx p in
    if bool_decide (known = Some false) then ("Unknown DX callsign (not in CTY database)." +:+ nl, p)
    else
      let '(err, test, p) := test_call_check spotterNorm p in
      match err with
      | Some msg => (msg, p)
      | None =>
          let '(pass, p) := gate_check spotterNorm spotterIP freq now p in
          if negb pass then ("", p)
          else
            let comment := TrimSpace (GoText.Join (skipn 3 fields) " ") in
            enqueue_post (posted_spot dx spotterNorm spotterIP comment freq test now) p
      end.

(** [None]: a frequency that is infinity or no number; minus infinity is refused. *)
Definition handleDX (fields : list string) (spotter spotterIP : string) (now : Z) (p : Processor) : option (string * Processor) :=
  let spotterRaw := TrimSpace spotter in
  if bool_decide (spotterRaw = "") then Some ("DX command requires a logged-in callsign." +:+ nl, p)
  else
    let spotterNorm := normalize_call spotterRaw in
    if negb (IsValidNormalizedCallsign spotterNorm) then Some ("DX command requires a valid callsign." +:+ nl, p)
    else if (length fields <? 3)%nat then Some ("Usage: DX <frequency> <callsign> [comment]" +:+ nl, p)
    else match ParseFloat (nth 1 fields "") with
         | FloatNonFinite =>
             if HasPrefix (nth 1 fields "") "-" then Some ("Invalid frequency. Use a kHz value like 7001.0." +:+ nl, p) else None
         | FloatErr => Some ("Invalid frequency. Use a kHz value like 7001.0." +:+ nl, p)
         | FloatVal freq =>
             if Qle_b freq 0 then Some ("Invalid frequency. Use a kHz value like 7001.0." +:+ nl, p)
             else Some (dx_with_freq freq fields spotterNorm spotterIP now p)
         end.

(** ** SHOW *)

Definition showDXUsage (dialect : string) : string :=
  if bool_decide (normalizeDialectString dialect = "cc") then "Usage: SHOW/DX [count 1-250]" +:+ nl else "Usage: SHOW DX [count 1-250]" +:+ nl.

(** The digits a number begins with. *)
Fixpoint leading_digits (s : string) : string :=
  match s with
  | String c s => if is_digit c then String c (leading_digits s) else ""
  | "" => ""
  end.

(** [fmt.Sscanf(s, "%d", &n)]: leading space, a sign, digits; what follows is left. *)
Definition Sscanf_d (s : string) : option Z :=
  let s := trim_left is_space s in
  let '(sign, rest) := match s with
                       | String c r => if bool_decide (c ∈ ["+"%char; "-"%char]) then (String c "", r) else ("", s)
                       | "" => ("", s)
                       end in
  let ds := leading_digits rest in
  if bool_decide (ds = "") then None else Atoi (sign +:+ ds).

Definition badCountMsg : string := "Invalid count. Use 1-250." +:+ nl.

(** The count of the arguments, or nothing when it is out of range. *)
Definition show_count (args : list string) : option Z :=
  match args with
  | [] => Some showDXDefaultCount
  | a :: _ => match Sscanf_d a with
              | None => None
              | Some n => if (n <? 1) || (showDXMaxCount <? n) then None else Some n
              end
  end.

Definition crlf : string := String (byte_of 13) (String (byte_of 10) "").

Variable layout : dxClusterLayout.

Fixpoint show_lines (spots : list Spot) : string :=
  match spots with
  | [] => ""
  | s :: spots => (FormatDXCluster layout s).1 +:+ crlf +:+ show_lines spots
  end.

(** The rows of a query, oldest first. *)
Definition show_rows (rows : option (list Spot)) : string :=
  let spots := default [] rows in
  match spots with
  | [] => "No spots available." +:+ nl
  | _ => show_lines (rev spots)
  end.

Definition handleShowDX (args : list string) (p : Processor) : string :=
  match show_count args with
  | None => badCountMsg
  | Some count => match pr_archive p with None => "No spots available." +:+ nl | Some a => show_rows (ar_Recent a count) end
  end.

Definition handleShowMYDX (args : list string) (filterFn : option (Spot -> bool)) (p : Processor) : string :=
  match filterFn with
  | None => noLoggedUserMsg
  | Some f =>
      match show_count args with
      | None => badCountMsg
      | Some count => match pr_archive p with None => "No spots available." +:+ nl | Some a => show_rows (ar_RecentFiltered a count f) end
      end
  end.

(** The sorted prefixes of every entity. *)
Definition add_prefix (m : gmap Z (gset string)) (info : PrefixInfo) : gmap Z (gset string) :=
  let pref := ToUpper (TrimSpace (p_Prefix info)) in
  if bool_decide (pref = "") then m else <[p_ADIF info := {[pref]} ∪ default ∅ (m !! p_ADIF info)]> m.

Definition buildPrefixMap (db : CTYDatabase) : gmap Z (list string) :=
  fmap (fun set : gset string => sort_strings (elements set)) (fold_left add_prefix (map snd (map_to_list (Data db))) ∅).

Definition siblings (ptr : Z) (db : CTYDatabase) (adif : Z) (current : string) (i : prefixIndex) : list string * prefixIndex :=
  let i := if bool_decide (pi_db i = Some ptr) then i else mkPrefixIndex (Some ptr) (buildPrefixMap db) in
  let current := ToUpper (TrimSpace current) in
  (filter (fun pref => pref <> "" /\ pref <> current) (default [] (adifToPrefixes i !! adif)), i).

Definition dxcc_line (lookup : string) (info : PrefixInfo) (prefix : string) (others : list string) : string :=
  lookup +:+ " -> ADIF " +:+ Itoa (p_ADIF info) +:+ " | " +:+ TrimSpace (p_Country info) +:+ " (" +:+ ToUpper (TrimSpace (p_Continent info)) +:+
  ") | Prefix: " +:+ prefix +:+ " | CQ " +:+ Itoa (p_CQZone info) +:+ " | ITU " +:+ Itoa (p_ITUZone info) +:+
  (match others with [] => "" | _ => " | Other: " +:+ GoText.Join others ", " end) +:+ nl.

Definition handleShowDXCC (args : list string) (p : Processor) : string * Processor :=
  match args with
  | [] => ("Usage: SHOW DXCC <prefix|callsign>" +:+ nl, p)
  | arg :: _ =>
      match pr_cty p with
      | NoLookup => ("CTY database is not available." +:+ nl, p)
      | NotLoaded => ("CTY database is not loaded." +:+ nl, p)
      | DBAt ptr db =>
          let queryRaw := TrimSpace arg in
          if bool_decide (queryRaw = "") then ("Usage: SHOW DXCC <prefix|callsign>" +:+ nl, p)
          else
            let lookup := normalize_call queryRaw in
            if bool_decide (lookup = "") then ("Unknown DXCC/prefix." +:+ nl, p)
            else
              let '(info, db) := LookupCallsignPortable db lookup in
              let p := with_cty (DBAt ptr db) p in
              match info with
              | None => ("Unknown DXCC/prefix." +:+ nl, p)
              | Some info =>
                  let prefix := ToUpper (TrimSpace (p_Prefix info)) in
                  let '(others, i) := siblings ptr db (p_ADIF info) prefix (pr_prefixIdx p) in
                  (dxcc_line lookup info prefix others, with_prefixIdx i p)
              end
      end
  end.

Definition handleShow (args : list string) (filterFn : option (Spot -> bool)) (dialect : string) (p : Processor) : string * Processor :=
  match args with
  | [] => (showDXUsage dialect, p)
  | sub :: rest =>
      if bool_decide (sub = "DX") || bool_decide (sub = "MYDX") then (handleShowMYDX rest filterFn p, p)
      else if bool_decide (sub = "DXCC") then handleShowDXCC rest p
      else ("Unknown SHOW subcommand: " +:+ sub +:+ nl, p)
  end.

(** ** Routing *)

(** The history aliases of a dialect; [None]: no such line. *)
Definition history_alias (command : string) (parts : list string) (filterFn : option (Spot -> bool)) (dialect : string) (p : Processor) : option (string * Processor) :=
  if bool_decide (dialect = "cc") then
    if bool_decide (command ∈ ["SHOW/DX"; "SH/DX"]) then Some (handleShow ("DX" :: tail parts) filterFn dialect p)
    else if bool_decide (command ∈ ["SHOW"; "SH"]) && (2 <=? length parts)%nat && bool_decide (nth 1 parts "" = "DX")
    then Some ("Use SHOW/DX or SH/DX for DX history." +:+ nl, p)
    else None
  else if bool_decide (command ∈ ["SHOW/DX"; "SH/DX"]) then Some ("Use SHOW DX or SH DX for DX history." +:+ nl, p)
  else None.

Definition general_command (command : string) (parts : list string) (filterFn : option (Spot -> bool)) (dialect : string) (p : Processor) : string * Processor :=
  if bool_decide (command ∈ ["HELP"; "H"]) then (handleHelp dialect (if (1 <? length parts)%nat then GoText.Join (tail parts) " " else ""), p)
  else if bool_decide (command ∈ ["SH"; "SHOW"]) then
    if (length parts <? 2)%nat then (showDXUsage dialect, p) else handleShow (tail parts) filterFn dialect p
  else if bool_decide (command ∈ ["BYE"; "QUIT"; "EXIT"]) then ("BYE", p)
  else ("Unknown command: " +:+ command +:+ nl +:+ "Type HELP for available commands." +:+ nl, p).

Definition ProcessCommandForClient (cmd spotter spotterIP : string) (filterFn : option (Spot -> bool)) (dialect : string) (now : Z) (p : Processor)
    : option (string * Processor) :=
  let cmd := TrimSpace cmd in
  if bool_decide (cmd = "") then Some ("", p)
  else if bool_decide (TrimSpace spotter = "") then Some (noLoggedUserMsg, p)
  else match Fields cmd with
       | [] => Some ("", p)
       | f0 :: _ =>
           if EqualFold f0 "DX" then handleDX (Fields cmd) spotter spotterIP now p
           else
             let parts := Fields (ToUpper cmd) in
             let command := nth 0 parts "" in
             let dialect := normalizeDialectString dialect in
             match history_alias command parts filterFn dialect p with
             | Some r => Some r
             | None => Some (general_command command parts filterFn dialect p)
             end
       end.

Definition ProcessCommand (cmd : string) (now : Z) (p : Processor) : option (string * Processor) :=
  ProcessCommandForClient cmd "" "" None "go" now p.
End Commands.

(** ** Posting *)

(** The reply of a post that was queued. *)
Definition queuedMsg : string := "Spot queued." +:+ nl.

Lemma known_frame call p :
  pr_input (known_to_cty call p).2 = pr_input p /\ pr_capacity (known_to_cty call p).2 = pr_capacity p /\
  pr_gate (known_to_cty call p).2 = pr_gate p /\ pr_report (known_to_cty call p).2 = pr_report p.
Proof. unfold known_to_cty. destruct (pr_cty p) as [| |ptr db]; [done..|]. destruct (LookupCallsignPortable db call). done. Qed.

(** What a database is asked does not change what it knows. *)
Lemma known_again call other p : (known_to_cty other (known_to_cty call p).2).1 = (known_to_cty other p).1.
Proof.
  unfold known_to_cty. destruct (pr_cty p) as [| |ptr db] eqn:Hc; [simpl; by rewrite Hc..|].
  unfold LookupCallsignPortable. case_bool_decide; simpl; case_bool_decide; done.
Qed.

Lemma test_frame spotter p :
  let '(_, _, p') := test_call_check spotter p in
  pr_input p' = pr_input p /\ pr_capacity p' = pr_capacity p /\ pr_gate p' = pr_gate p /\ pr_report p' = pr_report p.
Proof.
  unfold test_call_check. destruct (testSpotterBaseCall spotter) as [base|]; [|done].
  pose proof (known_frame base p) as Hf. destruct (known_to_cty base p) as [[[]|] p']; done.
Qed.

Section Posting.
Variable parse_addr : string -> option ipaddr.

(** Whether the gate lets a post through. *)
Definition gate_grants (spotterNorm spotterIP : string) (freq : Q) (now : Z) (p : Processor) : Prop :=
  match pr_gate p with
  | None => True
  | Some g => d_drop (Check_ g spotterNorm (FreqToBand freq) (parse_addr (TrimSpace spotterIP)) now).1 = None
  end.

(** The calls a post needs to be known are, when there is a database to ask. *)
Definition calls_known (dx spotterNorm : string) (p : Processor) : Prop :=
  (known_to_cty dx p).1 <> Some false /\
  match testSpotterBaseCall spotterNorm with None => True | Some base => (known_to_cty base p).1 = Some true end.

Definition is_test_call (spotterNorm : string) : bool := is_some (testSpotterBaseCall spotterNorm).

Lemma test_check_ok spotter p :
  let '(err, test, _) := test_call_check spotter p in
  test = is_test_call spotter /\ (err = None <-> match testSpotterBaseCall spotter with None => True | Some base => (known_to_cty base p).1 = Some true end) /\
  (err = None \/ err = Some testCallCTYUnavailableMsg \/ err = Some testCallCTYInvalidMsg).
Proof.
  unfold test_call_check, is_test_call. destruct (testSpotterBaseCall spotter) as [base|]; [|split; [done|split; [done|auto]]].
  destruct (known_to_cty base p) as [[[]|] p']; simpl; (split; [done|split; [done|auto]]).
Qed.

Lemma gate_check_frame spotterNorm spotterIP freq now p :
  let '(pass, p') := gate_check parse_addr spotterNorm spotterIP freq now p in
  (pass = true <-> gate_grants spotterNorm spotterIP freq now p) /\ pr_input p' = pr_input p /\ pr_capacity p' = pr_capacity p /\
  pr_gate p' = fmap (fun g => (Check_ g spotterNorm (FreqToBand freq) (parse_addr (TrimSpace spotterIP)) now).2) (pr_gate p).
Proof.
  unfold gate_check, gate_grants. destruct (pr_gate p) as [g|] eqn:Hg; [|simpl; rewrite Hg; done].
  simpl. destruct (Check_ g spotterNorm (FreqToBand freq) _ now) as [d g']. simpl. destruct (d_drop d); simpl; done.
Qed.

(** The post in its last form: refused before the gate, or by it, or offered to the queue. *)
Lemma dx_with_freq_cases freq fields spotterNorm spotterIP now p :
  let dx := normalize_call (TrimSpace (nth 2 fields "")) in
  let r := dx_with_freq parse_addr freq fields spotterNorm spotterIP now p in
  let s := posted_spot dx spotterNorm spotterIP (TrimSpace (GoText.Join (skipn 3 fields) " ")) freq (is_test_call spotterNorm) now in
  let asked := fmap (fun g => (Check_ g spotterNorm (FreqToBand freq) (parse_addr (TrimSpace spotterIP)) now).2) (pr_gate p) in
  (~ (IsValidNormalizedCallsign dx = true /\ calls_known dx spotterNorm p) /\ r.1 <> queuedMsg /\ pr_input r.2 = pr_input p /\ pr_gate r.2 = pr_gate p) \/
  (IsValidNormalizedCallsign dx = true /\ calls_known dx spotterNorm p /\ pr_gate r.2 = asked /\
   ((~ gate_grants spotterNorm spotterIP freq now p /\ r.1 = "" /\ pr_input r.2 = pr_input p) \/
    (gate_grants spotterNorm spotterIP freq now p /\
     ((r.1 <> queuedMsg /\ pr_input r.2 = pr_input p) \/
      (exists q, pr_input p = Some q /\ Z.of_nat (length q) < pr_capacity p /\ r.1 = queuedMsg /\ pr_input r.2 = Some (q ++ [s])))))).
Proof.
  intros dx r s asked. unfold r, dx_with_freq. fold dx. destruct (IsValidNormalizedCallsign dx) eqn:Hv; cbn [negb]; cbv iota;
    [|left; split; [intros [? _]; congruence|done]].
  pose proof (known_frame dx p) as (F1 & F2 & F3 & F4). pose proof (fun b => known_again dx b p) as Hagain. unfold calls_known.
  destruct (known_to_cty dx p) as [known p1]. simpl in F1, F2, F3, F4, Hagain |- *.
  case_bool_decide as Hk; [left; split; [intros (_ & ? & _); done|split; [done|simpl; by rewrite F1, F3]]|].
  pose proof (test_frame spotterNorm p1) as T1. pose proof (test_check_ok spotterNorm p1) as T2.
  destruct (test_call_check spotterNorm p1) as [[err test] p2]. destruct T1 as (T11 & T12 & T13 & T14). destruct T2 as (-> & T2 & T3).
  assert (Hknown : match testSpotterBaseCall spotterNorm with None => True | Some base => (known_to_cty base p1).1 = Some true end <->
                   match testSpotterBaseCall spotterNorm with None => True | Some base => (known_to_cty base p).1 = Some true end)
    by (destruct (testSpotterBaseCall spotterNorm); [by rewrite Hagain|done]).
  rewrite Hknown in T2. destruct err as [msg|].
  - left. split; [intros (_ & _ & Ht); by apply T2 in Ht|]. split; [|simpl; by rewrite T11, T13, F1, F3].
    simpl. destruct T3 as [|[[= ->]|[= ->]]]; [done|vm_compute; discriminate..].
  - right. split; [done|]. split; [split; [done|by apply T2]|].
    pose proof (gate_check_frame spotterNorm spotterIP freq now p2) as G. destruct (gate_check parse_addr spotterNorm spotterIP freq now p2) as [pass p3].
    destruct G as (G1 & G2 & G3 & G4). unfold gate_grants in G1 |- *. rewrite T13, F3 in G1, G4. fold asked in G4.
    destruct pass; cbn [negb]; cbv iota.
    + fold s. unfold enqueue_post. rewrite G2, G3, T11, T12, F1, F2. destruct (pr_input p) as [q|] eqn:Hq.
      * destruct (Z.ltb_spec (Z.of_nat (length q)) (pr_capacity p)) as [Hroom|Hfull].
        -- split; [done|]. right. split; [by apply G1|]. right. by exists q.
        -- split; [done|]. right. split; [by apply G1|]. left. split; [vm_compute; discriminate|]. simpl. by rewrite G2, T11, F1.
      * split; [done|]. right. split; [by apply G1|]. left. split; [vm_compute; discriminate|]. simpl. by rewrite G2, T11, F1.
    + split; [done|]. left. split; [intros Hg; by apply G1 in Hg|]. split; [done|]. simpl. by rewrite G2, T11, F1.
Qed.
End Posting.


(** ** How much a user can post *)

Record dx_post := mkDxPost { dp_fields : list string; dp_spotter : string; dp_ip : string; dp_time : Z }.

Definition poster (x : dx_post) : string := upper_trim (normalize_call (TrimSpace (dp_spotter x))).

Section Flood.
Variable parse_addr : string -> option ipaddr.

(** The posts of many users with whether they were queued; [None] when a frequency is no number. *)
Fixpoint dx_run (posts : list dx_post) (p : Processor) : option (list (string * bool)) :=
  match posts with
  | [] => Some []
  | x :: posts =>
      match handleDX parse_addr (dp_fields x) (dp_spotter x) (dp_ip x) (dp_time x) p with
      | None => None
      | Some (reply, p) => fmap (fun l => (poster x, bool_decide (reply = queuedMsg)) :: l) (dx_run posts p)
      end
  end.

(** A command that stops before the gate, or asks it. *)
Lemma handleDX_gate x p reply p' :
  handleDX parse_addr (dp_fields x) (dp_spotter x) (dp_ip x) (dp_time x) p = Some (reply, p') ->
  (pr_gate p' = pr_gate p /\ reply <> queuedMsg) \/
  (exists band addr, pr_gate p' = fmap (fun g => (Check_ g (normalize_call (TrimSpace (dp_spotter x))) band addr (dp_time x)).2) (pr_gate p) /\
     forall g, pr_gate p = Some g -> reply = queuedMsg -> d_drop (Check_ g (normalize_call (TrimSpace (dp_spotter x))) band addr (dp_time x)).1 = None).
Proof.
  intros H. unfold handleDX in H.
  case_bool_decide; [injection H as <- <-; left; split; [done|vm_compute; discriminate]|].
  destruct (negb _); [injection H as <- <-; left; split; [done|vm_compute; discriminate]|].
  destruct (_ <? _)%nat; [injection H as <- <-; left; split; [done|vm_compute; discriminate]|].
  destruct (ParseFloat _) as [| |freq];
    [injection H as <- <-; left; split; [done|vm_compute; discriminate]
    |destruct (HasPrefix _ _); [|done]; injection H as <- <-; left; split; [done|vm_compute; discriminate]|].
  destruct (Qle_b freq 0); [injection H as <- <-; left; split; [done|vm_compute; discriminate]|]. injection H as H.
  pose proof (dx_with_freq_cases parse_addr freq (dp_fields x) (normalize_call (TrimSpace (dp_spotter x))) (dp_ip x) (dp_time x) p) as Hc.
  cbv zeta in Hc. rewrite H in Hc. simpl in Hc.
  destruct Hc as [(_ & Hr & _ & Hg)|(_ & _ & Hg & Hcases)]; [by left|]. right. exists (FreqToBand freq), (parse_addr (TrimSpace (dp_ip x))).
  split; [done|]. intros g Hg' Hq. unfold gate_grants in Hcases. rewrite Hg' in Hcases.
  destruct Hcases as [(_ & Hr & _)|(Hpass & _)]; [|done]. rewrite Hr in Hq. vm_compute in Hq. discriminate.
Qed.

Lemma dx_run_bound c call t0 t1 posts p g a t l :
  config_ok c -> enabled c = true -> zero_time < t0 -> t1 - t0 <= max_int64 -> call <> "" ->
  pr_gate p = Some g -> g_cfg g = c -> map_Forall (fun _ => call_ok c) (g_calls g) ->
  StronglySorted Z.le (map dp_time posts) -> Forall (fun x => t <= dp_time x /\ t0 <= dp_time x <= t1) posts -> t0 <= t <= t1 ->
  posting_inv c t0 a t (g_calls g !! call) -> dx_run posts p = Some l ->
  a + posted call l <= totalCapPostRamp c * ((t1 - t0) / rampWindow c + 1).
Proof.
  intros Hcfg Hen Hz Hshort Hne. revert p g a t l. induction posts as [|x posts IH]; intros p g a t l Hgate Hc Hok Hsort Hin Ht Hinv Hrun.
  - injection Hrun as <-. change (posted call []) with 0. rewrite Z.add_0_r. by eapply (posting_inv_bound c Hcfg call t0 t1).
  - cbn [dx_run] in Hrun. destruct (handleDX _ _ _ _ _ p) as [[reply p']|] eqn:Hdx; [|done]. destruct (dx_run posts p') as [l'|] eqn:Hrest; [|done].
    injection Hrun as <-. simpl in Hsort. apply StronglySorted_inv in Hsort as [Hsort Hle]. apply Forall_cons in Hin as [[Hn1 Hn2] Hin].
    assert (Hin' : Forall (fun y => dp_time x <= dp_time y /\ t0 <= dp_time y <= t1) posts).
    { apply list.Forall_forall. intros y Hy. split.
      - apply (proj1 (list.Forall_forall _ _) Hle). apply list_elem_of_fmap. by exists y.
      - by apply (proj1 (list.Forall_forall _ _) Hin y Hy). }
    apply (posting_inv_later c t0 a t (dp_time x)) in Hinv; [|done].
    destruct (handleDX_gate x p reply p' Hdx) as [[Hg Hnq]|(band & addr & Hg & Hq)].
    + rewrite posted_no by (right; by apply bool_decide_eq_false). rewrite Hgate in Hg. by eapply (IH p' g a (dp_time x)).
    + rewrite Hgate in Hg. simpl in Hg.
      destruct (check_step c Hcfg call t0 t1 Hen Hz Hshort g a (normalize_call (TrimSpace (dp_spotter x))) band addr (dp_time x) Hc Hok Hne Hn2 Hinv) as (S1 & S2 & S3).
      specialize (IH p' _ _ (dp_time x) l' Hg S1 S2 Hsort Hin' ltac:(lia) S3 Hrest). fold (poster x) in IH.
      destruct (decide (poster x = call /\ reply = queuedMsg)) as [[Hp Hr]|Hno].
      * rewrite decide_True in IH by (split; [done|by apply Hq]). rewrite Hp, bool_decide_true, posted_yes by done. lia.
      * rewrite posted_no by (destruct (decide (poster x = call)); [right; apply bool_decide_eq_false; tauto|by left]). clear S3. revert IH. case_decide; lia.
Qed.
End Flood.

(** C14: A user cannot flood the cluster with posts: from the start of the gate, among the
    posts of any other users, the number of spots queued for a call is at most the final
    cap of the reputation gate for each of its windows that has begun. *)
Theorem dx_flood_bounded parse_addr c g p call posts l t0 t1 :
  enabled c = true -> pr_gate p = Some g -> g_cfg g = normalizeGateConfig c -> g_calls g = ∅ -> call <> "" ->
  StronglySorted Z.le (map dp_time posts) -> Forall (fun x => t0 <= dp_time x <= t1) posts -> zero_time < t0 <= t1 -> t1 - t0 <= max_int64 ->
  dx_run parse_addr posts p = Some l ->
  posted call l <= totalCapPostRamp (normalizeGateConfig c) * ((t1 - t0) / rampWindow (normalizeGateConfig c) + 1).
Proof.
  intros Hen Hgate Hc Hempty Hne Hs Hf Ht Hshort Hrun. rewrite <- (Z.add_0_l (posted _ _)).
  eapply (dx_run_bound parse_addr (normalizeGateConfig c) call t0 t1 posts p g 0 t0); try done.
  - apply normalize_config_ok.
  - lia.
  - rewrite Hempty. apply map_Forall_empty.
  - eapply Forall_impl; [done|]. simpl. lia.
  - lia.
  - by rewrite Hempty, lookup_empty.
Qed.

(** ** Listings *)

(** The archive as the processor sees it. *)
Definition writer_reader `{Pebble DB} (w : Writer DB) : archiveReader :=
  mkReader (fun n => Some (Recent n w)) (fun n f => Some (RecentFiltered n f w)).

Lemma show_count_range args n : show_count args = Some n -> 1 <= n <= 250.
Proof.
  unfold show_count. destruct args as [|a ?]; [intros [= <-]; unfold showDXDefaultCount; lia|]. destruct (Sscanf_d a) as [m|]; [|done].
  destruct (Z.ltb_spec m 1); [done|]. unfold showDXMaxCount. destruct (Z.ltb_spec 250 m); [done|]. intros [= <-]. lia.
Qed.

(** SHOW MYDX with a count in range prints the lines of the newest archived spots the
    filter of the session admits, at most that many, the oldest of them first and each
    ended by CR LF. *)
Theorem show_mydx_exact `{PebbleLaws DB} layout args n f (w : Writer DB) p :
  show_count args = Some n -> pr_archive p = Some (writer_reader w) -> archive_ok (w_db w) ->
  let spots := rev (newest_matching n f (w_db w)) in
  handleShowMYDX layout args (Some f) p = (if bool_decide (spots = []) then "No spots available." +:+ nl else show_lines layout spots) /\
  (length spots <= Z.to_nat n <= 250)%nat /\ Forall (fun s => f s = true) spots /\ StronglySorted (fun a b => Time a <= Time b) spots.
Proof.
  intros Hn Ha Hok spots. pose proof (show_count_range args n Hn) as Hr. split; [|split; [|split]].
  - unfold handleShowMYDX. rewrite Hn, Ha. simpl. rewrite recent_filtered_spec by done. unfold show_rows. simpl. unfold spots.
    destruct (newest_matching n f (w_db w)) as [|s l]; [done|]. rewrite bool_decide_false; [done|]. intros E. apply (f_equal length) in E.
    rewrite length_rev in E. done.
  - unfold spots. rewrite length_rev. unfold newest_matching. rewrite length_take. lia.
  - unfold spots. apply Forall_rev. apply Forall_take. apply list.Forall_forall. intros s Hs. apply list_elem_of_filter in Hs as [Hs _]. done.
  - unfold spots. pose proof (newest_matching_sorted n f (w_db w) Hok) as Hs. unfold newer_first in Hs.
    induction Hs as [|x l Hs IH Hle]; simpl; [constructor|]. apply sorted_snoc; [done|]. apply Forall_rev. done.
Qed.

(** ** SHOW DXCC *)

(** The prefix of an entry as SHOW DXCC prints it. *)
Definition shown_prefix (info : PrefixInfo) : string := ToUpper (TrimSpace (p_Prefix info)).

Lemma add_prefixes l m adif x :
  x ∈ default ∅ (fold_left add_prefix l m !! adif) <->
  x ∈ default ∅ (m !! adif) \/ exists info, info ∈ l /\ p_ADIF info = adif /\ shown_prefix info = x /\ x <> "".
Proof.
  revert m. induction l as [|i l IH]; intros m; cbn [fold_left].
  { split; [by left|]. intros [|(info & Hin & _)]; [done|by apply not_elem_of_nil in Hin]. }
  rewrite IH. assert (Hstep : x ∈ default ∅ (add_prefix m i !! adif) <-> x ∈ default ∅ (m !! adif) \/ (p_ADIF i = adif /\ shown_prefix i = x /\ x <> "")).
  { unfold add_prefix. fold (shown_prefix i). case_bool_decide as He.
    - split; [by left|]. intros [|(_ & Hx & Hn)]; [done|congruence].
    - destruct (decide (p_ADIF i = adif)) as [<-|Hne].
      + rewrite lookup_insert_eq. simpl. rewrite elem_of_union, elem_of_singleton. split; [intros [-> |]; auto|intros [|(_ & <- & _)]; auto].
      + rewrite lookup_insert_ne by done. split; [by left|]. intros [|(? & _)]; [done|congruence]. }
  rewrite Hstep. split.
  - intros [[|(H1 & H2 & H3)]|(info & Hin & H1)]; [by left|right; exists i; split; [apply elem_of_cons; by left|done]|right; exists info; split; [apply elem_of_cons; by right|done]].
  - intros [|(info & Hin & H1)]; [auto|]. apply elem_of_cons in Hin as [-> |Hin]; [auto|]. right. by exists info.
Qed.

(** The index belongs to the database it was built from. *)
Definition index_ok (ptr : Z) (db : CTYDatabase) (i : prefixIndex) : Prop := pi_db i = Some ptr -> adifToPrefixes i = buildPrefixMap db.

(** A database whose counters have moved is the same for the index. *)
Lemma buildPrefixMap_lookup db call : buildPrefixMap (LookupCallsignPortable db call).2 = buildPrefixMap db.
Proof. unfold LookupCallsignPortable. case_bool_decide; done. Qed.

Lemma str_le_cons a b s t : str_le (String a s) (String b t) <-> (N_of_ascii a < N_of_ascii b)%N \/ (a = b /\ str_le s t).
Proof.
  unfold str_le, String.leb. cbn [String.compare]. unfold Ascii.compare. destruct (N.compare_spec (N_of_ascii a) (N_of_ascii b)) as [E|E|E].
  - assert (a = b) as -> by (rewrite <- (ascii_N_embedding a), E; apply ascii_N_embedding).
    split; [intros H; by right|intros [H|[_ H]]; [lia|done]].
  - split; [by left|done].
  - split; [done|]. intros [H|[-> _]]; lia.
Qed.

#[export] Instance str_le_transitive : Transitive str_le.
Proof.
  intros s. induction s as [|a s IH]; intros [|b t] [|c u]; try done. rewrite !str_le_cons.
  intros [H1|[-> H1]] [H2|[-> H2]]; [left; lia|by left|by left|right; split; [done|by eapply IH]].
Qed.

#[export] Instance str_le_total : Total str_le.
Proof. intros s t. apply String.leb_total. Qed.

Lemma sort_strings_sorted l : StronglySorted str_le (sort_strings l).
Proof. apply Sorted_StronglySorted; [exact str_le_transitive|]. apply (Sorted_merge_sort str_le). Qed.

(** The other prefixes of SHOW DXCC are exactly those of the entries of the database
    with the same ADIF number, in upper case, without the one of the call, sorted and each
    once - from the index of the database in use, built anew after a reload. *)
Theorem dxcc_siblings_exact ptr db adif current i :
  index_ok ptr db i ->
  let '(others, i') := siblings ptr db adif current i in
  (forall x, x ∈ others <-> x <> "" /\ x <> ToUpper (TrimSpace current) /\
     exists key info, Data db !! key = Some info /\ p_ADIF info = adif /\ shown_prefix info = x) /\
  NoDup others /\ StronglySorted str_le others /\ pi_db i' = Some ptr /\ index_ok ptr db i'.
Proof.
  intros Hi. unfold siblings. set (i' := if bool_decide (pi_db i = Some ptr) then i else _).
  assert (Hi' : adifToPrefixes i' = buildPrefixMap db /\ pi_db i' = Some ptr) by (unfold i'; case_bool_decide as Hp; [auto|done]).
  destruct Hi' as [Hmap Hptr]. clearbody i'. rewrite Hmap.
  set (sets := fold_left add_prefix (map snd (map_to_list (Data db))) ∅).
  assert (Hlist : default [] (buildPrefixMap db !! adif) = sort_strings (elements (default ∅ (sets !! adif)))).
  { unfold buildPrefixMap. fold sets. rewrite lookup_fmap. destruct (sets !! adif); done. }
  rewrite Hlist. assert (Hperm : sort_strings (elements (default ∅ (sets !! adif))) ≡ₚ elements (default ∅ (sets !! adif))) by apply merge_sort_Permutation.
  split; [|split; [|split; [|split; [done|by intros _]]]].
  - intros x. rewrite list_elem_of_filter, Hperm, elem_of_elements. unfold sets. rewrite add_prefixes.
    assert (Hdata : forall info, info ∈ map snd (map_to_list (Data db)) <-> exists key, Data db !! key = Some info).
    { intros info. split; [intros Hin; apply list_elem_of_fmap in Hin as ([k v] & -> & Hin); exists k; by apply elem_of_map_to_list in Hin|].
      intros [k Hk]. apply list_elem_of_fmap. exists (k, info). split; [done|by apply elem_of_map_to_list]. }
    split.
    + intros ([H1 H2] & [Hn|(info & Hin & H3 & H4 & _)]); [by rewrite lookup_empty in Hn|]. apply Hdata in Hin as [k Hk]. split; [done|]. split; [done|]. eauto.
    + intros (H1 & H2 & k & info & Hk & H3 & H4). split; [done|]. right. exists info. split; [apply Hdata; eauto|done].
  - apply NoDup_filter. rewrite Hperm. apply NoDup_elements.
  - apply sorted_filter_any, sort_strings_sorted.
Qed.

(** ** Leaving *)

Lemma Fields_upper s : Fields (ToUpper s) = map ToUpper (Fields s).
Proof.
  unfold ToUpper. induction s as [|c s IH]; [done|]. cbn [smap]. rewrite !Fields_cons, is_space_upper, IH. destruct (is_space c); [done|].
  destruct s as [|d s]; [done|]. cbn [smap]. rewrite is_space_upper. destruct (is_space d); [done|]. destruct (Fields (String d s)); done.
Qed.

(** Nothing, or text that ends its line. *)
Definition ends_line (r : string) : Prop := r = "" \/ HasSuffix r nl = true.

Lemma ends_nl a : ends_line (a +:+ nl).
Proof. right. apply HasSuffix_spec. by exists a. Qed.

Lemma ends_app a b : HasSuffix b nl = true -> ends_line (a +:+ b).
Proof. intros H. apply HasSuffix_spec in H as [t ->]. right. apply HasSuffix_spec. exists (a +:+ t). by rewrite sapp_assoc. Qed.

Lemma help_ends dialect topic : ends_line (handleHelp dialect topic).
Proof.
  unfold handleHelp. case_bool_decide; [apply ends_nl|]. destruct (lookup_help _ _); [apply ends_nl|].
  rewrite <- !sapp_assoc. apply ends_nl.
Qed.

Section Replies.
Context (parse_addr : string -> option ipaddr) (layout : dxClusterLayout).

Lemma show_lines_end spots : spots <> [] -> HasSuffix (show_lines layout spots) nl = true.
Proof.
  induction spots as [|s spots IH]; [done|]. intros _. cbn [show_lines]. destruct spots as [|s' spots].
  - cbn [show_lines]. rewrite sapp_nil_r. apply HasSuffix_spec. exists ((FormatDXCluster layout s).1 +:+ String (byte_of 13) ""). by rewrite sapp_assoc.
  - apply HasSuffix_spec. destruct (proj1 (HasSuffix_spec _ _) (IH ltac:(done))) as [t Ht]. rewrite Ht.
    exists ((FormatDXCluster layout s).1 +:+ crlf +:+ t). by rewrite !sapp_assoc.
Qed.

Lemma show_rows_end rows : ends_line (show_rows layout rows).
Proof.
  unfold show_rows. destruct (default [] rows) as [|s l]; [apply ends_nl|]. right. apply show_lines_end. intros E.
  apply (f_equal length) in E. rewrite length_rev in E. done.
Qed.

Lemma mydx_ends args f p : ends_line (handleShowMYDX layout args f p).
Proof.
  unfold handleShowMYDX. destruct f as [f|]; [|apply ends_nl]. destruct (show_count args); [|apply ends_nl].
  destruct (pr_archive p); [apply show_rows_end|apply ends_nl].
Qed.

Lemma dxcc_ends args p : ends_line (handleShowDXCC args p).1.
Proof.
  unfold handleShowDXCC. destruct args as [|arg args]; [apply ends_nl|]. destruct (pr_cty p) as [| |ptr db]; [apply ends_nl..|].
  case_bool_decide; [apply ends_nl|]. case_bool_decide; [apply ends_nl|]. destruct (LookupCallsignPortable _ _) as [[info|] db']; [|apply ends_nl].
  destruct (siblings _ _ _ _ _) as [others i]. unfold dxcc_line. simpl. rewrite <- !sapp_assoc. apply ends_nl.
Qed.

Lemma show_ends args f dialect p : ends_line (handleShow layout args f dialect p).1.
Proof.
  unfold handleShow. destruct args as [|sub rest]; [unfold showDXUsage; case_bool_decide; apply ends_nl|].
  destruct (_ || _); [apply mydx_ends|]. case_bool_decide; [apply dxcc_ends|]. simpl. rewrite <- sapp_assoc. apply ends_nl.
Qed.

Lemma enqueue_ends s p : ends_line (enqueue_post s p).1.
Proof. unfold enqueue_post. destruct (pr_input p); [destruct (_ <? _)|]; apply ends_nl. Qed.

Lemma dx_ends fields spotter ip now p r : handleDX parse_addr fields spotter ip now p = Some r -> ends_line r.1.
Proof.
  unfold handleDX. case_bool_decide; [intros [= <-]; apply ends_nl|]. destruct (negb _); [intros [= <-]; apply ends_nl|].
  destruct (_ <? _)%nat; [intros [= <-]; apply ends_nl|]. destruct (ParseFloat _); [intros [= <-]; apply ends_nl|destruct (HasPrefix _ _); [intros [= <-]; apply ends_nl|done]|].
  destruct (Qle_b _ _); [intros [= <-]; apply ends_nl|]. intros [= <-]. unfold dx_with_freq. destruct (negb _); [apply ends_nl|].
  destruct (known_to_cty _ _) as [known p1]. case_bool_decide; [apply ends_nl|].
  pose proof (test_check_ok (normalize_call (TrimSpace spotter)) p1) as T. destruct (test_call_check _ _) as [[err test] p2]. destruct T as (_ & _ & T).
  destruct err as [msg|]; [destruct T as [|[[= ->]|[= ->]]]; [done|apply ends_nl..]|]. destruct (gate_check _ _ _ _ _ _) as [pass p3].
  destruct (negb pass); [by left|apply enqueue_ends].
Qed.

Lemma alias_ends command parts f dialect p r : history_alias layout command parts f dialect p = Some r -> ends_line r.1.
Proof.
  unfold history_alias. case_bool_decide; [case_bool_decide; [intros [= <-]; apply mydx_ends|]|case_bool_decide; [intros [= <-]; apply ends_nl|done]].
  destruct (_ && _); [intros [= <-]; apply ends_nl|done].
Qed.

Lemma bye_no_line : ~ ends_line "BYE".
Proof. intros [H|H]; vm_compute in H; discriminate. Qed.

Lemma bye_requested cmd spotter ip f dialect now p p' :
  ProcessCommandForClient parse_addr layout cmd spotter ip f dialect now p = Some ("BYE", p') ->
  p' = p /\ TrimSpace spotter <> "" /\ ToUpper (nth 0 (Fields cmd) "") ∈ ["BYE"; "QUIT"; "EXIT"].
Proof.
  pose proof bye_no_line as Hbye. unfold ProcessCommandForClient. rewrite <- (Fields_TrimSpace cmd). set (c := TrimSpace cmd).
  case_bool_decide as Hc; [done|]. case_bool_decide as Hs; [intros [= H]; vm_compute in H; discriminate|].
  destruct (Fields c) as [|f0 fs] eqn:Hf; [done|]. cbn [nth]. destruct (EqualFold f0 "DX"); [intros H; by apply dx_ends in H|].
  rewrite Fields_upper, Hf. cbn [map nth]. set (k := ToUpper f0).
  destruct (history_alias _ _ _ _ _ p) as [r|] eqn:Ha; [intros [= ->]; by apply alias_ends in Ha|].
  intros [= H]. unfold general_command in H. case_bool_decide.
  { injection H as H _. exfalso. apply Hbye. rewrite <- H. apply help_ends. }
  case_bool_decide.
  { exfalso. apply Hbye. change (ends_line ("BYE", p').1). rewrite <- H. destruct (_ <? _)%nat; [unfold showDXUsage; case_bool_decide; apply ends_nl|apply show_ends]. }
  case_bool_decide as H3; [injection H as <-; done|]. exfalso. apply Hbye. change (ends_line ("BYE", p').1). rewrite <- H. cbn [fst]. rewrite <- !sapp_assoc. apply ends_nl.
Qed.

Lemma request_granted cmd spotter ip f dialect now p :
  TrimSpace spotter <> "" -> ToUpper (nth 0 (Fields cmd) "") ∈ ["BYE"; "QUIT"; "EXIT"] ->
  ProcessCommandForClient parse_addr layout cmd spotter ip f dialect now p = Some ("BYE", p).
Proof.
  intros Hs Hk. unfold ProcessCommandForClient. rewrite <- (Fields_TrimSpace cmd) in Hk. set (c := TrimSpace cmd) in *.
  assert (Hk3 : ToUpper (nth 0 (Fields c) "") = "BYE" \/ ToUpper (nth 0 (Fields c) "") = "QUIT" \/ ToUpper (nth 0 (Fields c) "") = "EXIT").
  { apply elem_of_cons in Hk as [|Hk]; [auto|]. apply elem_of_cons in Hk as [|Hk]; [auto|]. apply list_elem_of_singleton in Hk. auto. }
  destruct (Fields c) as [|f0 fs] eqn:Hf; [by destruct Hk3 as [H|[H|H]]|]. cbn [nth] in Hk3.
  rewrite bool_decide_false by (intros Hc; by rewrite Hc in Hf). rewrite bool_decide_false by done.
  assert (Hdx : EqualFold f0 "DX" = false).
  { unfold EqualFold. apply bool_decide_eq_false. intros Hd. apply (f_equal String.length) in Hd. unfold ToLower in Hd. rewrite !length_smap in Hd.
    destruct Hk3 as [H|[H|H]]; apply (f_equal String.length) in H; rewrite length_ToUpper, Hd in H; done. }
  rewrite Hdx, Fields_upper, Hf. cbn [map nth]. generalize (map ToUpper fs). intros rest. unfold history_alias, general_command.
  destruct Hk3 as [-> |[-> | ->]]; destruct (bool_decide (normalizeDialectString dialect = "cc")); reflexivity.
Qed.

(** The word BYE, on which the session is closed, is the answer exactly to the commands
    BYE, QUIT and EXIT of a logged-in user, in any case and with any arguments; every other
    answer is empty or ends its line, whatever calls, comments or filters it contains. *)
Theorem bye_only_on_request cmd spotter ip f dialect now p p' :
  ProcessCommandForClient parse_addr layout cmd spotter ip f dialect now p = Some ("BYE", p') <->
  p' = p /\ TrimSpace spotter <> "" /\ ToUpper (nth 0 (Fields cmd) "") ∈ ["BYE"; "QUIT"; "EXIT"].
Proof.
  split; [apply bye_requested|]. intros (-> & Hs & Hk). by apply request_granted.
Qed.
End Replies.

(** ** Witnesses *)

Definition cmd_cty : CTYDatabase :=
  LoadCTYDatabaseFromReader [("K", mkPrefixInfo "United States" "K" 291 5 8 "NA" 0 0 0 false); ("W", mkPrefixInfo "United States" "w" 291 5 8 "NA" 0 0 0 false);
     ("S5", mkPrefixInfo "Slovenia" "S5" 499 15 28 "EU" 0 0 0 false)].

Definition cmd_processor : Processor :=
  mkProcessor (Some (writer_reader demo_writer)) (Some []) 10 (DBAt 7 cmd_cty) (mkPrefixIndex None ∅) (Some demo_gate) (Some []).

Definition quiet_processor : Processor := mkProcessor None (Some []) 10 (DBAt 7 cmd_cty) (mkPrefixIndex None ∅) (Some demo_gate) (Some []).


Definition flood : list dx_post :=
  [mkDxPost ["DX"; "14025.0"; "K1ABC"] "s53zo" "" 0; mkDxPost ["dx"; "14025.0"; "K1ABC"] "S53ZO" "" 1; mkDxPost ["DX"; "7001.0"; "W1AW"] "S53ZO" "" 2;
   mkDxPost ["DX"; "3501.0"; "W1AW"] "S53ZO" "" 3; mkDxPost ["DX"; "3501.0"; "W1AW"] "K1ABC" "" 4].

Lemma dx_flood_bounded_witness :
  exists l, dx_run (fun _ => None) flood quiet_processor = Some l /\
    l = [("S53ZO", true); ("S53ZO", false); ("S53ZO", true); ("S53ZO", false); ("K1ABC", true)] /\
    posted "S53ZO" l <= totalCapPostRamp (normalizeGateConfig demo_gate_config) * ((4 - 0) / rampWindow (normalizeGateConfig demo_gate_config) + 1).
Proof.
  eexists. split; [vm_compute; reflexivity|]. split; [reflexivity|].
  apply (dx_flood_bounded (fun _ => None) demo_gate_config demo_gate quiet_processor "S53ZO" flood _ 0 4).
  - reflexivity.
  - reflexivity.
  - reflexivity.
  - reflexivity.
  - discriminate.
  - repeat constructor; vm_compute; discriminate.
  - repeat constructor; vm_compute; discriminate.
  - split; vm_compute; [reflexivity|discriminate].
  - vm_compute. discriminate.
  - vm_compute. reflexivity.
Defined.

Lemma show_mydx_exact_witness :
  show_count ["2x"] = Some 2 /\
  (let spots := rev (newest_matching 2 (fun s => bool_decide (Mode s = "FT8")) (w_db demo_writer)) in
   map DXCall spots = ["K1ABC"; "JA1XYZ"] /\
   handleShowMYDX (mkLayout 76 61 62 64 69 71) ["2x"] (Some (fun s => bool_decide (Mode s = "FT8"))) cmd_processor =
     (if bool_decide (spots = []) then "No spots available." +:+ nl else show_lines (mkLayout 76 61 62 64 69 71) spots)).
Proof.
  split; [reflexivity|]. split; [vm_compute; reflexivity|].
  apply (show_mydx_exact (DB := sorted_db) (mkLayout 76 61 62 64 69 71) ["2x"] 2 (fun s => bool_decide (Mode s = "FT8")) demo_writer cmd_processor).
  - reflexivity.
  - reflexivity.
  - apply archive_okb. vm_compute. reflexivity.
Defined.

Lemma dxcc_siblings_exact_witness :
  let '(others, i') := siblings 7 cmd_cty 291 "K" (mkPrefixIndex (Some 3) ∅) in others = ["W"] /\ NoDup others /\ pi_db i' = Some 7.
Proof.
  pose proof (dxcc_siblings_exact 7 cmd_cty 291 "K" (mkPrefixIndex (Some 3) ∅)) as H.
  destruct (siblings 7 cmd_cty 291 "K" (mkPrefixIndex (Some 3) ∅)) as [others i'] eqn:E.
  destruct H as (_ & H1 & _ & H2 & _); [unfold index_ok; simpl; discriminate|].
  split; [|split; [exact H1|exact H2]]. change others with (others, i').1. rewrite <- E. vm_compute. reflexivity.
Defined.
