(* ===== verification/TelnetInput.v ===== *)
(** * The keyboard side of a telnet session

    [telnet/server.go]: [ReadLine] with the telnet commands it consumes and its editing
    keys, the guard rails of the input and their messages, and the templates of the
    greetings.  The input of a connection is the list of what its reads return, bytes and
    timeouts; its end is the end of the connection.  The outcomes of the writes of the echo
    are a list too, and the writes after its end succeed. *)

From S2P Require Import Prelude GoText GoNum GoTime SpotFormat GoParse.
From stdpp Require Import strings list.
From Stdlib Require Import Lia ZArith.
Local Open Scope string_scope.
Local Open Scope list_scope.
Local Open Scope Z_scope.

(** ** Bytes of the protocol *)

Definition IAC : Z := 255.
Definition DONT : Z := 254.
Definition DO : Z := 253.
Definition WONT : Z := 252.
Definition WILL : Z := 251.
Definition SB : Z := 250.
Definition SE : Z := 240.

Definition defaultCommandLineLimit : Z := 128.

Inductive input := Byte (b : ascii) | Timeout_.

(** The characters beyond the strict list that a context accepts. *)
Record allowances := mkAllow { allowComma : bool; allowWildcard : bool; allowConfidence : bool; allowDot : bool }.

Definition isAllowedInputByte (b : ascii) (a : allowances) : bool :=
  is_upper b || is_lower b || is_digit b || bool_decide (b = " "%char) || bool_decide (b = "/"%char) || bool_decide (b = "#"%char) ||
  bool_decide (b = "@"%char) || bool_decide (b = "-"%char) || (allowDot a && bool_decide (b = "."%char)) ||
  (allowComma a && bool_decide (b = ","%char)) || (allowWildcard a && bool_decide (b = "*"%char)) ||
  (allowConfidence a && bool_decide (b = "?"%char)).

Definition allowedCharacterList (a : allowances) : string :=
  "letters, numbers, space, '/', '#', '@', '-'" +:+ (if allowComma a then ", ','" else "") +:+ (if allowWildcard a then ", '*'" else "") +:+
  (if allowConfidence a then ", '?'" else "") +:+ (if allowDot a then ", '.'" else "").

Inductive inputErrorKind := inputErrorTooLong | inputErrorInvalidChar.

Record InputValidationError := mkInputError {
  ie_reason : string; ie_context : string; ie_kind : inputErrorKind; ie_maxLen : Z; ie_allowed : string }.

Definition newInputTooLongError (context : string) (maxLen : Z) (allowed : string) : InputValidationError :=
  mkInputError (context +:+ " input exceeds " +:+ Itoa maxLen +:+ "-byte limit") context inputErrorTooLong maxLen allowed.

Definition hex_digit (n : Z) : ascii := byte_of (if n <? 10 then 48 + n else 55 + n).

(** [%02X]. *)
Definition hex2 (b : ascii) : string := String (hex_digit (byte_val b / 16)) (String (hex_digit (byte_val b mod 16)) "").

Definition newInputInvalidCharError (context : string) (maxLen : Z) (allowed : string) (b : ascii) : InputValidationError :=
  mkInputError (context +:+ " input contains forbidden byte 0x" +:+ hex2 b) context inputErrorInvalidChar maxLen allowed.

Inductive read_error := EOF | TimedOut | WriteFailed | Invalid (e : InputValidationError).

(** ** Telnet commands *)

(** What is left of the input, and the error of a read. *)
Fixpoint consumeSubnegotiation (l : list input) : option read_error * list input :=
  match l with
  | [] => (Some EOF, [])
  | Timeout_ :: l => (Some TimedOut, l)
  | Byte b :: l =>
      if negb (byte_val b =? IAC) then consumeSubnegotiation l
      else
        match l with
        | [] => (Some EOF, [])
        | Timeout_ :: l => (Some TimedOut, l)
        | Byte next :: l =>
            if byte_val next =? IAC then consumeSubnegotiation l
            else if byte_val next =? SE then (None, l)
            else consumeSubnegotiation l
        end
  end.

Definition takes_option (cmd : Z) : bool := (cmd =? DO) || (cmd =? DONT) || (cmd =? WILL) || (cmd =? WONT).

Definition consumeIACSequence (l : list input) : option read_error * list input :=
  match l with
  | [] => (Some EOF, [])
  | Timeout_ :: l => (Some TimedOut, l)
  | Byte cmd :: l =>
      if byte_val cmd =? IAC then (None, l)
      else if takes_option (byte_val cmd) then
        match l with
        | [] => (Some EOF, [])
        | Timeout_ :: l => (Some TimedOut, l)
        | Byte _ :: l => (None, l)
        end
      else if byte_val cmd =? SB then consumeSubnegotiation l
      else (None, l)
  end.

(** ** The terminal *)

Record Term := mkTerm { t_in : list input; skipNextEOL : bool; echoInput : bool; t_out : string; t_writes : list bool }.

Definition set_in (l : list input) (t : Term) : Term := mkTerm l (skipNextEOL t) (echoInput t) (t_out t) (t_writes t).
Definition set_skip (b : bool) (t : Term) : Term := mkTerm (t_in t) b (echoInput t) (t_out t) (t_writes t).

(** Whether the write succeeds. *)
Definition writeRaw (data : string) (t : Term) : bool * Term :=
  if bool_decide (data = "") then (true, t)
  else
    match t_writes t with
    | [] => (true, mkTerm (t_in t) (skipNextEOL t) (echoInput t) (t_out t +:+ data) [])
    | true :: l => (true, mkTerm (t_in t) (skipNextEOL t) (echoInput t) (t_out t +:+ data) l)
    | false :: l => (false, mkTerm (t_in t) (skipNextEOL t) (echoInput t) (t_out t) l)
    end.

(** The write of an echo. *)
Definition echo (data : string) (t : Term) : bool * Term := if echoInput t then writeRaw data t else (true, t).

Definition bs : string := String (byte_of 8) "".
Definition erase_one : string := bs +:+ " " +:+ bs.
Definition line_end : string := String (byte_of 13) (String (byte_of 10) "").

Definition echoErase (count : nat) (t : Term) : bool * Term :=
  if (count =? 0)%nat then (true, t) else echo (Repeat erase_one count) t.

Definition is_blank (c : ascii) : bool := bool_decide (c = " "%char).

(** The loops that go back from [i] while [p] holds. *)
Fixpoint back_while (p : ascii -> bool) (line : string) (i : nat) : nat :=
  match i with
  | O => O
  | S j => match String.get j line with
           | Some c => if p c then back_while p line j else i
           | None => i
           end
  end.

Definition wordEraseCount (line : string) : nat :=
  let i := back_while is_blank line (String.length line) in
  let j := back_while (fun c => negb (is_blank c)) line i in
  (String.length line - j)%nat.

(** The number of bytes an editing key removes. *)
Definition edit_key (b : Z) (line : string) : option nat :=
  if (b =? 8) || (b =? 127) then Some (if bool_decide (line = "") then 0 else 1)%nat
  else if b =? 21 then Some (String.length line)
  else if b =? 23 then Some (wordEraseCount line)
  else None.

Definition cut_back (n : nat) (line : string) : string := stake (String.length line - n) line.

(** One round of the loop: go on with a line, or return. *)
Inductive round_end := Again (line : string) | Return (r : string + read_error).

Definition or_failed (r : round_end) (w : bool * Term) : round_end * Term :=
  let '(ok, t) := w in ((if ok then r else Return (inr WriteFailed)), t).

Definition type_byte (maxLen : Z) (context : string) (a : allowances) (line : string) (b : ascii) (t : Term) : round_end * Term :=
  match edit_key (byte_val b) line with
  | Some n => or_failed (Again (cut_back n line)) (echoErase n t)
  | None =>
      if maxLen <=? len line then (Return (inr (Invalid (newInputTooLongError context maxLen (allowedCharacterList a)))), t)
      else if negb (isAllowedInputByte b a) then (Return (inr (Invalid (newInputInvalidCharError context maxLen (allowedCharacterList a) b))), t)
      else
        let normalized := String (upper_byte b) "" in
        or_failed (Again (line +:+ normalized)) (echo normalized t)
  end.

Definition read_round (maxLen : Z) (context : string) (a : allowances) (line : string) (t : Term) : round_end * Term :=
  match t_in t with
  | [] => (Return (inr EOF), t)
  | Timeout_ :: l => (Return (inr TimedOut), set_in l t)
  | Byte b :: l =>
      let skip := skipNextEOL t in
      let t := set_skip false (set_in l t) in
      if skip && ((byte_val b =? 10) || (byte_val b =? 0)) then (Again line, t)
      else if byte_val b =? IAC then
        let '(err, l) := consumeIACSequence l in
        ((match err with Some e => Return (inr e) | None => Again line end), set_in l t)
      else if byte_val b =? 10 then or_failed (Return (inl line)) (echo line_end t)
      else if byte_val b =? 13 then
        let '(ok, t) := echo line_end t in
        if ok then (Return (inl line), set_skip true t) else (Return (inr WriteFailed), t)
      else type_byte maxLen context a line b t
  end.

(** Each round takes a byte, so the length of the input bounds the rounds. *)
Fixpoint read_loop (fuel : nat) (maxLen : Z) (context : string) (a : allowances) (line : string) (t : Term) : (string + read_error) * Term :=
  match fuel with
  | O => (inr EOF, t)
  | S fuel =>
      let '(r, t) := read_round maxLen context a line t in
      match r with
      | Again line => read_loop fuel maxLen context a line t
      | Return r => (r, t)
      end
  end.

Definition line_limit (maxLen : Z) : Z := if maxLen <=? 0 then defaultCommandLineLimit else maxLen.

Definition ReadLine (maxLen : Z) (context : string) (a : allowances) (t : Term) : (string + read_error) * Term :=
  read_loop (S (length (t_in t))) (line_limit maxLen) (if bool_decide (context = "") then "command" else context) a "" t.

(** ** Templates *)

(** The value of the first token the text begins with. *)
Fixpoint first_token (tokens : list (string * string)) (s : string) : option (string * string) :=
  match tokens with
  | [] => None
  | (key, value) :: tokens => if HasPrefix s key then Some (key, value) else first_token tokens s
  end.

(** [strings.NewReplacer] with non-empty tokens: one pass, the first token in the order of
    the arguments, and no look at what was put in; [skip] bytes of a token are dropped. *)
Fixpoint replacer_from (tokens : list (string * string)) (skip : nat) (s : string) : string :=
  match s with
  | EmptyString => EmptyString
  | String c s' =>
      match skip with
      | S k => replacer_from tokens k s'
      | O => match first_token tokens s with
             | Some (key, value) => value +:+ replacer_from tokens (String.length key - 1) s'
             | None => String c (replacer_from tokens 0 s')
             end
      end
  end.

Definition NewReplacer_Replace (tokens : list (string * string)) (s : string) : string := replacer_from tokens 0 s.

Definition friendlyContextLabel (context : string) : string :=
  let context := TrimSpace context in
  if bool_decide (context = "") then "Input"
  else if len context =? 1 then ToUpper context
  else ToUpper (stake 1 context) +:+ sdrop 1 context.

Record inputTemplateData := mkInputData { it_context : string; it_maxLen : Z; it_allowed : string }.

Definition applyInputTemplateTokens (msg : string) (data : inputTemplateData) : string :=
  NewReplacer_Replace [("<CONTEXT>", it_context data); ("<MAX_LEN>", if 0 <? it_maxLen data then Itoa (it_maxLen data) else ""); ("<ALLOWED>", it_allowed data)] msg.

(** [tooLong] and [invalid] are the templates of the server. *)
Definition formatInputValidationMessage (tooLong invalid : string) (err : InputValidationError) : string :=
  let template := match ie_kind err with inputErrorTooLong => tooLong | inputErrorInvalidChar => invalid end in
  if bool_decide (TrimSpace template = "") then ""
  else applyInputTemplateTokens template (mkInputData (friendlyContextLabel (ie_context err)) (ie_maxLen err) (ie_allowed err)).

(** [Duration.Round], of a duration that is not negative. *)
Definition Round (d m : Z) : Z :=
  if m <=? 0 then d
  else
    let r := Z.rem d m in
    if r + r <? m then d - r
    else if max_int64 <? d + m - r then max_int64 else d + m - r.

Definition clock_text (h m s : Z) : string := two_digits h +:+ ":" +:+ two_digits m +:+ ":" +:+ two_digits s.

Definition formatUptime (now start : Z) : string :=
  if IsZero start || Before now start then ""
  else
    let dur := Round (time_sub now start) second in
    let days := Z.quot dur (24 * hour) in
    let dur := dur - days * (24 * hour) in
    let hours := Z.quot dur hour in
    let dur := dur - hours * hour in
    let minutes := Z.quot dur minute in
    let dur := dur - minutes * minute in
    let seconds := Z.quot dur second in
    (if 0 <? days then Itoa days +:+ "d " else "") +:+ clock_text hours minutes seconds.

(** [Format("15:04:05")]. *)
Definition format_clock (t : Z) : string := clock_text ((t / hour) mod 24) ((t / minute) mod 60) ((t / second) mod 60).

(** [Format("02-Jan-2006 15:04:05 UTC")]. *)
Definition format_date_time (t : Z) : string := format_date t +:+ " " +:+ format_clock t +:+ " UTC".

Record templateData := mkTemplateData {
  td_now : Z; td_startTime : Z; td_userCount : Z; td_callsign : string; td_cluster : string; td_lastLogin : Z; td_lastIP : string;
  td_dialect : string; td_dialectSource : string; td_dialectDefault : string; td_dedupePolicy : string; td_grid : string; td_noiseClass : string }.

(** [clock] is the time of the call, which stands in for a zero time. *)
Definition template_tokens (clock : Z) (data : templateData) : list (string * string) :=
  let now := if IsZero (td_now data) then clock else td_now data in
  let uptime := formatUptime now (td_startTime data) in
  let lastIP := TrimSpace (td_lastIP data) in
  [("<CALL>", td_callsign data); ("<CLUSTER>", td_cluster data); ("<DATETIME>", format_date_time now); ("<DATE>", format_date now);
   ("<TIME>", format_clock now); ("<UPTIME>", if bool_decide (uptime = "") then "unknown" else uptime);
   ("<USER_COUNT>", if 0 <? td_userCount data then Itoa (td_userCount data) else "0");
   ("<LAST_LOGIN>", if IsZero (td_lastLogin data) then "(first login)" else format_date_time (td_lastLogin data));
   ("<LAST_IP>", if bool_decide (lastIP = "") then "(unknown)" else lastIP); ("<DIALECT>", td_dialect data);
   ("<DIALECT_SOURCE>", td_dialectSource data); ("<DIALECT_DEFAULT>", td_dialectDefault data); ("<DEDUPE>", td_dedupePolicy data);
   ("<GRID>", td_grid data); ("<NOISE>", td_noiseClass data)].

Definition applyTemplateTokens (clock : Z) (msg : string) (data : templateData) : string :=
  NewReplacer_Replace (template_tokens clock data) msg.

Definition formatGreeting (clock : Z) (tmpl : string) (data : templateData) : string := applyTemplateTokens clock tmpl data.

Definition applyWelcomeTokens (clock : Z) (msg : string) (now : Z) : string :=
  applyTemplateTokens clock msg (mkTemplateData now zero_time 0 "" "" zero_time "" "" "" "" "" "" "").

(** ** The loop ends *)

Lemma sub_shrinks l : (length (consumeSubnegotiation l).2 <= length l)%nat.
Proof.
  induction l as [l IH] using (induction_ltof1 _ (@length input)). unfold ltof in IH.
  destruct l as [|[b|] l]; simpl; [lia| |lia]. destruct (byte_val b =? IAC); simpl.
  - destruct l as [|[n|] l]; simpl; [lia| |lia].
    destruct (byte_val n =? IAC); [|destruct (byte_val n =? SE)]; simpl; [| lia |]; pose proof (IH l ltac:(simpl; lia)); lia.
  - pose proof (IH l ltac:(simpl; lia)). lia.
Qed.

Lemma iac_shrinks l : (length (consumeIACSequence l).2 <= length l)%nat.
Proof.
  unfold consumeIACSequence. destruct l as [|[b|] l]; simpl; [lia| |lia].
  destruct (_ =? IAC); simpl; [lia|]. destruct (takes_option _); [destruct l as [|[|] l]; simpl; lia|].
  destruct (_ =? SB); simpl; [pose proof (sub_shrinks l)|]; lia.
Qed.

Lemma echo_in data t : t_in (echo data t).2 = t_in t.
Proof. unfold echo, writeRaw. destruct (echoInput t); [|done]. case_bool_decide; [done|]. by destruct (t_writes t) as [|[] ?]. Qed.

Lemma echoErase_in n t : t_in (echoErase n t).2 = t_in t.
Proof. unfold echoErase. destruct (_ =? _)%nat; [done|apply echo_in]. Qed.

Lemma or_failed_in r w : t_in (or_failed r w).2 = t_in w.2.
Proof. by destruct w. Qed.

Lemma type_byte_in maxLen context a line b t : t_in (type_byte maxLen context a line b t).2 = t_in t.
Proof.
  unfold type_byte. destruct (edit_key _ _); [by rewrite or_failed_in, echoErase_in|].
  destruct (_ <=? _); [done|]. destruct (negb _); [done|]. by rewrite or_failed_in, echo_in.
Qed.

Lemma round_shrinks maxLen context a line t line' t' :
  read_round maxLen context a line t = (Again line', t') -> (length (t_in t') < length (t_in t))%nat.
Proof.
  unfold read_round. destruct (t_in t) as [|[b|] l]; [done| |done].
  destruct (_ && _); [intros [= _ <-]; simpl; lia|].
  destruct (_ =? IAC). { pose proof (iac_shrinks l). destruct (consumeIACSequence l) as [[e|] l']; [done|]. intros [= _ <-]. simpl in *. lia. }
  destruct (_ =? 10). { intros H. apply (f_equal (fun x => t_in x.2)) in H. rewrite or_failed_in, echo_in in H. simpl in *. rewrite <- H. lia. }
  destruct (_ =? 13). { destruct (echo _ _) as [[] ?]; done. }
  intros H. apply (f_equal (fun x => t_in x.2)) in H. rewrite type_byte_in in H. simpl in *. rewrite <- H. lia.
Qed.

Lemma read_loop_enough maxLen context a n : forall m line t, (length (t_in t) < n)%nat -> (length (t_in t) < m)%nat ->
  read_loop n maxLen context a line t = read_loop m maxLen context a line t.
Proof.
  induction n as [|n IH]; intros [|m] line t Hn Hm; [lia..|]. simpl.
  destruct (read_round maxLen context a line t) as [[line'|r] t'] eqn:Hr; [|done]. apply round_shrinks in Hr. apply IH; lia.
Qed.

(** The loop from a line on, with as much fuel as it can use. *)
Definition read_from (maxLen : Z) (context : string) (a : allowances) (line : string) (t : Term) : (string + read_error) * Term :=
  read_loop (S (length (t_in t))) maxLen context a line t.

Lemma read_from_step maxLen context a line t :
  read_from maxLen context a line t =
    match read_round maxLen context a line t with
    | (Again line', t') => read_from maxLen context a line' t'
    | (Return r, t') => (r, t')
    end.
Proof.
  unfold read_from at 1. cbn [read_loop]. destruct (read_round maxLen context a line t) as [[line'|r] t'] eqn:Hr; [|done].
  apply round_shrinks in Hr. apply read_loop_enough; lia.
Qed.

(** An induction over the rounds of a read. *)
Lemma read_from_ind maxLen context a (P : string -> Term -> (string + read_error) * Term -> Prop) :
  (forall line t r t', read_round maxLen context a line t = (Return r, t') -> P line t (r, t')) ->
  (forall line t line' t' res, read_round maxLen context a line t = (Again line', t') -> P line' t' res -> P line t res) ->
  forall line t, P line t (read_from maxLen context a line t).
Proof.
  intros Hret Hagain line t. remember (length (t_in t)) as n eqn:Hn. revert line t Hn.
  induction n as [n IH] using lt_wf_ind. intros line t Hn. rewrite read_from_step.
  destruct (read_round maxLen context a line t) as [[line'|r] t'] eqn:Hr; [|by apply Hret].
  eapply Hagain; [exact Hr|]. apply (IH (length (t_in t'))); [subst n; by eapply round_shrinks|done].
Qed.

(** ** What a line can hold *)

Definition line_byte (a : allowances) (c : ascii) : bool := isAllowedInputByte c a && negb (is_lower c).

Definition line_ok (maxLen : Z) (a : allowances) (line : string) : Prop := len line <= maxLen /\ sforall (line_byte a) line = true.

Lemma upper_of_lower b : is_lower b = true -> is_upper (upper_byte b) = true /\ is_lower (upper_byte b) = false.
Proof. destruct b as [[] [] [] [] [] [] [] []]; vm_compute; auto. Qed.

Lemma upper_of_other b : is_lower b = false -> upper_byte b = b.
Proof. unfold upper_byte. by intros ->. Qed.

Lemma upper_line_byte a b : isAllowedInputByte b a = true -> line_byte a (upper_byte b) = true.
Proof.
  unfold line_byte, isAllowedInputByte. destruct (is_lower b) eqn:Hb.
  - intros _. destruct (upper_of_lower b Hb) as [-> ->]. done.
  - rewrite (upper_of_other b Hb), Hb. intros ->. done.
Qed.

Lemma sforall_stake p n s : sforall p s = true -> sforall p (stake n s) = true.
Proof. intros H. rewrite <- (stake_sdrop n s), sforall_app in H. by apply andb_prop in H as [H _]. Qed.

Lemma cut_back_ok maxLen a n line : line_ok maxLen a line -> line_ok maxLen a (cut_back n line).
Proof.
  intros [H1 H2]. unfold cut_back. split; [|by apply sforall_stake].
  unfold len in *. rewrite length_stake. lia.
Qed.

Lemma or_failed_again r w line' t' : or_failed r w = (Again line', t') -> r = Again line' /\ w = (true, t').
Proof. destruct w as [[] t]; simpl; intros [= -> ->]; done. Qed.

Lemma type_byte_again maxLen context a line b t line' t' :
  type_byte maxLen context a line b t = (Again line', t') ->
  (exists n, edit_key (byte_val b) line = Some n /\ line' = cut_back n line /\ echoErase n t = (true, t')) \/
  (edit_key (byte_val b) line = None /\ len line < maxLen /\ isAllowedInputByte b a = true /\
     line' = line +:+ String (upper_byte b) "" /\ echo (String (upper_byte b) "") t = (true, t')).
Proof.
  unfold type_byte. destruct (edit_key _ _) as [n|].
  - intros H. apply or_failed_again in H as [[= <-] H]. left. by exists n.
  - destruct (Z.leb_spec maxLen (len line)); [done|]. destruct (isAllowedInputByte b a) eqn:Hb; [|done].
    intros H'. apply or_failed_again in H' as [[= <-] H']. by right.
Qed.

(** What a round that goes on has done. *)
Lemma read_round_again maxLen context a line t line' t' :
  read_round maxLen context a line t = (Again line', t') ->
  (line' = line /\ t_out t' = t_out t /\ echoInput t' = echoInput t) \/
  exists b t1, t_out t1 = t_out t /\ echoInput t1 = echoInput t /\ type_byte maxLen context a line b t1 = (Again line', t').
Proof.
  unfold read_round. destruct (t_in t) as [|[b|] l]; [done| |done].
  destruct (_ && _); [intros [= <- <-]; by left|].
  destruct (_ =? IAC); [destruct (consumeIACSequence l) as [[e|] l']; [done|]; intros [= <- <-]; by left|].
  destruct (_ =? 10); [intros H; by apply or_failed_again in H as [H _]|].
  destruct (_ =? 13); [destruct (echo _ _) as [[] ?]; done|].
  intros H. right. exists b, (set_skip false (set_in l t)). done.
Qed.

Lemma read_round_line maxLen context a line t s t' :
  read_round maxLen context a line t = (Return (inl s), t') ->
  s = line /\ exists t1 t2, t_out t1 = t_out t /\ echoInput t1 = echoInput t /\ echo line_end t1 = (true, t2) /\ t_out t' = t_out t2.
Proof.
  unfold read_round. destruct (t_in t) as [|[b|] l]; [done| |done].
  destruct (_ && _); [done|].
  destruct (_ =? IAC); [destruct (consumeIACSequence l) as [[e|] l']; done|].
  set (t1 := set_skip false (set_in l t)).
  destruct (_ =? 10). { unfold or_failed. destruct (echo line_end t1) as [[] t2] eqn:He; [|done]. intros [= <- <-]. split; [done|]. by exists t1, t2. }
  destruct (_ =? 13). { destruct (echo line_end t1) as [[] t2] eqn:He; [|done]. intros [= <- <-]. split; [done|]. by exists t1, t2. }
  unfold type_byte. destruct (edit_key _ _); [destruct (echoErase _ _) as [[] ?]; done|].
  destruct (_ <=? _); [done|]. destruct (negb _); [done|]. destruct (echo _ _) as [[] ?]; done.
Qed.

Lemma read_from_line_ok maxLen context a line t s t' :
  line_ok maxLen a line -> read_from maxLen context a line t = (inl s, t') -> line_ok maxLen a s.
Proof.
  pose (P := fun line (t : Term) (res : (string + read_error) * Term) => line_ok maxLen a line -> forall s, res.1 = inl s -> line_ok maxLen a s).
  intros Hok H. eapply (read_from_ind maxLen context a P); [| |exact Hok|by rewrite H]; unfold P; clear.
  - intros line t r t' Hr Hok s Hs. simpl in Hs. subst r. by apply read_round_line in Hr as [-> _].
  - intros line t line' t' res Hr IH Hok. apply IH. apply read_round_again in Hr as [[-> _]|(b & t1 & _ & _ & Hr)]; [done|].
    apply type_byte_again in Hr as [(n & _ & -> & _)|(_ & Hl & Hb & -> & _)]; [by apply cut_back_ok|].
    destruct Hok as [H1 H2]. split; [rewrite len_sapp; unfold len in *; simpl; lia|].
    rewrite sforall_app, H2. simpl. by rewrite upper_line_byte.
Qed.

(** A line that is read fits the limit and holds only the characters of its context,
    letters in upper case, whatever bytes, telnet commands and editing keys arrive. *)
Theorem read_line_guarded maxLen context a t s t' :
  ReadLine maxLen context a t = (inl s, t') ->
  len s <= line_limit maxLen /\ sforall (fun c => isAllowedInputByte c a && negb (is_lower c)) s = true.
Proof.
  intros H. eapply (read_from_line_ok _ _ _ "" t s t'); [|exact H]. split; [|done].
  unfold line_limit, defaultCommandLineLimit. change (len "") with 0. destruct (Z.leb_spec maxLen 0); lia.
Qed.

(** ** What is typed is read *)

Definition keys (s : string) : list input := map Byte (String.list_ascii_of_string s).

Lemma keys_app a b : keys (a +:+ b) = keys a ++ keys b.
Proof. induction a as [|c a IH]; [done|]. rewrite sapp_cons. unfold keys in *. simpl. by rewrite IH. Qed.

Definition key (z : Z) : string := String (byte_of z) "".

(** The data of a subnegotiation: no byte IAC before SE. *)
Inductive sub_data : string -> Prop :=
| sub_end : sub_data ""
| sub_plain c s : byte_val c <> IAC -> sub_data s -> sub_data (String c s)
| sub_escape c s : byte_val c <> SE -> sub_data s -> sub_data (String (byte_of IAC) (String c s)).

(** The telnet commands. *)
Inductive telnet_command : string -> Prop :=
| cmd_short c : takes_option (byte_val c) = false -> byte_val c <> SB -> telnet_command (key IAC +:+ String c "")
| cmd_option c o : takes_option (byte_val c) = true -> telnet_command (key IAC +:+ String c (String o ""))
| cmd_sub s : sub_data s -> telnet_command (key IAC +:+ key SB +:+ s +:+ key IAC +:+ key SE).

(** [typed maxLen a text bytes]: the keys [bytes] type [text]. *)
Inductive typed (maxLen : Z) (a : allowances) : string -> string -> Prop :=
| typed_nothing : typed maxLen a "" ""
| typed_char text bytes c :
    typed maxLen a text bytes -> len text < maxLen -> isAllowedInputByte c a = true ->
    typed maxLen a (text +:+ String c "") (bytes +:+ String c "")
| typed_erase text c bytes k :
    typed maxLen a (text +:+ String c "") bytes -> k = 8 \/ k = 127 -> typed maxLen a text (bytes +:+ key k)
| typed_erase_none bytes k : typed maxLen a "" bytes -> k = 8 \/ k = 127 -> typed maxLen a "" (bytes +:+ key k)
| typed_kill text bytes : typed maxLen a text bytes -> typed maxLen a "" (bytes +:+ key 21)
| typed_word text word blanks bytes :
    typed maxLen a (text +:+ word +:+ blanks) bytes -> sforall is_blank blanks = true -> sforall (fun c => negb (is_blank c)) word = true ->
    text = "" \/ (word <> "" /\ HasSuffix text " " = true) -> typed maxLen a text (bytes +:+ key 23)
| typed_telnet text bytes cmd : typed maxLen a text bytes -> telnet_command cmd -> typed maxLen a text (bytes +:+ cmd).

Lemma sub_consumed s rest : sub_data s -> consumeSubnegotiation (keys (s +:+ key IAC +:+ key SE) ++ rest) = (None, rest).
Proof.
  intros H. induction H as [|c s Hc H IH|c s Hc H IH]; [done| |].
  - rewrite sapp_cons. unfold keys in *. simpl. destruct (Z.eqb_spec (byte_val c) IAC); [done|]. exact IH.
  - rewrite !sapp_cons. unfold keys in *. simpl. change (byte_val (byte_of IAC) =? IAC) with true. cbn [negb].
    destruct (Z.eqb_spec (byte_val c) IAC); [exact IH|]. destruct (Z.eqb_spec (byte_val c) SE); [done|]. exact IH.
Qed.

Lemma command_consumed cmd rest : telnet_command cmd ->
  exists l, keys cmd ++ rest = Byte (byte_of IAC) :: l /\ consumeIACSequence l = (None, rest).
Proof.
  intros [c Hc Hsb|c o Hc|s Hs].
  - exists (Byte c :: rest). split; [done|]. unfold consumeIACSequence. rewrite Hc. destruct (Z.eqb_spec (byte_val c) IAC); [done|].
    by destruct (Z.eqb_spec (byte_val c) SB).
  - exists (Byte c :: Byte o :: rest). split; [done|]. unfold consumeIACSequence. rewrite Hc. destruct (Z.eqb_spec (byte_val c) IAC) as [E|]; [|done].
    unfold takes_option in Hc. by rewrite E in Hc.
  - exists (Byte (byte_of SB) :: keys (s +:+ key IAC +:+ key SE) ++ rest). split; [by rewrite !keys_app, <- ?app_assoc|].
    unfold consumeIACSequence. change (byte_val (byte_of SB)) with SB. cbn. by apply sub_consumed.
Qed.

Lemma allowed_widest c a : isAllowedInputByte c a = true -> isAllowedInputByte c (mkAllow true true true true) = true.
Proof.
  unfold isAllowedInputByte. cbn [allowDot allowComma allowWildcard allowConfidence andb]. rewrite !orb_true_iff, !andb_true_iff. tauto.
Qed.

Lemma allowed_byte c a : isAllowedInputByte c a = true ->
  (forall line, edit_key (byte_val c) line = None) /\ byte_val c <> 0 /\ byte_val c <> 10 /\ byte_val c <> 13 /\ byte_val c <> IAC.
Proof.
  intros H. assert (Hc : 32 <= byte_val c < 127).
  { apply allowed_widest in H. revert H. clear. destruct c as [[] [] [] [] [] [] [] []]; vm_compute; intuition congruence. }
  unfold edit_key, IAC. split; [|lia]. intros line. repeat match goal with |- context [byte_val c =? ?k] => destruct (Z.eqb_spec (byte_val c) k); [lia|] end. done.
Qed.

Lemma cut_back_app text tl : cut_back (String.length tl) (text +:+ tl) = text.
Proof. unfold cut_back. rewrite length_sapp. replace (_ + _ - _)%nat with (String.length text) by lia. apply stake_app_length. Qed.

Lemma get_mid a c b : String.get (String.length a) (a +:+ String c b) = Some c.
Proof. induction a as [|x a IH]; [done|exact IH]. Qed.

Lemma back_while_app p a b tl : sforall p b = true ->
  back_while p ((a +:+ b) +:+ tl) (String.length a + String.length b) = back_while p ((a +:+ b) +:+ tl) (String.length a).
Proof.
  revert tl. induction b as [|b c IH] using string_snoc_ind; intros tl Hb; [by rewrite Nat.add_0_r|].
  rewrite sforall_app in Hb. apply andb_prop in Hb as [Hb Hc]. simpl in Hc. rewrite andb_true_r in Hc.
  rewrite length_sapp. simpl. rewrite Nat.add_1_r, Nat.add_succ_r. cbn [back_while].
  assert (E : (a +:+ b +:+ String c "") +:+ tl = (a +:+ b) +:+ String c tl) by (by rewrite !sapp_assoc). rewrite E.
  rewrite <- length_sapp, get_mid, Hc, length_sapp. by apply IH.
Qed.

Lemma back_while_stop p a tl : (a = "" \/ exists a' c, a = a' +:+ String c "" /\ p c = false) ->
  back_while p (a +:+ tl) (String.length a) = String.length a.
Proof.
  intros [-> |(a' & c & -> & Hc)]; [done|]. rewrite length_sapp. simpl. rewrite Nat.add_1_r. cbn [back_while].
  rewrite sapp_assoc. change (String c "" +:+ tl) with (String c tl). by rewrite get_mid, Hc.
Qed.

Lemma word_erased text word blanks :
  sforall is_blank blanks = true -> sforall (fun c => negb (is_blank c)) word = true -> text = "" \/ (word <> "" /\ HasSuffix text " " = true) ->
  wordEraseCount (text +:+ word +:+ blanks) = String.length (word +:+ blanks).
Proof.
  intros Hb Hw Ht. unfold wordEraseCount. rewrite <- sapp_assoc, (length_sapp (text +:+ word) blanks).
  pose proof (back_while_app is_blank (text +:+ word) blanks "" Hb) as E1. rewrite sapp_nil_r in E1. rewrite E1.
  assert (Hend : text +:+ word = "" \/ exists a' c, text +:+ word = a' +:+ String c "" /\ is_blank c = false).
  { clear E1. destruct word as [|word c _] using string_snoc_ind.
    - rewrite sapp_nil_r. destruct Ht as [-> |[? _]]; [by left|done].
    - right. exists (text +:+ word), c. rewrite sapp_assoc. split; [done|]. rewrite sforall_app in Hw. simpl in Hw. rewrite andb_true_r in Hw.
      apply andb_prop in Hw as [_ Hw]. by apply negb_true_iff. }
  rewrite (back_while_stop is_blank _ _ Hend), (length_sapp text word), (back_while_app _ text word blanks Hw), sapp_assoc.
  rewrite (back_while_stop _ text); [rewrite !length_sapp; lia|].
  destruct Ht as [-> |[_ Ht]]; [by left|]. right. apply HasSuffix_spec in Ht as [a' ->]. by exists a', " "%char.
Qed.

(** [reads line t line' rest]: from [t] the loop gets to [line'] with [rest] unread. *)
Definition reads (maxLen : Z) (context : string) (a : allowances) (line : string) (t : Term) (line' : string) (rest : list input) : Prop :=
  exists t', read_from maxLen context a line t = read_from maxLen context a line' t' /\ t_in t' = rest /\ skipNextEOL t' = false /\ t_writes t' = [].

Lemma writes_succeed data t : t_writes t = [] ->
  exists t', echo data t = (true, t') /\ t_in t' = t_in t /\ skipNextEOL t' = skipNextEOL t /\ t_writes t' = [].
Proof.
  intros Hw. unfold echo, writeRaw. destruct (echoInput t); [|by exists t]. case_bool_decide; [by exists t|]. rewrite Hw. by eexists.
Qed.

Lemma erase_succeeds n t : t_writes t = [] ->
  exists t', echoErase n t = (true, t') /\ t_in t' = t_in t /\ skipNextEOL t' = skipNextEOL t /\ t_writes t' = [].
Proof. intros Hw. unfold echoErase. destruct (_ =? _)%nat; [by exists t|by apply writes_succeed]. Qed.

(** A byte that is no line end and begins no telnet command. *)
Lemma round_types maxLen context a line t b rest :
  t_in t = Byte b :: rest -> skipNextEOL t = false -> byte_val b <> IAC -> byte_val b <> 10 -> byte_val b <> 13 ->
  read_round maxLen context a line t = type_byte maxLen context a line b (set_skip false (set_in rest t)).
Proof.
  intros Hin Hs H1 H2 H3. unfold read_round. rewrite Hin, Hs. simpl.
  destruct (Z.eqb_spec (byte_val b) IAC); [done|]. destruct (Z.eqb_spec (byte_val b) 10); [done|]. by destruct (Z.eqb_spec (byte_val b) 13).
Qed.

Lemma reads_edit maxLen context a line t b n rest :
  t_in t = Byte b :: rest -> skipNextEOL t = false -> t_writes t = [] -> edit_key (byte_val b) line = Some n ->
  reads maxLen context a line t (cut_back n line) rest.
Proof.
  intros Hin Hs Hw Hk. set (t1 := set_skip false (set_in rest t)).
  destruct (erase_succeeds n t1 Hw) as (t2 & E1 & E2 & E3 & E4). exists t2. split; [|done].
  assert (Hne : byte_val b <> IAC /\ byte_val b <> 10 /\ byte_val b <> 13) by (repeat split; intros E; by rewrite E in Hk).
  rewrite read_from_step, (round_types _ _ _ _ _ b rest) by tauto. fold t1. unfold type_byte. by rewrite Hk, E1.
Qed.

Lemma reads_char maxLen context a line t b rest :
  t_in t = Byte b :: rest -> skipNextEOL t = false -> t_writes t = [] -> isAllowedInputByte b a = true -> len line < maxLen ->
  reads maxLen context a line t (line +:+ String (upper_byte b) "") rest.
Proof.
  intros Hin Hs Hw Hb Hl. set (t1 := set_skip false (set_in rest t)). destruct (allowed_byte b a Hb) as (Hk & _ & H1 & H2 & H3).
  destruct (writes_succeed (String (upper_byte b) "") t1 Hw) as (t2 & E1 & E2 & E3 & E4). exists t2. split; [|done].
  rewrite read_from_step, (round_types _ _ _ _ _ b rest) by done. fold t1. unfold type_byte.
  rewrite Hk, Hb. destruct (Z.leb_spec maxLen (len line)); [lia|]. simpl. by rewrite E1.
Qed.

Lemma reads_trans maxLen context a l1 t1 l2 m l3 rest :
  reads maxLen context a l1 t1 l2 m ->
  (forall t2, t_in t2 = m -> skipNextEOL t2 = false -> t_writes t2 = [] -> reads maxLen context a l2 t2 l3 rest) ->
  reads maxLen context a l1 t1 l3 rest.
Proof.
  intros (t2 & E1 & E2 & E3 & E4) H. destruct (H t2 E2 E3 E4) as (t3 & F1 & F). exists t3. split; [|exact F]. by rewrite E1.
Qed.

Lemma typed_reads maxLen context a text bytes : typed maxLen a text bytes ->
  forall t rest, t_in t = keys bytes ++ rest -> skipNextEOL t = false -> t_writes t = [] ->
  reads maxLen context a "" t (ToUpper text) rest.
Proof.
  intros H. induction H as [|text bytes c H IH Hl Hc|text c bytes k H IH Hk|bytes k H IH Hk|text bytes H IH|text word blanks bytes H IH Hb Hw Ht|text bytes cmd H IH Hcmd];
    intros t rest Hin Hs Hwr; rewrite ?keys_app, <- ?app_assoc in Hin; [by exists t|..];
    (eapply reads_trans; [exact (IH t _ Hin Hs Hwr)|]); clear t Hin Hs Hwr IH; intros t Hin Hs Hwr.
  - rewrite ToUpper_sapp. eapply reads_char; [exact Hin|done|done|done|]. unfold len in *. by rewrite length_ToUpper.
  - rewrite <- (cut_back_app (ToUpper text) (ToUpper (String c ""))), <- ToUpper_sapp. eapply reads_edit; [exact Hin|done|done|].
    rewrite ToUpper_sapp. unfold edit_key. rewrite bool_decide_false by (destruct (ToUpper text); done). destruct Hk as [-> | ->]; done.
  - change (ToUpper "") with "". rewrite <- (cut_back_app "" "") at 2. eapply reads_edit; [exact Hin|done|done|]. by destruct Hk as [-> | ->].
  - change (ToUpper "") with "". rewrite <- (cut_back_app "" (ToUpper text)). eapply reads_edit; [exact Hin|done|done|done].
  - rewrite !ToUpper_sapp. rewrite <- (cut_back_app (ToUpper text) (ToUpper word +:+ ToUpper blanks)) at 2. eapply reads_edit; [exact Hin|done|done|].
    unfold edit_key. simpl. change (byte_val (byte_of 23)) with 23. cbn -[wordEraseCount]. f_equal. rewrite <- word_erased with (text := ToUpper text); [done|..].
    + unfold ToUpper. rewrite <- Hb. clear. induction blanks as [|c s IH]; [done|]. simpl. rewrite IH. f_equal.
      destruct c as [[] [] [] [] [] [] [] []]; reflexivity.
    + unfold ToUpper. rewrite <- Hw. clear. induction word as [|c s IH]; [done|]. simpl. rewrite IH. do 2 f_equal.
      destruct c as [[] [] [] [] [] [] [] []]; reflexivity.
    + destruct Ht as [-> |[Hne Ht]]; [by left|right]. split; [by destruct word|]. apply HasSuffix_spec in Ht as [u ->].
      rewrite ToUpper_sapp. apply HasSuffix_spec. by exists (ToUpper u).
  - destruct (command_consumed cmd rest Hcmd) as (l & E1 & E2). rewrite E1 in Hin.
    exists (set_in rest (set_skip false (set_in l t))). rewrite read_from_step. split; [|done]. unfold read_round. rewrite Hin, Hs. simpl. by rewrite E2.
Qed.

(** The ways to end a line. *)
Inductive line_ending := LF | CRLF | CRNUL.
Definition ending (e : line_ending) : string :=
  match e with LF => key 10 | CRLF => key 13 +:+ key 10 | CRNUL => key 13 +:+ key 0 end.

(** Nothing is left of the line before; the second byte of its end may be. *)
Definition at_line_start (t : Term) (l : list input) : Prop :=
  (t_in t = l /\ skipNextEOL t = false) \/ (skipNextEOL t = true /\ exists b, (b = 10 \/ b = 0) /\ t_in t = Byte (byte_of b) :: l).

Lemma start_reads maxLen context a t l : at_line_start t l -> t_writes t = [] -> reads maxLen context a "" t "" l.
Proof.
  intros [[H1 H2]|(H1 & b & Hb & H2)] Hw; [by exists t|].
  exists (set_skip false (set_in l t)). split; [|done]. rewrite read_from_step. unfold read_round. rewrite H2, H1.
  by destruct Hb as [-> | ->].
Qed.

Lemma line_read maxLen context a text bytes e t rest :
  typed maxLen a text bytes -> at_line_start t (keys (bytes +:+ ending e) ++ rest) -> t_writes t = [] ->
  exists t', read_from maxLen context a "" t = (inl (ToUpper text), t') /\ at_line_start t' rest /\ t_writes t' = [].
Proof.
  intros Hty Hst Hw. rewrite keys_app, <- app_assoc in Hst.
  assert (R : reads maxLen context a "" t (ToUpper text) (keys (ending e) ++ rest)).
  { eapply reads_trans; [by apply start_reads|]. intros t2 H1 H2 H3. by eapply typed_reads. }
  destruct R as (t2 & -> & E2 & E3 & E4). rewrite read_from_step. unfold read_round. destruct e; rewrite E2, E3; simpl;
    match goal with |- context [echo line_end ?x] => destruct (writes_succeed line_end x E4) as (t3 & -> & F2 & F3 & F4) end.
  - exists t3. split; [done|]. split; [left; done|done].
  - exists (set_skip true t3). split; [done|]. split; [right; split; [done|exists 10; auto]|done].
  - exists (set_skip true t3). split; [done|]. split; [right; split; [done|exists 0; auto]|done].
Qed.

(** The results of reading on, as a client that is not closed does. *)
Fixpoint read_lines (n : nat) (maxLen : Z) (context : string) (a : allowances) (t : Term) : list (string + read_error) :=
  match n with
  | O => []
  | S n => let '(r, t) := ReadLine maxLen context a t in r :: read_lines n maxLen context a t
  end.

(** A line as it is typed: its text, the keys, the line end. *)
Definition typed_line : Type := string * string * line_ending.
Definition line_bytes (l : typed_line) : string := l.1.2 +:+ ending l.2.
Definition all_bytes (ls : list typed_line) : string := fold_right (fun l s => line_bytes l +:+ s) "" ls.

Lemma lines_read maxLen context a ls : Forall (fun l => typed (line_limit maxLen) a l.1.1 l.1.2) ls ->
  forall t rest, at_line_start t (keys (all_bytes ls) ++ rest) -> t_writes t = [] ->
  read_lines (length ls) maxLen context a t = map (fun l => inl (ToUpper l.1.1)) ls.
Proof.
  induction 1 as [|[[text bytes] e] ls Hty _ IH]; intros t rest Hst Hw; [done|]. cbn [length read_lines map].
  cbn [all_bytes fold_right] in Hst. rewrite keys_app, <- app_assoc in Hst. unfold ReadLine.
  destruct (line_read (line_limit maxLen) (if bool_decide (context = "") then "command" else context) a text bytes e t _ Hty Hst Hw) as (t' & E1 & E2 & E3).
  unfold read_from in E1. rewrite E1. f_equal. by eapply IH.
Qed.

(** C15: A user who types lines, with corrections, in either case, ending them with LF, CR LF
    or CR NUL, and whose terminal negotiates in between, has exactly those lines read,
    in upper case, one by one. *)
Theorem typed_lines_read maxLen context a ls :
  Forall (fun l => typed (line_limit maxLen) a l.1.1 l.1.2) ls ->
  forall echoes out, read_lines (length ls) maxLen context a (mkTerm (keys (all_bytes ls)) false echoes out []) =
    map (fun l => inl (ToUpper l.1.1)) ls.
Proof. intros H echoes out. apply (lines_read _ _ _ _ H _ []); [left; by rewrite app_nil_r|done]. Qed.

(** ** Rejected input *)

Lemma rejected_read maxLen context a text bytes c t rest :
  typed maxLen a text bytes -> at_line_start t (keys (bytes +:+ String c "") ++ rest) -> t_writes t = [] ->
  byte_val c <> IAC -> byte_val c <> 10 -> byte_val c <> 13 -> edit_key (byte_val c) (ToUpper text) = None ->
  maxLen <= len text \/ isAllowedInputByte c a = false ->
  exists e t', read_from maxLen context a "" t = (inr (Invalid e), t') /\ at_line_start t' rest /\ t_writes t' = [] /\
    (ie_kind e = inputErrorTooLong <-> maxLen <= len text).
Proof.
  intros Hty Hst Hw H1 H2 H3 Hk Hbad. rewrite keys_app, <- app_assoc in Hst.
  assert (R : reads maxLen context a "" t (ToUpper text) (Byte c :: rest)).
  { eapply reads_trans; [by apply start_reads|]. intros t2 F1 F2 F3. by eapply typed_reads. }
  destruct R as (t2 & -> & E2 & E3 & E4). rewrite read_from_step, (round_types _ _ _ _ _ c rest) by done.
  unfold type_byte. rewrite Hk. assert (Hlen : len (ToUpper text) = len text) by (unfold len; by rewrite length_ToUpper). rewrite Hlen.
  destruct (Z.leb_spec maxLen (len text)).
  - eexists _, _. split; [reflexivity|]. split; [by left|]. done.
  - destruct Hbad as [|Hbad]; [lia|]. rewrite Hbad. eexists _, _. split; [reflexivity|]. split; [by left|]. split; [done|]. simpl. split; [done|lia].
Qed.

(** A line that is refused is not refused whole: the read stops at the offending byte,
    and what follows it on the same line is read as a line, and so a command, of its own. *)
Theorem refused_line_goes_on maxLen context a text bytes c text' bytes' e t :
  typed (line_limit maxLen) a text bytes -> typed (line_limit maxLen) a text' bytes' ->
  byte_val c <> IAC -> byte_val c <> 10 -> byte_val c <> 13 -> edit_key (byte_val c) (ToUpper text) = None ->
  line_limit maxLen <= len text \/ isAllowedInputByte c a = false ->
  at_line_start t (keys (bytes +:+ String c "" +:+ bytes' +:+ ending e)) -> t_writes t = [] ->
  exists err, read_lines 2 maxLen context a t = [inr (Invalid err); inl (ToUpper text')] /\
    (ie_kind err = inputErrorTooLong <-> line_limit maxLen <= len text).
Proof.
  intros Hty Hty' H1 H2 H3 Hk Hbad Hst Hw. rewrite <- sapp_assoc, keys_app in Hst. unfold read_lines, ReadLine.
  destruct (rejected_read _ (if bool_decide (context = "") then "command" else context) a text bytes c t _ Hty Hst Hw H1 H2 H3 Hk Hbad) as (err & t1 & E1 & E2 & E3 & E4).
  unfold read_from in E1. rewrite E1. exists err. split; [|done]. rewrite <- (app_nil_r (keys _)) in E2.
  destruct (line_read (line_limit maxLen) (if bool_decide (context = "") then "command" else context) a text' bytes' e t1 [] Hty' E2 E3) as (t2 & F1 & _).
  unfold read_from in F1. by rewrite F1.
Qed.

(** ** The echo *)

(** A line of a screen: the characters before the cursor, the nearest first, and those
    from the cursor on. *)
Definition screen : Type := list ascii * list ascii.

Definition put (c : ascii) (s : screen) : screen :=
  if byte_val c =? 8 then match s.1 with [] => s | x :: l => (l, x :: s.2) end else (c :: s.1, tail s.2).

Fixpoint show_on (out : string) (s : screen) : screen :=
  match out with
  | EmptyString => s
  | String c out => show_on out (put c s)
  end.

(** The screen shows the line, and blanks after the cursor. *)
Definition shows (out line : string) : Prop :=
  (show_on out ([], [])).1 = rev (String.list_ascii_of_string line) /\ Forall (fun c => c = " "%char) (show_on out ([], [])).2.

Lemma show_on_app a b s : show_on (a +:+ b) s = show_on b (show_on a s).
Proof. revert s. induction a as [|c a IH]; intros s; [done|]. rewrite sapp_cons. simpl. apply IH. Qed.

Lemma list_ascii_app a b : String.list_ascii_of_string (a +:+ b) = String.list_ascii_of_string a ++ String.list_ascii_of_string b.
Proof. induction a as [|c a IH]; [done|]. rewrite sapp_cons. simpl. by rewrite IH. Qed.

Lemma shows_char out line c : shows out line -> byte_val c <> 8 -> shows (out +:+ String c "") (line +:+ String c "").
Proof.
  intros [H1 H2] Hc. unfold shows. rewrite show_on_app, list_ascii_app, rev_app_distr. destruct (show_on out ([], [])) as [before after].
  simpl in *. unfold put. destruct (Z.eqb_spec (byte_val c) 8); [done|]. simpl. split; [by rewrite H1|]. destruct after; [done|]. by inversion H2.
Qed.

Lemma shows_erase out line n : shows out line -> (n <= String.length line)%nat -> shows (out +:+ Repeat erase_one n) (cut_back n line).
Proof.
  revert out line. induction n as [|n IH]; intros out line H Hn.
  - unfold cut_back. simpl. rewrite Nat.sub_0_r, stake_all, sapp_nil_r by lia. done.
  - destruct line as [|line c _] using string_snoc_ind; [simpl in Hn; lia|]. rewrite length_sapp in Hn. simpl in Hn.
    cbn [Repeat]. rewrite <- sapp_assoc. replace (cut_back (S n) (line +:+ String c "")) with (cut_back n line).
    + apply IH; [|lia]. destruct H as [H1 H2]. unfold shows. rewrite show_on_app. rewrite list_ascii_app, rev_app_distr in H1.
      destruct (show_on out ([], [])) as [before after]. simpl in H1, H2. subst before. split; [done|]. simpl. constructor; [done|]. done.
    + unfold cut_back. rewrite length_sapp. simpl. replace (String.length line + 1 - S n)%nat with (String.length line - n)%nat by lia.
      assert (Hl : (String.length line - n <= String.length line)%nat) by lia. revert Hl. generalize (String.length line - n)%nat.
      clear. induction line as [|x line IH]; intros [|m] Hm; [done|simpl in Hm; lia|done|].
      change (String x (stake m line) = String x (stake m (line +:+ String c ""))). f_equal. apply IH. simpl in Hm. lia.
Qed.

Lemma edit_key_bound b line n : edit_key b line = Some n -> (n <= String.length line)%nat.
Proof.
  unfold edit_key. destruct (_ || _). { intros [= <-]. case_bool_decide; [lia|]. destruct line; [done|]. simpl. lia. }
  destruct (_ =? 21); [intros [= <-]; lia|]. destruct (_ =? 23); [|done]. intros [= <-]. unfold wordEraseCount. lia.
Qed.

Lemma echo_done data t t' : echoInput t = true -> echo data t = (true, t') -> t_out t' = t_out t +:+ data /\ echoInput t' = true.
Proof.
  unfold echo, writeRaw. intros He. rewrite He. case_bool_decide as Hd; [intros [= <-]; rewrite Hd, sapp_nil_r; done|].
  destruct (t_writes t) as [|[] l]; intros [= <-]; done.
Qed.

Lemma upper_no_bs a b : isAllowedInputByte b a = true -> byte_val (upper_byte b) <> 8.
Proof.
  intros H. apply upper_line_byte in H. apply andb_prop in H as [H _]. apply allowed_byte in H as [H _]. intros E. specialize (H ""). by rewrite E in H.
Qed.

(** What a read from [t] on leaves on the screen, when [line] is there. *)
Definition echoed (line : string) (t : Term) (res : (string + read_error) * Term) : Prop :=
  forall out0 e s, echoInput t = true -> t_out t = out0 +:+ e -> shows e line -> res.1 = inl s ->
    exists e', t_out res.2 = out0 +:+ e' +:+ line_end /\ shows e' s.

Lemma read_from_echo maxLen context a line t : echoed line t (read_from maxLen context a line t).
Proof.
  revert line t. apply read_from_ind.
  - intros line t r t' Hr out0 e s He Ho Hs Hres. simpl in Hres. subst r. apply read_round_line in Hr as (-> & t1 & t2 & H1 & H2 & H3 & H4).
    exists e. split; [|done]. simpl. rewrite H4. apply echo_done in H3 as [-> _]; [|congruence]. by rewrite H1, Ho, sapp_assoc.
  - intros line t line' t' res Hr IH out0 e s He Ho Hs. apply read_round_again in Hr as [(-> & H1 & H2)|(b & t1 & H1 & H2 & Hr)].
    { apply (IH out0 e); congruence. }
    apply type_byte_again in Hr as [(n & Hn & -> & Hr)|(_ & _ & Hb & -> & Hr)].
    + unfold echoErase in Hr. destruct (Nat.eqb_spec n 0) as [-> |Hn0].
      * injection Hr as <-. apply (IH out0 e); [congruence..|]. unfold cut_back. rewrite Nat.sub_0_r, stake_all by lia. done.
      * apply echo_done in Hr as [Hr1 Hr2]; [|congruence]. apply (IH out0 (e +:+ Repeat erase_one n)); [done| |].
        -- by rewrite Hr1, H1, Ho, sapp_assoc.
        -- apply shows_erase; [done|]. by eapply edit_key_bound.
    + apply echo_done in Hr as [Hr1 Hr2]; [|congruence]. apply (IH out0 (e +:+ String (upper_byte b) "")); [done| |].
      * by rewrite Hr1, H1, Ho, sapp_assoc.
      * apply shows_char; [done|]. by eapply upper_no_bs.
Qed.

(** With the echo of the server the terminal shows what will be read: when a line is
    returned, the bytes echoed for it, erasures included, leave exactly that line on the
    screen, and then end it. *)
Theorem echo_shows_line maxLen context a t s t' :
  echoInput t = true -> ReadLine maxLen context a t = (inl s, t') ->
  exists e, t_out t' = t_out t +:+ e +:+ line_end /\
    (show_on e ([], [])).1 = rev (String.list_ascii_of_string s) /\ Forall (fun c => c = " "%char) (show_on e ([], [])).2.
Proof.
  intros He H. pose proof (read_from_echo (line_limit maxLen) (if bool_decide (context = "") then "command" else context) a "" t) as R.
  unfold echoed in R. specialize (R (t_out t) "" s He). unfold read_from in R. unfold ReadLine in H. rewrite H, sapp_nil_r in R. simpl in R. apply R; [done|split; constructor|done].
Qed.

(** ** Witnesses *)

Definition command_chars : allowances := mkAllow true true true true.

(** "show dx 1O", BS, DEL, "20 abc", Ctrl+W, a negotiation in the middle, CR LF; then "bye", LF. *)
Definition sample_keys : string :=
  ("show dx 1O" +:+ key 8 +:+ key 127 +:+ "20" +:+ (key IAC +:+ key WILL +:+ key 1) +:+ " abc" +:+ key 23 +:+ ending CRLF) +:+ "bye" +:+ ending LF.

Definition sample_term : Term := mkTerm (keys sample_keys) false true "" [].

Lemma read_line_guarded_witness :
  exists t', ReadLine 0 "" command_chars sample_term = (inl "SHOW DX 20 ", t') /\
    len "SHOW DX 20 " <= line_limit 0 /\ sforall (fun c => isAllowedInputByte c command_chars && negb (is_lower c)) "SHOW DX 20 " = true.
Proof.
  eexists. split; [vm_compute; reflexivity|]. eapply (read_line_guarded 0 "" command_chars sample_term "SHOW DX 20 "). vm_compute. reflexivity.
Defined.

Lemma echo_shows_line_witness :
  exists t' e, ReadLine 0 "" command_chars sample_term = (inl "SHOW DX 20 ", t') /\ t_out t' = e +:+ line_end /\
    (show_on e ([], [])).1 = rev (String.list_ascii_of_string "SHOW DX 20 ").
Proof.
  assert (H : exists t', ReadLine 0 "" command_chars sample_term = (inl "SHOW DX 20 ", t')) by (eexists; vm_compute; reflexivity).
  destruct H as [t' H]. exists t'. destruct (echo_shows_line 0 "" command_chars sample_term "SHOW DX 20 " t' eq_refl H) as (e & E1 & E2 & _).
  exists e. split; [exact H|split; [exact E1|exact E2]].
Defined.

Lemma typed_string maxLen a s : sforall (fun c => isAllowedInputByte c a) s = true -> len s <= maxLen -> typed maxLen a s s.
Proof.
  induction s as [|s c IH] using string_snoc_ind; [constructor|]. rewrite sforall_app, len_sapp. simpl. rewrite andb_true_r.
  intros [H1 H2]%andb_prop Hl. change (len (String c "")) with 1 in Hl. constructor; [apply IH; [done|lia]|lia|done].
Qed.

Lemma typed_lines_read_witness :
  read_lines 2 0 "command" command_chars (mkTerm (keys (all_bytes [("dx", "dxa" +:+ key 8, CRLF); ("bye", "bye" +:+ (key IAC +:+ key WILL +:+ key 1), CRNUL)])) false true "" []) =
    [inl "DX"; inl "BYE"].
Proof.
  apply (typed_lines_read 0 "command" command_chars [("dx", "dxa" +:+ key 8, CRLF); ("bye", "bye" +:+ (key IAC +:+ key WILL +:+ key 1), CRNUL)]).
  apply Forall_cons. split; [|apply Forall_cons; split; [|apply Forall_nil; exact I]].
  - apply (typed_erase _ _ "dx" "a" "dxa" 8); [|by left]. apply (typed_string _ _ "dxa"); [reflexivity|vm_compute; discriminate].
  - apply (typed_telnet _ _ "bye" "bye"); [apply typed_string; [reflexivity|vm_compute; discriminate]|]. apply (cmd_option (byte_of WILL) (byte_of 1)). reflexivity.
Defined.

Lemma refused_line_goes_on_witness :
  exists err, read_lines 2 0 "command" command_chars (mkTerm (keys "dx 7010 k1abc thanks! bye" ++ keys (ending CRLF)) false true "" []) =
      [inr (Invalid err); inl " BYE"] /\ (ie_kind err = inputErrorTooLong <-> line_limit 0 <= 20).
Proof.
  apply (refused_line_goes_on 0 "command" command_chars "dx 7010 k1abc thanks" "dx 7010 k1abc thanks" "!" " bye" " bye" CRLF).
  - apply typed_string; [reflexivity|vm_compute; discriminate].
  - apply typed_string; [reflexivity|vm_compute; discriminate].
  - vm_compute; discriminate.
  - vm_compute; discriminate.
  - vm_compute; discriminate.
  - reflexivity.
  - right. reflexivity.
  - left. split; reflexivity.
  - reflexivity.
Defined.
