(* ===== verification/PathStore.v ===== *)
(** * Path reliability

    [pathreliability]: the configuration and its defaults ([config.go]), the band index
    ([band.go]), the packed keys of the paths ([keys.go]), the sharded store of decaying
    buckets ([store.go]), the choice between fine and coarse samples and the classes
    ([normalize.go], [modes.go]), the centres of the grid squares ([maidenhead.go]) and the
    predictor ([predictor.go]).  Powers and weights are float64 and every operation rounds
    once.  [exp_] and [pow10] stand for [math.Exp] and [math.Pow(10, x)], whose values are
    not rational; what is needed of them is stated where it is used.  The tables of the H3
    cells are not part of this file: a cell is its 16-bit number. *)

From S2P Require Import Prelude GoText GoNum GoTime.
From stdpp Require Import strings list gmap fin_maps.
From Stdlib Require Import Lia ZArith QArith Qround Qreduction.
Local Open Scope string_scope.
Local Open Scope list_scope.
Local Open Scope Z_scope.

(** [math.Floor], [math.Ceil] and [math.Round], on numbers whose results are exact. *)
Definition Floor (x : Q) : Z := Qfloor x.
Definition Ceil (x : Q) : Z := Qceiling x.
Definition RoundQ (x : Q) : Z := if Qle_bool 0 x then Qfloor (x + (1 # 2)) else - Qfloor (- x + (1 # 2)).

(** ** Configuration *)

Record ModeOffsets := mkModeOffsets { mo_FT4 : Q; mo_CW : Q; mo_RTTY : Q; mo_PSK : Q; mo_WSPR : Q }.

Record GlyphThresholds := mkThresholds {
  th_High : Q; th_Medium : Q; th_Low : Q; th_Unlikely : Q;
  hasHigh : bool; hasMedium : bool; hasLow : bool; hasUnlikely : bool }.

Record GlyphThresholdsPower := mkThresholdsPower { tp_High : Q; tp_Medium : Q; tp_Low : Q; tp_Unlikely : Q }.

Record GlyphSymbols := mkSymbols { gs_High : string; gs_Medium : string; gs_Low : string; gs_Unlikely : string; gs_Insufficient : string }.

(** The configured values; [cfg_thresholds] and [cfg_noise] are [ModeThresholds] and
    [NoiseOffsets]. *)
Record Config := mkConfig {
  cfg_Enabled : bool; AllowedBands : list string; ClampMin : Q; ClampMax : Q; DefaultHalfLifeSec : Z; BandHalfLifeSec : gmap string Z;
  StaleAfterSeconds : Z; StaleAfterHalfLifeMultiplier : Q; MinEffectiveWeight : Q; MinFineWeight : Q; FineOnlyWeight : Q;
  ReverseHintDiscount : Q; MergeReceiveWeight : Q; MergeTransmitWeight : Q; BeaconWeightCap : Q; DisplayEnabled : bool;
  cfg_offsets : ModeOffsets; cfg_thresholds : gmap string GlyphThresholds; cfg_glyphs : GlyphThresholds; cfg_symbols : GlyphSymbols;
  cfg_noise : gmap string Q }.

(** The caches [buildCaches] fills. *)
Record Caches := mkCaches {
  modeThresholdsPower : gmap string GlyphThresholdsPower; glyphThresholdsPower : GlyphThresholdsPower;
  noisePenaltyDivisors : list (Q * Q); powerLUT : list Q; powerLUTMinDB : Q; powerLUTStepDB : Q }.

Definition full_thresholds (high medium low unlikely : Q) : GlyphThresholds := mkThresholds high medium low unlikely true true true true.
Definition digital_thresholds : GlyphThresholds := full_thresholds (-13) (-17) (-21) (-21).
Definition analog_thresholds : GlyphThresholds := full_thresholds 5 (-1) (-5) (-5).

Definition default_noise : list (string * Q) := [("QUIET", 0%Q); ("RURAL", 6%Q); ("SUBURBAN", 9%Q); ("URBAN", 12%Q); ("INDUSTRIAL", 21%Q)].
Definition default_mode_thresholds : list (string * GlyphThresholds) :=
  [("FT8", digital_thresholds); ("FT4", digital_thresholds); ("CW", analog_thresholds); ("RTTY", analog_thresholds);
   ("PSK", analog_thresholds); ("USB", analog_thresholds); ("LSB", analog_thresholds)].

Definition DefaultConfig : Config :=
  mkConfig true ["160m"; "80m"; "60m"; "40m"; "30m"; "20m"; "17m"; "15m"; "12m"; "10m"; "6m"] (-25) 15 300 ∅ 1800 5 1 5 20
    (1 # 2) (fl64 (3 # 5)) (fl64 (2 # 5)) 1 true (mkModeOffsets (-3) (-7) (-7) (-7) 26) (list_to_map default_mode_thresholds)
    digital_thresholds (mkSymbols "+" "=" "-" "!" "?") (list_to_map default_noise).

Definition validGlyphThresholds (t : GlyphThresholds) : bool :=
  Qlt_b (th_Medium t) (th_High t) && Qlt_b (th_Low t) (th_Medium t) && Qle_b (th_Unlikely t) (th_Low t).

Definition mergeGlyphThresholds (def override : GlyphThresholds) : GlyphThresholds :=
  if negb (hasHigh override) && negb (hasMedium override) && negb (hasLow override) && negb (hasUnlikely override) then
    if validGlyphThresholds override then override else def
  else
    mkThresholds (if hasHigh override then th_High override else th_High def) (if hasMedium override then th_Medium override else th_Medium def)
      (if hasLow override then th_Low override else th_Low def) (if hasUnlikely override then th_Unlikely override else th_Unlikely def)
      (hasHigh def) (hasMedium def) (hasLow def) (hasUnlikely def).

(** [UnmarshalYAML] of the thresholds: the entries in the order they are visited. *)
Fixpoint read_thresholds (raw : list (string * Q)) (t : GlyphThresholds) : option GlyphThresholds :=
  match raw with
  | [] => Some t
  | (k, v) :: raw =>
      let key := lower_trim k in
      if bool_decide (key = "high") then read_thresholds raw (mkThresholds v (th_Medium t) (th_Low t) (th_Unlikely t) true (hasMedium t) (hasLow t) (hasUnlikely t))
      else if bool_decide (key = "medium") then read_thresholds raw (mkThresholds (th_High t) v (th_Low t) (th_Unlikely t) (hasHigh t) true (hasLow t) (hasUnlikely t))
      else if bool_decide (key = "low") then read_thresholds raw (mkThresholds (th_High t) (th_Medium t) v (th_Unlikely t) (hasHigh t) (hasMedium t) true (hasUnlikely t))
      else if bool_decide (key = "unlikely") then read_thresholds raw (mkThresholds (th_High t) (th_Medium t) (th_Low t) v (hasHigh t) (hasMedium t) (hasLow t) true)
      else None
  end.

Definition validateGlyphSymbol (symbol : string) : bool :=
  (len symbol =? 1) && match symbol with String b _ => (32 <=? byte_val b) && (byte_val b <=? 126) | EmptyString => false end.

Fixpoint read_symbols (raw : list (string * string)) (s : GlyphSymbols) : option GlyphSymbols :=
  match raw with
  | [] => Some s
  | (k, v) :: raw =>
      let key := lower_trim k in
      if negb (validateGlyphSymbol v) then None
      else if bool_decide (key = "high") then read_symbols raw (mkSymbols v (gs_Medium s) (gs_Low s) (gs_Unlikely s) (gs_Insufficient s))
      else if bool_decide (key = "medium") then read_symbols raw (mkSymbols (gs_High s) v (gs_Low s) (gs_Unlikely s) (gs_Insufficient s))
      else if bool_decide (key = "low") then read_symbols raw (mkSymbols (gs_High s) (gs_Medium s) v (gs_Unlikely s) (gs_Insufficient s))
      else if bool_decide (key = "unlikely") then read_symbols raw (mkSymbols (gs_High s) (gs_Medium s) (gs_Low s) v (gs_Insufficient s))
      else if bool_decide (key = "insufficient") then read_symbols raw (mkSymbols (gs_High s) (gs_Medium s) (gs_Low s) (gs_Unlikely s) v)
      else None
  end.

Definition q_else (v d : Q) : Q := if Qle_b v 0 then d else v.
Definition q_nonzero (v d : Q) : Q := if Qeq_bool v 0 then d else v.
Definition text_else (v d : string) : string := if bool_decide (v = "") then d else v.

(** The entries of a map under normalised keys, in the order they are visited; entries
    without a key are dropped when [drop]. *)
Definition rekey {A} (drop : bool) (entries : list (string * A)) : gmap string A :=
  fold_left (fun m (e : string * A) => let key := upper_trim e.1 in if drop && bool_decide (key = "") then m else <[key := e.2]> m) entries ∅.

Definition default_threshold (m : gmap string GlyphThresholds) (e : string * GlyphThresholds) : gmap string GlyphThresholds :=
  match m !! e.1 with
  | Some t => let merged := mergeGlyphThresholds e.2 t in if validGlyphThresholds merged then <[e.1 := merged]> m else <[e.1 := e.2]> m
  | None => <[e.1 := e.2]> m
  end.

Definition normalize_offsets (o : ModeOffsets) : ModeOffsets :=
  mkModeOffsets (q_nonzero (mo_FT4 o) (-3)) (q_nonzero (mo_CW o) (-7)) (q_nonzero (mo_RTTY o) (-7)) (q_nonzero (mo_PSK o) (-7)) (q_nonzero (mo_WSPR o) 26).

Definition normalize_symbols (s : GlyphSymbols) : GlyphSymbols :=
  mkSymbols (text_else (gs_High s) "+") (text_else (gs_Medium s) "=") (text_else (gs_Low s) "-") (text_else (gs_Unlikely s) "!") (text_else (gs_Insufficient s) "?").

Definition add_missing (m : gmap string Q) (e : string * Q) : gmap string Q := match m !! e.1 with Some _ => m | None => <[e.1 := e.2]> m end.

(** [thresholds] and [noise] visit the entries of the two maps in some order. *)
Definition normalize (thresholds : gmap string GlyphThresholds -> list (string * GlyphThresholds)) (noise : gmap string Q -> list (string * Q)) (c : Config) : Config :=
  let clamp_ok := Qlt_b (ClampMin c) (ClampMax c) in
  let minFine := q_else (MinFineWeight c) 5 in
  let fineOnly := q_else (FineOnlyWeight c) 20 in
  let receive := q_else (MergeReceiveWeight c) (fl64 (3 # 5)) in
  let transmit := q_else (MergeTransmitWeight c) (fl64 (2 # 5)) in
  let sum := fadd receive transmit in
  let unit := Qeq_bool sum 1 in
  let fallback := mergeGlyphThresholds digital_thresholds (cfg_glyphs c) in
  mkConfig (cfg_Enabled c) (if bool_decide (AllowedBands c = []) then AllowedBands DefaultConfig else AllowedBands c)
    (if clamp_ok then ClampMin c else -25) (if clamp_ok then ClampMax c else 15)
    (positive_else (DefaultHalfLifeSec c) 300) (BandHalfLifeSec c) (positive_else (StaleAfterSeconds c) 1800)
    (q_else (StaleAfterHalfLifeMultiplier c) 5) (q_else (MinEffectiveWeight c) 1) minFine (if Qlt_b fineOnly minFine then minFine else fineOnly)
    (if Qle_b (ReverseHintDiscount c) 0 || Qlt_b 1 (ReverseHintDiscount c) then (1 # 2)%Q else ReverseHintDiscount c)
    (if unit then receive else fdiv receive sum) (if unit then transmit else fdiv transmit sum)
    (q_else (BeaconWeightCap c) 1) (DisplayEnabled c) (normalize_offsets (cfg_offsets c))
    (fold_left default_threshold default_mode_thresholds (rekey true (thresholds (cfg_thresholds c))))
    (if validGlyphThresholds fallback then fallback else digital_thresholds) (normalize_symbols (cfg_symbols c))
    (rekey false (noise (fold_left add_missing default_noise (cfg_noise c)))).

(** ** Bands and keys *)

Definition normalizeBand (b : string) : string := lower_trim b.

Record BandIndex := mkBandIndex { bandToIdx : gmap string Z; idxToBand : list string }.

Definition add_band (b : BandIndex) (band : string) : BandIndex :=
  let key := normalizeBand band in
  if bool_decide (key = "") then b
  else match bandToIdx b !! key with
       | Some _ => b
       | None => mkBandIndex (<[key := uint16 (Z.of_nat (length (idxToBand b)))]> (bandToIdx b)) (idxToBand b ++ [key])
       end.

Definition NewBandIndex (bands : list string) : BandIndex := fold_left add_band bands (mkBandIndex ∅ []).

Definition BandIndex_Lookup (b : BandIndex) (band : string) : option Z := bandToIdx b !! normalizeBand band.
Definition BandIndex_Index (b : BandIndex) (band : string) : Z := default 0 (BandIndex_Lookup b band).

Definition HalfLifeSeconds (band : string) (cfg : Config) : Z :=
  match BandHalfLifeSec cfg !! normalizeBand band with
  | Some hl => if 0 <? hl then hl else DefaultHalfLifeSec cfg
  | None => DefaultHalfLifeSec cfg
  end.

Definition InvalidCell : Z := 0.

Definition packKey (receiver sender band : Z) : Z :=
  if (receiver =? InvalidCell) || (sender =? InvalidCell) then 0
  else Z.lor (Z.lor (Z.shiftl band 48) (Z.shiftl receiver 32)) (Z.shiftl sender 16).

Definition packCoarseKey (receiver sender band : Z) : Z :=
  if (receiver =? InvalidCell) || (sender =? InvalidCell) then 0
  else Z.lor (Z.lor (Z.shiftl band 32) (Z.shiftl receiver 16)) sender.

(** How the maintenance loops read a key: whether it is coarse, and its band. *)
Definition key_is_coarse (k : Z) : bool := negb (Z.land k 65535 =? 0).
Definition key_band (k : Z) : Z := uint16 (Z.land (Z.shiftr k (if key_is_coarse k then 32 else 48)) 65535).

(** ** The store *)

Record bucket := mkBucket { sumPower : Q; b_weight : Q; lastUpdate : Z }.
Record shard := mkShard { buckets : gmap Z bucket; peak : Z }.

Definition defaultShards : nat := 64.

Record Store := mkStore { shards : list shard; st_cfg : Config; bandIndex : BandIndex }.

Definition default_bands : list string := ["160m"; "80m"; "60m"; "40m"; "30m"; "20m"; "17m"; "15m"; "12m"; "10m"; "6m"; "4m"; "2m"; "1m"].

(** [cfg] has been normalised. *)
Definition NewStore (cfg : Config) (bands : list string) : Store :=
  mkStore (replicate defaultShards (mkShard ∅ 0)) cfg (NewBandIndex (if bool_decide (bands = []) then default_bands else bands)).

Record Sample := mkSample { s_Value : Q; s_Weight : Q; AgeSec : Z }.
Definition no_sample : Sample := mkSample 0 0 0.

Section Decay.
Variable exp_ : Q -> Q.

(** The float64 constant [ln2]. *)
Definition ln2 : Q := fl64 (6931471805599453 # 10000000000000000).

Definition decayFactor (ageSec halfLifeSec : Z) : Q :=
  if (halfLifeSec <=? 0) || (ageSec <=? 0) then 1%Q
  else exp_ (fdiv (fmul (- ln2) (float_of_int ageSec)) (float_of_int halfLifeSec)).

Definition shard_of (key : Z) : nat := Z.to_nat (key mod Z.of_nat defaultShards).

(** The bucket after a reading. *)
Definition merge_bucket (b : bucket) (power weight : Q) (nowSec halfLifeSec : Z) : bucket :=
  let decay := decayFactor (nowSec - lastUpdate b) halfLifeSec in
  let oldWeight := fmul (b_weight b) decay in
  let oldSumPower := fmul (sumPower b) decay in
  let newWeight := fadd oldWeight weight in
  if Qle_b newWeight 0 then mkBucket 0 0 nowSec
  else mkBucket (fadd oldSumPower (fmul power weight)) newWeight nowSec.

Definition updated (b : option bucket) (power weight : Q) (nowSec halfLifeSec : Z) : bucket :=
  match b with
  | None => mkBucket (fmul power weight) weight nowSec
  | Some b => merge_bucket b power weight nowSec halfLifeSec
  end.

Definition update_shard (key : Z) (power weight : Q) (nowSec halfLifeSec : Z) (sh : shard) : shard :=
  match buckets sh !! key with
  | None =>
      let m := <[key := updated None power weight nowSec halfLifeSec]> (buckets sh) in
      mkShard m (if peak sh <? Z.of_nat (size m) then Z.of_nat (size m) else peak sh)
  | Some b => mkShard (<[key := updated (Some b) power weight nowSec halfLifeSec]> (buckets sh)) (peak sh)
  end.

Definition updateBucket (key : Z) (power weight : Q) (now halfLifeSec : Z) (s : Store) : Store :=
  if key =? 0 then s
  else mkStore (alter (update_shard key power weight (unix_of now) halfLifeSec) (shard_of key) (shards s)) (st_cfg s) (bandIndex s).

Definition Store_Update (receiverCell senderCell receiverCoarse senderCoarse : Z) (band : string) (power weight : Q) (now : Z) (s : Store) : Store :=
  if negb (cfg_Enabled (st_cfg s)) then s
  else
    match BandIndex_Lookup (bandIndex s) band with
    | None => s
    | Some idx =>
        let halfLife := HalfLifeSeconds band (st_cfg s) in
        let s := if (receiverCell =? InvalidCell) || (senderCell =? InvalidCell) then s
                 else updateBucket (packKey receiverCell senderCell idx) power weight now halfLife s in
        if negb (receiverCoarse =? InvalidCell) && negb (senderCoarse =? InvalidCell) then
          updateBucket (packCoarseKey receiverCoarse senderCoarse idx) power weight now halfLife s
        else s
    end.

Definition staleAfterSeconds (cfg : Config) (halfLifeSec : Z) : Z :=
  if Qlt_b 0 (StaleAfterHalfLifeMultiplier cfg) && (0 <? halfLifeSec) then
    let seconds := Ceil (fmul (float_of_int halfLifeSec) (StaleAfterHalfLifeMultiplier cfg)) in
    if seconds <? 1 then 1 else seconds
  else if StaleAfterSeconds cfg <=? 0 then 0 else StaleAfterSeconds cfg.

Definition age_at (nowSec : Z) (b : bucket) : Z := if nowSec - lastUpdate b <? 0 then 0 else nowSec - lastUpdate b.

Definition is_stale (staleAfter nowSec : Z) (b : bucket) : bool := (0 <? staleAfter) && (staleAfter <? age_at nowSec b).

Definition bucket_sample (cfg : Config) (halfLife nowSec : Z) (b : bucket) : Sample :=
  let age := age_at nowSec b in
  if is_stale (staleAfterSeconds cfg halfLife) nowSec b then no_sample
  else
    let decay := decayFactor age halfLife in
    let decayedWeight := fmul (b_weight b) decay in
    if Qle_b decayedWeight 0 then no_sample
    else
      let decayedSumPower := fmul (sumPower b) decay in
      if Qle_b decayedSumPower 0 then no_sample
      else mkSample (fdiv decayedSumPower decayedWeight) decayedWeight age.

Definition find_bucket (s : Store) (key : Z) : option bucket := shards s !! shard_of key ≫= fun sh => buckets sh !! key.

Definition sample (key halfLife now : Z) (s : Store) : Sample :=
  if key =? 0 then no_sample
  else match find_bucket s key with
       | None => no_sample
       | Some b => bucket_sample (st_cfg s) halfLife (unix_of now) b
       end.

Definition Store_Lookup (receiverCell senderCell receiverCoarse senderCoarse : Z) (band : string) (now : Z) (s : Store) : Sample * Sample :=
  if negb (cfg_Enabled (st_cfg s)) then (no_sample, no_sample)
  else
    match BandIndex_Lookup (bandIndex s) band with
    | None => (no_sample, no_sample)
    | Some idx =>
        let halfLife := HalfLifeSeconds band (st_cfg s) in
        ((if negb (receiverCell =? InvalidCell) && negb (senderCell =? InvalidCell) then sample (packKey receiverCell senderCell idx) halfLife now s else no_sample),
         (if negb (receiverCoarse =? InvalidCell) && negb (senderCoarse =? InvalidCell) then sample (packCoarseKey receiverCoarse senderCoarse idx) halfLife now s
          else no_sample))
    end.

(** ** Maintenance *)

Definition stale_by_band (s : Store) : list Z := map (fun band => staleAfterSeconds (st_cfg s) (HalfLifeSeconds band (st_cfg s))) (idxToBand (bandIndex s)).

(** The time after which the entry of a key is stale; nothing for a band without a name. *)
Definition stale_for (table : list Z) (key : Z) : option Z := table !! Z.to_nat (key_band key).

Definition purged (table : list Z) (nowSec : Z) (key : Z) (b : bucket) : bool :=
  match stale_for table key with Some staleAfter => is_stale staleAfter nowSec b | None => false end.

Definition purge_shard (table : list Z) (nowSec : Z) (sh : shard) : shard :=
  mkShard (filter (fun e => purged table nowSec e.1 e.2 = false) (buckets sh)) (peak sh).

Definition total_size (l : list shard) : Z := fold_right (fun sh n => Z.of_nat (size (buckets sh)) + n) 0 l.

Definition TotalBuckets (s : Store) : Z := total_size (shards s).

(** The number of removed buckets, and the store. *)
Definition Store_PurgeStale (now : Z) (s : Store) : Z * Store :=
  let l := map (purge_shard (stale_by_band s) (unix_of now)) (shards s) in
  (total_size (shards s) - total_size l, mkStore l (st_cfg s) (bandIndex s)).

Definition count_if {A} (p : A -> bool) (l : list A) : Z := Z.of_nat (length (List.filter p l)).

Definition compact_shard (minPeak : Z) (ratio : Q) (sh : shard) : bool * shard :=
  let current := Z.of_nat (size (buckets sh)) in
  let pk := if peak sh <? current then current else peak sh in
  let threshold := float_to_int (fmul (float_of_int pk) ratio) in
  if (minPeak <=? pk) && (current <? threshold) then (true, mkShard (buckets sh) current) else (false, mkShard (buckets sh) pk).

Definition Store_Compact (minPeak : Z) (shrinkRatio : Q) (s : Store) : Z * Store :=
  let minPeak := positive_else minPeak 1000 in
  let ratio := if Qle_b shrinkRatio 0 || Qle_b 1 shrinkRatio then (1 # 2)%Q else shrinkRatio in
  let l := map (compact_shard minPeak ratio) (shards s) in
  (count_if fst l, mkStore (map snd l) (st_cfg s) (bandIndex s)).

(** The entries the statistics count. *)
Definition active_entries (nowSec : Z) (s : Store) : list (Z * bucket) :=
  let table := stale_by_band s in
  List.filter (fun e => match stale_for table e.1 with Some staleAfter => negb (is_stale staleAfter nowSec e.2) | None => false end)
    (mjoin (map (fun sh => map_to_list (buckets sh)) (shards s))).

(** Fine and coarse buckets that are not stale. *)
Definition Store_Stats (now : Z) (s : Store) : Z * Z :=
  if negb (cfg_Enabled (st_cfg s)) then (0, 0)
  else
    let l := active_entries (unix_of now) s in
    (count_if (fun e => negb (key_is_coarse e.1)) l, count_if (fun e => key_is_coarse e.1) l).

Definition Store_StatsByBand (now : Z) (s : Store) : list (Z * Z) :=
  if negb (cfg_Enabled (st_cfg s)) then []
  else
    let l := active_entries (unix_of now) s in
    imap (fun i _ => (count_if (fun e => negb (key_is_coarse e.1) && (key_band e.1 =? Z.of_nat i)) l,
                      count_if (fun e => key_is_coarse e.1 && (key_band e.1 =? Z.of_nat i)) l)) (idxToBand (bandIndex s)).

Fixpoint weightBinIndex (weight : Q) (edges : list Q) : nat :=
  match edges with
  | [] => O
  | edge :: edges => if Qlt_b weight edge then O else S (weightBinIndex weight edges)
  end.

(** The decayed weights of the active buckets of a band. *)
Definition band_weights (nowSec : Z) (i : nat) (band : string) (s : Store) : list Q :=
  let halfLife := HalfLifeSeconds band (st_cfg s) in
  List.filter (fun w => negb (Qle_b w 0))
    (map (fun e => fmul (b_weight e.2) (decayFactor (age_at nowSec e.2) halfLife)) (List.filter (fun e => key_band e.1 =? Z.of_nat i) (active_entries nowSec s))).

Definition Store_WeightHistogramByBand (now : Z) (edges : list Q) (s : Store) : list (Z * list Z) :=
  if negb (cfg_Enabled (st_cfg s)) || bool_decide (edges = []) then []
  else imap (fun i band =>
         let ws := band_weights (unix_of now) i band s in
         (Z.of_nat (length ws), map (fun bin => count_if (fun w => weightBinIndex w edges =? bin)%nat ws) (seq 0 (S (length edges)))))
       (idxToBand (bandIndex s)).
End Decay.

(** ** Modes, classes and glyphs *)

Definition normalizeMode (mode : string) : string := upper_trim mode.

(** A report in the scale of FT8; nothing for another mode. *)
Definition FT8Equivalent (mode : string) (snr : Z) (cfg : Config) : option Q :=
  let o := cfg_offsets cfg in
  let m := normalizeMode mode in
  let x := float_of_int snr in
  if bool_decide (m = "FT8") then Some x
  else if bool_decide (m = "FT4") then Some (fadd x (mo_FT4 o))
  else if bool_decide (m = "CW") then Some (fadd x (mo_CW o))
  else if bool_decide (m = "RTTY") then Some (fadd x (mo_RTTY o))
  else if bool_decide (m = "PSK") then Some (fadd x (mo_PSK o))
  else if bool_decide (m = "WSPR") then Some (fadd x (mo_WSPR o))
  else None.

Inductive BucketClass := BucketNone | BucketCombined.

Definition BucketForIngest (mode : string) : BucketClass :=
  if bool_decide (normalizeMode mode ∈ ["FT8"; "FT4"; "CW"; "RTTY"; "PSK"; "WSPR"]) then BucketCombined else BucketNone.

Definition clamp (v lo hi : Q) : Q := if Qlt_b v lo then lo else if Qlt_b hi v then hi else v.

Section Power.
Variable exp_ : Q -> Q.
(** [dbToPower]: [math.Pow(10, db/10)] as a function of [db/10]. *)
Variable pow10 : Q -> Q.

Definition dbToPower (db : Q) : Q := pow10 (fdiv db 10).

Definition thresholdsPower (t : GlyphThresholds) : GlyphThresholdsPower :=
  mkThresholdsPower (dbToPower (th_High t)) (dbToPower (th_Medium t)) (dbToPower (th_Low t)) (dbToPower (th_Unlikely t)).

(** The table of the powers between the clamps, in steps of the float64 0.1. *)
Definition lut_step : Q := fl64 (1 # 10).

Definition build_lut (c : Config) : list Q * Q :=
  let lo := fmul (inject_Z (Floor (fdiv (ClampMin c) lut_step))) lut_step in
  let hi := fmul (inject_Z (Ceil (fdiv (ClampMax c) lut_step))) lut_step in
  let '(lo, hi) := if Qlt_b hi lo then (ClampMin c, ClampMax c) else (lo, hi) in
  let size := RoundQ (fdiv (fsub hi lo) lut_step) + 1 in
  let size := if size <? 2 then 2 else size in
  (map (fun i => dbToPower (fadd lo (fmul (float_of_int (Z.of_nat i)) lut_step))) (seq 0 (Z.to_nat size)), lo).

Definition positive_penalties (noise : list (string * Q)) : list Q := List.filter (fun p => Qlt_b 0 p) (map snd noise).

Definition buildCaches (c : Config) : Caches :=
  let '(lut, lo) := build_lut c in
  mkCaches (thresholdsPower <$> cfg_thresholds c) (thresholdsPower (cfg_glyphs c))
    (map (fun p => (p, dbToPower p)) (positive_penalties (map_to_list (cfg_noise c)))) lut lo lut_step.

Definition powerFromDB (c : Config) (k : Caches) (db : Q) : Q :=
  let clamped := clamp db (ClampMin c) (ClampMax c) in
  if Qle_b (powerLUTStepDB k) 0 || bool_decide (powerLUT k = []) then dbToPower clamped
  else
    let idx := RoundQ (fdiv (fsub clamped (powerLUTMinDB k)) (powerLUTStepDB k)) in
    let idx := if idx <? 0 then 0 else idx in
    let idx := if Z.of_nat (length (powerLUT k)) <=? idx then Z.of_nat (length (powerLUT k)) - 1 else idx in
    nth (Z.to_nat idx) (powerLUT k) 0%Q.

Fixpoint find_divisor (penalty : Q) (l : list (Q * Q)) : option Q :=
  match l with
  | [] => None
  | (p, v) :: l => if Qeq_bool p penalty then Some v else find_divisor penalty l
  end.

Definition noiseDivisorForPenalty (k : Caches) (penalty : Q) : Q :=
  if Qle_b penalty 0 then 1%Q
  else
    match find_divisor penalty (noisePenaltyDivisors k) with
    | Some v => if Qlt_b 0 v then v else dbToPower penalty
    | None => dbToPower penalty
    end.

Definition ApplyNoisePower (k : Caches) (power penaltyDB : Q) : Q :=
  if Qle_b power 0 || Qle_b penaltyDB 0 then power
  else
    let divisor := noiseDivisorForPenalty k penaltyDB in
    if Qle_b divisor 0 then power else fdiv power divisor.

Definition thresholdsForModePower (mode : string) (k : Caches) : GlyphThresholdsPower :=
  default (glyphThresholdsPower k) (modeThresholdsPower k !! normalizeMode mode).

Definition GlyphForPower (power : Q) (mode : string) (c : Config) (k : Caches) : string :=
  let t := thresholdsForModePower mode k in
  let g := cfg_symbols c in
  if Qle_b (tp_High t) power then gs_High g
  else if Qle_b (tp_Medium t) power then gs_Medium g
  else if Qle_b (tp_Low t) power then gs_Low g
  else gs_Unlikely g.

Definition ClassForPower (power : Q) (mode : string) (k : Caches) : string :=
  let t := thresholdsForModePower mode k in
  if Qle_b (tp_High t) power then "HIGH"
  else if Qle_b (tp_Medium t) power then "MEDIUM"
  else if Qle_b (tp_Low t) power then "LOW"
  else "UNLIKELY".

(** ** Samples *)

Definition has_weight (s : Sample) : bool := Qlt_b 0 (s_Weight s).

Definition SelectSample (fine coarse : Sample) (minFineWeight fineOnlyWeight : Q) : Sample :=
  if has_weight fine && negb (has_weight coarse) then fine
  else if negb (has_weight fine) && has_weight coarse then coarse
  else if negb (has_weight fine) && negb (has_weight coarse) then no_sample
  else if Qlt_b 0 fineOnlyWeight && Qle_b fineOnlyWeight (s_Weight fine) then fine
  else if Qlt_b 0 minFineWeight && Qlt_b (s_Weight fine) minFineWeight then coarse
  else
    let sum := fadd (s_Weight fine) (s_Weight coarse) in
    if Qle_b sum 0 then no_sample
    else mkSample (fdiv (fadd (fmul (s_Value fine) (s_Weight fine)) (fmul (s_Value coarse) (s_Weight coarse))) sum) sum (Z.min (AgeSec coarse) (AgeSec fine)).

Definition mergeSamples (receive transmit : Sample) (c : Config) (k : Caches) (noisePenalty : Q) : option (Q * Q) :=
  if negb (has_weight receive) && negb (has_weight transmit) then None
  else
    let receivePower := if has_weight receive && Qlt_b 0 noisePenalty then ApplyNoisePower k (s_Value receive) noisePenalty else s_Value receive in
    if has_weight receive && has_weight transmit then
      Some (fadd (fmul (MergeReceiveWeight c) receivePower) (fmul (MergeTransmitWeight c) (s_Value transmit)),
            fadd (fmul (MergeReceiveWeight c) (s_Weight receive)) (fmul (MergeTransmitWeight c) (s_Weight transmit)))
    else if has_weight receive then Some (receivePower, fmul (s_Weight receive) (ReverseHintDiscount c))
    else Some (s_Value transmit, fmul (s_Weight transmit) (ReverseHintDiscount c)).

(** ** The predictor *)

Record Predictor := mkPredictor { combined : Store; pr_cfg : Config; pr_caches : Caches }.

Definition NewPredictor (order_t : gmap string GlyphThresholds -> list (string * GlyphThresholds)) (order_n : gmap string Q -> list (string * Q))
    (cfg : Config) (bands : list string) : Predictor :=
  let cfg := normalize order_t order_n cfg in
  mkPredictor (NewStore (normalize order_t order_n cfg) bands) cfg (buildCaches cfg).

Definition with_store (s : Store) (p : Predictor) : Predictor := mkPredictor s (pr_cfg p) (pr_caches p).

Definition Predictor_Update (bucket : BucketClass) (receiverCell senderCell receiverCoarse senderCoarse : Z) (band : string) (ft8dB weight : Q)
    (now : Z) (isBeacon : bool) (p : Predictor) : Predictor :=
  if negb (cfg_Enabled (pr_cfg p)) then p
  else
    let cap := BeaconWeightCap (pr_cfg p) in
    let w := if isBeacon && Qlt_b 0 cap && Qlt_b cap weight then cap else weight in
    let power := powerFromDB (pr_cfg p) (pr_caches p) ft8dB in
    match bucket with
    | BucketCombined => with_store (Store_Update exp_ receiverCell senderCell receiverCoarse senderCoarse band power w now (combined p)) p
    | BucketNone => p
    end.

Inductive PredictionSource := SourceInsufficient | SourceCombined.

Record Result := mkResult { Glyph : string; r_Value : Q; r_Weight : Q; Source : PredictionSource }.

Definition select (c : Config) (l : Sample * Sample) : Sample := SelectSample l.1 l.2 (MinFineWeight c) (FineOnlyWeight c).

Definition mergeFromStore (userCell dxCell userCoarse dxCoarse : Z) (band : string) (noisePenalty : Q) (now : Z) (p : Predictor) : option (Q * Q) :=
  let receive := select (pr_cfg p) (Store_Lookup exp_ userCell dxCell userCoarse dxCoarse band now (combined p)) in
  let transmit := select (pr_cfg p) (Store_Lookup exp_ dxCell userCell dxCoarse userCoarse band now (combined p)) in
  mergeSamples receive transmit (pr_cfg p) (pr_caches p) noisePenalty.

Definition Predict (userCell dxCell userCoarse dxCoarse : Z) (band mode : string) (noisePenalty : Q) (now : Z) (p : Predictor) : Result :=
  let insufficient := text_else (gs_Insufficient (cfg_symbols (pr_cfg p))) "?" in
  if negb (cfg_Enabled (pr_cfg p)) then mkResult insufficient 0 0 SourceInsufficient
  else
    match mergeFromStore userCell dxCell userCoarse dxCoarse band noisePenalty now p with
    | None => mkResult insufficient 0 0 SourceInsufficient
    | Some (power, weight) =>
        if Qle_b (MinEffectiveWeight (pr_cfg p)) weight then mkResult (GlyphForPower power (normalizeMode mode) (pr_cfg p) (pr_caches p)) power weight SourceCombined
        else mkResult insufficient power weight SourceInsufficient
    end.

Definition Predictor_PurgeStale (now : Z) (p : Predictor) : Z * Predictor := let '(n, s) := Store_PurgeStale now (combined p) in (n, with_store s p).

Definition Predictor_Compact (minPeak : Z) (ratio : Q) (p : Predictor) : Z * Predictor :=
  if negb (cfg_Enabled (pr_cfg p)) then (0, p) else let '(n, s) := Store_Compact minPeak ratio (combined p) in (n, with_store s p).

Definition Predictor_TotalBuckets (p : Predictor) : Z := if negb (cfg_Enabled (pr_cfg p)) then 0 else TotalBuckets (combined p).

Definition Predictor_Stats (now : Z) (p : Predictor) : Z * Z := if negb (cfg_Enabled (pr_cfg p)) then (0, 0) else Store_Stats now (combined p).

Definition Predictor_StatsByBand (now : Z) (p : Predictor) : list (string * Z * Z) :=
  if negb (cfg_Enabled (pr_cfg p)) then []
  else
    let counts := Store_StatsByBand now (combined p) in
    imap (fun i band => let c := nth i counts (0, 0) in (band, c.1, c.2)) (idxToBand (bandIndex (combined p))).

Definition weightHistogramEdges : list Q := [1%Q; 2%Q; 3%Q; 5%Q; 10%Q].

Definition Predictor_WeightHistogramByBand (now : Z) (p : Predictor) : list Q * list (string * Z * list Z) :=
  if negb (cfg_Enabled (pr_cfg p)) then ([], [])
  else
    let bands := idxToBand (bandIndex (combined p)) in
    let counts := Store_WeightHistogramByBand exp_ now weightHistogramEdges (combined p) in
    if bool_decide (bands = []) || bool_decide (counts = []) then ([], [])
    else (weightHistogramEdges, imap (fun i band => let c := nth i counts (0, []) in (band, c.1, c.2)) bands).
End Power.

(** ** Grid squares *)

(** The position of a byte between two letters. *)
Definition offset_in (lo hi c : ascii) : option Z := if (byte_val lo <=? byte_val c) && (byte_val c <=? byte_val hi) then Some (byte_val c - byte_val lo) else None.

(** Latitude and longitude of the centre of a locator of four or at least six characters. *)
Definition GridCenterLatLon (grid : string) : option (Q * Q) :=
  match upper_trim grid with
  | String a (String b (String d0 (String d1 rest))) =>
      if len rest =? 1 then None
      else
        match offset_in "A" "R" a, offset_in "A" "R" b, offset_in "0" "9" d0, offset_in "0" "9" d1 with
        | Some x, Some y, Some u, Some v =>
            let lon := fadd (fadd (-180) (inject_Z (x * 20))) (inject_Z (u * 2)) in
            let lat := fadd (fadd (-90) (inject_Z (y * 10))) (inject_Z v) in
            match rest with
            | String s0 (String s1 _) =>
                match offset_in "A" "X" s0, offset_in "A" "X" s1 with
                | Some p, Some q =>
                    Some (fadd lat (fadd (fmul (inject_Z q) (fl64 (1 # 24))) (fl64 (1 # 48))),
                          fadd lon (fadd (fmul (inject_Z p) (fl64 (1 # 12))) (fl64 (1 # 24))))
                | _, _ => None
                end
            | _ => Some (fadd lat (1 # 2), fadd lon 1)
            end
        | _, _, _, _ => None
        end
  | _ => None
  end.

(** ** Keys *)

Definition cell_ok (c : Z) : Prop := 0 < c < 65536.
Definition band_ok (b : Z) : Prop := 0 <= b < 65536.

Lemma lor_shift a n b : 0 <= n -> 0 <= b < 2 ^ n -> Z.lor (Z.shiftl a n) b = a * 2 ^ n + b.
Proof.
  intros Hn Hb. rewrite <- Z.shiftl_mul_pow2 by done. symmetry.
  assert (Hd : Z.land (Z.shiftl a n) b = 0).
  { apply Z.bits_inj'. intros i Hi. rewrite Z.land_spec, Z.bits_0. destruct (Z.ltb_spec i n).
    - by rewrite Z.shiftl_spec_low.
    - rewrite <- (Z.mod_small b (2 ^ n)) by done. rewrite Z.mod_pow2_bits_high by lia. apply andb_false_r. }
  by rewrite (Z.add_nocarry_lxor _ _ Hd), (Z.lxor_lor _ _ Hd).
Qed.

Lemma packKey_value r s b : cell_ok r -> cell_ok s -> packKey r s b = (b * 65536 + r) * 4294967296 + s * 65536.
Proof.
  unfold cell_ok, packKey, InvalidCell. intros Hr Hs. destruct (Z.eqb_spec r 0); [lia|]. destruct (Z.eqb_spec s 0); [lia|]. simpl.
  assert (E : Z.lor (Z.shiftl b 48) (Z.shiftl r 32) = Z.shiftl (b * 65536 + r) 32).
  { replace (Z.shiftl b 48) with (Z.shiftl (Z.shiftl b 16) 32) by (by rewrite Z.shiftl_shiftl).
    rewrite <- Z.shiftl_lor. f_equal. rewrite (lor_shift b 16 r); lia. }
  rewrite E, (lor_shift _ 32 (Z.shiftl s 16)); rewrite ?Z.shiftl_mul_pow2 by lia; lia.
Qed.

Lemma packCoarseKey_value r s b : cell_ok r -> cell_ok s -> packCoarseKey r s b = (b * 65536 + r) * 65536 + s.
Proof.
  unfold cell_ok, packCoarseKey, InvalidCell. intros Hr Hs. destruct (Z.eqb_spec r 0); [lia|]. destruct (Z.eqb_spec s 0); [lia|]. simpl.
  assert (E : Z.lor (Z.shiftl b 32) (Z.shiftl r 16) = Z.shiftl (b * 65536 + r) 16).
  { replace (Z.shiftl b 32) with (Z.shiftl (Z.shiftl b 16) 16) by (by rewrite Z.shiftl_shiftl).
    rewrite <- Z.shiftl_lor. f_equal. rewrite (lor_shift b 16 r); lia. }
  rewrite E, (lor_shift _ 16 s); lia.
Qed.

(** A path: the resolution, the two cells and the band. *)
Record path := mkPath { p_coarse : bool; p_receiver : Z; p_sender : Z; p_band : Z }.
Definition path_ok (p : path) : Prop := cell_ok (p_receiver p) /\ cell_ok (p_sender p) /\ band_ok (p_band p).
Definition path_key (p : path) : Z :=
  if p_coarse p then packCoarseKey (p_receiver p) (p_sender p) (p_band p) else packKey (p_receiver p) (p_sender p) (p_band p).

Lemma land_low k : 0 <= k -> Z.land k 65535 = k mod 65536.
Proof. intros Hk. change 65535 with (Z.ones 16). rewrite Z.land_ones by lia. done. Qed.

Lemma key_read p : path_ok p -> key_is_coarse (path_key p) = p_coarse p /\ key_band (path_key p) = p_band p /\ 0 < path_key p.
Proof.
  destruct p as [c r s b]. intros (Hr & Hs & Hb). unfold path_key. simpl in *. unfold cell_ok, band_ok in *.
  assert (Hk : forall k, 0 <= k -> key_is_coarse k = negb (k mod 65536 =? 0)) by (intros k Hk; unfold key_is_coarse; by rewrite land_low).
  assert (Hb' : forall k n, 0 <= k -> 0 <= n -> uint16 (Z.land (Z.shiftr k n) 65535) = (k / 2 ^ n) mod 65536).
  { intros k n H0 Hn. rewrite land_low by (by apply Z.shiftr_nonneg). rewrite Z.shiftr_div_pow2 by done. unfold uint16. by rewrite Z.mod_mod. }
  destruct c.
  - rewrite packCoarseKey_value by done. set (k := (b * 65536 + r) * 65536 + s).
    assert (Hc : key_is_coarse k = true). { rewrite Hk by lia. unfold k. rewrite Z.add_comm, Z.mod_add, Z.mod_small by lia. destruct (Z.eqb_spec s 0); [lia|done]. }
    split; [done|]. unfold key_band. rewrite Hc, Hb' by lia. split; [|lia].
    assert (k / 2 ^ 32 = b) by (symmetry; apply Z.div_unique with (r * 65536 + s); lia). rewrite H. apply Z.mod_small. lia.
  - rewrite packKey_value by done. set (k := (b * 65536 + r) * 4294967296 + s * 65536).
    assert (Hc : key_is_coarse k = false).
    { rewrite Hk by lia. replace k with (((b * 65536 + r) * 65536 + s) * 65536) by lia. by rewrite Z.mod_mul. }
    split; [done|]. unfold key_band. rewrite Hc, Hb' by lia. split; [|lia].
    assert (k / 2 ^ 48 = b) by (symmetry; apply Z.div_unique with (r * 4294967296 + s * 65536); lia). rewrite H. apply Z.mod_small. lia.
Qed.

Lemma path_key_inj p q : path_ok p -> path_ok q -> path_key p = path_key q -> p = q.
Proof.
  intros Hp Hq E. pose proof (key_read p Hp) as (P1 & _). pose proof (key_read q Hq) as (Q1 & _).
  rewrite E, Q1 in P1. destruct p as [c r s b], q as [c' r' s' b']. simpl in P1. subst c'.
  destruct Hp as (Hr & Hs & Hb), Hq as (Hr' & Hs' & Hb'). unfold path_key in E. unfold cell_ok, band_ok in *. simpl in *.
  destruct c; [rewrite !packCoarseKey_value in E by done|rewrite !packKey_value in E by done]; f_equal; lia.
Qed.

(** The packed keys of two different paths never meet: not across the two resolutions,
    bands, directions or cells, and the maintenance loops read the resolution and the
    band back from a key. *)
Theorem path_keys_distinct p q :
  cell_ok (p_receiver p) /\ cell_ok (p_sender p) /\ band_ok (p_band p) -> cell_ok (p_receiver q) /\ cell_ok (p_sender q) /\ band_ok (p_band q) ->
  (path_key p = path_key q -> p = q) /\ key_is_coarse (path_key p) = p_coarse p /\ key_band (path_key p) = p_band p /\ path_key p <> 0.
Proof. intros Hp Hq. split; [by apply path_key_inj|]. destruct (key_read p Hp) as (H1 & H2 & H3). repeat split; [done..|lia]. Qed.

(** ** The store is a table of paths *)

Definition sharded (s : Store) : Prop := length (shards s) = defaultShards.

Lemma shard_of_lt k : (shard_of k < defaultShards)%nat.
Proof. unfold shard_of, defaultShards. pose proof (Z.mod_pos_bound k (Z.of_nat 64)). lia. Qed.

Section Table.
Variable exp_ : Q -> Q.

Lemma find_updated key power weight now hl s k :
  sharded s -> key <> 0 ->
  find_bucket (updateBucket exp_ key power weight now hl s) k =
    if bool_decide (k = key) then Some (updated exp_ (find_bucket s key) power weight (unix_of now) hl) else find_bucket s k.
Proof.
  intros Hs Hk. unfold updateBucket, find_bucket. destruct (Z.eqb_spec key 0); [done|]. simpl.
  assert (Hsome : is_Some (shards s !! shard_of key)) by (apply lookup_lt_is_Some; rewrite Hs; apply shard_of_lt).
  destruct Hsome as [sh Hsh]. case_bool_decide as Hkk.
  - subst k. rewrite list_lookup_alter_eq, Hsh. simpl. unfold update_shard. destruct (buckets sh !! key); simpl; by rewrite lookup_insert_eq.
  - destruct (decide (shard_of key = shard_of k)) as [E|E]; [|by rewrite list_lookup_alter_ne].
    rewrite <- E, list_lookup_alter_eq, Hsh. simpl. unfold update_shard. destruct (buckets sh !! key); simpl; by rewrite lookup_insert_ne.
Qed.

Lemma sharded_update key power weight now hl s : sharded s -> sharded (updateBucket exp_ key power weight now hl s).
Proof. unfold sharded, updateBucket. intros H. destruct (_ =? _); [done|]. simpl. by rewrite length_alter. Qed.

(** A reading for the store. *)
Record reading := mkReading { rd_cells : Z * Z; rd_coarse : Z * Z; rd_band : string; rd_power : Q; rd_weight : Q; rd_now : Z }.

Definition apply_reading (s : Store) (r : reading) : Store :=
  Store_Update exp_ (rd_cells r).1 (rd_cells r).2 (rd_coarse r).1 (rd_coarse r).2 (rd_band r) (rd_power r) (rd_weight r) (rd_now r) s.

(** Cells are 16-bit numbers. *)
Definition cells_ok (c : Z * Z) : Prop := 0 <= c.1 < 65536 /\ 0 <= c.2 < 65536.
Definition reading_ok (r : reading) : Prop := cells_ok (rd_cells r) /\ cells_ok (rd_coarse r).

(** Whether a reading is one of a path. *)
Definition concerns (s : Store) (p : path) (r : reading) : bool :=
  bool_decide (BandIndex_Lookup (bandIndex s) (rd_band r) = Some (p_band p)) &&
  bool_decide ((if p_coarse p then rd_coarse r else rd_cells r) = (p_receiver p, p_sender p)).

(** What the readings of a path make of its bucket. *)
Definition path_step (s : Store) (p : path) (b : option bucket) (r : reading) : option bucket :=
  if concerns s p r then Some (updated exp_ b (rd_power r) (rd_weight r) (unix_of (rd_now r)) (HalfLifeSeconds (rd_band r) (st_cfg s))) else b.

Definition idx_ok (s : Store) : Prop := forall band i, BandIndex_Lookup (bandIndex s) band = Some i -> band_ok i.

Lemma cell_valid c : 0 <= c < 65536 -> (c =? InvalidCell) = false -> cell_ok c.
Proof. unfold cell_ok, InvalidCell. intros H E. destruct (Z.eqb_spec c 0); [done|]. lia. Qed.

Lemma apply_reading_kept s r : st_cfg (apply_reading s r) = st_cfg s /\ bandIndex (apply_reading s r) = bandIndex s /\ (sharded s -> sharded (apply_reading s r)).
Proof.
  unfold apply_reading, Store_Update. destruct (negb _); [done|]. destruct (BandIndex_Lookup _ _); [|done].
  assert (U : forall key p w n h s', st_cfg (updateBucket exp_ key p w n h s') = st_cfg s' /\ bandIndex (updateBucket exp_ key p w n h s') = bandIndex s')
    by (intros; unfold updateBucket; by destruct (_ =? _)).
  destruct (_ || _), (_ && _); repeat (rewrite ?(proj1 (U _ _ _ _ _ _)), ?(proj2 (U _ _ _ _ _ _))); repeat split; intros; repeat apply sharded_update; done.
Qed.

Lemma find_read s r p :
  sharded s -> idx_ok s -> cfg_Enabled (st_cfg s) = true -> reading_ok r -> path_ok p ->
  find_bucket (apply_reading s r) (path_key p) = path_step s p (find_bucket s (path_key p)) r.
Proof.
  intros Hs Hi Hen ((A1 & A2) & (B1 & B2)) Hp. unfold apply_reading, Store_Update. rewrite Hen. cbn [negb].
  unfold path_step, concerns. destruct (BandIndex_Lookup (bandIndex s) (rd_band r)) as [idx|] eqn:Hidx; [|done].
  destruct r as [[a1 a2] [b1 b2] band power weight now]. cbn [rd_cells rd_coarse rd_band rd_power rd_weight rd_now fst snd] in *.
  pose proof (Hi _ _ Hidx) as Hix. set (hl := HalfLifeSeconds band (st_cfg s)).
  (* the fine update *)
  set (s1 := if (a1 =? InvalidCell) || (a2 =? InvalidCell) then s else updateBucket exp_ (packKey a1 a2 idx) power weight now hl s).
  assert (H1 : sharded s1 /\ find_bucket s1 (path_key p) =
      if negb (p_coarse p) && bool_decide (idx = p_band p) && bool_decide ((a1, a2) = (p_receiver p, p_sender p))
      then Some (updated exp_ (find_bucket s (path_key p)) power weight (unix_of now) hl) else find_bucket s (path_key p)).
  { unfold s1. destruct (a1 =? InvalidCell) eqn:Ea1; [|destruct (a2 =? InvalidCell) eqn:Ea2]; simpl.
    1,2: split; [done|]; rewrite (bool_decide_eq_false_2 ((a1, a2) = _)), andb_false_r; [done|]; intros [= -> ->]; destruct Hp as (Hr & Hsd & _);
         unfold cell_ok, InvalidCell in *; lia.
    assert (Hpa : path_ok (mkPath false a1 a2 idx)) by (repeat split; (by apply cell_valid) || apply Hix || lia).
    pose proof (key_read _ Hpa) as (_ & _ & Hpos). unfold path_key in Hpos. simpl in Hpos.
    split; [by apply sharded_update|]. rewrite find_updated by (done || lia).
    destruct (bool_decide_reflect (path_key p = packKey a1 a2 idx)) as [Ek|Ek].
    - change (packKey a1 a2 idx) with (path_key (mkPath false a1 a2 idx)) in Ek. apply path_key_inj in Ek; [|done..]. subst p. simpl.
      rewrite !bool_decide_eq_true_2 by done. done.
    - destruct (p_coarse p) eqn:Hc; [done|]. simpl. case_bool_decide as Hib; [|done]. case_bool_decide as Hcs; [|done]. exfalso. apply Ek.
      destruct p as [c r sd bd]. simpl in *. by simplify_eq. }
  destruct H1 as [Hs1 H1].
  (* the coarse update *)
  destruct (b1 =? InvalidCell) eqn:Eb1; [|destruct (b2 =? InvalidCell) eqn:Eb2]; cbn [negb andb].
  1,2: rewrite H1; destruct (p_coarse p) eqn:Hc; simpl;
    [rewrite (bool_decide_eq_false_2 ((b1, b2) = _)), andb_false_r;
       [done|]; intros [= -> ->]; destruct Hp as (Hr & Hsd & _); unfold cell_ok, InvalidCell in *; lia
    |destruct (bool_decide_reflect (Some idx = Some (p_band p))) as [[= E]|E]; [by rewrite (bool_decide_eq_true_2 (idx = _))|rewrite (bool_decide_eq_false_2 (idx = _)); [done|congruence]]].
  assert (Hpb : path_ok (mkPath true b1 b2 idx)) by (repeat split; (by apply cell_valid) || apply Hix || lia).
  pose proof (key_read _ Hpb) as (_ & _ & Hpos). unfold path_key in Hpos. simpl in Hpos.
  rewrite find_updated by (done || lia). destruct (bool_decide_reflect (path_key p = packCoarseKey b1 b2 idx)) as [Ek|Ek].
  - change (packCoarseKey b1 b2 idx) with (path_key (mkPath true b1 b2 idx)) in Ek. apply path_key_inj in Ek; [|done..]. subst p.
    change (packCoarseKey b1 b2 idx) with (path_key (mkPath true b1 b2 idx)). rewrite H1. simpl. rewrite !bool_decide_eq_true_2 by done. done.
  - rewrite H1. destruct (p_coarse p) eqn:Hc; simpl.
    + destruct (bool_decide (Some idx = Some (p_band p)) && bool_decide ((b1, b2) = (p_receiver p, p_sender p))) eqn:Hand; [|reflexivity]. apply andb_prop in Hand as [Hib%bool_decide_eq_true Hcs%bool_decide_eq_true]. exfalso. apply Ek.
      destruct p as [c r sd bd]. simpl in *. by simplify_eq.
    + destruct (bool_decide_reflect (Some idx = Some (p_band p))) as [[= E]|E]; [by rewrite (bool_decide_eq_true_2 (idx = _))|rewrite (bool_decide_eq_false_2 (idx = _)); [done|congruence]].
Qed.
End Table.

(** ** Bands *)

Definition index_ok (b : BandIndex) : Prop :=
  forall k i, bandToIdx b !! k = Some i -> band_ok i /\ idxToBand b !! Z.to_nat i = Some k.

Lemma add_band_ok b band : index_ok b -> Z.of_nat (length (idxToBand b)) < 65536 -> index_ok (add_band b band).
Proof.
  intros Hb Hl. unfold add_band. case_bool_decide; [done|]. destruct (bandToIdx b !! normalizeBand band) eqn:Hn; [done|].
  intros k i Hk. simpl in *. unfold uint16 in Hk. rewrite Z.mod_small in Hk by lia. destruct (decide (k = normalizeBand band)) as [-> |Hne].
  - rewrite lookup_insert_eq in Hk. injection Hk as <-. split; [unfold band_ok; lia|]. rewrite Nat2Z.id, lookup_app_r, Nat.sub_diag by lia. done.
  - rewrite lookup_insert_ne in Hk by done. destruct (Hb k i Hk) as [H1 H2]. split; [done|]. rewrite lookup_app_l; [done|]. by eapply lookup_lt_Some.
Qed.

Lemma add_band_length b band : (length (idxToBand (add_band b band)) <= S (length (idxToBand b)))%nat.
Proof. unfold add_band. case_bool_decide; [lia|]. destruct (_ !! _); [lia|]. simpl. rewrite length_app. simpl. lia. Qed.

Lemma NewBandIndex_ok bands : Z.of_nat (length bands) <= 65536 -> index_ok (NewBandIndex bands).
Proof.
  unfold NewBandIndex. assert (Hgen : forall l b, index_ok b -> Z.of_nat (length (idxToBand b) + length l) <= 65536 -> index_ok (fold_left add_band l b)).
  { induction l as [|x l IH]; intros b Hb Hl; [done|]. simpl in *. apply IH; [apply add_band_ok; [done|lia]|]. pose proof (add_band_length b x). lia. }
  intros H. apply Hgen; [|simpl; lia]. intros k i Hk. simpl in Hk. by rewrite lookup_empty in Hk.
Qed.

Lemma normalizeBand_idemp b : normalizeBand (normalizeBand b) = normalizeBand b.
Proof. unfold normalizeBand, lower_trim. rewrite TrimSpace_ToLower, TrimSpace_idemp. unfold ToLower. apply smap_idemp, lower_byte_idemp. Qed.

Lemma half_life_normal band cfg : HalfLifeSeconds (normalizeBand band) cfg = HalfLifeSeconds band cfg.
Proof. unfold HalfLifeSeconds. by rewrite normalizeBand_idemp. Qed.

Section Readings.
Variable exp_ : Q -> Q.

Lemma readings_find p us : forall s, sharded s -> idx_ok s -> cfg_Enabled (st_cfg s) = true -> Forall reading_ok us -> path_ok p ->
  find_bucket (fold_left (apply_reading exp_) us s) (path_key p) = fold_left (path_step exp_ s p) us (find_bucket s (path_key p)) /\
  st_cfg (fold_left (apply_reading exp_) us s) = st_cfg s /\ bandIndex (fold_left (apply_reading exp_) us s) = bandIndex s.
Proof.
  induction us as [|r us IH]; intros s Hs Hi Hen Hf Hp; [done|]. inversion_clear Hf as [|? ? Hr Hrest]. cbn [fold_left].
  destruct (apply_reading_kept exp_ s r) as (K1 & K2 & K3).
  assert (Hi' : idx_ok (apply_reading exp_ s r)) by (unfold idx_ok; by rewrite K2).
  destruct (IH (apply_reading exp_ s r) (K3 Hs) Hi') as (E1 & E2 & E3); [by rewrite K1|done|done|]. rewrite E1, E2, E3, find_read by done.
  split; [|by rewrite K1, K2]. assert (Hstep : forall b r', path_step exp_ (apply_reading exp_ s r) p b r' = path_step exp_ s p b r')
    by (intros; unfold path_step, concerns; by rewrite K1, K2). clear - Hstep.
  generalize (path_step exp_ s p (find_bucket s (path_key p)) r). induction us as [|x us IH]; intros b; [done|]. simpl. rewrite Hstep. apply IH.
Qed.

Lemma find_new cfg bands key : find_bucket (NewStore cfg bands) key = None.
Proof.
  unfold find_bucket, NewStore. cbn [shards]. destruct (replicate defaultShards _ !! shard_of key) as [sh|] eqn:E; [|done].
  apply lookup_replicate in E as [-> _]. simpl. apply lookup_empty.
Qed.

Lemma new_idx_ok cfg bands : Z.of_nat (length bands) <= 65536 -> idx_ok (NewStore cfg bands).
Proof.
  intros Hl band i Hb. unfold NewStore in Hb. cbn [bandIndex] in Hb. eapply NewBandIndex_ok; [|exact Hb].
  case_bool_decide; [unfold default_bands; simpl; lia|done].
Qed.

(** The sample of a path, from the readings of the path alone. *)
Definition path_sample (cfg : Config) (bands : list string) (us : list reading) (p : path) (halfLife now : Z) : Sample :=
  match fold_left (path_step exp_ (NewStore cfg bands) p) us None with
  | None => no_sample
  | Some b => bucket_sample exp_ cfg halfLife (unix_of now) b
  end.
End Readings.

(** C16: The sharded store with its packed keys is a table of paths: what a lookup returns
    is, for the fine and for the coarse cells, the sample of the bucket made by the
    readings of that path, direction and band alone, in their order. *)
Theorem path_store_refines exp_ cfg bands us receiver sender receiverC senderC band idx now :
  cfg_Enabled cfg = true -> Z.of_nat (length bands) <= 65536 -> Forall reading_ok us ->
  cell_ok receiver -> cell_ok sender -> cell_ok receiverC -> cell_ok senderC -> BandIndex_Lookup (bandIndex (NewStore cfg bands)) band = Some idx ->
  Store_Lookup exp_ receiver sender receiverC senderC band now (fold_left (apply_reading exp_) us (NewStore cfg bands)) =
    (path_sample exp_ cfg bands us (mkPath false receiver sender idx) (HalfLifeSeconds band cfg) now,
     path_sample exp_ cfg bands us (mkPath true receiverC senderC idx) (HalfLifeSeconds band cfg) now).
Proof.
  intros Hen Hl Hf H1 H2 H3 H4 Hidx. pose proof (new_idx_ok cfg bands Hl) as Hi. pose proof (Hi _ _ Hidx) as Hb.
  assert (Hsh : sharded (NewStore cfg bands)) by apply length_replicate.
  assert (Hp : path_ok (mkPath false receiver sender idx)) by done. assert (Hq : path_ok (mkPath true receiverC senderC idx)) by done.
  destruct (readings_find exp_ _ us (NewStore cfg bands) Hsh Hi Hen Hf Hp) as (E1 & E2 & E3). destruct (readings_find exp_ _ us (NewStore cfg bands) Hsh Hi Hen Hf Hq) as (F1 & _).
  rewrite find_new in E1, F1. unfold Store_Lookup, path_sample. rewrite E2, E3, Hidx. change (st_cfg (NewStore cfg bands)) with cfg. rewrite Hen. cbn [negb].
  assert (Hne : forall c, cell_ok c -> (c =? InvalidCell) = false) by (unfold cell_ok, InvalidCell; intros c Hc; apply Z.eqb_neq; lia).
  rewrite !Hne by done. cbn [negb andb]. unfold sample. change (packKey receiver sender idx) with (path_key (mkPath false receiver sender idx)).
  change (packCoarseKey receiverC senderC idx) with (path_key (mkPath true receiverC senderC idx)).
  rewrite E1, F1, E2. destruct (key_read _ Hp) as (_ & _ & P1), (key_read _ Hq) as (_ & _ & P2).
  destruct (Z.eqb_spec (path_key (mkPath false receiver sender idx)) 0); [lia|]. destruct (Z.eqb_spec (path_key (mkPath true receiverC senderC idx)) 0); [lia|]. done.
Qed.

(** ** Maintenance is invisible *)

Lemma stale_stays staleAfter now now' b : now <= now' -> is_stale staleAfter now b = true -> is_stale staleAfter now' b = true.
Proof. unfold is_stale, age_at. destruct (Z.ltb_spec (now - lastUpdate b) 0), (Z.ltb_spec (now' - lastUpdate b) 0); lia. Qed.

Lemma find_purged now s key :
  find_bucket (Store_PurgeStale now s).2 key = find_bucket s key ≫= fun b => if purged (stale_by_band s) (unix_of now) key b then None else Some b.
Proof.
  unfold find_bucket, Store_PurgeStale. cbn [snd shards]. rewrite list_lookup_fmap. destruct (shards s !! shard_of key) as [sh|]; [|done]. simpl.
  destruct (filter _ (buckets sh) !! key) as [b|] eqn:Hf.
  - apply map_lookup_filter_Some in Hf as [-> Hf]. simpl in *. by rewrite Hf.
  - apply map_lookup_filter_None in Hf as [-> |Hf]; [done|]. destruct (buckets sh !! key) as [b|]; [|done]. simpl. specialize (Hf b eq_refl). simpl in Hf.
    destruct (purged _ _ _ _); done.
Qed.

Lemma find_compacted minPeak ratio s key : find_bucket (Store_Compact minPeak ratio s).2 key = find_bucket s key.
Proof.
  unfold find_bucket, Store_Compact. cbn [snd shards]. rewrite map_map, list_lookup_fmap. destruct (shards s !! shard_of key) as [sh|]; [|done]. simpl.
  unfold compact_shard. by destruct (_ && _).
Qed.

Section Invisible.
Variable exp_ : Q -> Q.

Lemma sample_purged p band now now' s :
  index_ok (bandIndex s) -> path_ok p -> BandIndex_Lookup (bandIndex s) band = Some (p_band p) -> now <= now' ->
  sample exp_ (path_key p) (HalfLifeSeconds band (st_cfg s)) now' (Store_PurgeStale now s).2 = sample exp_ (path_key p) (HalfLifeSeconds band (st_cfg s)) now' s.
Proof.
  intros Hix Hp Hb Hn. unfold sample. rewrite find_purged. destruct (_ =? 0); [done|]. destruct (find_bucket s (path_key p)) as [b|]; [|done]. simpl.
  destruct (purged _ _ _ _) eqn:Hpg; [|done]. unfold purged, stale_for in Hpg. destruct (key_read p Hp) as (_ & Hkb & _). rewrite Hkb in Hpg.
  destruct (Hix _ _ Hb) as [_ Hname]. unfold stale_by_band in Hpg. rewrite list_lookup_fmap, Hname in Hpg. simpl in Hpg. rewrite half_life_normal in Hpg.
  unfold bucket_sample. rewrite (stale_stays _ (unix_of now)); [done| |done]. unfold unix_of, second. apply Z.div_le_mono; lia.
Qed.

Lemma lookup_purged r s rc sc band now now' st :
  index_ok (bandIndex st) -> 0 <= r < 65536 -> 0 <= s < 65536 -> 0 <= rc < 65536 -> 0 <= sc < 65536 -> now <= now' ->
  Store_Lookup exp_ r s rc sc band now' (Store_PurgeStale now st).2 = Store_Lookup exp_ r s rc sc band now' st.
Proof.
  intros Hix H1 H2 H3 H4 Hn. unfold Store_Lookup. cbn [Store_PurgeStale snd st_cfg bandIndex]. destruct (negb _); [done|].
  destruct (BandIndex_Lookup (bandIndex st) band) as [idx|] eqn:Hidx; [|done]. destruct (Hix _ _ Hidx) as [Hb _]. f_equal.
  - destruct (r =? InvalidCell) eqn:E1; [done|]. destruct (s =? InvalidCell) eqn:E2; [done|]. cbn [negb andb].
    apply (sample_purged (mkPath false r s idx) band now now' st); [done| |done|done]. repeat split; (by apply cell_valid) || apply Hb.
  - destruct (rc =? InvalidCell) eqn:E1; [done|]. destruct (sc =? InvalidCell) eqn:E2; [done|]. cbn [negb andb].
    apply (sample_purged (mkPath true rc sc idx) band now now' st); [done| |done|done]. repeat split; (by apply cell_valid) || apply Hb.
Qed.

Lemma lookup_compacted r s rc sc band now minPeak ratio st :
  Store_Lookup exp_ r s rc sc band now (Store_Compact minPeak ratio st).2 = Store_Lookup exp_ r s rc sc band now st.
Proof.
  unfold Store_Lookup. cbn [Store_Compact snd st_cfg bandIndex]. destruct (negb _); [done|]. destruct (BandIndex_Lookup _ _); [|done].
  assert (E : forall key hl, sample exp_ key hl now (Store_Compact minPeak ratio st).2 = sample exp_ key hl now st)
    by (intros; unfold sample; by rewrite find_compacted). cbn [Store_Compact snd] in E. f_equal; destruct (_ && _); (done || apply E).
Qed.
End Invisible.

Lemma predict_lookups exp_ pow10 user dx userC dxC band mode penalty now s p :
  Store_Lookup exp_ user dx userC dxC band now s = Store_Lookup exp_ user dx userC dxC band now (combined p) ->
  Store_Lookup exp_ dx user dxC userC band now s = Store_Lookup exp_ dx user dxC userC band now (combined p) ->
  Predict exp_ pow10 user dx userC dxC band mode penalty now (with_store s p) = Predict exp_ pow10 user dx userC dxC band mode penalty now p.
Proof. intros H1 H2. unfold Predict, mergeFromStore. cbn [with_store combined pr_cfg pr_caches]. by rewrite H1, H2. Qed.


(** ** A reader without the lock *)

(** [updateBucket] writes the three fields under the lock of the shard, one after the
    other; [sample] fetches the bucket under the lock and reads its fields after releasing
    it.  [true] in a schedule is a write, [false] a read. *)
Record race := mkRace { r_mem : bucket; r_writes : nat; r_reads : nat; r_seen : bucket }.

Definition write_next (new : bucket) (x : race) : race :=
  let m := r_mem x in
  mkRace (match r_writes x with
          | 0 => mkBucket (sumPower new) (b_weight m) (lastUpdate m)
          | 1 => mkBucket (sumPower m) (b_weight new) (lastUpdate m)
          | 2 => mkBucket (sumPower m) (b_weight m) (lastUpdate new)
          | _ => m
          end%nat) (S (r_writes x)) (r_reads x) (r_seen x).

Definition read_next (x : race) : race :=
  let s := r_seen x in
  mkRace (r_mem x) (r_writes x) (S (r_reads x))
    (match r_reads x with
     | 0 => mkBucket (sumPower s) (b_weight s) (lastUpdate (r_mem x))
     | 1 => mkBucket (sumPower s) (b_weight (r_mem x)) (lastUpdate s)
     | 2 => mkBucket (sumPower (r_mem x)) (b_weight s) (lastUpdate s)
     | _ => s
     end%nat).

Definition race_run (new : bucket) (schedule : list bool) (x : race) : race :=
  fold_left (fun x (w : bool) => if w then write_next new x else read_next x) schedule x.

(** The fields the reader has seen. *)
Definition seen_during (old new : bucket) (schedule : list bool) : bucket := r_seen (race_run new schedule (mkRace old 0 0 old)).

(** A sample can show a power no station reported: a bucket of readings that are all
    of power 1 shows 1 before and after an update, and 2 to a reader that comes between
    the write of the sum and that of the weight. *)
Theorem torn_sample exp_ cfg halfLife now :
  let old := updated exp_ None 1 1 now halfLife in
  let new := updated exp_ (Some old) 1 1 now halfLife in
  s_Value (bucket_sample exp_ cfg halfLife now (seen_during old new [false; false; false; true; true; true])) == 1 /\
  s_Value (bucket_sample exp_ cfg halfLife now (seen_during old new [true; true; true; false; false; false])) == 1 /\
  s_Value (bucket_sample exp_ cfg halfLife now (seen_during old new [true; false; false; false; true; true])) == 2.
Proof.
  cbn zeta. assert (Hd : forall h, decayFactor exp_ (now - now) h = 1%Q) by (intros h; unfold decayFactor; rewrite Z.sub_diag; by destruct (h <=? 0)).
  assert (Ho : updated exp_ None 1 1 now halfLife = mkBucket 1 1 now) by reflexivity. rewrite Ho.
  assert (Hn : updated exp_ (Some (mkBucket 1 1 now)) 1 1 now halfLife = mkBucket 2 2 now).
  { unfold updated, merge_bucket. cbn [lastUpdate]. rewrite Hd. reflexivity. }
  rewrite Hn. assert (Hs : forall x y, bucket_sample exp_ cfg halfLife now (mkBucket x y now) =
      if Qle_b (fmul y 1) 0 then no_sample else if Qle_b (fmul x 1) 0 then no_sample else mkSample (fdiv (fmul x 1) (fmul y 1)) (fmul y 1) 0).
  { intros x y. unfold bucket_sample, is_stale, age_at. cbn [lastUpdate b_weight sumPower]. rewrite Z.sub_diag. cbn [Z.ltb Z.compare].
    pose proof (Hd halfLife) as Hd'. rewrite Z.sub_diag in Hd'. rewrite Hd'.
    destruct (0 <? staleAfterSeconds cfg halfLife) eqn:Hst; [|done]. destruct (Z.ltb_spec (staleAfterSeconds cfg halfLife) 0); [lia|]. done. }
  repeat split; [change (seen_during _ _ _) with (mkBucket 1 1 now)|change (seen_during _ _ _) with (mkBucket 2 2 now)|change (seen_during _ _ _) with (mkBucket 2 1 now)];
    rewrite Hs; vm_compute; reflexivity.
Qed.

(** ** The configuration is usable *)

Definition thresholds_ordered (t : GlyphThresholds) : Prop := (th_Unlikely t <= th_Low t /\ th_Low t < th_Medium t /\ th_Medium t < th_High t)%Q.

Lemma Qlt_b_true x y : Qlt_b x y = true -> (x < y)%Q.
Proof. unfold Qlt_b. intros H. apply negb_true_iff in H. apply Qnot_le_lt. intros E. apply Qle_bool_iff in E. congruence. Qed.

Lemma Qlt_b_false x y : Qlt_b x y = false -> (y <= x)%Q.
Proof. unfold Qlt_b. intros H. apply negb_false_iff in H. by apply Qle_bool_iff. Qed.

Lemma Qle_b_false x y : Qle_b x y = false -> (y < x)%Q.
Proof. unfold Qle_b. intros H. apply Qnot_le_lt. intros E. apply Qle_bool_iff in E. congruence. Qed.

Lemma valid_ordered t : validGlyphThresholds t = true -> thresholds_ordered t.
Proof.
  unfold validGlyphThresholds. intros [[H1 H2]%andb_prop H3]%andb_prop. repeat split; [by apply Qle_bool_iff|by apply Qlt_b_true..].
Qed.

Lemma q_else_pos v d : (0 < d)%Q -> (0 < q_else v d)%Q.
Proof. unfold q_else. destruct (Qle_b v 0) eqn:E; [done|]. intros _. by apply Qle_b_false. Qed.

Lemma default_threshold_ok l m : Forall (fun e => validGlyphThresholds e.2 = true) l ->
  forall k, (k ∈ l.*1 \/ exists t, m !! k = Some t /\ validGlyphThresholds t = true) ->
  exists t, fold_left default_threshold l m !! k = Some t /\ validGlyphThresholds t = true.
Proof.
  revert m. induction l as [|[k0 t0] l IH]; intros m Hv k Hk; simpl.
  - destruct Hk as [Hk|Hk]; [by apply not_elem_of_nil in Hk|done].
  - inversion_clear Hv as [|? ? Hv0 Hvs]. simpl in Hv0. apply IH; [done|]. destruct Hk as [Hk|(t & Ht & Hvt)].
    + apply elem_of_cons in Hk as [-> |Hk]; [|by left]. right. unfold default_threshold. simpl.
      destruct (m !! k0) as [t|]; [|exists t0; by rewrite lookup_insert_eq].
      destruct (validGlyphThresholds (mergeGlyphThresholds t0 t)) eqn:E; eexists; (split; [by rewrite lookup_insert_eq|done]).
    + destruct (decide (k = k0)) as [-> |Hne].
      * right. unfold default_threshold. simpl. rewrite Ht.
        destruct (validGlyphThresholds (mergeGlyphThresholds t0 t)) eqn:E; eexists; (split; [by rewrite lookup_insert_eq|done]).
      * right. exists t. split; [|done]. unfold default_threshold. simpl.
        repeat case_match; by rewrite lookup_insert_ne.
Qed.

(** Whatever the file says, the configuration in use is consistent: a clamp range, positive
    half-lives and weights, a blend range that is not empty, a discount between 0 and 1, a
    symbol for every class, and ordered thresholds for the seven modes and the fallback. *)
Theorem normalized_config order_t order_n c :
  let n := normalize order_t order_n c in
  (ClampMin n < ClampMax n /\ 0 < MinEffectiveWeight n /\ 0 < MinFineWeight n /\ MinFineWeight n <= FineOnlyWeight n)%Q /\
  (0 < ReverseHintDiscount n /\ ReverseHintDiscount n <= 1 /\ 0 < BeaconWeightCap n /\ 0 < StaleAfterHalfLifeMultiplier n)%Q /\
  (0 < DefaultHalfLifeSec n /\ 0 < StaleAfterSeconds n /\ AllowedBands n <> []) /\
  (gs_High (cfg_symbols n) <> "" /\ gs_Medium (cfg_symbols n) <> "" /\ gs_Low (cfg_symbols n) <> "" /\ gs_Unlikely (cfg_symbols n) <> "" /\ gs_Insufficient (cfg_symbols n) <> "") /\
  thresholds_ordered (cfg_glyphs n) /\
  forall mode, mode ∈ ["FT8"; "FT4"; "CW"; "RTTY"; "PSK"; "USB"; "LSB"] -> exists t, cfg_thresholds n !! mode = Some t /\ thresholds_ordered t.
Proof.
  cbn zeta. repeat split; cbn [normalize ClampMin ClampMax MinEffectiveWeight MinFineWeight FineOnlyWeight ReverseHintDiscount BeaconWeightCap
    StaleAfterHalfLifeMultiplier DefaultHalfLifeSec StaleAfterSeconds AllowedBands cfg_symbols cfg_glyphs normalize_symbols gs_High gs_Medium gs_Low gs_Unlikely gs_Insufficient].
  - destruct (Qlt_b (ClampMin c) (ClampMax c)) eqn:E; [by apply Qlt_b_true|done].
  - by apply q_else_pos.
  - by apply q_else_pos.
  - destruct (Qlt_b _ _) eqn:E; [apply Qle_refl|by apply Qlt_b_false].
  - destruct (Qle_b (ReverseHintDiscount c) 0) eqn:E; [done|]. destruct (Qlt_b 1 _) eqn:E2; [done|]. simpl. by apply Qle_b_false.
  - destruct (Qle_b (ReverseHintDiscount c) 0) eqn:E; [done|]. destruct (Qlt_b 1 _) eqn:E2; [done|]. simpl. by apply Qlt_b_false.
  - by apply q_else_pos.
  - by apply q_else_pos.
  - by apply positive_else_pos.
  - by apply positive_else_pos.
  - case_bool_decide; done.
  - unfold text_else. case_bool_decide; done.
  - unfold text_else. case_bool_decide; done.
  - unfold text_else. case_bool_decide; done.
  - unfold text_else. case_bool_decide; done.
  - unfold text_else. case_bool_decide; done.
  - destruct (validGlyphThresholds (mergeGlyphThresholds _ _)) eqn:E; [by apply valid_ordered in E as (H & _)|done].
  - destruct (validGlyphThresholds (mergeGlyphThresholds _ _)) eqn:E; [by apply valid_ordered in E as (_ & H & _)|done].
  - destruct (validGlyphThresholds (mergeGlyphThresholds _ _)) eqn:E; [by apply valid_ordered in E as (_ & _ & H)|done].
  - intros mode Hm. destruct (default_threshold_ok default_mode_thresholds (rekey true (order_t (cfg_thresholds c)))) with (k := mode) as (t & Ht & Hv).
    + repeat constructor.
    + by left.
    + exists t. split; [exact Ht|by apply valid_ordered].
Qed.

(** ** Witnesses *)

Definition demo_config : Config := normalize map_to_list map_to_list DefaultConfig.
Definition demo_readings : list reading :=
  [mkReading (5, 7) (2, 3) "20m" 1 1 (1000 * second); mkReading (7, 5) (3, 2) "20m" 2 1 (1000 * second); mkReading (5, 7) (2, 3) "20M " 4 1 (1000 * second)].

Lemma path_keys_distinct_witness :
  let p := mkPath false 5 7 3 in let q := mkPath true 5 7 3 in
  (path_key p = path_key q -> p = q) /\ key_is_coarse (path_key p) = false /\ key_band (path_key p) = 3 /\ path_key p <> 0.
Proof. apply (path_keys_distinct (mkPath false 5 7 3) (mkPath true 5 7 3)); unfold cell_ok, band_ok; simpl; lia. Defined.

Lemma path_store_refines_witness :
  exists idx, BandIndex_Lookup (bandIndex (NewStore demo_config ["20m"])) "20m" = Some idx /\
    Store_Lookup (fun _ => 1%Q) 5 7 2 3 "20m" (1000 * second) (fold_left (apply_reading (fun _ => 1%Q)) demo_readings (NewStore demo_config ["20m"])) =
    (path_sample (fun _ => 1%Q) demo_config ["20m"] demo_readings (mkPath false 5 7 idx) (HalfLifeSeconds "20m" demo_config) (1000 * second),
     path_sample (fun _ => 1%Q) demo_config ["20m"] demo_readings (mkPath true 2 3 idx) (HalfLifeSeconds "20m" demo_config) (1000 * second)).
Proof.
  exists 0. split; [vm_compute; reflexivity|].
  apply (path_store_refines (fun _ => 1%Q) demo_config ["20m"] demo_readings 5 7 2 3 "20m" 0 (1000 * second)); try (unfold cell_ok; lia); try (vm_compute; reflexivity).
  - simpl. lia.
  - repeat apply Forall_cons_2; try apply Forall_nil_2; unfold reading_ok, cells_ok; simpl; lia.
Defined.

Definition demo_predictor : Predictor := mkPredictor (NewStore demo_config ["20m"]) demo_config (mkCaches ∅ (mkThresholdsPower 3 2 1 1) [] [] 0 0).

