(* ===== verification/TelnetClient.v ===== *)
(** * A telnet client and its settings

    [telnet/server.go]: the settings of a logged-in user, the commands that change them
    (DIALECT, SET GRID and NOISE, SET and SHOW DEDUPE, SET DIAG, SET SOLAR), the record
    they are saved in, the schedule of the solar summaries, and the line a spot becomes for
    the user, with the diagnostic comment and the path glyph.  The filter and the location
    of the user are those of [FilterCommands.Client].  The H3 encoders, the path predictor
    and the texts of errors are arguments. *)

From S2P Require Import Prelude GoText GoNum GoTime Bands Spot SpotFormat Filter FilterMatch FilterSession UserRecord FilterShow FilterCommands TelnetInput PathStore.
From stdpp Require Import strings list gmap.
From Stdlib Require Import Lia ZArith QArith Qround.
Local Open Scope string_scope.
Local Open Scope list_scope.
Local Open Scope Z_scope.

(** ** Dedupe policies *)

Inductive dedupePolicy := dedupePolicyFast | dedupePolicyMed | dedupePolicySlow.
#[export] Instance dedupePolicy_eq_dec : EqDecision dedupePolicy.
Proof. solve_decision. Defined.

Definition parseDedupePolicy (value : string) : dedupePolicy :=
  let v := NormalizeDedupePolicy value in
  if bool_decide (v = "MED") then dedupePolicyMed else if bool_decide (v = "SLOW") then dedupePolicySlow else dedupePolicyFast.

Definition parseDedupePolicyToken (value : string) : option dedupePolicy :=
  let trimmed := upper_trim value in
  if bool_decide (trimmed = "FAST") then Some dedupePolicyFast
  else if bool_decide (trimmed = "MED") then Some dedupePolicyMed
  else if bool_decide (trimmed = "SLOW") then Some dedupePolicySlow
  else None.

Definition policy_label (p : dedupePolicy) : string :=
  match p with dedupePolicyMed => "MED" | dedupePolicySlow => "SLOW" | dedupePolicyFast => "FAST" end.

Definition dedupeKeyLabel (p : dedupePolicy) : string := if bool_decide (p = dedupePolicySlow) then "cqzone" else "grid2".

(** The settings of the server the commands of a client use. *)
Record Options := mkOptions { dedupeFastEnabled : bool; dedupeMedEnabled : bool; dedupeSlowEnabled : bool; noiseOffsets : gmap string Q }.

Definition policy_enabled (o : Options) (p : dedupePolicy) : bool :=
  match p with dedupePolicyFast => dedupeFastEnabled o | dedupePolicyMed => dedupeMedEnabled o | dedupePolicySlow => dedupeSlowEnabled o end.

Definition resolveDedupePolicy (o : Options) (requested : dedupePolicy) : dedupePolicy :=
  if policy_enabled o requested then requested
  else if dedupeFastEnabled o then dedupePolicyFast
  else if dedupeMedEnabled o then dedupePolicyMed
  else if dedupeSlowEnabled o then dedupePolicySlow
  else dedupePolicyFast.

Definition noisePenaltyForClass (o : Options) (class : string) : Q := default 0%Q (noiseOffsets o !! upper_trim class).

(** ** The client *)

Record User := mkUser {
  u_callsign : string;
  u_client : Client;
  u_gridDerived : bool;
  u_noiseClass : string;
  u_noisePenalty : Q;
  u_policy : dedupePolicy;
  u_diag : bool;
  u_solarMinutes : Z;
  u_solarNext : Z;
  u_recentIPs : list string
}.

Definition set_client (c : Client) (u : User) : User :=
  mkUser (u_callsign u) c (u_gridDerived u) (u_noiseClass u) (u_noisePenalty u) (u_policy u) (u_diag u) (u_solarMinutes u) (u_solarNext u) (u_recentIPs u).
Definition set_noise (class : string) (penalty : Q) (u : User) : User :=
  mkUser (u_callsign u) (u_client u) (u_gridDerived u) class penalty (u_policy u) (u_diag u) (u_solarMinutes u) (u_solarNext u) (u_recentIPs u).
Definition setDedupePolicy (p : dedupePolicy) (u : User) : User :=
  mkUser (u_callsign u) (u_client u) (u_gridDerived u) (u_noiseClass u) (u_noisePenalty u) p (u_diag u) (u_solarMinutes u) (u_solarNext u) (u_recentIPs u).
Definition set_diag (b : bool) (u : User) : User :=
  mkUser (u_callsign u) (u_client u) (u_gridDerived u) (u_noiseClass u) (u_noisePenalty u) (u_policy u) b (u_solarMinutes u) (u_solarNext u) (u_recentIPs u).
Definition set_solar (minutes next : Z) (u : User) : User :=
  mkUser (u_callsign u) (u_client u) (u_gridDerived u) (u_noiseClass u) (u_noisePenalty u) (u_policy u) (u_diag u) minutes next (u_recentIPs u).
Definition set_location (c : Client) (derived : bool) (u : User) : User :=
  mkUser (u_callsign u) c derived (u_noiseClass u) (u_noisePenalty u) (u_policy u) (u_diag u) (u_solarMinutes u) (u_solarNext u) (u_recentIPs u).

(** ** Solar summaries *)

Definition parseSolarSummaryMinutes (token : string) : option Z :=
  let t := upper_trim token in
  if bool_decide (t = "OFF") then Some 0
  else if bool_decide (t = "15") then Some 15
  else if bool_decide (t = "30") then Some 30
  else if bool_decide (t = "60") then Some 60
  else None.

Definition nextSolarSummaryAt (now minutes : Z) : Z :=
  if minutes <=? 0 then zero_time
  else
    let m := (now / minute) mod 60 in
    let alignedMinute := Z.quot m minutes * minutes in
    let aligned := now - now mod hour + alignedMinute * minute in
    aligned + minutes * minute.

Definition setSolarSummaryMinutes (minutes now : Z) (u : User) : User :=
  if minutes <=? 0 then set_solar 0 zero_time u else set_solar minutes (nextSolarSummaryAt now minutes) u.

(** [Client.nextSolarSummaryAt]. *)
Definition client_next_solar (now : Z) (u : User) : option Z * User :=
  if u_solarMinutes u <=? 0 then (None, u)
  else
    let next := if IsZero (u_solarNext u) then nextSolarSummaryAt now (u_solarMinutes u) else u_solarNext u in
    (Some next, set_solar (u_solarMinutes u) next u).

Definition advanceSolarSummaryAt (now : Z) (u : User) : User :=
  if u_solarMinutes u <=? 0 then set_solar (u_solarMinutes u) zero_time u
  else set_solar (u_solarMinutes u) (nextSolarSummaryAt now (u_solarMinutes u)) u.

Definition nextMinuteBoundary (now : Z) : Z := now - (now - zero_time) mod minute + minute.

(** [emitSolarSummaries] for one client: whether its summary is due, and the client. *)
Definition solar_due (now : Z) (u : User) : bool * User :=
  let '(next, u) := client_next_solar now u in
  match next with
  | None => (false, u)
  | Some next => if Before now next then (false, u) else (true, advanceSolarSummaryAt now u)
  end.

(** ** Saving *)

Section Saving.
Context {bytes : Type}.
Variable Marshal : UserRecord -> option bytes.
Variable Unmarshal : bytes -> option UserRecord.
Variable error_text : error -> string.
Variable o : Options.
Variable EncodeCell : string -> Z.
Variable EncodeCoarseCell : string -> Z.

(** The record of the client: the field of the last login is not set. *)
Definition record_of (u : User) : UserRecord :=
  mkUserRecord (c_filter (u_client u)) (u_recentIPs u) (dialect_string (c_dialect (u_client u))) (policy_label (u_policy u)) zeroTime
    (upper_trim (c_grid (u_client u))) (upper_trim (u_noiseClass u)) (u_solarMinutes u).

Definition saveFilter (k : Disk bytes) (u : User) : option error * Disk bytes :=
  let callsign := TrimSpace (u_callsign u) in
  if bool_decide (callsign = "") then (None, k)
  else
    let r := record_of u in
    let r := match LoadUserRecord Unmarshal k callsign with
             | inr existing => set_RecentIPs (MergeRecentIPs (RecentIPs r) (RecentIPs existing)) r
             | inl _ => r
             end in
    let '(e, _, k) := SaveUserRecord Marshal k callsign r in (e, k).

(** What a command does: the answer when it is one of these commands, the client and the
    disk afterwards. *)
Definition outcome : Type := option string * User * Disk bytes.
Definition pass_on (u : User) (k : Disk bytes) : outcome := (None, u, k).
Definition answer (msg : string) (u : User) (k : Disk bytes) : outcome := (Some msg, u, k).

(** Save the client and answer with one of two texts. *)
Definition answer_saved (good : string) (bad : string -> string) (u : User) (k : Disk bytes) : outcome :=
  let '(e, k) := saveFilter k u in
  (Some (match e with None => good | Some e => bad (error_text e) end), u, k).

Definition dialectAliases : list (string * DialectName) :=
  [("go", DialectGo); ("gocluster", DialectGo); ("classic", DialectGo); ("default", DialectGo); ("cc", DialectCC)].
Definition availableDialectNames : list string := ["cc"; "go"].

Definition with_dialect (d : DialectName) (c : Client) : Client :=
  mkClient (c_filter c) d (c_grid c) (c_gridCell c) (c_gridCoarseCell c) (c_pathEnabled c).

Definition handleDialectCommand (line : string) (u : User) (k : Disk bytes) : outcome :=
  match Fields (TrimSpace line) with
  | [] => pass_on u k
  | f0 :: rest =>
      if negb (EqualFold f0 "DIALECT") then pass_on u k
      else
        match rest with
        | [] => answer ("Current dialect: " +:+ ToUpper (dialect_string (c_dialect (u_client u))) +:+ nl) u k
        | name :: more =>
            if is_nil more && EqualFold name "LIST" then answer ("Available dialects: " +:+ ToUpper (comma availableDialectNames) +:+ nl) u k
            else
              match FilterCommands.assoc (ToLower (TrimSpace name)) dialectAliases with
              | None => answer ("Unknown dialect: " +:+ name +:+ nl +:+ "Available dialects: " +:+ ToUpper (comma availableDialectNames) +:+ nl) u k
              | Some selected =>
                  if bool_decide (c_dialect (u_client u) = selected) then answer ("Dialect already set to " +:+ ToUpper (dialect_string selected) +:+ nl) u k
                  else
                    let u := set_client (with_dialect selected (u_client u)) u in
                    answer ("Dialect set to " +:+ ToUpper (dialect_string selected) +:+ nl) u (saveFilter k u).2
              end
        end
  end.

Definition noise_classes : list string := ["QUIET"; "RURAL"; "SUBURBAN"; "URBAN"; "INDUSTRIAL"].

(** The client at a new place, its filter told when NEARBY is on. *)
Definition at_grid (grid : string) (cell coarse : Z) (u : User) : User :=
  let c := u_client u in
  let f := c_filter c in
  let f := if NearbyActive f then UpdateNearbyUserCells cell coarse f else f in
  set_location (mkClient f (c_dialect c) grid cell coarse (c_pathEnabled c)) false u.

Definition set_grid_command (args : list string) (u : User) (k : Disk bytes) : outcome :=
  match args with
  | [] => answer ("Usage: SET GRID <4-6 char maidenhead>" +:+ nl) u k
  | arg :: _ =>
      let grid := upper_trim arg in
      if len grid <? 4 then answer ("Grid must be at least 4 characters (e.g., FN31)" +:+ nl) u k
      else
        let cell := EncodeCell grid in
        if cell =? InvalidCell then answer ("Invalid grid. Please provide a 4-6 character Maidenhead locator." +:+ nl) u k
        else answer_saved ("Grid set to " +:+ grid +:+ nl) (fun e => "Grid set to " +:+ grid +:+ " (warning: failed to persist: " +:+ e +:+ ")" +:+ nl)
               (at_grid grid cell (EncodeCoarseCell grid) u) k
  end.

Definition set_noise_command (args : list string) (u : User) (k : Disk bytes) : outcome :=
  match args with
  | [] => answer ("Usage: SET NOISE <QUIET|RURAL|SUBURBAN|URBAN|INDUSTRIAL>" +:+ nl) u k
  | arg :: _ =>
      let class := upper_trim arg in
      let penalty := noisePenaltyForClass o class in
      if bool_decide (class = "") || (Qeq_bool penalty 0 && negb (bool_decide (class ∈ noise_classes))) then
        answer ("Unknown noise class. Use QUIET, RURAL, SUBURBAN, URBAN, or INDUSTRIAL." +:+ nl) u k
      else answer_saved ("Noise class set to " +:+ class +:+ nl) (fun e => "Noise class set to " +:+ class +:+ " (warning: failed to persist: " +:+ e +:+ ")" +:+ nl)
             (set_noise class penalty u) k
  end.

Definition upper_fields (line : string) : list string := Fields (ToUpper (TrimSpace line)).

Definition handlePathSettingsCommand (line : string) (u : User) (k : Disk bytes) : outcome :=
  match upper_fields line with
  | w0 :: w1 :: args =>
      if negb (bool_decide (w0 = "SET")) then pass_on u k
      else if bool_decide (w1 = "GRID") then set_grid_command args u k
      else if bool_decide (w1 = "NOISE") then set_noise_command args u k
      else pass_on u k
  | _ => pass_on u k
  end.

Definition secondary_off (o : Options) : bool := negb (dedupeFastEnabled o) && negb (dedupeMedEnabled o) && negb (dedupeSlowEnabled o).
Definition on_off (b : bool) : string := if b then "on" else "off".

Definition formatDedupeStatus (u : User) : string :=
  let head := "Dedupe: " +:+ policy_label (u_policy u) +:+ " (" +:+ dedupeKeyLabel (u_policy u) +:+ ") " in
  if secondary_off o then head +:+ "(secondary disabled)" +:+ nl
  else head +:+ "(fast=" +:+ on_off (dedupeFastEnabled o) +:+ " med=" +:+ on_off (dedupeMedEnabled o) +:+ " slow=" +:+ on_off (dedupeSlowEnabled o) +:+ ")" +:+ nl.

Definition dedupeUsage : string := "Usage: SET DEDUPE <FAST|MED|SLOW>" +:+ nl.

Definition set_dedupe_command (args : list string) (u : User) (k : Disk bytes) : outcome :=
  match args with
  | [] => answer dedupeUsage u k
  | arg :: _ =>
      match parseDedupePolicyToken arg with
      | None => answer dedupeUsage u k
      | Some requested =>
          let effective := resolveDedupePolicy o requested in
          let head := "Dedupe policy set to " +:+ policy_label effective in
          let warn e := "warning: failed to persist: " +:+ e +:+ ")" +:+ nl in
          let u := setDedupePolicy effective u in
          if secondary_off o then answer_saved (head +:+ " (secondary disabled)" +:+ nl) (fun e => head +:+ " (secondary disabled; " +:+ warn e) u k
          else if bool_decide (requested <> effective) then
            answer_saved (head +:+ " (requested " +:+ policy_label requested +:+ " disabled)" +:+ nl)
              (fun e => head +:+ " (requested " +:+ policy_label requested +:+ " disabled; " +:+ warn e) u k
          else answer_saved (head +:+ nl) (fun e => head +:+ " (" +:+ warn e) u k
      end
  end.

Definition handleDedupeCommand (line : string) (u : User) (k : Disk bytes) : outcome :=
  match upper_fields line with
  | w0 :: w1 :: args =>
      if negb (bool_decide (w1 = "DEDUPE")) then pass_on u k
      else if bool_decide (w0 = "SHOW") then answer (formatDedupeStatus u) u k
      else if bool_decide (w0 = "SET") then set_dedupe_command args u k
      else pass_on u k
  | _ => pass_on u k
  end.

Definition diagUsage : string := "Usage: SET DIAG <ON|OFF>" +:+ nl.

Definition handleDiagCommand (line : string) (u : User) (k : Disk bytes) : outcome :=
  match upper_fields line with
  | w0 :: w1 :: args =>
      if negb (bool_decide (w0 = "SET")) || negb (bool_decide (w1 = "DIAG")) then pass_on u k
      else
        match args with
        | [] => answer diagUsage u k
        | a :: _ =>
            if bool_decide (a = "ON") then answer ("Diagnostic comments: ON" +:+ nl) (set_diag true u) k
            else if bool_decide (a = "OFF") then answer ("Diagnostic comments: OFF" +:+ nl) (set_diag false u) k
            else answer diagUsage u k
        end
  | _ => pass_on u k
  end.

Definition solarUsage : string := "Usage: SET SOLAR <15|30|60|OFF>" +:+ nl.

Definition handleSolarCommand (line : string) (now : Z) (u : User) (k : Disk bytes) : outcome :=
  match upper_fields line with
  | w0 :: w1 :: args =>
      if negb (bool_decide (w0 = "SET")) || negb (bool_decide (w1 = "SOLAR")) then pass_on u k
      else
        match args with
        | [] => answer solarUsage u k
        | a :: _ =>
            match parseSolarSummaryMinutes a with
            | None => answer solarUsage u k
            | Some minutes =>
                let text := if minutes =? 0 then "Solar summaries: OFF" else "Solar summaries: every " +:+ Itoa minutes +:+ " minutes" in
                answer_saved (text +:+ nl) (fun e => text +:+ " (warning: failed to persist: " +:+ e +:+ ")" +:+ nl) (setSolarSummaryMinutes minutes now u) k
            end
        end
  | _ => pass_on u k
  end.
End Saving.

(** ** Paths *)

Section Display.
Variable exp_ : Q -> Q.
Variable pow10 : Q -> Q.
Variable EncodeCell : string -> Z.
Variable EncodeCoarseCell : string -> Z.

(** The cell of the user, filled in from the grid when it is missing. *)
Definition user_cell (u : User) : Z * User :=
  let c := u_client u in
  let grid := TrimSpace (c_grid c) in
  if (c_gridCell c =? InvalidCell) && negb (bool_decide (grid = "")) then
    let cell := EncodeCell grid in
    if cell =? InvalidCell then (InvalidCell, u)
    else (cell, set_client (mkClient (c_filter c) (c_dialect c) (c_grid c) cell (c_gridCoarseCell c) (c_pathEnabled c)) u)
  else (c_gridCell c, u).

Definition dx_cell (sp : Spot) : Z := if DXCellID sp =? 0 then EncodeCell (Grid (DXMetadata sp)) else DXCellID sp.

(** The band of the filter: the normalised one, the given one, or that of the frequency. *)
Definition class_band (sp : Spot) : string :=
  let band := TrimSpace (BandNorm sp) in
  let band := if bool_decide (band = "") then TrimSpace (Band sp) else band in
  let band := if bool_decide (band = "") then FreqToBand (Frequency sp) else band in
  TrimSpace (NormalizeBand band).

Definition class_mode (sp : Spot) : string := let m := TrimSpace (ModeNorm sp) in if bool_decide (m = "") then TrimSpace (Mode sp) else m.

(** The prediction from a user's cell to a spot; nothing when a cell is missing. *)
Definition predict_for (p : Predictor) (band mode : string) (now : Z) (u : User) (sp : Spot) : option Result * User :=
  let '(cell, u') := user_cell u in
  let dx := dx_cell sp in
  if (cell =? InvalidCell) || (dx =? InvalidCell) then (None, u')
  else (Some (Predict exp_ pow10 cell dx (EncodeCoarseCell (TrimSpace (c_grid (u_client u)))) (EncodeCoarseCell (Grid (DXMetadata sp))) band mode
                (u_noisePenalty u) now p), u').

Definition pathClassForClient (predictor : option Predictor) (now : Z) (u : User) (sp : Spot) : string * User :=
  match predictor with
  | None => (PathClassInsufficient, u)
  | Some p =>
      if negb (cfg_Enabled (pr_cfg p)) then (PathClassInsufficient, u)
      else
        let '(res, u) := predict_for p (class_band sp) (class_mode sp) now u sp in
        match res with
        | None => (PathClassInsufficient, u)
        | Some r => match Source r with
                    | SourceInsufficient => (PathClassInsufficient, u)
                    | SourceCombined => (ClassForPower (r_Value r) (class_mode sp) (pr_caches p), u)
                    end
        end
  end.

(** *** Glyphs and their counters *)

Record pathPredictionStats := mkPathStats {
  ps_Total : Z; ps_Derived : Z; ps_Combined : Z; ps_Insufficient : Z; ps_NoSample : Z; ps_LowWeight : Z; ps_OverrideR : Z; ps_OverrideG : Z }.
Definition zero_stats : pathPredictionStats := mkPathStats 0 0 0 0 0 0 0 0.

Definition inc (b : bool) (n : Z) : Z := if b then uint64 (n + 1) else n.

Definition recordPathPrediction (res : Result) (userDerived dxDerived : bool) (s : pathPredictionStats) : pathPredictionStats :=
  let combined := match Source res with SourceCombined => true | SourceInsufficient => false end in
  let heavy := Qlt_b 0 (r_Weight res) in
  mkPathStats (inc true (ps_Total s)) (inc (userDerived || dxDerived) (ps_Derived s)) (inc combined (ps_Combined s)) (inc (negb combined) (ps_Insufficient s))
    (inc (negb combined && negb heavy) (ps_NoSample s)) (inc (negb combined && heavy) (ps_LowWeight s)) (ps_OverrideR s) (ps_OverrideG s).

(** The counters, and the server with its counters reset. *)
Definition PathPredictionStatsSnapshot (s : pathPredictionStats) : pathPredictionStats * pathPredictionStats := (s, zero_stats).

Inductive OverrideKind := OverrideNone | OverrideR | OverrideG.

(** [solar now userGrid dxGrid userCell dxCell band] is the override of the solar weather
    manager; there may be none. *)
Definition solar_override : Type := Z -> string -> string -> Z -> Z -> string -> string * OverrideKind.

Definition count_override (k : OverrideKind) (s : pathPredictionStats) : pathPredictionStats :=
  mkPathStats (ps_Total s) (ps_Derived s) (ps_Combined s) (ps_Insufficient s) (ps_NoSample s) (ps_LowWeight s)
    (inc (match k with OverrideR => true | _ => false end) (ps_OverrideR s)) (inc (match k with OverrideG => true | _ => false end) (ps_OverrideG s)).

Definition glyph_band (sp : Spot) : string := if bool_decide (TrimSpace (BandNorm sp) = "") then Band sp else BandNorm sp.
Definition glyph_mode (sp : Spot) : string := if bool_decide (TrimSpace (ModeNorm sp) = "") then Mode sp else ModeNorm sp.

Definition pathGlyphsForClient (p : Predictor) (solar : option solar_override) (now : Z) (u : User) (sp : Spot) (st : pathPredictionStats)
    : string * User * pathPredictionStats :=
  if negb (cfg_Enabled (pr_cfg p)) then ("", u, st)
  else
    let '(res, u') := predict_for p (glyph_band sp) (glyph_mode sp) now u sp in
    match res with
    | None => ("", u', st)
    | Some r =>
        let st := recordPathPrediction r (u_gridDerived u) (GridDerived (DXMetadata sp)) st in
        match Source r, solar with
        | SourceInsufficient, _ | SourceCombined, None => (Glyph r, u', st)
        | SourceCombined, Some f =>
            let '(g, kind) := f now (TrimSpace (c_grid (u_client u))) (Grid (DXMetadata sp)) (user_cell u).1 (dx_cell sp) (glyph_band sp) in
            match kind with
            | OverrideNone => (Glyph r, u', st)
            | _ => if bool_decide (g = "") then (Glyph r, u', st) else (g, u', count_override kind st)
            end
        end
    end.

(** ** The line of a spot *)

Definition diagSourceToken (sp : Spot) : string :=
  if bool_decide (SourceType sp ∈ [SourceRBN; SourceFT8; SourceFT4]) then "R" else if bool_decide (SourceType sp = SourcePSKReporter) then "P" else "H".

Definition diagDEGrid2 (sp : Spot) : string :=
  let grid := if bool_decide (DEGridNorm sp = "") then Grid (DEMetadata sp) else DEGridNorm sp in
  let grid2 := if bool_decide (DEGrid2 sp = "") then (if 2 <=? len grid then stake 2 grid else "") else DEGrid2 sp in
  let grid2 := upper_trim grid2 in
  let grid2 := if 2 <? len grid2 then stake 2 grid2 else grid2 in
  if len grid2 <? 2 then "" else grid2.

(** [%02d]. *)
Definition pad2 (n : Z) : string := let s := Itoa n in if len s <? 2 then "0" +:+ s else s.

Definition diagDECQZone (sp : Spot) : string := let zone := CQZone (DEMetadata sp) in if zone <=? 0 then "" else pad2 zone.

Definition diagDedupeKeyToken (p : dedupePolicy) (sp : Spot) : string := if bool_decide (p = dedupePolicySlow) then diagDECQZone sp else diagDEGrid2 sp.

Definition diagBandToken (sp : Spot) : string :=
  let band := class_band sp in
  if bool_decide (band = "") || bool_decide (band = "???") then ""
  else if HasSuffix band "m" && negb (HasSuffix band "cm") then TrimSuffix band "m" else band.

Definition diagPolicyToken (p : dedupePolicy) : string := match p with dedupePolicySlow => "S" | dedupePolicyMed => "M" | dedupePolicyFast => "F" end.

Definition or_blank (s : string) : string := if bool_decide (s = "") then " " else s.

Definition diagTagForSpot (u : User) (sp : Spot) : string :=
  diagSourceToken sp +:+ (if 0 <? ADIF (DEMetadata sp) then Itoa (ADIF (DEMetadata sp)) else " ") +:+
  or_blank (diagDedupeKeyToken (u_policy u) sp) +:+ or_blank (diagBandToken sp) +:+ diagPolicyToken (u_policy u).

(** The byte at an index replaced. *)
Fixpoint set_byte (i : nat) (c : ascii) (s : string) : string :=
  match s with
  | EmptyString => EmptyString
  | String x s => match i with O => String c s | S i => String x (set_byte i c s) end
  end.

Variable layout : dxClusterLayout.

Definition first_byte (s : string) : ascii := match s with String c _ => c | EmptyString => "?"%char end.

Definition injectGlyphs (base glyph : string) : string :=
  let l := CurrentDXClusterLayout layout in
  if (lineLength l <=? 0) || (len glyph <? 1) || (len base <? lineLength l) then base
  else
    let pos := glyphIdx l - 1 in
    if (pos <? 0) || (len base <=? pos) then base
    else
      let b := if 0 <=? pos - 1 then set_byte (Z.to_nat (pos - 1)) " " base else base in
      set_byte (Z.to_nat pos) (first_byte (firstPrintableASCIIOrQuestion glyph)) b.

(** [predictor] with its glyphs on display, or nothing. *)
Definition formatSpotForClient (display : option Predictor) (solar : option solar_override) (now : Z) (u : User) (sp : Spot) (st : pathPredictionStats)
    : string * User * pathPredictionStats :=
  let shown := if u_diag u then CloneWithComment sp (diagTagForSpot u sp) else sp in
  let base := (FormatDXCluster layout shown).1 in
  match display with
  | None => (base +:+ nl, u, st)
  | Some p =>
      let '(glyphs, u, st) := pathGlyphsForClient p solar now u sp st in
      ((if bool_decide (glyphs = "") then base else injectGlyphs base glyphs) +:+ nl, u, st)
  end.

(** ** Greetings *)

Record dialectTemplateData := mkDialectData { dt_dialect : string; dt_source : string; dt_default : string }.

Definition formatDialectWelcome (template : string) (d : dialectTemplateData) : string :=
  if bool_decide (TrimSpace template = "") then ""
  else NewReplacer_Replace [("<DIALECT>", dt_dialect d); ("<DIALECT_SOURCE>", dt_source d); ("<DIALECT_DEFAULT>", dt_default d)] template.

(** [loaded]: the record was loaded or created without an error. *)
Definition dialectSourceLabel (labelDefault labelPersisted : string) (active : DialectName) (created loaded : bool) (defaultDialect : DialectName) : string :=
  let source := if loaded && negb created then labelPersisted else labelDefault in
  if bool_decide (active <> defaultDialect) then labelPersisted else source.

Definition displayGrid (grid : string) (derived : bool) : string :=
  let grid := TrimSpace grid in
  if bool_decide (grid = "") then "" else if derived then ToLower grid else ToUpper grid.

Definition formatPathStatusMessage (template : string) (u : User) : string :=
  if bool_decide (TrimSpace template = "") then ""
  else NewReplacer_Replace [("<GRID>", displayGrid (c_grid (u_client u)) (u_gridDerived u)); ("<NOISE>", TrimSpace (u_noiseClass u))] template.

Definition nearbyLoginInactiveMsg : string := "NEARBY filter is ON but inactive: grid not set or H3 tables unavailable." +:+ nl.

Definition normalizeWarningLine (line : string) : string :=
  let trimmed := TrimSpace line in
  if bool_decide (trimmed = "") then "" else if HasSuffix trimmed nl then trimmed else trimmed +:+ nl.

(** The warning, the flag that says whether to save, and the client. *)
Definition applyNearbyLoginState (warning : string) (u : User) : string * bool * User :=
  let c := u_client u in
  if negb (NearbyActive (c_filter c)) then ("", false, u)
  else
    let grid := TrimSpace (c_grid c) in
    if bool_decide (grid = "") then (nearbyLoginInactiveMsg, false, u)
    else
      let fine := if c_gridCell c =? InvalidCell then EncodeCell grid else c_gridCell c in
      let coarse := if c_gridCoarseCell c =? InvalidCell then EncodeCoarseCell grid else c_gridCoarseCell c in
      if (fine =? InvalidCell) || (coarse =? InvalidCell) then (nearbyLoginInactiveMsg, false, u)
      else
        let '(err, f) := EnableNearby fine coarse (c_filter c) in
        let u := set_client (with_filter f c) u in
        match err with
        | Some _ => (nearbyLoginInactiveMsg, false, u)
        | None => (normalizeWarningLine warning, false, u)
        end.
End Display.

(** ** The line keeps its shape *)

Lemma length_set_byte i c s : String.length (set_byte i c s) = String.length s.
Proof. revert i. induction s as [|x s IH]; intros [|i]; simpl; [done..|]. by rewrite IH. Qed.

Lemma len_injectGlyphs layout base glyph : len (injectGlyphs layout base glyph) = len base.
Proof.
  unfold injectGlyphs, len. destruct (_ || _ || _); [done|]. destruct (_ || _); [done|]. rewrite length_set_byte.
  destruct (0 <=? _); [by rewrite length_set_byte|done].
Qed.

(** Every line of a spot has the configured length, with the diagnostic comment on or
    off and with or without a path glyph, whatever the spot and the glyph hold. *)
Theorem client_line_length exp_ pow10 EncodeCell EncodeCoarseCell n layout display solar now u sp st :
  newDXClusterLayout n = Some layout -> formatted sp = None ->
  len (formatSpotForClient exp_ pow10 EncodeCell EncodeCoarseCell layout display solar now u sp st).1.1 = lineLength layout + 1.
Proof.
  intros Hl Hf. unfold formatSpotForClient. set (shown := if u_diag u then _ else _).
  assert (Hb : len (FormatDXCluster layout shown).1 = lineLength layout).
  { assert (Hs : formatted shown = None) by (unfold shown; by destruct (u_diag u)). unfold FormatDXCluster. rewrite Hs. simpl.
    apply newDXClusterLayout_tail in Hl as [-> Ht]. rewrite format_line_split, len_sapp, len_format_tail, len_fit_tail by lia. done. }
  destruct display as [p|]; simpl; [|by rewrite len_sapp, Hb].
  destruct (pathGlyphsForClient _ _ _ _ _ _ _ _ _ _) as [[g u'] st']. simpl. rewrite len_sapp. case_bool_decide; by rewrite ?len_injectGlyphs, Hb.
Qed.

(** ** Policies *)

(** The policy in use is one the server runs whenever it runs any, and the requested
    one whenever the server runs that. *)
Theorem dedupe_policy_enabled o requested :
  (secondary_off o = false -> policy_enabled o (resolveDedupePolicy o requested) = true) /\
  (policy_enabled o requested = true -> resolveDedupePolicy o requested = requested).
Proof.
  unfold resolveDedupePolicy, secondary_off. split.
  - destruct (policy_enabled o requested) eqn:E; [done|]. destruct o as [[] [] [] ?]; simpl; done.
  - by intros ->.
Qed.

(** ** Records *)

Lemma parse_label p : parseDedupePolicy (policy_label p) = p.
Proof. by destruct p. Qed.

Section Persistence.
Context {bytes : Type}.
Variable Marshal : UserRecord -> option bytes.
Variable Unmarshal : bytes -> option UserRecord.
Hypothesis yaml_roundtrip : forall r bs, Marshal r = Some bs -> Unmarshal bs = Some (persisted r).

Lemma saved_record (k k' : Disk bytes) u :
  TrimSpace (u_callsign u) <> "" -> saveFilter Marshal Unmarshal k u = (None, k') ->
  exists ips, forall call, ToUpper (TrimSpace call) = ToUpper (TrimSpace (u_callsign u)) ->
    LoadUserRecord Unmarshal k' call = inr (repair_record (persisted (prepare_record (set_RecentIPs ips (record_of u))))).
Proof.
  intros Hne. unfold saveFilter. cbv zeta. rewrite bool_decide_false by done.
  set (r := match LoadUserRecord _ _ _ with inr _ => _ | inl _ => _ end).
  assert (Hr : exists ips, r = set_RecentIPs ips (record_of u)).
  { unfold r. destruct (LoadUserRecord _ _ _); [exists (u_recentIPs u)|eexists]; done. }
  destruct Hr as [ips Hr]. clearbody r. subst r. destruct (SaveUserRecord _ _ _ _) as [[e r1] k1] eqn:E. intros [= -> ->]. exists ips. intros call Hc.
  eapply (save_then_load Marshal Unmarshal yaml_roundtrip); [|exact E]. by rewrite TrimSpace_idemp.
Qed.

(** The settings of a user survive logout and login: what was saved is loaded under
    any spelling of the call with the same dialect, dedupe policy, grid, noise class and
    summary interval. *)
Theorem settings_survive (k k' : Disk bytes) u call :
  TrimSpace (u_callsign u) <> "" -> ToUpper (TrimSpace call) = ToUpper (TrimSpace (u_callsign u)) -> u_solarMinutes u ∈ [0; 15; 30; 60] ->
  saveFilter Marshal Unmarshal k u = (None, k') ->
  exists r, LoadUserRecord Unmarshal k' call = inr r /\ ur_Filter r = reload (c_filter (u_client u)) /\
    normalizeDialectName (Dialect r) = c_dialect (u_client u) /\ parseDedupePolicy (DedupePolicy r) = u_policy u /\
    ur_Grid r = upper_trim (c_grid (u_client u)) /\ NoiseClass r = upper_trim (u_noiseClass u) /\ SolarSummaryMinutes r = u_solarMinutes u.
Proof.
  intros Hne Hc Hm Hs. destruct (saved_record k k' u Hne Hs) as [ips H]. rewrite (H call Hc). eexists. split; [reflexivity|].
  split; [reflexivity|]. cbn [Dialect DedupePolicy ur_Grid NoiseClass SolarSummaryMinutes repair_record persisted prepare_record set_RecentIPs set_ur_Filter record_of].
  split; [destruct (c_dialect (u_client u)); reflexivity|]. split; [destruct (u_policy u); reflexivity|].
  split; [apply upper_trim_idemp|]. split; [apply upper_trim_idemp|].
  assert (Hid : forall m, m ∈ [0; 15; 30; 60] -> normalizeSolarSummaryMinutes m = m).
  { intros m Hin. repeat (apply elem_of_cons in Hin as [-> |Hin]; [done|]). by apply not_elem_of_nil in Hin. }
  rewrite !(Hid (u_solarMinutes u)) by done. done.
Qed.

(** The last login is forgotten: a record saved by a session, as every session does when
    it ends, holds no login time, so the next login reports that there was none. *)
Theorem last_login_forgotten d (k k' : Disk bytes) u call ip now r created prevLogin prevIP k2 :
  TrimSpace (u_callsign u) <> "" -> ToUpper (TrimSpace call) = ToUpper (TrimSpace (u_callsign u)) ->
  saveFilter Marshal Unmarshal k u = (None, k') ->
  TouchUserRecordLogin Marshal Unmarshal d k' call ip now = (inr (r, created, prevLogin, prevIP), k2) ->
  prevLogin = zeroTime.
Proof.
  intros Hne Hc Hs. destruct (saved_record k k' u Hne Hs) as [ips H]. unfold TouchUserRecordLogin, load_or_create. cbv zeta.
  case_bool_decide; [done|]. rewrite (H (TrimSpace call)) by (by rewrite TrimSpace_idemp).
  destruct (SaveUserRecord _ _ _ _) as [[[e|] r1] k1]; [done|]. by intros [= _ _ <- _ _].
Qed.
End Persistence.

(** ** Solar summaries *)

Lemma solar_cases m : m ∈ [15; 30; 60] -> m = 15 \/ m = 30 \/ m = 60.
Proof. rewrite !elem_of_cons, elem_of_nil. tauto. Qed.

Lemma next_solar m now : m ∈ [15; 30; 60] -> nextSolarSummaryAt now m = (now / (m * minute) + 1) * (m * minute).
Proof.
  intros Hm%solar_cases. unfold nextSolarSummaryAt. destruct (Z.leb_spec m 0); [lia|].
  rewrite Z.quot_div_nonneg by (lia || apply Z.mod_pos_bound; lia). unfold hour, minute, second.
  destruct Hm as [-> |[-> | ->]]; Z.to_euclidean_division_equations; lia.
Qed.

(** The ticks at which a summary goes to the client, of [n] ticks a minute apart. *)
Fixpoint solar_ticks (n : nat) (t : Z) (u : User) : list Z :=
  match n with
  | O => []
  | S n => let '(due, u) := solar_due t u in (if due then [t] else []) ++ solar_ticks n (t + minute) u
  end.

Fixpoint minute_ticks (n : nat) (t : Z) : list Z := match n with O => [] | S n => t :: minute_ticks n (t + minute) end.

Lemma solar_tick m t t' u : m ∈ [15; 30; 60] -> 0 < t' -> t mod minute = 0 -> t - minute <= t' < t ->
  u_solarMinutes u = m -> u_solarNext u = nextSolarSummaryAt t' m ->
  let '(due, u') := solar_due t u in
  due = ((t / minute) mod m =? 0) /\ u_solarMinutes u' = m /\ u_solarNext u' = nextSolarSummaryAt t m.
Proof.
  intros Hm H0 Ht Hr Hu Hn. unfold solar_due, client_next_solar. rewrite Hu.
  assert (Hpos : 0 < m) by (apply solar_cases in Hm; lia).
  destruct (Z.leb_spec m 0); [lia|]. rewrite Hn. rewrite (next_solar m t' Hm).
  assert (Hz : IsZero ((t' / (m * minute) + 1) * (m * minute)) = false).
  { unfold IsZero, zero_time. apply Z.eqb_neq. assert (0 <= t' / (m * minute)) by (apply Z.div_pos; unfold minute, second; lia). unfold minute, second in *. nia. }
  rewrite Hz. unfold Before.
  assert (Hcase : ((t <? (t' / (m * minute) + 1) * (m * minute)) = negb ((t / minute) mod m =? 0)) /\
                  ((t <? (t' / (m * minute) + 1) * (m * minute)) = true -> t' / (m * minute) = t / (m * minute))).
  { clear - Hm Ht Hr. apply solar_cases in Hm. unfold minute, second in *.
    match goal with |- context [?a <? ?b] => destruct (Z.ltb_spec a b) as [Hlt|Hlt] end; (split; [|intros; discriminate || (destruct Hm as [-> |[-> | ->]]; Z.to_euclidean_division_equations; lia)]);
      match goal with |- context [?a =? 0] => destruct (Z.eqb_spec a 0) end; try reflexivity; exfalso; destruct Hm as [-> |[-> | ->]]; Z.to_euclidean_division_equations; lia. }
  destruct Hcase as [H1 H2]. rewrite H1. destruct ((t / minute) mod m =? 0); simpl.
  - split; [done|]. unfold advanceSolarSummaryAt. simpl. destruct (Z.leb_spec m 0); [lia|]. done.
  - split; [done|]. split; [done|]. rewrite (next_solar m t Hm). rewrite H2 by (by rewrite H1). done.
Qed.

(** Solar summaries come on the clock: from the time a user asks for them, at every tick of
    the minute timer a summary is due exactly when the minute is a multiple of the interval. *)
Theorem solar_on_schedule m t0 t n u :
  m ∈ [15; 30; 60] -> 0 < t0 -> t mod minute = 0 -> t - minute <= t0 < t ->
  solar_ticks n t (setSolarSummaryMinutes m t0 u) = List.filter (fun t => (t / minute) mod m =? 0) (minute_ticks n t).
Proof.
  intros Hm H0 Ht Hr. assert (Hpos : (m <=? 0) = false) by (apply solar_cases in Hm; apply Z.leb_gt; lia).
  unfold setSolarSummaryMinutes. rewrite Hpos. set (v := set_solar _ _ u).
  assert (Hv : u_solarMinutes v = m /\ u_solarNext v = nextSolarSummaryAt t0 m) by done. clearbody v. destruct Hv as [Hv1 Hv2].
  revert t t0 v Ht Hr H0 Hv1 Hv2. induction n as [|n IH]; intros t t0 v Ht Hr H0 Hv1 Hv2; [done|]. cbn [solar_ticks minute_ticks List.filter].
  pose proof (solar_tick m t t0 v Hm H0 Ht Hr Hv1 Hv2) as H. destruct (solar_due t v) as [due v']. destruct H as (-> & Hv1' & Hv2').
  assert (Hrest : solar_ticks n (t + minute) v' = List.filter (fun t => (t / minute) mod m =? 0) (minute_ticks n (t + minute))).
  { apply (IH (t + minute) t v'); unfold minute, second in *; (done || (Z.to_euclidean_division_equations; lia)). }
  rewrite Hrest. by destruct (_ =? 0).
Qed.

(** ** Witnesses *)

Definition demo_user : User := mkUser "S51AA" (mkClient (NewFilter initialDefaults) DialectCC "JN76" 5 3 true) false "URBAN" 12 dedupePolicySlow true 0 zero_time ["192.0.2.7"].
Definition demo_marshal (r : UserRecord) : option UserRecord := Some (persisted r).
Definition demo_unmarshal (r : UserRecord) : option UserRecord := Some r.
Definition demo_disk : Disk UserRecord := mkDisk ∅ (fun _ => false).

Lemma demo_yaml r bs : demo_marshal r = Some bs -> demo_unmarshal bs = Some (persisted r).
Proof. unfold demo_marshal, demo_unmarshal. by intros [= <-]. Qed.

Lemma demo_saved : (saveFilter demo_marshal demo_unmarshal demo_disk demo_user).1 = None.
Proof. reflexivity. Qed.

Lemma settings_survive_witness :
  exists k', saveFilter demo_marshal demo_unmarshal demo_disk demo_user = (None, k') /\
    exists r, LoadUserRecord demo_unmarshal k' "s51aa " = inr r /\ normalizeDialectName (Dialect r) = DialectCC /\ parseDedupePolicy (DedupePolicy r) = dedupePolicySlow.
Proof.
  exists (saveFilter demo_marshal demo_unmarshal demo_disk demo_user).2. assert (E : saveFilter demo_marshal demo_unmarshal demo_disk demo_user =
    (None, (saveFilter demo_marshal demo_unmarshal demo_disk demo_user).2)) by (rewrite <- demo_saved; apply surjective_pairing). split; [exact E|].
  destruct (settings_survive demo_marshal demo_unmarshal demo_yaml demo_disk (saveFilter demo_marshal demo_unmarshal demo_disk demo_user).2 demo_user "s51aa ") as (r & H1 & _ & H2 & H3 & _).
  - vm_compute; discriminate.
  - reflexivity.
  - left.
  - exact E.
  - exists r. split; [exact H1|split; [exact H2|exact H3]].
Defined.

Lemma last_login_forgotten_witness :
  let k' := (saveFilter demo_marshal demo_unmarshal demo_disk demo_user).2 in
  exists r created prev ip k2, TouchUserRecordLogin demo_marshal demo_unmarshal initialDefaults k' "S51AA" "192.0.2.8" (1000 * second) = (inr (r, created, prev, ip), k2) /\
    created = false /\ prev = zeroTime.
Proof.
  cbv zeta. set (k' := (saveFilter demo_marshal demo_unmarshal demo_disk demo_user).2). assert (E : saveFilter demo_marshal demo_unmarshal demo_disk demo_user = (None, k'))
    by (rewrite <- demo_saved; apply surjective_pairing).
  assert (T : exists r created prev ip k2, TouchUserRecordLogin demo_marshal demo_unmarshal initialDefaults k' "S51AA" "192.0.2.8" (1000 * second) = (inr (r, created, prev, ip), k2) /\ created = false)
    by (do 5 eexists; split; reflexivity).
  destruct T as (r & created & prev & ip & k2 & T & C). exists r, created, prev, ip, k2. split; [exact T|]. split; [exact C|].
  apply (last_login_forgotten demo_marshal demo_unmarshal demo_yaml initialDefaults demo_disk k' demo_user "S51AA" "192.0.2.8" (1000 * second) r created prev ip k2); [vm_compute; discriminate|reflexivity|exact E|exact T].
Defined.

Lemma dedupe_policy_enabled_witness :
  resolveDedupePolicy (mkOptions false true false ∅) dedupePolicyFast = dedupePolicyMed /\ resolveDedupePolicy (mkOptions false true false ∅) dedupePolicyMed = dedupePolicyMed.
Proof. split; [reflexivity|]. apply (dedupe_policy_enabled (mkOptions false true false ∅) dedupePolicyMed). reflexivity. Defined.

Lemma solar_on_schedule_witness :
  solar_ticks 4 (59 * minute) (setSolarSummaryMinutes 30 (59 * minute - second) demo_user) = [60 * minute].
Proof. rewrite (solar_on_schedule 30 (59 * minute - second) (59 * minute) 4 demo_user); [reflexivity|right; left|unfold minute, second; lia|reflexivity|unfold minute, second; lia]. Defined.

Lemma client_line_length_witness :
  len (formatSpotForClient (fun _ => 1%Q) (fun _ => 1%Q) (fun _ => 5) (fun _ => 3) (mkLayout 76 61 62 64 69 71) (Some demo_predictor) None 0 demo_user
        (sample_spot "K1ABC" "W3LPL" (140250 # 10) 0) zero_stats).1.1 = 77.
Proof. apply (client_line_length (fun _ => 1%Q) (fun _ => 1%Q) (fun _ => 5) (fun _ => 3) 76); reflexivity. Defined.
