(* ===== verification/TelnetDelivery.v ===== *)
(** * Delivery to telnet clients

    [telnet/server.go]: the two queues of a client and the loop that writes them, the window
    that counts dropped spots, the table of the connected clients, the shards and workers
    of a broadcast, bulletins, direct messages and keepalives.  A session has a number, which
    stands for the pointer to its client; the server holds the sessions by number and the
    numbers by callsign.  The outcomes of the writes of a session are a list, and the writes
    after its end succeed.  Counters are kept, log lines are not. *)

From S2P Require Import Prelude GoText GoNum GoTime Callsign Bands Spot SpotFormat Filter FilterMatch FilterSession UserRecord FilterShow FilterCommands Reputation Commands TelnetInput PathStore TelnetClient.
From stdpp Require Import strings list gmap fin_maps.
From Stdlib Require Import Lia ZArith QArith.
Local Open Scope string_scope.
Local Open Scope list_scope.
Local Open Scope Z_scope.

(** ** The window of drops *)

Record dropBucket := mkDropBucket { db_attempts : Z; db_drops : Z }.
Definition empty_bucket : dropBucket := mkDropBucket 0 0.

Record dropWindow := mkDropWindow { dw_window : Z; bucketWidth : Z; dw_start : Z; startIdx : nat; dw_buckets : list dropBucket }.

Definition dropWindowBuckets : nat := 6.

Definition newDropWindow (window : Z) : dropWindow :=
  if window <=? 0 then mkDropWindow 0 0 zero_time 0 []
  else
    let width := Z.quot window (Z.of_nat dropWindowBuckets) in
    let width := if width <=? 0 then window else width in
    mkDropWindow window width zero_time 0 (replicate dropWindowBuckets empty_bucket).

(** [Time.Truncate], from the zero time. *)
Definition truncate_time (t d : Z) : Z := if d <=? 0 then t else t - (t - zero_time) mod d.

Definition restart_window (now : Z) (clear : bool) (w : dropWindow) : dropWindow :=
  mkDropWindow (dw_window w) (bucketWidth w) (truncate_time now (bucketWidth w)) 0
    (if clear then replicate (length (dw_buckets w)) empty_bucket else dw_buckets w).

(** One round of the loop that moves the window on. *)
Definition shift_window (w : dropWindow) : dropWindow :=
  let idx := (S (startIdx w) mod length (dw_buckets w))%nat in
  mkDropWindow (dw_window w) (bucketWidth w) (dw_start w + bucketWidth w) idx (<[idx := empty_bucket]> (dw_buckets w)).

Definition window_offset (now : Z) (w : dropWindow) : Z := Z.quot (time_sub now (dw_start w)) (bucketWidth w).

Definition advance (now : Z) (w : dropWindow) : dropWindow :=
  if (bucketWidth w <=? 0) || bool_decide (dw_buckets w = []) then w
  else if IsZero (dw_start w) then restart_window now false w
  else if Before now (dw_start w) then restart_window now true w
  else
    let n := Z.of_nat (length (dw_buckets w)) in
    let offset := window_offset now w in
    if offset <? n then w
    else
      let shift := offset - n + 1 in
      if n <=? shift then restart_window now true w else Nat.iter (Z.to_nat shift) shift_window w.

Definition count_attempt (dropped : bool) (b : dropBucket) : dropBucket :=
  mkDropBucket (uint64 (db_attempts b + 1)) (if dropped then uint64 (db_drops b + 1) else db_drops b).

(** The sums over all buckets, and the window. *)
Definition record (now : Z) (dropped : bool) (w : dropWindow) : Z * Z * dropWindow :=
  if (dw_window w <=? 0) || (bucketWidth w <=? 0) then (0, 0, w)
  else
    let w := advance now w in
    let n := Z.of_nat (length (dw_buckets w)) in
    let offset := window_offset now w in
    let offset := if offset <? 0 then 0 else offset in
    let offset := if n <=? offset then n - 1 else offset in
    let idx := Z.to_nat ((Z.of_nat (startIdx w) + offset) mod n) in
    let w := mkDropWindow (dw_window w) (bucketWidth w) (dw_start w) (startIdx w) (alter (count_attempt dropped) idx (dw_buckets w)) in
    (fold_left (fun n b => uint64 (n + db_attempts b)) (dw_buckets w) 0, fold_left (fun n b => uint64 (n + db_drops b)) (dw_buckets w) 0, w).

(** ** A session *)

Record controlMessage := mkControl { cm_line : string; cm_raw : option string; cm_close : bool }.

Inductive written := WroteControl (m : controlMessage) (text : string) | WroteSpot (sp : Spot) (text : string).

(** Where the writer is: before the poll of the control queue, in the select that waits for
    either queue, or gone. *)
Inductive writer_phase := Polling | Selecting | Stopped.

Record Session := mkSession {
  s_user : User; s_control : list controlMessage; s_controlCap : Z; s_spots : list Spot; s_spotCap : Z; s_done : bool; s_dropCount : Z;
  s_window : dropWindow; s_phase : writer_phase; s_out : list written; s_writes : list bool; s_reason : string }.

Definition with_user (u : User) (s : Session) : Session :=
  mkSession u (s_control s) (s_controlCap s) (s_spots s) (s_spotCap s) (s_done s) (s_dropCount s) (s_window s) (s_phase s) (s_out s) (s_writes s) (s_reason s).
Definition with_control (l : list controlMessage) (s : Session) : Session :=
  mkSession (s_user s) l (s_controlCap s) (s_spots s) (s_spotCap s) (s_done s) (s_dropCount s) (s_window s) (s_phase s) (s_out s) (s_writes s) (s_reason s).
Definition with_spots (l : list Spot) (s : Session) : Session :=
  mkSession (s_user s) (s_control s) (s_controlCap s) l (s_spotCap s) (s_done s) (s_dropCount s) (s_window s) (s_phase s) (s_out s) (s_writes s) (s_reason s).
Definition with_drops (n : Z) (s : Session) : Session :=
  mkSession (s_user s) (s_control s) (s_controlCap s) (s_spots s) (s_spotCap s) (s_done s) n (s_window s) (s_phase s) (s_out s) (s_writes s) (s_reason s).
Definition with_window (w : dropWindow) (s : Session) : Session :=
  mkSession (s_user s) (s_control s) (s_controlCap s) (s_spots s) (s_spotCap s) (s_done s) (s_dropCount s) w (s_phase s) (s_out s) (s_writes s) (s_reason s).
Definition with_phase (p : writer_phase) (s : Session) : Session :=
  mkSession (s_user s) (s_control s) (s_controlCap s) (s_spots s) (s_spotCap s) (s_done s) (s_dropCount s) (s_window s) p (s_out s) (s_writes s) (s_reason s).

(** [close]: the first call counts. *)
Definition close (reason : string) (s : Session) : Session :=
  if s_done s then s
  else mkSession (s_user s) (s_control s) (s_controlCap s) (s_spots s) (s_spotCap s) true (s_dropCount s) (s_window s) (s_phase s) (s_out s) (s_writes s) reason.

(** A message without raw bytes and without text is not sent. *)
Definition blank_message (m : controlMessage) : bool := match cm_raw m with None => bool_decide (TrimSpace (cm_line m) = "") | Some _ => false end.

(** Whether it was queued (or had nothing to say), whether it was dropped, and the session. *)
Definition enqueueControl (m : controlMessage) (s : Session) : bool * bool * Session :=
  if blank_message m then (true, false, s)
  else if s_done s then (false, false, s)
  else if Z.of_nat (length (s_control s)) <? s_controlCap s then (true, false, with_control (s_control s ++ [m]) s)
  else (false, true, close "control queue full" s).

Definition Send (message : string) : Session -> bool * bool * Session := enqueueControl (mkControl message None false).
Definition SendRaw (data : string) : Session -> bool * bool * Session := enqueueControl (mkControl "" (Some data) false).
Definition SendAndClose (message : string) (s : Session) : bool * bool * Session :=
  if bool_decide (TrimSpace message = "") then (true, false, close "send and close" s) else enqueueControl (mkControl message None true) s.

(** The limits for clients that lose too many spots. *)
Record DropLimits := mkDropLimits { dropExtremeRate : Q; dropExtremeWindow : Z; dropExtremeMinAtt : Z }.

Definition too_many_drops (l : DropLimits) (attempts drops : Z) : bool :=
  (0 <? attempts) && (positive_else (dropExtremeMinAtt l) 100 <=? attempts) && Qle_b (dropExtremeRate l) (fdiv (float_of_int drops) (float_of_int attempts)).

Definition watch_drops (l : DropLimits) (now : Z) (dropped : bool) (s : Session) : Session :=
  if Qlt_b 0 (dropExtremeRate l) && (0 <? dropExtremeWindow l) then
    let '(attempts, drops, w) := record now dropped (s_window s) in
    let s := with_window w s in
    if too_many_drops l attempts drops then close "extreme drop rate" s else s
  else s.

(** Whether the spot was queued, whether it was dropped, and the session. *)
Definition enqueueSpot (l : DropLimits) (now : Z) (sp : Spot) (s : Session) : bool * bool * Session :=
  if s_done s then (false, false, s)
  else
    let dropped := negb (Z.of_nat (length (s_spots s)) <? s_spotCap s) in
    let s := if dropped then with_drops (uint64 (s_dropCount s + 1)) s else with_spots (s_spots s ++ [sp]) s in
    (negb dropped, dropped, watch_drops l now dropped s).

(** ** The writer *)

(** Line ends become CR LF. *)
Definition wire (message : string) : string := ReplaceAll (ReplaceAll message line_end nl) nl line_end.

(** Whether the write succeeded. *)
Definition write (w : written) (s : Session) : bool * Session :=
  match s_writes s with
  | false :: l => (false, mkSession (s_user s) (s_control s) (s_controlCap s) (s_spots s) (s_spotCap s) (s_done s) (s_dropCount s) (s_window s) (s_phase s) (s_out s) l (s_reason s))
  | true :: l => (true, mkSession (s_user s) (s_control s) (s_controlCap s) (s_spots s) (s_spotCap s) (s_done s) (s_dropCount s) (s_window s) (s_phase s) (s_out s ++ [w]) l (s_reason s))
  | [] => (true, mkSession (s_user s) (s_control s) (s_controlCap s) (s_spots s) (s_spotCap s) (s_done s) (s_dropCount s) (s_window s) (s_phase s) (s_out s ++ [w]) [] (s_reason s))
  end.

Definition control_text (m : controlMessage) : string :=
  match cm_raw m with Some raw => if bool_decide (raw = "") then wire (cm_line m) else raw | None => wire (cm_line m) end.

Definition stop (s : Session) : Session := with_phase Stopped s.

Definition handleControl (m : controlMessage) (s : Session) : Session :=
  if blank_message m then with_phase Polling s
  else
    let '(ok, s) := write (WroteControl m (control_text m)) s in
    if negb ok then stop (close "writer failure" s)
    else if cm_close m then stop (close "control close" s)
    else with_phase Polling s.

(** [render] is [formatSpotForClient] at the time of the write: the line and the client. *)
Definition handleSpot (render : User -> Spot -> string * User) (sp : Spot) (s : Session) : Session :=
  let '(line, u) := render (s_user s) sp in
  let '(ok, s) := write (WroteSpot sp (wire line)) (with_user u s) in
  if negb ok then stop (close "writer failure" s) else with_phase Polling s.

(** The steps of [writerLoop]: a ready case of a select is taken, any of them when several
    are ready. *)
Inductive writer_step (render : User -> Spot -> string * User) : Session -> Session -> Prop :=
| poll_done s : s_phase s = Polling -> s_done s = true -> writer_step render s (stop s)
| poll_control s m l : s_phase s = Polling -> s_control s = m :: l -> writer_step render s (handleControl m (with_control l s))
| poll_empty s : s_phase s = Polling -> s_done s = false -> s_control s = [] -> writer_step render s (with_phase Selecting s)
| select_done s : s_phase s = Selecting -> s_done s = true -> writer_step render s (stop s)
| select_control s m l : s_phase s = Selecting -> s_control s = m :: l -> writer_step render s (handleControl m (with_control l s))
| select_spot s sp l : s_phase s = Selecting -> s_spots s = sp :: l -> writer_step render s (handleSpot render sp (with_spots l s)).

(** ** The server *)

Record broadcastPayload := mkPayload { bp_spot : Spot; allowFast : bool; allowMed : bool; allowSlow : bool }.
Record broadcastJob := mkJob { j_payload : broadcastPayload; j_clients : list Z }.

Record Server := mkServer {
  sessions : gmap Z Session; clients : gmap string Z; shardsDirty : bool; clientShards : list (list Z); broadcastWorkers : Z;
  workerQueues : list (list broadcastJob); workerQueueSize : Z; workerBatches : list (list broadcastJob); batchInterval : Z; batchMax : Z;
  broadcast : list broadcastPayload; broadcastSize : Z; queueDrops : Z; clientDrops : Z; sv_limits : DropLimits; duplicateLoginMsg : string;
  maxConnections : Z }.

Definition with_sessions (m : gmap Z Session) (drops : Z) (s : Server) : Server :=
  mkServer m (clients s) (shardsDirty s) (clientShards s) (broadcastWorkers s) (workerQueues s) (workerQueueSize s) (workerBatches s) (batchInterval s) (batchMax s)
    (broadcast s) (broadcastSize s) (queueDrops s) drops (sv_limits s) (duplicateLoginMsg s) (maxConnections s).
Definition with_clients (m : gmap string Z) (s : Server) : Server :=
  mkServer (sessions s) m true (clientShards s) (broadcastWorkers s) (workerQueues s) (workerQueueSize s) (workerBatches s) (batchInterval s) (batchMax s)
    (broadcast s) (broadcastSize s) (queueDrops s) (clientDrops s) (sv_limits s) (duplicateLoginMsg s) (maxConnections s).
Definition with_shards (l : list (list Z)) (s : Server) : Server :=
  mkServer (sessions s) (clients s) false l (broadcastWorkers s) (workerQueues s) (workerQueueSize s) (workerBatches s) (batchInterval s) (batchMax s)
    (broadcast s) (broadcastSize s) (queueDrops s) (clientDrops s) (sv_limits s) (duplicateLoginMsg s) (maxConnections s).
Definition with_queues (q : list (list broadcastJob)) (drops : Z) (s : Server) : Server :=
  mkServer (sessions s) (clients s) (shardsDirty s) (clientShards s) (broadcastWorkers s) q (workerQueueSize s) (workerBatches s) (batchInterval s) (batchMax s)
    (broadcast s) (broadcastSize s) drops (clientDrops s) (sv_limits s) (duplicateLoginMsg s) (maxConnections s).
Definition with_batches (b : list (list broadcastJob)) (s : Server) : Server :=
  mkServer (sessions s) (clients s) (shardsDirty s) (clientShards s) (broadcastWorkers s) (workerQueues s) (workerQueueSize s) b (batchInterval s) (batchMax s)
    (broadcast s) (broadcastSize s) (queueDrops s) (clientDrops s) (sv_limits s) (duplicateLoginMsg s) (maxConnections s).
Definition with_broadcast (q : list broadcastPayload) (drops : Z) (s : Server) : Server :=
  mkServer (sessions s) (clients s) (shardsDirty s) (clientShards s) (broadcastWorkers s) (workerQueues s) (workerQueueSize s) (workerBatches s) (batchInterval s) (batchMax s)
    q (broadcastSize s) drops (clientDrops s) (sv_limits s) (duplicateLoginMsg s) (maxConnections s).

(** An operation on a session that may drop something. *)
Definition on_session (f : Session -> bool * bool * Session) (sv : Server) (id : Z) : Server :=
  match sessions sv !! id with
  | None => sv
  | Some s => let '(_, dropped, s) := f s in with_sessions (<[id := s]> (sessions sv)) (if dropped then uint64 (clientDrops sv + 1) else clientDrops sv) sv
  end.

Definition callsign_of (sv : Server) (id : Z) : string := match sessions sv !! id with Some s => u_callsign (s_user s) | None => "" end.

Definition with_nl (msg : string) : string := if HasSuffix msg nl then msg else msg +:+ nl.

(** What the session that is pushed out gets. *)
Definition evict (msg : string) (s : Session) : bool * bool * Session :=
  let msg := TrimSpace msg in
  if bool_decide (msg = "") then (true, false, close "duplicate login" s) else SendAndClose (with_nl msg) s.

Definition registerClient (id : Z) (sv : Server) : Server :=
  let call := callsign_of sv id in
  let evicted := clients sv !! call in
  let sv := with_clients (<[call := id]> (delete call (clients sv))) sv in
  match evicted with
  | None => sv
  | Some old => on_session (evict (duplicateLoginMsg sv)) sv old
  end.

(** The table without the session, when it is the one registered. *)
Definition unregister (id : Z) (sv : Server) : Server :=
  let call := callsign_of sv id in
  with_clients (if bool_decide (clients sv !! call = Some id) then delete call (clients sv) else clients sv) sv.

Section Unregister.
Context {bytes : Type}.
Variable Marshal : UserRecord -> option bytes.
Variable Unmarshal : bytes -> option UserRecord.

Definition unregisterClient (id : Z) (sv : Server) (k : Disk bytes) : Server * Disk bytes :=
  (unregister id sv, match sessions sv !! id with Some s => (saveFilter Marshal Unmarshal k (s_user s)).2 | None => k end).
End Unregister.

Definition GetClientCount (sv : Server) : Z := Z.of_nat (size (clients sv)).
Definition ListClientCallsigns (sv : Server) : list string := sort_strings (map fst (map_to_list (clients sv))).

(** Whether a connection is handled, or told that the server is full. *)
Definition accept (sv : Server) : bool := negb ((0 <? maxConnections sv) && (maxConnections sv <=? GetClientCount sv)).

Definition close_session (reason : string) (s : Session) : bool * bool * Session := (true, false, close reason s).

(** ** Deliveries to many clients *)

Section Visit.
(** The order in which a map is visited. *)
Variable visit : gmap string Z -> list (string * Z).

Definition all_ids (sv : Server) : list Z := map snd (visit (clients sv)).

Definition Stop (sv : Server) : Server := fold_left (on_session (close_session "server shutdown")) (all_ids sv) sv.

(** A tick of [keepaliveLoop]. *)
Definition keepalive_tick (sv : Server) : Server := fold_left (on_session (Send line_end)) (all_ids sv) sv.

Definition BroadcastRaw (line : string) (sv : Server) : Server :=
  if bool_decide (TrimSpace line = "") then sv else fold_left (on_session (Send line)) (all_ids sv) sv.

Definition is_eol (c : ascii) : bool := (byte_val c =? 13) || (byte_val c =? 10).

Definition prepareBulletinLine (line : string) : string :=
  let trimmed := trim_right is_eol line in
  if bool_decide (TrimSpace trimmed = "") then "" else trimmed +:+ nl.

(** The filter of a bulletin, then the queue. *)
Definition bulletin_to (kind message : string) (s : Session) : bool * bool * Session :=
  if AllowsBulletin kind (c_filter (u_client (s_user s))) then Send message s else (false, false, s).

Definition broadcastBulletin (kind line : string) (sv : Server) : Server :=
  let message := prepareBulletinLine line in
  if bool_decide (message = "") then sv else fold_left (on_session (bulletin_to kind message)) (all_ids sv) sv.

Definition normalizeWWVKind (kind : string) : string :=
  let kind := upper_trim kind in
  if bool_decide (kind = "WWV") || bool_decide (kind = "WCY") then kind
  else if bool_decide (kind = "PC23") then "WWV"
  else if bool_decide (kind = "PC73") then "WCY"
  else "".

Definition BroadcastWWV (kind line : string) (sv : Server) : Server :=
  let kind := normalizeWWVKind kind in
  if bool_decide (kind = "") then sv else broadcastBulletin kind line sv.

Definition BroadcastAnnouncement (line : string) (sv : Server) : Server := broadcastBulletin "ANNOUNCE" line sv.

Definition SendDirectMessage (callsign line : string) (sv : Server) : Server :=
  let callsign := upper_trim callsign in
  let message := prepareBulletinLine line in
  if bool_decide (callsign = "") || bool_decide (message = "") then sv
  else match clients sv !! callsign with None => sv | Some id => on_session (Send message) sv id end.

(** [message] is the summary at [now]. *)
Definition solar_to (now : Z) (message : string) (s : Session) : bool * bool * Session :=
  let '(due, u) := solar_due now (s_user s) in
  let s := with_user u s in
  if due && negb (bool_decide (message = "")) then Send message s else (false, false, s).

Definition emitSolarSummaries (now : Z) (message : string) (sv : Server) : Server := fold_left (on_session (solar_to now message)) (all_ids sv) sv.

(** ** Spots *)

Definition BroadcastSpot (p : broadcastPayload) (sv : Server) : Server :=
  if Z.of_nat (length (broadcast sv)) <? broadcastSize sv then with_broadcast (broadcast sv ++ [p]) (queueDrops sv) sv
  else with_broadcast (broadcast sv) (uint64 (queueDrops sv + 1)) sv.

Definition normalizedDXCall (sp : Spot) : string := if bool_decide (DXCallNorm sp = "") then normalize_call (DXCall sp) else upper_trim (DXCallNorm sp).

Definition isSelfMatch (sp : Spot) (callsign : string) : bool :=
  let callsign := upper_trim callsign in
  let dx := normalizedDXCall sp in
  negb (bool_decide (callsign = "")) && negb (bool_decide (dx = "")) && bool_decide (dx = callsign).

(** Clients dealt to the workers in turn. *)
Definition deal (workers : nat) (ids : list Z) : list (list Z) :=
  map (fun i => map snd (List.filter (fun e => (fst e mod workers =? i)%nat) (combine (seq 0 (length ids)) ids))) (seq 0 workers).

Definition cachedClientShards (sv : Server) : list (list Z) * Server :=
  if negb (shardsDirty sv) && negb (bool_decide (clientShards sv = [])) then (clientShards sv, sv)
  else
    let workers := if broadcastWorkers sv <=? 0 then 1 else broadcastWorkers sv in
    let shards := deal (Z.to_nat workers) (all_ids sv) in
    (shards, with_shards shards sv).

(** The queue of worker [i] and one of the shards. *)
Definition dispatch_shard (p : broadcastPayload) (sv : Server) (i : nat) (ids : list Z) : Server :=
  if bool_decide (ids = []) then sv
  else
    match workerQueues sv !! i with
    | None => sv
    | Some q =>
        if Z.of_nat (length q) <? workerQueueSize sv then with_queues (<[i := q ++ [mkJob p ids]]> (workerQueues sv)) (queueDrops sv) sv
        else with_queues (workerQueues sv) (uint64 (queueDrops sv + 1)) sv
    end.

Fixpoint dispatch_from (p : broadcastPayload) (i : nat) (shards : list (list Z)) (sv : Server) : Server :=
  match shards with
  | [] => sv
  | ids :: shards => dispatch_from p (S i) shards (dispatch_shard p sv i ids)
  end.

Definition dispatchSpotToWorkers (p : broadcastPayload) (shards : list (list Z)) (sv : Server) : Server := dispatch_from p 0 shards sv.

Definition broadcastSpot (p : broadcastPayload) (sv : Server) : Server := let '(shards, sv) := cachedClientShards sv in dispatchSpotToWorkers p shards sv.

(** A round of [handleBroadcasts]. *)
Definition handle_broadcast (sv : Server) : Server :=
  match broadcast sv with
  | [] => sv
  | p :: q => broadcastSpot p (with_broadcast q (queueDrops sv) sv)
  end.
End Visit.

Section Deliver.
Variable EncodeCell : string -> Z.
Variable EncodeCoarseCell : string -> Z.
(** [math.Exp], and [math.Pow] of ten. *)
Variables exp_ pow10 : Q -> Q.
Variable predictor : option Predictor.

Definition policy_allows (p : broadcastPayload) (policy : dedupePolicy) : bool :=
  match policy with dedupePolicyFast => allowFast p | dedupePolicyMed => allowMed p | dedupePolicySlow => allowSlow p end.

(** The filter of a client, with the class of the path when a path filter needs it. *)
Definition filter_matches (now : Z) (u : User) (sp : Spot) : bool * User :=
  let f := c_filter (u_client u) in
  let '(class, u) := if PathFilterActive f && negb (blockAll (PathClasses f)) then pathClassForClient exp_ pow10 EncodeCell EncodeCoarseCell predictor now u sp else (PathClassInsufficient, u) in
  (matchesWithPath EncodeCell EncodeCoarseCell f sp class, u).

(** Whether the client gets the spot. *)
Definition wants (now : Z) (p : broadcastPayload) (u : User) : bool * User :=
  let self := isSelfMatch (bp_spot p) (u_callsign u) in
  if negb (policy_allows p (u_policy u)) then (self && SelfEnabled (c_filter (u_client u)), u)
  else if self then (SelfEnabled (c_filter (u_client u)), u)
  else filter_matches now u (bp_spot p).

Definition deliver_to (l : DropLimits) (now : Z) (p : broadcastPayload) (s : Session) : bool * bool * Session :=
  let '(want, u) := wants now p (s_user s) in
  let s := with_user u s in
  if want then enqueueSpot l now (bp_spot p) s else (false, false, s).

Definition deliverJob (now : Z) (job : broadcastJob) (sv : Server) : Server := fold_left (on_session (deliver_to (sv_limits sv) now (j_payload job))) (j_clients job) sv.

Definition DeliverSelfSpot (now : Z) (sp : Spot) (sv : Server) : Server :=
  let dx := normalizedDXCall sp in
  if bool_decide (dx = "") then sv
  else
    match clients sv !! dx with
    | None => sv
    | Some id => on_session (fun s => if SelfEnabled (c_filter (u_client (s_user s))) then enqueueSpot (sv_limits sv) now sp s else (false, false, s)) sv id
    end.

(** [flush] of worker [i]. *)
Definition worker_flush (now : Z) (i : nat) (sv : Server) : Server :=
  match workerBatches sv !! i with
  | None => sv
  | Some batch => fold_left (fun sv job => deliverJob now job sv) batch (with_batches (<[i := []]> (workerBatches sv)) sv)
  end.

(** Worker [i] takes a job: delivered at once without batching, else kept until the batch is
    full or the ticker fires, which is [worker_flush]. *)
Definition worker_take (now : Z) (i : nat) (sv : Server) : Server :=
  match workerQueues sv !! i with
  | None | Some [] => sv
  | Some (job :: q) =>
      let sv := with_queues (<[i := q]> (workerQueues sv)) (queueDrops sv) sv in
      if batchInterval sv <=? 0 then deliverJob now job sv
      else
        match workerBatches sv !! i with
        | None => sv
        | Some batch =>
            let sv := with_batches (<[i := batch ++ [job]]> (workerBatches sv)) sv in
            if batchMax sv <=? Z.of_nat (length (batch ++ [job])) then worker_flush now i sv else sv
        end
  end.
End Deliver.

(** ** Queues keep their order *)

Definition controls_of (l : list written) : list controlMessage := flat_map (fun w => match w with WroteControl m _ => [m] | WroteSpot _ _ => [] end) l.
Definition spots_of (l : list written) : list Spot := flat_map (fun w => match w with WroteControl _ _ => [] | WroteSpot sp _ => [sp] end) l.

Section Queues.
Variable render : User -> Spot -> string * User.
Variable l : DropLimits.

(** The states a session reaches, with the messages and spots its queues accepted. *)
Inductive reaches (s0 : Session) : list controlMessage -> list Spot -> Session -> Prop :=
| reach_start : reaches s0 [] [] s0
| reach_control cs ss s m ok dropped s' :
    reaches s0 cs ss s -> enqueueControl m s = (ok, dropped, s') -> reaches s0 (if ok && negb (blank_message m) then cs ++ [m] else cs) ss s'
| reach_spot cs ss s now sp ok dropped s' :
    reaches s0 cs ss s -> enqueueSpot l now sp s = (ok, dropped, s') -> reaches s0 cs (if ok then ss ++ [sp] else ss) s'
| reach_close cs ss s reason : reaches s0 cs ss s -> reaches s0 cs ss (close reason s)
| reach_writer cs ss s s' : reaches s0 cs ss s -> writer_step render s s' -> reaches s0 cs ss s'.

(** Written, lost at the failure that stops the writer, still queued. *)
Definition queue_inv (cs : list controlMessage) (ss : list Spot) (s : Session) : Prop :=
  (exists lost, cs = controls_of (s_out s) ++ lost ++ s_control s /\ (s_phase s <> Stopped -> lost = [])) /\
  (exists lost, ss = spots_of (s_out s) ++ lost ++ s_spots s /\ (s_phase s <> Stopped -> lost = [])) /\
  Forall (fun m => blank_message m = false) (s_control s) /\
  Z.of_nat (length (s_control s)) <= Z.max 0 (s_controlCap s) /\ Z.of_nat (length (s_spots s)) <= Z.max 0 (s_spotCap s).

Definition same_queues (s s' : Session) : Prop :=
  s_out s' = s_out s /\ s_control s' = s_control s /\ s_spots s' = s_spots s /\ s_controlCap s' = s_controlCap s /\ s_spotCap s' = s_spotCap s /\
  (s_phase s' = s_phase s \/ s_phase s' = Stopped \/ s_phase s <> Stopped).

Lemma inv_same cs ss s s' : queue_inv cs ss s -> same_queues s s' -> queue_inv cs ss s'.
Proof.
  intros ((l1 & H1 & H2) & (l2 & H3 & H4) & H5 & H6 & H7) (E1 & E2 & E3 & E4 & E5 & E6). unfold queue_inv. rewrite E1, E2, E3, E4, E5.
  split; [|split; [|done]].
  - exists l1. split; [done|]. intros Hp. apply H2. destruct E6 as [E|[E|E]]; congruence.
  - exists l2. split; [done|]. intros Hp. apply H4. destruct E6 as [E|[E|E]]; congruence.
Qed.

Lemma same_close reason s : same_queues s (close reason s).
Proof. unfold same_queues, close. destruct (s_done s); simpl; tauto. Qed.

Lemma same_watch now dropped s : same_queues s (watch_drops l now dropped s).
Proof.
  unfold watch_drops. destruct (_ && _); [|unfold same_queues; tauto]. destruct (record now dropped (s_window s)) as [[a d] w].
  destruct (too_many_drops l a d); unfold same_queues, close; simpl; [destruct (s_done s)|]; simpl; tauto.
Qed.

Lemma inv_enqueue_control cs ss s m ok dropped s' : queue_inv cs ss s -> enqueueControl m s = (ok, dropped, s') ->
  queue_inv (if ok && negb (blank_message m) then cs ++ [m] else cs) ss s'.
Proof.
  intros Hi. unfold enqueueControl. destruct (blank_message m) eqn:Hb; [intros [= <- <- <-]; by rewrite andb_false_r|].
  destruct (s_done s); [by intros [= <- <- <-]|]. destruct (Z.ltb_spec (Z.of_nat (length (s_control s))) (s_controlCap s)) as [Hlt|Hlt].
  - intros [= <- <- <-]. destruct Hi as ((l1 & H1 & H2) & H3 & H5 & H6 & H7). split; [|split; [done|split; [|split; [|done]]]]; simpl.
    + exists l1. split; [by rewrite H1, <- !app_assoc|done].
    + apply Forall_app. split; [done|]. by repeat constructor.
    + rewrite length_app. simpl. lia.
  - intros [= <- <- <-]. simpl. by eapply inv_same, same_close.
Qed.

Lemma inv_enqueue_spot cs ss s now sp ok dropped s' : queue_inv cs ss s -> enqueueSpot l now sp s = (ok, dropped, s') ->
  queue_inv cs (if ok then ss ++ [sp] else ss) s'.
Proof.
  intros Hi. unfold enqueueSpot. destruct (s_done s); [by intros [= <- <- <-]|].
  destruct (Z.ltb_spec (Z.of_nat (length (s_spots s))) (s_spotCap s)) as [Hlt|Hlt]; cbn [negb]; intros [= <- <- <-]; (eapply inv_same; [|apply same_watch]); [|done].
  destruct Hi as (H3 & (l1 & H1 & H2) & H5 & H6 & H7). split; [done|split; [|split; [done|split; [done|]]]]; simpl.
  - exists l1. split; [by rewrite H1, <- !app_assoc|done].
  - rewrite length_app. simpl. lia.
Qed.

Lemma write_cases w s ok s' : write w s = (ok, s') ->
  s_out s' = s_out s ++ (if ok then [w] else []) /\ s_control s' = s_control s /\ s_spots s' = s_spots s /\ s_controlCap s' = s_controlCap s /\
  s_spotCap s' = s_spotCap s /\ s_phase s' = s_phase s.
Proof. unfold write. destruct (s_writes s) as [|[] ?]; intros [= <- <-]; simpl; by rewrite ?app_nil_r. Qed.

Lemma close_keeps reason s : s_out (close reason s) = s_out s /\ s_control (close reason s) = s_control s /\ s_spots (close reason s) = s_spots s /\
  s_controlCap (close reason s) = s_controlCap s /\ s_spotCap (close reason s) = s_spotCap s.
Proof. unfold close. by destruct (s_done s). Qed.

Lemma inv_handle_control cs ss s m rest : queue_inv cs ss s -> s_phase s <> Stopped -> s_control s = m :: rest -> queue_inv cs ss (handleControl m (with_control rest s)).
Proof.
  intros ((l1 & H1 & H2) & (l2 & H3 & H4) & H5 & H6 & H7) Hp Hc. specialize (H2 Hp). specialize (H4 Hp). subst l1 l2. rewrite Hc in *. simpl in H1, H3, H6.
  inversion_clear H5 as [|? ? Hb Hbs]. unfold handleControl. rewrite Hb. destruct (write _ _) as [ok s1] eqn:E. apply write_cases in E as (E1 & E2 & E3 & E4 & E5 & _).
  simpl in E1, E2, E3, E4, E5. destruct ok; simpl.
  - assert (Hd : forall s2, s_out s2 = s_out s1 -> s_control s2 = s_control s1 -> s_spots s2 = s_spots s1 -> s_controlCap s2 = s_controlCap s1 -> s_spotCap s2 = s_spotCap s1 -> queue_inv cs ss s2).
    { intros s2 F1 F2 F3 F4 F5. unfold queue_inv. rewrite F1, F2, F3, F4, F5, E1, E2, E3, E4, E5. unfold controls_of, spots_of. rewrite !flat_map_app. simpl. rewrite app_nil_r.
      split; [exists []; split; [rewrite H1, <- app_assoc; done|done]|]. split; [exists []; done|]. split; [done|]. split; [lia|done]. }
    destruct (cm_close m); apply Hd; simpl; try done; apply close_keeps.
  - destruct (close_keeps "writer failure" s1) as (C1 & C2 & C3 & C4 & C5). unfold queue_inv, stop. simpl. rewrite C1, C2, C3, C4, C5, E1, E2, E3, E4, E5, app_nil_r.
    split; [exists [m]; split; [exact H1|done]|]. split; [exists []; done|]. split; [done|]. split; [lia|done].
Qed.

Lemma inv_handle_spot cs ss s sp rest : queue_inv cs ss s -> s_phase s <> Stopped -> s_spots s = sp :: rest -> queue_inv cs ss (handleSpot render sp (with_spots rest s)).
Proof.
  intros ((l1 & H1 & H2) & (l2 & H3 & H4) & H5 & H6 & H7) Hp Hc. specialize (H2 Hp). specialize (H4 Hp). subst l1 l2. rewrite Hc in *. simpl in H1, H3, H7.
  unfold handleSpot. destruct (render _ _) as [line u]. destruct (write _ _) as [ok s1] eqn:E. apply write_cases in E as (E1 & E2 & E3 & E4 & E5 & _).
  simpl in E1, E2, E3, E4, E5. destruct ok; simpl.
  - unfold queue_inv. simpl. rewrite E1, E2, E3, E4, E5. unfold controls_of, spots_of. rewrite !flat_map_app. simpl. rewrite app_nil_r.
    split; [exists []; done|]. split; [exists []; split; [rewrite H3, <- app_assoc; done|done]|]. split; [done|]. split; [done|lia].
  - destruct (close_keeps "writer failure" s1) as (C1 & C2 & C3 & C4 & C5). unfold queue_inv, stop. simpl. rewrite C1, C2, C3, C4, C5, E1, E2, E3, E4, E5, app_nil_r.
    split; [exists []; done|]. split; [exists [sp]; split; [exact H3|done]|]. split; [done|]. split; [done|lia].
Qed.

Lemma inv_phase cs ss s p : s_phase s <> Stopped -> queue_inv cs ss s -> queue_inv cs ss (with_phase p s).
Proof. intros Hp Hi. eapply inv_same; [exact Hi|]. unfold same_queues. simpl. tauto. Qed.

Lemma reaches_inv s0 cs ss s : s_out s0 = [] -> s_control s0 = [] -> s_spots s0 = [] -> reaches s0 cs ss s -> queue_inv cs ss s.
Proof.
  intros H1 H2 H3. induction 1 as [|cs ss s m ok dropped s' _ IH E|cs ss s now sp ok dropped s' _ IH E|cs ss s reason _ IH|cs ss s s' _ IH Hst].
  - unfold queue_inv. rewrite H1, H2, H3. simpl. split; [by exists []|]. split; [by exists []|]. split; [constructor|]. lia.
  - by eapply inv_enqueue_control.
  - by eapply inv_enqueue_spot.
  - eapply inv_same; [exact IH|apply same_close].
  - destruct Hst as [s Hp Hd|s m rest Hp Hc|s Hp Hd Hc|s Hp Hd|s m rest Hp Hc|s sp rest Hp Hc].
    + apply inv_phase; [congruence|done].
    + eapply inv_handle_control; [done|congruence|done].
    + apply inv_phase; [congruence|done].
    + apply inv_phase; [congruence|done].
    + eapply inv_handle_control; [done|congruence|done].
    + eapply inv_handle_spot; [done|congruence|done].
Qed.
End Queues.


(** ** Messages go before spots *)

Section Priority.
Variable render : User -> Spot -> string * User.
Variable l : DropLimits.

Inductive act_step : Session -> Session -> Prop :=
| act_control s m ok dropped s' : enqueueControl m s = (ok, dropped, s') -> act_step s s'
| act_spot s now sp ok dropped s' : enqueueSpot l now sp s = (ok, dropped, s') -> act_step s s'
| act_close s reason : act_step s (close reason s)
| act_write s s' : writer_step render s s' -> act_step s s'.

(** A step that takes no message from the control queue. *)
Definition waiting (s s' : Session) : Prop := act_step s s' /\ (length (s_control s) <= length (s_control s'))%nat.

Definition spots_written (s : Session) : nat := length (spots_of (s_out s)).

Lemma handle_control_shape m s : s_out (handleControl m s) = s_out s \/ exists t, s_out (handleControl m s) = s_out s ++ [WroteControl m t].
Proof.
  unfold handleControl. destruct (blank_message m); [by left|]. destruct (write _ _) as [ok s1] eqn:E. apply write_cases in E as (E1 & _).
  destruct ok; simpl in *.
  - right. eexists. destruct (cm_close m); simpl; [destruct (close_keeps "control close" s1) as (-> & _)|]; exact E1.
  - left. destruct (close_keeps "writer failure" s1) as (-> & _). by rewrite E1, app_nil_r.
Qed.

Lemma handle_control_queue m s : s_control (handleControl m s) = s_control s.
Proof.
  unfold handleControl. destruct (blank_message m); [done|]. destruct (write _ _) as [ok s1] eqn:E. apply write_cases in E as (_ & E2 & _).
  destruct ok; simpl; [destruct (cm_close m); simpl|]; rewrite ?(proj1 (proj2 (close_keeps _ s1))); done.
Qed.

Lemma handle_spot_shape sp s : s_phase (handleSpot render sp s) <> Selecting /\ s_control (handleSpot render sp s) = s_control s /\
  (spots_written (handleSpot render sp s) <= spots_written s + 1)%nat.
Proof.
  unfold handleSpot, spots_written. destruct (render _ _) as [line u]. destruct (write _ _) as [ok s1] eqn:E. apply write_cases in E as (E1 & E2 & _).
  simpl in E1, E2. destruct ok; simpl.
  - rewrite E1, E2. unfold spots_of. rewrite flat_map_app, length_app. simpl. repeat split; [done|lia].
  - destruct (close_keeps "writer failure" s1) as (-> & -> & _). rewrite E1, E2, app_nil_r. repeat split; [done|lia].
Qed.

Lemma enqueue_control_out m s ok dropped s' : enqueueControl m s = (ok, dropped, s') -> s_out s' = s_out s /\ s_phase s' = s_phase s.
Proof.
  unfold enqueueControl. destruct (blank_message m); [by intros [= _ _ <-]|]. destruct (s_done s) eqn:Hd; [by intros [= _ _ <-]|].
  destruct (_ <? _); intros [= _ _ <-]; [done|]. unfold close. by rewrite Hd.
Qed.

Lemma watch_out now dropped s : s_out (watch_drops l now dropped s) = s_out s /\ s_phase (watch_drops l now dropped s) = s_phase s /\
  s_control (watch_drops l now dropped s) = s_control s.
Proof.
  unfold watch_drops. destruct (_ && _); [|done]. destruct (record now dropped (s_window s)) as [[a d] w].
  destruct (too_many_drops l a d); [|done]. unfold close. simpl. by destruct (s_done s).
Qed.

Lemma enqueue_spot_out now sp s ok dropped s' : enqueueSpot l now sp s = (ok, dropped, s') -> s_out s' = s_out s /\ s_phase s' = s_phase s /\ s_control s' = s_control s.
Proof.
  unfold enqueueSpot. destruct (s_done s); [by intros [= _ _ <-]|]. intros [= _ _ <-].
  match goal with |- context [watch_drops l now ?d ?x] => destruct (watch_out now d x) as (-> & -> & ->) end. by destruct (negb _).
Qed.

(** With a message waiting: nothing written so far, or one spot and the writer out of the select. *)
Definition overtaken (n : nat) (s : Session) : Prop :=
  s_control s <> [] /\ (spots_written s = n \/ (spots_written s = n + 1)%nat /\ s_phase s <> Selecting).

Lemma overtaken_step n s s' : overtaken n s -> waiting s s' -> overtaken n s'.
Proof.
  intros [Hc Ho] [Hst Hlen]. destruct Hst as [s m ok dropped s' E|s now sp ok dropped s' E|s reason|s s' Hw].
  - apply enqueue_control_out in E as [E1 E2]. unfold overtaken, spots_written in *. rewrite E1, E2. split; [|done]. destruct (s_control s); [done|]. destruct (s_control s'); [simpl in Hlen; lia|done].
  - apply enqueue_spot_out in E as (E1 & E2 & E3). unfold overtaken, spots_written in *. by rewrite E1, E2, E3.
  - unfold overtaken, spots_written, close in *. by destruct (s_done s).
  - destruct Hw as [s Hp Hd|s m rest Hp Hq|s Hp Hd Hq|s Hp Hd|s m rest Hp Hq|s sp rest Hp Hq].
    + split; [done|]. unfold spots_written in *. simpl. destruct Ho as [Ho|[Ho _]]; [by left|right; done].
    + exfalso. rewrite handle_control_queue in Hlen. simpl in Hlen. rewrite Hq in Hlen. simpl in Hlen. lia.
    + done.
    + split; [done|]. unfold spots_written in *. simpl. destruct Ho as [Ho|[Ho _]]; [by left|right; done].
    + exfalso. rewrite handle_control_queue in Hlen. simpl in Hlen. rewrite Hq in Hlen. simpl in Hlen. lia.
    + destruct (handle_spot_shape sp (with_spots rest s)) as (S1 & S2 & S3). split; [by rewrite S2|].
      destruct Ho as [Ho|[_ Ho]]; [|congruence]. unfold spots_written in *. simpl in S3.
      destruct (decide (length (spots_of (s_out (handleSpot render sp (with_spots rest s)))) = n)) as [E|E]; [by left|].
      right. split; [|done]. enough (n <= length (spots_of (s_out (handleSpot render sp (with_spots rest s)))))%nat by lia.
      unfold handleSpot. destruct (render _ _) as [line u]. destruct (write _ _) as [ok s1] eqn:E'. apply write_cases in E' as (E1 & _). simpl in E1.
      destruct ok; simpl; [|destruct (close_keeps "writer failure" s1) as (-> & _)]; rewrite E1; unfold spots_of in *; rewrite flat_map_app, length_app; lia.
Qed.
End Priority.

(** A message to a client is overtaken by at most one spot: from the time it is queued until
    a message is taken from the control queue, however many spots arrive and wait, at most
    one more is written. *)
Theorem message_overtaken_once render l s s' :
  s_control s <> [] -> rtc (waiting render l) s s' -> (length (spots_of (s_out s')) <= length (spots_of (s_out s)) + 1)%nat.
Proof.
  intros Hc Hr. assert (H : overtaken (spots_written s) s) by (split; [done|by left]).
  assert (Hall : overtaken (spots_written s) s').
  { revert H. generalize (spots_written s). induction Hr as [|s1 s2 s3 Hst _ IH]; intros n H; [done|]. apply IH; [by destruct (overtaken_step _ _ _ _ _ H Hst)|by eapply overtaken_step]. }
  destruct Hall as [_ Hall]. unfold spots_written in Hall. lia.
Qed.

(** ** The table of clients *)

(** Every entry is a session of that callsign. *)
Definition registry_ok (sv : Server) : Prop :=
  forall call id, clients sv !! call = Some id -> exists s, sessions sv !! id = Some s /\ u_callsign (s_user s) = call.

(** An operation on a session that leaves its callsign. *)
Definition keeps_callsign (f : Session -> bool * bool * Session) : Prop := forall s, u_callsign (s_user (f s).2) = u_callsign (s_user s).

Lemma on_session_lookup f sv id i :
  sessions (on_session f sv id) !! i = if decide (i = id) then snd <$> (f <$> sessions sv !! id) else sessions sv !! i.
Proof.
  unfold on_session. destruct (sessions sv !! id) as [s|] eqn:E; [|by case_decide; subst].
  destruct (f s) as [[ok dropped] s'] eqn:F. simpl. case_decide as H; [subst; by rewrite lookup_insert_eq, F|by rewrite lookup_insert_ne].
Qed.

Lemma on_session_clients f sv id : clients (on_session f sv id) = clients sv.
Proof. unfold on_session. destruct (sessions sv !! id); [|done]. by destruct (f s) as [[? ?] ?]. Qed.

Lemma registry_on_session f sv id : keeps_callsign f -> registry_ok sv -> registry_ok (on_session f sv id).
Proof.
  intros Hf Hr call i. rewrite on_session_clients. intros H. destruct (Hr call i H) as (s & E & Hc). rewrite on_session_lookup.
  case_decide as D; [|by exists s]. subst. rewrite E. simpl. eexists. split; [done|]. apply Hf.
Qed.

Lemma close_user reason s : s_user (close reason s) = s_user s.
Proof. unfold close. by destruct (s_done s). Qed.

Lemma enqueue_control_user m s : s_user (enqueueControl m s).2 = s_user s.
Proof. unfold enqueueControl. destruct (blank_message m); [done|]. destruct (s_done s) eqn:E; [done|]. destruct (_ <? _); [done|]. simpl. apply close_user. Qed.

Lemma send_and_close_user m s : s_user (SendAndClose m s).2 = s_user s.
Proof. unfold SendAndClose. case_bool_decide; [apply close_user|apply enqueue_control_user]. Qed.

Lemma evict_keeps msg : keeps_callsign (evict msg).
Proof. intros s. unfold evict. case_bool_decide; [simpl; by rewrite close_user|by rewrite send_and_close_user]. Qed.

Lemma watch_user l now dropped s : s_user (watch_drops l now dropped s) = s_user s.
Proof.
  unfold watch_drops. destruct (_ && _); [|done]. destruct (record now dropped (s_window s)) as [[a d] w].
  destruct (too_many_drops l a d); [|done]. by rewrite close_user.
Qed.

Lemma enqueue_spot_user l now sp s : s_user (enqueueSpot l now sp s).2 = s_user s.
Proof. unfold enqueueSpot. destruct (s_done s); [done|]. simpl. rewrite watch_user. by destruct (negb _). Qed.

(** What is in store for a session: it is closed, or the last message waiting closes it. *)
Definition leaving (s : Session) : Prop := s_done s = true \/ exists l m, s_control s = l ++ [m] /\ cm_close m = true.

Lemma close_leaves reason s : leaving (close reason s).
Proof. left. unfold close. by destruct (s_done s) eqn:E. Qed.

Lemma evict_leaves msg s : leaving (evict msg s).2.
Proof.
  unfold evict. case_bool_decide; [apply close_leaves|]. unfold SendAndClose. case_bool_decide as Hb; [apply close_leaves|]. unfold enqueueControl, blank_message.
  simpl. rewrite bool_decide_eq_false_2 by done. destruct (s_done s) eqn:E; [by left|]. destruct (_ <? _); [|apply close_leaves]. right. simpl. by do 2 eexists.
Qed.

(** What a registration does: the table has the session under its callsign, the session that
    had its place is on its way out, and no other changes. *)
Lemma register_spec id sv s : registry_ok sv -> sessions sv !! id = Some s -> clients sv !! u_callsign (s_user s) <> Some id ->
  let call := u_callsign (s_user s) in
  let sv' := registerClient id sv in
  clients sv' = <[call := id]> (delete call (clients sv)) /\ registry_ok sv' /\ sessions sv' !! id = Some s /\
  (forall j, clients sv !! call <> Some j -> sessions sv' !! j = sessions sv !! j) /\
  (forall j so, clients sv !! call = Some j -> sessions sv !! j = Some so ->
     exists s', sessions sv' !! j = Some s' /\ leaving s' /\ u_callsign (s_user s') = u_callsign (s_user so)).
Proof.
  intros Hr Hn Hne. simpl. assert (Ec : callsign_of sv id = u_callsign (s_user s)) by (unfold callsign_of; by rewrite Hn).
  unfold registerClient. rewrite Ec. set (call := u_callsign (s_user s)) in *. set (m := <[call:=id]> (delete call (clients sv))).
  assert (Rm : registry_ok (with_clients m sv)).
  { intros c j. simpl. unfold m. destruct (decide (c = call)) as [->|D].
    - rewrite lookup_insert_eq. intros [= <-]. eauto.
    - rewrite lookup_insert_ne, lookup_delete_ne by done. apply Hr. }
  destruct (clients sv !! call) as [old|]; [|split; [done|split; [done|split; [done|split; [done|intros j so [=]]]]]].
  split; [by rewrite on_session_clients|]. split; [apply registry_on_session; [apply evict_keeps|done]|].
  split; [rewrite on_session_lookup, decide_False by congruence; done|]. split.
  - intros j Hj. rewrite on_session_lookup, decide_False by congruence. done.
  - intros j so [= <-] Hj. rewrite on_session_lookup, decide_True by done. simpl. rewrite Hj. simpl. eexists. split; [done|]. split; [apply evict_leaves|apply evict_keeps].
Qed.

(** One session per callsign.  A login under a callsign that is connected takes its place
    in the table, and the older session is closed or has the closing message as the last of
    its queue; when that session unregisters later the newer stays in the table; and the
    table holds only sessions under their own callsigns throughout. *)
Theorem newer_login_wins sv new old sn so :
  registry_ok sv -> sessions sv !! new = Some sn -> sessions sv !! old = Some so -> new <> old -> clients sv !! u_callsign (s_user sn) = Some old ->
  let call := u_callsign (s_user sn) in
  let sv1 := registerClient new sv in
  let sv2 := unregister old sv1 in
  clients sv1 !! call = Some new /\ (exists s, sessions sv1 !! old = Some s /\ leaving s) /\ clients sv2 = clients sv1 /\
  (forall other, other <> call -> clients sv1 !! other = clients sv !! other) /\ registry_ok sv1 /\ registry_ok sv2.
Proof.
  intros Hr Hn Ho Hne Hc. cbv zeta. set (call := u_callsign (s_user sn)) in *. assert (Hc' : clients sv !! call <> Some new) by congruence.
  destruct (register_spec new sv sn Hr Hn Hc') as (C1 & R1 & _ & _ & He). fold call in C1, He. destruct (He old so Hc Ho) as (s & E & L & K).
  assert (Hm : clients (registerClient new sv) !! call = Some new) by (rewrite C1; apply lookup_insert_eq). destruct (Hr _ _ Hc) as (so' & Eo & Ko). rewrite Ho in Eo. injection Eo as <-.
  assert (C2 : clients (unregister old (registerClient new sv)) = clients (registerClient new sv)).
  { unfold unregister, callsign_of. rewrite E. simpl. rewrite K, Ko. fold call. rewrite Hm, bool_decide_eq_false_2; [done|congruence]. }
  split; [done|]. split; [by exists s|]. split; [done|]. split; [|split; [done|]].
  - intros other D. rewrite C1. by rewrite lookup_insert_ne, lookup_delete_ne.
  - intros c id. rewrite C2. apply R1.
Qed.

(** ** A broadcast reaches every client once *)

Lemma fold_on_session f ids sv i : NoDup ids ->
  sessions (fold_left (on_session f) ids sv) !! i = if decide (i ∈ ids) then snd <$> (f <$> sessions sv !! i) else sessions sv !! i.
Proof.
  revert sv. induction ids as [|id ids IH]; intros sv Hn; cbn [fold_left]; [by rewrite decide_False by set_solver|].
  apply NoDup_cons in Hn as [Hni Hn]. rewrite (IH _ Hn), on_session_lookup. destruct (decide (i = id)) as [->|D].
  - rewrite decide_False by done. by rewrite decide_True by set_solver.
  - destruct (decide (i ∈ ids)); [by rewrite decide_True by set_solver|by rewrite decide_False by set_solver].
Qed.

(** Everything but the sessions and their drops. *)
Definition rest_of (sv : Server) := (clients sv, sv_limits sv, workerQueues sv, workerBatches sv, batchInterval sv, batchMax sv).

Lemma fold_rest f ids sv : rest_of (fold_left (on_session f) ids sv) = rest_of sv.
Proof.
  revert sv. induction ids as [|id ids IH]; intros sv; simpl; [done|]. rewrite IH. unfold on_session. destruct (sessions sv !! id); [|done]. by destruct (f s) as [[? ?] ?].
Qed.

(** Splitting by residue classes. *)
Lemma split_classes (w : nat) (l : list (nat * Z)) : (0 < w)%nat ->
  concat (map (fun i => List.filter (fun e => (fst e mod w =? i)%nat) l) (seq 0 w)) ≡ₚ l.
Proof.
  intros Hw. induction l as [|e l IH]; simpl.
  - clear Hw. generalize 0%nat. induction w as [|w IH]; intros k; simpl; [done|apply IH].
  - assert (Hr : (fst e mod w < w)%nat) by (apply Nat.mod_upper_bound; lia). set (r := (fst e mod w)%nat) in *.
    assert (Hs : seq 0 w = seq 0 r ++ r :: seq (S r) (w - S r)).
    { replace w with (r + S (w - S r))%nat at 1 by lia. rewrite seq_app. done. }
    assert (Hno : forall ks, ~ In r ks -> map (fun i => if (r =? i)%nat then e :: List.filter (fun e => (fst e mod w =? i)%nat) l else List.filter (fun e => (fst e mod w =? i)%nat) l) ks
                   = map (fun i => List.filter (fun e => (fst e mod w =? i)%nat) l) ks).
    { intros ks Hk. apply map_ext_in. intros i Hi. destruct (Nat.eqb_spec r i); [by subst|done]. }
    rewrite Hs in IH |- *. rewrite !map_app, !concat_app in *. simpl in *. rewrite Nat.eqb_refl.
    rewrite !Hno by (rewrite in_seq; lia). rewrite <- IH at 2. simpl. symmetry. apply Permutation_middle.
Qed.

Lemma deal_permutation workers ids : (0 < workers)%nat -> concat (deal workers ids) ≡ₚ ids.
Proof.
  intros Hw. unfold deal. rewrite <- (map_map _ (map snd)), <- concat_map, split_classes by done.
  assert (H : forall k, map snd (combine (seq k (length ids)) ids) = ids) by (induction ids as [|x ids IH]; intros k; simpl; [done|by rewrite IH]). by rewrite H.
Qed.

Lemma deal_length workers ids : length (deal workers ids) = workers.
Proof. unfold deal. by rewrite length_map, length_seq. Qed.

Section Broadcast.
Variable visit : gmap string Z -> list (string * Z).
(** A map is visited once per entry, in any order. *)
Hypothesis visit_all : forall m, visit m ≡ₚ map_to_list m.
Variables EncodeCell EncodeCoarseCell : string -> Z.
Variables exp_ pow10 : Q -> Q.
Variable predictor : option Predictor.

Notation deliver_to := (deliver_to EncodeCell EncodeCoarseCell exp_ pow10 predictor).
Notation deliverJob := (deliverJob EncodeCell EncodeCoarseCell exp_ pow10 predictor).
Notation worker_take := (worker_take EncodeCell EncodeCoarseCell exp_ pow10 predictor).
Notation worker_flush := (worker_flush EncodeCell EncodeCoarseCell exp_ pow10 predictor).

Lemma all_ids_spec sv id : id ∈ all_ids visit sv <-> exists call, clients sv !! call = Some id.
Proof.
  unfold all_ids. rewrite list_elem_of_fmap. split.
  - intros ([call i] & -> & H). exists call. rewrite visit_all in H. by apply elem_of_map_to_list in H.
  - intros [call H]. exists (call, id). split; [done|]. rewrite visit_all. by apply elem_of_map_to_list.
Qed.

Lemma all_ids_nodup sv : registry_ok sv -> NoDup (all_ids visit sv).
Proof.
  intros Hr. unfold all_ids. rewrite visit_all. apply NoDup_fmap_2_strong; [|apply NoDup_map_to_list].
  intros [c1 i1] [c2 i2] H1 H2 E. simpl in E. subst i2. apply elem_of_map_to_list in H1, H2.
  destruct (Hr _ _ H1) as (s1 & E1 & <-). destruct (Hr _ _ H2) as (s2 & E2 & <-). rewrite E1 in E2. by injection E2 as ->.
Qed.

(** The worker takes what it has and its ticker fires. *)
Definition worker_round (now : Z) (sv : Server) (i : nat) : Server := worker_flush now i (worker_take now i sv).

Definition job_of (p : broadcastPayload) (ids : list Z) : list broadcastJob := if bool_decide (ids = []) then [] else [mkJob p ids].

Lemma deliver_spec now p ids sv i : NoDup ids ->
  sessions (deliverJob now (mkJob p ids) sv) !! i =
  if decide (i ∈ ids) then snd <$> (deliver_to (sv_limits sv) now p <$> sessions sv !! i) else sessions sv !! i.
Proof. intros Hn. unfold TelnetDelivery.deliverJob. by rewrite fold_on_session. Qed.

Lemma deliver_rest now job sv : rest_of (deliverJob now job sv) = rest_of sv.
Proof. unfold TelnetDelivery.deliverJob. by rewrite fold_rest. Qed.

Lemma flush_empty now i sv : workerBatches sv !! i = Some [] -> worker_flush now i sv = with_batches (<[i:=[]]> (workerBatches sv)) sv.
Proof. intros H. unfold TelnetDelivery.worker_flush. by rewrite H. Qed.

(** After the round of worker [i], whose queue had the job of [ids], the sessions of [ids]
    have the spot, and the queues of the others are as before. *)
Lemma round_spec now p ids sv i :
  workerQueues sv !! i = Some (job_of p ids) -> workerBatches sv !! i = Some [] -> NoDup ids ->
  let sv' := worker_round now sv i in
  (forall k, sessions sv' !! k = if decide (k ∈ ids) then snd <$> (deliver_to (sv_limits sv) now p <$> sessions sv !! k) else sessions sv !! k) /\
  sv_limits sv' = sv_limits sv /\ workerBatches sv' = workerBatches sv /\ (forall j, j <> i -> workerQueues sv' !! j = workerQueues sv !! j).
Proof.
  intros Hq Hb Hn. simpl. assert (Hbi : <[i:=[]]> (workerBatches sv) = workerBatches sv) by (by apply list_insert_id).
  unfold worker_round, TelnetDelivery.worker_take. rewrite Hq. unfold job_of. destruct ids as [|x ids].
  - rewrite bool_decide_eq_true_2, flush_empty by done. rewrite Hbi. split; [intros k; by rewrite decide_False by set_solver|done].
  - rewrite bool_decide_eq_false_2 by done. set (sv1 := with_queues _ _ sv). destruct (batchInterval sv1 <=? 0).
    + set (sv2 := deliverJob now _ sv1). assert (R : rest_of sv2 = rest_of sv1) by apply deliver_rest. unfold rest_of in R. simpl in R.
      injection R as R1 R2 R3 R4 R5 R6. rewrite flush_empty by (by rewrite R4). simpl. rewrite R2, R3, R4, Hbi.
      split; [intros k; unfold sv2; rewrite deliver_spec by done; done|]. split; [done|]. split; [done|]. intros j Hj. by rewrite list_lookup_insert_ne.
    + change (workerBatches sv1) with (workerBatches sv). rewrite Hb. simpl app.
      set (sv2 := with_batches _ sv1). assert (Hl2 : workerBatches sv2 !! i = Some [mkJob p (x :: ids)]) by (simpl; apply list_lookup_insert_eq; by apply lookup_lt_Some in Hb).
      assert (F : worker_flush now i sv2 = deliverJob now (mkJob p (x :: ids)) (with_batches (<[i:=[]]> (workerBatches sv2)) sv2)).
      { unfold TelnetDelivery.worker_flush. rewrite Hl2. done. }
      set (sv3 := deliverJob now _ _) in F. assert (R : rest_of sv3 = rest_of (with_batches (<[i:=[]]> (workerBatches sv2)) sv2)) by apply deliver_rest.
      unfold rest_of in R. simpl in R. injection R as R1 R2 R3 R4 R5 R6.
      assert (Hbb : <[i:=[]]> (<[i:=[mkJob p (x :: ids)]]> (workerBatches sv)) = workerBatches sv) by (by rewrite list_insert_insert_eq).
      assert (Hdone : (forall k, sessions sv3 !! k = if decide (k ∈ x :: ids) then snd <$> (deliver_to (sv_limits sv) now p <$> sessions sv !! k) else sessions sv !! k) /\
        sv_limits sv3 = sv_limits sv /\ workerBatches sv3 = workerBatches sv /\ (forall j, j <> i -> workerQueues sv3 !! j = workerQueues sv !! j)).
      { rewrite R2, R3, R4, Hbb. split; [intros k; unfold sv3; rewrite deliver_spec by done; done|]. split; [done|]. split; [done|]. intros j Hj. by rewrite list_lookup_insert_ne. }
      destruct (batchMax sv2 <=? 1) eqn:Em; replace (batchMax sv2 <=? Z.of_nat (length [mkJob p (x :: ids)])) with (batchMax sv2 <=? 1) by done; rewrite Em, F; [|exact Hdone].
      rewrite flush_empty by (rewrite R4, Hbb; done). simpl. destruct Hdone as (D1 & D2 & D3 & D4). rewrite D3, Hbi. done.
Qed.

Lemma rounds_spec now p shards : forall k sv,
  (forall j ids, shards !! j = Some ids -> workerQueues sv !! (k + j)%nat = Some (job_of p ids) /\ workerBatches sv !! (k + j)%nat = Some []) ->
  NoDup (concat shards) -> forall id,
  sessions (fold_left (worker_round now) (seq k (length shards)) sv) !! id =
  if decide (id ∈ concat shards) then snd <$> (deliver_to (sv_limits sv) now p <$> sessions sv !! id) else sessions sv !! id.
Proof.
  induction shards as [|ids shards IH]; intros k sv Hq Hn id; [cbn [length seq fold_left concat]; by rewrite decide_False by set_solver|].
  cbn [length seq fold_left concat] in *. apply NoDup_app in Hn as (Hn1 & Hd & Hn2). destruct (Hq 0%nat ids eq_refl) as [Q0 B0]. rewrite Nat.add_0_r in Q0, B0.
  destruct (round_spec now p ids sv k Q0 B0 Hn1) as (S1 & L1 & B1 & Q1). rewrite (IH (S k)); [|intros j ids' Hj; destruct (Hq (S j) ids' Hj) as [Qj Bj]|done].
  - rewrite L1, S1. destruct (decide (id ∈ ids)) as [Hi|Hi].
    + rewrite decide_False by (by apply Hd). rewrite decide_True by set_solver. done.
    + destruct (decide (id ∈ concat shards)); [by rewrite decide_True by set_solver|by rewrite decide_False by set_solver].
  - replace (S k + j)%nat with (k + S j)%nat by lia. rewrite B1, Q1 by lia. done.
Qed.

Lemma dispatch_spec p shards : forall k sv,
  (forall j, (j < length shards)%nat -> workerQueues sv !! (k + j)%nat = Some []) -> 0 < workerQueueSize sv ->
  let sv' := dispatch_from p k shards sv in
  (forall j ids, shards !! j = Some ids -> workerQueues sv' !! (k + j)%nat = Some (job_of p ids)) /\
  (forall j, (j < k)%nat -> workerQueues sv' !! j = workerQueues sv !! j) /\
  sessions sv' = sessions sv /\ sv_limits sv' = sv_limits sv /\ workerBatches sv' = workerBatches sv.
Proof.
  induction shards as [|ids shards IH]; intros k sv Hq Hs; [done|]. cbn [dispatch_from length] in *.
  assert (Q0 : workerQueues sv !! k = Some []) by (specialize (Hq 0%nat); rewrite Nat.add_0_r in Hq; apply Hq; lia).
  set (sv1 := dispatch_shard p sv k ids).
  assert (D : workerQueues sv1 = <[k := job_of p ids]> (workerQueues sv) /\ workerQueueSize sv1 = workerQueueSize sv /\
              sessions sv1 = sessions sv /\ sv_limits sv1 = sv_limits sv /\ workerBatches sv1 = workerBatches sv).
  { unfold sv1, dispatch_shard, job_of. destruct ids as [|x ids]; [rewrite !bool_decide_eq_true_2 by done; split; [symmetry; by apply list_insert_id|done]|].
    rewrite !bool_decide_eq_false_2, Q0 by done. rewrite (proj2 (Z.ltb_lt _ _)) by (simpl; lia). done. }
  destruct D as (D1 & D2 & D3 & D4 & D5). destruct (IH (S k) sv1) as (I1 & I2 & I3 & I4 & I5).
  - intros j Hj. rewrite D1, list_lookup_insert_ne by lia. replace (S k + j)%nat with (k + S j)%nat by lia. apply Hq. lia.
  - by rewrite D2.
  - cbv zeta. split; [|split; [|split; [|split]]]; [| |congruence..].
    + intros [|j] ids' Hj; simpl in Hj.
      * injection Hj as <-. rewrite Nat.add_0_r, I2, D1 by lia. apply list_lookup_insert_eq. by apply lookup_lt_Some in Q0.
      * specialize (I1 j ids' Hj). by replace (k + S j)%nat with (S k + j)%nat by lia.
    + intros j Hj. rewrite I2 by lia. rewrite D1. apply list_lookup_insert_ne. lia.
Qed.

(** The cached shards, when they are valid, hold the registered sessions. *)
Definition shards_ok (sv : Server) : Prop :=
  shardsDirty sv = false -> clientShards sv <> [] -> concat (clientShards sv) ≡ₚ all_ids visit sv /\ length (clientShards sv) = Z.to_nat (broadcastWorkers sv).

Lemma cached_shards_spec sv : 0 < broadcastWorkers sv -> shards_ok sv ->
  let '(shards, sv') := cachedClientShards visit sv in
  concat shards ≡ₚ all_ids visit sv /\ length shards = Z.to_nat (broadcastWorkers sv) /\ workerQueues sv' = workerQueues sv /\
  workerQueueSize sv' = workerQueueSize sv /\ sessions sv' = sessions sv /\ sv_limits sv' = sv_limits sv /\ workerBatches sv' = workerBatches sv.
Proof.
  intros Hw Hs. unfold cachedClientShards. destruct (shardsDirty sv) eqn:Ed; simpl.
  - rewrite (proj2 (Z.leb_gt (broadcastWorkers sv) 0)) by done. rewrite deal_permutation by lia. rewrite deal_length. done.
  - case_bool_decide as He; simpl; [|destruct (Hs Ed He) as [H1 H2]; done].
    rewrite (proj2 (Z.leb_gt (broadcastWorkers sv) 0)) by done. rewrite deal_permutation by lia. rewrite deal_length. done.
Qed.

(** The workers are idle. *)
Definition idle_workers (sv : Server) : Prop :=
  0 < broadcastWorkers sv /\ 0 < workerQueueSize sv /\
  forall i, (i < Z.to_nat (broadcastWorkers sv))%nat -> workerQueues sv !! i = Some [] /\ workerBatches sv !! i = Some [].

Lemma broadcast_spec now p sv : registry_ok sv -> shards_ok sv -> idle_workers sv -> forall id,
  sessions (fold_left (worker_round now) (seq 0 (Z.to_nat (broadcastWorkers sv))) (broadcastSpot visit p sv)) !! id =
  if decide (id ∈ all_ids visit sv) then snd <$> (deliver_to (sv_limits sv) now p <$> sessions sv !! id) else sessions sv !! id.
Proof.
  intros Hr Hs (Hw & Hqs & Hi) id. pose proof (cached_shards_spec sv Hw Hs) as Hc. unfold broadcastSpot, dispatchSpotToWorkers.
  destruct (cachedClientShards visit sv) as [shards sv1] eqn:E. destruct Hc as (C1 & C2 & C3 & C4 & C5 & C6 & C7).
  destruct (dispatch_spec p shards 0 sv1) as (D1 & _ & D3 & D4 & D5); [intros j Hj; rewrite C3; apply Hi; lia|lia|].
  rewrite <- C2. rewrite (rounds_spec now p).
  - rewrite D3, D4, C5, C6. by rewrite (decide_ext (id ∈ concat shards) (id ∈ all_ids visit sv)) by (by rewrite C1).
  - intros j ids Hj. split; [by apply D1|]. rewrite D5, C7. apply Hi. rewrite <- C2. by apply lookup_lt_Some in Hj.
  - rewrite C1. by apply all_ids_nodup.
Qed.
End Broadcast.

(** A spot handed to the broadcast reaches every connected client exactly once: with the
    workers idle, after it is dealt out and every worker has had its turn, each session in
    the table of clients is what one delivery makes of it -- queued if its policy and
    filter let the spot through -- and every other session is untouched.  This holds with
    and without batching and whether or not the shards were cached. *)
Theorem broadcast_delivers visit EncodeCell EncodeCoarseCell exp_ pow10 predictor now p sv id s :
  (forall m, visit m ≡ₚ map_to_list m) -> registry_ok sv -> shards_ok visit sv -> idle_workers sv -> sessions sv !! id = Some s ->
  let sv' := fold_left (worker_round EncodeCell EncodeCoarseCell exp_ pow10 predictor now) (seq 0 (Z.to_nat (broadcastWorkers sv))) (broadcastSpot visit p sv) in
  ((exists call, clients sv !! call = Some id) -> sessions sv' !! id = Some (deliver_to EncodeCell EncodeCoarseCell exp_ pow10 predictor (sv_limits sv) now p s).2) /\
  (~ (exists call, clients sv !! call = Some id) -> sessions sv' !! id = Some s).
Proof.
  intros Hv Hr Hs Hi E. cbv zeta. rewrite (broadcast_spec visit Hv EncodeCell EncodeCoarseCell exp_ pow10 predictor now p sv Hr Hs Hi), E. simpl.
  split; intros H; [rewrite decide_True|rewrite decide_False]; rewrite ?all_ids_spec; done.
Qed.

(** ** Keepalives *)

Lemma blank_send m s : TrimSpace m = "" -> Send m s = (true, false, s).
Proof. intros H. unfold Send, enqueueControl, blank_message. simpl. by rewrite bool_decide_eq_true_2. Qed.

(** A keepalive reaches nobody: the line it sends is blank, and blank lines are not
    queued, so a tick leaves every session as it was. *)
Theorem keepalive_silent visit sv id : sessions (keepalive_tick visit sv) !! id = sessions sv !! id.
Proof.
  unfold keepalive_tick. generalize (all_ids visit sv). intros ids. revert sv. induction ids as [|i ids IH]; intros sv; [done|].
  cbn [fold_left]. rewrite IH, on_session_lookup. case_decide as D; [|done]. subst. destruct (sessions sv !! i) as [s|] eqn:E; [|done].
  cbn [fmap option_fmap option_map]. by rewrite blank_send.
Qed.

(** ** Drops *)

Definition demo_session : Session := mkSession demo_user [] 2 [] 100 false 0 (newDropWindow (30 * second)) Polling [] [] "".
Definition demo_full : Session := mkSession demo_user [] 2 [] 0 false 0 (newDropWindow (30 * second)) Polling [] [] "".
Definition demo_limits : DropLimits := mkDropLimits (8 # 10) (30 * second) 100.
Definition demo_spot : Spot := sample_spot "K1ABC" "W3LPL" (140250 # 10) 0.

Definition offer (now : Z) (s : Session) : Session := (enqueueSpot demo_limits now demo_spot s).2.

(** Drops older than the window are counted: after ninety drops within the first second and
    more than thirty seconds without any, the tenth spot that is delivered closes the client
    for its rate of drops. *)
Example old_drops_close :
  let start := 1000 * second in
  let s := Nat.iter 90 (offer start) demo_full in
  let room := mkSession (s_user s) (s_control s) (s_controlCap s) (s_spots s) 100 (s_done s) (s_dropCount s) (s_window s) (s_phase s) (s_out s) (s_writes s) (s_reason s) in
  let s9 := Nat.iter 9 (offer (start + 33 * second)) room in
  let s10 := offer (start + 33 * second) s9 in
  s_done s9 = false /\ s_done s10 = true /\ s_reason s10 = "extreme drop rate" /\ length (s_spots s10) = 10%nat.
Proof. vm_compute. repeat split. Qed.

(** ** Witnesses *)

Definition demo_render (u : User) (sp : Spot) : string * User := ("DX", u).
Definition hello : controlMessage := mkControl "hello" None false.

(** A message is queued and written. *)
Definition demo_queued : Session := (enqueueControl hello demo_session).2.
Definition demo_written : Session := handleControl hello (with_control [] demo_queued).


(** A spot was taken by the select as the message came. *)
Definition demo_racing : Session := mkSession demo_user [hello] 2 [demo_spot; demo_spot] 100 false 0 (newDropWindow (30 * second)) Selecting [] [] "".
Definition demo_raced : Session := handleSpot demo_render demo_spot (with_spots [demo_spot] demo_racing).

Lemma message_overtaken_once_witness : length (spots_of (s_out demo_raced)) = 1%nat /\ (length (spots_of (s_out demo_raced)) <= 1)%nat.
Proof.
  split; [reflexivity|]. apply (message_overtaken_once demo_render demo_limits demo_racing demo_raced); [discriminate|].
  apply rtc_once. split; [|reflexivity]. apply act_write. apply select_spot; reflexivity.
Defined.

Definition demo_server : Server :=
  mkServer {[1 := demo_session; 2 := demo_session]} {["S51AA" := 1]} true [] 2 [[]; []] 4 [[]; []] 0 1 [] 8 0 0 demo_limits "Duplicate login, bye" 0.

Lemma demo_registry : registry_ok demo_server.
Proof. intros call id H. change (clients demo_server) with ({["S51AA" := 1]} : gmap string Z) in H. apply lookup_singleton_Some in H as [<- <-]. exists demo_session. split; reflexivity. Qed.

Lemma demo_idle : idle_workers demo_server.
Proof. split; [reflexivity|]. split; [reflexivity|]. intros [|[|i]] Hi; [split; reflexivity..|]. simpl in Hi. lia. Qed.

Lemma demo_shards : shards_ok map_to_list demo_server.
Proof. intros H. discriminate. Qed.

Lemma newer_login_wins_witness :
  clients (unregister 1 (registerClient 2 demo_server)) !! "S51AA" = Some 2 /\ exists s, sessions (registerClient 2 demo_server) !! 1 = Some s /\ leaving s.
Proof.
  destruct (newer_login_wins demo_server 2 1 demo_session demo_session) as (H1 & H2 & H3 & _); [exact demo_registry|reflexivity|reflexivity|discriminate|reflexivity|].
  split; [|exact H2]. rewrite H3. exact H1.
Defined.

Definition demo_payload : broadcastPayload := mkPayload demo_spot true true true.

Lemma broadcast_delivers_witness :
  exists s, sessions (fold_left (worker_round (fun _ => 5) (fun _ => 3) (fun _ => 1%Q) (fun _ => 1%Q) None (1000 * second)) (seq 0 2) (broadcastSpot map_to_list demo_payload demo_server)) !! 1 = Some s /\
    s_spots s = [demo_spot].
Proof.
  destruct (broadcast_delivers map_to_list (fun _ => 5) (fun _ => 3) (fun _ => 1%Q) (fun _ => 1%Q) None (1000 * second) demo_payload demo_server 1 demo_session) as [H _];
    [reflexivity|exact demo_registry|exact demo_shards|exact demo_idle|reflexivity|].
  eexists. split; [apply H; exists "S51AA"; reflexivity|]. vm_compute. reflexivity.
Defined.
