(* ===== verification/TelnetSession.v ===== *)
(** * A telnet session from connection to logout

    [telnet/server.go]: the options of the server and the server made from them, the telnet
    negotiation, and [handleClient]: the login loop, what a login loads and sends, and the
    loop that reads commands and hands each to the first part that knows it.  The reading
    and the queues of the session are those of the other telnet files; a node is the server
    with the user records on disk and the command processor, whose reputation gate is the
    one logins are recorded in.  The clock is a list with the time of each round of a loop:
    a loop that has used it up has not ended. *)

From S2P Require Import Prelude GoText GoNum GoTime Callsign Bands Spot SpotFormat Filter FilterMatch FilterSession UserRecord FilterShow FilterCommands Reputation Commands TelnetInput PathStore TelnetClient TelnetDelivery.
From stdpp Require Import strings list gmap fin_maps.
From Stdlib Require Import Lia ZArith QArith.
Local Open Scope string_scope.
Local Open Scope list_scope.
Local Open Scope Z_scope.

(** ** Options *)

(** The dedupe policies and the noise penalties are [ClientOptions]. *)
Record ServerOptions := mkServerOptions {
  WelcomeMessage : string; DuplicateLoginMsg : string; LoginGreeting : string; LoginPrompt : string; LoginEmptyMessage : string;
  LoginInvalidMessage : string; InputTooLongMessage : string; InputInvalidCharMessage : string; DialectWelcomeMessage : string;
  DialectSourceDefault : string; DialectSourcePersisted : string; PathStatusMessage : string; ClusterCall : string; MaxConnections : Z;
  BroadcastWorkers : Z; BroadcastQueue : Z; WorkerQueue : Z; ClientBuffer : Z; ControlQueue : Z; BroadcastBatchInterval : Z;
  KeepaliveSeconds : Z; SkipHandshake : bool; Transport : string; EchoMode : string; ReadIdleTimeout : Z; LoginTimeout : Z;
  LoginLineLimit : Z; CommandLineLimit : Z; DropExtremeRate : Q; DropExtremeWindow : Z; DropExtremeMinAttempts : Z;
  PathPredictor : option Predictor; PathDisplayEnabled : bool; ClientOptions : Options; NearbyLoginWarning : string }.

Definition defaultBroadcastBatch : Z := 512.

Definition nearbyLoginWarningMsg : string := "NEARBY filter is ON. Disable NEARBY if you want to use regular location filters".

(** The processors of the machine. *)
Definition defaultBroadcastWorkers (cpus : Z) : Z := if cpus <? 4 then 4 else cpus.

Definition text_or (s d : string) : string := if bool_decide (TrimSpace s = "") then d else s.

(** Rates of zero and below, and above one. *)
Definition rate_or (r d : Q) : Q := if Qle_b r 0 then d else if Qlt_b 1 r then d else r.

Definition normalizeServerOptions (cpus : Z) (o : ServerOptions) : ServerOptions :=
  mkServerOptions (WelcomeMessage o) (DuplicateLoginMsg o) (LoginGreeting o) (LoginPrompt o) (LoginEmptyMessage o)
    (LoginInvalidMessage o) (InputTooLongMessage o) (InputInvalidCharMessage o) (DialectWelcomeMessage o)
    (DialectSourceDefault o) (DialectSourcePersisted o) (PathStatusMessage o) (text_or (ClusterCall o) "DXC") (MaxConnections o)
    (positive_else (BroadcastWorkers o) (defaultBroadcastWorkers cpus)) (positive_else (BroadcastQueue o) 2048) (positive_else (WorkerQueue o) 128)
    (positive_else (ClientBuffer o) 128) (positive_else (ControlQueue o) 32) (positive_else (BroadcastBatchInterval o) (250 * millisecond))
    (KeepaliveSeconds o) (SkipHandshake o) (lower_trim (text_or (Transport o) "native")) (lower_trim (text_or (EchoMode o) "server"))
    (positive_else (ReadIdleTimeout o) (24 * hour)) (positive_else (LoginTimeout o) (2 * minute))
    (positive_else (LoginLineLimit o) 32) (positive_else (CommandLineLimit o) defaultCommandLineLimit) (rate_or (DropExtremeRate o) (fl64 (80 # 100)))
    (positive_else (DropExtremeWindow o) (30 * second)) (positive_else (DropExtremeMinAttempts o) 100)
    (PathPredictor o) (match PathPredictor o with None => false | Some _ => PathDisplayEnabled o end) (ClientOptions o)
    (text_or (NearbyLoginWarning o) nearbyLoginWarningMsg).

(** The server of normalised options, with its workers started. *)
Definition NewServer (cpus : Z) (opts : ServerOptions) : Server :=
  let o := normalizeServerOptions cpus opts in
  let n := Z.to_nat (BroadcastWorkers o) in
  mkServer ∅ ∅ false [] (BroadcastWorkers o) (replicate n []) (WorkerQueue o) (replicate n []) (BroadcastBatchInterval o) defaultBroadcastBatch
    [] (BroadcastQueue o) 0 0 (mkDropLimits (DropExtremeRate o) (DropExtremeWindow o) (DropExtremeMinAttempts o)) (DuplicateLoginMsg o) (MaxConnections o).

(** ** Negotiation *)

Definition sendTelnetOption (command option_ : Z) : string := String (byte_of IAC) (String (byte_of command) (String (byte_of option_) "")).

(** The bytes written before anything else. *)
Definition negotiateTelnet (o : ServerOptions) : string :=
  if SkipHandshake o then ""
  else
    sendTelnetOption WILL 3 +:+ sendTelnetOption DO 3 +:+
    (if bool_decide (EchoMode o = "local") then sendTelnetOption WONT 1
     else if bool_decide (EchoMode o = "off") then sendTelnetOption WONT 1 +:+ sendTelnetOption DONT 1
     else sendTelnetOption WILL 1 +:+ sendTelnetOption DONT 1).

(** ** Nodes and connections *)

Section Node.
Context {bytes : Type}.

Record Node := mkNode { nd_server : Server; nd_disk : Disk bytes; nd_proc : Processor }.

Definition with_server (sv : Server) (nd : Node) : Node := mkNode sv (nd_disk nd) (nd_proc nd).
Definition with_disk (k : Disk bytes) (nd : Node) : Node := mkNode (nd_server nd) k (nd_proc nd).
Definition with_proc (p : Processor) (nd : Node) : Node := mkNode (nd_server nd) (nd_disk nd) p.

(** A message to the session of the connection. *)
Definition reply (id : Z) (msg : string) (nd : Node) : Node := with_server (on_session (Send msg) (nd_server nd) id) nd.
Definition reply_unless_blank (id : Z) (msg : string) (nd : Node) : Node := if bool_decide (TrimSpace msg = "") then nd else reply id msg nd.
Definition reply_unless_empty (id : Z) (msg : string) (nd : Node) : Node := if bool_decide (msg = "") then nd else reply id msg nd.

Definition close_connection (reason : string) (id : Z) (nd : Node) : Node := with_server (on_session (close_session reason) (nd_server nd) id) nd.

Definition set_user (u : User) (s : Session) : bool * bool * Session := (true, false, with_user u s).
Definition put_user (id : Z) (u : User) (nd : Node) : Node := with_server (on_session (set_user u) (nd_server nd) id) nd.

(** The client of a connection as it is made. *)
Definition new_user (d : Defaults) (o : ServerOptions) : User :=
  mkUser "" (mkClient (NewFilter d) DialectGo "" InvalidCell InvalidCell (match PathPredictor o with None => false | Some p => cfg_Enabled (pr_cfg p) end))
    false "QUIET" 0 dedupePolicyFast false 0 zero_time [].

Definition new_session (d : Defaults) (o : ServerOptions) : Session :=
  mkSession (new_user d o) [] (positive_else (ControlQueue o) 32) [] (positive_else (ClientBuffer o) 128) false 0 (newDropWindow (DropExtremeWindow o)) Polling [] [] "".

(** The terminal after the negotiation; [l] is what will arrive. *)
Definition new_terminal (o : ServerOptions) (l : list input) : Term := mkTerm l false (bool_decide (EchoMode o = "server")) (negotiateTelnet o) [].

(** ** Messages before and after the login *)

Section Login.
Variable Marshal : UserRecord -> option bytes.
Variable Unmarshal : bytes -> option UserRecord.
Variable error_text : error -> string.
Variables EncodeCell EncodeCoarseCell : string -> Z.
Variable d : Defaults.
(** The grid known for a call, and whether it comes from its prefix. *)
Variable gridLookup : option (string -> option (string * bool)).
(** The normalised options, and when the server was made. *)
Variable o : ServerOptions.
Variable startTime : Z.

Definition preLoginTemplateData (now : Z) (sv : Server) : templateData :=
  mkTemplateData now startTime (GetClientCount sv) "" (ClusterCall o) zero_time "" "GO" (DialectSourceDefault o) "GO" "MED" "" "".

(** [clock] is the time of the call, [now] that of the connection. *)
Definition sendPreLoginMessage (id : Z) (template : string) (clock now : Z) (nd : Node) : Node :=
  reply_unless_blank id (applyTemplateTokens clock template (preLoginTemplateData now (nd_server nd))) nd.

Definition or_unset (s : string) : string := if bool_decide (s = "") then "unset" else s.

Definition postLoginTemplateData (now : Z) (u : User) (prevLogin : Z) (prevIP dialectSource dialectDefault : string) (sv : Server) : templateData :=
  mkTemplateData now startTime (GetClientCount sv) (u_callsign u) (ClusterCall o) prevLogin prevIP
    (ToUpper (dialect_string (c_dialect (u_client u)))) dialectSource dialectDefault (policy_label (u_policy u))
    (or_unset (displayGrid (c_grid (u_client u)) (u_gridDerived u))) (TrimSpace (u_noiseClass u)).

(** ** The login *)

(** What reading the callsign comes to. *)
Inductive login_result := AskAgain (nd : Node) (t : Term) | NoLogin (nd : Node) | Callsign_ (call : string) (nd : Node) (t : Term).

Definition login_chars : allowances := mkAllow false false false false.

(** A round of the login loop. *)
Definition login_round (id clock now : Z) (nd : Node) (t : Term) : login_result :=
  let ask msg nd t := AskAgain (sendPreLoginMessage id (LoginPrompt o) clock now (sendPreLoginMessage id msg clock now nd)) t in
  match ReadLine (LoginLineLimit o) "login" login_chars t with
  | (inr (Invalid e), t) =>
      AskAgain (sendPreLoginMessage id (LoginPrompt o) clock now
        (reply_unless_blank id (formatInputValidationMessage (InputTooLongMessage o) (InputInvalidCharMessage o) e) nd)) t
  | (inr _, _) => NoLogin nd
  | (inl line, t) =>
      let line := upper_trim line in
      if bool_decide (line = "") then ask (LoginEmptyMessage o) nd t
      else
        let normalized := normalize_call line in
        if IsValidNormalizedCallsign normalized then Callsign_ normalized nd t else ask (LoginInvalidMessage o) nd t
  end.

Inductive login_end := LoginUnread (nd : Node) (t : Term) | LoginOver (nd : Node) | LoggedIn (call : string) (nd : Node) (t : Term).

Fixpoint login_loop (clocks : list Z) (id now : Z) (nd : Node) (t : Term) : login_end :=
  match clocks with
  | [] => LoginUnread nd t
  | clock :: clocks =>
      match login_round id clock now nd t with
      | AskAgain nd t => login_loop clocks id now nd t
      | NoLogin nd => LoginOver nd
      | Callsign_ call nd t => LoggedIn call nd t
      end
  end.

Definition with_call (call : string) (u : User) : User :=
  mkUser call (u_client u) (u_gridDerived u) (u_noiseClass u) (u_noisePenalty u) (u_policy u) (u_diag u) (u_solarMinutes u) (u_solarNext u) (u_recentIPs u).

(** The client as its record says. *)
Definition user_of_record (now : Z) (r : UserRecord) (u : User) : User :=
  let grid := upper_trim (ur_Grid r) in
  let noise := upper_trim (NoiseClass r) in
  let c := mkClient (ur_Filter r) (normalizeDialectName (Dialect r)) grid (EncodeCell grid) (EncodeCoarseCell grid) (c_pathEnabled (u_client u)) in
  setSolarSummaryMinutes (SolarSummaryMinutes r) now
    (mkUser (u_callsign u) c false noise (noisePenaltyForClass (ClientOptions o) noise)
       (resolveDedupePolicy (ClientOptions o) (parseDedupePolicy (DedupePolicy r))) (u_diag u) (u_solarMinutes u) (u_solarNext u) (RecentIPs r)).

(** The client whose record cannot be loaded. *)
Definition user_without_record (ip : string) (u : User) : User :=
  let c := mkClient (NewFilter d) DialectGo (c_grid (u_client u)) InvalidCell InvalidCell (c_pathEnabled (u_client u)) in
  mkUser (u_callsign u) c false "QUIET" (noisePenaltyForClass (ClientOptions o) "QUIET") (resolveDedupePolicy (ClientOptions o) dedupePolicyMed)
    (u_diag u) (u_solarMinutes u) (u_solarNext u) (UpdateRecentIPs [] ip).

(** A grid from the lookup when none is stored. *)
Definition seed_grid (u : User) : User :=
  if negb (bool_decide (TrimSpace (c_grid (u_client u)) = "")) then u
  else
    match gridLookup with
    | None => u
    | Some lookup =>
        match lookup (u_callsign u) with
        | None => u
        | Some (g, derived) =>
            let grid := upper_trim g in
            let c := u_client u in
            set_location (mkClient (c_filter c) (c_dialect c) grid (EncodeCell grid) (EncodeCoarseCell grid) (c_pathEnabled c)) derived u
        end
    end.

Definition default_noise_class (u : User) : User :=
  if bool_decide (TrimSpace (u_noiseClass u) = "") then set_noise "QUIET" (noisePenaltyForClass (ClientOptions o) "QUIET") u else u.

(** The client with its record, whether the record was made and whether there was no error,
    the login before, and the disk. *)
Definition load_user (call ip : string) (now : Z) (u : User) (k : Disk bytes) : User * bool * bool * Z * string * Disk bytes :=
  let u := with_call call u in
  match TouchUserRecordLogin Marshal Unmarshal d k call ip now with
  | (inr (r, created, prevLogin, prevIP), k) => (user_of_record now r u, created, true, prevLogin, prevIP, k)
  | (inl (_, created), k) =>
      let u := user_without_record ip u in
      (u, created, false, zero_time, "", (saveFilter Marshal Unmarshal k u).2)
  end.

(** The client a login makes, the warning about NEARBY, and the rest of [load_user]. *)
Definition login_user (call ip : string) (now : Z) (u : User) (k : Disk bytes) : User * string * bool * bool * Z * string * Disk bytes :=
  let '(u, created, loaded, prevLogin, prevIP, k) := load_user call ip now u k in
  let '(warning, changed, u) := applyNearbyLoginState EncodeCell EncodeCoarseCell (normalizeWarningLine (NearbyLoginWarning o)) (default_noise_class (seed_grid u)) in
  (u, warning, created, loaded, prevLogin, prevIP, if changed then (saveFilter Marshal Unmarshal k u).2 else k).

Definition greeting_text (clock now : Z) (u : User) (warning : string) (prevLogin : Z) (prevIP source : string) (sv : Server) : string :=
  let greeting := formatGreeting clock (LoginGreeting o) (postLoginTemplateData now u prevLogin prevIP source "GO" sv) in
  if bool_decide (TrimSpace warning = "") then greeting
  else if bool_decide (TrimSpace greeting = "") then warning
  else with_nl greeting +:+ warning.

(** What a login sends. *)
Definition greet (id clock now : Z) (u : User) (warning : string) (created loaded : bool) (prevLogin : Z) (prevIP : string) (nd : Node) : Node :=
  let source := dialectSourceLabel (DialectSourceDefault o) (DialectSourcePersisted o) (c_dialect (u_client u)) created loaded DialectGo in
  let nd := reply_unless_blank id (greeting_text clock now u warning prevLogin prevIP source (nd_server nd)) nd in
  let nd := reply_unless_blank id (formatDialectWelcome (DialectWelcomeMessage o) (mkDialectData (ToUpper (dialect_string (c_dialect (u_client u)))) source "GO")) nd in
  match PathPredictor o with
  | Some _ => if PathDisplayEnabled o then reply_unless_blank id (formatPathStatusMessage (PathStatusMessage o) u) nd else nd
  | None => nd
  end.

(** [gate_login] is [RecordLogin] of the reputation gate at that time. *)
Definition login (gate_login : Gate -> string -> string -> Gate) (id clock now : Z) (call ip : string) (nd : Node) : Node :=
  match sessions (nd_server nd) !! id with
  | None => nd
  | Some s =>
      let p := nd_proc nd in
      let nd := with_proc (match pr_gate p with Some g => with_gate (gate_login g call ip) p | None => p end) nd in
      let '(u, warning, created, loaded, prevLogin, prevIP, k) := login_user call ip now (s_user s) (nd_disk nd) in
      let nd := put_user id u (with_disk k nd) in
      let nd := with_server (registerClient id (nd_server nd)) nd in
      greet id clock now u warning created loaded prevLogin prevIP nd
  end.

(** ** Commands *)

Variable adifs : list Z.
Variables exp_ pow10 : Q -> Q.
Variable parse_addr : string -> option ipaddr.
Variable layout : dxClusterLayout.

(** The handlers asked before the filter commands, in their order. *)
Definition settings_commands (clock : Z) (line : string) : list (User -> Disk bytes -> outcome (bytes := bytes)) :=
  [handleDialectCommand Marshal Unmarshal line;
   handlePathSettingsCommand Marshal Unmarshal error_text (ClientOptions o) EncodeCell EncodeCoarseCell line;
   handleDedupeCommand Marshal Unmarshal error_text (ClientOptions o) line;
   handleDiagCommand line;
   handleSolarCommand Marshal Unmarshal error_text line clock].

(** The filter command, saved when it is a change. *)
Definition filter_command (line : string) (u : User) (k : Disk bytes) : outcome (bytes := bytes) :=
  let '(resp, handled, mutated, c) := FilterCommands.Handle EncodeCell EncodeCoarseCell d adifs (u_client u) line in
  let u := set_client c u in
  if handled then (Some resp, u, if mutated then (saveFilter Marshal Unmarshal k u).2 else k) else (None, u, k).

(** The first that knows the line. *)
Fixpoint first_handled (l : list (User -> Disk bytes -> outcome (bytes := bytes))) (u : User) (k : Disk bytes) : outcome (bytes := bytes) :=
  match l with
  | [] => pass_on u k
  | h :: l => match h u k with
              | (Some resp, u, k) => (Some resp, u, k)
              | (None, u, k) => first_handled l u k
              end
  end.

Definition client_command (clock : Z) (line : string) (u : User) (k : Disk bytes) : outcome (bytes := bytes) :=
  first_handled (settings_commands clock line ++ [filter_command line]) u k.

(** What SHOW MYDX lists: the spots of the user and those the filter lets through.  The cell
    that a path filter fills in is filled in again, to the same, at its next use. *)
Definition history_filter (clock : Z) (u : User) (sp : Spot) : bool :=
  EqualFold (DXCall sp) (u_callsign u) || (filter_matches EncodeCell EncodeCoarseCell exp_ pow10 (PathPredictor o) clock u sp).1.

(** A line read from the client: the node, and whether the session goes on; [None] where the
    frequency of a DX command is no number. *)
Definition run_line (id clock : Z) (ip line : string) (nd : Node) : option (Node * bool) :=
  if bool_decide (TrimSpace line = "") then Some (reply id line_end nd, true)
  else
    match sessions (nd_server nd) !! id with
    | None => Some (nd, true)
    | Some s =>
        match client_command clock line (s_user s) (nd_disk nd) with
        | (Some resp, u, k) => Some (reply_unless_empty id resp (put_user id u (with_disk k nd)), true)
        | (None, u, k) =>
            let nd := put_user id u (with_disk k nd) in
            match ProcessCommandForClient parse_addr layout line (u_callsign u) ip (Some (history_filter clock u)) (dialect_string (c_dialect (u_client u))) clock (nd_proc nd) with
            | None => None
            | Some (resp, p) =>
                let nd := with_proc p nd in
                if bool_decide (resp = "BYE") then Some (with_server (on_session (SendAndClose ("73!" +:+ nl)) (nd_server nd) id) nd, false)
                else Some (reply_unless_empty id resp nd, true)
            end
        end
    end.

(** The two deferred calls of a session: it is closed unless it said goodbye, and it leaves
    the table and saves its record when it had logged in. *)
Definition leave (closing registered : bool) (id : Z) (nd : Node) : Node :=
  let nd := if closing then close_connection "" id nd else nd in
  if registered then let '(sv, k) := unregisterClient Marshal Unmarshal id (nd_server nd) (nd_disk nd) in mkNode sv k (nd_proc nd) else nd.

(** A round of the command loop: the node, the terminal, and whether the session goes on. *)
Definition command_round (id clock : Z) (ip : string) (nd : Node) (t : Term) : option (Node * Term * bool) :=
  match ReadLine (CommandLineLimit o) "command" command_chars t with
  | (inr TimedOut, t) => Some (nd, t, true)
  | (inr (Invalid e), t) => Some (reply_unless_blank id (formatInputValidationMessage (InputTooLongMessage o) (InputInvalidCharMessage o) e) nd, t, true)
  | (inr _, t) => Some (leave true true id nd, t, false)
  | (inl line, t) =>
      match run_line id clock ip line nd with
      | None => None
      | Some (nd, true) => Some (nd, t, true)
      | Some (nd, false) => Some (leave false true id nd, t, false)
      end
  end.

Inductive session_end := Ended (nd : Node) | Unread (nd : Node) (t : Term) | Beyond.

Fixpoint command_loop (clocks : list Z) (id : Z) (ip : string) (nd : Node) (t : Term) : session_end :=
  match clocks with
  | [] => Unread nd t
  | clock :: clocks =>
      match command_round id clock ip nd t with
      | None => Beyond
      | Some (nd, t, true) => command_loop clocks id ip nd t
      | Some (nd, _, false) => Ended nd
      end
  end.

(** [handleClient]: the connection [id], on which [l] arrives; [logins] and [clocks] are the
    times of the rounds of the two loops. *)
Definition handleClient (gate_login : Gate -> string -> string -> Gate) (logins clocks : list Z) (id now clock : Z) (ip : string) (l : list input) (nd : Node) : session_end :=
  let sv := nd_server nd in
  let nd := with_server (with_sessions (<[id := new_session d o]> (sessions sv)) (clientDrops sv) sv) nd in
  let nd := sendPreLoginMessage id (LoginPrompt o) clock now (sendPreLoginMessage id (WelcomeMessage o) clock now nd) in
  match login_loop logins id now nd (new_terminal o l) with
  | LoginUnread nd t => Unread nd t
  | LoginOver nd => Ended (leave true false id nd)
  | LoggedIn call nd t => command_loop clocks id ip (login gate_login id clock now call ip nd) t
  end.
End Login.
End Node.
Arguments Node : clear implicits.
Arguments session_end : clear implicits.
Arguments login_end : clear implicits.
Arguments login_result : clear implicits.

(** ** Every read takes something *)

Lemma iac_error l e l' : consumeIACSequence l = (Some e, l') -> e = EOF \/ (length l' <= length l)%nat.
Proof. intros H. right. pose proof (iac_shrinks l) as Hs. rewrite H in Hs. exact Hs. Qed.

Lemma round_takes maxLen context a line t x t' :
  read_round maxLen context a line t = (x, t') -> x = Return (inr EOF) \/ (length (t_in t') < length (t_in t))%nat.
Proof.
  unfold read_round. destruct (t_in t) as [|[b|] l]; [intros [= <- _]; by left| |intros [= _ <-]; right; simpl; lia].
  destruct (_ && _); [intros [= _ <-]; right; simpl; lia|].
  destruct (_ =? IAC). { pose proof (iac_shrinks l) as Hs. destruct (consumeIACSequence l) as [[e|] l'] eqn:E; intros [= _ <-]; right; simpl in *; lia. }
  destruct (_ =? 10). { intros H. right. apply (f_equal (fun x => t_in x.2)) in H. rewrite or_failed_in, echo_in in H. simpl in *. rewrite <- H. lia. }
  destruct (_ =? 13). { intros H. right. destruct (echo line_end _) as [ok t2] eqn:E. apply (f_equal (fun x => t_in x.2)) in E. rewrite echo_in in E. simpl in E.
    destruct ok; injection H as _ <-; simpl; rewrite <- E; lia. }
  intros H. right. apply (f_equal (fun x => t_in x.2)) in H. rewrite type_byte_in in H. simpl in *. rewrite <- H. lia.
Qed.

Lemma read_takes maxLen context a t r t' : ReadLine maxLen context a t = (r, t') -> r = inr EOF \/ (length (t_in t') < length (t_in t))%nat.
Proof.
  unfold ReadLine. intros H. change (read_from (line_limit maxLen) (if bool_decide (context = "") then "command" else context) a "" t = (r, t')) in H.
  revert H. generalize (if bool_decide (context = "") then "command" else context). intros ctx.
  pose (P := fun (line : string) (t : Term) (res : (string + read_error) * Term) => res.1 = inr EOF \/ (length (t_in res.2) < length (t_in t))%nat).
  assert (H : P "" t (read_from (line_limit maxLen) ctx a "" t)).
  { apply read_from_ind; unfold P; simpl.
    - intros line t0 r0 t1 E. apply round_takes in E as [[= ->]|E]; auto.
    - intros line t0 line' t1 res E [?|?]; [by left|]. apply round_shrinks in E. right. lia. }
  intros E. unfold P in H. rewrite E in H. exact H.
Qed.

(** ** One session and the others *)

(** The other sessions and the table are as before, and the session keeps its callsign. *)
Definition stays_home (id : Z) (sv sv' : Server) : Prop :=
  (forall j, j <> id -> sessions sv' !! j = sessions sv !! j) /\ clients sv' = clients sv /\
  (forall s, sessions sv !! id = Some s -> exists s', sessions sv' !! id = Some s' /\ u_callsign (s_user s') = u_callsign (s_user s)).

Lemma home_refl id sv : stays_home id sv sv.
Proof. split; [done|]. split; [done|]. eauto. Qed.

Lemma home_trans id sv1 sv2 sv3 : stays_home id sv1 sv2 -> stays_home id sv2 sv3 -> stays_home id sv1 sv3.
Proof.
  intros (A1 & A2 & A3) (B1 & B2 & B3). split; [|split; [congruence|]].
  - intros j Hj. by rewrite B1, A1.
  - intros s Hs. destruct (A3 s Hs) as (s' & Hs' & E). destruct (B3 s' Hs') as (s'' & Hs'' & E'). exists s''. split; [done|congruence].
Qed.

Lemma home_on f id sv : (forall s, sessions sv !! id = Some s -> u_callsign (s_user (f s).2) = u_callsign (s_user s)) -> stays_home id sv (on_session f sv id).
Proof.
  intros Hf. split; [|split; [apply on_session_clients|]].
  - intros j Hj. rewrite on_session_lookup. by rewrite decide_False.
  - intros s Hs. rewrite on_session_lookup, decide_True, Hs by done. simpl. eexists. split; [done|by apply Hf].
Qed.

(** As [stays_home], but the session may leave the table. *)
Definition leaves_alone (id : Z) (sv sv' : Server) : Prop :=
  (forall j, j <> id -> sessions sv' !! j = sessions sv !! j) /\
  (forall call j, j <> id -> clients sv' !! call = Some j <-> clients sv !! call = Some j) /\ (registry_ok sv -> registry_ok sv').

Lemma home_alone id sv sv' : stays_home id sv sv' -> leaves_alone id sv sv'.
Proof.
  intros (H1 & H2 & H3). split; [done|]. split; [by rewrite H2|]. intros Hr call j. rewrite H2. intros Hc. destruct (Hr call j Hc) as (s & Hs & E).
  destruct (decide (j = id)) as [->|Hj]; [destruct (H3 s Hs) as (s' & Hs' & E'); exists s'; split; [done|congruence]|exists s; by rewrite H1].
Qed.

Lemma alone_trans id sv1 sv2 sv3 : leaves_alone id sv1 sv2 -> leaves_alone id sv2 sv3 -> leaves_alone id sv1 sv3.
Proof.
  intros (A1 & A2 & A3) (B1 & B2 & B3). split; [|split; [|by auto]].
  - intros j Hj. by rewrite B1, A1.
  - intros call j Hj. by rewrite B2, A2.
Qed.

Lemma unregister_alone id sv : leaves_alone id sv (unregister id sv).
Proof.
  unfold unregister. case_bool_decide as Hc; simpl.
  - split; [done|]. split.
    + intros call j Hj. simpl. rewrite lookup_delete_Some. split; [tauto|]. intros H. split; [|done]. intros <-. rewrite Hc in H. congruence.
    + intros Hr call j H. simpl in *. rewrite lookup_delete_Some in H. destruct H as [_ H]. by apply Hr.
  - split; [done|]. split; [done|]. intros Hr call j H. by apply Hr.
Qed.

Section Session.
Context {bytes : Type}.
Variable Marshal : UserRecord -> option bytes.
Variable Unmarshal : bytes -> option UserRecord.
Variable error_text : error -> string.
Variables EncodeCell EncodeCoarseCell : string -> Z.
Variable d : Defaults.
Variable gridLookup : option (string -> option (string * bool)).
Variable o : ServerOptions.
Variable startTime : Z.
Variable adifs : list Z.
Variables exp_ pow10 : Q -> Q.
Variable parse_addr : string -> option ipaddr.
Variable layout : dxClusterLayout.

Notation login_round := (login_round (bytes := bytes) o startTime).
Notation login_loop := (login_loop (bytes := bytes) o startTime).
Notation login := (login (bytes := bytes) Marshal Unmarshal EncodeCell EncodeCoarseCell d gridLookup o startTime).
Notation client_command := (client_command Marshal Unmarshal error_text EncodeCell EncodeCoarseCell d o adifs).
Notation run_line := (run_line Marshal Unmarshal error_text EncodeCell EncodeCoarseCell d o adifs exp_ pow10 parse_addr layout).
Notation command_round := (command_round Marshal Unmarshal error_text EncodeCell EncodeCoarseCell d o adifs exp_ pow10 parse_addr layout).
Notation command_loop := (command_loop Marshal Unmarshal error_text EncodeCell EncodeCoarseCell d o adifs exp_ pow10 parse_addr layout).
Notation leave := (leave Marshal Unmarshal).
Notation handleClient := (handleClient Marshal Unmarshal error_text EncodeCell EncodeCoarseCell d gridLookup o startTime adifs exp_ pow10 parse_addr layout).

(** ** Sessions end *)

Lemma login_takes id clock now nd t nd' t' : login_round id clock now nd t = AskAgain nd' t' -> (length (t_in t') < length (t_in t))%nat.
Proof.
  unfold TelnetSession.login_round. destruct (ReadLine _ _ _ t) as [r t1] eqn:E. apply read_takes in E as [-> |E]; [done|].
  destruct r as [line|[| | |e]]; try done; [|by intros [= _ <-]].
  case_bool_decide; [by intros [= _ <-]|]. destruct (IsValidNormalizedCallsign _); [done|by intros [= _ <-]].
Qed.

Lemma login_loop_ends clocks id now nd t : (length (t_in t) < length clocks)%nat ->
  match login_loop clocks id now nd t with LoginUnread _ _ => False | LoggedIn _ _ t' => (length (t_in t') < length (t_in t))%nat | LoginOver _ => True end.
Proof.
  revert nd t. induction clocks as [|clock clocks IH]; intros nd t Hlen; [simpl in Hlen; lia|]. cbn [TelnetSession.login_loop].
  destruct (login_round id clock now nd t) as [nd' t'|nd'|call nd' t'] eqn:E; [|done|].
  - apply login_takes in E. specialize (IH nd' t'). simpl in Hlen. specialize (IH ltac:(lia)). destruct (login_loop clocks id now nd' t'); [done|done|lia].
  - revert E. unfold TelnetSession.login_round. destruct (ReadLine _ _ _ t) as [r t1] eqn:E. apply read_takes in E as [-> |E]; [done|].
    destruct r as [line|[| | |e]]; try done. case_bool_decide; [done|]. destruct (IsValidNormalizedCallsign _); [by intros [= _ _ <-]|done].
Qed.

Lemma command_takes id clock ip nd t nd' t' : command_round id clock ip nd t = Some (nd', t', true) -> (length (t_in t') < length (t_in t))%nat.
Proof.
  unfold TelnetSession.command_round. destruct (ReadLine _ _ _ t) as [r t1] eqn:E. apply read_takes in E as [-> |E]; [done|].
  destruct r as [line|[| | |e]]; try done; [|by intros [= _ <-]..]. destruct (run_line id clock ip line nd) as [[nd1 [|]]|]; [by intros [= _ <-]|done..].
Qed.

Lemma command_loop_ends clocks id ip nd t : (length (t_in t) < length clocks)%nat ->
  match command_loop clocks id ip nd t with Unread _ _ => False | _ => True end.
Proof.
  revert nd t. induction clocks as [|clock clocks IH]; intros nd t Hlen; [simpl in Hlen; lia|]. cbn [TelnetSession.command_loop].
  destruct (command_round id clock ip nd t) as [[[nd' t'] [|]]|] eqn:E; [|done..]. apply command_takes in E. apply IH. simpl in Hlen. lia.
Qed.

Lemma session_over gate_login logins clocks id now clock ip l nd :
  (length l < length logins)%nat -> (length l < length clocks)%nat ->
  match handleClient gate_login logins clocks id now clock ip l nd with Unread _ _ => False | _ => True end.
Proof.
  intros H1 H2. unfold TelnetSession.handleClient.
  match goal with |- context [login_loop ?c ?i ?n ?nd ?t] => pose proof (login_loop_ends c i n nd t H1) as H; destruct (login_loop c i n nd t) as [nd' t'|nd'|call nd' t'] end; [done|done|].
  apply command_loop_ends. simpl in H. lia.
Qed.

(** ** What a command can touch *)

(** The settings of the client with its callsign, and the disk elsewhere. *)
Definition own_outcome (u : User) (k : Disk bytes) (res : outcome (bytes := bytes)) : Prop := u_callsign res.1.2 = u_callsign u.

Lemma answer_saved_own good bad u u' k : u_callsign u' = u_callsign u -> own_outcome u k (answer_saved Marshal Unmarshal error_text good bad u' k).
Proof. intros H. unfold answer_saved, own_outcome. by destruct (saveFilter _ _ _ _). Qed.

Lemma set_grid_own args u k : own_outcome u k (set_grid_command Marshal Unmarshal error_text EncodeCell EncodeCoarseCell args u k).
Proof. unfold set_grid_command. destruct args; [done|]. destruct (_ <? _); [done|]. destruct (_ =? _); [done|]. by apply answer_saved_own. Qed.

Lemma set_noise_own args u k : own_outcome u k (set_noise_command Marshal Unmarshal error_text (ClientOptions o) args u k).
Proof. unfold set_noise_command. destruct args; [done|]. destruct (_ || _); [done|]. by apply answer_saved_own. Qed.

Lemma set_dedupe_own args u k : own_outcome u k (set_dedupe_command Marshal Unmarshal error_text (ClientOptions o) args u k).
Proof.
  unfold set_dedupe_command. destruct args; [done|]. destruct (parseDedupePolicyToken _); [|done]. cbv zeta.
  destruct (secondary_off _); [by apply answer_saved_own|]. case_bool_decide; by apply answer_saved_own.
Qed.

Lemma solar_keeps_call minutes now u : u_callsign (setSolarSummaryMinutes minutes now u) = u_callsign u.
Proof. unfold setSolarSummaryMinutes. by repeat case_match. Qed.

Lemma settings_own clock line h u k : In h (settings_commands Marshal Unmarshal error_text EncodeCell EncodeCoarseCell o clock line) -> own_outcome u k (h u k).
Proof.
  unfold settings_commands. intros [<-|[<-|[<-|[<-|[<-|[]]]]]].
  - unfold handleDialectCommand. destruct (Fields _) as [|f0 rest]; [done|]. destruct (negb _); [done|]. destruct rest as [|name more]; [done|].
    destruct (_ && _); [done|]. destruct (FilterCommands.assoc _ _); [|done]. by case_bool_decide.
  - unfold handlePathSettingsCommand. destruct (upper_fields line) as [|w0 [|w1 args]]; [done..|]. destruct (negb _); [done|].
    case_bool_decide; [apply set_grid_own|]. case_bool_decide; [apply set_noise_own|done].
  - unfold handleDedupeCommand. destruct (upper_fields line) as [|w0 [|w1 args]]; [done..|]. destruct (negb _); [done|].
    case_bool_decide; [done|]. case_bool_decide; [apply set_dedupe_own|done].
  - unfold handleDiagCommand. destruct (upper_fields line) as [|w0 [|w1 args]]; [done..|]. destruct (_ || _); [done|]. destruct args; [done|].
    case_bool_decide; [done|]. by case_bool_decide.
  - unfold handleSolarCommand. destruct (upper_fields line) as [|w0 [|w1 args]]; [done..|]. destruct (_ || _); [done|]. destruct args; [done|].
    destruct (parseSolarSummaryMinutes _); [|done]. apply answer_saved_own, solar_keeps_call.
Qed.

Lemma filter_command_own line u k : own_outcome u k (filter_command Marshal Unmarshal EncodeCell EncodeCoarseCell d adifs line u k).
Proof. unfold filter_command. destruct (Handle _ _ _ _ _ _) as [[[resp handled] mutated] c]. by destruct handled. Qed.

Lemma first_handled_own l : (forall h u k, In h l -> own_outcome u k (h u k)) -> forall u k, own_outcome u k (first_handled l u k).
Proof.
  induction l as [|h l IH]; intros Hl u k; [done|]. cbn [first_handled]. pose proof (Hl h u k (or_introl eq_refl)) as Hh. destruct (h u k) as [[[resp|] u'] k']; [exact Hh|].
  unfold own_outcome in *. simpl in Hh. rewrite IH; [done|]. intros h' u'' k'' Hin. apply Hl. by right.
Qed.

Lemma client_command_own clock line u k : own_outcome u k (client_command clock line u k).
Proof.
  apply first_handled_own. intros h u' k' Hin. apply in_app_or in Hin as [Hin|[<-|[]]]; [by eapply settings_own|apply filter_command_own].
Qed.

Lemma home_reply id msg (nd : Node bytes) : stays_home id (nd_server nd) (nd_server (reply id msg nd)).
Proof. apply home_on. intros s _. unfold Send. by rewrite enqueue_control_user. Qed.

Lemma home_reply_blank id msg (nd : Node bytes) : stays_home id (nd_server nd) (nd_server (reply_unless_blank id msg nd)).
Proof. unfold reply_unless_blank. case_bool_decide; [apply home_refl|apply home_reply]. Qed.

Lemma home_reply_empty id msg (nd : Node bytes) : stays_home id (nd_server nd) (nd_server (reply_unless_empty id msg nd)).
Proof. unfold reply_unless_empty. case_bool_decide; [apply home_refl|apply home_reply]. Qed.

Lemma home_close reason id (nd : Node bytes) : stays_home id (nd_server nd) (nd_server (close_connection reason id nd)).
Proof. apply home_on. intros s _. unfold close_session. simpl. by rewrite close_user. Qed.

Lemma run_line_home id clock ip line nd nd' going : run_line id clock ip line nd = Some (nd', going) -> stays_home id (nd_server nd) (nd_server nd').
Proof.
  unfold TelnetSession.run_line. case_bool_decide; [intros [= <- _]; apply home_reply|]. destruct (sessions (nd_server nd) !! id) as [s|] eqn:Hs; [|intros [= <- _]; apply home_refl].
  pose proof (client_command_own clock line (s_user s) (nd_disk nd)) as Ho. destruct (client_command clock line (s_user s) (nd_disk nd)) as [[resp u] k].
  unfold own_outcome in Ho. simpl in Ho.
  assert (Hp : stays_home id (nd_server nd) (nd_server (put_user id u (with_disk k nd)))).
  { apply home_on. intros s' Hs'. simpl in Hs'. rewrite Hs in Hs'. injection Hs' as <-. exact Ho. }
  destruct resp as [resp|].
  - intros [= <- _]. eapply home_trans; [exact Hp|apply home_reply_empty].
  - destruct (ProcessCommandForClient _ _ _ _ _ _ _ _ _) as [[resp p]|]; [|done]. case_bool_decide; intros [= <- _].
    + eapply home_trans; [exact Hp|]. apply home_on. intros s' _. by rewrite send_and_close_user.
    + eapply home_trans; [exact Hp|]. change (nd_server (put_user id u (with_disk k nd))) with (nd_server (with_proc p (put_user id u (with_disk k nd)))). apply home_reply_empty.
Qed.

Lemma leave_alone closing registered id nd : leaves_alone id (nd_server nd) (nd_server (leave closing registered id nd)).
Proof.
  unfold TelnetSession.leave. set (nd1 := if closing then _ else nd).
  assert (H1 : leaves_alone id (nd_server nd) (nd_server nd1)) by (unfold nd1; destruct closing; apply home_alone; [apply home_close|apply home_refl]).
  destruct registered; [|exact H1]. unfold unregisterClient. simpl. eapply alone_trans; [exact H1|apply unregister_alone].
Qed.

Definition end_node (e : session_end bytes) : option (Node bytes) := match e with Ended nd => Some nd | Unread nd _ => Some nd | Beyond => None end.

Lemma commands_alone clocks id ip nd t nd' : end_node (command_loop clocks id ip nd t) = Some nd' -> leaves_alone id (nd_server nd) (nd_server nd').
Proof.
  revert nd t. induction clocks as [|clock clocks IH]; intros nd t; cbn [TelnetSession.command_loop]; [intros [= <-]; apply home_alone, home_refl|].
  unfold TelnetSession.command_round. destruct (ReadLine _ _ _ t) as [[line|[| | |e]] t1].
  - destruct (run_line id clock ip line nd) as [[nd1 going]|] eqn:E; [|done]. apply run_line_home, home_alone in E. destruct going.
    + intros H. eapply alone_trans; [exact E|by eapply IH].
    + intros [= <-]. eapply alone_trans; [exact E|apply (leave_alone false true)].
  - intros [= <-]. apply (leave_alone true true).
  - apply IH.
  - intros [= <-]. apply (leave_alone true true).
  - intros H. eapply alone_trans; [apply home_alone, home_reply_blank|by eapply IH].
Qed.

(** ** Logging in *)

Lemma load_user_call call ip now u k : u_callsign (load_user Marshal Unmarshal EncodeCell EncodeCoarseCell d o call ip now u k).1.1.1.1.1 = call.
Proof.
  unfold load_user. destruct (TouchUserRecordLogin _ _ _ _ _ _ _) as [[[e created]|[[[r created] prev] prevIP]] k']; simpl; [done|].
  unfold user_of_record. by rewrite solar_keeps_call.
Qed.

Lemma seed_grid_call u : u_callsign (seed_grid EncodeCell EncodeCoarseCell gridLookup u) = u_callsign u.
Proof. unfold seed_grid. by repeat case_match. Qed.

Lemma noise_class_call u : u_callsign (default_noise_class o u) = u_callsign u.
Proof. unfold default_noise_class. by case_bool_decide. Qed.

Lemma nearby_login_call warning u : u_callsign (applyNearbyLoginState EncodeCell EncodeCoarseCell warning u).2 = u_callsign u.
Proof.
  unfold applyNearbyLoginState. destruct (negb _); [done|]. case_bool_decide; [done|]. cbv zeta. destruct (_ || _); [done|].
  destruct (EnableNearby _ _ _) as [[|] f]; done.
Qed.

Lemma login_user_call call ip now u k :
  u_callsign (login_user Marshal Unmarshal EncodeCell EncodeCoarseCell d gridLookup o call ip now u k).1.1.1.1.1.1 = call.
Proof.
  unfold login_user. pose proof (load_user_call call ip now u k) as H. destruct (load_user _ _ _ _ _ _ _ _ _ _ _) as [[[[[u1 created] loaded] prev] prevIP] k1]. simpl in H.
  pose proof (nearby_login_call (normalizeWarningLine (NearbyLoginWarning o)) (default_noise_class o (seed_grid EncodeCell EncodeCoarseCell gridLookup u1))) as Hn.
  destruct (applyNearbyLoginState _ _ _ _) as [[warning changed] u2]. simpl in *. by rewrite Hn, noise_class_call, seed_grid_call.
Qed.

Lemma greet_home id clock now u warning created loaded prev prevIP (nd : Node bytes) :
  stays_home id (nd_server nd) (nd_server (greet o startTime id clock now u warning created loaded prev prevIP nd)).
Proof.
  unfold greet. cbv zeta. set (nd1 := reply_unless_blank id _ nd). assert (H1 : stays_home id (nd_server nd) (nd_server nd1)) by apply home_reply_blank.
  set (nd2 := reply_unless_blank id _ nd1). assert (H2 : stays_home id (nd_server nd) (nd_server nd2)) by (eapply home_trans; [exact H1|apply home_reply_blank]).
  destruct (PathPredictor o); [|done]. destruct (PathDisplayEnabled o); [|done]. eapply home_trans; [exact H2|apply home_reply_blank].
Qed.

(** Connection [id] is not in the table. *)
Definition not_logged_in (id : Z) (sv : Server) : Prop := forall call, clients sv !! call <> Some id.

Lemma login_effect gate_login id clock now call ip nd s0 :
  registry_ok (nd_server nd) -> sessions (nd_server nd) !! id = Some s0 -> not_logged_in id (nd_server nd) ->
  let sv := nd_server nd in
  let sv' := nd_server (login gate_login id clock now call ip nd) in
  registry_ok sv' /\ clients sv' = <[call := id]> (delete call (clients sv)) /\
  (forall j, j <> id -> clients sv !! call <> Some j -> sessions sv' !! j = sessions sv !! j) /\
  (forall j so, clients sv !! call = Some j -> sessions sv !! j = Some so -> exists s', sessions sv' !! j = Some s' /\ leaving s').
Proof.
  intros Hr Hs Hnew. cbv zeta. unfold TelnetSession.login. rewrite Hs. set (nd1 := with_proc _ nd). change (nd_disk nd1) with (nd_disk nd).
  pose proof (login_user_call call ip now (s_user s0) (nd_disk nd)) as Hu.
  destruct (login_user _ _ _ _ _ _ _ _ _ _ _ _) as [[[[[[u warning] created] loaded] prev] prevIP] k]. simpl in Hu.
  set (sv2 := nd_server (put_user id u (with_disk k nd1))). assert (C2 : clients sv2 = clients (nd_server nd)) by apply on_session_clients.
  assert (S2 : forall j, j <> id -> sessions sv2 !! j = sessions (nd_server nd) !! j) by (intros j Hj; unfold sv2, put_user; simpl; by rewrite on_session_lookup, decide_False).
  assert (S2' : sessions sv2 !! id = Some (with_user u s0)) by (unfold sv2, put_user; simpl; rewrite on_session_lookup, decide_True by done; by rewrite Hs).
  assert (R2 : registry_ok sv2).
  { intros c j. rewrite C2. intros Hc. rewrite S2; [by apply Hr|]. intros ->. by apply (Hnew c). }
  destruct (register_spec id sv2 (with_user u s0) R2 S2') as (A1 & A2 & _ & A3 & A4); [rewrite C2; apply Hnew|]. simpl in A1, A3, A4. rewrite Hu, C2 in A1, A3, A4.
  pose proof (greet_home id clock now u warning created loaded prev prevIP (with_server (registerClient id sv2) (put_user id u (with_disk k nd1)))) as Hg.
  change (nd_server (with_server (registerClient id sv2) (put_user id u (with_disk k nd1)))) with (registerClient id sv2) in Hg.
  fold sv2. set (sv3 := nd_server (greet _ _ _ _ _ _ _ _ _ _ _ _)) in *. destruct (home_alone _ _ _ Hg) as (_ & _ & G3). destruct Hg as (G1 & G2 & _).
  split; [by apply G3|]. split; [by rewrite G2|]. split.
  - intros j Hj Hc. rewrite G1, A3 by done. by apply S2.
  - intros j so Hc Hso. assert (Hj : j <> id) by (intros ->; by apply (Hnew call)). destruct (A4 j so Hc) as (s' & E & L & _); [by rewrite S2|]. exists s'. by rewrite G1.
Qed.

Lemma pre_login_home id template clock now (nd : Node bytes) : stays_home id (nd_server nd) (nd_server (sendPreLoginMessage o startTime id template clock now nd)).
Proof. apply home_reply_blank. Qed.

Lemma login_round_home id clock now nd t :
  match login_round id clock now nd t with
  | AskAgain nd' _ | NoLogin nd' => stays_home id (nd_server nd) (nd_server nd')
  | Callsign_ call nd' _ => nd' = nd /\ IsValidNormalizedCallsign call = true
  end.
Proof.
  unfold TelnetSession.login_round. destruct (ReadLine _ _ _ t) as [[line|[| | |e]] t1]; try apply home_refl.
  - case_bool_decide; [eapply home_trans; apply pre_login_home|]. destruct (IsValidNormalizedCallsign _) eqn:E; [done|]. eapply home_trans; apply pre_login_home.
  - eapply home_trans; [apply home_reply_blank|apply pre_login_home].
Qed.

Lemma login_loop_home clocks id now nd t :
  match login_loop clocks id now nd t with
  | LoginUnread nd' _ | LoginOver nd' => stays_home id (nd_server nd) (nd_server nd')
  | LoggedIn call nd' _ => stays_home id (nd_server nd) (nd_server nd') /\ IsValidNormalizedCallsign call = true
  end.
Proof.
  revert nd t. induction clocks as [|clock clocks IH]; intros nd t; cbn [TelnetSession.login_loop]; [apply home_refl|].
  pose proof (login_round_home id clock now nd t) as H. destruct (login_round id clock now nd t) as [nd' t'|nd'|call nd' t'].
  - specialize (IH nd' t'). destruct (login_loop clocks id now nd' t'); [by eapply home_trans..|]. destruct IH as [IH ?]. split; [by eapply home_trans|done].
  - done.
  - destruct H as [-> H]. split; [apply home_refl|done].
Qed.

(** What a session from connection to its end leaves behind for the others: [call] is the
    callsign it logged in under, if it did. *)
Definition bystanders (id : Z) (call : option string) (sv sv' : Server) : Prop :=
  registry_ok sv' /\
  forall c j s, clients sv !! c = Some j -> sessions sv !! j = Some s ->
    (call <> Some c -> clients sv' !! c = Some j /\ sessions sv' !! j = Some s) /\
    (call = Some c -> exists s', sessions sv' !! j = Some s' /\ leaving s').

Lemma handle_client_bystanders gate_login logins clocks id now clock ip l nd nd' :
  registry_ok (nd_server nd) -> sessions (nd_server nd) !! id = None ->
  end_node (handleClient gate_login logins clocks id now clock ip l nd) = Some nd' ->
  exists call, (forall c, call = Some c -> IsValidNormalizedCallsign c = true) /\ bystanders id call (nd_server nd) (nd_server nd').
Proof.
  intros Hr Hfresh. assert (Hnew : not_logged_in id (nd_server nd)) by (intros c Hc; destruct (Hr c id Hc) as (s & E & _); congruence).
  unfold TelnetSession.handleClient. set (sv0 := with_sessions _ _ _). set (nd1 := sendPreLoginMessage _ _ _ _ _ _ (sendPreLoginMessage _ _ _ _ _ _ _)).
  assert (R0 : registry_ok sv0).
  { intros c j Hc. simpl in *. destruct (Hr c j Hc) as (s & E & Hcs). exists s. rewrite lookup_insert_ne; [done|]. intros <-. congruence. }
  assert (H1 : stays_home id sv0 (nd_server nd1)) by (unfold nd1; eapply home_trans; [|apply pre_login_home]; exact (pre_login_home id (WelcomeMessage o) clock now (with_server sv0 nd))).
  assert (Hall : forall sv', leaves_alone id sv0 sv' -> bystanders id None (nd_server nd) sv').
  { intros sv' (A1 & A2 & A3). split; [by apply A3|]. intros c j s Hc Hs. assert (Hj : j <> id) by (intros ->; by apply (Hnew c)). split; [|done]. intros _.
    rewrite A2, A1 by done. simpl. by rewrite lookup_insert_ne by done. }
  match goal with |- context [login_loop ?c ?i ?n ?x ?t] => pose proof (login_loop_home c i n x t) as H2; destruct (login_loop c i n x t) as [nd2 t'|nd2|call nd2 t'] end.
  - intros [= <-]. exists None. split; [done|]. apply Hall, home_alone. by eapply home_trans.
  - intros [= <-]. exists None. split; [done|]. apply Hall. eapply alone_trans; [apply home_alone; by eapply home_trans|apply (leave_alone true false)].
  - destruct H2 as [H2 Hv]. intros He. apply commands_alone in He. exists (Some call). split; [by intros c [= <-]|].
    pose proof (home_trans _ _ _ _ H1 H2) as (B1 & B2 & B3). destruct (B3 (new_session d o)) as (s0 & Hs0 & _); [simpl; apply lookup_insert_eq|].
    assert (R2 : registry_ok (nd_server nd2)) by (apply (home_alone id sv0); [by eapply home_trans|done]).
    assert (C2 : clients (nd_server nd2) = clients (nd_server nd)) by (by rewrite B2).
    destruct (login_effect gate_login id clock now call ip nd2 s0 R2 Hs0) as (L1 & L2 & L3 & L4); [intros c; rewrite C2; apply Hnew|].
    rewrite C2 in L2, L3, L4. destruct He as (A1 & A2 & A3). split; [by apply A3|]. intros c j s Hc Hs.
    assert (Hj : j <> id) by (intros ->; by apply (Hnew c)).
    assert (S2 : sessions (nd_server nd2) !! j = Some s) by (rewrite B1 by done; simpl; by rewrite lookup_insert_ne by done). split.
    + intros Hcc. assert (Hne : c <> call) by congruence. assert (Hjc : clients (nd_server nd) !! call <> Some j).
      { intros Hc'. destruct (Hr _ _ Hc) as (s1 & E1 & F1). destruct (Hr _ _ Hc') as (s2 & E2 & F2). congruence. }
      rewrite A2, A1, L2, L3 by done. rewrite lookup_insert_ne, lookup_delete_ne by done. done.
    + intros [= ->]. rewrite A1 by done. by eapply L4.
Qed.

(** C7: A session disturbs nobody: whatever bytes arrive on a new connection, from the first
    to the last, every client that was connected is still in the table under its callsign
    and its session is exactly as it was, but for the one whose callsign the connection
    logged in under, which is closed or has the closing message as its last; that callsign
    is well formed, and the table holds only sessions under their own callsigns. *)
Theorem session_spares_others gate_login logins clocks id now clock ip l nd nd' :
  registry_ok (nd_server nd) -> sessions (nd_server nd) !! id = None ->
  end_node (handleClient gate_login logins clocks id now clock ip l nd) = Some nd' ->
  registry_ok (nd_server nd') /\
  exists call, (forall c, call = Some c -> IsValidNormalizedCallsign c = true) /\
    forall c j s, clients (nd_server nd) !! c = Some j -> sessions (nd_server nd) !! j = Some s ->
      (call <> Some c -> clients (nd_server nd') !! c = Some j /\ sessions (nd_server nd') !! j = Some s) /\
      (call = Some c -> exists s', sessions (nd_server nd') !! j = Some s' /\ leaving s').
Proof.
  intros Hr Hf He. destruct (handle_client_bystanders _ _ _ _ _ _ _ _ _ _ Hr Hf He) as (call & Hv & H1 & H2). split; [exact H1|]. by exists call.
Qed.

(** A session ends with its connection: with a time for every round, one more than the
    bytes and timeouts that arrive, neither loop runs out, and the session is over. *)
Theorem session_ends gate_login logins clocks id now clock ip l nd :
  (length l < length logins)%nat -> (length l < length clocks)%nat ->
  handleClient gate_login logins clocks id now clock ip l nd = Beyond \/ exists nd', handleClient gate_login logins clocks id now clock ip l nd = Ended nd'.
Proof.
  intros H1 H2. pose proof (session_over gate_login logins clocks id now clock ip l nd H1 H2) as H.
  destruct (handleClient gate_login logins clocks id now clock ip l nd); [right; by eexists|done|by left].
Qed.

(** ** Typed commands *)

(** Lines carried out one after the other, to the one that ends the session. *)
Fixpoint run_lines (id : Z) (ip : string) (ls : list (Z * string)) (nd : Node bytes) : option (Node bytes * bool) :=
  match ls with
  | [] => Some (nd, true)
  | (clock, line) :: ls =>
      match run_line id clock ip line nd with
      | Some (nd, true) => run_lines id ip ls nd
      | r => r
      end
  end.

Lemma command_reads text bytes' e t rest : typed (line_limit (CommandLineLimit o)) command_chars text bytes' ->
  at_line_start t (keys (bytes' +:+ ending e) ++ rest) -> t_writes t = [] ->
  exists t', ReadLine (CommandLineLimit o) "command" command_chars t = (inl (ToUpper text), t') /\ at_line_start t' rest /\ t_writes t' = [].
Proof. apply line_read. Qed.


(** ** Goodbye *)

Lemma client_bye clock u k : client_command clock "BYE" u k = (None, u, k).
Proof. destruct u as [call [f [] grid cell coarse pe] derived noise penalty policy diag minutes next ips]; vm_compute; reflexivity. Qed.

Lemma process_bye ip f dialect clock u p : TrimSpace (u_callsign u) <> "" ->
  ProcessCommandForClient parse_addr layout "BYE" (u_callsign u) ip f (dialect_string dialect) clock p = Some ("BYE", p).
Proof. intros H. unfold ProcessCommandForClient. rewrite (bool_decide_eq_false_2 (TrimSpace (u_callsign u) = "")) by done. destruct dialect; reflexivity. Qed.

(** Goodbye is kept: a client that types BYE, in either case, has the farewell queued
    behind everything that waits for it, to be closed when it is written, leaves the table
    unless a newer session has its place there, and its settings are saved; no other session
    hears of it. *)
Theorem goodbye id clock ip nd t bytes' e s :
  typed (line_limit (CommandLineLimit o)) command_chars "BYE" bytes' -> at_line_start t (keys (bytes' +:+ ending e)) -> t_writes t = [] ->
  sessions (nd_server nd) !! id = Some s -> TrimSpace (u_callsign (s_user s)) <> "" ->
  s_done s = false -> Z.of_nat (length (s_control s)) < s_controlCap s ->
  exists nd', command_loop [clock] id ip nd t = Ended nd' /\
    nd_disk nd' = (saveFilter Marshal Unmarshal (nd_disk nd) (s_user s)).2 /\
    (exists s', sessions (nd_server nd') !! id = Some s' /\ s_control s' = s_control s ++ [mkControl ("73!" +:+ nl) None true] /\ s_user s' = s_user s) /\
    (forall j, j <> id -> sessions (nd_server nd') !! j = sessions (nd_server nd) !! j) /\
    clients (nd_server nd') = (if bool_decide (clients (nd_server nd) !! u_callsign (s_user s) = Some id)
                               then delete (u_callsign (s_user s)) (clients (nd_server nd)) else clients (nd_server nd)).
Proof.
  intros Hty Hst Hw Hs Hcall Hd Hroom. rewrite <- (app_nil_r (keys _)) in Hst. destruct (command_reads _ _ _ _ _ Hty Hst Hw) as (t1 & E & _).
  cbn [TelnetSession.command_loop]. unfold TelnetSession.command_round. rewrite E. change (ToUpper "BYE") with "BYE".
  unfold TelnetSession.run_line. rewrite bool_decide_eq_false_2 by done. rewrite Hs, client_bye, process_bye by done. rewrite bool_decide_eq_true_2 by done.
  set (nd1 := with_proc _ _). assert (S1 : sessions (nd_server nd1) !! id = Some (with_user (s_user s) s)).
  { unfold nd1, put_user. simpl. rewrite on_session_lookup, decide_True by done. by rewrite Hs. }
  set (sv2 := on_session (SendAndClose _) (nd_server nd1) id).
  assert (S2 : sessions sv2 !! id = Some (with_control (s_control s ++ [mkControl ("73!" +:+ nl) None true]) (with_user (s_user s) s))).
  { unfold sv2. rewrite on_session_lookup, decide_True, S1 by done. simpl. unfold SendAndClose. rewrite bool_decide_eq_false_2 by done.
    unfold enqueueControl, blank_message. simpl. rewrite Hd. by destruct (Z.ltb_spec (Z.of_nat (length (s_control s))) (s_controlCap s)); [|lia]. }
  assert (C2 : clients sv2 = clients (nd_server nd)) by (unfold sv2; rewrite on_session_clients; apply on_session_clients).
  eexists. split; [reflexivity|]. unfold TelnetSession.leave, unregisterClient. simpl. rewrite S2. simpl. split; [done|].
  split; [by exists (with_control (s_control s ++ [mkControl ("73!" +:+ nl) None true]) (with_user (s_user s) s))|]. split.
  - intros j Hj. unfold sv2. rewrite on_session_lookup, decide_False by done. unfold nd1, put_user. simpl. by rewrite on_session_lookup, decide_False.
  - unfold callsign_of. rewrite S2. simpl. by rewrite C2.
Qed.
End Session.

(** ** The server over time *)

Section Reach.
Variable visit : gmap string Z -> list (string * Z).
Hypothesis visit_all : forall m, visit m ≡ₚ map_to_list m.
Variables EncodeCell EncodeCoarseCell : string -> Z.
Variables exp_ pow10 : Q -> Q.
Variable predictor : option Predictor.

(** What the goroutines of a server do to it: connections, logins and logouts, anything that
    happens to one session, and the broadcast with its workers. *)
Inductive server_step : Server -> Server -> Prop :=
| step_connect sv id s : sessions sv !! id = None -> server_step sv (with_sessions (<[id := s]> (sessions sv)) (clientDrops sv) sv)
| step_name sv id u : not_logged_in id sv -> server_step sv (on_session (set_user u) sv id)
| step_register sv id s : sessions sv !! id = Some s -> not_logged_in id sv -> server_step sv (registerClient id sv)
| step_unregister sv id : server_step sv (unregister id sv)
| step_session sv id f : keeps_callsign f -> server_step sv (on_session f sv id)
| step_queue sv p : server_step sv (BroadcastSpot p sv)
| step_dispatch sv : server_step sv (handle_broadcast visit sv)
| step_take sv now i : server_step sv (worker_take EncodeCell EncodeCoarseCell exp_ pow10 predictor now i sv)
| step_flush sv now i : server_step sv (worker_flush EncodeCell EncodeCoarseCell exp_ pow10 predictor now i sv).

(** The table and the shards agree, and there are workers with queues. *)
Definition server_ok (sv : Server) : Prop := registry_ok sv /\ shards_ok visit sv /\ 0 < broadcastWorkers sv /\ 0 < workerQueueSize sv.

(** What the table depends on. *)
Definition table_of (sv : Server) := (clients sv, shardsDirty sv, clientShards sv, broadcastWorkers sv, workerQueueSize sv).

Lemma ok_same sv sv' : table_of sv' = table_of sv -> registry_ok sv' -> server_ok sv -> server_ok sv'.
Proof.
  unfold table_of. intros [= E1 E2 E3 E4 E5] Hr (_ & Hs & Hw & Hq). split; [done|]. rewrite E4, E5. split; [|done].
  unfold shards_ok, all_ids in *. rewrite E1, E2, E3, E4. exact Hs.
Qed.

(** A change that makes the shards dirty. *)
Lemma ok_dirty sv sv' : shardsDirty sv' = true -> broadcastWorkers sv' = broadcastWorkers sv -> workerQueueSize sv' = workerQueueSize sv ->
  registry_ok sv' -> server_ok sv -> server_ok sv'.
Proof. intros E1 E2 E3 Hr (_ & _ & Hw & Hq). split; [done|]. rewrite E2, E3. split; [|done]. unfold shards_ok. rewrite E1. done. Qed.

Lemma on_session_table f sv id : table_of (on_session f sv id) = table_of sv.
Proof. unfold on_session. destruct (sessions sv !! id); [|done]. by destruct (f s) as [[? ?] ?]. Qed.

Lemma ok_on_session f sv id : keeps_callsign f -> server_ok sv -> server_ok (on_session f sv id).
Proof. intros Hf Hok. eapply ok_same; [apply on_session_table| |done]. apply registry_on_session; [done|apply Hok]. Qed.

Lemma ok_fold f ids sv : keeps_callsign f -> server_ok sv -> server_ok (fold_left (on_session f) ids sv).
Proof. intros Hf. revert sv. induction ids as [|id ids IH]; intros sv Hok; [done|]. by apply IH, ok_on_session. Qed.

Lemma user_cell_call u : u_callsign (user_cell EncodeCell u).2 = u_callsign u.
Proof. unfold user_cell. by repeat case_match. Qed.

Lemma path_class_call now u sp : u_callsign (pathClassForClient exp_ pow10 EncodeCell EncodeCoarseCell predictor now u sp).2 = u_callsign u.
Proof.
  unfold pathClassForClient. destruct predictor as [p|]; [|done]. destruct (negb _); [done|]. unfold predict_for. pose proof (user_cell_call u) as H.
  destruct (user_cell EncodeCell u) as [cell u']. simpl in H. destruct (_ =? InvalidCell); [done|]. cbv zeta. destruct (_ =? InvalidCell); [done|].
  simpl. by repeat case_match.
Qed.

Lemma deliver_keeps l now p : keeps_callsign (deliver_to EncodeCell EncodeCoarseCell exp_ pow10 predictor l now p).
Proof.
  intros s. unfold deliver_to, wants, filter_matches. cbv zeta.
  assert (He : forall (b : bool) u', u_callsign u' = u_callsign (s_user s) ->
    u_callsign (s_user ((if b then enqueueSpot l now (bp_spot p) (with_user u' s) else (false, false, with_user u' s)).2)) = u_callsign (s_user s)).
  { intros [|] u' Hu; simpl; [by rewrite enqueue_spot_user|done]. }
  destruct (negb (policy_allows _ _)); [by apply He|]. destruct (isSelfMatch _ _); [by apply He|].
  destruct (_ && _); [|by apply He]. pose proof (path_class_call now (s_user s) (bp_spot p)) as Hc.
  destruct (pathClassForClient _ _ _ _ _ _ _ _) as [class u']. by apply He.
Qed.

Lemma ok_deliver now job sv : server_ok sv -> server_ok (deliverJob EncodeCell EncodeCoarseCell exp_ pow10 predictor now job sv).
Proof. apply ok_fold, deliver_keeps. Qed.

Lemma ok_flush now i sv : server_ok sv -> server_ok (worker_flush EncodeCell EncodeCoarseCell exp_ pow10 predictor now i sv).
Proof.
  intros Hok. unfold worker_flush. destruct (workerBatches sv !! i) as [batch|]; [|done].
  assert (H : server_ok (with_batches (<[i:=[]]> (workerBatches sv)) sv)) by (eapply ok_same; [done|apply Hok|done]). revert H. generalize (with_batches (<[i:=[]]> (workerBatches sv)) sv).
  induction batch as [|job batch IH]; intros sv1 H1; [done|]. by apply IH, ok_deliver.
Qed.

Lemma ok_take now i sv : server_ok sv -> server_ok (worker_take EncodeCell EncodeCoarseCell exp_ pow10 predictor now i sv).
Proof.
  intros Hok. unfold worker_take. destruct (workerQueues sv !! i) as [[|job q]|]; [done| |done]. cbv zeta.
  assert (H : forall qs n, server_ok (with_queues qs n sv)) by (intros; eapply ok_same; [done|apply Hok|done]).
  destruct (_ <=? 0); [by apply ok_deliver|]. simpl. destruct (workerBatches sv !! i) as [batch|]; [|apply H].
  assert (H2 : forall qs n b, server_ok (with_batches b (with_queues qs n sv))) by (intros; eapply ok_same; [done|apply Hok|done]).
  destruct (_ <=? _); [by apply ok_flush|done].
Qed.

Lemma ok_dispatch p shards : forall i sv, server_ok sv -> server_ok (dispatch_from p i shards sv).
Proof.
  induction shards as [|ids shards IH]; intros i sv Hok; [done|]. cbn [dispatch_from]. apply IH. unfold dispatch_shard. case_bool_decide; [done|].
  destruct (workerQueues sv !! i); [|done]. destruct (_ <? _); (eapply ok_same; [done|apply Hok|done]).
Qed.

Lemma ok_broadcast sv : server_ok sv -> server_ok (handle_broadcast visit sv).
Proof.
  intros Hok. unfold handle_broadcast. destruct (broadcast sv) as [|p q]; [done|]. set (sv1 := with_broadcast q (queueDrops sv) sv).
  assert (H1 : server_ok sv1) by (eapply ok_same; [done|apply Hok|done]). unfold broadcastSpot, dispatchSpotToWorkers. destruct H1 as (H1 & H2 & H3 & H4).
  pose proof (cached_shards_spec visit sv1 H3 H2) as Hc. unfold cachedClientShards in *. destruct (_ && _); [by apply ok_dispatch|].
  destruct Hc as (C1 & C2 & _). apply ok_dispatch. split; [exact H1|]. split; [|done]. intros _ _. done.
Qed.

Lemma step_keeps sv sv' : server_step sv sv' -> server_ok sv -> server_ok sv'.
Proof.
  intros Hst Hok. destruct Hst as [sv id s Hid|sv id u Hid|sv id s Hs Hid|sv id|sv id f Hf|sv p|sv|sv now i|sv now i].
  - apply (ok_same sv); [done| |done]. intros c j Hc. simpl in *. destruct (proj1 Hok c j Hc) as (s' & E & F). exists s'. rewrite lookup_insert_ne; [done|]. intros <-. congruence.
  - apply (ok_same sv); [apply on_session_table| |done]. intros c j. rewrite on_session_clients. intros Hc. rewrite on_session_lookup, decide_False; [by apply (proj1 Hok)|].
    intros ->. by apply (Hid c).
  - unfold registerClient. assert (Ec : callsign_of sv id = u_callsign (s_user s)) by (unfold callsign_of; by rewrite Hs). rewrite Ec. set (m := <[_ := id]> _).
    assert (H : server_ok (with_clients m sv)).
    { apply (ok_dirty sv); [done..| |done]. intros c j. simpl. unfold m. destruct (decide (c = u_callsign (s_user s))) as [->|D].
      - rewrite lookup_insert_eq. intros [= <-]. eauto.
      - rewrite lookup_insert_ne, lookup_delete_ne by done. apply Hok. }
    destruct (clients sv !! _) as [old|]; [|done]. by apply ok_on_session; [apply evict_keeps|].
  - apply (ok_dirty sv); [done..| |exact Hok]. apply (proj2 (proj2 (unregister_alone id sv))), Hok.
  - by apply ok_on_session.
  - unfold BroadcastSpot. destruct (_ <? _); (eapply ok_same; [done|apply Hok|done]).
  - by apply ok_broadcast.
  - by apply ok_take.
  - by apply ok_flush.
Qed.

Lemma new_server_ok cpus opts : server_ok (NewServer cpus opts).
Proof.
  split; [intros c j; simpl; by rewrite lookup_empty|]. split; [intros _ H; done|]. simpl. unfold positive_else, defaultBroadcastWorkers.
  split; [destruct (Z.leb_spec (BroadcastWorkers opts) 0); [destruct (_ <? _) eqn:E; lia|lia]|]. destruct (Z.leb_spec (WorkerQueue opts) 0); lia.
Qed.

Lemma reach_ok cpus opts sv : rtc server_step (NewServer cpus opts) sv -> server_ok sv.
Proof. intros H. pose proof (new_server_ok cpus opts) as Hok. revert Hok. induction H as [|s1 s2 s3 Hst _ IH]; [done|]. intros Hok. by apply IH, (step_keeps s1). Qed.
End Reach.


(** ** Witnesses *)

Definition demo_options : ServerOptions :=
  mkServerOptions "Hello <USER_COUNT>" "" "Hi <CALL>" "login: " "empty" "invalid" "" "" "" "" "" "" "" 0 2 0 0 0 0 0 0 false "" "" 0 0 0 0 0 0 0
    None false (mkOptions true true true ∅) "".

Definition demo_opts : ServerOptions := normalizeServerOptions 4 demo_options.
Definition demo_processor : Processor := mkProcessor None (Some []) 4 NoLookup (mkPrefixIndex None ∅) None None.
Definition demo_start : Node UserRecord := mkNode (NewServer 4 demo_options) demo_disk demo_processor.

(** The server with client 1 registered. *)
Definition demo_connected : Server := let sv := NewServer 4 demo_options in with_sessions (<[1 := demo_session]> (sessions sv)) (clientDrops sv) sv.
Definition demo_served : Server := registerClient 1 demo_connected.

Definition demo_step : Server -> Server -> Prop := server_step map_to_list (fun _ => 5) (fun _ => 3) (fun _ => 1%Q) (fun _ => 1%Q) None.

Lemma demo_reached : rtc demo_step (NewServer 4 demo_options) demo_served.
Proof.
  apply (rtc_l _ _ demo_connected); [by apply step_connect|]. apply rtc_once. apply (step_register _ _ _ _ _ _ _ _ demo_session); [reflexivity|].
  intros call H. change (clients demo_connected) with (∅ : gmap string Z) in H. by rewrite lookup_empty in H.
Qed.

Lemma demo_workers : broadcastWorkers demo_served = 2.
Proof. reflexivity. Qed.


(** Two lines of a terminal that negotiates, with a letter taken back. *)
Definition demo_typed : string := key 255 +:+ key 253 +:+ key 1 +:+ "s51ax" +:+ key 127 +:+ "a" +:+ key 13 +:+ key 10 +:+ "bye" +:+ key 10.

Local Notation demo_session_run times :=
  (handleClient demo_marshal demo_unmarshal (fun _ => "") (fun _ => 5) (fun _ => 3) initialDefaults None demo_opts 0 [] (fun _ => 1%Q) (fun _ => 1%Q) (fun _ => None) (mkLayout 76 61 62 64 69 71)
    (fun g _ _ => g) times times 2 (1000 * second) (1000 * second) "192.0.2.7" (keys demo_typed) (with_server demo_served demo_start)).

Definition demo_times : list Z := replicate 20 (2000 * second).

Lemma demo_enough_times : (length (keys demo_typed) < length demo_times)%nat.
Proof. vm_compute. lia. Qed.

Lemma session_ends_witness : demo_session_run demo_times = Beyond \/ exists nd', demo_session_run demo_times = Ended nd'.
Proof.
  apply (session_ends demo_marshal demo_unmarshal (fun _ => "") (fun _ => 5) (fun _ => 3) initialDefaults None demo_opts 0 [] (fun _ => 1%Q) (fun _ => 1%Q) (fun _ => None) (mkLayout 76 61 62 64 69 71)
    (fun g _ _ => g) demo_times demo_times 2 (1000 * second) (1000 * second) "192.0.2.7" (keys demo_typed) (with_server demo_served demo_start)); exact demo_enough_times.
Defined.

Lemma demo_run_ends : exists nd', end_node (demo_session_run demo_times) = Some nd'.
Proof. destruct (end_node (demo_session_run demo_times)) as [nd'|] eqn:E; [by exists nd'|]. exfalso. vm_compute in E. discriminate. Qed.

Lemma demo_served_ok : registry_ok demo_served.
Proof. apply (reach_ok map_to_list (fun _ => 5) (fun _ => 3) (fun _ => 1%Q) (fun _ => 1%Q) None 4 demo_options). exact demo_reached. Qed.

Lemma demo_two_is_new : sessions (nd_server (with_server demo_served demo_start)) !! 2 = None.
Proof. vm_compute. reflexivity. Qed.

(** A second login as S51AA. *)
Lemma session_spares_others_witness : exists nd', end_node (demo_session_run demo_times) = Some nd' /\ registry_ok (nd_server nd').
Proof.
  destruct demo_run_ends as [nd' E]. exists nd'. split; [exact E|].
  apply (session_spares_others demo_marshal demo_unmarshal (fun _ => "") (fun _ => 5) (fun _ => 3) initialDefaults None demo_opts 0 [] (fun _ => 1%Q) (fun _ => 1%Q) (fun _ => None) (mkLayout 76 61 62 64 69 71)
    (fun g _ _ => g) demo_times demo_times 2 (1000 * second) (1000 * second) "192.0.2.7" (keys demo_typed) (with_server demo_served demo_start) nd'); [exact demo_served_ok|exact demo_two_is_new|exact E].
Defined.

Definition bye_line : string * string * line_ending := ("BYE", "BYE", LF).

Lemma bye_typed : typed (line_limit (CommandLineLimit demo_opts)) command_chars "BYE" "BYE".
Proof.
  change "BYE" with ((("" +:+ "B") +:+ "Y") +:+ "E").
  repeat (eapply typed_char; [|vm_compute; reflexivity|vm_compute; reflexivity]). constructor.
Qed.

Definition demo_term : Term := mkTerm (keys ("BYE" +:+ ending LF)) false false "" [].
Definition demo_node : Node UserRecord := with_server demo_served demo_start.
Definition demo_commands (t : Term) : session_end UserRecord :=
  command_loop demo_marshal demo_unmarshal (fun _ => "") (fun _ => 5) (fun _ => 3) initialDefaults demo_opts [] (fun _ => 1%Q) (fun _ => 1%Q) (fun _ => None) (mkLayout 76 61 62 64 69 71)
    [2000 * second] 1 "192.0.2.7" demo_node t.

Lemma goodbye_witness : exists nd', demo_commands demo_term = Ended nd' /\ clients (nd_server nd') = ∅.
Proof.
  destruct (goodbye demo_marshal demo_unmarshal (fun _ => "") (fun _ => 5) (fun _ => 3) initialDefaults demo_opts [] (fun _ => 1%Q) (fun _ => 1%Q) (fun _ => None) (mkLayout 76 61 62 64 69 71)
    1 (2000 * second) "192.0.2.7" demo_node demo_term "BYE" LF demo_session) as (nd' & H1 & _ & _ & _ & H2).
  - exact bye_typed.
  - left. split; reflexivity.
  - reflexivity.
  - reflexivity.
  - vm_compute. discriminate.
  - reflexivity.
  - reflexivity.
  - exists nd'. split; [exact H1|]. rewrite H2. reflexivity.
Defined.

