(* ===== verification/GridStore.v ===== *)
(** * GridStore: known calls and their grids on disk

    [gridstore/store.go] and [gridstore/maintenance.go]: the record of a call, its encoding,
    the merge of what is learned with what is stored, the index by the time of the last
    update, the purge by that index, the clearing of the known flags and the count.  The
    key-value store is the class of [GoBytes], where a batch is written whole or not at all;
    which commits succeed is an argument.  The writer goroutine does one request at a time,
    so a request is a function of the store.  Opening and checkpoints are not modelled. *)

From S2P Require Import Prelude GoText GoNum GoTime GoBytes.
From stdpp Require Import strings list gmap fin_maps.
From Stdlib Require Import Lia ZArith Sorted.
Local Open Scope string_scope.
Local Open Scope list_scope.
Local Open Scope Z_scope.

(** ** Records *)

(** A grid is present or not ([sql.NullString]); times are instants, the expiry optional. *)
Record Record_ := mkRecord {
  r_Call : string; IsKnown : bool; r_Grid : option string; r_GridDerived : bool; CTYValid : bool; CTYADIF : Z; CTYCQZone : Z; CTYITUZone : Z;
  CTYContinent : string; CTYCountry : string; Observations : Z; FirstSeen : Z; UpdatedAt : Z; ExpiresAt : option Z }.

Record recordValue := mkValue {
  isKnown : bool; grid : string; gridValid : bool; gridDerived : bool; ctyValid : bool; ctyADIF : Z; ctyCQZone : Z; ctyITUZone : Z;
  ctyContinent : string; ctyCountry : string; observations : Z; firstSeen : Z; updatedAt : Z; expiresAt : Z }.

Definition recordVersion : Z := 2.
Definition recordHeaderSize : nat := 48.
Definition maintenanceBatchCap : Z := 1024.
Definition expiresNone : Z := -1.
Definition callPrefix : string := "c|".
Definition updatedPrefix : string := "u|".
Definition metaCountKey : string := "meta|count".

Definition normalizeCall (call : string) : string := upper_trim call.

Definition normalizeGrid (g : option string) : string * bool :=
  match g with
  | None => ("", false)
  | Some g => let value := upper_trim g in if bool_decide (value = "") then ("", false) else (value, true)
  end.

Definition normalizeCTY (r : Record_) : string * string * bool :=
  let continent := upper_trim (CTYContinent r) in
  let country := TrimSpace (CTYCountry r) in
  let valid := CTYValid r || (0 <? CTYADIF r) || (0 <? CTYCQZone r) || (0 <? CTYITUZone r) || negb (bool_decide (continent = "")) || negb (bool_decide (country = "")) in
  if valid then (continent, country, true) else ("", "", false).

Definition clamp_width (w v : Z) : Z := if v <=? 0 then 0 else if 2 ^ w - 1 <? v then 2 ^ w - 1 else v.
Definition clampUint16 (v : Z) : Z := clamp_width 16 v.
Definition clampUint32 (v : Z) : Z := clamp_width 32 v.

(** [Time.Unix]. *)
Definition Unix (t : Z) : Z := t / second.
Definition UnixTime (s : Z) : Z := s * second.

Definition normalizeRecordValue (r : Record_) (now : Z) : recordValue :=
  let updated := if IsZero (UpdatedAt r) then now else UpdatedAt r in
  let first := if IsZero (FirstSeen r) then updated else FirstSeen r in
  let expires := match ExpiresAt r with None => expiresNone | Some t => Unix t end in
  let '(g, valid) := normalizeGrid (r_Grid r) in
  let '(continent, country, cty) := normalizeCTY r in
  mkValue (IsKnown r) g valid (r_GridDerived r && valid) cty
    (if cty then clampUint32 (CTYADIF r) else 0) (if cty then clampUint16 (CTYCQZone r) else 0) (if cty then clampUint16 (CTYITUZone r) else 0)
    continent country (if Observations r <? 0 then 0 else Observations r) (Unix first) (Unix updated) expires.

Definition mergeRecordValue (existing : option recordValue) (incoming : recordValue) : recordValue :=
  match existing with
  | None => incoming
  | Some e =>
      let keep_grid := negb (gridValid incoming) in
      let keep_reported := gridDerived incoming && gridValid e && negb (gridDerived e) in
      let '(g, gv, gd) := if keep_grid then (grid e, gridValid e, gridDerived e) else if keep_reported then (grid e, true, false)
                          else (grid incoming, gridValid incoming, gridDerived incoming) in
      let c := if ctyValid incoming then incoming else e in
      mkValue (isKnown e || isKnown incoming) g gv gd (ctyValid c) (ctyADIF c) (ctyCQZone c) (ctyITUZone c) (ctyContinent c) (ctyCountry c)
        (uint64 (observations e + observations incoming))
        (if negb (firstSeen e =? 0) && ((firstSeen incoming =? 0) || (firstSeen e <? firstSeen incoming)) then firstSeen e else firstSeen incoming)
        (if updatedAt incoming <? updatedAt e then updatedAt e else updatedAt incoming)
        (if expiresAt incoming =? expiresNone then expiresAt e else expiresAt incoming)
  end.

Definition recordValueToRecord (call : string) (v : recordValue) : Record_ :=
  mkRecord call (isKnown v) (if gridValid v && negb (bool_decide (TrimSpace (grid v) = "")) then Some (grid v) else None) (gridDerived v && gridValid v) (ctyValid v)
    (if ctyValid v then ctyADIF v else 0) (if ctyValid v then ctyCQZone v else 0) (if ctyValid v then ctyITUZone v else 0)
    (if ctyValid v then ctyContinent v else "") (if ctyValid v then ctyCountry v else "")
    (int64 (observations v)) (UnixTime (firstSeen v)) (UnixTime (updatedAt v)) (if expiresAt v =? expiresNone then None else Some (UnixTime (expiresAt v))).

(** ** Encoding *)

Definition flag_bit (b : bool) (bit : Z) : Z := if b then bit else 0.
Definition one_byte (z : Z) : string := String (byte_of z) "".

(** The texts as they are stored, with lengths cut to 16 bits. *)
Definition stored_texts (v : recordValue) : string * string * string :=
  (if gridValid v then grid v else "", if ctyValid v then ctyContinent v else "", if ctyValid v then ctyCountry v else "").

Definition encodeRecordValue (v : recordValue) : string :=
  let '(g, cont, country) := stored_texts v in
  one_byte recordVersion +:+ one_byte (Z.lor (Z.lor (flag_bit (isKnown v) 1) (flag_bit (ctyValid v) 2)) (flag_bit (gridValid v && gridDerived v) 4)) +:+
  be_string 8 (observations v) +:+ be_string 8 (uint64 (firstSeen v)) +:+ be_string 8 (uint64 (updatedAt v)) +:+
  be_string 8 (if expiresAt v =? expiresNone then 2 ^ 64 - 1 else uint64 (expiresAt v)) +:+
  be_string 4 (ctyADIF v) +:+ be_string 2 (ctyCQZone v) +:+ be_string 2 (ctyITUZone v) +:+
  be_string 2 (uint16 (len g)) +:+ be_string 2 (uint16 (len cont)) +:+ be_string 2 (uint16 (len country)) +:+ g +:+ cont +:+ country.

Definition be_at (raw : string) (i n : nat) : Z := be_value (slice raw i n).

Definition decodeRecordValue (raw : string) : option recordValue :=
  if (String.length raw <? recordHeaderSize)%nat || negb (be_at raw 0 1 =? recordVersion) then None
  else
    let flags := be_at raw 1 1 in
    let cty := Z.testbit flags 1 in
    let n1 := Z.to_nat (be_at raw 42 2) in
    let n2 := Z.to_nat (be_at raw 44 2) in
    let n3 := Z.to_nat (be_at raw 46 2) in
    if (String.length raw <? recordHeaderSize + n1 + n2 + n3)%nat then None
    else
      let g := slice raw recordHeaderSize n1 in
      let valid := (0 <? n1)%nat in
      let expires := be_at raw 26 8 in
      Some (mkValue (Z.testbit flags 0) g valid (Z.testbit flags 2 && valid) cty
              (if cty then be_at raw 34 4 else 0) (if cty then be_at raw 38 2 else 0) (if cty then be_at raw 40 2 else 0)
              (if cty then slice raw (recordHeaderSize + n1) n2 else "") (if cty then slice raw (recordHeaderSize + n1 + n2) n3 else "")
              (be_at raw 2 8) (int64 (be_at raw 10 8)) (int64 (be_at raw 18 8)) (if expires =? 2 ^ 64 - 1 then expiresNone else int64 expires)).

Definition encodeCount (n : Z) : string := be_string 8 (uint64 n).

(** ** Keys *)

Definition callKeyBytes (call : string) : string := callPrefix +:+ call.

Definition parseCallKey (key : string) : option string :=
  if (len key <=? len callPrefix) || negb (HasPrefix key callPrefix) then None else Some (sdrop 2 key).

Definition updatedKeyBytes (updated : Z) (call : string) : string := updatedPrefix +:+ be_string 8 (uint64 updated) +:+ call.

Definition parseUpdatedKey (key : string) : option (Z * string) :=
  if (len key <=? len updatedPrefix + 8) || negb (HasPrefix key updatedPrefix) then None
  else Some (int64 (be_at key 2 8), sdrop 10 key).

(** [None]: no bound. *)
Definition updatedUpperBound (cutoff : Z) : option string := if cutoff =? max_int64 then None else Some (updatedKeyBytes (cutoff + 1) "").

(** ** The store *)

Section Store.
Context `{Pebble DB}.

Record Store := mkStore { st_db : DB; count : Z }.

Definition set_db (db : DB) (s : Store) : Store := mkStore db (count s).

Definition db_get (k : string) (db : DB) : option string :=
  match filter (fun e => e.1 = k) (db_entries db) with e :: _ => Some e.2 | [] => None end.

(** The entries of an iterator with bounds; [upper] may be missing. *)
Definition iterate (lower : string) (upper : option string) (db : DB) : list (string * string) :=
  match upper with
  | Some upper => db_range lower upper db
  | None => filter (fun e => bytes_ltb e.1 lower = false) (db_entries db)
  end.

Definition iterate_prefix (prefix : string) (db : DB) : list (string * string) := iterate prefix (prefixUpperBound prefix) db.

(** The record of a call: missing, unreadable, or its value. *)
Inductive get_result := NotFound | Unreadable | Found (v : recordValue).

Definition getRecordValue (call : string) (db : DB) : get_result :=
  match db_get (callKeyBytes call) db with
  | None => NotFound
  | Some raw => match decodeRecordValue raw with None => Unreadable | Some v => Found v end
  end.

(** [None]: an error. *)
Definition Get (call : string) (s : Store) : option (option Record_) :=
  let call := normalizeCall call in
  if bool_decide (call = "") then None
  else match getRecordValue call (st_db s) with
       | NotFound => Some None
       | Unreadable => None
       | Found v => Some (Some (recordValueToRecord call v))
       end.

Fixpoint read_entries (l : list (string * string)) : option (list Record_) :=
  match l with
  | [] => Some []
  | (k, raw) :: l =>
      match parseCallKey k with
      | None => read_entries l
      | Some call => match decodeRecordValue raw, read_entries l with
                     | Some v, Some rs => Some (recordValueToRecord call v :: rs)
                     | _, _ => None
                     end
      end
  end.

Definition Entries (s : Store) : option (list Record_) := read_entries (iterate_prefix callPrefix (st_db s)).

(** *** Updates *)

(** The writes of one record against the store as it was before the batch, and whether the
    call is new; [None] when the stored record cannot be read. *)
Definition upsert_writes (now : Z) (db : DB) (r : Record_) : option (list batch_op * Z) :=
  let call := normalizeCall (r_Call r) in
  if bool_decide (call = "") then Some ([], 0)
  else
    let incoming := normalizeRecordValue r now in
    match getRecordValue call db with
    | Unreadable => None
    | NotFound => Some ([BSet (callKeyBytes call) (encodeRecordValue incoming); BSet (updatedKeyBytes (updatedAt incoming) call) ""], 1)
    | Found e =>
        let merged := mergeRecordValue (Some e) incoming in
        Some (BSet (callKeyBytes call) (encodeRecordValue merged) ::
              (if negb (updatedAt e =? 0) && negb (updatedAt e =? updatedAt merged) then [BDelete (updatedKeyBytes (updatedAt e) call)] else []) ++
              (if negb (updatedAt e =? updatedAt merged) then [BSet (updatedKeyBytes (updatedAt merged) call) ""] else []), 0)
    end.

Fixpoint batch_upserts (now : Z) (db : DB) (recs : list Record_) : option (list batch_op * Z) :=
  match recs with
  | [] => Some ([], 0)
  | r :: recs => match upsert_writes now db r, batch_upserts now db recs with
                 | Some (ops, n), Some (ops', n') => Some (ops ++ ops', n + n')
                 | _, _ => None
                 end
  end.

(** Whether it succeeded; [ok]: the commit succeeds. *)
Definition applyUpsertBatch (now : Z) (ok : bool) (recs : list Record_) (s : Store) : bool * Store :=
  match recs with
  | [] => (true, s)
  | _ =>
      match batch_upserts now (st_db s) recs with
      | None => (false, s)
      | Some (ops, delta) =>
          let n := Z.max 0 (int64 (count s + delta)) in
          if ok then (true, if delta =? 0 then set_db (commit ops (st_db s)) s else mkStore (commit (ops ++ [BSet metaCountKey (encodeCount n)]) (st_db s)) n)
          else (false, s)
      end
  end.

(** *** Clearing the known flags *)

Definition clear_known (v : recordValue) : recordValue :=
  mkValue false (grid v) (gridValid v) (gridDerived v) (ctyValid v) (ctyADIF v) (ctyCQZone v) (ctyITUZone v) (ctyContinent v) (ctyCountry v)
    (observations v) (firstSeen v) (updatedAt v) (expiresAt v).

(** The pass over the iterator with the writes that wait; commit number [i] succeeds when [ok i]. *)
Fixpoint clear_pass (ok : nat -> bool) (i : nat) (l : list (string * string)) (pending : list batch_op) (db : DB) : bool * DB :=
  match l with
  | [] => match pending with [] => (true, db) | _ => if ok i then (true, commit pending db) else (false, db) end
  | (k, raw) :: l =>
      match parseCallKey k with
      | None => clear_pass ok i l pending db
      | Some call =>
          match decodeRecordValue raw with
          | None => (false, db)
          | Some v =>
              if negb (isKnown v) then clear_pass ok i l pending db
              else
                let pending := pending ++ [BSet (callKeyBytes call) (encodeRecordValue (clear_known v))] in
                if maintenanceBatchCap <=? Z.of_nat (length pending) then if ok i then clear_pass ok (S i) l [] (commit pending db) else (false, db)
                else clear_pass ok i l pending db
          end
      end
  end.

Definition applyClearKnownFlags (ok : nat -> bool) (s : Store) : bool * Store :=
  let '(good, db) := clear_pass ok 0 (iterate_prefix callPrefix (st_db s)) [] (st_db s) in (good, set_db db s).

(** *** The purge *)

(** The deletions that wait, with the count they leave. *)
Definition purge_commit (n : Z) (pending : list (string * string)) : list batch_op :=
  flat_map (fun e => [BDelete e.1; BDelete (callKeyBytes e.2)]) pending ++ [BSet metaCountKey (encodeCount (Z.max 0 (int64 (n - Z.of_nat (length pending)))))].

(** The pass over the index: whether it succeeded, the records removed, the count and the
    store. *)
Fixpoint purge_pass (cutoff : Z) (ok : nat -> bool) (i : nat) (l : list (string * string)) (pending : list (string * string)) (removed n : Z) (db : DB)
    : bool * Z * Z * DB :=
  let finish := match pending with
                | [] => (true, removed, n, db)
                | _ => if ok i then (true, removed + Z.of_nat (length pending), Z.max 0 (int64 (n - Z.of_nat (length pending))), commit (purge_commit n pending) db)
                       else (false, removed, n, db)
                end in
  match l with
  | [] => finish
  | (k, _) :: l =>
      match parseUpdatedKey k with
      | None => purge_pass cutoff ok i l pending removed n db
      | Some (ts, call) =>
          if cutoff <? ts then finish
          else
            let pending := pending ++ [(k, call)] in
            if maintenanceBatchCap <=? Z.of_nat (length pending) then
              if ok i then purge_pass cutoff ok (S i) l [] (removed + Z.of_nat (length pending)) (Z.max 0 (int64 (n - Z.of_nat (length pending)))) (commit (purge_commit n pending) db)
              else (false, removed, n, db)
            else purge_pass cutoff ok i l pending removed n db
      end
  end.

(** Whether it succeeded, how many records were removed, and the store; the count in memory
    changes when all is done. *)
Definition applyPurgeOlderThan (cutoff : Z) (ok : nat -> bool) (s : Store) : bool * Z * Store :=
  if IsZero cutoff then (true, 0, s)
  else
    let cutoffUnix := Unix cutoff in
    if cutoffUnix <=? 0 then (true, 0, s)
    else
      let '(good, removed, n, db) := purge_pass cutoffUnix ok 0 (iterate updatedPrefix (updatedUpperBound cutoffUnix) (st_db s)) [] 0 (count s) (st_db s) in
      (good, removed, mkStore db (if good then n else count s)).

(** *** The count *)

(** [inl]: it is missing or not eight bytes. *)
Definition readCountMeta (db : DB) : option Z :=
  match db_get metaCountKey db with
  | None => None
  | Some v => if len v =? 8 then Some (int64 (be_value v)) else None
  end.

Definition computeCount (db : DB) : Z := Z.of_nat (length (iterate_prefix callPrefix db)).

Definition loadCount (db : DB) : Z * DB :=
  match readCountMeta db with
  | Some n => (n, db)
  | None => let n := computeCount db in (n, db_set metaCountKey (encodeCount n) db)
  end.

Definition open_store (db : DB) : Store := let '(n, db) := loadCount db in mkStore db n.

(** The records a scan reads, or nothing when one is unreadable; with the stored count. *)
Definition verifyDB (db : DB) : option Z * option Z :=
  let l := iterate_prefix callPrefix db in
  (if forallb (fun e => match decodeRecordValue e.2 with Some _ => true | None => false end) l then Some (Z.of_nat (length l)) else None, readCountMeta db).

(** *** Requests *)

Inductive writeRequest := UpsertBatch (now : Z) (ok : bool) (recs : list Record_) | ClearKnown (ok : nat -> bool) | Purge (cutoff : Z) (ok : nat -> bool).

(** A round of [writeLoop]: whether the request succeeded, the records removed, the store. *)
Definition serve (r : writeRequest) (s : Store) : bool * Z * Store :=
  match r with
  | UpsertBatch now ok recs => let '(good, s) := applyUpsertBatch now ok recs s in (good, 0, s)
  | ClearKnown ok => let '(good, s) := applyClearKnownFlags ok s in (good, 0, s)
  | Purge cutoff ok => applyPurgeOlderThan cutoff ok s
  end.
End Store.
Arguments Store : clear implicits.

(** ** Facts about the encoding *)

(** A value the store writes: fields within their widths, texts short enough, the parts that
    are not valid empty, the update after the epoch. *)
Record value_ok (v : recordValue) : Prop := {
  ok_grid : gridValid v = negb (bool_decide (grid v = ""));
  ok_derived : gridDerived v = true -> gridValid v = true;
  ok_cty : ctyValid v = false -> ctyADIF v = 0 /\ ctyCQZone v = 0 /\ ctyITUZone v = 0 /\ ctyContinent v = "" /\ ctyCountry v = "";
  ok_numbers : 0 <= ctyADIF v < 2 ^ 32 /\ 0 <= ctyCQZone v < 2 ^ 16 /\ 0 <= ctyITUZone v < 2 ^ 16 /\ 0 <= observations v < 2 ^ 64;
  ok_texts : len (grid v) < 2 ^ 16 /\ len (ctyContinent v) < 2 ^ 16 /\ len (ctyCountry v) < 2 ^ 16;
  ok_times : in_int64 (firstSeen v) /\ in_int64 (expiresAt v) /\ 0 < updatedAt v <= max_int64
}.

(** The fixed part of a record, and the three texts behind it. *)
Lemma value_layout c0 c1 obs t1 t2 t3 adif cq itu n1 n2 n3 data :
  let raw := one_byte c0 +:+ one_byte c1 +:+ be_string 8 obs +:+ be_string 8 t1 +:+ be_string 8 t2 +:+ be_string 8 t3 +:+
             be_string 4 adif +:+ be_string 2 cq +:+ be_string 2 itu +:+ be_string 2 n1 +:+ be_string 2 n2 +:+ be_string 2 n3 +:+ data in
  sdrop recordHeaderSize raw = data /\ String.length raw = (recordHeaderSize + String.length data)%nat /\
  (be_at raw 0 1 = be_value (one_byte c0) /\ be_at raw 1 1 = be_value (one_byte c1)) /\
  (be_at raw 2 8 = be_value (be_string 8 obs) /\ be_at raw 10 8 = be_value (be_string 8 t1) /\ be_at raw 18 8 = be_value (be_string 8 t2) /\
   be_at raw 26 8 = be_value (be_string 8 t3)) /\
  (be_at raw 34 4 = be_value (be_string 4 adif) /\ be_at raw 38 2 = be_value (be_string 2 cq) /\ be_at raw 40 2 = be_value (be_string 2 itu)) /\
  be_at raw 42 2 = be_value (be_string 2 n1) /\ be_at raw 44 2 = be_value (be_string 2 n2) /\ be_at raw 46 2 = be_value (be_string 2 n3).
Proof. intros raw. repeat split. Qed.

Lemma be_value_byte z : 0 <= z < 256 -> be_value (one_byte z) = z.
Proof. intros H. unfold be_value, one_byte. simpl. rewrite byte_val_of; lia. Qed.

Lemma three_texts a b c :
  slice (a +:+ b +:+ c) 0 (String.length a) = a /\ slice (a +:+ b +:+ c) (String.length a) (String.length b) = b /\
  slice (a +:+ b +:+ c) (String.length a + String.length b) (String.length c) = c.
Proof.
  split; [exact (slice_app "" a (b +:+ c))|]. split; [apply slice_app|].
  pose proof (slice_app (a +:+ b) c "") as H. by rewrite sapp_nil_r, length_sapp, sapp_assoc in H.
Qed.

Lemma slice_of_drop k raw i n : slice (sdrop k raw) i n = slice raw (k + i) n.
Proof. unfold slice. by rewrite sdrop_add. Qed.

Lemma flags_bits a b c :
  let f := Z.lor (Z.lor (flag_bit a 1) (flag_bit b 2)) (flag_bit c 4) in
  0 <= f < 256 /\ Z.testbit f 0 = a /\ Z.testbit f 1 = b /\ Z.testbit f 2 = c.
Proof. destruct a, b, c; vm_compute; repeat split; discriminate. Qed.

Lemma text_length_stored t : len t < 2 ^ 16 -> Z.to_nat (be_value (be_string 2 (uint16 (len t)))) = String.length t.
Proof.
  intros H. rewrite be_value_string. unfold uint16, len in *. change (256 ^ Z.of_nat 2) with (2 ^ 16).
  rewrite Zmod_mod, Z.mod_small by lia. lia.
Qed.

Lemma be_value_int64 z : in_int64 z -> int64 (be_value (be_string 8 (uint64 z))) = z.
Proof. intros H. rewrite be_value_string. unfold uint64. change (256 ^ Z.of_nat 8) with (2 ^ 64). rewrite Zmod_mod. by apply int64_uint64. Qed.

Lemma be_value_small n z : 0 <= z < 256 ^ Z.of_nat n -> be_value (be_string n z) = z.
Proof. intros H. rewrite be_value_string. by apply Z.mod_small. Qed.

Lemma stored_expiry e : in_int64 e ->
  let raw := be_value (be_string 8 (if e =? expiresNone then 2 ^ 64 - 1 else uint64 e)) in
  (if raw =? 2 ^ 64 - 1 then expiresNone else int64 raw) = e.
Proof.
  intros He. cbv zeta. unfold expiresNone. destruct (Z.eqb_spec e (-1)) as [-> |Hne]; [by rewrite be_value_string|].
  rewrite be_value_string. unfold uint64. change (256 ^ Z.of_nat 8) with (2 ^ 64). rewrite Zmod_mod, int64_uint64 by done.
  destruct (Z.eqb_spec (e mod 2 ^ 64) (2 ^ 64 - 1)) as [Hm|]; [|done]. exfalso. apply Hne. rewrite <- (int64_uint64 e He), Hm. reflexivity.
Qed.

Lemma stored_texts_ok v : value_ok v -> stored_texts v = (grid v, ctyContinent v, ctyCountry v).
Proof.
  intros [Hg _ Hc _ _ _]. unfold stored_texts. rewrite Hg. destruct (ctyValid v) eqn:Hv.
  - case_bool_decide as E; simpl; [by rewrite E|done].
  - destruct (Hc eq_refl) as (_ & _ & _ & -> & ->). case_bool_decide as E; simpl; [by rewrite E|done].
Qed.

(** What was encoded is read back. *)
Lemma decode_encoded v : value_ok v -> decodeRecordValue (encodeRecordValue v) = Some v.
Proof.
  intros Hok. pose proof (stored_texts_ok v Hok) as Htexts. destruct Hok as [Hg Hd Hc (Ha & Hq & Hi & Ho) (T1 & T2 & T3) (Hf & He & Hu)].
  unfold encodeRecordValue, decodeRecordValue. rewrite Htexts.
  set (flags := Z.lor _ _). set (ex := if expiresAt v =? expiresNone then _ else _).
  destruct (value_layout recordVersion flags (observations v) (uint64 (firstSeen v)) (uint64 (updatedAt v)) ex (ctyADIF v) (ctyCQZone v) (ctyITUZone v)
              (uint16 (len (grid v))) (uint16 (len (ctyContinent v))) (uint16 (len (ctyCountry v))) (grid v +:+ ctyContinent v +:+ ctyCountry v))
    as (Ldata & Llen & (L0 & L1) & (L2 & L3 & L4 & L5) & (L6 & L7 & L8) & L9 & L10 & L11).
  set (raw := one_byte recordVersion +:+ _) in *. clearbody raw.
  destruct (flags_bits (isKnown v) (ctyValid v) (gridValid v && gridDerived v)) as (Fr & F0 & F1 & F2). fold flags in Fr, F0, F1, F2.
  rewrite Llen, L0, L1, L2, L3, L4, L5, L6, L7, L8, L9, L10, L11, !text_length_stored, !be_value_byte by done.
  destruct (three_texts (grid v) (ctyContinent v) (ctyCountry v)) as (S1 & S2 & S3).
  pose proof (slice_of_drop recordHeaderSize raw) as Hs. rewrite Ldata in Hs. rewrite F0, F1, F2.
  replace (_ || _) with false by (symmetry; apply orb_false_iff; split; [apply Nat.ltb_ge; lia|reflexivity]).
  rewrite !length_sapp. replace (_ <? _)%nat with false by (symmetry; apply Nat.ltb_ge; lia).
  rewrite <- !Nat.add_assoc, <- !Hs, S2, S3. rewrite <- (Nat.add_0_r recordHeaderSize) at 1. rewrite <- Hs, S1.
  unfold ex. rewrite (stored_expiry _ He), !be_value_int64 by (unfold in_int64, min_int64, max_int64 in *; lia).
  rewrite (be_value_small 8), (be_value_small 4), !(be_value_small 2) by (simpl; lia).
  assert (Hv : (0 <? String.length (grid v))%nat = gridValid v) by (rewrite Hg; destruct (grid v); done).
  rewrite Hv. destruct v; simpl in *. f_equal. f_equal; try (destruct ctyValid0; [done|]; destruct (Hc eq_refl) as (-> & -> & -> & -> & ->); done).
  destruct gridValid0, gridDerived0; try done. by discriminate Hd.
Qed.

(** ** Facts about keys *)

Lemma parse_callKey call : call <> "" -> parseCallKey (callKeyBytes call) = Some call.
Proof. destruct call as [|c call]; [done|]. intros _. unfold parseCallKey, callKeyBytes. destruct (len _ <=? len _) eqn:E; [|done].
  exfalso. apply Z.leb_le in E. rewrite len_sapp in E. unfold len in E. simpl in E. lia. Qed.

Lemma callKey_inv key call : parseCallKey key = Some call -> key = callKeyBytes call /\ call <> "".
Proof.
  unfold parseCallKey. destruct (_ || _) eqn:E; [done|]. apply orb_false_iff in E as [E1 E2]. intros [= <-].
  apply negb_false_iff, HasPrefix_spec in E2 as (t & ->). split; [done|]. apply Z.leb_gt in E1. rewrite len_sapp in E1. destruct t; [|done].
  unfold len in E1. simpl in E1. lia.
Qed.

Lemma updatedKey_length ts call : len (updatedKeyBytes ts call) = 10 + len call.
Proof. unfold updatedKeyBytes. rewrite !len_sapp. unfold len at 2. rewrite length_be_string. unfold len. simpl. lia. Qed.

Lemma parse_updatedKey ts call : in_int64 ts -> call <> "" -> parseUpdatedKey (updatedKeyBytes ts call) = Some (ts, call).
Proof.
  intros Hts Hc. unfold parseUpdatedKey. rewrite updatedKey_length. pose proof (nonempty_length call Hc) as Hl.
  destruct (Z.leb_spec (10 + len call) (len updatedPrefix + 8)) as [H|_]; [unfold len in H; simpl in H; lia|].
  replace (HasPrefix _ _) with true by (symmetry; apply HasPrefix_spec; unfold updatedKeyBytes; by eexists). cbn [negb orb].
  change (be_at (updatedKeyBytes ts call) 2 8) with (be_value (be_string 8 (uint64 ts))). rewrite be_value_int64 by done. reflexivity.
Qed.

Lemma be_string_value s : be_string (String.length s) (be_value s) = s.
Proof.
  unfold be_value. enough (Hgen : forall acc, be_string (String.length s) (be_acc acc s) = s) by apply Hgen.
  induction s as [|c s IH]; intros acc; [done|]. simpl. rewrite IH. f_equal.
  pose proof (be_acc_bound s) as Hb. unfold len in Hb. set (p := 256 ^ Z.of_nat (String.length s)) in *.
  assert (Hp : 0 < p) by (apply Z.pow_pos_nonneg; lia).
  assert (Hshift : forall a, be_acc a s = a * p + be_acc 0 s).
  { intros a. pose proof (be_acc_string (String.length s) (be_acc 0 s) a) as H1. rewrite IH in H1. rewrite H1. f_equal. apply Z.mod_small. specialize (Hb 0). lia. }
  rewrite Hshift. rewrite Z.div_add_l by lia. rewrite (Z.div_small (be_acc 0 s)) by (specialize (Hb 0); lia).
  rewrite Z.add_0_r, Z.add_comm, Z.mod_add, Z.mod_small by (pose proof (byte_val_range c); lia). apply byte_of_val.
Qed.

Lemma updatedKey_inv key ts call : parseUpdatedKey key = Some (ts, call) -> key = updatedKeyBytes ts call /\ call <> "" /\ in_int64 ts.
Proof.
  unfold parseUpdatedKey. destruct (_ || _) eqn:E; [done|]. apply orb_false_iff in E as [E1 E2]. intros [= <- <-].
  apply negb_false_iff, HasPrefix_spec in E2 as (t & ->). apply Z.leb_gt in E1. rewrite len_sapp in E1. unfold len in E1. cbn in E1.
  change (be_at (updatedPrefix +:+ t) 2 8) with (be_value (stake 8 t)). change (sdrop 10 (updatedPrefix +:+ t)) with (sdrop 8 t).
  assert (Hlen : String.length (stake 8 t) = 8%nat) by (rewrite length_stake; lia).
  pose proof (be_value_range (stake 8 t)) as Hr. unfold len in Hr. rewrite Hlen in Hr. change (256 ^ Z.of_nat 8) with (2 ^ 64) in Hr.
  split; [|split].
  - unfold updatedKeyBytes. f_equal. rewrite <- (stake_sdrop 8 t) at 1. f_equal. rewrite <- (be_string_value (stake 8 t)) at 1. rewrite Hlen. f_equal.
    unfold uint64, int64. rewrite Zminus_mod_idemp_l, Z.add_simpl_r, Z.mod_small; lia.
  - intros E. apply (f_equal String.length) in E. rewrite length_sdrop in E. simpl in E. lia.
  - unfold int64, in_int64, min_int64, max_int64. pose proof (Z.mod_pos_bound (be_value (stake 8 t) + 2 ^ 63) (2 ^ 64) ltac:(lia)). lia.
Qed.

(** No key is of two kinds. *)
Lemma callKey_not_updated call : parseUpdatedKey (callKeyBytes call) = None.
Proof. unfold parseUpdatedKey. destruct (_ <=? _); reflexivity. Qed.

Lemma updatedKey_not_call ts call : parseCallKey (updatedKeyBytes ts call) = None.
Proof. unfold parseCallKey. destruct (_ <=? _); reflexivity. Qed.

(** ** What the store holds *)

(** The value under a key when the known calls are [M] and the count is written as [m]. *)
Definition grid_lookup (M : gmap string recordValue) (m : option string) (k : string) : option string :=
  match parseCallKey k with
  | Some call => encodeRecordValue <$> M !! call
  | None =>
      match parseUpdatedKey k with
      | Some (ts, call) => match M !! call with Some v => if updatedAt v =? ts then Some "" else None | None => None end
      | None => if bool_decide (k = metaCountKey) then m else None
      end
  end.

Definition update_lookup (f : string -> option string) (o : batch_op) (k : string) : option string :=
  match o with
  | BSet k' v => if bool_decide (k = k') then Some v else f k
  | BDelete k' => if bool_decide (k = k') then None else f k
  end.

Record map_ok (M : gmap string recordValue) : Prop := {
  map_calls : M !! "" = None;
  map_values call v : M !! call = Some v -> value_ok v
}.

Lemma lookup_call M m call : call <> "" -> grid_lookup M m (callKeyBytes call) = encodeRecordValue <$> M !! call.
Proof. intros Hc. unfold grid_lookup. by rewrite parse_callKey. Qed.

Lemma lookup_updated M m ts call : in_int64 ts -> call <> "" ->
  grid_lookup M m (updatedKeyBytes ts call) = match M !! call with Some v => if updatedAt v =? ts then Some "" else None | None => None end.
Proof. intros Ht Hc. unfold grid_lookup. by rewrite updatedKey_not_call, parse_updatedKey. Qed.

Lemma lookup_meta M m : grid_lookup M m metaCountKey = m.
Proof. reflexivity. Qed.

Lemma callKey_inj a b : callKeyBytes a = callKeyBytes b -> a = b.
Proof. unfold callKeyBytes, callPrefix. rewrite !sapp_cons. intros H. by injection H. Qed.

Lemma updatedKey_inj ts call ts' call' : in_int64 ts -> in_int64 ts' -> call <> "" -> call' <> "" ->
  updatedKeyBytes ts call = updatedKeyBytes ts' call' -> ts = ts' /\ call = call'.
Proof. intros T T' C C' E. pose proof (parse_updatedKey ts call T C) as P. rewrite E, parse_updatedKey in P by done. by injection P as -> ->. Qed.

(** A key is the key of a call, an index key, the count, or none of the store's. *)
Inductive key_kind : string -> Prop :=
  | call_kind call : call <> "" -> key_kind (callKeyBytes call)
  | updated_kind ts call : in_int64 ts -> call <> "" -> key_kind (updatedKeyBytes ts call)
  | meta_kind : key_kind metaCountKey
  | other_kind k : parseCallKey k = None -> parseUpdatedKey k = None -> k <> metaCountKey -> key_kind k.

Lemma key_cases k : key_kind k.
Proof.
  destruct (parseCallKey k) as [call|] eqn:P1; [apply callKey_inv in P1 as [-> ?]; by constructor|].
  destruct (parseUpdatedKey k) as [[ts call]|] eqn:P2; [apply updatedKey_inv in P2 as (-> & ? & ?); by constructor|].
  destruct (decide (k = metaCountKey)) as [-> |]; [constructor|by apply other_kind].
Qed.

(** Which keys are the same. *)
Lemma key_cc a b : bool_decide (callKeyBytes a = callKeyBytes b) = bool_decide (a = b).
Proof. apply bool_decide_ext. split; [apply callKey_inj|congruence]. Qed.

Lemma key_cu a t b : bool_decide (callKeyBytes a = updatedKeyBytes t b) = false.
Proof. by apply bool_decide_false. Qed.

Lemma key_uc a t b : bool_decide (updatedKeyBytes t b = callKeyBytes a) = false.
Proof. by apply bool_decide_false. Qed.

Lemma key_uu t a t' b : in_int64 t -> in_int64 t' -> a <> "" -> b <> "" ->
  bool_decide (updatedKeyBytes t a = updatedKeyBytes t' b) = bool_decide (t = t') && bool_decide (a = b).
Proof.
  intros. rewrite <- bool_decide_and. apply bool_decide_ext. split; [by apply updatedKey_inj|by intros [-> ->]].
Qed.

Lemma other_call k a : a <> "" -> parseCallKey k = None -> bool_decide (k = callKeyBytes a) = false.
Proof. intros Ha P. apply bool_decide_false. intros ->. by rewrite parse_callKey in P. Qed.

Lemma other_updated k t a : in_int64 t -> a <> "" -> parseUpdatedKey k = None -> bool_decide (k = updatedKeyBytes t a) = false.
Proof. intros Ht Ha P. apply bool_decide_false. intros ->. by rewrite parse_updatedKey in P. Qed.

(** The entries around one call: what [M] and [M'] say of the others is the same. *)
Lemma lookup_around M M' m call f : call <> "" -> (forall c, c <> call -> M' !! c = M !! c) ->
  (forall k, f k = grid_lookup M m k \/ k = callKeyBytes call \/ exists t, in_int64 t /\ k = updatedKeyBytes t call) ->
  f (callKeyBytes call) = encodeRecordValue <$> M' !! call ->
  (forall t, in_int64 t -> f (updatedKeyBytes t call) = match M' !! call with Some v => if updatedAt v =? t then Some "" else None | None => None end) ->
  forall k, f k = grid_lookup M' m k.
Proof.
  intros Hc Hoth Hf Hcall Hidx k. destruct (key_cases k) as [c Hne|ts c Hts Hne| |k P1 P2 P3].
  - destruct (decide (c = call)) as [-> |Hd]; [by rewrite lookup_call|]. rewrite lookup_call, Hoth by done.
    destruct (Hf (callKeyBytes c)) as [-> |[E|(t & _ & E)]]; [by apply lookup_call|by apply callKey_inj in E|done].
  - destruct (decide (c = call)) as [-> |Hd]; [by rewrite lookup_updated, Hidx|]. rewrite lookup_updated, Hoth by done.
    destruct (Hf (updatedKeyBytes ts c)) as [-> |[E|(t & Ht & E)]]; [by apply lookup_updated|done|by apply updatedKey_inj in E as [_ ?]].
  - destruct (Hf metaCountKey) as [-> |[E|(t & _ & E)]]; done.
  - unfold grid_lookup at 1. rewrite P1, P2. destruct (Hf k) as [-> |[-> |(t & Ht & ->)]].
    + unfold grid_lookup. by rewrite P1, P2.
    + by rewrite parse_callKey in P1.
    + by rewrite parse_updatedKey in P2.
Qed.

Definition update_all (ops : list batch_op) (f : string -> option string) : string -> option string := fold_left update_lookup ops f.

Definition op_key (o : batch_op) : string := match o with BSet k _ => k | BDelete k => k end.

Lemma update_elsewhere ops f k : k ∉ map op_key ops -> update_all ops f k = f k.
Proof.
  unfold update_all. revert f. induction ops as [|o ops IH]; intros f Hk; simpl in *; [done|]. apply not_elem_of_cons in Hk as [H1 H2].
  rewrite IH by done. destruct o; simpl in *; by rewrite bool_decide_false.
Qed.

Lemma update_meta M m n k : update_lookup (grid_lookup M m) (BSet metaCountKey n) k = grid_lookup M (Some n) k.
Proof. unfold update_lookup. case_bool_decide as E; [by subst|]. unfold grid_lookup. destruct (parseCallKey k); [done|]. destruct (parseUpdatedKey k) as [[]|]; [done|]. by rewrite !bool_decide_false. Qed.

(** Operations on the entries of one call. *)
Lemma update_one M M' m call ops : call <> "" -> (forall c, c <> call -> M' !! c = M !! c) ->
  (forall o, o ∈ ops -> op_key o = callKeyBytes call \/ exists t, in_int64 t /\ op_key o = updatedKeyBytes t call) ->
  update_all ops (grid_lookup M m) (callKeyBytes call) = encodeRecordValue <$> M' !! call ->
  (forall t, in_int64 t -> update_all ops (grid_lookup M m) (updatedKeyBytes t call) = match M' !! call with Some v => if updatedAt v =? t then Some "" else None | None => None end) ->
  forall k, update_all ops (grid_lookup M m) k = grid_lookup M' m k.
Proof.
  intros Hc Hoth Hops H1 H2. apply (lookup_around M M' m call); [done..| |done|done]. intros k.
  destruct (decide (k ∈ map op_key ops)) as [Hk|Hk]; [|left; by apply update_elsewhere]. right.
  apply list_elem_of_fmap in Hk as (o & -> & Ho). by apply Hops.
Qed.

(** A record that is new, or whose time may move, with its index entry. *)
Definition move_ops (call : string) (old : option Z) (v : recordValue) : list batch_op :=
  BSet (callKeyBytes call) (encodeRecordValue v) ::
  match old with
  | None => [BSet (updatedKeyBytes (updatedAt v) call) ""]
  | Some t => if t =? updatedAt v then [] else [BDelete (updatedKeyBytes t call); BSet (updatedKeyBytes (updatedAt v) call) ""]
  end.

Lemma value_time v : value_ok v -> in_int64 (updatedAt v).
Proof. intros []. unfold in_int64, min_int64, max_int64 in *. lia. Qed.

Lemma move_record M m call v : call <> "" -> map_ok M -> value_ok v ->
  forall k, update_all (move_ops call (updatedAt <$> M !! call) v) (grid_lookup M m) k = grid_lookup (<[call := v]> M) m k.
Proof.
  intros Hc HM Hv. pose proof (value_time v Hv) as Ht.
  assert (Hold : forall u, M !! call = Some u -> in_int64 (updatedAt u)) by (intros u Hu; by eapply value_time, map_values).
  apply (update_one _ _ _ call); [done|intros c Hd; by rewrite lookup_insert_ne| | |].
  - intros o Ho. unfold move_ops in Ho. destruct (M !! call) as [u|]; cbn [fmap option_fmap option_map] in Ho; [specialize (Hold u eq_refl); destruct (updatedAt u =? updatedAt v)|];
      repeat (apply elem_of_cons in Ho as [-> |Ho]; [cbn; eauto|]); by apply not_elem_of_nil in Ho.
  - rewrite lookup_insert_eq. unfold move_ops, update_all. destruct (M !! call) as [u|]; cbn [fmap option_fmap option_map]; [destruct (updatedAt u =? updatedAt v)|]; cbn -[encodeRecordValue callKeyBytes updatedKeyBytes]; by rewrite ?key_cu, key_cc, bool_decide_true by done.
  - intros t Hin. rewrite lookup_insert_eq. unfold move_ops, update_all. destruct (M !! call) as [u|] eqn:Hm; cbn [fmap option_fmap option_map].
    + specialize (Hold u eq_refl). destruct (Z.eqb_spec (updatedAt u) (updatedAt v)) as [E|E]; cbn -[encodeRecordValue callKeyBytes updatedKeyBytes]; rewrite key_uc, ?key_uu, lookup_updated, Hm by done;
        [by rewrite E|]. rewrite (bool_decide_true (call = call)), !andb_true_r by done.
      repeat case_bool_decide; destruct (Z.eqb_spec (updatedAt v) t), (Z.eqb_spec (updatedAt u) t); subst; done.
    + cbn -[encodeRecordValue callKeyBytes updatedKeyBytes]. rewrite key_uc, key_uu, lookup_updated, Hm by done. rewrite (bool_decide_true (call = call)), andb_true_r by done.
      case_bool_decide; destruct (Z.eqb_spec (updatedAt v) t); subst; done.
Qed.

(** A record goes, with its index entry. *)
Lemma delete_record M m call v : call <> "" -> value_ok v -> M !! call = Some v ->
  forall k, update_all [BDelete (updatedKeyBytes (updatedAt v) call); BDelete (callKeyBytes call)] (grid_lookup M m) k = grid_lookup (delete call M) m k.
Proof.
  intros Hc Hv Hm. pose proof (value_time v Hv) as Ht. apply (update_one _ _ _ call); [done|intros c Hd; by rewrite lookup_delete_ne| | |].
  - intros o Ho. repeat (apply elem_of_cons in Ho as [-> |Ho]; [cbn; eauto|]). by apply not_elem_of_nil in Ho.
  - rewrite lookup_delete_eq. cbn -[encodeRecordValue callKeyBytes updatedKeyBytes]. by rewrite key_cc, bool_decide_true.
  - intros t Hin. rewrite lookup_delete_eq. cbn -[encodeRecordValue callKeyBytes updatedKeyBytes]. rewrite key_uc, key_uu, lookup_updated, Hm, (bool_decide_true (call = call)), andb_true_r by done.
    case_bool_decide; destruct (Z.eqb_spec (updatedAt v) t); subst; done.
Qed.

Section Laws.
Context `{PebbleLaws DB}.

Definition reads (d : DB) (f : string -> option string) : Prop := forall k v, (k, v) ∈ db_entries d <-> f k = Some v.

Lemma reads_ext d f g : reads d f -> (forall k, f k = g k) -> reads d g.
Proof. intros Hr He k v. rewrite <- He. apply Hr. Qed.

Lemma reads_op d f o : reads d f -> reads (apply_op d o) (update_lookup f o).
Proof.
  intros Hr k v. destruct o as [k' v'|k']; simpl; [rewrite entries_set|rewrite entries_delete]; rewrite (Hr k v); case_bool_decide; naive_solver.
Qed.

Lemma reads_commit ops d f : reads d f -> reads (commit ops d) (update_all ops f).
Proof. unfold commit, update_all. revert d f. induction ops as [|o ops IH]; intros d f Hr; simpl; [done|]. by apply IH, reads_op. Qed.

Lemma reads_get d f k : reads d f -> db_get k d = f k.
Proof.
  intros Hr. unfold db_get. assert (Hm : forall e, e ∈ filter (fun e => e.1 = k) (db_entries d) <-> e.1 = k /\ f k = Some e.2).
  { intros [k' v]. rewrite list_elem_of_filter. simpl. rewrite (Hr k' v). naive_solver. }
  destruct (filter _ _) as [|[k' v] l].
  - destruct (f k) as [v|] eqn:E; [|done]. exfalso. apply (not_elem_of_nil (k, v)), Hm. auto.
  - destruct (proj1 (Hm (k', v)) ltac:(apply elem_of_cons; by left)) as [_ ->]. done.
Qed.

(** The store holds the known calls [M] and the count [m]. *)
Record holds (d : DB) (M : gmap string recordValue) (m : option string) : Prop := {
  holds_ok : map_ok M;
  holds_reads : reads d (grid_lookup M m)
}.

Lemma holds_empty : holds db_empty ∅ None.
Proof.
  split; [split; [apply lookup_empty|intros c v E; by rewrite lookup_empty in E]|]. intros k v. rewrite entries_empty.
  split; [intros E; by apply not_elem_of_nil in E|]. unfold grid_lookup. destruct (parseCallKey k); [by rewrite lookup_empty|].
  destruct (parseUpdatedKey k) as [[ts c]|]; [by rewrite lookup_empty|]. by destruct (bool_decide _).
Qed.

Lemma holds_commit ops d M m M' m' : holds d M m -> map_ok M' -> (forall k, update_all ops (grid_lookup M m) k = grid_lookup M' m' k) -> holds (commit ops d) M' m'.
Proof. intros [_ Hr] HM He. split; [done|]. eapply reads_ext; [by apply reads_commit|done]. Qed.

Lemma holds_count d M m n : holds d M m -> holds (commit [BSet metaCountKey n] d) M (Some n).
Proof. intros Hh. eapply holds_commit; [done|apply Hh|]. intros k. apply update_meta. Qed.

(** The record of a call. *)
Lemma holds_get d M m call : holds d M m -> call <> "" ->
  getRecordValue call d = match M !! call with Some v => Found v | None => NotFound end.
Proof.
  intros [HM Hr] Hc. unfold getRecordValue. rewrite (reads_get d _ _ Hr), lookup_call by done.
  destruct (M !! call) as [v|] eqn:E; simpl; [|done]. rewrite decode_encoded by (by eapply map_values). done.
Qed.

(** ** What iterators see *)

Definition call_entry (e : string * recordValue) : string * string := (callKeyBytes e.1, encodeRecordValue e.2).
Definition index_entry (e : string * recordValue) : string * string := (updatedKeyBytes (updatedAt e.2) e.1, "").

Lemma iterate_elem lower upper d e :
  e ∈ iterate lower upper d <-> e ∈ db_entries d /\ bytes_ltb e.1 lower = false /\ match upper with Some u => bytes_ltb e.1 u = true | None => True end.
Proof.
  unfold iterate, db_range. destruct upper; rewrite list_elem_of_filter; [|tauto]. rewrite andb_true_iff, negb_true_iff. tauto.
Qed.

Lemma iterate_nodup lower upper d : NoDup (iterate lower upper d).
Proof.
  unfold iterate, db_range. destruct upper; apply NoDup_filter; apply (NoDup_fmap_1 fst), entries_nodup.
Qed.

Lemma call_range call : bytes_ltb (callKeyBytes call) callPrefix = false /\ bytes_ltb (callKeyBytes call) "c}" = true.
Proof. split; [|reflexivity]. unfold callKeyBytes. rewrite <- (sapp_nil_r callPrefix) at 2. rewrite bytes_lt_app_r. by destruct call. Qed.

Lemma map_call_nonempty M call v : map_ok M -> M !! call = Some v -> call <> "".
Proof. intros HM E ->. by rewrite (map_calls M HM) in E. Qed.

Lemma iterate_calls d M m : holds d M m -> iterate_prefix callPrefix d ≡ₚ map call_entry (map_to_list M).
Proof.
  intros [HM Hr]. apply NoDup_Permutation; [apply iterate_nodup| |].
  - apply (NoDup_fmap_2_strong call_entry); [|apply NoDup_map_to_list]. intros [c v] [c' v'] H1 H2 E. apply elem_of_map_to_list in H1, H2.
    apply (f_equal fst), callKey_inj in E. simpl in E. subst. congruence.
  - intros [k raw]. unfold iterate_prefix. change (prefixUpperBound callPrefix) with (Some "c}"). rewrite iterate_elem, (Hr k raw). simpl fst.
    rewrite list_elem_of_fmap. split.
    + intros (Hk & H1 & H2). destruct (key_cases k) as [c Hne|ts c Hts Hne| |k P1 P2 P3].
      * rewrite lookup_call in Hk by done. destruct (M !! c) as [v|] eqn:E; [|done]. injection Hk as <-. exists (c, v). split; [done|by apply elem_of_map_to_list].
      * discriminate H2.
      * discriminate H2.
      * unfold grid_lookup in Hk. by rewrite P1, P2, bool_decide_false in Hk.
    + intros ([c v] & [= -> ->] & E). apply elem_of_map_to_list in E. rewrite lookup_call, E by (by eapply map_call_nonempty). split; [done|apply call_range].
Qed.

Lemma index_range cutoff ts call : 0 < cutoff <= max_int64 -> 0 < ts <= max_int64 ->
  bytes_ltb (updatedKeyBytes ts call) updatedPrefix = false /\
  (match updatedUpperBound cutoff with Some u => bytes_ltb (updatedKeyBytes ts call) u = true | None => True end <-> ts <= cutoff).
Proof.
  intros Hc Ht. split; [reflexivity|]. unfold updatedUpperBound. destruct (Z.eqb_spec cutoff max_int64) as [-> |Hne]; [tauto|].
  unfold updatedKeyBytes. rewrite bytes_lt_app_r. unfold uint64, max_int64 in *. rewrite !Z.mod_small by lia.
  change (bytes_lt (be_string 8 ts +:+ call) (be_string 8 (cutoff + 1) +:+ "") <-> ts <= cutoff). rewrite bytes_lt_be by (simpl; lia).
  unfold bytes_lt. destruct call; simpl; intuition (lia || done).
Qed.

Definition older (cutoff : Z) (M : gmap string recordValue) : gmap string recordValue := filter (fun e => updatedAt e.2 <= cutoff) M.

Lemma iterate_index d M m cutoff : holds d M m -> 0 < cutoff <= max_int64 ->
  iterate updatedPrefix (updatedUpperBound cutoff) d ≡ₚ map index_entry (map_to_list (older cutoff M)).
Proof.
  intros [HM Hr] Hcut. assert (Hv : forall c v, M !! c = Some v -> c <> "" /\ 0 < updatedAt v <= max_int64 /\ in_int64 (updatedAt v)).
  { intros c v E. pose proof (map_values M HM c v E) as Hv. split; [by eapply map_call_nonempty|]. split; [apply Hv|by apply value_time]. }
  apply NoDup_Permutation; [apply iterate_nodup| |].
  - apply (NoDup_fmap_2_strong index_entry); [|apply NoDup_map_to_list]. intros [c v] [c' v'] H1 H2 E. apply elem_of_map_to_list in H1, H2.
    apply map_lookup_filter_Some in H1 as [H1 _], H2 as [H2 _]. apply (f_equal fst) in E. destruct (Hv _ _ H1) as (? & _ & ?), (Hv _ _ H2) as (? & _ & ?).
    apply updatedKey_inj in E as [_ E]; [|done..]. simpl in E. subst. congruence.
  - intros [k raw]. rewrite iterate_elem, (Hr k raw), list_elem_of_fmap. simpl fst. split.
    + intros (Hk & H1 & H2). destruct (key_cases k) as [c Hne|ts c Hts Hne| |k P1 P2 P3].
      * discriminate H1.
      * rewrite lookup_updated in Hk by done. destruct (M !! c) as [v|] eqn:E; [|done]. destruct (Z.eqb_spec (updatedAt v) ts) as [<-|]; [|done].
        injection Hk as <-. exists (c, v). split; [done|]. apply elem_of_map_to_list, map_lookup_filter_Some. split; [done|].
        by apply (index_range cutoff (updatedAt v) c Hcut); [apply (Hv c v)|].
      * discriminate H1.
      * unfold grid_lookup in Hk. by rewrite P1, P2, bool_decide_false in Hk.
    + intros ([c v] & [= -> ->] & E). apply elem_of_map_to_list, map_lookup_filter_Some in E as [E Hle]. simpl in Hle.
      destruct (Hv c v E) as (Hne & Hr1 & Hi). rewrite lookup_updated, E, Z.eqb_refl by done. split; [done|].
      destruct (index_range cutoff (updatedAt v) c Hcut Hr1) as [R1 R2]. split; [done|]. by apply R2.
Qed.

(** ** What a batch does *)

Definition upsert_record (now : Z) (M : gmap string recordValue) (r : Record_) : gmap string recordValue :=
  let call := normalizeCall (r_Call r) in
  if bool_decide (call = "") then M else <[call := mergeRecordValue (M !! call) (normalizeRecordValue r now)]> M.

Definition upsert_all (now : Z) (recs : list Record_) (M : gmap string recordValue) : gmap string recordValue := fold_left (upsert_record now) recs M.

(** Texts shorter than 64 KiB, times a store can write, the update after the epoch. *)
Record record_ok (now : Z) (r : Record_) : Prop := {
  rec_texts : match r_Grid r with Some g => len g < 2 ^ 16 | None => True end /\ len (CTYContinent r) < 2 ^ 16 /\ len (CTYCountry r) < 2 ^ 16;
  rec_observations : Observations r <= max_int64;
  rec_times : 0 < Unix (if IsZero (UpdatedAt r) then now else UpdatedAt r) <= max_int64 /\ in_int64 (Unix (FirstSeen r)) /\
              match ExpiresAt r with Some t => in_int64 (Unix t) | None => True end
}.

Lemma len_upper_trim s : len (upper_trim s) <= len s.
Proof. unfold upper_trim, len. rewrite length_ToUpper. pose proof (length_TrimSpace s). lia. Qed.

Lemma len_TrimSpace s : len (TrimSpace s) <= len s.
Proof. unfold len. pose proof (length_TrimSpace s). lia. Qed.

Lemma clamp_width_range w v : 0 < w -> 0 <= clamp_width w v < 2 ^ w.
Proof. intros Hw. assert (0 < 2 ^ w) by (apply Z.pow_pos_nonneg; lia). unfold clamp_width. destruct (Z.leb_spec v 0); [lia|]. destruct (Z.ltb_spec (2 ^ w - 1) v); lia. Qed.

Lemma normalizeGrid_ok g : (match g with Some g => len g < 2 ^ 16 | None => True end) ->
  let '(v, b) := normalizeGrid g in b = negb (bool_decide (v = "")) /\ len v < 2 ^ 16.
Proof.
  intros Hl. destruct g as [g|]; simpl; [|done]. pose proof (len_upper_trim g). case_bool_decide; simpl; [done|]. rewrite bool_decide_false by done. split; [done|lia].
Qed.

Lemma normalize_ok now r : record_ok now r -> value_ok (normalizeRecordValue r now).
Proof.
  intros [(Tg & Tc & Ty) Ho (Hu & Hf & He)]. unfold normalizeRecordValue. pose proof (normalizeGrid_ok _ Tg) as Hg. destruct (normalizeGrid (r_Grid r)) as [g gv]. destruct Hg as [-> Hg].
  assert (Hcty : let '(a, b, c) := normalizeCTY r in len a < 2 ^ 16 /\ len b < 2 ^ 16 /\ (c = false -> a = "" /\ b = "")).
  { unfold normalizeCTY. pose proof (len_upper_trim (CTYContinent r)). pose proof (len_TrimSpace (CTYCountry r)). destruct (_ || _); [split_and!; [lia|lia|done]|done]. }
  destruct (normalizeCTY r) as [[cont country] cty]. destruct Hcty as (H1 & H2 & H3).
  pose proof (clamp_width_range 32 (CTYADIF r) ltac:(lia)). pose proof (clamp_width_range 16 (CTYCQZone r) ltac:(lia)). pose proof (clamp_width_range 16 (CTYITUZone r) ltac:(lia)).
  unfold max_int64 in *. split; simpl.
  - done.
  - intros E. by apply andb_prop in E as [_ ->].
  - intros ->. by destruct (H3 eq_refl) as [-> ->].
  - unfold clampUint32, clampUint16. destruct cty, (Z.ltb_spec (Observations r) 0); lia.
  - done.
  - split; [|split; [|done]].
    + destruct (IsZero (FirstSeen r)); [unfold in_int64, min_int64, max_int64; lia|done].
    + destruct (ExpiresAt r); [done|]. unfold expiresNone, in_int64, min_int64, max_int64. lia.
Qed.

Lemma merge_ok e v : match e with Some u => value_ok u | None => True end -> value_ok v -> value_ok (mergeRecordValue e v).
Proof.
  destruct e as [e|]; [|done]. intros [Eg Ed Ec En Et Em] [Vg Vd Vc Vn Vt Vm]. unfold mergeRecordValue.
  set (c := if ctyValid v then v else e).
  assert (Hc : (ctyValid c = false -> ctyADIF c = 0 /\ ctyCQZone c = 0 /\ ctyITUZone c = 0 /\ ctyContinent c = "" /\ ctyCountry c = "") /\
               0 <= ctyADIF c < 2 ^ 32 /\ 0 <= ctyCQZone c < 2 ^ 16 /\ 0 <= ctyITUZone c < 2 ^ 16 /\ len (ctyContinent c) < 2 ^ 16 /\ len (ctyCountry c) < 2 ^ 16)
    by (unfold c; destruct (ctyValid v) eqn:Cv; split_and!; tauto || congruence). clearbody c.
  assert (Hg : let '(g, gv, gd) := if negb (gridValid v) then (grid e, gridValid e, gridDerived e) else if gridDerived v && gridValid e && negb (gridDerived e) then (grid e, true, false) else (grid v, gridValid v, gridDerived v) in
               gv = negb (bool_decide (g = "")) /\ (gd = true -> gv = true) /\ len g < 2 ^ 16).
  { destruct Et as (Et & _), Vt as (Vt & _). destruct (gridValid v) eqn:Gv; cbn [negb]; [|by split_and!].
    destruct (gridDerived v && gridValid e && negb (gridDerived e)) eqn:K; [|by split_and!].
    apply andb_prop in K as [K _]. apply andb_prop in K as [_ K]. rewrite K in Eg. by split_and!. }
  destruct (if negb (gridValid v) then _ else _) as [[g gv] gd]. destruct Hc as (C1 & C2 & C3 & C4 & C5 & C6). destruct Hg as (G1 & G2 & G3).
  split; simpl; [done|done|done| |done|].
  - split_and!; try lia; unfold uint64; apply Z.mod_pos_bound; lia.
  - split; [|split].
    + destruct (negb _ && _); tauto.
    + destruct (expiresAt v =? expiresNone); tauto.
    + destruct (Z.ltb_spec (updatedAt v) (updatedAt e)); lia.
Qed.

(** The writes of a record are those that move it. *)
Lemma upsert_writes_spec now d M m r :
  holds d M m -> record_ok now r ->
  upsert_writes now d r =
    let call := normalizeCall (r_Call r) in
    if bool_decide (call = "") then Some ([], 0)
    else Some (move_ops call (updatedAt <$> M !! call) (mergeRecordValue (M !! call) (normalizeRecordValue r now)), if bool_decide (is_Some (M !! call)) then 0 else 1).
Proof.
  intros Hh Hr. unfold upsert_writes. cbv zeta. case_bool_decide as Hc; [done|]. rewrite (holds_get d M m _ Hh Hc).
  destruct (M !! normalizeCall (r_Call r)) as [e|] eqn:E; [|done]. rewrite bool_decide_true by done. unfold move_ops. cbn [fmap option_fmap option_map].
  pose proof (map_values M (holds_ok d M m Hh) _ e E) as He. destruct (Z.eqb_spec (updatedAt e) 0) as [Hz|_]; [destruct He; lia|].
  destruct (_ =? updatedAt (mergeRecordValue _ _)); done.
Qed.

Lemma upsert_record_ok now M r : map_ok M -> record_ok now r -> map_ok (upsert_record now M r).
Proof.
  intros HM Hr. unfold upsert_record. case_bool_decide as Hc; [done|]. split.
  - rewrite lookup_insert_ne by done. apply HM.
  - intros call v. destruct (decide (call = normalizeCall (r_Call r))) as [-> |Hd]; [rewrite lookup_insert_eq|rewrite lookup_insert_ne by done; apply HM].
    intros [= <-]. apply merge_ok; [|by apply normalize_ok]. destruct (M !! _) as [e|] eqn:E; [by eapply map_values|done].
Qed.

(** The calls of a batch that are not empty. *)
Definition batch_calls (recs : list Record_) : list string := filter (fun c => c <> "") (map (fun r => normalizeCall (r_Call r)) recs).

Lemma upsert_record_other now M r c : c <> normalizeCall (r_Call r) -> upsert_record now M r !! c = M !! c.
Proof. intros Hd. unfold upsert_record. case_bool_decide; [done|]. by rewrite lookup_insert_ne. Qed.

Lemma batch_calls_cons r recs : batch_calls (r :: recs) = if bool_decide (normalizeCall (r_Call r) = "") then batch_calls recs else normalizeCall (r_Call r) :: batch_calls recs.
Proof.
  unfold batch_calls. cbn [map]. case_bool_decide; [by rewrite filter_cons_False by tauto|by rewrite filter_cons_True].
Qed.

(** A batch of different calls merges each with what was stored of it. *)
Lemma batch_upserts_spec now d M0 m0 recs d1 M1 m :
  holds d M0 m0 -> holds d1 M1 m -> Forall (record_ok now) recs -> NoDup (batch_calls recs) -> (forall c, c ∈ batch_calls recs -> M1 !! c = M0 !! c) ->
  exists ops n, batch_upserts now d recs = Some (ops, n) /\ holds (commit ops d1) (upsert_all now recs M1) m /\ 0 <= n <= Z.of_nat (length recs) /\
    Z.of_nat (size (upsert_all now recs M1)) = Z.of_nat (size M1) + n.
Proof.
  intros Hd0. revert d1 M1. induction recs as [|r recs IH]; intros d1 M1 H1 Hok Hnd Hsame; [exists [], 0; simpl; split; [done|split; [done|lia]]|].
  apply Forall_cons in Hok as [Hr Hok]. rewrite batch_calls_cons in Hnd, Hsame. simpl. rewrite (upsert_writes_spec now d M0 m0 r Hd0 Hr). cbv zeta.
  set (call := normalizeCall (r_Call r)) in *. case_bool_decide as Hc.
  - destruct (IH d1 M1 H1 Hok Hnd Hsame) as (ops & n & -> & Hh & Hn & Hs). exists ops, (0 + n). replace (upsert_record now M1 r) with M1 by (unfold upsert_record; by rewrite bool_decide_true).
    split; [done|]. split; [done|]. lia.
  - apply NoDup_cons in Hnd as [Hni Hnd]. assert (Hcall : M1 !! call = M0 !! call) by (apply Hsame, elem_of_cons; by left).
    rewrite <- Hcall. set (v := mergeRecordValue _ _). set (ops1 := move_ops _ _ _). assert (Hup : upsert_record now M1 r = <[call := v]> M1) by (unfold upsert_record; by rewrite bool_decide_false).
    assert (Hv : value_ok v). { apply merge_ok; [|by apply normalize_ok]. destruct (M1 !! call) eqn:E; [|done]. eapply map_values; [apply H1|done]. }
    assert (Hd1' : holds (commit ops1 d1) (upsert_record now M1 r) m).
    { eapply holds_commit; [done|apply upsert_record_ok; [apply H1|done]|]. rewrite Hup. apply move_record; [done|apply H1|done]. }
    destruct (IH _ _ Hd1' Hok Hnd) as (ops & n & -> & Hh & Hn & Hs).
    { intros c Hin. rewrite upsert_record_other by (intros ->; done). apply Hsame, elem_of_cons. by right. }
    eexists _, _. split; [reflexivity|]. rewrite commit_app. split; [done|]. unfold upsert_all in *. simpl. rewrite Hs, Hup.
    case_bool_decide as Hin; [rewrite map_size_insert_Some by done|rewrite map_size_insert_None by (by apply eq_None_not_Some)]; lia.
Qed.

(** ** What maintenance does *)

Definition clear_op (e : string * recordValue) : batch_op := BSet (callKeyBytes e.1) (encodeRecordValue (clear_known e.2)).

Definition clear_calls (L : list (string * recordValue)) (M : gmap string recordValue) : gmap string recordValue := fold_left (fun M e => <[e.1 := clear_known e.2]> M) L M.

Definition remove_calls (L : list (string * recordValue)) (M : gmap string recordValue) : gmap string recordValue := fold_left (fun M e => delete e.1 M) L M.

Definition stored (L : list (string * recordValue)) (M : gmap string recordValue) : Prop := NoDup (map fst L) /\ forall e, e ∈ L -> M !! e.1 = Some e.2.

Lemma clear_known_ok v : value_ok v -> value_ok (clear_known v).
Proof. intros []. by split. Qed.

Lemma stored_cons e L M : stored (e :: L) M -> M !! e.1 = Some e.2 /\ e.1 ∉ map fst L /\ stored L M.
Proof. intros [Hnd Hl]. apply NoDup_cons in Hnd as [H1 H2]. split; [apply Hl, elem_of_cons; by left|]. split; [done|]. split; [done|]. intros x Hx. apply Hl, elem_of_cons. by right. Qed.

(** Changing one call leaves what is stored of the others. *)
Lemma stored_other e L M M' : e ∉ map fst L -> (forall c, c <> e -> M' !! c = M !! c) -> stored L M -> stored L M'.
Proof. intros Hni Hoth [Hnd Hl]. split; [done|]. intros x Hx. rewrite Hoth; [by apply Hl|]. intros E. apply Hni, list_elem_of_fmap. by exists x. Qed.

Lemma stored_app A B M : stored (A ++ B) M -> stored A M /\ stored B M /\ forall e, e ∈ A -> e.1 ∉ map fst B.
Proof.
  intros [Hnd Hl]. rewrite map_app in Hnd. apply NoDup_app in Hnd as (N1 & N2 & N3). split; [split; [done|]; intros e He; apply Hl, elem_of_app; by left|].
  split; [split; [done|]; intros e He; apply Hl, elem_of_app; by right|]. intros e He. apply N2, list_elem_of_fmap. by exists e.
Qed.

Lemma clear_commit L d M m : holds d M m -> stored L M -> holds (commit (map clear_op L) d) (clear_calls L M) m.
Proof.
  revert d M. induction L as [|e L IH]; intros d M Hh Hs; [done|]. apply stored_cons in Hs as (He & Hni & Hs).
  change (map clear_op (e :: L)) with ([clear_op e] ++ map clear_op L). rewrite commit_app. simpl clear_calls. apply IH.
  - pose proof (holds_ok _ _ _ Hh) as HM. pose proof (map_values M HM _ _ He) as Hv. pose proof (clear_known_ok _ Hv) as Hv'. pose proof (map_call_nonempty M _ _ HM He) as Hc.
    eapply holds_commit; [done| |].
    + split; [rewrite lookup_insert_ne by done; apply HM|]. intros c v. destruct (decide (c = e.1)) as [-> |Hd]; [rewrite lookup_insert_eq; by intros [= <-]|].
      rewrite lookup_insert_ne by done. apply HM.
    + intros k. rewrite <- move_record by done. unfold move_ops. rewrite He. cbn [fmap option_fmap option_map]. change (updatedAt (clear_known e.2)) with (updatedAt e.2). by rewrite Z.eqb_refl.
  - eapply stored_other; [done| |done]. intros c Hc. by rewrite lookup_insert_ne.
Qed.

Lemma clear_calls_lookup L M c : stored L M -> clear_calls L M !! c = if bool_decide (c ∈ map fst L) then clear_known <$> M !! c else M !! c.
Proof.
  revert M. induction L as [|e L IH]; intros M Hs; [done|]. apply stored_cons in Hs as (He & Hni & Hs). unfold clear_calls in *. cbn [fold_left map].
  rewrite IH by (eapply stored_other; [done| |done]; intros c' Hc; by rewrite lookup_insert_ne). destruct (decide (c = e.1)) as [-> |Hd].
  - rewrite bool_decide_false, bool_decide_true, lookup_insert_eq, He by (done || (apply elem_of_cons; by left)). done.
  - rewrite lookup_insert_ne by done. erewrite bool_decide_ext; [done|]. rewrite elem_of_cons. tauto.
Qed.

(** Some of the calls have lost the flag. *)
Definition some_cleared (M M' : gmap string recordValue) : Prop := forall c, M' !! c = M !! c \/ M' !! c = clear_known <$> M !! c.

Lemma some_cleared_trans M1 M2 M3 : some_cleared M1 M2 -> some_cleared M2 M3 -> some_cleared M1 M3.
Proof. intros H1 H2 c. destruct (H1 c) as [E1|E1], (H2 c) as [E2|E2]; rewrite E2, E1; auto. right. by destruct (M1 !! c). Qed.

Lemma clear_calls_some L M : stored L M -> some_cleared M (clear_calls L M).
Proof. intros Hs c. rewrite clear_calls_lookup by done. case_bool_decide; auto. Qed.

Lemma clear_pass_spec ok l i P d M m :
  holds d M m -> stored (P ++ l) M ->
  let '(good, d') := clear_pass ok i (map call_entry l) (map clear_op P) d in
  exists M', holds d' M' m /\ some_cleared M M' /\ (good = true -> forall e, e ∈ P ++ l -> M' !! e.1 = Some (clear_known e.2)) /\ ((forall j, ok j = true) -> good = true).
Proof.
  revert i P d M. induction l as [|e l IH]; intros i P d M Hh Hs; cbn [map clear_pass].
  - assert (Hall : exists M', holds (commit (map clear_op P) d) M' m /\ some_cleared M M' /\ (forall e, e ∈ P ++ [] -> M' !! e.1 = Some (clear_known e.2))).
    { rewrite app_nil_r in *. exists (clear_calls P M). split; [by apply clear_commit|]. split; [by apply clear_calls_some|]. intros e He.
      rewrite clear_calls_lookup by done. destruct Hs as [_ Hl]. rewrite (Hl e He), bool_decide_true by (apply list_elem_of_fmap; by exists e). done. }
    destruct Hall as (M' & A1 & A2 & A3). destruct (map clear_op P) as [|o os] eqn:E; [exists M'; by split_and!|].
    destruct (ok i) eqn:K; [exists M'; by split_and!|]. exists M. split; [done|]. split; [by left|]. split; [done|]. intros Hok. by rewrite Hok in K.
  - pose proof (holds_ok _ _ _ Hh) as HM. destruct (stored_app _ _ _ Hs) as (HP & Hel & Hdisj). destruct (stored_cons _ _ _ Hel) as (He & Hni & Hl).
    unfold call_entry at 1. rewrite parse_callKey by (by eapply map_call_nonempty). rewrite decode_encoded by (by eapply map_values).
    destruct (isKnown e.2) eqn:Known; cbn [negb].
    + change (map clear_op P ++ [BSet (callKeyBytes e.1) (encodeRecordValue (clear_known e.2))]) with (map clear_op P ++ map clear_op [e]). rewrite <- map_app.
      assert (Hs' : stored ((P ++ [e]) ++ l) M) by (by rewrite <- app_assoc). destruct (_ <=? _).
      * destruct (ok i) eqn:K; [|exists M; split; [done|]; split; [by left|]; split; [done|]; intros Hok; by rewrite Hok in K].
        destruct (stored_app _ _ _ Hs') as (HPe & _ & Hdisj'). specialize (IH (S i) [] _ _ (clear_commit _ _ _ _ Hh HPe)).
        assert (Hl' : stored ([] ++ l) (clear_calls (P ++ [e]) M)).
        { split; [apply Hl|]. intros x Hx. simpl in Hx. rewrite clear_calls_lookup by done. rewrite bool_decide_false; [by apply Hl|].
          intros Hin. apply list_elem_of_fmap in Hin as (y & Hy & Hin). apply (Hdisj' y Hin). rewrite <- Hy. apply list_elem_of_fmap. by exists x. }
        specialize (IH Hl'). destruct (clear_pass ok (S i) _ _ _) as [good d']. destruct IH as (M' & I1 & I2 & I3 & I4). exists M'. split; [done|].
        split; [eapply some_cleared_trans; [by apply clear_calls_some|done]|]. split; [|done]. intros Hg x Hx. rewrite cons_middle, app_assoc in Hx. apply elem_of_app in Hx as [Hx|Hx]; [|by apply I3].
        assert (Hc : clear_calls (P ++ [e]) M !! x.1 = Some (clear_known x.2)).
        { rewrite clear_calls_lookup by done. rewrite bool_decide_true by (apply list_elem_of_fmap; by exists x). destruct HPe as [_ HPe]. by rewrite (HPe x Hx). }
        destruct (I2 x.1) as [E|E]; rewrite E, Hc; done.
      * specialize (IH i (P ++ [e]) d M Hh Hs'). destruct (clear_pass ok i _ _ _) as [good d']. by rewrite cons_middle, app_assoc.
    + assert (Hs' : stored (P ++ l) M).
      { split; [|intros x Hx; apply Hs; apply elem_of_app in Hx as [|]; apply elem_of_app; [by left|right; apply elem_of_cons; by right]].
        destruct Hs as [Hs _]. rewrite map_app in *. apply NoDup_app in Hs as (N1 & N2 & N3). apply NoDup_app. split; [done|]. split; [|by apply NoDup_cons in N3 as [_ ?]].
        intros x Hx Hx'. apply (N2 x Hx). apply elem_of_cons. by right. }
      specialize (IH i P d M Hh Hs'). destruct (clear_pass ok i _ _ _) as [good d']. destruct IH as (M' & I1 & I2 & I3 & I4). exists M'. split_and!; [done..| |done].
      intros Hg x Hx. apply elem_of_app in Hx as [Hx|Hx]; [apply I3; [done|]; apply elem_of_app; by left|]. apply elem_of_cons in Hx as [-> |Hx]; [|apply I3; [done|]; apply elem_of_app; by right].
      assert (Hfix : clear_known e.2 = e.2) by (destruct e as [? []]; simpl in *; by subst). destruct (I2 e.1) as [E|E]; rewrite E, He, Hfix; [done|]. simpl. by rewrite Hfix.
Qed.

Definition pending_entry (e : string * recordValue) : string * string := (updatedKeyBytes (updatedAt e.2) e.1, e.1).

Lemma remove_commit L d M m : holds d M m -> stored L M ->
  holds (commit (flat_map (fun e => [BDelete e.1; BDelete (callKeyBytes e.2)]) (map pending_entry L)) d) (remove_calls L M) m.
Proof.
  revert d M. induction L as [|e L IH]; intros d M Hh Hs; [done|]. apply stored_cons in Hs as (He & Hni & Hs). cbn [map flat_map]. rewrite commit_app. simpl remove_calls.
  pose proof (holds_ok _ _ _ Hh) as HM. apply IH.
  - eapply holds_commit; [done| |].
    + split; [rewrite lookup_delete_ne by (intros E; by eapply map_call_nonempty); apply HM|]. intros c v Hv. apply lookup_delete_Some in Hv as [_ Hv]. by eapply map_values.
    + apply delete_record; [by eapply map_call_nonempty|by eapply map_values|done].
  - eapply stored_other; [done| |done]. intros c Hc. by rewrite lookup_delete_ne.
Qed.

Lemma remove_calls_lookup L M c : remove_calls L M !! c = if bool_decide (c ∈ map fst L) then None else M !! c.
Proof.
  revert M. induction L as [|e L IH]; intros M; [done|]. unfold remove_calls in *. cbn [fold_left map]. rewrite IH. destruct (decide (c = e.1)) as [-> |Hd].
  - rewrite lookup_delete_eq, (bool_decide_true (_ ∈ _ :: _)) by (apply elem_of_cons; by left). by case_bool_decide.
  - rewrite lookup_delete_ne by done. erewrite bool_decide_ext; [done|]. rewrite elem_of_cons. tauto.
Qed.

Lemma remove_calls_size L M : stored L M -> Z.of_nat (size (remove_calls L M)) = Z.of_nat (size M) - Z.of_nat (length L).
Proof.
  revert M. induction L as [|e L IH]; intros M Hs; [simpl; lia|]. apply stored_cons in Hs as (He & Hni & Hs). unfold remove_calls in *. cbn [fold_left length].
  rewrite IH by (eapply stored_other; [done| |done]; intros c Hc; by rewrite lookup_delete_ne).
  rewrite map_size_delete_Some by (by eexists). assert (size M <> 0%nat) by (intros E; apply map_size_empty_inv in E; by rewrite E, lookup_empty in He). lia.
Qed.

(** The count in the store and the count of the writer agree with the calls. *)
Definition counted (n : Z) (M : gmap string recordValue) (m : option string) : Prop := m = Some (encodeCount n) /\ n = Z.of_nat (size M) /\ n < 2 ^ 63.

Lemma remove_counted L n M m : stored L M -> counted n M m ->
  counted (Z.max 0 (int64 (n - Z.of_nat (length L)))) (remove_calls L M) (Some (encodeCount (Z.max 0 (int64 (n - Z.of_nat (length L)))))).
Proof.
  intros Hs (_ & -> & Hn). pose proof (remove_calls_size L M Hs). rewrite int64_small by lia. split; [done|]. lia.
Qed.

Lemma purge_commit_spec L n d M m : holds d M m -> stored L M ->
  holds (commit (purge_commit n (map pending_entry L)) d) (remove_calls L M) (Some (encodeCount (Z.max 0 (int64 (n - Z.of_nat (length L)))))).
Proof. intros Hh Hs. unfold purge_commit. rewrite commit_app, length_map. eapply holds_count. by apply remove_commit. Qed.

(** The entries of the index up to the cutoff go in order, as far as the commits succeed. *)
Definition purged (ok : nat -> bool) (todo : list (string * recordValue)) (removed n : Z) (M : gmap string recordValue) (m : option string) (r : bool * Z * Z * DB) : Prop :=
  let '(good, removed', n', d') := r in
  exists R rest m', todo = R ++ rest /\ holds d' (remove_calls R M) m' /\ removed' = removed + Z.of_nat (length R) /\ (good = true -> rest = []) /\
    ((forall j, ok j = true) -> good = true) /\ (counted n M m -> counted n' (remove_calls R M) m').

Lemma purged_fails ok todo removed n d M m j : holds d M m -> ok j = false -> purged ok todo removed n M m (false, removed, n, d).
Proof. intros Hh Hj. exists [], todo, m. simpl. split_and!; [done|done|lia|done| |done]. intros Hok. by rewrite Hok in Hj. Qed.

Lemma purged_commit ok P removed n d M m i : holds d M m -> stored P M ->
  purged ok P removed n M m
    (match map pending_entry P with
     | [] => (true, removed, n, d)
     | _ => if ok i then (true, removed + Z.of_nat (length (map pending_entry P)), Z.max 0 (int64 (n - Z.of_nat (length (map pending_entry P)))), commit (purge_commit n (map pending_entry P)) d)
            else (false, removed, n, d)
     end).
Proof.
  intros Hh Hs. destruct P as [|e P]; [exists [], [], m; simpl; split_and!; [done|done|lia|done..]|]. cbn [map]. cbv iota. destruct (ok i) eqn:K; [|by apply (purged_fails ok _ _ _ _ _ _ i)].
  change (pending_entry e :: map pending_entry P) with (map pending_entry (e :: P)). rewrite length_map. eexists (e :: P), [], _.
  split; [by rewrite app_nil_r|]. split; [by eapply purge_commit_spec|]. split; [done|]. split; [done|]. split; [done|]. by eapply remove_counted.
Qed.

Lemma remove_calls_app A B M : remove_calls (A ++ B) M = remove_calls B (remove_calls A M).
Proof. apply fold_left_app. Qed.

Lemma purge_pass_spec cutoff ok l : forall i P removed n d M m,
  holds d M m -> stored (P ++ l) M -> (forall e, e ∈ l -> updatedAt e.2 <= cutoff) ->
  purged ok (P ++ l) removed n M m (purge_pass cutoff ok i (map index_entry l) (map pending_entry P) removed n d).
Proof.
  induction l as [|e l IH]; intros i P removed n d M m Hh Hs Hcut.
  - rewrite app_nil_r in *. cbn [map purge_pass]. by apply (purged_commit ok P removed n d M m i).
  - destruct (stored_app _ _ _ Hs) as (HP & Hel & _). destruct (stored_cons _ _ _ Hel) as (He & _ & _). pose proof (holds_ok _ _ _ Hh) as HM.
    assert (Hcut' : forall x, x ∈ l -> updatedAt x.2 <= cutoff) by (intros x Hx; apply Hcut, elem_of_cons; by right).
    cbn [map purge_pass]. unfold index_entry at 1. rewrite parse_updatedKey by first [by eapply value_time, map_values|by eapply map_call_nonempty].
    destruct (Z.ltb_spec cutoff (updatedAt e.2)) as [Hlt|_]; [specialize (Hcut e ltac:(apply elem_of_cons; by left)); lia|].
    change (map pending_entry P ++ [(updatedKeyBytes (updatedAt e.2) e.1, e.1)]) with (map pending_entry P ++ map pending_entry [e]). rewrite <- map_app.
    rewrite cons_middle, app_assoc. assert (Hs' : stored ((P ++ [e]) ++ l) M) by (by rewrite <- app_assoc).
    destruct (_ <=? Z.of_nat _); [|by apply IH]. destruct (ok i) eqn:K; [|by apply (purged_fails ok _ _ _ _ _ _ i)].
    destruct (stored_app _ _ _ Hs') as (HPe & Hl & Hdisj). rewrite length_map.
    assert (Hl' : stored ([] ++ l) (remove_calls (P ++ [e]) M)).
    { split; [apply Hl|]. intros x Hx. simpl in Hx. rewrite remove_calls_lookup, bool_decide_false; [by apply Hl|].
      intros Hin. apply list_elem_of_fmap in Hin as (y & Hy & Hin). apply (Hdisj y Hin). rewrite <- Hy. apply list_elem_of_fmap. by exists x. }
    pose proof (IH (S i) [] (removed + Z.of_nat (length (P ++ [e]))) (Z.max 0 (int64 (n - Z.of_nat (length (P ++ [e]))))) _ _ _ (purge_commit_spec _ n _ _ _ Hh HPe) Hl' Hcut') as I.
    unfold purged in *. cbn [map] in I. destruct (purge_pass _ _ (S i) _ _ _ _ _) as [[[good removed'] n'] d']. destruct I as (R & rest & m' & I1 & I2 & I3 & I4 & I5 & I6).
    exists ((P ++ [e]) ++ R), rest, m'. rewrite <- (app_assoc _ R), remove_calls_app, length_app. simpl in I1. rewrite <- I1. split_and!; [done|done|lia|done|done|].
    intros Hct. apply I6. by eapply remove_counted.
Qed.

(** ** Requests *)

(** What a request makes of the calls. *)
Definition stale (cutoff : Z) (v : recordValue) : Prop := IsZero cutoff = false /\ 0 < Unix cutoff /\ updatedAt v <= Unix cutoff.

#[global] Instance stale_dec cutoff v : Decision (stale cutoff v).
Proof. unfold stale. apply _. Defined.

Definition grid_step (r : writeRequest) (good : bool) (removed : Z) (M M' : gmap string recordValue) : Prop :=
  match r with
  | UpsertBatch now ok recs => removed = 0 /\ good = ok || bool_decide (recs = []) /\ M' = if good then upsert_all now recs M else M
  | ClearKnown ok => removed = 0 /\ some_cleared M M' /\ (good = true -> M' = clear_known <$> M) /\ ((forall i, ok i = true) -> good = true)
  | Purge cutoff ok =>
      removed = Z.of_nat (size M) - Z.of_nat (size M') /\ M' ⊆ M /\ (forall call v, M !! call = Some v -> M' !! call = None -> stale cutoff v) /\
      (good = true -> M' = filter (fun e => ~ stale cutoff e.2) M) /\ ((forall i, ok i = true) -> good = true)
  end.

Definition request_ok (r : writeRequest) : Prop :=
  match r with
  | UpsertBatch now ok recs => Forall (record_ok now) recs /\ NoDup (batch_calls recs)
  | ClearKnown ok => True
  | Purge cutoff ok => Unix cutoff <= max_int64
  end.

Definition weight (r : writeRequest) : Z := match r with UpsertBatch _ _ recs => Z.of_nat (length recs) | _ => 0 end.

(** The store holds [M]; the count on disk and in memory are its size. *)
Definition keeps (s : Store DB) (M : gmap string recordValue) : Prop := exists m, holds (st_db s) M m.
Definition counts (s : Store DB) (M : gmap string recordValue) : Prop := holds (st_db s) M (Some (encodeCount (count s))) /\ count s = Z.of_nat (size M).

Lemma applyUpsertBatch_spec now ok recs s M m : Forall (record_ok now) recs -> NoDup (batch_calls recs) -> holds (st_db s) M m ->
  let '(good, s') := applyUpsertBatch now ok recs s in
  exists M' m', good = ok || bool_decide (recs = []) /\ (M' = if good then upsert_all now recs M else M) /\ holds (st_db s') M' m' /\
    (m = Some (encodeCount (count s)) -> count s = Z.of_nat (size M) -> count s + Z.of_nat (length recs) < 2 ^ 63 ->
      m' = Some (encodeCount (count s')) /\ count s' = Z.of_nat (size M') /\ count s' <= count s + Z.of_nat (length recs)).
Proof.
  intros Hok Hnd Hh. unfold applyUpsertBatch. destruct recs as [|r recs]; [exists M, m; rewrite bool_decide_true, orb_true_r by done; split_and!; [done..|]; intros; split_and!; [done|done|simpl; lia]|].
  destruct (batch_upserts_spec now (st_db s) M m (r :: recs) (st_db s) M m Hh Hh Hok Hnd (fun _ _ => eq_refl)) as (ops & n & -> & Hh' & Hn & Hs).
  rewrite bool_decide_false, orb_false_r by done. destruct ok; [|exists M, m; split_and!; [done..|]; intros; split_and!; [done|done|lia]]. set (M' := upsert_all _ _ _) in *. destruct (Z.eqb_spec n 0) as [Hz|Hz].
  - exists M', m. split_and!; [done..|]. intros Hm Hc _. simpl count. rewrite Hs, Hz. split; [done|]. split; lia.
  - rewrite commit_app. exists M', (Some (encodeCount (Z.max 0 (int64 (count s + n))))). split; [done|]. split; [done|]. split; [by eapply holds_count|]. intros _ Hc Hb. simpl count.
    rewrite int64_small by lia. split; [done|]. split; lia.
Qed.

Lemma iterate_stored (L : list (string * recordValue)) M M' : L ≡ₚ map_to_list M' -> M' ⊆ M -> stored L M.
Proof.
  intros HL Hsub. split; [rewrite HL; apply NoDup_fst_map_to_list|]. intros [c v] Hin. rewrite HL in Hin. apply elem_of_map_to_list in Hin. by eapply lookup_weaken.
Qed.

Lemma applyClearKnownFlags_spec ok s M m : holds (st_db s) M m ->
  let '(good, s') := applyClearKnownFlags ok s in
  exists M', holds (st_db s') M' m /\ count s' = count s /\ grid_step (ClearKnown ok) good 0 M M'.
Proof.
  intros Hh. unfold applyClearKnownFlags. destruct (Permutation_map_inv _ _ (iterate_calls _ _ _ Hh)) as (L & HL & HLp).
  rewrite HL. pose proof (clear_pass_spec ok L 0 [] (st_db s) M m Hh (iterate_stored L M M (symmetry HLp) (reflexivity M))) as Hp. cbn [map] in Hp.
  destruct (clear_pass _ _ _ _ _) as [good d']. destruct Hp as (M' & H1 & H2 & H3 & H4). exists M'. split; [done|]. split; [done|]. split; [done|]. split; [done|]. split; [|done].
  intros Hg. apply map_eq. intros c. rewrite lookup_fmap. destruct (M !! c) as [v|] eqn:E.
  - apply (H3 Hg (c, v)). simpl. rewrite <- HLp. by apply elem_of_map_to_list.
  - destruct (H2 c) as [K|K]; by rewrite K, E.
Qed.

Lemma size_subset_app (R rest : list (string * recordValue)) M : stored (R ++ rest) M -> stored R M.
Proof. intros Hs. by destruct (stored_app _ _ _ Hs). Qed.

Lemma applyPurgeOlderThan_spec cutoff ok s M m : Unix cutoff <= max_int64 -> holds (st_db s) M m ->
  let '(good, removed, s') := applyPurgeOlderThan cutoff ok s in
  exists M' m', holds (st_db s') M' m' /\ grid_step (Purge cutoff ok) good removed M M' /\
    (m = Some (encodeCount (count s)) -> count s = Z.of_nat (size M) -> count s < 2 ^ 63 -> good = true -> m' = Some (encodeCount (count s')) /\ count s' = Z.of_nat (size M')).
Proof.
  intros Hmax Hh. assert (Hnone : (forall v, ~ stale cutoff v) -> exists M' m', holds (st_db s) M' m' /\ grid_step (Purge cutoff ok) true 0 M M' /\
    (m = Some (encodeCount (count s)) -> count s = Z.of_nat (size M) -> count s < 2 ^ 63 -> true = true -> m' = Some (encodeCount (count s)) /\ count s = Z.of_nat (size M'))).
  { intros Hns. exists M, m. split; [done|]. split; [|done]. split; [lia|]. split; [done|]. split; [intros; congruence|]. split; [|done]. intros _.
    symmetry. apply map_filter_id. intros c v _. apply Hns. }
  unfold applyPurgeOlderThan. destruct (IsZero cutoff) eqn:Hz; [apply Hnone; intros v [E _]; by rewrite Hz in E|].
  destruct (Z.leb_spec (Unix cutoff) 0) as [Hneg|Hpos]; [apply Hnone; intros v (_ & E & _); lia|]. clear Hnone.
  destruct (Permutation_map_inv _ _ (iterate_index _ _ _ _ Hh (conj Hpos Hmax))) as (L & HL & HLp). rewrite HL.
  assert (HLs : stored L M) by (eapply iterate_stored; [by symmetry|apply map_filter_subseteq]).
  assert (HLold : forall e, e ∈ L -> updatedAt e.2 <= Unix cutoff).
  { intros [c v] Hin. rewrite <- HLp in Hin. apply elem_of_map_to_list, map_lookup_filter_Some in Hin as [_ Hin]. done. }
  pose proof (purge_pass_spec (Unix cutoff) ok L 0 [] 0 (count s) (st_db s) M m Hh HLs HLold) as Hp. cbn [map app] in Hp.
  destruct (purge_pass _ _ _ _ _ _ _ _) as [[[good removed] n] d']. destruct Hp as (R & rest & m' & P1 & P2 & P3 & P4 & P5 & P6).
  rewrite P1 in HLs. pose proof (size_subset_app _ _ _ HLs) as HR. exists (remove_calls R M), m'. simpl st_db. split; [done|]. split.
  - split; [rewrite remove_calls_size by done; lia|]. split.
    + apply map_subseteq_spec. intros c v. rewrite remove_calls_lookup. by case_bool_decide.
    + split; [|split; [|done]].
      * intros c v Hv. rewrite remove_calls_lookup. case_bool_decide as Hin; [|congruence]. intros _. apply list_elem_of_fmap in Hin as (e & -> & Hin).
        destruct HR as [_ HR]. rewrite (HR e Hin) in Hv. injection Hv as <-. split_and!; [done|done|]. apply HLold. rewrite P1. apply elem_of_app. by left.
      * intros Hg. rewrite (P4 Hg), app_nil_r in P1. subst L. apply map_eq. intros c. rewrite remove_calls_lookup.
        destruct (M !! c) as [v|] eqn:E; case_bool_decide as Hin; [| |symmetry; apply map_lookup_filter_None; by left..].
        -- symmetry. apply map_lookup_filter_None. right. intros v' Hv'. apply list_elem_of_fmap in Hin as ([c' w] & -> & Hin). destruct HR as [_ HR]. pose proof (HR _ Hin) as Hw. simpl in *.
           rewrite Hv' in Hw. injection Hw as <-. intros Hns. apply Hns. split_and!; [done|done|]. by apply (HLold (c', v')).
        -- symmetry. apply map_lookup_filter_Some. split; [done|]. intros (_ & _ & Hle). apply Hin, list_elem_of_fmap. exists (c, v). split; [done|].
           rewrite <- HLp. by apply elem_of_map_to_list, map_lookup_filter_Some.
  - intros -> Hc Hb ->. destruct (P6 (conj eq_refl (conj Hc Hb))) as (C1 & C2 & _). done.
Qed.

(** A request has the effect it stands for, and keeps the count unless it fails. *)
Lemma serve_spec r s M : request_ok r -> keeps s M ->
  let '(good, removed, s') := serve r s in
  exists M', grid_step r good removed M M' /\ keeps s' M' /\ (counts s M -> count s + weight r < 2 ^ 63 -> good = true -> counts s' M' /\ count s' <= count s + weight r).
Proof.
  intros Hr [m Hh]. assert (Hm : forall m', holds (st_db s) M m' -> m' = m).
  { intros m' [_ Hr']. destruct Hh as [_ Hr2]. pose proof (reads_get _ _ metaCountKey Hr') as E1. rewrite (reads_get _ _ metaCountKey Hr2) in E1. by rewrite !lookup_meta in E1. }
  destruct r as [now ok recs|ok|cutoff ok]; simpl in *.
  - destruct Hr as [H1 H2]. pose proof (applyUpsertBatch_spec now ok recs s M m H1 H2 Hh) as Hp. destruct (applyUpsertBatch _ _ _ _) as [good s'].
    destruct Hp as (M' & m' & P1 & P2 & P3 & P4). exists M'. split; [done|]. split; [by exists m'|]. intros [C1 C2] Hb _. destruct (P4 (eq_sym (Hm _ C1)) C2 Hb) as (-> & Hc & Hle). done.
  - pose proof (applyClearKnownFlags_spec ok s M m Hh) as Hp. destruct (applyClearKnownFlags _ _) as [good s']. destruct Hp as (M' & P1 & P2 & P3). exists M'. split; [done|].
    split; [by exists m|]. intros [C1 C2] Hb Hg. pose proof (Hm _ C1) as <-. split; [|lia]. split; [by rewrite P2|]. rewrite P2, C2. destruct P3 as (_ & _ & P3 & _). by rewrite (P3 Hg), map_size_fmap.
  - pose proof (applyPurgeOlderThan_spec cutoff ok s M m Hr Hh) as Hp. destruct (applyPurgeOlderThan _ _ _) as [[good removed] s']. destruct Hp as (M' & m' & P1 & P2 & P3). exists M'.
    split; [done|]. split; [by exists m'|]. intros [C1 C2] Hb Hg. destruct (P3 (eq_sym (Hm _ C1)) C2 ltac:(lia) Hg) as [-> Hc]. split; [done|].
    destruct P2 as (_ & P2 & _). apply map_subseteq_size in P2. lia.
Qed.

(** ** Runs *)

Fixpoint serve_all (rs : list writeRequest) (s : Store DB) : list (bool * Z) * Store DB :=
  match rs with
  | [] => ([], s)
  | r :: rs => let '(good, removed, s) := serve r s in let '(res, s) := serve_all rs s in ((good, removed) :: res, s)
  end.

Inductive grid_run : list writeRequest -> list (bool * Z) -> gmap string recordValue -> gmap string recordValue -> Prop :=
  | grid_done M : grid_run [] [] M M
  | grid_more r rs good removed res M1 M2 M3 : grid_step r good removed M1 M2 -> grid_run rs res M2 M3 -> grid_run (r :: rs) ((good, removed) :: res) M1 M3.

Definition total_weight (rs : list writeRequest) : Z := foldr (fun r n => weight r + n) 0 rs.

Lemma serve_all_spec rs s M : Forall request_ok rs -> keeps s M ->
  let '(res, s') := serve_all rs s in
  exists M', grid_run rs res M M' /\ keeps s' M' /\ (counts s M -> count s + total_weight rs < 2 ^ 63 -> Forall (fun r => r.1 = true) res -> counts s' M').
Proof.
  revert s M. induction rs as [|r rs IH]; intros s M Hr Hk; simpl; [exists M; split; [constructor|]; by split|].
  apply Forall_cons in Hr as [Hr Hrs]. pose proof (serve_spec r s M Hr Hk) as Hs. destruct (serve r s) as [[good removed] s1]. destruct Hs as (M1 & H1 & H2 & H3).
  specialize (IH s1 M1 Hrs H2). destruct (serve_all rs s1) as [res s']. destruct IH as (M' & I1 & I2 & I3). exists M'. split; [by econstructor|]. split; [done|].
  intros Hc Hb Hg. apply Forall_cons in Hg as [Hg Hgs]. simpl in Hg. assert (Hw : 0 <= total_weight rs) by (clear; induction rs as [|[] rs IH]; simpl; lia).
  destruct (H3 Hc ltac:(lia) Hg) as [Hc1 Hle]. apply I3; [done|lia|done].
Qed.

Lemma Get_spec s M call : keeps s M ->
  Get call s = if bool_decide (normalizeCall call = "") then None else Some (recordValueToRecord (normalizeCall call) <$> M !! normalizeCall call).
Proof. intros [m Hh]. unfold Get. case_bool_decide as Hc; [done|]. rewrite (holds_get _ _ _ _ Hh Hc). by destruct (M !! _). Qed.

Lemma read_entries_spec L M : map_ok M -> stored L M -> read_entries (map call_entry L) = Some (map (fun e => recordValueToRecord e.1 e.2) L).
Proof.
  intros HM. induction L as [|e L IH]; intros Hs; [done|]. apply stored_cons in Hs as (He & _ & Hs). cbn [map read_entries]. unfold call_entry at 1.
  rewrite parse_callKey by (by eapply map_call_nonempty). rewrite decode_encoded by (by eapply map_values). by rewrite (IH Hs).
Qed.

Lemma Entries_spec s M : keeps s M -> exists L, Entries s = Some L /\ L ≡ₚ map (fun e => recordValueToRecord e.1 e.2) (map_to_list M).
Proof.
  intros [m Hh]. unfold Entries. destruct (Permutation_map_inv _ _ (iterate_calls _ _ _ Hh)) as (L & HL & HLp). rewrite HL.
  rewrite (read_entries_spec L M) by (first [apply Hh|by apply (iterate_stored L M M (symmetry HLp))]). eexists. split; [done|]. by rewrite HLp.
Qed.

Lemma open_store_ok d M m : holds d M m -> match m with None => True | Some v => v = encodeCount (Z.of_nat (size M)) end -> Z.of_nat (size M) < 2 ^ 63 -> counts (open_store d) M.
Proof.
  intros Hh Hm Hs. unfold open_store, loadCount, readCountMeta. rewrite (reads_get _ _ metaCountKey (holds_reads _ _ _ Hh)), lookup_meta. destruct m as [v|].
  - subst v. unfold encodeCount. unfold len. rewrite length_be_string. simpl (_ =? _). cbv iota. rewrite be_value_int64 by (unfold in_int64, min_int64, max_int64; lia). done.
  - unfold computeCount. rewrite (Permutation_length (iterate_calls _ _ _ Hh)), length_map, length_map_to_list. split; [|done]. simpl. eapply (holds_count d M None). done.
Qed.
End Laws.


(** ** Examples *)

Definition sample_record (call : string) (g : option string) (adif : Z) (known : bool) (t : Z) : Record_ :=
  mkRecord call known g false (0 <? adif) adif 0 0 "" "" 1 (UnixTime t) (UnixTime t) None.

Definition sample_requests : list writeRequest :=
  [UpsertBatch 0 true [sample_record "k1abc " (Some "fn31") 0 true 1000; sample_record "S57A" None 499 false 2000];
   UpsertBatch 0 true [sample_record "K1ABC" None 291 false 3000];
   ClearKnown (fun _ => true);
   Purge (UnixTime 2500) (fun _ => true)].

Notation sample_store := (open_store (DB := sorted_db) db_empty).

Lemma sample_ok : Forall request_ok sample_requests.
Proof.
  assert (Hr : forall now call g adif known t, match g with Some g => len g < 2 ^ 16 | None => True end -> 0 < t < 2 ^ 32 -> record_ok now (sample_record call g adif known t)).
  { intros now call g adif known t Hg Ht. split; simpl; [done|done|]. assert (E : Unix (UnixTime t) = t) by (unfold Unix, UnixTime; apply Z.div_mul; discriminate).
    unfold IsZero. rewrite (proj2 (Z.eqb_neq (UnixTime t) zero_time)) by (unfold UnixTime, zero_time, second; lia). cbv iota. rewrite E. unfold in_int64, min_int64, max_int64. lia. }
  assert (Hb : forall recs, bool_decide (NoDup (batch_calls recs)) = true -> NoDup (batch_calls recs)) by (intros recs; apply bool_decide_eq_true_1).
  unfold sample_requests. repeat (apply Forall_cons; split; [|]); [split; [|by apply Hb]|split; [|by apply Hb]|done|vm_compute; discriminate|by apply Forall_nil];
    repeat (apply Forall_cons; split; [apply Hr; [done|lia]|]); by apply Forall_nil.
Qed.


(** Two records of one call in a batch: each is merged with what was stored before the batch,
    so the second overwrites the first, and the call is counted twice. *)
Example repeated_call_loses_grid :
  let s := (applyUpsertBatch 0 true [sample_record "K1ABC" (Some "FN31") 0 true 1000; sample_record "K1ABC" None 291 false 3000] sample_store).2 in
  option_map (option_map r_Grid) (Get "K1ABC" s) = Some (Some None) /\ count s = 2 /\ computeCount (st_db s) = 1.
Proof. vm_compute. repeat split. Qed.

(** The first record leaves its index entry, and the purge then removes the call although
    its record is young. *)
Example repeated_call_is_purged :
  let s := (applyUpsertBatch 0 true [sample_record "K1ABC" (Some "FN31") 0 true 1000; sample_record "K1ABC" None 291 false 3000] sample_store).2 in
  option_map (option_map UpdatedAt) (Get "K1ABC" s) = Some (Some (UnixTime 3000)) /\
  Get "K1ABC" (applyPurgeOlderThan (UnixTime 2000) (fun _ => true) s).2 = Some None.
Proof. vm_compute. repeat split. Qed.
