(* ===== verification/GridWriter.v ===== *)
(** * GridWriter: what is learned of calls on its way to the grid store

    [startGridWriter] and [seedKnownCalls] of [main.go] and [cty/maidenhead.go]: updates of
    grids and countries go through a bounded queue to one goroutine that merges them by call
    and writes them in batches; lookups that miss the metadata cache are queued for a worker
    that reads the store or derives a grid from the country.  Each function and each round of
    a goroutine is one step; the clock, the order of a map, the success of commits and whether
    a deadline is met are arguments.  Batches are proved to name a call once, which is what
    the store needs ([GridStore]). *)

From S2P Require Import Prelude GoText GoNum GoTime GoBytes Cty License CallMeta Ingest GridStore.
From stdpp Require Import strings list gmap fin_maps.
From Stdlib Require Import Lia ZArith QArith Qround.
Local Open Scope string_scope.
Local Open Scope list_scope.
Local Open Scope Z_scope.

(** ** Grids of countries *)

(** [int(x)]. *)
Definition int_of (x : Q) : Z := Z.quot (Qnum x) (Zpos (Qden x)).

Definition letter (base : ascii) (i : Z) : ascii := byte_of (byte_val base + i).

(** Coordinates that are no numbers are outside the model. *)
Definition Grid4FromLatLon (lat lon : Q) : option string :=
  if Qlt_b lat (-90) || Qlt_b 90 lat || Qlt_b lon (-180) || Qlt_b 180 lon then None
  else
    let lat := if Qeq_bool lat 90 then fl64 (89999999 # 1000000) else lat in
    let lon := if Qeq_bool lon 180 then fl64 (179999999 # 1000000) else lon in
    let adjLon := fadd lon 180 in
    let adjLat := fadd lat 90 in
    let fieldLon := int_of (fdiv adjLon 20) in
    let fieldLat := int_of (fdiv adjLat 10) in
    if (fieldLon <? 0) || (18 <=? fieldLon) || (fieldLat <? 0) || (18 <=? fieldLat) then None
    else
      let squareLon := int_of (fdiv (fsub adjLon (fmul (inject_Z fieldLon) 20)) 2) in
      let squareLat := int_of (fdiv (fsub adjLat (fmul (inject_Z fieldLat) 10)) 1) in
      if (squareLon <? 0) || (10 <=? squareLon) || (squareLat <? 0) || (10 <=? squareLat) then None
      else Some (String (letter "A" fieldLon) (String (letter "A" fieldLat) (String (letter "0" squareLon) (String (letter "0" squareLat) "")))).

(** ** Updates that wait *)

Definition sqlNullString (v : string) : option string := if bool_decide (v = "") then None else Some v.

Definition mergePending (existing incoming : Record_) : Record_ :=
  let c := if CTYValid incoming then incoming else existing in
  mkRecord (r_Call existing) (IsKnown existing || IsKnown incoming)
    (match r_Grid incoming with Some g => Some g | None => r_Grid existing end) (r_GridDerived existing)
    (CTYValid c) (CTYADIF c) (CTYCQZone c) (CTYITUZone c) (CTYContinent c) (CTYCountry c)
    (if 0 <? Observations incoming then int64 (Observations existing + Observations incoming) else Observations existing)
    (if negb (IsZero (FirstSeen incoming)) && (IsZero (FirstSeen existing) || Before (FirstSeen incoming) (FirstSeen existing)) then FirstSeen incoming else FirstSeen existing)
    (if negb (IsZero (UpdatedAt incoming)) && (IsZero (UpdatedAt existing) || After (UpdatedAt incoming) (UpdatedAt existing)) then UpdatedAt incoming else UpdatedAt existing)
    (match ExpiresAt incoming with Some t => Some t | None => ExpiresAt existing end).

Definition set_Call (call : string) (r : Record_) : Record_ :=
  mkRecord call (IsKnown r) (r_Grid r) (r_GridDerived r) (CTYValid r) (CTYADIF r) (CTYCQZone r) (CTYITUZone r) (CTYContinent r) (CTYCountry r)
    (Observations r) (FirstSeen r) (UpdatedAt r) (ExpiresAt r).

(** The record as the cache reads it. *)
Definition cache_record (r : Record_) : gridRecord :=
  mkGridRecord (r_Call r) (IsKnown r) (r_Grid r) (r_GridDerived r) (UpdatedAt r) (CTYValid r)
    (mkPrefixInfo (CTYCountry r) "" (CTYADIF r) (CTYCQZone r) (CTYITUZone r) (CTYContinent r) 0 0 0 false).

(** What waits for the store, by call. *)
Definition add_pending (r : Record_) (p : gmap string Record_) : gmap string Record_ :=
  let call := normalizeCallForMetadata (r_Call r) in
  if bool_decide (call = "") then p else <[call := match p !! call with Some e => mergePending e (set_Call call r) | None => set_Call call r end]> p.

Definition updatesCap : Z := 8192.
Definition lookupQueueCap : Z := 4096.
Definition flushSize : Z := 500.

Definition grid_update_record (call g : string) (now : Z) : Record_ := mkRecord call false (sqlNullString g) false false 0 0 0 "" "" 1 now now None.

Definition cty_update_record (call : string) (i : PrefixInfo) (now : Z) : Record_ :=
  mkRecord call false None false true (p_ADIF i) (p_CQZone i) (p_ITUZone i) (p_Continent i) (p_Country i) 0 now now None.

Definition derived_record (baseCall g : string) (base : option Record_) (now : Z) : Record_ :=
  match base with
  | None => mkRecord baseCall false (sqlNullString g) true false 0 0 0 "" "" 1 now now None
  | Some b =>
      if CTYValid b then mkRecord baseCall (IsKnown b) (sqlNullString g) true true (CTYADIF b) (CTYCQZone b) (CTYITUZone b) (CTYContinent b) (CTYCountry b) 1 now now None
      else mkRecord baseCall (IsKnown b) (sqlNullString g) true false 0 0 0 "" "" 1 now now None
  end.

(** ** The writer and the lookups *)

Section Writer.
Context `{Pebble DB} (al : option Allowlist) (order : gmap string Record_ -> list Record_).

(** The store is missing while it is replaced; [lookupPending] are the calls in the queue of
    the worker. *)
Record gridWriter := mkGW {
  gw_store : option (Store DB); gw_cache : option callMetaCache; gw_cty : option CTYDatabase; gw_ttl : Z; asyncLookupEnabled : bool;
  updates : list Record_; pending : gmap string Record_; lookupQueue : list (string * string); lookupPending : gset string;
  learnedTotal : Z; asyncDrops : Z; syncDrops : Z }.

Definition set_store (s : option (Store DB)) (w : gridWriter) : gridWriter :=
  mkGW s (gw_cache w) (gw_cty w) (gw_ttl w) (asyncLookupEnabled w) (updates w) (pending w) (lookupQueue w) (lookupPending w) (learnedTotal w) (asyncDrops w) (syncDrops w).
Definition set_lookups (c : option callMetaCache) (db : option CTYDatabase) (w : gridWriter) : gridWriter :=
  mkGW (gw_store w) c db (gw_ttl w) (asyncLookupEnabled w) (updates w) (pending w) (lookupQueue w) (lookupPending w) (learnedTotal w) (asyncDrops w) (syncDrops w).
Definition set_pending (p : gmap string Record_) (w : gridWriter) : gridWriter :=
  mkGW (gw_store w) (gw_cache w) (gw_cty w) (gw_ttl w) (asyncLookupEnabled w) (updates w) p (lookupQueue w) (lookupPending w) (learnedTotal w) (asyncDrops w) (syncDrops w).
Definition set_updates (l : list Record_) (w : gridWriter) : gridWriter :=
  mkGW (gw_store w) (gw_cache w) (gw_cty w) (gw_ttl w) (asyncLookupEnabled w) l (pending w) (lookupQueue w) (lookupPending w) (learnedTotal w) (asyncDrops w) (syncDrops w).
Definition set_queue (q : list (string * string)) (p : gset string) (w : gridWriter) : gridWriter :=
  mkGW (gw_store w) (gw_cache w) (gw_cty w) (gw_ttl w) (asyncLookupEnabled w) (updates w) (pending w) q p (learnedTotal w) (asyncDrops w) (syncDrops w).
Definition add_metrics (learned async sync : Z) (w : gridWriter) : gridWriter :=
  mkGW (gw_store w) (gw_cache w) (gw_cty w) (gw_ttl w) (asyncLookupEnabled w) (updates w) (pending w) (lookupQueue w) (lookupPending w)
    (uint64 (learnedTotal w + learned)) (uint64 (asyncDrops w + async)) (uint64 (syncDrops w + sync)).

(** A send that gives up when the channel is full. *)
Definition send_update (r : Record_) (w : gridWriter) : gridWriter :=
  if Z.of_nat (length (updates w)) <? updatesCap then set_updates (updates w ++ [r]) w else w.

Definition gridUpdateFn (call g : string) (now : Z) (w : gridWriter) : gridWriter :=
  let call := normalizeCallForMetadata call in
  let g := TrimSpace (ToUpper g) in
  if bool_decide (call = "") || (len g <? 4) then w
  else
    let '(changed, w) := match gw_cache w with
                         | None => (true, w)
                         | Some c => let '(changed, c) := UpdateGrid c call g false now in (changed, set_lookups (Some c) (gw_cty w) w)
                         end in
    if negb changed || negb (is_some (gw_store w)) then w else send_update (grid_update_record call g now) w.

Definition ctyUpdateFn (call : string) (info : option PrefixInfo) (now : Z) (w : gridWriter) : gridWriter :=
  match info with
  | None => w
  | Some i =>
      let call := normalizeCallForMetadata call in
      if bool_decide (call = "") || negb (is_some (gw_store w)) then w else send_update (cty_update_record call i now) w
  end.

(** [effectivePrefixInfo] with the cache and database of the writer. *)
Definition prefix_info (call : string) (w : gridWriter) : option PrefixInfo * gridWriter :=
  match gw_cty w with
  | None => (None, w)
  | Some db =>
      if bool_decide (call = "") || shouldRejectCTYCall al call then (None, w)
      else let '(info, _, c, db) := lookup_info al (gw_cache w) db call in (info, set_lookups c (Some db) w)
  end.

(** What the store has of a call: a record with a grid, one without, an error ([None]). *)
Definition stored_record (baseCall rawCall : string) (s : Store DB) : option (option Record_) :=
  match Get baseCall s with
  | None => None
  | Some base =>
      if match base with Some r => is_some (r_Grid r) | None => false end || bool_decide (rawCall = "") || bool_decide (rawCall = baseCall) then Some base
      else match Get rawCall s with
           | None => None
           | Some None => Some base
           | Some (Some raw) => if is_some (r_Grid raw) then Some (Some raw) else Some (match base with Some b => Some b | None => Some raw end)
           end
  end.

(** The record found or derived; [None]: an error. *)
Definition lookupRecord (baseCall rawCall : string) (now : Z) (w : gridWriter) : option (option Record_) * gridWriter :=
  if bool_decide (baseCall = "") then (Some None, w)
  else
    match match gw_store w with None => Some None | Some s => stored_record baseCall rawCall s end with
    | None => (None, w)
    | Some base =>
        if match base with Some r => is_some (r_Grid r) | None => false end then (Some base, w)
        else
          let '(info, w) := prefix_info baseCall w in
          match info with
          | None => (Some base, w)
          | Some i =>
              match Grid4FromLatLon (p_Latitude i) (p_Longitude i) with
              | None => (Some base, w)
              | Some g =>
                  let r := derived_record baseCall g base now in
                  (Some (Some r), if is_some (gw_store w) then send_update r w else w)
              end
          end
    end.

(** *** The writer goroutine *)

(** The store takes the batch or refuses it; either way the updates are dropped. *)
Definition flush (now : Z) (ok : bool) (w : gridWriter) : gridWriter :=
  if bool_decide (pending w = ∅) then w
  else
    match gw_store w with
    | None => set_pending ∅ w
    | Some s =>
        let batch := order (pending w) in
        let '(good, s) := applyUpsertBatch now ok batch s in
        let w := set_pending ∅ (set_store (Some s) w) in
        if good then add_metrics (Z.of_nat (length (filter (fun r => is_some (r_Grid r) = true) batch))) 0 0 w else w
    end.

Definition take_update (r : Record_) (now : Z) (ok : bool) (w : gridWriter) : gridWriter :=
  let call := normalizeCallForMetadata (r_Call r) in
  if bool_decide (call = "") then w
  else
    let w := set_pending (add_pending r (pending w)) w in
    if flushSize <=? Z.of_nat (size (pending w)) then flush now ok w else w.

Definition ttl_purge (now : Z) (ok : nat -> bool) (w : gridWriter) : gridWriter :=
  match gw_store w with
  | None => w
  | Some s => set_store (Some (applyPurgeOlderThan (now - gw_ttl w) ok s).2) w
  end.

(** [stopFn]: the queue is worked off and written. *)
Fixpoint drain (l : list Record_) (now : Z) (ok : bool) (w : gridWriter) : gridWriter :=
  match l with
  | [] => flush now ok w
  | r :: l => drain l now ok (take_update r now ok (set_updates l w))
  end.

(** *** Lookups *)

(** Grid and whether it is derived. *)
Definition cache_lookup (baseCall : string) (now : Z) (w : gridWriter) : option (string * bool) * gridWriter :=
  match gw_cache w with
  | None => (None, w)
  | Some c => let '(g, c) := LookupGrid c baseCall now in (g, set_lookups (Some c) (gw_cty w) w)
  end.

Definition lookupFn (call : string) (now : Z) (w : gridWriter) : option (string * bool) * gridWriter :=
  let rawCall := upper_trim call in
  let baseCall := normalizeCallForMetadata rawCall in
  if bool_decide (baseCall = "") then (None, w)
  else
    let '(found, w) := cache_lookup baseCall now w in
    match found with
    | Some _ => (found, w)
    | None =>
        if asyncLookupEnabled w && is_some (gw_store w) && negb (bool_decide (baseCall ∈ lookupPending w)) then
          if Z.of_nat (length (lookupQueue w)) <? lookupQueueCap
          then (None, set_queue (lookupQueue w ++ [(baseCall, rawCall)]) ({[baseCall]} ∪ lookupPending w) w)
          else (None, add_metrics 0 1 0 w)
        else (None, w)
    end.

(** A record that was read or derived goes into the cache. *)
Definition backfill (baseCall rawCall : string) (now : Z) (w : gridWriter) : option Record_ * gridWriter :=
  let '(rec, w) := lookupRecord baseCall rawCall now w in
  match rec with
  | Some (Some r) => (Some r, match gw_cache w with None => w | Some c => set_lookups (Some (ApplyRecord c (cache_record r))) (gw_cty w) w end)
  | _ => (None, w)
  end.

(** A round of the worker behind [lookupQueue]. *)
Definition lookup_worker (now : Z) (w : gridWriter) : gridWriter :=
  match lookupQueue w with
  | [] => w
  | (baseCall, rawCall) :: q =>
      let '(_, w) := backfill baseCall rawCall now (set_queue q (lookupPending w) w) in
      set_queue (lookupQueue w) (lookupPending w ∖ {[baseCall]}) w
  end.

Definition resolveGrid (r : option Record_) : option (string * bool) :=
  match r with
  | None => None
  | Some r => match r_Grid r with
              | None => None
              | Some g => let g := TrimSpace (ToUpper g) in if bool_decide (g = "") then None else Some (g, r_GridDerived r)
              end
  end.

(** The lookup with a deadline: [queued] when a worker's queue takes it in time, [answered]
    when the answer comes in time; the worker does its work in any case. *)
Definition lookupSyncFn (call : string) (now : Z) (queued answered : bool) (w : gridWriter) : option (string * bool) * gridWriter :=
  let rawCall := upper_trim call in
  let baseCall := normalizeCallForMetadata rawCall in
  if bool_decide (baseCall = "") then (None, w)
  else
    let '(found, w) := cache_lookup baseCall now w in
    match found with
    | Some _ => (found, w)
    | None =>
        if negb (is_some (gw_store w)) then (None, w)
        else if negb queued then (None, add_metrics 0 0 1 w)
        else let '(r, w) := backfill baseCall rawCall now w in (if answered then resolveGrid r else None, w)
    end.

(** [seedKnownCalls]: all flags are cleared, then the listed calls get theirs; whether it
    succeeded. *)
Definition seedKnownCalls (calls : list string) (now : Z) (okClear : nat -> bool) (ok : bool) (s : Store DB) : bool * Store DB :=
  let '(good, s) := applyClearKnownFlags okClear s in
  if negb good then (false, s)
  else applyUpsertBatch now ok (map (fun call => mkRecord call true None false false 0 0 0 "" "" 0 now now None) calls) s.

(** *** Runs *)

Inductive grid_event :=
  | GridLearned (call g : string) (now : Z)
  | CtyLearned (call : string) (info : option PrefixInfo) (now : Z)
  | GridAsked (call : string) (now : Z)
  | GridAskedSync (call : string) (now : Z) (queued answered : bool)
  | WorkerRound (now : Z)
  | WriterTakes (now : Z) (ok : bool)
  | WriterTick (now : Z) (ok : bool)
  | WriterTTL (now : Z) (ok : nat -> bool)
  | WriterStops (now : Z) (ok : bool).

Definition grid_event_step (w : gridWriter) (e : grid_event) : gridWriter :=
  match e with
  | GridLearned call g now => gridUpdateFn call g now w
  | CtyLearned call info now => ctyUpdateFn call info now w
  | GridAsked call now => (lookupFn call now w).2
  | GridAskedSync call now queued answered => (lookupSyncFn call now queued answered w).2
  | WorkerRound now => lookup_worker now w
  | WriterTakes now ok => match updates w with [] => w | r :: l => take_update r now ok (set_updates l w) end
  | WriterTick now ok => flush now ok w
  | WriterTTL now ok => if 0 <? gw_ttl w then ttl_purge now ok w else w
  | WriterStops now ok => drain (updates w) now ok w
  end.

Definition grid_events (es : list grid_event) (w : gridWriter) : gridWriter := fold_left grid_event_step es w.
End Writer.
Arguments gridWriter : clear implicits.

(** ** Calls *)

(** A text up to its last slash, and the rest. *)
Lemma last_slash u : exists a b, u = a +:+ b /\ no_byte "/" b = true /\ (a = "" \/ exists a', a = a' +:+ "/").
Proof.
  induction u as [|c u (a & b & -> & Hb & Ha)]; [by exists "", ""; auto|]. destruct Ha as [-> |[a' ->]].
  - destruct (decide (c = "/"%char)) as [-> |Hc]; [exists "/", b; split_and!; [done|done|right; by exists ""]|].
    exists "", (String c b). split; [done|]. split; [|by left]. unfold no_byte in *. cbn [sforall]. by rewrite bool_decide_eq_false_2.
  - exists (String c a' +:+ "/"), b. split; [done|]. split; [done|]. right. by exists (String c a').
Qed.

Lemma start_of_rest a b : no_byte "/" b = true -> (a = "" \/ exists a', a = a' +:+ "/") ->
  match LastIndexByte (a +:+ b) "/" with Some slash => S slash | None => 0%nat end = String.length a.
Proof.
  intros Hb Ha. assert (Hnone : LastIndexByte b "/" = None).
  { clear Ha. induction b as [|c b IH]; [done|]. unfold no_byte in *. cbn [sforall] in Hb. apply andb_prop in Hb as [Hc Hb]. simpl. rewrite (IH Hb). by destruct (bool_decide _). }
  destruct Ha as [-> |[a' ->]]; [change ("" +:+ b) with b; by rewrite Hnone|]. rewrite sapp_assoc, length_sapp.
  assert (E : LastIndexByte (a' +:+ ("/" +:+ b)) "/" = Some (String.length a')); [|rewrite E; simpl; lia].
  induction a' as [|c a' IH]; [change ("" +:+ ("/" +:+ b)) with (String "/" b); simpl; by rewrite Hnone|]. rewrite sapp_cons. simpl. by rewrite IH.
Qed.

Lemma IndexByte_spec b c : match IndexByte b c with None => no_byte c b = true | Some i => no_byte c (stake i b) = true end.
Proof.
  induction b as [|d b IH]; [done|]. unfold no_byte in *. simpl. case_bool_decide as Hd; [done|].
  destruct (IndexByte b c) as [i|]; simpl; rewrite ?bool_decide_eq_false_2 by done; done.
Qed.

(** The suffix is cut from the part after the last slash. *)
Lemma strip_spec a b : no_byte "/" b = true -> (a = "" \/ exists a', a = a' +:+ "/") ->
  stripTrailingHyphenSuffix (a +:+ b) = match IndexByte b "-" with None => a +:+ b | Some i => if (String.length a + i <=? 0)%nat then a +:+ b else a +:+ stake i b end.
Proof.
  intros Hb Ha. unfold stripTrailingHyphenSuffix. rewrite (start_of_rest a b Hb Ha), sdrop_app_length. destruct (IndexByte b "-") as [i|]; [|done].
  destruct (_ <=? _)%nat; [done|]. clear. induction a as [|c a IH]; [done|]. rewrite !sapp_cons. change (String c (stake (String.length a + i) (a +:+ b)) = String c (a +:+ stake i b)). f_equal. exact IH.
Qed.

Lemma trim_right_slash a b : (a = "" \/ exists a', a = a' +:+ "/") -> trim_right is_space (a +:+ b) = a +:+ trim_right is_space b.
Proof. intros [-> |[a' ->]]; [done|]. by apply trim_right_app_hard. Qed.

Lemma trim_left_prefix p y t : trim_left p (y +:+ t) = y +:+ t -> trim_left p y = y.
Proof.
  destruct y as [|c y]; [done|]. rewrite sapp_cons. simpl. destruct (p c); [|done]. intros E. exfalso.
  pose proof (length_trim_left p (y +:+ t)) as Hl. rewrite E in Hl. simpl in Hl. lia.
Qed.

Lemma trimmed_left s : trim_left is_space (TrimSpace s) = TrimSpace s.
Proof.
  unfold TrimSpace. destruct (trim_right_split is_space (trim_left is_space s)) as (b & E & _). eapply (trim_left_prefix _ _ b). rewrite <- E. apply trim_left_idemp.
Qed.

Lemma upper_prefix x y : ToUpper (x +:+ y) = x +:+ y -> ToUpper x = x.
Proof.
  rewrite ToUpper_sapp. intros E. apply (f_equal (stake (String.length x))) in E. rewrite stake_app_length in E.
  rewrite <- (length_ToUpper x), stake_app_length in E at 1. done.
Qed.

(** Normalising a call twice removes the blanks before a suffix, and no more. *)
Lemma normalize_twice c : normalizeCallForMetadata (normalizeCallForMetadata c) = upper_trim (normalizeCallForMetadata c).
Proof.
  unfold normalizeCallForMetadata at 2 3. set (u := upper_trim c). case_bool_decide as Hu; [by rewrite Hu|].
  assert (Hup : ToUpper u = u) by apply ToUpper_idemp. assert (Hleft : trim_left is_space u = u) by (unfold u, upper_trim; rewrite <- TrimSpace_ToUpper; apply trimmed_left).
  assert (Hself : upper_trim u = u) by apply upper_trim_idemp. clearbody u. destruct (last_slash u) as (a & b & -> & Hb & Ha).
  rewrite (strip_spec a b Hb Ha). pose proof (IndexByte_spec b "-") as Hi. unfold normalizeCallForMetadata.
  assert (Hsame : (IndexByte b "-" = None \/ exists i, IndexByte b "-" = Some i /\ (String.length a + i <=? 0)%nat = true) ->
            (let call := upper_trim (a +:+ b) in if bool_decide (call = "") then call else stripTrailingHyphenSuffix call) = upper_trim (a +:+ b)).
  { intros Hc. cbv zeta. rewrite !Hself. rewrite bool_decide_false by done. rewrite (strip_spec a b Hb Ha). destruct Hc as [-> |(i & -> & ->)]; done. }
  destruct (IndexByte b "-") as [i|] eqn:E; [|by apply Hsame; left]. destruct (_ <=? _)%nat eqn:Hz; [apply Hsame; right; by exists i|]. clear Hsame.
  set (b1 := stake i b) in *. assert (Hsplit : a +:+ b = (a +:+ b1) +:+ sdrop i b) by (unfold b1; by rewrite sapp_assoc, stake_sdrop).
  assert (Hz1 : upper_trim (a +:+ b1) = a +:+ trim_right is_space b1).
  { unfold upper_trim, TrimSpace. rewrite (trim_left_prefix _ _ (sdrop i b)) by (by rewrite <- Hsplit). rewrite trim_right_slash by done.
    destruct (trim_right_split is_space b1) as (t & Et & _). apply (upper_prefix _ (t +:+ sdrop i b)). rewrite sapp_assoc, <- (sapp_assoc _ t), <- Et, <- sapp_assoc, <- Hsplit. done. }
  rewrite Hz1. cbv zeta. case_bool_decide; [done|]. rewrite strip_spec; [|by apply no_byte_trim; rewrite <- (stake_sdrop i b), no_byte_app in Hb; apply andb_prop in Hb as [? _]|done].
  pose proof (IndexByte_spec (trim_right is_space b1) "-") as Hn. destruct (IndexByte (trim_right is_space b1) "-") as [j|] eqn:Ej; [|done]. exfalso.
  assert (Hno : no_byte "-" (trim_right is_space b1) = true) by (by apply no_byte_trim). clear - Ej Hno.
  revert j Ej Hno. generalize (trim_right is_space b1). intros s. induction s as [|d s IH]; intros j Ej Hno; [done|]. unfold no_byte in *. cbn [sforall] in Hno. apply andb_prop in Hno as [Hd Hs].
  simpl in Ej. destruct (bool_decide (d = "-"%char)); [done|]. destruct (IndexByte s "-") as [k|]; [|done]. by eapply IH.
Qed.

(** ** Merging *)

Definition derived_valid (v : recordValue) : Prop := GridStore.gridDerived v = true -> GridStore.gridValid v = true.

(** What is learned of a call may be merged in any grouping. *)
Lemma merge_assoc e a b : derived_valid e -> derived_valid a -> derived_valid b ->
  mergeRecordValue (Some e) (mergeRecordValue (Some a) b) = mergeRecordValue (Some (mergeRecordValue (Some e) a)) b.
Proof.
  destruct e as [k0 g0 gv0 gd0 c0 a0 q0 i0 ct0 cy0 o0 f0 u0 x0], a as [k1 g1 gv1 gd1 c1 a1 q1 i1 ct1 cy1 o1 f1 u1 x1], b as [k2 g2 gv2 gd2 c2 a2 q2 i2 ct2 cy2 o2 f2 u2 x2].
  unfold derived_valid. simpl. intros D0 D1 D2. unfold mergeRecordValue. cbn -[uint64 Z.mul Z.pow].
  assert (Ho : uint64 (o0 + uint64 (o1 + o2)) = uint64 (uint64 (o0 + o1) + o2)) by (unfold uint64; rewrite Zplus_mod_idemp_r, Zplus_mod_idemp_l; f_equal; lia).
  assert (Hg : (let '(g, gv, gd) := if negb gv2 then (g1, gv1, gd1) else if gd2 && gv1 && negb gd1 then (g1, true, false) else (g2, gv2, gd2) in
                if negb gv then (g0, gv0, gd0) else if gd && gv0 && negb gd0 then (g0, true, false) else (g, gv, gd)) =
               (let '(g, gv, gd) := if negb gv1 then (g0, gv0, gd0) else if gd1 && gv0 && negb gd0 then (g0, true, false) else (g1, gv1, gd1) in
                if negb gv2 then (g, gv, gd) else if gd2 && gv && negb gd then (g, true, false) else (g2, gv2, gd2))).
  { destruct gv0, gd0, gv1, gd1, gv2, gd2; try done; exfalso; (discriminate (D0 eq_refl) || discriminate (D1 eq_refl) || discriminate (D2 eq_refl)). }
  destruct (if negb gv2 then (g1, gv1, gd1) else _) as [[g12 gv12] gd12]. cbn -[uint64 Z.mul Z.pow].
  destruct (if negb gv1 then (g0, gv0, gd0) else _) as [[g01 gv01] gd01]. cbn -[uint64 Z.mul Z.pow]. rewrite Hg. clear Hg.
  destruct (if negb gv2 then (g01, gv01, gd01) else _) as [[g gv] gd]. rewrite Ho. f_equal; [apply orb_assoc|try (destruct c1, c2; reflexivity)..].
  - destruct (Z.eqb_spec f0 0), (Z.eqb_spec f1 0), (Z.eqb_spec f2 0), (Z.ltb_spec f1 f2), (Z.ltb_spec f0 f1), (Z.ltb_spec f0 f2); simpl;
      repeat match goal with |- context [?x =? ?y] => destruct (Z.eqb_spec x y) | |- context [?x <? ?y] => destruct (Z.ltb_spec x y) end; simpl; lia.
  - destruct (Z.ltb_spec u2 u1), (Z.ltb_spec u1 u0); repeat match goal with |- context [?x <? ?y] => destruct (Z.ltb_spec x y) end; lia.
  - destruct (Z.eqb_spec x2 expiresNone) as [E|E]; [done|]. apply Z.eqb_neq in E. by rewrite E.
Qed.

Definition clock_ok (t : Z) : Prop := 0 < Unix t <= max_int64.

(** A record as the functions of the writer make it. *)
Record learned (r : Record_) : Prop := {
  l_call : exists c, r_Call r = normalizeCallForMetadata c;
  l_texts : match r_Grid r with Some g => len g < 2 ^ 16 /\ upper_trim g <> "" | None => r_GridDerived r = false end /\ len (CTYContinent r) < 2 ^ 16 /\ len (CTYCountry r) < 2 ^ 16;
  l_cty : CTYValid r = false -> CTYADIF r = 0 /\ CTYCQZone r = 0 /\ CTYITUZone r = 0 /\ CTYContinent r = "" /\ CTYCountry r = "";
  l_observations : Observations r <= max_int64;
  l_times : clock_ok (UpdatedAt r) /\ clock_ok (FirstSeen r) /\ ExpiresAt r = None
}.

Lemma clock_not_zero t : clock_ok t -> IsZero t = false.
Proof. intros [H _]. apply Z.eqb_neq. intros ->. discriminate H. Qed.

Lemma learned_ok now r : learned r -> record_ok now r.
Proof.
  intros [_ (Hg & Hc & Hy) _ Ho (Hu & Hf & He)]. split; [|done|].
  - split_and!; [|done|done]. destruct (r_Grid r); [by destruct Hg|done].
  - rewrite (clock_not_zero _ Hu), He. destruct Hu, Hf. unfold in_int64, min_int64, max_int64 in *. split; [done|]. split; [lia|done].
Qed.

Lemma merge_learned a b : learned a -> learned b -> learned (mergePending a b).
Proof.
  intros [Ca (Ga & Xa & Ya) Ta Oa (Ua & Fa & Ea)] [Cb (Gb & Xb & Yb) Tb Ob (Ub & Fb & Eb)]. unfold mergePending.
  set (c := if CTYValid b then b else a).
  assert (Hc : (CTYValid c = false -> CTYADIF c = 0 /\ CTYCQZone c = 0 /\ CTYITUZone c = 0 /\ CTYContinent c = "" /\ CTYCountry c = "") /\ len (CTYContinent c) < 2 ^ 16 /\ len (CTYCountry c) < 2 ^ 16)
    by (unfold c; destruct (CTYValid b) eqn:E; [rewrite E|]; tauto). clearbody c. destruct Hc as (H1 & H2 & H3).
  split; simpl; [done| |done| |].
  - split_and!; [|done|done]. destruct (r_Grid b); [done|]. destruct (r_Grid a); done.
  - destruct (0 <? _); [|done]. apply int64_range.
  - rewrite Ea, Eb. destruct (negb (IsZero (UpdatedAt b)) && _), (negb (IsZero (FirstSeen b)) && _); done.
Qed.

Lemma normalize_learned r now : learned r -> r_GridDerived r = false ->
  normalizeRecordValue r now =
  mkValue (IsKnown r) (match r_Grid r with Some g => upper_trim g | None => "" end) (is_some (r_Grid r)) false (CTYValid r)
    (if CTYValid r then clampUint32 (CTYADIF r) else 0) (if CTYValid r then GridStore.clampUint16 (CTYCQZone r) else 0) (if CTYValid r then GridStore.clampUint16 (CTYITUZone r) else 0)
    (if CTYValid r then upper_trim (CTYContinent r) else "") (if CTYValid r then TrimSpace (CTYCountry r) else "")
    (Z.max 0 (Observations r)) (Unix (FirstSeen r)) (Unix (UpdatedAt r)) expiresNone.
Proof.
  intros [_ (Hg & _ & _) Hc _ (Hu & Hf & He)] Hd. unfold normalizeRecordValue. rewrite (clock_not_zero _ Hu), (clock_not_zero _ Hf), He, Hd.
  assert (E1 : normalizeGrid (r_Grid r) = (match r_Grid r with Some g => upper_trim g | None => "" end, is_some (r_Grid r))).
  { destruct (r_Grid r) as [g|]; [|done]. simpl. rewrite bool_decide_false; [done|]. by destruct Hg. }
  assert (E2 : normalizeCTY r = (if CTYValid r then upper_trim (CTYContinent r) else "", if CTYValid r then TrimSpace (CTYCountry r) else "", CTYValid r)).
  { unfold normalizeCTY. destruct (CTYValid r) eqn:E; [done|]. destruct (Hc eq_refl) as (-> & -> & -> & -> & ->). done. }
  rewrite E1, E2. cbv beta iota. cbn [andb]. f_equal. destruct (Z.ltb_spec (Observations r) 0); lia.
Qed.

Lemma Unix_mono s t : s <= t -> Unix s <= Unix t.
Proof. intros H. by apply Z.div_le_mono. Qed.

(** Merging what waits is merging in the store, as long as no grid is derived. *)
Lemma pending_value now a b : learned a -> learned b -> r_GridDerived a = false -> r_GridDerived b = false ->
  0 <= Observations a -> 0 <= Observations b -> Observations a + Observations b <= max_int64 ->
  normalizeRecordValue (mergePending a b) now = mergeRecordValue (Some (normalizeRecordValue a now)) (normalizeRecordValue b now).
Proof.
  intros La Lb Da Db Oa Ob Hsum. rewrite (normalize_learned (mergePending a b)) by (first [by apply merge_learned|done]).
  rewrite (normalize_learned a), (normalize_learned b) by done. destruct (l_times a La) as (Ua & Fa & _), (l_times b Lb) as (Ub & Fb & _).
  assert (Hf : Unix (FirstSeen (mergePending a b)) = if negb (Unix (FirstSeen a) =? 0) && ((Unix (FirstSeen b) =? 0) || (Unix (FirstSeen a) <? Unix (FirstSeen b))) then Unix (FirstSeen a) else Unix (FirstSeen b)).
  { simpl. rewrite (clock_not_zero _ Fa), (clock_not_zero _ Fb). unfold Before. cbn [negb andb orb]. destruct Fa, Fb.
    rewrite (proj2 (Z.eqb_neq (Unix (FirstSeen a)) 0)), (proj2 (Z.eqb_neq (Unix (FirstSeen b)) 0)) by lia. cbn [negb andb orb].
    destruct (Z.ltb_spec (FirstSeen b) (FirstSeen a)) as [Hlt|Hge]; [apply Z.lt_le_incl, Unix_mono in Hlt|apply Unix_mono in Hge]; destruct (Z.ltb_spec (Unix (FirstSeen a)) (Unix (FirstSeen b))); lia. }
  assert (Hu : Unix (UpdatedAt (mergePending a b)) = if Unix (UpdatedAt b) <? Unix (UpdatedAt a) then Unix (UpdatedAt a) else Unix (UpdatedAt b)).
  { simpl. rewrite (clock_not_zero _ Ua), (clock_not_zero _ Ub). unfold After. cbn [negb andb orb].
    destruct (Z.ltb_spec (UpdatedAt a) (UpdatedAt b)) as [Hlt|Hge]; [apply Z.lt_le_incl, Unix_mono in Hlt|apply Unix_mono in Hge]; destruct (Z.ltb_spec (Unix (UpdatedAt b)) (Unix (UpdatedAt a))); lia. }
  assert (Ho : Z.max 0 (Observations (mergePending a b)) = uint64 (Z.max 0 (Observations a) + Z.max 0 (Observations b))).
  { unfold uint64, max_int64 in *. rewrite Z.mod_small by lia. simpl. destruct (Z.ltb_spec 0 (Observations b)); [rewrite int64_small by lia|]; lia. }
  rewrite Hf, Hu, Ho. unfold mergeRecordValue. cbn -[uint64 Z.max Unix upper_trim TrimSpace clampUint32 GridStore.clampUint16]. clear.
  destruct (r_Grid b), (r_Grid a), (CTYValid b) eqn:E; rewrite ?E; reflexivity.
Qed.

(** ** Updates that wait are written as if one by one *)

Definition record_call (r : Record_) : string := normalizeCall (r_Call r).

Definition merge_list (now : Z) (rs : list Record_) (e : option recordValue) : option recordValue :=
  fold_left (fun e r => Some (mergeRecordValue e (normalizeRecordValue r now))) rs e.

Definition pend_all (rs : list Record_) : gmap string Record_ := fold_left (fun p r => add_pending r p) rs ∅.

Lemma upsert_all_lookup now rs M c : c <> "" -> upsert_all now rs M !! c = merge_list now (filter (fun r => record_call r = c) rs) (M !! c).
Proof.
  intros Hc. unfold upsert_all. revert M. induction rs as [|r rs IH]; intros M; [done|]. cbn [fold_left]. rewrite IH, filter_cons. fold (record_call r).
  unfold upsert_record. fold (record_call r). case_decide as E.
  - rewrite E, bool_decide_false by done. unfold merge_list. cbn [fold_left]. by rewrite lookup_insert_eq.
  - case_bool_decide; [done|]. by rewrite lookup_insert_ne.
Qed.

Lemma upsert_all_empty now rs M : upsert_all now rs M !! "" = M !! "".
Proof.
  unfold upsert_all. revert M. induction rs as [|r rs IH]; intros M; [done|]. cbn [fold_left]. rewrite IH. unfold upsert_record. case_bool_decide; [done|]. by rewrite lookup_insert_ne.
Qed.

Lemma norm_derived_valid r now : derived_valid (normalizeRecordValue r now).
Proof.
  unfold derived_valid, normalizeRecordValue. destruct (normalizeGrid _) as [g v], (normalizeCTY r) as [[? ?] ?]. simpl. intros E. by apply andb_prop in E as [_ ->].
Qed.

Lemma merge_derived_valid e v : match e with Some u => derived_valid u | None => True end -> derived_valid v -> derived_valid (mergeRecordValue e v).
Proof.
  destruct e as [u|]; [|done]. unfold derived_valid. intros Hu Hv. unfold mergeRecordValue. destruct (GridStore.gridValid v) eqn:E; cbn [negb].
  - destruct (GridStore.gridDerived v && _ && _); simpl; [done|]. done.
  - done.
Qed.

Lemma merge_list_derived now rs e : match e with Some u => derived_valid u | None => True end -> match merge_list now rs e with Some u => derived_valid u | None => True end.
Proof.
  revert e. induction rs as [|r rs IH]; intros e He; [done|]. unfold merge_list in *. cbn [fold_left]. apply IH. apply merge_derived_valid; [done|apply norm_derived_valid].
Qed.

Lemma merge_list_app now a b e : merge_list now (a ++ b) e = merge_list now b (merge_list now a e).
Proof. apply fold_left_app. Qed.

Lemma merge_list_apart now rs e : match e with Some u => derived_valid u | None => True end ->
  merge_list now rs e = match merge_list now rs None with None => e | Some v => Some (mergeRecordValue e v) end.
Proof.
  intros He. induction rs as [|r rs IH] using rev_ind; [done|]. rewrite !merge_list_app, IH. pose proof (merge_list_derived now rs None I) as Hd.
  destruct (merge_list now rs None) as [v|]; [|done]. cbn [merge_list fold_left]. f_equal. destruct e as [u|]; [|done]. symmetry. apply merge_assoc; [done|done|apply norm_derived_valid].
Qed.

(** A record that reports a grid or a country. *)
Definition reported (r : Record_) : Prop := learned r /\ r_GridDerived r = false /\ 0 <= Observations r.

Definition total_observations (rs : list Record_) : Z := foldr (fun r n => Observations r + n) 0 rs.

Lemma total_app a b : total_observations (a ++ b) = total_observations a + total_observations b.
Proof. unfold total_observations. induction a as [|x a IH]; simpl; [lia|rewrite IH; lia]. Qed.

Lemma total_nonneg rs : Forall reported rs -> 0 <= total_observations rs.
Proof. intros Hr. induction Hr as [|? ? (_ & _ & ?) ? IH]; simpl; lia. Qed.

Lemma learned_key r : learned r -> normalizeCallForMetadata (r_Call r) = record_call r /\ record_call (set_Call (record_call r) r) = record_call r.
Proof.
  intros [[c Hc] _ _ _ _]. unfold record_call, normalizeCall. simpl. rewrite Hc, normalize_twice. split; [done|apply upper_trim_idemp].
Qed.

Lemma set_Call_learned r : learned r -> learned (set_Call (record_call r) r).
Proof. intros Hl. destruct (learned_key r Hl) as [E _]. destruct Hl. split; try done. exists (r_Call r). by rewrite E. Qed.

(** What waits under a call is a record of that call, and has the value of its updates
    merged in order. *)
Lemma pend_all_spec now rs c :
  Forall reported rs -> total_observations rs <= max_int64 -> c <> "" ->
  match pend_all rs !! c with
  | Some x => reported x /\ record_call x = c /\ Observations x <= total_observations rs /\ merge_list now (filter (fun r => record_call r = c) rs) None = Some (normalizeRecordValue x now)
  | None => filter (fun r => record_call r = c) rs = []
  end.
Proof.
  intros Hr Hsum Hc. induction rs as [|r rs IH] using rev_ind; [done|]. apply Forall_app in Hr as [Hr Hlast]. apply Forall_singleton in Hlast as (Hl & Hd & Ho).
  pose proof (total_app rs [r]) as Htot. change (total_observations [r]) with (Observations r + 0) in Htot. rewrite Z.add_0_r in Htot.
  rewrite Htot in *. specialize (IH Hr ltac:(lia)). unfold pend_all in *. rewrite fold_left_app. cbn [fold_left]. set (p := fold_left _ rs ∅) in *.
  destruct (learned_key r Hl) as [Hkey Hkey2]. unfold add_pending. rewrite Hkey. rewrite filter_app, filter_cons, filter_nil.
  destruct (decide (record_call r = c)) as [Hrc|Hrc].
  - rewrite Hrc in *. rewrite bool_decide_false, lookup_insert_eq by done. assert (Hset : reported (set_Call c r)) by (split; [rewrite <- Hrc; by apply set_Call_learned|done]).
    rewrite merge_list_app. destruct (p !! c) as [x|].
    + destruct IH as ((Lx & Dx & Ox) & Kx & Bx & Vx). rewrite Vx. cbn [merge_list fold_left]. destruct Hset as (Ls & Ds & Os).
      assert (Hobs : Observations (mergePending x (set_Call c r)) = Observations x + Observations r).
      { simpl. destruct (Z.ltb_spec 0 (Observations r)); [|lia]. apply int64_id. unfold in_int64, min_int64, max_int64 in *. lia. }
      split; [split; [by apply merge_learned|]; split; [done|rewrite Hobs; lia]|]. split; [done|]. split; [rewrite Hobs; lia|].
      f_equal. symmetry. rewrite pending_value; [done|done|done|done|done|done|done|simpl; lia].
    + rewrite IH. pose proof (total_nonneg rs Hr).
      split; [done|]. split; [done|]. split; [simpl; lia|]. done.
  - rewrite app_nil_r. destruct (decide (record_call r = "")) as [He|He]; [rewrite bool_decide_true by done|rewrite bool_decide_false, lookup_insert_ne by done];
      destruct (p !! c) as [x|]; try done; destruct IH as (? & ? & ? & ?); split_and!; try done; lia.
Qed.

Lemma filter_keyed (L : list (string * Record_)) c :
  NoDup (map fst L) -> (forall e, e ∈ L -> record_call e.2 = e.1) ->
  filter (fun r => record_call r = c) (map snd L) = match (list_to_map L : gmap string Record_) !! c with Some x => [x] | None => [] end.
Proof.
  induction L as [|[k x] L IH]; intros Hnd Hk; [done|]. apply NoDup_cons in Hnd as [Hni Hnd]. cbn [map list_to_map foldr fst snd]. rewrite filter_cons.
  specialize (IH Hnd (fun e He => Hk e (proj2 (elem_of_cons L e (k, x)) (or_intror He)))). pose proof (Hk (k, x) (proj2 (elem_of_cons L _ _) (or_introl eq_refl))) as Hx. simpl in Hx. rewrite Hx.
  change (list_to_map ((k, x) :: L)) with (<[k := x]> (list_to_map L : gmap string Record_)). case_decide as E.
  - subst k. rewrite E, lookup_insert_eq, IH. rewrite E in Hni. by rewrite (not_elem_of_list_to_map_1 L c Hni).
  - rewrite lookup_insert_ne by done. exact IH.
Qed.

Section Order.
Context (order : gmap string Record_ -> list Record_) (order_all : forall p, order p ≡ₚ map snd (map_to_list p)).

(** Records that wait, each under its call. *)
Definition keyed (p : gmap string Record_) : Prop := forall k x, p !! k = Some x -> learned x /\ record_call x = k /\ k <> "".

Lemma order_elem p x : x ∈ order p <-> exists k, p !! k = Some x.
Proof.
  rewrite (order_all p), list_elem_of_fmap. split; [intros ([k y] & -> & Hin); apply elem_of_map_to_list in Hin; by exists k|].
  intros [k Hk]. exists (k, x). split; [done|by apply elem_of_map_to_list].
Qed.

Lemma order_filter p c : keyed p -> filter (fun r => record_call r = c) (order p) = match p !! c with Some x => [x] | None => [] end.
Proof.
  intros Hp. assert (Hperm : filter (fun r => record_call r = c) (order p) ≡ₚ match p !! c with Some x => [x] | None => [] end).
  { rewrite (order_all p), filter_keyed, list_to_map_to_list; [done|apply NoDup_fst_map_to_list|]. intros [k x] Hin. apply elem_of_map_to_list in Hin. apply (Hp k x Hin). }
  destruct (p !! c); [by apply Permutation_singleton_r in Hperm|by apply Permutation_nil_r in Hperm].
Qed.

(** A batch names a call once, with records the store can write. *)
Lemma order_batch p now : keyed p -> Forall (record_ok now) (order p) /\ NoDup (batch_calls (order p)).
Proof.
  intros Hp. split.
  - apply list.Forall_forall. intros x Hx. apply order_elem in Hx as [k Hk]. apply learned_ok, (Hp k x Hk).
  - unfold batch_calls. apply NoDup_filter. change (NoDup (map record_call (order p))). rewrite (order_all p), map_map.
    rewrite (map_ext_in (fun e => record_call e.2) fst); [apply NoDup_fst_map_to_list|]. intros [k x] Hin. apply list_elem_of_In, elem_of_map_to_list in Hin. apply (Hp k x Hin).
Qed.

Lemma add_pending_keyed r p : learned r -> keyed p -> keyed (add_pending r p).
Proof.
  intros Hl Hp k x. unfold add_pending. destruct (learned_key r Hl) as [-> Hk]. case_bool_decide as He; [apply Hp|].
  destruct (decide (k = record_call r)) as [-> |Hd]; [|rewrite lookup_insert_ne by done; apply Hp]. rewrite lookup_insert_eq. intros [= <-]. pose proof (set_Call_learned r Hl) as Hs.
  destruct (p !! record_call r) as [e|] eqn:E; [|done]. destruct (Hp _ _ E) as (Le & Ke & _). split; [by apply merge_learned|done].
Qed.

Lemma pend_all_keyed rs : Forall learned rs -> keyed (pend_all rs).
Proof.
  unfold pend_all. intros Hr. assert (Hgen : forall p, keyed p -> keyed (fold_left (fun p r => add_pending r p) rs p)); [|apply Hgen; intros k x Hx; by rewrite lookup_empty in Hx].
  induction Hr as [|r rs Hl Hr IH]; intros p Hp; [done|]. cbn [fold_left]. by apply IH, add_pending_keyed.
Qed.

(** Writing what waits is writing the updates one by one. *)
Lemma coalescing_exact now rs M : Forall reported rs -> total_observations rs <= max_int64 -> map_ok M ->
  upsert_all now (order (pend_all rs)) M = upsert_all now rs M.
Proof.
  intros Hr Hsum HM. assert (Hkey : keyed (pend_all rs)) by (apply pend_all_keyed; eapply Forall_impl; [done|]; by intros r [? _]).
  apply map_eq. intros c. destruct (decide (c = "")) as [-> |Hc]; [by rewrite !upsert_all_empty|]. rewrite !upsert_all_lookup, order_filter by done.
  pose proof (pend_all_spec now rs c Hr Hsum Hc) as Hs. destruct (pend_all rs !! c) as [x|]; [|by rewrite Hs]. destruct Hs as (_ & _ & _ & Hv).
  rewrite (merge_list_apart now (filter _ rs)), Hv; [done|]. destruct (M !! c) as [u|] eqn:E; [|done]. pose proof (map_values M HM c u E) as []. done.
Qed.

Context `{PebbleLaws DB}.

Lemma keeps_ok (s : Store DB) M : keeps s M -> map_ok M.
Proof. intros [m Hh]. apply Hh. Qed.

Lemma flush_spec now ok (w : gridWriter DB) s M : keyed (pending w) -> gw_store w = Some s -> keeps s M ->
  exists s', gw_store (flush order now ok w) = Some s' /\ keeps s' (if ok then upsert_all now (order (pending w)) M else M) /\
    pending (flush order now ok w) = ∅ /\ updates (flush order now ok w) = updates w.
Proof.
  intros Hp Hs Hk. unfold flush. destruct (decide (pending w = ∅)) as [He|He].
  - rewrite bool_decide_true by done. exists s. rewrite He. split; [done|]. split; [|done]. replace (order ∅) with (@nil Record_); [by destruct ok|].
    symmetry. apply Permutation_nil_r. by rewrite (order_all ∅), map_to_list_empty.
  - rewrite bool_decide_false, Hs by done. destruct (order_batch (pending w) now Hp) as [H1 H2]. destruct Hk as [m Hh].
    pose proof (applyUpsertBatch_spec now ok (order (pending w)) s M m H1 H2 Hh) as Hb. destruct (applyUpsertBatch _ _ _ _) as [good s']. destruct Hb as (M' & m' & -> & -> & P3 & _).
    assert (Hne : order (pending w) <> []).
    { intros E. apply He. pose proof (order_all (pending w)) as Hperm. rewrite E in Hperm. apply Permutation_nil_l, eq_sym, map_eq_nil, map_to_list_empty_iff in Hperm. done. }
    rewrite bool_decide_false, orb_false_r in * by done. exists s'. destruct ok; (split; [done|]; split; [by exists m'|done]).
Qed.

Lemma upsert_all_app now a b M : upsert_all now (a ++ b) M = upsert_all now b (upsert_all now a M).
Proof. apply fold_left_app. Qed.

Lemma nothing_waits now ok (w : gridWriter DB) : pending (flush order now ok w) = ∅.
Proof. unfold flush. case_bool_decide; [done|]. destruct (gw_store w); [|done]. destruct (applyUpsertBatch _ _ _ _) as [[] ?]; done. Qed.

Lemma drain_empty now ok l (w : gridWriter DB) : pending (drain order l now ok w) = ∅.
Proof. revert w. induction l as [|r l IH]; intros w; [apply nothing_waits|apply IH]. Qed.
End Order.

(** ** Runs *)

Lemma trimmed_nonempty c s : is_space c = false -> upper_trim (String c s) <> "".
Proof.
  intros Hc. unfold upper_trim, TrimSpace. simpl. rewrite Hc. cbn [trim_right]. destruct (trim_right is_space s); [rewrite Hc|]; done.
Qed.

(** A derived grid is four letters and digits. *)
Lemma Grid4_shape lat lon g : Grid4FromLatLon lat lon = Some g -> len g = 4 /\ upper_trim g <> "".
Proof.
  unfold Grid4FromLatLon. destruct (Qlt_b lat (-90) || _ || _ || _); [done|]. cbv zeta. set (x := int_of _). set (y := int_of (fdiv (fadd _ 90) 10)).
  destruct ((x <? 0) || _ || _ || _) eqn:E; [done|]. set (u := int_of _). set (v := int_of _). destruct ((u <? 0) || _ || _ || _); [done|]. intros [= <-]. split; [done|].
  apply trimmed_nonempty. apply orb_false_iff in E as [E _]. apply orb_false_iff in E as [E _]. apply orb_false_iff in E as [E1 E2]. apply Z.ltb_ge in E1. apply Z.leb_gt in E2. clearbody x. clear - E1 E2.
  assert (Hx : x ∈ map Z.of_nat (seq 0 18)) by (apply list_elem_of_fmap; exists (Z.to_nat x); rewrite elem_of_seq; lia).
  revert x Hx E1 E2. apply (proj1 (list.Forall_forall (fun x => 0 <= x -> x < 18 -> is_space (letter "A" x) = false) _)). repeat (apply Forall_cons; split; [done|]). by apply Forall_nil.
Qed.

Section Runs.
Context `{PebbleLaws DB} (al : option Allowlist) (order : gmap string Record_ -> list Record_) (order_all : forall p, order p ≡ₚ map snd (map_to_list p)).

Definition store_keeps (s : option (Store DB)) : Prop := match s with Some s => exists M, keeps s M | None => True end.

Record core_ok (w : gridWriter DB) : Prop := {
  w_updates : Forall learned (updates w) /\ Z.of_nat (length (updates w)) <= updatesCap;
  w_pending : keyed (pending w) /\ Z.of_nat (size (pending w)) < flushSize;
  w_store : store_keeps (gw_store w)
}.

(** The calls marked as asked for are those in the queue, each there once. *)
Record queue_ok (q : list (string * string)) (asked : gset string) : Prop := {
  q_once : NoDup (map fst q);
  q_asked c : c ∈ asked <-> c ∈ map fst q;
  q_cap : Z.of_nat (length q) <= lookupQueueCap;
  q_bases e : e ∈ q -> exists c, e.1 = normalizeCallForMetadata c
}.

Definition writer_ok (w : gridWriter DB) : Prop := core_ok w /\ queue_ok (lookupQueue w) (lookupPending w).

Definition event_ok (w : gridWriter DB) (e : grid_event) : Prop :=
  match e with
  | GridLearned _ g now => len g < 2 ^ 16 /\ clock_ok now
  | CtyLearned _ info now => match info with Some i => len (p_Continent i) < 2 ^ 16 /\ len (p_Country i) < 2 ^ 16 | None => True end /\ clock_ok now
  | GridAsked _ _ | WriterTakes _ _ | WriterTick _ _ | WriterStops _ _ => True
  | GridAskedSync _ now _ _ | WorkerRound now => clock_ok now
  | WriterTTL now _ => Unix (now - gw_ttl w) <= max_int64
  end.

Lemma set_lookups_ok c db w : core_ok w -> core_ok (set_lookups c db w).
Proof. intros []. by split. Qed.

Lemma add_metrics_ok a b c w : core_ok w -> core_ok (add_metrics a b c w).
Proof. intros []. by split. Qed.

Lemma send_update_ok r w : learned r -> core_ok w -> core_ok (send_update r w).
Proof.
  intros Hr [[U1 U2] P S]. unfold send_update. destruct (Z.ltb_spec (Z.of_nat (length (updates w))) updatesCap) as [Hlt|]; [|by split]. split; [|done..]. simpl. split.
  - apply Forall_app. split; [done|by apply Forall_singleton].
  - rewrite length_app. simpl. unfold updatesCap in *. lia.
Qed.

Lemma grid_record_learned call g now : len g < 2 ^ 16 -> clock_ok now -> 4 <= len (TrimSpace (ToUpper g)) ->
  learned (grid_update_record (normalizeCallForMetadata call) (TrimSpace (ToUpper g)) now).
Proof.
  intros Hg Hn El. rewrite TrimSpace_ToUpper in *. fold (upper_trim g) in *. assert (Hne : upper_trim g <> "") by (intros E; by rewrite E in El).
  split; simpl; [by exists call| |done|done|done]. unfold sqlNullString. rewrite bool_decide_false by done. rewrite upper_trim_idemp. pose proof (len_upper_trim g) as Hl. split; [split; [lia|done]|done].
Qed.

Lemma gridUpdateFn_ok call g now w : len g < 2 ^ 16 -> clock_ok now -> core_ok w -> core_ok (gridUpdateFn call g now w).
Proof.
  intros Hg Hn Hw. unfold gridUpdateFn. set (c := normalizeCallForMetadata call). destruct (bool_decide (c = "") || (len (TrimSpace (ToUpper g)) <? 4)) eqn:E; [done|].
  apply orb_false_iff in E as [_ El]. apply Z.ltb_ge in El. pose proof (grid_record_learned call g now Hg Hn El) as Hrec. set (g1 := TrimSpace (ToUpper g)) in *.
  destruct (gw_cache w) as [ch|].
  - destruct (UpdateGrid ch c g1 false now) as [changed ch']. destruct (negb changed || _); [by apply set_lookups_ok|]. by apply send_update_ok, set_lookups_ok.
  - destruct (negb true || _); [done|]. by apply send_update_ok.
Qed.

Lemma ctyUpdateFn_ok call info now w :
  match info with Some i => len (p_Continent i) < 2 ^ 16 /\ len (p_Country i) < 2 ^ 16 | None => True end -> clock_ok now -> core_ok w -> core_ok (ctyUpdateFn call info now w).
Proof.
  intros Hi Hn Hw. unfold ctyUpdateFn. destruct info as [i|]; [|done]. destruct (_ || _); [done|]. apply send_update_ok; [|done]. split; simpl; [by exists call|tauto|done|done|done].
Qed.

Lemma prefix_info_ok call w : core_ok w -> core_ok (prefix_info al call w).2 /\ gw_store (prefix_info al call w).2 = gw_store w.
Proof.
  intros Hw. unfold prefix_info. destruct (gw_cty w) as [db|]; [|done]. destruct (_ || _); [done|]. destruct (lookup_info _ _ _ _) as [[[info ?] c] db']. simpl. by split; [apply set_lookups_ok|].
Qed.

(** A record that is read from the store fits the store. *)
Definition fits (r : Record_) : Prop :=
  len (CTYContinent r) < 2 ^ 16 /\ len (CTYCountry r) < 2 ^ 16 /\ (CTYValid r = false -> CTYADIF r = 0 /\ CTYCQZone r = 0 /\ CTYITUZone r = 0 /\ CTYContinent r = "" /\ CTYCountry r = "").

Lemma Get_fits call s M r : keeps s M -> Get call s = Some (Some r) -> fits r.
Proof.
  intros Hk. rewrite (Get_spec s M call Hk). case_bool_decide; [done|]. destruct (M !! _) as [v|] eqn:E; [|done]. simpl. intros [= <-].
  destruct (map_values M (keeps_ok s M Hk) _ v E) as [_ _ _ _ (_ & T2 & T3) _]. unfold fits. simpl. destruct (GridStore.ctyValid v); done.
Qed.

Lemma stored_fits base raw s M r : keeps s M -> stored_record base raw s = Some (Some r) -> fits r.
Proof.
  intros Hk. unfold stored_record. destruct (Get base s) as [b|] eqn:E; [|done]. destruct (_ || _ || _); [intros [= ->]; by eapply Get_fits|].
  destruct (Get raw s) as [[x|]|] eqn:E2; [|intros [= ->]; by eapply Get_fits|done]. destruct (is_some (r_Grid x)); [intros [= <-]; by eapply Get_fits|].
  destruct b as [b|]; intros [= <-]; by eapply Get_fits.
Qed.

Lemma derived_learned c g base now lat lon : Grid4FromLatLon lat lon = Some g -> clock_ok now -> match base with Some b => fits b | None => True end ->
  learned (derived_record (normalizeCallForMetadata c) g base now).
Proof.
  intros Hg Hn Hb. apply Grid4_shape in Hg as [Hl Ht]. unfold derived_record. assert (E : sqlNullString g = Some g) by (unfold sqlNullString; rewrite bool_decide_false; [done|]; by intros ->).
  rewrite E. destruct base as [b|]; [destruct Hb as (H1 & H2 & H3); destruct (CTYValid b)|]; (split; simpl; [by exists c|split; [split; [lia|done]|done]|done|done|done]).
Qed.

Lemma lookupRecord_ok c raw now w : clock_ok now -> core_ok w -> core_ok (lookupRecord al (normalizeCallForMetadata c) raw now w).2.
Proof.
  intros Hn Hw. unfold lookupRecord. case_bool_decide; [done|]. set (st := match gw_store w with None => _ | Some s => _ end).
  assert (Hfit : forall b, st = Some (Some b) -> fits b).
  { intros b Hb. unfold st in Hb. pose proof (w_store w Hw) as Hs. destruct (gw_store w) as [s|]; [|done]. destruct Hs as [M Hk]. by eapply stored_fits. }
  clearbody st. destruct st as [base|]; [|done]. destruct (match base with Some r => _ | None => _ end); [done|].
  destruct (prefix_info_ok (normalizeCallForMetadata c) w Hw) as [Hw1 _]. destruct (prefix_info al _ w) as [info w1]. simpl in Hw1. destruct info as [i|]; [|done].
  destruct (Grid4FromLatLon _ _) as [g|] eqn:Hg; [|done]. simpl. destruct (is_some _); [|done]. apply send_update_ok; [|done]. eapply derived_learned; [done|done|]. destruct base; [by apply Hfit|done].
Qed.

Lemma backfill_ok c raw now w : clock_ok now -> core_ok w -> core_ok (backfill al (normalizeCallForMetadata c) raw now w).2.
Proof.
  intros Hn Hw. unfold backfill. pose proof (lookupRecord_ok c raw now w Hn Hw) as H1. destruct (lookupRecord _ _ _ _ _) as [rec w1]. simpl in H1.
  destruct rec as [[r|]|]; [|done|done]. simpl. destruct (gw_cache w1); [by apply set_lookups_ok|done].
Qed.

(** The two queues of the lookups. *)
Definition queues (w : gridWriter DB) : list (string * string) * gset string := (lookupQueue w, lookupPending w).

Lemma send_update_queue r w : queues (send_update r w) = queues w.
Proof. unfold send_update. by destruct (_ <? _). Qed.

Lemma lookupRecord_queue base raw now w : queues (lookupRecord al base raw now w).2 = queues w.
Proof.
  unfold lookupRecord. case_bool_decide; [done|]. destruct (match gw_store w with None => _ | Some s => _ end) as [b|]; [|done]. destruct (match b with Some r => _ | None => _ end); [done|].
  assert (Hp : queues (prefix_info al base w).2 = queues w).
  { unfold prefix_info. destruct (gw_cty w); [|done]. destruct (_ || _); [done|]. by destruct (lookup_info _ _ _ _) as [[[? ?] ?] ?]. }
  destruct (prefix_info al base w) as [info w1]. simpl in Hp. destruct info as [i|]; [|done]. destruct (Grid4FromLatLon _ _); [|done]. simpl. destruct (is_some _); [|done]. by rewrite send_update_queue.
Qed.

Lemma backfill_queue base raw now w : queues (backfill al base raw now w).2 = queues w.
Proof.
  unfold backfill. pose proof (lookupRecord_queue base raw now w) as Hl. destruct (lookupRecord _ _ _ _ _) as [rec w1]. destruct rec as [[r|]|]; [|done|done]. simpl in *. by destruct (gw_cache w1).
Qed.

Lemma lookup_worker_ok now w : clock_ok now -> writer_ok w -> writer_ok (lookup_worker al now w).
Proof.
  intros Hn [Hc Hq]. unfold lookup_worker. destruct (lookupQueue w) as [|[base raw] q] eqn:Q; [by split; [|rewrite Q]|]. destruct Hq as [N A C B].
  destruct (B (base, raw) ltac:(apply elem_of_cons; by left)) as [c E]. simpl in E. subst base. cbn [map fst] in N, A. apply NoDup_cons in N as [N1 N2].
  set (w0 := set_queue q (lookupPending w) w). assert (Hc0 : core_ok w0) by (destruct Hc; by split).
  pose proof (backfill_ok c raw now w0 Hn Hc0) as Hb. pose proof (backfill_queue (normalizeCallForMetadata c) raw now w0) as Hbq.
  destruct (backfill al _ raw now w0) as [r1 w1]. simpl in Hb, Hbq. injection Hbq as Q1 Q2. split; [destruct Hb; by split|]. simpl. rewrite Q1, Q2. split.
  - done.
  - intros x. rewrite elem_of_difference, (A x), elem_of_cons, elem_of_singleton. split; [intros [[-> |] ?]; done|]. intros Hx. split; [by right|]. intros ->. done.
  - simpl in C. unfold lookupQueueCap in *. lia.
  - intros e He. apply B, elem_of_cons. by right.
Qed.

Lemma cache_lookup_ok base now w : core_ok w -> core_ok (cache_lookup base now w).2 /\ queues (cache_lookup base now w).2 = queues w.
Proof. intros Hw. unfold cache_lookup. destruct (gw_cache w) as [ch|]; [|done]. destruct (LookupGrid ch base now). simpl. split; [by apply set_lookups_ok|done]. Qed.

Lemma lookupFn_ok call now w : writer_ok w -> writer_ok (lookupFn call now w).2.
Proof.
  intros [Hc Hq]. unfold lookupFn. set (base := normalizeCallForMetadata _). case_bool_decide; [done|]. destruct (cache_lookup_ok base now w Hc) as [Hc1 Hq1].
  destruct (cache_lookup base now w) as [found w1]. simpl in Hc1, Hq1. injection Hq1 as Q1 Q2. assert (Hw1 : writer_ok w1) by (split; [done|by rewrite Q1, Q2]).
  destruct found; [done|]. destruct (_ && _ && _) eqn:E; [|done]. apply andb_prop in E as [_ Hnew]. apply negb_true_iff, bool_decide_eq_false in Hnew.
  destruct (Z.ltb_spec (Z.of_nat (length (lookupQueue w1))) lookupQueueCap) as [Hlt|]; [|destruct Hw1; by split; [apply add_metrics_ok|]]. destruct Hw1 as [_ [N A C B]].
  split; [destruct Hc1; by split|]. simpl. split.
  - rewrite map_app. apply NoDup_app. split; [done|]. split; [|apply NoDup_singleton]. intros x Hx Hs. apply list_elem_of_singleton in Hs. simpl in Hs. subst x. by apply Hnew, A.
  - intros x. rewrite map_app, elem_of_app, elem_of_union, elem_of_singleton, (A x). cbn [map fst]. rewrite list_elem_of_singleton. tauto.
  - rewrite length_app. simpl. unfold lookupQueueCap in *. lia.
  - intros e He. apply elem_of_app in He as [He|He]; [by apply B|]. apply list_elem_of_singleton in He as ->. by eexists.
Qed.

Lemma lookupSyncFn_ok call now queued answered w : clock_ok now -> writer_ok w -> writer_ok (lookupSyncFn al call now queued answered w).2.
Proof.
  intros Hn [Hc Hq]. unfold lookupSyncFn. set (raw := upper_trim call). case_bool_decide; [done|]. destruct (cache_lookup_ok (normalizeCallForMetadata raw) now w Hc) as [Hc1 Hq1].
  destruct (cache_lookup _ now w) as [found w1]. simpl in Hc1, Hq1. injection Hq1 as Q1 Q2. assert (Hw1 : writer_ok w1) by (split; [done|by rewrite Q1, Q2]).
  destruct found; [done|]. destruct (negb (is_some _)); [done|]. destruct (negb queued); [destruct Hw1; by split; [apply add_metrics_ok|]|].
  pose proof (backfill_ok raw raw now w1 Hn Hc1) as Hb. pose proof (backfill_queue (normalizeCallForMetadata raw) raw now w1) as Hbq. destruct (backfill al _ raw now w1) as [r w2].
  simpl in *. injection Hbq as Q3 Q4. split; [done|]. rewrite Q3, Q4. apply Hw1.
Qed.

(** *** The writer *)

Lemma empty_pending_ok (w : gridWriter DB) : pending w = ∅ -> keyed (pending w) /\ Z.of_nat (size (pending w)) < flushSize.
Proof. intros ->. split; [intros k x Hx; by rewrite lookup_empty in Hx|]. by rewrite map_size_empty. Qed.

(** However many updates wait, a flush leaves none. *)
Lemma flush_ok now ok w : Forall learned (updates w) /\ Z.of_nat (length (updates w)) <= updatesCap -> keyed (pending w) -> store_keeps (gw_store w) ->
  core_ok (flush order now ok w) /\ queues (flush order now ok w) = queues w.
Proof.
  intros Hu Hp Hs. split.
  - destruct (gw_store w) as [s|] eqn:E.
    + destruct Hs as [M Hk]. destruct (flush_spec order order_all now ok w s M Hp E Hk) as (s' & F1 & F2 & F3 & F4).
      split; [by rewrite F4|by apply empty_pending_ok|]. rewrite F1. by eexists.
    + unfold flush. rewrite E. case_bool_decide as He; [split; [done|by apply empty_pending_ok|by rewrite E]|]. split; [done|by apply empty_pending_ok|]. simpl. by rewrite E.
  - unfold flush. case_bool_decide; [done|]. destruct (gw_store w); [|done]. destruct (applyUpsertBatch _ _ _ _) as [[] ?]; done.
Qed.

Lemma take_update_ok r now ok w : learned r -> core_ok w -> core_ok (take_update order r now ok w) /\ queues (take_update order r now ok w) = queues w.
Proof.
  intros Hr [U [P1 P2] S]. unfold take_update. case_bool_decide; [done|]. set (w1 := set_pending _ w). assert (Hk : keyed (pending w1)) by (by apply add_pending_keyed).
  destruct (Z.leb_spec flushSize (Z.of_nat (size (pending w1)))); [by apply (flush_ok now ok w1)|]. split; [by split|done].
Qed.

Lemma take_updates l w : core_ok w -> Forall learned l -> Z.of_nat (length l) <= updatesCap -> core_ok (set_updates l w).
Proof. intros [_ P S] Hl Hc. by split. Qed.

Lemma drain_ok now ok l : forall w, core_ok w -> Forall learned l -> Z.of_nat (length l) <= updatesCap -> core_ok (drain order l now ok w) /\ queues (drain order l now ok w) = queues w.
Proof.
  induction l as [|r l IH]; intros w Hw Hl Hc; cbn [drain]; [destruct Hw as [U [P _] S]; by apply flush_ok|]. apply Forall_cons in Hl as [Hr Hl]. simpl in Hc.
  destruct (take_update_ok r now ok (set_updates l w) Hr) as [T1 T2]; [apply take_updates; [done|done|lia]|]. destruct (IH _ T1 Hl ltac:(lia)) as [I1 I2]. split; [done|]. by rewrite I2, T2.
Qed.

Lemma ttl_purge_ok now ok w : Unix (now - gw_ttl w) <= max_int64 -> core_ok w -> core_ok (ttl_purge now ok w).
Proof.
  intros Hn Hw. unfold ttl_purge. pose proof (w_store w Hw) as Hs. destruct (gw_store w) as [s|] eqn:E; [|done]. destruct Hs as [M [m Hh]].
  pose proof (applyPurgeOlderThan_spec (now - gw_ttl w) ok s M m Hn Hh) as Hp. destruct (applyPurgeOlderThan _ _ _) as [[good removed] s']. destruct Hp as (M' & m' & P1 & _).
  destruct Hw as [U P _]. split; [done|done|]. simpl. exists M'. by exists m'.
Qed.

Lemma grid_event_ok w e : event_ok w e -> writer_ok w -> writer_ok (grid_event_step al order w e).
Proof.
  intros He [Hc Hq]. pose proof (w_updates w Hc) as [U1 U2].
  assert (Hwith : forall w', core_ok w' -> queues w' = queues w -> writer_ok w') by (intros w' Hc' E; injection E as E1 E2; split; [done|by rewrite E1, E2]).
  assert (Hset : forall c db w, queues (set_lookups c db w) = queues w) by done.
  destruct e as [call g now|call info now|call now|call now queued answered|now|now ok|now ok|now ok|now ok]; cbn [grid_event_step event_ok] in *.
  - destruct He. apply Hwith; [by apply gridUpdateFn_ok|]. unfold gridUpdateFn. destruct (_ || _); [done|]. destruct (gw_cache w) as [ch|]; [destruct (UpdateGrid _ _ _ _ _)|]; destruct (_ || _); rewrite ?send_update_queue; done.
  - destruct He. apply Hwith; [by apply ctyUpdateFn_ok|]. unfold ctyUpdateFn. destruct info; [|done]. destruct (_ || _); [done|]. apply send_update_queue.
  - by apply lookupFn_ok.
  - by apply lookupSyncFn_ok.
  - by apply lookup_worker_ok.
  - destruct (updates w) as [|r l] eqn:E; [done|]. apply Forall_cons in U1 as [Hr Hl]. simpl in U2. destruct (take_update_ok r now ok (set_updates l w) Hr) as [T1 T2]; [apply take_updates; [done|done|lia]|]. by apply Hwith.
  - destruct Hc as [U [P _] S]. destruct (flush_ok now ok w U P S) as [F1 F2]. by apply Hwith.
  - destruct (0 <? _); [|done]. apply Hwith; [by apply ttl_purge_ok|]. unfold ttl_purge. by destruct (gw_store w).
  - destruct (drain_ok now ok (updates w) w Hc U1 U2) as [D1 D2]. by apply Hwith.
Qed.
End Runs.

(** ** What is reported is stored *)

Lemma normalize_clock r now : learned r -> normalizeRecordValue r now = normalizeRecordValue r 0.
Proof. intros Hl. destruct (l_times r Hl) as (Hu & _). unfold normalizeRecordValue. by rewrite (clock_not_zero _ Hu). Qed.

Lemma upsert_all_clock now rs M : Forall learned rs -> upsert_all now rs M = upsert_all 0 rs M.
Proof.
  intros Hr. unfold upsert_all. revert M. induction Hr as [|r rs Hl Hr IH]; intros M; [done|]. cbn [fold_left]. rewrite IH. f_equal. unfold upsert_record. by rewrite (normalize_clock r now Hl).
Qed.

Lemma reported_learned rs : Forall reported rs -> Forall learned rs.
Proof. intros Hr. eapply Forall_impl; [done|]. by intros r [? _]. Qed.

Section Reports.
Context `{PebbleLaws DB} (al : option Allowlist) (order : gmap string Record_ -> list Record_) (order_all : forall p, order p ≡ₚ map snd (map_to_list p)).

(** Reports, lookups that wait, and a writer whose commits succeed. *)
Definition report_ok (e : grid_event) : Prop :=
  match e with
  | GridLearned _ g now => len g < 2 ^ 16 /\ clock_ok now
  | CtyLearned _ info now => match info with Some i => len (p_Continent i) < 2 ^ 16 /\ len (p_Country i) < 2 ^ 16 | None => True end /\ clock_ok now
  | GridAsked _ _ => True
  | WriterTakes _ ok | WriterTick _ ok | WriterStops _ ok => ok = true
  | _ => False
  end.

(** The records that enter the queue. *)
Definition accepted_by (w : gridWriter DB) (e : grid_event) : list Record_ :=
  match e with
  | GridLearned _ _ _ | CtyLearned _ _ _ => drop (length (updates w)) (updates (grid_event_step al order w e))
  | _ => []
  end.

Fixpoint accepted (es : list grid_event) (w : gridWriter DB) : list Record_ :=
  match es with [] => [] | e :: es => accepted_by w e ++ accepted es (grid_event_step al order w e) end.

(** What has come in is in the store, waits by call, or is in the queue. *)
Definition progress (M : gmap string recordValue) (rs : list Record_) (w : gridWriter DB) : Prop :=
  exists s written before, gw_store w = Some s /\ keeps s (upsert_all 0 written M) /\ pending w = pend_all before /\ rs = (written ++ before) ++ updates w.

(** Nothing but the queue changes. *)
Definition queue_only (new : list Record_) (w w' : gridWriter DB) : Prop := gw_store w' = gw_store w /\ pending w' = pending w /\ updates w' = updates w ++ new.

Lemma progress_queue M rs new w w' : progress M rs w -> queue_only new w w' -> progress M (rs ++ new) w'.
Proof. intros (s & d & b & H1 & H2 & H3 & ->) (Q1 & Q2 & Q3). exists s, d, b. rewrite Q1, Q2, Q3, app_assoc. done. Qed.

Lemma send_update_only r w : queue_only [] w (send_update r w) \/ queue_only [r] w (send_update r w).
Proof. unfold send_update. destruct (_ <? _); [by right|left]. split; [done|]. split; [done|]. by rewrite app_nil_r. Qed.

(** A report is one record at most. *)
Definition one_report (w w' : gridWriter DB) : Prop := exists new, queue_only new w w' /\ Forall reported new /\ total_observations new <= 1.

Lemma one_report_none w w' : gw_store w' = gw_store w -> pending w' = pending w -> updates w' = updates w -> one_report w w'.
Proof. intros E1 E2 E3. exists []. split; [split; [done|split; [done|by rewrite app_nil_r]]|]. split; [constructor|by unfold total_observations]. Qed.

Lemma one_report_send r w : reported r -> Observations r <= 1 -> one_report w (send_update r w).
Proof.
  intros Hr Ho. destruct (send_update_only r w) as [Hq|Hq]; [exists []|exists [r]]; (split; [done|]); [split; [constructor|by unfold total_observations]|]. split; [by apply Forall_singleton|]. simpl. lia.
Qed.

Lemma report_queued w e : report_ok e -> core_ok w -> match e with GridLearned _ _ _ | CtyLearned _ _ _ => one_report w (grid_event_step al order w e) | _ => True end.
Proof.
  intros He Hw. destruct e as [call g now|call info now| | | | | | |]; try done; cbn [report_ok grid_event_step] in *.
  - destruct He as [Hg Hn]. unfold gridUpdateFn. set (c := normalizeCallForMetadata call). set (g1 := TrimSpace (ToUpper g)). destruct (bool_decide (c = "") || (len g1 <? 4)) eqn:E; [by apply one_report_none|].
    apply orb_false_iff in E as [_ El]. apply Z.ltb_ge in El. pose proof (grid_record_learned call g now Hg Hn El) as Hr.
    destruct (gw_cache w) as [ch|].
    + destruct (UpdateGrid ch c g1 false now) as [changed ch']. destruct (negb changed || _); [by apply one_report_none|].
      destruct (one_report_send (grid_update_record c g1 now) (set_lookups (Some ch') (gw_cty w) w)) as (new & Hq & Hn'); [by split|done|]. by exists new.
    + destruct (negb true || _); [by apply one_report_none|]. by apply one_report_send.
  - destruct He as [Hi Hn]. unfold ctyUpdateFn. destruct info as [i|]; [|by apply one_report_none]. destruct (_ || _); [by apply one_report_none|]. apply one_report_send; [|done].
    split; [|done]. split; simpl; [by exists call|tauto|done|done|done].
Qed.

Lemma flush_progress now w M rs : progress M rs w -> Forall reported rs -> total_observations rs <= max_int64 -> map_ok M ->
  progress M rs (flush order now true w) /\ updates (flush order now true w) = updates w.
Proof.
  intros (s & d & b & Hs & Hk & Hp & ->) Hr Hsum HM. apply Forall_app in Hr as [Hdb Hu]. apply Forall_app in Hdb as [Hd Hb]. rewrite !total_app in Hsum.
  pose proof (total_nonneg _ Hd). pose proof (total_nonneg _ Hu). pose proof (reported_learned b Hb) as Hlb.
  destruct (flush_spec order order_all now true w s _ ltac:(rewrite Hp; by apply pend_all_keyed) Hs Hk) as (s' & F1 & F2 & F3 & F4). split; [|done].
  exists s', (d ++ b), []. split; [done|]. rewrite F3, F4, app_nil_r. split; [|done]. rewrite upsert_all_app, <- (upsert_all_clock now b) by done.
  rewrite Hp, (coalescing_exact order order_all) in F2; [done|done|lia|by eapply keeps_ok].
Qed.

Lemma take_progress r l now w M rs : updates w = r :: l -> progress M rs w -> Forall reported rs -> total_observations rs <= max_int64 -> map_ok M ->
  progress M rs (take_update order r now true (set_updates l w)).
Proof.
  intros Hq (s & d & b & Hs & Hk & Hp & Hrs) Hr Hsum HM. assert (Hlr : learned r).
  { rewrite Hrs, Hq in Hr. apply Forall_app in Hr as [_ Hr]. apply Forall_cons in Hr as [[? _] _]. done. }
  assert (Hpend : progress M rs (set_pending (add_pending r (pending w)) (set_updates l w))).
  { exists s, d, (b ++ [r]). split; [done|]. split; [done|]. split; [simpl; rewrite Hp; unfold pend_all; by rewrite fold_left_app|]. rewrite Hrs, Hq. simpl. by rewrite <- !app_assoc. }
  unfold take_update. case_bool_decide as He.
  - destruct Hpend as (s1 & d1 & b1 & P1 & P2 & P3 & P4). exists s1, d1, b1. split; [done|]. split; [done|]. split; [|done]. rewrite <- P3. simpl. unfold add_pending. by rewrite bool_decide_true.
  - destruct (_ <=? _); [|done]. by apply flush_progress.
Qed.

Lemma drain_progress now M rs : Forall reported rs -> total_observations rs <= max_int64 -> map_ok M -> forall l w,
  updates w = l -> progress M rs w -> progress M rs (drain order l now true w) /\ updates (drain order l now true w) = [].
Proof.
  intros Hr Hsum HM. assert (Hup : forall r l w, updates (take_update order r now true (set_updates l w)) = l).
  { intros r l w. unfold take_update. case_bool_decide; [done|]. destruct (_ <=? _); [|done]. unfold flush. case_bool_decide; [done|]. simpl. destruct (gw_store w); [|done].
    destruct (applyUpsertBatch _ _ _ _) as [[] ?]; done. }
  induction l as [|r l IH]; intros w Hq Hp; cbn [drain].
  - destruct (flush_progress now w M rs Hp Hr Hsum HM) as [F1 F2]. split; [done|]. by rewrite F2.
  - apply IH; [apply Hup|]. by apply take_progress.
Qed.

Lemma lookupFn_frame call now w : queue_only [] w (lookupFn call now w).2.
Proof.
  assert (Hsame : forall w', gw_store w' = gw_store w -> pending w' = pending w -> updates w' = updates w -> queue_only [] w w') by (intros w' E1 E2 E3; split_and!; [done|done|by rewrite app_nil_r]).
  unfold lookupFn. case_bool_decide; [by apply Hsame|]. unfold cache_lookup. destruct (gw_cache w) as [ch|].
  - destruct (LookupGrid ch _ now) as [[]]; [by apply Hsame|]. destruct (_ && _ && _); [destruct (_ <? _)|]; by apply Hsame.
  - destruct (_ && _ && _); [destruct (_ <? _)|]; by apply Hsame.
Qed.

Lemma report_step w e M rs : report_ok e -> core_ok w -> progress M rs w -> Forall reported rs -> total_observations rs <= max_int64 -> map_ok M ->
  let new := accepted_by w e in
  progress M (rs ++ new) (grid_event_step al order w e) /\ Forall reported new /\ total_observations new <= 1 /\
  (forall now, e = WriterStops now true -> updates (grid_event_step al order w e) = []).
Proof.
  intros He Hw Hp Hr Hsum HM. cbv zeta. pose proof (report_queued w e He Hw) as Hq.
  assert (Hnone : forall w', progress M rs w' -> progress M (rs ++ []) w' /\ Forall reported [] /\ total_observations [] <= 1) by (intros w' Hw'; rewrite app_nil_r; split_and!; [done|constructor|done]).
  assert (Hnew : forall w', one_report w w' -> let new := drop (length (updates w)) (updates w') in progress M (rs ++ new) w' /\ Forall reported new /\ total_observations new <= 1).
  { intros w' (new & Q & N1 & N2). cbv zeta. pose proof (progress_queue M rs new w w' Hp Q) as Hpr. destruct Q as (_ & _ & ->). by rewrite drop_app_length. }
  destruct e as [call g now|call info now|call now| | |now ok|now ok| |now ok]; cbn [report_ok accepted_by grid_event_step] in *; try done.
  - destruct (Hnew _ Hq) as (N1 & N2 & N3). by split_and!.
  - destruct (Hnew _ Hq) as (N1 & N2 & N3). by split_and!.
  - pose proof (lookupFn_frame call now w) as Hf. pose proof (progress_queue M rs [] w _ Hp Hf) as Hpr. split_and!; [done|constructor|done|done].
  - subst ok. destruct (updates w) as [|r l] eqn:E; [destruct (Hnone w Hp) as (? & ? & ?); by split_and!|]. destruct (Hnone _ (take_progress r l now w M rs E Hp Hr Hsum HM)) as (? & ? & ?). by split_and!.
  - subst ok. destruct (Hnone _ (proj1 (flush_progress now w M rs Hp Hr Hsum HM))) as (? & ? & ?). by split_and!.
  - subst ok. destruct (drain_progress now M rs Hr Hsum HM (updates w) w eq_refl Hp) as [D1 D2]. destruct (Hnone _ D1) as (? & ? & ?). by split_and!.
Qed.

Lemma report_event (w : gridWriter DB) e : report_ok e -> event_ok w e.
Proof. by destruct e. Qed.

Lemma reports_run M : map_ok M -> forall es w rs, Forall report_ok es -> writer_ok w -> progress M rs w -> Forall reported rs -> total_observations rs + Z.of_nat (length es) <= max_int64 ->
  progress M (rs ++ accepted es w) (grid_events al order es w) /\ Forall reported (rs ++ accepted es w) /\ writer_ok (grid_events al order es w) /\
  total_observations (rs ++ accepted es w) <= total_observations rs + Z.of_nat (length es).
Proof.
  intros HM. induction es as [|e es IH]; intros w rs He Hw Hp Hr Hsum; cbn [accepted grid_events fold_left].
  - rewrite app_nil_r. split_and!; [done|done|done|simpl; lia].
  - apply Forall_cons in He as [He Hes]. cbn [length] in Hsum. destruct (report_step w e M rs He (proj1 Hw) Hp Hr ltac:(lia) HM) as (S1 & S2 & S3 & _).
    pose proof (grid_event_ok al order order_all w e (report_event w e He) Hw) as Hw1. rewrite app_assoc. set (rs1 := rs ++ accepted_by w e) in *.
    assert (Ht : total_observations rs1 <= total_observations rs + 1) by (unfold rs1; rewrite total_app; lia).
    destruct (IH _ rs1 Hes Hw1 S1 ltac:(apply Forall_app; by split) ltac:(lia)) as (I1 & I2 & I3 & I4). split_and!; [done|done|done|]. cbn [length]. lia.
Qed.
End Reports.


(** ** Examples *)

Definition by_key (p : gmap string Record_) : list Record_ := map snd (map_to_list p).

Definition us : PrefixInfo := mkPrefixInfo "United States" "K" 291 5 8 "NA" (375 # 10) (-91875 # 1000) 5 false.

Notation sample_writer := (mkGW (Some (open_store (DB := sorted_db) db_empty)) (Some (newCallMetaCache 100 0)) (Some (LoadCTYDatabaseFromReader [("K", us)])) 0 true [] ∅ [] ∅ 0 0 0).

Notation noon := (UnixTime 1700000000).

Definition sample_reports : list grid_event :=
  [GridLearned "k1abc-2 " "fn31" noon; CtyLearned "K1ABC" (Some us) (noon + second); WriterTakes noon true; GridAsked "W1AW" noon; WriterTakes noon true;
   GridLearned "K1ABC" "FN32" (noon + 2 * second)].

Lemma sample_reports_ok : Forall report_ok sample_reports.
Proof. repeat (apply Forall_cons; split; [vm_compute; repeat split; discriminate|]). by apply Forall_nil. Qed.

Lemma sample_writer_ok : writer_ok sample_writer.
Proof.
  split; split; simpl.
  - by split.
  - split; [intros k x Hx; by rewrite lookup_empty in Hx|]. by rewrite map_size_empty.
  - exists ∅. eexists. exact (proj1 (open_store_ok (DB := sorted_db) db_empty ∅ None holds_empty I eq_refl)).
  - constructor.
  - intros c. split; intros Hin; [by apply not_elem_of_empty in Hin|by apply not_elem_of_nil in Hin].
  - done.
  - intros e Hin. by apply not_elem_of_nil in Hin.
Qed.


Definition stored_grid (w : gridWriter sorted_db) (call : string) : option (option string * bool) :=
  match gw_store w with Some s => match Get call s with Some (Some r) => Some (r_Grid r, r_GridDerived r) | _ => None end | None => None end.

(** The last reported grid is stored, as reported. *)
Example reported_grid_stored : stored_grid (grid_events None by_key (sample_reports ++ [WriterStops noon true]) sample_writer) "K1ABC" = Some (Some "FN32", false).
Proof. vm_compute. reflexivity. Qed.

(** A grid derived from the country is stored as such when it comes alone... *)
Example derived_grid_stored :
  stored_grid (grid_events None by_key [GridAsked "K1ABC" noon; WorkerRound noon; WriterStops noon true] sample_writer) "K1ABC" = Some (Some "EM47", true).
Proof. vm_compute. reflexivity. Qed.

(** ... but as a reported one when an update of the country waits for the same call, ... *)
Example derived_grid_stored_as_reported :
  stored_grid (grid_events None by_key [CtyLearned "K1ABC" (Some us) noon; GridAsked "K1ABC" noon; WorkerRound noon; WriterStops noon true] sample_writer) "K1ABC" = Some (Some "EM47", false).
Proof. vm_compute. reflexivity. Qed.

(** ... and a grid reported after it is stored as derived. *)
Example reported_grid_stored_as_derived :
  stored_grid (grid_events None by_key [GridAsked "K1ABC" noon; WorkerRound noon; GridLearned "K1ABC" "FN31" noon; WriterStops noon true] sample_writer) "K1ABC" = Some (Some "FN31", true).
Proof. vm_compute. reflexivity. Qed.
