(* ===== verification/Feed.v ===== *)
(** * Feed: spots from the telnet feeds

    [rbn/client.go] and the table of [skew/skew.go]: lines of bounded length are read from a
    byte stream, a line is cut into tokens, and a spot is made of spotter, frequency, call and
    comment.  One client reads the Reverse Beacon Network, another (with the minimal parser) a
    human cluster upstream.  The offsets of a token, which nothing reads, are left out;
    sockets, reconnection and the login are not modelled.  A frequency that is no number,
    which the code accepts, is a result of its own. *)

From S2P Require Import Prelude GoText GoNum GoTime GoParse Callsign Bands Spot CommentParser PeerSpot License.
From Stdlib Require Import QArith Qround.
Local Open Scope string_scope.
Local Open Scope list_scope.
Local Open Scope Z_scope.

(** ** Skew corrections *)

Record Entry := mkEntry { e_Callsign : string; CorrectionFactor : Q; SkewHz : Q; Spots : Z }.

(** The factors by call; an empty table is refused. *)
Definition NewTable (entries : list Entry) : option (gmap string Entry) :=
  let t := fold_left (fun t e => let key := upper_trim (e_Callsign e) in if bool_decide (key = "") then t else <[key := e]> t) entries ∅ in
  if bool_decide (t = ∅) then None else Some t.

Definition Table_Lookup (t : gmap string Entry) (call : string) : option Q :=
  let key := upper_trim call in
  if bool_decide (key = "") then None else CorrectionFactor <$> t !! key.

Definition ApplyCorrection (store : option (gmap string Entry)) (rawCall : string) (freqKHz : Q) : Q :=
  match store with
  | None => freqKHz
  | Some t =>
      if Qle_b freqKHz 0 then freqKHz
      else match Table_Lookup t rawCall with
           | None => freqKHz
           | Some factor =>
               if Qle_b factor 0 then freqKHz
               else fdiv (inject_Z (Qfloor (fadd (fmul (fmul freqKHz factor) 10) (1 # 2)))) 10
           end
  end.

Definition FilterEntries (entries : list Entry) (minSpots : Z) : list Entry :=
  let minSpots := if minSpots <? 0 then 0 else minSpots in
  filter (fun e => (negb (Qeq_bool (CorrectionFactor e) 1) && negb ((0 <? minSpots) && (Spots e <? minSpots))) = true) entries.

(** ** Tokens *)

Record spotToken := mkToken { raw : string; clean : string }.

Definition is_blank (c : ascii) : bool := bool_decide (c = " "%char) || bool_decide (c = "009"%char).

Definition trimPunctuation (c : ascii) : bool := bool_decide (c ∈ [","; ";"; ":"; "!"; "."]%char).

(** The maximal runs of bytes that are not blank. *)
Fixpoint blank_words (line : string) : list string :=
  match line with
  | "" => []
  | String c rest =>
      if is_blank c then blank_words rest
      else match rest with
           | "" => [String c ""]
           | String c' _ => if is_blank c' then String c "" :: blank_words rest
                            else match blank_words rest with w :: ws => String c w :: ws | [] => [String c ""] end
           end
  end.

Definition token_of (w : string) : spotToken := mkToken w (trim_right trimPunctuation (trim_left trimPunctuation w)).

Definition tokenizeSpotLine (line : string) : list spotToken := map token_of (blank_words line).

Fixpoint equalFoldASCII (a b : string) : bool :=
  match a, b with
  | "", "" => true
  | String x a, String y b => (bool_decide (x = y) || bool_decide (upper_byte x = upper_byte y)) && equalFoldASCII a b
  | _, _ => false
  end.

(** A frequency, or NaN. *)
Inductive dial := DialNaN | Dial (kHz : Q).

Definition minRBNDialFrequencyKHz : Q := 100.
Definition maxRBNDialFrequencyKHz : Q := 3000000.

(** NaN is neither below nor above the limits; infinities are. *)
Definition parseFrequencyCandidate (tok : string) : option dial :=
  if bool_decide (tok = "") then None
  else match ParseFloat tok with
       | FloatErr => None
       | FloatNonFinite => if bool_decide (ToLower tok = "nan") then Some DialNaN else None
       | FloatVal f => if Qlt_b f minRBNDialFrequencyKHz || Qlt_b maxRBNDialFrequencyKHz f then None else Some (Dial f)
       end.

Definition trim_marks (c : ascii) : bool := bool_decide (c ∈ [","; ";"; ":"]%char).

Definition extractCallAndFreq (tok : spotToken) : string * option dial :=
  if bool_decide (clean tok = "") then ("", None)
  else match IndexByte (raw tok) ":" with
       | None => (clean tok, None)
       | Some colonIdx =>
           (TrimSpace (stake colonIdx (raw tok)),
            parseFrequencyCandidate (TrimSpace (trim_right trim_marks (trim_left trim_marks (sdrop (S colonIdx) (raw tok))))))
       end.

(** ** Calls *)

(** The spotter suffix stays, an SSID before it goes. *)
Definition rbn_call (call : string) : string :=
  if negb (HasSuffix call "-#") then normalize_call call
  else
    let withoutHash := TrimSuffix call "-#" in
    match LastIndexByte withoutHash "-" with
    | Some lastDash => if (0 <? lastDash)%nat then stake lastDash withoutHash +:+ "-#" else call
    | None => call
    end.

Definition normalizeRBNCallsign (cache : CallCache) (call : string) (now : Z) : string * CallCache :=
  match CallCache_Get cache call now with
  | (Some v, cache) => (v, cache)
  | (None, cache) => (rbn_call call, CallCache_Add cache call (rbn_call call) now)
  end.

(** ** Time and comment *)

Definition rbnMaxFutureSkew : Z := 2 * minute.

Definition parseTimeFromRBNAt (timeStr : string) (now : Z) : Z :=
  if negb (len timeStr =? 5) || negb (HasSuffix timeStr "Z") then now
  else match Atoi (slice timeStr 0 2), Atoi (slice timeStr 2 2) with
       | Some h, Some m =>
           if (h <? 0) || (23 <? h) || (m <? 0) || (59 <? m) then now
           else
             let '(y, mo, d) := civil_from_days (now / day_ns) in
             let spotTime := days_from_civil y mo d * day_ns + h * hour + m * minute in
             if After spotTime (now + rbnMaxFutureSkew) then now else spotTime
       | _, _ => now
       end.

(** The words that were not used otherwise. *)
Definition buildComment (tokens : list spotToken) (consumed : list bool) : string :=
  Join (filter (fun w => w <> "") (omap (fun p => if p.2 : bool then None else Some (clean p.1)) (zip tokens consumed))) " ".

Definition isAllDigitsASCII (s : string) : bool := negb (bool_decide (s = "")) && sforall is_digit s.

Definition stripRBNSpeedCQComment (mode comment : string) : string :=
  if bool_decide (comment = "") || bool_decide (mode = "") then comment
  else match Fields comment with
       | [speed; unit_; cq] =>
           if negb (isAllDigitsASCII speed) || negb (EqualFold cq "CQ") then comment
           else if EqualFold mode "CW" && EqualFold unit_ "WPM" then ""
           else if EqualFold mode "RTTY" && EqualFold unit_ "BPS" then ""
           else comment
       | _ => comment
       end.

(** ** The client *)

Record Client := mkClient {
  port : Z; name : string; skewStore : option (gmap string Entry); minimalParse : bool; spotChan : list Spot; spotCap : Z; rawChan : option (list string); rawCap : Z;
  lastLineAt : Z; lastSpotAt : Z; spotDrops : Z; rbnNormalizeCache : CallCache }.

Definition NewClient (port_ : Z) (name_ : string) (skew : option (gmap string Entry)) (bufferSize : Z) (cache : CallCache) : Client :=
  mkClient port_ name_ skew false [] (if bufferSize <=? 0 then 100 else bufferSize) None 0 0 0 0 cache.

Definition ConfigureCallCache (size ttl : Z) : CallCache := NewCallCache (if size <=? 0 then 4096 else size) (if ttl <=? 0 then 10 * minute else ttl).

Definition UseMinimalParser (c : Client) : Client :=
  mkClient (port c) (name c) (skewStore c) true (spotChan c) (spotCap c) (rawChan c) (rawCap c) (lastLineAt c) (lastSpotAt c) (spotDrops c) (rbnNormalizeCache c).

(** The channel with its capacity. *)
Definition SetRawPassthrough (cap : Z) (c : Client) : Client :=
  mkClient (port c) (name c) (skewStore c) (minimalParse c) (spotChan c) (spotCap c) (Some []) cap (lastLineAt c) (lastSpotAt c) (spotDrops c) (rbnNormalizeCache c).

Definition with_cache (cache : CallCache) (c : Client) : Client :=
  mkClient (port c) (name c) (skewStore c) (minimalParse c) (spotChan c) (spotCap c) (rawChan c) (rawCap c) (lastLineAt c) (lastSpotAt c) (spotDrops c) cache.

Definition line_at (now : Z) (c : Client) : Client :=
  mkClient (port c) (name c) (skewStore c) (minimalParse c) (spotChan c) (spotCap c) (rawChan c) (rawCap c) now (lastSpotAt c) (spotDrops c) (rbnNormalizeCache c).

(** The sends, which do not block. *)
Definition send_spot (s : Spot) (now : Z) (c : Client) : Client :=
  let full := spotCap c <=? Z.of_nat (length (spotChan c)) in
  mkClient (port c) (name c) (skewStore c) (minimalParse c) (if full then spotChan c else spotChan c ++ [s]) (spotCap c) (rawChan c) (rawCap c) (lastLineAt c) now
    (if full then uint64 (spotDrops c + 1) else spotDrops c) (rbnNormalizeCache c).

Definition send_raw (line : string) (c : Client) : Client :=
  match rawChan c with
  | None => c
  | Some q => if Z.of_nat (length q) <? rawCap c
              then mkClient (port c) (name c) (skewStore c) (minimalParse c) (spotChan c) (spotCap c) (Some (q ++ [line])) (rawCap c) (lastLineAt c) (lastSpotAt c) (spotDrops c) (rbnNormalizeCache c)
              else c
  end.

(** The tokens after the spotter: the first frequency, the first call after it, and which
    tokens were used. *)
Fixpoint scan_tokens (now : Z) (toks : list spotToken) (freq : option dial) (dx : string) (cache : CallCache) : option dial * string * list bool * CallCache :=
  match toks with
  | [] => (freq, dx, [], cache)
  | tok :: toks =>
      let go used freq dx cache := let '(f, d, l, cache) := scan_tokens now toks freq dx cache in (f, d, used :: l, cache) in
      if bool_decide (clean tok = "") then go true freq dx cache
      else
        match freq, parseFrequencyCandidate (clean tok) with
        | None, Some f => go true (Some f) dx cache
        | _, _ =>
            if negb (bool_decide (freq = None)) && bool_decide (dx = "") && IsValidCallsign (clean tok)
            then let '(d, cache) := normalizeRBNCallsign cache (clean tok) now in go true freq d cache
            else go false freq dx cache
        end
  end.

(** The fields set after [NewSpotNormalized]. *)
Definition feed_fields (c : Client) (parsed : CommentParseResult) (comment : string) (now : Z) (s : Spot) : Spot :=
  let report := if p_hasReport parsed then p_report parsed else Report s in
  let t := if bool_decide (p_timeToken parsed = "") then Time s else parseTimeFromRBNAt (p_timeToken parsed) now in
  let '(source, node) :=
    if minimalParse c then (SourceUpstream, if bool_decide (TrimSpace (name c) = "") then SourceNode s else name c)
    else (if bool_decide (Mode s = "FT8") then SourceFT8 else if bool_decide (Mode s = "FT4") then SourceFT4 else SourceRBN, if port c =? 7001 then "RBN-DIGITAL" else "RBN") in
  mkSpot (ID s) (DXCall s) (DECall s) (Frequency s) (Band s) (Mode s) report t (if bool_decide (comment = "") then Comment s else comment) source node (SpotterIP s) (TTL s)
    (minimalParse c) (IsTestSpotter s) (IsBeacon s) (p_hasReport parsed || HasReport s) (DXMetadata s) (DEMetadata s) (Confidence s)
    (formatted s) (ModeNorm s) (BandNorm s) (DXCallNorm s) (DECallNorm s) (DXContinentNorm s)
    (DEContinentNorm s) (DXGridNorm s) (DEGridNorm s) (DXGrid2 s) (DEGrid2 s) (DXCellID s) (DECellID s)
    (DECallStripped s) (DECallNormStripped s).

Inductive line_result := NoSpot | NaNSpot | ASpot (s : Spot).

(** What becomes of a line once spotter, call, frequency and comment are known. *)
Definition make_spot (c : Client) (deCallRaw deCall dxCall comment : string) (f : Q) (now : Z) : line_result :=
  let parsed := ParseSpotComment comment f in
  if negb (IsValidNormalizedCallsign dxCall) || negb (IsValidNormalizedCallsign deCall) then NoSpot
  else
    let comment := if minimalParse c then p_comment parsed else stripRBNSpeedCQComment (p_mode parsed) (p_comment parsed) in
    if negb (minimalParse c) && (negb (p_hasReport parsed) || (p_report parsed =? 0)) then NoSpot
    else
      let f := if minimalParse c then f else ApplyCorrection (skewStore c) deCallRaw f in
      ASpot (EnsureNormalized (RefreshBeaconFlag (feed_fields c parsed comment now (NewSpotNormalized dxCall deCall f (p_mode parsed) now)))).

Definition parse_line (c : Client) (line : string) (now : Z) : line_result * Client :=
  let line := TrimSpace line in
  if bool_decide (line = "") then (NoSpot, c)
  else
    match tokenizeSpotLine line with
    | t0 :: t1 :: t2 :: toks =>
        if negb (equalFoldASCII (clean t0) "DX") || negb (equalFoldASCII (clean t1) "DE") then (NoSpot, c)
        else
          let '(deCallRaw, freqFromCall) := extractCallAndFreq t2 in
          if bool_decide (TrimSpace deCallRaw = "") then (NoSpot, c)
          else
            let deCall := normalize_call deCallRaw in
            let '(freq, dxCall, used, cache) := scan_tokens now toks freqFromCall "" (rbnNormalizeCache c) in
            let c := with_cache cache c in
            match freq with
            | None => (NoSpot, c)
            | Some f =>
                if bool_decide (dxCall = "") then (NoSpot, c)
                else
                  match f with
                  | DialNaN => (NaNSpot, c)
                  | Dial f => (make_spot c deCallRaw deCall dxCall (buildComment (t0 :: t1 :: t2 :: toks) (true :: true :: true :: used)) f now, c)
                  end
            end
    | _ => (NoSpot, c)
    end.

(** No result for a spot whose frequency is no number: the later components work on rational
    frequencies. *)
Definition parseSpot (c : Client) (line : string) (now : Z) : option Client :=
  let '(r, c) := parse_line c line now in
  match r with NoSpot => Some c | NaNSpot => None | ASpot s => Some (send_spot s now c) end.

(** ** Lines *)

Definition rbnMaxLineLength : Z := 1024.
Definition bufio_size : nat := 4096.

(** [ReadSlice]: through the line end, a full buffer without one, or the end of the stream. *)
Inductive slice_read := SliceLine (chunk rest : string) | SliceFull (chunk rest : string) | SliceEnd.

Definition read_slice (bs : string) : slice_read :=
  match IndexByte (stake bufio_size bs) "010" with
  | Some i => SliceLine (stake (S i) bs) (sdrop (S i) bs)
  | None => if (String.length bs <? bufio_size)%nat then SliceEnd else SliceFull (stake bufio_size bs) (sdrop bufio_size bs)
  end.

(** The rest of the stream after the next line end. *)
Fixpoint discardLineRemainder (fuel : nat) (bs : string) : option string :=
  match fuel with
  | O => None
  | S fuel => match read_slice bs with SliceLine _ rest => Some rest | SliceFull _ rest => discardLineRemainder fuel rest | SliceEnd => None end
  end.

Inductive bounded_read := GotLine (line rest : string) | TooLong (rest : string) | StreamEnd.

Fixpoint read_bounded (fuel : nat) (maxLen : Z) (buf bs : string) : bounded_read :=
  match fuel with
  | O => StreamEnd
  | S fuel =>
      match read_slice bs with
      | SliceLine chunk rest => if maxLen <? len buf + len chunk then TooLong rest else GotLine (buf +:+ chunk) rest
      | SliceFull chunk rest =>
          if maxLen <? len buf + len chunk then match discardLineRemainder (S (String.length rest)) rest with Some rest => TooLong rest | None => StreamEnd end
          else read_bounded fuel maxLen (buf +:+ chunk) rest
      | SliceEnd => StreamEnd
      end
  end.

Definition readLineBounded (maxLen : Z) (bs : string) : bounded_read :=
  read_bounded (S (String.length bs)) (if maxLen <=? 0 then rbnMaxLineLength else maxLen) "" bs.

(** What [readLoop] does with a line. *)
Definition feed_line (c : Client) (line : string) (now : Z) : option Client :=
  let line := TrimSpace line in
  if bool_decide (line = "") then Some c
  else
    let c := line_at now c in
    if HasPrefix line "DX de" then parseSpot c line now else Some (if minimalParse c then send_raw line c else c).

(** The lines the loop hands on until the stream ends. *)
Fixpoint feed_lines (fuel : nat) (bs : string) : list string :=
  match fuel with
  | O => []
  | S fuel => match readLineBounded rbnMaxLineLength bs with
              | GotLine line rest => line :: feed_lines fuel rest
              | TooLong rest => feed_lines fuel rest
              | StreamEnd => []
              end
  end.

(** The lines in turn, each with its time. *)
Fixpoint feed_all (c : Client) (times : nat -> Z) (lines : list string) : option Client :=
  match lines with
  | [] => Some c
  | line :: lines => match feed_line c line (times 0%nat) with Some c => feed_all c (fun n => times (S n)) lines | None => None end
  end.

(** The loop, until the stream ends. *)
Definition readLoop (c : Client) (times : nat -> Z) (bs : string) : option Client := feed_all c times (feed_lines (S (String.length bs)) bs).

Record HealthSnapshot := mkHealth { Connected : bool; h_LastLineAt : option Z; h_LastSpotAt : option Z; SpotQueueLen : Z; SpotQueueCap : Z; SpotDrops : Z }.

(** Whether the socket is connected is an argument. *)
Definition health (connected : bool) (c : Client) : HealthSnapshot :=
  mkHealth connected (if 0 <? lastLineAt c then Some (lastLineAt c) else None) (if 0 <? lastSpotAt c then Some (lastSpotAt c) else None)
    (Z.of_nat (length (spotChan c))) (spotCap c) (spotDrops c).

Definition displayName (c : Client) : string := if negb (bool_decide (name c = "")) then name c else if port c =? 7001 then "RBN Digital" else "RBN".
Definition sourceKey (c : Client) : string := if port c =? 7001 then "RBN-DIGITAL" else "RBN".

(** ** Reading lines *)

Definition nl_byte : ascii := "010".
Definition nl_text : string := String nl_byte "".

Lemma bufio_big : (1024 < bufio_size)%nat.
Proof. apply Nat.ltb_lt. vm_compute. reflexivity. Qed.

#[local] Opaque bufio_size.

Lemma no_byte_stake c n s : no_byte c s = true -> no_byte c (stake n s) = true.
Proof. intros H. rewrite <- (stake_sdrop n s), no_byte_app in H. by apply andb_prop in H as [? _]. Qed.

Lemma no_byte_sdrop c n s : no_byte c s = true -> no_byte c (sdrop n s) = true.
Proof. intros H. rewrite <- (stake_sdrop n s), no_byte_app in H. by apply andb_prop in H as [_ ?]. Qed.

Lemma IndexByte_no c s : no_byte c s = true -> IndexByte s c = None.
Proof.
  induction s as [|d s IH]; [done|]. unfold no_byte. cbn [sforall]. intros [Hd Hs]%andb_true_iff. simpl. apply negb_true_iff in Hd. rewrite Hd. by rewrite (IH Hs).
Qed.

Lemma IndexByte_at c s t : no_byte c s = true -> IndexByte (s +:+ String c t) c = Some (String.length s).
Proof.
  induction s as [|d s IH]; [intros _; simpl; by rewrite bool_decide_true|]. unfold no_byte. cbn [sforall]. intros [Hd Hs]%andb_true_iff. rewrite sapp_cons. simpl. apply negb_true_iff in Hd. rewrite Hd.
  by rewrite (IH Hs).
Qed.

Lemma stake_past n s t : (String.length s <= n)%nat -> stake n (s +:+ t) = s +:+ stake (n - String.length s) t.
Proof. revert n. induction s as [|c s IH]; intros n Hn; [by rewrite Nat.sub_0_r|]. destruct n as [|n]; [simpl in Hn; lia|]. rewrite !sapp_cons. change (String c (stake n (s +:+ t)) = String c (s +:+ stake (n - String.length s) t)). f_equal. apply IH. simpl in Hn. lia. Qed.

Lemma stake_app_le n s t : (n <= String.length s)%nat -> stake n (s +:+ t) = stake n s.
Proof. revert n. induction s as [|c s IH]; intros n Hn; [simpl in Hn; by replace n with 0%nat by lia|]. destruct n as [|n]; [done|]. rewrite sapp_cons. change (String c (stake n (s +:+ t)) = String c (stake n s)). f_equal. apply IH. simpl in Hn. lia. Qed.

Lemma read_slice_line l rest : no_byte nl_byte l = true ->
  read_slice (l +:+ nl_text +:+ rest) = if (String.length l <? bufio_size)%nat then SliceLine (l +:+ nl_text) rest else SliceFull (stake bufio_size l) (sdrop bufio_size l +:+ nl_text +:+ rest).
Proof.
  intros Hl. unfold read_slice. change (nl_text +:+ rest) with (String nl_byte rest). destruct (Nat.ltb_spec (String.length l) bufio_size) as [Hlt|Hge].
  - rewrite stake_past by lia. destruct (bufio_size - String.length l)%nat as [|k] eqn:E; [lia|]. change (stake (S k) (String nl_byte rest)) with (String nl_byte (stake k rest)). change "010"%char with nl_byte. rewrite IndexByte_at by done.
    rewrite stake_past, sdrop_app_ge by lia. replace (S (String.length l) - String.length l)%nat with 1%nat by lia. change (sdrop 1 (String nl_byte rest)) with (sdrop 0 rest). by destruct rest.
  - rewrite stake_app_le by lia. rewrite IndexByte_no by (by apply no_byte_stake). rewrite length_sapp. destruct (Nat.ltb_spec (String.length l + String.length (String nl_byte rest)) bufio_size); [lia|].
    by rewrite sdrop_app_le by lia.
Qed.

Lemma read_slice_tail t : no_byte nl_byte t = true -> read_slice t = if (String.length t <? bufio_size)%nat then SliceEnd else SliceFull (stake bufio_size t) (sdrop bufio_size t).
Proof. intros Ht. unfold read_slice. by rewrite IndexByte_no by (by apply no_byte_stake). Qed.

Lemma discard_line fuel : forall l rest, no_byte nl_byte l = true -> (String.length l < fuel)%nat -> discardLineRemainder fuel (l +:+ nl_text +:+ rest) = Some rest.
Proof.
  pose proof bufio_big. induction fuel as [|fuel IH]; intros l rest Hl Hf; [lia|]. cbn [discardLineRemainder]. rewrite read_slice_line by done.
  destruct (Nat.ltb_spec (String.length l) bufio_size); [done|]. apply IH; [by apply no_byte_sdrop|]. rewrite length_sdrop. lia.
Qed.

Lemma discard_tail fuel : forall t, no_byte nl_byte t = true -> discardLineRemainder fuel t = None.
Proof.
  induction fuel as [|fuel IH]; intros t Ht; [done|]. cbn [discardLineRemainder]. rewrite read_slice_tail by done. destruct (_ <? _)%nat; [done|]. by apply IH, no_byte_sdrop.
Qed.

(** A line comes through whole or not at all. *)
Lemma readLine_line l rest : no_byte nl_byte l = true ->
  readLineBounded rbnMaxLineLength (l +:+ nl_text +:+ rest) = if rbnMaxLineLength <? len l + 1 then TooLong rest else GotLine (l +:+ nl_text) rest.
Proof.
  intros Hl. pose proof bufio_big as Hb. unfold readLineBounded. change (rbnMaxLineLength <=? 0) with false. cbv iota. cbn [read_bounded]. rewrite read_slice_line by done.
  destruct (Nat.ltb_spec (String.length l) bufio_size) as [Hlt|Hge]; change (len "") with 0; rewrite !Z.add_0_l; unfold rbnMaxLineLength.
  - rewrite len_sapp. change (len nl_text) with 1. by destruct (1024 <? len l + 1).
  - unfold len at 1 2. rewrite length_stake. destruct (Z.ltb_spec 1024 (Z.of_nat (bufio_size `min` String.length l))); [|lia]. destruct (Z.ltb_spec 1024 (Z.of_nat (String.length l) + 1)); [|lia].
    rewrite discard_line; [done|by apply no_byte_sdrop|]. rewrite !length_sapp, length_sdrop. lia.
Qed.

Lemma readLine_tail t : no_byte nl_byte t = true -> readLineBounded rbnMaxLineLength t = StreamEnd.
Proof.
  intros Ht. pose proof bufio_big. unfold readLineBounded. change (rbnMaxLineLength <=? 0) with false. cbv iota. cbn [read_bounded]. rewrite read_slice_tail by done.
  destruct (Nat.ltb_spec (String.length t) bufio_size); [done|]. change (len "") with 0. unfold len, rbnMaxLineLength. rewrite length_stake.
  destruct (Z.ltb_spec 1024 (0 + Z.of_nat (bufio_size `min` String.length t))); [|lia]. by rewrite discard_tail by (by apply no_byte_sdrop).
Qed.

Definition stream_of (lines : list string) (tail : string) : string := foldr (fun l bs => l +:+ nl_text +:+ bs) tail lines.

(** What the loop gets of a stream: the lines of at most 1024 bytes, in order, and nothing of
    the others. *)
Lemma feed_lines_exact lines tail fuel : Forall (fun l => no_byte nl_byte l = true) lines -> no_byte nl_byte tail = true -> (length lines < fuel)%nat ->
  feed_lines fuel (stream_of lines tail) = map (fun l => l +:+ nl_text) (filter (fun l => len l + 1 <= rbnMaxLineLength) lines).
Proof.
  intros Hl Ht. revert fuel. induction Hl as [|l lines Hl Hls IH]; intros fuel Hf.
  - destruct fuel as [|fuel]; [simpl in Hf; lia|]. cbn [feed_lines stream_of foldr]. by rewrite readLine_tail.
  - destruct fuel as [|fuel]; [simpl in Hf; lia|]. cbn [feed_lines stream_of foldr]. fold (stream_of lines tail). rewrite readLine_line by done. rewrite filter_cons. simpl in Hf.
    destruct (Z.ltb_spec rbnMaxLineLength (len l + 1)); case_decide; try lia; cbn [map]; rewrite IH by lia; done.
Qed.

Lemma stream_length lines tail : (length lines <= String.length (stream_of lines tail))%nat.
Proof. induction lines as [|l lines IH]; [simpl; lia|]. cbn [stream_of foldr length]. fold (stream_of lines tail). rewrite !length_sapp. simpl. lia. Qed.

(** ** Words *)

Definition word (w : string) : Prop := w <> "" /\ sforall (fun c => negb (is_space c)) w = true.

(** Each word after some blanks. *)
Definition spaced (l : list (nat * string)) : string := foldr (fun p s => Repeat " " (S p.1) +:+ (p.2 +:+ s)) "" l.

Lemma blank_space c : is_space c = false -> is_blank c = false.
Proof. unfold is_blank. intros H. apply orb_false_iff. split; apply bool_decide_false; by intros ->. Qed.

Lemma blank_words_word w s : word w -> (s = "" \/ exists c t, s = String c t /\ is_blank c = true) -> blank_words (w +:+ s) = w :: blank_words s.
Proof.
  intros [Hne Hw] Hs. induction w as [|c w IH]; [done|]. cbn [sforall] in Hw. apply andb_prop in Hw as [Hc Hw]. apply negb_true_iff, blank_space in Hc. rewrite sapp_cons. cbn [blank_words]. rewrite Hc.
  destruct w as [|d w].
  - change ("" +:+ s) with s. destruct Hs as [-> |(b & t & -> & Hb)]; [done|]. by rewrite Hb.
  - rewrite sapp_cons. assert (Hd : is_blank d = false) by (cbn [sforall] in Hw; apply andb_prop in Hw as [Hd _]; by apply negb_true_iff, blank_space in Hd). rewrite Hd.
    rewrite sapp_cons in IH. rewrite IH by done. done.
Qed.

Lemma blank_words_pad n s : blank_words (Repeat " " n +:+ s) = blank_words s.
Proof. induction n as [|n IH]; [done|]. cbn [Repeat]. rewrite sapp_assoc. change (" " +:+ (Repeat " " n +:+ s)) with (String " " (Repeat " " n +:+ s)). simpl. exact IH. Qed.

Lemma spaced_head l : spaced l = "" \/ exists c t, spaced l = String c t /\ is_blank c = true.
Proof. destruct l as [|[n w] l]; [by left|]. right. simpl. eexists _, _. split; [reflexivity|done]. Qed.

Lemma blank_words_spaced l : Forall (fun p => word p.2) l -> blank_words (spaced l) = map snd l.
Proof.
  intros Hl. induction Hl as [|[n w] l Hw Hl IH]; [done|]. cbn [spaced foldr map]. fold (spaced l). rewrite blank_words_pad, blank_words_word, IH by (done || apply spaced_head). done.
Qed.

Lemma trim_right_word x w : word w -> trim_right is_space (x +:+ w) = x +:+ w.
Proof.
  intros [Hne Hw]. destruct w as [|w c _] using string_snoc_ind; [done|]. rewrite sforall_app in Hw. apply andb_prop in Hw as [_ Hc]. cbn [sforall] in Hc. rewrite andb_true_r in Hc. apply negb_true_iff in Hc.
  rewrite <- sapp_assoc. pose proof (trim_right_app_hard is_space (x +:+ w) c "" Hc) as E. rewrite !sapp_nil_r in E. exact E.
Qed.

Lemma trim_right_spaced l : forall x w, word w -> Forall (fun p => word p.2) l -> trim_right is_space (x +:+ (w +:+ spaced l)) = x +:+ (w +:+ spaced l).
Proof.
  induction l as [|[n v] l IH]; intros x w Hw Hl; [simpl; rewrite sapp_nil_r; by apply trim_right_word|]. apply Forall_cons in Hl as [Hv Hl].
  cbn [spaced foldr fst snd]. fold (spaced l). specialize (IH (x +:+ (w +:+ Repeat " " (S n))) v Hv Hl). rewrite !sapp_assoc in IH. exact IH.
Qed.

Lemma trim_line w l : word w -> Forall (fun p => word p.2) l -> TrimSpace (w +:+ spaced l) = w +:+ spaced l.
Proof.
  intros Hw Hl. unfold TrimSpace. assert (Hleft : trim_left is_space (w +:+ spaced l) = w +:+ spaced l).
  { destruct Hw as [Hne Hw]. destruct w as [|c w]; [done|]. cbn [sforall] in Hw. apply andb_prop in Hw as [Hc _]. apply negb_true_iff in Hc. rewrite sapp_cons. cbn [trim_left]. by rewrite Hc. }
  rewrite Hleft. exact (trim_right_spaced l "" w Hw Hl).
Qed.

(** ** Lines that are spots *)

Lemma normalizeRBN_spec cache call now : cache_wf rbn_call cache ->
  (normalizeRBNCallsign cache call now).1 = rbn_call call /\ cache_wf rbn_call (normalizeRBNCallsign cache call now).2.
Proof.
  intros Hwf. unfold normalizeRBNCallsign. pose proof (CallCache_Get_spec rbn_call cache call now Hwf) as Hg. destruct (CallCache_Get cache call now) as [[v|] cache'].
  - destruct Hg as (H1 & _ & H2). simpl. split; [by apply H2|done].
  - destruct Hg as (H1 & _ & _). simpl. split; [done|]. by apply CallCache_Add_wf.
Qed.

(** Once a call is found the remaining tokens are the comment. *)
Lemma scan_rest now toks f dx cache : dx <> "" ->
  scan_tokens now toks (Some f) dx cache = (Some f, dx, map (fun t => bool_decide (clean t = "")) toks, cache).
Proof.
  intros Hdx. induction toks as [|t toks IH]; [done|]. cbn [scan_tokens map]. rewrite IH. case_bool_decide as Hc; [done|]. rewrite (bool_decide_false (dx = "")) by done. by rewrite andb_false_r.
Qed.

Lemma comment_rest toks :
  filter (fun w => w <> "") (omap (fun p : spotToken * bool => if p.2 then None else Some (clean p.1)) (zip toks (map (fun t => bool_decide (clean t = "")) toks))) = filter (fun w => w <> "") (map clean toks).
Proof.
  induction toks as [|t toks IH]; [done|]. cbn [map zip_with]. rewrite !filter_cons. cbn [omap list_omap fst snd]. case_bool_decide as Hc; simpl.
  - rewrite decide_False by tauto. exact IH.
  - rewrite filter_cons, IH. done.
Qed.



(** The spot of such a line: a speed and CQ are no comment, the time is today's. *)
Example feed_line_spot :
  match (parse_line (NewClient 7000 "" None 10 (ConfigureCallCache 0 0)) "DX de W3LPL-#:  14025.5  K1ABC  CW  22 dB  25 WPM CQ 2214Z" (23 * hour)).1 with
  | ASpot s => (DXCall s, DECall s, Mode s, Report s, Comment s, Time s) = ("K1ABC", "W3LPL-#", "CW", 22, "", 22 * hour + 14 * minute)
  | _ => False
  end.
Proof. vm_compute. reflexivity. Qed.

(** NaN passes the frequency limits. *)
Example nan_accepted : (parse_line (UseMinimalParser (NewClient 7300 "" None 10 (ConfigureCallCache 0 0))) "DX de W3LPL: NaN K1ABC" 0).1 = NaNSpot.
Proof. vm_compute. reflexivity. Qed.

(** The loop is the lines of at most 1024 bytes in turn, whatever the stream holds besides. *)
Lemma readLoop_lines c times lines tail : Forall (fun l => no_byte nl_byte l = true) lines -> no_byte nl_byte tail = true ->
  readLoop c times (stream_of lines tail) = feed_all c times (map (fun l => l +:+ nl_text) (filter (fun l => len l + 1 <= rbnMaxLineLength) lines)).
Proof. intros Hl Ht. unfold readLoop. rewrite feed_lines_exact; [done..|]. pose proof (stream_length lines tail). lia. Qed.
