(* ===== verification/PskFeed.v ===== *)
(** * PskFeed: spots from PSKReporter

    [pskreporter/client.go]: a message of the MQTT broker is copied into a buffer of a pool and
    queued; workers decode the buffers, make spots of the messages and give the buffers back.
    The buffers are modelled as a store that handlers, queue, pool and workers share, and the
    handlers and workers as threads that interleave.  The two JSON decoders, which are tried in
    turn on the same message, are arguments; the MQTT session is not modelled. *)

From S2P Require Import Prelude GoText GoNum GoTime Ingest Callsign Bands Spot PeerSpot Feed.
From Stdlib Require Import QArith Qround.
Local Open Scope string_scope.
Local Open Scope list_scope.
Local Open Scope Z_scope.

(** ** Messages and modes *)

Record PSKRMessage := mkMessage {
  SequenceNumber : Z; m_Frequency : Z; m_Mode : string; m_Report : option Z; Timestamp : Z;
  SenderCall : string; SenderLocator : string; ReceiverCall : string; ReceiverLocator : string;
  SenderCountry : Z; ReceiverCountry : Z; m_Band : string }.

Definition empty_message : PSKRMessage := mkMessage 0 0 "" None 0 "" "" "" "" 0 0 "".

Record pskModeInfo := mkModeInfo { canonical : string; variant : string; isPSK : bool }.

Definition parseModeInfo (raw : string) : option pskModeInfo :=
  let '(canonical, variant, isPSK) := CanonicalPSKMode raw in
  if bool_decide (canonical = "") then None
  else Some (mkModeInfo canonical (if bool_decide (variant = "") then canonical else variant) isPSK).

Definition modeMatchesList (info : pskModeInfo) (allowed : gset string) : bool :=
  if bool_decide (allowed = ∅) then false
  else (negb (bool_decide (canonical info = "")) && bool_decide (canonical info ∈ allowed))
       || (isPSK info && negb (bool_decide (variant info = "")) && bool_decide (variant info ∈ allowed)).

(** ** The client *)

Definition pskReporterQueuePerWorker : Z := 256.
Definition mqttInboundQueuePerWorker : Z := 256.
Definition mqttInboundQueueDepthCap : Z := 4096.
Definition defaultSpotBuffer : Z := 25000.
Definition defaultMaxPayloadBytes : Z := 4096.
Definition defaultDropLogInterval : Z := 10 * second.
Definition payloadPoolMaxCountCap : Z := 1024.
Definition payloadPoolMaxBytesCap : Z := 16 * 1024.

(** Settings, which do not change once the client is connected. *)
Record settings := mkSettings {
  skewStore : option (gmap string Entry); appendSSID : bool; maxPayloadBytes : Z; workers : Z; spotCap : Z;
  allowAllModes : bool; allowedModes : gset string; pathOnlyModes : gset string; hasPathOnly : bool;
  mqttInboundWorkers : Z; mqttInboundQueueDepth : Z; mqttQoS12EnqueueTimeout : Z }.

(** What messages change: the caches, channels, counters and times. *)
Record Client := mkClient {
  spotterCache : CallCache; spotChan : list Spot; pathOnlyChan : option (list Spot);
  lastPayloadAt : Z; lastSpotAt : Z; lastParseErrAt : Z;
  payloadDropCounter : rateCounter; payloadTooLargeCounter : rateCounter; spotDropCounter : rateCounter;
  parseErrorCounter : rateCounter; pathOnlyDropCounter : rateCounter }.

Definition mode_set (modes : list string) : gset string :=
  fold_left (fun s m => let m := upper_trim m in if bool_decide (m = "") then s else s ∪ {[m]}) modes ∅.

Definition ConfigureCallCache (size ttl : Z) : Z * Z := (if size <=? 0 then 4096 else size, if ttl <=? 0 then 10 * minute else ttl).

Definition NewClient (allowed pathOnly : list string) (workers_ inboundWorkers inboundDepth timeout : Z) (skew : option (gmap string Entry)) (appendSSID_ : bool)
    (spotBuffer maxPayload : Z) (cacheSize : Z * Z) : settings * Client :=
  let spotBuffer := if spotBuffer <=? 0 then defaultSpotBuffer else spotBuffer in
  let maxPayload := if maxPayload <=? 0 then defaultMaxPayloadBytes else maxPayload in
  let modeSet := mode_set allowed in
  let pathOnlySet := mode_set pathOnly in
  let hasPathOnly := negb (bool_decide (pathOnlySet = ∅)) in
  let counter := newRateCounter defaultDropLogInterval in
  (mkSettings skew appendSSID_ maxPayload workers_ spotBuffer (bool_decide (modeSet = ∅)) modeSet pathOnlySet hasPathOnly inboundWorkers inboundDepth timeout,
   mkClient (NewCallCache cacheSize.1 cacheSize.2) [] (if hasPathOnly then Some [] else None) 0 0 0 counter counter counter counter counter).

Definition defaultPSKReporterWorkers (numCPU : Z) : Z := if numCPU <? 4 then 4 else numCPU.

(** The sizes [Connect] settles: workers and inbound queue of the MQTT client. *)
Definition inbound_sizes (numCPU : Z) (st : settings) : settings :=
  let workers_ := if workers st <=? 0 then defaultPSKReporterWorkers numCPU else workers st in
  let mqttWorkers := if mqttInboundWorkers st <=? 0 then workers_ else mqttInboundWorkers st in
  let queueDepth :=
    if mqttInboundQueueDepth st <=? 0 then
      let d := mqttWorkers * mqttInboundQueuePerWorker in
      if mqttInboundQueueDepthCap <? d then mqttInboundQueueDepthCap else d
    else mqttInboundQueueDepth st in
  mkSettings (skewStore st) (appendSSID st) (maxPayloadBytes st) workers_ (spotCap st) (allowAllModes st) (allowedModes st) (pathOnlyModes st) (hasPathOnly st)
    mqttWorkers queueDepth (if mqttQoS12EnqueueTimeout st <? 0 then 0 else mqttQoS12EnqueueTimeout st).

Definition with_cache (cache : CallCache) (c : Client) : Client :=
  mkClient cache (spotChan c) (pathOnlyChan c) (lastPayloadAt c) (lastSpotAt c) (lastParseErrAt c)
    (payloadDropCounter c) (payloadTooLargeCounter c) (spotDropCounter c) (parseErrorCounter c) (pathOnlyDropCounter c).

Definition payload_at (now : Z) (c : Client) : Client :=
  mkClient (spotterCache c) (spotChan c) (pathOnlyChan c) now (lastSpotAt c) (lastParseErrAt c)
    (payloadDropCounter c) (payloadTooLargeCounter c) (spotDropCounter c) (parseErrorCounter c) (pathOnlyDropCounter c).

Definition bump (r : rateCounter) (now : Z) : rateCounter := (Inc r now).2.

Definition drop_payload (now : Z) (c : Client) : Client :=
  mkClient (spotterCache c) (spotChan c) (pathOnlyChan c) (lastPayloadAt c) (lastSpotAt c) (lastParseErrAt c)
    (bump (payloadDropCounter c) now) (payloadTooLargeCounter c) (spotDropCounter c) (parseErrorCounter c) (pathOnlyDropCounter c).

Definition payload_too_large (now : Z) (c : Client) : Client :=
  mkClient (spotterCache c) (spotChan c) (pathOnlyChan c) (lastPayloadAt c) (lastSpotAt c) (lastParseErrAt c)
    (payloadDropCounter c) (bump (payloadTooLargeCounter c) now) (spotDropCounter c) (parseErrorCounter c) (pathOnlyDropCounter c).

Definition parse_failed (now : Z) (c : Client) : Client :=
  mkClient (spotterCache c) (spotChan c) (pathOnlyChan c) (lastPayloadAt c) (lastSpotAt c) now
    (payloadDropCounter c) (payloadTooLargeCounter c) (spotDropCounter c) (bump (parseErrorCounter c) now) (pathOnlyDropCounter c).

(** The sends, which do not block. *)
Definition send_spot (st : settings) (s : Spot) (now : Z) (c : Client) : Client :=
  let full := spotCap st <=? Z.of_nat (length (spotChan c)) in
  mkClient (spotterCache c) (if full then spotChan c else spotChan c ++ [s]) (pathOnlyChan c) (lastPayloadAt c) now (lastParseErrAt c)
    (payloadDropCounter c) (payloadTooLargeCounter c) (if full then bump (spotDropCounter c) now else spotDropCounter c) (parseErrorCounter c) (pathOnlyDropCounter c).

(** A send on a nil channel is never ready. *)
Definition send_path_only (st : settings) (s : Spot) (now : Z) (c : Client) : Client :=
  let full := match pathOnlyChan c with None => true | Some q => spotCap st <=? Z.of_nat (length q) end in
  mkClient (spotterCache c) (spotChan c) (if full then pathOnlyChan c else (fun q => q ++ [s]) <$> pathOnlyChan c) (lastPayloadAt c) now (lastParseErrAt c)
    (payloadDropCounter c) (payloadTooLargeCounter c) (spotDropCounter c) (parseErrorCounter c) (if full then bump (pathOnlyDropCounter c) now else pathOnlyDropCounter c).

(** ** From a message to a spot *)

Definition isCWorRTTY (mode : string) : bool := bool_decide (mode = "CW") || bool_decide (mode = "RTTY").

(** The spotter's call, with the skimmer's mark where it fits. *)
Definition decorated (append : bool) (call : string) : string :=
  let normalized := normalize_call call in
  if negb append then normalized
  else if bool_decide (normalized = "") then normalized
  else if Contains normalized "-" then normalized
  else if maxCallsignLength <? len normalized + 2 then normalized
  else normalized +:+ "-#".

Definition cache_key (append : bool) (call : string) : string := (if append then "1|" else "0|") +:+ call.

Definition decorateSpotterCall (st : settings) (call : string) (now : Z) (cache : CallCache) : string * CallCache :=
  let key := cache_key (appendSSID st) call in
  match CallCache_Get cache key now with
  | (Some v, cache) => (v, cache)
  | (None, cache) => (decorated (appendSSID st) call, CallCache_Add cache key (decorated (appendSSID st) call) now)
  end.

Record normalizedPSK := mkNormalized {
  modeUpper : string; displayMode : string; dxCall : string; deCall : string; dxGrid : string; deGrid : string; freqKHz : Q }.

Definition normalizeMessage (st : settings) (msg : PSKRMessage) (info : pskModeInfo) (now : Z) (cache : CallCache) : option normalizedPSK * CallCache :=
  if bool_decide (canonical info = "") || bool_decide (SenderCall msg = "") || bool_decide (ReceiverCall msg = "") then (None, cache)
  else
    let displayMode := if bool_decide (variant info = "") then canonical info else variant info in
    let freqKHz := fdiv (fl64 (inject_Z (m_Frequency msg))) 1000 in
    if Qle_b freqKHz 0 then (None, cache)
    else
      let '(deCall, cache) := decorateSpotterCall st (ReceiverCall msg) now cache in
      (Some (mkNormalized (canonical info) displayMode (normalize_call (SenderCall msg)) deCall
               (upper_trim (SenderLocator msg)) (upper_trim (ReceiverLocator msg)) freqKHz), cache).

Definition grid_metadata (g : string) (m : CallMetadata) : CallMetadata :=
  mkCallMetadata (Continent m) (Country m) (CQZone m) g (GridDerived m) (ITUZone m) (ADIF m).

(** The fields set after [NewSpotNormalized]. *)
Definition psk_fields (msg : PSKRMessage) (norm : normalizedPSK) (s : Spot) : Spot :=
  mkSpot (ID s) (DXCall s) (DECall s) (Frequency s) (Band s) (Mode s) (default (Report s) (m_Report msg)) (Timestamp msg * second) (Comment s)
    SourcePSKReporter "PSKREPORTER" (SpotterIP s) (TTL s) false (IsTestSpotter s) (IsBeacon s)
    (match m_Report msg with Some _ => true | None => HasReport s end)
    (grid_metadata (dxGrid norm) (DXMetadata s)) (grid_metadata (deGrid norm) (DEMetadata s)) (Confidence s)
    (formatted s) (modeUpper norm) (BandNorm s) (DXCallNorm s) (DECallNorm s) (DXContinentNorm s)
    (DEContinentNorm s) (DXGridNorm s) (DEGridNorm s) (DXGrid2 s) (DEGrid2 s) (DXCellID s) (DECellID s)
    (DECallStripped s) (DECallNormStripped s).

(** Nothing for a message that is refused.  Seconds so large that [time.Unix] wraps are
    refused as too old where the model refuses them as in the future. *)
Definition convertToSpot (st : settings) (msg : PSKRMessage) (info : pskModeInfo) (now : Z) (cache : CallCache) : option Spot * CallCache :=
  if bool_decide (SenderCall msg = "") || bool_decide (ReceiverCall msg = "") || (m_Frequency msg =? 0) then (None, cache)
  else
    match normalizeMessage st msg info now cache with
    | (None, cache) => (None, cache)
    | (Some norm, cache) =>
        (if negb (IsValidNormalizedCallsign (dxCall norm)) then None
         else if negb (IsValidNormalizedCallsign (deCall norm)) then None
         else if Timestamp msg =? 0 then None
         else
           let age := time_sub now (Timestamp msg * second) in
           if age <? - hour then None
           else if 24 * hour <? age then None
           else
             let freq := if isCWorRTTY (modeUpper norm) then ApplyCorrection (skewStore st) (deCall norm) (freqKHz norm) else freqKHz norm in
             Some (RefreshBeaconFlag (psk_fields msg norm (NewSpotNormalized (dxCall norm) (deCall norm) freq (displayMode norm) now))),
         cache)
    end.

(** ** Payloads *)

Section Decoding.
(** [jsonFast.Unmarshal] and [jsonCompat.Unmarshal]: whether there was no error, and what the
    message holds then; the second one starts from what the first one left. *)
Context (jsonFast : string -> bool * PSKRMessage) (jsonCompat : string -> PSKRMessage -> bool * PSKRMessage).

Definition decode (payload : string) : option PSKRMessage :=
  let '(ok, msg) := jsonFast payload in
  if ok then Some msg else let '(ok, msg) := jsonCompat payload msg in if ok then Some msg else None.

(** Where a message goes: nowhere, to the path-only channel, or to the spots. *)
Definition route (st : settings) (info : pskModeInfo) : option bool :=
  let pathOnly := hasPathOnly st && modeMatchesList info (pathOnlyModes st) in
  if negb (allowAllModes st) && negb pathOnly && negb (modeMatchesList info (allowedModes st)) then None else Some pathOnly.

Definition handlePayload (st : settings) (payload : string) (now : Z) (c : Client) : Client :=
  match decode payload with
  | None => parse_failed now c
  | Some msg =>
      if match m_Report msg with None => true | Some r => r =? 0 end then c
      else
        match parseModeInfo (m_Mode msg) with
        | None => c
        | Some info =>
            match route st info with
            | None => c
            | Some pathOnly =>
                match convertToSpot st msg info now (spotterCache c) with
                | (None, cache) => with_cache cache c
                | (Some s, cache) => if pathOnly then send_path_only st s now (with_cache cache c) else send_spot st s now (with_cache cache c)
                end
            end
        end
  end.

(** ** Buffers and threads

    A buffer is a number; the store holds its bytes, as many as its capacity.  A slice of it is
    the number with a length. *)

Inductive phase :=
  | Copying (raw : string) (b : nat)          (* a handler that has a buffer for its message *)
  | Sending (raw : string) (b : nat)          (* and has copied the message *)
  | Idle                                      (* a worker that waits *)
  | Parsing (b : nat) (size : nat)            (* a worker that has taken a payload *)
  | Releasing (b : nat)                       (* and has handled it *)
  | Gone.                                     (* a worker that has returned *)

Record state := mkState {
  client : Client; heap : gmap nat string; next : nat;
  payloadPool : option (list nat); poolCap : Z; payloadPoolMaxBytes : Z;
  queue : list (nat * nat); queueCap : Z; processing : bool;
  threads : gmap nat phase; stopped : bool }.

Definition upd_client (c : Client) (x : state) : state :=
  mkState c (heap x) (next x) (payloadPool x) (poolCap x) (payloadPoolMaxBytes x) (queue x) (queueCap x) (processing x) (threads x) (stopped x).
Definition upd_pool (p : option (list nat)) (x : state) : state :=
  mkState (client x) (heap x) (next x) p (poolCap x) (payloadPoolMaxBytes x) (queue x) (queueCap x) (processing x) (threads x) (stopped x).
Definition upd_queue (q : list (nat * nat)) (x : state) : state :=
  mkState (client x) (heap x) (next x) (payloadPool x) (poolCap x) (payloadPoolMaxBytes x) q (queueCap x) (processing x) (threads x) (stopped x).
Definition upd_threads (t : gmap nat phase) (x : state) : state :=
  mkState (client x) (heap x) (next x) (payloadPool x) (poolCap x) (payloadPoolMaxBytes x) (queue x) (queueCap x) (processing x) t (stopped x).
Definition upd_heap (h : gmap nat string) (x : state) : state :=
  mkState (client x) h (next x) (payloadPool x) (poolCap x) (payloadPoolMaxBytes x) (queue x) (queueCap x) (processing x) (threads x) (stopped x).
Definition upd_processing (b : bool) (x : state) : state :=
  mkState (client x) (heap x) (next x) (payloadPool x) (poolCap x) (payloadPoolMaxBytes x) (queue x) (queueCap x) b (threads x) (stopped x).
Definition upd_stopped (b : bool) (x : state) : state :=
  mkState (client x) (heap x) (next x) (payloadPool x) (poolCap x) (payloadPoolMaxBytes x) (queue x) (queueCap x) (processing x) (threads x) b.

Definition zero_bytes (n : nat) : string := Repeat (String "000" "") n.

(** [make([]byte, size)]. *)
Definition alloc (size : nat) (x : state) : nat * state :=
  (next x, mkState (client x) (<[next x := zero_bytes size]> (heap x)) (S (next x)) (payloadPool x) (poolCap x) (payloadPoolMaxBytes x) (queue x) (queueCap x)
             (processing x) (threads x) (stopped x)).

Definition cap (x : state) (b : nat) : Z := len (default "" (heap x !! b)).

Definition initPayloadPool (maxBytes queueCapacity : Z) (x : state) : state :=
  match payloadPool x with
  | Some _ => x
  | None =>
      if (queueCapacity <=? 0) || (maxBytes <=? 0) then x
      else
        mkState (client x) (heap x) (next x) (Some []) (if payloadPoolMaxCountCap <? queueCapacity then payloadPoolMaxCountCap else queueCapacity)
          (if payloadPoolMaxBytesCap <? maxBytes then payloadPoolMaxBytesCap else maxBytes) (queue x) (queueCap x) (processing x) (threads x) (stopped x)
  end.

(** A buffer that is too small for the message is left to the garbage collector. *)
Definition acquirePayloadBuffer (size : nat) (x : state) : option nat * state :=
  if (size =? 0)%nat then (None, x)
  else
    let fresh x := let '(b, x) := alloc size x in (Some b, x) in
    match payloadPool x with
    | None => fresh x
    | Some p =>
        if (payloadPoolMaxBytes x <=? 0) || (payloadPoolMaxBytes x <? Z.of_nat size) then fresh x
        else match p with
             | [] => fresh x
             | b :: p => if cap x b <? Z.of_nat size then fresh (upd_pool (Some p) x) else (Some b, upd_pool (Some p) x)
             end
    end.

Definition releasePayloadBuffer (b : nat) (x : state) : state :=
  match payloadPool x with
  | None => x
  | Some p =>
      if (payloadPoolMaxBytes x <=? 0) || (cap x b =? 0) || (payloadPoolMaxBytes x <? cap x b) then x
      else if Z.of_nat (length p) <? poolCap x then upd_pool (Some (p ++ [b])) x else x
  end.

Definition start_workers (n : nat) : gmap nat phase := list_to_map (map (fun i => (i, Idle)) (seq 0 n)).

Definition startWorkerPool (st : settings) (c : Client) : state :=
  let capacity := workers st * pskReporterQueuePerWorker in
  let capacity := if capacity <? 256 then 256 else capacity in
  initPayloadPool (maxPayloadBytes st) capacity (mkState c ∅ 0 None 0 0 [] capacity true (start_workers (Z.to_nat (workers st))) false).

Definition set_thread (t : nat) (p : phase) (x : state) : state := upd_threads (<[t := p]> (threads x)) x.
Definition end_thread (t : nat) (x : state) : state := upd_threads (delete t (threads x)) x.

(** [messageHandler] up to the copy. *)
Definition message_arrives (st : settings) (t : nat) (raw : string) (now : Z) (x : state) : state :=
  if stopped x then x
  else
    let x := upd_client (payload_at now (client x)) x in
    if (0 <? maxPayloadBytes st) && (maxPayloadBytes st <? len raw) then upd_client (payload_too_large now (client x)) x
    else if negb (processing x) then upd_client (drop_payload now (client x)) x
    else match acquirePayloadBuffer (String.length raw) x with
         | (None, x) => x
         | (Some b, x) => set_thread t (Copying raw b) x
         end.

(** [copy(payload, raw)]. *)
Definition copy_into (h : gmap nat string) (b : nat) (raw : string) : gmap nat string :=
  <[b := raw +:+ sdrop (String.length raw) (default "" (h !! b))]> h.

(** The [select] of [messageHandler]; [coin] chooses when both channels are ready. *)
Definition enqueue (t : nat) (raw : string) (b : nat) (coin : bool) (now : Z) (x : state) : state :=
  let room := Z.of_nat (length (queue x)) <? queueCap x in
  if stopped x && (negb room || coin) then end_thread t (releasePayloadBuffer b x)
  else if room then end_thread t (upd_queue (queue x ++ [(b, String.length raw)]) x)
  else end_thread t (upd_client (drop_payload now (client x)) (releasePayloadBuffer b x)).

Inductive action :=
  | Message (t : nat) (raw : string)          (* a message arrives, in a thread of its own *)
  | Advance (t : nat) (coin : bool)           (* the next step of a handler or a worker *)
  | ReadSpot | ReadPathOnly                   (* the main program takes a spot *)
  | Shutdown                                  (* [Stop] closes the shutdown channel *)
  | Stopped.                                  (* [stopWorkerPool] after the last worker *)

Definition payload_bytes (h : gmap nat string) (b size : nat) : string := stake size (default "" (h !! b)).

Definition advance (st : settings) (t : nat) (coin : bool) (now : Z) (x : state) : state :=
  match threads x !! t with
  | None | Some Gone => x
  | Some (Copying raw b) => set_thread t (Sending raw b) (upd_heap (copy_into (heap x) b raw) x)
  | Some (Sending raw b) => enqueue t raw b coin now x
  | Some Idle =>
      match queue x with
      | [] => if stopped x then set_thread t Gone x else x
      | (b, size) :: q => if stopped x && coin then set_thread t Gone x else set_thread t (Parsing b size) (upd_queue q x)
      end
  | Some (Parsing b size) => set_thread t (Releasing b) (upd_client (handlePayload st (payload_bytes (heap x) b size) now (client x)) x)
  | Some (Releasing b) => set_thread t Idle (releasePayloadBuffer b x)
  end.

Definition read_spot (c : Client) : Client :=
  mkClient (spotterCache c) (tail (spotChan c)) (pathOnlyChan c) (lastPayloadAt c) (lastSpotAt c) (lastParseErrAt c)
    (payloadDropCounter c) (payloadTooLargeCounter c) (spotDropCounter c) (parseErrorCounter c) (pathOnlyDropCounter c).

Definition read_path_only (c : Client) : Client :=
  mkClient (spotterCache c) (spotChan c) (tail <$> pathOnlyChan c) (lastPayloadAt c) (lastSpotAt c) (lastParseErrAt c)
    (payloadDropCounter c) (payloadTooLargeCounter c) (spotDropCounter c) (parseErrorCounter c) (pathOnlyDropCounter c).

(** No worker is left. *)
Definition quiet (p : phase) : bool := match p with Idle | Parsing _ _ | Releasing _ => false | _ => true end.

Definition act (st : settings) (x : state) (a : action * Z) : state :=
  match a.1 with
  | Message t raw => match threads x !! t with None => message_arrives st t raw a.2 x | Some _ => x end
  | Advance t coin => advance st t coin a.2 x
  | ReadSpot => upd_client (read_spot (client x)) x
  | ReadPathOnly => upd_client (read_path_only (client x)) x
  | Shutdown => upd_stopped true x
  | Stopped => if stopped x && bool_decide (map_Forall (fun _ p => quiet p = true) (threads x)) then upd_processing false x else x
  end.

Definition run (st : settings) (x : state) (schedule : list (action * Z)) : state := fold_left (act st) schedule x.

(** ** Without buffers

    The same client when every message is its own string. *)

Inductive sphase := SCopying (raw : string) | SSending (raw : string) | SIdle | SParsing (payload : string) | SReleasing | SGone.

Record sstate := mkS { s_client : Client; s_queue : list string; s_queueCap : Z; s_processing : bool; s_threads : gmap nat sphase; s_stopped : bool }.

Definition s_with (c : Client) (q : list string) (ts : gmap nat sphase) (x : sstate) : sstate := mkS c q (s_queueCap x) (s_processing x) ts (s_stopped x).

Definition s_arrives (st : settings) (t : nat) (raw : string) (now : Z) (x : sstate) : sstate :=
  if s_stopped x then x
  else
    let c := payload_at now (s_client x) in
    if (0 <? maxPayloadBytes st) && (maxPayloadBytes st <? len raw) then s_with (payload_too_large now c) (s_queue x) (s_threads x) x
    else if negb (s_processing x) then s_with (drop_payload now c) (s_queue x) (s_threads x) x
    else s_with c (s_queue x) (if bool_decide (raw = "") then s_threads x else <[t := SCopying raw]> (s_threads x)) x.

Definition s_enqueue (t : nat) (raw : string) (coin : bool) (now : Z) (x : sstate) : sstate :=
  let room := Z.of_nat (length (s_queue x)) <? s_queueCap x in
  let ts := delete t (s_threads x) in
  if s_stopped x && (negb room || coin) then s_with (s_client x) (s_queue x) ts x
  else if room then s_with (s_client x) (s_queue x ++ [raw]) ts x
  else s_with (drop_payload now (s_client x)) (s_queue x) ts x.

Definition s_advance (st : settings) (t : nat) (coin : bool) (now : Z) (x : sstate) : sstate :=
  let go p := s_with (s_client x) (s_queue x) (<[t := p]> (s_threads x)) x in
  match s_threads x !! t with
  | None | Some SGone => x
  | Some (SCopying raw) => go (SSending raw)
  | Some (SSending raw) => s_enqueue t raw coin now x
  | Some SIdle =>
      match s_queue x with
      | [] => if s_stopped x then go SGone else x
      | payload :: q => if s_stopped x && coin then go SGone else s_with (s_client x) q (<[t := SParsing payload]> (s_threads x)) x
      end
  | Some (SParsing payload) => s_with (handlePayload st payload now (s_client x)) (s_queue x) (<[t := SReleasing]> (s_threads x)) x
  | Some SReleasing => go SIdle
  end.

Definition s_quiet (p : sphase) : bool := match p with SIdle | SParsing _ | SReleasing => false | _ => true end.

Definition s_act (st : settings) (x : sstate) (a : action * Z) : sstate :=
  match a.1 with
  | Message t raw => match s_threads x !! t with None => s_arrives st t raw a.2 x | Some _ => x end
  | Advance t coin => s_advance st t coin a.2 x
  | ReadSpot => s_with (read_spot (s_client x)) (s_queue x) (s_threads x) x
  | ReadPathOnly => s_with (read_path_only (s_client x)) (s_queue x) (s_threads x) x
  | Shutdown => mkS (s_client x) (s_queue x) (s_queueCap x) (s_processing x) (s_threads x) true
  | Stopped => if s_stopped x && bool_decide (map_Forall (fun _ p => s_quiet p = true) (s_threads x))
               then mkS (s_client x) (s_queue x) (s_queueCap x) false (s_threads x) (s_stopped x) else x
  end.

Definition s_run (st : settings) (x : sstate) (schedule : list (action * Z)) : sstate := fold_left (s_act st) schedule x.

(** A state as it looks without buffers. *)
Definition view_phase (h : gmap nat string) (p : phase) : sphase :=
  match p with
  | Copying raw _ => SCopying raw | Sending raw _ => SSending raw | Idle => SIdle
  | Parsing b size => SParsing (payload_bytes h b size) | Releasing _ => SReleasing | Gone => SGone
  end.

Definition view (x : state) : sstate :=
  mkS (client x) (map (fun e => payload_bytes (heap x) e.1 e.2) (queue x)) (queueCap x) (processing x) (view_phase (heap x) <$> threads x) (stopped x).

(** ** No buffer is shared *)

(** Who may hold a buffer. *)
Inductive place := InPool (i : nat) | InQueue (i : nat) | InThread (t : nat).

Definition buffer_of (p : phase) : option nat :=
  match p with Copying _ b | Sending _ b | Parsing b _ | Releasing b => Some b | Idle | Gone => None end.

Definition holder (x : state) (pl : place) : option nat :=
  match pl with
  | InPool i => default [] (payloadPool x) !! i
  | InQueue i => fst <$> queue x !! i
  | InThread t => threads x !! t ≫= buffer_of
  end.

Record owned (x : state) : Prop := {
  own_inj : forall p q b, holder x p = Some b -> holder x q = Some b -> p = q;
  own_old : forall p b, holder x p = Some b -> (b < next x)%nat;
  own_sent : forall t raw b, threads x !! t = Some (Sending raw b) -> payload_bytes (heap x) b (String.length raw) = raw }.

(** A step moves buffers between places and puts at most a new one somewhere. *)
Lemma owned_moves x x' (f : place -> place) (new : place) : owned x -> (next x <= next x')%nat ->
  (forall p b, holder x' p = Some b -> holder x (f p) = Some b \/ (p = new /\ (next x <= b < next x')%nat)) ->
  (forall p q b, holder x' p = Some b -> holder x' q = Some b -> f p = f q -> p = q) ->
  (forall t raw b, threads x' !! t = Some (Sending raw b) -> payload_bytes (heap x') b (String.length raw) = raw) -> owned x'.
Proof.
  intros Ho Hn Hm Hi Hs. split; [|..|exact Hs].
  - intros p q b Hp Hq. destruct (Hm _ _ Hp) as [Hp'|[-> Hb]], (Hm _ _ Hq) as [Hq'|[-> Hb']]; try done.
    + apply (Hi p q b Hp Hq). by apply (own_inj x Ho _ _ b).
    + pose proof (own_old x Ho _ _ Hp'). lia.
    + pose proof (own_old x Ho _ _ Hq'). lia.
  - intros p b Hp. destruct (Hm _ _ Hp) as [Hp'|[_ Hb]]; [pose proof (own_old x Ho _ _ Hp')|]; lia.
Qed.

(** Two stores that agree on what is held look alike. *)
Lemma view_phase_ext h h' p : (forall b, buffer_of p = Some b -> h !! b = h' !! b) -> view_phase h p = view_phase h' p.
Proof. intros H. destruct p; try done. simpl. unfold payload_bytes. by rewrite (H b eq_refl). Qed.

Lemma view_threads_ext h h' (ts : gmap nat phase) : (forall t b, ts !! t ≫= buffer_of = Some b -> h !! b = h' !! b) -> view_phase h <$> ts = view_phase h' <$> ts.
Proof. intros H. apply map_fmap_ext. intros t p Hp. apply view_phase_ext. intros b Hb. apply (H t). by rewrite Hp. Qed.

Lemma view_queue_ext h h' (q : list (nat * nat)) : (forall i b, fst <$> q !! i = Some b -> h !! b = h' !! b) ->
  map (fun e => payload_bytes h e.1 e.2) q = map (fun e => payload_bytes h' e.1 e.2) q.
Proof.
  intros H. apply map_ext_in. intros [b n] Hin. apply list_elem_of_In, list_elem_of_lookup in Hin as [i Hi]. unfold payload_bytes. cbn [fst snd]. by rewrite (H i b) by (by rewrite Hi).
Qed.

Lemma view_release b x : view (releasePayloadBuffer b x) = view x.
Proof. unfold releasePayloadBuffer. destruct (payloadPool x); [|done]. repeat case_match; done. Qed.

(** What a release changes. *)
Lemma release_same b x : let y := releasePayloadBuffer b x in
  heap y = heap x /\ next y = next x /\ queue y = queue x /\ threads y = threads x /\ client y = client x /\ queueCap y = queueCap x /\ processing y = processing x /\ stopped y = stopped x /\
  (default [] (payloadPool y) = default [] (payloadPool x) \/ default [] (payloadPool y) = default [] (payloadPool x) ++ [b]).
Proof. unfold releasePayloadBuffer. destruct (payloadPool x) as [p|] eqn:E; [|cbv zeta; rewrite E; by repeat split; left]. cbv zeta. repeat case_match; simpl; rewrite ?E; repeat split; auto. Qed.

Ltac thread t t' := destruct (decide (t = t')) as [<- |?]; [rewrite ?lookup_insert_eq, ?lookup_delete_eq in *|rewrite ?lookup_insert_ne, ?lookup_delete_ne in * by done].

(** Nothing moves. *)
Lemma owned_same x x' : owned x -> next x' = next x -> default [] (payloadPool x') = default [] (payloadPool x) -> queue x' = queue x ->
  (forall t b, threads x' !! t ≫= buffer_of = Some b -> threads x !! t ≫= buffer_of = Some b) ->
  (forall t raw b, threads x' !! t = Some (Sending raw b) -> payload_bytes (heap x') b (String.length raw) = raw) -> owned x'.
Proof.
  intros Ho Hn Hp Hq Ht Hs. apply (owned_moves x x' id (InPool 0) Ho); [lia| |done|done].
  intros p b Hb. left. destruct p as [i|i|t]; simpl in *; rewrite ?Hp, ?Hq in Hb; auto.
Qed.

(** A thread gives its buffer back. *)
Lemma owned_release x t b ts : owned x -> threads x !! t ≫= buffer_of = Some b -> ts !! t ≫= buffer_of = None -> (forall u, u <> t -> ts !! u = threads x !! u) ->
  owned (upd_threads ts (releasePayloadBuffer b x)).
Proof.
  intros Ho Hb Hnone Hts. pose proof (release_same b x) as (Hh & Hn & Hq & Ht & _ & _ & _ & _ & Hp). set (y := releasePayloadBuffer b x) in *.
  set (n := length (default [] (payloadPool x))).
  apply (owned_moves x _ (fun p => match p with InPool i => if (i <? n)%nat then InPool i else InThread t | _ => p end) (InPool 0) Ho).
  - simpl. lia.
  - intros p d Hd. left. destruct p as [i|i|u]; simpl in Hd.
    + destruct (Nat.ltb_spec i n) as [Hi|Hi].
      * simpl. destruct Hp as [Hp|Hp]; rewrite Hp in Hd; [done|]. by rewrite lookup_app_l in Hd.
      * destruct Hp as [Hp|Hp]; rewrite Hp in Hd; [apply lookup_lt_Some in Hd; fold n in Hd; lia|]. rewrite lookup_app_r in Hd by done. apply list_lookup_singleton_Some in Hd as [_ <-]. exact Hb.
    + by rewrite Hq in Hd.
    + destruct (decide (u = t)) as [->|Hu]; [by rewrite Hnone in Hd|]. by rewrite Hts in Hd.
  - intros p q d Hd1 Hd2. assert (Hlast : forall i, holder (upd_threads ts y) (InPool i) = Some d -> (n <= i)%nat -> i = n).
    { intros i Hi Hge. simpl in Hi. destruct Hp as [Hp|Hp]; rewrite Hp in Hi; apply lookup_lt_Some in Hi; rewrite ?length_app in Hi; simpl in Hi; fold n in Hi; lia. }
    destruct p as [i|i|u], q as [j|j|v]; cbn beta iota; try destruct (Nat.ltb_spec i n); try destruct (Nat.ltb_spec j n); intros E; try done; try (injection E as E; congruence).
    + rewrite (Hlast i), (Hlast j); done.
    + injection E as <-. simpl in Hd2. by rewrite Hnone in Hd2.
    + injection E as ->. simpl in Hd1. by rewrite Hnone in Hd1.
  - intros u raw d Hu. simpl in Hu |- *. rewrite Hh. destruct (decide (u = t)) as [->|Hne]; [by rewrite Hu in Hnone|]. rewrite Hts in Hu by done. by apply (own_sent x Ho u).
Qed.

(** A thread gets a buffer for its message. *)
Lemma owned_acquire (x : state) (t size : nat) : owned x -> threads x !! t = None -> (0 < size)%nat -> exists (b : nat) (y : state), acquirePayloadBuffer size x = (Some b, y) /\ (forall p d, holder x p = Some d -> heap y !! d = heap x !! d) /\ client y = client x /\ queue y = queue x /\ queueCap y = queueCap x /\ processing y = processing x /\ threads y = threads x /\ stopped y = stopped x /\ forall raw, owned (set_thread t (Copying raw b) y).
Proof.
  intros Ho Ht Hsize. unfold acquirePayloadBuffer. destruct (Nat.eqb_spec size 0); [lia|].
  remember (default [] (payloadPool x)) as P eqn:EP. assert (Hfresh : forall k z, heap z = heap x -> next z = next x -> default [] (payloadPool z) = drop k P -> queue z = queue x -> threads z = threads x ->
    (forall p d, holder x p = Some d -> <[next z := zero_bytes size]> (heap z) !! d = heap x !! d) /\ forall raw, owned (set_thread t (Copying raw (next z)) (alloc size z).2)).
  { intros k z Hh Hn Hp Hq Hth. split.
    - intros p d Hd. pose proof (own_old x Ho _ _ Hd). rewrite Hn, Hh. apply lookup_insert_ne. lia.
    - intros raw. apply (owned_moves x _ (fun p => match p with InPool i => InPool (k + i) | _ => p end) (InThread t) Ho).
      + simpl. lia.
      + intros p d Hd. destruct p as [i|i|u]; simpl in Hd; rewrite ?Hp, ?Hq, ?Hth in Hd; [left; simpl; rewrite <- EP; by rewrite lookup_drop in Hd|by left|].
        thread t u; [right; simpl in Hd; injection Hd as <-; simpl; split; [done|lia]|by left].
      + intros p q d _ _ E. destruct p, q; try done; injection E as E; f_equal; lia.
      + intros u raw' d Hu. simpl in Hu. rewrite Hth in Hu. thread t u; [done|]. simpl. pose proof (own_sent x Ho _ _ _ Hu) as Hs. unfold payload_bytes in *.
        assert (Hold : (d < next x)%nat) by (apply (own_old x Ho (InThread u)); simpl; by rewrite Hu). rewrite Hn, Hh, lookup_insert_ne by lia. done. }
  destruct (payloadPool x) as [p|] eqn:Ep.
  2: { assert (Hp : default [] (payloadPool x) = drop 0 P) by (by rewrite Ep, EP). destruct (Hfresh 0%nat x eq_refl eq_refl Hp eq_refl eq_refl) as [H1 H2]. eexists _, _. split; [reflexivity|]. split; [exact H1|]. repeat (split; [done|]). exact H2. }
  destruct ((payloadPoolMaxBytes x <=? 0) || (payloadPoolMaxBytes x <? Z.of_nat size)).
  { assert (Hp : default [] (payloadPool x) = drop 0 P) by (by rewrite Ep, EP). destruct (Hfresh 0%nat x eq_refl eq_refl Hp eq_refl eq_refl) as [H1 H2]. eexists _, _. split; [reflexivity|]. split; [exact H1|]. repeat (split; [done|]). exact H2. }
  destruct p as [|b p].
  { assert (Hp : default [] (payloadPool x) = drop 0 P) by (by rewrite Ep, EP). destruct (Hfresh 0%nat x eq_refl eq_refl Hp eq_refl eq_refl) as [H1 H2]. eexists _, _. split; [reflexivity|]. split; [exact H1|]. repeat (split; [done|]). exact H2. }
  destruct (cap x b <? Z.of_nat size).
  { assert (Hp : default [] (payloadPool (upd_pool (Some p) x)) = drop 1 P) by (by rewrite EP). destruct (Hfresh 1%nat (upd_pool (Some p) x) eq_refl eq_refl Hp eq_refl eq_refl) as [H1 H2]. eexists _, _. split; [reflexivity|]. split; [exact H1|]. repeat (split; [done|]). exact H2. }
  eexists _, _. split; [reflexivity|]. repeat (split; [done|]). intros raw.
  apply (owned_moves x _ (fun q => match q with InPool i => InPool (S i) | InThread u => if decide (t = u) then InPool 0 else q | _ => q end) (InPool 0) Ho).
  - simpl. lia.
  - intros q d Hd. left. destruct q as [i|i|u]; simpl in Hd |- *; [by rewrite Ep|done|]. destruct (decide (t = u)) as [<-|Hne]; [rewrite lookup_insert_eq in Hd; simpl in Hd; injection Hd as <-; simpl; by rewrite Ep|].
    by rewrite lookup_insert_ne in Hd.
  - intros q r d _ _ E. destruct q, r; repeat case_decide; congruence.
  - intros u raw' d Hu. simpl in Hu. thread t u; [done|]. by apply (own_sent x Ho u).
Qed.

(** ** The buffers do not show *)

Lemma view_same x y : (forall p d, holder x p = Some d -> heap y !! d = heap x !! d) -> client y = client x -> queue y = queue x -> queueCap y = queueCap x ->
  processing y = processing x -> threads y = threads x -> stopped y = stopped x -> view y = view x.
Proof.
  intros Hh Hc Hq Hqc Hp Ht Hs. unfold view. rewrite Hc, Hq, Hqc, Hp, Ht, Hs. f_equal.
  - apply view_queue_ext. intros i b Hb. apply (Hh (InQueue i)). exact Hb.
  - apply view_threads_ext. intros t b Hb. apply (Hh (InThread t)). exact Hb.
Qed.

Lemma view_set_thread t p x : view (set_thread t p x) = s_with (client x) (s_queue (view x)) (<[t := view_phase (heap x) p]> (s_threads (view x))) (view x).
Proof. unfold view, set_thread, s_with. simpl. by rewrite fmap_insert. Qed.

Lemma view_end_thread t x : view (end_thread t x) = s_with (client x) (s_queue (view x)) (delete t (s_threads (view x))) (view x).
Proof. unfold view, end_thread, s_with. simpl. by rewrite fmap_delete. Qed.

Lemma view_client c x : view (upd_client c x) = s_with c (s_queue (view x)) (s_threads (view x)) (view x).
Proof. done. Qed.

Lemma view_thread x t : s_threads (view x) !! t = view_phase (heap x) <$> threads x !! t.
Proof. simpl. by rewrite lookup_fmap. Qed.

(** A thread's new phase that holds the buffer it held, or none. *)
Lemma owned_phase x t p : owned x -> (forall b, buffer_of p = Some b -> threads x !! t ≫= buffer_of = Some b) ->
  (forall raw b, p = Sending raw b -> payload_bytes (heap x) b (String.length raw) = raw) -> owned (set_thread t p x).
Proof.
  intros Ho Hb Hs. apply (owned_same x); try done.
  - intros u b Hu. simpl in Hu. thread t u; [by apply Hb|done].
  - intros u raw b Hu. simpl in Hu. thread t u; [injection Hu as ->; by apply Hs|by apply (own_sent x Ho u)].
Qed.

Lemma owned_end x t : owned x -> owned (end_thread t x).
Proof.
  intros Ho. apply (owned_same x); try done.
  - intros u b Hu. simpl in Hu. by thread t u.
  - intros u raw b Hu. simpl in Hu. thread t u; [done|by apply (own_sent x Ho u)].
Qed.

Lemma owned_client c x : owned x -> owned (upd_client c x).
Proof. intros [H1 H2 H3]. by split. Qed.

Lemma arrives_refines st t raw now x : owned x -> threads x !! t = None ->
  owned (message_arrives st t raw now x) /\ view (message_arrives st t raw now x) = s_arrives st t raw now (view x).
Proof.
  intros Ho Ht. unfold message_arrives, s_arrives. change (s_stopped (view x)) with (stopped x). destruct (stopped x); [done|]. cbv zeta. change (s_client (view x)) with (client x).
  destruct (_ && _); [by split; [apply owned_client, owned_client|]|]. change (s_processing (view x)) with (processing x). change (processing (upd_client _ x)) with (processing x).
  destruct (negb (processing x)); [by split; [apply owned_client, owned_client|]|]. destruct raw as [|c raw]; [by split; [apply owned_client|]|]. rewrite bool_decide_false by done.
  set (x' := upd_client _ x). assert (Ho' : owned x') by by apply owned_client.
  destruct (owned_acquire x' t (String.length (String c raw)) Ho' Ht) as (b & y & -> & Hh & Hc & Hq & Hqc & Hp & Hth & Hs & Hy); [simpl; lia|].
  split; [apply Hy|]. rewrite view_set_thread, (view_same x' y) by done. by rewrite Hc.
Qed.

Lemma copying_refines t raw b x : owned x -> threads x !! t = Some (Copying raw b) ->
  let y := set_thread t (Sending raw b) (upd_heap (copy_into (heap x) b raw) x) in
  owned y /\ view y = s_with (client x) (s_queue (view x)) (<[t := SSending raw]> (s_threads (view x))) (view x).
Proof.
  intros Ho Ht. cbv zeta. set (h := copy_into (heap x) b raw).
  assert (Hb : holder x (InThread t) = Some b) by (simpl; by rewrite Ht).
  assert (Hother : forall p d, holder x p = Some d -> p <> InThread t -> h !! d = heap x !! d).
  { intros p d Hd Hne. apply lookup_insert_ne. intros <-. apply Hne. by apply (own_inj x Ho _ _ b). }
  split.
  - apply (owned_same x); try done.
    + intros u d Hu. simpl in Hu. thread t u; [|done]. by rewrite Ht.
    + intros u raw' d Hu. simpl in Hu |- *. fold h. thread t u.
      * injection Hu as -> ->. unfold payload_bytes, h, copy_into. rewrite lookup_insert_eq. apply stake_app_length.
      * unfold payload_bytes. rewrite (Hother (InThread u)); [by apply (own_sent x Ho u)|simpl; by rewrite Hu|congruence].
  - unfold view, set_thread, s_with. simpl. f_equal.
    + apply view_queue_ext. intros i d Hd. apply (Hother (InQueue i)); done.
    + rewrite fmap_insert. simpl. apply map_eq. intros u. thread t u; [done|]. rewrite !lookup_fmap. destruct (threads x !! u) as [p|] eqn:Hu; [|done]. simpl. f_equal. apply view_phase_ext.
      intros d Hd. apply (Hother (InThread u)); [simpl; by rewrite Hu|congruence].
Qed.

Lemma enqueue_refines t raw b coin now x : owned x -> threads x !! t = Some (Sending raw b) ->
  owned (enqueue t raw b coin now x) /\ view (enqueue t raw b coin now x) = s_enqueue t raw coin now (view x).
Proof.
  intros Ho Ht. unfold enqueue, s_enqueue. cbv zeta. assert (Hb : threads x !! t ≫= buffer_of = Some b) by by rewrite Ht.
  replace (Z.of_nat (length (s_queue (view x)))) with (Z.of_nat (length (queue x))) by (simpl; by rewrite length_map).
  change (s_queueCap (view x)) with (queueCap x). change (s_stopped (view x)) with (stopped x).
  pose proof (release_same b x) as (Hh & _ & _ & Hth & Hcl & _).
  assert (Hrel : owned (end_thread t (releasePayloadBuffer b x))).
  { apply (owned_release x t b); [done|done|by rewrite lookup_delete_eq|]. intros u Hu. by rewrite Hth, lookup_delete_ne. }
  destruct (stopped x && _); [|destruct (_ <? _)].
  - split; [done|]. by rewrite view_end_thread, view_release, Hcl.
  - split; [|rewrite view_end_thread; unfold view, s_with; simpl; rewrite map_app; simpl; by rewrite (own_sent x Ho t raw b)].
    set (n := length (queue x)). apply (owned_moves x _ (fun p => match p with InQueue i => if (i <? n)%nat then InQueue i else InThread t | _ => p end) (InPool 0) Ho).
    + simpl. lia.
    + intros p d Hd. left. destruct p as [i|i|u]; simpl in Hd; [done| |by thread t u]. destruct (Nat.ltb_spec i n) as [Hi|Hi]; [simpl; by rewrite lookup_app_l in Hd|].
      rewrite lookup_app_r in Hd by done. destruct (i - length (queue x))%nat as [|k]; [|done]. injection Hd as <-. exact Hb.
    + intros p q d Hd1 Hd2.
      assert (Hlast : forall i, holder (end_thread t (upd_queue (queue x ++ [(b, String.length raw)]) x)) (InQueue i) = Some d -> (n <= i)%nat -> i = n).
      { intros i Hi Hge. simpl in Hi. apply fmap_Some in Hi as (e & Hi & _). apply lookup_lt_Some in Hi. rewrite length_app in Hi. simpl in Hi. fold n in Hi. lia. }
      assert (Hnone : holder (end_thread t (upd_queue (queue x ++ [(b, String.length raw)]) x)) (InThread t) = None) by (simpl; by rewrite lookup_delete_eq).
      destruct p as [i|i|u], q as [j|j|v]; cbn beta iota; try destruct (Nat.ltb_spec i n); try destruct (Nat.ltb_spec j n); intros E; try done; try (injection E as E; congruence).
      rewrite (Hlast i), (Hlast j); done.
    + intros u raw' d Hu. simpl in Hu. thread t u; [done|]. by apply (own_sent x Ho u).
  - split; [exact (owned_client _ _ Hrel)|]. change (view (end_thread t (upd_client (drop_payload now (client x)) (releasePayloadBuffer b x))))
      with (s_with (drop_payload now (client x)) (s_queue (view (end_thread t (releasePayloadBuffer b x)))) (s_threads (view (end_thread t (releasePayloadBuffer b x)))) (view (end_thread t (releasePayloadBuffer b x)))).
    by rewrite view_end_thread, view_release.
Qed.

Lemma take_refines t b size q x : owned x -> threads x !! t = Some Idle -> queue x = (b, size) :: q -> owned (set_thread t (Parsing b size) (upd_queue q x)).
Proof.
  intros Ho Ht Hq. apply (owned_moves x _ (fun p => match p with InQueue i => InQueue (S i) | InThread u => if decide (t = u) then InQueue 0 else p | _ => p end) (InPool 0) Ho).
  - simpl. lia.
  - intros p d Hd. left. destruct p as [i|i|u]; simpl in Hd |- *; [done|by rewrite Hq|]. destruct (decide (t = u)) as [<-|Hne]; [rewrite lookup_insert_eq in Hd; simpl; by rewrite Hq|by rewrite lookup_insert_ne in Hd].
  - intros p r d _ _ E. destruct p, r; repeat case_decide; congruence.
  - intros u raw d Hu. simpl in Hu. thread t u; [done|]. by apply (own_sent x Ho u).
Qed.

Lemma advance_refines st t coin now x : owned x -> owned (advance st t coin now x) /\ view (advance st t coin now x) = s_advance st t coin now (view x).
Proof.
  intros Ho. unfold advance, s_advance. cbv zeta. rewrite view_thread. destruct (threads x !! t) as [p|] eqn:Ht; [|done]. destruct p as [raw b|raw b| |b size|b|]; cbn [fmap option_fmap option_map view_phase].
  - by apply copying_refines.
  - by apply enqueue_refines.
  - change (s_queue (view x)) with (map (fun e => payload_bytes (heap x) e.1 e.2) (queue x)). change (s_stopped (view x)) with (stopped x).
    assert (Hgone : owned (set_thread t Gone x)) by by apply owned_phase. destruct (queue x) as [|[b size] q] eqn:Hq; cbn [map fst snd]; [destruct (stopped x)|destruct (stopped x && coin)].
    + split; [done|]. rewrite view_set_thread. unfold view. by rewrite Hq.
    + done.
    + split; [done|]. rewrite view_set_thread. unfold view. by rewrite Hq.
    + split; [by apply take_refines|]. by rewrite view_set_thread.
  - split; [|by rewrite view_set_thread]. apply owned_phase; [by apply owned_client| |done]. intros d Hd. simpl. by rewrite Ht.
  - pose proof (release_same b x) as (Hh & _ & _ & Hth & Hcl & _). split.
    + apply (owned_release x t b); [done|by rewrite Ht|by rewrite lookup_insert_eq|]. intros u Hu. by rewrite Hth, lookup_insert_ne.
    + by rewrite view_set_thread, view_release, Hcl.
  - done.
Qed.

Lemma quiet_view h p : s_quiet (view_phase h p) = quiet p.
Proof. by destruct p. Qed.

Lemma act_refines st x a : owned x -> owned (act st x a) /\ view (act st x a) = s_act st (view x) a.
Proof.
  intros Ho. destruct a as [a now]. unfold act, s_act. cbn [fst snd]. destruct a as [t raw|t coin| | | |].
  - rewrite view_thread. destruct (threads x !! t) eqn:Ht; [done|]. by apply arrives_refines.
  - by apply advance_refines.
  - by split; [apply owned_client|].
  - by split; [apply owned_client|].
  - split; [|done]. by destruct Ho; split.
  - change (s_stopped (view x)) with (stopped x). rewrite (bool_decide_ext (map_Forall (fun _ p => quiet p = true) (threads x)) (map_Forall (fun _ p => s_quiet p = true) (s_threads (view x)))).
    + destruct (_ && _); [|done]. split; [|done]. by destruct Ho; split.
    + simpl. rewrite map_Forall_fmap. split; intros H u p Hp; [simpl; rewrite quiet_view; by apply (H u)|specialize (H u p Hp); simpl in H; by rewrite quiet_view in H].
Qed.

Lemma start_owned st c : owned (startWorkerPool st c).
Proof.
  assert (Hth : forall t p, start_workers (Z.to_nat (workers st)) !! t = Some p -> p = Idle).
  { intros t p H. apply elem_of_list_to_map_2, list_elem_of_fmap in H as (i & E & _). by injection E. }
  assert (Hx : forall p, holder (startWorkerPool st c) p = None).
  { intros p. unfold startWorkerPool, initPayloadPool. simpl. destruct (_ || _); destruct p as [i|i|t]; simpl; try done; destruct (start_workers _ !! t) as [q|] eqn:E; try done; by apply Hth in E as ->. }
  split; [by intros p q b; rewrite Hx|by intros p b; rewrite Hx|]. intros t raw b H. assert (H' : start_workers (Z.to_nat (workers st)) !! t = Some (Sending raw b)).
  { unfold startWorkerPool, initPayloadPool in H. simpl in H. by destruct (_ || _). } by apply Hth in H'.
Qed.

Lemma run_refines st schedule : forall x, owned x -> owned (run st x schedule) /\ view (run st x schedule) = s_run st (view x) schedule.
Proof.
  induction schedule as [|a schedule IH]; intros x Ho; [done|]. destruct (act_refines st x a Ho) as [Ho' Hv]. destruct (IH _ Ho') as [H1 H2]. split; [done|].
  unfold run, s_run in *. simpl. by rewrite H2, Hv.
Qed.

(** ** Spots and the messages they come from *)

Definition keyed_call (key : string) : string := decorated (bool_decide (stake 2 key = "1|")) (sdrop 2 key).

Lemma keyed_call_key append call : keyed_call (cache_key append call) = decorated append call.
Proof. by destruct append. Qed.

Definition caches_ok (cache : CallCache) : Prop := cache_wf keyed_call cache.

Lemma decorate_spec st call now cache : caches_ok cache ->
  (decorateSpotterCall st call now cache).1 = decorated (appendSSID st) call /\ caches_ok (decorateSpotterCall st call now cache).2.
Proof.
  intros Hwf. unfold decorateSpotterCall. rewrite <- keyed_call_key. pose proof (CallCache_Get_spec keyed_call cache (cache_key (appendSSID st) call) now Hwf) as Hg.
  destruct (CallCache_Get _ _ _) as [[v|] cache']; cbn [fst snd].
  - destruct Hg as (H1 & _ & H2). split; [by apply H2|done].
  - destruct Hg as (H1 & _ & _). split; [done|]. by apply CallCache_Add_wf.
Qed.

(** The cache does not show in the spot. *)
Lemma normalize_spec st msg info now cache cache' : caches_ok cache -> caches_ok cache' ->
  (normalizeMessage st msg info now cache).1 = (normalizeMessage st msg info now cache').1 /\ caches_ok (normalizeMessage st msg info now cache).2.
Proof.
  intros H H'. unfold normalizeMessage. destruct (_ || _); [done|]. destruct (Qle_b _ 0); [done|].
  destruct (decorate_spec st (ReceiverCall msg) now cache H) as [E W], (decorate_spec st (ReceiverCall msg) now cache' H') as [E' _].
  destruct (decorateSpotterCall _ _ _ cache) as [d c1], (decorateSpotterCall _ _ _ cache') as [d' c2]. simpl in *. by subst.
Qed.

Lemma convert_spec st msg info now cache cache' : caches_ok cache -> caches_ok cache' ->
  (convertToSpot st msg info now cache).1 = (convertToSpot st msg info now cache').1 /\ caches_ok (convertToSpot st msg info now cache).2.
Proof.
  intros H H'. unfold convertToSpot. destruct (_ || _); [done|]. destruct (normalize_spec st msg info now cache cache' H H') as [E W].
  destruct (normalizeMessage _ _ _ _ cache) as [[n|] c1], (normalizeMessage _ _ _ _ cache') as [[n'|] c2]; cbn [fst snd] in *; simplify_eq; done.
Qed.

Definition fresh_cache : CallCache := NewCallCache 1 0.

Lemma fresh_cache_ok n ttl : caches_ok (NewCallCache n ttl).
Proof. apply NewCallCache_wf. Qed.

(** The spot of a payload and its channel, without a cache. *)
Definition spot_of (st : settings) (payload : string) (now : Z) : option (bool * Spot) :=
  msg ← decode payload;
  if match m_Report msg with None => true | Some r => r =? 0 end then None
  else
    info ← parseModeInfo (m_Mode msg);
    pathOnly ← route st info;
    s ← (convertToSpot st msg info now fresh_cache).1;
    Some (pathOnly, s).

Definition same_channels (c d : Client) : Prop := spotChan c = spotChan d /\ pathOnlyChan c = pathOnlyChan d.

(** A payload that makes no spot leaves the channels alone, one that does puts its spot in the
    channel of its mode when there is room. *)
Lemma handle_spec st payload now c : caches_ok (spotterCache c) ->
  let d := handlePayload st payload now c in
  caches_ok (spotterCache d) /\
  match spot_of st payload now with
  | None => same_channels d c
  | Some (true, s) => same_channels d (send_path_only st s now c)
  | Some (false, s) => same_channels d (send_spot st s now c)
  end.
Proof.
  intros Hc. unfold handlePayload, spot_of. destruct (decode payload) as [msg|]; [|done]. cbn [mbind option_bind]. destruct (match m_Report msg with None => true | Some r => r =? 0 end); [done|].
  destruct (parseModeInfo (m_Mode msg)) as [info|]; [|done]. cbn [mbind option_bind]. destruct (route st info) as [pathOnly|]; [|done]. cbn [mbind option_bind].
  destruct (convert_spec st msg info now (spotterCache c) fresh_cache Hc (fresh_cache_ok 1 0)) as [<- W]. destruct (convertToSpot _ _ _ _ _) as [[s|] cache]; cbn [fst snd mbind option_bind] in *; [|done].
  by destruct pathOnly.
Qed.

(** The mode, or for the PSK family its variant, is in a list. *)
Definition in_modes (info : pskModeInfo) (modes : gset string) : Prop := canonical info ∈ modes \/ (isPSK info = true /\ variant info ∈ modes).

Lemma modes_match raw info modes : parseModeInfo raw = Some info -> modeMatchesList info modes = true <-> in_modes info modes.
Proof.
  unfold parseModeInfo. destruct (CanonicalPSKMode raw) as [[c v] k]. case_bool_decide as Hc; [done|]. intros [= <-]. unfold modeMatchesList, in_modes. cbn [canonical variant isPSK].
  set (w := if bool_decide (v = "") then c else v). assert (Hw : w <> "") by (unfold w; by case_bool_decide). rewrite (bool_decide_false (c = "")), (bool_decide_false (w = "")) by done.
  cbn [negb andb]. rewrite andb_true_r. case_bool_decide as Hm; [subst; set_solver|]. rewrite orb_true_iff, andb_true_iff, !bool_decide_eq_true. done.
Qed.

Lemma route_spec st raw info pathOnly : parseModeInfo raw = Some info -> route st info = Some pathOnly ->
  (pathOnly = true <-> hasPathOnly st = true /\ in_modes info (pathOnlyModes st)) /\ (pathOnly = false -> allowAllModes st = true \/ in_modes info (allowedModes st)).
Proof.
  intros Hi. unfold route. rewrite <- !(modes_match raw info _ Hi). destruct (hasPathOnly st), (modeMatchesList info (pathOnlyModes st)), (allowAllModes st), (modeMatchesList info (allowedModes st));
    simpl; intros [= <-]; repeat split; try (intros [? ?]); auto; try done.
Qed.

(** What a spot owes to its message. *)
Definition told_by (st : settings) (payload : string) (now : Z) (pathOnly : bool) (s : Spot) : Prop :=
  exists msg info r, decode payload = Some msg /\ parseModeInfo (m_Mode msg) = Some info /\
    (pathOnly = true <-> hasPathOnly st = true /\ in_modes info (pathOnlyModes st)) /\ (pathOnly = false -> allowAllModes st = true \/ in_modes info (allowedModes st)) /\
    m_Report msg = Some r /\ r <> 0 /\ Report s = r /\ HasReport s = true /\ IsHuman s = false /\ ModeNorm s = canonical info /\
    DXCall s = normalize_call (SenderCall msg) /\ DECall s = decorated (appendSSID st) (ReceiverCall msg) /\
    IsValidNormalizedCallsign (DXCall s) = true /\ IsValidNormalizedCallsign (DECall s) = true /\
    Time s = Timestamp msg * second /\ - hour <= now - Time s <= 24 * hour.

Lemma beacon_keeps s : ModeNorm (RefreshBeaconFlag s) = ModeNorm s /\ IsHuman (RefreshBeaconFlag s) = IsHuman s.
Proof. unfold RefreshBeaconFlag. by destruct (nonempty _). Qed.

Lemma new_spot_calls dx de freq mode now : IsValidNormalizedCallsign dx = true -> IsValidNormalizedCallsign de = true ->
  DXCall (NewSpotNormalized dx de freq mode now) = dx /\ DECall (NewSpotNormalized dx de freq mode now) = de.
Proof.
  intros Hx He. unfold NewSpotNormalized. destruct (build_spot_fields (TrimSpace dx) (TrimSpace de) freq mode now) as (-> & -> & _).
  split; apply plain_spec; by apply plain_call.
Qed.

#[local] Opaque NewSpotNormalized RefreshBeaconFlag normalize_call.

Lemma told st payload now pathOnly s : spot_of st payload now = Some (pathOnly, s) -> told_by st payload now pathOnly s.
Proof.
  unfold spot_of. destruct (decode payload) as [msg|] eqn:Hd; [|done]. cbn [mbind option_bind]. destruct (m_Report msg) as [r|] eqn:Hr; [|done]. destruct (Z.eqb_spec r 0) as [|Hr0]; [done|].
  destruct (parseModeInfo (m_Mode msg)) as [info|] eqn:Hi; [|done]. cbn [mbind option_bind]. destruct (route st info) as [po|] eqn:Hrt; [|done]. cbn [mbind option_bind].
  destruct (route_spec st _ _ _ Hi Hrt) as [Hr1 Hr2]. unfold convertToSpot. destruct (_ || _); [done|]. unfold normalizeMessage. destruct (_ || _); [done|]. destruct (Qle_b _ 0); [done|].
  destruct (decorate_spec st (ReceiverCall msg) now fresh_cache (fresh_cache_ok 1 0)) as [E _]. destruct (decorateSpotterCall _ _ _ _) as [de cache]. simpl in E. subst de. cbn [fst mbind option_bind dxCall deCall].
  destruct (IsValidNormalizedCallsign (normalize_call (SenderCall msg))) eqn:Hdx; [|done]. destruct (IsValidNormalizedCallsign (decorated (appendSSID st) (ReceiverCall msg))) eqn:Hde; [|done].
  destruct (_ =? 0); [done|]. cbn [negb]. destruct (Z.ltb_spec (time_sub now (Timestamp msg * second)) (- hour)) as [|Hlo]; [done|]. destruct (Z.ltb_spec (24 * hour) (time_sub now (Timestamp msg * second))) as [|Hhi]; [done|].
  cbn [mbind option_bind]. intros H. apply (inj Some) in H. apply pair_equal_spec in H as [<- <-]. exists msg, info, r. cbn [dxGrid deGrid freqKHz modeUpper displayMode]. set (b := NewSpotNormalized _ _ _ _ _). set (f := psk_fields _ _ b).
  destruct (beacon_keeps f) as [-> ->]. destruct (RefreshBeaconFlag_fields f) as (-> & -> & _ & -> & _ & -> & -> & _). unfold f, psk_fields. cbn. rewrite Hr.
  destruct (new_spot_calls _ _ (if isCWorRTTY (canonical info) then ApplyCorrection (skewStore st) (decorated (appendSSID st) (ReceiverCall msg)) (fdiv (fl64 (inject_Z (m_Frequency msg))) 1000) else fdiv (fl64 (inject_Z (m_Frequency msg))) 1000)
    (if bool_decide (variant info = "") then canonical info else variant info) now Hdx Hde) as [Hb1 Hb2]. fold b in Hb1, Hb2. rewrite Hb1, Hb2.
  split_and!; try done.
  - unfold time_sub, min_int64, max_int64, hour, minute, second in *. lia.
  - unfold time_sub, min_int64, max_int64, hour, minute, second in *. lia.
Qed.

#[local] Transparent NewSpotNormalized RefreshBeaconFlag normalize_call.

(** ** Every spot has its message *)

Section Grounded.
Context (st : settings) (P : string -> Prop) (T : Z -> Prop).

Definition grounded (pathOnly : bool) (s : Spot) : Prop := exists payload now, P payload /\ T now /\ told_by st payload now pathOnly s.

Definition payload_of (p : sphase) : option string := match p with SCopying raw | SSending raw | SParsing raw => Some raw | _ => None end.

Record sound (x : sstate) : Prop := {
  snd_cache : caches_ok (spotterCache (s_client x));
  snd_queue : Forall P (s_queue x);
  snd_threads : forall t payload, s_threads x !! t ≫= payload_of = Some payload -> P payload;
  snd_spots : Forall (grounded false) (spotChan (s_client x));
  snd_paths : Forall (grounded true) (default [] (pathOnlyChan (s_client x))) }.

Lemma sound_with c q ts x : sound x -> caches_ok (spotterCache c) -> Forall P q -> (forall t payload, ts !! t ≫= payload_of = Some payload -> P payload) ->
  Forall (grounded false) (spotChan c) -> Forall (grounded true) (default [] (pathOnlyChan c)) -> sound (s_with c q ts x).
Proof. by split. Qed.

Lemma sound_thread x t p : sound x -> (forall payload, payload_of p = Some payload -> P payload) -> sound (s_with (s_client x) (s_queue x) (<[t := p]> (s_threads x)) x).
Proof. intros [H1 H2 H3 H4 H5] Hp. apply sound_with; try done. intros u payload Hu. thread t u; [by apply Hp|by apply (H3 u)]. Qed.

Lemma sound_client c x : sound x -> spotterCache c = spotterCache (s_client x) -> spotChan c = spotChan (s_client x) -> pathOnlyChan c = pathOnlyChan (s_client x) ->
  forall q ts, Forall P q -> (forall t payload, ts !! t ≫= payload_of = Some payload -> P payload) -> sound (s_with c q ts x).
Proof. intros [H1 H2 H3 H4 H5] Ec Es Ep q ts Hq Hts. apply sound_with; rewrite ?Ec, ?Es, ?Ep; done. Qed.

Lemma sound_handle payload now c : P payload -> T now -> caches_ok (spotterCache c) -> Forall (grounded false) (spotChan c) -> Forall (grounded true) (default [] (pathOnlyChan c)) ->
  let d := handlePayload st payload now c in caches_ok (spotterCache d) /\ Forall (grounded false) (spotChan d) /\ Forall (grounded true) (default [] (pathOnlyChan d)).
Proof.
  intros HP HT Hc Hs Hp. destruct (handle_spec st payload now c Hc) as [H1 H2]. cbv zeta. split; [done|]. destruct (spot_of st payload now) as [[b s]|] eqn:E; [|by destruct H2 as [-> ->]].
  assert (Hg : grounded b s) by (exists payload, now; split_and!; [done..|by apply told]). destruct b; destruct H2 as [-> ->]; simpl.
  - split; [done|]. destruct (pathOnlyChan c) as [q|]; [|done]. destruct (_ <=? _); [done|]. simpl. apply Forall_app. by split; [|apply Forall_singleton].
  - split; [|done]. destruct (_ <=? _); [done|]. apply Forall_app. by split; [|apply Forall_singleton].
Qed.

Lemma enqueue_sound t raw coin now x : sound x -> s_threads x !! t = Some (SSending raw) -> sound (s_enqueue t raw coin now x).
Proof.
  intros Hx Ht. assert (HP : P raw) by (apply (snd_threads x Hx t); by rewrite Ht).
  assert (Hts : forall u payload, delete t (s_threads x) !! u ≫= payload_of = Some payload -> P payload) by (intros u payload Hu; thread t u; [done|by apply (snd_threads x Hx u)]).
  pose proof (snd_queue x Hx) as Hq. unfold s_enqueue. cbv zeta. repeat case_match; apply sound_client; try done. apply Forall_app. by split; [|apply Forall_singleton].
Qed.

Lemma advance_sound t coin now x : sound x -> T now -> sound (s_advance st t coin now x).
Proof.
  intros Hx HT. unfold s_advance. cbv zeta. destruct (s_threads x !! t) as [p|] eqn:Ht; [|done].
  assert (HP : forall payload, payload_of p = Some payload -> P payload) by (intros payload H; apply (snd_threads x Hx t); by rewrite Ht).
  destruct p as [raw|raw| |payload| |]; try done.
  - apply sound_thread; [done|]. intros ? [= <-]. by apply HP.
  - by apply enqueue_sound.
  - pose proof (snd_queue x Hx) as Hq. destruct (s_queue x) as [|payload q] eqn:Eq; [destruct (s_stopped x); [|done]|destruct (s_stopped x && coin)].
    + rewrite <- Eq. by apply sound_thread.
    + rewrite <- Eq. by apply sound_thread.
    + apply Forall_cons in Hq as [Hp Hq]. apply sound_client; try done. intros u d Hu. thread t u; [by injection Hu as <-|by apply (snd_threads x Hx u)].
  - destruct Hx as [H1 H2 H3 H4 H5]. destruct (sound_handle payload now (s_client x)) as (A & B & C); [by apply HP|done..|]. apply sound_with; try done.
    intros u d Hu. thread t u; [done|by apply (H3 u)].
  - by apply sound_thread.
Qed.

Lemma act_sound a x : sound x ->
  match a.1 with Message _ raw => ((0 <? maxPayloadBytes st) && (maxPayloadBytes st <? len raw)) = false -> P raw | Advance _ _ => T a.2 | _ => True end -> sound (s_act st x a).
Proof.
  intros Hx Ha. destruct a as [a now]. unfold s_act. cbn [fst snd] in *. destruct a as [t raw|t coin| | | |].
  - destruct (s_threads x !! t) eqn:Ht; [done|]. pose proof Hx as [H1 H2 H3 H4 H5]. unfold s_arrives. destruct (s_stopped x); [done|]. cbv zeta.
    destruct (_ && _) eqn:Hl; [by apply sound_client|]. destruct (negb _); [by apply sound_client|]. apply sound_client; try done. case_bool_decide; [done|].
    intros u payload Hu. thread t u; [injection Hu as <-; by apply Ha|by apply (H3 u)].
  - by apply advance_sound.
  - destruct Hx as [H1 H2 H3 H4 H5]. apply sound_with; try done. simpl. by destruct (spotChan (s_client x)); [|apply Forall_cons in H4 as [_ H4]].
  - destruct Hx as [H1 H2 H3 H4 H5]. apply sound_with; try done. simpl. destruct (pathOnlyChan (s_client x)) as [[|s q]|]; try done. by apply Forall_cons in H5 as [_ H5].
  - by destruct Hx; split.
  - destruct (_ && _); [|done]. by destruct Hx; split.
Qed.
End Grounded.

(** ** What the client promises *)

Definition s_start (st : settings) (c : Client) : sstate :=
  let capacity := workers st * pskReporterQueuePerWorker in
  mkS c [] (if capacity <? 256 then 256 else capacity) true (list_to_map (map (fun i => (i, SIdle)) (seq 0 (Z.to_nat (workers st))))) false.

Lemma view_start st c : view (startWorkerPool st c) = s_start st c.
Proof.
  assert (Ht : forall h l, view_phase h <$> (list_to_map (map (fun i => (i, Idle)) l) : gmap nat phase) = list_to_map (map (fun i => (i, SIdle)) l)).
  { intros h l. induction l as [|i l IH]; [apply fmap_empty|]. cbn [map list_to_map]. simpl. by rewrite fmap_insert, IH. }
  unfold startWorkerPool, s_start, initPayloadPool, view. simpl. by destruct (_ || _); simpl; unfold start_workers; rewrite Ht.
Qed.

(** C21: However messages arrive, handlers and workers interleave, channels are read and the
    client is stopped, the shared buffers, which are taken from a pool, filled, queued, parsed
    and put back, never show: spots, counters and what waits are those of the same schedule
    with every message a string of its own. *)
Theorem buffers_invisible st c schedule : view (run st (startWorkerPool st c) schedule) = s_run st (s_start st c) schedule.
Proof. rewrite <- view_start. apply run_refines, start_owned. Qed.

(** C22: Every spot that waits in a channel was told by a message that arrived within the size
    limit: the mode sends it to that channel, the report is not zero, both calls are valid, the
    spotter's carries the mark that is asked for, and its time is the message's, at most a day
    old and at most an hour ahead when it was handled. *)
Theorem psk_spots_grounded st c schedule pathOnly s : caches_ok (spotterCache c) -> spotChan c = [] -> default [] (pathOnlyChan c) = [] ->
  let x := client (run st (startWorkerPool st c) schedule) in
  s ∈ (if pathOnly : bool then default [] (pathOnlyChan x) else spotChan x) ->
  exists t u coin raw arrived now, (Message t raw, arrived) ∈ schedule /\ (Advance u coin, now) ∈ schedule /\ (0 < maxPayloadBytes st -> len raw <= maxPayloadBytes st) /\ told_by st raw now pathOnly s.
Proof.
  intros Hc Hs Hp. cbv zeta. set (y := s_run st (s_start st c) schedule). assert (Hx : client (run st (startWorkerPool st c) schedule) = s_client y) by (unfold y; by rewrite <- view_start, <- (proj2 (run_refines st schedule _ (start_owned st c)))).
  rewrite Hx. clear Hx. set (P := fun raw => exists t arrived, (Message t raw, arrived) ∈ schedule /\ (0 < maxPayloadBytes st -> len raw <= maxPayloadBytes st)).
  set (T := fun now => exists u coin, (Advance u coin, now) ∈ schedule). assert (Hy : sound st P T y).
  { unfold y, s_run. assert (H0 : sound st P T (s_start st c)).
    { split; simpl; rewrite ?Hs, ?Hp; try done. intros t payload H. destruct (list_to_map _ !! t) as [p|] eqn:E; [|done]. apply elem_of_list_to_map_2, list_elem_of_fmap in E as (i & E & _). by injection E as -> ->. }
    assert (Hall : forall a, a ∈ schedule -> a ∈ schedule) by done. revert Hall H0. generalize (s_start st c). generalize schedule at 1 3. intros l. induction l as [|a l IH]; intros z Hl Hz; [done|]. simpl. apply IH; [intros b Hb; apply Hl; by right|].
    apply act_sound; [done|]. pose proof (Hl a (list_elem_of_here _ _)) as Ha. destruct a as [[t raw|t coin| | | |] now]; simpl; try done.
    - intros Hsz. exists t, now. split; [done|]. intros Hpos. destruct (Z.ltb_spec 0 (maxPayloadBytes st)); [|lia]. by apply Z.ltb_ge in Hsz.
    - by exists t, coin. }
  intros Hin. assert (Hg : grounded st P T pathOnly s) by (destruct pathOnly; [eapply Forall_forall in Hin; [|apply Hy]|eapply Forall_forall in Hin; [|apply Hy]]; done).
  destruct Hg as (raw & now & (t & arrived & H1 & H2) & (u & coin & H3) & H4). by exists t, u, coin, raw, arrived, now.
Qed.
End Decoding.

(** ** A run *)

(** A decoder for one message. *)
Definition demo_message : PSKRMessage := mkMessage 1 14074000 "FT8" (Some (-7)) 3600 "K1ABC" "fn42" "W3LPL" "fm19" 291 291 "20m".
Definition demo_fast (payload : string) : bool * PSKRMessage := if bool_decide (payload = "{1}") then (true, demo_message) else (false, empty_message).
Definition demo_compat (payload : string) (m : PSKRMessage) : bool * PSKRMessage := (false, m).

Definition demo_client : settings * Client := NewClient ["ft8"] ["WSPR"] 1 0 0 0 None true 0 0 (ConfigureCallCache 0 0).

Definition demo_schedule : list (action * Z) :=
  map (fun a => (a, hour)) [Message 9 "{1}"; Advance 9 false; Message 8 "{2}"; Advance 9 false; Advance 0 false; Advance 8 false; Advance 0 false; Advance 8 false; Advance 0 false;
                            Advance 0 false; Message 7 "{1}"; Advance 7 false].

Lemma psk_spots_grounded_witness :
  let x := client (run demo_fast demo_compat demo_client.1 (startWorkerPool demo_client.1 demo_client.2) demo_schedule) in
  match spotChan x with
  | [s] => exists t u coin raw arrived now, (Message t raw, arrived) ∈ demo_schedule /\ (Advance u coin, now) ∈ demo_schedule /\ (0 < 4096 -> len raw <= 4096) /\
             told_by demo_fast demo_compat demo_client.1 raw now false s
  | _ => False
  end.
Proof.
  cbv zeta. pose proof (psk_spots_grounded demo_fast demo_compat demo_client.1 demo_client.2 demo_schedule false) as H. cbv zeta in H.
  set (l := spotChan (client (run _ _ _ _ _))) in *. assert (L : length l = 1%nat) by (vm_compute; reflexivity). clearbody l. destruct l as [|s [|s' q]]; [discriminate L| |discriminate L].
  apply (H s); [apply NewCallCache_wf|reflexivity|reflexivity|]. constructor.
Defined.

(** The first buffer is used again for the third message while the second one is parsed. *)
Example buffer_reused : let x := run demo_fast demo_compat demo_client.1 (startWorkerPool demo_client.1 demo_client.2) demo_schedule in
  (threads x !! 7%nat, threads x !! 0%nat, rc_total (parseErrorCounter (client x)), map (fun s => (DXCall s, DECall s, Report s)) (spotChan (client x))) =
  (Some (Sending "{1}" 0), Some (Parsing 1 3), 0, [("K1ABC", "W3LPL-#", -7)]).
Proof. vm_compute. reflexivity. Qed.
