(* ===== verification/FeedIngest.v ===== *)
(** * FeedIngest: from the feeds into the cluster

    The loops of [main.go] that take the spots of a feed: skimmers, human telnet and PSKReporter
    spots go to the ingest channel, path-only spots to the path predictor with a count of every
    reason to drop one; and the figures of [path_report_metrics.go] on what the predictor is
    fed.  A round of a loop is one step; the cells of a grid are arguments. *)

From S2P Require Import Prelude GoText GoNum GoTime GoParse Bands Spot SpotFormat Ingest Pipeline PathStore.
From Stdlib Require Import QArith Qround.
Local Open Scope string_scope.
Local Open Scope list_scope.
Local Open Scope Z_scope.

(** ** Into the ingest channel *)

Record inlet := mkInlet { ingest : list Spot; ingestCap : Z; inlet_drops : Z }.

(** The send, which does not block. *)
Definition offer (s : Spot) (x : inlet) : inlet :=
  if Z.of_nat (length (ingest x)) <? ingestCap x then mkInlet (ingest x ++ [s]) (ingestCap x) (inlet_drops x)
  else mkInlet (ingest x) (ingestCap x) (uint64 (inlet_drops x + 1)).

Definition processRBNSpots (policy : SpotPolicy) (s : Spot) (now : Z) (x : inlet) : inlet :=
  if isStale s policy now then x else offer s x.

Definition processPSKRSpots (policy : SpotPolicy) (s : Spot) (now : Z) (x : inlet) : inlet :=
  if isStale s policy now then x else offer s x.

Definition as_human (source : string) (s : Spot) : Spot :=
  let mode := if bool_decide (TrimSpace (Mode s) = "") then "RTTY" else Mode s in
  let s' := mkSpot (ID s) (DXCall s) (DECall s) (Frequency s) (Band s) mode (Report s) (Time s) (Comment s)
    SourceUpstream (if bool_decide (TrimSpace (SourceNode s) = "") then source else SourceNode s) (SpotterIP s) (TTL s) true (IsTestSpotter s) (IsBeacon s) (HasReport s)
    (DXMetadata s) (DEMetadata s) (Confidence s) (formatted s) (ModeNorm s) (BandNorm s) (DXCallNorm s) (DECallNorm s) (DXContinentNorm s)
    (DEContinentNorm s) (DXGridNorm s) (DEGridNorm s) (DXGrid2 s) (DEGrid2 s) (DXCellID s) (DECellID s)
    (DECallStripped s) (DECallNormStripped s) in
  if bool_decide (TrimSpace (Mode s) = "") then EnsureNormalized s' else s'.

Definition processHumanTelnetSpots (policy : SpotPolicy) (source : string) (s : Spot) (now : Z) (x : inlet) : inlet :=
  let s := as_human source s in
  if isStale s policy now then x else offer s x.

(** ** Path-only spots *)

Record pathOnlyStats := mkPathOnly { po_updates : Z; po_drops : Z; po_stale : Z; po_noSNR : Z; po_noGrid : Z; po_badH3 : Z; po_badBand : Z; po_off : Z; po_mode : Z }.

Inductive pathOnlyDropReason := DropStale | DropNoSNR | DropNoGrid | DropBadH3 | DropBadBand | DropOff | DropMode.

Global Instance pathOnlyDropReason_dec : EqDecision pathOnlyDropReason.
Proof. solve_decision. Defined.

Definition inc_if (b : bool) (n : Z) : Z := if b then uint64 (n + 1) else n.

Definition recordPathOnlyDrop (reason : pathOnlyDropReason) (s : pathOnlyStats) : pathOnlyStats :=
  let at_ r n := inc_if (bool_decide (reason = r)) n in
  mkPathOnly (po_updates s) (uint64 (po_drops s + 1)) (at_ DropStale (po_stale s)) (at_ DropNoSNR (po_noSNR s)) (at_ DropNoGrid (po_noGrid s)) (at_ DropBadH3 (po_badH3 s))
    (at_ DropBadBand (po_badBand s)) (at_ DropOff (po_off s)) (at_ DropMode (po_mode s)).

Definition count_update (s : pathOnlyStats) : pathOnlyStats :=
  mkPathOnly (uint64 (po_updates s + 1)) (po_drops s) (po_stale s) (po_noSNR s) (po_noGrid s) (po_badH3 s) (po_badBand s) (po_off s) (po_mode s).

Definition diffCounterRaw (current previous : Z) : Z := if previous <=? current then current - previous else current.

Definition diffPathOnly (a b : pathOnlyStats) : pathOnlyStats :=
  let d f := diffCounterRaw (f a) (f b) in
  mkPathOnly (d po_updates) (d po_drops) (d po_stale) (d po_noSNR) (d po_noGrid) (d po_badH3) (d po_badBand) (d po_off) (d po_mode).

(** ** The report's figures *)

Record pathReportMetrics := mkMetrics { hourKey : string; spotters : gmap string (gset string); gridPairs : gmap string (gset string); sourceCounts : gmap string Z }.

Definition newPathReportMetrics : pathReportMetrics := mkMetrics "" ∅ ∅ ∅.

Definition sourceBucket (source : string) : string :=
  if bool_decide (source = SourceRBN) then "RBN"
  else if bool_decide (source = SourceFT8) || bool_decide (source = SourceFT4) then "RBN-FT"
  else if bool_decide (source = SourcePSKReporter) then "PSK"
  else if bool_decide (source = SourceManual) then "HUMAN"
  else if bool_decide (source = SourceUpstream) then "UPSTREAM"
  else if bool_decide (source = SourcePeer) then "PEER"
  else "OTHER".

(** The layout "2006-01-02 15". *)
Definition format_hour (t : Z) : string :=
  let '(y, m, d) := civil_from_days (t / day_ns) in
  format_year y +:+ "-" +:+ two_digits m +:+ "-" +:+ two_digits d +:+ " " +:+ two_digits (t mod day_ns / hour).

Definition add_to (band v : string) (m : gmap string (gset string)) : gmap string (gset string) := <[band := {[v]} ∪ default ∅ (m !! band)]> m.

Section Cells.
Context (encodeCell encodeCoarseCell : string -> Z).

Definition report_band (s : Spot) : string :=
  let band := TrimSpace (BandNorm s) in
  let band := if bool_decide (band = "") then TrimSpace (Band s) else band in
  let band := if bool_decide (band = "") then FreqToBand (Frequency s) else band in
  TrimSpace (NormalizeBand band).

Definition Observe (s : Spot) (now : Z) (m : pathReportMetrics) : pathReportMetrics :=
  let key := format_hour (if IsZero (Time s) then now else Time s) in
  let band := report_band s in
  if bool_decide (band = "") || bool_decide (band = "???") then m
  else
    let deCall := if bool_decide (TrimSpace (DECallNorm s) = "") then TrimSpace (DECall s) else TrimSpace (DECallNorm s) in
    let m := if bool_decide (hourKey m = key) then m else mkMetrics key ∅ ∅ (sourceCounts m) in
    let label := sourceBucket (SourceType s) in
    let counts := if bool_decide (label = "") then sourceCounts m else <[label := uint64 (default 0 (sourceCounts m !! label) + 1)]> (sourceCounts m) in
    let sp := if bool_decide (deCall = "") then spotters m else add_to band deCall (spotters m) in
    let deCoarse := encodeCoarseCell (Grid (DEMetadata s)) in
    let dxCoarse := encodeCoarseCell (Grid (DXMetadata s)) in
    let gp := if negb (deCoarse =? InvalidCell) && negb (dxCoarse =? InvalidCell) then add_to band (Itoa deCoarse +:+ "|" +:+ Itoa dxCoarse) (gridPairs m) else gridPairs m in
    mkMetrics (hourKey m) sp gp counts.

(** The counts stay as keys with zero. *)
Definition SnapshotSources (m : pathReportMetrics) : gmap string Z * pathReportMetrics :=
  (sourceCounts m, mkMetrics (hourKey m) (spotters m) (gridPairs m) ((fun _ => 0) <$> sourceCounts m)).

Definition set_sizes (m : gmap string (gset string)) : gmap string Z := (fun v => Z.of_nat (size v)) <$> m.

Definition HourlyCounts (now : Z) (m : pathReportMetrics) : (string * gmap string Z * gmap string Z) * pathReportMetrics :=
  let m := if bool_decide (hourKey m = "") then mkMetrics (format_hour now) (spotters m) (gridPairs m) (sourceCounts m) else m in
  ((hourKey m, set_sizes (spotters m), set_sizes (gridPairs m)), m).

(** ** The path-only loop *)

Context (exp_ pow10 : Q -> Q).

(** What a path-only spot says to the predictor, or why it is dropped. *)
Record reading_of := mkReadingOf { ro_bucket : BucketClass; ro_de : Z; ro_dx : Z; ro_deCoarse : Z; ro_dxCoarse : Z; ro_band : string; ro_ft8 : Q; ro_time : Z }.

Definition path_only_reading (policy : SpotPolicy) (allowed : gset string) (predictor : option Predictor) (s : Spot) (now : Z) : pathOnlyDropReason + reading_of :=
  if isStale s policy now then inl DropStale
  else
    match predictor with
    | None => inl DropOff
    | Some p =>
        if negb (cfg_Enabled (pr_cfg p)) then inl DropOff
        else if negb (HasReport s) then inl DropNoSNR
        else
          let mode := if bool_decide (TrimSpace (ModeNorm s) = "") then Mode s else ModeNorm s in
          match FT8Equivalent mode (Report s) (pr_cfg p) with
          | None => inl DropMode
          | Some ft8 =>
              match BucketForIngest mode with
              | BucketNone => inl DropMode
              | bucket =>
                  let dxGrid := TrimSpace (Grid (DXMetadata s)) in
                  let deGrid := TrimSpace (Grid (DEMetadata s)) in
                  if bool_decide (dxGrid = "") || bool_decide (deGrid = "") then inl DropNoGrid
                  else
                    let dxCell := encodeCell dxGrid in
                    let deCell := encodeCell deGrid in
                    let dxCoarse := encodeCoarseCell dxGrid in
                    let deCoarse := encodeCoarseCell deGrid in
                    if ((dxCell =? InvalidCell) || (deCell =? InvalidCell)) && ((dxCoarse =? InvalidCell) || (deCoarse =? InvalidCell)) then inl DropBadH3
                    else
                      let band := if bool_decide (TrimSpace (BandNorm s) = "") then Band s else BandNorm s in
                      let band := if bool_decide (TrimSpace band = "") || bool_decide (band = "???") then FreqToBand (Frequency s) else band in
                      let band := TrimSpace (NormalizeBand band) in
                      if bool_decide (band = "") || bool_decide (band = "???") then inl DropBadBand
                      else if negb (allowedBand allowed band) then inl DropBadBand
                      else inr (mkReadingOf bucket deCell dxCell deCoarse dxCoarse band ft8 (if IsZero (Time s) then now else Time s))
              end
          end
    end.

Record pathOnlyState := mkPathState { ps_predictor : option Predictor; ps_report : option pathReportMetrics; ps_stats : pathOnlyStats }.

Definition processPSKRPathOnlySpots (policy : SpotPolicy) (allowed : gset string) (s : Spot) (now : Z) (x : pathOnlyState) : pathOnlyState :=
  match path_only_reading policy allowed (ps_predictor x) s now with
  | inl reason => mkPathState (ps_predictor x) (ps_report x) (recordPathOnlyDrop reason (ps_stats x))
  | inr r =>
      mkPathState (Predictor_Update exp_ pow10 (ro_bucket r) (ro_de r) (ro_dx r) (ro_deCoarse r) (ro_dxCoarse r) (ro_band r) (ro_ft8 r) 1 (ro_time r) (IsBeacon s) <$> ps_predictor x)
        (Observe s (ro_time r) <$> ps_report x) (count_update (ps_stats x))
  end.

(** ** Every path-only spot is accounted for *)

(** A run of the loop over spots, each with its time. *)
Definition path_only_run (policy : SpotPolicy) (allowed : gset string) (spots : list (Spot * Z)) (x : pathOnlyState) : pathOnlyState :=
  fold_left (fun x e => processPSKRPathOnlySpots policy allowed e.1 e.2 x) spots x.

(** What the loop makes of every spot, with the settings of the predictor it starts with. *)
Definition outcomes (policy : SpotPolicy) (allowed : gset string) (p : option Predictor) (spots : list (Spot * Z)) : list (Spot * (pathOnlyDropReason + reading_of)) :=
  map (fun e => (e.1, path_only_reading policy allowed p e.1 e.2)) spots.

Definition predict_step (p : option Predictor) (o : Spot * (pathOnlyDropReason + reading_of)) : option Predictor :=
  match o.2 with
  | inl _ => p
  | inr r => Predictor_Update exp_ pow10 (ro_bucket r) (ro_de r) (ro_dx r) (ro_deCoarse r) (ro_dxCoarse r) (ro_band r) (ro_ft8 r) 1 (ro_time r) (IsBeacon o.1) <$> p
  end.

Definition dropped_for (r : pathOnlyDropReason) (o : Spot * (pathOnlyDropReason + reading_of)) : bool := match o.2 with inl r' => bool_decide (r' = r) | inr _ => false end.
Definition used (o : Spot * (pathOnlyDropReason + reading_of)) : bool := match o.2 with inl _ => false | inr _ => true end.

Definition stats_of (l : list (Spot * (pathOnlyDropReason + reading_of))) : pathOnlyStats :=
  let n p := count_if p l in
  mkPathOnly (n used) (n (fun o => negb (used o))) (n (dropped_for DropStale)) (n (dropped_for DropNoSNR)) (n (dropped_for DropNoGrid)) (n (dropped_for DropBadH3))
    (n (dropped_for DropBadBand)) (n (dropped_for DropOff)) (n (dropped_for DropMode)).

Definition stats_step (s : pathOnlyStats) (o : Spot * (pathOnlyDropReason + reading_of)) : pathOnlyStats :=
  match o.2 with inl r => recordPathOnlyDrop r s | inr _ => count_update s end.

Lemma Predictor_Update_cfg b a c d e band f w now bc p : pr_cfg (Predictor_Update exp_ pow10 b a c d e band f w now bc p) = pr_cfg p.
Proof. unfold Predictor_Update. destruct (negb _); [done|]. by destruct b. Qed.

Lemma reading_cfg policy allowed p q s now : pr_cfg <$> p = pr_cfg <$> q -> path_only_reading policy allowed p s now = path_only_reading policy allowed q s now.
Proof. intros H. unfold path_only_reading. destruct p as [p|], q as [q|]; simpl in H; try done. by injection H as ->. Qed.

Lemma predict_cfg p o : pr_cfg <$> predict_step p o = pr_cfg <$> p.
Proof. unfold predict_step. destruct (o.2) as [?|r]; [done|]. destruct p as [p|]; [|done]. simpl. by rewrite Predictor_Update_cfg. Qed.

Lemma step_parts policy allowed s now x : let o := (s, path_only_reading policy allowed (ps_predictor x) s now) in
  let y := processPSKRPathOnlySpots policy allowed s now x in
  ps_predictor y = predict_step (ps_predictor x) o /\ ps_stats y = stats_step (ps_stats x) o.
Proof. cbv zeta. unfold processPSKRPathOnlySpots, predict_step, stats_step. cbn [fst snd]. by destruct (path_only_reading _ _ _ _ _). Qed.

Lemma run_parts policy allowed p0 spots : forall x, pr_cfg <$> ps_predictor x = pr_cfg <$> p0 ->
  let y := path_only_run policy allowed spots x in
  ps_predictor y = fold_left predict_step (outcomes policy allowed p0 spots) (ps_predictor x) /\
  ps_stats y = fold_left stats_step (outcomes policy allowed p0 spots) (ps_stats x).
Proof.
  induction spots as [|[s now] spots IH]; intros x Hx; [done|]. cbv zeta in *. unfold path_only_run in *. cbn [fold_left outcomes map fst snd].
  destruct (step_parts policy allowed s now x) as [H1 H2]. set (y := processPSKRPathOnlySpots policy allowed s now x) in *.
  rewrite (reading_cfg policy allowed (ps_predictor x) p0) in H1, H2 by done. destruct (IH y) as [H3 H4]; [by rewrite H1, predict_cfg|].
  unfold outcomes in H3, H4. by rewrite H3, H4, H1, H2.
Qed.

Lemma count_if_snoc {A} (p : A -> bool) l x : count_if p (l ++ [x]) = count_if p l + (if p x then 1 else 0).
Proof. unfold count_if. rewrite List.filter_app, length_app. simpl. destruct (p x); simpl; lia. Qed.

Lemma count_if_le {A} (p : A -> bool) l : 0 <= count_if p l <= Z.of_nat (length l).
Proof. unfold count_if. pose proof (List.filter_length_le p l). lia. Qed.

Lemma count_bound {A} (p : A -> bool) l x : Z.of_nat (length (l ++ [x])) < 2 ^ 64 -> uint64 (count_if p l + 1) = count_if p l + 1.
Proof. intros H. rewrite length_app in H. simpl in H. pose proof (count_if_le p l). unfold uint64. apply Z.mod_small. lia. Qed.

Lemma stats_fold l : Z.of_nat (length l) < 2 ^ 64 -> fold_left stats_step l (stats_of []) = stats_of l.
Proof.
  induction l as [|o l IH] using rev_ind; intros Hl; [done|]. rewrite fold_left_app. cbn [fold_left]. rewrite IH by (rewrite length_app in Hl; simpl in Hl; lia).
  unfold stats_step, stats_of, recordPathOnlyDrop, count_update, inc_if, used, dropped_for. cbn [po_updates po_drops po_stale po_noSNR po_noGrid po_badH3 po_badBand po_off po_mode].
  rewrite !count_if_snoc, !(count_bound _ l o Hl). destruct o as [s [r|r]]; cbn [snd negb]; [destruct r|]; simpl; rewrite ?Z.add_0_r; reflexivity.
Qed.

Lemma outcome_split l : count_if used l + count_if (fun o => negb (used o)) l = Z.of_nat (length l).
Proof. unfold count_if. induction l as [|o l IH]; [done|]. simpl. destruct (used o); simpl; lia. Qed.


(** ** The hour of the report *)

Definition de_call_of (s : Spot) : string := if bool_decide (TrimSpace (DECallNorm s) = "") then TrimSpace (DECall s) else TrimSpace (DECallNorm s).

(** The calls heard on a band. *)
Definition heard (band : string) (l : list (Spot * Z)) : gset string :=
  list_to_set (map (fun e => de_call_of e.1) (List.filter (fun e => bool_decide (report_band e.1 = band) && negb (bool_decide (de_call_of e.1 = ""))) l)).

Definition hour_of (e : Spot * Z) : string := format_hour (if IsZero (Time e.1) then e.2 else Time e.1).
Definition observe_all (l : list (Spot * Z)) (m : pathReportMetrics) : pathReportMetrics := fold_left (fun m e => Observe e.1 e.2 m) l m.

Lemma heard_snoc band l e : heard band (l ++ [e]) = (if bool_decide (report_band e.1 = band) && negb (bool_decide (de_call_of e.1 = "")) then {[de_call_of e.1]} else ∅) ∪ heard band l.
Proof. unfold heard. rewrite List.filter_app, map_app, list_to_set_app_L, (union_comm_L _ (list_to_set _)). f_equal. simpl. destruct (_ && _); simpl; set_solver. Qed.

Lemma lookup_add_to b v band m : default ∅ (add_to b v m !! band) = (if bool_decide (b = band) then {[v]} else ∅) ∪ default ∅ (m !! band).
Proof. unfold add_to. case_bool_decide as E; [subst; by rewrite lookup_insert_eq|]. rewrite lookup_insert_ne by done. by rewrite union_empty_l_L. Qed.

(** Within an hour the spotters of a band are the calls heard on it. *)
Lemma observe_hour key l band : band <> "" -> band <> "???" -> (forall e, e ∈ l -> hour_of e = key) ->
  default ∅ (spotters (observe_all l (mkMetrics key ∅ ∅ ∅)) !! band) = heard band l /\ hourKey (observe_all l (mkMetrics key ∅ ∅ ∅)) = key.
Proof.
  intros Hb1 Hb2. induction l as [|e l IH] using rev_ind; intros Hl; [done|]. unfold observe_all in *. rewrite fold_left_app. cbn [fold_left].
  destruct IH as [IH1 IH2]; [intros e' He; apply Hl, elem_of_app; by left|]. set (m := fold_left _ l _) in *. rewrite heard_snoc.
  assert (Hk : hour_of e = key) by (apply Hl, elem_of_app; right; by left). unfold Observe. cbv zeta. fold (hour_of e). rewrite Hk, IH2, (bool_decide_true (key = key)) by done. fold (de_call_of e.1).
  destruct (bool_decide (report_band e.1 = "") || bool_decide (report_band e.1 = "???")) eqn:Hr.
  - rewrite (bool_decide_false (report_band e.1 = band)); [cbn [andb]; by rewrite union_empty_l_L|]. intros E. rewrite E in Hr. apply orb_true_iff in Hr as [Hr|Hr]; by apply bool_decide_eq_true in Hr.
  - cbn [spotters hourKey]. split; [|done]. rewrite <- IH1. destruct (bool_decide (de_call_of e.1 = "")); [rewrite andb_false_r; by rewrite union_empty_l_L|]. cbn [negb]. rewrite andb_true_r. apply lookup_add_to.
Qed.
End Cells.

(** ** Examples *)

Definition demo_spot (call grid : string) (t : Z) : Spot :=
  set_DEMetadata (mkCallMetadata "" "" 0 grid false 0 0) (set_DXMetadata (mkCallMetadata "" "" 0 "FN42" false 0 0) (NewSpotNormalized "K1ABC" call 14095.6 "WSPR" t)).

Definition demo_cells (g : string) : Z := 7.
Definition demo_spots : list (Spot * Z) := [(demo_spot "W3LPL" "FM19" (2 * hour), 2 * hour); (demo_spot "DL1ABC" "" (2 * hour), 2 * hour)].


(** A spot of the former hour that arrives late starts the count of the present hour again. *)
Example late_spot_clears_hour :
  let m := observe_all demo_cells [(demo_spot "W3LPL" "FM19" (2 * hour), 2 * hour); (demo_spot "DL1ABC" "JO62" (2 * hour - 1), 2 * hour); (demo_spot "JA1XYZ" "PM95" (2 * hour), 2 * hour)] newPathReportMetrics in
  (HourlyCounts (2 * hour) m).1 = ("1970-01-01 02", {[ "20m" := 1 ]}, {[ "20m" := 1 ]}).
Proof. vm_compute. reflexivity. Qed.
